(* ===== verification/_CoqProject ===== *)
-Q . S2P
Prelude.v
Json.v
Wire.v
EventInvariants.v
Codec.v
TlogWriter.v
TlogReader.v
TlogLog.v
TlogGate.v
Text.v
TlogOpen.v
ControlHarness.v
ConstraintEngine.v
Discovery.v
ConstraintProps.v
CodeGraph.v
CodeGraphInv.v
GraphSnapshot.v
CodeGraphProps.v
Scheduler.v
PatchParser.v
PatchTotal.v
PatchRoundTrip.v
RequestLifecycle.v
JointHarness.v
PlanGraphs.v
AlgoSort.v
AlgoSortProps.v
AlgoSearch.v
AlgoSearchProps.v
UnionFind.v
Merkle.v
HashTable.v
Containers.v
AlgoGraph.v
AlgoTopo.v
AlgoScc.v
Constraints.v
Dominators.v
CanonIr.v
CanonIrProps.v
CanonCsr.v
Gatekeeper.v
RouteSelect.v
TextFormat.v
Paths.v
SemanticState.v
SemanticText.v
Objectives.v
LoopPolicy.v
EventShape.v
KernelTypes.v
Events.v
EventBus.v
RuntimeEngine.v
EventRuntime.v
RuntimeProps.v
Goal.v
RouteContext.v
RouteExecutor.v
RouteProps.v
Merge.v
ExecConstraints.v
CompilerHints.v
Workspace.v
Preconditions.v
LoopContext.v
LoopStages.v
ActStage.v
LoopExecutor.v
PlanStage.v
StageProps.v
LoopFrame.v
LoopProps.v
RoutePolicy.v
PolicyMatrix.v
MatrixCheck.v
RepairControl.v
Consumers.v
JsonPath.v
