(* ===== verification/Prelude.v ===== *)
(** * Canon: a verification library for an event-sourced control runtime

    ** The program

    The repository is an agent runtime.  Everything it does is recorded as
    events in an append-only, segmented log ([canon-runtime-events]); the
    control plane may only write an event that legally follows the one before
    it, and each control event may oblige a particular successor.  Readers
    ([canon-storage-eventlog]) rebuild from the log a graph of the analysed
    Rust code, a graph of goals and one of capabilities.  A constraint engine
    ([canon-invariant]) decides which routes and actions are allowed, learns
    new invariants from repeated failures, and carries harnesses that
    enumerate the control and request states.  Tasks are queued by a scheduler
    ([canon-loop]) and source edits arrive as textual patches
    ([canon-tools-patch]).  A language model proposes the next route
    ([canon-decision]), a gatekeeper corrects it ([canon-judgment]), and both
    the planner and the router read a semantic summary of the workspace
    ([canon-semantic-state]).  The captured code is held in an intermediate
    representation ([canon-ir]), and a library of algorithms ([algorithms])
    serves the analyses.  Between ticks a route executor ([canon-route]) asks
    for one route; in a tick the loop executor ([canon-loop]) observes the
    workspace, plans, checks the plan against the preconditions of the
    workspace, runs its tools, verifies and rewards.  The paths below are
    relative to [src/canon-utils], those of the last two crates named before
    to [src].

    ** The files

    - [Prelude]: results, the state-and-error monad with its notation, machine
      integers, bytes and little-endian encodings, the hint databases and
      tactics, shared list lemmas.
    - [Json]: the interface to [serde_json::Value] (classes [Json] and
      [JsonLaws]) and a concrete implementation.
    - [Wire]: [canon-runtime-events/src/wire.rs], the event kinds, their names,
      classes and transition table, events and their constructors.
    - [EventInvariants]: [canon-runtime-events/src/invariants.rs], validation
      of events and transitions and successor obligations.
    - [Codec]: the interface to serialization and hashing, with a concrete
      codec.
    - [TlogWriter]: [canon-runtime-events/src/tlog/binary.rs], the segment
      writer: duplicate caches, rotation, retention, the gates and
      [write_canon_event].  The record [Writer] holds the fields of
      [BinarySegmentWriter]; the directory is the map of its files.
    - [TlogReader]: [canon-storage-eventlog/src/binary_reader.rs] and
      [reader.rs], frame splitting, record decoding, the directory scan.
    - [TlogLog], [TlogGate]: the log invariant of writer and reader together,
      and the properties of [write_canon_event].
    - [TlogOpen]: [open_with_config], [recover_segment] and the retention of
      [binary.rs], with [Text] for lines and trimming.
    - [ControlHarness], [RequestLifecycle], [JointHarness]:
      [canon-invariant/src/control_harness.rs],
      [request_lifecycle_harness.rs], [constraint_harness.rs] and
      [cross_product_harness.rs].
    - [ConstraintEngine], [Discovery], [ConstraintProps]:
      [canon-invariant/src/lib.rs], the decisions and meta invariants, the
      discovery of invariants with its store, and their properties.
    - [CodeGraph], [CodeGraphInv], [CodeGraphProps]:
      [canon-storage-eventlog/src/replay.rs] and [graph_types.rs], the code
      graph as a fold over compiler events, its invariant and its refinement of
      a graph over symbols.  [GraphSnapshot]: [snapshot.rs].
    - [PlanGraphs]: [goal_graph_projector.rs] and
      [capability_graph_projector.rs].
    - [Scheduler]: [canon-loop/src/scheduler.rs], the task queue and the
      dependency tracker.
    - [PatchParser], [PatchTotal], [PatchRoundTrip]:
      [canon-tools-patch/src/parser.rs], the parser, its totality and its round
      trip with a printer.
    - [Gatekeeper]: [canon-judgment/src/lib.rs], the rules that correct a
      proposed route, in IEEE single precision, and the counters they keep;
      [RouteSelect]: [canon-decision/src/lib.rs] and
      [canon-runtime-supervisor/src/judgment_loop.rs], from model output to
      reviewed route.
    - [TextFormat]: printing and parsing of numbers, substring search.
      [SemanticState], [SemanticText], [Objectives]:
      [canon-semantic-state/src/lib.rs], the summary and its line form, its
      updates and printed blocks, trends, objectives, strategies, intents and
      execution results.  [LoopPolicy]: [canon-loop/src/policy.rs].
    - [EventShape]: [canon-proc-macros/src/lib.rs], what the macros check and
      generate for a structure of event fields; [KernelTypes]:
      [canon-types/src/kernel_types.rs] and [Events]:
      [canon-runtime-events/src/events.rs], one module per structure with its
      fields and declaration, and the enumeration of runtime events.
    - [EventBus]: [canon-runtime/src/bus.rs] and [hooks.rs]; [RuntimeEngine]:
      [invariants.rs]; [EventRuntime], [RuntimeProps]: [lib.rs], the runtime
      object with its live path (append through the writer, dispatch, drain),
      its replay and the kernel processor thread.  Consumers and hooks are
      records of a state and a method.
    - [Goal]: [canon-goal/src/lib.rs]; [RouteContext], [RouteExecutor],
      [RouteProps]: [canon-route/src/context.rs], [executor.rs] and the goal
      objects they keep, the router as a state machine on events.
    - [Paths]: what the loop uses of [std::path]; [Merge], [ExecConstraints],
      [CompilerHints], [Workspace], [Preconditions]: [canon-loop/src/], merging
      of patches, the rewriting of planned commands, the reading of compiler
      diagnostics, the model of the workspace ([env_model.rs]) and the
      preconditions a plan must discharge.
    - [LoopContext]: [canon-loop/src/context.rs]; [LoopStages]: [result.rs] and
      [stage/] observe, verify, reward, decompose; [ActStage]: [stage/act.rs];
      [PlanStage]: [stage/plan.rs]; [LoopExecutor]: [executor.rs].
      [StageProps]: properties of single stages; [LoopFrame]: a logic for what
      handlers preserve; [LoopProps]: properties of runs of the loop.
    - [RoutePolicy]: [canon-route/src/policy.rs]; [PolicyMatrix]:
      [canon-policy-matrix/src/lib.rs], the repository's own table of scenarios
      with the verdicts it expects; [MatrixCheck]: its evaluation against the
      policies of the other files.
    - [RepairControl]:
      [canon-runtime/src/consumers/repair_control_consumer.rs]; [Consumers]:
      the other consumers there, from the watchdog to the error logger, and the
      policy of [canon-exec/src/policy.rs].
    - [JsonPath]: [canon-tools-analysis/src/query/jsonpath.rs] and the checks of
      [query/mod.rs], the compiler of queries.
    - [CanonIr], [CanonIrProps], [CanonCsr]: [canon-ir/src/], the node, type
      and edge vocabulary, the interners, the arena with its type index, the
      compressed adjacency and its two builders.
    - [AlgoSort], [AlgoSortProps]: [algorithms/src/sorting/],
      [data_structures/heap.rs]; [AlgoSearch], [AlgoSearchProps]: [searching/],
      [string_algorithms/]; [UnionFind]: [data_structures/union_find.rs],
      [constraints/unification.rs]; [Merkle]: [cryptography/merkle_tree.rs];
      [HashTable]: [data_structures/hash_table.rs]; [Containers]: [queue.rs],
      [arena.rs], [memory_systems/lru.rs]; [AlgoGraph], [AlgoTopo], [AlgoScc]:
      [graph/]; [Constraints]: [constraints/sat.rs], [ac3.rs],
      [forward_checking.rs]; [Dominators]: [control_flow/dominators.rs].

    A method that mutates [self] is a function on the record of its fields; a
    method that can also fail is in the monad [stateR], which keeps the
    mutations made before the error.  Hash maps are [gmap], except where their
    listing order is observable.  Locks are modelled where the code can block
    on one its own thread holds (the fault [Hang] of the writer).

    ** What the theorems show

    - Vocabulary and obligations: which names round-trip, every obligation can
      be discharged, the control plane has no dead end.
    - The log: an accepted run respects all obligations; every write extends
      the events on disk by at most one, whatever its outcome, and takes old
      ones away only as whole segments beyond a retention limit; accepted
      control events are durable (stated for a log without such a limit); rejected edges stay rejected; a torn tail is ignored;
      the duplicate cache is a sliding window; retention and recovery do what
      they promise; and two ways in which the writer does not: a rejected
      transition blocks forever, and reopening discards the latest segment.
    - Harnesses: the exact counts over all traces, the seed spaces, the
      breadth-first joint table (its result for every depth, and that its fuel
      is enough), the decisions on requests and retries.
    - Constraints: promoted invariants are justified by observations,
      persistence is transparent, demotion takes three records, rewritten
      decisions are accepted, trajectory scores are exact within [i32].
    - Graphs: replay keeps the index, the edges and the file table consistent;
      it implements a graph over symbols; one crate's graph depends on its last
      session only; snapshots round-trip; the goal graph can be resumed.
    - Scheduling: priority order, first come first served, capacities, and the
      double release of tasks with two dependencies.
    - Patches: the parser is total and inverts the printer (on lines without
      trailing white space, and added lines that do not start with a plus sign).
    - Routing: what a review decides is a table over the signals; without
      queued work a run stops at the cycle cap and repetitions are bounded; a
      finished run can be held in observation by the repeat limit; the first
      acceptable candidate in the model's text is the one reviewed.
    - Router: between ticks it emits one route once there is an observation with
      a summary, and none before; verifications, policy updates and rewards
      leave no trace in it; its decision is a table over its signals.
    - Loop: a tick is observed once and every routed tick is observed, unless
      cutting a text inside a character panics; the loop never plans on its own; results of completed tools can be lost; a plan
      that is accepted is sound; a planned action survives its trip through the
      log, up to the default directory of a command and the reason of a [done]; relative removals pass the guard of the act stage; rewards are
      bounded; a batch accepted against the preconditions has an action for
      each; rewriting a command settles after one round.
    - Matrix: which rows of the table the policies satisfy, which families it
      covers, and that its generated rows are exactly the valid states.
    - Repair: the controller has a budget of eighty productive signals; clean
      verifications stick it; only a demand to plan again or a clean
      verification frees it; its history is a path through its table.
    - Consumers: a silent stage brings the runtime down through the watchdog; the
      goal graph and the analyst never act; the window of the error logger is
      exact; diagnostics keep their distance; endpoints are assigned in turn.
    - Queries: the compiler of paths ends on every text, plain paths become the
      moves they name, and no query is ever run.
    - Semantic state: the line form round-trips on the summaries it can carry,
      objectives are ranked and the
      strategy follows the first, recorded trends are exact counts, and a retry
      is demanded exactly when the history asks for one.
    - Runtime: the events it converts pass the writer's checks under the kind of
      their variant (or as the start of the runtime); ticks are only
      accepted between cycles; the compiler state keeps known and removed apart;
      and where it fails: a first event without parents halts it, an
      observation emitted directly is not logged, decisions of hooks on
      unprotected events have no effect, a dropped duplicate becomes a parent,
      the first compiler event is refused.
    - Representation: every sequence of operations that makes types by interning
      keeps identifiers dense and the indices exact, reloading and restoring loses nothing, equal types get
      one node, and the adjacency lists exactly the edges given.
    - Algorithms: each routine returns without a panic and computes its
      specification: sorted permutations, priority queues, occurrences,
      equivalence classes, Merkle proofs, maps, queues and caches, topological
      orders, components, models, arc-consistent domains, dominators; and where
      it does not: removal from the hash table, post-dominators.

    ** Interfaces, bounds and fuel

    Serialization, hashing and JSON values are type classes.  The log theorems
    assume a faithful codec (an encoded event decodes to itself and fits a
    [u32] length), which the concrete codec satisfies.  Segments are shorter
    than the [MAGIC] number and graphs have fewer than [2^32] events, because
    lengths and identifiers are [u32] in the source.  Fuel is the length of the
    buffer, of the heap or of the line list, which every round shortens; the
    joint search has one round for each seed and for each step of each state; the
    compiler of paths has one round for each character.
    Each fuelled function has a theorem that it ends, or a lemma that more fuel
    changes nothing.  Consumers may answer every event with another, so the
    drain of the runtime need not end; its fuel bounds the events handled in one
    call, and more fuel changes no run that ends.  The loop reads files, clocks,
    hashes and tool results through a parameter [World], whose files change at
    most between two events; the texts of prompts are the class [PromptText];
    the stages a loop runs are the class [WorkStages], and [StageContract] is
    what the theorems on runs ask of them, which the stages of [LoopStages],
    [ActStage] and [PlanStage] provide.

    ** What is not modelled

    File-system calls succeed.  The divisors of the segment configuration
    ([index_stride], [time_bucket_ms]) are taken to be non-zero, as in every
    configuration the sources build; zero would panic.  The branch of
    [append_runtime_event] for a log in a single file is left out, since
    [set_tlog_path] refuses such a path.  Printed floating-point scores, trace output, the
    archive format of snapshots, line-oriented logs read from single files, the
    network, language models, the compiler driver and the command line are not
    modelled.  The goal generator, which decides on the debug text of events, the
    tools themselves, the binaries, the reports of the analysis tools and the
    remaining algorithms (number theory, dynamic programming, geometry, flows)
    are left out; the GPU bridges are foreign code. *)

From Stdlib Require Export Strings.Byte.
From stdpp Require Export base tactics list gmap strings.
From Stdlib Require Export NArith Lia.

#[global] Set Default Goal Selector "!".

(** ** Results and the state-and-error monad

    [Result<T, E>] of the sources.  [anyhow::Error] values are modelled by
    their rendered message. *)
Inductive result (E A : Type) : Type :=
| Ok (a : A)
| Err (e : E).
Arguments Ok {E A} a.
Arguments Err {E A} e.

#[export] Instance result_ret {E} : MRet (result E) := fun _ a => Ok a.
#[export] Instance result_bind {E} : MBind (result E) :=
  fun _ _ f r => match r with Ok a => f a | Err e => Err e end.

Definition is_ok {E A} (r : result E A) : bool :=
  match r with Ok _ => true | Err _ => false end.
Definition is_err {E A} (r : result E A) : bool := negb (is_ok r).

(** A computation that mutates a state and may stop early with an error; the
    mutations made before the error persist, as with [&mut self] and [?]. *)
Definition stateR (S E A : Type) : Type := S -> S * result E A.

#[export] Instance stateR_ret {S E} : MRet (stateR S E) := fun _ a s => (s, Ok a).
#[export] Instance stateR_bind {S E} : MBind (stateR S E) :=
  fun _ _ f m s =>
    match m s with
    | (s', Ok a) => f a s'
    | (s', Err e) => (s', Err e)
    end.

Definition fail_with {S E A} (e : E) : stateR S E A := fun s => (s, Err e).
Definition get_state {S E} : stateR S E S := fun s => (s, Ok s).
Definition modify {S E} (f : S -> S) : stateR S E unit := fun s => (f s, Ok tt).
Definition gets {S E A} (f : S -> A) : stateR S E A := fun s => (s, Ok (f s)).

Lemma stateR_bind_ok {S E A B} (m : stateR S E A) (f : A -> stateR S E B) s s' b :
  mbind f m s = (s', Ok b) -> exists s1 a, m s = (s1, Ok a) /\ f a s1 = (s', Ok b).
Proof. unfold mbind, stateR_bind. destruct (m s) as [s1 [a|e]]; [eauto|done]. Qed.

(** Either the first computation fails, or it succeeds and the rest runs. *)
Lemma stateR_bind_inv {S E A B} (m : stateR S E A) (f : A -> stateR S E B) s s' r :
  mbind f m s = (s', r) ->
  (exists e, m s = (s', Err e) /\ r = Err e) \/ (exists s1 a, m s = (s1, Ok a) /\ f a s1 = (s', r)).
Proof.
  unfold mbind, stateR_bind. destruct (m s) as [s1 [a|e]]; [eauto|].
  intros [= <- <-]. eauto.
Qed.

Declare Scope canon_scope.
Delimit Scope canon_scope with canon.
Notation "'let!' x ':=' m 'in' k" := (mbind (fun x => k) m)
  (at level 10, x pattern, m at level 100, k at level 200) : canon_scope.
Notation "m ';;!' k" := (mbind (fun _ => k) m)
  (at level 100, k at level 200, right associativity) : canon_scope.
#[global] Open Scope canon_scope.

(** ** Machine integers: unsigned values are [N], with their width written out *)

Definition u32_max : N := 4294967295.
Definition u64_max : N := 18446744073709551615.
Definition wrap32 (n : N) : N := (n mod 4294967296)%N.
Definition wrap64 (n : N) : N := (n mod 18446744073709551616)%N.
(** [u32::saturating_add] and [u64::saturating_add]. *)
Definition sat_add32 (a b : N) : N := N.min (a + b) u32_max.
Definition sat_add64 (a b : N) : N := N.min (a + b) u64_max.

Lemma wrap32_small n : (n < 4294967296)%N -> wrap32 n = n.
Proof. apply N.mod_small. Qed.
Lemma wrap64_small n : (n < 18446744073709551616)%N -> wrap64 n = n.
Proof. apply N.mod_small. Qed.
Lemma sat_add64_exact a b : (a + b <= u64_max)%N -> sat_add64 a b = (a + b)%N.
Proof. unfold sat_add64. lia. Qed.
Lemma sat_add32_exact a b : (a + b <= u32_max)%N -> sat_add32 a b = (a + b)%N.
Proof. unfold sat_add32. lia. Qed.

(** ** Bytes and little-endian encodings *)

Abbreviation bytes := (list byte).

#[export] Instance byte_eq_dec : EqDecision byte := Byte.byte_eq_dec.

#[export] Instance byte_countable : Countable byte := inj_countable Byte.to_N Byte.of_N Byte.of_to_N.
(** The low eight bits of [n] as a byte ([n as u8]). *)
Definition byte_of (n : N) : byte := default x00 (Byte.of_N (n mod 256)).

Lemma byte_of_to_N n : Byte.to_N (byte_of n) = (n mod 256)%N.
Proof.
  unfold byte_of. destruct (Byte.of_N (n mod 256)) as [b|] eqn:E; simpl.
  - by apply Byte.to_of_N.
  - apply Byte.of_N_None_iff in E. pose proof (N.mod_lt n 256). lia.
Qed.

Lemma byte_to_N_lt b : (Byte.to_N b < 256)%N.
Proof. pose proof (Byte.to_N_bounded b). lia. Qed.

Lemma byte_of_to b : byte_of (Byte.to_N b) = b.
Proof.
  unfold byte_of. rewrite N.mod_small by apply byte_to_N_lt. by rewrite Byte.of_to_N.
Qed.

(** [x.to_le_bytes()] for a width of [w] bytes, and [from_le_bytes]. *)
Fixpoint to_le_bytes (w : nat) (n : N) : bytes :=
  match w with
  | O => []
  | S w' => byte_of n :: to_le_bytes w' (n / 256)
  end.

Fixpoint from_le_bytes (bs : bytes) : N :=
  match bs with
  | [] => 0
  | b :: bs' => Byte.to_N b + 256 * from_le_bytes bs'
  end%N.

Lemma length_to_le_bytes w n : length (to_le_bytes w n) = w.
Proof. revert n; induction w as [|w IH]; intros n; simpl; [done|]. by rewrite IH. Qed.

Lemma from_to_le_bytes w n : (n < 256 ^ N.of_nat w)%N -> from_le_bytes (to_le_bytes w n) = n.
Proof.
  revert n; induction w as [|w IH]; intros n Hn.
  - simpl in Hn |- *. lia.
  - rewrite Nat2N.inj_succ, N.pow_succ_r' in Hn.
    simpl. rewrite byte_of_to_N, IH.
    + pose proof (N.div_mod n 256). lia.
    + apply N.Div0.div_lt_upper_bound. lia.
Qed.

Lemma from_le_bytes_lt bs : (from_le_bytes bs < 256 ^ N.of_nat (length bs))%N.
Proof.
  induction bs as [|b bs IH]; [simpl; lia|].
  cbn [length from_le_bytes]. rewrite Nat2N.inj_succ, N.pow_succ_r'.
  pose proof (byte_to_N_lt b). lia.
Qed.

Lemma to_from_le_bytes bs : to_le_bytes (length bs) (from_le_bytes bs) = bs.
Proof.
  induction bs as [|b bs IH]; [done|].
  cbn [length from_le_bytes to_le_bytes]. pose proof (byte_to_N_lt b).
  f_equal.
  - rewrite <- (byte_of_to b) at 2. unfold byte_of.
    replace ((Byte.to_N b + 256 * from_le_bytes bs) mod 256)%N with (Byte.to_N b mod 256)%N; [done|].
    rewrite (N.mul_comm 256), N.Div0.mod_add. done.
  - replace ((Byte.to_N b + 256 * from_le_bytes bs) / 256)%N with (from_le_bytes bs); [done|].
    rewrite (N.mul_comm 256), N.div_add by lia. rewrite N.div_small by lia. lia.
Qed.

(** Length of a byte buffer as a [u64] ([len() as u64]). *)
Definition lenN {A} (l : list A) : N := N.of_nat (length l).

Lemma lenN_app {A} (l k : list A) : lenN (l ++ k) = (lenN l + lenN k)%N.
Proof. unfold lenN. rewrite length_app. lia. Qed.
Lemma lenN_nil {A} : lenN (@nil A) = 0%N.
Proof. done. Qed.
Lemma lenN_to_le_bytes w n : lenN (to_le_bytes w n) = N.of_nat w.
Proof. unfold lenN. by rewrite length_to_le_bytes. Qed.

(** ** Record update

    [r <| f := v |>] replaces a field of a record that has an [Eta] instance
    (its expansion over the fields), [r <| f ::= g |>] applies a function to it. *)
Class Eta (R : Type) : Type := eta : R -> R.
Class Setter {R T : Type} (proj : R -> T) : Type := update : (T -> T) -> R -> R.
Arguments update {R T} proj {_} _ _ : assert.
Ltac solve_setter :=
  match goal with |- @Setter ?R ?T ?proj =>
    let f := fresh "f" in let r := fresh "r" in intros f r;
    let body := eval hnf in (@eta R _ r) in
    lazymatch body with context C [proj r] => let b := context C [f (proj r)] in exact b end
  end.
#[export] Hint Extern 0 (Setter _) => solve_setter : typeclass_instances.
Notation "r <| f := v |>" := (update f (fun _ => v) r) (at level 12, left associativity, f at level 9, v at level 200).
Notation "r <| f ::= g |>" := (update f g r) (at level 12, left associativity, f at level 9, g at level 200).

(** ** Automation *)

Create HintDb canon.
Create Rewrite HintDb canon.
#[export] Hint Rewrite @lenN_app @lenN_nil lenN_to_le_bytes length_to_le_bytes : canon.
#[export] Hint Resolve byte_to_N_lt wrap32_small wrap64_small : canon.

(** Split every [if] and [match] of the goal and of the hypotheses. *)
Ltac split_ifs :=
  repeat match goal with
  | |- context [if ?b then _ else _] => destruct b eqn:?
  | H : context [if ?b then _ else _] |- _ => destruct b eqn:?
  end.

(** Boolean connectives in hypotheses, to propositions. *)
Ltac destruct_bools :=
  repeat match goal with
  | H : _ && _ = true |- _ => apply andb_true_iff in H as [? ?]
  | H : _ || _ = false |- _ => apply orb_false_iff in H as [? ?]
  | H : negb _ = true |- _ => apply negb_true_iff in H
  | H : negb _ = false |- _ => apply negb_false_iff in H
  end.

(** ** Lists *)

(** Append-if-absent, as [HashSet::insert] on an insertion-ordered set. *)
Lemma NoDup_snoc {A} (l : list A) x : NoDup l -> x ∉ l -> NoDup (l ++ [x]).
Proof.
  intros Hl Hx. apply NoDup_app. split; [done|]. split.
  - intros y Hy. rewrite list_elem_of_singleton. intros ->. done.
  - apply NoDup_singleton.
Qed.

Lemma NoDup_cons_snoc {A} (l : list A) x y : NoDup (y :: l) -> x ∉ (y :: l) -> NoDup (l ++ [x]).
Proof.
  intros Hl Hx. apply NoDup_cons in Hl as [_ Hl]. apply NoDup_snoc; [done|]. set_solver.
Qed.

(** Boolean enumeration: [forallb] over an enumeration decides a [∀]. *)
Lemma forallb_spec {A} (P : A -> bool) (l : list A) x :
  forallb P l = true -> x ∈ l -> P x = true.
Proof. rewrite List.forallb_forall. intros H Hx. apply H. by apply list_elem_of_In. Qed.
