(* ===== verification/Json.v ===== *)
(** * The JSON values the runtime exchanges

    [serde_json::Value] is a third-party type.  The library is written against
    the interface below: the public shape of a value ([json_view]), the
    constructors the [json!] macro uses, and value equality, with the laws
    their documentation states.  [Value::get], [as_str], [as_array] and
    [is_null] are derived from the shape.  [jval] is one concrete
    implementation of the interface. *)
From Stdlib Require Import Floats.SpecFloat.
From S2P Require Import Prelude.

(** The public shape of a [serde_json::Value]. *)
Inductive view (V : Type) : Type :=
| VNull
| VBool (b : bool)
| VNumber
| VString (s : string)
| VArray (l : list V)
| VObject (m : gmap string V).
Arguments VNull {V}.
Arguments VBool {V} b.
Arguments VNumber {V}.
Arguments VString {V} s.
Arguments VArray {V} l.
Arguments VObject {V} m.

Class Json (V : Type) : Type := {
  json_view : V -> view V;
  json_as_u64 : V -> option N;
  json_eqb : V -> V -> bool;
  jobj : gmap string V -> V;
  jarr : list V -> V;
  jstr : string -> V;
  jbool : bool -> V;
  jnum : N -> V;
}.

Class JsonLaws (V : Type) `{Json V} : Prop := {
  json_eqb_eq : forall v w, json_eqb v w = true <-> v = w;
  view_jobj : forall m, json_view (jobj m) = VObject m;
  view_jarr : forall l, json_view (jarr l) = VArray l;
  view_jstr : forall s, json_view (jstr s) = VString s;
  view_jbool : forall b, json_view (jbool b) = VBool b;
  view_jnum : forall n, json_view (jnum n) = VNumber;
  as_u64_jnum : forall n, (n <= u64_max)%N -> json_as_u64 (jnum n) = Some n;
  as_u64_number : forall v n, json_as_u64 v = Some n -> json_view v = VNumber;
}.

(** What [serde_json::to_value] makes of nothing, of signed integers and of
    floats; a float that is not finite becomes [null]. *)
Class JsonSer (V : Type) : Type := { jnull : V; jint : Z -> V; jfloat : spec_float -> V }.
Definition finite_float (x : spec_float) : bool :=
  match x with S754_zero _ | S754_finite _ _ _ => true | S754_infinity _ | S754_nan => false end.
Class JsonSerLaws (V : Type) `{Json V} `{JsonSer V} : Prop := {
  view_jnull : json_view (jnull (V := V)) = VNull;
  view_jint : forall z, json_view (jint (V := V) z) = VNumber;
  view_jfloat : forall x, json_view (jfloat (V := V) x) = if finite_float x then VNumber else VNull;
}.

Section Accessors.
Context {V : Type} `{Json V}.

(** [Value::get] with a string index. *)
Definition json_get (k : string) (v : V) : option V :=
  match json_view v with VObject m => m !! k | _ => None end.
Definition json_as_str (v : V) : option string :=
  match json_view v with VString s => Some s | _ => None end.
Definition json_as_bool (v : V) : option bool :=
  match json_view v with VBool b => Some b | _ => None end.
Definition json_as_array (v : V) : option (list V) :=
  match json_view v with VArray l => Some l | _ => None end.
Definition json_is_null (v : V) : bool :=
  match json_view v with VNull => true | _ => false end.
(** [v.get(k).and_then(|v| v.as_str())]. *)
Definition json_get_str (k : string) (v : V) : option string :=
  json_get k v ≫= json_as_str.
(** [json!({ k: v })] and [json!({})]. *)
Definition jempty : V := jobj ∅.
Definition jsingle (k : string) (v : V) : V := jobj {[ k := v ]}.

Context `{!JsonLaws V}.

Lemma json_get_jobj k m : json_get k (jobj m) = m !! k.
Proof. unfold json_get. by rewrite view_jobj. Qed.
Lemma json_is_null_jobj m : json_is_null (jobj m) = false.
Proof. unfold json_is_null. by rewrite view_jobj. Qed.
Lemma jempty_ne_jsingle k v : jempty <> jsingle k v.
Proof.
  intros E. apply (f_equal json_view) in E. unfold jempty, jsingle in E.
  rewrite !view_jobj in E. injection E as E.
  by apply (insert_non_empty (M:=gmap string) ∅ k v).
Qed.
Lemma json_eqb_refl v : json_eqb v v = true.
Proof. by apply json_eqb_eq. Qed.
End Accessors.

#[export] Hint Rewrite @json_get_jobj @json_is_null_jobj @view_jobj @view_jstr using typeclasses eauto : canon.

(** ** A concrete implementation *)

#[local] Set Warnings "-register-all".
Inductive jval : Type :=
| JNull
| JBool (b : bool)
| JNat (n : N)
| JInt (z : Z)
| JFloat (x : spec_float)
| JStr (s : string)
| JArr (l : list jval)
| JObj (m : gmap string jval).

#[export] Instance spec_float_eq_dec : EqDecision spec_float.
Proof. solve_decision. Defined.
#[export] Instance jval_eq_dec : EqDecision jval.
Proof.
  refine (fix go (v w : jval) {struct v} : Decision (v = w) :=
    let _ : EqDecision jval := go in
    match v, w with
    | JNull, JNull => left eq_refl
    | JBool b, JBool c => cast_if (decide (b = c))
    | JNat n, JNat m => cast_if (decide (n = m))
    | JInt n, JInt m => cast_if (decide (n = m))
    | JFloat x, JFloat y => cast_if (decide (x = y))
    | JStr s, JStr t => cast_if (decide (s = t))
    | JArr l, JArr k => cast_if (decide (l = k))
    | JObj m, JObj n => cast_if (decide (m = n))
    | _, _ => right _
    end); congruence.
Defined.

#[export] Instance jval_Json : Json jval := {
  json_view v :=
    match v with
    | JNull => VNull
    | JBool b => VBool b
    | JNat _ | JInt _ | JFloat _ => VNumber
    | JStr s => VString s
    | JArr l => VArray l
    | JObj m => VObject m
    end;
  json_as_u64 v := match v with JNat n => if (n <=? u64_max)%N then Some n else None | _ => None end;
  json_eqb v w := bool_decide (v = w);
  jobj := JObj; jarr := JArr; jstr := JStr; jbool := JBool; jnum := JNat;
}.

#[export] Instance jval_JsonLaws : JsonLaws jval.
Proof.
  split; simpl; try done.
  - intros v w. by rewrite bool_decide_eq_true.
  - intros n Hn. by apply N.leb_le in Hn as ->.
  - by intros [] k.
Qed.

#[export] Instance jval_JsonSer : JsonSer jval := {
  jnull := JNull; jint z := if (z <? 0)%Z then JInt z else JNat (Z.to_N z); jfloat x := if finite_float x then JFloat x else JNull;
}.
#[export] Instance jval_JsonSerLaws : JsonSerLaws jval.
Proof. split; cbn; [done|intros z; by destruct (z <? 0)%Z|intros x; by destruct (finite_float x)]. Qed.
