(* ===== verification/Wire.v ===== *)
(** * Canonical events ([canon-runtime-events/src/wire.rs])

    The event kinds and their wire names, the control / effect split, the
    transition table of the control plane, and the event record with its
    constructors. *)
From S2P Require Import Prelude Json.

(** ** Event kinds *)
Module EventKind.

Inductive t : Set :=
| LoopObserved
| LoopPlanned
| PlanningCompleted
| LoopActed
| LoopVerified
| VerifierPolicyUpdated
| LoopRewarded
| GoodnessSnapshot
| InvariantDiscovered
| RouteTick
| RouteSelected
| CapabilityInvoked
| CapabilityResolved
| CapabilityCompleted
| CapabilityFailed
| CapabilityRequested
| GoalNodeCreated
| GoalNodeRetracted
| GoalNodeRewritten
| GoalEdgeDefined
| GoalGraphCheckpointed
| GoalSelected
| ToolCall
| ToolResult
| ToolBatchSettled
| AgentRegistered
| SubTaskResult
| Cargo
| File
| Bash
| Analysis
| Llm
| RuntimeStarted
| RuntimeStateUpdated
| PolicyBaselineUpdated
| SystemConfigLoaded
| PromptLoaded
| RustcCaptureStarted
| RustcGraphArtifactWritten
| RustcCaptureCompleted
| RustcCaptureFailed
| NodeReady
| NodeStarted
| NodeCompleted
| NodeFailed
| Tick
| Code
| Edit
| Debug
| ErrorOccurred
| SupervisorEvent.

(** [EventKind::as_str]. *)
Definition as_str (k : t) : string :=
  match k with
  | LoopObserved => "loop_observed"
  | LoopPlanned => "loop_planned"
  | PlanningCompleted => "planning_completed"
  | LoopActed => "loop_acted"
  | LoopVerified => "loop_verified"
  | VerifierPolicyUpdated => "verifier_policy_updated"
  | LoopRewarded => "loop_rewarded"
  | GoodnessSnapshot => "goodness_snapshot"
  | InvariantDiscovered => "invariant_discovered"
  | RouteTick => "route_tick"
  | RouteSelected => "route_selected"
  | CapabilityInvoked => "capability_invoked"
  | CapabilityResolved => "capability_resolved"
  | CapabilityCompleted => "capability_completed"
  | CapabilityFailed => "capability_failed"
  | CapabilityRequested => "capability_requested"
  | GoalNodeCreated => "goal_node_created"
  | GoalNodeRetracted => "goal_node_retracted"
  | GoalNodeRewritten => "goal_node_rewritten"
  | GoalEdgeDefined => "goal_edge_defined"
  | GoalGraphCheckpointed => "goal_graph_checkpointed"
  | GoalSelected => "goal_selected"
  | ToolCall => "tool_call"
  | ToolResult => "tool_result"
  | ToolBatchSettled => "tool_batch_settled"
  | AgentRegistered => "agent_registered"
  | SubTaskResult => "sub_task_result"
  | Cargo => "cargo"
  | File => "file"
  | Bash => "bash"
  | Analysis => "analysis"
  | Llm => "llm"
  | RuntimeStarted => "runtime_started"
  | RuntimeStateUpdated => "runtime_state_updated"
  | PolicyBaselineUpdated => "policy_baseline_updated"
  | SystemConfigLoaded => "system_config_loaded"
  | PromptLoaded => "prompt_loaded"
  | RustcCaptureStarted => "rustc_capture_started"
  | RustcGraphArtifactWritten => "rustc_graph_artifact_written"
  | RustcCaptureCompleted => "rustc_capture_completed"
  | RustcCaptureFailed => "rustc_capture_failed"
  | NodeReady => "node_ready"
  | NodeStarted => "node_started"
  | NodeCompleted => "node_completed"
  | NodeFailed => "node_failed"
  | Tick => "tick"
  | Code => "code"
  | Edit => "edit"
  | Debug => "debug"
  | ErrorOccurred => "error_occurred"
  | SupervisorEvent => "supervisor_event"
  end.

(** [FromStr for EventKind]; [None] is [Err(())]. *)
Definition from_str (s : string) : option t :=
  if String.eqb s "loop_observed" then Some LoopObserved else
  if String.eqb s "loop_planned" then Some LoopPlanned else
  if String.eqb s "planning_completed" then Some PlanningCompleted else
  if String.eqb s "loop_acted" then Some LoopActed else
  if String.eqb s "loop_verified" then Some LoopVerified else
  if String.eqb s "verifier_policy_updated" then Some VerifierPolicyUpdated else
  if String.eqb s "loop_rewarded" then Some LoopRewarded else
  if String.eqb s "goodness_snapshot" then Some GoodnessSnapshot else
  if String.eqb s "route_tick" then Some RouteTick else
  if String.eqb s "route_selected" then Some RouteSelected else
  if String.eqb s "capability_invoked" then Some CapabilityInvoked else
  if String.eqb s "capability_resolved" then Some CapabilityResolved else
  if String.eqb s "capability_completed" then Some CapabilityCompleted else
  if String.eqb s "capability_failed" then Some CapabilityFailed else
  if String.eqb s "capability_requested" then Some CapabilityRequested else
  if String.eqb s "goal_node_created" then Some GoalNodeCreated else
  if String.eqb s "goal_node_retracted" then Some GoalNodeRetracted else
  if String.eqb s "goal_node_rewritten" then Some GoalNodeRewritten else
  if String.eqb s "goal_edge_defined" then Some GoalEdgeDefined else
  if String.eqb s "goal_graph_checkpointed" then Some GoalGraphCheckpointed else
  if String.eqb s "goal_selected" then Some GoalSelected else
  if String.eqb s "tool_call" then Some ToolCall else
  if String.eqb s "tool_result" then Some ToolResult else
  if String.eqb s "tool_batch_settled" then Some ToolBatchSettled else
  if String.eqb s "agent_registered" then Some AgentRegistered else
  if String.eqb s "sub_task_result" then Some SubTaskResult else
  if String.eqb s "cargo" then Some Cargo else
  if String.eqb s "file" then Some File else
  if String.eqb s "bash" then Some Bash else
  if String.eqb s "analysis" then Some Analysis else
  if String.eqb s "llm" || String.eqb s "llm_call" then Some Llm else
  if String.eqb s "runtime_started" then Some RuntimeStarted else
  if String.eqb s "runtime_state_updated" || String.eqb s "runtime_state.updated" then Some RuntimeStateUpdated else
  if String.eqb s "policy_baseline_updated" then Some PolicyBaselineUpdated else
  if String.eqb s "system_config_loaded" then Some SystemConfigLoaded else
  if String.eqb s "prompt_loaded" then Some PromptLoaded else
  if String.eqb s "rustc_capture_started" then Some RustcCaptureStarted else
  if String.eqb s "rustc_graph_artifact_written" then Some RustcGraphArtifactWritten else
  if String.eqb s "rustc_capture_completed" then Some RustcCaptureCompleted else
  if String.eqb s "rustc_capture_failed" then Some RustcCaptureFailed else
  if String.eqb s "node_ready" then Some NodeReady else
  if String.eqb s "node_started" then Some NodeStarted else
  if String.eqb s "node_completed" then Some NodeCompleted else
  if String.eqb s "node_failed" then Some NodeFailed else
  if String.eqb s "tick" then Some Tick else
  if String.eqb s "code" || String.eqb s "rustc_event" then Some Code else
  if String.eqb s "edit" || String.eqb s "edit_event" then Some Edit else
  if String.eqb s "debug" then Some Debug else
  if String.eqb s "error_occurred" then Some ErrorOccurred else
  if String.eqb s "supervisor_event" then Some SupervisorEvent else
  None.

#[global] Instance eq_dec : EqDecision t.
Proof. solve_decision. Defined.

(** Every kind, in declaration order. *)
Definition all : list t :=
  [LoopObserved; LoopPlanned; PlanningCompleted; LoopActed; LoopVerified; VerifierPolicyUpdated; 
   LoopRewarded; GoodnessSnapshot; InvariantDiscovered; RouteTick; RouteSelected; CapabilityInvoked; 
   CapabilityResolved; CapabilityCompleted; CapabilityFailed; CapabilityRequested; GoalNodeCreated; GoalNodeRetracted; 
   GoalNodeRewritten; GoalEdgeDefined; GoalGraphCheckpointed; GoalSelected; ToolCall; ToolResult; 
   ToolBatchSettled; AgentRegistered; SubTaskResult; Cargo; File; Bash; 
   Analysis; Llm; RuntimeStarted; RuntimeStateUpdated; PolicyBaselineUpdated; SystemConfigLoaded; 
   PromptLoaded; RustcCaptureStarted; RustcGraphArtifactWritten; RustcCaptureCompleted; RustcCaptureFailed; NodeReady; 
   NodeStarted; NodeCompleted; NodeFailed; Tick; Code; Edit; 
   Debug; ErrorOccurred; SupervisorEvent].

Lemma elem_of_all (k : t) : k ∈ all.
Proof. apply list_elem_of_In. destruct k; vm_compute; tauto. Qed.

Lemma as_str_inj (j k : t) : as_str j = as_str k -> j = k.
Proof.
  intros E. apply (f_equal (fun s => List.find (fun i => String.eqb (as_str i) s) all)) in E.
  assert (H : forall i, List.find (fun i0 => String.eqb (as_str i0) (as_str i)) all = Some i)
    by (intros i; destruct i; vm_compute; reflexivity).
  rewrite !H in E. by injection E.
Qed.

(** [#[serde(rename_all = "snake_case")]]: the derived deserializer accepts
    exactly the snake-case variant names, which are the [as_str] names. *)
Definition serde_from_str (s : string) : option t :=
  List.find (fun k => String.eqb (as_str k) s) all.

Lemma serde_round_trip (k : t) : serde_from_str (as_str k) = Some k.
Proof. destruct k; vm_compute; reflexivity. Qed.

Inductive Class_ : Set := Control | Effect.
#[global] Instance class_eq_dec : EqDecision Class_.
Proof. solve_decision. Defined.

(** [EventKind::class]. *)
Definition class (k : t) : Class_ :=
  match k with
  | Tick | RouteTick | RouteSelected | LoopObserved | PlanningCompleted
  | LoopActed | LoopVerified | VerifierPolicyUpdated | LoopRewarded => Control
  | _ => Effect
  end.

(** [EventKind::allowed_next]. *)
Definition allowed_next (k : t) : list t :=
  match k with
  | Tick => [RouteTick]
  | RouteTick => [RouteSelected; LoopObserved]
  | RouteSelected => [LoopObserved; PlanningCompleted; LoopActed; LoopVerified; VerifierPolicyUpdated; LoopRewarded]
  | LoopObserved => [RouteSelected]
  | PlanningCompleted => [RouteSelected]
  | LoopActed => [RouteSelected; LoopVerified]
  | LoopVerified => [VerifierPolicyUpdated]
  | VerifierPolicyUpdated => [LoopRewarded]
  | LoopRewarded => [RouteSelected; LoopObserved]
  | _ => []
  end.

Definition is_control (k : t) : bool :=
  match class k with Control => true | Effect => false end.

End EventKind.
Abbreviation EventKind := EventKind.t.

(** ** Events *)

Record CanonPayloadMeta := { meta_file : string; meta_line : N }.

Record CanonPayload {V : Type} := {
  p_input : V; p_output : V; p_delta : V; p_meta : CanonPayloadMeta; p_data : V
}.
Arguments CanonPayload V : clear implicits.

Abbreviation EventId := string.

Record CanonEvent {V : Type} := {
  ev_id : EventId;
  ev_parent_ids : list EventId;
  ev_actor : string;
  ev_kind : EventKind;
  ev_ts : N;
  ev_payload : CanonPayload V;
  ev_prev_event_id : option EventId
}.
Arguments CanonEvent V : clear implicits.

Section Constructors.
Context {V : Type} `{Json V}.

(** [CanonPayload::from_data]; [None] is the failed assertion. *)
Definition from_data (input output delta : V) (meta : CanonPayloadMeta) (data : V) : option (CanonPayload V) :=
  if json_is_null input || json_is_null output || json_is_null delta then None
  else Some {| p_input := input; p_output := output; p_delta := delta; p_meta := meta; p_data := data |}.

(** [CanonEvent::new]; [None] is the failed assertion. *)
Definition event_new (id : EventId) (parent_ids : list EventId) (actor : string) (kind : EventKind)
    (ts : N) (payload : CanonPayload V) (root : bool) : option (CanonEvent V) :=
  if negb root && bool_decide (parent_ids = []) then None
  else Some {| ev_id := id; ev_parent_ids := parent_ids; ev_actor := actor; ev_kind := kind;
               ev_ts := ts; ev_payload := payload; ev_prev_event_id := None |}.

(** [CanonEvent::from_parent]. *)
Definition from_parent (parent : CanonEvent V) (id : EventId) (actor : string) (kind : EventKind)
    (ts : N) (payload : CanonPayload V) : CanonEvent V :=
  {| ev_id := id; ev_parent_ids := [ev_id parent]; ev_actor := actor; ev_kind := kind;
     ev_ts := ts; ev_payload := payload; ev_prev_event_id := None |}.

(** [CanonEvent::new_root]. *)
Definition new_root (id : EventId) (actor : string) (kind : EventKind) (ts : N) (payload : CanonPayload V) : CanonEvent V :=
  {| ev_id := id; ev_parent_ids := []; ev_actor := actor; ev_kind := kind;
     ev_ts := ts; ev_payload := payload; ev_prev_event_id := None |}.

(** The same event with another delta. *)
Definition with_delta (d : V) (e : CanonEvent V) : CanonEvent V :=
  let p := ev_payload e in
  {| ev_id := ev_id e; ev_parent_ids := ev_parent_ids e; ev_actor := ev_actor e;
     ev_kind := ev_kind e; ev_ts := ev_ts e; ev_prev_event_id := ev_prev_event_id e;
     ev_payload := {| p_input := p_input p; p_output := p_output p; p_delta := d;
                      p_meta := p_meta p; p_data := p_data p |} |}.
End Constructors.

(** ** Properties *)

(** the wire names round-trip through [FromStr] for every kind but one:
    the parser has no arm for ["invariant_discovered"]. *)
Theorem from_str_as_str_iff (k : EventKind) :
  EventKind.from_str (EventKind.as_str k) = Some k <-> k <> EventKind.InvariantDiscovered.
Proof. destruct k; vm_compute; split; congruence. Qed.
