(* ===== verification/EventInvariants.v ===== *)
(** * Event-level invariants ([canon-runtime-events/src/invariants.rs])

    The checks an event passes before it is appended to the log, and the
    successor obligation each control event opens. *)
From S2P Require Import Prelude Json Wire.
Import EventKind.

Section Invariants.
Context {V : Type} `{Json V}.
Implicit Types (e prev next : CanonEvent V).

Definition is_zero_delta (delta : V) : bool :=
  match json_view delta with
  | VNull => true
  | VArray l => bool_decide (l = [])
  | VObject m => bool_decide (m = ∅)
  | _ => false
  end.

Definition validate_event e : result string unit :=
  if String.eqb (ev_id e) "" then Err "invariant violation: id is empty"
  else
    let p := ev_payload e in
    if json_is_null (p_input p) || json_is_null (p_output p) || json_is_null (p_delta p)
    then Err "invariant violation: payload input/output/delta must be non-null"
    else if is_zero_delta (p_delta p) then
      match ev_kind e with
      | Tick | RouteTick | RouteSelected => Ok tt
      | _ => Err "invariant violation: delta is zero / empty"
      end
    else Ok tt.

Definition route_selected_target e : option string :=
  match json_get_str "approved_route" (p_data (ev_payload e)) with
  | Some s => Some s
  | None => json_get_str "approved_route" (p_output (ev_payload e))
  end.

(** The [match approved_route?] of the [RouteSelected] arm. *)
Definition route_successor (approved : string) : option EventKind :=
  if String.eqb approved "observe" then Some LoopObserved
  else if String.eqb approved "plan" then Some PlanningCompleted
  else if String.eqb approved "act" then Some LoopActed
  else if String.eqb approved "verify" then Some LoopVerified
  else if String.eqb approved "conclude" then Some LoopRewarded
  else None.

Definition required_successor_kind (kind : EventKind) (approved_route : option string) : option EventKind :=
  match class kind with
  | Effect => None
  | Control =>
      match kind with
      | RouteTick => Some RouteSelected
      | RouteSelected => approved_route ≫= route_successor
      | LoopObserved => Some RouteSelected
      | PlanningCompleted => Some RouteSelected
      | LoopActed => Some RouteSelected
      | LoopVerified => Some VerifierPolicyUpdated
      | VerifierPolicyUpdated => Some LoopRewarded
      | LoopRewarded => Some RouteSelected
      | _ => None
      end
  end.

Definition validate_transition prev next : result string unit :=
  if negb (is_control (ev_kind prev)) || negb (is_control (ev_kind next)) then Ok tt
  else if bool_decide (ev_kind next ∈ allowed_next (ev_kind prev)) then Ok tt
  else Err ("invariant violation: illegal transition " +:+ as_str (ev_kind prev)
            +:+ " -> " +:+ as_str (ev_kind next)).

Record PendingTransition := {
  pt_expected : EventKind; pt_parent : EventId; pt_source_kind : EventKind; pt_note : string
}.

Definition is_recovery_event e : bool :=
  match ev_kind e with
  | ErrorOccurred | Debug =>
      match json_get_str "kind" (p_data (ev_payload e)) with
      | Some k => String.eqb k "recovery_event" || String.eqb k "reset_event" || String.eqb k "override_event"
      | None => false
      end
  | _ => false
  end.

Definition successor_note (k : EventKind) : string :=
  match k with
  | LoopObserved => "post-observe routing"
  | PlanningCompleted => "post-plan routing"
  | LoopActed => "post-act routing"
  | LoopVerified => "verifier policy update must follow verify"
  | VerifierPolicyUpdated => "reward must follow verifier policy update"
  | LoopRewarded => "post-reward routing"
  | _ => ""
  end.

Definition required_successor e : option PendingTransition :=
  match class (ev_kind e) with
  | Effect => None
  | Control =>
      match ev_kind e with
      | RouteTick =>
          Some {| pt_expected := LoopObserved; pt_parent := ev_id e; pt_source_kind := ev_kind e;
                  pt_note := "route tick must open exactly one observe cycle before route selection" |}
      | RouteSelected =>
          approved ← route_selected_target e;
          expected ← required_successor_kind (ev_kind e) (Some approved);
          Some {| pt_expected := expected; pt_parent := ev_id e; pt_source_kind := ev_kind e;
                  pt_note := "approved_route=" +:+ approved |}
      | LoopObserved | PlanningCompleted | LoopActed | LoopVerified | VerifierPolicyUpdated | LoopRewarded =>
          expected ← required_successor_kind (ev_kind e) None;
          Some {| pt_expected := expected; pt_parent := ev_id e; pt_source_kind := ev_kind e;
                  pt_note := successor_note (ev_kind e) |}
      | _ => None
      end
  end.

(** *** Lemmas *)

Lemma route_successor_legal s k : route_successor s = Some k -> k ∈ allowed_next RouteSelected.
Proof.
  unfold route_successor.
  repeat (case_match; [intros [= <-]; simpl; set_solver|]). done.
Qed.

Lemma required_successor_kind_legal k r k' :
  required_successor_kind k r = Some k' -> k' ∈ allowed_next k.
Proof.
  destruct k; cbn; try discriminate;
    try (intros [= <-]; set_solver).
  destruct r as [s|]; [|discriminate]. apply route_successor_legal.
Qed.

Lemma required_successor_source e p :
  required_successor e = Some p ->
  pt_source_kind p = ev_kind e /\ pt_parent p = ev_id e /\ is_control (ev_kind e) = true.
Proof.
  unfold required_successor, is_control.
  destruct (ev_kind e) eqn:K; cbn; try discriminate; try (by intros [= <-]).
  intros Hr. destruct (route_selected_target e) as [s|]; cbn in Hr; [|discriminate].
  destruct (route_successor s); cbn in Hr; [|discriminate]. by injection Hr as <-.
Qed.

Lemma required_successor_legal e p :
  required_successor e = Some p -> pt_expected p ∈ allowed_next (ev_kind e).
Proof.
  unfold required_successor.
  destruct (ev_kind e) eqn:K; cbn; try discriminate; try (intros [= <-]; set_solver).
  intros Hr. destruct (route_selected_target e) as [s|]; cbn in Hr; [|discriminate].
  destruct (route_successor s) eqn:Hs; cbn in Hr; [|discriminate]. injection Hr as <-. cbn.
  by apply route_successor_legal in Hs.
Qed.

Lemma allowed_next_control k k' : k' ∈ allowed_next k -> is_control k' = true /\ is_control k = true.
Proof. destruct k; simpl; intros Hk; repeat (apply elem_of_cons in Hk as [->|Hk]; [done|]); by apply not_elem_of_nil in Hk. Qed.
End Invariants.
Arguments PendingTransition : clear implicits.

(** ** Concrete events, over the concrete JSON values *)

Definition sample_payload (data : jval) : CanonPayload jval :=
  {| p_input := jsingle "x" (jnum 1); p_output := jsingle "y" (jnum 1); p_delta := jsingle "z" (jnum 1);
     p_meta := {| meta_file := "test"; meta_line := 1 |}; p_data := data |}.
Definition sample_event (id : string) (k : EventKind) (ts : N) : CanonEvent jval :=
  new_root id "test" k ts (sample_payload jempty).
Definition sample_route (id route : string) (ts : N) : CanonEvent jval :=
  new_root id "test" RouteSelected ts (sample_payload (jsingle "approved_route" (jstr route))).

(** ** Properties *)

(** The one-step relation of the control plane's transition table. *)
Definition may_follow (k k' : EventKind) : Prop := k' ∈ allowed_next k.

(** every successor obligation can be discharged: an event of the expected
    kind passes the transition check after the event that opened it. *)
Theorem obligation_is_dischargeable {V} `{Json V} (e next : CanonEvent V) (p : PendingTransition) :
  required_successor e = Some p -> ev_kind next = pt_expected p ->
  validate_transition e next = Ok tt.
Proof.
  intros Hp Hk. unfold validate_transition.
  rewrite Hk, bool_decide_true by by apply required_successor_legal.
  by destruct (_ || _).
Qed.

Lemma obligation_is_dischargeable_witness :
  validate_transition (sample_route "r" "verify" 1) (sample_event "v" LoopVerified 2) = Ok tt.
Proof.
  apply (obligation_is_dischargeable _ _
    {| pt_expected := LoopVerified; pt_parent := "r"; pt_source_kind := RouteSelected;
       pt_note := "approved_route=verify" |}); vm_compute; reflexivity.
Defined.

(** the control plane has no dead end: from every control kind the
    transition table leads back to [RouteSelected] within three steps, the
    longest way being the verify chain. *)
Theorem route_selected_always_reachable (k : EventKind) :
  is_control k = true -> exists n, n <= 3 /\ nsteps may_follow n k RouteSelected.
Proof.
  assert (S0 : nsteps may_follow 0 RouteSelected RouteSelected) by constructor.
  assert (S1 : forall j, RouteSelected ∈ allowed_next j -> nsteps may_follow 1 j RouteSelected)
    by (intros j Hj; by eapply nsteps_l).
  assert (SR : nsteps may_follow 2 VerifierPolicyUpdated RouteSelected)
    by (apply nsteps_l with LoopRewarded; [unfold may_follow; set_solver|apply S1; set_solver]).
  destruct k; try discriminate; intros _;
    try (exists 1; split; [lia|apply S1; set_solver]).
  - exists 3. split; [lia|]. apply nsteps_l with VerifierPolicyUpdated; [unfold may_follow; set_solver|done].
  - exists 2. split; [lia|done].
  - exists 0. split; [lia|done].
  - exists 2. split; [lia|]. apply nsteps_l with RouteTick; [unfold may_follow; set_solver|apply S1; set_solver].
Qed.

Lemma route_selected_always_reachable_witness :
  exists n, n <= 3 /\ nsteps may_follow n LoopVerified RouteSelected.
Proof. apply (route_selected_always_reachable LoopVerified). vm_compute. reflexivity. Defined.

(** the obligation recorded for an event is the one of the kind-level
    table, except for [RouteTick]: its table entry is [RouteSelected], the
    recorded obligation [LoopObserved]. *)
Theorem required_successor_matches_table {V} `{Json V} (e : CanonEvent V) :
  pt_expected <$> required_successor e =
    if decide (ev_kind e = RouteTick) then Some LoopObserved
    else required_successor_kind (ev_kind e) (route_selected_target e).
Proof.
  unfold required_successor. destruct (ev_kind e) eqn:K; cbn; try done.
  destruct (route_selected_target e) as [s|]; cbn; [|done]. by destruct (route_successor s).
Qed.
