(* ===== verification/Codec.v ===== *)
(** * The serialization interface of the event log

    [serde_json::to_vec], [serde_json::from_str] and the standard library's
    [DefaultHasher] are used by the log as black boxes.  The writer and the
    reader are proved against this interface; [table_codec] implements it. *)
From stdpp Require Import numbers.
From S2P Require Import Prelude Json Wire.

(** The legacy record layout the readers still accept. *)
Record LegacyEventMeta := { lm_ts : N; lm_source : string; lm_file : string; lm_line : N }.
Record LegacyCanonEvent {V : Type} := {
  lg_event_id : option N; lg_meta : LegacyEventMeta; lg_kind : string; lg_data : option V
}.
Arguments LegacyCanonEvent V : clear implicits.

Class Codec (V : Type) : Type := {
  (** [serde_json::to_vec(&event)]. *)
  to_vec : CanonEvent V -> option bytes;
  (** [str::from_utf8] followed by [serde_json::from_str::<CanonEvent>]. *)
  from_slice : bytes -> option (CanonEvent V);
  (** The same for the legacy layout. *)
  from_slice_legacy : bytes -> option (LegacyCanonEvent V);
  (** The hash of kind, data and delta, a [u64]. *)
  content_hash : EventKind -> V -> V -> N;
}.

(** [event_content_hash]. *)
Definition event_content_hash {V} `{Codec V} (e : CanonEvent V) : N :=
  content_hash (ev_kind e) (p_data (ev_payload e)) (p_delta (ev_payload e)).

(** Serialization of an event round-trips and fits a [u32] length prefix. *)
Definition codec_ok {V} `{Codec V} (e : CanonEvent V) : Prop :=
  exists bs, to_vec e = Some bs /\ from_slice bs = Some e /\ (lenN bs < 4294967296)%N.

(** ** A concrete codec: events of a finite table, encoded by their position *)

#[export] Instance meta_eq_dec : EqDecision CanonPayloadMeta.
Proof. solve_decision. Defined.
Definition payload_fields (p : CanonPayload jval) :=
  (p_input p, p_output p, p_delta p, p_meta p, p_data p).
Definition event_fields (e : CanonEvent jval) :=
  (ev_id e, ev_parent_ids e, ev_actor e, ev_kind e, ev_ts e, ev_payload e, ev_prev_event_id e).
#[export] Instance payload_eq_dec : EqDecision (CanonPayload jval).
Proof.
  refine (fun p q => cast_if (decide (payload_fields p = payload_fields q))); [|by intros ->].
  destruct p, q; unfold payload_fields in *; by simplify_eq/=.
Defined.
#[export] Instance event_eq_dec : EqDecision (CanonEvent jval).
Proof.
  refine (fun p q => cast_if (decide (event_fields p = event_fields q))); [|by intros ->].
  destruct p, q; unfold event_fields in *; by simplify_eq/=.
Defined.

Fixpoint position (l : list (CanonEvent jval)) (e : CanonEvent jval) : option N :=
  match l with
  | [] => None
  | x :: l' => if bool_decide (x = e) then Some 0%N else N.succ <$> position l' e
  end.

(** A small hash: the kind's name and the size of the data object. *)
Definition toy_hash (k : EventKind) (d _ : jval) : N :=
  N.of_nat (String.length (EventKind.as_str k)) +
  match json_view d with VObject m => 100 * N.of_nat (size m) | _ => 0 end.

Definition table_codec (table : list (CanonEvent jval)) : Codec jval := {|
  to_vec e := (fun n => [byte_of n]) <$> position table e;
  from_slice bs :=
    match bs with
    | [b] => table !! N.to_nat (Byte.to_N b)
    | _ => None
    end;
  from_slice_legacy _ := None;
  content_hash := toy_hash;
|}.
