(* ===== verification/TlogWriter.v ===== *)
(** * The append-only event log: writer ([canon-runtime-events/src/tlog/binary.rs])

    The segmented binary log, its two bounded caches, the invariant gate in
    front of the log, and the successor state machine of the control plane.
    A directory of segments is three finite maps from the segment number (the
    20-digit file stem, injective on [u64]) to file contents.  File-system
    calls succeed; the wall clock, fresh identifiers and the source location
    of the writer are inputs. *)
From stdpp Require Import pretty sorting.
From S2P Require Import Prelude Json Wire EventInvariants Codec.
Import EventKind.

(** ** Constants and configuration *)

Definition MAGIC : N := 0x544C4F47.
Definition magic_bytes : bytes := to_le_bytes 4 MAGIC.

(** [index_stride] and [time_bucket_ms] are divisors: zero would panic in
    [append_frame] and in the recovery.  Every configuration of the sources,
    [Default] and [with_env], has 256 and 5000. *)
Record SegmentConfig := {
  max_bytes : N; index_stride : N; time_bucket_ms : N; retain_segments : option nat
}.

Definition default_config : SegmentConfig :=
  {| max_bytes := 64 * 1024 * 1024; index_stride := 256; time_bucket_ms := 5000; retain_segments := None |}.

(** [SegmentConfig::with_env], the variable's parsed value as argument. *)
Definition with_env (raw : option nat) (c : SegmentConfig) : SegmentConfig :=
  match raw with
  | Some (S n) => {| max_bytes := max_bytes c; index_stride := index_stride c;
                     time_bucket_ms := time_bucket_ms c; retain_segments := Some (S n) |}
  | _ => c
  end.

(** ** Bounded duplicate caches *)
Module DedupCache.
Section Cache.
Context {K : Type} `{Countable K}.

Record t := { seen : gset K; order : list K; cap : nat }.

Definition new (c : nat) : t := {| seen := ∅; order := []; cap := c |}.

Definition contains (x : K) (c : t) : bool := bool_decide (x ∈ seen c).

(** [insert_if_new]: remember [x]; past the capacity the oldest key goes. *)
Definition insert_if_new (x : K) (c : t) : t * bool :=
  if contains x c then (c, false)
  else
    let seen1 := {[ x ]} ∪ seen c in
    let order1 := order c ++ [x] in
    if cap c <? length order1 then
      match order1 with
      | old :: rest => ({| seen := seen1 ∖ {[ old ]}; order := rest; cap := cap c |}, true)
      | [] => ({| seen := seen1; order := order1; cap := cap c |}, true)
      end
    else ({| seen := seen1; order := order1; cap := cap c |}, true).

(** The set mirrors the queue, the queue has no duplicates and is bounded. *)
Definition wf (c : t) : Prop :=
  seen c = list_to_set (order c) /\ NoDup (order c) /\ length (order c) <= cap c.

Lemma new_wf n : wf (new n).
Proof. split; [done|]. split; [constructor|simpl; lia]. Qed.

Lemma insert_if_new_wf x c : wf c -> wf (insert_if_new x c).1.
Proof.
  intros (Hs & Hn & Hl). unfold insert_if_new, contains. case_bool_decide as Hx; [done|].
  rewrite Hs in Hx. apply not_elem_of_list_to_set in Hx.
  assert (Hn1 : NoDup (order c ++ [x])) by by apply NoDup_snoc.
  destruct (cap c <? length (order c ++ [x])) eqn:Hc.
  - destruct (order c ++ [x]) as [|old rest] eqn:Ho; [by destruct (order c)|].
    apply NoDup_cons in Hn1 as [Hold Hrest]. split; [|split]; cbn.
    + apply (f_equal (list_to_set (C := gset K))) in Ho.
      rewrite list_to_set_app_L in Ho. cbn in Ho.
      assert ({[ x ]} ∪ seen c = {[ old ]} ∪ list_to_set rest) as -> by set_solver.
      set_solver.
    + done.
    + apply (f_equal length) in Ho. rewrite length_app in Ho. simpl in Ho. lia.
  - split; [|split]; cbn; [|done|].
    + rewrite Hs, list_to_set_app_L. cbn. set_solver.
    + rewrite Nat.ltb_ge in Hc. lia.
Qed.

(** On a well-formed cache the operation is a sliding window over the
    [cap] most recently admitted keys. *)
Lemma insert_if_new_spec x c : wf c ->
  insert_if_new x c =
    if bool_decide (x ∈ order c) then (c, false)
    else
      let window := drop (S (length (order c)) - cap c) (order c ++ [x]) in
      ({| seen := list_to_set window; order := window; cap := cap c |}, true).
Proof.
  intros Hwf. pose proof (insert_if_new_wf x c Hwf) as (Hs' & _ & _).
  destruct Hwf as (Hs & Hn & Hl). revert Hs'. unfold insert_if_new, contains.
  rewrite Hs. rewrite (bool_decide_ext (x ∈ list_to_set (order c)) (x ∈ order c))
    by by rewrite elem_of_list_to_set.
  case_bool_decide as Hx; [done|].
  assert (Hlen : length (order c ++ [x]) = S (length (order c))) by (rewrite length_app; simpl; lia).
  rewrite Hlen. destruct (cap c <? S (length (order c))) eqn:Hc.
  - apply Nat.ltb_lt in Hc. replace (S (length (order c)) - cap c) with 1 by lia.
    destruct (order c ++ [x]) as [|old rest] eqn:Ho; [by destruct (order c)|].
    cbn. by intros ->.
  - apply Nat.ltb_ge in Hc. replace (S (length (order c)) - cap c) with 0 by lia.
    cbn. by intros ->.
Qed.
End Cache.
Arguments t K {_ _}.
End DedupCache.

Record RejectedEdge := { re_parent : string; re_kind : string; re_fingerprint : N }.
#[export] Instance RejectedEdge_eq_dec : EqDecision RejectedEdge.
Proof. solve_decision. Defined.
#[export] Instance RejectedEdge_countable : Countable RejectedEdge.
Proof.
  refine (inj_countable' (fun e => (re_parent e, re_kind e, re_fingerprint e))
    (fun '(p, k, f) => {| re_parent := p; re_kind := k; re_fingerprint := f |}) _).
  by intros [].
Defined.

(** ** Segment files *)

Record Dir := { d_log : gmap N bytes; d_idx : gmap N bytes; d_time : gmap N bytes }.

(** The open segment ([SegmentFiles]); the three buffers are flushed at the end
    of every write, so their contents are the directory's. *)
Record SegmentFiles := { seg : N; size : N; last_time_bucket : option N; records : N }.

(** Appending to a file of the directory, creating it when absent. *)
Definition append_at (k : N) (bs : bytes) (m : gmap N bytes) : gmap N bytes :=
  <[ k := default [] (m !! k) ++ bs ]> m.

(** [open_new_segment_files]: the log is opened for append, the two index
    files are truncated. *)
Definition open_new_segment_files (d : Dir) (base_seq : N) : Dir * SegmentFiles :=
  ({| d_log := append_at base_seq [] (d_log d);
      d_idx := <[ base_seq := [] ]> (d_idx d);
      d_time := <[ base_seq := [] ]> (d_time d) |},
   {| seg := base_seq; size := lenN (default [] (d_log d !! base_seq));
      last_time_bucket := None; records := 0 |}).

(** Segment numbers of a directory, in increasing order. *)
Definition segment_seqs (d : Dir) : list N := merge_sort N.le (elements (dom (d_log d))).

(** [find_latest_segment]. *)
Definition find_latest_segment (d : Dir) : option N :=
  foldr (fun s acc => Some (match acc with Some v => N.max v s | None => s end)) None (elements (dom (d_log d))).

Definition remove_segment (d : Dir) (s : N) : Dir :=
  {| d_log := delete s (d_log d); d_idx := delete s (d_idx d); d_time := delete s (d_time d) |}.

(** [apply_retention]: keep the newest [keep] segments. *)
Definition apply_retention (d : Dir) (keep : nat) : Dir :=
  if keep =? 0 then d
  else
    let entries := segment_seqs d in
    if length entries <=? keep then d
    else foldl remove_segment d (take (length entries - keep) entries).

(** ** The writer *)

(** [Failed] is a returned [anyhow::Error]; [Hang] a call that never returns
    because it locks a mutex its own thread already holds. *)
Inductive fault := Failed (msg : string) | Hang.

(** What the environment supplies to one call: fresh identifiers and the clock. *)
Record Oracle := { o_parent_id : string; o_event_id : string; o_now : N }.

Record Writer {V : Type} := {
  w_dir : Dir;
  w_config : SegmentConfig;
  w_seq : N;
  w_last_ts : N;
  w_inner : SegmentFiles;
  w_dedup : DedupCache.t N;
  w_rejected : DedupCache.t RejectedEdge;
  w_last_event : option (CanonEvent V);
  w_pending : option PendingTransition
}.
Arguments Writer V : clear implicits.

Section Writer.
Context {V : Type} `{Json V} `{Codec V}.
(** [file!()] and [line!()] of the writer's own records. *)
Context (writer_meta : CanonPayloadMeta).
Implicit Types (e : CanonEvent V) (w : Writer V) (o : Oracle).

Definition set_last_ts ts w : Writer V :=
  {| w_dir := w_dir w; w_config := w_config w; w_seq := w_seq w; w_last_ts := ts; w_inner := w_inner w;
     w_dedup := w_dedup w; w_rejected := w_rejected w; w_last_event := w_last_event w; w_pending := w_pending w |}.
Definition set_pending p w : Writer V :=
  {| w_dir := w_dir w; w_config := w_config w; w_seq := w_seq w; w_last_ts := w_last_ts w; w_inner := w_inner w;
     w_dedup := w_dedup w; w_rejected := w_rejected w; w_last_event := w_last_event w; w_pending := p |}.
Definition set_dedup c w : Writer V :=
  {| w_dir := w_dir w; w_config := w_config w; w_seq := w_seq w; w_last_ts := w_last_ts w; w_inner := w_inner w;
     w_dedup := c; w_rejected := w_rejected w; w_last_event := w_last_event w; w_pending := w_pending w |}.
Definition set_rejected c w : Writer V :=
  {| w_dir := w_dir w; w_config := w_config w; w_seq := w_seq w; w_last_ts := w_last_ts w; w_inner := w_inner w;
     w_dedup := w_dedup w; w_rejected := c; w_last_event := w_last_event w; w_pending := w_pending w |}.
Definition set_last_event le w : Writer V :=
  {| w_dir := w_dir w; w_config := w_config w; w_seq := w_seq w; w_last_ts := w_last_ts w; w_inner := w_inner w;
     w_dedup := w_dedup w; w_rejected := w_rejected w; w_last_event := le; w_pending := w_pending w |}.
Definition set_files (d : Dir) (f : SegmentFiles) (seq : N) w : Writer V :=
  {| w_dir := d; w_config := w_config w; w_seq := seq; w_last_ts := w_last_ts w; w_inner := f;
     w_dedup := w_dedup w; w_rejected := w_rejected w; w_last_event := w_last_event w; w_pending := w_pending w |}.

(** *** The physical write *)

(** Empty deltas are made non-empty before they are stored. *)
Definition normalize_delta e : CanonEvent V :=
  let d := p_delta (ev_payload e) in
  if json_eqb d jempty || json_eqb d (jsingle "graph_version" (jnum 0))
  then with_delta (jsingle "_auto" (jbool true)) e else e.

(** The length-prefixed record; the length is cast with [as u32]. *)
Definition frame_of (payload : bytes) : bytes := to_le_bytes 4 (wrap32 (lenN payload)) ++ payload.

Definition ensure_magic (s : Dir * SegmentFiles) : Dir * SegmentFiles :=
  let '(d, f) := s in
  if (size f =? 0)%N then
    ({| d_log := append_at (seg f) magic_bytes (d_log d); d_idx := d_idx d; d_time := d_time d |},
     {| seg := seg f; size := lenN magic_bytes; last_time_bucket := last_time_bucket f; records := records f |})
  else s.

Definition maybe_rotate (c : SegmentConfig) (seq line_len : N) (s : Dir * SegmentFiles) : Dir * SegmentFiles :=
  let '(d, f) := s in
  if (max_bytes c <? size f + line_len)%N then
    let '(d1, f1) := open_new_segment_files d seq in
    (match retain_segments c with Some keep => apply_retention d1 keep | None => d1 end, f1)
  else s.

Definition append_frame (c : SegmentConfig) (seq ts : N) (frame : bytes) (s : Dir * SegmentFiles) : Dir * SegmentFiles :=
  let '(d, f) := s in
  let record_pos := size f in
  let size' := sat_add64 (size f) (lenN frame) in
  let records' := sat_add32 (records f) 1 in
  let bucket := (ts / time_bucket_ms c)%N in
  let new_bucket := negb (bool_decide (last_time_bucket f = Some bucket)) in
  ({| d_log := append_at (seg f) frame (d_log d);
      d_idx := if (records' mod index_stride c =? 0)%N
               then append_at (seg f) (to_le_bytes 8 seq ++ to_le_bytes 8 record_pos) (d_idx d) else d_idx d;
      d_time := if new_bucket
                then append_at (seg f) (to_le_bytes 8 bucket ++ to_le_bytes 8 record_pos) (d_time d) else d_time d |},
   {| seg := seg f; size := size'; last_time_bucket := Some bucket; records := records' |}).

(** [write_canon_event_inner].  [held] says that the caller's thread already
    holds the [last_event] mutex, which the last statement locks. *)
Definition write_canon_event_inner (held : bool) e : stateR (Writer V) fault unit := fun w =>
  let prev := w_last_ts w in
  let w := set_last_ts (N.max prev (ev_ts e)) w in
  if (ev_ts e <? prev)%N then
    (w, Err (Failed ("non-monotonic timestamp: " +:+ pretty (ev_ts e) +:+ " < prev " +:+ pretty prev)))
  else
    let p := ev_payload e in
    if json_is_null (p_input p) || json_is_null (p_output p) || json_is_null (p_delta p) then
      (w, Err (Failed "CanonPayload input/output/delta must not be null"))
    else
      let e := normalize_delta e in
      match to_vec e with
      | None => (w, Err (Failed "serialization failed"))
      | Some payload =>
          let frame := frame_of payload in
          let seq := w_seq w in
          let '(d, f) := append_frame (w_config w) seq (ev_ts e) frame
                           (maybe_rotate (w_config w) seq (lenN frame)
                             (ensure_magic (w_dir w, w_inner w))) in
          let w := set_files d f (wrap64 (seq + 1)) w in
          if held then (w, Err Hang) else (set_last_event (Some e) w, Ok tt)
      end.

(** *** Rejections *)

Definition is_invariant_violation_event e : bool :=
  match d ← json_get "delta" (p_data (ev_payload e)); ev ← json_get "event" d; json_get "InvariantViolation" ev with
  | Some _ => true
  | None => false
  end.

(** The serialized [RustcEvent::InvariantViolation], its [EventDelta] and the
    default [RustcState] ([canon-invariant] and [canon-types]). *)
Definition violation_event_json (message : string) : V :=
  jsingle "InvariantViolation" (jobj {[ "message" := jstr message; "recorded" := jbool true ]}).
Definition violation_delta_json (message : string) : V :=
  jobj {[ "id" := jnum 0; "tick" := jnum 0; "event" := violation_event_json message ]}.
Definition default_state_json : V :=
  jobj {[ "tick" := jnum 0; "phase" := jstr ""; "last_event_id" := jnum 0; "invariant_hash" := jstr "";
          "graph_version" := jnum 0; "known_symbols" := jempty; "known_edges" := jarr [];
          "known_files" := jarr []; "removed_symbols" := jarr []; "removed_edges" := jarr [] ]}.

Definition build_invariant_violation_event_with_parent o (rejected : CanonEvent V) (message : string) (parent : EventId) : CanonEvent V :=
  let meta := p_meta (ev_payload rejected) in
  let full_message :=
    message +:+ "; rejected_kind=" +:+ as_str (ev_kind rejected) +:+ "; rejected_id=" +:+ ev_id rejected
    +:+ "; rejected_actor=" +:+ ev_actor rejected +:+ "; rejected_meta_file=" +:+ meta_file meta
    +:+ "; rejected_meta_line=" +:+ pretty (meta_line meta) in
  {| ev_id := o_event_id o; ev_parent_ids := [parent]; ev_actor := "writer"; ev_kind := Code;
     ev_ts := o_now o; ev_prev_event_id := None;
     ev_payload := {|
       p_input := jobj {[ "tick" := jnum 0; "id" := jnum 0 ]};
       p_output := violation_event_json full_message;
       p_delta := jsingle "graph_version" (jnum 0);
       p_meta := writer_meta;
       p_data := jobj {[
         "rejected" := jobj {[ "id" := jstr (ev_id rejected); "kind" := jstr (as_str (ev_kind rejected));
                               "actor" := jstr (ev_actor rejected); "meta_file" := jstr (meta_file meta);
                               "meta_line" := jnum (meta_line meta) ]};
         "delta" := violation_delta_json full_message;
         "state" := default_state_json ]} |} |}.

Definition rejected_edge (parent : EventId) e : RejectedEdge :=
  {| re_parent := parent; re_kind := as_str (ev_kind e); re_fingerprint := event_content_hash e |}.

(** [record_rejected_edge]: the first rejection of an edge is itself logged. *)
Definition record_rejected_edge (held : bool) o e (message : string) (parent : option EventId) : stateR (Writer V) fault unit := fun w =>
  if is_invariant_violation_event e then (w, Ok tt)
  else
    let parent_for_violation :=
      match parent with Some p => p | None => default (o_parent_id o) (head (ev_parent_ids e)) end in
    let violation := build_invariant_violation_event_with_parent o e message parent_for_violation in
    let '(rejected, is_new) := DedupCache.insert_if_new (rejected_edge parent_for_violation e) (w_rejected w) in
    let w := set_rejected rejected w in
    if is_new then write_canon_event_inner held violation w else (w, Ok tt).

Definition retry_message (parent : EventId) (k : EventKind) : string :=
  "invariant violation: invalid_retry parent=" +:+ parent +:+ "; kind=" +:+ as_str k
  +:+ "; blocked until recovery_event/reset_event/override_event".

(** [check_invalid_retry]; the inner option is the error to report. *)
Definition check_invalid_retry o e : stateR (Writer V) fault (option string) := fun w =>
  if is_recovery_event e || is_invariant_violation_event e then (w, Ok None)
  else
    match head (ev_parent_ids e) with
    | None => (w, Ok None)
    | Some parent =>
        if DedupCache.contains (rejected_edge parent e) (w_rejected w) then
          let err := retry_message parent (ev_kind e) in
          (record_rejected_edge false o e err (Some parent) ;;! mret (Some err)) w
        else (w, Ok None)
    end.

(** *** The gate *)

(** The invariant check of [validate_event] at the head of [write_canon_event]. *)
Definition gate_event o e : stateR (Writer V) fault unit := fun w =>
  match validate_event e with
  | Ok _ => (w, Ok tt)
  | Err err => (record_rejected_edge false o e err None ;;! fail_with (Failed err)) w
  end.

(** The transition check; the [last_event] guard is held throughout. *)
Definition gate_transition o e : stateR (Writer V) fault unit := fun w =>
  match w_last_event w with
  | None => (w, Ok tt)
  | Some prev =>
      match validate_transition prev e with
      | Ok _ => (w, Ok tt)
      | Err err => (record_rejected_edge true o e err (Some (ev_id prev)) ;;! fail_with (Failed err)) w
      end
  end.

Definition missing_successor_message (req : PendingTransition) (got : EventKind) : string :=
  "invariant violation: missing required successor after " +:+ as_str (pt_source_kind req)
  +:+ " id=" +:+ pt_parent req +:+ "; expected=" +:+ as_str (pt_expected req)
  +:+ "; got=" +:+ as_str got +:+ "; note=" +:+ pt_note req.

(** The successor check; the result says whether an obligation was discharged
    ([required_successor_override]). *)
Definition gate_pending o e : stateR (Writer V) fault bool := fun w =>
  match w_pending w with
  | None => (w, Ok false)
  | Some req =>
      if negb (is_control (ev_kind e)) then (w, Ok false)
      else if bool_decide (ev_kind e = pt_expected req) then (set_pending None w, Ok true)
      else if bool_decide (pt_source_kind req = RouteTick) && bool_decide (ev_kind e = LoopObserved) then
        (set_pending None w, Ok true)
      else if bool_decide (pt_source_kind req = RouteTick) && bool_decide (ev_kind e = RouteSelected) then
        (set_pending None w, Ok true)
      else
        let err := missing_successor_message req (ev_kind e) in
        (record_rejected_edge false o e err (Some (pt_parent req)) ;;!
         modify (set_pending None) ;;! fail_with (Failed err)) w
  end.

(** The duplicate check of effect events; [false] drops the event. *)
Definition gate_dedup (override : bool) e : stateR (Writer V) fault bool := fun w =>
  if override || is_control (ev_kind e) then (w, Ok true)
  else
    let '(c, is_new) := DedupCache.insert_if_new (event_content_hash e) (w_dedup w) in
    (set_dedup c w, Ok is_new).

(** [write_canon_event]. *)
Definition write_canon_event o e : stateR (Writer V) fault unit :=
  let! retry_err := check_invalid_retry o e in
  match retry_err with
  | Some err => fail_with (Failed err)
  | None =>
      gate_event o e ;;!
      gate_transition o e ;;!
      let! override := gate_pending o e in
      let! fresh := gate_dedup override e in
      if negb fresh then mret tt
      else if bool_decide (ev_kind e = LoopObserved) then
        write_canon_event_inner false e ;;! modify (set_pending None)
      else
        write_canon_event_inner false e ;;!
        if is_control (ev_kind e) then modify (set_pending (required_successor e)) else mret tt
  end.

(** [notify_replayed_event]. *)
Definition notify_replayed_event e w : Writer V :=
  if is_control (ev_kind e) then set_pending (required_successor e) w else w.
End Writer.
