(* ===== verification/TlogReader.v ===== *)
(** * The append-only event log: readers
    ([canon-storage-eventlog/src/binary_reader.rs], [reader.rs])

    Frame splitting, the decoding of one segment, the segment scan of a
    directory and the index-based entry point, with the frame-level lemmas the
    log theorems rest on. *)
From stdpp Require Import pretty sorting.
From S2P Require Import Prelude Json Wire EventInvariants Codec TlogWriter.
Import EventKind.

(** [read_u32] and [read_u64] on a slice of at least 4 and 8 bytes. *)
Definition read_u32 (buf : bytes) : N := from_le_bytes (take 4 buf).
Definition read_u64 (buf : bytes) : N := from_le_bytes (take 8 buf).

(** [is_binary_magic]. *)
Definition is_binary_magic (bs : bytes) : bool :=
  (4 <=? length bs) && (read_u32 bs =? MAGIC)%N.

(** The [while] loop over length-prefixed records: the records in order, up to
    the first incomplete one.  Each round consumes at least four bytes, so the
    length of the buffer bounds the rounds. *)
Fixpoint split_frames_fuel (fuel : nat) (content : bytes) : list bytes :=
  match fuel with
  | O => []
  | S fuel' =>
      if length content <? 4 then []
      else
        let len := N.to_nat (read_u32 content) in
        let rest := drop 4 content in
        if length rest <? len then []
        else take len rest :: split_frames_fuel fuel' (drop len rest)
  end.
Definition split_frames (content : bytes) : list bytes := split_frames_fuel (length content) content.

(** The bytes after the MAGIC header, when there is one. *)
Definition strip_magic (bs : bytes) : bytes :=
  if is_binary_magic bs && (4 <? length bs) then drop 4 bs else bs.

Section Reader.
Context {V : Type} `{Json V} `{Codec V}.
(** [canon_event::new_event_id()] for legacy records without an id. *)
Context (new_event_id : string).

Definition upgrade_legacy_event (old : LegacyCanonEvent V) : CanonEvent V :=
  {| ev_id := match lg_event_id old with Some v => pretty v | None => new_event_id end;
     ev_parent_ids := [];
     ev_actor := lm_source (lg_meta old);
     ev_kind := default Debug (serde_from_str (lg_kind old));
     ev_ts := lm_ts (lg_meta old);
     ev_prev_event_id := None;
     ev_payload := {| p_input := jempty; p_output := jempty; p_delta := jempty;
                      p_meta := {| meta_file := lm_file (lg_meta old); meta_line := lm_line (lg_meta old) |};
                      p_data := default jempty (lg_data old) |} |}.

(** One record: the current layout, else the legacy one, else skipped. *)
Definition decode_record (r : bytes) : option (CanonEvent V) :=
  match from_slice r with
  | Some e => Some e
  | None => upgrade_legacy_event <$> from_slice_legacy r
  end.

(** [read_binary_events] on the file's contents. *)
Definition read_binary_events (file : bytes) : list (CanonEvent V) :=
  omap decode_record (split_frames (strip_magic file)).

(** The scan of the [.idx] file: the position of the last entry whose
    sequence number does not exceed [start_seq]. *)
Fixpoint scan_index (fuel : nat) (idx : bytes) (start_seq start_pos : N) : N :=
  match fuel with
  | O => start_pos
  | S fuel' =>
      if length idx <? 16 then start_pos
      else if (read_u64 idx <=? start_seq)%N
      then scan_index fuel' (drop 16 idx) start_seq (read_u64 (drop 8 idx))
      else start_pos
  end.

(** [read_binary_events_from_segment_with_start_seq]; [idx] is [None] when
    there is no index file.  The index position is applied to the contents
    after the MAGIC header. *)
Definition read_binary_events_from_segment_with_start_seq (idx : option bytes) (file : bytes) (start_seq : N) : list (CanonEvent V) :=
  let start_pos := match idx with Some i => scan_index (length i) i start_seq 0 | None => 0%N end in
  let base := strip_magic file in
  let relevant := if N.to_nat start_pos <=? length base then drop (N.to_nat start_pos) base else base in
  omap decode_record (split_frames relevant).

(** The files of a segment directory, as [read_dir] lists them: every file
    with a numeric stem, whatever its extension, with its segment number. *)
Definition dir_files (d : Dir) : list (N * bytes) :=
  map_to_list (d_log d) ++ map_to_list (d_idx d) ++ map_to_list (d_time d).

Definition by_seq (x y : N * bytes) : Prop := (x.1 <= y.1)%N.
#[local] Instance by_seq_dec x y : Decision (by_seq x y) := decide (x.1 <= y.1)%N.

(** [read_any_events_from_path] on a directory. *)
Definition read_any_events_from_dir (d : Dir) : list (CanonEvent V) :=
  concat ((fun x => read_binary_events x.2) <$> merge_sort by_seq (dir_files d)).

(** [read_any_events_from_path_with_start_seq] on a directory. *)
Definition read_any_events_from_dir_with_start_seq (d : Dir) (start_seq : N) : list (CanonEvent V) :=
  concat ((fun x => if (x.1 <? start_seq)%N then [] else read_binary_events x.2) <$> merge_sort by_seq (dir_files d)).
End Reader.

(** ** Frames *)

Lemma length_frame_of p : length (frame_of p) = 4 + length p.
Proof. unfold frame_of. by rewrite length_app, length_to_le_bytes. Qed.

Lemma read_u32_frame p rest : read_u32 (frame_of p ++ rest) = wrap32 (lenN p).
Proof.
  unfold read_u32, frame_of. rewrite <- app_assoc, take_app_length' by by rewrite length_to_le_bytes.
  apply from_to_le_bytes. pose proof (N.mod_lt (lenN p) 4294967296). unfold wrap32.
  change (256 ^ N.of_nat 4)%N with 4294967296%N. lia.
Qed.

Lemma drop_frame_header p rest : drop 4 (frame_of p ++ rest) = p ++ rest.
Proof. unfold frame_of. rewrite <- app_assoc. apply drop_app_length'. by rewrite length_to_le_bytes. Qed.

Definition short (p : bytes) : Prop := (lenN p < 4294967296)%N.

Lemma short_len p : short p -> N.to_nat (wrap32 (lenN p)) = length p.
Proof. intros Hp. rewrite wrap32_small by done. unfold lenN. lia. Qed.

(** The splitter takes one well-formed frame off the buffer. *)
Lemma split_frames_fuel_cons fuel p rest : short p ->
  split_frames_fuel (S fuel) (frame_of p ++ rest) = p :: split_frames_fuel fuel rest.
Proof.
  intros Hp. cbn [split_frames_fuel]. rewrite read_u32_frame, drop_frame_header, short_len by done.
  rewrite !length_app, length_frame_of.
  rewrite (proj2 (Nat.ltb_ge _ _)) by lia. rewrite (proj2 (Nat.ltb_ge _ _)) by lia.
  by rewrite take_app_length, drop_app_length.
Qed.

(** A buffer too short for one frame: fewer than four bytes, or a length
    prefix that announces more than is there. *)
Definition torn (tail : bytes) : Prop :=
  length tail < 4 \/ (lenN (drop 4 tail) < read_u32 tail)%N.

Lemma split_frames_fuel_torn fuel tail : torn tail -> split_frames_fuel fuel tail = [].
Proof.
  intros Ht. destruct fuel as [|fuel]; [done|]. cbn [split_frames_fuel].
  destruct (length tail <? 4) eqn:H4; [done|]. apply Nat.ltb_ge in H4.
  destruct Ht as [Ht|Ht]; [lia|]. unfold lenN in Ht.
  rewrite (proj2 (Nat.ltb_lt _ _)) by lia. done.
Qed.

Lemma split_frames_fuel_concat ps tail fuel :
  Forall short ps -> torn tail -> length ps <= fuel ->
  split_frames_fuel fuel (concat (frame_of <$> ps) ++ tail) = ps.
Proof.
  intros Hps Ht. revert fuel. induction Hps as [|p ps Hp Hps IH]; intros fuel Hf.
  - by apply split_frames_fuel_torn.
  - destruct fuel as [|fuel]; [simpl in Hf; lia|].
    cbn [fmap list_fmap concat]. rewrite <- app_assoc, split_frames_fuel_cons by done.
    f_equal. apply IH. simpl in Hf. lia.
Qed.

Lemma length_concat_frames ps : length ps <= length (concat (frame_of <$> ps)).
Proof.
  induction ps as [|p ps IH]; [done|]. cbn [fmap list_fmap concat]. rewrite length_app, length_frame_of. cbn. lia.
Qed.

(** Frames split back into their payloads, and an incomplete tail is dropped. *)
Lemma split_frames_concat ps tail : Forall short ps -> torn tail ->
  split_frames (concat (frame_of <$> ps) ++ tail) = ps.
Proof.
  intros Hps Ht. unfold split_frames. apply split_frames_fuel_concat; [done..|].
  rewrite length_app. pose proof (length_concat_frames ps). lia.
Qed.

Lemma torn_nil : torn [].
Proof. left. simpl. lia. Qed.

(** A strict prefix of a frame is torn. *)
Lemma torn_prefix p n : short p -> n < length (frame_of p) -> torn (take n (frame_of p)).
Proof.
  intros Hp Hn. rewrite length_frame_of in Hn. destruct (decide (n < 4)) as [H4|H4].
  - left. rewrite length_take. lia.
  - right. rewrite <- (app_nil_r (frame_of p)).
    unfold read_u32. rewrite take_take, Nat.min_l by lia.
    change (from_le_bytes (take 4 (frame_of p ++ []))) with (read_u32 (frame_of p ++ [])).
    rewrite read_u32_frame, wrap32_small by done. unfold lenN.
    rewrite skipn_length, length_take, length_app, length_frame_of. simpl. lia.
Qed.

(** ** Enough fuel: more rounds than bytes change nothing *)

Lemma split_frames_fuel_enough fuel content :
  length content <= fuel -> split_frames_fuel fuel content = split_frames content.
Proof.
  unfold split_frames. enough (forall f1 f2 c, length c <= f1 -> length c <= f2 -> split_frames_fuel f1 c = split_frames_fuel f2 c) by auto.
  induction f1 as [|f1 IH]; intros [|f2] c H1 H2; [done| | |]; cbn [split_frames_fuel];
    destruct (length c <? 4) eqn:H4; try done; apply Nat.ltb_ge in H4; [lia..|].
  destruct (length (drop 4 c) <? _); [done|]. f_equal. apply IH; rewrite !length_drop; lia.
Qed.

Lemma scan_index_enough f1 f2 idx start_seq pos :
  length idx <= f1 -> length idx <= f2 -> scan_index f1 idx start_seq pos = scan_index f2 idx start_seq pos.
Proof.
  revert f2 idx pos. induction f1 as [|f1 IH]; intros [|f2] idx pos H1 H2; [done| | |]; cbn [scan_index];
    destruct (length idx <? 16) eqn:H4; try done; apply Nat.ltb_ge in H4; [lia..|].
  destruct (_ <=? _)%N; [|done]. apply IH; rewrite length_drop; lia.
Qed.
