(* ===== verification/TlogLog.v ===== *)
(** * The event log as a sequence of events

    The abstract view of the log is a list of events; a directory of segments
    represents the concatenation of its segments in sequence order.  This file
    relates the two: what a segment holds, that the reader recovers it, and
    that a physical write appends exactly one event. *)
From stdpp Require Import pretty sorting.
From S2P Require Import Prelude Json Wire EventInvariants Codec TlogWriter TlogReader.
Import EventKind.

Lemma short_of_magic p : (lenN p < MAGIC)%N -> short p.
Proof. unfold short, MAGIC. lia. Qed.

Lemma length_magic_bytes : length magic_bytes = 4.
Proof. reflexivity. Qed.

Lemma is_binary_magic_magic bs : is_binary_magic (magic_bytes ++ bs) = true.
Proof.
  unfold is_binary_magic, read_u32. rewrite take_app_length' by done.
  rewrite length_app, length_magic_bytes. cbn [Nat.add Nat.leb andb]. reflexivity.
Qed.

Lemma is_binary_magic_frame p tail : (lenN p < MAGIC)%N -> is_binary_magic (frame_of p ++ tail) = false.
Proof.
  intros Hp. unfold is_binary_magic. rewrite read_u32_frame, wrap32_small by by apply short_of_magic.
  rewrite (proj2 (N.eqb_neq _ _)) by lia. apply andb_false_r.
Qed.

Lemma is_binary_magic_short bs : length bs < 4 -> is_binary_magic bs = false.
Proof. intros Hl. unfold is_binary_magic. by rewrite (proj2 (Nat.leb_gt _ _)) by lia. Qed.

Lemma is_binary_magic_prefix p n : (lenN p < MAGIC)%N -> is_binary_magic (take n (frame_of p)) = false.
Proof.
  intros Hp. destruct (decide (n < 4)) as [H4|H4].
  - apply is_binary_magic_short. rewrite length_take. lia.
  - unfold is_binary_magic, read_u32. rewrite take_take, Nat.min_l by lia.
    pose proof (read_u32_frame p []) as Hr. rewrite app_nil_r in Hr. unfold read_u32 in Hr.
    rewrite Hr, wrap32_small by by apply short_of_magic.
    rewrite (proj2 (N.eqb_neq _ _)) by lia. apply andb_false_r.
Qed.

(** A tail a crash can leave behind: part of one frame, or nothing. *)
Definition partial_frame (tail : bytes) : Prop :=
  exists p n, (lenN p < MAGIC)%N /\ n < length (frame_of p) /\ tail = take n (frame_of p).

Lemma partial_nil : partial_frame [].
Proof. exists [], 0. split; [reflexivity|]. split; [rewrite length_frame_of; simpl; lia|done]. Qed.

Lemma partial_torn tail : partial_frame tail -> torn tail.
Proof. intros (p & n & Hp & Hn & ->). apply torn_prefix; [by apply short_of_magic|done]. Qed.

(** Stripping the header leaves the frames, whichever of the two layouts the
    segment has. *)
Lemma split_frames_strip (magic : bool) ps tail :
  Forall (fun p => lenN p < MAGIC)%N ps -> partial_frame tail ->
  split_frames (strip_magic ((if magic then magic_bytes else []) ++ concat (frame_of <$> ps) ++ tail)) = ps.
Proof.
  intros Hps Ht.
  assert (Hs : Forall short ps) by (eapply Forall_impl; [exact Hps|apply short_of_magic]).
  pose proof (split_frames_concat ps tail Hs (partial_torn _ Ht)) as Hmain.
  unfold strip_magic. destruct magic.
  - rewrite is_binary_magic_magic, length_app, length_magic_bytes. cbn [andb].
    destruct (4 <? 4 + length (concat (frame_of <$> ps) ++ tail)) eqn:Hl.
    + rewrite drop_app_length' by done. exact Hmain.
    + apply Nat.ltb_ge in Hl.
      destruct (concat (frame_of <$> ps) ++ tail) eqn:E; [|simpl in Hl; lia].
      rewrite <- Hmain. reflexivity.
  - replace (is_binary_magic ([] ++ concat (frame_of <$> ps) ++ tail)) with false; [exact Hmain|].
    symmetry. destruct Hps as [|p ps Hp Hps]; cbn [fmap list_fmap concat app].
    + destruct Ht as (p & n & Hp & Hn & ->). by apply is_binary_magic_prefix.
    + rewrite <- app_assoc. by apply is_binary_magic_frame.
Qed.

(** ** Retention *)

Lemma foldl_remove_log l d : d_log (foldl remove_segment d l) = foldr delete (d_log d) (reverse l).
Proof.
  induction l as [|x l IH] using rev_ind; [done|].
  rewrite foldl_snoc, reverse_snoc. cbn. by rewrite IH.
Qed.

Lemma foldr_delete_dom (l : list N) (m : gmap N bytes) : dom (foldr delete m l) = dom m ∖ list_to_set l.
Proof. induction l as [|x l IH]; cbn; [set_solver|]. rewrite dom_delete_L, IH. set_solver. Qed.

Lemma segment_seqs_sorted d : StronglySorted N.le (segment_seqs d).
Proof. apply (StronglySorted_merge_sort N.le). Qed.
Lemma segment_seqs_NoDup d : NoDup (segment_seqs d).
Proof. unfold segment_seqs. rewrite merge_sort_Permutation. apply NoDup_elements. Qed.
Lemma elem_of_segment_seqs d s : s ∈ segment_seqs d <-> s ∈ dom (d_log d).
Proof. unfold segment_seqs. by rewrite merge_sort_Permutation, elem_of_elements. Qed.

Lemma StronglySorted_drop {A} (R : relation A) n l : StronglySorted R l -> StronglySorted R (drop n l).
Proof. revert l. induction n as [|n IH]; intros l Hl; [done|]. destruct Hl; [constructor|by apply IH]. Qed.

Lemma NoDup_take_drop {A} n (l : list A) x : NoDup l -> x ∈ take n l -> x ∉ drop n l.
Proof.
  intros Hl Hx Hx'. rewrite <- (take_drop n l) in Hl. apply NoDup_app in Hl as (_ & Hd & _). by apply (Hd x).
Qed.

Lemma elem_of_drop_in {A} n (l : list A) x : x ∈ drop n l -> x ∈ l.
Proof. intros Hx. rewrite <- (take_drop n l), elem_of_app. by right. Qed.

(** Removing the [n] oldest segments leaves the others, in order. *)
Lemma remove_oldest n d :
  segment_seqs (foldl remove_segment d (take n (segment_seqs d))) = drop n (segment_seqs d).
Proof.
  set (d' := foldl _ _ _). apply (StronglySorted_unique N.le).
  - apply segment_seqs_sorted.
  - apply StronglySorted_drop, segment_seqs_sorted.
  - apply NoDup_Permutation; [apply segment_seqs_NoDup|eapply sublist_NoDup; [apply segment_seqs_NoDup|apply sublist_drop]|].
    intros x. rewrite elem_of_segment_seqs. unfold d'.
    rewrite foldl_remove_log, foldr_delete_dom, elem_of_difference, elem_of_list_to_set.
    rewrite elem_of_reverse, <- elem_of_segment_seqs. split.
    + intros [Hx Hn]. rewrite <- (take_drop n (segment_seqs d)), elem_of_app in Hx. tauto.
    + intros Hx. split; [by eapply elem_of_drop_in|].
      intros Ht. by apply (NoDup_take_drop n _ _ (segment_seqs_NoDup d) Ht).
Qed.

Lemma remove_keeps l d s : s ∉ l ->
  d_log (foldl remove_segment d l) !! s = d_log d !! s /\
  d_idx (foldl remove_segment d l) !! s = d_idx d !! s /\
  d_time (foldl remove_segment d l) !! s = d_time d !! s.
Proof.
  revert d. induction l as [|x l IH]; intros d Hs; [done|]. cbn.
  apply not_elem_of_cons in Hs as [Hx Hs]. destruct (IH (remove_segment d x) Hs) as (-> & -> & ->).
  cbn. by rewrite !lookup_delete_ne by done.
Qed.

Lemma remove_subseteq l d : d_log (foldl remove_segment d l) ⊆ d_log d.
Proof.
  revert d. induction l as [|x l IH]; intros d; [done|]. cbn.
  etrans; [apply IH|]. cbn. apply delete_subseteq.
Qed.

Section Log.
Context {V : Type} `{Json V} `{Codec V}.
Context (new_event_id : string) (writer_meta : CanonPayloadMeta).
Implicit Types (e : CanonEvent V) (w : Writer V) (evs : list (CanonEvent V)).

(** [p] is a stored payload of [e]. *)
Definition stores (p : bytes) e : Prop := from_slice p = Some e /\ (lenN p < MAGIC)%N.

(** The segment [bs] holds the events [evs]. *)
Definition segment_holds (bs : bytes) evs : Prop :=
  exists (magic : bool) ps, Forall2 stores ps evs /\
    bs = (if magic then magic_bytes else []) ++ concat (frame_of <$> ps).

Lemma stores_decode ps evs : Forall2 stores ps evs -> omap (decode_record new_event_id) ps = evs.
Proof.
  induction 1 as [|p e ps evs [Hp _] _ IH]; [done|].
  cbn. unfold decode_record at 1. rewrite Hp. f_equal. exact IH.
Qed.

Lemma stores_short ps evs : Forall2 stores ps evs -> Forall (fun p => lenN p < MAGIC)%N ps.
Proof. induction 1 as [|p e ps evs [_ Hp] _ IH]; by constructor. Qed.

Lemma read_segment_torn bs evs tail :
  segment_holds bs evs -> partial_frame tail -> read_binary_events new_event_id (bs ++ tail) = evs.
Proof.
  intros (m & ps & Hps & ->) Ht. unfold read_binary_events. rewrite <- app_assoc.
  rewrite split_frames_strip by eauto using stores_short. by apply stores_decode.
Qed.

Lemma read_segment bs evs : segment_holds bs evs -> read_binary_events new_event_id bs = evs.
Proof. intros Hb. rewrite <- (app_nil_r bs). apply read_segment_torn; [done|apply partial_nil]. Qed.

Lemma segment_holds_nil : segment_holds [] [].
Proof. by exists false, []. Qed.
Lemma segment_holds_magic : segment_holds magic_bytes [].
Proof. by exists true, []. Qed.
Lemma segment_holds_snoc bs evs p e :
  segment_holds bs evs -> stores p e -> segment_holds (bs ++ frame_of p) (evs ++ [e]).
Proof.
  intros (m & ps & Hps & ->) Hp. exists m, (ps ++ [p]). split.
  { apply Forall2_app; [done|]. by apply Forall2_cons_2; [|apply Forall2_nil_2]. }
  rewrite fmap_app, concat_app. cbn. by rewrite app_nil_r, app_assoc.
Qed.

(** *** Directories *)

Definition seqs_of (m : gmap N bytes) : list N := merge_sort N.le (elements (dom m)).

(** The events of a directory's log files, segment after segment. *)
Definition events_of (m : gmap N bytes) : list (CanonEvent V) :=
  concat ((fun s => read_binary_events new_event_id (default [] (m !! s))) <$> seqs_of m).
Definition log_events (d : Dir) : list (CanonEvent V) := events_of (d_log d).

(** The events left when the [n] oldest segments are gone. *)
Definition events_after (n : nat) (d : Dir) : list (CanonEvent V) :=
  concat ((fun s => read_binary_events new_event_id (default [] (d_log d !! s))) <$> drop n (segment_seqs d)).

Lemma events_after_0 d : events_after 0 d = log_events d.
Proof. done. Qed.

Lemma elem_of_seqs m s : s ∈ seqs_of m <-> s ∈ dom m.
Proof. unfold seqs_of. by rewrite merge_sort_Permutation, elem_of_elements. Qed.

Lemma seqs_of_sorted m : StronglySorted N.le (seqs_of m).
Proof. apply (StronglySorted_merge_sort N.le). Qed.

Lemma seqs_of_max m s bs : (forall k, k ∈ dom m -> (k <= s)%N) ->
  seqs_of (<[ s := bs ]> m) = seqs_of (delete s m) ++ [s].
Proof.
  intros Hmax. apply (StronglySorted_unique N.le).
  - apply seqs_of_sorted.
  - apply StronglySorted_app_2; [|apply seqs_of_sorted|repeat constructor].
    intros x y Hx Hy. apply list_elem_of_singleton in Hy as ->. apply Hmax.
    apply elem_of_seqs in Hx. rewrite dom_delete_L in Hx. set_solver.
  - unfold seqs_of. rewrite !merge_sort_Permutation, <- (elements_singleton (C := gset N) s).
    rewrite <- elements_disj_union by (rewrite dom_delete_L; set_solver).
    rewrite dom_insert_L, dom_delete_L. f_equiv. intros x. destruct (decide (x = s)); set_solver.
Qed.

Lemma events_of_max m s bs : (forall k, k ∈ dom m -> (k <= s)%N) ->
  events_of (<[ s := bs ]> m) = events_of (delete s m) ++ read_binary_events new_event_id bs.
Proof.
  intros Hmax. unfold events_of. rewrite seqs_of_max, fmap_app, concat_app by done. f_equal.
  - f_equal. apply list_fmap_ext. intros i x Hx.
    apply list_elem_of_lookup_2, elem_of_seqs in Hx. rewrite dom_delete_L in Hx.
    rewrite lookup_insert_ne, lookup_delete_ne by set_solver. done.
  - cbn. by rewrite lookup_insert_eq, app_nil_r.
Qed.

(** *** The open segment *)

(** The open segment is the newest file, its recorded size is its length, and
    every file holds a list of events. *)
Record files_wf (d : Dir) (f : SegmentFiles) : Prop := {
  fw_cur : exists bs, d_log d !! seg f = Some bs /\ size f = lenN bs;
  fw_max : forall s, s ∈ dom (d_log d) -> (s <= seg f)%N;
  fw_holds : forall s bs, d_log d !! s = Some bs -> exists evs, segment_holds bs evs;
}.

(** Replacing the newest segment's contents. *)
Lemma files_wf_set (d d' : Dir) (f' : SegmentFiles) bs evs :
  (forall s bs, d_log d !! s = Some bs -> exists evs, segment_holds bs evs) ->
  (forall s, s ∈ dom (d_log d) -> (s <= seg f')%N) ->
  d_log d' = <[ seg f' := bs ]> (d_log d) -> size f' = lenN bs -> segment_holds bs evs ->
  files_wf d' f' /\ log_events d' = events_of (delete (seg f') (d_log d)) ++ evs.
Proof.
  intros Hh Hmax Hd' Hsz Hbs. split; [split|].
  - exists bs. by rewrite Hd', lookup_insert_eq.
  - rewrite Hd'. intros s. rewrite dom_insert_L. set_solver by lia.
  - rewrite Hd'. intros s b. rewrite lookup_insert. case_decide; [intros [= <-]; eauto|apply Hh].
  - unfold log_events. rewrite Hd', events_of_max by done. by rewrite (read_segment _ evs).
Qed.

Lemma log_events_split d f bs evs :
  files_wf d f -> d_log d !! seg f = Some bs -> segment_holds bs evs ->
  log_events d = events_of (delete (seg f) (d_log d)) ++ evs.
Proof.
  intros [_ Hmax _] Hb Hh. unfold log_events. rewrite <- (insert_id _ _ _ Hb) at 1.
  by rewrite events_of_max, (read_segment _ evs).
Qed.

Lemma append_at_lookup k bs m b : m !! k = Some b -> append_at k bs m = <[ k := b ++ bs ]> m.
Proof. intros Hk. unfold append_at. by rewrite Hk. Qed.

Lemma ensure_magic_ok d f d' f' : files_wf d f -> ensure_magic (d, f) = (d', f') ->
  files_wf d' f' /\ (forall n, events_after n d' = events_after n d) /\
  segment_seqs d' = segment_seqs d /\ seg f' = seg f.
Proof.
  intros Hwf. cbn. destruct (size f =? 0)%N eqn:Hz; intros [= <- <-]; [|done].
  destruct (fw_cur _ _ Hwf) as (bs & Hb & Hs). apply N.eqb_eq in Hz.
  assert (bs = []) as -> by (destruct bs; [done|]; unfold lenN in Hs; simpl in Hs; lia).
  set (d1 := {| d_log := append_at (seg f) magic_bytes (d_log d); d_idx := d_idx d; d_time := d_time d |}).
  assert (Hlog : d_log d1 = <[ seg f := magic_bytes ]> (d_log d)) by (cbn; by rewrite (append_at_lookup _ _ _ [] Hb)).
  assert (Hseqs : segment_seqs d1 = segment_seqs d).
  { unfold segment_seqs. rewrite Hlog, dom_insert_lookup_L by done. done. }
  assert (Hev : forall n, events_after n d1 = events_after n d).
  { intros n. unfold events_after. rewrite Hseqs. f_equal. apply list_fmap_ext. intros i s _.
    rewrite Hlog, lookup_insert. case_decide as Hk; [subst s|done]. rewrite Hb. cbn [default from_option id].
    by rewrite (read_segment [] []), (read_segment magic_bytes []) by auto using segment_holds_nil, segment_holds_magic. }
  split; [|done]. eapply (files_wf_set d d1
    {| seg := seg f; size := lenN magic_bytes; last_time_bucket := last_time_bucket f; records := records f |}
    magic_bytes []); try done; try apply Hwf. apply segment_holds_magic.
Qed.

(** Retention keeps the open segment, and drops whole segments from the
    old end only. *)
Lemma apply_retention_ok keep d f : files_wf d f ->
  files_wf (apply_retention d keep) f /\
  exists n, (n = 0 \/ keep <> 0 /\ n + keep <= length (segment_seqs d)) /\
    log_events (apply_retention d keep) = events_after n d.
Proof.
  intros Hwf. unfold apply_retention. destruct (keep =? 0) eqn:Hk; [by eauto|]. apply Nat.eqb_neq in Hk.
  destruct (length (segment_seqs d) <=? keep) eqn:Hl; [by eauto|]. apply Nat.leb_gt in Hl.
  set (n := length (segment_seqs d) - keep).
  assert (Hlast : segment_seqs d = seqs_of (delete (seg f) (d_log d)) ++ [seg f]).
  { destruct (fw_cur _ _ Hwf) as (bs & Hb & _). change (segment_seqs d) with (seqs_of (d_log d)).
    rewrite <- (insert_id _ _ _ Hb) at 1. apply seqs_of_max, Hwf. }
  assert (Hcur : seg f ∉ take n (segment_seqs d)).
  { intros Hin. apply (NoDup_take_drop _ _ _ (segment_seqs_NoDup d) Hin). rewrite Hlast.
    rewrite drop_app_le by (unfold n; rewrite Hlast, length_app; cbn; lia). set_solver. }
  split; [split|].
  - destruct (fw_cur _ _ Hwf) as (bs & Hb & Hs). exists bs. by rewrite (proj1 (remove_keeps _ _ _ Hcur)).
  - intros s Hs. apply (fw_max _ _ Hwf). revert s Hs. apply subseteq_dom, remove_subseteq.
  - intros s bs Hs. apply (fw_holds _ _ Hwf s). by eapply lookup_weaken, remove_subseteq.
  - exists n. split; [right; unfold n; lia|]. unfold log_events, events_of, events_after.
    change (seqs_of ?m) with (segment_seqs {| d_log := m; d_idx := ∅; d_time := ∅ |}).
    change (segment_seqs {| d_log := d_log ?x; d_idx := ∅; d_time := ∅ |}) with (segment_seqs x).
    rewrite remove_oldest. f_equal. apply list_fmap_ext. intros i s Hs. apply list_elem_of_lookup_2 in Hs.
    rewrite (proj1 (remove_keeps _ _ _ (fun Ht => NoDup_take_drop _ _ _ (segment_seqs_NoDup d) Ht Hs))). done.
Qed.

(** Opening the segment a rotation moves to changes no event. *)
Lemma open_new_events d f seq n : files_wf d f -> (seg f <= seq)%N ->
  events_after n (open_new_segment_files d seq).1 = events_after n d /\
  length (segment_seqs (open_new_segment_files d seq).1) <= S (length (segment_seqs d)).
Proof.
  intros Hwf Hseq. unfold events_after, segment_seqs. cbn. unfold append_at. rewrite app_nil_r.
  destruct (d_log d !! seq) as [b|] eqn:E; cbn; [rewrite insert_id by done; auto|].
  change (merge_sort N.le (elements (dom ?m))) with (seqs_of m).
  rewrite seqs_of_max, delete_id by (done || (intros s Hs; apply (fw_max _ _ Hwf) in Hs; lia)).
  split; [|rewrite length_app; cbn; lia]. rewrite drop_app, fmap_app, concat_app.
  assert (Hnil : concat ((fun s => read_binary_events new_event_id (default [] (<[seq:=[]]> (d_log d) !! s)))
    <$> drop (n - length (seqs_of (d_log d))) [seq]) = []).
  { destruct (n - _); cbn; [|by rewrite drop_nil].
    rewrite lookup_insert_eq, app_nil_r. apply read_segment, segment_holds_nil. }
  rewrite Hnil, app_nil_r. f_equal. apply list_fmap_ext. intros i s Hs.
  apply list_elem_of_lookup_2, elem_of_drop_in, elem_of_seqs in Hs.
  rewrite lookup_insert_ne; [done|]. intros ->. by apply not_elem_of_dom in E.
Qed.

Lemma open_new_wf d f seq : files_wf d f -> (seg f <= seq)%N ->
  files_wf (open_new_segment_files d seq).1 (open_new_segment_files d seq).2.
Proof.
  intros Hwf Hseq.
  assert (exists evs, segment_holds (default [] (d_log d !! seq)) evs) as [evs Hevs].
  { destruct (d_log d !! seq) as [b|] eqn:E; [by eapply (fw_holds _ _ Hwf)|].
    exists []. apply segment_holds_nil. }
  eapply (files_wf_set d _ _ (default [] (d_log d !! seq)) evs); try done; try apply Hwf.
  - intros s Hs. apply (fw_max _ _ Hwf) in Hs. cbn. lia.
  - cbn. unfold append_at. by rewrite app_nil_r.
Qed.

(** [n] whole segments may go, and only under a retention limit, which counts
    the segment just opened. *)
Definition dropped (c : SegmentConfig) (n segments : nat) : Prop :=
  n = 0 \/ exists keep, retain_segments c = Some keep /\ keep <> 0 /\ n + keep <= S segments.

Lemma dropped_none c n segments : retain_segments c = None -> dropped c n segments -> n = 0.
Proof. intros Hn [->|(k & Hk & _)]; [done|congruence]. Qed.

Lemma maybe_rotate_ok c seq len d f d' f' :
  files_wf d f -> (seg f <= seq)%N -> maybe_rotate c seq len (d, f) = (d', f') ->
  files_wf d' f' /\ (seg f' <= seq)%N /\
  exists n, dropped c n (length (segment_seqs d)) /\ log_events d' = events_after n d.
Proof.
  intros Hwf Hseq. unfold maybe_rotate. destruct (max_bytes c <? size f + len)%N.
  2: { intros [= <- <-]. split; [done|]. split; [done|]. exists 0. by split; [left|]. }
  pose proof (open_new_wf _ _ _ Hwf Hseq) as Hwf1.
  assert (Hev : forall n, events_after n (open_new_segment_files d seq).1 = events_after n d)
    by (intros n; by eapply open_new_events).
  destruct (open_new_events _ _ _ 0 Hwf Hseq) as [_ Hlen].
  assert (seg (open_new_segment_files d seq).2 = seq) as Hs by done.
  destruct (open_new_segment_files d seq) as [d1 f1]. cbn [fst snd] in *.
  destruct (retain_segments c) as [keep|] eqn:Hr; intros [= <- <-].
  - destruct (apply_retention_ok keep _ _ Hwf1) as (Hwf2 & n & Hn & Hl). split; [done|]. split; [lia|].
    exists n. rewrite Hl. split; [|done]. destruct Hn as [->|[Hk Hn]]; [by left|right].
    exists keep. split; [done|]. split; [done|lia].
  - split; [done|]. split; [lia|]. exists 0. split; [by left|]. exact (Hev 0).
Qed.

Lemma append_frame_ok c seq ts d f d' f' p e :
  files_wf d f -> stores p e -> (size f + lenN (frame_of p) <= u64_max)%N ->
  append_frame c seq ts (frame_of p) (d, f) = (d', f') ->
  files_wf d' f' /\ log_events d' = log_events d ++ [e] /\ seg f' = seg f.
Proof.
  intros Hwf Hp Hfit. cbn. intros E. apply pair_equal_spec in E as [Ed Ef].
  destruct (fw_cur _ _ Hwf) as (bs & Hb & Hs).
  destruct (fw_holds _ _ Hwf _ _ Hb) as (evs & Hevs).
  rewrite (log_events_split _ _ _ _ Hwf Hb Hevs), <- app_assoc.
  assert (seg f' = seg f) as Hseg by by rewrite <- Ef.
  destruct (files_wf_set d d' f' (bs ++ frame_of p) (evs ++ [e])) as [H1 H2]; rewrite ?Hseg.
  - apply Hwf.
  - apply Hwf.
  - rewrite <- Ed. cbn. by apply append_at_lookup.
  - rewrite <- Ef. cbn. by rewrite sat_add64_exact, lenN_app, Hs.
  - by apply segment_holds_snoc.
  - rewrite Hseg in H2. done.
Qed.

(** *** One physical write *)

(** The size accounting stays below [u64::MAX]. *)
Definition config_fits (c : SegmentConfig) : Prop := (max_bytes c + 8589934592 <= u64_max)%N.

(** ... and no segment is ever removed. *)
Definition config_ok (c : SegmentConfig) : Prop :=
  (max_bytes c + 8589934592 <= u64_max)%N /\ retain_segments c = None.

(** The open segment precedes the next sequence number and is at most one
    record over the size limit; a writer just opened has an empty segment. *)
Definition log_wf w : Prop :=
  files_wf (w_dir w) (w_inner w) /\
  ((seg (w_inner w) < w_seq w /\ size (w_inner w) <= max_bytes (w_config w) + 4294967296)%N \/
   (seg (w_inner w) = w_seq w /\ size (w_inner w) = 0%N)).

(** Event [e] is stored as it is read back, in a record below 1.4 GB. *)
Definition storable e : Prop := forall p, to_vec (normalize_delta e) = Some p -> stores p (normalize_delta e).

Lemma maybe_rotate_size c seq len d f d' f' :
  files_wf d f -> maybe_rotate c seq len (d, f) = (d', f') ->
  (seg f = seq -> size f' = size f) /\
  (seg f < seq -> (seg f' < seq /\ size f' + len <= max_bytes c) \/ size f' = 0)%N.
Proof.
  intros Hwf. cbn. destruct (max_bytes c <? size f + len)%N eqn:Hl; intros [= <- <-].
  - cbn. destruct (fw_cur _ _ Hwf) as (bs & Hb & Hs). split.
    + intros <-. by rewrite Hb.
    + intros Hlt. right. rewrite (proj1 (not_elem_of_dom (d_log d) seq)); [done|].
      intros Hin. apply (fw_max _ _ Hwf) in Hin. lia.
  - apply N.ltb_ge in Hl. split; [done|]. intros. left. lia.
Qed.

Lemma ensure_magic_size d f d' f' : ensure_magic (d, f) = (d', f') ->
  (size f = 0 /\ size f' = 4 \/ size f' = size f)%N.
Proof. cbn. destruct (size f =? 0)%N eqn:Hz; intros [= <- <-]; [left|by right]. apply N.eqb_eq in Hz. done. Qed.

(** What a physical write did: it failed before touching the files, or it
    appended one frame (and, with the mutex held, never returned). *)
Lemma inner_inv held e w w' r : write_canon_event_inner held e w = (w', r) ->
  (exists msg, r = Err (Failed msg) /\ w' = set_last_ts (w_last_ts w') w) \/
  (exists p d f, to_vec (normalize_delta e) = Some p /\ (w_last_ts w <= ev_ts e)%N /\
    append_frame (w_config w) (w_seq w) (ev_ts (normalize_delta e)) (frame_of p)
      (maybe_rotate (w_config w) (w_seq w) (lenN (frame_of p)) (ensure_magic (w_dir w, w_inner w))) = (d, f) /\
    let w1 := set_files d f (wrap64 (w_seq w + 1)) (set_last_ts (ev_ts e) w) in
    (w', r) = if held then (w1, Err Hang) else (set_last_event (Some (normalize_delta e)) w1, Ok tt)).
Proof.
  unfold write_canon_event_inner. intros Hw.
  destruct (ev_ts e <? w_last_ts w)%N eqn:Hts; [left; injection Hw as <- <-; eauto|]. apply N.ltb_ge in Hts.
  destruct (_ || _); [left; injection Hw as <- <-; eauto|].
  destruct (to_vec (normalize_delta e)) as [p|]; [|left; injection Hw as <- <-; eauto].
  right. rewrite N.max_r in Hw by done. cbn -[append_frame maybe_rotate ensure_magic] in Hw.
  destruct (append_frame _ _ _ _ _) as [d f] eqn:Ha.
  exists p, d, f. do 3 (split; [done|]). destruct held; by injection Hw as <- <-.
Qed.

Lemma inner_appends held e w w' r :
  log_wf w -> config_fits (w_config w) -> storable e -> (w_seq w < u64_max)%N ->
  write_canon_event_inner held e w = (w', r) ->
  log_wf w' /\
  ((exists msg, r = Err (Failed msg)) /\ log_events (w_dir w') = log_events (w_dir w) /\ w_seq w' = w_seq w \/
   r = (if held then Err Hang else Ok tt) /\
   (w_seq w' = w_seq w + 1)%N /\
   exists n, dropped (w_config w) n (length (segment_seqs (w_dir w))) /\
     log_events (w_dir w') = events_after n (w_dir w) ++ [normalize_delta e]).
Proof.
  intros [Hwf Hsz] Hroom Hst Hseq Hw.
  destruct (inner_inv _ _ _ _ _ Hw) as [(msg & -> & ->)|(p & d & f & Hp & _ & Ha & Hr)].
  { split; [by split|left; eauto]. }
  specialize (Hst _ Hp). assert (Hlen : (lenN (frame_of p) < 2147483648)%N).
  { destruct Hst as [_ Hst]. unfold lenN in *. rewrite length_frame_of. unfold MAGIC in Hst. lia. }
  destruct (ensure_magic _) as [d1 f1] eqn:E1. destruct (maybe_rotate _ _ _ _) as [d2 f2] eqn:E2.
  destruct (ensure_magic_ok _ _ _ _ Hwf E1) as (Hwf1 & Hl1 & Hq1 & Hs1).
  pose proof (ensure_magic_size _ _ _ _ E1) as Hz1.
  assert ((seg f1 <= w_seq w)%N) as Hle by (rewrite Hs1; lia).
  destruct (maybe_rotate_ok _ _ _ _ _ _ _ Hwf1 Hle E2) as (Hwf2 & Hs2 & n & Hn & Hl2).
  destruct (maybe_rotate_size _ _ _ _ _ _ _ Hwf1 E2) as (Hz2 & Hz2').
  unfold config_fits in Hroom. rewrite Hq1 in Hn. rewrite Hl1 in Hl2.
  assert (Hfit : (size f2 + lenN (frame_of p) <= max_bytes (w_config w) + 4294967296)%N) by lia.
  destruct (append_frame_ok _ _ _ _ _ _ _ _ _ Hwf2 Hst ltac:(lia) Ha) as (Hwf3 & Hl3 & Hs3).
  assert (size f = sat_add64 (size f2) (lenN (frame_of p))) as Hsf by (by injection Ha as _ <-).
  assert (wrap64 (w_seq w + 1) = w_seq w + 1)%N as Hwrap by (apply wrap64_small; unfold u64_max in *; lia).
  assert (Hw1 : forall le, log_wf (set_last_event le (set_files d f (wrap64 (w_seq w + 1)) (set_last_ts (ev_ts e) w)))).
  { intros le. split; [done|]. left. cbn. rewrite Hwrap, Hsf. unfold sat_add64. lia. }
  cbn in Hr. destruct held; injection Hr as -> ->; (split; [apply (Hw1 (w_last_event w)) || apply Hw1|]);
    right; cbn; (split; [done|]); (split; [done|]); exists n; (split; [done|congruence]).
Qed.
End Log.
