(* ===== verification/TlogGate.v ===== *)
(** * The gate in front of the event log

    What [write_canon_event] lets through: the successor discipline of the
    control plane over whole runs, the fate of rejected events, and the log
    contents as the list of accepted events. *)
From stdpp Require Import pretty sorting.
From S2P Require Import Prelude Json Wire EventInvariants Codec TlogWriter TlogReader TlogLog.
Import EventKind.

Section Gate.
Context {V : Type} `{Json V} `{Codec V}.
Context (writer_meta : CanonPayloadMeta).
Implicit Types (e c : CanonEvent V) (w : Writer V) (o : Oracle).

(** The parts of a writer the physical write does not touch. *)
Definition same_gate w w' : Prop :=
  w_config w' = w_config w /\ w_dedup w' = w_dedup w /\ w_rejected w' = w_rejected w /\ w_pending w' = w_pending w.

Lemma inner_same_gate held e w w' r : write_canon_event_inner held e w = (w', r) -> same_gate w w'.
Proof.
  unfold write_canon_event_inner, same_gate.
  destruct (_ <? _)%N; [by intros [= <- <-]|]. destruct (_ || _); [by intros [= <- <-]|].
  destruct (to_vec _); [|by intros [= <- <-]].
  destruct (append_frame _ _ _ _ _) as [d f]. by destruct held; intros [= <- <-].
Qed.

Lemma inner_false_no_hang e w w' : write_canon_event_inner false e w <> (w', Err Hang).
Proof.
  unfold write_canon_event_inner. destruct (_ <? _)%N; [done|]. destruct (_ || _); [done|].
  destruct (to_vec _); [|done]. by destruct (append_frame _ _ _ _ _).
Qed.

(** The obligation the writer keeps after appending [e]; an observation
    leaves none. *)
Definition obligation e : option PendingTransition :=
  if bool_decide (ev_kind e = LoopObserved) then None else required_successor e.

(** [e] may be appended under the obligation [p]. *)
Definition discharges (p : option PendingTransition) e : Prop :=
  match p with
  | None => True
  | Some req => is_control (ev_kind e) = true ->
      ev_kind e = pt_expected req \/
      (pt_source_kind req = RouteTick /\ (ev_kind e = LoopObserved \/ ev_kind e = RouteSelected))
  end.

Lemma check_invalid_retry_none o e w w' :
  check_invalid_retry writer_meta o e w = (w', Ok None) -> w' = w.
Proof.
  unfold check_invalid_retry. destruct (_ || _); [by intros [= <-]|].
  destruct (head _) as [p|]; [|by intros [= <-]].
  destruct (DedupCache.contains _ _); [|by intros [= <-]].
  intros Hb. apply stateR_bind_ok in Hb as (w1 & [] & _ & Hb). done.
Qed.

Lemma gate_event_ok o e w w' : gate_event writer_meta o e w = (w', Ok tt) ->
  w' = w /\ validate_event e = Ok tt.
Proof.
  unfold gate_event. destruct (validate_event e) as [[]|err]; [by intros [= <-]|].
  intros Hb. apply stateR_bind_ok in Hb as (w1 & [] & _ & Hb). done.
Qed.

Lemma gate_transition_ok o e w w' : gate_transition writer_meta o e w = (w', Ok tt) ->
  w' = w /\ (forall prev, w_last_event w = Some prev -> validate_transition prev e = Ok tt).
Proof.
  unfold gate_transition. destruct (w_last_event w) as [prev|]; [|by intros [= <-]].
  destruct (validate_transition prev e) as [[]|err] eqn:Hv; [intros [= <-]; by split; [|intros ? [= <-]]|].
  intros Hb. apply stateR_bind_ok in Hb as (w1 & [] & _ & Hb). done.
Qed.

Lemma gate_pending_ok o e w w' b : gate_pending writer_meta o e w = (w', Ok b) ->
  discharges (w_pending w) e /\
  w' = (if is_control (ev_kind e) then set_pending None w else w) /\
  (b = true -> is_control (ev_kind e) = true).
Proof.
  unfold gate_pending, discharges. destruct (w_pending w) as [req|] eqn:Hp.
  2: { intros [= <- <-]. split; [done|]. split; [|done]. destruct (is_control _); [|done].
       destruct w; cbn in *. by subst. }
  destruct (is_control (ev_kind e)) eqn:Hc; cbn [negb]; [|by intros [= <- <-]].
  case_bool_decide as H1; [intros [= <- <-]; auto|].
  repeat case_bool_decide; cbn [andb]; try (intros [= <- <-]; auto);
    intros Hb; apply stateR_bind_ok in Hb as (w1 & [] & _ & Hb); done.
Qed.

Lemma gate_dedup_ok override e w w' b : gate_dedup override e w = (w', Ok b) ->
  (is_control (ev_kind e) = true -> w' = w /\ b = true) /\ w' = set_dedup (w_dedup w') w.
Proof.
  unfold gate_dedup. destruct (is_control (ev_kind e)).
  - rewrite orb_true_r. intros [= <- <-]. split; [done|]. by destruct w.
  - rewrite orb_false_r. destruct override; [intros [= <- <-]; split; [done|by destruct w]|].
    destruct (DedupCache.insert_if_new _ _). by intros [= <- <-].
Qed.

(** What an accepted write did: it dropped a repeated effect event, or it
    appended the event and installed its obligation. *)
Lemma write_ok_inv o e w w' : write_canon_event writer_meta o e w = (w', Ok tt) ->
  validate_event e = Ok tt /\ discharges (w_pending w) e /\
  (forall prev, w_last_event w = Some prev -> validate_transition prev e = Ok tt) /\
  ((is_control (ev_kind e) = false /\ w' = set_dedup (w_dedup w') w) \/
   (exists w1 w2, write_canon_event_inner false e w1 = (w2, Ok tt) /\
      w1 = set_dedup (w_dedup w1) (if is_control (ev_kind e) then set_pending None w else w) /\
      w' = set_pending (if is_control (ev_kind e) then obligation e else w_pending w) w2)).
Proof.
  unfold write_canon_event. intros Hb.
  apply stateR_bind_ok in Hb as (w1 & [err|] & H1 & Hb); [done|].
  apply check_invalid_retry_none in H1 as ->.
  apply stateR_bind_ok in Hb as (w1 & [] & H1 & Hb). apply gate_event_ok in H1 as [-> Hv].
  apply stateR_bind_ok in Hb as (w1 & [] & H1 & Hb). apply gate_transition_ok in H1 as [-> Ht].
  apply stateR_bind_ok in Hb as (w1 & ov & H1 & Hb). apply gate_pending_ok in H1 as (Hd & -> & Hov).
  apply stateR_bind_ok in Hb as (w1 & fresh & H1 & Hb). apply gate_dedup_ok in H1 as (Hctl & Hw1).
  do 3 (split; [done|]). unfold obligation. destruct fresh; cbn [negb] in Hb.
  2: { left. injection Hb as <-. destruct (is_control (ev_kind e)) eqn:Hc; [naive_solver|done]. }
  right. case_bool_decide as Hk.
  - apply stateR_bind_ok in Hb as (w2 & [] & H2 & Hb). injection Hb as <-.
    exists w1, w2. rewrite Hk in *. done.
  - apply stateR_bind_ok in Hb as (w2 & [] & H2 & Hb). exists w1, w2. split; [done|]. split; [done|].
    destruct (is_control (ev_kind e)); injection Hb as <-; [done|].
    apply inner_same_gate in H2 as (_ & _ & _ & Hp). rewrite Hw1 in Hp. cbn in Hp.
    rewrite <- Hp. by destruct w2.
Qed.

(** A control event accepted by the gate is always appended, and its own
    obligation replaces the previous one; effect events keep it. *)
Lemma write_ok_pending o e w w' : write_canon_event writer_meta o e w = (w', Ok tt) ->
  w_pending w' = if is_control (ev_kind e) then obligation e else w_pending w.
Proof.
  intros Hw. apply write_ok_inv in Hw as (_ & _ & _ & [[Hc Hw]|(w1 & w2 & _ & _ & ->)]); [|done].
  rewrite Hc, Hw. done.
Qed.

(** *** Runs *)

(** A sequence of calls with their outcomes; a call that hangs ends it. *)
Fixpoint write_all (l : list (Oracle * CanonEvent V)) (w : Writer V) : Writer V * list (result fault unit) :=
  match l with
  | [] => (w, [])
  | (o, e) :: l' =>
      let '(w1, r) := write_canon_event writer_meta o e w in
      match r with
      | Err Hang => (w1, [r])
      | _ => let '(w2, rs) := write_all l' w1 in (w2, r :: rs)
      end
  end.

Definition controls (l : list (Oracle * CanonEvent V)) : list (CanonEvent V) :=
  filter (fun e => is_control (ev_kind e) = true) (snd <$> l).

Fixpoint chain (p : option PendingTransition) (cs : list (CanonEvent V)) : Prop :=
  match cs with
  | [] => True
  | c :: cs' => discharges p c /\ chain (obligation c) cs'
  end.

Lemma chain_lookup p cs i c1 c2 :
  chain p cs -> cs !! i = Some c1 -> cs !! S i = Some c2 -> discharges (obligation c1) c2.
Proof.
  revert p i. induction cs as [|c cs IH]; intros p i Hc; [done|].
  destruct Hc as [_ Hc]. destruct i as [|i]; cbn.
  - intros [= ->]. destruct cs as [|c' cs]; [done|]. intros [= ->]. apply Hc.
  - by apply (IH (obligation c)).
Qed.

Lemma write_all_chain l w w' rs : write_all l w = (w', rs) -> Forall (eq (Ok tt)) rs -> chain (w_pending w) (controls l).
Proof.
  revert w w' rs. induction l as [|[o e] l IH]; intros w w' rs; [done|]. cbn [write_all].
  destruct (write_canon_event writer_meta o e w) as [w1 r] eqn:Hw. intros Hl Hok.
  assert (r = Ok tt) as ->.
  { destruct r as [[]|[msg|]]; [done|destruct (write_all l w1)|]; injection Hl as _ <-; by apply Forall_cons in Hok as [? _]. }
  destruct (write_all l w1) as [w2 rs'] eqn:Hl1. injection Hl as _ <-. apply Forall_cons in Hok as [_ Hok].
  specialize (IH _ _ _ Hl1 Hok). rewrite (write_ok_pending _ _ _ _ Hw) in IH.
  unfold controls. rewrite fmap_cons. cbn [snd].
  destruct (is_control (ev_kind e)) eqn:Hc.
  - rewrite filter_cons_True by done. split; [|done]. by apply write_ok_inv in Hw as (_ & ? & _).
  - by rewrite filter_cons_False by (by rewrite Hc).
Qed.

(** *** The log as a list *)

Definition faithful_codec : Prop := forall e p, to_vec e = Some p -> stores p e.

Context (new_event_id : string) (Hcodec : faithful_codec).

Lemma faithful_storable e : storable e.
Proof. intros p. apply Hcodec. Qed.

(** At most one event is appended, and the log stays well formed; a retention
    limit may take the oldest segments. *)
Definition extends w w' : Prop :=
  log_wf w' /\ w_config w' = w_config w /\ exists n suffix, length suffix <= 1 /\
    dropped (w_config w) n (length (segment_seqs (w_dir w))) /\
    log_events new_event_id (w_dir w') = events_after new_event_id n (w_dir w) ++ suffix.

(** Only the gate's own state differs. *)
Definition same_files w w' : Prop :=
  w_dir w' = w_dir w /\ w_inner w' = w_inner w /\ w_seq w' = w_seq w /\ w_config w' = w_config w.

Lemma same_files_wf w w' : same_files w w' -> log_wf w -> log_wf w'.
Proof. intros (Hd & Hi & Hs & Hc). unfold log_wf. by rewrite Hd, Hi, Hs, Hc. Qed.

Lemma same_files_extends w w' : log_wf w -> same_files w w' -> extends w w'.
Proof.
  intros Hwf Hs. split; [by eapply same_files_wf|]. destruct Hs as (Hd & _ & _ & Hc). split; [done|].
  exists 0, []. rewrite Hd, app_nil_r. split; [simpl; lia|]. by split; [left|].
Qed.

Lemma extends_same w w1 w' : same_files w w1 -> extends w1 w' -> extends w w'.
Proof.
  intros (Hd & _ & _ & Hc) (Hwf & Hc' & n & s & Hl & Hn & Hs). split; [done|]. split; [congruence|].
  exists n, s. by rewrite Hs, <- Hd, <- Hc.
Qed.
Lemma extends_then_same w w1 w' : extends w w1 -> same_files w1 w' -> extends w w'.
Proof.
  intros (Hwf & Hc' & n & s & Hl & Hn & Hs) Hsf. split; [by eapply same_files_wf|].
  destruct Hsf as (Hd & _ & _ & Hc). split; [congruence|]. exists n, s. by rewrite Hd.
Qed.

Lemma inner_extends held e w w' r :
  log_wf w -> config_fits (w_config w) -> (w_seq w < u64_max)%N ->
  write_canon_event_inner held e w = (w', r) -> extends w w'.
Proof.
  intros Hwf Hc Hs Hw.
  destruct (inner_appends new_event_id _ _ _ _ _ Hwf Hc (faithful_storable e) Hs Hw) as (Hwf' & Hcase).
  split; [done|]. split; [by apply inner_same_gate in Hw as [? _]|].
  destruct Hcase as [(_ & Hl & _)|(_ & _ & n & Hn & Hl)].
  - exists 0, []. rewrite Hl, app_nil_r. split; [simpl; lia|]. by split; [left|].
  - exists n, [normalize_delta e]. split; [simpl; lia|done].
Qed.

Lemma record_extends held o e msg parent w w' r :
  log_wf w -> config_fits (w_config w) -> (w_seq w < u64_max)%N ->
  record_rejected_edge writer_meta held o e msg parent w = (w', r) -> extends w w'.
Proof.
  intros Hwf Hc Hs. unfold record_rejected_edge.
  destruct (is_invariant_violation_event e); [intros [= <- <-]; by apply same_files_extends|].
  destruct (DedupCache.insert_if_new _ _) as [c []].
  - intros Hw. eapply extends_same; [|eapply inner_extends; [| | |exact Hw]]; done.
  - intros [= <- <-]. by apply same_files_extends.
Qed.

(** A writer that can write one more record, whatever its retention limit ... *)
Definition writable w : Prop := log_wf w /\ config_fits (w_config w) /\ (w_seq w < u64_max)%N.
(** ... and one without a retention limit. *)
Definition ready w : Prop := log_wf w /\ config_ok (w_config w) /\ (w_seq w < u64_max)%N.

Lemma ready_writable w : ready w -> writable w.
Proof. intros (? & [? _] & ?). done. Qed.

(** [m] appends at most one event whatever its outcome ... *)
Definition appends_one {A} (m : stateR (Writer V) fault A) : Prop :=
  forall w w' r, writable w -> m w = (w', r) -> extends w w'.
(** ... and a gate appends only when it stops the call. *)
Definition gate {A} (m : stateR (Writer V) fault A) : Prop :=
  forall w w' r, writable w -> m w = (w', r) ->
    match r with Ok _ => same_files w w' | Err _ => extends w w' end.

Lemma same_files_writable w w' : same_files w w' -> writable w -> writable w'.
Proof. intros Hs (Hwf & Hc & Hr). split; [by eapply same_files_wf|]. destruct Hs as (_ & _ & Hq & ->). by rewrite Hq. Qed.

Lemma gate_bind {A B} (m : stateR (Writer V) fault A) (f : A -> stateR (Writer V) fault B) :
  gate m -> (forall a, appends_one (f a)) -> appends_one (mbind f m).
Proof.
  intros Hm Hf w w' r Hw Hb. apply stateR_bind_inv in Hb as [(x & Hx & _)|(w1 & a & Ha & Hb)].
  - exact (Hm _ _ _ Hw Hx).
  - pose proof (Hm _ _ _ Hw Ha) as Hs. eapply extends_same; [exact Hs|].
    eapply Hf; [|exact Hb]. eapply same_files_writable; [exact Hs|done].
Qed.

(** After an appending computation, steps that keep the files. *)
Lemma appends_bind {A B} (m : stateR (Writer V) fault A) (f : A -> stateR (Writer V) fault B) :
  appends_one m -> (forall a w w' r, f a w = (w', r) -> same_files w w') -> appends_one (mbind f m).
Proof.
  intros Hm Hf w w' r Hw Hb. apply stateR_bind_inv in Hb as [(x & Hx & _)|(w1 & a & Ha & Hb)].
  - by eapply Hm.
  - eapply extends_then_same; [by eapply Hm|by eapply Hf].
Qed.

Lemma appends_pure {A} (r : result fault A) (f : Writer V -> Writer V) :
  (forall w, same_files w (f w)) -> appends_one (fun w => (f w, r)).
Proof. intros Hf w w' r' (Hwf & _) [= <- <-]. by apply same_files_extends. Qed.

Lemma record_appends held o e msg parent : appends_one (record_rejected_edge writer_meta held o e msg parent).
Proof. intros w w' r (? & ? & ?). by apply record_extends. Qed.

Lemma reject_appends {A} held o e msg parent (err : fault) :
  appends_one (mbind (fun _ => fail_with err) (record_rejected_edge writer_meta held o e msg parent) : stateR (Writer V) fault A).
Proof. apply appends_bind; [apply record_appends|]. by intros [] ? ? ? [= <- <-]. Qed.

(** Reporting a retry writes nothing: the edge is already recorded. *)
Lemma retry_keeps_writer o e w parent err :
  DedupCache.contains (rejected_edge parent e) (w_rejected w) = true ->
  record_rejected_edge writer_meta false o e err (Some parent) w = (w, Ok tt).
Proof.
  intros Hc. unfold record_rejected_edge. destruct (is_invariant_violation_event e); [done|].
  unfold DedupCache.insert_if_new. rewrite Hc. by destruct w.
Qed.

Lemma check_invalid_retry_same o e w w' r : check_invalid_retry writer_meta o e w = (w', r) -> w' = w /\ is_ok r = true.
Proof.
  unfold check_invalid_retry. destruct (_ || _); [by intros [= <- <-]|].
  destruct (head _) as [p|]; [|by intros [= <- <-]].
  destruct (DedupCache.contains _ _) eqn:Hc; [|by intros [= <- <-]].
  unfold mbind, stateR_bind. rewrite retry_keeps_writer by done. by intros [= <- <-].
Qed.

Lemma same_files_refl w : same_files w w.
Proof. done. Qed.

Lemma gate_event_gate o e : gate (gate_event writer_meta o e).
Proof.
  intros w w' r Hw. unfold gate_event. destruct (validate_event e) as [[]|err]; [by intros [= <- <-]|].
  intros Hb. destruct r as [[]|]; [by apply stateR_bind_ok in Hb as (? & ? & _ & ?)|].
  exact (reject_appends _ _ _ _ _ _ _ _ _ Hw Hb).
Qed.

Lemma gate_transition_gate o e : gate (gate_transition writer_meta o e).
Proof.
  intros w w' r Hw. unfold gate_transition. destruct (w_last_event w) as [prev|]; [|by intros [= <- <-]].
  destruct (validate_transition prev e) as [[]|err]; [by intros [= <- <-]|].
  intros Hb. destruct r as [[]|]; [by apply stateR_bind_ok in Hb as (? & ? & _ & ?)|].
  exact (reject_appends _ _ _ _ _ _ _ _ _ Hw Hb).
Qed.

Lemma gate_pending_gate o e : gate (gate_pending writer_meta o e).
Proof.
  intros w w' r Hw Hb. destruct r as [b|err].
  { apply gate_pending_ok in Hb as (_ & -> & _). by destruct (is_control _). }
  revert Hb. unfold gate_pending. destruct (w_pending w) as [req|]; [|done].
  destruct (negb _); [done|]. repeat case_bool_decide; cbn [andb]; try done;
    (intros Hb; refine (appends_bind _ _ (record_appends _ _ _ _ _) _ _ _ _ Hw Hb);
     by intros [] ? ? ? [= <- <-]).
Qed.

Lemma gate_dedup_gate ov e : gate (gate_dedup ov e).
Proof.
  intros w w' r Hw. unfold gate_dedup. destruct (_ || _); [by intros [= <- <-]|].
  destruct (DedupCache.insert_if_new _ _). by intros [= <- <-].
Qed.

Lemma inner_false_appends e : appends_one (write_canon_event_inner false e).
Proof. intros w w' r (? & ? & ?). by apply inner_extends. Qed.

Lemma write_appends o e : appends_one (write_canon_event writer_meta o e).
Proof.
  apply gate_bind.
  { intros w w' r _ Hb. apply check_invalid_retry_same in Hb as [-> Hok]. by destruct r. }
  intros [err|]; [by apply (appends_pure (Err (Failed err)) id)|].
  apply gate_bind; [apply gate_event_gate|intros []].
  apply gate_bind; [apply gate_transition_gate|intros []].
  apply gate_bind; [apply gate_pending_gate|intros ov].
  apply gate_bind; [apply gate_dedup_gate|intros fresh].
  destruct (negb fresh); [by apply (appends_pure (Ok tt) id)|].
  case_bool_decide; apply appends_bind; try apply inner_false_appends; intros [] ? ? ?;
    [|destruct (is_control _)]; intros [= <- <-]; done.
Qed.

(** A control event that is accepted is on disk afterwards. *)
Lemma control_write_appends o e w w' :
  ready w -> is_control (ev_kind e) = true -> write_canon_event writer_meta o e w = (w', Ok tt) ->
  log_events new_event_id (w_dir w') = log_events new_event_id (w_dir w) ++ [normalize_delta e].
Proof.
  intros Hw Hc Hb. apply write_ok_inv in Hb as (_ & _ & _ & [[Hc' _]|(w1 & w2 & Hi & Hw1 & ->)]); [congruence|].
  assert (Hs : same_files w w1) by (rewrite Hw1; by destruct (is_control _)).
  destruct (same_files_writable _ _ Hs (ready_writable _ Hw)) as (Hwf & Hcfg & Hseq).
  destruct (inner_appends new_event_id _ _ _ _ _ Hwf Hcfg (faithful_storable e) Hseq Hi)
    as (_ & [([msg Hr] & _)|(_ & _ & n & Hn & Hl)]); [done|].
  destruct Hs as (Hd & _ & _ & Hc1). destruct Hw as (_ & [_ Hret] & _). rewrite <- Hc1 in Hret.
  apply (dropped_none _ _ _ Hret) in Hn as ->. cbn. by rewrite Hl, <- Hd.
Qed.

(** The violation record passes the null checks of the physical write. *)
Context `{!JsonLaws V}.
Lemma violation_write held o e msg parent w p :
  (w_last_ts w <= o_now o)%N ->
  to_vec (normalize_delta (build_invariant_violation_event_with_parent writer_meta o e msg parent)) = Some p ->
  exists w', write_canon_event_inner held (build_invariant_violation_event_with_parent writer_meta o e msg parent) w
    = (w', if held then Err Hang else Ok tt).
Proof.
  intros Hts Hp. unfold write_canon_event_inner.
  assert (ev_ts (build_invariant_violation_event_with_parent writer_meta o e msg parent) = o_now o) as Hn by done.
  rewrite Hn, (proj2 (N.ltb_ge _ _)) by done.
  assert (forall v, v = build_invariant_violation_event_with_parent writer_meta o e msg parent ->
    json_is_null (p_input (ev_payload v)) || json_is_null (p_output (ev_payload v)) || json_is_null (p_delta (ev_payload v)) = false) as Hnull.
  { intros v ->. cbn. unfold violation_event_json, jsingle. by rewrite !json_is_null_jobj. }
  rewrite (Hnull _ eq_refl), Hp. destruct (append_frame _ _ _ _ _) as [d f]. destruct held; eauto.
Qed.
End Gate.

(** ** A writer on an empty directory *)

Definition empty_dir : Dir := {| d_log := {[ 0%N := [] ]}; d_idx := {[ 0%N := [] ]}; d_time := {[ 0%N := [] ]} |}.

Definition empty_writer {V} (c : SegmentConfig) : Writer V :=
  {| w_dir := empty_dir; w_config := c; w_seq := 0; w_last_ts := 0;
     w_inner := {| seg := 0; size := 0; last_time_bucket := None; records := 0 |};
     w_dedup := DedupCache.new 1024; w_rejected := DedupCache.new 1024; w_last_event := None; w_pending := None |}.

Lemma empty_writer_ready {V} `{Json V} `{Codec V} c : config_ok c -> ready (@empty_writer V c).
Proof.
  intros Hc. split; [|split; [done|reflexivity]]. split; [|by right]. split; cbn.
  - exists []. by rewrite lookup_singleton_eq.
  - intros s. rewrite dom_singleton_L, elem_of_singleton. by intros ->.
  - intros s bs. rewrite lookup_singleton_Some. intros [_ <-]. exists []. apply segment_holds_nil.
Qed.

Lemma table_codec_faithful (table : list (CanonEvent jval)) :
  length table <= 256 -> @faithful_codec jval (table_codec table).
Proof.
  intros Hlen e p. cbn. destruct (position table e) as [n|] eqn:Hn; [|done]. intros [= <-].
  assert (Hpos : forall l k, position l e = Some k -> l !! N.to_nat k = Some e).
  { induction l as [|x l IH]; intros k; cbn; [done|]. case_bool_decide; [by intros [= <-]; subst|].
    destruct (position l e) as [k'|]; [|done]. intros [= <-]. rewrite N2Nat.inj_succ. by apply IH. }
  specialize (Hpos _ _ Hn). pose proof (lookup_lt_Some _ _ _ Hpos) as Hlt.
  split; [|reflexivity]. cbn. by rewrite byte_of_to_N, N.mod_small by lia.
Qed.

(** ** Properties *)

Lemma insert_fresh {K} `{Countable K} (x : K) c :
  DedupCache.contains x c = false -> exists c', DedupCache.insert_if_new x c = (c', true).
Proof. unfold DedupCache.insert_if_new. intros ->. split_ifs; [destruct (_ ++ _)|]; by eexists. Qed.

Definition meta0 : CanonPayloadMeta := {| meta_file := "binary.rs"; meta_line := 1 |}.
Definition oracle0 : Oracle := {| o_parent_id := "p"; o_event_id := "v"; o_now := 9 |}.

(** A verify cycle with an effect event in between. *)
Definition cycle : list (CanonEvent jval) :=
  [sample_route "r1" "verify" 1; sample_event "d" Debug 2; sample_event "v1" LoopVerified 3;
   sample_event "u1" VerifierPolicyUpdated 4; sample_event "w1" LoopRewarded 5; sample_route "r2" "observe" 6;
   sample_event "o1" LoopObserved 7].
Definition cycle_calls : list (Oracle * CanonEvent jval) := (fun e => (oracle0, e)) <$> cycle.

(** An action result without a delta, a second observation, and the records of
    their rejections. *)
Definition child_without_delta : CanonEvent jval :=
  from_parent (sample_event "r1" RouteSelected 1) "c" "test" LoopActed 2
    {| p_input := jempty; p_output := jempty; p_delta := jempty; p_meta := meta0; p_data := jempty |}.
Definition second_observation : CanonEvent jval := sample_event "o2" LoopObserved 8.
Definition rejections : list (CanonEvent jval) :=
  [normalize_delta (build_invariant_violation_event_with_parent meta0 oracle0 child_without_delta
     "invariant violation: delta is zero / empty" "r1");
   normalize_delta (build_invariant_violation_event_with_parent meta0 oracle0 second_observation
     "invariant violation: illegal transition loop_observed -> loop_observed" "o1")].

#[export] Instance sample_codec : Codec jval := table_codec (cycle ++ rejections).

Lemma sample_codec_faithful : faithful_codec.
Proof. apply table_codec_faithful. vm_compute. lia. Qed.

Definition writer0 : Writer jval := empty_writer default_config.

Lemma writer0_ready : ready writer0.
Proof. apply empty_writer_ready. split; [vm_compute; discriminate|reflexivity]. Qed.

Definition rejecting_writer : Writer jval := (write_canon_event meta0 oracle0 child_without_delta writer0).1.
Definition observed_writer : Writer jval := (write_canon_event meta0 oracle0 (sample_event "o1" LoopObserved 7) writer0).1.

Lemma cycle_accepted : (write_all meta0 cycle_calls writer0).2 = replicate 7 (Ok tt).
Proof. vm_compute. reflexivity. Qed.

(** C1: in a run in which every call is accepted, every control event
    discharges the obligation opened by the control event before it, whatever
    effect events lie between them: it is of the expected kind, or it follows
    a [RouteTick] and is one of the two kinds that may follow one. *)
Theorem control_successors_respected {V} `{Json V} `{Codec V} meta
    (l : list (Oracle * CanonEvent V)) (w : Writer V) i c1 c2 :
  Forall (eq (Ok tt)) (write_all meta l w).2 ->
  controls l !! i = Some c1 -> controls l !! S i = Some c2 ->
  match obligation c1 with
  | None => True
  | Some req =>
      ev_kind c2 = pt_expected req \/
      (ev_kind c1 = RouteTick /\ (ev_kind c2 = LoopObserved \/ ev_kind c2 = RouteSelected))
  end.
Proof.
  intros Hok H1 H2. destruct (write_all meta l w) as [w' rs] eqn:Hw.
  pose proof (chain_lookup _ _ _ _ _ (write_all_chain meta _ _ _ _ Hw Hok) H1 H2) as Hd.
  destruct (obligation c1) as [req|] eqn:Ho; [|done].
  assert (Hc2 : is_control (ev_kind c2) = true).
  { apply list_elem_of_lookup_2 in H2. unfold controls in H2. by apply list_elem_of_filter in H2 as [? _]. }
  assert (pt_source_kind req = ev_kind c1) as Hs.
  { unfold obligation in Ho. case_bool_decide; [done|]. by apply required_successor_source in Ho as [? _]. }
  rewrite <- Hs. by apply Hd.
Qed.

Lemma control_successors_respected_witness :
  VerifierPolicyUpdated = VerifierPolicyUpdated \/
  (LoopVerified = RouteTick /\ (VerifierPolicyUpdated = LoopObserved \/ VerifierPolicyUpdated = RouteSelected)).
Proof.
  apply (control_successors_respected meta0 cycle_calls writer0 1
    (sample_event "v1" LoopVerified 3) (sample_event "u1" VerifierPolicyUpdated 4)).
  - rewrite cycle_accepted. repeat constructor.
  - reflexivity.
  - reflexivity.
Defined.

(** A small log with a retention limit: rotation at every record, one
    segment kept. *)
Definition small_config : SegmentConfig :=
  {| max_bytes := 8; index_stride := 256; time_bucket_ms := 5000; retain_segments := Some 1 |}.
Definition small_writer : Writer jval :=
  (write_canon_event meta0 oracle0 (sample_route "r1" "verify" 1) (empty_writer small_config)).1.

Lemma small_writer_writable : writable small_writer.
Proof.
  destruct (write_canon_event meta0 oracle0 (sample_route "r1" "verify" 1) (empty_writer small_config)) as [w' r] eqn:Hb.
  assert (Hw : writable (@empty_writer jval small_config)).
  { split; [|by split].
    apply (empty_writer_ready {| max_bytes := 8; index_stride := 256; time_bucket_ms := 5000; retain_segments := None |}).
    by split. }
  destruct (write_appends meta0 "" sample_codec_faithful _ _ _ _ _ Hw Hb) as (Hwf & Hc & _).
  unfold small_writer. rewrite Hb. split; [done|]. cbn [fst]. rewrite Hc. split; [done|].
  vm_compute in Hb. injection Hb as <- _. done.
Qed.

(** C2: the log is append-only up to retention.  Whatever the outcome of
    [write_canon_event], an accepted event, a rejection, an I/O-level error or
    a call that never returns, the directory stays well formed and the events
    on disk are the previous ones, less those of the [n] oldest segments,
    followed by at most one event.  Segments go only under a retention limit
    [keep], and at least [keep] segments are left, counting the one just
    opened; without a limit [n] is zero and the log only grows. *)
Theorem write_is_append_only {V} `{Json V} `{Codec V} meta new_id (o : Oracle) (e : CanonEvent V) (w : Writer V) :
  faithful_codec -> writable w ->
  let w' := (write_canon_event meta o e w).1 in
  log_wf w' /\ exists n suffix, length suffix <= 1 /\
    (n = 0 \/ exists keep, retain_segments (w_config w) = Some keep /\ keep <> 0 /\
                 n + keep <= S (length (segment_seqs (w_dir w)))) /\
    log_events new_id (w_dir w') = events_after new_id n (w_dir w) ++ suffix.
Proof.
  intros Hc Hw. destruct (write_canon_event meta o e w) as [w' r] eqn:Hb.
  destruct (write_appends meta new_id Hc o e w w' r Hw Hb) as (Hwf & _ & Hs). done.
Qed.

(** The second record rotates the log, and the segment of the first one goes. *)
Lemma write_is_append_only_witness :
  let w' := (write_canon_event meta0 oracle0 (sample_event "d" Debug 2) small_writer).1 in
  (log_events "" (w_dir small_writer) = [sample_route "r1" "verify" 1] /\
   log_events "" (w_dir w') = [sample_event "d" Debug 2]) /\
  log_wf w' /\ exists n suffix, length suffix <= 1 /\
    (n = 0 \/ exists keep, retain_segments (w_config small_writer) = Some keep /\ keep <> 0 /\
                 n + keep <= S (length (segment_seqs (w_dir small_writer)))) /\
    log_events "" (w_dir w') = events_after "" n (w_dir small_writer) ++ suffix.
Proof.
  split; [split; vm_compute; reflexivity|].
  apply (write_is_append_only meta0 "" oracle0 (sample_event "d" Debug 2) small_writer).
  - apply sample_codec_faithful.
  - apply small_writer_writable.
Defined.

(** C3: an accepted control event is never dropped as a duplicate: it is the
    last event of the log, with its empty delta made explicit. *)
Theorem accepted_control_event_is_durable {V} `{Json V} `{Codec V} meta new_id (o : Oracle) (e : CanonEvent V) (w w' : Writer V) :
  faithful_codec -> ready w -> is_control (ev_kind e) = true ->
  write_canon_event meta o e w = (w', Ok tt) ->
  log_events new_id (w_dir w') = log_events new_id (w_dir w) ++ [normalize_delta e].
Proof. intros Hc. by apply control_write_appends. Qed.

Lemma accepted_control_event_is_durable_witness :
  log_events "" (w_dir (write_canon_event meta0 oracle0 (sample_event "o1" LoopObserved 7) writer0).1)
  = log_events "" empty_dir ++ [normalize_delta (sample_event "o1" LoopObserved 7)].
Proof.
  apply (accepted_control_event_is_durable meta0 "" oracle0 (sample_event "o1" LoopObserved 7) writer0
    (write_canon_event meta0 oracle0 (sample_event "o1" LoopObserved 7) writer0).1).
  - apply sample_codec_faithful.
  - apply writer0_ready.
  - reflexivity.
  - vm_compute. reflexivity.
Defined.

(** an event whose edge (first parent, kind, content) was rejected before
    is refused, and the refusal changes nothing, until a recovery event. *)
Theorem rejected_edge_blocks_retry {V} `{Json V} `{Codec V} meta (o : Oracle) (e : CanonEvent V) (w : Writer V) parent :
  is_recovery_event e = false -> is_invariant_violation_event e = false ->
  head (ev_parent_ids e) = Some parent ->
  DedupCache.contains (rejected_edge parent e) (w_rejected w) = true ->
  write_canon_event meta o e w = (w, Err (Failed (retry_message parent (ev_kind e)))).
Proof.
  intros Hr Hv Hp Hc. unfold write_canon_event, check_invalid_retry, mbind, stateR_bind.
  rewrite Hr, Hv, Hp, Hc. cbn [orb]. by rewrite retry_keeps_writer.
Qed.

Lemma rejected_edge_blocks_retry_witness :
  write_canon_event meta0 oracle0 child_without_delta rejecting_writer
  = (rejecting_writer, Err (Failed (retry_message "r1" LoopActed))).
Proof. apply rejected_edge_blocks_retry; vm_compute; reflexivity. Defined.

(** C4: an illegal control transition never returns.  The transition check
    runs with the [last_event] mutex locked and logs the rejection from under
    it, and logging locks the same mutex. *)
Theorem illegal_transition_never_returns {V} `{Json V} `{Codec V} `{!JsonLaws V} meta (o : Oracle) (e prev : CanonEvent V) (w : Writer V) msg p :
  w_last_event w = Some prev -> validate_event e = Ok tt -> validate_transition prev e = Err msg ->
  is_invariant_violation_event e = false ->
  (forall parent, DedupCache.contains (rejected_edge parent e) (w_rejected w) = false) ->
  (w_last_ts w <= o_now o)%N ->
  to_vec (normalize_delta (build_invariant_violation_event_with_parent meta o e msg (ev_id prev))) = Some p ->
  (write_canon_event meta o e w).2 = Err Hang.
Proof.
  intros Hl Hv Ht Hi Hc Hts Hp. unfold write_canon_event.
  assert (check_invalid_retry meta o e w = (w, Ok None)) as Hr.
  { unfold check_invalid_retry. rewrite Hi, orb_false_r. destruct (is_recovery_event e); [done|].
    destruct (head _); [by rewrite Hc|done]. }
  unfold mbind, stateR_bind. rewrite Hr. unfold gate_event, gate_transition. rewrite Hv, Hl, Ht.
  unfold record_rejected_edge, mbind, stateR_bind. rewrite Hi.
  destruct (insert_fresh _ _ (Hc (ev_id prev))) as [cache ->].
  by destruct (violation_write meta true o e msg (ev_id prev) (set_rejected cache w) p Hts Hp) as [w1 ->].
Qed.

Lemma illegal_transition_never_returns_witness :
  (write_canon_event meta0 oracle0 second_observation observed_writer).2 = Err Hang.
Proof.
  apply (illegal_transition_never_returns meta0 oracle0 second_observation (sample_event "o1" LoopObserved 7)
    observed_writer "invariant violation: illegal transition loop_observed -> loop_observed" [x08]);
    try (vm_compute; reflexivity).
  vm_compute. discriminate.
Defined.

(** C5: a torn write loses nothing but itself.  If a crash leaves part of one
    record after a well-formed segment, reading the file gives back exactly
    the events of the segment. *)
Theorem torn_tail_is_ignored {V} `{Json V} `{Codec V} new_id (bs tail : bytes) (evs : list (CanonEvent V)) :
  segment_holds bs evs -> partial_frame tail ->
  read_binary_events new_id (bs ++ tail) = evs.
Proof. apply read_segment_torn. Qed.

Lemma torn_tail_is_ignored_witness :
  read_binary_events "" ((magic_bytes ++ frame_of [x00]) ++ take 4 (frame_of [x01])) = [sample_route "r1" "verify" 1].
Proof.
  apply torn_tail_is_ignored.
  - exists true, [[x00]]. split; [|reflexivity]. apply Forall2_cons_2; [|apply Forall2_nil_2].
    split; vm_compute; reflexivity.
  - exists [x01], 4. split; [vm_compute; reflexivity|]. split; [vm_compute; lia|reflexivity].
Defined.

(** the duplicate cache is a sliding window: a key is new exactly when it
    is not among the keys the window holds, admitting it slides the window
    over the most recent [cap] admitted keys, and the set used for lookups
    always mirrors the queue. *)
Theorem dedup_cache_is_sliding_window {K} `{Countable K} (x : K) (c : DedupCache.t K) :
  DedupCache.wf c ->
  DedupCache.wf (DedupCache.insert_if_new x c).1 /\
  DedupCache.insert_if_new x c =
    if bool_decide (x ∈ DedupCache.order c) then (c, false)
    else
      let window := drop (S (length (DedupCache.order c)) - DedupCache.cap c) (DedupCache.order c ++ [x]) in
      ({| DedupCache.seen := list_to_set window; DedupCache.order := window; DedupCache.cap := DedupCache.cap c |}, true).
Proof. intros Hc. split; [by apply DedupCache.insert_if_new_wf|by apply DedupCache.insert_if_new_spec]. Qed.

Lemma dedup_cache_is_sliding_window_witness :
  DedupCache.wf (DedupCache.insert_if_new 3%N {| DedupCache.seen := {[ 1%N; 2%N ]}; DedupCache.order := [1%N; 2%N]; DedupCache.cap := 2 |}).1.
Proof.
  apply dedup_cache_is_sliding_window. split; [reflexivity|]. split; [|cbn; lia].
  apply NoDup_cons. split; [|apply NoDup_singleton]. intros Hin. apply list_elem_of_singleton in Hin. discriminate.
Defined.
