(* ===== verification/Text.v ===== *)
(** * UTF-8 text as bytes

    What the sources use of [core::str]: validity as [str::from_utf8] decides
    it, splitting at line feeds, and trimming of Unicode white space, all on
    the bytes of the text. *)
From S2P Require Import Prelude.

Definition in_range (lo hi : N) (b : byte) : bool := (lo <=? Byte.to_N b)%N && (Byte.to_N b <=? hi)%N.
Definition is_cont : byte -> bool := in_range 0x80 0xBF.

(** The length of the well-formed sequence at the head of the text, as the
    table of [core::str::validations] gives it. *)
Definition utf8_head (bs : bytes) : option nat :=
  match bs with
  | [] => None
  | b0 :: tl =>
      if in_range 0 0x7F b0 then Some 1
      else match tl with
      | [] => None
      | b1 :: tl =>
          if in_range 0xC2 0xDF b0 then (if is_cont b1 then Some 2 else None)
          else match tl with
          | [] => None
          | b2 :: tl =>
              if (in_range 0xE0 0xE0 b0 && in_range 0xA0 0xBF b1)
                 || (in_range 0xE1 0xEC b0 && is_cont b1)
                 || (in_range 0xED 0xED b0 && in_range 0x80 0x9F b1)
                 || (in_range 0xEE 0xEF b0 && is_cont b1)
              then (if is_cont b2 then Some 3 else None)
              else match tl with
              | [] => None
              | b3 :: _ =>
                  if ((in_range 0xF0 0xF0 b0 && in_range 0x90 0xBF b1)
                      || (in_range 0xF1 0xF3 b0 && is_cont b1)
                      || (in_range 0xF4 0xF4 b0 && in_range 0x80 0x8F b1))
                     && is_cont b2 && is_cont b3
                  then Some 4 else None
              end
          end
      end
  end.

(** Every sequence is at least one byte long, so the length bounds the rounds. *)
Fixpoint utf8_valid_fuel (fuel : nat) (bs : bytes) : bool :=
  match bs, fuel with
  | [], _ => true
  | _, O => false
  | _, S fuel' => match utf8_head bs with Some n => utf8_valid_fuel fuel' (drop n bs) | None => false end
  end.
Definition utf8_valid (bs : bytes) : bool := utf8_valid_fuel (length bs) bs.

(** [str::from_utf8(bytes).unwrap_or("")]. *)
Definition from_utf8_or_empty (bs : bytes) : bytes := if utf8_valid bs then bs else [].

(** [str::split('\n')]. *)
Fixpoint split_lines (bs : bytes) : list bytes :=
  match bs with
  | [] => [[]]
  | b :: bs' =>
      if Byte.eqb b x0a then [] :: split_lines bs'
      else match split_lines bs' with l :: ls => (b :: l) :: ls | [] => [[b]] end
  end.

(** The encodings of the characters with the property [White_Space]. *)
Definition white_space : list bytes :=
  [[x09]; [x0a]; [x0b]; [x0c]; [x0d]; [x20]; [xc2; x85]; [xc2; xa0]; [xe1; x9a; x80];
   [xe2; x80; x80]; [xe2; x80; x81]; [xe2; x80; x82]; [xe2; x80; x83]; [xe2; x80; x84]; [xe2; x80; x85];
   [xe2; x80; x86]; [xe2; x80; x87]; [xe2; x80; x88]; [xe2; x80; x89]; [xe2; x80; x8a];
   [xe2; x80; xa8]; [xe2; x80; xa9]; [xe2; x80; xaf]; [xe2; x81; x9f]; [xe3; x80; x80]].

Definition strip_any (pats : list bytes) (bs : bytes) : option bytes :=
  foldr (fun p acc => if bool_decide (take (length p) bs = p) then Some (drop (length p) bs) else acc) None pats.

Fixpoint trim_with (pats : list bytes) (fuel : nat) (bs : bytes) : bytes :=
  match fuel with
  | O => bs
  | S fuel' => match strip_any pats bs with Some bs' => trim_with pats fuel' bs' | None => bs end
  end.

(** [str::trim]. *)
Definition trim_start (bs : bytes) : bytes := trim_with white_space (length bs) bs.
Definition trim_end (bs : bytes) : bytes := reverse (trim_with (reverse <$> white_space) (length bs) (reverse bs)).
Definition trim (bs : bytes) : bytes := trim_end (trim_start bs).

Lemma split_lines_one l rest : x0a ∉ l -> split_lines (l ++ x0a :: rest) = l :: split_lines rest.
Proof.
  induction l as [|b l IH]; intros Hl; cbn; [done|]. apply not_elem_of_cons in Hl as [Hb Hl].
  rewrite (IH Hl). destruct (Byte.eqb b x0a) eqn:E; [|done]. by apply byte_dec_bl in E.
Qed.

Lemma split_lines_none l : x0a ∉ l -> split_lines l = [l].
Proof.
  induction l as [|b l IH]; intros Hl; cbn; [done|]. apply not_elem_of_cons in Hl as [Hb Hl].
  rewrite (IH Hl). destruct (Byte.eqb b x0a) eqn:E; [|done]. by apply byte_dec_bl in E.
Qed.

#[global] Arguments trim : simpl never.
#[global] Arguments trim_start : simpl never.
#[global] Arguments trim_end : simpl never.

(** ** Strings *)

(** [str::contains] with a string pattern. *)
Fixpoint str_contains (needle hay : string) : bool :=
  String.prefix needle hay || match hay with EmptyString => false | String _ rest => str_contains needle rest end.

(** [s.trim().is_empty()]. *)
Definition is_blank (s : string) : bool :=
  match trim (String.list_byte_of_string s) with [] => true | _ => false end.

(** [str::to_ascii_lowercase]. *)
Definition ascii_lower (a : Ascii.ascii) : Ascii.ascii :=
  let n := Ascii.N_of_ascii a in
  if ((65 <=? n) && (n <=? 90))%N then Ascii.ascii_of_N (n + 32) else a.
Fixpoint to_ascii_lowercase (s : string) : string :=
  match s with EmptyString => EmptyString | String a rest => String (ascii_lower a) (to_ascii_lowercase rest) end.

(** ** Enough fuel *)

Lemma utf8_head_pos bs n : utf8_head bs = Some n -> 1 <= n.
Proof. unfold utf8_head. intros Hn. repeat (case_match; simplify_eq; try lia). Qed.

Lemma utf8_valid_fuel_enough fuel bs : length bs <= fuel -> utf8_valid_fuel fuel bs = utf8_valid bs.
Proof.
  unfold utf8_valid. enough (forall f1 f2 l, length l <= f1 -> length l <= f2 -> utf8_valid_fuel f1 l = utf8_valid_fuel f2 l) by auto.
  induction f1 as [|f1 IH]; intros [|f2] [|b l] H1 H2; cbn [length] in *; try done; [lia..|].
  cbn [utf8_valid_fuel]. destruct (utf8_head (b :: l)) as [n|] eqn:Hn; [|done].
  apply utf8_head_pos in Hn. apply IH; rewrite length_drop; cbn [length]; lia.
Qed.
