(* ===== verification/TlogOpen.v ===== *)
(** * Opening and recovering a log directory
    ([canon-runtime-events/src/tlog/binary.rs]: [recover_segment],
    [BinarySegmentWriter::open_with_config], [apply_retention]) *)
From stdpp Require Import pretty sorting.
From S2P Require Import Prelude Json Wire EventInvariants Codec TlogWriter TlogReader TlogLog TlogGate Text.
Import EventKind.

Section Open.
Context {V : Type} `{Json V} `{Codec V}.
Implicit Types (d : Dir).

(** The locals of the line loop of [recover_segment], the two index writers
    included. *)
Record Recovery := {
  rc_size : N; rc_records : N; rc_last_seq : option N; rc_last_time_bucket : option N;
  rc_last_event : option (CanonEvent V); rc_seq : N; rc_byte_pos : N; rc_idx : bytes; rc_time : bytes
}.

Definition recovery_start (base_seq : N) : Recovery :=
  {| rc_size := 0; rc_records := 0; rc_last_seq := None; rc_last_time_bucket := None;
     rc_last_event := None; rc_seq := base_seq; rc_byte_pos := 0; rc_idx := []; rc_time := [] |}.

Definition recover_delta (e : CanonEvent V) : CanonEvent V :=
  if json_eqb (p_delta (ev_payload e)) jempty then with_delta (jsingle "_auto" (jbool true)) e else e.

(** One line that parses. *)
Definition recover_record (c : SegmentConfig) (raw_line : bytes) (e : CanonEvent V) (r : Recovery) : Recovery :=
  let e := recover_delta e in
  let line_end := sat_add64 (rc_byte_pos r) (lenN raw_line + 1) in
  let records := sat_add32 (rc_records r) 1 in
  let bucket := (ev_ts e / time_bucket_ms c)%N in
  {| rc_size := line_end; rc_records := records; rc_last_seq := Some (rc_seq r);
     rc_last_time_bucket := Some bucket; rc_last_event := Some e;
     rc_seq := sat_add64 (rc_seq r) 1; rc_byte_pos := line_end;
     rc_idx := if (records mod index_stride c =? 0)%N
               then rc_idx r ++ to_le_bytes 8 (rc_seq r) ++ to_le_bytes 8 (rc_byte_pos r) else rc_idx r;
     rc_time := if bool_decide (rc_last_time_bucket r = Some bucket) then rc_time r
                else rc_time r ++ to_le_bytes 8 bucket ++ to_le_bytes 8 (rc_byte_pos r) |}.

Definition skip_line (raw_line : bytes) (r : Recovery) : Recovery :=
  {| rc_size := rc_size r; rc_records := rc_records r; rc_last_seq := rc_last_seq r;
     rc_last_time_bucket := rc_last_time_bucket r; rc_last_event := rc_last_event r; rc_seq := rc_seq r;
     rc_byte_pos := sat_add64 (rc_byte_pos r) (lenN raw_line + 1); rc_idx := rc_idx r; rc_time := rc_time r |}.

(** The loop over the lines; a line that does not parse ends it. *)
Fixpoint recover_lines (c : SegmentConfig) (lines : list bytes) (r : Recovery) : Recovery :=
  match lines with
  | [] => r
  | raw_line :: rest =>
      match trim raw_line with
      | [] => recover_lines c rest (skip_line raw_line r)
      | trimmed =>
          match from_slice trimmed with
          | None => r
          | Some e => recover_lines c rest (recover_record c raw_line e r)
          end
      end
  end.

(** [set_len] to a size below the file's length. *)
Definition truncate_log (k size : N) (m : gmap N bytes) : gmap N bytes :=
  alter (take (N.to_nat size)) k m.

(** [recover_segment]. *)
Definition recover_segment d (base_seq : N) (c : SegmentConfig) : Dir * SegmentFiles * option N * option (CanonEvent V) :=
  match d_log d !! base_seq with
  | None => (open_new_segment_files d base_seq, None, None)
  | Some bs =>
      if is_binary_magic bs then
        let d1 := {| d_log := <[ base_seq := [] ]> (d_log d);
                     d_idx := <[ base_seq := [] ]> (d_idx d);
                     d_time := <[ base_seq := [] ]> (d_time d) |} in
        (open_new_segment_files d1 base_seq, None, None)
      else
        let r := recover_lines c (split_lines (from_utf8_or_empty bs)) (recovery_start base_seq) in
        let log := if (rc_size r <? lenN bs)%N then truncate_log base_seq (rc_size r) (d_log d) else d_log d in
        ({| d_log := log; d_idx := <[ base_seq := rc_idx r ]> (d_idx d); d_time := <[ base_seq := rc_time r ]> (d_time d) |},
         {| seg := base_seq; size := rc_size r; last_time_bucket := rc_last_time_bucket r; records := rc_records r |},
         rc_last_seq r, rc_last_event r)
  end.

Definition has_log d : bool := negb (bool_decide (d_log d = ∅)).

(** [open_with_config]. *)
Definition open_with_config d (c : SegmentConfig) : Writer V :=
  let d0 := if has_log d then d else {| d_log := d_log d; d_idx := ∅; d_time := ∅ |} in
  let base_seq := default 0%N (find_latest_segment d0) in
  let '(d1, _, recovered_seq, last_event) := recover_segment d0 base_seq c in
  let seq := default base_seq recovered_seq in
  let '(d2, f2) := open_new_segment_files d1 seq in
  let '(d3, f3) := if has_log d2 then (d2, f2) else open_new_segment_files d2 seq in
  let '(d4, f4) := if (size f3 =? 0)%N then open_new_segment_files d3 seq else (d3, f3) in
  let next_seq := match recovered_seq with Some s => sat_add64 s 1 | None => base_seq end in
  let '(d5, f5) := if (max_bytes c <=? size f4)%N then open_new_segment_files d4 next_seq else (d4, f4) in
  {| w_dir := match retain_segments c with Some keep => apply_retention d5 keep | None => d5 end;
     w_config := c; w_seq := next_seq; w_last_ts := 0; w_inner := f5;
     w_dedup := DedupCache.new 1024; w_rejected := DedupCache.new 1024;
     w_last_event := last_event; w_pending := last_event ≫= required_successor |}.
End Open.
Arguments Recovery V : clear implicits.

(** ** The newest segment *)

Lemma find_latest_segment_spec d s :
  s ∈ dom (d_log d) -> (forall k, k ∈ dom (d_log d) -> (k <= s)%N) -> find_latest_segment d = Some s.
Proof.
  intros Hs Hmax. unfold find_latest_segment.
  set (f := fun (s : N) acc => Some (match acc with Some v => N.max v s | None => s end)).
  assert (Hgen : forall l : list N, (forall k, k ∈ l -> (k <= s)%N) ->
    (s ∈ l -> foldr f None l = Some s) /\ (forall v, foldr f None l = Some v -> (v <= s)%N)).
  { induction l as [|x l IH]; intros Hl; [split; [by intros ?%elem_of_nil|done]|].
    destruct (IH (fun k Hk => Hl k (list_elem_of_further _ _ _ Hk))) as [IH1 IH2].
    pose proof (Hl x (list_elem_of_here _ _)). cbn. unfold f at 1 3. split.
    - intros [<-|Hin]%elem_of_cons; [|rewrite (IH1 Hin); f_equal; lia].
      destruct (foldr f None l) as [v|]; [|done]. specialize (IH2 v eq_refl). f_equal. lia.
    - intros v [= <-]. destruct (foldr f None l) as [v'|]; [|done]. specialize (IH2 v' eq_refl). lia. }
  apply (Hgen (elements (dom (d_log d)))); intros; [apply Hmax|]; set_solver.
Qed.

(** ** Recovery of a text segment *)

(** A complete line of a text segment, and its event. *)
Definition good_line {V} `{Codec V} (le : bytes * CanonEvent V) : Prop :=
  x0a ∉ le.1 /\ trim le.1 <> [] /\ from_slice (trim le.1) = Some le.2.

(** What a crash may leave behind: part of a line, which does not parse. *)
Definition garbage {V} `{Codec V} (tail : bytes) : Prop :=
  x0a ∉ tail /\ trim tail <> [] /\ from_slice (V := V) (trim tail) = None.

Definition lines_text (ls : list bytes) : bytes := concat ((fun l => l ++ [x0a]) <$> ls).

Lemma split_lines_text ls tail : Forall (fun l => x0a ∉ l) ls -> x0a ∉ tail ->
  split_lines (lines_text ls ++ tail) = ls ++ [tail].
Proof.
  intros Hls Ht. induction Hls as [|l ls Hl _ IH]; [by apply split_lines_none|].
  unfold lines_text in *. cbn. rewrite <- !app_assoc. cbn. by rewrite split_lines_one, IH.
Qed.

Section Recover.
Context {V : Type} `{Json V} `{Codec V}.
Implicit Types (r : Recovery V) (ls : list (bytes * CanonEvent V)).

Lemma recover_lines_good c ls tail r :
  Forall good_line ls -> garbage (V := V) tail -> rc_size r = rc_byte_pos r ->
  (rc_byte_pos r + lenN (lines_text ls.*1) <= u64_max)%N ->
  let r' := recover_lines c (ls.*1 ++ [tail]) r in
  rc_size r' = (rc_byte_pos r + lenN (lines_text ls.*1))%N /\
  rc_last_event r' = match last ls with Some (_, e) => Some (recover_delta e) | None => rc_last_event r end.
Proof.
  intros Hls (_ & Hte & Htp). revert r. induction Hls as [|[l e] ls (_ & Hne & Hp) _ IH]; intros r Hsz Hb.
  { cbn. destruct (trim tail) eqn:Et; [done|]. rewrite Htp. split; [unfold lenN; cbn; lia|done]. }
  cbn [fmap list_fmap fst app recover_lines]. cbn in Hne, Hp. destruct (trim l) as [|b tl] eqn:Et; [done|]. rewrite Hp.
  assert (Hlen : lenN (lines_text (l :: ls.*1)) = (lenN l + 1 + lenN (lines_text ls.*1))%N).
  { unfold lenN, lines_text. cbn. rewrite !length_app. cbn. lia. }
  change (((l, e) :: ls).*1) with (l :: ls.*1) in Hb.
  rewrite Hlen in Hb. rewrite Hlen.
  assert (Hpos : rc_byte_pos (recover_record c l e r) = (rc_byte_pos r + (lenN l + 1))%N).
  { cbn. unfold sat_add64. lia. }
  destruct (IH (recover_record c l e r) eq_refl ltac:(lia)) as [-> ->]. split; [lia|].
  rewrite last_cons. by destruct (last ls) as [[]|].
Qed.
End Recover.

(** ** Properties *)

Lemma has_log_some d s bs : d_log d !! s = Some bs -> has_log d = true.
Proof. unfold has_log. intros Hs. rewrite bool_decide_eq_false_2; [done|]. intros He. by rewrite He in Hs. Qed.

(** Opening a segment that holds nothing. *)
Lemma open_empty_segment d s : d_log d !! s = Some [] ->
  d_log (open_new_segment_files d s).1 = d_log d /\ size (open_new_segment_files d s).2 = 0%N.
Proof. intros Hs. cbn. unfold append_at. rewrite Hs. split; [by apply insert_id|done]. Qed.

(** retention removes the oldest segments and only those: the segments
    left are the newest [keep], and their three files are as they were. *)
Theorem retention_keeps_newest (d : Dir) (keep : nat) :
  keep <> 0 ->
  segment_seqs (apply_retention d keep) = drop (length (segment_seqs d) - keep) (segment_seqs d) /\
  forall s, s ∈ segment_seqs (apply_retention d keep) ->
    d_log (apply_retention d keep) !! s = d_log d !! s /\
    d_idx (apply_retention d keep) !! s = d_idx d !! s /\
    d_time (apply_retention d keep) !! s = d_time d !! s.
Proof.
  intros Hk. unfold apply_retention. rewrite (proj2 (Nat.eqb_neq keep 0) Hk).
  destruct (_ <=? _) eqn:Hl.
  { apply Nat.leb_le in Hl. by rewrite (proj2 (Nat.sub_0_le _ _) Hl). }
  rewrite remove_oldest. split; [done|]. intros s Hs. apply remove_keeps.
  intros Ht. by apply (NoDup_take_drop _ _ _ (segment_seqs_NoDup d) Ht).
Qed.

Lemma retention_keeps_newest_witness :
  segment_seqs (apply_retention {| d_log := {[ 1%N := []; 5%N := []; 3%N := [] ]}; d_idx := ∅; d_time := ∅ |} 2) = [3%N; 5%N].
Proof. apply retention_keeps_newest. discriminate. Defined.

(** recovery of a text segment after a crash.  When a valid text segment
    of complete event lines ends in a line that does not parse, the segment is
    cut back to exactly the complete lines, and the last of their events is
    the one whose successor obligation the writer resumes with. *)
Theorem recovery_keeps_complete_lines {V} `{Json V} `{Codec V} (d : Dir) (base_seq : N) (c : SegmentConfig)
    (ls : list (bytes * CanonEvent V)) (tail : bytes) :
  Forall good_line ls -> garbage (V := V) tail ->
  d_log d !! base_seq = Some (lines_text ls.*1 ++ tail) ->
  is_binary_magic (lines_text ls.*1 ++ tail) = false ->
  utf8_valid (lines_text ls.*1 ++ tail) = true ->
  (lenN (lines_text ls.*1) <= u64_max)%N ->
  let '(d', f, _, last_event) := recover_segment d base_seq c in
  d_log d' = <[ base_seq := lines_text ls.*1 ]> (d_log d) /\ size f = lenN (lines_text ls.*1) /\
  last_event = recover_delta ∘ snd <$> last ls.
Proof.
  intros Hls Ht Hd Hm Hu Hlen. unfold recover_segment. rewrite Hd, Hm.
  unfold from_utf8_or_empty. rewrite Hu, split_lines_text.
  2: { apply Forall_fmap. eapply Forall_impl; [exact Hls|]. by intros ? [? _]. }
  2: { by destruct Ht. }
  destruct (recover_lines_good c ls tail (recovery_start base_seq) Hls Ht eq_refl Hlen) as [Hs He].
  rewrite Hs, He. cbn -[lines_text]. rewrite N.add_0_l. split; [|split; [done|by destruct (last ls) as [[]|]]].
  assert (tail <> []) by (intros ->; destruct Ht as (_ & Hne & _); by apply Hne).
  rewrite (proj2 (N.ltb_lt _ _)).
  2: { unfold lenN. rewrite length_app. destruct tail; [done|]. cbn. lia. }
  unfold truncate_log. apply map_eq. intros k. rewrite lookup_alter, lookup_insert.
  case_decide as Hk; [subst k|done]. rewrite Hd. cbn -[lines_text]. f_equal.
  rewrite take_app_length'; [done|]. unfold lenN. lia.
Qed.

(** One complete line and a torn one. *)
Definition torn_dir : Dir := {| d_log := {[ 0%N := [x01; x0a; x7b] ]}; d_idx := ∅; d_time := ∅ |}.

Lemma recovery_keeps_complete_lines_witness :
  let '(d', f, _, last_event) := recover_segment torn_dir 0 default_config in
  d_log d' = <[ 0%N := [x01; x0a] ]> (d_log torn_dir) /\ size f = lenN [x01; x0a] /\
  last_event = Some (recover_delta (sample_event "d" Debug 2)).
Proof.
  apply (recovery_keeps_complete_lines torn_dir 0 default_config [([x01], sample_event "d" Debug 2)] [x7b]).
  - apply Forall_singleton. split; [|split; [discriminate|vm_compute; reflexivity]].
    intros Hin. apply list_elem_of_singleton in Hin. discriminate.
  - split; [|split; [discriminate|vm_compute; reflexivity]].
    intros Hin. apply list_elem_of_singleton in Hin. discriminate.
  - reflexivity.
  - reflexivity.
  - reflexivity.
  - vm_compute. discriminate.
Defined.

(** C6: reopening a log directory empties the segment the writer wrote last.
    Recovery takes a segment that starts with the MAGIC number for a legacy
    one and truncates it, and the writer starts every log with the MAGIC
    number. *)
Theorem reopen_discards_latest_segment {V} `{Json V} `{Codec V} new_id (d : Dir) (c : SegmentConfig) (s : N) (rest : bytes) :
  d_log d !! s = Some (magic_bytes ++ rest) -> (forall k, k ∈ dom (d_log d) -> (k <= s)%N) ->
  retain_segments c = None -> (0 < max_bytes c)%N ->
  let w := open_with_config (V := V) d c in
  log_events new_id (w_dir w) = events_of new_id (delete s (d_log d)) /\
  w_last_event w = None /\ w_pending w = None /\ w_seq w = s.
Proof.
  intros Hd Hmax Hr Hb. unfold open_with_config. rewrite (has_log_some _ _ _ Hd).
  rewrite (find_latest_segment_spec _ s) by (done || by apply elem_of_dom). cbn [default from_option id].
  unfold recover_segment. rewrite Hd, is_binary_magic_magic.
  set (d1 := {| d_log := _ |}).
  assert (Hd1 : d_log d1 !! s = Some []) by (cbn; by rewrite lookup_insert_eq).
  destruct (open_empty_segment d1 s Hd1) as [Ha _]. destruct (open_new_segment_files d1 s) as [d2 f2].
  cbn [fst snd] in Ha. cbn [default from_option id]. rewrite <- Ha in Hd1.
  destruct (open_empty_segment d2 s Hd1) as [Hb2 Hz2]. destruct (open_new_segment_files d2 s) as [d3 f3].
  cbn [fst snd] in Hb2, Hz2. rewrite <- Hb2 in Hd1. rewrite (has_log_some _ _ _ Hd1), Hz2. cbn [N.eqb].
  destruct (open_empty_segment d3 s Hd1) as [Hb3 Hz3]. destruct (open_new_segment_files d3 s) as [d4 f4].
  cbn [fst snd] in Hb3, Hz3. rewrite Hz3, (proj2 (N.leb_gt _ _) Hb), Hr. cbn.
  split; [|done]. unfold log_events. rewrite Hb3, Hb2, Ha. cbn.
  rewrite events_of_max by done. cbn. apply app_nil_r.
Qed.

Lemma reopen_discards_latest_segment_witness :
  log_events "" (w_dir (open_with_config (V := jval) (w_dir observed_writer) default_config)) = [].
Proof.
  apply (reopen_discards_latest_segment "" (w_dir observed_writer) default_config 0 (drop 4 (d_log (w_dir observed_writer) !!! 0%N))).
  - vm_compute. reflexivity.
  - assert (dom (d_log (w_dir observed_writer)) = {[ 0%N ]}) as -> by (vm_compute; reflexivity).
    intros k Hk. apply elem_of_singleton in Hk as ->. reflexivity.
  - reflexivity.
  - reflexivity.
Defined.
