(* ===== verification/ControlHarness.v ===== *)
(** * The control-plane harness ([canon-invariant/src/control_harness.rs])

    The abstract control state of the runtime, its step function and decision
    function, the enumeration of the seed states and of all traces up to a
    depth, and the metrics over them. *)
From S2P Require Import Prelude.

Record ControlState := {
  pending_request : bool;
  pending_required_successor_route_selected : bool;
  route_emitted_for_current_control : bool;
  has_cached_route : bool;
  cached_route_is_observe : bool;
  can_emit_route_selected : bool;
  force_fresh_route_once : bool;
  halted : bool
}.

Inductive ControlDecision :=
  | Suppress (reason : string)
  | ReplayCachedRoute
  | RequestFreshRoute
  | EmitRoute
  | InvariantViolation (reason : string).

Inductive ControlEvent :=
  | RouteSelectedEmitted | PendingRequestStarted | PendingRequestCleared
  | AwaitingControlSuccessorSet | AwaitingControlSuccessorCleared | ForceFreshRouteOnce
  | CachedObserveRouteStored | CachedNonObserveRouteStored | CachedRouteCleared
  | PromptDispatched | PromptCleared | ConcludeEmitted.

#[export] Instance ControlState_eq_dec : EqDecision ControlState.
Proof. solve_decision. Defined.
#[export] Instance ControlEvent_eq_dec : EqDecision ControlEvent.
Proof. solve_decision. Defined.
#[export] Instance ControlDecision_eq_dec : EqDecision ControlDecision.
Proof. solve_decision. Defined.

Definition state_fields (s : ControlState) :=
  (pending_request s, pending_required_successor_route_selected s, route_emitted_for_current_control s,
   has_cached_route s, cached_route_is_observe s, can_emit_route_selected s, force_fresh_route_once s, halted s).
#[export] Instance ControlState_countable : Countable ControlState.
Proof.
  refine (inj_countable' state_fields (fun '(a, b, c, d, e, f, g, h) =>
    {| pending_request := a; pending_required_successor_route_selected := b; route_emitted_for_current_control := c;
       has_cached_route := d; cached_route_is_observe := e; can_emit_route_selected := f;
       force_fresh_route_once := g; halted := h |}) _).
  by intros [].
Defined.

Definition event_index (e : ControlEvent) : N :=
  match e with
  | RouteSelectedEmitted => 0 | PendingRequestStarted => 1 | PendingRequestCleared => 2
  | AwaitingControlSuccessorSet => 3 | AwaitingControlSuccessorCleared => 4 | ForceFreshRouteOnce => 5
  | CachedObserveRouteStored => 6 | CachedNonObserveRouteStored => 7 | CachedRouteCleared => 8
  | PromptDispatched => 9 | PromptCleared => 10 | ConcludeEmitted => 11
  end%N.
Definition event_of_index (n : N) : ControlEvent :=
  match n with
  | 0 => RouteSelectedEmitted | 1 => PendingRequestStarted | 2 => PendingRequestCleared
  | 3 => AwaitingControlSuccessorSet | 4 => AwaitingControlSuccessorCleared | 5 => ForceFreshRouteOnce
  | 6 => CachedObserveRouteStored | 7 => CachedNonObserveRouteStored | 8 => CachedRouteCleared
  | 9 => PromptDispatched | 10 => PromptCleared | _ => ConcludeEmitted
  end%N.
#[export] Instance ControlEvent_countable : Countable ControlEvent.
Proof. by refine (inj_countable' event_index event_of_index _); intros []. Defined.

(** ** Steps and decisions *)

Definition set_pending_request v s :=
  {| pending_request := v; pending_required_successor_route_selected := pending_required_successor_route_selected s;
     route_emitted_for_current_control := route_emitted_for_current_control s; has_cached_route := has_cached_route s;
     cached_route_is_observe := cached_route_is_observe s; can_emit_route_selected := can_emit_route_selected s;
     force_fresh_route_once := force_fresh_route_once s; halted := halted s |}.
Definition set_cached_route (has is_observe : bool) s :=
  {| pending_request := pending_request s; pending_required_successor_route_selected := pending_required_successor_route_selected s;
     route_emitted_for_current_control := route_emitted_for_current_control s; has_cached_route := has;
     cached_route_is_observe := is_observe; can_emit_route_selected := can_emit_route_selected s;
     force_fresh_route_once := force_fresh_route_once s; halted := halted s |}.

(** [step_control_state]. *)
Definition step_control_state (s : ControlState) (e : ControlEvent) : ControlState :=
  match e with
  | RouteSelectedEmitted =>
      {| pending_request := pending_request s; pending_required_successor_route_selected := false;
         route_emitted_for_current_control := true; has_cached_route := has_cached_route s;
         cached_route_is_observe := cached_route_is_observe s; can_emit_route_selected := can_emit_route_selected s;
         force_fresh_route_once := force_fresh_route_once s; halted := halted s |}
  | PendingRequestStarted => set_pending_request true s
  | PendingRequestCleared => set_pending_request false s
  | AwaitingControlSuccessorSet => s
  | AwaitingControlSuccessorCleared => s
  | ForceFreshRouteOnce =>
      {| pending_request := pending_request s; pending_required_successor_route_selected := pending_required_successor_route_selected s;
         route_emitted_for_current_control := route_emitted_for_current_control s; has_cached_route := has_cached_route s;
         cached_route_is_observe := cached_route_is_observe s; can_emit_route_selected := can_emit_route_selected s;
         force_fresh_route_once := true; halted := halted s |}
  | CachedObserveRouteStored => set_cached_route true true s
  | CachedNonObserveRouteStored => set_cached_route true false s
  | CachedRouteCleared => set_cached_route false false s
  | PromptDispatched => set_pending_request true s
  | PromptCleared => set_pending_request false s
  | ConcludeEmitted =>
      {| pending_request := pending_request s; pending_required_successor_route_selected := pending_required_successor_route_selected s;
         route_emitted_for_current_control := route_emitted_for_current_control s; has_cached_route := has_cached_route s;
         cached_route_is_observe := cached_route_is_observe s; can_emit_route_selected := can_emit_route_selected s;
         force_fresh_route_once := force_fresh_route_once s; halted := true |}
  end.

(** [evaluate_control_state], early return by early return. *)
Definition evaluate_control_state (s : ControlState) : ControlDecision :=
  if halted s then Suppress "halted"
  else if pending_request s then Suppress "pending_request"
  else if route_emitted_for_current_control s then Suppress "duplicate_route_for_current_control"
  else if force_fresh_route_once s then RequestFreshRoute
  else if pending_required_successor_route_selected s && negb (can_emit_route_selected s) && negb (force_fresh_route_once s)
  then InvariantViolation "missing_required_route_selected_successor"
  else if has_cached_route s && can_emit_route_selected s then
    (if cached_route_is_observe s then
       (if pending_required_successor_route_selected s then RequestFreshRoute else ReplayCachedRoute)
     else ReplayCachedRoute)
  else if can_emit_route_selected s then EmitRoute
  else Suppress "cannot_emit_route_selected".

(** ** Seed states and the reachability table *)

Definition seed_of_bits (bits : N) : ControlState :=
  {| pending_request := N.testbit bits 0;
     pending_required_successor_route_selected := N.testbit bits 1;
     route_emitted_for_current_control := N.testbit bits 3;
     has_cached_route := N.testbit bits 4;
     cached_route_is_observe := N.testbit bits 5;
     can_emit_route_selected := N.testbit bits 6;
     force_fresh_route_once := N.testbit bits 7;
     halted := N.testbit bits 8 |}.

(** The two [continue] guards of the enumeration. *)
Definition admissible (s : ControlState) : bool :=
  negb (cached_route_is_observe s && negb (has_cached_route s))
  && negb (pending_request s && pending_required_successor_route_selected s).

(** [synthetic_control_seed_space]. *)
Definition synthetic_control_seed_space : list ControlState :=
  filter (fun s => admissible s = true) ((fun n => seed_of_bits (N.of_nat n)) <$> seq 0 512).

(** [SYNTHETIC_TRACE_EVENTS]. *)
Definition SYNTHETIC_TRACE_EVENTS : list ControlEvent :=
  [RouteSelectedEmitted; PendingRequestStarted; PendingRequestCleared; AwaitingControlSuccessorSet;
   AwaitingControlSuccessorCleared; ForceFreshRouteOnce; CachedObserveRouteStored;
   CachedNonObserveRouteStored; CachedRouteCleared; ConcludeEmitted].

Notation table := (gmap (ControlState * ControlEvent)).

(** [reachability_table]: two nested loops inserting into two hash maps. *)
Definition reachability_table : table ControlState * table ControlDecision :=
  foldl (fun tabs s =>
    foldl (fun '(st, dt) e =>
        let next := step_control_state s e in
        (<[ (s, e) := next ]> st, <[ (s, e) := evaluate_control_state next ]> dt))
      tabs SYNTHETIC_TRACE_EVENTS)
    (∅, ∅) synthetic_control_seed_space.

(** ** Metrics *)

Record SyntheticControlMetrics := {
  states_explored : nat; suppressed : nat; replayed_cached_route : nat;
  requested_fresh_route : nat; emitted_route : nat; invariant_violations : nat
}.

Definition count_decision (m : SyntheticControlMetrics) (d : ControlDecision) : SyntheticControlMetrics :=
  let '(Build_SyntheticControlMetrics n a b c e f) := m in
  match d with
  | Suppress _ => Build_SyntheticControlMetrics (S n) (S a) b c e f
  | ReplayCachedRoute => Build_SyntheticControlMetrics (S n) a (S b) c e f
  | RequestFreshRoute => Build_SyntheticControlMetrics (S n) a b (S c) e f
  | EmitRoute => Build_SyntheticControlMetrics (S n) a b c (S e) f
  | InvariantViolation _ => Build_SyntheticControlMetrics (S n) a b c e (S f)
  end.
Definition no_metrics : SyntheticControlMetrics := Build_SyntheticControlMetrics 0 0 0 0 0 0.

(** [synthetic_control_metrics]. *)
Definition synthetic_control_metrics : SyntheticControlMetrics :=
  foldl (fun m s => count_decision m (evaluate_control_state s)) no_metrics synthetic_control_seed_space.

(** [SyntheticControlTraceMetrics]: the number of seeds and the counters of
    the terminal states. *)
Record SyntheticControlTraceMetrics := { start_states : nat; terminal : SyntheticControlMetrics }.

(** [walk] of [synthetic_control_trace_metrics]. *)
Fixpoint walk (depth : nat) (s : ControlState) (m : SyntheticControlMetrics) : SyntheticControlMetrics :=
  match depth with
  | O => count_decision m (evaluate_control_state s)
  | S depth' => foldl (fun m e => walk depth' (step_control_state s e) m) m SYNTHETIC_TRACE_EVENTS
  end.

Definition synthetic_control_trace_metrics (depth : nat) : SyntheticControlTraceMetrics :=
  let seeds := synthetic_control_seed_space in
  {| start_states := length seeds;
     terminal := foldl (fun m seed => walk depth seed m) no_metrics seeds |}.

(** ** Lemmas *)

Definition run (s : ControlState) (trace : list ControlEvent) : ControlState := foldl step_control_state s trace.

Definition bools : list bool := [true; false].
Definition all_states : list ControlState :=
  a ← bools; b ← bools; c ← bools; d ← bools; e ← bools; f ← bools; g ← bools; h ← bools;
  [{| pending_request := a; pending_required_successor_route_selected := b; route_emitted_for_current_control := c;
      has_cached_route := d; cached_route_is_observe := e; can_emit_route_selected := f;
      force_fresh_route_once := g; halted := h |}].

Lemma elem_of_all_states s : s ∈ all_states.
Proof.
  assert (Hb : forall b, b ∈ bools) by (intros []; [apply list_elem_of_here|apply list_elem_of_further, list_elem_of_here]).
  destruct s as [a b c d e f g h]. unfold all_states.
  repeat (apply list_elem_of_bind; eexists; split; [|apply Hb]). by apply list_elem_of_singleton.
Qed.

Definition occurrences (s : ControlState) : nat := length (filter (fun x => x = s) synthetic_control_seed_space).

Lemma occurrences_checked :
  forallb (fun s => occurrences s =? (if admissible s then 2 else 0)) all_states = true.
Proof. vm_compute. reflexivity. Qed.

Lemma occurrences_eq s : occurrences s = if admissible s then 2 else 0.
Proof.
  apply Nat.eqb_eq. apply (proj1 (forallb_forall _ _) occurrences_checked s), list_elem_of_In, elem_of_all_states.
Qed.

(** *** Traces *)

(** All event sequences of a given length, in the order of [walk]. *)
Fixpoint traces (depth : nat) : list (list ControlEvent) :=
  match depth with
  | O => [[]]
  | S depth' => e ← SYNTHETIC_TRACE_EVENTS; t ← traces depth'; [e :: t]
  end.

Definition outcomes (depth : nat) (s : ControlState) : list ControlDecision :=
  (fun t => evaluate_control_state (run s t)) <$> traces depth.

Definition tally (m : SyntheticControlMetrics) (ds : list ControlDecision) : SyntheticControlMetrics :=
  foldl count_decision m ds.

Lemma outcomes_S depth s :
  outcomes (S depth) s = SYNTHETIC_TRACE_EVENTS ≫= fun e => outcomes depth (step_control_state s e).
Proof.
  unfold outcomes. cbn [traces]. generalize SYNTHETIC_TRACE_EVENTS as evs.
  induction evs as [|e evs IH]; [done|]. rewrite !bind_cons, fmap_app, IH. f_equal. clear IH.
  induction (traces depth) as [|t ts IHt]; [done|]. rewrite bind_cons. cbn. by rewrite IHt.
Qed.

Lemma tally_bind {A} (f : A -> list ControlDecision) l m :
  tally m (l ≫= f) = foldl (fun m x => tally m (f x)) m l.
Proof. revert m. induction l as [|x l IH]; intros m; [done|]. rewrite bind_cons. unfold tally at 1. rewrite foldl_app. apply IH. Qed.

Lemma foldl_ext' {A B} (f g : A -> B -> A) l a : (forall a b, f a b = g a b) -> foldl f a l = foldl g a l.
Proof. intros Hfg. revert a. induction l as [|x l IH]; intros a; cbn; [done|]. by rewrite Hfg. Qed.

Lemma walk_tally depth s m : walk depth s m = tally m (outcomes depth s).
Proof.
  revert s m. induction depth as [|depth IH]; intros s m; [done|].
  rewrite outcomes_S, tally_bind. cbn [walk]. apply foldl_ext'. intros. apply IH.
Qed.

Lemma length_outcomes depth s : length (outcomes depth s) = 10 ^ depth.
Proof.
  revert s. induction depth as [|depth IH]; intros s; [done|].
  rewrite outcomes_S. unfold SYNTHETIC_TRACE_EVENTS. cbn [mbind list_bind].
  rewrite !length_app, !IH. rewrite Nat.pow_succ_r'. cbn [length]. lia.
Qed.

(** The decisions of one kind among a list of decisions. *)
Definition same_kind (d d' : ControlDecision) : bool :=
  match d, d' with
  | Suppress _, Suppress _ | ReplayCachedRoute, ReplayCachedRoute | RequestFreshRoute, RequestFreshRoute
  | EmitRoute, EmitRoute | InvariantViolation _, InvariantViolation _ => true
  | _, _ => false
  end.
Definition count_kind (d : ControlDecision) (ds : list ControlDecision) : nat :=
  length (filter (fun x => same_kind d x = true) ds).

Lemma count_kind_cons d x ds : count_kind d (x :: ds) = (if same_kind d x then 1 else 0) + count_kind d ds.
Proof. unfold count_kind. rewrite filter_cons. by destruct (same_kind d x). Qed.

Lemma tally_counts ds m :
  tally m ds =
  {| states_explored := states_explored m + length ds;
     suppressed := suppressed m + count_kind (Suppress "") ds;
     replayed_cached_route := replayed_cached_route m + count_kind ReplayCachedRoute ds;
     requested_fresh_route := requested_fresh_route m + count_kind RequestFreshRoute ds;
     emitted_route := emitted_route m + count_kind EmitRoute ds;
     invariant_violations := invariant_violations m + count_kind (InvariantViolation "") ds |}.
Proof.
  revert m. induction ds as [|d ds IH]; intros [n a b c e f].
  { unfold count_kind. cbn. f_equal; lia. }
  change (tally ?m (d :: ds)) with (tally (count_decision m d) ds). rewrite IH, !count_kind_cons.
  destruct d; cbn; f_equal; lia.
Qed.

(** *** What a trace can and cannot undo *)

Lemma run_sticky (P : ControlState -> Prop) s t :
  (forall s e, P s -> P (step_control_state s e)) -> P s -> P (run s t).
Proof. intros Hstep. revert s. induction t as [|e t IH]; intros s Hs; [done|]. apply IH. by apply Hstep. Qed.

Lemma run_after (P : ControlState -> Prop) e0 s t :
  (forall s e, P s -> P (step_control_state s e)) -> (forall s, P (step_control_state s e0)) ->
  e0 ∈ t -> P (run s t).
Proof.
  intros Hstep He0 Hin. apply list_elem_of_split in Hin as (l1 & l2 & ->).
  unfold run. rewrite foldl_app. cbn. by apply run_sticky.
Qed.

Lemma route_emitted_sticky s t : RouteSelectedEmitted ∈ t -> route_emitted_for_current_control (run s t) = true.
Proof. by apply (run_after (fun s => route_emitted_for_current_control s = true)); [intros ? []|]. Qed.
Lemma halted_sticky s t : ConcludeEmitted ∈ t -> halted (run s t) = true.
Proof. by apply (run_after (fun s => halted s = true)); [intros ? []|]. Qed.
Lemma forced_sticky s t : ForceFreshRouteOnce ∈ t -> force_fresh_route_once (run s t) = true.
Proof. by apply (run_after (fun s => force_fresh_route_once s = true)); [intros ? []|]. Qed.

Lemma owed_from_seed s t :
  pending_required_successor_route_selected (run s t) = true -> pending_required_successor_route_selected s = true.
Proof. destruct (pending_required_successor_route_selected s) eqn:E; [done|]. intros H. rewrite <- H.
  by apply (run_sticky (fun s => pending_required_successor_route_selected s = false)) with (t := t) in E; [rewrite E in H|intros ? []].
Qed.
Lemma capacity_constant s t : can_emit_route_selected (run s t) = can_emit_route_selected s.
Proof. revert s. induction t as [|e t IH]; intros s; [done|]. cbn. rewrite IH. by destruct e. Qed.

(** *** The reachability table *)

(** A pair of tables agrees with the step function on the set of keys [P]. *)
Definition agrees (P : ControlState * ControlEvent -> Prop) (tabs : table ControlState * table ControlDecision) : Prop :=
  forall s e,
    (P (s, e) -> tabs.1 !! (s, e) = Some (step_control_state s e) /\
                 tabs.2 !! (s, e) = Some (evaluate_control_state (step_control_state s e))) /\
    (~ P (s, e) -> tabs.1 !! (s, e) = None /\ tabs.2 !! (s, e) = None).

Lemma agrees_insert P tabs s e : agrees P tabs ->
  agrees (fun k => k = (s, e) \/ P k)
    (<[ (s, e) := step_control_state s e ]> tabs.1, <[ (s, e) := evaluate_control_state (step_control_state s e) ]> tabs.2).
Proof.
  intros HP s' e'. cbn. rewrite !lookup_insert. destruct (HP s' e') as [H1 H2].
  case_decide as Hk; [injection Hk as <- <-; tauto|]. split; [intros [Heq|]|]; [by rewrite Heq in Hk|tauto|tauto].
Qed.

Lemma agrees_row P tabs s evs : agrees P tabs ->
  agrees (fun k => (k.1 = s /\ k.2 ∈ evs) \/ P k)
    (foldl (fun '(st, dt) e =>
        let next := step_control_state s e in
        (<[ (s, e) := next ]> st, <[ (s, e) := evaluate_control_state next ]> dt)) tabs evs).
Proof.
  revert P tabs. induction evs as [|e evs IH]; intros P [st dt] HP.
  - intros s' e'. destruct (HP s' e') as [H1 H2]. cbn. split; [intros [[_ []%elem_of_nil]|]; auto|].
    intros Hn. apply H2. tauto.
  - cbn [foldl]. intros s' e'.
    destruct (IH _ _ (agrees_insert P (st, dt) s e HP) s' e') as [H1 H2]. cbn [fst snd] in *. split.
    + intros Hk. apply H1. rewrite elem_of_cons in Hk. destruct Hk as [[-> [->|]]|]; auto.
    + intros Hk. apply H2. rewrite elem_of_cons in Hk. intros [[]|[[= -> ->]|]]; tauto.
Qed.

Lemma agrees_rows P tabs seeds : agrees P tabs ->
  agrees (fun k => (k.1 ∈ seeds /\ k.2 ∈ SYNTHETIC_TRACE_EVENTS) \/ P k)
    (foldl (fun tabs s =>
      foldl (fun '(st, dt) e =>
        let next := step_control_state s e in
        (<[ (s, e) := next ]> st, <[ (s, e) := evaluate_control_state next ]> dt)) tabs SYNTHETIC_TRACE_EVENTS) tabs seeds).
Proof.
  revert P tabs. induction seeds as [|s seeds IH]; intros P tabs HP.
  - intros s' e'. destruct (HP s' e') as [H1 H2]. cbn. split; [intros [[[]%elem_of_nil _]|]; auto|].
    intros Hn. apply H2. tauto.
  - cbn [foldl]. intros s' e'.
    destruct (IH _ _ (agrees_row P tabs s SYNTHETIC_TRACE_EVENTS HP) s' e') as [H1 H2]. cbn [fst snd] in *. split.
    + intros Hk. apply H1. rewrite elem_of_cons in Hk. tauto.
    + intros Hk. apply H2. rewrite elem_of_cons in Hk. tauto.
Qed.

Lemma elem_of_seed_space s : s ∈ synthetic_control_seed_space <-> admissible s = true.
Proof.
  split; [by intros [? _]%list_elem_of_filter|]. intros Ha.
  pose proof (occurrences_eq s) as Hc. rewrite Ha in Hc. unfold occurrences in Hc.
  destruct (filter (fun x => x = s) synthetic_control_seed_space) as [|x l] eqn:E; [done|].
  assert (x ∈ filter (fun x => x = s) synthetic_control_seed_space) as Hx by (rewrite E; apply list_elem_of_here).
  by apply list_elem_of_filter in Hx as [-> Hx].
Qed.

(** ** Properties *)

Lemma length_seed_space : length synthetic_control_seed_space = 288.
Proof. vm_compute. reflexivity. Qed.

(** the enumeration of the seed states visits every admissible control
    state exactly twice and no other state: one of its nine bits no longer
    belongs to a field. *)
Theorem seed_space_visits_twice (s : ControlState) :
  length (filter (fun x => x = s) synthetic_control_seed_space) = if admissible s then 2 else 0.
Proof. apply occurrences_eq. Qed.

(** The reachability tables hold exactly the steps of the admissible
    states under the ten trace events, each with its decision. *)
Lemma reachability_table_spec (s : ControlState) (e : ControlEvent) :
  (admissible s = true /\ e ∈ SYNTHETIC_TRACE_EVENTS ->
     reachability_table.1 !! (s, e) = Some (step_control_state s e) /\
     reachability_table.2 !! (s, e) = Some (evaluate_control_state (step_control_state s e))) /\
  (~ (admissible s = true /\ e ∈ SYNTHETIC_TRACE_EVENTS) ->
     reachability_table.1 !! (s, e) = None /\ reachability_table.2 !! (s, e) = None).
Proof.
  destruct (agrees_rows (fun _ => False) (∅, ∅) synthetic_control_seed_space ltac:(done) s e) as [H1 H2].
  cbn [fst snd] in *. rewrite elem_of_seed_space in H1, H2.
  split; [intros Hk; apply H1; left; exact Hk|]. intros Hk. apply H2. intros [Hk'|[]]. exact (Hk Hk').
Qed.

(** the trace metrics of any depth are the exact counts over all traces:
    288 seeds, [288 * 10 ^ depth] traces, and one counter per kind of decision
    that counts the traces ending in it. *)
Theorem trace_metrics_exact (depth : nat) :
  let terminals := synthetic_control_seed_space ≫= outcomes depth in
  synthetic_control_trace_metrics depth =
  {| start_states := 288;
     terminal :=
       {| states_explored := 288 * 10 ^ depth;
          suppressed := count_kind (Suppress "") terminals;
          replayed_cached_route := count_kind ReplayCachedRoute terminals;
          requested_fresh_route := count_kind RequestFreshRoute terminals;
          emitted_route := count_kind EmitRoute terminals;
          invariant_violations := count_kind (InvariantViolation "") terminals |} |}.
Proof.
  unfold synthetic_control_trace_metrics. rewrite length_seed_space. f_equal.
  rewrite (foldl_ext' _ (fun m seed => tally m (outcomes depth seed))) by (intros; apply walk_tally).
  rewrite <- tally_bind, tally_counts. cbn [no_metrics states_explored suppressed replayed_cached_route
    requested_fresh_route emitted_route invariant_violations Nat.add]. f_equal.
  rewrite <- length_seed_space.
  induction synthetic_control_seed_space as [|s l IH]; [done|].
  rewrite bind_cons, length_app, length_outcomes, IH. reflexivity.
Qed.

(** a route is selected at most once per control event: after a trace
    that emitted a route, or concluded, the decision is to suppress. *)
Theorem no_decision_after_emission (s : ControlState) (t : list ControlEvent) :
  RouteSelectedEmitted ∈ t \/ ConcludeEmitted ∈ t ->
  exists reason, evaluate_control_state (run s t) = Suppress reason.
Proof.
  intros [H%(route_emitted_sticky s)|H%(halted_sticky s)]; unfold evaluate_control_state; rewrite H; [|eauto].
  destruct (halted _); [eauto|]. destruct (pending_request _); eauto.
Qed.

Lemma no_decision_after_emission_witness :
  exists reason, evaluate_control_state (run (seed_of_bits 64) [RouteSelectedEmitted; PendingRequestStarted; PendingRequestCleared]) = Suppress reason.
Proof. apply no_decision_after_emission. left. apply list_elem_of_here. Defined.

(** an invariant violation is never created by a trace: it is reported
    only when the seed state already owed a [RouteSelected] and could not emit
    it, and the trace neither emitted one, nor concluded, nor forced a fresh
    route. *)
Theorem violation_inherited (s : ControlState) (t : list ControlEvent) reason :
  evaluate_control_state (run s t) = InvariantViolation reason ->
  pending_required_successor_route_selected s = true /\ can_emit_route_selected s = false /\
  RouteSelectedEmitted ∉ t /\ ConcludeEmitted ∉ t /\ ForceFreshRouteOnce ∉ t.
Proof.
  pose proof (route_emitted_sticky s t). pose proof (halted_sticky s t). pose proof (forced_sticky s t).
  pose proof (owed_from_seed s t) as Howed. pose proof (capacity_constant s t) as Hcap.
  unfold evaluate_control_state. split_ifs; try done. destruct_bools. intros _. rewrite <- Hcap.
  repeat split; (by auto) || (intros Hin; intuition congruence).
Qed.

Lemma violation_inherited_witness :
  pending_required_successor_route_selected (seed_of_bits 2) = true /\ can_emit_route_selected (seed_of_bits 2) = false /\
  RouteSelectedEmitted ∉ [CachedObserveRouteStored] /\ ConcludeEmitted ∉ [CachedObserveRouteStored] /\
  ForceFreshRouteOnce ∉ [CachedObserveRouteStored].
Proof. apply (violation_inherited (seed_of_bits 2) [CachedObserveRouteStored] "missing_required_route_selected_successor"). reflexivity. Defined.
