(* ===== verification/ConstraintEngine.v ===== *)
(** * The constraint engine ([canon-invariant/src/lib.rs])

    Routes, actions and the constraint state; the decision function and the
    meta invariants that classify actions, verifiers and failures; the
    evaluation of a route and an action against the constraint state. *)
From S2P Require Import Prelude Json Text.

Inductive ConstraintRoute := Observe | Plan | Act | Verify | Conclude.
Inductive ConstraintAction := CargoInit | CargoNew | RepairLocalized | RepairWorkspace | Validation | Other.
Inductive Decision_ := DecideObserve | DecidePlan | DecideAct | DecideVerify.
Inductive PlannedActionClass := PassiveDiscovery | Verification | Mutation | UnknownAction.

#[export] Instance ConstraintRoute_eq_dec : EqDecision ConstraintRoute.
Proof. solve_decision. Defined.
#[export] Instance ConstraintAction_eq_dec : EqDecision ConstraintAction.
Proof. solve_decision. Defined.
#[export] Instance PlannedActionClass_eq_dec : EqDecision PlannedActionClass.
Proof. solve_decision. Defined.

(** [ConstraintRoute::as_str]. *)
Definition route_str (r : ConstraintRoute) : string :=
  match r with Observe => "observe" | Plan => "plan" | Act => "act" | Verify => "verify" | Conclude => "conclude" end.

(** [ConstraintState]. *)
Record ConstraintState := {
  semantic_path_exists : bool;
  semantic_cargo_project : bool;
  real_path_exists : bool;
  real_cargo_project : bool;
  actionable_failure : bool;
  validation_blocked : bool;
  entrypoint_missing : bool;
  module_gaps_present : bool;
  recent_no_semantic_progress : bool;
  failure_class_no_actionable : bool;
  failure_scope_localized : bool;
  failure_scope_workspace : bool;
  failure_scope_tooling : bool;
  route_objective_contradiction : bool;
  has_plan : bool
}.
#[export] Instance ConstraintState_eq_dec : EqDecision ConstraintState.
Proof. solve_decision. Defined.

Definition constraint_fields (s : ConstraintState) : list bool :=
  [semantic_path_exists s; semantic_cargo_project s; real_path_exists s; real_cargo_project s; actionable_failure s; validation_blocked s; entrypoint_missing s; module_gaps_present s; recent_no_semantic_progress s; failure_class_no_actionable s; failure_scope_localized s; failure_scope_workspace s; failure_scope_tooling s; route_objective_contradiction s; has_plan s].
#[export] Instance ConstraintState_countable : Countable ConstraintState.
Proof.
  apply (inj_countable constraint_fields (fun l =>
    match l with
    | [a; b; c; d; e; f; g; h; i; j; k; l; m; n; o] => Some (Build_ConstraintState a b c d e f g h i j k l m n o)
    | _ => None
    end)).
  by intros [].
Defined.

Definition default_constraint_state : ConstraintState :=
  Build_ConstraintState false false false false false false false false false false false false false false false.

#[export] Instance ConstraintRoute_countable : Countable ConstraintRoute.
Proof.
  apply (inj_countable' (fun r => match r with Observe => 0 | Plan => 1 | Act => 2 | Verify => 3 | Conclude => 4 end)
    (fun n => match n with 0 => Observe | 1 => Plan | 2 => Act | 3 => Verify | _ => Conclude end)).
  by intros [].
Defined.

(** [ConstraintState::has_state_drift]. *)
Definition has_state_drift (s : ConstraintState) : bool :=
  xorb (semantic_path_exists s) (real_path_exists s) || xorb (semantic_cargo_project s) (real_cargo_project s).

(** [decide] on a [DecisionState], whose only field is [has_plan]. *)
Definition decide_route (state_has_plan : bool) : Decision_ :=
  if negb state_has_plan then DecideObserve else DecideAct.

Record ConstraintContext := {
  ctx_state : ConstraintState;
  ctx_route : option ConstraintRoute;
  ctx_action : option ConstraintAction;
  deterministic_route : option ConstraintRoute
}.

Inductive ConstraintDecision :=
  | Allow
  | Forbid (reason : string)
  | RewriteAction (a : ConstraintAction) (reason : string)
  | RewriteRoute (r : ConstraintRoute) (reason : string).

Inductive ConstraintDecisionSource := MetaInvariant | DiscoveredSource | Deterministic.

(** [resolve_constraint_decision_precedence]. *)
Definition resolve_constraint_decision_precedence (meta discovered deterministic : option ConstraintDecision)
    : option (ConstraintDecisionSource * ConstraintDecision) :=
  match meta with
  | Some d => Some (MetaInvariant, d)
  | None =>
      match discovered with
      | Some d => Some (DiscoveredSource, d)
      | None => match deterministic with Some d => Some (Deterministic, d) | None => None end
      end
  end.

(** ** Evaluation of a context *)

Definition is_terminal_route (r : ConstraintRoute) : bool :=
  match r with Verify | Conclude => true | _ => false end.

(** The early returns of the route block: does the block return [Allow]? *)
Definition route_allows (s : ConstraintState) (route : ConstraintRoute) : bool :=
  (has_state_drift s && negb (bool_decide (route = Observe)))
  || (negb (real_path_exists s) && negb (bool_decide (route = Plan)))
  || (is_terminal_route route && (validation_blocked s || actionable_failure s))
  || (is_terminal_route route && (entrypoint_missing s || module_gaps_present s))
  || (is_terminal_route route && route_objective_contradiction s).

(** The guarded arms of the action block, in order. *)
Definition evaluate_action (s : ConstraintState) (a : ConstraintAction) : ConstraintDecision :=
  match a with
  | RepairLocalized =>
      if failure_class_no_actionable s || negb (actionable_failure s) then
        Forbid "meta_invariant_no_actionable_failure: repair actions are forbidden because there is no actionable failure"
      else if negb (failure_scope_localized s) then
        Forbid "meta_invariant_failure_scope: localized repair actions require localized failure scope"
      else Allow
  | RepairWorkspace =>
      if failure_class_no_actionable s || negb (actionable_failure s) then
        Forbid "meta_invariant_no_actionable_failure: repair actions are forbidden because there is no actionable failure"
      else if failure_scope_localized s then
        Forbid "meta_invariant_failure_scope: workspace repair actions are too broad for localized failures"
      else Allow
  | Validation =>
      if validation_blocked s then
        Forbid "meta_invariant_validation_timing: validation actions are forbidden while planning preconditions remain unresolved"
      else if negb (real_path_exists s) then
        Forbid "meta_invariant_bootstrap_required: validation actions are forbidden while the target workspace is missing"
      else if entrypoint_missing s || module_gaps_present s then
        Forbid "meta_invariant_validation_timing: validation actions are forbidden while required files are still missing"
      else Allow
  | CargoInit =>
      if negb (real_path_exists s) then
        RewriteAction CargoNew "meta_invariant_tool_selection_correctness: missing target requires cargo new"
      else if real_cargo_project s then
        Forbid "meta_invariant_tool_selection_correctness: bootstrap commands are forbidden for existing Cargo projects"
      else Allow
  | CargoNew =>
      if real_path_exists s && negb (real_cargo_project s) then
        RewriteAction CargoInit "meta_invariant_tool_selection_correctness: existing non-Cargo directory requires cargo init"
      else if real_cargo_project s then
        Forbid "meta_invariant_tool_selection_correctness: bootstrap commands are forbidden for existing Cargo projects"
      else Allow
  | Other => Allow
  end.

(** [evaluate_constraint_context]. *)
Definition evaluate_constraint_context (ctx : ConstraintContext) : ConstraintDecision :=
  let overridden :=
    match deterministic_route ctx, ctx_route ctx with
    | Some expected, Some actual => negb (bool_decide (expected = actual))
    | _, _ => false
    end in
  if overridden then Forbid "meta_invariant_deterministic_route_authority: deterministic routes cannot be overridden"
  else
    let allowed := match ctx_route ctx with Some route => route_allows (ctx_state ctx) route | None => false end in
    if allowed then Allow
    else match ctx_action ctx with Some a => evaluate_action (ctx_state ctx) a | None => Allow end.

(** ** Self-repair capabilities *)

Inductive HarnessPrimitiveCapability := ReadSearch | StructuredEdit | ApplyPatch | RunVerifier | ObserveDiagnostics.
Record HarnessCapabilityState := {
  read_search : bool; structured_edit : bool; apply_patch : bool; run_verifier : bool; observe_diagnostics : bool
}.
#[export] Instance Capability_eq_dec : EqDecision HarnessPrimitiveCapability.
Proof. solve_decision. Defined.

Definition MINIMAL_SELF_REPAIR_SET : list HarnessPrimitiveCapability :=
  [ReadSearch; StructuredEdit; ApplyPatch; RunVerifier; ObserveDiagnostics].

Definition has_capability (s : HarnessCapabilityState) (c : HarnessPrimitiveCapability) : bool :=
  match c with
  | ReadSearch => read_search s | StructuredEdit => structured_edit s | ApplyPatch => apply_patch s
  | RunVerifier => run_verifier s | ObserveDiagnostics => observe_diagnostics s
  end.

Definition meta_invariant_harness_self_repair_missing_capabilities (s : HarnessCapabilityState) : list HarnessPrimitiveCapability :=
  filter (fun c => has_capability s c = false) MINIMAL_SELF_REPAIR_SET.

Definition meta_invariant_harness_self_repair_ready (s : HarnessCapabilityState) : bool :=
  match meta_invariant_harness_self_repair_missing_capabilities s with [] => true | _ => false end.

(** ** Classification of actions and verifiers *)

Inductive MetaInvariantBootstrapToolChoice := ToolCargoNew | ToolCargoInit.
Definition tool_str (t : MetaInvariantBootstrapToolChoice) : string :=
  match t with ToolCargoNew => "cargo_new" | ToolCargoInit => "cargo_init" end.
Inductive MetaInvariantVerifierOutcome := Passed | CompilerFailure | FailedNoCompilerSignal.
Inductive MetaInvariantVerifierSequenceStep := StepLoopVerified | StepVerifierPolicyUpdated | StepLoopRewarded.

Record MetaInvariantPolicyUpdate := {
  verifier_outcome : MetaInvariantVerifierOutcome; retry_policy : string; reward_bias : string; pu_actionable_failure : bool
}.

(** Membership in a literal or-pattern of strings. *)
Definition one_of (l : list string) (s : string) : bool := bool_decide (s ∈ l).

Definition edit_actions : list string :=
  ["edit.rename_symbol"; "edit.move_symbol"; "edit.add_import"; "edit.define_symbol_stub"; "edit.create_module_file"].

Section Actions.
Context {V : Type} `{Json V}.

(** [meta_invariant_classify_planned_action_class]. *)
Definition classify_planned_action_class (action_kind : string) (action_payload : V) : PlannedActionClass :=
  if one_of ["read_file"; "list_dir"; "search_files"] action_kind then PassiveDiscovery
  else if one_of ["run_command"] action_kind then
    match json_get_str "cmd" action_payload with
    | Some cmd =>
        if str_contains "cargo check" cmd || str_contains "cargo build" cmd || str_contains "cargo test" cmd
        then Verification else Mutation
    | None => UnknownAction
    end
  else if one_of (["write_file"; "patch_file"; "apply_patch"] ++ edit_actions) action_kind then Mutation
  else UnknownAction.

Definition is_localized_repair_action (action_kind : string) : bool :=
  one_of ["edit.add_import"; "edit.define_symbol_stub"; "edit.rename_symbol"; "apply_patch"] action_kind.

Definition meta_invariant_all_failures_typed (failure_class failure_scope : option string) : bool :=
  match failure_class with Some v => negb (is_blank v) | None => false end
  && match failure_scope with Some v => one_of ["localized"; "workspace"; "tooling"; "none"] v | None => false end.

Definition meta_invariant_any_action_cites_failure (action_payload : V) (active_failure_class : option string) : bool :=
  match active_failure_class with
  | Some expected =>
      if is_blank expected then true
      else match json_get_str "failure_class" action_payload with
           | Some value => bool_decide (value = expected)
           | None => false
           end
  | None => true
  end.

Definition meta_invariant_is_mutating_action (action_kind : string) (action_payload : V) : bool :=
  match classify_planned_action_class action_kind action_payload with Mutation => true | _ => false end.

(** [meta_invariant_expected_verifier]. *)
Definition meta_invariant_expected_verifier (action_kind : string) (action_payload : V) : option string :=
  if negb (meta_invariant_is_mutating_action action_kind action_payload) then None
  else if one_of edit_actions action_kind then Some "graph_proof"
  else Some "cargo_check".

Definition meta_invariant_action_must_declare_verifier (action_kind : string) (action_payload : V) : bool :=
  match meta_invariant_expected_verifier action_kind action_payload with
  | None => true
  | Some expected =>
      match json_get_str "verifier" action_payload with
      | Some value => negb (is_blank value) && bool_decide (value = expected)
      | None => false
      end
  end.

Definition meta_invariant_classify_bootstrap_tool (cmd : string) : option MetaInvariantBootstrapToolChoice :=
  if str_contains "cargo new" cmd then Some ToolCargoNew
  else if str_contains "cargo init" cmd then Some ToolCargoInit
  else None.

Definition meta_invariant_tool_selection_correctness (expected_tool_choice action_kind : string) (action_payload : V) : bool :=
  if negb (bool_decide (action_kind = "run_command")) then false
  else match json_get_str "cmd" action_payload with
       | None => false
       | Some cmd =>
           match meta_invariant_classify_bootstrap_tool cmd with
           | Some tool => bool_decide (tool_str tool = expected_tool_choice)
           | None => false
           end
       end.
End Actions.

(** ** Failures and verifier results *)

Definition meta_invariant_has_actionable_failure (validation_blocked_by_preconditions compiler_repair_required : bool)
    (planning_preconditions_len compiler_hints_len module_gaps_len : nat) : bool :=
  validation_blocked_by_preconditions || compiler_repair_required || (0 <? planning_preconditions_len)
  || (0 <? compiler_hints_len) || (0 <? module_gaps_len).

Definition failure_scope_is_sufficient (compiler_repair_required : bool) (compiler_hints_len : nat) (failure_scope : option string) : bool :=
  if negb compiler_repair_required || (compiler_hints_len =? 0) then true
  else match failure_scope with Some v => one_of ["localized"; "workspace"; "tooling"] v | None => false end.

Definition stalled_loop_forbids_action_class (no_progress_streak : N) (c : PlannedActionClass) : bool :=
  (2 <=? no_progress_streak)%N && match c with PassiveDiscovery | Verification => true | _ => false end.

Definition looks_like_compiler_failure (text : string) : bool :=
  str_contains "error[E" text || str_contains "could not compile" text
  || str_contains "allow(dead_code) incompatible with previous forbid" text
  || str_contains "file not found for module `" text || str_contains "cargo_check_failed" text.

Definition meta_invariant_classify_verifier_outcome (passed compiler_clean : bool) (diagnostics : list string) : MetaInvariantVerifierOutcome :=
  if passed && compiler_clean then Passed
  else if existsb looks_like_compiler_failure diagnostics then CompilerFailure
  else FailedNoCompilerSignal.

Definition meta_invariant_all_results_update_policy (passed compiler_clean : bool) (diagnostics : list string) : MetaInvariantPolicyUpdate :=
  let outcome := meta_invariant_classify_verifier_outcome passed compiler_clean diagnostics in
  match outcome with
  | Passed =>
      {| verifier_outcome := outcome; retry_policy := "none"; reward_bias := "positive"; pu_actionable_failure := false |}
  | CompilerFailure | FailedNoCompilerSignal =>
      {| verifier_outcome := outcome; retry_policy := "corrective_retry"; reward_bias := "negative"; pu_actionable_failure := true |}
  end.

(** [meta_invariant_verifier_sequence_contract]: [None] accepts the step. *)
Definition meta_invariant_verifier_sequence_contract (step : MetaInvariantVerifierSequenceStep)
    (last_control_kind pending_required_successor : option string) (has_last_verified : bool) : option string :=
  match step with
  | StepLoopVerified =>
      if bool_decide (last_control_kind = Some "route_selected")
         && bool_decide (pending_required_successor = Some "verifier_policy_updated")
      then None
      else Some "route_selected(verify) must be followed by loop_verified before verifier_policy_updated"
  | StepVerifierPolicyUpdated =>
      if bool_decide (last_control_kind = Some "loop_verified") && has_last_verified then None
      else Some "loop_verified must be followed by verifier_policy_updated before loop_rewarded"
  | StepLoopRewarded =>
      let last := to_ascii_lowercase <$> last_control_kind in
      let pending := to_ascii_lowercase <$> pending_required_successor in
      if bool_decide (last = Some "verifier_policy_updated") && bool_decide (pending = Some "loop_rewarded") then None
      else if bool_decide (last = Some "route_selected") && bool_decide (pending = Some "loop_rewarded") then None
      else Some "loop_rewarded must follow verifier_policy_updated, except for direct conclude routing"
  end.

(** ** Trajectory scores *)

Record TrajectoryStep := { semantic_progress : Z; no_progress : bool; invalid_action : bool }.
Record TrajectoryScore := { total : Z; progress : Z; penalties : Z }.

(** [i32] arithmetic with overflow checks: [None] is the panic. *)
Definition i32_check (z : Z) : option Z :=
  if ((-2147483648 <=? z) && (z <=? 2147483647))%Z then Some z else None.

Definition score_step (acc : option (Z * Z)) (s : TrajectoryStep) : option (Z * Z) :=
  '(p, q) ← acc;
  p' ← i32_check (p + semantic_progress s)%Z;
  q' ← (if no_progress s then i32_check (q + 1)%Z else Some q);
  q'' ← (if invalid_action s then i32_check (q' + 2)%Z else Some q');
  Some (p', q'').

Definition score_trajectory (steps : list TrajectoryStep) : option TrajectoryScore :=
  '(p, q) ← foldl score_step (Some (0, 0)%Z) steps;
  t ← i32_check (p - q)%Z;
  Some {| total := t; progress := p; penalties := q |}.
