(* ===== verification/Discovery.v ===== *)
(** * Discovery of invariants from failures ([canon-invariant/src/lib.rs])

    The process-wide discovery state: supports per failure fingerprint,
    promoted invariants with the support that promoted them, and negative
    evidence.  The store on disk is its parsed contents; writing it succeeds.
    One [op] is one call of the public interface, which holds the state's
    mutex throughout. *)
From S2P Require Import Prelude ConstraintEngine.

Inductive FailureKind := InvalidPlanBatch | RouteRewrite_.
Record FailureFingerprint := { fp_kind : FailureKind; fp_route : option ConstraintRoute; fp_state : ConstraintState }.
Inductive DiscoveredInvariant :=
  | ForcePlanWhenMissingTarget
  | ForcePlanWhenValidationBlocked
  | ForcePlanWhenObjectiveContradiction
  | ForceObserveWhenNoActionableFailure.

#[export] Instance FailureKind_eq_dec : EqDecision FailureKind.
Proof. solve_decision. Defined.
#[export] Instance FailureFingerprint_eq_dec : EqDecision FailureFingerprint.
Proof. solve_decision. Defined.
#[export] Instance DiscoveredInvariant_eq_dec : EqDecision DiscoveredInvariant.
Proof. solve_decision. Defined.
#[export] Instance FailureFingerprint_countable : Countable FailureFingerprint.
Proof.
  apply (inj_countable' (fun f => (bool_decide (fp_kind f = InvalidPlanBatch), fp_route f, fp_state f))
    (fun '(k, r, s) => {| fp_kind := if k : bool then InvalidPlanBatch else RouteRewrite_; fp_route := r; fp_state := s |})).
  by intros [[] r s].
Defined.
#[export] Instance DiscoveredInvariant_countable : Countable DiscoveredInvariant.
Proof.
  apply (inj_countable'
    (fun i => match i with ForcePlanWhenMissingTarget => 0 | ForcePlanWhenValidationBlocked => 1
              | ForcePlanWhenObjectiveContradiction => 2 | ForceObserveWhenNoActionableFailure => 3 end)
    (fun n => match n with 0 => ForcePlanWhenMissingTarget | 1 => ForcePlanWhenValidationBlocked
              | 2 => ForcePlanWhenObjectiveContradiction | _ => ForceObserveWhenNoActionableFailure end)).
  by intros [].
Defined.

(** [fingerprint_pattern]: the guarded arms in order. *)
Definition fingerprint_pattern (f : FailureFingerprint) : option DiscoveredInvariant :=
  let s := fp_state f in
  match fp_route f with
  | Some Observe => if negb (real_path_exists s) then Some ForcePlanWhenMissingTarget else None
  | Some Verify | Some Conclude =>
      if validation_blocked s || entrypoint_missing s || module_gaps_present s then Some ForcePlanWhenValidationBlocked
      else if route_objective_contradiction s then Some ForcePlanWhenObjectiveContradiction
      else None
  | Some Plan =>
      if failure_class_no_actionable s
         || (recent_no_semantic_progress s && negb (actionable_failure s) && negb (validation_blocked s)
             && negb (entrypoint_missing s) && negb (module_gaps_present s) && real_path_exists s)
      then Some ForceObserveWhenNoActionableFailure else None
  | _ => None
  end.

(** [InvariantDiscoveryState]. *)
Record InvariantDiscoveryState := {
  threshold : N;
  supports : gmap FailureFingerprint N;
  promoted : gmap DiscoveredInvariant N;
  negative_evidence : gmap DiscoveredInvariant N
}.
Record PersistedInvariantDiscoveryState := {
  ps_supports : list (FailureFingerprint * N); ps_promoted : list (DiscoveredInvariant * N)
}.
Record StoreEvent := { se_loaded : bool; support_entries : nat; promoted_entries : nat; se_reason : string }.

(** The state, the store, and the pending store events. *)
Record world := { st : InvariantDiscoveryState; disk : option PersistedInvariantDiscoveryState; store_events : list StoreEvent }.

Definition empty_state (t : N) : InvariantDiscoveryState :=
  {| threshold := t; supports := ∅; promoted := ∅; negative_evidence := ∅ |}.

(** [save_to_disk]. *)
Definition save_to_disk (reason : string) (w : world) : world :=
  {| st := st w;
     disk := Some {| ps_supports := map_to_list (supports (st w)); ps_promoted := map_to_list (promoted (st w)) |};
     store_events := store_events w ++
       [{| se_loaded := false; support_entries := map_size (supports (st w));
           promoted_entries := map_size (promoted (st w)); se_reason := reason |}] |}.

(** [load_from_disk]. *)
Definition load_from_disk (w : world) : world :=
  match disk w with
  | None => w
  | Some p =>
      let s := {| threshold := threshold (st w); supports := list_to_map (ps_supports p);
                  promoted := list_to_map (ps_promoted p); negative_evidence := negative_evidence (st w) |} in
      {| st := s; disk := disk w;
         store_events := store_events w ++
           [{| se_loaded := true; support_entries := map_size (supports s);
               promoted_entries := map_size (promoted s); se_reason := "store_loaded" |}] |}
  end.

(** [reload_discovered_invariants_from_disk]. *)
Definition reload (w : world) : world :=
  load_from_disk {| st := empty_state (threshold (st w)); disk := disk w; store_events := store_events w |}.

(** [clear_discovered_invariants_store]. *)
Definition clear_store (w : world) : world := {| st := st w; disk := None; store_events := store_events w |}.

Definition with_state (s : InvariantDiscoveryState) (w : world) : world :=
  {| st := s; disk := disk w; store_events := store_events w |}.

(** The threshold of an invariant; two of them are fixed in the code. *)
Definition promotion_threshold (s : InvariantDiscoveryState) (i : DiscoveredInvariant) : N :=
  match i with
  | ForcePlanWhenMissingTarget => 3
  | ForceObserveWhenNoActionableFailure => 3
  | _ => threshold s
  end%N.

Record InvariantPromotion := { ip_invariant : DiscoveredInvariant; ip_support : N; ip_fingerprint : FailureFingerprint }.

(** [observe_failure_fingerprint]. *)
Definition observe_failure_fingerprint (f : FailureFingerprint) (w : world) : world * option InvariantPromotion :=
  match fingerprint_pattern f with
  | None => (w, None)
  | Some i =>
      let s := st w in
      let support := sat_add32 (default 0%N (supports s !! f)) 1 in
      let s1 := {| threshold := threshold s; supports := <[ f := support ]> (supports s);
                   promoted := promoted s; negative_evidence := negative_evidence s |} in
      let w1 := save_to_disk "support_observed" (with_state s1 w) in
      if (support <? promotion_threshold s1 i)%N then (w1, None)
      else
        let s2 := {| threshold := threshold s1; supports := supports s1; promoted := <[ i := support ]> (promoted s1);
                     negative_evidence := delete i (negative_evidence s1) |} in
        (save_to_disk "promotion" (with_state s2 w1),
         Some {| ip_invariant := i; ip_support := support; ip_fingerprint := f |})
  end.

(** [discovered_invariants]: the keys of [promoted]. *)
Definition discovered_invariants (w : world) : gset DiscoveredInvariant := dom (promoted (st w)).

(** [record_negative_evidence]. *)
Definition record_negative_evidence (i : DiscoveredInvariant) (w : world) : world :=
  let s := st w in
  let n := sat_add32 (default 0%N (negative_evidence s !! i)) 1 in
  if (3 <=? n)%N then
    save_to_disk "demotion" (with_state
      {| threshold := threshold s; supports := supports s; promoted := delete i (promoted s);
         negative_evidence := delete i (<[ i := n ]> (negative_evidence s)) |} w)
  else with_state
    {| threshold := threshold s; supports := supports s; promoted := promoted s;
       negative_evidence := <[ i := n ]> (negative_evidence s) |} w.

(** One promoted invariant applied to a context. *)
Definition discovered_applies (ctx : ConstraintContext) (i : DiscoveredInvariant) : bool :=
  let s := ctx_state ctx in
  let terminal := match ctx_route ctx with Some r => is_terminal_route r | None => false end in
  match i with
  | ForcePlanWhenMissingTarget => negb (real_path_exists s) && negb (bool_decide (ctx_route ctx = Some Plan))
  | ForceObserveWhenNoActionableFailure => false
  | ForcePlanWhenValidationBlocked =>
      terminal && actionable_failure s && (validation_blocked s || entrypoint_missing s || module_gaps_present s)
  | ForcePlanWhenObjectiveContradiction => terminal && actionable_failure s && route_objective_contradiction s
  end.

(** [evaluate_discovered_invariants]: the loop returns [Allow] at the first
    promoted invariant that applies, in whatever order the map yields them. *)
Definition evaluate_discovered_invariants (order : list DiscoveredInvariant) (ctx : ConstraintContext) : option ConstraintDecision :=
  if negb (actionable_failure (ctx_state ctx)) then None
  else if existsb (discovered_applies ctx) order then Some Allow else None.

(** ** Calls *)

Inductive op :=
  | OpObserve (f : FailureFingerprint)
  | OpNegative (i : DiscoveredInvariant)
  | OpReload.

Definition step (w : world) (o : op) : world :=
  match o with
  | OpObserve f => (observe_failure_fingerprint f w).1
  | OpNegative i => record_negative_evidence i w
  | OpReload => reload w
  end.
Definition run (w : world) (ops : list op) : world := foldl step w ops.

(** A process that starts with no store and a positive threshold. *)
Definition fresh (t : N) : world := {| st := empty_state t; disk := None; store_events := [] |}.

(** ** The machine without its store

    What a call does to the in-memory state, when the store is in step with
    it: a reload forgets the negative evidence and nothing else. *)
Definition step_state (s : InvariantDiscoveryState) (o : op) : InvariantDiscoveryState :=
  match o with
  | OpObserve f =>
      match fingerprint_pattern f with
      | None => s
      | Some i =>
          let support := sat_add32 (default 0%N (supports s !! f)) 1 in
          let promote := negb (support <? promotion_threshold s i)%N in
          {| threshold := threshold s; supports := <[ f := support ]> (supports s);
             promoted := if promote then <[ i := support ]> (promoted s) else promoted s;
             negative_evidence := if promote then delete i (negative_evidence s) else negative_evidence s |}
      end
  | OpNegative i =>
      let n := sat_add32 (default 0%N (negative_evidence s !! i)) 1 in
      let demote := (3 <=? n)%N in
      {| threshold := threshold s; supports := supports s;
         promoted := if demote then delete i (promoted s) else promoted s;
         negative_evidence := if demote then delete i (negative_evidence s) else <[ i := n ]> (negative_evidence s) |}
  | OpReload => {| threshold := threshold s; supports := supports s; promoted := promoted s; negative_evidence := ∅ |}
  end.

(** The store holds the supports and the promotions. *)
Definition in_step (w : world) : Prop :=
  match disk w with
  | Some p => list_to_map (ps_supports p) = supports (st w) /\ list_to_map (ps_promoted p) = promoted (st w)
  | None => supports (st w) = ∅ /\ promoted (st w) = ∅
  end.

Lemma save_in_step reason w : in_step (save_to_disk reason w).
Proof. unfold in_step. cbn. by rewrite !list_to_map_to_list. Qed.

Lemma step_refines w o : in_step w -> in_step (step w o) /\ st (step w o) = step_state (st w) o.
Proof.
  intros Hw. destruct o as [f|i|]; cbn [step step_state].
  - unfold observe_failure_fingerprint. destruct (fingerprint_pattern f) as [i|]; [|done].
    cbv zeta. change (promotion_threshold {| threshold := _ |} i) with (promotion_threshold (st w) i).
    destruct (_ <? _)%N; cbn [negb fst]; (split; [apply save_in_step|reflexivity]).
  - unfold record_negative_evidence. destruct (3 <=? _)%N.
    + split; [apply save_in_step|]. cbn. by rewrite delete_insert_eq.
    + split; [exact Hw|reflexivity].
  - unfold reload, load_from_disk, in_step in *. cbn. destruct (disk w) as [p|] eqn:Hd; cbn.
    + destruct Hw as [-> ->]. done.
    + destruct Hw as [-> ->]. done.
Qed.

Lemma run_refines w ops : in_step w -> in_step (run w ops) /\ st (run w ops) = foldl step_state (st w) ops.
Proof.
  revert w. induction ops as [|o ops IH]; intros w Hw; [done|].
  destruct (step_refines w o Hw) as [Hs He]. cbn. rewrite <- He. by apply IH.
Qed.

(** ** Invariant of the machine *)

Record justified (s : InvariantDiscoveryState) : Prop := {
  j_promoted : forall i k, promoted s !! i = Some k ->
    (promotion_threshold s i <= k)%N /\
    exists f k', fingerprint_pattern f = Some i /\ supports s !! f = Some k' /\ (k <= k')%N;
  j_negative : forall i n, negative_evidence s !! i = Some n -> (1 <= n < 3)%N
}.

Lemma supports_monotone s o f k : supports s !! f = Some k -> (k <= u32_max)%N ->
  exists k', supports (step_state s o) !! f = Some k' /\ (k <= k')%N.
Proof.
  intros Hf Hk. destruct o as [g|i|]; cbn; [|eauto|eauto]. destruct (fingerprint_pattern g); [|eauto]. cbn.
  rewrite lookup_insert. case_decide as Heq; [subst g; rewrite Hf; cbn|eauto].
  eexists. split; [reflexivity|]. unfold sat_add32. lia.
Qed.

Lemma supports_bounded s o : map_Forall (fun _ k => k <= u32_max)%N (supports s) ->
  map_Forall (fun _ k => k <= u32_max)%N (supports (step_state s o)).
Proof.
  intros Hs. destruct o as [g|i|]; cbn; [|done|done]. destruct (fingerprint_pattern g); [|done]. cbn.
  apply map_Forall_insert_2; [|done]. unfold sat_add32. lia.
Qed.

Lemma threshold_constant s o i : promotion_threshold (step_state s o) i = promotion_threshold s i.
Proof. destruct o as [g|j|], i; cbn; try done; by destruct (fingerprint_pattern g). Qed.

Lemma step_justified s o : map_Forall (fun _ k => k <= u32_max)%N (supports s) ->
  justified s -> justified (step_state s o).
Proof.
  intros Hb [Hp Hn].
  assert (Hkeep : forall i k, promoted s !! i = Some k ->
    (promotion_threshold s i <= k)%N /\
    exists f k', fingerprint_pattern f = Some i /\ supports (step_state s o) !! f = Some k' /\ (k <= k')%N).
  { intros i k Hi. destruct (Hp i k Hi) as (Ht & f & k' & Hf & Hs & Hk). split; [done|].
    destruct (supports_monotone s o f k' Hs (Hb _ _ Hs)) as (k'' & Hs' & Hk''). exists f, k''. split_and!; [done..|lia]. }
  split; intros i k; rewrite ?threshold_constant; revert Hkeep; destruct o as [f|j|]; cbn; intros Hkeep.
  - destruct (fingerprint_pattern f) as [j|] eqn:Hf; [|by apply Hkeep]. cbn in *.
    destruct (_ <? _)%N eqn:Hlt; cbn; [by apply Hkeep|]. apply N.ltb_ge in Hlt.
    rewrite lookup_insert. case_decide as Hij; [subst j; intros [= <-]|by apply Hkeep].
    split; [done|]. exists f. eexists. split; [done|]. rewrite lookup_insert_eq. split; [done|lia].
  - destruct (3 <=? _)%N; [|by apply Hkeep]. rewrite lookup_delete_Some. intros [_ Hi]. by apply Hkeep.
  - by apply Hkeep.
  - destruct (fingerprint_pattern f) as [j|]; [|by apply Hn]. cbn. destruct (_ <? _)%N; cbn; [by apply Hn|].
    rewrite lookup_delete_Some. intros [_ Hi]. by apply (Hn i).
  - destruct (3 <=? _)%N eqn:Hlt; [rewrite lookup_delete_Some; intros [_ Hi]; by apply (Hn i)|].
    apply N.leb_gt in Hlt. rewrite lookup_insert. case_decide; [intros [= <-]|by apply Hn].
    split; [|done]. unfold sat_add32, u32_max. lia.
  - by rewrite lookup_empty.
Qed.

Lemma foldl_justified ops s : map_Forall (fun _ k => k <= u32_max)%N (supports s) ->
  justified s -> justified (foldl step_state s ops).
Proof.
  revert s. induction ops as [|o ops IH]; intros s Hb Hs; [done|].
  cbn. apply IH; [by apply supports_bounded|by apply step_justified].
Qed.

(** ** Counting *)

#[export] Instance op_eq_dec : EqDecision op.
Proof. solve_decision. Defined.

Definition count (o : op) (ops : list op) : nat := length (filter (fun x => x = o) ops).

Lemma count_cons o x ops : count o (x :: ops) = (if decide (x = o) then 1 else 0) + count o ops.
Proof. unfold count. rewrite filter_cons. by case_decide. Qed.

Lemma fresh_in_step t : in_step (fresh t).
Proof. done. Qed.

Lemma run_fresh t ops : st (run (fresh t) ops) = foldl step_state (empty_state t) ops.
Proof. by apply run_refines. Qed.

Lemma supports_count ops s f : is_Some (fingerprint_pattern f) -> (default 0 (supports s !! f) <= u32_max)%N ->
  default 0%N (supports (foldl step_state s ops) !! f)
  = N.min (default 0 (supports s !! f) + N.of_nat (count (OpObserve f) ops))%N u32_max.
Proof.
  intros [i Hi]. revert s. induction ops as [|o ops IH]; intros s Hs.
  { cbn. unfold count. cbn. lia. }
  assert (Hstep : default 0%N (supports (step_state s o) !! f)
    = N.min (default 0 (supports s !! f) + (if decide (o = OpObserve f) then 1 else 0))%N u32_max).
  { destruct o as [g|j|]; cbn; [|rewrite decide_False by done; lia|rewrite decide_False by done; lia].
    case_decide as Heq; [injection Heq as ->; rewrite Hi; cbn; by rewrite lookup_insert_eq|].
    destruct (fingerprint_pattern g) as [j|]; [|cbn; lia]. cbn. rewrite lookup_insert_ne by congruence. lia. }
  cbn [foldl]. rewrite IH by (rewrite Hstep; lia). rewrite Hstep, count_cons. case_decide; lia.
Qed.

(** A call that neither observes a failure of the pattern [i] nor reloads. *)
Definition quiet (i : DiscoveredInvariant) (o : op) : Prop :=
  match o with OpObserve f => fingerprint_pattern f <> Some i | OpNegative _ => True | OpReload => False end.

(** Before the third piece of negative evidence a promotion stands. *)
Lemma quiet_keeps i ops s : Forall (quiet i) ops ->
  (default 0 (negative_evidence s !! i) + N.of_nat (count (OpNegative i) ops) < 3)%N ->
  promoted (foldl step_state s ops) !! i = promoted s !! i /\
  default 0%N (negative_evidence (foldl step_state s ops) !! i)
  = (default 0 (negative_evidence s !! i) + N.of_nat (count (OpNegative i) ops))%N.
Proof.
  intros Hq. revert s. induction Hq as [|o ops Ho Hq IH]; intros s Hn; [split; [done|]; cbn; lia|].
  rewrite count_cons in Hn. rewrite count_cons.
  assert (Hstep : promoted (step_state s o) !! i = promoted s !! i /\
    default 0%N (negative_evidence (step_state s o) !! i)
    = (default 0 (negative_evidence s !! i) + (if decide (o = OpNegative i) then 1 else 0))%N).
  { destruct o as [g|j|]; cbn in Ho |- *; [|clear Ho|done].
    - rewrite decide_False by done. destruct (fingerprint_pattern g) as [j|]; [|split; [done|lia]]. cbn.
      destruct (negb _); [|split; [done|lia]].
      rewrite lookup_insert_ne, lookup_delete_ne by congruence. split; [done|lia].
    - destruct (decide (OpNegative j = OpNegative i)) as [Heq|Hne].
      + injection Heq as ->. rewrite (proj2 (N.leb_gt _ _)) by (unfold sat_add32, u32_max; lia).
        rewrite lookup_insert_eq. split; [done|]. cbn. unfold sat_add32, u32_max. lia.
      + assert (j <> i) by congruence. destruct (3 <=? _)%N.
        * rewrite !lookup_delete_ne by done. split; [done|lia].
        * rewrite lookup_insert_ne by done. split; [done|lia]. }
  destruct Hstep as [Hp Hneg]. cbn [foldl]. rewrite <- Hp.
  destruct (IH (step_state s o)) as [-> ->]; [rewrite Hneg; case_decide; lia|].
  rewrite Hneg. split; [done|]. case_decide; lia.
Qed.

(** ** Properties *)

Definition missing_target : FailureFingerprint :=
  {| fp_kind := RouteRewrite_; fp_route := Some Observe; fp_state := default_constraint_state |}.
Definition three_observations : list op := replicate 3 (OpObserve missing_target).

(** C24: whatever the calls, every promoted invariant is justified: the
    support recorded with it reaches its threshold and was reached by a
    failure fingerprint of its own pattern, and no invariant has three pieces
    of negative evidence pending. *)
Theorem discovery_is_justified (t : N) (ops : list op) :
  let s := st (run (fresh t) ops) in
  (forall i k, promoted s !! i = Some k ->
     (promotion_threshold s i <= k)%N /\
     exists f k', fingerprint_pattern f = Some i /\ supports s !! f = Some k' /\ (k <= k')%N) /\
  (forall i n, negative_evidence s !! i = Some n -> (1 <= n < 3)%N).
Proof.
  cbv zeta. rewrite run_fresh. destruct (foldl_justified ops (empty_state t)) as [Hp Hn]; [done|by split|done].
Qed.

(** persistence is transparent.  A process that reloads its store at any
    points sees exactly the supports a process that never reloads would see:
    the number of observations of each fingerprint that matches a pattern,
    saturated at [u32::MAX]. *)
Theorem supports_survive_reloads (t : N) (ops : list op) (f : FailureFingerprint) :
  is_Some (fingerprint_pattern f) ->
  default 0%N (supports (st (run (fresh t) ops)) !! f) = N.min (N.of_nat (count (OpObserve f) ops)) u32_max.
Proof. intros Hf. by rewrite run_fresh, supports_count. Qed.

Lemma supports_survive_reloads_witness :
  default 0%N (supports (st (run (fresh 5) [OpObserve missing_target; OpReload; OpNegative ForcePlanWhenMissingTarget;
    OpObserve missing_target])) !! missing_target) = 2%N.
Proof. apply supports_survive_reloads. eexists. reflexivity. Defined.

(** a promotion is withdrawn by the third piece of negative evidence and
    not before.  Starting from a promoted invariant with no negative evidence,
    and with no further failure of its pattern and no reload, it stays
    promoted through fewer than three records, and the third one demotes it. *)
Theorem demotion_takes_three (t : N) (pre ops : list op) (i : DiscoveredInvariant) (k : N) :
  let w := run (fresh t) pre in
  promoted (st w) !! i = Some k -> negative_evidence (st w) !! i = None -> Forall (quiet i) ops ->
  (count (OpNegative i) ops < 3 -> promoted (st (run w ops)) !! i = Some k) /\
  (count (OpNegative i) ops = 2 -> promoted (st (record_negative_evidence i (run w ops))) !! i = None).
Proof.
  intros w Hp Hn Hq. destruct (run_refines (fresh t) pre (fresh_in_step t)) as [Hs _].
  destruct (run_refines w ops Hs) as [Hs' He]. split; intros Hc.
  - rewrite He. destruct (quiet_keeps i ops (st w) Hq) as [-> _]; [rewrite Hn; cbn; lia|done].
  - destruct (step_refines _ (OpNegative i) Hs') as [_ Hstep]. cbn [step] in Hstep. rewrite Hstep, He. cbn.
    destruct (quiet_keeps i ops (st w) Hq) as [_ ->]; [rewrite Hn; cbn; lia|]. rewrite Hn, Hc. cbn.
    apply lookup_delete_eq.
Qed.

Lemma demotion_takes_three_witness :
  promoted (st (record_negative_evidence ForcePlanWhenMissingTarget
    (run (run (fresh 3) three_observations) (replicate 2 (OpNegative ForcePlanWhenMissingTarget)))))
    !! ForcePlanWhenMissingTarget = None.
Proof.
  apply (demotion_takes_three 3 three_observations (replicate 2 (OpNegative ForcePlanWhenMissingTarget)) ForcePlanWhenMissingTarget 3).
  - vm_compute. reflexivity.
  - vm_compute. reflexivity.
  - repeat constructor.
  - vm_compute. reflexivity.
Defined.
