(* ===== verification/ConstraintProps.v ===== *)
(** * Properties of the constraint engine

    Rewrites are stable, the verifier contract against the obligations of the
    event log, and the trajectory score. *)
From S2P Require Import Prelude Json Wire EventInvariants ConstraintEngine Discovery.
Import EventKind.

Definition with_action (a : ConstraintAction) (ctx : ConstraintContext) : ConstraintContext :=
  {| ctx_state := ctx_state ctx; ctx_route := ctx_route ctx; ctx_action := Some a;
     deterministic_route := deterministic_route ctx |}.

(** The order in which the map yields the promoted invariants is irrelevant. *)
Lemma discovered_order_irrelevant l1 l2 ctx : l1 ≡ₚ l2 ->
  evaluate_discovered_invariants l1 ctx = evaluate_discovered_invariants l2 ctx.
Proof.
  intros Hl. unfold evaluate_discovered_invariants.
  assert (existsb (discovered_applies ctx) l1 = existsb (discovered_applies ctx) l2) as ->; [|done].
  induction Hl as [|x l l' _ IH|x y l|l l' l'' _ IH1 _ IH2]; cbn; [done|by rewrite IH| |congruence].
  by rewrite !orb_assoc, (orb_comm (discovered_applies ctx x)).
Qed.

(** *** Trajectories *)

Definition step_penalty (s : TrajectoryStep) : Z :=
  ((if no_progress s then 1 else 0) + (if invalid_action s then 2 else 0))%Z.
Definition sumZ {A} (f : A -> Z) (l : list A) : Z := foldr (fun x acc => (f x + acc)%Z) 0%Z l.

Lemma i32_check_ok z : (-2147483648 <= z <= 2147483647)%Z -> i32_check z = Some z.
Proof. intros Hz. unfold i32_check. by rewrite (proj2 (Z.leb_le _ _)), (proj2 (Z.leb_le _ _)) by lia. Qed.

Lemma score_step_ok p q s (B n : Z) :
  (0 <= B)%Z -> (Z.abs (semantic_progress s) <= B)%Z -> (0 <= n)%Z -> (Z.abs p <= n * B)%Z -> (0 <= q <= n * 3)%Z ->
  ((n + 1) * (B + 3) <= 2147483647)%Z ->
  score_step (Some (p, q)) s = Some (p + semantic_progress s, q + step_penalty s)%Z.
Proof.
  intros HB Hs Hn Hp Hq Hb. unfold score_step, step_penalty. cbn [mbind option_bind].
  rewrite i32_check_ok by nia. cbn [mbind option_bind].
  destruct (no_progress s), (invalid_action s); cbn [mbind option_bind];
    repeat (rewrite i32_check_ok by nia; cbn [mbind option_bind]); do 2 f_equal; lia.
Qed.

Lemma score_fold l p q (B n : Z) :
  (0 <= B)%Z -> Forall (fun s => Z.abs (semantic_progress s) <= B)%Z l -> (0 <= n)%Z ->
  (Z.abs p <= n * B)%Z -> (0 <= q <= n * 3)%Z -> ((n + Z.of_nat (length l)) * (B + 3) <= 2147483647)%Z ->
  foldl score_step (Some (p, q)) l = Some (p + sumZ semantic_progress l, q + sumZ step_penalty l)%Z /\
  (Z.abs (p + sumZ semantic_progress l) <= (n + Z.of_nat (length l)) * B)%Z /\
  (0 <= q + sumZ step_penalty l <= (n + Z.of_nat (length l)) * 3)%Z.
Proof.
  intros HB Hl. revert p q n. induction Hl as [|s l Hs Hl IH]; intros p q n Hn Hp Hq Hb.
  { cbn. rewrite !Z.add_0_r. split; [done|lia]. }
  cbn [foldl length] in *. rewrite (score_step_ok p q s B n) by (lia || nia).
  assert (0 <= step_penalty s <= 3)%Z by (unfold step_penalty; destruct (no_progress s), (invalid_action s); lia).
  destruct (IH (p + semantic_progress s) (q + step_penalty s) (n + 1))%Z as (-> & Hp' & Hq'); [nia..|].
  cbn [sumZ foldr]. fold (sumZ semantic_progress l). fold (sumZ step_penalty l).
  split; [do 2 f_equal; lia|]. lia.
Qed.

(** ** Properties *)

(** a rewritten action is accepted.  When a state does not claim a Cargo
    project without a directory, the action the engine proposes instead of a
    refused bootstrap command is itself allowed: rewriting does not loop. *)
Theorem rewrite_is_accepted (ctx : ConstraintContext) a reason :
  (real_cargo_project (ctx_state ctx) = true -> real_path_exists (ctx_state ctx) = true) ->
  evaluate_constraint_context ctx = RewriteAction a reason ->
  evaluate_constraint_context (with_action a ctx) = Allow.
Proof.
  intros Hst. unfold evaluate_constraint_context. cbn.
  destruct (match deterministic_route ctx with Some _ => _ | None => _ end); [done|].
  destruct (match ctx_route ctx with Some _ => _ | None => _ end); [done|].
  destruct (ctx_action ctx) as [[]|]; cbn; split_ifs; intros [=]; subst; cbn; split_ifs; destruct_bools;
    intuition congruence.
Qed.

Lemma rewrite_is_accepted_witness :
  evaluate_constraint_context (with_action CargoNew
    {| ctx_state := default_constraint_state; ctx_route := Some Plan; ctx_action := Some CargoInit; deterministic_route := Some Plan |}) = Allow.
Proof. by apply (rewrite_is_accepted {| ctx_state := default_constraint_state; ctx_route := Some Plan; ctx_action := Some CargoInit; deterministic_route := Some Plan |} _
  "meta_invariant_tool_selection_correctness: missing target requires cargo new"). Defined.

(** the verifier contract against the event log.  In the state the log's
    own obligations produce, the contract accepts the policy update, the
    reward after it and the reward of a conclude route, but refuses
    [loop_verified] after a verify route: there the log expects
    [loop_verified], the contract [verifier_policy_updated]. *)
Theorem verifier_contract_and_obligations {V} `{Json V} (e : CanonEvent V) (p : PendingTransition) :
  required_successor e = Some p ->
  let last := Some (as_str (ev_kind e)) in
  let pending := Some (as_str (pt_expected p)) in
  match ev_kind e, pt_expected p with
  | RouteSelected, LoopVerified =>
      forall verified, meta_invariant_verifier_sequence_contract StepLoopVerified last pending verified <> None
  | LoopVerified, _ =>
      pt_expected p = VerifierPolicyUpdated /\
      meta_invariant_verifier_sequence_contract StepVerifierPolicyUpdated last pending true = None
  | VerifierPolicyUpdated, _ | RouteSelected, LoopRewarded =>
      pt_expected p = LoopRewarded /\
      forall verified, meta_invariant_verifier_sequence_contract StepLoopRewarded last pending verified = None
  | _, _ => True
  end.
Proof.
  intros Hp last pending. unfold last, pending.
  unfold required_successor in Hp. destruct (ev_kind e) eqn:Hk; try done.
  all: cbn in Hp; try (injection Hp as <-; done).
  by destruct (pt_expected p).
Qed.

Lemma verifier_contract_and_obligations_witness :
  meta_invariant_verifier_sequence_contract StepLoopVerified (Some "route_selected") (Some "loop_verified") true <> None.
Proof.
  refine (verifier_contract_and_obligations (sample_route "r" "verify" 1)
    {| pt_expected := LoopVerified; pt_parent := "r"; pt_source_kind := RouteSelected; pt_note := "approved_route=verify" |} _ true).
  vm_compute. reflexivity.
Defined.

(** on trajectories whose length and progress are within the [i32] range
    the score does not overflow, and it is the sum of the progress less one
    per step without progress and two per invalid action. *)
Theorem score_trajectory_exact (steps : list TrajectoryStep) (B : Z) :
  (0 <= B)%Z -> Forall (fun s => Z.abs (semantic_progress s) <= B)%Z steps ->
  (Z.of_nat (length steps) * (B + 3) <= 2147483647)%Z ->
  score_trajectory steps = Some
    {| total := sumZ semantic_progress steps - sumZ step_penalty steps;
       progress := sumZ semantic_progress steps; penalties := sumZ step_penalty steps |}%Z.
Proof.
  intros HB Hs Hb. unfold score_trajectory.
  destruct (score_fold steps 0 0 B 0) as (-> & Hp & Hq); [lia || done..|]. rewrite !Z.add_0_l in *. cbn [mbind option_bind].
  by rewrite i32_check_ok by nia.
Qed.

Definition two_steps : list TrajectoryStep :=
  [{| semantic_progress := 4; no_progress := false; invalid_action := true |};
   {| semantic_progress := -1; no_progress := true; invalid_action := false |}].

Lemma score_trajectory_exact_witness :
  score_trajectory two_steps = Some {| total := 0; progress := 3; penalties := 3 |}.
Proof. apply (score_trajectory_exact two_steps 4); [lia|repeat constructor; cbn; lia|cbn; lia]. Defined.
