(* ===== verification/CodeGraph.v ===== *)
(** * The code graph projection ([canon-storage-eventlog/src/replay.rs])

    Nodes and edges with dense [u32] identifiers, the interned file table and
    the symbol index, and how each compiler event changes them.  Identifiers
    are taken with [as u32] from vector lengths. *)
From S2P Require Import Prelude.

Record CodeGraphNode := {
  node_id : N; node_kind : string; symbol : string; file_id : option N; node_line : option N
}.
Record CodeGraphEdge := { src : N; dst : N; edge_kind : string }.

(** [CodeGraphProjection] with the [symbol_to_id] map that travels with it. *)
Record Graph := {
  nodes : list CodeGraphNode;
  edges : list CodeGraphEdge;
  files : list string;
  symbol_to_id : gmap string N
}.

(** The events of [RustcEvent] that carry graph data, with the fields the
    projection reads; the seven others only count as applied. *)
Inductive RustcEvent :=
  | SessionStart (project : string)
  | NodeDefined (symbol kind file : string) (line : N)
  | NodeUpdated (symbol kind file : string) (line : N)
  | NodeRemoved (symbol : string)
  | EdgeDefined (src dst kind : string)
  | EdgeRemoved (src dst kind : string)
  | FileSeen (path : string)
  | OtherRustcEvent.

Definition empty_graph : Graph := {| nodes := []; edges := []; files := []; symbol_to_id := ∅ |}.

(** [iter().position(|p| p == x)]. *)
Fixpoint index_of (x : string) (l : list string) : option nat :=
  match l with
  | [] => None
  | y :: l' => if bool_decide (y = x) then Some 0 else S <$> index_of x l'
  end.

(** The identifier of a file name, appended to the table when it is new. *)
Definition intern_file (file : string) (fs : list string) : list string * option N :=
  if bool_decide (file = "") then (fs, None)
  else match index_of file fs with
       | Some i => (fs, Some (wrap32 (N.of_nat i)))
       | None => (fs ++ [file], Some (wrap32 (lenN fs)))
       end.

Definition positive_line (line : N) : option N := if (0 <? line)%N then Some line else None.

(** The branch that updates the node a symbol already has. *)
Definition update_node (id : N) (node : CodeGraphNode) (kind file : string) (line : N) (g : Graph) : Graph :=
  let '(fs, f) := intern_file file (files g) in
  let node' := {| node_id := node_id node; node_kind := kind; symbol := symbol node;
                  file_id := if bool_decide (file = "") then file_id node else f;
                  node_line := match positive_line line with Some l => Some l | None => node_line node end |} in
  {| nodes := <[ N.to_nat id := node' ]> (nodes g); edges := edges g; files := fs; symbol_to_id := symbol_to_id g |}.

(** The branch that appends a node. *)
Definition append_node (sym kind file : string) (line : N) (g : Graph) : Graph :=
  let '(fs, f) := intern_file file (files g) in
  let id := wrap32 (lenN (nodes g)) in
  {| nodes := nodes g ++ [{| node_id := id; node_kind := kind; symbol := sym; file_id := f; node_line := positive_line line |}];
     edges := edges g; files := fs;
     symbol_to_id := if bool_decide (sym = "") then symbol_to_id g else <[ sym := id ]> (symbol_to_id g) |}.

(** The arm of [NodeDefined] and [NodeUpdated]. *)
Definition define_node (sym kind file : string) (line : N) (g : Graph) : Graph * bool :=
  if bool_decide (kind = "") then (g, false)
  else if bool_decide (sym = "") && negb (bool_decide (kind = "MODULE")) then (g, false)
  else
    let existing :=
      if bool_decide (sym = "") then None
      else id ← symbol_to_id g !! sym; node ← nodes g !! N.to_nat id; Some (id, node) in
    match existing with
    | Some (id, node) => (update_node id node kind file line g, true)
    | None => (append_node sym kind file line g, true)
    end.

(** [Vec::swap_remove] at an index in range. *)
Definition swap_remove {A} (i : nat) (l : list A) : list A :=
  match last l with
  | Some x => if bool_decide (i = length l - 1) then take i l else <[ i := x ]> (take (length l - 1) l)
  | None => l
  end.

Definition retarget (old new : N) (e : CodeGraphEdge) : CodeGraphEdge :=
  {| src := if (src e =? old)%N then new else src e;
     dst := if (dst e =? old)%N then new else dst e;
     edge_kind := edge_kind e |}.

Definition set_node_id (id : N) (n : CodeGraphNode) : CodeGraphNode :=
  {| node_id := id; node_kind := node_kind n; symbol := symbol n; file_id := file_id n; node_line := node_line n |}.

(** [delete_node]. *)
Definition delete_node (id : N) (g : Graph) : Graph * bool :=
  let idx := N.to_nat id in
  match nodes g !! idx with
  | None => (g, false)
  | Some removed =>
      let last_idx := length (nodes g) - 1 in
      let ns := swap_remove idx (nodes g) in
      let index := if bool_decide (symbol removed = "") then symbol_to_id g else delete (symbol removed) (symbol_to_id g) in
      let es := filter (fun e => src e <> id /\ dst e <> id) (edges g) in
      if bool_decide (idx = last_idx) then
        ({| nodes := ns; edges := es; files := files g; symbol_to_id := index |}, true)
      else
        let index' :=
          match ns !! idx with
          | Some node => if bool_decide (symbol node = "") then index else <[ symbol node := id ]> index
          | None => index
          end in
        ({| nodes := alter (set_node_id id) idx ns;
            edges := retarget (wrap32 (N.of_nat last_idx)) id <$> es;
            files := files g; symbol_to_id := index' |}, true)
  end.

(** [apply_rustc_event_to_graph]. *)
Definition apply_rustc_event_to_graph (clear_on_session : bool) (ev : RustcEvent) (g : Graph) : Graph * bool :=
  match ev with
  | SessionStart _ => (if clear_on_session then empty_graph else g, true)
  | NodeDefined sym kind file line | NodeUpdated sym kind file line => define_node sym kind file line g
  | EdgeDefined s d kind =>
      match symbol_to_id g !! s, symbol_to_id g !! d with
      | Some si, Some di =>
          ({| nodes := nodes g; edges := edges g ++ [{| src := si; dst := di; edge_kind := kind |}];
              files := files g; symbol_to_id := symbol_to_id g |}, true)
      | _, _ => (g, false)
      end
  | NodeRemoved sym =>
      match symbol_to_id g !! sym with
      | Some id => delete_node id g
      | None => (g, false)
      end
  | EdgeRemoved s d kind =>
      match symbol_to_id g !! s, symbol_to_id g !! d with
      | Some si, Some di =>
          let es := filter (fun e => ~ (src e = si /\ dst e = di /\ edge_kind e = kind)) (edges g) in
          ({| nodes := nodes g; edges := es; files := files g; symbol_to_id := symbol_to_id g |},
           negb (length (edges g) =? length es))
      | _, _ => (g, false)
      end
  | FileSeen path =>
      (if negb (bool_decide (path = "")) && negb (bool_decide (path ∈ files g))
       then {| nodes := nodes g; edges := edges g; files := files g ++ [path]; symbol_to_id := symbol_to_id g |}
       else g, true)
  | OtherRustcEvent => (g, true)
  end.

(** The loop of [replay_graph_from_tlog] over the extracted events of a log
    directory. *)
Definition replay_graph_from_tlog (evs : list RustcEvent) : Graph :=
  foldl (fun g ev => (apply_rustc_event_to_graph false ev g).1) empty_graph evs.

(** The loop of [replay_graph_for_crate]. *)
Definition replay_crate_step (crate_name : string) (acc : Graph * bool) (ev : RustcEvent) : Graph * bool :=
  let '(g, in_target) := acc in
  match ev with
  | SessionStart project => if bool_decide (project = crate_name) then (empty_graph, true) else (g, false)
  | _ => if in_target then ((apply_rustc_event_to_graph false ev g).1, in_target) else (g, in_target)
  end.
Definition replay_graph_for_crate (crate_name : string) (evs : list RustcEvent) : Graph :=
  (foldl (replay_crate_step crate_name) (empty_graph, false) evs).1.

(** [rebuild_symbol_index]. *)
Definition rebuild_symbol_index (ns : list CodeGraphNode) : gmap string N :=
  foldl (fun m n => <[ symbol n := node_id n ]> m) ∅ ns.
