(* ===== verification/CodeGraphInv.v ===== *)
(** * The code graph as a graph over symbols

    The projection's invariant, the abstract graph it represents (nodes and
    edges named by symbols, no identifiers) and the proof that every event
    does to the abstract graph what its name says. *)
From S2P Require Import Prelude CodeGraph.

(** ** Invariant *)

Definition node_ok (fs : list string) (n : CodeGraphNode) : Prop :=
  node_kind n <> "" /\ (forall l, node_line n = Some l -> (0 < l)%N) /\
  (forall f, file_id n = Some f -> N.to_nat f < length fs).

Definition linked (g : Graph) (id : N) : Prop :=
  exists n, nodes g !! N.to_nat id = Some n /\ symbol n <> "".

Record wf (g : Graph) : Prop := {
  wf_nodes : forall i n, nodes g !! i = Some n -> node_id n = N.of_nat i /\ node_ok (files g) n;
  wf_index : forall s id, symbol_to_id g !! s = Some id ->
    s <> "" /\ exists n, nodes g !! N.to_nat id = Some n /\ symbol n = s;
  wf_indexed : forall i n, nodes g !! i = Some n -> symbol n <> "" -> symbol_to_id g !! symbol n = Some (N.of_nat i);
  wf_edges : forall e, e ∈ edges g -> linked g (src e) /\ linked g (dst e);
  wf_files : NoDup (files g) /\ "" ∉ files g
}.

(** Room for one more node and one more file below [2^32]. *)
Definition room (g : Graph) : Prop := (lenN (nodes g) < 4294967296 /\ lenN (files g) < 4294967296)%N.

Lemma wf_empty : wf empty_graph.
Proof.
  split; cbn; [done|done|done|by intros e ?%elem_of_nil|]. split; [constructor|by intros ?%elem_of_nil].
Qed.

(** ** The abstract graph *)

Record NodeInfo := { i_kind : string; i_file : option string; i_line : option N }.
Record AGraph := { a_nodes : gmap string NodeInfo; a_edges : list (string * string * string); a_files : list string }.

Definition info (fs : list string) (n : CodeGraphNode) : NodeInfo :=
  {| i_kind := node_kind n; i_file := file_id n ≫= fun f => fs !! N.to_nat f; i_line := node_line n |}.
Definition sym_at (g : Graph) (id : N) : string := default "" (symbol <$> nodes g !! N.to_nat id).
Definition edge_syms (g : Graph) (e : CodeGraphEdge) : string * string * string :=
  (sym_at g (src e), sym_at g (dst e), edge_kind e).
Definition abs (g : Graph) : AGraph :=
  {| a_nodes := omap (fun id => info (files g) <$> nodes g !! N.to_nat id) (symbol_to_id g);
     a_edges := edge_syms g <$> edges g;
     a_files := files g |}.

(** The file table gains a name it lacks. *)
Definition add_file (file : string) (fs : list string) : list string :=
  if bool_decide (file = "" \/ file ∈ fs) then fs else fs ++ [file].

Definition no_info : NodeInfo := {| i_kind := ""; i_file := None; i_line := None |}.
Definition merge_info (kind file : string) (line : N) (old : NodeInfo) : NodeInfo :=
  {| i_kind := kind; i_file := if bool_decide (file = "") then i_file old else Some file;
     i_line := match positive_line line with Some l => Some l | None => i_line old end |}.

Definition a_define (sym kind file : string) (line : N) (a : AGraph) : AGraph * bool :=
  if bool_decide (kind = "" \/ (sym = "" /\ kind <> "MODULE")) then (a, false)
  else ({| a_nodes := if bool_decide (sym = "") then a_nodes a
                      else <[ sym := merge_info kind file line (default no_info (a_nodes a !! sym)) ]> (a_nodes a);
           a_edges := a_edges a; a_files := add_file file (a_files a) |}, true).

(** What each event means for a graph over symbols. *)
Definition a_step (clear_on_session : bool) (ev : RustcEvent) (a : AGraph) : AGraph * bool :=
  match ev with
  | SessionStart _ => (if clear_on_session then {| a_nodes := ∅; a_edges := []; a_files := [] |} else a, true)
  | NodeDefined s k f l | NodeUpdated s k f l => a_define s k f l a
  | EdgeDefined s d k =>
      if bool_decide (is_Some (a_nodes a !! s) /\ is_Some (a_nodes a !! d))
      then ({| a_nodes := a_nodes a; a_edges := a_edges a ++ [(s, d, k)]; a_files := a_files a |}, true) else (a, false)
  | NodeRemoved s =>
      if bool_decide (is_Some (a_nodes a !! s))
      then ({| a_nodes := delete s (a_nodes a);
               a_edges := filter (fun e => e.1.1 <> s /\ e.1.2 <> s) (a_edges a); a_files := a_files a |}, true)
      else (a, false)
  | EdgeRemoved s d k =>
      if bool_decide (is_Some (a_nodes a !! s) /\ is_Some (a_nodes a !! d))
      then ({| a_nodes := a_nodes a; a_edges := filter (fun e => e <> (s, d, k)) (a_edges a); a_files := a_files a |},
            bool_decide ((s, d, k) ∈ a_edges a))
      else (a, false)
  | FileSeen p => ({| a_nodes := a_nodes a; a_edges := a_edges a; a_files := add_file p (a_files a) |}, true)
  | OtherRustcEvent => (a, true)
  end.

(** ** Lookups *)

Lemma wf_lookup g s id : wf g -> symbol_to_id g !! s = Some id ->
  exists n, nodes g !! N.to_nat id = Some n /\ symbol n = s /\ s <> "" /\ a_nodes (abs g) !! s = Some (info (files g) n).
Proof.
  intros Hwf Hs. destruct (wf_index _ Hwf _ _ Hs) as (Hne & n & Hn & Hsym). exists n. split_and!; try done.
  cbn. rewrite lookup_omap, Hs. cbn. by rewrite Hn.
Qed.

Lemma abs_dom g s : wf g -> is_Some (a_nodes (abs g) !! s) <-> is_Some (symbol_to_id g !! s).
Proof.
  intros Hwf. split.
  - cbn. rewrite lookup_omap. destruct (symbol_to_id g !! s); [eauto|by intros []].
  - intros [id Hid]. destruct (wf_lookup _ _ _ Hwf Hid) as (n & _ & _ & _ & ->). eauto.
Qed.

Lemma linked_index g id : wf g -> linked g id -> symbol_to_id g !! sym_at g id = Some id /\ sym_at g id <> "".
Proof.
  intros Hwf (n & Hn & Hs). unfold sym_at. rewrite Hn. cbn. split; [|done].
  rewrite (wf_indexed _ Hwf _ _ Hn Hs). by rewrite N2Nat.id.
Qed.

Lemma sym_at_eq g s id i : wf g -> symbol_to_id g !! s = Some id -> linked g i -> sym_at g i = s <-> i = id.
Proof.
  intros Hwf Hs Hi. destruct (linked_index _ _ Hwf Hi) as [Hx _]. split; [intros <-; congruence|].
  intros ->. destruct (wf_lookup _ _ _ Hwf Hs) as (n & Hn & Hsym & _). unfold sym_at. by rewrite Hn.
Qed.

Lemma index_linked g s id : wf g -> symbol_to_id g !! s = Some id -> linked g id.
Proof. intros Hwf Hs. destruct (wf_index _ Hwf _ _ Hs) as (Hne & n & Hn & <-). by exists n. Qed.

(** ** Files *)

Lemma index_of_Some x l i : index_of x l = Some i -> l !! i = Some x.
Proof.
  revert i. induction l as [|y l IH]; intros i; cbn; [done|]. case_bool_decide; [intros [= <-]; by subst|].
  destruct (index_of x l) as [j|]; [|done]. intros [= <-]. by apply IH.
Qed.
Lemma index_of_None x l : index_of x l = None <-> x ∉ l.
Proof.
  induction l as [|y l IH]; cbn; [split; [by intros _ ?%elem_of_nil|done]|].
  rewrite not_elem_of_cons. case_bool_decide; [subst; split; [done|by intros []]|].
  destruct (index_of x l); cbn; split; try done; [|intros _; split; [congruence|by apply IH]].
  intros [_ Hx]. by apply IH in Hx.
Qed.

Lemma intern_spec file fs : NoDup fs /\ "" ∉ fs -> (lenN fs < 4294967296)%N ->
  (intern_file file fs).1 = add_file file fs /\ (NoDup (add_file file fs) /\ "" ∉ add_file file fs) /\
  match (intern_file file fs).2 with
  | None => file = ""
  | Some f => file <> "" /\ add_file file fs !! N.to_nat f = Some file
  end.
Proof.
  intros [Hnd Hne] Hlen. unfold intern_file, add_file. case_bool_decide as He.
  { rewrite bool_decide_eq_true_2 by by left. done. }
  destruct (index_of file fs) as [i|] eqn:Hi.
  - apply index_of_Some in Hi. rewrite bool_decide_eq_true_2 by (right; by eapply list_elem_of_lookup_2).
    cbn. split_and!; try done. rewrite wrap32_small; [by rewrite Nat2N.id|].
    apply lookup_lt_Some in Hi. unfold lenN in Hlen. lia.
  - apply index_of_None in Hi. rewrite bool_decide_eq_false_2 by tauto. cbn. split_and!; try done.
    + by apply NoDup_snoc.
    + rewrite elem_of_app, list_elem_of_singleton. intros [|]; [done|congruence].
    + rewrite wrap32_small by done. unfold lenN. rewrite Nat2N.id. by apply list_lookup_middle.
Qed.

Lemma add_file_prefix file fs : fs `prefix_of` add_file file fs.
Proof. unfold add_file. case_bool_decide; [done|]. by eexists. Qed.

Lemma node_ok_prefix fs fs' n : fs `prefix_of` fs' -> node_ok fs n -> node_ok fs' n /\ info fs' n = info fs n.
Proof.
  intros Hp (Hk & Hl & Hf). split.
  - split_and!; [done..|]. intros f Hf'. apply prefix_length in Hp. specialize (Hf f Hf'). lia.
  - unfold info. destruct (file_id n) as [f|] eqn:E; [|done]. cbn. f_equal.
    specialize (Hf f eq_refl). destruct (lookup_lt_is_Some_2 fs (N.to_nat f) Hf) as [x Hx].
    rewrite Hx. by eapply prefix_lookup_Some.
Qed.

(** ** Defining nodes *)

(** Changes that keep every node's symbol keep links and edge names. *)
Lemma same_symbols g g' :
  (forall i s, symbol <$> nodes g !! i = Some s -> symbol <$> nodes g' !! i = Some s) ->
  (forall id, linked g id -> linked g' id /\ sym_at g' id = sym_at g id).
Proof.
  intros Hs id (n & Hn & Hne). specialize (Hs (N.to_nat id) (symbol n)). rewrite Hn in Hs. specialize (Hs eq_refl).
  unfold sym_at. rewrite Hs, Hn. split; [|done].
  destruct (nodes g' !! N.to_nat id) as [n'|] eqn:Hn'; [|done]. injection Hs as Hs. exists n'. split; [done|congruence].
Qed.

Lemma edge_syms_same g g' : wf g ->
  (forall id, linked g id -> linked g' id /\ sym_at g' id = sym_at g id) ->
  edge_syms g' <$> edges g = edge_syms g <$> edges g.
Proof.
  intros Hwf Hl. apply list_fmap_ext. intros i e He. apply list_elem_of_lookup_2 in He.
  destruct (wf_edges _ Hwf _ He) as [Hs Hd]. unfold edge_syms.
  by rewrite (proj2 (Hl _ Hs)), (proj2 (Hl _ Hd)).
Qed.

Lemma update_refines g sym id node kind file line :
  wf g -> room g -> symbol_to_id g !! sym = Some id -> nodes g !! N.to_nat id = Some node -> kind <> "" ->
  let g' := update_node id node kind file line g in
  wf g' /\ abs g' =
    {| a_nodes := <[ sym := merge_info kind file line (info (files g) node) ]> (a_nodes (abs g));
       a_edges := a_edges (abs g); a_files := add_file file (a_files (abs g)) |}.
Proof.
  intros Hwf [_ Hroom] Hidx Hnode Hkind. unfold update_node.
  destruct (intern_spec file (files g) (wf_files _ Hwf) Hroom) as (Hfs & Hok & Hf).
  destruct (intern_file file (files g)) as [fs f]. cbn [fst snd] in Hfs, Hf. subst fs.
  set (node' := {| node_id := _ |}). set (g' := {| nodes := _ |}). cbv zeta.
  destruct (wf_nodes _ Hwf _ _ Hnode) as [Hid Hnok].
  pose proof (add_file_prefix file (files g)) as Hpre.
  destruct (wf_lookup _ _ _ Hwf Hidx) as (node0 & Hnode0 & Hsym & Hne & _).
  assert (node0 = node) as -> by congruence.
  assert (Hlook : forall i, nodes g' !! i = if decide (i = N.to_nat id) then Some node' else nodes g !! i).
  { intros i. cbn. case_decide as Hi; [subst i; by rewrite list_lookup_insert_eq by (eapply lookup_lt_Some; exact Hnode)|].
    by rewrite list_lookup_insert_ne by done. }
  assert (Hlinked : forall i, linked g i -> linked g' i /\ sym_at g' i = sym_at g i).
  { apply same_symbols. intros i s Hi. rewrite Hlook. case_decide as Hd; [|done]. by rewrite Hd, Hnode in Hi. }
  assert (Hinfo : node_ok (add_file file (files g)) node' /\
    info (add_file file (files g)) node' = merge_info kind file line (info (files g) node)).
  { destruct (node_ok_prefix _ _ node Hpre Hnok) as [(_ & Hl & Hfile) Hi]. unfold info in Hi. injection Hi as Hi.
    unfold node_ok, info, merge_info, node'. cbn. split_and!; [done| | |].
    - intros l. unfold positive_line. destruct (0 <? line)%N eqn:Hz; [intros [= <-]; by apply N.ltb_lt|apply Hl].
    - intros f'. case_bool_decide; [apply Hfile|]. intros ->. destruct Hf as [_ Hf]. by apply lookup_lt_Some in Hf.
    - f_equal. case_bool_decide; [done|]. destruct f as [f|]; [|done]. by destruct Hf. }
  split.
  - split; cbn [edges files symbol_to_id].
    + intros i n. rewrite Hlook. case_decide as Hd; [subst i; intros [= <-]; split; [done|apply Hinfo]|].
      intros Hn. destruct (wf_nodes _ Hwf _ _ Hn) as [Hi Ho]. split; [done|]. by eapply node_ok_prefix.
    + intros s i Hs. destruct (wf_index _ Hwf _ _ Hs) as (Hse & n & Hn & Hns). split; [done|]. rewrite Hlook.
      case_decide as Hd; [|eauto]. exists node'. split; [done|]. rewrite Hd, Hnode in Hn. injection Hn as <-. done.
    + intros i n. rewrite Hlook. case_decide as Hd; [subst i; intros [= <-]|apply (wf_indexed _ Hwf)].
      intros _. cbn. by rewrite Hsym, Hidx, N2Nat.id.
    + intros e He. destruct (wf_edges _ Hwf _ He) as [H1 H2]. split; by apply Hlinked.
    + done.
  - unfold abs at 1. cbn [edges files symbol_to_id]. f_equal; [|exact (edge_syms_same g g' Hwf Hlinked)].
    apply map_eq. intros s. rewrite lookup_omap, lookup_insert. cbn. case_decide as Hs.
    + subst s. rewrite Hidx. cbn. rewrite Hlook, decide_True by done. cbn. f_equal. apply Hinfo.
    + rewrite lookup_omap. destruct (symbol_to_id g !! s) as [i|] eqn:Hi; [|done]. cbn. rewrite Hlook.
      destruct (wf_index _ Hwf _ _ Hi) as (_ & n & Hn & Hns).
      rewrite decide_False; [|intros Hd; rewrite Hd, Hnode in Hn; congruence].
      rewrite Hn. cbn. f_equal. apply node_ok_prefix; [done|]. by apply (wf_nodes _ Hwf _ _ Hn).
Qed.

Lemma append_refines g sym kind file line :
  wf g -> room g -> symbol_to_id g !! sym = None -> kind <> "" ->
  let g' := append_node sym kind file line g in
  wf g' /\ abs g' =
    {| a_nodes := if bool_decide (sym = "") then a_nodes (abs g)
                  else <[ sym := merge_info kind file line no_info ]> (a_nodes (abs g));
       a_edges := a_edges (abs g); a_files := add_file file (a_files (abs g)) |}.
Proof.
  intros Hwf [Hn Hroom] Hidx Hkind. unfold append_node.
  destruct (intern_spec file (files g) (wf_files _ Hwf) Hroom) as (Hfs & Hok & Hf).
  destruct (intern_file file (files g)) as [fs f]. cbn [fst snd] in Hfs, Hf. subst fs.
  rewrite (wrap32_small (lenN (nodes g))) by done.
  set (node' := {| node_id := _ |}). set (g' := {| nodes := _ |}). cbv zeta.
  pose proof (add_file_prefix file (files g)) as Hpre.
  assert (Hold : forall i n, nodes g !! i = Some n -> nodes g' !! i = Some n).
  { intros i n Hi. cbn. by rewrite lookup_app_l by by eapply lookup_lt_Some. }
  assert (Hnew : nodes g' !! length (nodes g) = Some node') by (cbn; by apply list_lookup_middle).
  assert (Hcase : forall i n, nodes g' !! i = Some n -> nodes g !! i = Some n \/ (i = length (nodes g) /\ n = node')).
  { intros i n. cbn. rewrite lookup_app_Some, list_lookup_singleton_Some. intros [|(? & ? & <-)]; [by left|right; split; [lia|done]]. }
  assert (Hlinked : forall i, linked g i -> linked g' i /\ sym_at g' i = sym_at g i).
  { apply same_symbols. intros i s Hi. destruct (nodes g !! i) as [n|] eqn:E; [|done]. by rewrite (Hold _ _ E). }
  assert (Hinfo : node_ok (add_file file (files g)) node' /\
    info (add_file file (files g)) node' = merge_info kind file line no_info).
  { unfold node_ok, info, merge_info, node'. cbn. split_and!; [done| | |].
    - intros l. unfold positive_line. destruct (0 <? line)%N eqn:Hz; [intros [= <-]; by apply N.ltb_lt|done].
    - intros f' ->. destruct Hf as [_ Hf]. by apply lookup_lt_Some in Hf.
    - f_equal; [|by destruct (positive_line line)].
      destruct f as [f|]; cbn; [destruct Hf as [He ->]; by rewrite bool_decide_eq_false_2|by rewrite bool_decide_eq_true_2]. }
  assert (Hindex : forall s, symbol_to_id g' !! s =
    if decide (s = sym /\ sym <> "") then Some (lenN (nodes g)) else symbol_to_id g !! s).
  { intros s. cbn. case_bool_decide as He; [rewrite decide_False by tauto; done|].
    rewrite lookup_insert. case_decide; [subst; by rewrite decide_True|by rewrite decide_False by naive_solver]. }
  assert (Hlen : N.to_nat (lenN (nodes g)) = length (nodes g)) by (unfold lenN; apply Nat2N.id).
  split.
  - split.
    + intros i n [Hi|[-> ->]]%Hcase; [|split; [done|apply Hinfo]].
      destruct (wf_nodes _ Hwf _ _ Hi) as [Hid Ho]. split; [done|]. by eapply node_ok_prefix.
    + intros s i. rewrite Hindex. destruct (decide (s = sym /\ sym <> "")) as [Hs|Hs]; [intros Hi; apply (inj Some) in Hi; subst i|].
      * destruct Hs as [-> Hs]. split; [done|]. exists node'. by rewrite Hlen.
      * intros Hi. destruct (wf_index _ Hwf _ _ Hi) as (Hse & n & Hnn & Hns). split; [done|]. eauto.
    + intros i n [Hi|[-> ->]]%Hcase Hne; rewrite Hindex.
      * rewrite decide_False; [by apply (wf_indexed _ Hwf)|].
        intros [Heq _]. rewrite <- Heq, (wf_indexed _ Hwf _ _ Hi Hne) in Hidx. done.
      * by rewrite decide_True.
    + intros e He. destruct (wf_edges _ Hwf _ He) as [H1 H2]. split; by apply Hlinked.
    + done.
  - unfold abs at 1. f_equal; [|exact (edge_syms_same g g' Hwf Hlinked)].
    apply map_eq. intros s. rewrite lookup_omap, Hindex.
    assert (Hkeep : symbol_to_id g !! s ≫= (fun id => info (files g') <$> nodes g' !! N.to_nat id)
                    = a_nodes (abs g) !! s).
    { cbn [a_nodes abs]. rewrite lookup_omap. destruct (symbol_to_id g !! s) as [i|] eqn:Hi; [|done]. cbn.
      destruct (wf_index _ Hwf _ _ Hi) as (_ & n & Hnn & Hns). rewrite Hnn. rewrite (Hold _ _ Hnn : (_ ++ _) !! _ = _). cbn.
      f_equal. apply node_ok_prefix; [done|]. by apply (wf_nodes _ Hwf _ _ Hnn). }
    case_bool_decide as He; [rewrite decide_False by tauto; exact Hkeep|].
    rewrite lookup_insert. destruct (decide (sym = s)) as [<-|Hs].
    + rewrite decide_True by done. cbn [mbind option_bind]. rewrite Hlen, Hnew.
      cbn [fmap option_fmap option_map]. f_equal. apply Hinfo.
    + rewrite decide_False by naive_solver. exact Hkeep.
Qed.

(** ** Removing a node *)

Lemma swap_remove_lookup {A} (l : list A) i j : i < length l ->
  swap_remove i l !! j =
    if decide (j < length l - 1) then (if decide (j = i) then l !! (length l - 1) else l !! j) else None.
Proof.
  intros Hi. unfold swap_remove. destruct (last l) as [x|] eqn:Hx.
  2: { apply last_None in Hx. subst l. cbn in Hi. lia. }
  rewrite last_lookup in Hx. replace (pred (length l)) with (length l - 1) in Hx by lia.
  case_bool_decide as Hlast; [subst i|].
  - case_decide; [rewrite decide_False, lookup_take_lt by lia; done|apply lookup_take_ge; lia].
  - destruct (decide (j = i)) as [->|Hj].
    + rewrite list_lookup_insert_eq by (rewrite length_take; lia). by rewrite decide_True by lia.
    + rewrite list_lookup_insert_ne by done. case_decide; [by rewrite lookup_take_lt by lia|].
      apply lookup_take_ge. lia.
Qed.

Section Delete.
Context (g : Graph) (s : string) (id : N) (removed : CodeGraphNode).
Context (Hwf : wf g) (Hroom : room g) (Hidx : symbol_to_id g !! s = Some id) (Hrem : nodes g !! N.to_nat id = Some removed).

Notation last_ := (length (nodes g) - 1).
Notation L := (N.of_nat last_).
Notation g' := (delete_node id g).1.

Definition moved (i : N) : N := if (i =? N.of_nat (length (nodes g) - 1))%N then id else i.

Lemma delete_bounds : N.to_nat id < length (nodes g) /\ wrap32 L = L.
Proof.
  pose proof (lookup_lt_Some _ _ _ Hrem). split; [done|].
  apply wrap32_small. destruct Hroom as [Hn _]. unfold lenN in Hn. lia.
Qed.

Lemma delete_symbol : symbol removed = s /\ s <> "".
Proof.
  destruct (wf_index _ Hwf _ _ Hidx) as (Hs & n & Hn & Hsym). split; [congruence|done].
Qed.

Lemma delete_nodes j n : nodes g' !! j = Some n <->
  j < last_ /\ ((j <> N.to_nat id /\ nodes g !! j = Some n) \/
                (j = N.to_nat id /\ exists n0, nodes g !! last_ = Some n0 /\ n = set_node_id id n0)).
Proof.
  destruct delete_bounds as [Hi _].
  assert (Hl : forall i, nodes g' !! i = (if decide (i = N.to_nat id) then set_node_id id <$> swap_remove (N.to_nat id) (nodes g) !! i
                                          else swap_remove (N.to_nat id) (nodes g) !! i)).
  { intros i. unfold delete_node. rewrite Hrem. case_bool_decide as Hb; cbn.
    - case_decide as Hd; [|done]. rewrite swap_remove_lookup by done. by rewrite decide_False by lia.
    - case_decide as Hd; [subst i; apply list_lookup_alter_eq|by apply list_lookup_alter_ne]. }
  rewrite Hl, swap_remove_lookup by done.
  destruct (decide (j = N.to_nat id)) as [->|Hj], (decide (_ < last_)) as [Hlt|Hge]; cbn; try (split; [done|lia]).
  - split; [|intros [_ [[? _]|[_ (n0 & Hn0 & ->)]]]; [done|by rewrite Hn0]].
    destruct (nodes g !! last_) as [n0|]; [|done]. intros [= <-]. split; [done|]. right. eauto.
  - split; [intros Hn; split; [done|by left]|by intros [_ [[_ ?]|[? _]]]].
Qed.

Lemma delete_index t : symbol_to_id g' !! t =
  if decide (t = s) then None else moved <$> symbol_to_id g !! t.
Proof.
  destruct delete_bounds as [Hi _]. destruct delete_symbol as [Hsym Hne]. unfold delete_node. rewrite Hrem, Hsym.
  rewrite (bool_decide_eq_false_2 (s = "")) by done.
  assert (Hother : t <> s -> symbol_to_id g !! t <> Some id).
  { intros Ht Hx. destruct (wf_index _ Hwf _ _ Hx) as (_ & n & Hn & <-). congruence. }
  case_bool_decide as Hb; cbn.
  - rewrite lookup_delete. case_decide as Ht; [by rewrite decide_True|]. rewrite decide_False by done.
    destruct (symbol_to_id g !! t) as [i|] eqn:Hx; [|done]. cbn. unfold moved.
    destruct (i =? L)%N eqn:Hil; [|done]. apply N.eqb_eq in Hil. destruct (Hother ltac:(done)). f_equal. lia.
  - rewrite swap_remove_lookup, decide_True, decide_True by lia.
    destruct (nodes g !! last_) as [nl|] eqn:Hnl.
    2: { apply lookup_ge_None in Hnl. lia. }
    assert (Hkeep : t <> s -> symbol nl <> t \/ t = "" -> symbol_to_id g !! t = moved <$> symbol_to_id g !! t).
    { intros Ht Hnt. destruct (symbol_to_id g !! t) as [i|] eqn:Hx; [|done]. cbn. unfold moved.
      destruct (i =? L)%N eqn:Hil; [|done]. apply N.eqb_eq in Hil. subst i.
      destruct (wf_index _ Hwf _ _ Hx) as (Hte & n & Hn & Hnt'). rewrite Nat2N.id, Hnl in Hn. naive_solver. }
    assert (Hdel : symbol nl <> t \/ t = "" ->
      delete s (symbol_to_id g) !! t = if decide (t = s) then None else moved <$> symbol_to_id g !! t).
    { intros Hnt. destruct (decide (t = s)) as [->|Ht]; [by rewrite lookup_delete_eq|].
      rewrite lookup_delete_ne by done. by apply Hkeep. }
    destruct (decide (symbol nl = "")) as [He|He].
    { rewrite bool_decide_eq_true_2 by done. apply Hdel. destruct (decide (t = "")); [by right|left; congruence]. }
    rewrite bool_decide_eq_false_2 by done. rewrite lookup_insert.
    destruct (decide (symbol nl = t)) as [<-|Ht]; [|apply Hdel; by left]. pose proof (wf_indexed _ Hwf _ _ Hnl He) as Hx.
    rewrite decide_False by (intros Heq; rewrite Heq, Hidx in Hx; injection Hx as ->; lia).
    rewrite Hx. cbn. unfold moved. by rewrite N.eqb_refl.
Qed.

Lemma delete_edges : edges g' = retarget L id <$> filter (fun e => src e <> id /\ dst e <> id) (edges g).
Proof.
  destruct delete_bounds as [Hi Hw]. unfold delete_node. rewrite Hrem. case_bool_decide as Hb; cbn; [|by rewrite Hw].
  symmetry. rewrite <- list_fmap_id. apply list_fmap_ext. intros i e He.
  apply list_elem_of_lookup_2, list_elem_of_filter in He as [[Hs Hd] _]. destruct e as [a b k]. unfold retarget. cbn in *.
  rewrite (proj2 (N.eqb_neq a L)), (proj2 (N.eqb_neq b L)) by lia. done.
Qed.

Lemma moved_linked i : linked g i -> i <> id -> linked g' (moved i) /\ sym_at g' (moved i) = sym_at g i.
Proof.
  intros (n & Hn & Hne) Hi. pose proof (lookup_lt_Some _ _ _ Hn) as Hlt. destruct delete_bounds as [Hb _].
  assert (Hex : exists n', nodes g' !! N.to_nat (moved i) = Some n' /\ symbol n' = symbol n).
  { unfold moved. destruct (i =? L)%N eqn:Hil.
    - apply N.eqb_eq in Hil. exists (set_node_id id n). split; [|done]. apply delete_nodes.
      assert (N.to_nat i = last_) as Heq by lia. rewrite Heq in Hn. split; [lia|]. right. eauto.
    - apply N.eqb_neq in Hil. exists n. split; [|done]. apply delete_nodes. split; [lia|]. left. split; [lia|done]. }
  destruct Hex as (n' & Hn' & Hs). split; [exists n'; split; [done|congruence]|].
  unfold sym_at. rewrite Hn', Hn. cbn. done.
Qed.
End Delete.

Lemma delete_wf g s id removed : wf g -> room g -> symbol_to_id g !! s = Some id -> nodes g !! N.to_nat id = Some removed ->
  wf (delete_node id g).1.
Proof.
  intros Hwf Hroom Hidx Hrem. split.
  - intros j n (Hlt & [[Hj Hn]|[-> (n0 & Hn & ->)]])%(delete_nodes g id removed Hroom Hrem).
    + destruct (wf_nodes _ Hwf _ _ Hn) as [Hid Ho]. split; [done|]. unfold delete_node. rewrite Hrem. by case_bool_decide.
    + destruct (wf_nodes _ Hwf _ _ Hn) as [Hid Ho]. split; [cbn; lia|]. unfold delete_node. rewrite Hrem. by case_bool_decide.
  - intros t i. rewrite (delete_index g s id removed Hwf Hroom Hidx Hrem). destruct (decide (t = s)) as [|Ht]; [done|].
    destruct (symbol_to_id g !! t) as [i0|] eqn:Hi; [|done]. intros [= <-].
    destruct (wf_lookup _ _ _ Hwf Hi) as (n & Hn & Hs & Hne & _).
    assert (i0 <> id) as Hd by (intros ->; destruct (wf_lookup _ _ _ Hwf Hidx) as (n1 & Hn1 & Hs1 & _); congruence).
    destruct (moved_linked g id removed Hroom Hrem i0 (index_linked _ _ _ Hwf Hi) Hd) as [(n' & Hn' & _) Hsym].
    split; [done|]. exists n'. split; [done|]. unfold sym_at in Hsym. rewrite Hn', Hn in Hsym. cbn in Hsym. congruence.
  - intros j n (Hlt & [[Hj Hn]|[-> (n0 & Hn & ->)]])%(delete_nodes g id removed Hroom Hrem) Hne;
      rewrite (delete_index g s id removed Hwf Hroom Hidx Hrem); cbn in Hne |- *;
      pose proof (wf_indexed _ Hwf _ _ Hn Hne) as Hx.
    + rewrite decide_False by (intros Heq; rewrite Heq, Hidx in Hx; injection Hx as Hx; lia).
      rewrite Hx. cbn. unfold moved. by rewrite (proj2 (N.eqb_neq _ _)) by lia.
    + rewrite decide_False by (intros Heq; rewrite Heq, Hidx in Hx; injection Hx as Hx; lia).
      rewrite Hx. cbn. unfold moved. by rewrite N.eqb_refl, N2Nat.id.
  - intros e. rewrite (delete_edges g id removed Hroom Hrem). intros (e0 & -> & He)%list_elem_of_fmap.
    apply list_elem_of_filter in He as [[Hs Hd] He]. destruct (wf_edges _ Hwf _ He) as [H1 H2].
    split; by apply (moved_linked g id removed Hroom Hrem).
  - unfold delete_node. rewrite Hrem. case_bool_decide; apply (wf_files _ Hwf).
Qed.

Lemma delete_files g id : files (delete_node id g).1 = files g.
Proof. unfold delete_node. destruct (nodes g !! N.to_nat id); [|done]. by case_bool_decide. Qed.

Lemma delete_refines g s id removed : wf g -> room g -> symbol_to_id g !! s = Some id -> nodes g !! N.to_nat id = Some removed ->
  abs (delete_node id g).1 =
    {| a_nodes := delete s (a_nodes (abs g));
       a_edges := filter (fun e => e.1.1 <> s /\ e.1.2 <> s) (a_edges (abs g)); a_files := a_files (abs g) |}.
Proof.
  intros Hwf Hroom Hidx Hrem. pose proof (delete_wf _ _ _ _ Hwf Hroom Hidx Hrem) as Hwf'.
  unfold abs at 1. rewrite delete_files. f_equal.
  - apply map_eq. intros t. rewrite lookup_omap, (delete_index g s id removed Hwf Hroom Hidx Hrem).
    destruct (decide (t = s)) as [->|Ht]; [by rewrite lookup_delete_eq|]. rewrite lookup_delete_ne by done.
    cbn [a_nodes abs]. rewrite lookup_omap. destruct (symbol_to_id g !! t) as [i|] eqn:Hi; [|done]. cbn.
    destruct (wf_lookup _ _ _ Hwf Hi) as (n & Hn & Hs & Hne & _). pose proof (lookup_lt_Some _ _ _ Hn).
    assert (i <> id) as Hd by (intros ->; destruct (wf_lookup _ _ _ Hwf Hidx) as (n1 & Hn1 & Hs1 & _); congruence).
    destruct (delete_bounds g id removed Hroom Hrem) as [Hb _]. rewrite Hn. cbn. unfold moved.
    destruct (i =? _)%N eqn:Hil.
    + apply N.eqb_eq in Hil.
      rewrite (proj2 (delete_nodes g id removed Hroom Hrem _ (set_node_id id n))); [done|].
      assert (N.to_nat i = length (nodes g) - 1) as Heq by lia. rewrite Heq in Hn. split; [lia|]. right. eauto.
    + apply N.eqb_neq in Hil. rewrite (proj2 (delete_nodes g id removed Hroom Hrem _ n)); [done|].
      split; [lia|]. left. split; [lia|done].
  - rewrite (delete_edges g id removed Hroom Hrem). cbn [a_edges abs].
    pose proof (wf_edges _ Hwf) as He. induction (edges g) as [|e es IH]; [done|].
    destruct (He e (list_elem_of_here _ _)) as [Hs Hd].
    specialize (IH (fun e0 H => He e0 (list_elem_of_further _ _ _ H))).
    pose proof (sym_at_eq g s id (src e) Hwf Hidx Hs) as Es. pose proof (sym_at_eq g s id (dst e) Hwf Hidx Hd) as Ed.
    rewrite fmap_cons, !filter_cons. cbn [edge_syms fst snd].
    destruct (decide (src e <> id /\ dst e <> id)) as [[Hns Hnd]|Hn].
    + rewrite decide_True by tauto. rewrite !fmap_cons, IH. f_equal. unfold edge_syms, retarget. cbn.
      destruct (moved_linked g id removed Hroom Hrem _ Hs Hns) as [_ Hs'].
      destruct (moved_linked g id removed Hroom Hrem _ Hd Hnd) as [_ Hd'].
      unfold moved in Hs', Hd'. cbn in *. by rewrite Hs', Hd'.
    + rewrite decide_False by tauto. exact IH.
Qed.

(** ** All events *)

Lemma define_refines g sym kind file line : wf g -> room g ->
  let '(g', b) := define_node sym kind file line g in
  wf g' /\ a_define sym kind file line (abs g) = (abs g', b).
Proof.
  intros Hwf Hroom. unfold define_node, a_define. case_bool_decide as Hk.
  { rewrite bool_decide_eq_true_2 by by left. done. }
  destruct (bool_decide (sym = "") && negb (bool_decide (kind = "MODULE"))) eqn:Hg.
  { apply andb_true_iff in Hg as [Hs Hm]. apply bool_decide_eq_true in Hs. apply negb_true_iff, bool_decide_eq_false in Hm.
    rewrite bool_decide_eq_true_2 by by right. done. }
  rewrite (bool_decide_eq_false_2 (kind = "" \/ _)).
  2: { intros [|[Hs Hm]]; [done|]. by rewrite bool_decide_eq_true_2, bool_decide_eq_false_2 in Hg. }
  destruct (decide (sym = "")) as [->|Hs].
  - rewrite !bool_decide_eq_true_2 by done.
    assert (symbol_to_id g !! "" = None) as Hidx.
    { destruct (symbol_to_id g !! "") eqn:Hx; [|done]. by destruct (wf_index _ Hwf _ _ Hx). }
    destruct (append_refines g "" kind file line Hwf Hroom Hidx Hk) as [Hw Ha].
    rewrite bool_decide_eq_true_2 in Ha by done. by rewrite Ha.
  - rewrite !bool_decide_eq_false_2 by done. destruct (symbol_to_id g !! sym) as [id|] eqn:Hidx; cbn.
    + destruct (wf_lookup _ _ _ Hwf Hidx) as (n & Hn & _ & _ & Hl). rewrite Hn. cbn.
      destruct (update_refines g sym id n kind file line Hwf Hroom Hidx Hn Hk) as [Hw Ha].
      split; [done|]. rewrite Ha. cbn [abs a_nodes a_files a_edges] in *. by rewrite Hl.
    + destruct (append_refines g sym kind file line Hwf Hroom Hidx Hk) as [Hw Ha].
      split; [done|]. rewrite Ha, bool_decide_eq_false_2 by done. do 3 f_equal.
      cbn. by rewrite lookup_omap, Hidx.
Qed.

Lemma filter_edge_syms g s d k si di es : wf g -> symbol_to_id g !! s = Some si -> symbol_to_id g !! d = Some di ->
  (forall e, e ∈ es -> linked g (src e) /\ linked g (dst e)) ->
  edge_syms g <$> filter (fun e => ~ (src e = si /\ dst e = di /\ edge_kind e = k)) es
  = filter (fun e => e <> (s, d, k)) (edge_syms g <$> es) /\
  negb (length es =? length (filter (fun e => ~ (src e = si /\ dst e = di /\ edge_kind e = k)) es))
  = bool_decide ((s, d, k) ∈ edge_syms g <$> es).
Proof.
  intros Hwf Hs Hd. induction es as [|e es IH]; intros Hl; [done|].
  destruct (Hl e (list_elem_of_here _ _)) as [L1 L2].
  destruct (IH (fun e0 H => Hl e0 (list_elem_of_further _ _ _ H))) as [IH1 IH2]. clear IH.
  pose proof (sym_at_eq g s si (src e) Hwf Hs L1) as Es. pose proof (sym_at_eq g d di (dst e) Hwf Hd L2) as Ed.
  pose proof (length_filter (fun e => ~ (src e = si /\ dst e = di /\ edge_kind e = k)) es) as Hlen.
  assert (Heq : edge_syms g e = (s, d, k) <-> (src e = si /\ dst e = di /\ edge_kind e = k)).
  { unfold edge_syms. split; [intros [= H1 H2 H3]; tauto|]. intros (H1 & H2 & H3).
    apply Es in H1. apply Ed in H2. by rewrite H1, H2, H3. }
  rewrite fmap_cons, !filter_cons. destruct (decide (~ (src e = si /\ _))) as [Hn|Hn].
  - rewrite decide_True by tauto. rewrite fmap_cons, IH1. split; [done|]. cbn [length]. etransitivity; [exact IH2|]. apply bool_decide_ext.
    rewrite elem_of_cons. split; [by right|intros [Hx|]; [symmetry in Hx; tauto|done]].
  - apply dec_stable in Hn. rewrite decide_False by tauto. split; [done|].
    rewrite bool_decide_eq_true_2 by (rewrite elem_of_cons; left; symmetry; tauto).
    cbn [length]. apply negb_true_iff, Nat.eqb_neq. lia.
Qed.

Lemma resolve_both g s d : wf g ->
  match symbol_to_id g !! s, symbol_to_id g !! d with
  | Some si, Some di => is_Some (a_nodes (abs g) !! s) /\ is_Some (a_nodes (abs g) !! d)
  | _, _ => ~ (is_Some (a_nodes (abs g) !! s) /\ is_Some (a_nodes (abs g) !! d))
  end.
Proof.
  intros Hwf. pose proof (abs_dom g s Hwf) as Ds. pose proof (abs_dom g d Hwf) as Dd.
  assert (~ is_Some (@None N)) by by intros [].
  destruct (symbol_to_id g !! s), (symbol_to_id g !! d); [|tauto..]. split; [apply Ds|apply Dd]; eauto.
Qed.

Lemma edge_defined_refines g s d k si di : wf g -> symbol_to_id g !! s = Some si -> symbol_to_id g !! d = Some di ->
  let g' := {| nodes := nodes g; edges := edges g ++ [{| src := si; dst := di; edge_kind := k |}];
               files := files g; symbol_to_id := symbol_to_id g |} in
  wf g' /\ abs g' = {| a_nodes := a_nodes (abs g); a_edges := a_edges (abs g) ++ [(s, d, k)]; a_files := a_files (abs g) |}.
Proof.
  intros Hwf Hs Hd. pose proof (index_linked _ _ _ Hwf Hs) as Ls. pose proof (index_linked _ _ _ Hwf Hd) as Ld. split.
  - destruct Hwf as [W1 W2 W3 W4 W5]. split; try done.
    intros e [He| ->%list_elem_of_singleton]%elem_of_app; [by apply W4|done].
  - unfold abs. cbn. rewrite fmap_app. do 2 f_equal. cbn. unfold edge_syms. cbn.
    pose proof (proj2 (sym_at_eq g s si si Hwf Hs Ls) eq_refl) as Es.
    pose proof (proj2 (sym_at_eq g d di di Hwf Hd Ld) eq_refl) as Ed. unfold sym_at in *. cbn. by rewrite Es, Ed.
Qed.

Lemma file_seen_refines g p : wf g -> p <> "" -> p ∉ files g ->
  let g' := {| nodes := nodes g; edges := edges g; files := files g ++ [p]; symbol_to_id := symbol_to_id g |} in
  wf g' /\ abs g' = {| a_nodes := a_nodes (abs g); a_edges := a_edges (abs g); a_files := files g ++ [p] |}.
Proof.
  intros [W1 W2 W3 W4 [W5 W6]] Hp Hn. split; [split; cbn; try done|].
  - intros i n Hi. destruct (W1 i n Hi) as [Hid Ho]. split; [done|]. eapply node_ok_prefix; [|done]. by eexists.
  - split; [by apply NoDup_snoc|]. rewrite elem_of_app, list_elem_of_singleton. intros [|]; [done|congruence].
  - unfold abs. cbn. f_equal. apply map_eq. intros t. rewrite !lookup_omap.
    destruct (symbol_to_id g !! t) as [i|]; [|done]. cbn.
    destruct (nodes g !! N.to_nat i) as [n|] eqn:Hi; [|done]. cbn. f_equal.
    apply node_ok_prefix; [by eexists|]. by apply (W1 _ _ Hi).
Qed.

Lemma apply_refines clear ev g : wf g -> room g ->
  let '(g', b) := apply_rustc_event_to_graph clear ev g in
  wf g' /\ a_step clear ev (abs g) = (abs g', b).
Proof.
  intros Hwf Hroom. destruct ev as [p|s k f l|s k f l|s|s d k|s d k|p|]; cbn [apply_rustc_event_to_graph a_step].
  - destruct clear; [|done]. split; [apply wf_empty|done].
  - by apply define_refines.
  - by apply define_refines.
  - destruct (symbol_to_id g !! s) as [id|] eqn:Hs.
    + destruct (wf_lookup _ _ _ Hwf Hs) as (n & Hn & _ & _ & Hl). rewrite bool_decide_eq_true_2 by (rewrite Hl; eauto).
      pose proof (delete_wf g s id n Hwf Hroom Hs Hn) as Hw. pose proof (delete_refines g s id n Hwf Hroom Hs Hn) as Ha.
      destruct (delete_node id g) as [g' b] eqn:E. assert (b = true) as ->.
      { unfold delete_node in E. rewrite Hn in E. by case_bool_decide; injection E as _ <-. }
      split; [done|]. cbn [fst] in Ha. by rewrite Ha.
    + rewrite bool_decide_eq_false_2; [done|]. rewrite abs_dom, Hs by done. by intros [].
  - pose proof (resolve_both g s d Hwf) as Hr.
    destruct (symbol_to_id g !! s) as [si|] eqn:Hs; [|by rewrite bool_decide_eq_false_2].
    destruct (symbol_to_id g !! d) as [di|] eqn:Hd; [|by rewrite bool_decide_eq_false_2].
    rewrite bool_decide_eq_true_2 by done.
    destruct (edge_defined_refines g s d k si di Hwf Hs Hd) as [Hw Ha]. split; [done|]. by rewrite Ha.
  - pose proof (resolve_both g s d Hwf) as Hr.
    destruct (symbol_to_id g !! s) as [si|] eqn:Hs; [|by rewrite bool_decide_eq_false_2].
    destruct (symbol_to_id g !! d) as [di|] eqn:Hd; [|by rewrite bool_decide_eq_false_2].
    rewrite bool_decide_eq_true_2 by done.
    destruct (filter_edge_syms g s d k si di (edges g) Hwf Hs Hd (wf_edges _ Hwf)) as [He Hb]. split.
    + destruct Hwf as [W1 W2 W3 W4 W5]. split; try done. intros e [_ He']%list_elem_of_filter. by apply W4.
    + cbn [abs a_edges] in *. rewrite Hb, <- He. done.
  - destruct (negb _ && negb _) eqn:Hb; destruct_bools.
    + apply bool_decide_eq_false in H, H0. destruct (file_seen_refines g p Hwf H H0) as [Hw Ha].
      split; [done|]. rewrite Ha. unfold add_file. cbn. by rewrite bool_decide_eq_false_2 by tauto.
    + split; [done|]. unfold abs, add_file. cbn. rewrite bool_decide_eq_true_2; [done|].
      apply andb_false_iff in Hb as [H1%negb_false_iff%bool_decide_eq_true|H2%negb_false_iff%bool_decide_eq_true]; tauto.
  - done.
Qed.
