(* ===== verification/GraphSnapshot.v ===== *)
(** * Snapshots of the code graph ([canon-storage-eventlog/src/snapshot.rs])

    A snapshot names edges by the symbols and kinds of their endpoints and
    files by their paths.  The archive format ([rkyv]) is not modelled: a
    snapshot file is the archived value. *)
From S2P Require Import Prelude CodeGraph CodeGraphInv.

Record CodeSnapshotNode := { sn_kind : string; sn_symbol : string; sn_file : string; sn_line : N; sn_column : N }.
Record CodeSnapshotEdge := {
  se_src_symbol : string; se_src_kind : string; se_dst_symbol : string; se_dst_kind : string; se_kind : string
}.
Record CodeSnapshot := { s_nodes : list CodeSnapshotNode; s_edges : list CodeSnapshotEdge; s_files : list string }.

Definition snapshot_node (fs : list string) (n : CodeGraphNode) : CodeSnapshotNode :=
  {| sn_kind := node_kind n; sn_symbol := symbol n;
     sn_file := default "" (file_id n ≫= fun id => fs !! N.to_nat id);
     sn_line := default 0%N (node_line n); sn_column := 0 |}.

Definition id_to_kind (ns : list CodeGraphNode) : gmap N (string * string) :=
  foldl (fun m n => <[ node_id n := (symbol n, node_kind n) ]> m) ∅ ns.

Definition snapshot_edge (kinds : gmap N (string * string)) (e : CodeGraphEdge) : CodeSnapshotEdge :=
  let '(ss, sk) := default ("", "UNKNOWN") (kinds !! src e) in
  let '(ds, dk) := default ("", "UNKNOWN") (kinds !! dst e) in
  {| se_src_symbol := ss; se_src_kind := sk; se_dst_symbol := ds; se_dst_kind := dk; se_kind := edge_kind e |}.

Definition snapshot_of (ns : list CodeGraphNode) (es : list CodeGraphEdge) (fs : list string) : CodeSnapshot :=
  {| s_nodes := snapshot_node fs <$> ns; s_edges := snapshot_edge (id_to_kind ns) <$> es; s_files := fs |}.

Definition str_len (s : string) : N := N.of_nat (String.length s).

(** [estimate_snapshot_size]: saturating sums. *)
Definition estimate_snapshot_size (s : CodeSnapshot) : N :=
  let add := foldl sat_add64 in
  let t1 := foldl (fun t n => add t [str_len (sn_kind n); str_len (sn_symbol n); str_len (sn_file n); 64%N]) 0%N (s_nodes s) in
  let t2 := foldl (fun t e => add t [str_len (se_src_symbol e); str_len (se_src_kind e); str_len (se_dst_symbol e);
                                     str_len (se_dst_kind e); str_len (se_kind e); 64%N]) t1 (s_edges s) in
  foldl (fun t f => add t [str_len f; 16%N]) t2 (s_files s).

(** [save_graph_snapshot]: the archive written, if it is not too large. *)
Definition save_graph_snapshot (ns : list CodeGraphNode) (es : list CodeGraphEdge) (fs : list string) : option CodeSnapshot :=
  let s := snapshot_of ns es fs in
  if (2147483647 <? estimate_snapshot_size s)%N then None else Some s.

(** The first loop of [snapshot_into_rows]. *)
Definition file_map_of (fs : list string) : gmap string N :=
  foldl (fun m '(i, p) => <[ p := wrap32 (N.of_nat i) ]> m) ∅ (imap pair fs).

Record Rows := { r_files : list string; r_file_map : gmap string N; r_nodes : list CodeGraphNode; r_keys : gmap (string * string) N }.

(** One round of the node loop. *)
Definition row_of_node (r : Rows) (n : CodeSnapshotNode) : Rows :=
  let '(fs, fm, file) :=
    if bool_decide (sn_file n = "") then (r_files r, r_file_map r, None)
    else match r_file_map r !! sn_file n with
         | Some id => (r_files r, r_file_map r, Some id)
         | None =>
             let id := wrap32 (lenN (r_files r)) in
             (r_files r ++ [sn_file n], <[ sn_file n := id ]> (r_file_map r), Some id)
         end in
  let id := wrap32 (lenN (r_nodes r)) in
  {| r_files := fs; r_file_map := fm;
     r_nodes := r_nodes r ++ [{| node_id := id; node_kind := sn_kind n; symbol := sn_symbol n; file_id := file;
                                 node_line := positive_line (sn_line n) |}];
     r_keys := <[ (sn_symbol n, sn_kind n) := id ]> (r_keys r) |}.

Definition row_of_edge (keys : gmap (string * string) N) (e : CodeSnapshotEdge) : option CodeGraphEdge :=
  s ← keys !! (se_src_symbol e, se_src_kind e);
  d ← keys !! (se_dst_symbol e, se_dst_kind e);
  Some {| src := s; dst := d; edge_kind := se_kind e |}.

(** [snapshot_into_rows]. *)
Definition snapshot_into_rows (s : CodeSnapshot) : list CodeGraphNode * list CodeGraphEdge * list string :=
  let r := foldl row_of_node {| r_files := s_files s; r_file_map := file_map_of (s_files s); r_nodes := []; r_keys := ∅ |} (s_nodes s) in
  (r_nodes r, omap (row_of_edge (r_keys r)) (s_edges s), r_files r).

(** ** Folds that fill a map *)

Section FoldInsert.
Context {K A B : Type} `{Countable K} (key : A -> K) (val : A -> B).

Lemma foldl_insert_last (l : list A) (m : gmap K B) k :
  foldl (fun m x => <[ key x := val x ]> m) m l !! k =
  match last (filter (fun x => key x = k) l) with Some x => Some (val x) | None => m !! k end.
Proof.
  induction l as [|x l IH] using rev_ind; [done|].
  rewrite foldl_snoc, filter_app, lookup_insert, filter_cons, filter_nil. case_decide as Hk.
  - by rewrite last_snoc.
  - by rewrite app_nil_r.
Qed.

Lemma foldl_insert_unique (l : list A) (m : gmap K B) k x :
  x ∈ l -> key x = k -> (forall y, y ∈ l -> key y = k -> val y = val x) ->
  foldl (fun m x => <[ key x := val x ]> m) m l !! k = Some (val x).
Proof.
  intros Hx Hk Hu. rewrite foldl_insert_last. destruct (last _) as [y|] eqn:Hl.
  - apply last_Some_elem_of, list_elem_of_filter in Hl as [Hy Hin]. by rewrite (Hu y).
  - apply last_None in Hl. assert (x ∈ filter (fun x => key x = k) l) as Hf by by apply list_elem_of_filter.
    rewrite Hl in Hf. by apply elem_of_nil in Hf.
Qed.

Lemma foldl_insert_absent (l : list A) (m : gmap K B) k :
  (forall x, x ∈ l -> key x <> k) -> foldl (fun m x => <[ key x := val x ]> m) m l !! k = m !! k.
Proof.
  intros Hn. rewrite foldl_insert_last. destruct (last _) as [y|] eqn:Hl; [|done].
  apply last_Some_elem_of, list_elem_of_filter in Hl as [Hy Hin]. by destruct (Hn y Hin).
Qed.
End FoldInsert.

Lemma foldl_ext_in {A B} (f g : A -> B -> A) l a : (forall a b, f a b = g a b) -> foldl f a l = foldl g a l.
Proof. intros Hfg. revert a. induction l as [|x l IH]; intros a; cbn; [done|]. by rewrite Hfg. Qed.

Lemma file_map_lookup fs i p : NoDup fs -> (lenN fs <= 4294967296)%N -> fs !! i = Some p ->
  file_map_of fs !! p = Some (N.of_nat i).
Proof.
  intros Hnd Hlen Hi. unfold file_map_of. pose proof (lookup_lt_Some _ _ _ Hi) as Hlt.
  rewrite (foldl_ext_in _ (fun m x => <[ snd x := wrap32 (N.of_nat (fst x)) ]> m)) by by intros ? [].
  rewrite (foldl_insert_unique snd (fun x => wrap32 (N.of_nat (fst x))) _ _ p (i, p)); [|apply elem_of_lookup_imap; eauto|done|].
  - cbn. rewrite wrap32_small; [done|]. unfold lenN in Hlen. lia.
  - intros [j q] (j' & q' & [= -> ->] & Hj)%elem_of_lookup_imap Hq. cbn in Hq |- *. subst q'.
    by rewrite (NoDup_lookup _ _ _ _ Hnd Hi Hj).
Qed.

(** ** What a well-formed graph's snapshot holds *)

Section Snapshot.
Context (g : Graph) (Hwf : wf g) (Hroom : room g).

Lemma kind_lookup id n : nodes g !! N.to_nat id = Some n -> id_to_kind (nodes g) !! id = Some (symbol n, node_kind n).
Proof.
  intros Hn. destruct (wf_nodes _ Hwf _ _ Hn) as [Hid _].
  apply (foldl_insert_unique node_id (fun n => (symbol n, node_kind n)) (nodes g) ∅ id n); [by eapply list_elem_of_lookup_2|lia|].
  intros y Hy Hk. apply list_elem_of_lookup in Hy as [j Hj]. destruct (wf_nodes _ Hwf _ _ Hj) as [Hjd _].
  assert (j = N.to_nat id) as -> by lia. congruence.
Qed.

Lemma symbol_unique i j n m : nodes g !! i = Some n -> nodes g !! j = Some m -> symbol n <> "" -> symbol m = symbol n -> m = n.
Proof.
  intros Hn Hm Hne Hs. pose proof (wf_indexed _ Hwf _ _ Hn Hne) as H1.
  assert (symbol m <> "") as Hne' by congruence. pose proof (wf_indexed _ Hwf _ _ Hm Hne') as H2.
  rewrite Hs, H1 in H2. injection H2 as H2. assert (i = j) as -> by lia. congruence.
Qed.

Definition keys_of (ns : list CodeGraphNode) : gmap (string * string) N :=
  foldl (fun m n => <[ (symbol n, node_kind n) := node_id n ]> m) ∅ ns.

Lemma key_lookup id n : nodes g !! N.to_nat id = Some n -> symbol n <> "" ->
  keys_of (nodes g) !! (symbol n, node_kind n) = Some id.
Proof.
  intros Hn Hne. destruct (wf_nodes _ Hwf _ _ Hn) as [Hid _]. rewrite N2Nat.id in Hid. rewrite <- Hid.
  apply (foldl_insert_unique (fun n => (symbol n, node_kind n)) node_id (nodes g) ∅ _ n); [by eapply list_elem_of_lookup_2|done|].
  intros y Hy [= Hs _]. apply list_elem_of_lookup in Hy as [j Hj]. by rewrite (symbol_unique _ _ _ _ Hn Hj Hne Hs).
Qed.

Lemma rows_nodes ns rest : nodes g = ns ++ rest ->
  foldl row_of_node {| r_files := files g; r_file_map := file_map_of (files g); r_nodes := []; r_keys := ∅ |} (snapshot_node (files g) <$> ns)
  = {| r_files := files g; r_file_map := file_map_of (files g); r_nodes := ns; r_keys := keys_of ns |}.
Proof.
  revert rest. induction ns as [|n ns IH] using rev_ind; intros rest Hg; [done|].
  rewrite fmap_app, foldl_app, (IH ([n] ++ rest)) by by rewrite Hg, <- app_assoc. cbn [fmap list_fmap foldl].
  assert (Hn : nodes g !! length ns = Some n) by (rewrite Hg, <- app_assoc; by apply list_lookup_middle).
  destruct (wf_nodes _ Hwf _ _ Hn) as [Hid (Hk & Hl & Hf)]. destruct (wf_files _ Hwf) as [Hnd Hne]. destruct Hroom as [R1 R2].
  assert (Hw : wrap32 (lenN ns) = node_id n).
  { rewrite wrap32_small; [done|]. apply lookup_lt_Some in Hn. unfold lenN in *. lia. }
  assert (Hline : positive_line (default 0%N (node_line n)) = node_line n).
  { destruct (node_line n) as [l|]; [|done]. cbn. unfold positive_line. by rewrite (proj2 (N.ltb_lt _ _) (Hl l eq_refl)). }
  unfold row_of_node, keys_of. cbn [r_files r_file_map r_nodes r_keys snapshot_node sn_file sn_symbol sn_kind sn_line].
  rewrite foldl_snoc, Hw, Hline. destruct n as [i k sy f l]. cbn in *. destruct f as [f|]; cbn.
  - destruct (lookup_lt_is_Some_2 (files g) (N.to_nat f) (Hf f eq_refl)) as [p Hp]. rewrite Hp. cbn.
    rewrite bool_decide_eq_false_2 by (intros ->; by apply Hne; eapply list_elem_of_lookup_2).
    rewrite (file_map_lookup _ _ _ Hnd ltac:(lia) Hp), N2Nat.id. done.
  - by rewrite bool_decide_eq_true_2.
Qed.

Lemma rows_edges (es : list CodeGraphEdge) : (forall e, e ∈ es -> linked g (src e) /\ linked g (dst e)) ->
  omap (row_of_edge (keys_of (nodes g))) (snapshot_edge (id_to_kind (nodes g)) <$> es) = es.
Proof.
  induction es as [|e es IH]; intros Hl; [done|].
  destruct (Hl e (list_elem_of_here _ _)) as [(n & Hn & Hne) (m & Hm & Hme)].
  rewrite fmap_cons. cbn [omap list_omap]. unfold snapshot_edge at 1.
  rewrite (kind_lookup _ _ Hn), (kind_lookup _ _ Hm). cbn [default from_option id].
  unfold row_of_edge at 1. cbn. rewrite (key_lookup _ _ Hn Hne). cbn. rewrite (key_lookup _ _ Hm Hme). cbn.
  rewrite (IH (fun e0 H => Hl e0 (list_elem_of_further _ _ _ H))). by destruct e.
Qed.

Lemma rebuilt_index s : s <> "" -> rebuild_symbol_index (nodes g) !! s = symbol_to_id g !! s.
Proof.
  intros Hs. unfold rebuild_symbol_index. destruct (symbol_to_id g !! s) as [id|] eqn:Hi.
  - destruct (wf_lookup _ _ _ Hwf Hi) as (n & Hn & <- & _). destruct (wf_nodes _ Hwf _ _ Hn) as [Hid _]. rewrite N2Nat.id in Hid.
    rewrite <- Hid. apply (foldl_insert_unique symbol node_id); [by eapply list_elem_of_lookup_2|done|].
    intros y Hy Hys. apply list_elem_of_lookup in Hy as [j Hj]. by rewrite (symbol_unique _ _ _ _ Hn Hj Hs Hys).
  - rewrite (foldl_insert_absent symbol node_id); [done|]. intros x Hx <-. apply list_elem_of_lookup in Hx as [j Hj].
    by rewrite (wf_indexed _ Hwf _ _ Hj Hs) in Hi.
Qed.
End Snapshot.
