(* ===== verification/CodeGraphProps.v ===== *)
(** * Properties of the code graph projection and its snapshots *)
From S2P Require Import Prelude CodeGraph CodeGraphInv GraphSnapshot.

(** ** Replays of bounded logs *)

Lemma intern_length file fs : length (intern_file file fs).1 <= S (length fs).
Proof.
  unfold intern_file. case_bool_decide; [cbn; lia|]. destruct (index_of file fs); cbn; [lia|]. rewrite length_app. cbn. lia.
Qed.

Lemma delete_length id g : length (nodes (delete_node id g).1) <= length (nodes g).
Proof.
  unfold delete_node. destruct (nodes g !! N.to_nat id); [|done].
  assert (length (swap_remove (N.to_nat id) (nodes g)) <= length (nodes g)).
  { unfold swap_remove. destruct (last (nodes g)); [|done]. case_bool_decide; rewrite ?length_insert, length_take; lia. }
  case_bool_decide; cbn; rewrite ?length_alter; done.
Qed.

Lemma apply_length clear ev g :
  length (nodes (apply_rustc_event_to_graph clear ev g).1) <= S (length (nodes g)) /\
  length (files (apply_rustc_event_to_graph clear ev g).1) <= S (length (files g)).
Proof.
  assert (Hd : forall s k f l, length (nodes (define_node s k f l g).1) <= S (length (nodes g)) /\
    length (files (define_node s k f l g).1) <= S (length (files g))).
  { intros s k f l. unfold define_node. case_bool_decide; [cbn; lia|]. destruct (_ && _); [cbn; lia|].
    pose proof (intern_length f (files g)) as Hf.
    destruct (if bool_decide (s = "") then None else _) as [[id n]|]; cbn; [unfold update_node|unfold append_node];
      destruct (intern_file f (files g)) as [fs fi]; cbn in *; rewrite ?length_insert, ?length_app; cbn; lia. }
  destruct ev as [p|s k f l|s k f l|s|s d k|s d k|p|]; cbn [apply_rustc_event_to_graph]; try apply Hd.
  - destruct clear; cbn; lia.
  - destruct (symbol_to_id g !! s) as [id|]; [|cbn; lia]. pose proof (delete_length id g). rewrite delete_files. lia.
  - destruct (symbol_to_id g !! s), (symbol_to_id g !! d); cbn; lia.
  - destruct (symbol_to_id g !! s), (symbol_to_id g !! d); cbn; lia.
  - destruct (_ && _); cbn; [rewrite length_app; cbn|]; lia.
  - cbn. lia.
Qed.

Definition replay (clear : bool) (evs : list RustcEvent) (g : Graph) : Graph :=
  foldl (fun g ev => (apply_rustc_event_to_graph clear ev g).1) g evs.
Definition a_replay (clear : bool) (evs : list RustcEvent) (a : AGraph) : AGraph :=
  foldl (fun a ev => (a_step clear ev a).1) a evs.

Lemma replay_refines clear evs g : wf g ->
  (N.of_nat (length (nodes g) + length evs) <= 4294967296)%N ->
  (N.of_nat (length (files g) + length evs) <= 4294967296)%N ->
  wf (replay clear evs g) /\ abs (replay clear evs g) = a_replay clear evs (abs g).
Proof.
  revert g. induction evs as [|ev evs IH]; intros g Hwf Hn Hf; [done|]. cbn [length] in *.
  assert (room g) as Hroom by (unfold room, lenN; lia).
  pose proof (apply_refines clear ev g Hwf Hroom) as Ha. pose proof (apply_length clear ev g) as [L1 L2].
  unfold replay, a_replay in *. cbn [foldl].
  destruct (apply_rustc_event_to_graph clear ev g) as [g' b]. destruct Ha as [Hw ->]. cbn [fst] in *. apply IH; [done|lia..].
Qed.

Lemma replay_room clear evs : (lenN evs < 4294967296)%N -> room (replay clear evs empty_graph).
Proof.
  intros Hlen.
  assert (Hg : forall g, length (nodes (replay clear evs g)) <= length (nodes g) + length evs /\
    length (files (replay clear evs g)) <= length (files g) + length evs).
  { clear Hlen. induction evs as [|ev evs IH]; intros g; [cbn; lia|]. cbn [length].
    destruct (IH (apply_rustc_event_to_graph clear ev g).1). pose proof (apply_length clear ev g). unfold replay in *. cbn. lia. }
  destruct (Hg empty_graph) as [H1 H2]. cbn in H1, H2. unfold room, lenN in *. lia.
Qed.

Definition empty_agraph : AGraph := {| a_nodes := ∅; a_edges := []; a_files := [] |}.

Lemma replay_from_empty clear evs : (lenN evs < 4294967296)%N ->
  wf (replay clear evs empty_graph) /\ abs (replay clear evs empty_graph) = a_replay clear evs empty_agraph.
Proof.
  intros Hlen. unfold lenN in Hlen. destruct (replay_refines clear evs empty_graph wf_empty) as [Hw Ha]; [cbn; lia..|].
  split; [done|]. by rewrite Ha.
Qed.

(** ** The crate filter *)

Definition is_session (ev : RustcEvent) : bool := match ev with SessionStart _ => true | _ => false end.
Definition starts_crate (c : string) (ev : RustcEvent) : bool :=
  match ev with SessionStart p => bool_decide (p = c) | _ => false end.

Lemma crate_body c g evs : Forall (fun ev => is_session ev = false) evs ->
  foldl (replay_crate_step c) (g, true) evs = (replay false evs g, true).
Proof. revert g. induction evs as [|ev evs IH]; intros g Hs; [done|]. inversion Hs; subst. destruct ev; try done; by apply IH. Qed.

Lemma crate_skip c g evs : Forall (fun ev => starts_crate c ev = false) evs ->
  foldl (replay_crate_step c) (g, false) evs = (g, false).
Proof.
  induction evs as [|ev evs IH]; intros Hs; [done|]. inversion Hs; subst. destruct ev; try (by apply IH).
  cbn in *. rewrite H1. by apply IH.
Qed.

(** ** Properties *)

Definition sample_events : list RustcEvent :=
  [SessionStart "a"; NodeDefined "m" "MODULE" "src/lib.rs" 1; NodeDefined "f" "FN" "src/lib.rs" 3;
   NodeDefined "g" "FN" "src/g.rs" 0; EdgeDefined "m" "f" "CONTAINS"; EdgeDefined "f" "g" "CALLS"; EdgeDefined "g" "m" "USES";
   NodeRemoved "m"; NodeUpdated "g" "METHOD" "" 7].

(** replaying any log of fewer than [2^32] events gives a consistent
    graph: identifiers are positions, every named node is found through the
    symbol index and the index points to nothing else, edges connect existing
    named nodes, and the file table has no duplicates. *)
Theorem replay_consistent (evs : list RustcEvent) :
  (lenN evs < 4294967296)%N ->
  let g := replay_graph_from_tlog evs in
  (forall i n, nodes g !! i = Some n -> node_id n = N.of_nat i) /\
  (forall s id, symbol_to_id g !! s = Some id <->
     s <> "" /\ exists n, nodes g !! N.to_nat id = Some n /\ symbol n = s) /\
  (forall e, e ∈ edges g -> linked g (src e) /\ linked g (dst e)) /\
  NoDup (files g).
Proof.
  intros Hlen g. destruct (replay_from_empty false evs Hlen) as [[W1 W2 W3 W4 [W5 _]] _]. fold (replay_graph_from_tlog evs) in *.
  change (replay false evs empty_graph) with g in *. split_and!; try done.
  - intros i n Hi. by apply (W1 i n).
  - intros s id. split; [apply W2|]. intros (Hs & n & Hn & <-). by rewrite (W3 _ _ Hn Hs), N2Nat.id.
Qed.

Lemma replay_consistent_witness : NoDup (files (replay_graph_from_tlog sample_events)).
Proof. apply (replay_consistent sample_events). vm_compute. reflexivity. Defined.

(** C25: the projection implements the graph over symbols.  Removing a node
    moves the last node into its place, renumbers its edges and re-indexes its
    symbol; seen through symbols, every event does exactly what it says. *)
Theorem replay_implements_symbol_graph (evs : list RustcEvent) :
  (lenN evs < 4294967296)%N ->
  abs (replay_graph_from_tlog evs) = a_replay false evs empty_agraph.
Proof. intros Hlen. by apply replay_from_empty. Qed.

Lemma replay_implements_symbol_graph_witness :
  abs (replay_graph_from_tlog sample_events) = a_replay false sample_events empty_agraph.
Proof. apply replay_implements_symbol_graph. vm_compute. reflexivity. Defined.

(** the graph of one crate is determined by that crate's last session:
    whatever precedes the session and whatever other crates log after it. *)
Theorem crate_graph_is_last_session (c : string) (pre body post : list RustcEvent) :
  Forall (fun ev => is_session ev = false) body ->
  Forall (fun ev => starts_crate c ev = false) post ->
  match post with [] => true | ev :: _ => is_session ev end = true ->
  replay_graph_for_crate c (pre ++ SessionStart c :: body ++ post) = replay_graph_from_tlog body.
Proof.
  intros Hb Hp Hh. unfold replay_graph_for_crate. rewrite foldl_app. cbn [foldl].
  destruct (foldl (replay_crate_step c) (empty_graph, false) pre) as [g t]. cbn [replay_crate_step].
  rewrite bool_decide_eq_true_2, foldl_app, crate_body by done.
  destruct post as [|ev post]; [done|]. destruct ev as [p| | | | | | |]; try done.
  inversion Hp as [|? ? Hc Hp']; subst. cbn in Hc. cbn [foldl replay_crate_step]. by rewrite Hc, crate_skip.
Qed.

Lemma crate_graph_is_last_session_witness :
  replay_graph_for_crate "a" ([SessionStart "a"; FileSeen "old.rs"] ++ SessionStart "a" :: [FileSeen "new.rs"] ++ [SessionStart "b"; FileSeen "b.rs"])
  = replay_graph_from_tlog [FileSeen "new.rs"].
Proof. apply crate_graph_is_last_session; [by repeat constructor|by repeat constructor|reflexivity]. Defined.

(** saving a replayed graph and loading it back gives the same nodes,
    edges and files, although a snapshot names edges and files only by their
    symbols, kinds and paths; and the rebuilt symbol index agrees with the
    live one on every symbol. *)
Theorem snapshot_round_trip (evs : list RustcEvent) (s : CodeSnapshot) :
  (lenN evs < 4294967296)%N ->
  let g := replay_graph_from_tlog evs in
  save_graph_snapshot (nodes g) (edges g) (files g) = Some s ->
  snapshot_into_rows s = (nodes g, edges g, files g) /\
  forall sym, sym <> "" -> rebuild_symbol_index (nodes g) !! sym = symbol_to_id g !! sym.
Proof.
  intros Hlen g Hs. destruct (replay_from_empty false evs Hlen) as [Hw _].
  pose proof (replay_room false evs Hlen) as Hroom. change (replay false evs empty_graph) with g in *.
  unfold save_graph_snapshot in Hs. destruct (_ <? _)%N; [done|]. injection Hs as <-.
  split; [|intros sym Hsym; by apply rebuilt_index].
  unfold snapshot_into_rows, snapshot_of. cbn [s_files s_nodes s_edges].
  rewrite (rows_nodes g Hw Hroom (nodes g) []) by by rewrite app_nil_r. cbn [r_nodes r_keys r_files].
  by rewrite (rows_edges g Hw (edges g) (wf_edges _ Hw)).
Qed.

Lemma snapshot_round_trip_witness :
  snapshot_into_rows (snapshot_of (nodes (replay_graph_from_tlog sample_events)) (edges (replay_graph_from_tlog sample_events))
    (files (replay_graph_from_tlog sample_events)))
  = (nodes (replay_graph_from_tlog sample_events), edges (replay_graph_from_tlog sample_events), files (replay_graph_from_tlog sample_events)).
Proof. apply (snapshot_round_trip sample_events); vm_compute; reflexivity. Defined.

(** After a snapshot is loaded, an anonymous module is indexed under the empty
    symbol, which no live index contains. *)
Lemma anonymous_module_indexed_on_reload :
  let g := replay_graph_from_tlog [NodeDefined "" "MODULE" "" 0] in
  symbol_to_id g !! "" = None /\ rebuild_symbol_index (nodes g) !! "" = Some 0%N.
Proof. vm_compute. done. Qed.
