(* ===== verification/Scheduler.v ===== *)
(** * The task scheduler ([canon-loop/src/scheduler.rs])

    A priority queue of planned actions with per-agent capacities, and the
    tracker of dependencies between actions.  [BinaryHeap] is a list from
    which [pop] takes a greatest element.  [Instant]s are numbers. *)
From Stdlib Require Import Floats.SpecFloat Sorting.Sorted.
From S2P Require Import Prelude.

Inductive TaskPriority := Low | Normal | High | Critical.
#[export] Instance TaskPriority_eq_dec : EqDecision TaskPriority.
Proof. solve_decision. Defined.
Definition priority_rank (p : TaskPriority) : N :=
  match p with Low => 0 | Normal => 1 | High => 2 | Critical => 3 end%N.

(** What the scheduler reads of a planned action. *)
Class Planned (P : Type) : Type := {
  action_kind : P -> string; llm_request_id : P -> option string; action_id : P -> option string; depends_on : P -> list string
}.

Section Queue.
Context {P : Type} {planned : Planned P}.

(** [ScheduledTask] and [Queued] have the same fields. *)
Record Task := { priority : TaskPriority; enqueued_at : N; task_seq : N; agent_id : option string; plan : P }.

(** [Ord for Queued]: higher priority first, then earlier, then smaller
    sequence number. *)
Definition queued_cmp (a b : Task) : comparison :=
  match N.compare (priority_rank (priority a)) (priority_rank (priority b)) with
  | Eq => match N.compare (enqueued_at b) (enqueued_at a) with
          | Eq => N.compare (task_seq b) (task_seq a)
          | c => c
          end
  | c => c
  end.

Record Scheduler := {
  heap : list Task; next_seq : N; agent_capacity : gmap string N; agent_active : gmap string N
}.
Definition new_scheduler : Scheduler := {| heap := []; next_seq := 0; agent_capacity := ∅; agent_active := ∅ |}.

(** [BinaryHeap::pop]: a greatest element and the rest. *)
Fixpoint heap_pop (h : list Task) : option (Task * list Task) :=
  match h with
  | [] => None
  | x :: h' =>
      match heap_pop h' with
      | None => Some (x, [])
      | Some (y, rest) => match queued_cmp x y with Lt => Some (y, x :: rest) | _ => Some (x, h') end
      end
  end.

Definition set_heap (h : list Task) (s : Scheduler) : Scheduler :=
  {| heap := h; next_seq := next_seq s; agent_capacity := agent_capacity s; agent_active := agent_active s |}.
Definition set_active (m : gmap string N) (s : Scheduler) : Scheduler :=
  {| heap := heap s; next_seq := next_seq s; agent_capacity := agent_capacity s; agent_active := m |}.

Definition is_empty (s : Scheduler) : bool := match heap s with [] => true | _ => false end.
Definition queue_len (s : Scheduler) : nat := length (heap s).
Definition clear (s : Scheduler) : Scheduler :=
  {| heap := []; next_seq := next_seq s; agent_capacity := agent_capacity s; agent_active := ∅ |}.

(** [push] numbers the task. *)
Definition push (t : Task) (s : Scheduler) : Scheduler :=
  {| heap := {| priority := priority t; enqueued_at := enqueued_at t; task_seq := next_seq s; agent_id := agent_id t; plan := plan t |} :: heap s;
     next_seq := sat_add64 (next_seq s) 1; agent_capacity := agent_capacity s; agent_active := agent_active s |}.

Definition has_capacity (agent : string) (s : Scheduler) : bool :=
  (default 0 (agent_active s !! agent) <? default u64_max (agent_capacity s !! agent))%N.

(** The common tail of the two pops: start the task, or put it back. *)
Definition start_task (q : Task) (s : Scheduler) : Scheduler * option Task :=
  match agent_id q with
  | Some agent =>
      if negb (has_capacity agent s) then (set_heap (q :: heap s) s, None)
      else (set_active (<[ agent := (default 0 (agent_active s !! agent) + 1)%N ]> (agent_active s)) s, Some q)
  | None => (s, Some q)
  end.

(** [pop_any]. *)
Definition pop_any (s : Scheduler) : Scheduler * option Task :=
  match heap_pop (heap s) with
  | None => (s, None)
  | Some (q, rest) => start_task q (set_heap rest s)
  end.

(** The search loop of [pop_for_llm]: pops until the request is found. *)
Fixpoint find_llm (fuel : nat) (target : string) (h stash : list Task) : option Task * list Task * list Task :=
  match fuel with
  | O => (None, h, stash)
  | S fuel' =>
      match heap_pop h with
      | None => (None, h, stash)
      | Some (q, rest) =>
          if bool_decide (llm_request_id (plan q) = Some target) then (Some q, rest, stash)
          else find_llm fuel' target rest (stash ++ [q])
      end
  end.

(** [pop_for_llm]; each round shortens the heap, so its length is enough fuel. *)
Definition pop_for_llm (target : option string) (s : Scheduler) : Scheduler * option Task :=
  match target with
  | None => pop_any s
  | Some target =>
      let '(found, rest, stash) := find_llm (length (heap s)) target (heap s) [] in
      let s1 := set_heap (foldl (fun h q => q :: h) rest stash) s in
      match found with
      | Some q => start_task q s1
      | None => (s1, None)
      end
  end.

(** [complete]. *)
Definition complete (agent : option string) (s : Scheduler) : Scheduler :=
  match agent with
  | Some a =>
      match agent_active s !! a with
      | Some n => set_active (<[ a := (n - 1)%N ]> (agent_active s)) s
      | None => s
      end
  | None => s
  end.

Definition peek_llm_request_id (s : Scheduler) : option string :=
  heap_pop (heap s) ≫= fun '(q, _) => llm_request_id (plan q).

(** [infer_priority]; the literal [-0.1] is [-13421773 * 2^-27] in binary32. *)
Definition minus_tenth : spec_float := S754_finite true 13421773 (-27).
Definition infer_priority (p : P) (goodness delta_g : option spec_float) : TaskPriority :=
  if match goodness with Some g => SFltb g (S754_zero false) | None => false end then High
  else if match delta_g with Some d => SFltb d minus_tenth | None => false end then High
  else if bool_decide (action_kind p = "done") then Critical
  else Normal.

(** ** Dependencies *)

Record DependencyTracker := { waiting : gmap string (gset string); unblocks : gmap string (list Task) }.
Definition new_tracker : DependencyTracker := {| waiting := ∅; unblocks := ∅ |}.

Definition unblock_push (t : Task) (m : gmap string (list Task)) (dep : string) : gmap string (list Task) :=
  <[ dep := default [] (m !! dep) ++ [t] ]> m.

(** [DependencyTracker::add]. *)
Definition dep_add (t : Task) (d : DependencyTracker) : DependencyTracker :=
  match depends_on (plan t) with
  | [] => d
  | deps =>
      {| waiting := match action_id (plan t) with
                    | Some aid => <[ aid := list_to_set deps ]> (waiting d)
                    | None => waiting d
                    end;
         unblocks := foldl (unblock_push t) (unblocks d) deps |}
  end.

(** One round of the loop of [DependencyTracker::complete]. *)
Definition complete_task (done_id : string) (acc : DependencyTracker * list Task) (t : Task) : DependencyTracker * list Task :=
  let '(d, ready) := acc in
  match action_id (plan t) with
  | Some aid =>
      match waiting d !! aid with
      | Some wait =>
          let wait' := wait ∖ {[ done_id ]} in
          if bool_decide (wait' = ∅) then
            ({| waiting := delete aid (waiting d); unblocks := unblocks d |}, ready ++ [t])
          else
            ({| waiting := <[ aid := wait' ]> (waiting d);
                unblocks := foldl (unblock_push t) (unblocks d) (elements wait') |}, ready)
      | None => (d, ready ++ [t])
      end
  | None => (d, ready ++ [t])
  end.

(** [DependencyTracker::complete]. *)
Definition dep_complete (done_id : string) (d : DependencyTracker) : DependencyTracker * list Task :=
  match unblocks d !! done_id with
  | Some l => foldl (complete_task done_id) ({| waiting := waiting d; unblocks := delete done_id (unblocks d) |}, []) l
  | None => (d, [])
  end.

Definition dep_clear (d : DependencyTracker) : DependencyTracker := new_tracker.

(** ** The queue *)

Lemma queued_cmp_trans_ge x y z : queued_cmp x y <> Lt -> queued_cmp y z <> Lt -> queued_cmp x z <> Lt.
Proof.
  unfold queued_cmp. intros H1 H2 H3.
  destruct (N.compare_spec (priority_rank (priority x)) (priority_rank (priority y)));
  destruct (N.compare_spec (priority_rank (priority y)) (priority_rank (priority z)));
  destruct (N.compare_spec (priority_rank (priority x)) (priority_rank (priority z))); try done; try lia;
  destruct (N.compare_spec (enqueued_at y) (enqueued_at x)), (N.compare_spec (enqueued_at z) (enqueued_at y)),
    (N.compare_spec (enqueued_at z) (enqueued_at x)); try done; try lia;
  destruct (N.compare_spec (task_seq y) (task_seq x)), (N.compare_spec (task_seq z) (task_seq y)),
    (N.compare_spec (task_seq z) (task_seq x)); try done; lia.
Qed.

Lemma queued_cmp_ge x y : queued_cmp x y <> Lt <->
  (priority_rank (priority y) < priority_rank (priority x) \/
   priority_rank (priority y) = priority_rank (priority x) /\
   (enqueued_at x < enqueued_at y \/ enqueued_at x = enqueued_at y /\ task_seq x <= task_seq y))%N.
Proof.
  unfold queued_cmp.
  destruct (N.compare_spec (priority_rank (priority x)) (priority_rank (priority y)));
    destruct (N.compare_spec (enqueued_at y) (enqueued_at x));
    destruct (N.compare_spec (task_seq y) (task_seq x)); split; intros; done || lia.
Qed.

Lemma queued_cmp_lt x y : queued_cmp x y = Lt -> queued_cmp y x <> Lt.
Proof.
  intros Hlt. apply queued_cmp_ge. unfold queued_cmp in Hlt.
  destruct (N.compare_spec (priority_rank (priority x)) (priority_rank (priority y))); try done; [|lia].
  destruct (N.compare_spec (enqueued_at y) (enqueued_at x)); try done; [|lia].
  destruct (N.compare_spec (task_seq y) (task_seq x)); try done. lia.
Qed.

Lemma heap_pop_spec h : match heap_pop h with
  | None => h = []
  | Some (x, rest) => h ≡ₚ x :: rest /\ Forall (fun y => queued_cmp x y <> Lt) rest
  end.
Proof.
  induction h as [|x h IH]; [done|]. cbn. destruct (heap_pop h) as [[y rest]|].
  - destruct IH as [Hp Hf]. destruct (queued_cmp x y) eqn:Hc.
    2: { split; [by rewrite Hp, Permutation_swap|]. constructor; [by apply queued_cmp_lt|done]. }
    all: split; [done|]; rewrite Hp; constructor; [congruence|].
    all: eapply Forall_impl; [exact Hf|]; intros z Hz; eapply queued_cmp_trans_ge; [|exact Hz]; congruence.
  - by subst h.
Qed.

(** ** Conservation and capacity *)

Definition within_capacity (s : Scheduler) : Prop :=
  forall a n, agent_active s !! a = Some n -> (n <= default u64_max (agent_capacity s !! a))%N.

Lemma start_task_spec q s : within_capacity s ->
  let '(s', r) := start_task q s in
  within_capacity s' /\ agent_capacity s' = agent_capacity s /\ q :: heap s ≡ₚ option_list r ++ heap s'.
Proof.
  intros Hc. unfold start_task. destruct (agent_id q) as [a|]; [|by split_and!].
  destruct (has_capacity a s) eqn:Hcap; cbn; split_and!; try done.
  intros b n. cbn. rewrite lookup_insert. case_decide; [subst; intros [= <-]|apply Hc].
  unfold has_capacity in Hcap. apply N.ltb_lt in Hcap. lia.
Qed.

Lemma find_llm_spec fuel target h stash : length h <= fuel ->
  let '(found, rest, stash') := find_llm fuel target h stash in
  stash ++ h ≡ₚ option_list found ++ stash' ++ rest /\
  match found with
  | Some q => llm_request_id (plan q) = Some target /\
      Forall (fun y => llm_request_id (plan y) = Some target -> queued_cmp q y <> Lt) h
  | None => Forall (fun y => llm_request_id (plan y) <> Some target) h
  end.
Proof.
  revert h stash. induction fuel as [|fuel IH]; intros h stash Hlen.
  { destruct h; [|cbn in Hlen; lia]. cbn. split; [done|constructor]. }
  cbn. pose proof (heap_pop_spec h) as Hp. destruct (heap_pop h) as [[q rest]|]; [|subst; cbn; split; [done|constructor]].
  destruct Hp as [Hp Hf]. assert (length h = S (length rest)) as Hl by (by rewrite Hp).
  case_bool_decide as Hq.
  - cbn. rewrite Hp. split; [by rewrite Permutation_middle|]. split; [done|]. constructor.
    + intros _ Hlt. pose proof (queued_cmp_lt q q Hlt). done.
    + eapply Forall_impl; [exact Hf|]. intros y Hy _. exact Hy.
  - specialize (IH rest (stash ++ [q]) ltac:(lia)). destruct (find_llm fuel target rest (stash ++ [q])) as [[found r] st].
    destruct IH as [IHp IHf]. split; [rewrite Hp, <- IHp, <- app_assoc; done|].
    destruct found as [f|]; rewrite Hp.
    + destruct IHf as [? ?]. split; [done|]. constructor; [done|done].
    + by constructor.
Qed.

Lemma foldl_cons_perm {A} (l rest : list A) : foldl (fun h q => q :: h) rest l ≡ₚ l ++ rest.
Proof. revert rest. induction l as [|x l IH]; intros rest; cbn; [done|]. rewrite IH. by rewrite Permutation_middle. Qed.

Lemma pop_any_spec s : within_capacity s ->
  let '(s', r) := pop_any s in
  within_capacity s' /\ agent_capacity s' = agent_capacity s /\ heap s ≡ₚ option_list r ++ heap s'.
Proof.
  intros Hc. unfold pop_any. pose proof (heap_pop_spec (heap s)) as Hp.
  destruct (heap_pop (heap s)) as [[q rest]|]; [|by split_and!]. destruct Hp as [Hp _].
  pose proof (start_task_spec q (set_heap rest s) Hc) as Hs. destruct (start_task q (set_heap rest s)) as [s' r].
  destruct Hs as (H1 & H2 & H3). split_and!; [done..|]. by rewrite Hp.
Qed.

Lemma pop_for_llm_conserves target s : within_capacity s ->
  let '(s', r) := pop_for_llm target s in
  within_capacity s' /\ agent_capacity s' = agent_capacity s /\ heap s ≡ₚ option_list r ++ heap s'.
Proof.
  intros Hc. destruct target as [t|]; [|by apply pop_any_spec]. cbn.
  pose proof (find_llm_spec (length (heap s)) t (heap s) [] (le_n _)) as Hf.
  destruct (find_llm _ t (heap s) []) as [[found rest] stash]. destruct Hf as [Hp _]. cbn in Hp.
  destruct found as [q|]; cbn in Hp.
  - pose proof (start_task_spec q (set_heap (foldl (fun h q => q :: h) rest stash) s) Hc) as Hs.
    destruct (start_task q _) as [s' r]. destruct Hs as (H1 & H2 & H3). split_and!; [done..|].
    rewrite Hp, <- H3. cbn. by rewrite foldl_cons_perm.
  - split_and!; [done..|]. cbn. by rewrite foldl_cons_perm.
Qed.

(** ** Operations and draining *)

Inductive op := OpPush (t : Task) | OpPopAny | OpPopForLlm (target : option string) | OpComplete (agent : option string) | OpClear.

Definition step (s : Scheduler) (o : op) : Scheduler * option Task :=
  match o with
  | OpPush t => (push t s, None)
  | OpPopAny => pop_any s
  | OpPopForLlm target => pop_for_llm target s
  | OpComplete a => (complete a s, None)
  | OpClear => (clear s, None)
  end.
Definition run (s : Scheduler) (ops : list op) : Scheduler := foldl (fun s o => (step s o).1) s ops.

Lemma step_capacity s o : within_capacity s ->
  within_capacity (step s o).1 /\ agent_capacity (step s o).1 = agent_capacity s.
Proof.
  intros Hc. destruct o as [t| |target|a|]; cbn; try done.
  - pose proof (pop_any_spec s Hc) as H. destruct (pop_any s). naive_solver.
  - pose proof (pop_for_llm_conserves target s Hc) as H. destruct (pop_for_llm target s). naive_solver.
  - destruct a as [a|]; [|done]. cbn. destruct (agent_active s !! a) as [n|] eqn:Hn; [|done]. split; [|done].
    intros b m. cbn. rewrite lookup_insert. case_decide; [subst; intros [= <-]; specialize (Hc b n Hn); lia|apply Hc].
Qed.

Lemma run_capacity ops s : within_capacity s -> within_capacity (run s ops) /\ agent_capacity (run s ops) = agent_capacity s.
Proof.
  revert s. induction ops as [|o ops IH]; intros s Hc; [done|]. destruct (step_capacity s o Hc) as [H1 H2].
  cbn. destruct (IH _ H1) as [H3 H4]. split; [done|]. etransitivity; [exact H4|exact H2].
Qed.

(** Popping until nothing comes out. *)
Fixpoint drain (n : nat) (s : Scheduler) : list Task :=
  match n with
  | O => []
  | S n' => match pop_any s with (s', Some t) => t :: drain n' s' | (_, None) => [] end
  end.

(** Task [a] is to run before task [b]. *)
Definition runs_before (a b : Task) : Prop :=
  (priority_rank (priority b) < priority_rank (priority a) \/
   priority_rank (priority b) = priority_rank (priority a) /\ task_seq a < task_seq b)%N.

(** The queue holds unowned tasks, numbered in the order of their times. *)
Definition fifo_heap (h : list Task) : Prop :=
  Forall (fun t => agent_id t = None) h /\ NoDup (task_seq <$> h) /\
  forall a b, a ∈ h -> b ∈ h -> (task_seq a < task_seq b -> enqueued_at a <= enqueued_at b)%N.

Lemma fifo_heap_perm h h' : h ≡ₚ h' -> fifo_heap h -> fifo_heap h'.
Proof.
  intros Hp (H1 & H2 & H3). split_and!; [by rewrite <- Hp|by rewrite <- Hp|]. intros a b. rewrite <- Hp. apply H3.
Qed.

Lemma drain_sorted n s : length (heap s) = n -> fifo_heap (heap s) ->
  drain n s ≡ₚ heap s /\ StronglySorted runs_before (drain n s).
Proof.
  revert s. induction n as [|n IH]; intros s Hn Hf.
  { destruct (heap s); [|done]. split; [done|constructor]. }
  cbn. unfold pop_any. pose proof (heap_pop_spec (heap s)) as Hp.
  destruct (heap_pop (heap s)) as [[q rest]|]; [|by rewrite Hp in Hn]. destruct Hp as [Hp Hmax].
  pose proof (fifo_heap_perm _ _ Hp Hf) as (Ha & Hnd & Hmono). rewrite Forall_cons in Ha. destruct Ha as [Hqa Ha].
  unfold start_task. rewrite Hqa. rewrite fmap_cons, NoDup_cons in Hnd. destruct Hnd as [Hq Hnd].
  destruct (IH (set_heap rest s)) as [IHp IHs].
  { cbn. rewrite Hp in Hn. cbn in Hn. lia. }
  { split_and!; [done..|]. intros a b Hina Hinb. apply Hmono; by apply list_elem_of_further. }
  split; [rewrite IHp, Hp; done|]. constructor; [done|]. rewrite IHp. cbn.
  apply Forall_forall. intros y Hy. rewrite Forall_forall in Hmax. specialize (Hmax y Hy). apply queued_cmp_ge in Hmax.
  assert (task_seq q <> task_seq y) as Hne by (intros Heq; apply Hq, list_elem_of_fmap; eauto).
  unfold runs_before. destruct Hmax as [|[He Ht]]; [by left|]. right. split; [done|].
  pose proof (Hmono y q (list_elem_of_further _ _ _ Hy) (list_elem_of_here _ _)). lia.
Qed.

Definition push_all (ts : list Task) (s : Scheduler) : Scheduler := foldl (fun s t => push t s) s ts.

Lemma push_all_fifo ts s :
  fifo_heap (heap s) -> Forall (fun t => agent_id t = None) ts -> StronglySorted (fun a b => enqueued_at a <= enqueued_at b)%N ts ->
  (next_seq s + lenN ts < u64_max)%N ->
  (forall a, a ∈ heap s -> (task_seq a < next_seq s)%N /\ Forall (fun t => enqueued_at a <= enqueued_at t)%N ts) ->
  fifo_heap (heap (push_all ts s)) /\ length (heap (push_all ts s)) = length (heap s) + length ts.
Proof.
  revert s. induction ts as [|t ts IH]; intros s Hf Ha Ht Hlen Hold; [split; [done|cbn; lia]|].
  cbn. inversion Ha as [|? ? Ha1 Ha2]; subst. inversion Ht as [|? ? Ht1 Ht2]; subst.
  assert (Hlen' : (lenN (t :: ts) = 1 + lenN ts)%N) by (unfold lenN; cbn; lia). rewrite Hlen' in Hlen.
  assert (Hseq : sat_add64 (next_seq s) 1 = (next_seq s + 1)%N) by (apply sat_add64_exact; lia).
  destruct Hf as (Hag & Hnd & Hmono).
  destruct (IH (push t s)) as [H1 H2]; [|done|done|cbn; rewrite Hseq; lia| |split; [done|etransitivity; [exact H2|cbn; lia]]].
  - cbn. split_and!; [by constructor| |].
    + rewrite fmap_cons, NoDup_cons. split; [|done]. cbn. intros Hin.
      apply list_elem_of_fmap in Hin as (y & Hy & Hin). apply Hold in Hin as [Hlt _]. lia.
    + intros a b Hina Hinb. rewrite elem_of_cons in Hina, Hinb. destruct Hina as [->|Hina], Hinb as [->|Hinb]; cbn.
      * lia.
      * apply Hold in Hinb as [? _]. lia.
      * apply Hold in Hina as [_ Hfa]. inversion Hfa; subst. done.
      * by apply Hmono.
  - cbn. rewrite Hseq. intros a Hin. rewrite elem_of_cons in Hin. destruct Hin as [->|Hin]; cbn.
    + split; [lia|done].
    + apply Hold in Hin as [? Hfa]. inversion Hfa; subst. split; [lia|done].
Qed.

(** The first of two dependencies completes: the task still waits for the
    second, and is queued under it twice. *)
Lemma first_completion (t : Task) (aid a b : string) :
  action_id (plan t) = Some aid -> depends_on (plan t) = [a; b] -> a <> b ->
  exists d, dep_complete a (dep_add t new_tracker) = (d, []) /\
    waiting d !! aid = Some {[ b ]} /\ unblocks d !! b = Some [t; t].
Proof.
  intros Hid Hd Hab. unfold dep_add, dep_complete. rewrite Hd, Hid. cbn [foldl unblocks waiting new_tracker].
  assert (unblock_push t (unblock_push t ∅ a) b !! a = Some [t]) as ->.
  { unfold unblock_push at 1. rewrite lookup_insert_ne by done. unfold unblock_push. by rewrite lookup_insert_eq. }
  cbn [foldl]. unfold complete_task. rewrite Hid. cbn [waiting unblocks]. rewrite lookup_insert_eq.
  assert (list_to_set [a; b] ∖ {[a]} = ({[b]} : gset string)) as -> by set_solver.
  rewrite bool_decide_eq_false_2 by set_solver. eexists. split; [reflexivity|]. cbn [waiting unblocks].
  rewrite lookup_insert_eq, elements_singleton. cbn [foldl]. split; [done|].
  unfold unblock_push at 1. rewrite lookup_insert_eq, lookup_delete_ne by done.
  unfold unblock_push at 1. rewrite lookup_insert_eq. unfold unblock_push. by rewrite lookup_insert_ne.
Qed.

(** A task with its number. *)
Definition numbered (n : N) (t : Task) : Task :=
  {| priority := priority t; enqueued_at := enqueued_at t; task_seq := n; agent_id := agent_id t; plan := plan t |}.

Lemma push_all_heap ts s : (next_seq s + lenN ts <= u64_max)%N ->
  heap (push_all ts s) ≡ₚ heap s ++ imap (fun i t => numbered (next_seq s + N.of_nat i) t) ts.
Proof.
  revert s. induction ts as [|t ts IH]; intros s Hlen; [by rewrite app_nil_r|].
  assert (Hlen' : (lenN (t :: ts) = 1 + lenN ts)%N) by (unfold lenN; cbn; lia). rewrite Hlen' in Hlen.
  assert (Hseq : next_seq (push t s) = (next_seq s + 1)%N) by (cbn; apply sat_add64_exact; lia).
  change (push_all (t :: ts) s) with (push_all ts (push t s)). rewrite IH, Hseq by (rewrite Hseq; lia).
  cbn [push heap]. rewrite imap_cons, N.add_0_r, <- Permutation_middle.
  change (numbered (next_seq s) t) with {| priority := priority t; enqueued_at := enqueued_at t; task_seq := next_seq s; agent_id := agent_id t; plan := plan t |}.
  cbn [app]. apply perm_skip, Permutation_app_head. erewrite imap_ext; [reflexivity|]. intros i x _. unfold compose. cbv beta. f_equal. lia.
Qed.

(** ** Properties *)

(** C22: tasks of no particular agent run by priority, and first come first
    served within a priority: pushing any tasks in the order of their times
    and popping them all gives exactly the tasks pushed, each once and with its
    place in the sequence as its number, in that order. *)
Theorem tasks_run_in_priority_order (ts : list Task) :
  Forall (fun t => agent_id t = None) ts ->
  StronglySorted (fun a b => enqueued_at a <= enqueued_at b)%N ts ->
  (lenN ts < u64_max)%N ->
  let out := drain (length ts) (push_all ts new_scheduler) in
  out ≡ₚ imap (fun i t => numbered (N.of_nat i) t) ts /\ StronglySorted runs_before out.
Proof.
  intros Ha Ht Hlen out. destruct (push_all_fifo ts new_scheduler) as [H1 H2].
  - cbn. split_and!; [constructor|constructor|]. by intros a b ?%elem_of_nil.
  - done.
  - done.
  - cbn. lia.
  - by intros a ?%elem_of_nil.
  - destruct (drain_sorted _ _ H2 H1) as [Hp Hs]. split; [|exact Hs]. unfold out. etrans; [exact Hp|].
    apply (push_all_heap ts new_scheduler). cbn. lia.
Qed.


(** no agent ever runs more tasks than its capacity, whatever the order
    of the calls, and a pop neither loses nor invents tasks: what it returns
    and what stays queued is what was queued. *)
Theorem capacity_respected (cap : gmap string N) (ops : list op) :
  let s := run {| heap := []; next_seq := 0; agent_capacity := cap; agent_active := ∅ |} ops in
  (forall a, default 0 (agent_active s !! a) <= default u64_max (cap !! a))%N /\
  (let '(s', r) := pop_any s in heap s ≡ₚ option_list r ++ heap s') /\
  (forall target, let '(s', r) := pop_for_llm target s in heap s ≡ₚ option_list r ++ heap s').
Proof.
  intros s. destruct (run_capacity ops {| heap := []; next_seq := 0; agent_capacity := cap; agent_active := ∅ |}) as [Hc He]; [done|].
  fold s in Hc, He. cbn in He. split_and!.
  - intros a. specialize (Hc a). rewrite He in Hc. destruct (agent_active s !! a); [by apply Hc|]. cbn. lia.
  - pose proof (pop_any_spec s Hc) as H. destruct (pop_any s). naive_solver.
  - intros target. pose proof (pop_for_llm_conserves target s Hc) as H. destruct (pop_for_llm target s). naive_solver.
Qed.

(** [pop_for_llm] finds the best task of the request: the task it returns
    belongs to the request and no queued task of the request precedes it. *)
Theorem pop_for_llm_finds_best (target : string) (s s' : Scheduler) (t : Task) :
  pop_for_llm (Some target) s = (s', Some t) ->
  t ∈ heap s /\ llm_request_id (plan t) = Some target /\
  Forall (fun y => llm_request_id (plan y) = Some target -> queued_cmp t y <> Lt) (heap s).
Proof.
  cbn. pose proof (find_llm_spec (length (heap s)) target (heap s) [] (le_n _)) as Hf.
  destruct (find_llm _ target (heap s) []) as [[found rest] stash]. destruct Hf as [Hp Hm]. cbn in Hp.
  destruct found as [q|]; [|done]. intros Hs. assert (t = q) as ->.
  { unfold start_task in Hs. destruct (agent_id q); [destruct (negb _)|]; by injection Hs. }
  destruct Hm as [Hq Hbest]. split_and!; [|done|done]. rewrite Hp. apply list_elem_of_here.
Qed.


(** a task that waits for two actions is released twice.  Completing the
    first action queues the task a second time under the second one, so that
    completing the second hands it out two times. *)
Theorem two_dependencies_release_twice (t : Task) (aid a b : string) :
  action_id (plan t) = Some aid -> depends_on (plan t) = [a; b] -> a <> b ->
  let d1 := dep_complete a (dep_add t new_tracker) in
  d1.2 = [] /\ (dep_complete b d1.1).2 = [t; t].
Proof.
  intros Hid Hd Hab d1. destruct (first_completion t aid a b Hid Hd Hab) as (d & Hd1 & Hw & Hu).
  unfold d1. rewrite Hd1. split; [done|]. cbn [fst]. unfold dep_complete. rewrite Hu. cbn [foldl].
  unfold complete_task at 2. rewrite Hid. cbn [waiting]. rewrite Hw, bool_decide_eq_true_2 by set_solver.
  unfold complete_task. rewrite Hid. cbn [waiting]. by rewrite lookup_delete_eq.
Qed.
End Queue.

(** ** Witnesses *)

(** The fields of [LoopPlanned] that matter here. *)
Record SamplePlan := { sp_kind : string; sp_request : option string; sp_id : option string; sp_deps : list string }.
#[export] Instance sample_planned : Planned SamplePlan := {| action_kind := sp_kind; llm_request_id := sp_request; action_id := sp_id; depends_on := sp_deps |}.
Definition sample_task (p : TaskPriority) (at_ : N) (agent : option string) (deps : list string) : Task (P := SamplePlan) :=
  {| priority := p; enqueued_at := at_; task_seq := 0; agent_id := agent;
     plan := {| sp_kind := "edit"; sp_request := Some "r1"; sp_id := Some "t"; sp_deps := deps |} |}.


Lemma tasks_run_in_priority_order_witness :
  let out := drain 3 (push_all [sample_task Low 1 None []; sample_task High 2 None []; sample_task High 2 None []] new_scheduler) in
  out ≡ₚ [sample_task Low 1 None []; numbered 1 (sample_task High 2 None []); numbered 2 (sample_task High 2 None [])] /\
  StronglySorted runs_before out.
Proof.
  apply (tasks_run_in_priority_order [sample_task Low 1 None []; sample_task High 2 None []; sample_task High 2 None []]).
  - by repeat constructor.
  - repeat constructor; cbn; lia.
  - vm_compute. reflexivity.
Defined.

Lemma pop_for_llm_finds_best_witness :
  sample_task High 2 None [] ∈ [sample_task Low 1 None []; sample_task High 2 None []].
Proof.
  apply (pop_for_llm_finds_best "r1" (set_heap [sample_task Low 1 None []; sample_task High 2 None []] new_scheduler)
    (set_heap [sample_task Low 1 None []] new_scheduler)).
  vm_compute. reflexivity.
Defined.

Lemma two_dependencies_release_twice_witness :
  (dep_complete "b" (dep_complete "a" (dep_add (sample_task Normal 1 None ["a"; "b"]) new_tracker)).1).2
  = [sample_task Normal 1 None ["a"; "b"]; sample_task Normal 1 None ["a"; "b"]].
Proof. by apply (two_dependencies_release_twice (sample_task Normal 1 None ["a"; "b"]) "t" "a" "b"). Defined.
