(* ===== verification/PatchParser.v ===== *)
(** * The patch parser ([canon-tools-patch/src/parser.rs])

    Text is UTF-8 bytes.  A computation is [None] when the code would panic on
    a slice index; the loops carry fuel and are [None] when it runs out. *)
From Stdlib Require Import Strings.String.
From S2P Require Import Prelude Text.

Definition lit (s : string) : bytes := String.list_byte_of_string s.

Definition BEGIN_PATCH_MARKER : bytes := lit "*** Begin Patch".
Definition END_PATCH_MARKER : bytes := lit "*** End Patch".
Definition ADD_FILE_MARKER : bytes := lit "*** Add File: ".
Definition DELETE_FILE_MARKER : bytes := lit "*** Delete File: ".
Definition UPDATE_FILE_MARKER : bytes := lit "*** Update File: ".
Definition MOVE_TO_MARKER : bytes := lit "*** Move to: ".
Definition EOF_MARKER : bytes := lit "*** End of File".
Definition CHANGE_CONTEXT_MARKER : bytes := lit "@@ ".
Definition EMPTY_CHANGE_CONTEXT_MARKER : bytes := lit "@@".

Inductive ParseError :=
  | InvalidPatchError (msg : string)
  | InvalidHunkError (msg : string) (line_number : nat).

Record UpdateFileChunk := {
  change_context : option bytes; old_lines : list bytes; new_lines : list bytes; is_end_of_file : bool
}.

Inductive Hunk :=
  | AddFile (path contents : bytes)
  | DeleteFile (path : bytes)
  | UpdateFile (path : bytes) (move_path : option bytes) (chunks : list UpdateFileChunk).

Definition P (A : Type) : Type := option (result ParseError A).
Definition ok {A} (a : A) : P A := Some (Ok a).
Definition err {A} (e : ParseError) : P A := Some (Err e).
Definition bindP {A B} (m : P A) (f : A -> P B) : P B :=
  match m with Some (Ok a) => f a | Some (Err e) => Some (Err e) | None => None end.

(** ** Text *)

Definition starts_with (p l : bytes) : bool := bool_decide (take (length p) l = p).
Definition strip_prefix (p l : bytes) : option bytes := if starts_with p l then Some (drop (length p) l) else None.
Definition ends_with (p l : bytes) : bool := bool_decide (drop (length l - length p) l = p).
Fixpoint contains (p l : bytes) : bool := starts_with p l || match l with [] => false | _ :: l' => contains p l' end.
(** [trim_start_matches(c)]: every leading occurrence. *)
Fixpoint trim_start_matches (c : byte) (l : bytes) : bytes :=
  match l with b :: l' => if Byte.eqb b c then trim_start_matches c l' else l | [] => [] end.
(** [split_once('\n').unwrap_or((l, ""))]. *)
Fixpoint split_newline (l : bytes) : bytes * bytes :=
  match l with
  | [] => ([], [])
  | b :: l' => if Byte.eqb b x0a then ([], l') else let '(p, s) := split_newline l' in (b :: p, s)
  end.
Definition join (sep : bytes) (ls : list bytes) : bytes :=
  match ls with [] => [] | l :: ls' => l ++ concat ((fun x => sep ++ x) <$> ls') end.

(** [str::lines]: a carriage return before a line feed goes with it, and a
    final empty piece is not a line. *)
Definition strip_cr (l : bytes) : bytes :=
  match last l with Some b => if Byte.eqb b x0d then take (length l - 1) l else l | None => l end.
Definition str_lines (text : bytes) : list bytes :=
  let parts := split_lines text in
  let n := length parts - 1 in
  (strip_cr <$> take n parts) ++ match last parts with Some [] | None => [] | Some l => [l] end.

(** [&l[i..j]], panicking when the range is not in the slice. *)
Definition slice {A} (i j : nat) (l : list A) : option (list A) :=
  if (i <=? j) && (j <=? length l) then Some (take (j - i) (drop i l)) else None.

(** ** Boundaries *)

(** [check_patch_boundaries_strict] with [check_start_and_end_lines_strict]. *)
Definition check_patch_boundaries_strict (lines : list bytes) : result ParseError unit :=
  match head lines, last lines with
  | Some first, Some last_line =>
      if bool_decide (trim first = BEGIN_PATCH_MARKER) && bool_decide (trim last_line = END_PATCH_MARKER) then Ok tt
      else if negb (bool_decide (trim first = BEGIN_PATCH_MARKER)) then
        Err (InvalidPatchError "patch should start with *** Begin Patch")
      else if negb (bool_decide (trim last_line = END_PATCH_MARKER)) then
        Err (InvalidPatchError "patch should end with *** End Patch")
      else Err (InvalidPatchError "patch is empty")
  | _, _ => Err (InvalidPatchError "patch is empty")
  end.

Fixpoint position (f : bytes -> bool) (ls : list bytes) : option nat :=
  match ls with [] => None | l :: ls' => if f l then Some 0 else S <$> position f ls' end.
Fixpoint rposition (f : bytes -> bool) (ls : list bytes) : option nat :=
  match ls with
  | [] => None
  | l :: ls' => match rposition f ls' with Some i => Some (S i) | None => if f l then Some 0 else None end
  end.

(** [check_patch_boundaries_lenient]. *)
Definition check_patch_boundaries_lenient (lines : list bytes) (strict_error : ParseError) : P (list bytes) :=
  if length lines <? 4 then err strict_error
  else
    let '(first_prefix, first_suffix) := split_newline (default [] (head lines)) in
    let '(last_prefix, last_suffix) := split_newline (default [] (last lines)) in
    let looks_like_heredoc := starts_with (lit "<<") (trim first_prefix) && ends_with (lit "EOF") (trim last_suffix) in
    if looks_like_heredoc && contains BEGIN_PATCH_MARKER first_suffix && contains END_PATCH_MARKER last_prefix then
      let first_idx := default 0 (position (contains BEGIN_PATCH_MARKER) lines) in
      let last_idx := default (length lines - 1) (rposition (contains END_PATCH_MARKER) lines) in
      match slice first_idx (S last_idx) lines with Some ls => ok ls | None => None end
    else err strict_error.

(** ** Hunks *)

(** The added lines of an Add File hunk, in order. *)
Fixpoint added_lines (ls : list bytes) : list bytes :=
  match ls with
  | [] => []
  | line :: ls' =>
      let trimmed := trim_end line in
      if bool_decide (trimmed = ADD_FILE_MARKER) || bool_decide (trimmed = DELETE_FILE_MARKER)
         || bool_decide (trimmed = UPDATE_FILE_MARKER) || bool_decide (trimmed = EOF_MARKER) then []
      else if starts_with [x2b] trimmed then trim_start_matches x2b trimmed :: added_lines ls'
      else []
  end.

Definition is_file_header (t : bytes) : bool :=
  starts_with ADD_FILE_MARKER t || starts_with DELETE_FILE_MARKER t || starts_with UPDATE_FILE_MARKER t.

(** The loop of [parse_update_chunk]: lines consumed, removed, added, end of
    file seen. *)
Fixpoint chunk_lines (ls : list bytes) (line_number : nat) : result ParseError (nat * list bytes * list bytes * bool) :=
  match ls with
  | [] => Ok (0, [], [], false)
  | line :: ls' =>
      let trimmed := trim_end line in
      let line_number := S line_number in
      if bool_decide (trimmed = EOF_MARKER) then Ok (1, [], [], true)
      else if starts_with (lit "@@") trimmed || is_file_header trimmed then Ok (0, [], [], false)
      else
        let keep (os ns : list bytes) :=
          match chunk_lines ls' line_number with
          | Ok (n, old, new, eof) => Ok (S n, os ++ old, ns ++ new, eof)
          | Err e => Err e
          end in
        match strip_prefix [x2b] trimmed, strip_prefix [x2d] trimmed, strip_prefix [x20] trimmed with
        | Some rest, _, _ => keep [] [rest]
        | None, Some rest, _ => keep [rest] []
        | None, None, Some rest => keep [rest] [rest]
        | None, None, None =>
            match trimmed with
            | [] => keep [[]] [[]]
            | _ => Err (InvalidHunkError ("unexpected line in update chunk: " ++ String.string_of_list_byte trimmed) line_number)
            end
        end
  end.

(** [parse_update_chunk]. *)
Definition parse_update_chunk (lines : list bytes) (starting_line_number : nat) : result ParseError (UpdateFileChunk * nat) :=
  match lines with
  | [] => Err (InvalidHunkError "missing update chunk" starting_line_number)
  | first_line :: rest =>
      let t := trim first_line in
      if starts_with CHANGE_CONTEXT_MARKER t || bool_decide (t = EMPTY_CHANGE_CONTEXT_MARKER) then
        let ctx := trim (default [] (strip_prefix CHANGE_CONTEXT_MARKER t)) in
        match chunk_lines rest starting_line_number with
        | Ok (n, old, new, eof) =>
            Ok ({| change_context := match ctx with [] => None | _ => Some ctx end;
                   old_lines := old; new_lines := new; is_end_of_file := eof |}, S n)
        | Err e => Err e
        end
      else Err (InvalidHunkError "missing @@ context header" starting_line_number)
  end.

(** The loop over the chunks of an Update File hunk: lines consumed, chunks. *)
Fixpoint update_chunks (fuel : nat) (remaining : list bytes) (line_number : nat) : P (nat * list UpdateFileChunk) :=
  match remaining, fuel with
  | [], _ => ok (0, [])
  | _, O => None
  | _, S fuel' =>
      match parse_update_chunk remaining line_number with
      | Err e => err e
      | Ok (chunk, used) =>
          match slice used (length remaining) remaining with
          | None => None
          | Some rest =>
              if match rest with [] => true | l :: _ => is_file_header (trim l) end then ok (used, [chunk])
              else bindP (update_chunks fuel' rest (line_number + used)) (fun '(n, chunks) => ok (used + n, chunk :: chunks))
          end
      end
  end.

(** [parse_one_hunk]. *)
Definition parse_one_hunk (lines : list bytes) (line_number : nat) : P (Hunk * nat) :=
  match lines with
  | [] => err (InvalidPatchError "missing hunk")
  | first :: rest =>
      let first_line := trim first in
      match strip_prefix ADD_FILE_MARKER first_line with
      | Some filename =>
          let filename := trim filename in
          match filename with
          | [] => err (InvalidHunkError "missing filename for Add File" line_number)
          | _ =>
              match added_lines rest with
              | [] => err (InvalidHunkError "Add File hunk requires at least one + line" line_number)
              | contents => ok (AddFile filename (join [x0a] contents ++ [x0a]), S (length contents))
              end
          end
      | None =>
          match strip_prefix DELETE_FILE_MARKER first_line with
          | Some filename =>
              match trim filename with
              | [] => err (InvalidHunkError "missing filename for Delete File" line_number)
              | filename => ok (DeleteFile filename, 1)
              end
          | None =>
              match strip_prefix UPDATE_FILE_MARKER first_line with
              | Some filename =>
                  match trim filename with
                  | [] => err (InvalidHunkError "missing filename for Update File" line_number)
                  | filename =>
                      let '(move_path, remaining, moved) :=
                        match rest with
                        | first_rest :: rest' =>
                            match strip_prefix MOVE_TO_MARKER (trim first_rest) with
                            | Some dest => (Some (trim dest), rest', 1)
                            | None => (None, rest, 0)
                            end
                        | [] => (None, rest, 0)
                        end in
                      bindP (update_chunks (length remaining) remaining (line_number + moved)) (fun '(n, chunks) =>
                        ok (UpdateFile filename move_path chunks, 1 + moved + n))
                  end
              | None => err (InvalidHunkError "expected Add/Delete/Update hunk" line_number)
              end
          end
      end
  end.

(** The [while] loop of [parse_patch_text]. *)
Fixpoint parse_hunks (fuel : nat) (remaining : list bytes) (line_number : nat) : P (list Hunk) :=
  match remaining, fuel with
  | [], _ => ok []
  | _, O => None
  | _, S fuel' =>
      bindP (parse_one_hunk remaining line_number) (fun '(hunk, hunk_lines) =>
        match slice hunk_lines (length remaining) remaining with
        | None => None
        | Some rest => bindP (parse_hunks fuel' rest (line_number + hunk_lines)) (fun hunks => ok (hunk :: hunks))
        end)
  end.

(** [parse_patch]: lenient mode. *)
Definition parse_patch (patch : bytes) : P (list Hunk * bytes) :=
  let lines := str_lines (trim patch) in
  bindP (match check_patch_boundaries_strict lines with
         | Ok _ => ok lines
         | Err e => check_patch_boundaries_lenient lines e
         end)
    (fun lines =>
      match slice 1 (length lines - 1) lines with
      | None => None
      | Some body => bindP (parse_hunks (length body) body 2) (fun hunks => ok (hunks, join [x0a] lines))
      end).

(** [affected_paths_from_hunks]: added, modified, deleted. *)
Definition affected_paths_from_hunks (hunks : list Hunk) : result string (list bytes * list bytes * list bytes) :=
  match hunks with
  | [] => Err "No files were modified."
  | _ => Ok (foldl (fun '(a, m, d) h =>
               match h with
               | AddFile path _ => (a ++ [path], m, d)
               | DeleteFile path => (a, m, d ++ [path])
               | UpdateFile path move_path _ => (a, m ++ [default path move_path], d)
               end) ([], [], []) hunks)
  end.
