(* ===== verification/PatchTotal.v ===== *)
(** * The patch parser is total

    Every loop round consumes at least one line and never more than there are,
    so no slice index is out of range and the fuel suffices. *)
From Stdlib Require Import Strings.String.
From S2P Require Import Prelude Text PatchParser.

Lemma slice_suffix {A} k (l : list A) : k <= length l -> slice k (length l) l = Some (drop k l).
Proof.
  intros Hk. unfold slice. rewrite (proj2 (Nat.leb_le _ _) Hk), Nat.leb_refl. cbn. f_equal.
  apply take_ge. rewrite length_drop. lia.
Qed.

Lemma chunk_lines_bound ls n k old new eof : chunk_lines ls n = Ok (k, old, new, eof) -> k <= length ls.
Proof.
  revert n k old new eof. induction ls as [|l ls IH]; intros n k old new eof; cbn; [by intros [= <- _ _ _]|].
  case_bool_decide; [intros [= <- _ _ _]; lia|]. destruct (_ || _); [intros [= <- _ _ _]; lia|].
  destruct (chunk_lines ls (S n)) as [[[[k' old'] new'] eof']|e] eqn:Hc.
  - specialize (IH _ _ _ _ _ Hc). repeat case_match; intros; simplify_eq; lia.
  - repeat case_match; intros; simplify_eq.
Qed.

Lemma update_chunk_bound ls n c k : parse_update_chunk ls n = Ok (c, k) -> 1 <= k <= length ls.
Proof.
  destruct ls as [|l ls]; [done|]. cbn. destruct (_ || _); [|done].
  destruct (chunk_lines ls n) as [[[[k' old] new] eof]|e] eqn:Hc; [|done]. intros [= _ <-].
  apply chunk_lines_bound in Hc. lia.
Qed.

Lemma update_chunks_total fuel ls n : length ls <= fuel ->
  match update_chunks fuel ls n with None => False | Some (Ok (k, _)) => k <= length ls | Some (Err _) => True end.
Proof.
  revert ls n. induction fuel as [|fuel IH]; intros ls n Hl.
  { destruct ls; [cbn; lia|cbn in Hl; lia]. }
  destruct ls as [|l ls]; [cbn; lia|]. cbn [update_chunks].
  destruct (parse_update_chunk (l :: ls) n) as [[c k]|e] eqn:Hp; [|done].
  apply update_chunk_bound in Hp. rewrite slice_suffix by lia.
  assert (Hd : length (drop k (l :: ls)) = length (l :: ls) - k) by apply length_drop.
  destruct (match drop k (l :: ls) with [] => true | _ => _ end); [cbn in *; lia|].
  specialize (IH (drop k (l :: ls)) (n + k) ltac:(lia)).
  destruct (update_chunks fuel (drop k (l :: ls)) (n + k)) as [[[m cs]|e]|]; cbn [bindP ok]; [lia|done..].
Qed.

Lemma added_lines_bound ls : length (added_lines ls) <= length ls.
Proof. induction ls as [|l ls IH]; cbn; [done|]. repeat case_match; cbn; lia. Qed.

Lemma one_hunk_total ls n : ls <> [] ->
  match parse_one_hunk ls n with None => False | Some (Ok (_, k)) => 1 <= k <= length ls | Some (Err _) => True end.
Proof.
  destruct ls as [|l ls]; [done|]. intros _. unfold parse_one_hunk.
  destruct (strip_prefix ADD_FILE_MARKER (trim l)) as [f|].
  { destruct (trim f); [done|]. pose proof (added_lines_bound ls). destruct (added_lines ls); [done|]. cbn in *. lia. }
  destruct (strip_prefix DELETE_FILE_MARKER (trim l)) as [f|]; [destruct (trim f); cbn; [done|lia]|].
  destruct (strip_prefix UPDATE_FILE_MARKER (trim l)) as [f|]; [|done]. destruct (trim f) as [|b fn]; [done|].
  assert (Hbody : forall mv rem moved, moved + length rem = length ls ->
    match bindP (update_chunks (length rem) rem (n + moved)) (fun '(k, chunks) => ok (UpdateFile (b :: fn) mv chunks, 1 + moved + k)) with
    | None => False | Some (Ok (_, k)) => 1 <= k <= length (l :: ls) | Some (Err _) => True end).
  { intros mv rem moved Hm. pose proof (update_chunks_total (length rem) rem (n + moved) (le_n _)) as Hu.
    destruct (update_chunks _ rem _) as [[[k cs]|e]|]; cbn; [lia|done..]. }
  destruct ls as [|r ls']; [by apply Hbody|]. destruct (strip_prefix MOVE_TO_MARKER (trim r)); apply Hbody; cbn; lia.
Qed.

Lemma hunks_total fuel ls n : length ls <= fuel -> parse_hunks fuel ls n <> None.
Proof.
  revert ls n. induction fuel as [|fuel IH]; intros ls n Hl.
  { destruct ls; [done|cbn in Hl; lia]. }
  destruct ls as [|l ls]; [done|]. cbn [parse_hunks].
  pose proof (one_hunk_total (l :: ls) n ltac:(done)) as Ho.
  destruct (parse_one_hunk (l :: ls) n) as [[[h k]|e]|]; cbn [bindP]; [|done..].
  rewrite slice_suffix by lia.
  assert (Hd : length (drop k (l :: ls)) = length (l :: ls) - k) by apply length_drop.
  specialize (IH (drop k (l :: ls)) (n + k) ltac:(lia)).
  destruct (parse_hunks fuel (drop k (l :: ls)) (n + k)) as [[hs|e]|]; done.
Qed.

(** ** Lines have no line feeds *)

Lemma split_lines_no_lf text : Forall (fun l => x0a ∉ l) (split_lines text).
Proof.
  assert (Hnil : x0a ∉ ([] : bytes)) by by intros ?%elem_of_nil.
  induction text as [|b text IH]; cbn; [by apply Forall_singleton|].
  destruct (Byte.eqb b x0a) eqn:E; [by constructor|].
  assert (b <> x0a) by (intros ->; by cbn in E).
  destruct (split_lines text) as [|l ls]; [apply Forall_singleton|inversion IH; subst; constructor; [|done]];
    apply not_elem_of_cons; (split; [congruence|done]).
Qed.

Lemma strip_cr_incl l b : b ∈ strip_cr l -> b ∈ l.
Proof.
  unfold strip_cr. destruct (last l); [|done]. destruct (Byte.eqb _ _); [|done].
  intros Hb. rewrite <- (take_drop (length l - 1) l), elem_of_app. by left.
Qed.

Lemma str_lines_no_lf text : Forall (fun l => x0a ∉ l) (str_lines text).
Proof.
  pose proof (split_lines_no_lf text) as Hs. unfold str_lines. apply Forall_app. split.
  - apply Forall_fmap, Forall_take. eapply Forall_impl; [exact Hs|]. intros l Hl Hin. by apply Hl, strip_cr_incl.
  - destruct (last (split_lines text)) as [[|b l]|] eqn:Hl; [constructor|constructor; [|constructor]|constructor].
    apply last_Some_elem_of in Hl. rewrite Forall_forall in Hs. by apply Hs.
Qed.

Lemma split_newline_none l : x0a ∉ l -> split_newline l = (l, []).
Proof.
  induction l as [|b l IH]; intros Hl; cbn; [done|]. apply not_elem_of_cons in Hl as [Hb Hl].
  rewrite (IH Hl). destruct (Byte.eqb b x0a) eqn:E; [|done]. by apply byte_dec_bl in E.
Qed.

(** The lenient mode accepts nothing the strict mode refuses. *)
Lemma lenient_is_strict lines e : Forall (fun l => x0a ∉ l) lines -> check_patch_boundaries_lenient lines e = err e.
Proof.
  intros Hl. unfold check_patch_boundaries_lenient. destruct (length lines <? 4); [done|].
  destruct lines as [|l lines]; [done|]. inversion Hl; subst. cbn [head default from_option id].
  rewrite split_newline_none by done. destruct (split_newline (default [] (last (l :: lines)))) as [lp ls].
  replace (contains BEGIN_PATCH_MARKER []) with false by reflexivity. by rewrite andb_false_r.
Qed.

Lemma strict_two_lines lines u : check_patch_boundaries_strict lines = Ok u -> 2 <= length lines.
Proof.
  unfold check_patch_boundaries_strict. destruct lines as [|a [|b lines]]; cbn [head last length]; [done| |lia].
  destruct (_ && _) eqn:Hb; [|by repeat case_match].
  apply andb_true_iff in Hb as [H1%bool_decide_eq_true H2%bool_decide_eq_true]. rewrite H1 in H2. by vm_compute in H2.
Qed.

Lemma patch_total patch : parse_patch patch <> None.
Proof.
  unfold parse_patch. cbv zeta. pose proof (str_lines_no_lf (trim patch)) as Hnl.
  destruct (check_patch_boundaries_strict _) as [u|e] eqn:Hs.
  - cbn [bindP ok]. apply strict_two_lines in Hs. unfold slice.
    rewrite (proj2 (Nat.leb_le _ _)), (proj2 (Nat.leb_le _ _)) by lia. cbn [andb].
    set (body := take _ _). pose proof (hunks_total (length body) body 2 (le_n _)).
    destruct (parse_hunks (length body) body 2) as [[hs|e]|]; done.
  - by rewrite lenient_is_strict.
Qed.
