(* ===== verification/PatchRoundTrip.v ===== *)
(** * Printing and parsing patches

    The patch format as a printer on structured patches, and the proof that
    the parser reads back what was printed. *)
From Stdlib Require Import Strings.String.
From S2P Require Import Prelude Text PatchParser PatchTotal.

(** ** Trimming *)

Definition rev_white_space : list bytes := reverse <$> white_space.

Lemma strip_any_None pats bs : strip_any pats bs = None <-> Forall (fun p => take (length p) bs <> p) pats.
Proof.
  induction pats as [|p pats IH]; cbn; [split; [constructor|done]|]. rewrite Forall_cons.
  case_bool_decide; [split; [done|tauto]|]. rewrite IH. tauto.
Qed.

Lemma strip_any_shorter pats bs bs' : Forall (fun p => p <> []) pats -> strip_any pats bs = Some bs' -> length bs' < length bs.
Proof.
  induction 1 as [|p pats Hp _ IH]; cbn; [done|]. case_bool_decide as Ht; [|by apply IH].
  intros [= <-]. rewrite length_drop. assert (length p <= length bs) by (rewrite <- Ht, length_take; lia).
  destruct p; [done|]. cbn in *. lia.
Qed.

Lemma trim_with_shorter pats n bs : Forall (fun p => p <> []) pats -> length (trim_with pats n bs) <= length bs.
Proof.
  intros Hp. revert bs. induction n as [|n IH]; intros bs; cbn; [done|]. destruct (strip_any pats bs) as [bs'|] eqn:E; [|done].
  apply strip_any_shorter in E; [|done]. specialize (IH bs'). lia.
Qed.

Lemma trim_with_fix pats bs : Forall (fun p => p <> []) pats ->
  trim_with pats (length bs) bs = bs <-> strip_any pats bs = None.
Proof.
  intros Hp. destruct bs as [|b bs].
  { cbn. split; [|done]. intros _. apply strip_any_None. eapply Forall_impl; [exact Hp|]. intros p Hne. by rewrite take_nil. }
  cbn [length trim_with]. destruct (strip_any pats (b :: bs)) as [bs'|] eqn:E; [|done]. split; [|done]. intros Heq.
  pose proof (trim_with_shorter pats (length bs) bs' Hp) as Hs. rewrite Heq in Hs.
  apply strip_any_shorter in E; [lia|done].
Qed.

Lemma white_space_nonempty : Forall (fun p => p <> []) white_space /\ Forall (fun p => p <> []) rev_white_space.
Proof. split; by repeat constructor. Qed.

Lemma trim_end_fix l : trim_end l = l <-> strip_any rev_white_space (reverse l) = None.
Proof.
  rewrite <- (trim_with_fix _ _ (proj2 white_space_nonempty)), length_reverse. unfold trim_end. fold rev_white_space.
  split; intros H; [rewrite <- H at 3; by rewrite reverse_involutive|rewrite H; apply reverse_involutive].
Qed.

(** No white-space character starts with this byte. *)
Definition starts_no_space (b : byte) : bool := forallb (fun p => negb (bool_decide (head p = Some b))) white_space.

Lemma trim_start_id b l : starts_no_space b = true -> trim_start (b :: l) = b :: l.
Proof.
  intros Hb. apply trim_with_fix; [apply white_space_nonempty|]. apply strip_any_None. rewrite Forall_forall. intros p Hp Ht.
  unfold starts_no_space in Hb. rewrite forallb_forall in Hb. specialize (Hb p (proj1 (list_elem_of_In _ _) Hp)).
  apply negb_true_iff, bool_decide_eq_false in Hb. destruct p as [|c p].
  - pose proof (proj1 white_space_nonempty) as Hne. rewrite Forall_forall in Hne. by apply (Hne [] Hp).
  - cbn in Ht. injection Ht as -> _. done.
Qed.

Definition ascii_byte (b : byte) : bool := in_range 0 0x7F b.

Lemma rev_white_space_tails : forallb (fun p => forallb (fun b => negb (ascii_byte b)) (drop 1 p)) rev_white_space = true.
Proof. reflexivity. Qed.

(** An ASCII byte in front of a text without trailing white space. *)
Lemma trim_end_app p c l : ascii_byte c = true -> l <> [] -> trim_end l = l -> trim_end (p ++ c :: l) = p ++ c :: l.
Proof.
  intros Hc Hl. rewrite !trim_end_fix, !strip_any_None, !Forall_forall. intros Ht pat Hp Heq. apply (Ht pat Hp).
  rewrite reverse_app, reverse_cons, <- app_assoc in Heq.
  destruct (decide (length pat <= length (reverse l))) as [Hle|Hgt].
  { by rewrite take_app_le in Heq. }
  exfalso. assert (Hat : pat !! length (reverse l) = Some c).
  { rewrite <- Heq, lookup_take_lt by lia. by rewrite lookup_app_r, Nat.sub_diag by lia. }
  pose proof rev_white_space_tails as Ht2. rewrite forallb_forall in Ht2.
  specialize (Ht2 pat (proj1 (list_elem_of_In _ _) Hp)). rewrite forallb_forall in Ht2.
  assert (c ∈ drop 1 pat) as Hin.
  { apply list_elem_of_lookup_2 with (length (reverse l) - 1). rewrite lookup_drop. rewrite <- Hat. f_equal.
    rewrite length_reverse. destruct l; [done|]. cbn. lia. }
  specialize (Ht2 c (proj1 (list_elem_of_In _ _) Hin)). by rewrite Hc in Ht2.
Qed.

Lemma trim_end_single c : ascii_byte c = true -> starts_no_space c = true -> trim_end [c] = [c].
Proof. destruct c; try done. Qed.

(** A prefix, a byte that starts no white space in front, a tail without
    trailing white space. *)
Lemma trim_header b p c l : starts_no_space b = true -> ascii_byte c = true -> l <> [] -> trim_end l = l ->
  trim (b :: p ++ c :: l) = b :: p ++ c :: l.
Proof. intros Hb Hc Hl Ht. unfold trim. rewrite trim_start_id by done. by apply (trim_end_app (b :: p)). Qed.

(** ** The structured patch *)

Inductive edit := Context_ (l : bytes) | Remove (l : bytes) | Insert_ (l : bytes).
Record chunk := { k_context : option bytes; k_edits : list edit; k_eof : bool }.
Inductive doc :=
  | DAdd (path : bytes) (lines : list bytes)
  | DDelete (path : bytes)
  | DUpdate (path : bytes) (move_path : option bytes) (chunks : list chunk).

Definition print_edit (e : edit) : bytes :=
  match e with Context_ l => x20 :: l | Remove l => x2d :: l | Insert_ l => x2b :: l end.
Definition print_chunk (k : chunk) : list bytes :=
  (match k_context k with Some c => CHANGE_CONTEXT_MARKER ++ c | None => EMPTY_CHANGE_CONTEXT_MARKER end)
  :: (print_edit <$> k_edits k) ++ (if k_eof k then [EOF_MARKER] else []).
Definition print_doc (d : doc) : list bytes :=
  match d with
  | DAdd path lines => (ADD_FILE_MARKER ++ path) :: ((fun l => x2b :: l) <$> lines)
  | DDelete path => [DELETE_FILE_MARKER ++ path]
  | DUpdate path mv chunks =>
      (UPDATE_FILE_MARKER ++ path) :: (match mv with Some m => [MOVE_TO_MARKER ++ m] | None => [] end) ++ concat (print_chunk <$> chunks)
  end.
Definition print_patch (ds : list doc) : bytes :=
  join [x0a] (BEGIN_PATCH_MARKER :: concat (print_doc <$> ds) ++ [END_PATCH_MARKER]).

(** What the parser keeps of a structured patch. *)
Definition old_of (e : edit) : list bytes := match e with Context_ l | Remove l => [l] | Insert_ _ => [] end.
Definition new_of (e : edit) : list bytes := match e with Context_ l | Insert_ l => [l] | Remove _ => [] end.
Definition chunk_of (k : chunk) : UpdateFileChunk :=
  {| change_context := k_context k; old_lines := k_edits k ≫= old_of; new_lines := k_edits k ≫= new_of; is_end_of_file := k_eof k |}.
Definition hunk_of (d : doc) : Hunk :=
  match d with
  | DAdd path lines => AddFile path (join [x0a] lines ++ [x0a])
  | DDelete path => DeleteFile path
  | DUpdate path mv chunks => UpdateFile path mv (chunk_of <$> chunks)
  end.

(** A name: not empty, no surrounding white space, one line. *)
Definition name_ok (l : bytes) : Prop := l <> [] /\ trim l = l /\ trim_end l = l /\ x0a ∉ l.
(** A line of text: no trailing white space. *)
Definition line_ok (l : bytes) : Prop := trim_end l = l /\ x0a ∉ l.
Definition edit_ok (e : edit) : Prop := match e with Context_ l | Remove l | Insert_ l => line_ok l end.
Definition chunk_ok (k : chunk) : Prop := (forall c, k_context k = Some c -> name_ok c) /\ Forall edit_ok (k_edits k).
Definition doc_ok (d : doc) : Prop :=
  match d with
  | DAdd path lines => name_ok path /\ lines <> [] /\ Forall (fun l => line_ok l /\ starts_with [x2b] l = false) lines
  | DDelete path => name_ok path
  | DUpdate path mv chunks => name_ok path /\ (forall m, mv = Some m -> name_ok m) /\ chunks <> [] /\ Forall chunk_ok chunks
  end.

(** ** Headers *)

Lemma starts_with_app p l : starts_with p (p ++ l) = true.
Proof. unfold starts_with. rewrite take_app_length. by apply bool_decide_eq_true_2. Qed.
Lemma strip_prefix_app p l : strip_prefix p (p ++ l) = Some l.
Proof. unfold strip_prefix. by rewrite starts_with_app, drop_app_length. Qed.

(** The markers that precede a name end in a space. *)
Definition name_markers : list bytes :=
  [ADD_FILE_MARKER; DELETE_FILE_MARKER; UPDATE_FILE_MARKER; MOVE_TO_MARKER; CHANGE_CONTEXT_MARKER].

Lemma trim_name m l : m ∈ name_markers -> name_ok l -> trim (m ++ l) = m ++ l /\ trim_end (m ++ l) = m ++ l.
Proof.
  intros Hm (Hne & _ & Ht & _).
  assert (Hshape : exists b p, m = b :: p ++ [x20] /\ starts_no_space b = true).
  { unfold name_markers in Hm. repeat (apply elem_of_cons in Hm as [->|Hm]); [..|by apply elem_of_nil in Hm].
    - by exists x2a, (lit "** Add File:").
    - by exists x2a, (lit "** Delete File:").
    - by exists x2a, (lit "** Update File:").
    - by exists x2a, (lit "** Move to:").
    - by exists x40, [x40]. }
  destruct Hshape as (b & p & -> & Hb). cbn. rewrite <- app_assoc. cbn.
  split; [by apply trim_header|by apply (trim_end_app (b :: p))].
Qed.

Lemma starts_with_head a p b l : a <> b -> starts_with (a :: p) (b :: l) = false.
Proof. intros Hab. unfold starts_with. apply bool_decide_eq_false_2. cbn. intros [=]. done. Qed.

Definition file_markers : list bytes := [ADD_FILE_MARKER; DELETE_FILE_MARKER; UPDATE_FILE_MARKER].

(** The header of a file hunk. *)
Definition file_header (h : bytes) : Prop := exists m path, h = m ++ path /\ m ∈ file_markers /\ name_ok path.
(** The header of a chunk. *)
Definition chunk_header (h : bytes) : Prop :=
  h = EMPTY_CHANGE_CONTEXT_MARKER \/ exists c, h = CHANGE_CONTEXT_MARKER ++ c /\ name_ok c.

Lemma file_header_facts h : file_header h ->
  trim h = h /\ trim_end h = h /\ is_file_header h = true /\ exists t, h = x2a :: x2a :: x2a :: x20 :: t.
Proof.
  intros (m & path & -> & Hm & Hp). assert (m ∈ name_markers) as Hm'.
  { unfold file_markers, name_markers in *. rewrite !elem_of_cons in *. set_solver. }
  destruct (trim_name m path Hm' Hp) as [-> ->]. do 2 (split; [done|]). unfold is_file_header, file_markers in *.
  rewrite !elem_of_cons in Hm. destruct Hm as [->|[->|[->|[]%elem_of_nil]]]; (split; [by rewrite starts_with_app, ?orb_true_r|by eexists]).
Qed.

Lemma chunk_header_facts h : chunk_header h ->
  trim h = h /\ trim_end h = h /\ starts_with (lit "@@") h = true /\ is_file_header h = false /\ exists t, h = x40 :: x40 :: t.
Proof.
  intros [->|(c & -> & Hc)]; [by split_and!; try (by eexists); vm_compute|].
  destruct (trim_name CHANGE_CONTEXT_MARKER c) as [-> ->]; [unfold name_markers; set_solver|done|].
  split_and!; [done..| | |by eexists].
  - change (CHANGE_CONTEXT_MARKER ++ c) with (lit "@@" ++ (x20 :: c)). apply starts_with_app.
  - unfold is_file_header. cbn. by rewrite !starts_with_head.
Qed.

(** ** Chunks *)

Definition stops (rest : list bytes) : Prop := match rest with [] => True | h :: _ => file_header h \/ chunk_header h end.

Lemma chunk_lines_stop rest n : stops rest -> chunk_lines rest n = Ok (0, [], [], false).
Proof.
  destruct rest as [|h rest]; [done|]. intros [Hh|Hh]; cbn [chunk_lines].
  - destruct (file_header_facts _ Hh) as (_ & -> & Hf & t & Ht). rewrite Hf, orb_true_r.
    rewrite bool_decide_eq_false_2; [done|]. intros ->. by vm_compute in Hf.
  - destruct (chunk_header_facts _ Hh) as (_ & -> & Hs & _ & t & Ht). rewrite Hs.
    rewrite bool_decide_eq_false_2; [done|]. intros ->. by vm_compute in Hs.
Qed.

Lemma chunk_lines_edit e ls n : edit_ok e ->
  chunk_lines (print_edit e :: ls) n =
  match chunk_lines ls (S n) with
  | Ok (k, old, new, eof) => Ok (S k, old_of e ++ old, new_of e ++ new, eof)
  | Err er => Err er
  end.
Proof.
  intros He. cbn [chunk_lines].
  assert (Hline : forall c l, line_ok l -> ascii_byte c = true -> (l = [] -> trim_end [c] = [c]) ->
    trim_end (c :: l) = c :: l).
  { intros c l [Hl _] Hc Hcl. destruct l as [|b l]; [by apply Hcl|]. by apply (trim_end_app []). }
  assert (Hneq : forall c l, c <> x2a -> bool_decide (c :: l = EOF_MARKER) = false).
  { intros c l Hc. apply bool_decide_eq_false_2. intros [=]. done. }
  destruct e as [l|l|l]; cbn [print_edit old_of new_of edit_ok] in *.
  - destruct l as [|b l].
    { replace (trim_end [x20]) with ([] : bytes) by reflexivity. reflexivity. }
    rewrite Hline, Hneq by done. unfold is_file_header. cbn [lit String.list_byte_of_string].
    unfold ADD_FILE_MARKER, DELETE_FILE_MARKER, UPDATE_FILE_MARKER. cbn. rewrite !starts_with_head by done. cbn [orb].
    unfold strip_prefix. rewrite !starts_with_head by done. change (x20 :: b :: l) with ([x20] ++ b :: l).
    by rewrite starts_with_app, drop_app_length.
  - rewrite Hline, Hneq by done. unfold is_file_header. cbn. rewrite !starts_with_head by done. cbn [orb].
    unfold strip_prefix. rewrite starts_with_head by done. change (x2d :: l) with ([x2d] ++ l).
    by rewrite starts_with_app, drop_app_length.
  - rewrite Hline, Hneq by done. unfold is_file_header. cbn. rewrite !starts_with_head by done. cbn [orb].
    unfold strip_prefix. change (x2b :: l) with ([x2b] ++ l). by rewrite starts_with_app, drop_app_length.
Qed.

Lemma chunk_lines_edits es ls n : Forall edit_ok es ->
  chunk_lines ((print_edit <$> es) ++ ls) n =
  match chunk_lines ls (n + length es) with
  | Ok (k, old, new, eof) => Ok (length es + k, (es ≫= old_of) ++ old, (es ≫= new_of) ++ new, eof)
  | Err er => Err er
  end.
Proof.
  intros He. revert n. induction He as [|e es He Hes IH]; intros n.
  { cbn. rewrite Nat.add_0_r. by destruct (chunk_lines ls n) as [[[[]]]|]. }
  rewrite fmap_cons, <- app_comm_cons, chunk_lines_edit, IH by done. cbn [length].
  replace (S n + length es) with (n + S (length es)) by lia.
  destruct (chunk_lines ls (n + S (length es))) as [[[[k old] new] eof]|]; [|done].
  rewrite !bind_cons, <- !app_assoc. done.
Qed.

Lemma print_chunk_parses k rest n : chunk_ok k -> stops rest ->
  parse_update_chunk (print_chunk k ++ rest) n = Ok (chunk_of k, length (print_chunk k)).
Proof.
  intros [Hc He] Hs. unfold print_chunk. rewrite <- app_comm_cons. cbn [parse_update_chunk].
  assert (Hbody : chunk_lines (((print_edit <$> k_edits k) ++ (if k_eof k then [EOF_MARKER] else [])) ++ rest) n =
    Ok (length ((print_edit <$> k_edits k) ++ (if k_eof k then [EOF_MARKER] else [])), k_edits k ≫= old_of, k_edits k ≫= new_of, k_eof k)).
  { rewrite <- app_assoc, chunk_lines_edits by done. rewrite length_app, length_fmap. destruct (k_eof k).
    - cbn [app chunk_lines]. replace (trim_end EOF_MARKER) with EOF_MARKER by reflexivity.
      rewrite bool_decide_eq_true_2 by done. by rewrite !app_nil_r.
    - rewrite chunk_lines_stop by done. by rewrite !app_nil_r. }
  rewrite Hbody. unfold chunk_of. destruct (k_context k) as [c|].
  - specialize (Hc c eq_refl). destruct (trim_name CHANGE_CONTEXT_MARKER c) as [-> _]; [unfold name_markers; set_solver|done|].
    rewrite starts_with_app, strip_prefix_app. cbn [orb default from_option id]. destruct Hc as (Hne & -> & _). by destruct c.
  - reflexivity.
Qed.

(** ** Hunks *)

Definition after_hunk (rest : list bytes) : Prop := match rest with [] => True | h :: _ => file_header h end.

Lemma print_chunk_header k : chunk_ok k -> exists h t, print_chunk k = h :: t /\ chunk_header h.
Proof.
  intros [Hc _]. unfold print_chunk. eexists _, _. split; [reflexivity|].
  destruct (k_context k) as [c|]; [|by left]. right. exists c. split; [done|]. by apply Hc.
Qed.

Lemma print_chunks_parse ks rest n fuel : ks <> [] -> Forall chunk_ok ks -> after_hunk rest ->
  length (concat (print_chunk <$> ks) ++ rest) <= fuel ->
  update_chunks fuel (concat (print_chunk <$> ks) ++ rest) n
  = ok (length (concat (print_chunk <$> ks)), chunk_of <$> ks).
Proof.
  intros Hne Hok Hafter. revert n fuel. induction Hok as [|k ks Hk Hks IH]; [done|]. intros n fuel Hlen.
  rewrite fmap_cons in *. cbn [concat] in *. rewrite <- app_assoc in *.
  destruct (print_chunk_header k Hk) as (h & t & Hpc & Hh). destruct fuel as [|fuel].
  { rewrite Hpc in Hlen. cbn in Hlen. lia. }
  assert (Hstop : stops (concat (print_chunk <$> ks) ++ rest)).
  { destruct Hks as [|k2 ks2 Hk2 _]; [destruct rest; [done|by left]|].
    destruct (print_chunk_header k2 Hk2) as (h2 & t2 & Hpc2 & Hh2). rewrite fmap_cons. cbn [concat]. rewrite Hpc2. by right. }
  rewrite Hpc at 1. rewrite <- app_comm_cons. cbn [update_chunks]. rewrite app_comm_cons, <- Hpc, print_chunk_parses by done.
  rewrite slice_suffix by (rewrite length_app; lia). rewrite drop_app_length.
  destruct Hks as [|k2 ks2 Hk2 Hks2].
  - cbn [fmap list_fmap concat app]. destruct rest as [|r rest].
    + by rewrite app_nil_r.
    + destruct (file_header_facts r Hafter) as (-> & _ & -> & _). by rewrite app_nil_r.
  - destruct (print_chunk_header k2 Hk2) as (h2 & t2 & Hpc2 & Hh2).
    assert (Hhead : (match concat (print_chunk <$> k2 :: ks2) ++ rest with [] => true | l :: _ => is_file_header (trim l) end) = false).
    { rewrite fmap_cons. cbn [concat]. rewrite Hpc2. cbn [app].
      destruct (chunk_header_facts _ Hh2) as (-> & _ & _ & -> & _). done. }
    rewrite Hhead, IH; [cbn [bindP ok]; by rewrite length_app|done|].
    rewrite Hpc in Hlen. cbn [app length] in Hlen. rewrite !length_app in *. lia.
Qed.

Lemma added_lines_print lines rest : Forall (fun l => line_ok l /\ starts_with [x2b] l = false) lines -> after_hunk rest ->
  added_lines (((fun l => x2b :: l) <$> lines) ++ rest) = lines.
Proof.
  intros Hl Hr. assert (Hneq : forall p l, bool_decide (x2b :: l = x2a :: p) = false).
  { intros p l. apply bool_decide_eq_false_2. intros [=]. }
  induction Hl as [|l lines [[Ht _] Hp] _ IH].
  - destruct rest as [|h rest]; [done|]. destruct (file_header_facts h Hr) as (_ & He & _ & t & Hh).
    cbn. rewrite He, Hh, starts_with_head by done. by destruct (_ || _).
  - cbn [fmap list_fmap app added_lines]. assert (trim_end (x2b :: l) = x2b :: l) as ->.
    { destruct l as [|b l]; [reflexivity|]. by apply (trim_end_app []). }
    unfold ADD_FILE_MARKER, DELETE_FILE_MARKER, UPDATE_FILE_MARKER, EOF_MARKER. cbn [lit String.list_byte_of_string].
    cbn. rewrite !Hneq. cbn [orb].
    change (x2b :: l) with ([x2b] ++ l). rewrite starts_with_app. cbn. f_equal; [|exact IH].
    destruct l as [|b l]; [done|]. cbn. destruct (Byte.eqb b x2b) eqn:E; [|done]. apply byte_dec_bl in E. subst b.
    change (x2b :: l) with ([x2b] ++ l) in Hp. by rewrite starts_with_app in Hp.
Qed.

Lemma name_marker_in m : m ∈ file_markers -> m ∈ name_markers.
Proof. unfold file_markers, name_markers. rewrite !elem_of_cons. set_solver. Qed.

Lemma print_doc_parses d rest n : doc_ok d -> after_hunk rest ->
  parse_one_hunk (print_doc d ++ rest) n = ok (hunk_of d, length (print_doc d)).
Proof.
  intros Hd Hr. destruct d as [path lines|path|path mv ks]; cbn [print_doc doc_ok hunk_of] in *.
  - destruct Hd as (Hp & Hne & Hl). rewrite <- app_comm_cons. cbn [parse_one_hunk].
    destruct (trim_name ADD_FILE_MARKER path) as [-> _]; [unfold name_markers; set_solver|done|].
    rewrite strip_prefix_app, added_lines_print by done. destruct Hp as (Hpn & -> & _).
    destruct path; [done|]. destruct lines; [done|]. cbn [length]. by rewrite length_fmap.
  - cbn [app parse_one_hunk]. destruct (trim_name DELETE_FILE_MARKER path) as [-> _]; [unfold name_markers; set_solver|done|].
    replace (strip_prefix ADD_FILE_MARKER (DELETE_FILE_MARKER ++ path)) with (@None bytes) by reflexivity.
    rewrite strip_prefix_app. destruct Hd as (Hpn & -> & _). by destruct path.
  - destruct Hd as (Hp & Hmv & Hne & Hks). rewrite <- app_comm_cons. cbn [parse_one_hunk].
    destruct (trim_name UPDATE_FILE_MARKER path) as [-> _]; [unfold name_markers; set_solver|done|].
    replace (strip_prefix ADD_FILE_MARKER (UPDATE_FILE_MARKER ++ path)) with (@None bytes) by reflexivity.
    replace (strip_prefix DELETE_FILE_MARKER (UPDATE_FILE_MARKER ++ path)) with (@None bytes) by reflexivity.
    rewrite strip_prefix_app. destruct Hp as (Hpn & -> & _). destruct path as [|b path]; [done|].
    destruct mv as [m|].
    + specialize (Hmv m eq_refl). cbn [app]. destruct (trim_name MOVE_TO_MARKER m) as [-> _]; [unfold name_markers; set_solver|done|].
      rewrite strip_prefix_app. destruct Hmv as (_ & -> & _). rewrite print_chunks_parse by done. reflexivity.
    + cbn [app]. pose proof (print_chunks_parse ks rest (n + 0) _ Hne Hks Hr (le_n _)) as Hparse.
      destruct Hks as [|k ks' Hk _]; [done|]. destruct (print_chunk_header k Hk) as (h & t & Hpc & Hh).
      destruct (chunk_header_facts _ Hh) as (Htr & _ & _ & _ & t' & Ht').
      remember (concat (print_chunk <$> k :: ks') ++ rest) as body eqn:Hbody.
      assert (exists tl, body = h :: tl) as [tl Htl] by (rewrite Hbody, fmap_cons; cbn [concat]; rewrite Hpc; by eexists).
      rewrite Htl. rewrite Htr, Ht'.
      replace (strip_prefix MOVE_TO_MARKER (x40 :: x40 :: t')) with (@None bytes).
      2: { unfold strip_prefix. by rewrite (starts_with_head x2a (drop 1 MOVE_TO_MARKER) x40). }
      rewrite <- Ht', <- Htl, Hparse. reflexivity.
Qed.

Lemma print_doc_header d : doc_ok d -> exists h t, print_doc d = h :: t /\ file_header h.
Proof.
  assert (Hh : forall m path, m ∈ file_markers -> name_ok path -> file_header (m ++ path)) by (intros m path; by exists m, path).
  unfold file_markers in Hh. destruct d as [path lines|path|path mv ks]; intros Hd; cbn [print_doc]; eexists _, _;
    (split; [reflexivity|]); apply Hh; (set_solver || apply Hd).
Qed.

Lemma print_docs_parse ds n fuel : Forall doc_ok ds -> length (concat (print_doc <$> ds)) <= fuel ->
  parse_hunks fuel (concat (print_doc <$> ds)) n = ok (hunk_of <$> ds).
Proof.
  intros Hd. revert n fuel. induction Hd as [|d ds Hd Hds IH]; intros n fuel Hlen; [by destruct fuel|].
  rewrite fmap_cons in *. cbn [concat] in *. destruct (print_doc_header d Hd) as (h & t & Hpd & Hh).
  destruct fuel as [|fuel]; [rewrite Hpd in Hlen; cbn in Hlen; lia|].
  assert (Hafter : after_hunk (concat (print_doc <$> ds))).
  { destruct Hds as [|d2 ds2 Hd2 _]; [done|]. destruct (print_doc_header d2 Hd2) as (h2 & t2 & Hpd2 & Hh2).
    rewrite fmap_cons. cbn [concat]. by rewrite Hpd2. }
  rewrite Hpd at 1. rewrite <- app_comm_cons. cbn [parse_hunks]. rewrite app_comm_cons, <- Hpd, print_doc_parses by done.
  cbn [bindP ok]. rewrite slice_suffix by (rewrite length_app; lia). rewrite drop_app_length, IH; [done|].
  rewrite Hpd in Hlen. cbn [app length] in Hlen. rewrite !length_app in *. lia.
Qed.

(** ** Text *)

Lemma join_cons_app l ls e : join [x0a] (l :: ls ++ [e]) = l ++ concat ((fun x => x0a :: x) <$> ls) ++ x0a :: e.
Proof. cbn. rewrite fmap_app, concat_app. cbn. by rewrite app_nil_r. Qed.

Lemma split_join l ls : Forall (fun l => x0a ∉ l) (l :: ls) -> split_lines (join [x0a] (l :: ls)) = l :: ls.
Proof.
  cbn. revert l. induction ls as [|l2 ls IH]; intros l Hl.
  - cbn. rewrite app_nil_r. inversion Hl; subst. by apply split_lines_none.
  - inversion Hl; subst. cbn. rewrite split_lines_one by done. f_equal. by apply (IH l2).
Qed.

Lemma strip_cr_id l : trim_end l = l -> strip_cr l = l.
Proof.
  rewrite trim_end_fix, strip_any_None. intros Hp. unfold strip_cr. destruct (last l) as [b|] eqn:Hl; [|done].
  destruct (Byte.eqb b x0d) eqn:E; [|done]. apply byte_dec_bl in E. subst b. exfalso.
  apply last_Some in Hl as [l' ->]. rewrite reverse_snoc in Hp.
  rewrite Forall_forall in Hp. apply (Hp [x0d]); [|reflexivity]. unfold rev_white_space, white_space. cbn.
  repeat (apply list_elem_of_here || apply list_elem_of_further).
Qed.

Lemma no_lf l : forallb (fun b => negb (Byte.eqb b x0a)) l = true -> x0a ∉ l.
Proof.
  intros Hl Hin. rewrite forallb_forall in Hl. by specialize (Hl x0a (proj1 (list_elem_of_In _ _) Hin)).
Qed.

(** A printed line: no line feed, no trailing carriage return. *)
Definition printed_line (l : bytes) : Prop := x0a ∉ l /\ strip_cr l = l.

Lemma printed_edit e : edit_ok e -> printed_line (print_edit e).
Proof.
  assert (Hc : forall c l, c <> x0a -> strip_cr [c] = [c] -> ascii_byte c = true -> line_ok l -> printed_line (c :: l)).
  { intros c l Hc Hs Ha [Ht Hl]. split; [apply not_elem_of_cons; split; congruence|].
    destruct l as [|b l]; [done|]. apply strip_cr_id. by apply (trim_end_app []). }
  destruct e; cbn; by apply Hc.
Qed.

Lemma printed_name m l : m ∈ name_markers -> name_ok l -> printed_line (m ++ l).
Proof.
  intros Hm Hl. split; [|apply strip_cr_id; by apply trim_name].
  rewrite elem_of_app. intros [Hin|Hin]; [|by destruct Hl as (_ & _ & _ & ?)]. unfold name_markers in Hm.
  revert Hin. apply no_lf. repeat (apply elem_of_cons in Hm as [->|Hm]; [reflexivity|]). by apply elem_of_nil in Hm.
Qed.

Lemma printed_doc d : doc_ok d -> Forall printed_line (print_doc d).
Proof.
  assert (Hlit : forall l, forallb (fun b => negb (Byte.eqb b x0a)) l = true -> strip_cr l = l -> printed_line l).
  { intros l Hl Hs. split; [by apply no_lf|done]. }
  destruct d as [path lines|path|path mv ks]; cbn [doc_ok print_doc].
  - intros (Hp & _ & Hl). constructor; [apply printed_name; [unfold name_markers; set_solver|done]|].
    apply Forall_fmap. eapply Forall_impl; [exact Hl|]. intros l [Hk _]. by apply (printed_edit (Insert_ l)).
  - intros Hp. apply Forall_singleton. apply printed_name; [unfold name_markers; set_solver|done].
  - intros (Hp & Hmv & _ & Hks). constructor; [apply printed_name; [unfold name_markers; set_solver|done]|].
    apply Forall_app. split.
    + destruct mv as [m|]; [|constructor]. apply Forall_singleton, printed_name; [unfold name_markers; set_solver|by apply Hmv].
    + apply Forall_concat, Forall_fmap. eapply Forall_impl; [exact Hks|]. intros k [Hc He]. constructor.
      * destruct (k_context k) as [c|]; [apply printed_name; [unfold name_markers; set_solver|by apply Hc]|by apply Hlit].
      * apply Forall_app. split; [apply Forall_fmap; eapply Forall_impl; [exact He|apply printed_edit]|].
        destruct (k_eof k); [|constructor]. apply Forall_singleton. by apply Hlit.
Qed.

Lemma print_patch_lines ds : Forall doc_ok ds ->
  str_lines (trim (print_patch ds)) = BEGIN_PATCH_MARKER :: concat (print_doc <$> ds) ++ [END_PATCH_MARKER].
Proof.
  intros Hds. assert (Hbody : Forall printed_line (concat (print_doc <$> ds))).
  { apply Forall_concat, Forall_fmap. eapply Forall_impl; [exact Hds|apply printed_doc]. }
  assert (Htrim : trim (print_patch ds) = print_patch ds).
  { unfold print_patch. rewrite join_cons_app.
    change BEGIN_PATCH_MARKER with (x2a :: lit "** Begin Patch"). rewrite <- app_comm_cons, app_assoc.
    by apply trim_header. }
  rewrite Htrim. unfold print_patch, str_lines. rewrite split_join.
  2: { constructor; [by apply no_lf|]. apply Forall_app. split; [|apply Forall_singleton; by apply no_lf].
       eapply Forall_impl; [exact Hbody|]. by intros ? []. }
  rewrite app_comm_cons, last_snoc, length_app. cbn [length]. rewrite Nat.add_sub, take_app_length' by (cbn; lia).
  rewrite fmap_cons. f_equal. f_equal.
  rewrite <- list_fmap_id. apply list_fmap_ext. intros i l Hl. apply list_elem_of_lookup_2 in Hl.
  rewrite Forall_forall in Hbody. by apply Hbody.
Qed.

(** ** Properties *)

Definition sample_patch : list doc :=
  [DAdd (lit "src/new.rs") [lit "fn main() {}"; []];
   DUpdate (lit "src/old.rs") (Some (lit "src/moved.rs"))
     [{| k_context := Some (lit "impl Foo"); k_edits := [Context_ (lit "a"); Remove (lit "b"); Insert_ (lit "+c"); Context_ []]; k_eof := false |};
      {| k_context := None; k_edits := [Insert_ (lit "d")]; k_eof := true |}];
   DDelete (lit "src/gone.rs")].

(** C28: the parser is total: on every text it terminates with a list of hunks
    or an error and never takes a slice out of range. *)
Theorem parse_patch_total (patch : bytes) : exists r, parse_patch patch = Some r.
Proof. pose proof (patch_total patch) as H. destruct (parse_patch patch) as [r|]; [by exists r|done]. Qed.

(** C29: printing a patch and parsing the text gives the patch back: every
    file operation with its path, move target and chunks, for trimmed names,
    lines without trailing white space and line breaks, at least one line or
    chunk per file, and added lines that do not start with a plus sign. *)
Theorem parse_print_patch (ds : list doc) :
  Forall doc_ok ds ->
  parse_patch (print_patch ds) = Some (Ok (hunk_of <$> ds, print_patch ds)).
Proof.
  intros Hds. unfold parse_patch. rewrite print_patch_lines by done. cbv zeta.
  set (body := concat (print_doc <$> ds)).
  assert (Hs : check_patch_boundaries_strict (BEGIN_PATCH_MARKER :: body ++ [END_PATCH_MARKER]) = Ok tt).
  { unfold check_patch_boundaries_strict. cbn [head]. rewrite app_comm_cons, last_snoc. reflexivity. }
  rewrite Hs. cbn [bindP ok].
  assert (Hb : slice 1 (length (BEGIN_PATCH_MARKER :: body ++ [END_PATCH_MARKER]) - 1) (BEGIN_PATCH_MARKER :: body ++ [END_PATCH_MARKER]) = Some body).
  { unfold slice. cbn [length]. rewrite length_app. cbn [length].
    rewrite (proj2 (Nat.leb_le _ _)), (proj2 (Nat.leb_le _ _)) by lia. cbn [andb].
    change (drop 1 (BEGIN_PATCH_MARKER :: body ++ [END_PATCH_MARKER])) with (body ++ [END_PATCH_MARKER]).
    by rewrite take_app_length' by lia. }
  rewrite Hb. unfold body at 2 3. by rewrite print_docs_parse.
Qed.

Lemma sample_patch_ok : Forall doc_ok sample_patch.
Proof.
  assert (Hn : forall l, l <> [] -> trim l = l -> trim_end l = l -> forallb (fun b => negb (Byte.eqb b x0a)) l = true -> name_ok l)
    by (intros; split_and!; try done; by apply no_lf).
  assert (Hl : forall l, trim_end l = l -> forallb (fun b => negb (Byte.eqb b x0a)) l = true -> line_ok l)
    by (intros; split; [done|by apply no_lf]).
  unfold sample_patch. apply Forall_cons. split; [|apply Forall_cons; split; [|apply Forall_cons; split; [by apply Hn|constructor]]].
  - split; [by apply Hn|]. split; [done|].
    repeat (apply Forall_cons; split; [split; [by apply Hl|reflexivity]|]). constructor.
  - split; [by apply Hn|]. split; [intros m [= <-]; by apply Hn|]. split; [done|].
    apply Forall_cons. split; [split; [intros c [= <-]; by apply Hn|]|apply Forall_cons; split; [split; [done|]|constructor]];
      repeat (apply Forall_cons; split; [by apply Hl|]); constructor.
Qed.

Lemma parse_print_patch_witness :
  parse_patch (print_patch sample_patch) = Some (Ok (hunk_of <$> sample_patch, print_patch sample_patch)).
Proof. apply parse_print_patch. apply sample_patch_ok. Defined.

(** added files lose leading plus signs.  A file whose line starts with
    plus signs is stored without them: all of them are stripped together with
    the marker of the patch line. *)
Theorem added_line_loses_plus (path line : bytes) :
  name_ok path -> line <> [] -> line_ok line -> starts_with [x2b] line = false ->
  parse_one_hunk (print_doc (DAdd path [x2b :: line])) 2 = Some (Ok (AddFile path (line ++ [x0a]), 2)).
Proof.
  intros Hp Hne Hl Hs. cbn [print_doc fmap list_fmap parse_one_hunk].
  destruct (trim_name ADD_FILE_MARKER path) as [-> _]; [unfold name_markers; set_solver|done|].
  rewrite strip_prefix_app. destruct Hp as (Hpn & -> & _). destruct path as [|b path]; [done|].
  assert (Hadd : added_lines [x2b :: x2b :: line] = [line]).
  { cbn [added_lines]. assert (trim_end (x2b :: x2b :: line) = x2b :: x2b :: line) as ->.
    { apply (trim_end_app [x2b]); [done|done|apply Hl]. }
    change (x2b :: x2b :: line) with ([x2b] ++ (x2b :: line)). rewrite starts_with_app.
    cbn. f_equal. destruct line as [|c line]; [done|]. cbn. destruct (Byte.eqb c x2b) eqn:E; [|done].
    apply byte_dec_bl in E. subst c. change (x2b :: line) with ([x2b] ++ line) in Hs. by rewrite starts_with_app in Hs. }
  rewrite Hadd. cbn. by rewrite app_nil_r.
Qed.

Lemma added_line_loses_plus_witness :
  parse_one_hunk (print_doc (DAdd (lit "a.c") [x2b :: lit "i;"])) 2 = Some (Ok (AddFile (lit "a.c") (lit "i;" ++ [x0a]), 2)).
Proof.
  apply added_line_loses_plus; [|done|split; [reflexivity|by apply no_lf]|reflexivity].
  split_and!; [done|reflexivity|reflexivity|by apply no_lf].
Defined.
