(* ===== verification/RequestLifecycle.v ===== *)
(** * The request lifecycle harness ([canon-invariant/src/request_lifecycle_harness.rs])

    The observations the runtime makes of a tool request and of a sequence of
    retries, the decisions it takes on them, the enumeration of the
    well-formed request states and the metrics over it. *)
From S2P Require Import Prelude.

Record RequestLifecycleState := {
  pending_request : bool;
  artifact_pending : bool;
  artifact_finalized : bool;
  completed_received : bool;
  failed_received : bool;
  matched_request_id : bool;
  payload_metadata_only : bool;
  payload_valid_actions : bool;
  timeout_elapsed : bool;
  duplicate_terminal_event : bool
}.

Inductive RequestLifecycleDecision :=
  | Suppress (reason : string)
  | Await
  | AcceptCompleted
  | AcceptSalvagedCompleted
  | IgnoreMetadataOnly
  | AcceptFailure
  | InvariantViolation (reason : string).

#[export] Instance RequestLifecycleState_eq_dec : EqDecision RequestLifecycleState.
Proof. solve_decision. Defined.
#[export] Instance RequestLifecycleDecision_eq_dec : EqDecision RequestLifecycleDecision.
Proof. solve_decision. Defined.

(** [RequestLifecycleDecision::as_str]. *)
Definition request_decision_str (d : RequestLifecycleDecision) : string :=
  match d with
  | Suppress reason => reason
  | Await => "await"
  | AcceptCompleted => "accept_completed"
  | AcceptSalvagedCompleted => "accept_salvaged_completed"
  | IgnoreMetadataOnly => "ignore_metadata_only"
  | AcceptFailure => "accept_failure"
  | InvariantViolation reason => reason
  end.

(** [RequestLifecycleObservation]; the fields carry the prefix [ob_]. *)
Record RequestLifecycleObservation := {
  ob_request_dispatched : bool;
  ob_artifact_status_pending : bool;
  ob_artifact_status_failed : bool;
  ob_artifact_finalized : bool;
  ob_completed_received : bool;
  ob_failed_received : bool;
  ob_matched_request_id : bool;
  ob_payload_metadata_only : bool;
  ob_payload_valid_actions : bool;
  ob_timeout_elapsed : bool;
  ob_duplicate_terminal_event : bool
}.

(** [project_request_lifecycle_observation]: a failed artifact counts as
    finalized. *)
Definition project_request_lifecycle_observation (o : RequestLifecycleObservation) : RequestLifecycleState :=
  {| pending_request := ob_request_dispatched o;
     artifact_pending := ob_artifact_status_pending o;
     artifact_finalized := ob_artifact_finalized o || ob_artifact_status_failed o;
     completed_received := ob_completed_received o;
     failed_received := ob_failed_received o;
     matched_request_id := ob_matched_request_id o;
     payload_metadata_only := ob_payload_metadata_only o;
     payload_valid_actions := ob_payload_valid_actions o;
     timeout_elapsed := ob_timeout_elapsed o;
     duplicate_terminal_event := ob_duplicate_terminal_event o |}.

(** [evaluate_request_lifecycle_state], early return by early return. *)
Definition evaluate_request_lifecycle_state (s : RequestLifecycleState) : RequestLifecycleDecision :=
  if negb (pending_request s) then Suppress "idle"
  else if completed_received s && failed_received s then InvariantViolation "multiple_terminal_results_for_same_request"
  else if duplicate_terminal_event s && (completed_received s || failed_received s) then InvariantViolation "duplicate_terminal_event"
  else if artifact_finalized s && negb (completed_received s) && negb (failed_received s)
  then InvariantViolation "artifact_finalized_without_terminal_event"
  else if completed_received s then
    (if negb (artifact_finalized s) then InvariantViolation "completed_without_artifact_finalization"
     else if payload_metadata_only s && payload_valid_actions s
     then InvariantViolation "metadata_only_payload_cannot_also_be_valid_actions"
     else if payload_valid_actions s then
       (if matched_request_id s then AcceptCompleted else AcceptSalvagedCompleted)
     else if payload_metadata_only s then IgnoreMetadataOnly
     else InvariantViolation "completed_without_actionable_payload")
  else if failed_received s then
    (if negb (artifact_finalized s) then InvariantViolation "failed_without_artifact_finalization"
     else AcceptFailure)
  else if timeout_elapsed s then
    (if artifact_pending s || negb (artifact_finalized s) then InvariantViolation "timeout_must_finalize_request"
     else AcceptFailure)
  else Await.

(** ** Retries *)

Record RetrySequenceObservation := {
  attempts_dispatched : N;
  current_attempt_pending : bool;
  prior_attempt_completed_valid : bool;
  prior_attempt_metadata_only : bool;
  current_attempt_completed_valid : bool;
  current_attempt_failed : bool;
  retry_timeout_elapsed : bool;
  retry_duplicate_terminal_event : bool
}.

Inductive RetrySequenceDecision :=
  | RetrySuppress (reason : string)
  | AwaitCurrentAttempt
  | AcceptCurrentAttempt
  | AcceptPriorSalvagedAttempt
  | IgnorePriorMetadataOnly
  | AcceptFailedCurrentAttempt
  | RetryInvariantViolation (reason : string).

(** [RetrySequenceDecision::as_str]. *)
Definition retry_decision_str (d : RetrySequenceDecision) : string :=
  match d with
  | RetrySuppress reason => reason
  | AwaitCurrentAttempt => "await_current_attempt"
  | AcceptCurrentAttempt => "accept_current_attempt"
  | AcceptPriorSalvagedAttempt => "accept_prior_salvaged_attempt"
  | IgnorePriorMetadataOnly => "ignore_prior_metadata_only"
  | AcceptFailedCurrentAttempt => "accept_failed_current_attempt"
  | RetryInvariantViolation reason => reason
  end.

(** The returns inside the [prior_attempt_metadata_only] block; [None] falls
    through to the code after it. *)
Definition metadata_only_block (o : RetrySequenceObservation) : option RetrySequenceDecision :=
  if prior_attempt_metadata_only o then
    (if current_attempt_completed_valid o then Some AcceptCurrentAttempt
     else if current_attempt_failed o then Some AcceptFailedCurrentAttempt
     else if current_attempt_pending o then Some IgnorePriorMetadataOnly
     else if retry_timeout_elapsed o then Some (RetryInvariantViolation "retry_sequence_timeout_without_terminal_current_attempt")
     else None)
  else None.

(** [evaluate_retry_sequence]. *)
Definition evaluate_retry_sequence (o : RetrySequenceObservation) : RetrySequenceDecision :=
  if (attempts_dispatched o =? 0)%N then RetrySuppress "no_attempts_dispatched"
  else if retry_duplicate_terminal_event o then RetryInvariantViolation "retry_sequence_duplicate_terminal_event"
  else if prior_attempt_completed_valid o && current_attempt_completed_valid o
  then RetryInvariantViolation "retry_sequence_multiple_valid_completions"
  else if prior_attempt_completed_valid o then AcceptPriorSalvagedAttempt
  else match metadata_only_block o with
  | Some d => d
  | None =>
      if current_attempt_completed_valid o then AcceptCurrentAttempt
      else if current_attempt_failed o then AcceptFailedCurrentAttempt
      else if retry_timeout_elapsed o && current_attempt_pending o
      then RetryInvariantViolation "retry_sequence_timeout_without_terminal_current_attempt"
      else if current_attempt_pending o then AwaitCurrentAttempt
      else RetrySuppress "retry_sequence_idle"
  end.

(** ** The enumeration and its metrics *)

Definition request_of_bits (bits : N) : RequestLifecycleState :=
  {| pending_request := N.testbit bits 0;
     artifact_pending := N.testbit bits 1;
     artifact_finalized := N.testbit bits 2;
     completed_received := N.testbit bits 3;
     failed_received := N.testbit bits 4;
     matched_request_id := N.testbit bits 5;
     payload_metadata_only := N.testbit bits 6;
     payload_valid_actions := N.testbit bits 7;
     timeout_elapsed := N.testbit bits 8;
     duplicate_terminal_event := N.testbit bits 9 |}.

(** The five [continue] guards, each the reason a state is left out. *)
Definition left_out (s : RequestLifecycleState) : bool :=
  (negb (pending_request s) &&
     (artifact_pending s || artifact_finalized s || completed_received s || failed_received s || timeout_elapsed s))
  || (artifact_pending s && artifact_finalized s)
  || (negb (completed_received s) && (matched_request_id s || payload_metadata_only s || payload_valid_actions s))
  || (failed_received s && (payload_metadata_only s || payload_valid_actions s))
  || (completed_received s && failed_received s && negb (duplicate_terminal_event s)).

(** [synthetic_request_lifecycle_seed_space]. *)
Definition synthetic_request_lifecycle_seed_space : list RequestLifecycleState :=
  filter (fun s => left_out s = false) ((fun n => request_of_bits (N.of_nat n)) <$> seq 0 1024).

Record SyntheticRequestLifecycleMetrics := {
  states_explored : nat;
  suppressed : nat;
  awaiting : nat;
  accepted_completed : nat;
  accepted_salvaged_completed : nat;
  ignored_metadata_only : nat;
  accepted_failures : nat;
  invariant_violations : nat
}.

(** One round of the metrics loop. *)
Definition count_request (m : SyntheticRequestLifecycleMetrics) (s : RequestLifecycleState) : SyntheticRequestLifecycleMetrics :=
  let '(Build_SyntheticRequestLifecycleMetrics n a b c d e f g) := m in
  match evaluate_request_lifecycle_state s with
  | Suppress _ => Build_SyntheticRequestLifecycleMetrics (S n) (S a) b c d e f g
  | Await => Build_SyntheticRequestLifecycleMetrics (S n) a (S b) c d e f g
  | AcceptCompleted => Build_SyntheticRequestLifecycleMetrics (S n) a b (S c) d e f g
  | AcceptSalvagedCompleted => Build_SyntheticRequestLifecycleMetrics (S n) a b c (S d) e f g
  | IgnoreMetadataOnly => Build_SyntheticRequestLifecycleMetrics (S n) a b c d (S e) f g
  | AcceptFailure => Build_SyntheticRequestLifecycleMetrics (S n) a b c d e (S f) g
  | InvariantViolation _ => Build_SyntheticRequestLifecycleMetrics (S n) a b c d e f (S g)
  end.

(** [synthetic_request_lifecycle_metrics]. *)
Definition synthetic_request_lifecycle_metrics : SyntheticRequestLifecycleMetrics :=
  foldl count_request (Build_SyntheticRequestLifecycleMetrics 0 0 0 0 0 0 0 0) synthetic_request_lifecycle_seed_space.

(** ** Specifications *)

(** A dispatched request with exactly one terminal event, received once, and
    a finalized artifact. *)
Definition settled (s : RequestLifecycleState) : bool :=
  pending_request s && artifact_finalized s && xorb (completed_received s) (failed_received s)
  && negb (duplicate_terminal_event s).

(** A dispatched request nothing has happened to yet. *)
Definition in_flight (s : RequestLifecycleState) : bool :=
  pending_request s && negb (completed_received s) && negb (failed_received s)
  && negb (artifact_finalized s) && negb (timeout_elapsed s).

(** The states a request can be in: nothing happens to a request that was not
    dispatched, an artifact is pending or final, only a completion has a
    payload, a failure carries none, and two terminal events are duplicates. *)
Definition well_formed (s : RequestLifecycleState) : Prop :=
  (pending_request s = false ->
     artifact_pending s = false /\ artifact_finalized s = false /\ completed_received s = false /\
     failed_received s = false /\ timeout_elapsed s = false) /\
  ~ (artifact_pending s = true /\ artifact_finalized s = true) /\
  (matched_request_id s = true \/ payload_metadata_only s = true \/ payload_valid_actions s = true ->
     completed_received s = true) /\
  (failed_received s = true -> payload_metadata_only s = false /\ payload_valid_actions s = false) /\
  (completed_received s = true -> failed_received s = true -> duplicate_terminal_event s = true).

(** ** Enumeration lemmas *)

Definition both : list bool := [true; false].
Definition all_requests : list RequestLifecycleState :=
  a ← both; b ← both; c ← both; d ← both; e ← both; f ← both; g ← both; h ← both; i ← both; j ← both;
  [Build_RequestLifecycleState a b c d e f g h i j].

Lemma elem_of_all_requests s : s ∈ all_requests.
Proof.
  assert (Hb : forall b, b ∈ both) by (intros []; [apply list_elem_of_here|apply list_elem_of_further, list_elem_of_here]).
  destruct s. unfold all_requests.
  repeat (apply list_elem_of_bind; eexists; split; [|apply Hb]). by apply list_elem_of_singleton.
Qed.

(** A decidable claim about request states is decided by enumeration. *)
Lemma request_forall (P : RequestLifecycleState -> bool) : forallb P all_requests = true -> forall s, P s = true.
Proof. intros HP s. apply (forallb_spec P all_requests); [done|apply elem_of_all_requests]. Qed.

Lemma request_occurrences s :
  length (filter (fun x => x = s) synthetic_request_lifecycle_seed_space) = if left_out s then 0 else 1.
Proof.
  apply Nat.eqb_eq. revert s.
  apply (request_forall (fun s => length (filter (fun x => x = s) synthetic_request_lifecycle_seed_space) =? if left_out s then 0 else 1)).
  vm_compute. reflexivity.
Qed.

#[export] Instance well_formed_dec s : Decision (well_formed s).
Proof. unfold well_formed. apply _. Defined.

Lemma left_out_well_formed s : left_out s = false <-> well_formed s.
Proof.
  apply (bool_decide_eq_true_1 (left_out s = false <-> well_formed s)). revert s.
  apply (request_forall (fun s => bool_decide (left_out s = false <-> well_formed s))).
  vm_compute. reflexivity.
Qed.

(** ** Properties *)

(** a reply is accepted exactly when the request is settled: a completion
    with actions and nothing else (salvaged when its id does not match), a
    completion with metadata alone is ignored, a failure is accepted.  The
    runtime waits exactly while the request is in flight; so a timeout without
    a terminal event is never accepted as a failure. *)
Theorem request_decision_spec (s : RequestLifecycleState) :
  let only_actions := payload_valid_actions s && negb (payload_metadata_only s) in
  let only_metadata := payload_metadata_only s && negb (payload_valid_actions s) in
  let d := evaluate_request_lifecycle_state s in
  bool_decide (d = AcceptCompleted) = settled s && completed_received s && only_actions && matched_request_id s /\
  bool_decide (d = AcceptSalvagedCompleted) = settled s && completed_received s && only_actions && negb (matched_request_id s) /\
  bool_decide (d = IgnoreMetadataOnly) = settled s && completed_received s && only_metadata /\
  bool_decide (d = AcceptFailure) = settled s && failed_received s /\
  bool_decide (d = Await) = in_flight s /\
  bool_decide (d = Suppress "idle") = negb (pending_request s).
Proof. destruct s as [[] ? [] [] [] [] [] [] [] []]; cbn; try destruct artifact_pending0; repeat split. Qed.

(** the enumeration visits every well-formed request state exactly once
    and no other state, and its metrics are the figures below: of the 134
    states, ten are accepted or ignored and 118 are violations. *)
Theorem request_seed_space_exact (s : RequestLifecycleState) :
  (well_formed s -> length (filter (fun x => x = s) synthetic_request_lifecycle_seed_space) = 1) /\
  (s ∈ synthetic_request_lifecycle_seed_space -> well_formed s) /\
  synthetic_request_lifecycle_metrics =
    {| states_explored := 134; suppressed := 2; awaiting := 4; accepted_completed := 2;
       accepted_salvaged_completed := 2; ignored_metadata_only := 4; accepted_failures := 2;
       invariant_violations := 118 |}.
Proof.
  split; [|split].
  - intros Hs%left_out_well_formed. by rewrite request_occurrences, Hs.
  - intros [Hs _]%list_elem_of_filter. by apply left_out_well_formed.
  - vm_compute. reflexivity.
Qed.

Definition matched_completion : RequestLifecycleState := request_of_bits 173.

Lemma request_seed_space_exact_witness :
  length (filter (fun x => x = matched_completion) synthetic_request_lifecycle_seed_space) = 1 /\
  well_formed matched_completion.
Proof.
  pose proof (request_seed_space_exact matched_completion) as (H1 & H2 & _).
  assert (Hm : matched_completion ∈ synthetic_request_lifecycle_seed_space)
    by (apply (bool_decide_eq_true_1 (matched_completion ∈ synthetic_request_lifecycle_seed_space)); vm_compute; reflexivity).
  split; [apply H1|]; apply H2; exact Hm.
Defined.

(** once attempts are dispatched and no terminal event is duplicated, a
    valid completion of an earlier attempt is accepted exactly when the
    current one has none, else the current attempt's completion and then its
    failure.  While the current attempt is open, its timeout is reported only
    if no earlier attempt answered with metadata alone: such an answer hides
    the timeout. *)
Theorem retry_decision_spec (o : RetrySequenceObservation) :
  attempts_dispatched o <> 0%N -> retry_duplicate_terminal_event o = false ->
  evaluate_retry_sequence o =
    match prior_attempt_completed_valid o, current_attempt_completed_valid o, current_attempt_failed o with
    | true, true, _ => RetryInvariantViolation "retry_sequence_multiple_valid_completions"
    | true, false, _ => AcceptPriorSalvagedAttempt
    | false, true, _ => AcceptCurrentAttempt
    | false, false, true => AcceptFailedCurrentAttempt
    | false, false, false =>
        match current_attempt_pending o, prior_attempt_metadata_only o, retry_timeout_elapsed o with
        | true, true, _ => IgnorePriorMetadataOnly
        | true, false, true | false, true, true =>
            RetryInvariantViolation "retry_sequence_timeout_without_terminal_current_attempt"
        | true, false, false => AwaitCurrentAttempt
        | false, _, _ => RetrySuppress "retry_sequence_idle"
        end
    end.
Proof.
  intros Hn Hd. unfold evaluate_retry_sequence, metadata_only_block. apply N.eqb_neq in Hn as ->. rewrite Hd.
  by destruct (prior_attempt_completed_valid o), (current_attempt_completed_valid o), (prior_attempt_metadata_only o),
    (current_attempt_failed o), (current_attempt_pending o), (retry_timeout_elapsed o).
Qed.

Definition metadata_then_timeout : RetrySequenceObservation :=
  {| attempts_dispatched := 2; current_attempt_pending := true; prior_attempt_completed_valid := false;
     prior_attempt_metadata_only := true; current_attempt_completed_valid := false; current_attempt_failed := false;
     retry_timeout_elapsed := true; retry_duplicate_terminal_event := false |}.

Lemma retry_decision_spec_witness : evaluate_retry_sequence metadata_then_timeout = IgnorePriorMetadataOnly.
Proof. apply (retry_decision_spec metadata_then_timeout); [discriminate|reflexivity]. Defined.
