(* ===== verification/JointHarness.v ===== *)
(** * The joint reachability harness
    ([canon-invariant/src/constraint_harness.rs], [cross_product_harness.rs])

    The constraint component crossed with the control harness, and the
    breadth-first table of the joint steps up to a depth, whose size the
    invariant pipeline reports as its coverage. *)
From Stdlib Require Import Sorting.Sorted.
From S2P Require Import Prelude ControlHarness ConstraintEngine.

(** ** The constraint component *)

Record ConstraintSeed := { seed_state : ConstraintState; seed_route : ConstraintRoute }.

Inductive ConstraintDecision := Allow | Block (reason : string) | Repair | Escalate.

#[export] Instance ConstraintSeed_eq_dec : EqDecision ConstraintSeed.
Proof. solve_decision. Defined.
#[export] Instance ConstraintSeed_countable : Countable ConstraintSeed.
Proof.
  by refine (inj_countable' (fun s => (seed_state s, seed_route s))
    (fun '(a, b) => {| seed_state := a; seed_route := b |}) _); intros [].
Defined.

(** [constraint_seed_states]. *)
Definition constraint_seed_states : list ConstraintSeed :=
  (fun route => {| seed_state := default_constraint_state; seed_route := route |})
    <$> [Observe; Plan; Act; Verify; Conclude].

(** [evaluate_constraint_state] and [step_constraint_state], which ignore
    their arguments in the source too. *)
Definition evaluate_constraint_state (state : ConstraintState) (route : ConstraintRoute) : ConstraintDecision := Allow.
Definition step_constraint_state (state : ConstraintState) (route : ConstraintRoute) (action : ConstraintAction) : ConstraintState := state.

(** The list of actions both harnesses enumerate. *)
Definition constraint_actions : list ConstraintAction :=
  [CargoInit; CargoNew; RepairLocalized; RepairWorkspace; Validation; Other].

#[export] Instance ConstraintAction_countable : Countable ConstraintAction.
Proof.
  by refine (inj_countable' (fun a => match a with CargoInit => 0 | CargoNew => 1 | RepairLocalized => 2
      | RepairWorkspace => 3 | Validation => 4 | Other => 5 end%N)
    (fun n => match n with 0 => CargoInit | 1 => CargoNew | 2 => RepairLocalized
      | 3 => RepairWorkspace | 4 => Validation | _ => Other end%N) _); intros [].
Defined.

(** [constraint_reachability_table]. *)
Definition constraint_reachability_table : gmap (ConstraintSeed * ConstraintAction) ConstraintSeed :=
  foldl (fun table seed =>
    foldl (fun table action =>
      let next_state := step_constraint_state (seed_state seed) (seed_route seed) action in
      <[ (seed, action) := {| seed_state := next_state; seed_route := seed_route seed |} ]> table)
    table constraint_actions) ∅ constraint_seed_states.

(** ** The joint component *)

Record JointState := { joint_control : ControlState; joint_constraint : ConstraintSeed }.
Inductive JointEvent := Control (e : ControlEvent) | Constraint (a : ConstraintAction).

#[export] Instance JointState_eq_dec : EqDecision JointState.
Proof. solve_decision. Defined.
#[export] Instance JointEvent_eq_dec : EqDecision JointEvent.
Proof. solve_decision. Defined.
#[export] Instance JointState_countable : Countable JointState.
Proof.
  by refine (inj_countable' (fun s => (joint_control s, joint_constraint s))
    (fun '(a, b) => {| joint_control := a; joint_constraint := b |}) _); intros [].
Defined.
#[export] Instance JointEvent_countable : Countable JointEvent.
Proof.
  by refine (inj_countable' (fun e => match e with Control e => inl e | Constraint a => inr a end)
    (fun x => match x with inl e => Control e | inr a => Constraint a end) _); intros [].
Defined.

(** [derive_route]. *)
Definition derive_route (cs : ControlState) : ConstraintRoute := Observe.

(** [step_joint]. *)
Definition step_joint (s : JointState) (e : JointEvent) : JointState :=
  match e with
  | Control e => {| joint_control := step_control_state (joint_control s) e; joint_constraint := joint_constraint s |}
  | Constraint a =>
      let route := derive_route (joint_control s) in
      let next_state := step_constraint_state (seed_state (joint_constraint s)) route a in
      {| joint_control := joint_control s; joint_constraint := {| seed_state := next_state; seed_route := route |} |}
  end.

(** [joint_seed_states]. *)
Definition joint_seed_states : list JointState :=
  cs ← synthetic_control_seed_space; ks ← constraint_seed_states; [{| joint_control := cs; joint_constraint := ks |}].

Notation joint_queue := (list (JointState * nat)).
Notation joint_table := (gmap (JointState * JointEvent) JointState).

(** The body of the two [for] loops over events: a step seen for the first
    time queues its target. *)
Definition visit (state : JointState) (depth : nat) (qt : joint_queue * joint_table) (e : JointEvent) : joint_queue * joint_table :=
  let '(queue, table) := qt in
  let next := step_joint state e in
  let table' := <[ (state, e) := next ]> table in
  match table !! (state, e) with
  | None => (queue ++ [(next, S depth)], table')
  | Some _ => (queue, table')
  end.

(** The loop over the control events, then the one over the actions. *)
Definition expand (state : JointState) (depth : nat) (qt : joint_queue * joint_table) : joint_queue * joint_table :=
  foldl (visit state depth)
    (foldl (visit state depth) qt (Control <$> SYNTHETIC_TRACE_EVENTS))
    (Constraint <$> constraint_actions).

(** The [while let] loop; [None] when the fuel runs out. *)
Fixpoint joint_bfs (fuel : nat) (max_depth : nat) (queue : joint_queue) (table : joint_table) : option joint_table :=
  match fuel with
  | O => None
  | S fuel' =>
      match queue with
      | [] => Some table
      | (state, depth) :: queue =>
          if max_depth <=? depth then joint_bfs fuel' max_depth queue table
          else
            let '(queue, table) := expand state depth (queue, table) in
            joint_bfs fuel' max_depth queue table
      end
  end.

(** The seeds, and one round for every step of every joint state. *)
Definition joint_fuel : nat := S (length joint_seed_states + 16 * (length all_states * 5)).

(** [joint_reachability_table]. *)
Definition joint_reachability_table (max_depth : nat) : option joint_table :=
  joint_bfs joint_fuel max_depth ((fun s => (s, 0)) <$> joint_seed_states) ∅.

(** ** Correctness of the breadth-first search *)

Definition joint_events : list JointEvent :=
  (Control <$> SYNTHETIC_TRACE_EVENTS) ++ (Constraint <$> constraint_actions).

(** [joint_reach n s]: a seed reaches [s] in exactly [n] events. *)
Inductive joint_reach : nat -> JointState -> Prop :=
| reach_seed s : s ∈ joint_seed_states -> joint_reach 0 s
| reach_step n s e : joint_reach n s -> e ∈ joint_events -> joint_reach (S n) (step_joint s e).

Lemma expand_eq s d qt : expand s d qt = foldl (visit s d) qt joint_events.
Proof. unfold expand, joint_events. by rewrite foldl_app. Qed.

Lemma NoDup_joint_events : NoDup joint_events.
Proof. apply (bool_decide_eq_true_1 (NoDup joint_events)). vm_compute. reflexivity. Qed.

(** A state not expanded before: its row is filled and its successors queued. *)
Lemma visit_fresh (s : JointState) (d : nat) (evs : list JointEvent) (q : joint_queue) (t : joint_table) :
  NoDup evs -> (forall e, e ∈ evs -> t !! (s, e) = None) ->
  exists t', foldl (visit s d) (q, t) evs = (q ++ ((fun e => (step_joint s e, S d)) <$> evs), t') /\
    forall s' e, t' !! (s', e) = if decide (s' = s /\ e ∈ evs) then Some (step_joint s e) else t !! (s', e).
Proof.
  intros Hnd. revert q t. induction Hnd as [|e evs He Hnd IH]; intros q t Ht.
  - exists t. split; [cbn; by rewrite app_nil_r|]. intros s' e. by rewrite decide_False by set_solver.
  - cbn [foldl visit]. rewrite Ht by set_solver.
    destruct (IH (q ++ [(step_joint s e, S d)]) (<[ (s, e) := step_joint s e ]> t)) as (t' & -> & Ht').
    { intros e' He'. rewrite lookup_insert_ne by (intros [= ->]; done). apply Ht. set_solver. }
    exists t'. split; [by rewrite <- app_assoc|]. intros s' e'. rewrite Ht'.
    destruct (decide ((s, e) = (s', e'))) as [[= -> ->]|Hne].
    + rewrite (decide_False (P := s' = s' /\ e' ∈ evs)) by set_solver. rewrite lookup_insert_eq, decide_True by set_solver. done.
    + rewrite lookup_insert_ne by done. destruct (decide (s' = s /\ e' ∈ evs)) as [[-> ?]|Hn].
      * by rewrite decide_True by set_solver.
      * rewrite decide_False; [done|]. intros [-> [->|?]%elem_of_cons]; [done|]. by apply Hn.
Qed.

(** A state expanded before: nothing changes. *)
Lemma visit_known (s : JointState) (d : nat) (evs : list JointEvent) (q : joint_queue) (t : joint_table) :
  (forall e, e ∈ evs -> t !! (s, e) = Some (step_joint s e)) -> foldl (visit s d) (q, t) evs = (q, t).
Proof.
  induction evs as [|e evs IH]; intros Ht; [done|]. cbn [foldl visit].
  rewrite Ht by set_solver. rewrite insert_id by (apply Ht; set_solver). apply IH. set_solver.
Qed.

(** The bookkeeping of the search: [δ] gives the depth at which a state was
    expanded.  A state is owed by depth [b] when it was expanded, or is queued,
    at depth [b] at most, or [b] is beyond the limit. *)
Definition owed (max : nat) (q : joint_queue) (δ : gmap JointState nat) (s : JointState) (b : nat) : Prop :=
  (exists d, δ !! s = Some d /\ d <= b) \/ (exists d, (s, d) ∈ q /\ d <= b) \/ max <= b.

Record bfs_inv (max : nat) (q : joint_queue) (t : joint_table) (δ : gmap JointState nat) : Prop := {
  inv_table : forall s e, t !! (s, e) = if decide (is_Some (δ !! s) /\ e ∈ joint_events) then Some (step_joint s e) else None;
  inv_expanded : forall s d, δ !! s = Some d -> joint_reach d s /\ d < max;
  inv_queued : forall s d, (s, d) ∈ q -> joint_reach d s;
  inv_seeds : forall s, s ∈ joint_seed_states -> owed max q δ s 0;
  inv_steps : forall s d e, δ !! s = Some d -> e ∈ joint_events -> owed max q δ (step_joint s e) (S d);
  inv_levels : StronglySorted (fun x y => x.2 <= y.2) q;
  inv_span : forall x y, x ∈ q -> y ∈ q -> y.2 <= S (x.2);
  inv_below : forall s d x, δ !! s = Some d -> x ∈ q -> d <= x.2;
}.

(** Dropping the first entry of the queue keeps what is owed, when the entry
    was expanded no later or is beyond the limit. *)
Lemma owed_pop max s0 d0 q δ s b :
  (max <= d0 \/ exists d, δ !! s0 = Some d /\ d <= d0) -> owed max ((s0, d0) :: q) δ s b -> owed max q δ s b.
Proof.
  intros H0 [H|[(d & [[= -> ->]|Hin]%elem_of_cons & Hd)|H]]; [by left| |right; left; eauto|by right; right].
  destruct H0 as [|(d & ? & ?)]; [right; right; lia|left; exists d; split; [done|lia]].
Qed.

(** Expanding the first entry at its depth keeps what is owed. *)
Lemma owed_expand max s0 d0 q q' δ s b :
  δ !! s0 = None -> owed max ((s0, d0) :: q) δ s b -> owed max (q ++ q') (<[ s0 := d0 ]> δ) s b.
Proof.
  intros H0 [(d & H & Hd)|[(d & [[= -> ->]|Hin]%elem_of_cons & Hd)|H]].
  - left. exists d. rewrite lookup_insert_ne by congruence. done.
  - left. exists d0. by rewrite lookup_insert_eq.
  - right; left. exists d. split; [apply elem_of_app; by left|done].
  - by right; right.
Qed.

Lemma levels_tail max x q t δ : bfs_inv max (x :: q) t δ ->
  StronglySorted (fun x y => x.2 <= y.2) q /\ Forall (fun y => x.2 <= y.2 <= S (x.2)) q.
Proof.
  intros []. inversion inv_levels0 as [|? ? Hs Hf]; subst. split; [done|].
  rewrite Forall_forall in Hf |- *. intros y Hy. split; [by apply Hf|]. apply inv_span0; [apply list_elem_of_here|by apply list_elem_of_further].
Qed.

(** An entry beyond the limit, or of a state expanded before, is dropped. *)
Lemma bfs_inv_pop max s0 d0 q t δ : bfs_inv max ((s0, d0) :: q) t δ ->
  max <= d0 \/ is_Some (δ !! s0) -> bfs_inv max q t δ.
Proof.
  intros Hinv H0. pose proof (levels_tail _ _ _ _ _ Hinv) as [Hs _].
  assert (Hp : max <= d0 \/ exists d, δ !! s0 = Some d /\ d <= d0).
  { destruct H0 as [|[d Hd]]; [by left|right]. exists d. split; [done|].
    apply (inv_below _ _ _ _ Hinv s0 d (s0, d0)); [done|apply list_elem_of_here]. }
  destruct Hinv. split; [done|done| | | |done| |].
  - intros s d Hin. apply inv_queued0. by apply list_elem_of_further.
  - intros s Hs0. eapply owed_pop; eauto.
  - intros s d e Hd He. eapply owed_pop; eauto.
  - intros x y Hx Hy. apply inv_span0; by apply list_elem_of_further.
  - intros s d x Hd Hx. apply (inv_below0 s d x Hd). by apply list_elem_of_further.
Qed.

Lemma sorted_snoc_level (q q' : joint_queue) d :
  StronglySorted (fun x y => x.2 <= y.2) q -> Forall (fun y => y.2 <= S d) q ->
  Forall (fun y => y.2 = S d) q' -> StronglySorted (fun x y => x.2 <= y.2) (q ++ q').
Proof.
  intros Hq. induction Hq as [|x q Hq IH Hx]; intros Hle Hq'.
  - cbn. induction Hq' as [|y q' Hy Hq' IH]; constructor; [done|].
    eapply Forall_impl; [exact Hq'|]. cbn. intros z Hz. lia.
  - cbn. apply Forall_cons in Hle as [Hxd Hle]. constructor; [by apply IH|]. apply Forall_app. split; [done|].
    eapply Forall_impl; [exact Hq'|]. cbn. intros z Hz. lia.
Qed.

(** A state met for the first time below the limit is expanded. *)
Lemma bfs_inv_expand max s0 d0 q t δ q' t' : bfs_inv max ((s0, d0) :: q) t δ -> d0 < max -> δ !! s0 = None ->
  expand s0 d0 (q, t) = (q', t') ->
  bfs_inv max q' t' (<[ s0 := d0 ]> δ) /\ length q' = length q + 16.
Proof.
  intros Hinv Hd0 H0 Hx. pose proof (levels_tail _ _ _ _ _ Hinv) as [Hs Hspan].
  assert (Hfresh : forall e, e ∈ joint_events -> t !! (s0, e) = None).
  { intros e _. rewrite (inv_table _ _ _ _ Hinv), decide_False; [done|]. rewrite H0. by intros [[]%is_Some_None _]. }
  rewrite expand_eq in Hx.
  destruct (visit_fresh s0 d0 joint_events q t NoDup_joint_events Hfresh) as (t1 & E & Ht1).
  rewrite E in Hx. apply pair_equal_spec in Hx as [<- <-]. split; [|by rewrite length_app, length_fmap].
  set (new := (fun e => (step_joint s0 e, S d0)) <$> joint_events).
  assert (Hnew : forall s d, (s, d) ∈ new -> d = S d0 /\ exists e, e ∈ joint_events /\ s = step_joint s0 e).
  { intros s d (e & [= -> ->] & He)%list_elem_of_fmap. eauto. }
  assert (Hdepth : forall s d, (s, d) ∈ q ++ new -> d0 <= d <= S d0).
  { intros s d [Hq|[-> _]%Hnew]%elem_of_app; [|lia]. rewrite Forall_forall in Hspan. by apply (Hspan (s, d)). }
  pose proof (inv_queued _ _ _ _ Hinv s0 d0 (list_elem_of_here _ _)) as Hr0.
  destruct Hinv. split.
  - intros s e. rewrite Ht1. destruct (decide (s = s0 /\ e ∈ joint_events)) as [[-> He]|Hn].
    + rewrite lookup_insert_eq, decide_True by eauto. done.
    + rewrite inv_table0. destruct (decide (s = s0)) as [->|Hne]; [|by rewrite lookup_insert_ne].
      rewrite decide_False by tauto. rewrite decide_False by tauto. done.
  - intros s d. rewrite lookup_insert. case_decide as Hs0; [intros [= <-]; by subst|]. apply inv_expanded0.
  - intros s d [Hq|[-> (e & He & ->)]%Hnew]%elem_of_app; [apply inv_queued0; by apply list_elem_of_further|by constructor].
  - intros s Hseed. apply owed_expand; auto.
  - intros s d e. rewrite lookup_insert. case_decide as Hs0.
    + intros [= <-] He. subst s. right; left. exists (S d0). split; [|lia].
      apply elem_of_app. right. apply list_elem_of_fmap. eauto.
    + intros Hd He. apply owed_expand; eauto.
  - apply (sorted_snoc_level q new d0); [done| |].
    + eapply Forall_impl; [exact Hspan|]. cbn. lia.
    + apply Forall_forall. intros [s d] [-> _]%Hnew. done.
  - intros [s d] [s' d'] H1%Hdepth H2%Hdepth. cbn. lia.
  - intros s d [s' d'] Hd Hy%Hdepth. cbn. rewrite lookup_insert in Hd. case_decide as Hs0; [injection Hd as <-; lia|].
    pose proof (inv_below0 s d (s0, d0) Hd (list_elem_of_here _ _)) as Hb. cbn in Hb. lia.
Qed.

(** *** Termination *)

Definition routes : list ConstraintRoute := [Observe; Plan; Act; Verify; Conclude].
Definition joint_states : list JointState :=
  c ← all_states; r ← routes;
  [{| joint_control := c; joint_constraint := {| seed_state := default_constraint_state; seed_route := r |} |}].

Lemma elem_of_joint_states s : seed_state (joint_constraint s) = default_constraint_state -> s ∈ joint_states.
Proof.
  destruct s as [c [st r]]. cbn [joint_constraint seed_state]. intros ->. unfold joint_states.
  apply list_elem_of_bind. exists c. split; [|apply elem_of_all_states].
  apply list_elem_of_bind. exists r. split; [by apply list_elem_of_singleton|].
  apply (bool_decide_eq_true_1 (r ∈ routes)). by destruct r.
Qed.

Lemma joint_reach_default n s : joint_reach n s -> seed_state (joint_constraint s) = default_constraint_state.
Proof.
  induction 1 as [s Hs|n s e _ IH _]; [|by destruct e].
  unfold joint_seed_states in Hs. apply list_elem_of_bind in Hs as (c & Hs & _).
  apply list_elem_of_bind in Hs as (k & ->%list_elem_of_singleton & Hk).
  unfold constraint_seed_states in Hk. by apply list_elem_of_fmap in Hk as (r & -> & _).
Qed.

Lemma size_list_to_set_le {A} `{Countable A} (l : list A) : size (list_to_set l : gset A) <= length l.
Proof.
  induction l as [|x l IH]; [done|]. cbn [list_to_set length].
  rewrite size_union_alt, size_singleton. pose proof (subseteq_size (list_to_set l ∖ {[x]}) (list_to_set l : gset A) ltac:(set_solver)). lia.
Qed.

Lemma length_joint_states : length joint_states = length all_states * 5.
Proof. vm_compute. reflexivity. Qed.

Lemma bfs_inv_size max q t δ : bfs_inv max q t δ -> size δ <= length all_states * 5.
Proof.
  intros Hinv. rewrite <- size_dom, <- length_joint_states, <- size_list_to_set_le. apply subseteq_size.
  intros s [d Hd]%elem_of_dom. apply elem_of_list_to_set, elem_of_joint_states.
  apply (joint_reach_default d). by apply (inv_expanded _ _ _ _ Hinv).
Qed.

(** With a round for every queued entry and for every step of every state that
    is not expanded, the search ends. *)
Lemma joint_bfs_ends fuel max q t δ : bfs_inv max q t δ ->
  length q + 16 * (length all_states * 5 - size δ) < fuel ->
  exists t' δ', joint_bfs fuel max q t = Some t' /\ bfs_inv max [] t' δ'.
Proof.
  revert q t δ. induction fuel as [|fuel IH]; intros q t δ Hinv Hf; [lia|].
  destruct q as [|[s d] q]; [by exists t, δ|]. cbn [joint_bfs]. cbn [length] in Hf.
  destruct (max <=? d) eqn:Hd.
  { apply Nat.leb_le in Hd. apply (IH q t δ); [eapply bfs_inv_pop; eauto|lia]. }
  apply Nat.leb_gt in Hd. destruct (δ !! s) as [d'|] eqn:Hs.
  - rewrite expand_eq, visit_known.
    + apply (IH q t δ); [eapply bfs_inv_pop; eauto|lia].
    + intros e He. rewrite (inv_table _ _ _ _ Hinv), decide_True by eauto. done.
  - destruct (expand s d (q, t)) as [q' t'] eqn:Hx.
    destruct (bfs_inv_expand _ _ _ _ _ _ _ _ Hinv Hd Hs Hx) as [Hinv' Hlen].
    apply (IH q' t' (<[ s := d ]> δ) Hinv').
    pose proof (bfs_inv_size _ _ _ _ Hinv') as Hsz. rewrite map_size_insert_None in Hsz |- * by done. lia.
Qed.

Lemma bfs_inv_init max : bfs_inv max ((fun s => (s, 0)) <$> joint_seed_states) ∅ ∅.
Proof.
  assert (Hq : forall s d, (s, d) ∈ (fun s : JointState => (s, 0)) <$> joint_seed_states -> d = 0 /\ s ∈ joint_seed_states).
  { intros s d (s' & [= -> ->] & Hs)%list_elem_of_fmap. done. }
  split; try done.
  - intros s d [-> Hs]%Hq. by constructor.
  - intros s Hs. right; left. exists 0. split; [|lia]. apply list_elem_of_fmap. eauto.
  - generalize joint_seed_states as l. intros l. clear Hq. induction l as [|s l IH]; cbn; constructor; [done|].
    apply Forall_fmap, Forall_true. cbn. lia.
  - intros [s d] [s' d'] _ [-> _]%Hq. cbn. lia.
Qed.

(** At the end every state within the limit has been expanded. *)
Lemma bfs_inv_final max t δ : bfs_inv max [] t δ ->
  forall s, is_Some (δ !! s) <-> exists n, n < max /\ joint_reach n s.
Proof.
  intros Hinv s. split.
  { intros [d Hd]. exists d. apply (inv_expanded _ _ _ _ Hinv) in Hd as [??]. done. }
  assert (Ho : forall s b, owed max [] δ s b -> b < max -> exists d, δ !! s = Some d /\ d <= b).
  { intros s' b [?|[(d & []%elem_of_nil & _)|?]] Hb; [done|lia]. }
  intros (n & Hn & Hr). enough (exists d, δ !! s = Some d /\ d <= n) as (d & -> & _) by eauto.
  induction Hr as [s Hs|n s e Hr IH He].
  - apply Ho; [by apply (inv_seeds _ _ _ _ Hinv)|done].
  - destruct IH as (d & Hd & Hle); [lia|].
    destruct (Ho (step_joint s e) (S d)) as (d' & Hd' & Hle'); [by apply (inv_steps _ _ _ _ Hinv)|lia|].
    exists d'. split; [done|lia].
Qed.

(** C23: the joint reachability table of depth [max_depth] is computed without
    running out of rounds, and it holds the step of a state under an event
    exactly when the event is enumerated and a seed reaches the state in fewer
    than [max_depth] events. *)
Theorem joint_table_spec (max_depth : nat) :
  exists t, joint_reachability_table max_depth = Some t /\
    forall s e s', t !! (s, e) = Some s' <->
      e ∈ joint_events /\ s' = step_joint s e /\ exists n, n < max_depth /\ joint_reach n s.
Proof.
  destruct (joint_bfs_ends joint_fuel max_depth _ _ _ (bfs_inv_init max_depth)) as (t & δ & Ht & Hinv).
  { rewrite length_fmap, map_size_empty. unfold joint_fuel. lia. }
  exists t. split; [done|]. intros s e s'. rewrite (inv_table _ _ _ _ Hinv).
  rewrite <- (bfs_inv_final _ _ _ Hinv s). case_decide as Hc; [|split; [done|tauto]].
  split; [intros [= <-]; tauto|]. by intros (_ & -> & _).
Qed.
