(* ===== verification/PlanGraphs.v ===== *)
(** * Projections of planning events
    ([canon-storage-eventlog/src/goal_graph_projector.rs],
    [capability_graph_projector.rs])

    The goal graph and the capability graph as folds over the events of a
    segment directory.  The readers yield canon events only, so the
    [AnyEvent::Code] case of the projections does not arise. *)
From Stdlib Require Import Sorting.Sorted.
From stdpp Require Import sorting.
From S2P Require Import Prelude Json Wire EventInvariants Codec TlogWriter TlogReader.
Import EventKind.

(** ** The goal graph *)

Record GoalNodeState := {
  goal_node_id : string;
  goal_description : string;
  goal_deps : list string;
  goal_caps : list string;
  goal_node_type : string;
  goal_priority : N;
  goal_budget : option N;
  goal_status : string
}.

Record GoalGraphState := {
  goal_nodes : gmap string GoalNodeState;
  goal_edges : list (string * string);
  seq_processed : N
}.
Definition empty_goal_graph : GoalGraphState := {| goal_nodes := ∅; goal_edges := []; seq_processed := 0 |}.

Section Projections.
Context {V : Type} `{Json V}.

(** [payload.get(k).and_then(|v| v.as_str()).unwrap_or(d)]. *)
Definition str_or (d k : string) (payload : V) : string := default d (json_get_str k payload).
(** [...as_array()] followed by the collection of its strings. *)
Definition strings_of (k : string) (payload : V) : option (list string) :=
  match json_get k payload ≫= json_as_array with
  | Some l => Some (omap json_as_str l)
  | None => None
  end.

Definition with_nodes (f : gmap string GoalNodeState -> gmap string GoalNodeState) (st : GoalGraphState) : GoalGraphState :=
  {| goal_nodes := f (goal_nodes st); goal_edges := goal_edges st; seq_processed := seq_processed st |}.
Definition with_edges (f : list (string * string) -> list (string * string)) (st : GoalGraphState) : GoalGraphState :=
  {| goal_nodes := goal_nodes st; goal_edges := f (goal_edges st); seq_processed := seq_processed st |}.

Definition set_goal_status (status : string) (n : GoalNodeState) : GoalNodeState :=
  {| goal_node_id := goal_node_id n; goal_description := goal_description n; goal_deps := goal_deps n;
     goal_caps := goal_caps n; goal_node_type := goal_node_type n; goal_priority := goal_priority n;
     goal_budget := goal_budget n; goal_status := status |}.

(** The node a [GoalNodeCreated] event describes; [as u8] and [as u32] wrap. *)
Definition created_node (node_id : string) (payload : V) : GoalNodeState :=
  {| goal_node_id := node_id;
     goal_description := str_or "" "description" payload;
     goal_deps := default [] (strings_of "deps" payload);
     goal_caps := default [] (strings_of "caps" payload);
     goal_node_type := str_or "analysis" "node_type" payload;
     goal_priority := (default 1 (json_get "priority" payload ≫= json_as_u64) mod 256)%N;
     goal_budget := wrap32 <$> (json_get "budget" payload ≫= json_as_u64);
     goal_status := "pending" |}.

Definition rewritten_node (payload : V) (n : GoalNodeState) : GoalNodeState :=
  {| goal_node_id := goal_node_id n;
     goal_description := default (goal_description n) (json_get_str "new_description" payload);
     goal_deps := goal_deps n;
     goal_caps := default (goal_caps n) (strings_of "new_caps" payload);
     goal_node_type := goal_node_type n; goal_priority := goal_priority n; goal_budget := goal_budget n;
     goal_status := "pending" |}.

(** The status a lifecycle event gives its node, by the event's string. *)
Definition lifecycle_status (kind_str : string) : option string :=
  if decide (kind_str = "node_started") then Some "running"
  else if decide (kind_str = "node_completed") then Some "completed"
  else if decide (kind_str = "node_failed") then Some "failed"
  else None.

Definition bump_seq (ts : N) (st : GoalGraphState) : GoalGraphState :=
  {| goal_nodes := goal_nodes st; goal_edges := goal_edges st;
     seq_processed := if (seq_processed st <? ts)%N then ts else seq_processed st |}.

(** [apply_planning_event].  The early return of a node without an id also
    skips the update of [seq_processed]. *)
Definition apply_planning_event (st : GoalGraphState) (e : CanonEvent V) : GoalGraphState :=
  let payload := p_data (ev_payload e) in
  let node_id := str_or "" "node_id" payload in
  match ev_kind e with
  | GoalNodeCreated =>
      if decide (node_id = "") then st
      else bump_seq (ev_ts e) (with_nodes <[ node_id := created_node node_id payload ]> st)
  | GoalNodeRetracted =>
      bump_seq (ev_ts e) (with_edges (filter (fun ed => ed.1 <> node_id /\ ed.2 <> node_id))
        (with_nodes (delete node_id) st))
  | GoalNodeRewritten => bump_seq (ev_ts e) (with_nodes (alter (rewritten_node payload) node_id) st)
  | GoalEdgeDefined =>
      let from := str_or "" "from_node_id" payload in
      let to := str_or "" "to_node_id" payload in
      bump_seq (ev_ts e)
        (if decide (from <> "" /\ to <> "" /\ (from, to) ∉ goal_edges st)
         then with_edges (fun es => es ++ [(from, to)]) st else st)
  | kind =>
      bump_seq (ev_ts e)
        match lifecycle_status (as_str kind) with
        | Some status => with_nodes (alter (set_goal_status status) node_id) st
        | None => st
        end
  end.

Context `{Codec V} (new_event_id : string).

(** [replay_goal_graph_incremental] and [replay_goal_graph_from_tlog] on a
    segment directory. *)
Definition replay_goal_graph_incremental (d : Dir) (start_seq : N) (st : GoalGraphState) : GoalGraphState :=
  foldl apply_planning_event st (read_any_events_from_dir_with_start_seq new_event_id d start_seq).
Definition replay_goal_graph_from_tlog (d : Dir) : GoalGraphState :=
  replay_goal_graph_incremental d 0 empty_goal_graph.

(** ** The capability graph *)

Record CapabilityOpNode := {
  cap_id : string; cap_name : string; cap_node_id : string; cap_status : string;
  cap_duration_ms : option N; cap_result : option V
}.
Record CapabilityOpEdge := { cap_from : string; cap_to : string; cap_kind : string }.
Record CapabilityGraphState := { cap_nodes : gmap string CapabilityOpNode; cap_edges : list CapabilityOpEdge }.

Definition set_cap_status (status : string) (n : CapabilityOpNode) : CapabilityOpNode :=
  {| cap_id := cap_id n; cap_name := cap_name n; cap_node_id := cap_node_id n; cap_status := status;
     cap_duration_ms := cap_duration_ms n; cap_result := cap_result n |}.
Definition set_cap_result (r : option V) (n : CapabilityOpNode) : CapabilityOpNode :=
  {| cap_id := cap_id n; cap_name := cap_name n; cap_node_id := cap_node_id n; cap_status := cap_status n;
     cap_duration_ms := cap_duration_ms n; cap_result := r |}.
(** The duration since the dispatch, [saturating_sub], when one is recorded. *)
Definition set_cap_duration (start : option N) (ts : N) (n : CapabilityOpNode) : CapabilityOpNode :=
  match start with
  | Some t0 => {| cap_id := cap_id n; cap_name := cap_name n; cap_node_id := cap_node_id n; cap_status := cap_status n;
                  cap_duration_ms := Some (ts - t0)%N; cap_result := cap_result n |}
  | None => n
  end.

Definition pending_op (id name node_id : string) : CapabilityOpNode :=
  {| cap_id := id; cap_name := name; cap_node_id := node_id; cap_status := "pending";
     cap_duration_ms := None; cap_result := None |}.

(** The id of a tool call: [tool_call_id], else [request_id], else empty. *)
Definition tool_request_id (payload : V) : string :=
  default "" (match json_get_str "tool_call_id" payload with
              | Some id => Some id
              | None => json_get_str "request_id" payload
              end).

(** One round of the loop of [replay_capability_graph_from_tlog]; the second
    component is [start_times]. *)
Definition apply_capability_event (acc : CapabilityGraphState * gmap string N) (e : CanonEvent V) : CapabilityGraphState * gmap string N :=
  let '(st, start_times) := acc in
  let payload := p_data (ev_payload e) in
  match ev_kind e with
  | CapabilityRequested =>
      let id := str_or "" "request_id" payload in
      if decide (id = "") then acc
      else ({| cap_nodes := <[ id := pending_op id (str_or "" "name" payload) (str_or "" "node_id" payload) ]> (cap_nodes st);
               cap_edges := cap_edges st |}, <[ id := ev_ts e ]> start_times)
  | CapabilityCompleted =>
      let id := str_or "" "request_id" payload in
      ({| cap_nodes := alter (fun n => set_cap_duration (start_times !! id) (ev_ts e) (set_cap_status "completed" n)) id (cap_nodes st);
          cap_edges := cap_edges st |}, start_times)
  | CapabilityFailed =>
      let id := str_or "" "request_id" payload in
      ({| cap_nodes := alter (set_cap_status "failed") id (cap_nodes st); cap_edges := cap_edges st |}, start_times)
  | ToolCall =>
      let req_id := tool_request_id payload in
      if decide (req_id = "") then acc
      else
        let edge := {| cap_from := str_or "" "node_id" payload; cap_to := req_id; cap_kind := "tool_call" |} in
        ({| cap_nodes := match cap_nodes st !! req_id with
                         | Some _ => cap_nodes st
                         | None => <[ req_id := pending_op req_id (str_or "tool" "kind" payload) "" ]> (cap_nodes st)
                         end;
            cap_edges := cap_edges st ++ [edge] |}, start_times)
  | ToolResult =>
      let req_id := tool_request_id payload in
      let success := default false (json_get "success" payload ≫= json_as_bool) in
      let output := json_get "output" payload in
      if decide (req_id = "") then acc
      else
        ({| cap_nodes := alter (fun n => set_cap_duration (start_times !! req_id) (ev_ts e)
                (set_cap_result output (set_cap_status (if success then "completed" else "failed") n))) req_id (cap_nodes st);
            cap_edges := cap_edges st |}, start_times)
  | _ => acc
  end.

(** [replay_capability_graph_from_tlog] on a segment directory. *)
Definition replay_capability_graph_from_tlog (d : Dir) : CapabilityGraphState :=
  (foldl apply_capability_event ({| cap_nodes := ∅; cap_edges := [] |}, ∅)
    (read_any_events_from_dir_with_start_seq new_event_id d 0)).1.
End Projections.
Arguments CapabilityOpNode V : clear implicits.
Arguments CapabilityGraphState V : clear implicits.

(** ** Well-formedness of the goal graph *)

Definition goal_statuses : list string := ["pending"; "running"; "completed"; "failed"].

(** A node is stored under its own, non-empty id with one of the four
    statuses, its numbers fit their widths, and no edge is listed twice or
    lacks an end. *)
Record goal_wf (st : GoalGraphState) : Prop := {
  wf_nodes : map_Forall (fun k n => goal_node_id n = k /\ k <> "" /\ goal_status n ∈ goal_statuses /\
    (goal_priority n < 256)%N /\ (forall b, goal_budget n = Some b -> b <= u32_max)%N) (goal_nodes st);
  wf_edges : NoDup (goal_edges st);
  wf_ends : Forall (fun ed => ed.1 <> "" /\ ed.2 <> "") (goal_edges st);
}.

Lemma goal_wf_bump ts st : goal_wf st -> goal_wf (bump_seq ts st).
Proof. by intros []. Qed.

Lemma goal_wf_alter f id st :
  (forall n, goal_node_id (f n) = goal_node_id n /\ goal_priority (f n) = goal_priority n /\
             goal_budget (f n) = goal_budget n /\ goal_status (f n) ∈ goal_statuses) ->
  goal_wf st -> goal_wf (with_nodes (alter f id) st).
Proof.
  intros Hf []. split; [|done..]. intros k n. cbn [with_nodes goal_nodes]. rewrite lookup_alter_Some.
  intros [(-> & n' & Hn' & ->)|[_ Hn]]; [|by apply wf_nodes0].
  destruct (Hf n') as (-> & -> & -> & Hs). destruct (wf_nodes0 _ _ Hn') as (? & ? & _ & ? & ?). done.
Qed.

Section Laws.
Context {V : Type} `{Json V}.

Lemma created_node_wf id (payload : V) : id <> "" ->
  goal_node_id (created_node id payload) = id /\ id <> "" /\ goal_status (created_node id payload) ∈ goal_statuses /\
  (goal_priority (created_node id payload) < 256)%N /\
  (forall b, goal_budget (created_node id payload) = Some b -> b <= u32_max)%N.
Proof.
  intros Hid. repeat split; [done|apply list_elem_of_here|cbn; by apply N.mod_lt|].
  cbn. intros b Hb. destruct (_ ≫= _) as [n|]; [|done]. injection Hb as <-.
  unfold wrap32, u32_max. pose proof (N.mod_lt n 4294967296). lia.
Qed.

Lemma lifecycle_status_wf k s : lifecycle_status k = Some s -> s ∈ goal_statuses.
Proof. unfold lifecycle_status, goal_statuses. intros Hs. repeat case_decide; simplify_eq; set_solver. Qed.

Lemma goal_wf_lifecycle st k id :
  goal_wf st ->
  goal_wf match lifecycle_status k with Some status => with_nodes (alter (set_goal_status status) id) st | None => st end.
Proof.
  intros Hst. destruct (lifecycle_status k) as [status|] eqn:Hk; [|done].
  apply goal_wf_alter; [|done]. intros n. by repeat split; [cbn; eapply lifecycle_status_wf].
Qed.

Lemma apply_planning_event_wf (st : GoalGraphState) (e : CanonEvent V) : goal_wf st -> goal_wf (apply_planning_event st e).
Proof.
  intros Hst. unfold apply_planning_event.
  destruct (ev_kind e); try (by apply goal_wf_bump, goal_wf_lifecycle).
  - case_decide as Hid; [done|]. apply goal_wf_bump. destruct Hst. split; [|done..].
    apply map_Forall_insert_2; [by apply created_node_wf|done].
  - apply goal_wf_bump. destruct Hst. split; cbn.
    + by apply map_Forall_delete.
    + by apply NoDup_filter.
    + rewrite Forall_forall in wf_ends0 |- *. intros ed [_ Hed]%list_elem_of_filter. by apply wf_ends0.
  - apply goal_wf_bump, goal_wf_alter; [|done]. intros n. repeat split. apply list_elem_of_here.
  - apply goal_wf_bump. case_decide as Hc; [|done]. destruct Hst. split; cbn; [done| |].
    + apply NoDup_snoc; tauto.
    + apply Forall_app. split; [done|]. constructor; [tauto|constructor].
Qed.

Lemma replay_wf (es : list (CanonEvent V)) st : goal_wf st -> goal_wf (foldl apply_planning_event st es).
Proof. revert st. induction es as [|e es IH]; intros st Hst; [done|]. by apply IH, apply_planning_event_wf. Qed.
End Laws.

(** ** Well-formedness of the capability graph *)

(** An operation is stored under its own, non-empty id; a tool call points to
    a stored operation; a start time belongs to a stored operation; and only
    an operation that is no longer pending has a duration. *)
Record cap_wf {V} (acc : CapabilityGraphState V * gmap string N) : Prop := {
  wf_ops : map_Forall (fun k n => cap_id n = k /\ k <> "" /\ (is_Some (cap_duration_ms n) -> cap_status n <> "pending")) (cap_nodes acc.1);
  wf_calls : Forall (fun ed => is_Some (cap_nodes acc.1 !! cap_to ed)) (cap_edges acc.1);
  wf_starts : forall k, is_Some (acc.2 !! k) -> is_Some (cap_nodes acc.1 !! k);
}.

Section CapabilityLaws.
Context {V : Type} `{Json V}.

Lemma cap_wf_alter (st : CapabilityGraphState V) starts id f :
  (forall n, cap_id (f n) = cap_id n /\ cap_status (f n) <> "pending") ->
  cap_wf (st, starts) -> cap_wf ({| cap_nodes := alter f id (cap_nodes st); cap_edges := cap_edges st |}, starts).
Proof.
  intros Hf []. split; cbn [fst snd cap_nodes cap_edges] in *.
  - intros k n. rewrite lookup_alter_Some. intros [(-> & n' & Hn' & ->)|[_ Hn]]; [|by apply wf_ops0].
    destruct (Hf n') as (-> & ?). destruct (wf_ops0 _ _ Hn') as (? & ? & _). done.
  - eapply Forall_impl; [exact wf_calls0|]. intros ed. by rewrite lookup_alter_is_Some.
  - intros k Hk. rewrite lookup_alter_is_Some. by apply wf_starts0.
Qed.

Lemma cap_wf_insert (st : CapabilityGraphState V) starts id name node edges starts' :
  id <> "" -> cap_wf (st, starts) ->
  (forall ed, ed ∈ edges -> cap_to ed = id) -> (forall k, is_Some (starts' !! k) -> k = id \/ is_Some (starts !! k)) ->
  cap_wf ({| cap_nodes := <[ id := pending_op id name node ]> (cap_nodes st); cap_edges := cap_edges st ++ edges |}, starts').
Proof.
  intros Hid [] He Hs. split; cbn [fst snd cap_nodes cap_edges] in *.
  - apply map_Forall_insert_2; [|done]. repeat split; [done|]. by intros []%is_Some_None.
  - apply Forall_app. split.
    + eapply Forall_impl; [exact wf_calls0|]. cbn. intros ed. rewrite lookup_insert_is_Some. destruct (decide (id = cap_to ed)); auto.
    + apply Forall_forall. intros ed ->%He. rewrite lookup_insert_eq. eauto.
  - intros k Hk. rewrite lookup_insert_is_Some. destruct (decide (id = k)) as [->|Hne]; [by left|right].
    split; [done|]. apply wf_starts0. by destruct (Hs k Hk) as [->|].
Qed.

(** A completion or a result leaves its operation settled. *)
Lemma set_cap_duration_settled (start : option N) ts (n : CapabilityOpNode V) :
  cap_id (set_cap_duration start ts n) = cap_id n /\ cap_status (set_cap_duration start ts n) = cap_status n.
Proof. by destruct start. Qed.

Lemma apply_capability_event_wf (acc : CapabilityGraphState V * gmap string N) (e : CanonEvent V) :
  cap_wf acc -> cap_wf (apply_capability_event acc e).
Proof.
  intros Hacc. destruct acc as [st starts]. unfold apply_capability_event.
  destruct (ev_kind e); try done; cbv zeta.
  - apply cap_wf_alter; [|done]. intros n. by destruct (set_cap_duration_settled (starts !! str_or "" "request_id" (p_data (ev_payload e))) (ev_ts e) (set_cap_status "completed" n)) as [-> ->].
  - by apply cap_wf_alter.
  - case_decide as Hid; [done|]. rewrite <- (app_nil_r (cap_edges st)). apply (cap_wf_insert st starts); [done..| |].
    + by intros ed []%elem_of_nil.
    + intros k. rewrite lookup_insert_is_Some. destruct (decide (str_or "" "request_id" (p_data (ev_payload e)) = k)); tauto || auto.
  - case_decide as Hid; [done|]. destruct (cap_nodes st !! _) eqn:Hn.
    + destruct Hacc. split; cbn [fst snd cap_nodes cap_edges] in *; [done| |done].
      apply Forall_app. split; [done|]. constructor; [eauto|constructor].
    + apply (cap_wf_insert st starts); [done..| |auto]. by intros ed ->%list_elem_of_singleton.
  - case_decide as Hid; [done|]. apply cap_wf_alter; [|done]. intros n.
    match goal with |- context [set_cap_duration ?a ?b ?c] => destruct (set_cap_duration_settled a b c) as [-> ->] end.
    split; [done|]. cbn. by destruct (default false _).
Qed.

Lemma replay_capability_wf (es : list (CanonEvent V)) acc : cap_wf acc -> cap_wf (foldl apply_capability_event acc es).
Proof. revert acc. induction es as [|e es IH]; intros acc Hacc; [done|]. by apply IH, apply_capability_event_wf. Qed.
End CapabilityLaws.

(** ** Replay *)

#[local] Existing Instance by_seq_dec.

Section Resume.
Context {V : Type} `{Json V} `{Codec V} (new_event_id : string).

(** The events of the segments before [start_seq]. *)
Definition events_before (d : Dir) (start_seq : N) : list (CanonEvent V) :=
  concat ((fun x => if (x.1 <? start_seq)%N then read_binary_events new_event_id x.2 else [])
            <$> merge_sort by_seq (dir_files d)).

Lemma cut_sorted (f : N * bytes -> list (CanonEvent V)) (l : list (N * bytes)) c :
  StronglySorted by_seq l ->
  concat ((fun x => if (x.1 <? c)%N then f x else []) <$> l) ++ concat ((fun x => if (x.1 <? c)%N then [] else f x) <$> l) =
  concat (f <$> l).
Proof.
  induction 1 as [|x l Hl IH Hx]; [done|]. cbn [fmap list_fmap concat]. destruct (x.1 <? c)%N eqn:Hc.
  - by rewrite <- app_assoc, <- IH.
  - cbn. rewrite <- IH. clear IH. apply N.ltb_ge in Hc.
    enough (concat ((fun x => if (x.1 <? c)%N then f x else []) <$> l) = []) as -> by done.
    induction Hx as [|y l Hy Hx IH]; [done|]. cbn [fmap list_fmap concat]. unfold by_seq in Hy.
    rewrite (proj2 (N.ltb_ge _ _)) by lia. apply IH. by inversion Hl.
Qed.

#[local] Instance by_seq_total : Total by_seq.
Proof. intros x y. unfold by_seq. lia. Qed.
#[local] Instance by_seq_trans : Transitive by_seq.
Proof. intros x y z. unfold by_seq. lia. Qed.

Lemma read_dir_split d start_seq :
  events_before d start_seq ++ read_any_events_from_dir_with_start_seq new_event_id d start_seq =
  read_any_events_from_dir_with_start_seq new_event_id d 0.
Proof.
  unfold events_before, read_any_events_from_dir_with_start_seq.
  rewrite (cut_sorted (fun x => read_binary_events new_event_id x.2)) by (apply StronglySorted_merge_sort; apply _).
  f_equal. apply list_fmap_ext. intros i x _. by rewrite (proj2 (N.ltb_ge _ _)) by lia.
Qed.

(** a replay of the goal graph may stop before any segment and be resumed
    from it: the result is the one of the full replay, and it is well formed
    whatever the events are. *)
Theorem goal_replay_resumes (d : Dir) (start_seq : N) :
  let partial := foldl apply_planning_event empty_goal_graph (events_before d start_seq) in
  replay_goal_graph_incremental new_event_id d start_seq partial = replay_goal_graph_from_tlog new_event_id d /\
  goal_wf partial /\ goal_wf (replay_goal_graph_from_tlog new_event_id d).
Proof.
  assert (Hempty : goal_wf empty_goal_graph) by (split; [apply map_Forall_empty|constructor|constructor]).
  split; [|split; apply replay_wf; done].
  unfold replay_goal_graph_from_tlog, replay_goal_graph_incremental. by rewrite <- foldl_app, read_dir_split.
Qed.

(** Every operation of the capability graph that a tool call points to exists. *)
Corollary capability_graph_closed (d : Dir) ed :
  ed ∈ cap_edges (replay_capability_graph_from_tlog new_event_id d) ->
  is_Some (cap_nodes (replay_capability_graph_from_tlog new_event_id d) !! cap_to ed).
Proof.
  unfold replay_capability_graph_from_tlog. revert ed. apply Forall_forall.
  apply wf_calls, replay_capability_wf. split; [apply map_Forall_empty|constructor|]. by intros k []%is_Some_None.
Qed.
End Resume.
