(* ===== verification/AlgoSort.v ===== *)
(** * Sorting and heaps of the algorithms library
    ([algorithms/src/sorting/], [data_structures/heap.rs])

    Slices are lists, an index out of range is a panic ([None]).  The trait
    [Ord] is a class: a boolean total preorder from which the other comparisons
    derive. *)
From Stdlib Require Import Sorting.Sorted.
From S2P Require Import Prelude.

Class Ord (T : Type) : Type := ord_le : T -> T -> bool.
Class OrdLaws (T : Type) `{Ord T} : Prop := {
  ord_total : forall x y : T, ord_le x y = true \/ ord_le y x = true;
  ord_trans : forall x y z : T, ord_le x y = true -> ord_le y z = true -> ord_le x z = true;
}.
(** [a < b] and [a == b] of [Ord]. *)
Definition ord_lt {T} `{Ord T} (x y : T) : bool := negb (ord_le y x).
Definition ord_eq {T} `{Ord T} (x y : T) : bool := ord_le x y && ord_le y x.

#[export] Instance Ord_N : Ord N := N.leb.
#[export] Instance OrdLaws_N : OrdLaws N.
Proof. split; unfold ord_le, Ord_N; intros; rewrite ?N.leb_le in *; lia. Qed.
#[export] Instance Ord_nat : Ord nat := Nat.leb.
#[export] Instance OrdLaws_nat : OrdLaws nat.
Proof. split; unfold ord_le, Ord_nat; intros; rewrite ?Nat.leb_le in *; lia. Qed.

(** [slice::swap]; [None] when an index is out of range. *)
Definition swap {T} (i j : nat) (l : list T) : option (list T) :=
  x ← l !! i; y ← l !! j; Some (<[ i := y ]> (<[ j := x ]> l)).

(** ** Merge sort *)

Section Sorting.
Context {T : Type} `{Ord T}.

(** The loop of [merge] on the suffixes [a[i..]] and [b[j..]], with the two
    final [extend_from_slice]. *)
Fixpoint merge (a : list T) : list T -> list T :=
  fix go b :=
    match a, b with
    | [], _ => b
    | _, [] => a
    | x :: a', y :: b' => if ord_le x y then x :: merge a' b else y :: go b'
    end.

(** [merge_sort]; the halves are shorter, so the length is enough fuel. *)
Fixpoint merge_sort_fuel (fuel : nat) (arr : list T) : option (list T) :=
  match fuel with
  | O => None
  | S fuel' =>
      if length arr <=? 1 then Some arr
      else
        let mid := length arr / 2 in
        left ← merge_sort_fuel fuel' (take mid arr);
        right ← merge_sort_fuel fuel' (drop mid arr);
        Some (merge left right)
  end.
Definition merge_sort (arr : list T) : option (list T) := merge_sort_fuel (S (length arr)) arr.

(** ** Quicksort *)

(** One round of the loop of [partition]. *)
Definition partition_step (pivot_index : nat) (st : list T * nat) (j : nat) : option (list T * nat) :=
  let '(arr, i) := st in
  x ← arr !! j; pv ← arr !! pivot_index;
  if ord_le x pv then arr' ← swap i j arr; Some (arr', S i) else Some (arr, i).

Definition fold_option {A B} (f : A -> B -> option A) (a : A) (l : list B) : option A :=
  foldl (fun acc b => a ← acc; f a b) (Some a) l.

(** [partition]: the slice afterwards and the final place of the pivot. *)
Definition partition (arr : list T) : option (list T * nat) :=
  let pivot_index := length arr - 1 in
  '(arr, i) ← fold_option (partition_step pivot_index) (arr, 0) (seq 0 pivot_index);
  arr ← swap i pivot_index arr;
  Some (arr, i).

(** [quick_sort]: the two parts of [split_at_mut] are sorted in place; the
    pivot, first of the right part, stays. *)
Fixpoint quick_sort_fuel (fuel : nat) (arr : list T) : option (list T) :=
  match fuel with
  | O => None
  | S fuel' =>
      if length arr <=? 1 then Some arr
      else
        '(arr, pivot) ← partition arr;
        left ← quick_sort_fuel fuel' (take pivot arr);
        right ← quick_sort_fuel fuel' (drop (S pivot) arr);
        x ← arr !! pivot;
        Some (left ++ x :: right)
  end.
Definition quick_sort (arr : list T) : option (list T) := quick_sort_fuel (S (length arr)) arr.
End Sorting.

(** ** Heaps *)

Section Sift.
Context {T : Type} (lt : T -> T -> bool).

(** The better of the current candidate and a child below [n]. *)
Definition pick (n : nat) (arr : list T) (cur child : nat) : option nat :=
  if child <? n then x ← arr !! child; y ← arr !! cur; Some (if lt x y then child else cur) else Some cur.

(** Sifting down from [i] in the first [n] cells: the recursion of [heapify],
    the loop of [sift_down]. *)
Fixpoint sift (fuel n : nat) (arr : list T) (i : nat) : option (list T) :=
  match fuel with
  | O => None
  | S fuel' =>
      best ← pick n arr i (2 * i + 1);
      best ← pick n arr best (2 * i + 2);
      if best =? i then Some arr
      else arr ← swap i best arr; sift fuel' n arr best
  end.

(** The loop of [sift_up]. *)
Fixpoint sift_up_loop (fuel : nat) (arr : list T) (i : nat) : option (list T) :=
  match fuel with
  | O => None
  | S fuel' =>
      if i =? 0 then Some arr
      else
        let p := (i - 1) / 2 in
        x ← arr !! p; y ← arr !! i;
        if negb (lt y x) then Some arr
        else arr ← swap p i arr; sift_up_loop fuel' arr p
  end.
End Sift.

Section HeapSort.
Context {T : Type} `{Ord T}.

(** [heapify] of [heap_sort.rs], a max-heap. *)
Definition heapify (arr : list T) (n i : nat) : option (list T) :=
  sift (fun a b => ord_lt b a) (S n) n arr i.

(** [heap_sort]. *)
Definition heap_sort (arr : list T) : option (list T) :=
  let len := length arr in
  arr ← fold_option (fun arr i => heapify arr len i) arr (reverse (seq 0 (len / 2)));
  fold_option (fun arr i => arr ← swap 0 i arr; heapify arr i 0) arr (reverse (seq 1 (len - 1))).

(** [MinHeap]: the vector [data]. *)
Definition MinHeap : Type := list T.
Definition sift_up (data : MinHeap) (i : nat) : option MinHeap := sift_up_loop ord_lt (S i) data i.
Definition sift_down (data : MinHeap) (i : nat) : option MinHeap :=
  sift ord_lt (S (length data)) (length data) data i.

Definition heap_new : MinHeap := [].
Definition heap_push (data : MinHeap) (v : T) : option MinHeap :=
  let data := data ++ [v] in sift_up data (length data - 1).
(** [pop_min]: swap the root with the last cell, [Vec::pop], sift down. *)
Definition heap_pop_min (data : MinHeap) : option (MinHeap * option T) :=
  if length data =? 0 then Some (data, None)
  else
    let n := length data - 1 in
    data ← swap 0 n data;
    let min := data !! n in
    let data := take n data in
    if length data =? 0 then Some (data, min)
    else data ← sift_down data 0; Some (data, min).
Definition heap_peek_min (data : MinHeap) : option T := data !! 0.
Definition heap_len (data : MinHeap) : nat := length data.
End HeapSort.
Arguments MinHeap T : clear implicits.
