(* ===== verification/AlgoSortProps.v ===== *)
(** * Correctness of the sorts and of the heap

    Each sort returns, for every input, a sorted permutation of it: the result
    is independent of the algorithm up to the equivalence of the order.  The
    heap operations keep the heap order, and popping yields a least element. *)
From Stdlib Require Import Sorting.Sorted.
From S2P Require Import Prelude AlgoSort.

Definition sorted {T} `{Ord T} (l : list T) : Prop := StronglySorted (fun x y => ord_le x y = true) l.

(** [out] is a correct result of sorting [l]. *)
Definition sorts {T} `{Ord T} (l out : list T) : Prop := out ≡ₚ l /\ sorted out.

(** ** Swaps *)

Lemma insert_middle {T} (a c : list T) x y n : n = length a -> <[ n := y ]> (a ++ x :: c) = a ++ y :: c.
Proof. intros ->. rewrite <- (Nat.add_0_r (length a)), insert_app_r. done. Qed.

Lemma swap_split {T} (a b c : list T) x y :
  swap (length a) (length a + S (length b)) (a ++ x :: b ++ y :: c) = Some (a ++ y :: b ++ x :: c).
Proof.
  assert (Hx : (a ++ x :: b ++ y :: c) !! length a = Some x) by by apply list_lookup_middle.
  assert (Hl : length a + S (length b) = length (a ++ x :: b)) by (rewrite length_app; done).
  assert (E : forall z, a ++ x :: b ++ z :: c = (a ++ x :: b) ++ z :: c) by (intros; by rewrite <- app_assoc).
  unfold swap. rewrite Hx. cbn [mbind option_bind]. rewrite E, list_lookup_middle by done. cbn [mbind option_bind].
  rewrite insert_middle by done. by rewrite <- E, insert_middle.
Qed.

Lemma swap_same {T} (l : list T) i x : l !! i = Some x -> swap i i l = Some l.
Proof. intros Hi. unfold swap. rewrite Hi. cbn. by rewrite !list_insert_id by (rewrite ?list_insert_id; done). Qed.

Lemma swap_lookup {T} i j (l : list T) : i < length l -> j < length l ->
  exists l', swap i j l = Some l' /\ length l' = length l /\ l' ≡ₚ l /\
    (forall k, l' !! k = if decide (k = i) then l !! j else if decide (k = j) then l !! i else l !! k).
Proof.
  intros Hi Hj. destruct (lookup_lt_is_Some_2 _ _ Hi) as [x Hx]. destruct (lookup_lt_is_Some_2 _ _ Hj) as [y Hy].
  unfold swap. rewrite Hx, Hy. cbn. eexists. split; [done|]. split; [by rewrite !length_insert|].
  assert (Hl : forall k, <[i:=y]> (<[j:=x]> l) !! k = if decide (k = i) then l !! j else if decide (k = j) then l !! i else l !! k).
  { intros k. repeat case_decide; subst.
    - rewrite list_lookup_insert_eq by (rewrite length_insert; lia). done.
    - rewrite list_lookup_insert_ne, list_lookup_insert_eq by done. done.
    - by rewrite !list_lookup_insert_ne. }
  split; [|intros k; rewrite Hl, ?Hx, ?Hy; done].
  destruct (decide (i = j)) as [->|Hne].
  { rewrite (list_insert_id (<[j:=x]> l)); [by rewrite list_insert_id|]. rewrite list_lookup_insert_eq by done. congruence. }
  apply Permutation_inj. split; [by rewrite !length_insert|].
  exists (fun k => if decide (k = i) then j else if decide (k = j) then i else k). split.
  - intros k1 k2 Hk. repeat case_decide; congruence.
  - intros k. rewrite Hl. repeat case_decide; subst; congruence.
Qed.

(** ** Merge sort *)

Section Props.
Context {T : Type} `{OrdLaws T}.

Lemma ord_lt_le x y : ord_lt x y = true -> ord_le x y = true.
Proof. unfold ord_lt. rewrite negb_true_iff. destruct (ord_total x y) as [|E]; [done|]. by rewrite E. Qed.

Lemma merge_cons x a y b :
  merge (x :: a) (y :: b) = if ord_le x y then x :: merge a (y :: b) else y :: merge (x :: a) b.
Proof. done. Qed.

Lemma merge_perm a b : merge a b ≡ₚ a ++ b.
Proof.
  revert b. induction a as [|x a IHa]; intros b; [by destruct b|].
  induction b as [|y b IHb]; [by rewrite app_nil_r|]. rewrite merge_cons. destruct (ord_le x y).
  - cbn. by rewrite IHa.
  - rewrite IHb. by rewrite (Permutation_middle (x :: a) b y).
Qed.

Lemma merge_sorted a b : sorted a -> sorted b -> sorted (merge a b).
Proof.
  intros Ha. revert b. induction Ha as [|x a Ha IHa Hx]; intros b Hb; [by destruct b|].
  induction Hb as [|y b Hb IHb Hy]; [by constructor|]. rewrite merge_cons. destruct (ord_le x y) eqn:Hxy.
  - constructor; [by apply IHa; constructor|]. rewrite merge_perm. apply Forall_app. split; [done|].
    constructor; [done|]. eapply Forall_impl; [exact Hy|]. cbn. intros z Hz. by apply ord_trans with y.
  - constructor; [apply IHb|].
    assert (Hyx : ord_le y x = true) by (destruct (ord_total x y); congruence).
    rewrite merge_perm. apply Forall_app. split; [|done]. constructor; [done|].
    eapply Forall_impl; [exact Hx|]. cbn. intros z Hz. by apply ord_trans with x.
Qed.

Lemma sorted_short (l : list T) : length l <= 1 -> sorted l.
Proof. destruct l as [|x [|y l]]; cbn; intros; [constructor|repeat constructor|lia]. Qed.

Lemma merge_sort_fuel_sorts fuel arr : length arr < fuel ->
  exists out, merge_sort_fuel fuel arr = Some out /\ sorts arr out.
Proof.
  revert arr. induction fuel as [|fuel IH]; intros arr Hf; [lia|]. cbn [merge_sort_fuel].
  destruct (length arr <=? 1) eqn:Hlen; [apply Nat.leb_le in Hlen; exists arr; split; [done|by split; [|apply sorted_short]]|].
  apply Nat.leb_gt in Hlen. pose proof (Nat.div_lt (length arr) 2). pose proof (Nat.div_str_pos (length arr) 2).
  destruct (IH (take (length arr / 2) arr)) as (l & -> & Hpl & Hl); [rewrite length_take; lia|].
  destruct (IH (drop (length arr / 2) arr)) as (r & -> & Hpr & Hr); [rewrite length_drop; lia|].
  cbn. eexists. split; [done|]. split; [|by apply merge_sorted].
  by rewrite merge_perm, Hpl, Hpr, take_drop.
Qed.

(** ** Quicksort *)

Lemma fold_option_cons {A B} (f : A -> B -> option A) a b l :
  fold_option f a (b :: l) = match f a b with Some a' => fold_option f a' l | None => None end.
Proof.
  unfold fold_option. cbn. destruct (f a b) as [a'|]; cbn; [done|]. by induction l.
Qed.

(** The invariant of the partition loop: the cells up to [i] are at most the
    pivot, those from there to [j] greater, the rest is unseen. *)
Lemma partition_loop (pv : T) c a b :
  Forall (fun x => ord_le x pv = true) a -> Forall (fun x => ord_le x pv = false) b ->
  exists a' b',
    fold_option (partition_step (length a + length b + length c)) (a ++ b ++ c ++ [pv], length a)
      (seq (length a + length b) (length c)) = Some (a' ++ b' ++ [pv], length a') /\
    a' ++ b' ≡ₚ a ++ b ++ c /\
    Forall (fun x => ord_le x pv = true) a' /\ Forall (fun x => ord_le x pv = false) b'.
Proof.
  revert a b. induction c as [|x c IH]; intros a b Ha Hb.
  { exists a, b. rewrite !app_nil_r. cbn. done. }
  cbn [length seq]. rewrite fold_option_cons. unfold partition_step at 1.
  assert (Hx : (a ++ b ++ (x :: c) ++ [pv]) !! (length a + length b) = Some x).
  { rewrite app_assoc. apply list_lookup_middle. rewrite length_app. done. }
  assert (Hpv : (a ++ b ++ (x :: c) ++ [pv]) !! (length a + length b + S (length c)) = Some pv).
  { rewrite !app_assoc. apply list_lookup_middle. rewrite !length_app. cbn. lia. }
  rewrite Hx, Hpv. cbn [mbind option_bind]. destruct (ord_le x pv) eqn:Hle.
  - assert (Hswap : exists b'', swap (length a) (length a + length b) (a ++ b ++ (x :: c) ++ [pv]) = Some ((a ++ [x]) ++ b'' ++ c ++ [pv]) /\
        b'' ≡ₚ b /\ Forall (fun x => ord_le x pv = false) b'').
    { destruct b as [|y b].
      - exists []. rewrite Nat.add_0_r in *. rewrite (swap_same _ _ x) by done. cbn. by rewrite <- app_assoc.
      - exists (b ++ [y]). cbn [length]. rewrite <- app_comm_cons. cbn [app]. rewrite swap_split. split_and!.
        + by rewrite <- !app_assoc.
        + by rewrite Permutation_app_comm.
        + apply Forall_cons in Hb as [??]. apply Forall_app. auto. }
    destruct Hswap as (b'' & -> & Hp & Hb''). cbn [mbind option_bind].
    destruct (IH (a ++ [x]) b'') as (a' & b' & Heq & Hp' & Ha' & Hb'); [apply Forall_app; auto|done|].
    exists a', b'. split_and!; [|by rewrite Hp', Hp; rewrite <- app_assoc; cbn; rewrite (Permutation_middle b c x)|done|done].
    rewrite <- Heq. rewrite length_app, <- (Permutation_length Hp). cbn [length].
    f_equal; [f_equal; lia|f_equal; lia|f_equal; lia].
  - destruct (IH a (b ++ [x])) as (a' & b' & Heq & Hp' & Ha' & Hb'); [done|apply Forall_app; auto|].
    exists a', b'. split_and!; [|by rewrite Hp', <- app_assoc|done|done].
    rewrite <- Heq. rewrite length_app. cbn [length]. rewrite <- !app_assoc. cbn [app].
    f_equal; [f_equal; lia|f_equal; lia].
Qed.

Lemma partition_spec arr : arr <> [] ->
  exists a pv b, partition arr = Some (a ++ pv :: b, length a) /\ a ++ pv :: b ≡ₚ arr /\
    Forall (fun x => ord_le x pv = true) a /\ Forall (fun x => ord_le pv x = true) b.
Proof.
  intros Hne. destruct (exists_last Hne) as (c & pv & ->). unfold partition.
  replace (length (c ++ [pv]) - 1) with (length c) by (rewrite length_app; cbn; lia).
  destruct (partition_loop pv c [] []) as (a & b & Heq & Hp & Ha & Hb); [constructor..|].
  cbn [length app Nat.add] in Heq. rewrite Heq. cbn [mbind option_bind].
  assert (Hlen : length a + length b = length c) by (rewrite <- length_app, Hp; done).
  assert (Hb' : Forall (fun x => ord_le pv x = true) b).
  { eapply Forall_impl; [exact Hb|]. cbn. intros x Hx. destruct (ord_total x pv); congruence. }
  destruct b as [|y b].
  - exists a, pv, []. cbn in Hlen |- *. rewrite Nat.add_0_r in Hlen. rewrite <- Hlen, (swap_same _ _ pv).
    + cbn. split_and!; [done| |done|constructor]. by rewrite app_nil_r in Hp; rewrite Hp.
    + by apply list_lookup_middle.
  - exists a, pv, (b ++ [y]). rewrite <- Hlen. cbn [length]. rewrite <- app_comm_cons, swap_split. cbn.
    split_and!; [done| |done|].
    + rewrite (Permutation_app_comm c [pv]), <- Hp. cbn.
      by rewrite <- Permutation_middle, (Permutation_app_comm b [y]).
    + apply Forall_cons in Hb' as [??]. apply Forall_app. auto.
Qed.

Lemma sorted_pivot a pv b : sorted a -> sorted b ->
  Forall (fun x => ord_le x pv = true) a -> Forall (fun x => ord_le pv x = true) b -> sorted (a ++ pv :: b).
Proof.
  intros Ha Hb Hap Hbp. induction Ha as [|x a Ha IH Hx]; [by constructor|].
  apply Forall_cons in Hap as [Hxp Hap]. cbn. constructor; [by apply IH|].
  apply Forall_app. split; [done|]. constructor; [done|].
  eapply Forall_impl; [exact Hbp|]. cbn. intros z Hz. by apply ord_trans with pv.
Qed.

Lemma quick_sort_fuel_sorts fuel arr : length arr < fuel ->
  exists out, quick_sort_fuel fuel arr = Some out /\ sorts arr out.
Proof.
  revert arr. induction fuel as [|fuel IH]; intros arr Hf; [lia|]. cbn [quick_sort_fuel].
  destruct (length arr <=? 1) eqn:Hlen; [apply Nat.leb_le in Hlen; exists arr; split; [done|by split; [|apply sorted_short]]|].
  apply Nat.leb_gt in Hlen.
  destruct (partition_spec arr) as (a & pv & b & -> & Hp & Ha & Hb); [by intros ->; cbn in Hlen; lia|].
  cbn [mbind option_bind]. apply Permutation_length in Hp as Hl. rewrite length_app in Hl. cbn in Hl.
  rewrite take_app_length. replace (drop (S (length a)) (a ++ pv :: b)) with b
    by (change (S (length a)) with (1 + length a); rewrite Nat.add_comm, <- drop_drop, drop_app_length; done).
  destruct (IH a) as (l & -> & Hpl & Hsl); [lia|]. destruct (IH b) as (r & -> & Hpr & Hsr); [lia|].
  cbn [mbind option_bind]. rewrite list_lookup_middle by done. cbn. eexists. split; [done|]. split.
  - by rewrite Hpl, Hpr.
  - apply sorted_pivot; [done|done|by rewrite Hpl|by rewrite Hpr].
Qed.
End Props.

(** ** Heaps *)

Section Heap.
Context {T : Type} (le : T -> T -> bool).
Context (le_total : forall x y, le x y = true \/ le y x = true).
Context (le_trans : forall x y z, le x y = true -> le y z = true -> le x z = true).
Let lt x y := negb (le y x).

Definition child (p c : nat) : Prop := c = 2 * p + 1 \/ c = 2 * p + 2.

(** [below arr p c]: the value in cell [p] is at most the one in cell [c]. *)
Definition below (arr : list T) (p c : nat) : Prop :=
  forall x y, arr !! p = Some x -> arr !! c = Some y -> le x y = true.

(** The heap order among the cells below [n], from parents not before [k]. *)
Definition heap_from (k n : nat) (arr : list T) : Prop :=
  forall p c, k <= p -> child p c -> c < n -> below arr p c.

(** The same, except under cell [i], whose children are above its parent. *)
Definition heap_hole (k n i : nat) (arr : list T) : Prop :=
  (forall p c, k <= p -> p <> i -> child p c -> c < n -> below arr p c) /\
  (forall p c, k <= p -> child p i -> child i c -> c < n -> below arr p c).

Lemma le_refl x : le x x = true.
Proof. by destruct (le_total x x). Qed.

Lemma below_trans arr p q c : q < length arr -> below arr p q -> below arr q c -> below arr p c.
Proof.
  intros Hq H1 H2 x z Hx Hz. destruct (lookup_lt_is_Some_2 _ _ Hq) as [y Hy].
  apply (le_trans x y z); [by apply H1|by apply H2].
Qed.

(** The candidate after looking at one child. *)
Lemma pick_spec n arr cur c : n <= length arr -> cur < n ->
  exists best, pick lt n arr cur c = Some best /\ (best = cur \/ (best = c /\ c < n)) /\
    below arr best cur /\ (c < n -> below arr best c).
Proof.
  intros Hn Hcur. unfold pick. destruct (c <? n) eqn:Hc.
  - apply Nat.ltb_lt in Hc. destruct (lookup_lt_is_Some_2 arr c ltac:(lia)) as [x Hx].
    destruct (lookup_lt_is_Some_2 arr cur ltac:(lia)) as [y Hy]. rewrite Hx, Hy. cbn.
    unfold lt. destruct (le y x) eqn:E; cbn; eexists; (split; [done|]); (split; [auto|]); unfold below;
      split; intros; simplify_eq; try apply le_refl; try done. by destruct (le_total x y); congruence.
  - apply Nat.ltb_ge in Hc. exists cur. split; [done|]. split; [by left|].
    split; [|lia]. intros x y ??. simplify_eq. apply le_refl.
Qed.

(** Both looks together: the best of a cell and its children. *)
Lemma best_spec n arr i : n <= length arr -> i < n ->
  exists b1 best, pick lt n arr i (2 * i + 1) = Some b1 /\ pick lt n arr b1 (2 * i + 2) = Some best /\
    (best = i \/ (child i best /\ best < n)) /\ below arr best i /\
    (forall c, child i c -> c < n -> below arr best c).
Proof.
  intros Hn Hi. destruct (pick_spec n arr i (2 * i + 1)) as (b1 & H1 & Hb1 & Hi1 & Hl1); [done..|].
  assert (b1 < n) by (destruct Hb1 as [|[]]; lia).
  destruct (pick_spec n arr b1 (2 * i + 2)) as (b2 & H2 & Hb2 & Hi2 & Hl2); [done..|].
  exists b1, b2. split_and!; [done|done| | |].
  - unfold child. destruct Hb2 as [->|[-> ?]]; [|auto]. destruct Hb1 as [->|[-> ?]]; auto.
  - apply (below_trans arr b2 b1 i); [lia|done..].
  - intros c [-> | ->] Hc; [|by apply Hl2]. apply (below_trans arr b2 b1); [lia|done|by apply Hl1].
Qed.

Lemma child_lt p c : child p c -> p < c.
Proof. intros []; lia. Qed.
Lemma child_inj p q c : child p c -> child q c -> p = q.
Proof. intros [] []; lia. Qed.

(** Swapping a cell with its best child moves the hole down. *)
Lemma hole_down k n i best arr arr' :
  n <= length arr -> heap_hole k n i arr -> child i best -> best < n -> below arr best i ->
  (forall c, child i c -> c < n -> below arr best c) ->
  (forall j, arr' !! j = if decide (j = i) then arr !! best else if decide (j = best) then arr !! i else arr !! j) ->
  heap_hole k n best arr'.
Proof.
  intros Hn [Hh1 Hh2] Hc Hbest Hbi Hmin Hl. pose proof (child_lt _ _ Hc).
  split; intros p c Hk.
  - intros Hp Hpc Hcn x y. rewrite !Hl. pose proof (child_lt _ _ Hpc).
    destruct (decide (p = i)) as [->|]; [|rewrite (decide_False (P := p = best)) by done].
    + rewrite (decide_False (P := c = i)) by lia.
      destruct (decide (c = best)) as [->|]; [apply Hbi|by apply (Hmin c)].
    + destruct (decide (c = i)) as [->|]; [by apply (Hh2 p best)|].
      destruct (decide (c = best)) as [->|]; [|by apply (Hh1 p c)].
      by rewrite (child_inj _ _ _ Hpc Hc) in n0.
  - intros Hpb Hbc Hcn x y. pose proof (child_lt _ _ Hbc). rewrite !Hl.
    rewrite (child_inj _ _ _ Hpb Hc), decide_True by done.
    rewrite (decide_False (P := c = i)), (decide_False (P := c = best)) by lia.
    apply (Hh1 best c); [|lia|done..]. rewrite (child_inj _ _ _ Hpb Hc) in Hk. lia.
Qed.

Lemma sift_spec k n fuel arr i : n <= length arr -> i < n -> n - i < fuel -> heap_hole k n i arr ->
  exists arr', sift lt fuel n arr i = Some arr' /\ length arr' = length arr /\ arr' ≡ₚ arr /\
    heap_from k n arr' /\ (forall j, n <= j -> arr' !! j = arr !! j).
Proof.
  intros Hn. revert arr i Hn. induction fuel as [|fuel IH]; intros arr i Hn Hi Hf Hh; [lia|]. cbn [sift].
  destruct (best_spec n arr i Hn Hi) as (b1 & best & -> & Hb & Hbest & Hbi & Hmin).
  cbn [mbind option_bind]. rewrite Hb. cbn [mbind option_bind].
  destruct (best =? i) eqn:E.
  - apply Nat.eqb_eq in E. subst. exists arr. split_and!; [done|done|done| |done].
    intros p c Hk Hpc Hc. destruct (decide (p = i)) as [->|]; [by apply Hmin|by apply (proj1 Hh)].
  - apply Nat.eqb_neq in E. destruct Hbest as [|[Hc Hbn]]; [done|]. pose proof (child_lt _ _ Hc).
    destruct (swap_lookup i best arr) as (arr1 & -> & Hlen & Hp & Hl); [lia..|]. cbn [mbind option_bind].
    destruct (IH arr1 best) as (arr2 & -> & Hlen2 & Hp2 & Hheap & Hrest); [lia..| |].
    + by eapply hole_down.
    + exists arr2. split_and!; [done|lia|by rewrite Hp2|done|].
      intros j Hj. rewrite Hrest by done. rewrite Hl, !decide_False by lia. done.
Qed.

(** Sifting up: the order holds except above [i]. *)
Definition heap_above (n i : nat) (arr : list T) : Prop :=
  (forall p c, child p c -> c < n -> c <> i -> below arr p c) /\
  (forall p c, child p i -> child i c -> c < n -> below arr p c).

Lemma child_parent i : i <> 0 -> child ((i - 1) / 2) i.
Proof.
  intros Hi. unfold child. pose proof (Nat.div_mod_eq (i - 1) 2). pose proof (Nat.mod_upper_bound (i - 1) 2). lia.
Qed.

Lemma hole_up n i arr arr' : let p := (i - 1) / 2 in
  i < n -> n <= length arr -> i <> 0 -> heap_above n i arr -> below arr i p ->
  (forall j, arr' !! j = if decide (j = p) then arr !! i else if decide (j = i) then arr !! p else arr !! j) ->
  heap_above n p arr'.
Proof.
  intros p Hi Hn Hi0 [Ha1 Ha2] Hip Hl. pose proof (child_parent i Hi0) as Hpi. fold p in Hpi. pose proof (child_lt _ _ Hpi).
  split; intros q c.
  - intros Hqc Hc Hcp x y. rewrite !Hl. pose proof (child_lt _ _ Hqc).
    rewrite (decide_False (P := c = p)) by done.
    destruct (decide (q = p)) as [->|Hqp].
    + destruct (decide (c = i)) as [->|Hci]; [apply Hip|].
      intros Hx Hy. destruct (lookup_lt_is_Some_2 arr p ltac:(lia)) as [z Hz].
      apply (le_trans x z y); [by apply Hip|by apply (Ha1 p c)].
    + destruct (decide (q = i)) as [->|Hqi].
      * rewrite (decide_False (P := c = i)) by lia. by apply (Ha2 p c).
      * destruct (decide (c = i)) as [->|]; [by rewrite (child_inj _ _ _ Hqc Hpi) in Hqp|by apply (Ha1 q c)].
  - intros Hqp Hpc Hc x y. rewrite !Hl. pose proof (child_lt _ _ Hqp). pose proof (child_lt _ _ Hpc).
    rewrite (decide_False (P := q = p)), (decide_False (P := q = i)), (decide_False (P := c = p)) by lia.
    assert (Hqp' : below arr q p) by (apply (Ha1 q p); [done|lia|lia]).
    destruct (decide (c = i)) as [->|]; [by apply Hqp'|].
    apply (below_trans arr q p c); [lia|done|by apply (Ha1 p c)].
Qed.

Lemma sift_up_spec n fuel arr i : i < n -> n = length arr -> i < fuel -> heap_above n i arr ->
  exists arr', sift_up_loop lt fuel arr i = Some arr' /\ arr' ≡ₚ arr /\ heap_from 0 n arr'.
Proof.
  revert arr i. induction fuel as [|fuel IH]; intros arr i Hi Hn Hf Ha; [lia|]. cbn [sift_up_loop].
  destruct (i =? 0) eqn:E.
  { apply Nat.eqb_eq in E. subst. exists arr. split_and!; [done|done|].
    intros p c _ Hpc Hc. apply (proj1 Ha); [done|done|]. pose proof (child_lt _ _ Hpc). lia. }
  apply Nat.eqb_neq in E. pose proof (child_parent i E) as Hpi. pose proof (child_lt _ _ Hpi) as Hlt.
  destruct (lookup_lt_is_Some_2 arr ((i - 1) / 2) ltac:(lia)) as [x Hx].
  destruct (lookup_lt_is_Some_2 arr i ltac:(lia)) as [y Hy]. rewrite Hx, Hy. cbn [mbind option_bind].
  unfold lt at 1. rewrite negb_involutive. destruct (le x y) eqn:Hxy.
  - exists arr. split_and!; [done|done|]. intros p c _ Hpc Hc.
    destruct (decide (c = i)) as [->|]; [|by apply (proj1 Ha)].
    rewrite (child_inj _ _ _ Hpc Hpi). intros ????. by simplify_eq.
  - destruct (swap_lookup ((i - 1) / 2) i arr) as (arr1 & -> & Hlen & Hp & Hl); [lia..|]. cbn [mbind option_bind].
    destruct (IH arr1 ((i - 1) / 2)) as (arr2 & -> & Hp2 & Hh); [lia|lia|lia| |].
    + apply (hole_up n i arr arr1); [done|lia|done|done| |done]. intros ????. simplify_eq. destruct (le_total x y); congruence.
    + exists arr2. split_and!; [done|by rewrite Hp2|done].
Qed.

(** The root of a heap is least. *)
Lemma heap_root n arr x : heap_from 0 n arr -> arr !! 0 = Some x ->
  forall j y, j < n -> arr !! j = Some y -> le x y = true.
Proof.
  intros Hh Hx j. induction j as [j IH] using lt_wf_ind. intros y Hj Hy.
  destruct (decide (j = 0)) as [->|Hne]; [simplify_eq; apply le_refl|].
  pose proof (child_parent j Hne) as Hc. pose proof (child_lt _ _ Hc).
  destruct (lookup_lt_is_Some_2 arr ((j - 1) / 2)) as [z Hz]; [apply lookup_lt_Some in Hy; lia|].
  apply (le_trans x z y); [eapply IH; [exact H|lia|exact Hz]|]. by apply (Hh ((j - 1) / 2) j); [lia|..].
Qed.
End Heap.

(** A permutation that keeps the cells from [m] on permutes those before. *)
Lemma perm_prefix {T} (l l' : list T) m : l' ≡ₚ l -> (forall j, m <= j -> l' !! j = l !! j) ->
  forall i x, i < m -> l' !! i = Some x -> exists i', i' < m /\ l !! i' = Some x.
Proof.
  intros Hp Hrest i x Hi Hx.
  assert (Hd : drop m l' = drop m l) by (apply list_eq; intros j; rewrite !lookup_drop; apply Hrest; lia).
  assert (Ht : take m l' ≡ₚ take m l).
  { apply (Permutation_app_inv_r (drop m l)). rewrite <- Hd at 1. by rewrite !take_drop. }
  assert (Hin : x ∈ take m l) by (rewrite <- Ht; apply list_elem_of_lookup; exists i; by rewrite lookup_take_lt).
  apply list_elem_of_lookup in Hin as [i' Hi']. exists i'. apply lookup_take_Some in Hi' as []. done.
Qed.

Section HeapProps.
Context {T : Type} `{HO : Ord T} `{HL : !OrdLaws T}.

(** The reversed order, for the max-heap of [heap_sort]. *)
Definition ge (x y : T) : bool := ord_le y x.
Lemma ge_total x y : ge x y = true \/ ge y x = true.
Proof. unfold ge. destruct (ord_total x y); auto. Qed.
Lemma ge_trans x y z : ge x y = true -> ge y z = true -> ge x z = true.
Proof. unfold ge. intros ??. by apply ord_trans with y. Qed.

Lemma heapify_spec k n arr i : n <= length arr -> i < n -> heap_hole ge k n i arr ->
  exists arr', heapify arr n i = Some arr' /\ length arr' = length arr /\ arr' ≡ₚ arr /\
    heap_from ge k n arr' /\ (forall j, n <= j -> arr' !! j = arr !! j).
Proof. intros Hn Hi Hh. apply (sift_spec ge ge_total ge_trans k n (S n) arr i); [done..|lia|done]. Qed.

(** The first loop builds the heap. *)
Lemma build_heap m arr : m <= length arr / 2 -> heap_from ge m (length arr) arr ->
  exists arr', fold_option (fun arr' i => heapify arr' (length arr) i) arr (reverse (seq 0 m)) = Some arr' /\
    arr' ≡ₚ arr /\ heap_from ge 0 (length arr) arr'.
Proof.
  remember (length arr) as n eqn:Hn. assert (Hn' : n <= length arr) by lia. clear Hn. revert arr Hn'.
  induction m as [|m IH]; intros arr Hn Hm Hh; [by exists arr|].
  rewrite seq_S, reverse_app. cbn [reverse app]. change (reverse [0 + m]) with [m]. cbn [app]. rewrite fold_option_cons.
  pose proof (Nat.div_mod_eq n 2).
  destruct (heapify_spec m n arr m) as (arr1 & -> & Hlen & Hp & Hh1 & _); [done|lia| |].
  - split; intros p c Hk; [intros Hne; apply (Hh p c); lia|]. intros Hc. apply child_lt in Hc. lia.
  - destruct (IH arr1) as (arr2 & -> & Hp2 & Hh2); [lia|lia|done|]. exists arr2. split_and!; [done|by rewrite Hp2|done].
Qed.

(** The cells from [m] on are in their final places. *)
Definition tail_ok (m : nat) (arr : list T) : Prop :=
  forall i j x y, i < j -> m <= j -> arr !! i = Some x -> arr !! j = Some y -> ord_le x y = true.

Lemma tail_ok_step m arr arr1 arr2 : S m <= length arr -> heap_from ge 0 (S m) arr -> tail_ok (S m) arr ->
  (forall k, arr1 !! k = if decide (k = 0) then arr !! m else if decide (k = m) then arr !! 0 else arr !! k) ->
  arr2 ≡ₚ arr1 -> (forall j, m <= j -> arr2 !! j = arr1 !! j) -> tail_ok m arr2.
Proof.
  intros Hm Hh Ht Hl Hp Hrest i j x y Hij Hj Hx Hy. rewrite Hrest in Hy by done.
  assert (Hx' : exists i', (i' < m \/ (m <= i /\ i' = i)) /\ arr1 !! i' = Some x).
  { destruct (decide (i < m)) as [Hi|Hi]; [|exists i; rewrite Hrest in Hx by lia; split; [right; lia|done]].
    destruct (perm_prefix arr1 arr2 m Hp Hrest i x Hi Hx) as (i' & ? & ?). exists i'. auto. }
  clear Hx. destruct Hx' as (i' & Hi' & Hx). destruct (lookup_lt_is_Some_2 arr 0 ltac:(lia)) as [r Hr].
  assert (Hroot : forall k z, k <= m -> arr !! k = Some z -> ord_le z r = true).
  { intros k z Hk Hz. apply (heap_root ge ge_total ge_trans (S m) arr r Hh Hr k z); [lia|done]. }
  rewrite Hl in Hx, Hy. destruct (decide (j = m)) as [->|Hjm].
  - rewrite (decide_False (P := m = 0)) in Hy by lia.
    rewrite Hr in Hy. injection Hy as <-. repeat case_decide; [apply (Hroot m)|apply (Hroot 0)|apply (Hroot i')]; (done || lia).
  - rewrite !decide_False in Hy by lia.
    repeat case_decide; [apply (Ht m j)|apply (Ht 0 j)|apply (Ht i' j)]; (done || lia).
Qed.

(** The second loop. *)
Lemma extract_all m arr : m < length arr -> heap_from ge 0 (S m) arr -> tail_ok (S m) arr ->
  exists arr', fold_option (fun arr i => arr ← swap 0 i arr; heapify arr i 0) arr (reverse (seq 1 m)) = Some arr' /\
    arr' ≡ₚ arr /\ tail_ok 1 arr'.
Proof.
  revert arr. induction m as [|m IH]; intros arr Hm Hh Ht; [by exists arr|].
  rewrite seq_S, reverse_app. change (reverse [1 + m]) with [S m]. cbn [app]. rewrite fold_option_cons.
  destruct (swap_lookup 0 (S m) arr) as (arr1 & -> & Hlen & Hp & Hl); [lia..|]. cbn [mbind option_bind].
  destruct (heapify_spec 0 (S m) arr1 0) as (arr2 & -> & Hlen2 & Hp2 & Hh2 & Hrest); [lia|lia| |].
  - split; intros p c _; [|by intros []; lia]. intros Hp0 Hc Hcm x y. pose proof (child_lt _ _ Hc).
    rewrite !Hl, !decide_False by lia. apply (Hh p c); [lia|done|lia].
  - destruct (IH arr2) as (arr3 & -> & Hp3 & Ht3); [lia|done| |exists arr3; split_and!; [done|by rewrite Hp3, Hp2|done]].
    by apply (tail_ok_step (S m) arr arr1 arr2).
Qed.

Lemma sorted_lookup (l : list T) : (forall i j x y, i < j -> l !! i = Some x -> l !! j = Some y -> ord_le x y = true) -> sorted l.
Proof.
  induction l as [|x l IH]; intros Hl; [constructor|]. constructor.
  - apply IH. intros i j y z Hij. apply (Hl (S i) (S j)). lia.
  - apply Forall_forall. intros y [j Hj]%list_elem_of_lookup. by apply (Hl 0 (S j)); [lia|..].
Qed.

Lemma sorted_at (l : list T) i j x y : sorted l -> i < j -> l !! i = Some x -> l !! j = Some y -> ord_le x y = true.
Proof.
  intros Hs. revert i j. induction Hs as [|z l _ IH Hz]; intros [|i] [|j] Hij Hx Hy; try (done || lia); cbn in Hx, Hy.
  - simplify_eq. rewrite Forall_lookup in Hz. by apply (Hz j).
  - apply (IH i j); [lia|done|done].
Qed.

Lemma heap_sort_sorts arr : exists out, heap_sort arr = Some out /\ sorts arr out.
Proof.
  unfold heap_sort. pose proof (Nat.div_mod_eq (length arr) 2). pose proof (Nat.mod_upper_bound (length arr) 2).
  destruct (build_heap (length arr / 2) arr) as (arr1 & -> & Hp1 & Hh1); [done| |].
  { intros p c Hk [] ?; lia. }
  cbn [mbind option_bind]. apply Permutation_length in Hp1 as Hl1. destruct (length arr) as [|m] eqn:Hlen.
  - exists arr1. split; [done|]. split; [done|]. destruct arr1; [constructor|done].
  - cbn [Nat.sub]. rewrite Nat.sub_0_r. destruct (extract_all m arr1) as (arr2 & -> & Hp2 & Ht2); [lia|done| |].
    + intros i j x y _ Hj _ Hy%lookup_lt_Some. lia.
    + exists arr2. split; [done|]. split; [by rewrite Hp2|].
      apply sorted_lookup. intros i j x y Hij. apply (Ht2 i j); lia.
Qed.

(** *** The min-heap *)

Definition heap_wf (data : MinHeap T) : Prop := heap_from ord_le 0 (length data) data.

Lemma heap_push_spec data v : heap_wf data ->
  exists data', heap_push data v = Some data' /\ heap_wf data' /\ data' ≡ₚ v :: data.
Proof.
  intros Hh. unfold heap_push, sift_up. change (@ord_lt T HO) with (fun x y : T => negb (ord_le y x)). set (n := length (data ++ [v])).
  assert (Hn : n = S (length data)) by (unfold n; rewrite length_app; cbn; lia).
  destruct (sift_up_spec ord_le ord_total ord_trans n (S (n - 1)) (data ++ [v]) (n - 1)) as (data' & -> & Hp & Hh'); [lia..| |].
  - split; intros p c.
    + intros Hc Hcn Hne x y Hx Hy. pose proof (child_lt _ _ Hc).
      rewrite lookup_app_l in Hx, Hy by lia. by apply (Hh p c); [lia|done|lia|..].
    + intros _ Hc%child_lt. lia.
  - exists data'. split; [done|]. split; [by unfold heap_wf; rewrite (Permutation_length Hp)|]. by rewrite Hp, Permutation_app_comm.
Qed.

Lemma heap_pop_min_spec data : heap_wf data -> data <> [] ->
  exists data' m, heap_pop_min data = Some (data', Some m) /\ heap_wf data' /\ m :: data' ≡ₚ data /\
    Forall (fun x => ord_le m x = true) data'.
Proof.
  intros Hh Hne. unfold heap_pop_min. destruct (length data =? 0) eqn:E.
  { apply Nat.eqb_eq, length_zero_iff_nil in E. done. }
  apply Nat.eqb_neq in E. destruct (swap_lookup 0 (length data - 1) data) as (d1 & -> & Hlen & Hp & Hl); [lia..|].
  cbn [mbind option_bind]. destruct (lookup_lt_is_Some_2 data 0 ltac:(lia)) as [m Hm].
  assert (Hlast : d1 !! (length data - 1) = Some m).
  { rewrite Hl. repeat case_decide; [congruence|done|done]. }
  rewrite Hlast. set (d2 := take (length data - 1) d1).
  assert (Hd2 : d2 ++ [m] = d1).
  { unfold d2. rewrite <- (take_drop (length data - 1) d1) at 2. f_equal.
    apply list_eq. intros [|j]; rewrite lookup_drop; cbn; [by rewrite Nat.add_0_r|].
    symmetry. apply lookup_ge_None_2. lia. }
  assert (Hlen2 : length d2 = length data - 1) by (unfold d2; rewrite length_take; lia).
  assert (Hperm : m :: d2 ≡ₚ data) by (rewrite <- Hp, <- Hd2; apply (Permutation_app_comm [m] d2)).
  assert (Hleast : forall d', d' ≡ₚ d2 -> Forall (fun x => ord_le m x = true) d').
  { intros d' Hd'. rewrite Hd'. apply Forall_forall. intros x Hx.
    assert (x ∈ data) as [j Hj]%list_elem_of_lookup by (rewrite <- Hperm; by apply list_elem_of_further).
    eapply (heap_root ord_le ord_total ord_trans); [exact Hh|exact Hm| |exact Hj]. by apply lookup_lt_Some in Hj. }
  destruct (length d2 =? 0) eqn:E2.
  - apply Nat.eqb_eq in E2. exists d2, m. split_and!; [done| |done|by apply Hleast].
    intros p c _ Hc Hcn. lia.
  - apply Nat.eqb_neq in E2. unfold sift_down. change (@ord_lt T HO) with (fun x y : T => negb (ord_le y x)).
    destruct (sift_spec ord_le ord_total ord_trans 0 (length d2) (S (length d2)) d2 0) as (d3 & -> & Hl3 & Hp3 & Hh3 & _); [lia..| |].
    + split; intros p c _; [|by intros []; lia]. intros Hp0 Hc Hcn x y. pose proof (child_lt _ _ Hc).
      unfold d2. rewrite !lookup_take_lt by lia. rewrite !Hl, !decide_False by lia. apply (Hh p c); [lia|done|lia].
    + cbn. exists d3, m. split_and!; [done|by unfold heap_wf; rewrite Hl3|by rewrite Hp3|by apply Hleast].
Qed.
End HeapProps.

(** ** The sorts and the heap *)

(** The operations a client of the heap performs; popping hands out a value. *)
Inductive heap_op (T : Type) : Type := Push (v : T) | PopMin.
Arguments Push {T} v.
Arguments PopMin {T}.
Definition heap_step {T} `{Ord T} (op : heap_op T) (data : MinHeap T) : option (MinHeap T * option T) :=
  match op with Push v => d ← heap_push data v; Some (d, None) | PopMin => heap_pop_min data end.
Fixpoint heap_run {T} `{Ord T} (ops : list (heap_op T)) (data : MinHeap T) : option (MinHeap T * list (option T)) :=
  match ops with
  | [] => Some (data, [])
  | op :: ops =>
      '(data, out) ← heap_step op data; '(data, outs) ← heap_run ops data; Some (data, out :: outs)
  end.

(** The abstract priority queue: a multiset of values.  [pq_run l ops outs l']:
    from the multiset of [l] the operations may hand out [outs] and leave that
    of [l']. *)
Inductive pq_run {T} `{Ord T} : list T -> list (heap_op T) -> list (option T) -> list T -> Prop :=
| pq_done l l' : l ≡ₚ l' -> pq_run l [] [] l'
| pq_push l v ops outs l' : pq_run (v :: l) ops outs l' -> pq_run l (Push v :: ops) (None :: outs) l'
| pq_pop_empty ops outs l' : pq_run [] ops outs l' -> pq_run [] (PopMin :: ops) (None :: outs) l'
| pq_pop l m rest ops outs l' : l ≡ₚ m :: rest -> Forall (fun x => ord_le m x = true) rest ->
    pq_run rest ops outs l' -> pq_run l (PopMin :: ops) (Some m :: outs) l'.

Section Claims.
Context {T : Type} `{HO : Ord T} `{HL : !OrdLaws T}.

Lemma pq_run_perm l1 l2 ops outs l' : l1 ≡ₚ l2 -> pq_run l1 ops outs l' -> pq_run l2 ops outs l'.
Proof.
  intros Hp Hr. revert l2 Hp. induction Hr as [l l' Hl|l v ops outs l' _ IH|ops outs l' H0 IH|l m rest ops outs l' Hm Hf H0 IH];
    intros l2 Hp.
  - constructor. by rewrite <- Hp.
  - constructor. apply IH. by rewrite Hp.
  - apply Permutation_nil in Hp as ->. by constructor.
  - apply (pq_pop l2 m rest); [by rewrite <- Hp|done|done].
Qed.

Lemma heap_run_refines ops data : heap_wf data ->
  exists data' outs, heap_run ops data = Some (data', outs) /\ heap_wf data' /\ pq_run data ops outs data'.
Proof.
  revert data. induction ops as [|[v|] ops IH]; intros data Hwf; cbn [heap_run heap_step].
  - exists data, []. split_and!; [done|done|by constructor].
  - destruct (heap_push_spec data v Hwf) as (d1 & -> & Hwf1 & Hp). cbn.
    destruct (IH d1 Hwf1) as (d2 & outs & -> & Hwf2 & Hr). exists d2, (None :: outs). split_and!; [done|done|].
    constructor. by apply (pq_run_perm d1).
  - destruct (decide (data = [])) as [->|Hne].
    + cbn. destruct (IH [] Hwf) as (d2 & outs & -> & Hwf2 & Hr). exists d2, (None :: outs). split_and!; [done|done|by constructor].
    + destruct (heap_pop_min_spec data Hwf Hne) as (d1 & m & -> & Hwf1 & Hp & Hl). cbn.
      destruct (IH d1 Hwf1) as (d2 & outs & -> & Hwf2 & Hr). exists d2, (Some m :: outs). split_and!; [done|done|].
      by apply (pq_pop data m d1).
Qed.
End Claims.

(** C32: [merge_sort], [quick_sort] and [heap_sort] never panic (no index is out
    of range, the recursion ends) and each returns a sorted permutation of its
    input, for every lawful order. *)
Theorem sorts_correct {T : Type} `{OrdLaws T} (arr : list T) :
  (exists out, merge_sort arr = Some out /\ sorts arr out) /\
  (exists out, quick_sort arr = Some out /\ sorts arr out) /\
  (exists out, heap_sort arr = Some out /\ sorts arr out).
Proof.
  split_and!; [by apply merge_sort_fuel_sorts; lia|by apply quick_sort_fuel_sorts; lia|apply heap_sort_sorts].
Qed.
Lemma sorts_correct_witness :
  merge_sort [5; 3; 9; 3]%N = Some [3; 3; 5; 9]%N /\
  (exists out, merge_sort [5; 3; 9; 3]%N = Some out /\ sorts [5; 3; 9; 3]%N out) /\
  (exists out, quick_sort [5; 3; 9; 3]%N = Some out /\ sorts [5; 3; 9; 3]%N out) /\
  (exists out, heap_sort [5; 3; 9; 3]%N = Some out /\ sorts [5; 3; 9; 3]%N out).
Proof. split; [reflexivity|]. apply (sorts_correct [5; 3; 9; 3]%N). Defined.

(** the binary heap refines a priority queue: any sequence of [push] and
    [pop_min] from [new] runs without a panic and hands out what the abstract
    multiset may, each time a least element, with nothing lost or duplicated. *)
Theorem heap_refines_priority_queue {T : Type} `{OrdLaws T} (ops : list (heap_op T)) :
  exists data outs, heap_run ops heap_new = Some (data, outs) /\ pq_run [] ops outs data.
Proof.
  destruct (heap_run_refines ops heap_new) as (data & outs & ? & _ & ?); [|by exists data, outs].
  intros p c _ _ Hc. cbn in Hc. lia.
Qed.
Lemma heap_refines_priority_queue_witness :
  let ops := [Push 4; Push 2; PopMin; Push 1; PopMin; PopMin; PopMin]%N in
  heap_run ops heap_new = Some ([], [None; None; Some 2; None; Some 1; Some 4; None])%N /\
  exists data outs, heap_run ops heap_new = Some (data, outs) /\ pq_run [] ops outs data.
Proof. split; [reflexivity|]. apply (heap_refines_priority_queue [Push 4; Push 2; PopMin; Push 1; PopMin; PopMin; PopMin]%N). Defined.
