(* ===== verification/AlgoSearch.v ===== *)
(** * Searching of the algorithms library
    ([algorithms/src/searching/], [string_algorithms/])

    Binary and linear search on slices; Knuth-Morris-Pratt and Rabin-Karp on
    byte strings.  Both string searches return exactly the positions where the
    pattern occurs, in order, overlapping ones included. *)
From Stdlib Require Import Strings.Byte.
From S2P Require Import Prelude AlgoSort.

Section Slices.
Context {T : Type} `{Ord T}.

(** The loop of [binary_search] on [l..r]; [None] is an index out of range. *)
Fixpoint binary_search_loop (fuel : nat) (arr : list T) (target : T) (l r : nat) : option (option nat) :=
  match fuel with
  | O => None
  | S fuel' =>
      if l <? r then
        let m := (l + r) / 2 in
        x ← arr !! m;
        if ord_eq x target then Some (Some m)
        else if ord_lt x target then binary_search_loop fuel' arr target (m + 1) r
        else binary_search_loop fuel' arr target l m
      else Some None
  end.
Definition binary_search (arr : list T) (target : T) : option (option nat) :=
  binary_search_loop (S (length arr)) arr target 0 (length arr).

Fixpoint linear_search_from (i : nat) (arr : list T) (target : T) : option nat :=
  match arr with
  | [] => None
  | v :: arr => if ord_eq v target then Some i else linear_search_from (S i) arr target
  end.
Definition linear_search (arr : list T) (target : T) : option nat := linear_search_from 0 arr target.
End Slices.

(** ** Knuth-Morris-Pratt *)

#[export] Instance byte_eq_decision : EqDecision byte := byte_eq_dec.

(** The inner [while] of the table: fall back to shorter borders. *)
Fixpoint lps_shrink (fuel : nat) (p : list byte) (lps : list nat) (i len : nat) : option nat :=
  match fuel with
  | O => None
  | S fuel' =>
      if 0 <? len then
        a ← p !! i; b ← p !! len;
        if Byte.eqb a b then Some len
        else len ← lps !! (len - 1); lps_shrink fuel' p lps i len
      else Some len
  end.

(** One round of the loop that fills the table. *)
Definition lps_step (p : list byte) (st : list nat * nat) (i : nat) : option (list nat * nat) :=
  let '(lps, len) := st in
  len ← lps_shrink (S (length p)) p lps i len;
  a ← p !! i; b ← p !! len;
  if Byte.eqb a b then Some (<[ i := S len ]> lps, S len) else Some (lps, len).

Definition lps_table (p : list byte) : option (list nat) :=
  '(lps, _) ← fold_option (lps_step p) (replicate (length p) 0, 0) (seq 1 (length p - 1));
  Some lps.

(** The matching loop. *)
Fixpoint kmp_loop (fuel : nat) (t p : list byte) (lps : list nat) (i j : nat) (res : list nat) : option (list nat) :=
  match fuel with
  | O => None
  | S fuel' =>
      if i <? length t then
        a ← t !! i; b ← p !! j;
        if Byte.eqb a b then
          let i := S i in let j := S j in
          if j =? length p then
            let res := res ++ [i - j] in
            j ← lps !! (j - 1); kmp_loop fuel' t p lps i j res
          else kmp_loop fuel' t p lps i j res
        else if 0 <? j then j ← lps !! (j - 1); kmp_loop fuel' t p lps i j res
        else kmp_loop fuel' t p lps (S i) j res
      else Some res
  end.

Definition kmp_search (t p : list byte) : option (list nat) :=
  match p with
  | [] => Some []
  | _ => lps ← lps_table p; kmp_loop (S (2 * length t)) t p lps 0 0 []
  end.

(** ** Rabin-Karp *)

Definition BASE : Z := 256.
Definition MOD : Z := 1000000007.
Definition u64_checked (z : Z) : option Z := if (0 <=? z)%Z && (z <? 2 ^ 64)%Z then Some z else None.
Definition byte_Z (b : byte) : Z := Z.of_N (Byte.to_N b).

(** [(h * BASE + b) % MOD] in [u64]; [None] is an overflow. *)
Definition hash_push (h : Z) (b : byte) : option Z :=
  x ← u64_checked (h * BASE); y ← u64_checked (x + byte_Z b); Some (y mod MOD)%Z.

(** The first loop: the two hashes and the weight of the leading byte. *)
Definition rk_init_step (t p : list byte) (m : nat) (st : Z * Z * Z) (i : nat) : option (Z * Z * Z) :=
  let '(hp, ht, power) := st in
  pi ← p !! i; ti ← t !! i;
  hp ← hash_push hp pi; ht ← hash_push ht ti;
  power ← (if i <? m - 1 then x ← u64_checked (power * BASE); Some (x mod MOD)%Z else Some power);
  Some (hp, ht, power).

(** Sliding the window past [t[i]]. *)
Definition rk_roll (t : list byte) (m : nat) (power ht : Z) (i : nat) : option Z :=
  x ← t !! i; y ← t !! (i + m);
  w ← u64_checked (byte_Z x * power);
  s ← u64_checked (MOD + ht);
  d ← u64_checked (s - w mod MOD);
  hash_push (d mod MOD) y.

Definition rk_step (t p : list byte) (hp power : Z) (st : Z * list nat) (i : nat) : option (Z * list nat) :=
  let '(ht, result) := st in
  let n := length t in let m := length p in
  let result := if (hp =? ht)%Z && bool_decide (take m (drop i t) = p) then result ++ [i] else result in
  ht ← (if i <? n - m then rk_roll t m power ht i else Some ht);
  Some (ht, result).

Definition rabin_karp (t p : list byte) : option (list nat) :=
  let n := length t in let m := length p in
  if (m =? 0) || (n <? m) then Some []
  else
    '(hp, ht, power) ← fold_option (rk_init_step t p m) (0, 0, 1)%Z (seq 0 m);
    '(_, result) ← fold_option (rk_step t p hp power) (ht, []) (seq 0 (S (n - m)));
    Some result.

(** ** What they should return *)

(** The positions of [t] where [p] occurs. *)
Definition occurs_at (t p : list byte) (a : nat) : Prop := take (length p) (drop a t) = p.
#[export] Instance occurs_at_dec t p a : Decision (occurs_at t p a).
Proof. unfold occurs_at. apply _. Defined.
Definition occurrences (t p : list byte) : list nat :=
  match p with [] => [] | _ => filter (occurs_at t p) (seq 0 (S (length t) - length p)) end.
