(* ===== verification/AlgoSearchProps.v ===== *)
(** * Correctness of the searches

    Binary search finds a position exactly when there is one, in a sorted slice;
    the string searches return the occurrences of the pattern. *)
From Stdlib Require Import Strings.Byte.
From S2P Require Import Prelude AlgoSort AlgoSortProps AlgoSearch.

(** ** Knuth-Morris-Pratt *)

Section Kmp.
Context (p : list byte).

(** The prefix of the pattern of length [k] ends the string [s]. *)
Definition ends (k : nat) (s : list byte) : Prop := take k p `suffix_of` s /\ k <= length p.

Lemma ends_0 s : ends 0 s.
Proof. split; [apply suffix_nil|lia]. Qed.
Lemma ends_length k s : ends k s -> k <= length s.
Proof. intros [H%suffix_length Hk]. rewrite length_take in H. lia. Qed.

Lemma ends_snoc k s c : ends k (s ++ [c]) <-> k = 0 \/ exists k', k = S k' /\ ends k' s /\ p !! k' = Some c.
Proof.
  split.
  - intros [H Hk]. destruct k as [|k]; [by left|]. right. exists k. split; [done|].
    destruct (lookup_lt_is_Some_2 p k Hk) as [x Hx]. rewrite (take_S_r _ _ _ Hx) in H.
    rewrite <- (suffix_snoc_inv_1 _ _ _ _ H). apply suffix_snoc_inv_2 in H. split; [split; [done|lia]|done].
  - intros [-> |(k' & -> & [H Hk] & Hc)]; [apply ends_0|]. split; [|by apply lookup_lt_Some in Hc].
    rewrite (take_S_r _ _ _ Hc). by apply suffix_snoc.
Qed.

(** The shorter ends of [s] are the ends of the longer one, its first byte
    dropped: borders of the pattern's prefix. *)
Lemma ends_border j k s : ends j s -> 0 < j -> (ends k s /\ k < j) <-> ends k (drop 1 (take j p)).
Proof.
  intros [Hj Hjp] H0. destruct (take j p) as [|x q] eqn:Eq.
  { apply (f_equal length) in Eq. rewrite length_take in Eq. cbn in Eq. lia. }
  assert (Hq : S (length q) = j) by (apply (f_equal length) in Eq; rewrite length_take in Eq; cbn in Eq; lia).
  change (drop 1 (x :: q)) with q. split.
  - intros [[Hk Hkp] Hkj]. split; [|done]. destruct (suffix_weak_total _ _ _ Hk Hj) as [H|H].
    + destruct H as [[|y l] H]; [cbn [app] in H; apply (f_equal length) in H; rewrite length_take in H; cbn [length] in H; lia|].
      injection H as _ ->. by exists l.
    + apply suffix_length in H. rewrite length_take in H. cbn [length] in H. lia.
  - intros H. pose proof (ends_length _ _ H) as Hl. destruct H as [H Hkp]. split; [|lia]. split; [|done].
    etransitivity; [exact H|]. etransitivity; [|exact Hj]. by apply suffix_cons_r.
Qed.

(** [v] is the longest end of [s]. *)
Definition longest (v : nat) (s : list byte) : Prop := ends v s /\ forall k, ends k s -> k <= v.
(** Entry [i] of the table is the longest proper border of the prefix of length [i + 1]. *)
Definition lps_ok (n : nat) (lps : list nat) : Prop :=
  forall i, i < n -> exists v, lps !! i = Some v /\ longest v (drop 1 (take (S i) p)).
(** [j] ends [s] and no longer end can be extended by [c]. *)
Definition candidate (j : nat) (s : list byte) (c : byte) : Prop :=
  ends j s /\ forall k, ends k s -> p !! k = Some c -> k <= j.

Lemma longest_candidate j s c : longest j s -> candidate j s c.
Proof. intros [H1 H2]. split; [done|auto]. Qed.

(** Falling back along the table keeps the candidates. *)
Lemma fall_back n lps j s c x : lps_ok n lps -> j <= n -> candidate j s c -> p !! j = Some x -> x <> c -> 0 < j ->
  exists v, lps !! (j - 1) = Some v /\ candidate v s c /\ v < j.
Proof.
  intros Hlps Hjn [Hj Hc] Hx Hne H0. destruct (Hlps (j - 1)) as (v & Hv & Hends & Hmax); [lia|].
  replace (S (j - 1)) with j in * by lia. exists v. split; [done|].
  apply (ends_border j v s Hj H0) in Hends as [Hv' Hlt]. split; [|done]. split; [done|]. intros k Hk Hkc.
  apply Hmax, (ends_border j k s Hj H0). split; [done|]. specialize (Hc k Hk Hkc). destruct (decide (k = j)) as [->|]; [congruence|lia].
Qed.

(** Extending the candidate, or finding that none can be. *)
Lemma extend_match j s c : candidate j s c -> p !! j = Some c -> longest (S j) (s ++ [c]).
Proof.
  intros [Hj Hc] Hx. split; [apply ends_snoc; right; by exists j|].
  intros k [-> |(k' & -> & Hk & Hkc)]%ends_snoc; [lia|]. specialize (Hc k' Hk Hkc). lia.
Qed.
Lemma extend_none s c x : candidate 0 s c -> p !! 0 = Some x -> x <> c -> longest 0 (s ++ [c]).
Proof.
  intros [_ Hc] Hx Hne. split; [apply ends_0|]. intros k [-> |(k' & -> & Hk & Hkc)]%ends_snoc; [lia|].
  specialize (Hc k' Hk Hkc). assert (k' = 0) as -> by lia. congruence.
Qed.

Lemma lps_shrink_spec fuel lps i len s c : lps_ok i lps -> p !! i = Some c -> candidate len s c -> len <= i -> len < fuel ->
  exists len', lps_shrink fuel p lps i len = Some len' /\ candidate len' s c /\ len' <= len /\ (p !! len' = Some c \/ len' = 0).
Proof.
  revert len. induction fuel as [|fuel IH]; intros len Hlps Hc Hcand Hi Hf; [lia|]. cbn [lps_shrink].
  destruct (0 <? len) eqn:E; [|apply Nat.ltb_ge in E; exists len; split_and!; [done|done|lia|right; lia]].
  apply Nat.ltb_lt in E. pose proof (lookup_lt_Some _ _ _ Hc). destruct (lookup_lt_is_Some_2 p len ltac:(lia)) as [x Hx].
  rewrite Hc, Hx. cbn [mbind option_bind]. destruct (Byte.eqb c x) eqn:Ec.
  - apply Byte.byte_dec_bl in Ec. subst. exists len. auto.
  - assert (x <> c) by (intros ->; by rewrite Byte.byte_dec_lb in Ec).
    destruct (fall_back i lps len s c x) as (v & -> & Hv & Hlt); [done..|]. cbn [mbind option_bind].
    destruct (IH v) as (len' & -> & ? & ? & ?); [done|done|done|lia|lia|]. exists len'. split_and!; [done|done|lia|done].
Qed.

(** The table loop. *)
Lemma lps_loop_spec k i lps len : length lps = length p -> i + k = length p -> 0 < i -> lps_ok i lps -> (forall j, i <= j -> j < length p -> lps !! j = Some 0) ->
  longest len (drop 1 (take i p)) ->
  exists lps' len', fold_option (lps_step p) (lps, len) (seq i k) = Some (lps', len') /\ lps_ok (length p) lps'.
Proof.
  revert i lps len. induction k as [|k IH]; intros i lps len Hl Hi H0 Hok Hz Hlen.
  { exists lps, len. split; [done|]. by replace (length p) with i by lia. }
  cbn [seq]. rewrite fold_option_cons. unfold lps_step at 1.
  destruct (lookup_lt_is_Some_2 p i ltac:(lia)) as [c Hc]. pose proof (ends_length _ _ (proj1 Hlen)) as Hle.
  rewrite length_drop, length_take in Hle.
  destruct (lps_shrink_spec (S (length p)) lps i len (drop 1 (take i p)) c) as (len' & -> & Hcand & Hle' & Hend);
    [done|done|by apply longest_candidate|lia|lia|].
  cbn [mbind option_bind]. rewrite Hc. destruct (lookup_lt_is_Some_2 p len' ltac:(lia)) as [x Hx]. rewrite Hx. cbn [mbind option_bind].
  assert (Hs : drop 1 (take (S i) p) = drop 1 (take i p) ++ [c]).
  { rewrite (take_S_r _ _ _ Hc), drop_app_le; [done|]. rewrite length_take. lia. }
  assert (Hnext : forall lps' v, length lps' = length p -> longest v (drop 1 (take (S i) p)) -> lps' !! i = Some v ->
    (forall j, j <> i -> lps' !! j = lps !! j) ->
    exists lps'' len'', fold_option (lps_step p) (lps', v) (seq (S i) k) = Some (lps'', len'') /\ lps_ok (length p) lps'').
  { intros lps' v Hl' Hv Hvi Hrest. apply IH; [done|lia|lia| |intros j ??; rewrite Hrest by lia; apply Hz; lia|done].
    intros j Hj. destruct (decide (j = i)) as [->|]; [by exists v|]. rewrite Hrest by done. apply Hok. lia. }
  destruct (Byte.eqb c x) eqn:Ec.
  - apply Byte.byte_dec_bl in Ec. subst x. apply Hnext; [by rewrite length_insert| |apply list_lookup_insert_eq; lia|].
    + rewrite Hs. by apply extend_match.
    + intros j Hj. by rewrite list_lookup_insert_ne.
  - assert (x <> c) by (intros ->; by rewrite Byte.byte_dec_lb in Ec). assert (len' = 0) as -> by (destruct Hend; congruence).
    apply Hnext; [done| |apply Hz; lia|done]. rewrite Hs. by eapply extend_none.
Qed.

Lemma lps_table_spec : p <> [] -> exists lps, lps_table p = Some lps /\ lps_ok (length p) lps.
Proof.
  intros Hp. assert (0 < length p) by (destruct p; [done|cbn; lia]). unfold lps_table.
  destruct (lps_loop_spec (length p - 1) 1 (replicate (length p) 0) 0) as (lps & len & -> & Hok); [by rewrite length_replicate|lia|lia|..].
  - intros i Hi. exists 0. split; [apply lookup_replicate_2; lia|]. assert (i = 0) as -> by lia. split; [apply ends_0|].
    intros k Hk%ends_length. rewrite length_drop, length_take in Hk. lia.
  - intros j _ Hj. by apply lookup_replicate_2.
  - split; [apply ends_0|]. intros k Hk%ends_length. rewrite length_drop, length_take in Hk. lia.
  - by exists lps.
Qed.
End Kmp.

Lemma occurs_at_ends t p a : a + length p <= length t -> occurs_at t p a <-> ends p (length p) (take (a + length p) t).
Proof.
  intros Hl. unfold occurs_at, ends. rewrite (take_ge p) by done.
  rewrite <- (take_drop a (take (a + length p) t)), take_take, Nat.min_l by lia.
  assert (Hd : drop a (take (a + length p) t) = take (length p) (drop a t)) by (rewrite take_drop_commute; done).
  rewrite Hd. split.
  - intros ->. split; [by exists (take a t)|done].
  - intros [[l H] _]. apply app_inj_2 in H as [_ H]; [done|]. rewrite length_take, length_drop. lia.
Qed.

(** The occurrences up to one more byte of the text. *)
Lemma occurrences_step t p i : p <> [] -> i < length t ->
  (ends p (length p) (take (S i) t) ->
    filter (occurs_at t p) (seq 0 (S (S i) - length p)) = filter (occurs_at t p) (seq 0 (S i - length p)) ++ [S i - length p]) /\
  (~ ends p (length p) (take (S i) t) ->
    filter (occurs_at t p) (seq 0 (S (S i) - length p)) = filter (occurs_at t p) (seq 0 (S i - length p))).
Proof.
  intros Hp Hi. assert (0 < length p) by (destruct p; [done|cbn; lia]). destruct (decide (length p <= S i)) as [Hle|Hgt].
  - replace (S (S i) - length p) with (S (S i - length p)) by lia. rewrite seq_S, filter_app. cbn [Nat.add].
    assert (Ho : occurs_at t p (S i - length p) <-> ends p (length p) (take (S i) t)).
    { rewrite occurs_at_ends by lia. by replace (S i - length p + length p) with (S i) by lia. }
    split; intros He; rewrite filter_cons, filter_nil; [rewrite decide_True by tauto|rewrite decide_False by tauto]; [done|].
    apply app_nil_r.
  - split; [|intros _; by replace (S (S i) - length p) with (S i - length p) by lia].
    intros He%ends_length. rewrite length_take in He. lia.
Qed.

Lemma kmp_loop_spec t p lps fuel i j : p <> [] -> lps_ok p (length p) lps -> i <= length t -> j < length p -> ends p j (take i t) ->
  (forall c, t !! i = Some c -> candidate p j (take i t) c) -> 2 * (length t - i) + j < fuel ->
  kmp_loop fuel t p lps i j (filter (occurs_at t p) (seq 0 (S i - length p))) =
  Some (filter (occurs_at t p) (seq 0 (S (length t) - length p))).
Proof.
  intros Hp Hlps. revert i j. induction fuel as [|fuel IH]; intros i j Hi Hj Hends Hcand Hf; [lia|]. cbn [kmp_loop].
  destruct (i <? length t) eqn:E; [|apply Nat.ltb_ge in E; by replace (length t) with i by lia]. apply Nat.ltb_lt in E.
  destruct (lookup_lt_is_Some_2 t i E) as [c Hc]. destruct (lookup_lt_is_Some_2 p j Hj) as [x Hx]. rewrite Hc, Hx. cbn [mbind option_bind].
  pose proof (take_S_r _ _ _ Hc) as Hs. destruct (occurrences_step t p i Hp E) as [Hocc Hno].
  destruct (Byte.eqb c x) eqn:Ec.
  - apply Byte.byte_dec_bl in Ec. subst x. pose proof (extend_match p j (take i t) c (Hcand c Hc) Hx) as Hlong. rewrite <- Hs in Hlong.
    destruct (S j =? length p) eqn:Ej.
    + apply Nat.eqb_eq in Ej. rewrite Ej in Hlong |- *. destruct (Hlps (length p - 1)) as (v & Hv & Hvl); [lia|]. rewrite Hv.
      cbn [mbind option_bind]. rewrite <- Hocc by apply Hlong. replace (S (length p - 1)) with (length p) in Hvl by lia.
      assert (Hb : forall k, (ends p k (take (S i) t) /\ k < length p) <-> ends p k (drop 1 (take (length p) p)))
        by (intros k; apply ends_border; [apply Hlong|lia]).
      destruct (proj2 (Hb v) (proj1 Hvl)) as [Hve Hvlt]. apply IH; [lia|done|done| |lia].
      intros c' _. split; [done|]. intros k Hk Hkc. apply Hvl, Hb. split; [done|by eapply lookup_lt_Some].
    + apply Nat.eqb_neq in Ej. rewrite <- Hno by (intros Hm; apply Hlong in Hm; lia).
      apply IH; [lia|lia|apply Hlong|by intros; apply longest_candidate|lia].
  - assert (x <> c) by (intros ->; by rewrite Byte.byte_dec_lb in Ec). destruct (0 <? j) eqn:Ej.
    + apply Nat.ltb_lt in Ej. destruct (fall_back p (length p) lps j (take i t) c x) as (v & -> & Hv & Hlt); [done|lia|by apply Hcand|done..|].
      cbn [mbind option_bind]. apply IH; [lia|lia|apply Hv| |lia]. intros c' Hc'. by simplify_eq.
    + apply Nat.ltb_ge in Ej. assert (j = 0) as -> by lia.
      assert (Hlong : longest p 0 (take (S i) t)) by (rewrite Hs; eapply extend_none; [by apply Hcand|done|done]).
      rewrite <- Hno by (intros Hm; apply Hlong in Hm; lia).
      apply IH; [lia|lia|apply Hlong|by intros; apply longest_candidate|lia].
Qed.

Lemma kmp_exact t p : kmp_search t p = Some (occurrences t p).
Proof.
  destruct p as [|b p']; [done|]. unfold kmp_search. set (p := b :: p').
  destruct (lps_table_spec p ltac:(done)) as (lps & -> & Hlps). cbn [mbind option_bind].
  replace (@nil nat) with (filter (occurs_at t p) (seq 0 (1 - length p))) by (cbn [length p]; by rewrite Nat.sub_diag || done).
  apply kmp_loop_spec; [done|done|lia|cbn; lia|apply ends_0| |lia].
  intros c _. split; [apply ends_0|]. intros k Hk%ends_length. rewrite length_take in Hk. lia.
Qed.

(** ** Rabin-Karp *)

Section RabinKarp.
#[local] Open Scope Z_scope.

(** The hash without the modulus. *)
Definition poly (l : list byte) : Z := foldl (fun h b => h * BASE + byte_Z b) 0 l.

Lemma byte_Z_bounds b : 0 <= byte_Z b < 256.
Proof. unfold byte_Z. pose proof (Byte.to_N_bounded b). lia. Qed.
Lemma poly_snoc l b : poly (l ++ [b]) = poly l * BASE + byte_Z b.
Proof. unfold poly. by rewrite foldl_app. Qed.
Lemma poly_cons b l : poly (b :: l) = byte_Z b * BASE ^ Z.of_nat (length l) + poly l.
Proof.
  induction l as [|c l IH] using rev_ind; [cbn; lia|].
  rewrite app_comm_cons, !poly_snoc, IH, length_app, Nat2Z.inj_add. cbn [length].
  rewrite Z.pow_add_r by lia. change (BASE ^ Z.of_nat 1) with BASE. ring.
Qed.

Lemma u64_ok z : 0 <= z < 2 ^ 64 -> u64_checked z = Some z.
Proof.
  intros Hz. unfold u64_checked. rewrite (proj2 (Z.leb_le 0 z)) by lia. rewrite (proj2 (Z.ltb_lt z (2 ^ 64))) by lia. done.
Qed.
Lemma mod_MOD z : 0 <= z mod MOD < MOD.
Proof. apply Z.mod_pos_bound. done. Qed.

Lemma hash_push_ok h b : hash_push (h mod MOD) b = Some ((h * BASE + byte_Z b) mod MOD).
Proof.
  pose proof (mod_MOD h). pose proof (byte_Z_bounds b). unfold hash_push. unfold MOD, BASE in *.
  rewrite u64_ok by lia. cbn [mbind option_bind]. rewrite u64_ok by lia. cbn [mbind option_bind]. f_equal.
  rewrite Z.add_mod, Z.mul_mod_idemp_l, <- Z.add_mod by done. done.
Qed.

Lemma rk_init_spec t p m k i : m = length p -> (m <= length t)%nat -> (i + k = m)%nat ->
  fold_option (rk_init_step t p m) (poly (take i p) mod MOD, poly (take i t) mod MOD, BASE ^ Z.of_nat (Nat.min i (m - 1)) mod MOD) (seq i k)
  = Some (poly p mod MOD, poly (take m t) mod MOD, BASE ^ Z.of_nat (m - 1) mod MOD).
Proof.
  intros Hm Ht. revert i. induction k as [|k IH]; intros i Hi.
  { cbn. replace i with m by lia. rewrite (take_ge p) by lia. by rewrite Nat.min_r by lia. }
  cbn [seq]. rewrite fold_option_cons. unfold rk_init_step at 1.
  destruct (lookup_lt_is_Some_2 p i ltac:(lia)) as [a Ha]. destruct (lookup_lt_is_Some_2 t i ltac:(lia)) as [b Hb].
  rewrite Ha, Hb. cbn [mbind option_bind]. rewrite !hash_push_ok. cbn [mbind option_bind].
  rewrite <- !poly_snoc, <- (take_S_r p i a Ha), <- (take_S_r t i b Hb).
  assert (Hpow : (if (i <? m - 1)%nat then x ← u64_checked (BASE ^ Z.of_nat (i `min` (m - 1)) mod MOD * BASE); Some (x mod MOD)
      else Some (BASE ^ Z.of_nat (i `min` (m - 1)) mod MOD)) = Some (BASE ^ Z.of_nat (S i `min` (m - 1)) mod MOD)).
  { destruct (i <? m - 1)%nat eqn:E.
    - apply Nat.ltb_lt in E. rewrite !Nat.min_l by lia. pose proof (mod_MOD (BASE ^ Z.of_nat i)).
      rewrite u64_ok by (unfold MOD, BASE in *; lia). cbn [mbind option_bind]. f_equal.
      rewrite Z.mul_mod_idemp_l by done. by rewrite Nat2Z.inj_succ, Z.pow_succ_r, Z.mul_comm by lia.
    - apply Nat.ltb_ge in E. by rewrite !Nat.min_r by lia. }
  rewrite Hpow. cbn [mbind option_bind]. apply IH. lia.
Qed.

(** Sliding the window rolls the hash. *)
Lemma rk_roll_spec t m i : (0 < m)%nat -> (i + m < length t)%nat ->
  rk_roll t m (BASE ^ Z.of_nat (m - 1) mod MOD) (poly (take m (drop i t)) mod MOD) i = Some (poly (take m (drop (S i) t)) mod MOD).
Proof.
  intros Hm Hi. unfold rk_roll.
  destruct (lookup_lt_is_Some_2 t i ltac:(lia)) as [x Hx]. destruct (lookup_lt_is_Some_2 t (i + m) ltac:(lia)) as [y Hy].
  rewrite Hx, Hy. cbn [mbind option_bind]. pose proof (byte_Z_bounds x). pose proof (mod_MOD (BASE ^ Z.of_nat (m - 1))) as HP.
  rewrite (u64_ok (byte_Z x * _)) by (generalize dependent (BASE ^ Z.of_nat (m - 1) mod MOD); unfold MOD; intros; nia). cbn [mbind option_bind].
  set (w := take (m - 1) (drop (S i) t)).
  assert (H1 : take m (drop i t) = x :: w) by (rewrite (drop_S _ _ _ Hx); by destruct m; [lia|cbn; rewrite Nat.sub_0_r]).
  assert (H2 : take m (drop (S i) t) = w ++ [y]).
  { unfold w. replace m with (S (m - 1)) at 1 by lia. apply take_S_r. rewrite lookup_drop. rewrite <- Hy. f_equal. lia. }
  assert (Hw : length w = (m - 1)%nat) by (unfold w; rewrite length_take, length_drop; lia).
  rewrite H1, H2, poly_snoc. set (P := BASE ^ Z.of_nat (m - 1)) in *.
  pose proof (mod_MOD (poly (x :: w))). pose proof (mod_MOD (byte_Z x * (P mod MOD))).
  rewrite u64_ok by (unfold MOD in *; lia). cbn [mbind option_bind]. rewrite u64_ok by (unfold MOD in *; lia). cbn [mbind option_bind].
  rewrite <- hash_push_ok. f_equal. rewrite Z.mul_mod_idemp_r by done.
  rewrite Zminus_mod_idemp_r, <- Z.add_sub_assoc, Zplus_mod, Zminus_mod_idemp_l, Z_mod_same_full, Z.add_0_l, Z.mod_mod by done.
  f_equal. rewrite poly_cons, Hw. fold P. ring.
Qed.

Lemma rk_loop_spec t p k i : (0 < length p)%nat -> (length p <= length t)%nat -> (i + k = S (length t - length p))%nat -> (0 < k)%nat ->
  exists h, fold_option (rk_step t p (poly p mod MOD) (BASE ^ Z.of_nat (length p - 1) mod MOD))
    (poly (take (length p) (drop i t)) mod MOD, filter (occurs_at t p) (seq 0 i)) (seq i k)
  = Some (h, filter (occurs_at t p) (seq 0 (i + k))).
Proof.
  intros Hp Ht. revert i. induction k as [|k IH]; intros i Hi Hk; [lia|].
  cbn [seq]. rewrite fold_option_cons. unfold rk_step at 1.
  assert (Hres : (if (poly p mod MOD =? poly (take (length p) (drop i t)) mod MOD) && @bool_decide (take (length p) (drop i t) = p) (decide_rel _ _ _)
      then filter (occurs_at t p) (seq 0 i) ++ [i] else filter (occurs_at t p) (seq 0 i)) = filter (occurs_at t p) (seq 0 (S i))).
  { rewrite seq_S, filter_app, filter_cons, filter_nil. cbn [Nat.add]. case_bool_decide as E.
    - rewrite (decide_True (P := occurs_at t p i)) by done. by rewrite E, Z.eqb_refl.
    - rewrite andb_false_r, (decide_False (P := occurs_at t p i)) by done. by rewrite app_nil_r. }
  cbv zeta. rewrite Hres. destruct (i <? length t - length p)%nat eqn:E.
  - apply Nat.ltb_lt in E. rewrite rk_roll_spec by lia. cbn [mbind option_bind].
    destruct (IH (S i)) as [h Hh]; [lia|lia|]. exists h. rewrite Hh. by rewrite Nat.add_succ_r.
  - apply Nat.ltb_ge in E. assert (k = 0)%nat as -> by lia. cbn. rewrite Nat.add_1_r. by eexists.
Qed.
End RabinKarp.

Lemma rabin_karp_exact t p : rabin_karp t p = Some (occurrences t p).
Proof.
  unfold rabin_karp. destruct (length p =? 0) eqn:E0.
  { apply Nat.eqb_eq, length_zero_iff_nil in E0. by subst. }
  apply Nat.eqb_neq in E0. destruct (length t <? length p) eqn:E1; cbn [orb].
  { apply Nat.ltb_lt in E1. unfold occurrences. destruct p; [done|]. by replace (S (length t) - length (b :: p)) with 0 by lia. }
  apply Nat.ltb_ge in E1. pose proof (rk_init_spec t p (length p) (length p) 0 eq_refl E1 eq_refl) as Hi.
  change (poly (take 0 p) mod MOD)%Z with 0%Z in Hi. change (poly (take 0 t) mod MOD)%Z with 0%Z in Hi. cbn [Nat.min] in Hi. change (BASE ^ Z.of_nat 0 mod MOD)%Z with 1%Z in Hi.
  rewrite Hi. cbn [mbind option_bind].
  destruct (rk_loop_spec t p (S (length t - length p)) 0) as [h Hh]; [lia|lia|lia|lia|].
  rewrite drop_0 in Hh. change (filter (occurs_at t p) (seq 0 0)) with (@nil nat) in Hh. rewrite Hh. cbn. unfold occurrences.
  destruct p; [done|]. by rewrite Nat.sub_succ_l by done.
Qed.

(** both string searches never panic (no index out of range, no overflow
    of the 64-bit hashes, the loops end) and return exactly the positions where
    the pattern occurs, in increasing order, overlapping ones included; the
    empty pattern has none. *)
Theorem string_search_exact (t p : list byte) :
  kmp_search t p = Some (occurrences t p) /\ rabin_karp t p = Some (occurrences t p).
Proof. split; [apply kmp_exact|apply rabin_karp_exact]. Qed.

(** ** Binary and linear search *)

Section SliceSearch.
Context {T : Type} `{HO : Ord T} `{HL : !OrdLaws T}.

Lemma binary_search_loop_spec fuel arr target l r : sorted arr -> l <= r -> r <= length arr -> r - l < fuel ->
  (forall i x, arr !! i = Some x -> i < l -> ord_lt x target = true) ->
  (forall i x, arr !! i = Some x -> r <= i -> ord_lt target x = true) ->
  exists res, binary_search_loop fuel arr target l r = Some res /\
    match res with
    | Some m => exists x, arr !! m = Some x /\ ord_eq x target = true
    | None => forall i x, arr !! i = Some x -> ord_eq x target = false
    end.
Proof.
  intros Hs. revert l r. induction fuel as [|fuel IH]; intros l r Hlr Hr Hf Hlo Hhi; [lia|]. cbn [binary_search_loop].
  destruct (l <? r) eqn:E.
  2: { apply Nat.ltb_ge in E. exists None. split; [done|]. intros i x Hx. unfold ord_eq.
    destruct (decide (i < l)) as [Hi|Hi]; [apply (Hlo i x Hx) in Hi|assert (Hi' : r <= i) by lia; apply (Hhi i x Hx) in Hi'].
    - unfold ord_lt in Hi. destruct (ord_le target x); [done|apply andb_false_r].
    - unfold ord_lt in Hi'. by destruct (ord_le x target). }
  apply Nat.ltb_lt in E. set (m := (l + r) / 2).
  assert (Hm : l <= m < r) by (subst m; pose proof (Nat.div_mod_eq (l + r) 2); pose proof (Nat.mod_upper_bound (l + r) 2); lia).
  destruct (lookup_lt_is_Some_2 arr m ltac:(lia)) as [x Hx]. rewrite Hx. cbn [mbind option_bind].
  assert (Hbefore : forall i y, arr !! i = Some y -> i <= m -> ord_le y x = true).
  { intros i y Hy Hi. destruct (decide (i = m)) as [->|]; [simplify_eq; by destruct (ord_total x x)|].
    eapply (sorted_at arr i m); [exact Hs|lia|done|done]. }
  assert (Hafter : forall i y, arr !! i = Some y -> m <= i -> ord_le x y = true).
  { intros i y Hy Hi. destruct (decide (i = m)) as [->|]; [simplify_eq; by destruct (ord_total x x)|].
    eapply (sorted_at arr m i); [exact Hs|lia|done|done]. }
  destruct (ord_eq x target) eqn:Eq; [exists (Some m); eauto|]. unfold ord_eq in Eq.
  destruct (ord_lt x target) eqn:El.
  - apply IH; [lia|lia|lia| |done]. intros i y Hy Hi. unfold ord_lt in El |- *. apply negb_true_iff in El. apply negb_true_iff.
    destruct (ord_le target y) eqn:Ety; [|done]. rewrite (ord_trans target y x) in El; [done|done|apply (Hbefore i); [done|lia]].
  - apply IH; [lia|lia|lia|done|]. intros i y Hy Hi. unfold ord_lt in El |- *. apply negb_false_iff in El. rewrite El, andb_true_r in Eq.
    apply negb_true_iff. destruct (ord_le y target) eqn:Eyt; [|done].
    rewrite (ord_trans x y target) in Eq; [done|apply (Hafter i); [done|lia]|done].
Qed.

Lemma linear_search_from_spec i arr target :
  match linear_search_from i arr target with
  | Some k => exists x, i <= k /\ arr !! (k - i) = Some x /\ ord_eq x target = true /\
      Forall (fun y => ord_eq y target = false) (take (k - i) arr)
  | None => Forall (fun y => ord_eq y target = false) arr
  end.
Proof.
  revert i. induction arr as [|v arr IH]; intros i; cbn; [constructor|]. destruct (ord_eq v target) eqn:E.
  - rewrite Nat.sub_diag. exists v. repeat split; [done|done|constructor].
  - specialize (IH (S i)). destruct (linear_search_from (S i) arr target) as [k|]; [|by constructor].
    destruct IH as (x & Hk & Hx & He & Hf). exists x. replace (k - i) with (S (k - S i)) by lia. cbn.
    split_and!; [lia|done|done|by constructor].
Qed.
End SliceSearch.

(** on a sorted slice binary search never panics and agrees with linear
    search: it answers a position holding an equal element when linear search
    finds one (the first), and no position when there is none. *)
Theorem binary_search_agrees {T : Type} `{OrdLaws T} (arr : list T) (target : T) : sorted arr ->
  exists res, binary_search arr target = Some res /\
    match res, linear_search arr target with
    | Some m, Some k => exists x y, arr !! m = Some x /\ ord_eq x target = true /\ arr !! k = Some y /\ ord_eq y target = true /\ k <= m
    | None, None => Forall (fun x => ord_eq x target = false) arr
    | _, _ => False
    end.
Proof.
  intros Hs. destruct (binary_search_loop_spec (S (length arr)) arr target 0 (length arr)) as (res & Hres & Hspec);
    [done|lia|lia|lia|lia|intros i x Hx%lookup_lt_Some; lia|].
  exists res. split; [done|]. pose proof (linear_search_from_spec 0 arr target) as Hl. unfold linear_search.
  destruct res as [m|], (linear_search_from 0 arr target) as [k|]; rewrite ?Nat.sub_0_r in Hl.
  - destruct Hspec as (x & Hx & Hxe), Hl as (y & _ & Hy & Hye & Hf). exists x, y. split_and!; [done..|].
    destruct (decide (k <= m)) as [|Hkm]; [done|]. exfalso. rewrite Forall_lookup in Hf.
    specialize (Hf m x). rewrite lookup_take_lt in Hf by lia. rewrite Hf in Hxe; done.
  - destruct Hspec as (x & Hx & Hxe). rewrite Forall_lookup in Hl. by rewrite (Hl m x Hx) in Hxe.
  - destruct Hl as (y & _ & Hy & Hye & _). by rewrite (Hspec k y Hy) in Hye.
  - apply Forall_lookup. exact Hspec.
Qed.
Lemma binary_search_agrees_witness :
  sorted [2; 5; 5; 9]%N /\ exists res, binary_search [2; 5; 5; 9]%N 5%N = Some res /\
    match res, linear_search [2; 5; 5; 9]%N 5%N with
    | Some m, Some k => exists x y, [2; 5; 5; 9]%N !! m = Some x /\ ord_eq x 5%N = true /\ [2; 5; 5; 9]%N !! k = Some y /\ ord_eq y 5%N = true /\ k <= m
    | None, None => Forall (fun x => ord_eq x 5%N = false) [2; 5; 5; 9]%N
    | _, _ => False
    end.
Proof.
  assert (Hs : sorted [2; 5; 5; 9]%N) by repeat constructor. split; [exact Hs|].
  apply (binary_search_agrees [2; 5; 5; 9]%N 5%N Hs).
Defined.
