(* ===== verification/UnionFind.v ===== *)
(** * Disjoint sets and equality constraints
    ([algorithms/src/data_structures/union_find.rs],
    [constraints/unification.rs])

    The forest of parents with path compression and union by rank, and the
    constraint solver on top of it.  Its labels are equal exactly for variables
    related by the equivalence the constraints generate. *)
From Stdlib Require Import Relations.
From S2P Require Import Prelude.

(** ** The forest *)

Record UnionFind := MkUnionFind { parent : list nat; rank : list N; components : nat }.

Definition uf_new (size : nat) : UnionFind := MkUnionFind (seq 0 size) (replicate size 0%N) size.
Definition uf_len (uf : UnionFind) : nat := length (parent uf).
Definition uf_is_empty (uf : UnionFind) : bool := match parent uf with [] => true | _ => false end.

(** The first loop of [find]: up to the root.  [None] is an index out of range
    (or a cycle, excluded by [uf_wf]). *)
Fixpoint find_root (fuel : nat) (p : list nat) (root : nat) : option nat :=
  match fuel with
  | O => None
  | S fuel' => q ← p !! root; if q =? root then Some root else find_root fuel' p q
  end.

(** The second loop: every node of the path points to the root. *)
Fixpoint compress (fuel : nat) (p : list nat) (root cur : nat) : option (list nat) :=
  match fuel with
  | O => None
  | S fuel' =>
      next ← p !! cur;
      if next =? cur then Some p else compress fuel' (<[ cur := root ]> p) root next
  end.

Definition find (uf : UnionFind) (x : nat) : option (UnionFind * nat) :=
  let fuel := S (length (parent uf)) in
  root ← find_root fuel (parent uf) x;
  p ← compress fuel (parent uf) root x;
  Some (MkUnionFind p (rank uf) (components uf), root).

(** [u8::saturating_add(1)]. *)
Definition saturating_incr_u8 (r : N) : N := N.min 255 (r + 1).

Definition union (uf : UnionFind) (a b : nat) : option (UnionFind * bool) :=
  '(uf, ra) ← find uf a;
  '(uf, rb) ← find uf b;
  if ra =? rb then Some (uf, false)
  else
    ka ← rank uf !! ra; kb ← rank uf !! rb;
    let '(ra, rb) := if (ka <? kb)%N then (rb, ra) else (ra, rb) in
    ka ← rank uf !! ra; kb ← rank uf !! rb;
    let p := <[ rb := ra ]> (parent uf) in
    let rk := if (ka =? kb)%N then <[ ra := saturating_incr_u8 ka ]> (rank uf) else rank uf in
    Some (MkUnionFind p rk (components uf - 1), true).

(** [labels]: [find] at each index in turn, on the forest as compressed so far. *)
Fixpoint find_each (uf : UnionFind) (is_ : list nat) : option (UnionFind * list nat) :=
  match is_ with
  | [] => Some (uf, [])
  | i :: is_ => '(uf, r) ← find uf i; '(uf, rs) ← find_each uf is_; Some (uf, r :: rs)
  end.
Definition labels (uf : UnionFind) : option (UnionFind * list nat) := find_each uf (seq 0 (length (parent uf))).

(** ** Equality constraints *)

Record EqualityConstraint := MkEq { eq_left : N; eq_right : N }.

Inductive unify_error : Type := OutOfRange (i : nat) (l r : N) (var_count : nat).

(** The first constraint with a side out of range. *)
Fixpoint validate_from (i var_count : nat) (cs : list EqualityConstraint) : unify_error + unit :=
  match cs with
  | [] => inr tt
  | c :: cs =>
      if (var_count <=? N.to_nat (eq_left c)) || (var_count <=? N.to_nat (eq_right c))
      then inl (OutOfRange i (eq_left c) (eq_right c) var_count)
      else validate_from (S i) var_count cs
  end.
Definition validate_constraints (var_count : nat) (cs : list EqualityConstraint) := validate_from 0 var_count cs.

Fixpoint union_all (uf : UnionFind) (cs : list EqualityConstraint) : option UnionFind :=
  match cs with
  | [] => Some uf
  | c :: cs => '(uf, _) ← union uf (N.to_nat (eq_left c)) (N.to_nat (eq_right c)); union_all uf cs
  end.

(** [as u32]. *)
Definition as_u32 (x : nat) : N := (N.of_nat x mod 2 ^ 32)%N.

(** [None] is a panic. *)
Definition solve_constraints_cpu (var_count : nat) (cs : list EqualityConstraint) : option (unify_error + list N) :=
  match validate_constraints var_count cs with
  | inl e => Some (inl e)
  | inr _ =>
      uf ← union_all (uf_new var_count) cs;
      '(_, ls) ← labels uf;
      Some (inr (map as_u32 ls))
  end.

(** ** The forest invariant *)

(** [root_in p x r d]: from [x], [d] steps up reach the root [r]. *)
Inductive root_in (p : list nat) : nat -> nat -> nat -> Prop :=
| root_here x : p !! x = Some x -> root_in p x x 0
| root_up x y r d : p !! x = Some y -> y <> x -> root_in p y r d -> root_in p x r (S d).

Lemma root_in_det p x r d : root_in p x r d -> forall r' d', root_in p x r' d' -> r = r' /\ d = d'.
Proof.
  induction 1 as [x Hx|x y r d Hx Hne _ IH]; intros r' d' H'; inversion H'; simplify_eq; [done|].
  edestruct IH as [-> ->]; [eassumption|done].
Qed.
Lemma root_in_root p x r d : root_in p x r d -> p !! r = Some r.
Proof. induction 1; done. Qed.
Lemma root_in_lt p x r d : root_in p x r d -> x < length p.
Proof. intros H. inversion H; by eapply lookup_lt_Some. Qed.

(** The depth of a node is below the number of nodes: those on its path have
    different depths. *)
Lemma root_in_path p x r d : root_in p x r d ->
  exists l, length l = S d /\ NoDup l /\ Forall (fun y => y < length p /\ exists e, e <= d /\ root_in p y r e) l.
Proof.
  induction 1 as [x Hx|x y r d Hx Hne Hy (l & Hl & Hn & Hf)].
  - exists [x]. split_and!; [done|apply NoDup_singleton|]. repeat constructor; [by eapply lookup_lt_Some|].
    exists 0. split; [done|by constructor].
  - exists (x :: l). assert (Hroot : root_in p x r (S d)) by by econstructor. split_and!.
    + cbn. lia.
    + constructor; [|done]. intros Hin. rewrite Forall_forall in Hf. destruct (Hf x Hin) as (_ & e & He & Hxe).
      destruct (root_in_det _ _ _ _ Hroot _ _ Hxe). lia.
    + constructor; [split; [by eapply lookup_lt_Some|by exists (S d)]|].
      eapply Forall_impl; [exact Hf|]. cbn. intros z (? & e & ? & ?). split; [done|]. exists e. split; [lia|done].
Qed.
Lemma root_in_depth p x r d : root_in p x r d -> d < length p.
Proof.
  intros (l & Hl & Hn & Hf)%root_in_path.
  assert (Hle : length l <= length (seq 0 (length p))).
  { apply submseteq_length, NoDup_submseteq; [done|]. intros y Hy. rewrite Forall_forall in Hf.
    destruct (Hf y Hy). apply elem_of_seq. lia. }
  rewrite length_seq in Hle. lia.
Qed.

(** Every node has a root. *)
Definition forest (p : list nat) : Prop := forall x, x < length p -> exists r d, root_in p x r d.

(** [find_root] and [compress] do what they say. *)
Lemma find_root_spec p x r d fuel : root_in p x r d -> d < fuel -> find_root fuel p x = Some r.
Proof.
  intros H. revert fuel. induction H as [x Hx|x y r d Hx Hne _ IH]; intros [|fuel] Hf; try lia; cbn; rewrite Hx; cbn.
  - by rewrite Nat.eqb_refl.
  - destruct (y =? x) eqn:E; [by apply Nat.eqb_eq in E|]. apply IH. lia.
Qed.

(** Pointing a node at its root changes no root and lengthens no path. *)
Lemma shortcut p x r d0 : root_in p x r d0 -> x <> r ->
  forall y s d, root_in p y s d -> exists d', d' <= d /\ root_in (<[ x := r ]> p) y s d'.
Proof.
  intros Hx Hne. pose proof (root_in_root _ _ _ _ Hx) as Hr. pose proof (root_in_lt _ _ _ _ Hx).
  induction 1 as [y Hy|y z s d Hy Hyz Hz (d' & Hd' & IH)].
  - assert (x <> y) by (intros ->; inversion Hx; simplify_eq). exists 0. split; [done|].
    constructor. by rewrite list_lookup_insert_ne.
  - destruct (decide (y = x)) as [->|Hyx].
    + edestruct (root_in_det _ _ _ _ Hx s (S d)) as [<- _]; [by econstructor|]. exists 1. split; [lia|].
      apply (root_up _ x r r 0); [by rewrite list_lookup_insert_eq|done|].
      constructor. rewrite list_lookup_insert_ne by done. done.
    + exists (S d'). split; [lia|]. apply (root_up _ y z); [|done|done]. rewrite list_lookup_insert_ne by done. done.
Qed.

(** [q] has the nodes and the roots of [p]. *)
Definition same_roots (p q : list nat) : Prop :=
  length q = length p /\ forall y s d, root_in p y s d -> exists d', root_in q y s d'.

#[export] Instance same_roots_preorder : PreOrder same_roots.
Proof.
  split; [split; eauto|]. intros p q t [Hl1 H1] [Hl2 H2]. split; [congruence|].
  intros y s d Hy. destruct (H1 y s d Hy) as [d1 Hd1]. eauto.
Qed.
Lemma same_roots_forest p q : forest p -> same_roots p q -> forest q.
Proof. intros Hf [Hl Hs] x Hx. destruct (Hf x) as (r & d & Hr); [lia|]. destruct (Hs x r d Hr) as [d' ?]. eauto. Qed.

Lemma compress_spec fuel p r cur d : root_in p cur r d -> d < fuel ->
  exists q, compress fuel p r cur = Some q /\ same_roots p q.
Proof.
  revert p cur d. induction fuel as [|fuel IH]; intros p cur d Hr Hf; [lia|]. cbn.
  inversion Hr as [? Hc|? y ? d1 Hc Hne Hy]; subst; rewrite Hc; cbn.
  - rewrite Nat.eqb_refl. exists p. split; [done|reflexivity].
  - destruct (y =? cur) eqn:E; [by apply Nat.eqb_eq in E|].
    assert (cur <> r) by (intros ->; apply root_in_root in Hr; simplify_eq).
    destruct (shortcut p cur r (S d1) Hr ltac:(done) y r d1 Hy) as (d' & Hd' & Hy').
    destruct (IH (<[ cur := r ]> p) y d') as (q & -> & Hq); [done|lia|]. exists q. split; [done|].
    etransitivity; [|exact Hq]. split; [by rewrite length_insert|]. intros z s e Hz.
    destruct (shortcut p cur r (S d1) Hr ltac:(done) z s e Hz) as (? & _ & ?). eauto.
Qed.

Lemma find_spec uf x r d : root_in (parent uf) x r d ->
  exists p, find uf x = Some (MkUnionFind p (rank uf) (components uf), r) /\ same_roots (parent uf) p.
Proof.
  intros Hr. pose proof (root_in_depth _ _ _ _ Hr). unfold find.
  rewrite (find_root_spec _ x r d) by (done || lia). cbn [mbind option_bind].
  destruct (compress_spec (S (length (parent uf))) (parent uf) r x d) as (p & -> & Hp); [done|lia|]. by exists p.
Qed.

(** ** Linking two roots *)

Lemma link_roots p ra rb : p !! ra = Some ra -> p !! rb = Some rb -> ra <> rb ->
  forall y s d, root_in p y s d -> exists d', root_in (<[ rb := ra ]> p) y (if decide (s = rb) then ra else s) d'.
Proof.
  intros Ha Hb Hne. pose proof (lookup_lt_Some _ _ _ Hb).
  assert (Hra : root_in (<[ rb := ra ]> p) ra ra 0) by (constructor; by rewrite list_lookup_insert_ne).
  induction 1 as [y Hy|y z s d Hy Hyz _ [d' IH]].
  - case_decide; subst; [|exists 0; constructor; by rewrite list_lookup_insert_ne].
    exists 1. by apply (root_up _ rb ra); [rewrite list_lookup_insert_eq| |].
  - exists (S d'). apply (root_up _ y z); [|done|done]. rewrite list_lookup_insert_ne; [done|].
    intros <-. simplify_eq.
Qed.

(** Two nodes in one tree. *)
Definition same_tree (p : list nat) (x y : nat) : Prop := exists r d d', root_in p x r d /\ root_in p y r d'.

Lemma same_roots_tree p q x y : forest p -> same_roots p q -> same_tree q x y <-> same_tree p x y.
Proof.
  intros Hf [Hl Hs]. split.
  - intros (r & d & d' & Hx & Hy). pose proof (root_in_lt _ _ _ _ Hx). pose proof (root_in_lt _ _ _ _ Hy).
    destruct (Hf x) as (rx & ex & Hrx); [lia|]. destruct (Hf y) as (ry & ey & Hry); [lia|].
    destruct (Hs _ _ _ Hrx) as [? Hx']. destruct (Hs _ _ _ Hry) as [? Hy'].
    destruct (root_in_det _ _ _ _ Hx _ _ Hx'). destruct (root_in_det _ _ _ _ Hy _ _ Hy'). subst. by exists ry, ex, ey.
  - intros (r & d & d' & Hx & Hy). destruct (Hs _ _ _ Hx) as [? ?]. destruct (Hs _ _ _ Hy) as [? ?]. by eexists _, _, _.
Qed.

Definition roots (p : list nat) : list nat := filter (fun x => p !! x = Some x) (seq 0 (length p)).

Lemma elem_of_roots p x : x ∈ roots p <-> p !! x = Some x.
Proof.
  unfold roots. rewrite list_elem_of_filter, elem_of_seq. split; [by intros []|]. intros H. split; [done|].
  apply lookup_lt_Some in H. lia.
Qed.
Lemma NoDup_roots p : NoDup (roots p).
Proof. apply NoDup_filter, NoDup_seq. Qed.

Lemma same_roots_roots p q : forest p -> same_roots p q -> roots q ≡ₚ roots p.
Proof.
  intros Hf [Hl Hs]. apply NoDup_Permutation; [apply NoDup_roots..|]. intros x. rewrite !elem_of_roots. split; intros Hx.
  - destruct (Hf x) as (r & d & Hr); [apply lookup_lt_Some in Hx; lia|]. destruct (Hs _ _ _ Hr) as [d' Hr'].
    destruct (root_in_det _ _ _ _ (root_here q x Hx) _ _ Hr') as [<- _]. by apply root_in_root in Hr.
  - destruct (Hs x x 0) as [? H]; [by constructor|]. by apply root_in_root in H.
Qed.

(** The structure a client sees: a forest, one rank per node, and
    [components] its number of roots. *)
Definition uf_wf (uf : UnionFind) : Prop :=
  forest (parent uf) /\ length (rank uf) = length (parent uf) /\ components uf = length (roots (parent uf)).

Lemma uf_new_root n x : x < n -> root_in (parent (uf_new n)) x x 0.
Proof. intros Hx. constructor. cbn. by rewrite lookup_seq_lt. Qed.
Lemma uf_new_wf n : uf_wf (uf_new n).
Proof.
  split_and!.
  - intros x Hx. cbn in Hx. rewrite length_seq in Hx. exists x, 0. by apply uf_new_root.
  - cbn. by rewrite length_replicate, length_seq.
  - cbn. rewrite <- (length_seq n 0) at 1. apply Permutation_length, NoDup_Permutation; [apply NoDup_seq|apply NoDup_roots|].
    intros x. rewrite (elem_of_roots (seq 0 n) x), elem_of_seq, lookup_seq. naive_solver lia.
Qed.

Lemma find_wf uf x : uf_wf uf -> x < length (parent uf) ->
  exists p r d, find uf x = Some (MkUnionFind p (rank uf) (components uf), r) /\
    root_in (parent uf) x r d /\ same_roots (parent uf) p /\ uf_wf (MkUnionFind p (rank uf) (components uf)).
Proof.
  intros (Hf & Hr & Hc) Hx. destruct (Hf x Hx) as (r & d & Hroot). destruct (find_spec uf x r d Hroot) as (p & -> & Hs).
  exists p, r, d. split_and!; [done|done|done|]. split_and!; cbn [parent rank components].
  - by eapply same_roots_forest.
  - destruct Hs. congruence.
  - by rewrite (Permutation_length (same_roots_roots _ _ Hf Hs)).
Qed.

(** The trees after linking the roots of [a] and [b]. *)
Definition joined (E : nat -> nat -> Prop) (a b x y : nat) : Prop := E x y \/ (E x a /\ E b y) \/ (E x b /\ E a y).

Lemma link_tree p a b ra rb da db : forest p -> root_in p a ra da -> root_in p b rb db -> ra <> rb ->
  forest (<[ rb := ra ]> p) /\ forall x y, same_tree (<[ rb := ra ]> p) x y <-> joined (same_tree p) a b x y.
Proof.
  intros Hf Ha Hb Hne. pose proof (link_roots p ra rb (root_in_root _ _ _ _ Ha) (root_in_root _ _ _ _ Hb) Hne) as Hl.
  split.
  { intros x Hx. rewrite length_insert in Hx. destruct (Hf x Hx) as (r & d & Hr). destruct (Hl _ _ _ Hr) as [d' ?]. eauto. }
  assert (Hat : forall x r d, root_in p x r d -> (same_tree p x a <-> r = ra) /\ (same_tree p a x <-> r = ra) /\
    (same_tree p x b <-> r = rb) /\ (same_tree p b x <-> r = rb)).
  { intros x r d Hx. split_and!; (split; [intros (s & e & e' & H1 & H2)|intros ->; by eexists _, _, _]).
    all: by repeat match goal with
      | H1 : root_in _ ?z _ _, H2 : root_in _ ?z _ _ |- _ => destruct (root_in_det _ _ _ _ H1 _ _ H2) as [? ?]; clear H1; subst end. }
  intros x y. unfold joined. split.
  - intros (r & d & d' & Hx & Hy).
    destruct (Hf x) as (rx & ex & Hrx); [apply root_in_lt in Hx; by rewrite length_insert in Hx|].
    destruct (Hf y) as (ry & ey & Hry); [apply root_in_lt in Hy; by rewrite length_insert in Hy|].
    destruct (Hat _ _ _ Hrx) as (-> & _ & -> & _). destruct (Hat _ _ _ Hry) as (_ & -> & _ & ->).
    destruct (Hl _ _ _ Hrx) as [? Hx']. destruct (Hl _ _ _ Hry) as [? Hy'].
    destruct (root_in_det _ _ _ _ Hx _ _ Hx') as [Er _]. destruct (root_in_det _ _ _ _ Hy _ _ Hy') as [Er' _]. subst r.
    repeat case_decide; subst; first [by left; exists ry, ex, ey|by auto|by left; exists rb, ex, ey].
  - assert (Hto : forall z r d, root_in p z r d -> r = ra \/ r = rb -> exists d', root_in (<[ rb := ra ]> p) z ra d').
    { intros z r d Hz Hr. destruct (Hl _ _ _ Hz) as [d' Hz']. exists d'. case_decide; [done|]. by destruct Hr as [-> | ->]. }
    assert (Hend : forall z w r d, root_in p w r d -> same_tree p z w -> r = ra \/ r = rb -> exists d', root_in (<[ rb := ra ]> p) z ra d').
    { intros z w r d Hw (s & e & e' & Hz & Hw'). destruct (root_in_det _ _ _ _ Hw' _ _ Hw) as [-> _]. by apply (Hto z r e). }
    intros [(r & d & d' & Hx & Hy)|[[Hx Hy]|[Hx Hy]]].
    + destruct (Hl _ _ _ Hx). destruct (Hl _ _ _ Hy). by eexists _, _, _.
    + destruct (Hend x a ra da Ha Hx) as [? ?]; [auto|]. destruct Hy as (s & e & e' & H1 & H2).
      destruct (Hend y b rb db Hb) as [? ?]; [by exists s, e', e|auto|]. by eexists _, _, _.
    + destruct (Hend x b rb db Hb Hx) as [? ?]; [auto|]. destruct Hy as (s & e & e' & H1 & H2).
      destruct (Hend y a ra da Ha) as [? ?]; [by exists s, e', e|auto|]. by eexists _, _, _.
Qed.

Lemma roots_link p ra rb : p !! ra = Some ra -> p !! rb = Some rb -> ra <> rb ->
  roots p ≡ₚ rb :: roots (<[ rb := ra ]> p).
Proof.
  intros Ha Hb Hne. pose proof (lookup_lt_Some _ _ _ Hb).
  assert (Hrb : <[ rb := ra ]> p !! rb = Some ra) by (by rewrite list_lookup_insert_eq).
  apply NoDup_Permutation; [apply NoDup_roots|constructor; [|apply NoDup_roots]|].
  - rewrite elem_of_roots, Hrb. congruence.
  - intros x. rewrite elem_of_cons, !elem_of_roots. destruct (decide (x = rb)) as [->|]; [naive_solver|].
    rewrite list_lookup_insert_ne by done. naive_solver.
Qed.

(** [p'] has the trees of [p] with those of [a] and [b] joined. *)
Lemma joined_same p a b x y : same_tree p a b -> joined (same_tree p) a b x y <-> same_tree p x y.
Proof.
  intros (r & d & d' & Ha & Hb). unfold joined. split; [|tauto].
  intros [|[[Hx Hy]|[Hx Hy]]]; [done|..]; destruct Hx as (s & e & e' & Hx & Hx'), Hy as (t & f & f' & Hy & Hy').
  all: repeat match goal with
    | H1 : root_in ?q ?z _ _, H2 : root_in ?q ?z _ _ |- _ => destruct (root_in_det _ _ _ _ H1 _ _ H2) as [? ?]; clear H1; subst end.
  all: by eexists _, _, _.
Qed.

(** [union]: the answer is whether the trees were apart; afterwards they are
    one, and [components] has been decremented exactly then. *)
Lemma union_wf uf a b : uf_wf uf -> a < length (parent uf) -> b < length (parent uf) ->
  exists uf' fresh, union uf a b = Some (uf', fresh) /\ uf_wf uf' /\ length (parent uf') = length (parent uf) /\
    (fresh = true <-> ~ same_tree (parent uf) a b) /\
    (forall x y, same_tree (parent uf') x y <-> joined (same_tree (parent uf)) a b x y).
Proof.
  intros Hwf Ha Hb. unfold union.
  destruct (find_wf uf a Hwf Ha) as (p1 & ra & da & -> & Hra & Hs1 & Hwf1). cbn [mbind option_bind].
  destruct (find_wf _ b Hwf1) as (p2 & rb & db & -> & Hrb & Hs2 & (Hf2 & Hk2 & Hc2)); [cbn; by rewrite (proj1 Hs1)|].
  cbn [mbind option_bind parent rank components] in *.
  assert (Hs : same_roots (parent uf) p2) by by transitivity p1. pose proof (proj1 Hs) as Hlen.
  pose proof (proj1 Hwf) as Hf. assert (Htree : forall x y, same_tree p2 x y <-> same_tree (parent uf) x y) by (intros; by apply same_roots_tree).
  destruct (proj2 Hs _ _ _ Hra) as [da' Hra2]. destruct (proj2 Hs2 _ _ _ Hrb) as [db' Hrb2].
  assert (Hsame : same_tree p2 a b <-> ra = rb).
  { split; [|intros ->; by eexists _, _, _]. intros (r & d & d' & H1 & H2).
    destruct (root_in_det _ _ _ _ Hra2 _ _ H1). destruct (root_in_det _ _ _ _ Hrb2 _ _ H2). congruence. }
  destruct (ra =? rb) eqn:E.
  { apply Nat.eqb_eq in E. eexists _, false. split; [done|]. split_and!; [done|done| |].
    - rewrite <- Htree, Hsame. naive_solver.
    - intros x y. cbn. rewrite Htree, joined_same; [done|]. by rewrite <- Htree, Hsame. }
  apply Nat.eqb_neq in E.
  pose proof (root_in_root _ _ _ _ Hra2) as HRa. pose proof (root_in_root _ _ _ _ Hrb2) as HRb.
  destruct (lookup_lt_is_Some_2 (rank uf) ra) as [ka Hka]; [rewrite Hk2; by eapply lookup_lt_Some|].
  destruct (lookup_lt_is_Some_2 (rank uf) rb) as [kb Hkb]; [rewrite Hk2; by eapply lookup_lt_Some|].
  rewrite Hka, Hkb. cbn [mbind option_bind].
  assert (Hout : forall r1 r2 a1 a2 d1 d2 rk, r1 <> r2 -> root_in p2 a1 r1 d1 -> root_in p2 a2 r2 d2 ->
    (forall x y, joined (same_tree (parent uf)) a1 a2 x y <-> joined (same_tree (parent uf)) a b x y) -> length rk = length (rank uf) ->
    let uf' := MkUnionFind (<[ r2 := r1 ]> p2) rk (components uf - 1) in
    uf_wf uf' /\ length (parent uf') = length (parent uf) /\ (true = true <-> ~ same_tree (parent uf) a b) /\
    (forall x y, same_tree (parent uf') x y <-> joined (same_tree (parent uf)) a b x y)).
  { intros r1 r2 a1 a2 d1 d2 rk Hne H1 H2 Hj Hrk. destruct (link_tree p2 a1 a2 r1 r2 d1 d2 Hf2 H1 H2 Hne) as [Hfl Htl].
    split; [|split_and!].
    - split_and!; cbn [parent rank components]; [done|by rewrite Hrk, length_insert|].
      rewrite Hc2, (roots_link p2 r1 r2); [cbn; lia|by eapply root_in_root|by eapply root_in_root|done].
    - cbn. by rewrite length_insert.
    - rewrite <- Htree, Hsame. naive_solver.
    - intros x y. cbn. rewrite Htl, <- Hj. unfold joined. by rewrite !Htree. }
  destruct (ka <? kb)%N; cbn [mbind option_bind]; rewrite ?Hka, ?Hkb; cbn [mbind option_bind]; eexists _, true; (split; [reflexivity|]).
  - apply (Hout rb ra b a db' da'); [done..|unfold joined; tauto|case_match; rewrite ?length_insert; done].
  - apply (Hout ra rb a b da' db'); [done..|case_match; rewrite ?length_insert; done].
Qed.

Lemma find_each_spec uf is_ : uf_wf uf -> Forall (fun i => i < length (parent uf)) is_ ->
  exists uf' rs, find_each uf is_ = Some (uf', rs) /\ Forall2 (fun i r => exists d, root_in (parent uf) i r d) is_ rs.
Proof.
  revert uf. induction is_ as [|i is_ IH]; intros uf Hwf Hf; cbn [find_each]; [by exists uf, []|].
  apply Forall_cons in Hf as [Hi Hf]. destruct (find_wf uf i Hwf Hi) as (p & r & d & -> & Hr & Hs & Hwf'). cbn [mbind option_bind].
  destruct (IH _ Hwf') as (uf' & rs & -> & Hrs); [cbn; by rewrite (proj1 Hs)|]. exists uf', (r :: rs). split; [done|].
  constructor; [by exists d|]. eapply Forall2_impl; [exact Hrs|]. cbn. intros j s [e He].
  destruct (proj1 Hwf j) as (s' & e' & Hj); [apply root_in_lt in He; by rewrite (proj1 Hs) in He|].
  destruct (proj2 Hs _ _ _ Hj) as [e2 Hj2]. destruct (root_in_det _ _ _ _ He _ _ Hj2) as [-> _]. eauto.
Qed.

(** The labels name the trees. *)
Lemma labels_spec uf : uf_wf uf ->
  exists uf' ls, labels uf = Some (uf', ls) /\ length ls = length (parent uf) /\
    Forall (fun r => r < length (parent uf)) ls /\
    forall i j, i < length (parent uf) -> j < length (parent uf) -> ls !! i = ls !! j <-> same_tree (parent uf) i j.
Proof.
  intros Hwf. destruct (find_each_spec uf (seq 0 (length (parent uf))) Hwf) as (uf' & ls & Heq & Hls).
  { apply Forall_forall. intros x Hx%elem_of_seq. lia. }
  exists uf', ls. unfold labels. pose proof (Forall2_length _ _ _ Hls) as Hlen. rewrite length_seq in Hlen.
  assert (Hat : forall i, i < length (parent uf) -> exists r d, ls !! i = Some r /\ root_in (parent uf) i r d).
  { intros i Hi. destruct (lookup_lt_is_Some_2 ls i ltac:(lia)) as [r Hr].
    destruct (Forall2_lookup_r _ _ _ i r Hls Hr) as (i' & [-> _]%lookup_seq & d & Hd). cbn in Hd. by exists r, d. }
  split_and!; [done|lia| |].
  - apply Forall_lookup. intros i r Hr. destruct (Hat i) as (r' & d & Hr' & Hd); [apply lookup_lt_Some in Hr; lia|].
    simplify_eq. apply root_in_root in Hd. by eapply lookup_lt_Some.
  - intros i j Hi Hj. destruct (Hat i Hi) as (ri & di & -> & Hri). destruct (Hat j Hj) as (rj & dj & -> & Hrj). split.
    + intros [= ->]. by exists rj, di, dj.
    + intros (r & d & d' & H1 & H2). destruct (root_in_det _ _ _ _ Hri _ _ H1). destruct (root_in_det _ _ _ _ Hrj _ _ H2). congruence.
Qed.

(** ** The solver *)

(** The equations as a relation, and the equivalence they generate. *)
Definition constrained (cs : list EqualityConstraint) (x y : nat) : Prop :=
  exists c, c ∈ cs /\ x = N.to_nat (eq_left c) /\ y = N.to_nat (eq_right c).
Definition equated (cs : list EqualityConstraint) : nat -> nat -> Prop := clos_refl_sym_trans nat (constrained cs).

Definition in_range (n : nat) (c : EqualityConstraint) : Prop := N.to_nat (eq_left c) < n /\ N.to_nat (eq_right c) < n.

#[export] Instance equated_equivalence cs : Equivalence (equated cs).
Proof. split; [intros x; apply rst_refl|intros x y; apply rst_sym|intros x y z; apply rst_trans]. Qed.
Lemma equated_mono cs cs' x y : (forall c, c ∈ cs -> c ∈ cs') -> equated cs x y -> equated cs' x y.
Proof.
  intros Hsub. induction 1 as [x y (c & Hc & -> & ->)| | |x y z _ IH1 _ IH2].
  - apply rst_step. exists c. auto.
  - reflexivity.
  - by symmetry.
  - by transitivity y.
Qed.

(** One more equation joins two classes. *)
Lemma equated_snoc cs c x y :
  equated (cs ++ [c]) x y <-> joined (equated cs) (N.to_nat (eq_left c)) (N.to_nat (eq_right c)) x y.
Proof.
  assert (Hsub : forall x y, equated cs x y -> equated (cs ++ [c]) x y).
  { intros ??. apply equated_mono. intros ??. apply elem_of_app. by left. }
  assert (Hc : equated (cs ++ [c]) (N.to_nat (eq_left c)) (N.to_nat (eq_right c))).
  { apply rst_step. exists c. split; [|done]. apply elem_of_app. right. by apply list_elem_of_singleton. }
  unfold joined. split.
  - induction 1 as [x y (c' & [Hin| ->%list_elem_of_singleton]%elem_of_app & -> & ->)|x|x y _ IH|x y z _ IH1 _ IH2].
    + left. apply rst_step. by exists c'.
    + right. left. split; reflexivity.
    + left. reflexivity.
    + destruct IH as [?|[[??]|[??]]]; [left|right; right|right; left]; try split; by symmetry.
    + destruct IH1 as [?|[[??]|[??]]], IH2 as [?|[[??]|[??]]].
      all: first [left; etransitivity; eassumption
                 |left; do 2 (etransitivity; [eassumption|]); assumption
                 |left; etransitivity; [eassumption|symmetry; etransitivity; [symmetry; eassumption|]; symmetry; eassumption]
                 |right; left; split; first [assumption|etransitivity; eassumption]
                 |right; right; split; first [assumption|etransitivity; eassumption]].
  - intros [?|[[H1 H2]|[H1 H2]]]; [by apply Hsub|..].
    + rewrite (Hsub _ _ H1), Hc. by apply Hsub.
    + rewrite (Hsub _ _ H1), <- Hc. by apply Hsub.
Qed.

Lemma union_all_spec n cs done_ uf : uf_wf uf -> length (parent uf) = n -> Forall (in_range n) cs ->
  (forall x y, x < n -> y < n -> same_tree (parent uf) x y <-> equated done_ x y) ->
  exists uf', union_all uf cs = Some uf' /\ uf_wf uf' /\ length (parent uf') = n /\
    (forall x y, x < n -> y < n -> same_tree (parent uf') x y <-> equated (done_ ++ cs) x y).
Proof.
  revert uf done_. induction cs as [|c cs IH]; intros uf done_ Hwf Hn Hf He; cbn [union_all].
  { exists uf. by rewrite app_nil_r. }
  apply Forall_cons in Hf as [[Hl Hr] Hf].
  destruct (union_wf uf (N.to_nat (eq_left c)) (N.to_nat (eq_right c)) Hwf) as (uf1 & fresh & -> & Hwf1 & Hn1 & _ & Ht); [lia..|].
  cbn [mbind option_bind]. destruct (IH uf1 (done_ ++ [c])) as (uf2 & -> & ? & ? & Ht2); [done|lia|done| |].
  - intros x y Hx Hy. rewrite Ht, equated_snoc. unfold joined. by rewrite !He by lia.
  - exists uf2. split_and!; [done|done|done|]. by rewrite <- app_assoc in Ht2.
Qed.

Lemma new_trees n x y : x < n -> y < n -> same_tree (parent (uf_new n)) x y <-> equated [] x y.
Proof.
  intros Hx Hy. split.
  - intros (r & d & d' & H1 & H2). destruct (root_in_det _ _ _ _ (uf_new_root n x Hx) _ _ H1) as [<- _].
    destruct (root_in_det _ _ _ _ (uf_new_root n y Hy) _ _ H2) as [<- _]. reflexivity.
  - intros He. assert (x = y) as ->.
    { clear Hx Hy. induction He as [x y (c & Hc & _)| | |]; [by apply not_elem_of_nil in Hc|done|done|congruence]. }
    exists y, 0, 0. split; by apply uf_new_root.
Qed.

Lemma validate_from_spec i n cs :
  match validate_from i n cs with
  | inr _ => Forall (in_range n) cs
  | inl (OutOfRange k l r m) => m = n /\ i <= k /\ cs !! (k - i) = Some (MkEq l r) /\ ~ in_range n (MkEq l r) /\
      Forall (in_range n) (take (k - i) cs)
  end.
Proof.
  revert i. induction cs as [|c cs IH]; intros i; cbn; [constructor|].
  destruct ((n <=? N.to_nat (eq_left c)) || (n <=? N.to_nat (eq_right c))) eqn:E.
  - rewrite Nat.sub_diag. cbn. split_and!; [done|done|by destruct c| |constructor].
    apply orb_true_iff in E. unfold in_range. cbn. rewrite !Nat.leb_le in E. lia.
  - apply orb_false_iff in E. rewrite !Nat.leb_gt in E. specialize (IH (S i)).
    destruct (validate_from (S i) n cs) as [[k l r m]|]; [|by constructor].
    destruct IH as (-> & Hk & Hl & Hb & Hf). replace (k - i) with (S (k - S i)) by lia. cbn. split_and!; [done|lia|done|done|].
    by constructor.
Qed.

Lemma as_u32_inj n x y : (N.of_nat n <= 2 ^ 32)%N -> x < n -> y < n -> as_u32 x = as_u32 y -> x = y.
Proof. unfold as_u32. intros Hn Hx Hy. rewrite !N.mod_small by lia. lia. Qed.

(** the equality solver never panics.  Without an error the labels of two
    variables agree exactly when the constraints force the variables equal (the
    equivalence they generate); otherwise the error names the first constraint
    out of range. *)
Theorem solve_constraints_exact (n : nat) (cs : list EqualityConstraint) : (N.of_nat n <= 2 ^ 32)%N ->
  exists res, solve_constraints_cpu n cs = Some res /\
    match res with
    | inr out => Forall (in_range n) cs /\ length out = n /\
        forall i j, i < n -> j < n -> out !! i = out !! j <-> equated cs i j
    | inl (OutOfRange k l r m) => m = n /\ cs !! k = Some (MkEq l r) /\ ~ in_range n (MkEq l r) /\
        Forall (in_range n) (take k cs)
    end.
Proof.
  intros Hn. unfold solve_constraints_cpu, validate_constraints. pose proof (validate_from_spec 0 n cs) as Hv.
  destruct (validate_from 0 n cs) as [[k l r m]|[]].
  { eexists. split; [reflexivity|]. rewrite Nat.sub_0_r in Hv. tauto. }
  destruct (union_all_spec n cs [] (uf_new n) (uf_new_wf n)) as (uf & -> & Hwf & Hlen & Ht);
    [cbn; by rewrite length_seq|done|by intros; apply new_trees|]. cbn [mbind option_bind app] in *.
  destruct (labels_spec uf Hwf) as (uf' & ls & -> & Hl & Hb & Hls). cbn. eexists. split; [reflexivity|].
  rewrite Hlen in *. split_and!; [done|by rewrite length_map|]. intros i j Hi Hj. rewrite <- Ht, <- Hls by done.
  destruct (lookup_lt_is_Some_2 ls i ltac:(lia)) as [x Hx]. destruct (lookup_lt_is_Some_2 ls j ltac:(lia)) as [y Hy].
  rewrite !list_lookup_fmap, Hx, Hy. cbn. rewrite Forall_lookup in Hb. split; [|congruence].
  intros [= He]. f_equal. apply (as_u32_inj n); [done|by apply (Hb i)|by apply (Hb j)|done].
Qed.
Lemma solve_constraints_exact_witness :
  (N.of_nat 4 <= 2 ^ 32)%N /\ solve_constraints_cpu 4 [MkEq 0 1; MkEq 3 1] = Some (inr [0; 0; 2; 0])%N /\
  solve_constraints_cpu 4 [MkEq 0 1; MkEq 0 9] = Some (inl (OutOfRange 1 0 9 4)) /\
  exists res, solve_constraints_cpu 4 [MkEq 0 1; MkEq 3 1] = Some res /\
    match res with
    | inr out => Forall (in_range 4) [MkEq 0 1; MkEq 3 1] /\ length out = 4 /\
        forall i j, i < 4 -> j < 4 -> out !! i = out !! j <-> equated [MkEq 0 1; MkEq 3 1] i j
    | inl (OutOfRange k l r m) => m = 4 /\ [MkEq 0 1; MkEq 3 1] !! k = Some (MkEq l r) /\ ~ in_range 4 (MkEq l r) /\
        Forall (in_range 4) (take k [MkEq 0 1; MkEq 3 1])
    end.
Proof. split_and!; [lia|reflexivity|reflexivity|]. apply (solve_constraints_exact 4 [MkEq 0 1; MkEq 3 1]). lia. Defined.
