(* ===== verification/Merkle.v ===== *)
(** * Merkle trees ([algorithms/src/cryptography/merkle_tree.rs])

    The flat tree of digests, its membership proofs and their verification.
    The hash function of the [sha2] crate is the parameter [sha256]; the only
    thing assumed of it, where it matters, is the length of a digest. *)
From Stdlib Require Import Strings.Byte.
From S2P Require Import Prelude AlgoSort AlgoSortProps.

Definition HASH_SIZE : nat := 32.

Record MerkleTree := MkMerkle { mt_nodes : list (list byte); leaf_count : nat }.

(** [usize::is_power_of_two]. *)
Definition is_power_of_two (n : nat) : bool := bool_decide (0 < n /\ 2 ^ Nat.log2 n = n).

(** Assignment to a cell; [None] is an index out of range. *)
Definition set_at {A} (i : nat) (x : A) (l : list A) : option (list A) :=
  if i <? length l then Some (<[ i := x ]> l) else None.

Section Merkle.
Context (sha256 : list byte -> list byte).

Definition hash_leaf (l : nat) (nodes : list (list byte)) (ib : nat * list byte) : option (list (list byte)) :=
  set_at (l + fst ib) (sha256 (snd ib)) nodes.
Definition hash_parent (nodes : list (list byte)) (j : nat) : option (list (list byte)) :=
  a ← nodes !! (2 * j); b ← nodes !! (2 * j + 1); set_at j (sha256 (a ++ b)) nodes.

(** [build]; [None] is the assertion. *)
Definition build (blocks : list (list byte)) : option MerkleTree :=
  let l := length blocks in
  if is_power_of_two l then
    let nodes := replicate (2 * l) (replicate HASH_SIZE x00) in
    nodes ← fold_option (hash_leaf l) nodes (imap pair blocks);
    nodes ← fold_option hash_parent nodes (reverse (seq 1 (l - 1)));
    Some (MkMerkle nodes l)
  else None.

Definition root (t : MerkleTree) : option (list byte) := mt_nodes t !! 1.

(** The loop of [proof]; the index halves, so it is enough fuel. *)
Fixpoint proof_loop (fuel : nat) (nodes : list (list byte)) (i : nat) : option (list (list byte)) :=
  match fuel with
  | O => None
  | S fuel' =>
      if 1 <? i then
        let sibling := if i mod 2 =? 0 then i + 1 else i - 1 in
        d ← nodes !! sibling; path ← proof_loop fuel' nodes (i / 2); Some (d :: path)
      else Some []
  end.
Definition proof (t : MerkleTree) (i : nat) : option (list (list byte)) :=
  let i := i + leaf_count t in proof_loop (S i) (mt_nodes t) i.

(** The loop of [verify]. *)
Fixpoint climb (current : list byte) (index : nat) (prf : list (list byte)) : list byte :=
  match prf with
  | [] => current
  | sibling :: prf =>
      climb (if index mod 2 =? 0 then sha256 (current ++ sibling) else sha256 (sibling ++ current)) (index / 2) prf
  end.
Definition verify (leaf_data : list byte) (index leaf_count : nat) (prf : list (list byte)) (root : list byte) : bool :=
  bool_decide (climb (sha256 leaf_data) (index + leaf_count) prf = root).

(** ** The tree *)

Definition merkle_ok (blocks nodes : list (list byte)) : Prop :=
  length nodes = 2 * length blocks /\
  (forall i b, blocks !! i = Some b -> nodes !! (length blocks + i) = Some (sha256 b)) /\
  (forall j, 1 <= j -> j < length blocks -> exists a b,
     nodes !! (2 * j) = Some a /\ nodes !! (2 * j + 1) = Some b /\ nodes !! j = Some (sha256 (a ++ b))).

Lemma set_at_ok {A} i (x : A) l : i < length l -> set_at i x l = Some (<[ i := x ]> l).
Proof. intros Hi. unfold set_at. by rewrite (proj2 (Nat.ltb_lt _ _) Hi). Qed.

Lemma hash_leaves_spec l blocks k nodes : k + length blocks <= l -> length nodes = 2 * l ->
  exists nodes', fold_option (hash_leaf l) nodes (imap (fun i b => (k + i, b)) blocks) = Some nodes' /\ length nodes' = 2 * l /\
    (forall i b, blocks !! i = Some b -> nodes' !! (l + (k + i)) = Some (sha256 b)) /\
    (forall j, j < l + k -> nodes' !! j = nodes !! j).
Proof.
  revert k nodes. induction blocks as [|b blocks IH]; intros k nodes Hk Hl; [by exists nodes|]. cbn [length] in Hk.
  cbn [imap]. rewrite fold_option_cons. unfold hash_leaf at 1. cbn [fst snd]. rewrite Nat.add_0_r, set_at_ok by lia.
  replace (imap ((fun i b => (k + i, b)) ∘ S) blocks) with (imap (fun i b => (S k + i, b)) blocks)
    by (apply imap_ext; intros; cbn; f_equal; lia).
  destruct (IH (S k) (<[ l + k := sha256 b ]> nodes)) as (nodes' & -> & Hl' & Hin & Hout); [lia|by rewrite length_insert|].
  exists nodes'. split_and!; [done|done| |].
  - intros [|i] c Hc; cbn in Hc.
    + simplify_eq. rewrite Nat.add_0_r, Hout by lia. apply list_lookup_insert_eq. lia.
    + rewrite <- (Hin i c Hc). f_equal. lia.
  - intros j Hj. rewrite Hout by lia. apply list_lookup_insert_ne. lia.
Qed.

Lemma hash_parents_spec l m nodes : length nodes = 2 * l -> m < l ->
  (forall j, m < j -> j < l -> exists a b, nodes !! (2 * j) = Some a /\ nodes !! (2 * j + 1) = Some b /\ nodes !! j = Some (sha256 (a ++ b))) ->
  exists nodes', fold_option hash_parent nodes (reverse (seq 1 m)) = Some nodes' /\ length nodes' = 2 * l /\
    (forall j, l <= j -> nodes' !! j = nodes !! j) /\
    (forall j, 1 <= j -> j < l -> exists a b, nodes' !! (2 * j) = Some a /\ nodes' !! (2 * j + 1) = Some b /\ nodes' !! j = Some (sha256 (a ++ b))).
Proof.
  revert nodes. induction m as [|m IH]; intros nodes Hl Hm Hok; [by exists nodes|].
  rewrite seq_S, reverse_app. change (reverse [1 + m]) with [S m]. cbn [app]. rewrite fold_option_cons. unfold hash_parent at 1.
  destruct (lookup_lt_is_Some_2 nodes (2 * S m) ltac:(lia)) as [a Ha]. destruct (lookup_lt_is_Some_2 nodes (2 * S m + 1) ltac:(lia)) as [b Hb].
  rewrite Ha, Hb. cbn [mbind option_bind]. rewrite set_at_ok by lia.
  destruct (IH (<[ S m := sha256 (a ++ b) ]> nodes)) as (nodes' & -> & Hl' & Hout & Hin); [by rewrite length_insert|lia| |].
  - intros j Hj Hjl. destruct (decide (j = S m)) as [->|Hne].
    + exists a, b. rewrite list_lookup_insert_eq by lia. rewrite !list_lookup_insert_ne by lia. done.
    + rewrite !list_lookup_insert_ne by lia. apply Hok; lia.
  - exists nodes'. split_and!; [done|done| |done]. intros j Hj. rewrite Hout by done. apply list_lookup_insert_ne. lia.
Qed.

Lemma build_spec blocks : is_power_of_two (length blocks) = true ->
  exists nodes, build blocks = Some (MkMerkle nodes (length blocks)) /\ merkle_ok blocks nodes.
Proof.
  intros Hp. unfold build. rewrite Hp. apply bool_decide_eq_true in Hp as [Hpos _].
  destruct (hash_leaves_spec (length blocks) blocks 0 (replicate (2 * length blocks) (replicate HASH_SIZE x00))) as (n1 & H1 & Hl1 & Hin1 & _);
    [lia|by rewrite length_replicate|].
  change (imap pair blocks) with (imap (fun i b => (0 + i, b)) blocks). rewrite H1. cbn [mbind option_bind].
  destruct (hash_parents_spec (length blocks) (length blocks - 1) n1) as (n2 & -> & Hl2 & Hout & Hpar); [done|lia|lia|].
  exists n2. split; [done|]. split_and!; [done| |done]. intros i b Hb. rewrite Hout by lia. by apply Hin1.
Qed.

(** ** Verification against the tree *)

Lemma child_cases k : 1 < k -> (k mod 2 = 0 /\ k = 2 * (k / 2)) \/ (k mod 2 = 1 /\ k = 2 * (k / 2) + 1).
Proof. intros Hk. pose proof (Nat.div_mod_eq k 2). pose proof (Nat.mod_upper_bound k 2). lia. Qed.

Lemma proof_climb blocks nodes fuel k d : merkle_ok blocks nodes -> 1 <= k -> k < 2 * length blocks -> k < fuel -> nodes !! k = Some d ->
  exists path r, proof_loop fuel nodes k = Some path /\ nodes !! 1 = Some r /\ climb d k path = r.
Proof.
  intros (Hlen & _ & Hpar). revert k d. induction fuel as [|fuel IH]; intros k d H1 Hk Hf Hd; [lia|]. cbn [proof_loop].
  destruct (1 <? k) eqn:E; [|apply Nat.ltb_ge in E; assert (k = 1) as -> by lia; by exists [], d]. apply Nat.ltb_lt in E.
  pose proof (Nat.div_mod_eq k 2). pose proof (Nat.mod_upper_bound k 2).
  destruct (Hpar (k / 2)) as (a & b & Ha & Hb & Hj); [lia|lia|].
  destruct (IH (k / 2) (sha256 (a ++ b))) as (path & r & -> & Hr & Hclimb); [lia|lia|lia|done|].
  destruct (child_cases k E) as [[Hm Hk2]|[Hm Hk2]]; rewrite Hm; cbn [Nat.eqb].
  - replace (k + 1) with (2 * (k / 2) + 1) by lia. rewrite Hb. cbn [mbind option_bind]. exists (b :: path), r. split_and!; [done|done|].
    cbn [climb]. rewrite Hm. cbn [Nat.eqb]. rewrite Hk2, Ha in Hd. injection Hd as <-. done.
  - replace (k - 1) with (2 * (k / 2)) by lia. rewrite Ha. cbn [mbind option_bind]. exists (a :: path), r. split_and!; [done|done|].
    cbn [climb]. rewrite Hm. cbn [Nat.eqb]. rewrite Hk2, Hb in Hd. injection Hd as <-. done.
Qed.

(** Two different strings with one digest. *)
Definition collision : Prop := exists x y, x <> y /\ sha256 x = sha256 y.

Lemma sha_inj x y : sha256 x = sha256 y -> x = y \/ collision.
Proof. intros H. destruct (decide (x = y)); [by left|]. right. by exists x, y. Qed.

(** A digest that climbs to the root is the node's, or exhibits a collision. *)
Lemma climb_sound blocks nodes fuel k d r cur path prf : (forall x, length (sha256 x) = HASH_SIZE) ->
  merkle_ok blocks nodes -> 1 <= k -> k < 2 * length blocks -> k < fuel -> nodes !! k = Some d -> nodes !! 1 = Some r ->
  length cur = HASH_SIZE -> Forall (fun s => length s = HASH_SIZE) prf ->
  proof_loop fuel nodes k = Some path -> length prf = length path -> climb cur k prf = r -> cur = d \/ collision.
Proof.
  intros Hsha Hok. destruct (id Hok) as (Hlen & Hleaf & Hpar).
  assert (Hsize : forall j e, 1 <= j -> j < 2 * length blocks -> nodes !! j = Some e -> length e = HASH_SIZE).
  { intros j e H1 Hj He. destruct (decide (j < length blocks)) as [Hlt|Hge].
    - destruct (Hpar j H1 Hlt) as (a & b & _ & _ & Hj'). simplify_eq. apply Hsha.
    - destruct (lookup_lt_is_Some_2 blocks (j - length blocks) ltac:(lia)) as [b Hb].
      specialize (Hleaf _ _ Hb). replace (length blocks + (j - length blocks)) with j in Hleaf by lia. simplify_eq. apply Hsha. }
  revert k d cur path prf. induction fuel as [|fuel IH]; intros k d cur path prf H1 Hk Hf Hd Hr Hcur Hprf Hpath Hl Hclimb; [lia|].
  cbn [proof_loop] in Hpath. destruct (1 <? k) eqn:E.
  2: { apply Nat.ltb_ge in E. assert (k = 1) as -> by lia. simplify_eq. destruct prf; [|done]. cbn. by left. }
  apply Nat.ltb_lt in E. pose proof (Nat.div_mod_eq k 2). pose proof (Nat.mod_upper_bound k 2).
  destruct (Hpar (k / 2)) as (a & b & Ha & Hb & Hj); [lia|lia|].
  destruct (nodes !! (if k mod 2 =? 0 then k + 1 else k - 1)) as [sib|]; [|done]. cbn [mbind option_bind] in Hpath.
  destruct (proof_loop fuel nodes (k / 2)) as [path'|] eqn:Hp'; [|done]. injection Hpath as <-.
  destruct prf as [|s prf]; [done|]. apply Forall_cons in Hprf as [Hs Hprf]. cbn [climb] in Hclimb. injection Hl as Hl.
  assert (Ha32 : length a = HASH_SIZE) by (apply (Hsize (2 * (k / 2))); [lia|lia|done]).
  destruct (child_cases k E) as [[Hm Hk2]|[Hm Hk2]]; rewrite Hm in Hclimb; cbn [Nat.eqb] in Hclimb.
  - destruct (IH (k / 2) (sha256 (a ++ b)) (sha256 (cur ++ s)) path' prf) as [He|]; [lia|lia|lia|done|done|apply Hsha|done..| |by right].
    apply sha_inj in He as [He|]; [|by right]. apply app_inj_1 in He as [-> _]; [|congruence]. left. congruence.
  - destruct (IH (k / 2) (sha256 (a ++ b)) (sha256 (s ++ cur)) path' prf) as [He|]; [lia|lia|lia|done|done|apply Hsha|done..| |by right].
    apply sha_inj in He as [He|]; [|by right]. apply app_inj_1 in He as [_ ->]; [|congruence]. left. congruence.
Qed.

(** for every block of a tree with a power of two of blocks, [proof]
    yields a path (no panic) that [verify] accepts against the [root]. *)
Theorem merkle_proof_verifies (blocks : list (list byte)) (i : nat) (b : list byte) :
  is_power_of_two (length blocks) = true -> blocks !! i = Some b ->
  exists t path r, build blocks = Some t /\ proof t i = Some path /\ root t = Some r /\
    verify b i (length blocks) path r = true.
Proof.
  intros Hp Hb. destruct (build_spec blocks Hp) as (nodes & Hbuild & Hok). apply lookup_lt_Some in Hb as Hi.
  destruct (proof_climb blocks nodes (S (i + length blocks)) (i + length blocks) (sha256 b) Hok) as (path & r & Hpath & Hr & Hc);
    [lia|lia|lia|rewrite Nat.add_comm; by apply Hok|].
  eexists _, path, r. split_and!; [done|done|done|]. by apply bool_decide_eq_true.
Qed.

(** soundness: data accepted by [verify] at a position of the tree, with a
    path of the length [proof] gives there, is the block at that position, or
    the acceptance exhibits a collision of the hash function. *)
Theorem merkle_verify_sound (blocks : list (list byte)) (i : nat) (b data : list byte) (prf : list (list byte)) :
  (forall x, length (sha256 x) = HASH_SIZE) -> is_power_of_two (length blocks) = true -> blocks !! i = Some b ->
  Forall (fun s => length s = HASH_SIZE) prf ->
  forall t path r, build blocks = Some t -> proof t i = Some path -> length prf = length path -> root t = Some r ->
  verify data i (length blocks) prf r = true -> data = b \/ collision.
Proof.
  intros Hsha Hp Hb Hprf t path r Ht Hpath Hl Hr Hv. destruct (build_spec blocks Hp) as (nodes & Hbuild & Hok).
  rewrite Hbuild in Ht. injection Ht as <-. apply lookup_lt_Some in Hb as Hi. apply bool_decide_eq_true in Hv.
  destruct (climb_sound blocks nodes (S (i + length blocks)) (i + length blocks) (sha256 b) r (sha256 data) path prf) as [He|];
    [done|done|lia|lia|lia|rewrite Nat.add_comm; by apply Hok|done|apply Hsha|done..| |by right].
  by apply sha_inj.
Qed.

(** The length of the path matters: an inner node's children, concatenated,
    pass as a leaf with the empty path, at every claimed position. *)
Lemma merkle_short_path blocks : is_power_of_two (length blocks) = true -> 1 < length blocks ->
  exists t a b r, build blocks = Some t /\ mt_nodes t !! 2 = Some a /\ mt_nodes t !! 3 = Some b /\ root t = Some r /\
    forall i, verify (a ++ b) i (length blocks) [] r = true.
Proof.
  intros Hp Hl. destruct (build_spec blocks Hp) as (nodes & Hbuild & (_ & _ & Hpar)).
  destruct (Hpar 1) as (a & b & Ha & Hb & Hr); [lia|lia|]. eexists _, a, b, _. split_and!; [done|done|done|done|].
  intros i. by apply bool_decide_eq_true.
Qed.
End Merkle.

(** A stand-in hash for concrete runs: the first 32 bytes, padded. *)
Definition pad32 (l : list byte) : list byte := take HASH_SIZE (l ++ replicate HASH_SIZE x00).
Lemma length_pad32 l : length (pad32 l) = HASH_SIZE.
Proof. unfold pad32. rewrite length_take, length_app, length_replicate. unfold HASH_SIZE. lia. Qed.

Lemma merkle_proof_verifies_witness :
  is_power_of_two 2 = true /\ [[x01]; [x02]] !! 1 = Some [x02] /\
  exists t path r, build pad32 [[x01]; [x02]] = Some t /\ proof t 1 = Some path /\ root t = Some r /\
    verify pad32 [x02] 1 2 path r = true.
Proof.
  split; [reflexivity|]. split; [reflexivity|]. apply (merkle_proof_verifies pad32 [[x01]; [x02]] 1 [x02]); reflexivity.
Defined.

Lemma merkle_verify_sound_witness :
  exists t path r, build pad32 [[x01]; [x02]] = Some t /\ proof t 1 = Some path /\ root t = Some r /\
    verify pad32 [x02] 1 2 path r = true /\ ([x02] = [x02] \/ collision pad32).
Proof.
  destruct (build pad32 [[x01]; [x02]]) as [t|] eqn:Ht; [|discriminate].
  destruct (proof t 1) as [path|] eqn:Hp; [|vm_compute in Ht; injection Ht as <-; discriminate].
  destruct (root t) as [r|] eqn:Hr; [|vm_compute in Ht; injection Ht as <-; discriminate].
  assert (Hv : verify pad32 [x02] 1 2 path r = true).
  { vm_compute in Ht. injection Ht as <-. vm_compute in Hp, Hr. injection Hp as <-. injection Hr as <-. reflexivity. }
  exists t, path, r. split_and!; [done|done|done|exact Hv|].
  apply (merkle_verify_sound pad32 [[x01]; [x02]] 1 [x02] [x02] path length_pad32) with t path r; try done.
  vm_compute in Ht. injection Ht as <-. vm_compute in Hp. injection Hp as <-. repeat constructor.
Defined.
