(* ===== verification/HashTable.v ===== *)
(** * The open-addressing hash table ([algorithms/src/data_structures/hash_table.rs])

    Linear probing in a vector whose length is a power of two, doubled at load
    0.7.  The hash of the key type is the parameter [hash] (64 bits).  Insertion
    and lookup behave as a map; removal empties the slot without a tombstone,
    which can hide other keys ([remove_hides_keys]). *)
From S2P Require Import Prelude AlgoSort AlgoSortProps.

Section Table.
Context {K V : Type} `{EqDecision K} (hash : K -> N).

Record HashTable := MkTable { buckets : list (option (K * V)); occupied : nat }.

Definition ht_new : HashTable := MkTable (replicate 16 None) 0.

(** [x & (cap - 1)]. *)
Definition mask (x : N) (cap : nat) : nat := N.to_nat (N.land x (N.of_nat (cap - 1))).
Definition hash_index (cap : nat) (key : K) : nat := mask (hash key) cap.
Definition next_index (cap i : nat) : nat := mask (N.of_nat (i + 1)) cap.

(** The loop that [insert], [get] and [remove] share: the first slot from [i]
    that is empty or holds [key].  [None]: an index out of range, or no such
    slot (the loop of the source does not end). *)
Fixpoint probe (fuel : nat) (b : list (option (K * V))) (key : K) (i : nat) : option nat :=
  match fuel with
  | O => None
  | S fuel' =>
      slot ← b !! i;
      match slot with
      | None => Some i
      | Some (k, _) => if decide (k = key) then Some i else probe fuel' b key (next_index (length b) i)
      end
  end.
Definition probe_from (b : list (option (K * V))) (key : K) : option nat :=
  probe (S (length b)) b key (hash_index (length b) key).

(** The loop of [resize]: the first empty slot. *)
Fixpoint probe_free (fuel : nat) (b : list (option (K * V))) (i : nat) : option nat :=
  match fuel with
  | O => None
  | S fuel' => slot ← b !! i; match slot with None => Some i | Some _ => probe_free fuel' b (next_index (length b) i) end
  end.

Definition rehash (nb : list (option (K * V))) (slot : option (K * V)) : option (list (option (K * V))) :=
  match slot with
  | None => Some nb
  | Some (k, v) =>
      i ← probe_free (S (length nb)) nb (hash_index (length nb) k);
      Some (<[ i := Some (k, v) ]> nb)
  end.
Definition resize (t : HashTable) : option HashTable :=
  nb ← fold_option rehash (replicate (length (buckets t) * 2) None) (buckets t);
  Some (MkTable nb (occupied t)).

Definition ht_insert (t : HashTable) (key : K) (val : V) : option HashTable :=
  t ← (if length (buckets t) * 7 <=? occupied t * 10 then resize t else Some t);
  i ← probe_from (buckets t) key;
  slot ← buckets t !! i;
  let b := <[ i := Some (key, val) ]> (buckets t) in
  match slot with
  | None => Some (MkTable b (occupied t + 1))
  | Some _ => Some (MkTable b (occupied t))
  end.

Definition ht_get (t : HashTable) (key : K) : option (option V) :=
  i ← probe_from (buckets t) key;
  slot ← buckets t !! i;
  Some (match slot with Some (_, v) => Some v | None => None end).

Definition ht_remove (t : HashTable) (key : K) : option (HashTable * bool) :=
  i ← probe_from (buckets t) key;
  slot ← buckets t !! i;
  match slot with
  | None => Some (t, false)
  | Some _ => Some (MkTable (<[ i := None ]> (buckets t)) (occupied t - 1), true)
  end.

Definition ht_len (t : HashTable) : nat := occupied t.
Definition ht_is_empty (t : HashTable) : bool := occupied t =? 0.

(** ** The probe sequence *)

Definition pow2 (n : nat) : Prop := exists e, n = 2 ^ e.
(** Slot number [d] of the probe sequence of [k]. *)
Definition slot_of (cap : nat) (k : K) (d : nat) : nat := (hash_index cap k + d) mod cap.

Lemma pow2_pos n : pow2 n -> 0 < n.
Proof. intros [e ->]. pose proof (Nat.pow_nonzero 2 e). lia. Qed.
Lemma mask_mod x n : pow2 n -> mask x n = N.to_nat (x mod N.of_nat n).
Proof.
  intros [e ->]. unfold mask. f_equal. rewrite Nat2N.inj_sub, Nat2N.inj_pow. change (N.of_nat 2) with 2%N.
  rewrite <- N.land_ones. f_equal. rewrite N.ones_equiv. lia.
Qed.
Lemma hash_index_lt n k : pow2 n -> hash_index n k < n.
Proof. intros Hn. pose proof (pow2_pos n Hn). unfold hash_index. rewrite mask_mod by done. pose proof (N.mod_lt (hash k) (N.of_nat n)). lia. Qed.
Lemma next_index_mod n i : pow2 n -> next_index n i = (i + 1) mod n.
Proof.
  intros Hn. pose proof (pow2_pos n Hn). unfold next_index. rewrite mask_mod by done.
  rewrite N2Nat.inj_mod, !Nat2N.id. done.
Qed.
Lemma slot_of_0 n k : pow2 n -> slot_of n k 0 = hash_index n k.
Proof. intros Hn. unfold slot_of. rewrite Nat.add_0_r. apply Nat.mod_small. by apply hash_index_lt. Qed.
Lemma slot_of_S n k d : pow2 n -> next_index n (slot_of n k d) = slot_of n k (S d).
Proof.
  intros Hn. pose proof (pow2_pos n Hn). rewrite next_index_mod by done. unfold slot_of.
  rewrite Nat.Div0.add_mod_idemp_l. f_equal. lia.
Qed.
Lemma slot_of_lt n k d : pow2 n -> slot_of n k d < n.
Proof. intros Hn. pose proof (pow2_pos n Hn). apply Nat.mod_upper_bound. lia. Qed.
(** The first [n] probes visit every slot. *)
Lemma slot_of_surj n k i : pow2 n -> i < n -> exists d, d < n /\ slot_of n k d = i.
Proof.
  intros Hn Hi. pose proof (hash_index_lt n k Hn) as Hh. unfold slot_of. set (h := hash_index n k) in *.
  destruct (decide (h <= i)).
  - exists (i - h). split; [lia|]. rewrite Nat.mod_small by lia. lia.
  - exists (n - h + i). split; [lia|]. replace (h + (n - h + i)) with (i + 1 * n) by lia.
    rewrite Nat.Div0.mod_add. by apply Nat.mod_small.
Qed.

Lemma slot_of_1_ne n k : pow2 n -> 1 < n -> slot_of n k 1 <> hash_index n k.
Proof.
  intros Hn H1. pose proof (hash_index_lt n k Hn) as Hh. unfold slot_of. destruct (decide (hash_index n k + 1 = n)) as [E|].
  - rewrite E, Nat.Div0.mod_same. lia.
  - rewrite Nat.mod_small by lia. lia.
Qed.

(** The probe for [k] passes [d] full slots of other keys, and ends there. *)
Definition passes (b : list (option (K * V))) (k : K) (d : nat) : Prop :=
  forall d', d' < d -> exists k' v', b !! slot_of (length b) k d' = Some (Some (k', v')) /\ k' <> k.
Definition ends_at (b : list (option (K * V))) (k : K) (d : nat) : Prop :=
  passes b k d /\ (b !! slot_of (length b) k d = Some None \/ exists v, b !! slot_of (length b) k d = Some (Some (k, v))).

Lemma ends_at_0 b k : (b !! slot_of (length b) k 0 = Some None \/ exists v, b !! slot_of (length b) k 0 = Some (Some (k, v))) -> ends_at b k 0.
Proof. intros He. split; [intros d'; lia|done]. Qed.

Lemma probe_run fuel b k d d0 : pow2 (length b) -> ends_at b k d -> d0 <= d -> d - d0 < fuel ->
  probe fuel b k (slot_of (length b) k d0) = Some (slot_of (length b) k d).
Proof.
  intros Hn [Hp He]. revert d0. induction fuel as [|fuel IH]; intros d0 Hd Hf; [lia|]. cbn [probe].
  destruct (decide (d0 = d)) as [->|Hne].
  - destruct He as [He|[v He]]; rewrite He; cbn; [done|]. by rewrite decide_True.
  - destruct (Hp d0 ltac:(lia)) as (k' & v' & Hk & Hkk). rewrite Hk. cbn. rewrite decide_False by done.
    rewrite slot_of_S by done. apply IH; lia.
Qed.

(** With an empty slot, the probe ends within one round. *)
Lemma ends_exists b k i : pow2 (length b) -> b !! i = Some None -> exists d, d < length b /\ ends_at b k d.
Proof.
  intros Hn Hi. apply lookup_lt_Some in Hi as Hlt. destruct (slot_of_surj (length b) k i Hn Hlt) as (d0 & Hd0 & <-).
  assert (Hstep : forall m, (exists d, d < m /\ ends_at b k d) \/ passes b k m).
  { intros m. induction m as [|m [(d & ? & ?)|Hp]]; [right; intros d'; lia|left; exists d; split; [lia|done]|].
    destruct (lookup_lt_is_Some_2 b (slot_of (length b) k m) (slot_of_lt _ _ _ Hn)) as [[[k' v']|] Hm].
    - destruct (decide (k' = k)) as [->|Hne].
      + left. exists m. split; [lia|]. split; [done|right; eauto].
      + right. intros d' Hd'. destruct (decide (d' = m)) as [->|]; [eauto|apply Hp; lia].
    - left. exists m. split; [lia|]. split; [done|by left]. }
  destruct (Hstep (S d0)) as [(d & Hd & He)|Hp]; [exists d; split; [lia|done]|].
  destruct (Hp d0) as (? & ? & ? & _); [lia|]. simplify_eq.
Qed.

(** ** The table invariant *)

(** Every entry lies on its probe sequence, behind full slots of other keys. *)
Definition placed (b : list (option (K * V))) : Prop :=
  forall i k v, b !! i = Some (Some (k, v)) -> exists d, i = slot_of (length b) k d /\ passes b k d.
Definition holds (b : list (option (K * V))) (k : K) (v : V) : Prop := exists i, b !! i = Some (Some (k, v)).
Definition live (b : list (option (K * V))) : nat := length (filter is_Some b).

Lemma placed_ends b k v i d : placed b -> ends_at b k d -> b !! i = Some (Some (k, v)) -> i = slot_of (length b) k d.
Proof.
  intros Hp [Hd He] Hi. destruct (Hp i k v Hi) as (d' & -> & Hd').
  destruct (Nat.lt_trichotomy d' d) as [Hlt|[->|Hlt]]; [|done|].
  - destruct (Hd d' Hlt) as (? & ? & ? & ?). simplify_eq.
  - destruct (Hd' d Hlt) as (k' & v' & Hs & Hne). destruct He as [He|[w He]]; simplify_eq.
Qed.

Lemma live_insert b i k v : i < length b -> live (<[ i := Some (k, v) ]> b) = (if b !! i is Some None then S (live b) else live b).
Proof.
  intros Hi. destruct (lookup_lt_is_Some_2 b i Hi) as [s Hs]. rewrite Hs.
  assert (Hb : live b = length (filter is_Some (take i b)) + length (filter is_Some (s :: drop (S i) b)))
    by (unfold live; rewrite <- (take_drop_middle b i s Hs) at 1; by rewrite filter_app, length_app).
  rewrite Hb, insert_take_drop by done. unfold live. rewrite filter_app, !filter_cons, length_app.
  rewrite (decide_True (P := is_Some (Some (k, v)))) by eauto. cbn [length].
  destruct s as [[k' v']|].
  - rewrite (decide_True (P := is_Some (Some (k', v')))) by eauto. done.
  - rewrite (decide_False (P := is_Some None)) by (by intros []). lia.
Qed.
Lemma live_free b : live b < length b -> exists i, b !! i = Some None.
Proof.
  unfold live. induction b as [|[x|] b IH]; [cbn; lia| |by exists 0].
  rewrite filter_cons, decide_True by eauto. cbn [length]. intros Hl. destruct IH as [i Hi]; [lia|]. by exists (S i).
Qed.
Lemma live_replicate n : live (replicate n None) = 0.
Proof. unfold live. induction n as [|n IH]; [done|]. cbn [replicate]. by rewrite filter_cons, decide_False by (by intros []). Qed.

(** Filling the slot where the probe for [k] ends. *)
Lemma insert_placed b k v d : pow2 (length b) -> placed b -> ends_at b k d ->
  let b' := <[ slot_of (length b) k d := Some (k, v) ]> b in
  placed b' /\ forall k' v', holds b' k' v' <-> if decide (k' = k) then v' = v else holds b k' v'.
Proof.
  intros Hn Hp Hd b'. set (i := slot_of (length b) k d) in *. pose proof (slot_of_lt (length b) k d Hn) as Hi. fold i in Hi.
  assert (Hlen : length b' = length b) by apply length_insert.
  assert (Hat : b' !! i = Some (Some (k, v))) by (by apply list_lookup_insert_eq).
  assert (Hoff : forall j, j <> i -> b' !! j = b !! j) by (intros; by apply list_lookup_insert_ne).
  assert (Hkeep : forall k2 e, passes b k2 e -> passes b' k2 e).
  { intros k2 e He e' He'. destruct (He e' He') as (k' & v' & Hs & Hne). rewrite Hlen.
    destruct (decide (slot_of (length b) k2 e' = i)) as [Ei|Ei].
    - rewrite Ei in Hs |- *. rewrite Hat. destruct (proj2 Hd) as [Hx|[w Hx]]; fold i in Hx; simplify_eq. by eexists _, _.
    - rewrite Hoff by done. by exists k', v'. }
  split.
  - intros j k' v' Hj. rewrite Hlen. destruct (decide (j = i)) as [->|Hne].
    + simplify_eq. exists d. split; [done|]. apply Hkeep, Hd.
    + rewrite Hoff in Hj by done. destruct (Hp j k' v' Hj) as (e & -> & He). exists e. split; [done|by apply Hkeep].
  - intros k' v'. case_decide as Hk.
    + subst. split; [|intros ->; by exists i]. intros [j Hj]. destruct (decide (j = i)) as [->|Hne]; [by simplify_eq|].
      rewrite Hoff in Hj by done. destruct Hne. by eapply placed_ends.
    + split; intros [j Hj]; exists j.
      * destruct (decide (j = i)) as [->|Hne]; [simplify_eq|by rewrite <- Hoff].
      * rewrite Hoff; [done|]. intros ->. destruct (proj2 Hd) as [Hx|[w Hx]]; fold i in Hx; simplify_eq.
Qed.

Lemma probe_from_ends b k d : pow2 (length b) -> ends_at b k d -> d < length b ->
  probe_from b k = Some (slot_of (length b) k d).
Proof. intros Hn Hd Hl. unfold probe_from. rewrite <- (slot_of_0 (length b) k Hn). apply probe_run; [done|done|lia|lia]. Qed.

(** Resizing keeps the entries. *)
Lemma probe_free_run fuel b k d d0 : pow2 (length b) -> ends_at b k d -> (forall v, ~ holds b k v) -> d0 <= d -> d - d0 < fuel ->
  probe_free fuel b (slot_of (length b) k d0) = Some (slot_of (length b) k d).
Proof.
  intros Hn [Hp He] Hno. revert d0. induction fuel as [|fuel IH]; intros d0 Hd Hf; [lia|]. cbn [probe_free].
  destruct (decide (d0 = d)) as [->|Hne].
  - destruct He as [He|[v He]]; [by rewrite He|]. by destruct (Hno v); eexists.
  - destruct (Hp d0 ltac:(lia)) as (k' & v' & Hk & Hkk). rewrite Hk. cbn. rewrite slot_of_S by done. apply IH; lia.
Qed.

Lemma rehash_spec nb k v : pow2 (length nb) -> placed nb -> live nb < length nb -> (forall w, ~ holds nb k w) ->
  exists nb', rehash nb (Some (k, v)) = Some nb' /\ length nb' = length nb /\ placed nb' /\ live nb' = S (live nb) /\
    forall k' v', holds nb' k' v' <-> if decide (k' = k) then v' = v else holds nb k' v'.
Proof.
  intros Hn Hp Hl Hno. destruct (live_free nb Hl) as [i Hi]. destruct (ends_exists nb k i Hn Hi) as (d & Hd & He).
  unfold rehash. rewrite <- (slot_of_0 (length nb) k Hn), (probe_free_run (S (length nb)) nb k d 0) by (done || lia). cbn [mbind option_bind].
  eexists. split; [done|]. split; [apply length_insert|]. destruct (insert_placed nb k v d Hn Hp He) as [Hp' Hh].
  split_and!; [done| |done]. rewrite live_insert by (by apply slot_of_lt).
  destruct (proj2 He) as [Hx|[w Hx]]; rewrite Hx; [done|]. by destruct (Hno w); eexists.
Qed.

Lemma rehash_all b nb : pow2 (length nb) -> placed nb -> live nb + live b < length nb ->
  (forall i j k v w, b !! i = Some (Some (k, v)) -> b !! j = Some (Some (k, w)) -> i = j) ->
  (forall k v w, holds b k v -> ~ holds nb k w) ->
  exists nb', fold_option rehash nb b = Some nb' /\ length nb' = length nb /\ placed nb' /\ live nb' = live nb + live b /\
    forall k v, holds nb' k v <-> holds nb k v \/ holds b k v.
Proof.
  revert nb. induction b as [|s b IH]; intros nb Hn Hp Hl Huniq Hdis.
  { exists nb. split_and!; [done|done|done|cbn; lia|]. intros k v. split; [auto|]. intros [|[i Hi]]; [done|by destruct i]. }
  assert (Hlc : live (s :: b) = (if s is Some _ then 1 else 0) + live b).
  { unfold live. rewrite filter_cons. destruct s; [by rewrite decide_True by eauto|by rewrite decide_False by (by intros [])]. }
  assert (Hc : forall k v, holds (s :: b) k v <-> s = Some (k, v) \/ holds b k v).
  { intros k v. split; [intros [[|i] Hi]; [left; by injection Hi|right; by exists i]|]. intros [-> |[i Hi]]; [by exists 0|by exists (S i)]. }
  assert (Huniq' : forall i j k v w, b !! i = Some (Some (k, v)) -> b !! j = Some (Some (k, w)) -> i = j).
  { intros i j k v w Hi Hj. assert (S i = S j) by (by apply (Huniq (S i) (S j) k v w)). lia. }
  rewrite fold_option_cons. destruct s as [[k v]|].
  - destruct (rehash_spec nb k v) as (nb1 & -> & Hl1 & Hp1 & Hlv & Hh); [done|done|lia|by intros w; apply (Hdis k v), Hc; left|].
    destruct (IH nb1) as (nb' & -> & Hl2 & Hp2 & Hlv2 & Hh2); [by rewrite Hl1|done|lia|done| |].
    + intros k' v' w Hb. rewrite Hh. case_decide as Hk.
      * subst. destruct Hb as [j Hj]. assert (0 = S j) by (by apply (Huniq 0 (S j) k v v')). lia.
      * apply (Hdis k' v'), Hc. by right.
    + exists nb'. split_and!; [done|congruence|done|lia|]. intros k' v'. rewrite Hh2, Hh, Hc. case_decide as Hk; [subst|naive_solver].
      split; [naive_solver|]. intros [Hx|Hx]; [|naive_solver]. exfalso. apply (Hdis k v v'); [apply Hc; by left|done].
  - destruct (IH nb) as (nb' & Hf & Hl2 & Hp2 & Hlv2 & Hh2); [done|done|lia|done| |].
    + intros k' v' w Hb. apply (Hdis k' v'), Hc. by right.
    + cbn [rehash]. exists nb'. split_and!; [done|done|done|lia|]. intros k' v'. rewrite Hh2, Hc. naive_solver.
Qed.

(** ** The table as a map *)

Definition ht_wf (t : HashTable) : Prop :=
  pow2 (length (buckets t)) /\ 16 <= length (buckets t) /\ placed (buckets t) /\
  occupied t = live (buckets t) /\ occupied t < length (buckets t).

Lemma placed_unique b i j k v w : placed b -> pow2 (length b) ->
  b !! i = Some (Some (k, v)) -> b !! j = Some (Some (k, w)) -> i = j.
Proof.
  intros Hp Hn Hi Hj. destruct (Hp i k v Hi) as (d & -> & Hd). symmetry.
  apply (placed_ends b k w j d Hp); [|done]. split; [done|right; by exists v].
Qed.
Lemma placed_fun b k v w : placed b -> pow2 (length b) -> holds b k v -> holds b k w -> v = w.
Proof. intros Hp Hn [i Hi] [j Hj]. rewrite (placed_unique b i j k v w) in Hi by done. by simplify_eq. Qed.

Lemma resize_spec t : ht_wf t ->
  exists t', resize t = Some t' /\ ht_wf t' /\ length (buckets t') = 2 * length (buckets t) /\ occupied t' = occupied t /\
    forall k v, holds (buckets t') k v <-> holds (buckets t) k v.
Proof.
  intros (Hn & H16 & Hp & Ho & Hl). unfold resize. set (nb := replicate (length (buckets t) * 2) (@None (K * V))).
  assert (Hnb : length nb = length (buckets t) * 2) by apply length_replicate.
  assert (Hno : forall k v, ~ holds nb k v) by (intros k v [i Hi]; by apply lookup_replicate in Hi as [? _]).
  assert (Hn2 : pow2 (length nb)) by (rewrite Hnb; destruct Hn as [e ->]; exists (S e); cbn; lia).
  assert (Hl0 : live nb = 0) by apply live_replicate.
  destruct (rehash_all (buckets t) nb) as (nb' & -> & Hl' & Hp' & Hlv & Hh); [done| |lia| |by intros k v w _; apply Hno|].
  - intros i k v Hi. by apply lookup_replicate in Hi as [? _].
  - intros i j k v w. by apply placed_unique.
  - eexists. split; [done|]. split_and!; cbn [buckets occupied]; [split_and!; cbn [buckets occupied]; [by rewrite Hl'|lia|done|lia|lia]|lia|done|].
    intros k v. rewrite Hh. split; [intros [H|]; [by apply Hno in H|done]|by right].
Qed.

(** [insert] sets the key and keeps the others. *)
Lemma ht_insert_spec t k v : ht_wf t ->
  exists t', ht_insert t k v = Some t' /\ ht_wf t' /\
    forall k' v', holds (buckets t') k' v' <-> if decide (k' = k) then v' = v else holds (buckets t) k' v'.
Proof.
  intros Hwf. unfold ht_insert.
  assert (Hgrow : exists t1, (if length (buckets t) * 7 <=? occupied t * 10 then resize t else Some t) = Some t1 /\ ht_wf t1 /\
      S (occupied t1) < length (buckets t1) /\ forall k v, holds (buckets t1) k v <-> holds (buckets t) k v).
  { pose proof Hwf as (_ & H16 & _ & _ & Hl). destruct (_ <=? _) eqn:E.
    - destruct (resize_spec t Hwf) as (t1 & -> & Hwf1 & Hlen & Ho & Hh). exists t1. split_and!; [done|done|lia|done].
    - apply Nat.leb_gt in E. exists t. split_and!; [done|done|lia|done]. }
  destruct Hgrow as (t1 & -> & (Hn & H16 & Hp & Ho & Hl1) & Hl & Hh). cbn [mbind option_bind].
  destruct (live_free (buckets t1)) as [i Hi]; [lia|]. destruct (ends_exists (buckets t1) k i Hn Hi) as (d & Hd & He).
  rewrite (probe_from_ends _ _ _ Hn He Hd). cbn [mbind option_bind].
  destruct (insert_placed (buckets t1) k v d Hn Hp He) as [Hp' Hh'].
  pose proof (slot_of_lt (length (buckets t1)) k d Hn) as Hs. pose proof (live_insert (buckets t1) _ k v Hs) as Hlive.
  destruct (proj2 He) as [Hx|[w Hx]]; rewrite Hx in Hlive |- *; cbn [mbind option_bind]; eexists; (split; [done|]); split.
  all: try (split_and!; cbn [buckets occupied]; rewrite ?length_insert, ?Hlive; [done..|lia|lia]).
  all: intros k' v'; cbn; rewrite Hh'; case_decide; [done|apply Hh].
Qed.

Lemma ht_get_spec t k : ht_wf t ->
  exists r, ht_get t k = Some r /\ forall v, r = Some v <-> holds (buckets t) k v.
Proof.
  intros (Hn & _ & Hp & Ho & Hl). destruct (live_free (buckets t)) as [i Hi]; [lia|].
  destruct (ends_exists (buckets t) k i Hn Hi) as (d & Hd & He). unfold ht_get.
  rewrite (probe_from_ends _ _ _ Hn He Hd). cbn [mbind option_bind].
  destruct (proj2 He) as [Hx|[w Hx]]; rewrite Hx; cbn; eexists; (split; [done|]); intros v.
  - split; [done|]. intros [j Hj]. rewrite (placed_ends _ k v j d Hp He Hj) in Hj. congruence.
  - split; [intros [= ->]; by eexists|]. intros Hv. f_equal. apply (placed_fun (buckets t) k); [done|done|by eexists|done].
Qed.

Lemma ht_new_wf : ht_wf ht_new.
Proof.
  assert (Hno : forall i (x : K * V), replicate 16 None !! i = Some (Some x) -> False) by (intros i x Hi; by apply lookup_replicate in Hi as [? _]).
  split_and!; [by exists 4|cbn; lia| |done|cbn; lia]. intros i k v Hi. by apply Hno in Hi.
Qed.

(** The insertions of a client in turn, and what the last one says of a key. *)
Definition insert_all (t : HashTable) (kvs : list (K * V)) : option HashTable :=
  fold_option (fun t kv => ht_insert t (fst kv) (snd kv)) t kvs.
Definition last_value (k : K) (kvs : list (K * V)) : option V :=
  foldl (fun acc kv => if decide (kv.1 = k) then Some kv.2 else acc) None kvs.

Lemma insert_all_spec kvs t (m : K -> option V) : ht_wf t -> (forall k v, m k = Some v <-> holds (buckets t) k v) ->
  exists t', insert_all t kvs = Some t' /\ ht_wf t' /\
    forall k v, foldl (fun acc kv => if decide (kv.1 = k) then Some kv.2 else acc) (m k) kvs = Some v <-> holds (buckets t') k v.
Proof.
  revert t m. induction kvs as [|[k0 v0] kvs IH]; intros t m Hwf Hm; [by exists t|].
  unfold insert_all. rewrite fold_option_cons. cbn [fst snd].
  destruct (ht_insert_spec t k0 v0 Hwf) as (t1 & -> & Hwf1 & Hh).
  destruct (IH t1 (fun k => if decide (k0 = k) then Some v0 else m k) Hwf1) as (t' & Ht' & Hwf' & Hh').
  { intros k v. rewrite Hh. repeat case_decide; subst; try done; naive_solver. }
  by exists t'.
Qed.
End Table.
Arguments HashTable K V : clear implicits.

(** filled by insertions, the table is a map: no insertion or lookup
    panics or loops, through any number of resizes and collisions, and [get]
    answers the value of the last insertion of the key, or [None] for a key never
    inserted. *)
Theorem hash_table_is_map {K V : Type} `{EqDecision K} (hash : K -> N) (kvs : list (K * V)) (k : K) :
  exists t, insert_all hash ht_new kvs = Some t /\ ht_get hash t k = Some (last_value k kvs).
Proof.
  destruct (insert_all_spec hash kvs ht_new (fun _ => None) (ht_new_wf hash)) as (t & Ht & Hwf & Hh).
  { intros k' v'. split; [done|]. intros [i Hi]. cbn [buckets ht_new] in Hi. by apply lookup_replicate in Hi as [? _]. }
  exists t. split; [done|]. destruct (ht_get_spec hash t k Hwf) as (r & -> & Hr). f_equal. unfold last_value.
  apply option_eq. intros v. by rewrite Hr, Hh.
Qed.

(** removal breaks lookup.  Whenever two different keys share their home
    slot, inserting both and removing the first makes the second unfindable,
    though it was never removed and [len] still counts it. *)
Theorem remove_hides_keys {K V : Type} `{EqDecision K} (hash : K -> N) (a b : K) (va vb : V) :
  a <> b -> hash_index hash 16 a = hash_index hash 16 b ->
  exists t t', insert_all hash ht_new [(a, va); (b, vb)] = Some t /\ ht_get hash t b = Some (Some vb) /\
    ht_remove hash t a = Some (t', true) /\ ht_len t' = 1 /\ ht_get hash t' b = Some None.
Proof.
  intros Hne Hh. assert (H16 : pow2 16) by by exists 4. set (i := hash_index hash 16 b) in *. set (j := slot_of hash 16 b 1).
  assert (Hi : i < 16) by by apply hash_index_lt. assert (Hj : j < 16) by by apply slot_of_lt.
  assert (Hij : j <> i) by (apply (slot_of_1_ne hash 16 b); [done|lia]).
  assert (Sa : slot_of hash 16 a 0 = i) by (by rewrite slot_of_0). assert (Sb : slot_of hash 16 b 0 = i) by (by rewrite slot_of_0).
  set (b0 := replicate 16 (@None (K * V))). set (b1 := <[ i := Some (a, va) ]> b0). set (b2 := <[ j := Some (b, vb) ]> b1).
  assert (L1 : length b1 = 16) by by unfold b1; rewrite length_insert. assert (L2 : length b2 = 16) by by unfold b2; rewrite length_insert.
  assert (B0 : b0 !! i = Some None) by by apply lookup_replicate_2.
  assert (B1 : b1 !! i = Some (Some (a, va))) by by apply list_lookup_insert_eq.
  assert (B1j : b1 !! j = Some None) by (unfold b1; rewrite list_lookup_insert_ne by done; by apply lookup_replicate_2).
  assert (B2 : b2 !! i = Some (Some (a, va))) by (unfold b2; by rewrite list_lookup_insert_ne).
  assert (B2j : b2 !! j = Some (Some (b, vb))) by (apply list_lookup_insert_eq; lia).
  assert (B3 : <[ i := None ]> b2 !! i = Some None) by (apply list_lookup_insert_eq; lia).
  assert (P0 : probe_from hash b0 a = Some i) by (rewrite <- Sa; apply (probe_from_ends hash b0 a 0); [done|apply ends_at_0; left; change (length b0) with 16; by rewrite Sa|cbn; lia]).
  assert (P1 : probe_from hash b1 b = Some j).
  { rewrite (probe_from_ends hash b1 b 1); [by rewrite L1|by rewrite L1| |by rewrite L1; lia]. unfold ends_at, passes. rewrite L1. split; [|by left].
    intros d' Hd'. replace d' with 0 by lia. rewrite Sb. by exists a, va. }
  assert (P2 : probe_from hash b2 b = Some j).
  { rewrite (probe_from_ends hash b2 b 1); [by rewrite L2|by rewrite L2| |by rewrite L2; lia]. unfold ends_at, passes. rewrite L2. split; [|right; eauto].
    intros d' Hd'. replace d' with 0 by lia. rewrite Sb. by exists a, va. }
  assert (P2a : probe_from hash b2 a = Some i).
  { rewrite (probe_from_ends hash b2 a 0); [by rewrite L2, Sa|by rewrite L2| |by rewrite L2; lia]. apply ends_at_0. right. exists va. by rewrite L2, Sa. }
  assert (P3 : probe_from hash (<[ i := None ]> b2) b = Some i).
  { assert (L3 : length (<[ i := None ]> b2) = 16) by by rewrite length_insert.
    rewrite (probe_from_ends hash _ b 0); [by rewrite L3, Sb|by rewrite L3| |by rewrite L3; lia]. apply ends_at_0. left. by rewrite L3, Sb. }
  exists (MkTable b2 2), (MkTable (<[ i := None ]> b2) 1). split_and!.
  - assert (I1 : ht_insert hash ht_new a va = Some (MkTable b1 1)).
    { unfold ht_insert. change (length (buckets (@ht_new K V)) * 7 <=? occupied (@ht_new K V) * 10) with false. cbv match.
      cbn [mbind option_bind]. change (buckets ht_new) with b0. rewrite P0. cbn [mbind option_bind]. by rewrite B0. }
    assert (I2 : ht_insert hash (MkTable b1 1) b vb = Some (MkTable b2 2)).
    { unfold ht_insert. cbn [buckets occupied]. rewrite L1. change (16 * 7 <=? 1 * 10) with false. cbv match.
      cbn [mbind option_bind buckets occupied]. rewrite P1. cbn [mbind option_bind]. by rewrite B1j. }
    unfold insert_all. rewrite fold_option_cons. cbn [fst snd]. rewrite I1, fold_option_cons. cbn [fst snd]. by rewrite I2.
  - unfold ht_get. cbn [buckets]. rewrite P2. cbn [mbind option_bind]. by rewrite B2j.
  - unfold ht_remove. cbn [buckets]. rewrite P2a. cbn [mbind option_bind]. by rewrite B2.
  - done.
  - unfold ht_get. cbn [buckets]. rewrite P3. cbn [mbind option_bind]. by rewrite B3.
Qed.
Lemma remove_hides_keys_witness :
  exists t t', insert_all (fun k : N => k) ht_new [(1%N, true); (17%N, false)] = Some t /\ ht_get (fun k : N => k) t 17%N = Some (Some false) /\
    ht_remove (fun k : N => k) t 1%N = Some (t', true) /\ ht_len t' = 1 /\ ht_get (fun k : N => k) t' 17%N = Some None.
Proof. apply (remove_hides_keys (fun k : N => k) 1%N 17%N true false); [discriminate|reflexivity]. Defined.
