(* ===== verification/Containers.v ===== *)
(** * Bounded containers of the algorithms library
    ([algorithms/src/data_structures/queue.rs], [arena.rs],
    [memory_systems/lru.rs])

    The ring buffer refines a bounded first-in first-out list, the LRU cache a
    bounded list in order of use, and the arena hands out disjoint regions. *)
From S2P Require Import Prelude AlgoSort AlgoSortProps Merkle.

(** ** The ring buffer *)

Section Queue.
Context {T : Type}.

Record Queue := MkQueue { q_buf : list (option T); q_head : nat; q_tail : nat; q_len : nat }.

Definition q_new (capacity : nat) : Queue := MkQueue (replicate capacity None) 0 0 0.
Definition q_enqueue (q : Queue) (val : T) : option (Queue * bool) :=
  if q_len q =? length (q_buf q) then Some (q, false)
  else
    buf ← set_at (q_tail q) (Some val) (q_buf q);
    Some (MkQueue buf (q_head q) ((q_tail q + 1) mod length buf) (q_len q + 1), true).
Definition q_dequeue (q : Queue) : option (Queue * option T) :=
  if q_len q =? 0 then Some (q, None)
  else
    val ← q_buf q !! q_head q;
    let buf := <[ q_head q := None ]> (q_buf q) in
    Some (MkQueue buf ((q_head q + 1) mod length buf) (q_tail q) (q_len q - 1), val).
(** [None] is an index out of range. *)
Definition q_peek (q : Queue) : option (option T) := q_buf q !! q_head q.
Definition q_is_empty (q : Queue) : bool := q_len q =? 0.
Definition q_is_full (q : Queue) : bool := q_len q =? length (q_buf q).

(** The operations of a client with their answers. *)
Inductive queue_op : Type := Enqueue (v : T) | Dequeue | Peek.
Inductive queue_out : Type := Accepted (b : bool) | Value (v : option T).
Definition queue_step (q : Queue) (op : queue_op) : option (Queue * queue_out) :=
  match op with
  | Enqueue v => '(q, b) ← q_enqueue q v; Some (q, Accepted b)
  | Dequeue => '(q, v) ← q_dequeue q; Some (q, Value v)
  | Peek => v ← q_peek q; Some (q, Value v)
  end.
Fixpoint queue_run (q : Queue) (ops : list queue_op) : option (list queue_out) :=
  match ops with
  | [] => Some []
  | op :: ops => '(q, o) ← queue_step q op; os ← queue_run q ops; Some (o :: os)
  end.

(** The specification: a list of at most [cap] values. *)
Definition fifo_step (cap : nat) (l : list T) (op : queue_op) : list T * queue_out :=
  match op with
  | Enqueue v => if length l =? cap then (l, Accepted false) else (l ++ [v], Accepted true)
  | Dequeue => (tail l, Value (head l))
  | Peek => (l, Value (head l))
  end.
Fixpoint fifo_run (cap : nat) (l : list T) (ops : list queue_op) : list queue_out :=
  match ops with
  | [] => []
  | op :: ops => let '(l, o) := fifo_step cap l op in o :: fifo_run cap l ops
  end.

(** The buffer holds [l] from the head on, around the end, and nothing else. *)
Definition queue_rep (cap : nat) (q : Queue) (l : list T) : Prop :=
  length (q_buf q) = cap /\ q_head q < cap /\ q_len q = length l /\ length l <= cap /\
  q_tail q = (q_head q + length l) mod cap /\
  (forall i, i < cap -> q_buf q !! ((q_head q + i) mod cap) = Some (l !! i)).

Lemma ring_inj cap h i j : h < cap -> i < cap -> j < cap -> (h + i) mod cap = (h + j) mod cap -> i = j.
Proof.
  intros Hh Hi Hj He. destruct (decide (h + i < cap)), (decide (h + j < cap)).
  - rewrite !Nat.mod_small in He by lia. lia.
  - rewrite (Nat.mod_small (h + i)) in He by lia. rewrite (Nat.mod_eq (h + j)) in He by lia.
    replace ((h + j) / cap) with 1 in He by (apply (Nat.div_unique _ _ 1 (h + j - cap)); lia). lia.
  - rewrite (Nat.mod_small (h + j)) in He by lia. rewrite (Nat.mod_eq (h + i)) in He by lia.
    replace ((h + i) / cap) with 1 in He by (apply (Nat.div_unique _ _ 1 (h + i - cap)); lia). lia.
  - rewrite (Nat.mod_eq (h + i)), (Nat.mod_eq (h + j)) in He by lia.
    replace ((h + i) / cap) with 1 in He by (apply (Nat.div_unique _ _ 1 (h + i - cap)); lia).
    replace ((h + j) / cap) with 1 in He by (apply (Nat.div_unique _ _ 1 (h + j - cap)); lia). lia.
Qed.

Lemma queue_step_refines cap q l op : queue_rep cap q l ->
  exists q', queue_step q op = Some (q', snd (fifo_step cap l op)) /\ queue_rep cap q' (fst (fifo_step cap l op)).
Proof.
  intros (Hb & Hh & Hl & Hc & Ht & Hat). assert (Hmod : forall n, n mod cap < cap) by (intros; apply Nat.mod_upper_bound; lia).
  pose proof (Hat 0 ltac:(lia)) as H0. rewrite Nat.add_0_r, Nat.mod_small in H0 by done.
  destruct op as [v| |]; cbn [queue_step fifo_step].
  - unfold q_enqueue. rewrite Hl, Hb. destruct (length l =? cap) eqn:E; [by exists q|]. apply Nat.eqb_neq in E.
    rewrite set_at_ok by (rewrite Hb, Ht; apply Hmod). cbn [mbind option_bind fst snd]. eexists. split; [done|].
    unfold queue_rep. cbn [q_buf q_head q_tail q_len]. rewrite length_insert, length_app, Hb. cbn [length]. split_and!; [done|done|lia|lia| |].
    + rewrite Ht, Nat.Div0.add_mod_idemp_l. f_equal. lia.
    + intros i Hi. destruct (decide (i = length l)) as [->|Hne].
      * rewrite <- Ht, list_lookup_insert_eq by (rewrite Hb, Ht; apply Hmod). by rewrite list_lookup_middle.
      * rewrite list_lookup_insert_ne by (rewrite Ht; intros He%ring_inj; lia). rewrite Hat by done. f_equal.
        destruct (decide (i < length l)); [by rewrite lookup_app_l|].
        rewrite !lookup_ge_None_2; [done|rewrite length_app; cbn; lia|lia].
  - unfold q_dequeue. rewrite Hl. destruct l as [|x l]; [by exists q|]. cbn [length Nat.eqb]. rewrite H0. cbn [mbind option_bind fst snd].
    eexists. split; [done|]. unfold queue_rep. cbn [q_buf q_head q_tail q_len tail length] in *. rewrite length_insert, Hb. split_and!; [done|apply Hmod|lia|lia| |].
    + rewrite Ht, Nat.Div0.add_mod_idemp_l. f_equal. lia.
    + intros i Hi. rewrite Nat.Div0.add_mod_idemp_l, <- Nat.add_assoc. cbn [Nat.add]. destruct (decide (S i = cap)) as [E|Hne].
      * rewrite E. replace (q_head q + cap) with (q_head q + 1 * cap) by lia. rewrite Nat.Div0.mod_add, Nat.mod_small by done.
        rewrite list_lookup_insert_eq by lia. f_equal. symmetry. apply lookup_ge_None_2. lia.
      * rewrite list_lookup_insert_ne; [by rewrite Hat by lia|]. intros He.
        assert (Hz : (q_head q + 0) mod cap = (q_head q + S i) mod cap) by (rewrite <- He, Nat.add_0_r; by apply Nat.mod_small).
        apply ring_inj in Hz; lia.
  - unfold q_peek. rewrite H0. cbn. exists q. split; [by destruct l|]. by split_and!.
Qed.

Lemma queue_run_refines cap q l ops : queue_rep cap q l -> queue_run q ops = Some (fifo_run cap l ops).
Proof.
  revert q l. induction ops as [|op ops IH]; intros q l Hr; [done|]. cbn [queue_run fifo_run].
  destruct (queue_step_refines cap q l op Hr) as (q' & -> & Hr'). destruct (fifo_step cap l op) as [l' o]. cbn [mbind option_bind fst snd] in *.
  by rewrite (IH q' l').
Qed.

Lemma queue_rep_new cap : 0 < cap -> queue_rep cap (q_new cap) [].
Proof.
  intros Hc. unfold queue_rep. cbn. rewrite length_replicate. split_and!; [done|done|done|lia|by rewrite Nat.Div0.mod_0_l|].
  intros i Hi. rewrite Nat.mod_small by done. by apply lookup_replicate_2.
Qed.
End Queue.
Arguments Queue T : clear implicits.
Arguments queue_op T : clear implicits.
Arguments queue_out T : clear implicits.

(** the ring buffer is a bounded queue: whatever the sequence of
    [enqueue], [dequeue] and [peek] on a queue of positive capacity, no index is
    out of range and the answers are those of a first-in first-out list that
    refuses values when it holds [capacity] of them. *)
Theorem queue_refines_fifo {T : Type} (cap : nat) (ops : list (queue_op T)) : 0 < cap ->
  queue_run (q_new cap) ops = Some (fifo_run cap [] ops).
Proof. intros Hc. by apply queue_run_refines, queue_rep_new. Qed.
Lemma queue_refines_fifo_witness :
  0 < 2 /\ queue_run (q_new 2) [Enqueue 1; Enqueue 2; Enqueue 3; Dequeue; Enqueue 4; Dequeue; Peek]
    = Some (fifo_run 2 [] [Enqueue 1; Enqueue 2; Enqueue 3; Dequeue; Enqueue 4; Dequeue; Peek]).
Proof. split; [lia|]. apply (queue_refines_fifo 2). lia. Defined.

(** Without capacity [peek] panics, although the queue is just empty. *)
Lemma queue_peek_panics : q_peek (q_new (T := nat) 0) = None /\ q_dequeue (q_new (T := nat) 0) = Some (q_new 0, None).
Proof. done. Qed.

(** ** The LRU cache *)

Section Lru.
Context {K V : Type} `{Countable K}.

Record LruCache := MkLru { lru_capacity : nat; lru_map : gmap K V; lru_order : list K }.

Definition lru_new (capacity : nat) : LruCache := MkLru capacity ∅ [].
(** [order.retain(|k| k != key)]. *)
Definition forget (key : K) (order : list K) : list K := filter (fun k => k <> key) order.

Definition lru_put (c : LruCache) (key : K) (value : V) : LruCache :=
  let order := if bool_decide (is_Some (lru_map c !! key)) then forget key (lru_order c) else lru_order c in
  let map := <[ key := value ]> (lru_map c) in
  let order := order ++ [key] in
  if lru_capacity c <? length order then
    match order with
    | old :: order => MkLru (lru_capacity c) (delete old map) order
    | [] => MkLru (lru_capacity c) map order
    end
  else MkLru (lru_capacity c) map order.

Definition lru_get (c : LruCache) (key : K) : LruCache * option V :=
  let order := if bool_decide (is_Some (lru_map c !! key)) then forget key (lru_order c) ++ [key] else lru_order c in
  (MkLru (lru_capacity c) (lru_map c) order, lru_map c !! key).

Inductive lru_op : Type := Put (k : K) (v : V) | Get (k : K).
Definition lru_step (c : LruCache) (op : lru_op) : LruCache * option V :=
  match op with Put k v => (lru_put c k v, None) | Get k => lru_get c k end.
Fixpoint lru_run (c : LruCache) (ops : list lru_op) : list (option V) :=
  match ops with [] => [] | op :: ops => let '(c, o) := lru_step c op in o :: lru_run c ops end.

(** The specification: the entries from the least to the most recently used. *)
Fixpoint recent (l : list (K * V)) (k : K) : option V :=
  match l with [] => None | (k', v) :: l => if decide (k' = k) then Some v else recent l k end.
Definition without (k : K) (l : list (K * V)) : list (K * V) := filter (fun e => e.1 <> k) l.
Definition usage_step (cap : nat) (l : list (K * V)) (op : lru_op) : list (K * V) * option V :=
  match op with
  | Put k v => let l := without k l ++ [(k, v)] in (if cap <? length l then tail l else l, None)
  | Get k => match recent l k with Some v => (without k l ++ [(k, v)], Some v) | None => (l, None) end
  end.
Fixpoint usage_run (cap : nat) (l : list (K * V)) (ops : list lru_op) : list (option V) :=
  match ops with [] => [] | op :: ops => let '(l, o) := usage_step cap l op in o :: usage_run cap l ops end.

Definition lru_rep (c : LruCache) (l : list (K * V)) : Prop :=
  lru_order c = l.*1 /\ NoDup l.*1 /\ lru_map c = list_to_map l /\ length l <= lru_capacity c.

Lemma recent_lookup l k : NoDup l.*1 -> recent l k = list_to_map (M := gmap K V) l !! k.
Proof.
  induction l as [|[k' v'] l IH]; intros Hn; [done|]. apply NoDup_cons in Hn as [_ Hn]. cbn.
  destruct (decide (k' = k)) as [->|Hne]; [by rewrite lookup_insert_eq|]. rewrite lookup_insert_ne by done. by apply IH.
Qed.
Lemma forget_keys k l : forget k l.*1 = (without k l).*1.
Proof.
  unfold forget, without. induction l as [|[k' v'] l IH]; [done|]. cbn [fmap list_fmap]. rewrite !filter_cons. cbn.
  case_decide; cbn; by rewrite IH.
Qed.
Lemma without_absent k (l : list (K * V)) : k ∉ l.*1 -> without k l = l.
Proof.
  unfold without. induction l as [|[k' v'] l IH]; [done|]. rewrite fmap_cons. intros [Hk Hl]%not_elem_of_cons. rewrite filter_cons.
  rewrite decide_True by done. by rewrite IH.
Qed.
Lemma without_keys k (l : list (K * V)) : NoDup l.*1 -> NoDup (without k l).*1 /\ k ∉ (without k l).*1.
Proof.
  intros Hn. split; [rewrite <- forget_keys; by apply NoDup_filter|]. rewrite <- forget_keys. unfold forget.
  rewrite list_elem_of_filter. naive_solver.
Qed.
Lemma without_map k (l : list (K * V)) : list_to_map (without k l) = delete k (list_to_map l : gmap K V).
Proof.
  unfold without. induction l as [|[k' v'] l IH]; [symmetry; apply delete_empty|]. rewrite filter_cons. cbn [fst list_to_map foldr]. case_decide as Hk.
  - cbn. rewrite IH. by rewrite delete_insert_ne.
  - assert (k' = k) as -> by (by destruct (decide (k' = k))). by rewrite delete_insert_eq.
Qed.

(** Moving a key to the back with a new value. *)
Lemma touch_rep k v l : NoDup l.*1 ->
  NoDup (without k l ++ [(k, v)]).*1 /\ (without k l ++ [(k, v)]).*1 = forget k l.*1 ++ [k] /\
  list_to_map (without k l ++ [(k, v)]) = <[ k := v ]> (list_to_map l : gmap K V).
Proof.
  intros Hn. destruct (without_keys k l Hn) as [Hn' Hk]. rewrite fmap_app. cbn. rewrite forget_keys. split_and!; [|done|].
  - apply NoDup_app. split_and!; [done| |apply NoDup_singleton]. intros x Hx ->%list_elem_of_singleton. done.
  - rewrite list_to_map_snoc by done. rewrite without_map. apply insert_delete_eq.
Qed.

Lemma in_map_keys (l : list (K * V)) k : NoDup l.*1 -> is_Some (list_to_map (M := gmap K V) l !! k) <-> k ∈ l.*1.
Proof.
  intros Hn. split.
  - intros [v Hv]. apply elem_of_list_to_map in Hv; [|done]. apply list_elem_of_fmap. by exists (k, v).
  - intros [[k' v] [-> Hin]]%list_elem_of_fmap. exists v. by apply elem_of_list_to_map.
Qed.

Lemma lru_step_refines c l op : lru_rep c l ->
  snd (lru_step c op) = snd (usage_step (lru_capacity c) l op) /\
  lru_rep (fst (lru_step c op)) (fst (usage_step (lru_capacity c) l op)) /\
  lru_capacity (fst (lru_step c op)) = lru_capacity c.
Proof.
  intros (Ho & Hn & Hm & Hc). assert (Hin : forall k, is_Some (lru_map c !! k) <-> k ∈ l.*1) by (intros k; rewrite Hm; by apply in_map_keys).
  destruct op as [k v|k]; cbn [lru_step usage_step fst snd].
  - destruct (touch_rep k v l Hn) as (Hn' & Hk' & Hm'). unfold lru_put.
    replace (if bool_decide (is_Some (lru_map c !! k)) then forget k (lru_order c) else lru_order c) with (forget k l.*1).
    2: { case_bool_decide as E; [by rewrite Ho|]. rewrite Ho, forget_keys, without_absent; [done|]. by rewrite <- Hin. }
    rewrite <- Hk', Hm, <- Hm', length_fmap. remember (without k l ++ [(k, v)]) as l' eqn:El.
    destruct (lru_capacity c <? length l') eqn:E; cbn [fst snd].
    + apply Nat.ltb_lt in E. destruct l' as [|[k0 v0] l']; [cbn in E; lia|]. cbn [fmap list_fmap tail fst] in *. split_and!; [done| |done].
      apply NoDup_cons in Hn' as [Hk0 Hn']. split_and!; cbn; [done|done| |].
      * rewrite delete_insert_id; [done|]. apply not_elem_of_list_to_map_1. done.
      * assert (Hlen : length (without k l) <= length l) by (apply length_filter).
        apply (f_equal length) in El. rewrite length_app in El. cbn in El. lia.
    + apply Nat.ltb_ge in E. split_and!; [done| |done]. by split_and!.
  - rewrite recent_lookup, <- Hm by done. unfold lru_get. destruct (lru_map c !! k) as [v|] eqn:E.
    + rewrite bool_decide_true by eauto. cbn [fst snd]. split_and!; [done| |done].
      destruct (touch_rep k v l Hn) as (Hn' & Hk' & Hm'). split_and!; cbn; [by rewrite Ho|done| |].
      * rewrite Hm', <- Hm. symmetry. by apply insert_id.
      * assert (Hk : k ∈ l.*1) by (apply Hin; eauto). assert (Hlen : length (without k l ++ [(k, v)]) = length l); [|lia].
        rewrite <- !(length_fmap fst), Hk'. apply Permutation_length, NoDup_Permutation; [by rewrite <- Hk'|done|].
        intros x. rewrite elem_of_app, list_elem_of_singleton. unfold forget. rewrite list_elem_of_filter.
        destruct (decide (x = k)); naive_solver.
    + rewrite bool_decide_false by (by intros []). cbn. split_and!; [done| |done]. by split_and!.
Qed.

Lemma lru_run_refines c l ops : lru_rep c l -> lru_run c ops = usage_run (lru_capacity c) l ops.
Proof.
  revert c l. induction ops as [|op ops IH]; intros c l Hr; [done|]. cbn [lru_run usage_run].
  destruct (lru_step_refines c l op Hr) as (Ho & Hr' & Hc). destruct (lru_step c op) as [c' o], (usage_step (lru_capacity c) l op) as [l' o'].
  cbn [fst snd] in *. subst o'. f_equal. rewrite <- Hc. by apply IH.
Qed.
End Lru.
Arguments lru_op K V : clear implicits.

(** the cache answers every sequence of [put] and [get] as the list of
    entries in order of use does: a hit moves its key to the back, a [put] beyond
    the capacity drops the least recently used key and no other. *)
Theorem lru_refines_usage {K V : Type} `{Countable K} (cap : nat) (ops : list (lru_op K V)) :
  lru_run (lru_new cap) ops = usage_run cap [] ops.
Proof. apply (lru_run_refines (lru_new cap) []). split_and!; [done|apply NoDup_nil_2|done|cbn; lia]. Qed.

(** ** The arena *)

(** The bump offset and the size of the buffer; the bytes play no part. *)
Record Arena := MkArena { a_cap : nat; a_len : nat }.
Definition arena_new (capacity : nat) : Arena := MkArena capacity 0.
(** [alloc_slice] for a type of the given alignment and size: the region of the
    buffer handed out, or the panic of the assertion. *)
Definition alloc_slice (align size : nat) (a : Arena) (count : nat) : option (Arena * (nat * nat)) :=
  let pad := (align - a_len a mod align) mod align in
  let start := a_len a + pad in
  let end_ := start + size * count in
  if end_ <=? a_cap a then Some (MkArena (a_cap a) end_, (start, end_)) else None.
Definition arena_reset (a : Arena) : Arena := MkArena (a_cap a) 0.
Definition utilisation (a : Arena) : nat * nat := (a_len a, a_cap a).

(** Allocations in turn: (alignment, size, count). *)
Fixpoint alloc_all (a : Arena) (reqs : list (nat * nat * nat)) : option (Arena * list (nat * nat)) :=
  match reqs with
  | [] => Some (a, [])
  | (align, size, count) :: reqs =>
      '(a, r) ← alloc_slice align size a count; '(a, rs) ← alloc_all a reqs; Some (a, r :: rs)
  end.

Lemma pad_aligned align len : 0 < align -> (len + (align - len mod align) mod align) mod align = 0.
Proof.
  intros Ha. pose proof (Nat.mod_upper_bound len align ltac:(lia)) as Hm. rewrite Nat.Div0.add_mod_idemp_r.
  rewrite Nat.Div0.add_mod. destruct (decide (len mod align = 0)) as [E|E].
  - rewrite E, Nat.sub_0_r, Nat.Div0.mod_same. apply Nat.Div0.mod_0_l.
  - rewrite (Nat.mod_small (align - len mod align)) by lia. replace (len mod align + (align - len mod align)) with align by lia.
    apply Nat.Div0.mod_same.
Qed.

Lemma alloc_all_regions a reqs a' rs : Forall (fun r => 0 < r.1.1) reqs -> a_len a <= a_cap a -> alloc_all a reqs = Some (a', rs) ->
  Forall2 (fun req r => r.1 mod req.1.1 = 0 /\ r.2 = r.1 + req.1.2 * req.2 /\ a_len a <= r.1 /\ r.2 <= a_cap a) reqs rs /\
  (forall i j r s, i < j -> rs !! i = Some r -> rs !! j = Some s -> r.2 <= s.1) /\ a_cap a' = a_cap a.
Proof.
  revert a rs. induction reqs as [|[[align size] count] reqs IH]; intros a rs Hpos Hle Heq; cbn [alloc_all] in Heq.
  { injection Heq as <- <-. split_and!; [constructor| |done]. by intros []. }
  apply Forall_cons in Hpos as [Hpos Hposs]. cbn [fst snd] in Hpos. unfold alloc_slice in Heq.
  destruct (_ <=? a_cap a) eqn:E; [|done]. apply Nat.leb_le in E. cbn [mbind option_bind] in Heq.
  destruct (alloc_all _ reqs) as [[a1 rs1]|] eqn:H1; [|done]. injection Heq as <- <-.
  eapply IH in H1 as (Hf & Hd & Hc); [|done|exact E]. cbn [a_cap a_len] in *. split_and!; [constructor| |done].
  - cbn [fst snd]. split_and!; [by apply pad_aligned|done|lia|done].
  - eapply Forall2_impl; [exact Hf|]. intros req r (? & ? & ? & ?). split_and!; [done|done|lia|done].
  - intros [|i] [|j] r s Hij Hr Hs; cbn in Hr, Hs; [lia| |lia|].
    + injection Hr as <-. cbn. destruct (Forall2_lookup_r _ _ _ j s Hf Hs) as (req & _ & _ & _ & ? & _). done.
    + by apply (Hd i j r s); [lia|..].
Qed.

(** The offset is a multiple of the alignment, so the pointer [base + offset] is
    aligned exactly when the buffer is; a [Vec<u8>] promises no alignment. *)
Lemma alloc_pointer_alignment align size a count a' start end_ base : 0 < align ->
  alloc_slice align size a count = Some (a', (start, end_)) -> (base + start) mod align = 0 <-> base mod align = 0.
Proof.
  intros Ha. unfold alloc_slice. destruct (_ <=? _); [|done]. intros [= _ <- _].
  rewrite Nat.Div0.add_mod, pad_aligned, Nat.add_0_r, Nat.Div0.mod_mod by done. done.
Qed.

(** What a request needs at most: its bytes and the padding before them. *)
Definition demand (req : nat * nat * nat) : nat := req.1.1 - 1 + req.1.2 * req.2.
Lemma alloc_all_room a reqs : Forall (fun r => 0 < r.1.1) reqs -> a_len a + sum_list_with demand reqs <= a_cap a -> is_Some (alloc_all a reqs).
Proof.
  revert a. induction reqs as [|[[align size] count] reqs IH]; intros a Hpos Hroom; cbn [alloc_all]; [by eexists|].
  apply Forall_cons in Hpos as [Hpos Hposs]. cbn [fst snd] in Hpos. cbn [sum_list_with] in Hroom. unfold demand at 1 in Hroom. cbn [fst snd] in Hroom.
  pose proof (Nat.mod_upper_bound (align - a_len a mod align) align ltac:(lia)) as Hm.
  unfold alloc_slice. rewrite (proj2 (Nat.leb_le _ _)) by lia. cbn [mbind option_bind].
  destruct (IH (MkArena (a_cap a) (a_len a + (align - a_len a mod align) mod align + size * count)) Hposs) as [[a1 rs1] ->]; [cbn [a_len a_cap]; lia|].
  by eexists.
Qed.

(** the regions of the arena.  A fresh arena serves every sequence of
    requests (alignment, size, count) whose bytes and padding fit its capacity;
    and whenever a sequence is served, each region starts at an offset that is a
    multiple of its alignment, has exactly the bytes asked for, lies inside the
    buffer, and no two regions overlap, an earlier one ending before a later one
    begins. *)
Theorem arena_regions cap reqs : Forall (fun r => 0 < r.1.1) reqs ->
  (sum_list_with demand reqs <= cap -> is_Some (alloc_all (arena_new cap) reqs)) /\
  forall a rs, alloc_all (arena_new cap) reqs = Some (a, rs) ->
    Forall2 (fun req r => r.1 mod req.1.1 = 0 /\ r.2 = r.1 + req.1.2 * req.2 /\ r.2 <= cap) reqs rs /\
    forall i j r s, i < j -> rs !! i = Some r -> rs !! j = Some s -> r.2 <= s.1.
Proof.
  intros Hpos. split; [intros Hroom; by apply alloc_all_room|]. intros a rs Heq.
  apply alloc_all_regions in Heq as (Hf & Hd & _); [|done|cbn; lia]. split; [|done].
  eapply Forall2_impl; [exact Hf|]. intros req r (? & ? & _ & ?). done.
Qed.
Lemma arena_regions_witness : Forall2 (fun req r => r.1 mod req.1.1 = 0 /\ r.2 = r.1 + req.1.2 * req.2 /\ r.2 <= 32) [(1, 1, 3); (8, 8, 2)] [(0, 3); (8, 24)].
Proof.
  destruct (arena_regions 32 [(1, 1, 3); (8, 8, 2)]) as [_ H]; [repeat constructor; cbn; lia|].
  edestruct H as [Hf _]; [vm_compute; reflexivity|]. exact Hf.
Defined.
