(* ===== verification/AlgoGraph.v ===== *)
(** * Graph algorithms of the algorithms library
    ([algorithms/src/graph/])

    Graphs are adjacency lists [adj], lists of lists of vertices.  Modelled are
    the traversals, Kosaraju's components, the topological sort and its layered
    and cycle-reporting variants.  An index out of range or an underflow is a
    panic ([None]). *)
From S2P Require Import Prelude AlgoSort Merkle.

(** ** Depth-first traversal *)

(** The recursions [visit] ([dfs.rs]), [dfs_collect] and, with the vertex
    pushed after its successors instead of before, [dfs_finish] ([scc.rs]). *)
Fixpoint dfs_walk (post : bool) (fuel : nat) (adj : list (list nat)) (v : nat) (st : list bool * list nat) : option (list bool * list nat) :=
  match fuel with
  | O => None
  | S fuel' =>
      vis ← set_at v true (fst st);
      es ← adj !! v;
      '(vis, out) ← fold_option
        (fun st u => b ← fst st !! u; if (b : bool) then Some st else dfs_walk post fuel' adj u st)
        (vis, if post then snd st else snd st ++ [v]) es;
      Some (vis, if post then out ++ [v] else out)
  end.

(** The loop over several start vertices, skipping the visited. *)
Definition dfs_from (post : bool) (fuel : nat) (adj : list (list nat)) (st : list bool * list nat) (vs : list nat) : option (list bool * list nat) :=
  fold_option (fun st u => b ← fst st !! u; if (b : bool) then Some st else dfs_walk post fuel adj u st) st vs.

(** A fresh [visited] vector. *)
Definition unvisited (n : nat) : list bool := replicate n false.

(** [dfs]: the vertices in the order they are entered. *)
Definition dfs (adj : list (list nat)) (start : nat) : option (list nat) :=
  '(_, order) ← dfs_walk false (S (length adj)) adj start (unvisited (length adj), []); Some order.

(** ** Strongly connected components *)

(** The first pass of [kosaraju_scc]. *)
Definition finish_order (adj : list (list nat)) : option (list nat) :=
  '(_, order) ← dfs_from true (S (length adj)) adj (unvisited (length adj), []) (seq 0 (length adj)); Some order.

(** The reversed graph: [rev[u].push(v)] for each edge in turn. *)
Definition push_at {A} (i : nat) (x : A) (rows : list (list A)) : option (list (list A)) :=
  row ← rows !! i; Some (<[ i := row ++ [x] ]> rows).
Definition reverse_graph (adj : list (list nat)) : option (list (list nat)) :=
  fold_option (fun rev ve => fold_option (fun rev u => push_at u (fst ve) rev) rev (snd ve))
    (replicate (length adj) []) (imap pair adj).

(** One round of the second pass. *)
Definition collect_step (rev : list (list nat)) (st : list bool * list (list nat)) (v : nat) : option (list bool * list (list nat)) :=
  b ← fst st !! v;
  if (b : bool) then Some st
  else '(vis, comp) ← dfs_walk false (S (length rev)) rev v (fst st, []); Some (vis, snd st ++ [comp]).

Definition kosaraju_scc (adj : list (list nat)) : option (list (list nat)) :=
  match adj with
  | [] => Some []
  | _ =>
      order ← finish_order adj;
      rev ← reverse_graph adj;
      '(_, comps) ← fold_option (collect_step rev) (unvisited (length adj), []) (reverse order);
      Some comps
  end.

(** [outlives_cycles] of [region.rs]. *)
Definition outlives_cycles (adj : list (list nat)) : option (list (list nat)) :=
  comps ← kosaraju_scc adj; Some (filter (fun scc => 1 < length scc) comps).

(** ** Topological sorting *)

Section Kahn.
(** [lenient]: [topological_layers] and [topological_sort_with_cycles] skip
    successors out of range, [topological_sort] panics on them.  [sat]: the
    latter of the two subtracts saturating, the others checked. *)
Context (lenient sat : bool).

Definition count_edge (deg : list nat) (v : nat) : option (list nat) :=
  if lenient && (length deg <=? v) then Some deg else d ← deg !! v; Some (<[ v := S d ]> deg).
Definition indegrees (adj : list (list nat)) : option (list nat) :=
  fold_option (fun deg es => fold_option count_edge deg es) (replicate (length adj) 0) adj.

(** The vertices without predecessors, in order. *)
Definition sources (deg : list nat) : list nat := filter (fun v => deg !! v = Some 0) (seq 0 (length deg)).

(** One successor [v] of the vertex just taken. *)
Definition relax (st : list nat * list nat) (v : nat) : option (list nat * list nat) :=
  let '(deg, queue) := st in
  if lenient && (length deg <=? v) then Some st
  else
    d ← deg !! v;
    match d with
    | O => if sat then Some (deg, queue ++ [v]) else None
    | S d => let deg := <[ v := d ]> deg in Some (deg, if d =? 0 then queue ++ [v] else queue)
    end.

(** The loop of [topological_sort]; every vertex is taken at most once. *)
Fixpoint kahn_loop (fuel : nat) (adj : list (list nat)) (deg queue order : list nat) : option (list nat) :=
  match fuel with
  | O => None
  | S fuel' =>
      match queue with
      | [] => Some order
      | u :: queue =>
          es ← adj !! u;
          '(deg, queue) ← fold_option relax (deg, queue) es;
          kahn_loop fuel' adj deg queue (order ++ [u])
      end
  end.
Definition kahn (adj : list (list nat)) : option (list nat) :=
  deg ← indegrees adj; kahn_loop (S (length adj)) adj deg (sources deg) [].

(** One level of [topological_layers]: [level_count] vertices from the front. *)
Fixpoint kahn_level (count : nat) (adj : list (list nat)) (st : list nat * list nat) (layer : list nat) : option (list nat * list nat * list nat) :=
  match count with
  | O => Some (st, layer)
  | S count' =>
      match st with
      | (deg, u :: queue) =>
          es ← adj !! u;
          st ← fold_option relax (deg, queue) es;
          kahn_level count' adj st (layer ++ [u])
      | (deg, []) => kahn_level count' adj (deg, []) layer
      end
  end.
Fixpoint layers_loop (fuel : nat) (adj : list (list nat)) (st : list nat * list nat) (layers : list (list nat)) : option (list (list nat)) :=
  match fuel with
  | O => None
  | S fuel' =>
      match snd st with
      | [] => Some layers
      | _ =>
          '(st, layer) ← kahn_level (length (snd st)) adj st [];
          layers_loop fuel' adj st (match layer with [] => layers | _ => layers ++ [layer] end)
      end
  end.
End Kahn.

Definition topological_sort (adj : list (list nat)) : option (list nat) := kahn false false adj.
Definition topological_layers (adj : list (list nat)) : option (list (list nat)) :=
  deg ← indegrees true adj; layers_loop true false (S (length adj)) adj (deg, sources deg) [].

(** [topological_sort_with_cycles]: what is left unordered is reported as the
    components with a cycle. *)
Definition topological_sort_with_cycles (adj : list (list nat)) : option (list nat * list (list nat)) :=
  match adj with
  | [] => Some ([], [])
  | _ =>
      order ← kahn true true adj;
      if length order =? length adj then Some (order, [])
      else
        let looped v := match adj !! v with Some es => bool_decide (v ∈ es) | None => false end in
        comps ← kosaraju_scc adj;
        Some (order, filter (fun scc => (1 <? length scc) || existsb looped scc = true) comps)
  end.

(** ** What they are about *)

Definition edge (adj : list (list nat)) (u v : nat) : Prop := exists es, adj !! u = Some es /\ v ∈ es.
Definition graph_ok (adj : list (list nat)) : Prop := forall u v, edge adj u v -> v < length adj.
Definition reaches (adj : list (list nat)) : nat -> nat -> Prop := rtc (edge adj).
Definition acyclic (adj : list (list nat)) : Prop := forall v, ~ tc (edge adj) v v.
