(* ===== verification/AlgoTopo.v ===== *)
(** * Correctness of the topological sorts

    Kahn's algorithm orders exactly when it can: the order it returns respects
    every edge, and it contains every vertex iff the graph has no cycle. *)
From S2P Require Import Prelude AlgoSort AlgoSortProps Merkle AlgoGraph.

(** ** Counting edges *)

Definition cnt (v : nat) (es : list nat) : nat := length (filter (fun w => w = v) es).
Lemma cnt_cons v w es : cnt v (w :: es) = (if decide (w = v) then 1 else 0) + cnt v es.
Proof. unfold cnt. rewrite filter_cons. by case_decide. Qed.
Lemma cnt_pos v es : v ∈ es <-> cnt v es <> 0.
Proof.
  unfold cnt. split.
  - intros Hin E. apply length_zero_iff_nil in E. assert (Hf : v ∈ filter (fun w => w = v) es) by (by apply list_elem_of_filter).
    rewrite E in Hf. by apply not_elem_of_nil in Hf.
  - destruct (filter _ es) as [|w l] eqn:E; [done|]. intros _. assert (Hf : w ∈ filter (fun w => w = v) es) by (rewrite E; apply list_elem_of_here).
    apply list_elem_of_filter in Hf as [-> ?]. done.
Qed.

Lemma sum_drop (f : nat -> nat) l u : NoDup l -> u ∈ l ->
  sum_list ((fun x => if decide (x = u) then 0 else f x) <$> l) + f u = sum_list (f <$> l).
Proof.
  induction 1 as [|x l Hx Hn IH]; [by intros ?%not_elem_of_nil|]. intros [->|Hu]%elem_of_cons; cbn.
  - rewrite decide_True by done.
    replace ((fun x0 => if decide (x0 = x) then 0 else f x0) <$> l) with (f <$> l); [lia|].
    apply list_fmap_ext. intros i y Hy. rewrite decide_False; [done|]. intros ->. apply Hx. by eapply list_elem_of_lookup_2.
  - rewrite decide_False by (intros ->; done). specialize (IH Hu). lia.
Qed.
Lemma sum_list_zero l : sum_list l = 0 <-> Forall (fun x => x = 0) l.
Proof.
  induction l as [|x l IH]; cbn; [done|]. rewrite Forall_cons, <- IH. lia.
Qed.

Section Kahn.
Context (lenient sat : bool) (adj : list (list nat)).
Context (Hok : lenient = true \/ graph_ok adj).
Let n := length adj.

Definition out_edges (u : nat) : list nat := default [] (adj !! u).

(** The edges into [v] from vertices not yet in [S]. *)
Definition pending (S : list nat) (v : nat) : nat :=
  sum_list ((fun u => if decide (u ∈ S) then 0 else cnt v (out_edges u)) <$> seq 0 n).

Lemma pending_snoc S u v : u ∉ S -> u < n -> pending (S ++ [u]) v + cnt v (out_edges u) = pending S v.
Proof.
  intros Hu Hn. unfold pending. rewrite <- (sum_drop (fun u => if decide (u ∈ S) then 0 else cnt v (out_edges u)) (seq 0 n) u);
    [|apply NoDup_seq|apply elem_of_seq; lia].
  rewrite (decide_False (P := u ∈ S)) by done. f_equal. f_equal. apply list_fmap_ext. intros i x _.
  destruct (decide (x = u)) as [->|Hne].
  - rewrite decide_True; [done|]. apply elem_of_app. right. apply list_elem_of_here.
  - destruct (decide (x ∈ S)) as [Hx|Hx]; [rewrite decide_True; [done|]; apply elem_of_app; by left|].
    rewrite decide_False; [done|]. intros [?|?%list_elem_of_singleton]%elem_of_app; done.
Qed.

Lemma pending_zero S v : pending S v = 0 <-> forall u, edge adj u v -> u ∈ S.
Proof.
  unfold pending. rewrite sum_list_zero, Forall_fmap, Forall_forall. split.
  - intros H u (es & Hes & Hv). apply lookup_lt_Some in Hes as Hu. specialize (H u). cbn in H.
    destruct (decide (u ∈ S)) as [|HS]; [done|]. exfalso. apply cnt_pos in Hv. apply Hv.
    unfold out_edges in H. rewrite Hes in H. apply H, elem_of_seq. fold n in Hu. lia.
  - intros H u Hu%elem_of_seq. cbn. case_decide as HS; [done|]. destruct (decide (cnt v (out_edges u) = 0)) as [|Hc]; [done|].
    apply cnt_pos in Hc. unfold out_edges in Hc. destruct (adj !! u) as [es|] eqn:Hes; [|by apply not_elem_of_nil in Hc].
    destruct HS. apply H. by exists es.
Qed.

(** The in-degrees as first counted. *)
Lemma count_edge_spec es deg : length deg = n -> (lenient = true \/ Forall (fun v => v < n) es) ->
  exists deg', fold_option (count_edge lenient) deg es = Some deg' /\ length deg' = n /\
    forall v d, v < n -> deg !! v = Some d -> deg' !! v = Some (d + cnt v es).
Proof.
  revert deg. induction es as [|w es IH]; intros deg Hl Hes.
  { exists deg. split_and!; [done|done|]. intros v d _ ->. by rewrite Nat.add_0_r. }
  assert (Hes' : lenient = true \/ Forall (fun v => v < n) es) by (destruct Hes as [|Hes]; [by left|right; by inversion Hes]).
  rewrite fold_option_cons. unfold count_edge at 1. destruct (lenient && (length deg <=? w)) eqn:E.
  - apply andb_true_iff in E as [_ E%Nat.leb_le]. destruct (IH deg Hl Hes') as (deg' & -> & Hl' & Hd). exists deg'. split_and!; [done|done|].
    intros v d Hv Hvd. rewrite cnt_cons, decide_False by lia. by apply Hd.
  - assert (Hw : w < n).
    { apply andb_false_iff in E. destruct Hes as [Hle|Hes]; [|by inversion Hes]. rewrite Hle in E. destruct E as [|E%Nat.leb_gt]; [done|lia]. }
    destruct (lookup_lt_is_Some_2 deg w ltac:(lia)) as [d0 Hd0]. rewrite Hd0. cbn [mbind option_bind].
    destruct (IH (<[ w := S d0 ]> deg)) as (deg' & -> & Hl' & Hd); [by rewrite length_insert|done|]. exists deg'. split_and!; [done|done|].
    intros v d Hv Hvd. rewrite cnt_cons. destruct (decide (w = v)) as [->|Hne].
    + assert (d = d0) as -> by congruence. rewrite (Hd v (S d0)); [f_equal; lia|done|]. apply list_lookup_insert_eq. lia.
    + rewrite (Hd v d); [done|done|]. by rewrite list_lookup_insert_ne.
Qed.

Lemma out_edges_ok u : lenient = true \/ Forall (fun v => v < n) (out_edges u).
Proof.
  destruct Hok as [?|Hg]; [by left|]. right. apply Forall_forall. intros v Hv. unfold out_edges in Hv.
  destruct (adj !! u) as [es|] eqn:Hes; [|by apply not_elem_of_nil in Hv]. apply (Hg u v). by exists es.
Qed.

Lemma indegrees_spec : exists deg, indegrees lenient adj = Some deg /\ length deg = n /\
  forall v, v < n -> deg !! v = Some (pending [] v).
Proof.
  assert (Hgen : forall rows deg, length deg = n -> (forall es, es ∈ rows -> lenient = true \/ Forall (fun v => v < n) es) ->
    exists deg', fold_option (fun deg es => fold_option (count_edge lenient) deg es) deg rows = Some deg' /\ length deg' = n /\
      forall v d, v < n -> deg !! v = Some d -> deg' !! v = Some (d + sum_list (cnt v <$> rows))).
  { induction rows as [|es rows IH]; intros deg Hl Hrows.
    { exists deg. split_and!; [done|done|]. intros v d _ ->. by rewrite Nat.add_0_r. }
    rewrite fold_option_cons. destruct (count_edge_spec es deg Hl) as (d1 & -> & Hl1 & Hd1); [apply Hrows, list_elem_of_here|].
    destruct (IH d1 Hl1) as (d2 & -> & Hl2 & Hd2); [intros; apply Hrows; by apply list_elem_of_further|]. exists d2. split_and!; [done|done|].
    intros v d Hv Hvd. rewrite (Hd2 v (d + cnt v es) Hv (Hd1 v d Hv Hvd)). cbn. f_equal. lia. }
  destruct (Hgen adj (replicate n 0)) as (deg & Hdeg & Hl & Hd); [apply length_replicate| |].
  { intros es [u Hu]%list_elem_of_lookup. pose proof (out_edges_ok u) as Ho. unfold out_edges in Ho. by rewrite Hu in Ho. }
  exists deg. split_and!; [exact Hdeg|done|]. intros v Hv. rewrite (Hd v 0 Hv (lookup_replicate_2 _ _ _ Hv)). cbn. f_equal.
  unfold pending. f_equal. apply list_eq. intros i. rewrite !list_lookup_fmap. destruct (decide (i < n)) as [Hi|Hi].
  - rewrite lookup_seq_lt by done. cbn. unfold out_edges. destruct (lookup_lt_is_Some_2 adj i Hi) as [es Hes]. rewrite Hes. done.
  - rewrite (lookup_ge_None_2 adj) by (fold n; lia). rewrite lookup_seq_ge by lia. done.
Qed.

(** ** The invariant of the loop *)

(** Each vertex enters the queue when its last pending edge goes; [es] are the
    edges of the vertex just taken that are still to be removed. *)
Definition kinv (deg queue order es : list nat) : Prop :=
  length deg = n /\ NoDup (order ++ queue) /\ Forall (fun v => v < n) (order ++ queue) /\
  forall v, v < n -> deg !! v = Some (pending order v + cnt v es) /\ (pending order v + cnt v es = 0 <-> v ∈ order ++ queue).

Lemma relax_spec es deg queue order : (lenient = true \/ Forall (fun v => v < n) es) -> kinv deg queue order es ->
  exists deg' new, fold_option (relax lenient sat) (deg, queue) es = Some (deg', queue ++ new) /\ kinv deg' (queue ++ new) order [].
Proof.
  revert deg queue. induction es as [|w es IH]; intros deg queue Hes (Hl & Hnd & Hf & Hd).
  { exists deg, []. rewrite app_nil_r. by split_and!. }
  assert (Hes' : lenient = true \/ Forall (fun v => v < n) es) by (destruct Hes as [|Hes]; [by left|right; by inversion Hes]).
  rewrite fold_option_cons. unfold relax at 1. destruct (lenient && (length deg <=? w)) eqn:E.
  - apply andb_true_iff in E as [_ E%Nat.leb_le]. apply IH; [done|]. split_and!; [done|done|done|].
    intros v Hv. destruct (Hd v Hv) as [Hdv Hz]. rewrite cnt_cons, decide_False in Hdv, Hz by lia. done.
  - assert (Hw : w < n).
    { apply andb_false_iff in E. destruct Hes as [Hle|Hes]; [|by inversion Hes]. rewrite Hle in E. destruct E as [|E%Nat.leb_gt]; [done|lia]. }
    destruct (Hd w Hw) as [Hdw Hzw]. rewrite cnt_cons, decide_True in Hdw, Hzw by done.
    replace (pending order w + (1 + cnt w es)) with (S (pending order w + cnt w es)) in Hdw, Hzw by lia.
    rewrite Hdw. cbn [mbind option_bind]. set (d := pending order w + cnt w es) in *.
    assert (Hwout : w ∉ order ++ queue) by (intros Hin; apply Hzw in Hin; done).
    assert (Hstep : kinv (<[ w := d ]> deg) (if d =? 0 then queue ++ [w] else queue) order es).
    { assert (Hdeg : forall v, v < n -> <[ w := d ]> deg !! v = Some (pending order v + cnt v es)).
      { intros v Hv. destruct (decide (v = w)) as [->|Hne]; [apply list_lookup_insert_eq; lia|].
        rewrite list_lookup_insert_ne by done. destruct (Hd v Hv) as [-> _]. by rewrite cnt_cons, decide_False. }
      assert (Hiff : forall v, v < n -> v <> w -> (pending order v + cnt v es = 0 <-> v ∈ order ++ queue)).
      { intros v Hv Hne. destruct (Hd v Hv) as [_ Hz]. by rewrite cnt_cons, decide_False in Hz. }
      destruct (d =? 0) eqn:Ed.
      - apply Nat.eqb_eq in Ed. split_and!; [by rewrite length_insert| | |].
        + rewrite app_assoc. apply NoDup_app. split_and!; [done| |apply NoDup_singleton]. by intros x Hx ->%list_elem_of_singleton.
        + rewrite app_assoc. apply Forall_app. auto.
        + intros v Hv. split; [by apply Hdeg|]. rewrite app_assoc, elem_of_app, list_elem_of_singleton.
          destruct (decide (v = w)) as [->|Hne]; [fold d; tauto|]. rewrite (Hiff v) by done. tauto.
      - apply Nat.eqb_neq in Ed. split_and!; [by rewrite length_insert|done|done|]. intros v Hv. split; [by apply Hdeg|].
        destruct (decide (v = w)) as [->|Hne]; [|by apply Hiff]. fold d. tauto. }
    destruct (IH _ _ Hes' Hstep) as (deg' & new & -> & Hk).
    destruct (d =? 0); [exists deg', (w :: new); by rewrite <- app_assoc in *|by exists deg', new].
Qed.

(** Taking a vertex. *)
Lemma kahn_take deg u queue order : kinv deg (u :: queue) order [] ->
  exists es deg' new, adj !! u = Some es /\ fold_option (relax lenient sat) (deg, queue) es = Some (deg', queue ++ new) /\
    kinv deg' (queue ++ new) (order ++ [u]) [] /\ pending order u = 0 /\ u < n.
Proof.
  intros (Hl & Hnd & Hf & Hd). assert (Hu : u < n) by (rewrite Forall_forall in Hf; apply Hf, elem_of_app; right; apply list_elem_of_here).
  destruct (lookup_lt_is_Some_2 adj u Hu) as [es Hes]. pose proof (out_edges_ok u) as Hout. unfold out_edges in Hout. rewrite Hes in Hout.
  assert (Huo : u ∉ order) by (apply NoDup_app in Hnd as (_ & Hnd & _); intros Hin; apply (Hnd u Hin), list_elem_of_here).
  destruct (relax_spec es deg queue (order ++ [u])) as (deg' & new & Hfold & Hk); [done| |].
  - unfold kinv. rewrite <- app_assoc. cbn [app]. split_and!; [done|done|done|].
    intros v Hv. destruct (Hd v Hv) as [Hdv Hz]. rewrite <- (pending_snoc order u v Huo Hu) in Hdv, Hz. unfold out_edges in Hdv, Hz. rewrite Hes in Hdv, Hz.
    change (cnt v []) with 0 in Hdv, Hz. rewrite Nat.add_0_r in Hdv, Hz. done.
  - exists es, deg', new. split_and!; [done|done|done| |done]. destruct (Hd u Hu) as [_ Hz]. rewrite Nat.add_0_r in Hz.
    apply Hz, elem_of_app. right. apply list_elem_of_here.
Qed.

(** Every vertex of the order comes after its predecessors. *)
Definition topo (order : list nat) : Prop := forall l1 v l2, order = l1 ++ v :: l2 -> forall u, edge adj u v -> u ∈ l1.

Lemma topo_snoc order u : topo order -> pending order u = 0 -> topo (order ++ [u]).
Proof.
  intros Ht Hp l1 v l2 He w Hw. destruct l2 as [|x l2 _] using rev_ind.
  - apply app_inj_tail in He as [-> ->]. rewrite pending_zero in Hp. by apply Hp.
  - rewrite app_comm_cons, app_assoc in He. apply app_inj_tail in He as [He _]. by apply (Ht l1 v l2).
Qed.

Lemma kinv_length deg queue order es : kinv deg queue order es -> length order + length queue <= n.
Proof.
  intros (_ & Hnd & Hf & _). rewrite <- length_app, <- (length_seq n 0). apply submseteq_length, NoDup_submseteq; [done|].
  intros x Hx. rewrite Forall_forall in Hf. apply elem_of_seq. specialize (Hf x Hx). lia.
Qed.

(** What the final order is: topological, without repetition, and closed: a
    vertex left out has a predecessor left out. *)
Definition kahn_result (order : list nat) : Prop :=
  NoDup order /\ Forall (fun v => v < n) order /\ topo order /\
  forall v, v < n -> v ∉ order -> exists u, edge adj u v /\ u ∉ order.

Lemma kinv_closed deg order v : kinv deg [] order [] -> v < n -> v ∉ order -> exists u, edge adj u v /\ u ∉ order.
Proof.
  intros (_ & _ & _ & Hd) Hv Hno. destruct (Hd v Hv) as [_ Hz]. rewrite app_nil_r, Nat.add_0_r in Hz.
  destruct (decide (Exists (fun u => v ∈ out_edges u /\ u ∉ order) (seq 0 n))) as [He|He].
  - apply Exists_exists in He as (u & _ & Hin & Huo). exists u. split; [|done]. unfold out_edges in Hin.
    destruct (adj !! u) as [es|] eqn:Hes; [by exists es|by apply not_elem_of_nil in Hin].
  - destruct Hno. apply Hz, pending_zero. intros u (es & Hes & Hin). destruct (decide (u ∈ order)) as [|Huo]; [done|].
    destruct He. apply Exists_exists. exists u. apply lookup_lt_Some in Hes as Hu. fold n in Hu.
    split; [apply elem_of_seq; lia|]. split; [|done]. unfold out_edges. by rewrite Hes.
Qed.

Lemma kinv_result deg order : kinv deg [] order [] -> topo order -> kahn_result order.
Proof.
  intros Hk Ht. pose proof Hk as (Hl & Hnd & Hf & Hd). rewrite app_nil_r in Hnd, Hf. split_and!; [done|done|done|].
  intros v. by apply (kinv_closed deg).
Qed.

Lemma kahn_loop_spec fuel deg queue order : kinv deg queue order [] -> topo order -> n - length order < fuel ->
  exists out, kahn_loop lenient sat fuel adj deg queue order = Some out /\ kahn_result out.
Proof.
  revert deg queue order. induction fuel as [|fuel IH]; intros deg queue order Hk Ht Hf; [lia|]. cbn [kahn_loop].
  destruct queue as [|u queue]; [exists order; split; [done|by eapply kinv_result]|].
  pose proof (kinv_length _ _ _ _ Hk) as Hlen. cbn in Hlen.
  destruct (kahn_take deg u queue order Hk) as (es & deg' & new & -> & Hfold & Hk' & Hz & _). cbn [mbind option_bind]. rewrite Hfold. cbn [mbind option_bind].
  apply IH; [done|by apply topo_snoc|]. rewrite length_app. cbn. lia.
Qed.

Lemma sources_kinv deg : length deg = n -> (forall v, v < n -> deg !! v = Some (pending [] v)) -> kinv deg (sources deg) [] [].
Proof.
  intros Hl Hd. split_and!; [done| | |].
  - apply NoDup_filter, NoDup_seq.
  - apply Forall_forall. intros v [_ Hv]%list_elem_of_filter. apply elem_of_seq in Hv. lia.
  - intros v Hv. rewrite Nat.add_0_r. split; [by apply Hd|]. cbn. unfold sources. rewrite list_elem_of_filter, (Hd v Hv), elem_of_seq, Hl.
    split; [intros ->; split; [done|lia]|]. by intros [[= ->] _].
Qed.

Lemma topo_nil : topo [].
Proof. intros [] v l2; done. Qed.

Lemma kahn_spec : exists out, kahn lenient sat adj = Some out /\ kahn_result out.
Proof.
  unfold kahn. destruct indegrees_spec as (deg & -> & Hl & Hd). cbn [mbind option_bind].
  apply kahn_loop_spec; [by apply sources_kinv|apply topo_nil|cbn; fold n; lia].
Qed.
End Kahn.

(** ** Orders and cycles *)

Section Acyclic.
Context (adj : list (list nat)) (order : list nat).
Let n := length adj.

Lemma topo_tc : topo adj order -> forall u v, tc (edge adj) u v -> v ∈ order -> exists l1 l2, order = l1 ++ v :: l2 /\ u ∈ l1.
Proof.
  intros Ht. induction 1 as [u v He|u w v He _ IH]; intros Hv.
  - apply list_elem_of_split in Hv as (l1 & l2 & ->). exists l1, l2. split; [done|]. by apply (Ht l1 v l2).
  - destruct (IH Hv) as (l1 & l2 & Heq & Hw). exists l1, l2. split; [done|].
    apply list_elem_of_split in Hw as (k1 & k2 & ->). rewrite <- app_assoc in Heq. cbn in Heq.
    apply elem_of_app. left. by apply (Ht k1 w (k2 ++ v :: l2)).
Qed.

Lemma full_order : NoDup order -> Forall (fun v => v < n) order -> length order = n -> forall v, v < n -> v ∈ order.
Proof.
  intros Hnd Hf Hl v Hv. assert (Hp : order ≡ₚ seq 0 n).
  { apply submseteq_length_Permutation; [|by rewrite length_seq, Hl]. apply NoDup_submseteq; [done|]. intros x Hx. rewrite Forall_forall in Hf.
    apply elem_of_seq. specialize (Hf x Hx). lia. }
  rewrite Hp. apply elem_of_seq. lia.
Qed.

Lemma NoDup_or_repeat (l : list nat) : NoDup l \/ exists i k x, l !! i = Some x /\ l !! (i + S k) = Some x.
Proof.
  induction l as [|x l [IH|(i & k & y & Hi & Hk)]]; [left; constructor| |right; by exists (S i), k, y].
  destruct (decide (x ∈ l)) as [[k Hk]%list_elem_of_lookup|Hx]; [right; by exists 0, k, x|left; by constructor].
Qed.

(** A walk against the edges; a repeated vertex closes a cycle. *)
Definition back_chain (l : list nat) : Prop := forall i x y, l !! i = Some x -> l !! S i = Some y -> edge adj y x.
Lemma back_chain_tc l i k x y : back_chain l -> l !! i = Some x -> l !! (i + S k) = Some y -> tc (edge adj) y x.
Proof.
  intros Hc Hx. revert y. induction k as [|k IH]; intros y Hy.
  - rewrite Nat.add_1_r in Hy. apply tc_once. by apply (Hc i x y).
  - rewrite Nat.add_succ_r in Hy. destruct (lookup_lt_is_Some_2 l (i + S k)) as [z Hz]; [apply lookup_lt_Some in Hy; lia|].
    eapply tc_l; [by apply (Hc (i + S k) z y)|by apply IH].
Qed.

Lemma missing_cycle : (forall v, v < n -> v ∉ order -> exists u, edge adj u v /\ u ∉ order) ->
  forall v, v < n -> v ∉ order -> exists w, tc (edge adj) w w.
Proof.
  intros Hclosed v Hv Hno.
  assert (Hchain : forall k, exists l, length l = S k /\ back_chain l /\ Forall (fun x => x < n /\ x ∉ order) l).
  { induction k as [|k (l & Hl & Hc & Hf)].
    - exists [v]. split_and!; [done|intros [|[]] ??; done|by repeat constructor].
    - destruct (lookup_lt_is_Some_2 l k ltac:(lia)) as [x Hx]. rewrite Forall_lookup in Hf. destruct (Hf k x Hx) as [Hxn Hxo].
      destruct (Hclosed x Hxn Hxo) as (u & Hu & Huo). exists (l ++ [u]). split_and!; [rewrite length_app; cbn; lia| |].
      + intros i y z Hy Hz. destruct (decide (S i < length l)) as [Hi|Hi].
        * rewrite lookup_app_l in Hy, Hz by lia. by apply (Hc i).
        * assert (Hik : i = k) by (apply lookup_lt_Some in Hz; rewrite length_app in Hz; cbn in Hz; lia). subst i.
          rewrite lookup_app_l in Hy by lia. rewrite <- Hl, list_lookup_middle in Hz by done. by simplify_eq.
      + apply Forall_app. split; [by apply Forall_lookup|]. constructor; [|done]. split; [|done].
        destruct Hu as (es & Hes & _). by apply lookup_lt_Some in Hes. }
  destruct (Hchain n) as (l & Hl & Hc & Hf). destruct (NoDup_or_repeat l) as [Hnd|(i & k & x & Hi & Hj)].
  - assert (Hle : length l <= length (seq 0 n)).
    { apply submseteq_length, NoDup_submseteq; [done|]. intros x Hx. rewrite Forall_forall in Hf. apply elem_of_seq. destruct (Hf x Hx). lia. }
    rewrite length_seq in Hle. lia.
  - exists x. by apply (back_chain_tc l i k x x Hc).
Qed.
End Acyclic.

Lemma kahn_complete adj order : kahn_result adj order -> length order = length adj <-> acyclic adj.
Proof.
  intros (Hnd & Hf & Ht & Hclosed). split.
  - intros Hl v Hc. assert (Hv : v ∈ order).
    { apply (full_order adj order Hnd Hf Hl). inversion Hc as [? ? (es & Hes & _)|? ? ? (es & Hes & _)]; by apply lookup_lt_Some in Hes. }
    destruct (topo_tc adj order Ht v v Hc Hv) as (l1 & l2 & -> & Hin). apply NoDup_app in Hnd as (_ & Hd & _).
    apply (Hd v Hin), list_elem_of_here.
  - intros Ha. destruct (decide (Forall (fun v => v ∈ order) (seq 0 (length adj)))) as [Hall|Hall].
    + assert (Hp : order ≡ₚ seq 0 (length adj)).
      { apply NoDup_Permutation; [done|apply NoDup_seq|]. rewrite Forall_forall in Hall, Hf. intros x. split; [intros Hx; apply elem_of_seq; specialize (Hf x Hx); lia|apply Hall]. }
      by rewrite (Permutation_length Hp), length_seq.
    + apply not_Forall_Exists in Hall; [|apply _]. apply Exists_exists in Hall as (v & Hv%elem_of_seq & Hno).
      destruct (missing_cycle adj order Hclosed v) as [w Hw]; [lia|done|]. by destruct (Ha w).
Qed.

(** The edge relation in terms of the order: [u] comes before [v]. *)
Definition before (l : list nat) (u v : nat) : Prop := exists l1 l2, l = l1 ++ v :: l2 /\ u ∈ l1.

Lemma topo_before adj order u v : topo adj order -> edge adj u v -> v ∈ order -> before order u v.
Proof. intros Ht He Hv. by apply (topo_tc adj order Ht u v); [apply tc_once|]. Qed.

(** on a graph whose edges are in range [topological_sort] never panics;
    its order has no repetition, every vertex in it comes after all its
    predecessors, and it contains every vertex exactly when the graph has no
    cycle. *)
Theorem topological_sort_correct (adj : list (list nat)) : graph_ok adj ->
  exists order, topological_sort adj = Some order /\ NoDup order /\ Forall (fun v => v < length adj) order /\
    (forall u v, edge adj u v -> v ∈ order -> before order u v) /\
    (length order = length adj <-> acyclic adj).
Proof.
  intros Hg. destruct (kahn_spec false false adj (or_intror Hg)) as (order & Ho & Hr). exists order. pose proof Hr as (Hnd & Hf & Ht & _).
  split_and!; [done|done|done|intros u v; by apply topo_before|by apply kahn_complete].
Qed.
Lemma topological_sort_correct_witness :
  graph_ok [[1; 2]; [3]; [3]; []] /\ exists order, topological_sort [[1; 2]; [3]; [3]; []] = Some order /\ NoDup order /\
    Forall (fun v => v < 4) order /\ (forall u v, edge [[1; 2]; [3]; [3]; []] u v -> v ∈ order -> before order u v) /\
    (length order = 4 <-> acyclic [[1; 2]; [3]; [3]; []]).
Proof.
  assert (Hg : graph_ok [[1; 2]; [3]; [3]; []]).
  { intros u v (es & Hes & Hv). do 4 (destruct u as [|u]; [cbn in Hes; injection Hes as <-; cbn; repeat (apply elem_of_cons in Hv as [->|Hv]; [lia|]); by apply not_elem_of_nil in Hv|]).
    by destruct u. }
  split; [exact Hg|]. exact (topological_sort_correct [[1; 2]; [3]; [3]; []] Hg).
Defined.

(** ** Layers *)

Section Layers.
Context (adj : list (list nat)).

Lemma kahn_level_spec q deg rest order layer : kinv adj deg (q ++ rest) order [] ->
  exists deg' new, kahn_level true false (length q) adj (deg, q ++ rest) layer = Some ((deg', rest ++ new), layer ++ q) /\
    kinv adj deg' (rest ++ new) (order ++ q) [].
Proof.
  revert deg rest order layer. induction q as [|u q IH]; intros deg rest order layer Hk; cbn [length kahn_level app].
  { exists deg, []. rewrite !app_nil_r. done. }
  destruct (kahn_take true false adj (or_introl eq_refl) deg u (q ++ rest) order Hk) as (es & deg1 & new & -> & Hf & Hk1 & _ & _).
  cbn [app mbind option_bind]. rewrite Hf. cbn [mbind option_bind]. rewrite <- app_assoc in Hk1 |- *.
  destruct (IH deg1 (rest ++ new) (order ++ [u]) (layer ++ [u]) Hk1) as (deg2 & new2 & -> & Hk2).
  exists deg2, (new ++ new2). rewrite <- !app_assoc in *. done.
Qed.

(** The predecessors of a layer's vertices lie in the layers before it. *)
Definition layered (layers : list (list nat)) : Prop :=
  forall L1 l L2 u v, layers = L1 ++ l :: L2 -> v ∈ l -> edge adj u v -> u ∈ concat L1.

Lemma layered_snoc layers l : layered layers -> (forall u v, v ∈ l -> edge adj u v -> u ∈ concat layers) -> layered (layers ++ [l]).
Proof.
  intros Hl Hnew L1 l' L2 u v He Hv Huv. destruct L2 as [|l2 L2 _] using rev_ind.
  - apply app_inj_tail in He as [-> ->]. by apply (Hnew u v).
  - rewrite app_comm_cons, app_assoc in He. apply app_inj_tail in He as [He _]. by apply (Hl L1 l' L2 u v).
Qed.

Lemma layers_loop_spec fuel deg queue layers : kinv adj deg queue (concat layers) [] -> layered layers -> Forall (fun l => l <> []) layers ->
  length adj - length (concat layers) < fuel ->
  exists out deg', layers_loop true false fuel adj (deg, queue) layers = Some out /\ layered out /\ Forall (fun l => l <> []) out /\
    kinv adj deg' [] (concat out) [].
Proof.
  revert deg queue layers. induction fuel as [|fuel IH]; intros deg queue layers Hk Hl Hne Hf; [lia|]. cbn [layers_loop snd].
  destruct queue as [|u queue]; [by exists layers, deg|]. set (q := u :: queue) in *.
  pose proof (kinv_length _ _ _ _ _ Hk) as Hlen.
  destruct (kahn_level_spec q deg [] (concat layers) []) as (deg' & new & Hlev & Hk'); [by rewrite app_nil_r|].
  rewrite app_nil_r in Hlev. rewrite Hlev. cbn [mbind option_bind app] in *.
  assert (Hcat : concat (layers ++ [q]) = concat layers ++ q) by (rewrite concat_app; cbn [concat]; by rewrite app_nil_r).
  rewrite <- Hcat in Hk'. apply (IH deg' new (layers ++ [q])); [done| |apply Forall_app; by repeat constructor|].
  - apply layered_snoc; [done|]. intros w v Hv Hwv. destruct Hk as (_ & _ & Hlt & Hd). rewrite Forall_forall in Hlt.
    assert (Hin : v ∈ concat layers ++ q) by (apply elem_of_app; by right). destruct (Hd v (Hlt v Hin)) as [_ Hz].
    rewrite Nat.add_0_r in Hz. apply (proj1 (pending_zero adj (concat layers) v)); [by apply Hz|done].
  - rewrite Hcat, length_app. cbn [length q] in *. lia.
Qed.
End Layers.

(** [topological_layers] never panics, whatever the adjacency lists hold
    (successors out of range are skipped).  Every predecessor of a vertex lies in
    a strictly earlier layer, so the vertices of one layer do not depend on each
    other; no layer is empty, no vertex appears twice, and a vertex is left out
    only when a predecessor of it is. *)
Theorem topological_layers_correct (adj : list (list nat)) :
  exists layers, topological_layers adj = Some layers /\ Forall (fun l => l <> []) layers /\ NoDup (concat layers) /\
    (forall L1 l L2 u v, layers = L1 ++ l :: L2 -> v ∈ l -> edge adj u v -> u ∈ concat L1) /\
    (forall v, v < length adj -> v ∉ concat layers -> exists u, edge adj u v /\ u ∉ concat layers).
Proof.
  unfold topological_layers. destruct (indegrees_spec true adj (or_introl eq_refl)) as (deg & -> & Hl & Hd). cbn [mbind option_bind].
  destruct (layers_loop_spec adj (S (length adj)) deg (sources deg) []) as (out & deg' & Hout & Hlay & Hne & Hk).
  - by apply sources_kinv.
  - intros []; done.
  - constructor.
  - cbn. lia.
  - exists out. split_and!; [exact Hout|done| |exact Hlay|].
    + destruct Hk as (_ & Hnd & _). by rewrite app_nil_r in Hnd.
    + intros v. by apply (kinv_closed adj deg').
Qed.
