(* ===== verification/AlgoScc.v ===== *)
(** * Correctness of the traversals and of Kosaraju's components

    A depth-first walk visits exactly the vertices reachable through unvisited
    ones; its finishing order puts, for every vertex, a member of its component
    last among all it reaches; collecting on the reversed graph in that order
    yields the strongly connected components. *)
From S2P Require Import Prelude AlgoSort AlgoSortProps Merkle AlgoGraph AlgoTopo.

(** ** Reachability around a set of vertices *)

Inductive rav (adj : list (list nat)) (S : gset nat) : nat -> nat -> Prop :=
| rav_refl x : x ∉ S -> rav adj S x x
| rav_step x y z : x ∉ S -> edge adj x y -> rav adj S y z -> rav adj S x z.

Section Reach.
Context (adj : list (list nat)).
Let n := length adj.

Lemma rav_l S x y : rav adj S x y -> x ∉ S.
Proof. by destruct 1. Qed.
Lemma rav_r S x y : rav adj S x y -> y ∉ S.
Proof. by induction 1. Qed.
Lemma rav_trans S x y z : rav adj S x y -> rav adj S y z -> rav adj S x z.
Proof. induction 1 as [|x w y Hx He _ IH]; [done|]. intros Hz. by apply (rav_step _ _ x w); [| |apply IH]. Qed.
Lemma rav_mono S S' x y : S ⊆ S' -> rav adj S' x y -> rav adj S x y.
Proof. intros Hs. induction 1 as [x Hx|x w y Hx He _ IH]; [constructor; set_solver|]. apply (rav_step _ _ x w); [set_solver|done|done]. Qed.
Lemma rav_reaches x y : rav adj ∅ x y <-> reaches adj x y.
Proof.
  split; [induction 1 as [|x w y _ He _ IH]; [apply rtc_refl|by eapply rtc_l]|].
  induction 1 as [x|x w y He _ IH]; [constructor; set_solver|]. by apply (rav_step _ _ x w); [set_solver| |].
Qed.

(** The successors of [l] are in [S] or in [l]. *)
Definition closed (S : gset nat) (l : list nat) : Prop := forall x y, x ∈ l -> edge adj x y -> y ∈ S \/ y ∈ l.

Lemma rav_closed S l x y : closed S l -> x ∈ l -> rav adj S x y -> y ∈ l.
Proof.
  intros Hc Hx Hr. induction Hr as [|x w y _ He Hw IH]; [done|]. apply IH. destruct (Hc x w Hx He) as [Hin|]; [|done].
  by apply rav_l in Hw.
Qed.
Lemma rav_avoid S l x y : closed S l -> rav adj S x y -> y ∉ l -> rav adj (S ∪ list_to_set l) x y.
Proof.
  intros Hc Hr Hy. induction Hr as [x Hx|x w y Hx He Hw IH].
  - constructor. rewrite elem_of_union, elem_of_list_to_set. tauto.
  - apply (rav_step _ _ x w); [|done|by apply IH]. rewrite elem_of_union, elem_of_list_to_set. intros [|Hin]; [done|].
    apply Hy, (rav_closed S l x y Hc Hin). by apply (rav_step _ _ x w).
Qed.
Lemma rav_through S v x y : rav adj S x y -> v ∉ S -> rav adj S x v \/ rav adj (S ∪ {[v]}) x y.
Proof.
  intros Hr Hv. induction Hr as [x Hx|x w y Hx He Hw [IH|IH]].
  - destruct (decide (x = v)) as [->|]; [left; by constructor|]. right. constructor. set_solver.
  - left. by apply (rav_step _ _ x w).
  - destruct (decide (x = v)) as [->|]; [left; by constructor|]. right. apply (rav_step _ _ x w); [set_solver|done|done].
Qed.

(** What a walk from the vertices [vs] around [S] adds. *)
Definition block (S : gset nat) (vs l : list nat) : Prop :=
  NoDup l /\ (forall x, x ∈ l -> x < n /\ x ∉ S /\ exists e, e ∈ vs /\ rav adj S e x) /\ closed S l /\
  (forall e, e ∈ vs -> e ∈ S \/ e ∈ l).

Lemma block_skip S v vs l : v ∈ S -> block S vs l -> block S (v :: vs) l.
Proof.
  intros Hv (Hn & Hr & Hc & Hs). split_and!; [done| |done|].
  - intros x Hx. destruct (Hr x Hx) as (? & ? & e & He & ?). split_and!; [done|done|]. exists e. split; [by apply list_elem_of_further|done].
  - intros e [->|He]%elem_of_cons; [by left|auto].
Qed.
Lemma block_app S v vs l1 l2 : block S [v] l1 -> block (S ∪ list_to_set l1) vs l2 -> block S (v :: vs) (l1 ++ l2).
Proof.
  intros (Hn1 & Hr1 & Hc1 & Hs1) (Hn2 & Hr2 & Hc2 & Hs2). split_and!.
  - apply NoDup_app. split_and!; [done| |done]. intros x Hx Hx2. destruct (Hr2 x Hx2) as (_ & Hx' & _). apply Hx'.
    rewrite elem_of_union, elem_of_list_to_set. by right.
  - intros x [Hx|Hx]%elem_of_app.
    + destruct (Hr1 x Hx) as (? & ? & e & ->%list_elem_of_singleton & ?). split_and!; [done|done|]. exists v. split; [apply list_elem_of_here|done].
    + destruct (Hr2 x Hx) as (? & Hx' & e & He & Hrav). rewrite elem_of_union in Hx'. split_and!; [done|tauto|]. exists e.
      split; [by apply list_elem_of_further|]. eapply rav_mono; [|exact Hrav]. apply union_subseteq_l.
  - intros x y [Hx|Hx]%elem_of_app He; rewrite elem_of_app; [destruct (Hc1 x y Hx He); tauto|].
    destruct (Hc2 x y Hx He) as [Hy|]; [|tauto]. rewrite elem_of_union, elem_of_list_to_set in Hy. tauto.
  - intros e [->|He]%elem_of_cons; rewrite elem_of_app.
    + destruct (Hs1 v (list_elem_of_here _ _)); tauto.
    + destruct (Hs2 e He) as [Hy|]; [|tauto]. rewrite elem_of_union, elem_of_list_to_set in Hy. tauto.
Qed.
Lemma block_node S v es l l' : v < n -> v ∉ S -> adj !! v = Some es -> block (S ∪ {[v]}) es l -> l' ≡ₚ v :: l -> block S [v] l'.
Proof.
  intros Hvn Hv Hes (Hn & Hr & Hc & Hs) Hp.
  assert (Hin : forall x, x ∈ l' <-> x = v \/ x ∈ l) by (intros x; by rewrite Hp, elem_of_cons).
  split_and!.
  - rewrite Hp. constructor; [|done]. intros Hx. destruct (Hr v Hx) as (_ & Hx' & _). set_solver.
  - intros x [->|Hx]%Hin; [split_and!; [done|done|]; exists v; split; [apply list_elem_of_here|by constructor]|].
    destruct (Hr x Hx) as (Hxn & HxS & e & He & Hrav). split_and!; [done|set_solver|]. exists v. split; [apply list_elem_of_here|].
    apply (rav_step _ _ v e); [done|by exists es|]. eapply rav_mono; [|exact Hrav]. apply union_subseteq_l.
  - intros x y [->|Hx]%Hin He; rewrite Hin.
    + destruct He as (es' & Hes' & Hy). simplify_eq. destruct (Hs y Hy) as [|]; set_solver.
    + destruct (Hc x y Hx He) as [|]; set_solver.
  - intros e ->%list_elem_of_singleton. right. apply Hin. by left.
Qed.
Lemma block_exact S v l : v ∉ S -> block S [v] l -> forall y, y ∈ l <-> rav adj S v y.
Proof.
  intros Hv (_ & Hr & Hc & Hs) y. split; [intros Hy; by destruct (Hr y Hy) as (_ & _ & e & ->%list_elem_of_singleton & ?)|].
  intros Hy. apply (rav_closed S l v y Hc); [|done]. by destruct (Hs v (list_elem_of_here _ _)).
Qed.

(** ** The walk *)

Context (Hok : graph_ok adj).

(** The vector [visited] holds the set [S]. *)
Definition vis_rep (vis : list bool) (S : gset nat) : Prop :=
  length vis = n /\ forall v, v < n -> vis !! v = Some (bool_decide (v ∈ S)).
Definition bounded (S : gset nat) : Prop := forall x, x ∈ S -> x < n.

Lemma bounded_size S : bounded S -> size S <= n.
Proof.
  intros Hb. replace n with (size (set_seq 0 n : gset nat)) by apply size_set_seq. apply subseteq_size. intros x Hx.
  apply elem_of_set_seq. specialize (Hb x Hx). lia.
Qed.
Lemma vis_rep_mark vis S v : vis_rep vis S -> v < n -> exists vis', set_at v true vis = Some vis' /\ vis_rep vis' (S ∪ {[v]}).
Proof.
  intros [Hl Hv] Hlt. exists (<[ v := true ]> vis). split; [apply set_at_ok; lia|]. split; [by rewrite length_insert|].
  intros w Hw. destruct (decide (w = v)) as [->|Hne].
  - rewrite list_lookup_insert_eq by lia. rewrite bool_decide_true by set_solver. done.
  - rewrite list_lookup_insert_ne, (Hv w Hw) by done. f_equal. apply bool_decide_ext. set_solver.
Qed.

Definition walk_ok (post : bool) (fuel : nat) : Prop := forall v S vis out,
  vis_rep vis S -> bounded S -> v < n -> v ∉ S -> n - size S < fuel ->
  exists l vis', dfs_walk post fuel adj v (vis, out) = Some (vis', out ++ l) /\ vis_rep vis' (S ∪ list_to_set l) /\ block S [v] l.

Lemma block_bounded S vs l : bounded S -> block S vs l -> bounded (S ∪ list_to_set l).
Proof. intros Hb (_ & Hr & _) x. rewrite elem_of_union, elem_of_list_to_set. intros [|Hx]; [by apply Hb|by apply Hr]. Qed.
Lemma block_size (S : gset nat) (l : list nat) : size S <= size (S ∪ list_to_set l).
Proof. apply subseteq_size, union_subseteq_l. Qed.

Lemma dfs_from_spec post fuel : walk_ok post fuel -> forall vs S vis out,
  vis_rep vis S -> bounded S -> Forall (fun v => v < n) vs -> n - size S < fuel ->
  exists l vis', dfs_from post fuel adj (vis, out) vs = Some (vis', out ++ l) /\ vis_rep vis' (S ∪ list_to_set l) /\ block S vs l.
Proof.
  intros Hw vs. induction vs as [|v vs IH]; intros S vis out Hv Hb Hf Hfuel.
  { exists [], vis. rewrite app_nil_r. split_and!; [done|by rewrite list_to_set_nil, union_empty_r_L|].
    split_and!; [apply NoDup_nil_2|by intros ? ?%not_elem_of_nil|by intros ?? ?%not_elem_of_nil|by intros ? ?%not_elem_of_nil]. }
  apply Forall_cons in Hf as [Hvn Hf]. unfold dfs_from. rewrite fold_option_cons. cbn [fst]. rewrite (proj2 Hv v Hvn). cbn [mbind option_bind].
  case_bool_decide as Hin.
  - destruct (IH S vis out Hv Hb Hf Hfuel) as (l & vis' & Heq & Hr & Hbl). exists l, vis'. split_and!; [exact Heq|done|by apply block_skip].
  - destruct (Hw v S vis out Hv Hb Hvn Hin Hfuel) as (l1 & vis1 & -> & Hr1 & Hbl1).
    destruct (IH (S ∪ list_to_set l1) vis1 (out ++ l1)) as (l2 & vis2 & Heq & Hr2 & Hbl2); [done|by eapply block_bounded|done|pose proof (block_size S l1); lia|].
    exists (l1 ++ l2), vis2. rewrite app_assoc. split_and!; [exact Heq| |by apply block_app].
    by rewrite list_to_set_app_L, union_assoc_L.
Qed.

Lemma dfs_walk_spec post fuel : walk_ok post fuel.
Proof.
  induction fuel as [|fuel IH]; intros v S vis out Hv Hb Hvn Hin Hf; [lia|]. cbn [dfs_walk fst snd].
  destruct (vis_rep_mark vis S v Hv Hvn) as (vis1 & -> & Hv1). cbn [mbind option_bind].
  destruct (lookup_lt_is_Some_2 adj v Hvn) as [es Hes]. rewrite Hes. cbn [mbind option_bind].
  assert (Hsz : size (S ∪ {[v]}) = Datatypes.S (size S)) by (rewrite size_union, size_singleton by set_solver; lia).
  assert (Hb1 : bounded (S ∪ {[v]})) by (intros x; set_solver).
  assert (Hes' : Forall (fun u => u < n) es) by (apply Forall_forall; intros u Hu; apply (Hok v u); by exists es).
  destruct (dfs_from_spec post fuel IH es (S ∪ {[v]}) vis1 (if post then out else out ++ [v]) Hv1 Hb1 Hes') as (l & vis2 & Heq & Hv2 & Hbl);
    [pose proof (bounded_size _ Hb1); lia|].
  unfold dfs_from in Heq. rewrite Heq. cbn [mbind option_bind].
  exists (if post then l ++ [v] else v :: l), vis2. split_and!.
  - destruct post; by rewrite <- app_assoc.
  - replace (S ∪ list_to_set (if post then l ++ [v] else v :: l)) with (S ∪ {[v]} ∪ list_to_set l); [done|].
    destruct post; apply set_eq; intros x; rewrite !elem_of_union, elem_of_singleton, !elem_of_list_to_set, ?elem_of_app, ?elem_of_cons;
      pose proof (not_elem_of_nil x); tauto.
  - eapply block_node; [done|done|done|done|]. destruct post; [|done]. by rewrite (Permutation_app_comm l [v]).
Qed.

Lemma unvisited_rep : vis_rep (unvisited n) ∅.
Proof. split; [apply length_replicate|]. intros v Hv. rewrite bool_decide_false by apply not_elem_of_empty. by apply lookup_replicate_2. Qed.
Lemma bounded_empty : bounded ∅.
Proof. by intros x ?%not_elem_of_empty. Qed.

(** Running a walk decides reachability. *)
Lemma vis_rep_exists S : exists vis, vis_rep vis S.
Proof.
  exists ((fun v => bool_decide (v ∈ S)) <$> seq 0 n). split; [by rewrite length_fmap, length_seq|].
  intros v Hv. by rewrite list_lookup_fmap, lookup_seq_lt.
Qed.
Lemma rav_dec S x y : bounded S -> x < n -> rav adj S x y \/ ~ rav adj S x y.
Proof.
  intros Hb Hx. destruct (decide (x ∈ S)) as [Hin|Hin]; [right; intros Hr; by apply rav_l in Hr|].
  destruct (vis_rep_exists S) as [vis Hv].
  destruct (dfs_walk_spec false (Datatypes.S n) x S vis [] Hv Hb Hx Hin ltac:(lia)) as (l & _ & _ & _ & Hbl).
  rewrite <- (block_exact S x l Hin Hbl y). destruct (decide (y ∈ l)); auto.
Qed.

(** ** The finishing order *)

(** [y] is [z] or comes before it. *)
Definition upto (l : list nat) (y z : nat) : Prop := exists l1 l2, l = l1 ++ z :: l2 /\ y ∈ l1 ++ [z].
(** For every vertex, a member of its component comes last of all it reaches. *)
Definition latest (S : gset nat) (l : list nat) : Prop :=
  forall x, x ∈ l -> exists z, rav adj S x z /\ rav adj S z x /\ forall y, y ∈ l -> rav adj S x y -> upto l y z.

Lemma upto_app_r l l' y z : upto l y z -> upto (l ++ l') y z.
Proof. intros (l1 & l2 & -> & Hy). exists l1, (l2 ++ l'). split; [by rewrite <- app_assoc|done]. Qed.
Lemma upto_app_l l l' y z : upto l' y z -> upto (l ++ l') y z.
Proof.
  intros (l1 & l2 & -> & Hy). exists (l ++ l1), l2. split; [by rewrite app_assoc|]. rewrite <- app_assoc. apply elem_of_app. by right.
Qed.
Lemma upto_cross l l' y z : y ∈ l -> upto l' z z -> upto (l ++ l') y z.
Proof.
  intros Hy (l1 & l2 & -> & _). exists (l ++ l1), l2. split; [by rewrite app_assoc|]. rewrite <- app_assoc. apply elem_of_app. by left.
Qed.

Lemma latest_app S l1 l2 : closed S l1 -> (forall x, x ∈ l2 -> x ∉ S ∪ list_to_set l1) ->
  latest S l1 -> latest (S ∪ list_to_set l1) l2 -> latest S (l1 ++ l2).
Proof.
  intros Hc Hd H1 H2 x [Hx|Hx]%elem_of_app.
  - destruct (H1 x Hx) as (z & Hxz & Hzx & Hy). exists z. split_and!; [done|done|]. intros y _ Hxy.
    apply upto_app_r, Hy; [|done]. by apply (rav_closed S l1 x y).
  - destruct (H2 x Hx) as (z & Hxz & Hzx & Hy).
    assert (Hsub : S ⊆ S ∪ list_to_set l1) by apply union_subseteq_l.
    exists z. split_and!; [by eapply rav_mono|by eapply rav_mono|]. intros y Hyl Hxy.
    destruct (decide (y ∈ l1)) as [Hy1|Hy1].
    + apply upto_cross; [done|]. assert (Hxx : upto l2 x z) by (apply Hy; [done|constructor; by apply Hd]).
      destruct Hxx as (k1 & k2 & -> & _). exists k1, k2. split; [done|]. apply elem_of_app. right. apply list_elem_of_here.
    + apply elem_of_app in Hyl as [|Hy2]; [done|]. apply upto_app_l, Hy; [done|]. by apply rav_avoid.
Qed.

Lemma latest_node S v l : bounded S -> v < n -> v ∉ S -> block (S ∪ {[v]}) (out_edges adj v) l -> latest (S ∪ {[v]}) l -> block S [v] (l ++ [v]) -> latest S (l ++ [v]).
Proof.
  intros Hb Hvn Hv (_ & Hr & _) Hlat Hbl. pose proof (block_exact S v (l ++ [v]) Hv Hbl) as Hex.
  assert (Hlast : forall y, y ∈ l ++ [v] -> upto (l ++ [v]) y v) by (intros y Hy; by exists l, []).
  intros x Hx. destruct (rav_dec S x v Hb) as [Hxv|Hxv]; [by apply (proj1 (proj2 Hbl))| |].
  - exists v. split_and!; [done|by apply Hex|auto].
  - assert (Hxl : x ∈ l).
    { apply elem_of_app in Hx as [| ->%list_elem_of_singleton]; [done|]. destruct Hxv. by constructor. }
    destruct (Hlat x Hxl) as (z & Hxz & Hzx & Hy). assert (Hsub : S ⊆ S ∪ {[v]}) by apply union_subseteq_l.
    exists z. split_and!; [by eapply rav_mono|by eapply rav_mono|]. intros y Hyl Hxy.
    destruct (rav_through S v x y Hxy Hv) as [|Hxy']; [done|].
    apply elem_of_app in Hyl as [Hyl| ->%list_elem_of_singleton]; [|done]. by apply upto_app_r, Hy.
Qed.

Definition walk_latest (fuel : nat) : Prop := forall v S vis out l vis',
  vis_rep vis S -> bounded S -> v < n -> v ∉ S -> n - size S < fuel ->
  dfs_walk true fuel adj v (vis, out) = Some (vis', out ++ l) -> latest S l.

Lemma dfs_from_latest fuel : walk_latest fuel -> forall vs S vis out l vis',
  vis_rep vis S -> bounded S -> Forall (fun v => v < n) vs -> n - size S < fuel ->
  dfs_from true fuel adj (vis, out) vs = Some (vis', out ++ l) -> latest S l.
Proof.
  intros Hw vs. induction vs as [|v vs IH]; intros S vis out l vis' Hv Hb Hf Hfuel Heq.
  { injection Heq as _ Hl. rewrite <- (app_nil_r out) in Hl at 1. apply app_inv_head in Hl as <-. by intros ? ?%not_elem_of_nil. }
  apply Forall_cons in Hf as [Hvn Hf]. unfold dfs_from in Heq. rewrite fold_option_cons in Heq. cbn [fst] in Heq.
  rewrite (proj2 Hv v Hvn) in Heq. cbn [mbind option_bind] in Heq. case_bool_decide as Hin.
  - by eapply IH.
  - destruct (dfs_walk_spec true fuel v S vis out Hv Hb Hvn Hin Hfuel) as (l1 & vis1 & Hw1 & Hr1 & Hbl1). rewrite Hw1 in Heq.
    assert (Hb1 : bounded (S ∪ list_to_set l1)) by (by eapply block_bounded). pose proof (block_size S l1).
    destruct (dfs_from_spec true fuel (dfs_walk_spec true fuel) vs (S ∪ list_to_set l1) vis1 (out ++ l1)) as (l2 & vis2 & Heq2 & _ & Hbl2); [done|done|done|lia|].
    assert (Hl : l = l1 ++ l2). { unfold dfs_from in Heq2. rewrite Heq2 in Heq. injection Heq as _ Hl. rewrite <- app_assoc in Hl. by apply app_inv_head in Hl. }
    subst l. apply latest_app; [apply Hbl1|intros x Hx; by apply (proj1 (proj2 Hbl2))|by eapply Hw|]. eapply IH; [exact Hr1|done|done|lia|exact Heq2].
Qed.

Lemma dfs_walk_latest fuel : walk_latest fuel.
Proof.
  induction fuel as [|fuel IH]; intros v S vis out l vis' Hv Hb Hvn Hin Hf Heq; [lia|].
  destruct (dfs_walk_spec true (Datatypes.S fuel) v S vis out Hv Hb Hvn Hin Hf) as (l' & vis'' & Heq' & _ & Hbl).
  rewrite Heq' in Heq. injection Heq as _ Hl. apply app_inv_head in Hl as ->. cbn [dfs_walk fst snd] in Heq'.
  destruct (vis_rep_mark vis S v Hv Hvn) as (vis1 & Hset & Hv1). rewrite Hset in Heq'. cbn [mbind option_bind] in Heq'.
  destruct (lookup_lt_is_Some_2 adj v Hvn) as [es Hes]. rewrite Hes in Heq'. cbn [mbind option_bind] in Heq'.
  assert (Hsz : size (S ∪ {[v]}) = Datatypes.S (size S)) by (rewrite size_union, size_singleton by set_solver; lia).
  assert (Hb1 : bounded (S ∪ {[v]})) by (intros x; set_solver). pose proof (bounded_size _ Hb1).
  assert (Hes' : Forall (fun u => u < n) es) by (apply Forall_forall; intros u Hu; apply (Hok v u); by exists es).
  destruct (dfs_from_spec true fuel (dfs_walk_spec true fuel) es (S ∪ {[v]}) vis1 out Hv1 Hb1 Hes' ltac:(lia)) as (l0 & vis2 & Hfrom & _ & Hbl0).
  unfold dfs_from in Hfrom. rewrite Hfrom in Heq'. cbn [mbind option_bind] in Heq'. injection Heq' as _ Hl. rewrite <- app_assoc in Hl. apply app_inv_head in Hl as <-.
  apply latest_node; [done|done|done|unfold out_edges; by rewrite Hes| |done].
  eapply dfs_from_latest; [exact IH|exact Hv1|done|done|lia|exact Hfrom].
Qed.

Lemma finish_order_spec : exists order, finish_order adj = Some order /\ order ≡ₚ seq 0 n /\ latest ∅ order.
Proof.
  unfold finish_order. assert (Hf : Forall (fun v => v < n) (seq 0 n)) by (apply Forall_forall; intros v Hv%elem_of_seq; lia).
  destruct (dfs_from_spec true (Datatypes.S n) (dfs_walk_spec true _) (seq 0 n) ∅ (unvisited n) [] unvisited_rep bounded_empty Hf ltac:(lia)) as (l & vis & Heq & _ & Hbl).
  fold n. rewrite Heq. cbn [mbind option_bind app]. exists l. split_and!; [done| |].
  - destruct Hbl as (Hn & Hr & _ & Hs). apply NoDup_Permutation; [done|apply NoDup_seq|]. intros x. rewrite elem_of_seq. split.
    + intros Hx. destruct (Hr x Hx). lia.
    + intros Hx. destruct (Hs x) as [?|?]; [apply elem_of_seq; lia|set_solver|done].
  - by apply (dfs_from_latest (Datatypes.S n) (dfs_walk_latest _) (seq 0 n) ∅ (unvisited n) [] l vis unvisited_rep bounded_empty Hf ltac:(lia)).
Qed.
End Reach.

(** ** The reversed graph *)

Lemma push_at_edge rows i x rows' : push_at i x rows = Some rows' ->
  length rows' = length rows /\ forall u v, edge rows' u v <-> edge rows u v \/ (u = i /\ v = x).
Proof.
  unfold push_at. destruct (rows !! i) as [row|] eqn:Hr; [|done]. cbn. intros [= <-]. apply lookup_lt_Some in Hr as Hi.
  split; [apply length_insert|]. intros u v. unfold edge. destruct (decide (u = i)) as [->|Hne].
  - rewrite list_lookup_insert_eq, Hr by done. split.
    + intros (es & [= <-] & [Hv| ->%list_elem_of_singleton]%elem_of_app); [left; by exists row|by right].
    + intros [(es & [= <-] & Hv)|[_ ->]]; eexists; (split; [done|]); apply elem_of_app; [by left|right; apply list_elem_of_here].
  - rewrite list_lookup_insert_ne by done. naive_solver.
Qed.

Lemma reverse_row v es rev : Forall (fun u => u < length rev) es ->
  exists rev', fold_option (fun rev u => push_at u v rev) rev es = Some rev' /\ length rev' = length rev /\
    forall a b, edge rev' a b <-> edge rev a b \/ (b = v /\ a ∈ es).
Proof.
  revert rev. induction es as [|u es IH]; intros rev Hf.
  { exists rev. split_and!; [done|done|]. intros a b. pose proof (not_elem_of_nil a). tauto. }
  apply Forall_cons in Hf as [Hu Hf]. rewrite fold_option_cons. destruct (lookup_lt_is_Some_2 rev u Hu) as [row Hrow].
  destruct (push_at u v rev) as [rev1|] eqn:Hp; [|unfold push_at in Hp; by rewrite Hrow in Hp].
  destruct (push_at_edge _ _ _ _ Hp) as [Hl He]. destruct (IH rev1) as (rev2 & -> & Hl2 & He2); [by rewrite Hl|].
  exists rev2. split_and!; [done|congruence|]. intros a b. rewrite He2, He, elem_of_cons. tauto.
Qed.

Lemma reverse_graph_spec adj : graph_ok adj ->
  exists rev, reverse_graph adj = Some rev /\ length rev = length adj /\ forall a b, edge rev a b <-> edge adj b a.
Proof.
  intros Hok. unfold reverse_graph.
  assert (Hgen : forall rows k rev, length rev = length adj -> (forall i es, rows !! i = Some es -> adj !! (k + i) = Some es) ->
    exists rev', fold_option (fun rev ve => fold_option (fun rev u => push_at u (fst ve) rev) rev (snd ve)) rev (imap (fun i es => (k + i, es)) rows) = Some rev' /\
      length rev' = length adj /\ forall a b, edge rev' a b <-> edge rev a b \/ exists i es, rows !! i = Some es /\ b = k + i /\ a ∈ es).
  { induction rows as [|es rows IH]; intros k rev Hl Hrows.
    { exists rev. split_and!; [done|done|]. intros a b. split; [auto|]. intros [|(i & es & Hes & _)]; [done|by destruct i]. }
    cbn [imap]. rewrite fold_option_cons. cbn [fst snd].
    destruct (reverse_row (k + 0) es rev) as (rev1 & -> & Hl1 & He1).
    { apply Forall_forall. intros u Hu. rewrite Hl. apply (Hok (k + 0) u). exists es. split; [by apply (Hrows 0)|done]. }
    replace (imap ((fun i es => (k + i, es)) ∘ S) rows) with (imap (fun i es => (S k + i, es)) rows) by (apply imap_ext; intros; cbn; f_equal; lia).
    destruct (IH (S k) rev1) as (rev2 & -> & Hl2 & He2); [congruence|intros i es' Hi; rewrite Nat.add_succ_comm; by apply (Hrows (S i))|].
    exists rev2. split_and!; [done|done|]. intros a b. rewrite He2, He1, Nat.add_0_r. split.
    - intros [[|[-> Ha]]|(i & es' & Hi & -> & Ha)]; [by left|right; exists 0, es; split_and!; [done|lia|done]|right].
      exists (S i), es'. split_and!; [done|lia|done].
    - intros [|([|i] & es' & Hi & -> & Ha)]; [auto|injection Hi as <-; left; right; split; [lia|done]|right].
      exists i, es'. split_and!; [done|lia|done]. }
  destruct (Hgen adj 0 (replicate (length adj) [])) as (rev & Hrev & Hl & He); [apply length_replicate|done|].
  exists rev. split_and!; [exact Hrev|done|]. intros a b. rewrite He. split.
  - intros [(es & Hes & Ha)|(i & es & Hi & -> & Ha)]; [apply lookup_replicate in Hes as [-> _]; by apply not_elem_of_nil in Ha|by exists es].
  - intros (es & Hes & Ha). right. exists b, es. done.
Qed.

Lemma reaches_rev adj rev : (forall a b, edge rev a b <-> edge adj b a) -> forall x y, reaches rev x y <-> reaches adj y x.
Proof.
  intros He x y. split; induction 1 as [|x w y Hxw _ IH]; try apply rtc_refl; (eapply rtc_r; [exact IH|by apply He]).
Qed.

Lemma reaches_trans adj x y z : reaches adj x y -> reaches adj y z -> reaches adj x z.
Proof. unfold reaches. intros H1 H2. by transitivity y. Qed.

Lemma NoDup_split_unique (v : nat) a b c d : NoDup (a ++ v :: b) -> a ++ v :: b = c ++ v :: d -> a = c /\ b = d.
Proof.
  revert c. induction a as [|x a IH]; intros [|y c] Hn He; cbn in *.
  - by injection He.
  - injection He as -> He. apply NoDup_cons in Hn as [Hn _]. destruct Hn. rewrite He. apply elem_of_app. right. apply list_elem_of_here.
  - injection He as -> He. apply NoDup_cons in Hn as [Hn _]. destruct Hn. apply elem_of_app. right. apply list_elem_of_here.
  - injection He as -> He. apply NoDup_cons in Hn as [_ Hn]. by destruct (IH c Hn He) as [-> ->].
Qed.

(** ** The components *)

Definition mutual (adj : list (list nat)) (u v : nat) : Prop := reaches adj u v /\ reaches adj v u.

#[export] Instance mutual_equivalence adj : Equivalence (mutual adj).
Proof.
  split; [intros x; split; apply rtc_refl|intros x y []; by split|].
  intros x y z [] []. split; by eapply reaches_trans.
Qed.

Section Kosaraju.
Context (adj rev : list (list nat)) (order : list nat).
Context (Hok : graph_ok adj) (Hlen : length rev = length adj) (Hrev : forall a b, edge rev a b <-> edge adj b a).
Context (Hord : order ≡ₚ seq 0 (length adj)) (Hlat : latest adj ∅ order).

Lemma rev_ok : graph_ok rev.
Proof. intros u v He. apply Hrev in He as (es & Hes & _). apply lookup_lt_Some in Hes. lia. Qed.

(** Rounds of the second pass: [S] is visited, a union of components. *)
Definition comps_ok (S : gset nat) (comps : list (list nat)) : Prop :=
  (forall x y, x ∈ S -> mutual adj x y -> y ∈ S) /\ NoDup (concat comps) /\ (forall x, x ∈ concat comps <-> x ∈ S) /\
  (forall comp u, comp ∈ comps -> u ∈ comp -> forall v, v ∈ comp <-> mutual adj u v).

(** The walk on the reversed graph from the last unvisited vertex of the order
    collects its component. *)
Lemma collect_component S o1 v o2 l : order = o1 ++ v :: o2 -> (forall x, x ∈ o2 -> x ∈ S) -> v ∉ S ->
  (forall x y, x ∈ S -> mutual adj x y -> y ∈ S) -> block rev S [v] l -> forall w, w ∈ l <-> mutual adj v w.
Proof.
  intros Ho Ho2 Hv Hcl Hbl w. pose proof (block_exact rev S v l Hv Hbl) as Hex. split.
  - intros Hw. assert (Hw' : w ∈ order) by (rewrite Hord; apply elem_of_seq; destruct Hbl as (_ & Hr & _); specialize (Hr w Hw); lia).
    assert (Hwv : reaches adj w v).
    { apply (reaches_rev adj rev Hrev). apply rav_reaches. apply Hex in Hw. eapply rav_mono; [|exact Hw]. apply empty_subseteq. }
    assert (HwS : w ∉ S) by (apply Hex in Hw; by apply rav_r in Hw).
    destruct (Hlat w Hw') as (z & Hwz & Hzw & Hlast). apply rav_reaches in Hwz, Hzw.
    destruct (Hlast v) as (l1 & l2 & Ho' & Hvz); [rewrite Ho; apply elem_of_app; right; apply list_elem_of_here|by apply rav_reaches|].
    apply elem_of_app in Hvz as [Hv1| ->%list_elem_of_singleton]; [|by split].
    exfalso. assert (Hnd : NoDup order) by (rewrite Hord; apply NoDup_seq). assert (Hz : z ∈ o2).
    { apply list_elem_of_split in Hv1 as (k1 & k2 & ->). rewrite <- app_assoc in Ho'. cbn in Ho'. rewrite Ho' in Ho.
      rewrite Ho' in Hnd. destruct (NoDup_split_unique _ _ _ _ _ Hnd Ho) as [_ <-].
      apply elem_of_app. right. apply list_elem_of_here. }
    apply HwS, (Hcl z w); [by apply Ho2|by split].
  - intros [Hvw Hwv]. apply (rav_closed rev S l v w); [apply Hbl|by destruct (proj2 (proj2 (proj2 Hbl)) v (list_elem_of_here _ _))|].
    assert (Hpath : forall a, reaches rev a w -> mutual adj v a -> rav rev S a w).
    { intros a Ha. induction Ha as [a|a b w Hab Hbw IH]; intros Hva.
      - constructor. intros Hin. apply Hv, (Hcl a v Hin). by symmetry.
      - apply (rav_step _ _ a b); [intros Hin; apply Hv, (Hcl a v Hin); by symmetry|done|]. apply IH; [done|done|].
        apply Hrev in Hab. apply (reaches_rev adj rev Hrev) in Hbw. destruct Hva as [Hva Hav]. split.
        + by apply (reaches_trans adj v w b).
        + by apply (rtc_l _ b a v). }
    apply Hpath; [by apply (reaches_rev adj rev Hrev)|reflexivity].
Qed.

Lemma collect_loop o1 o2 S vis comps : order = o1 ++ o2 -> (forall x, x ∈ o2 -> x ∈ S) -> vis_rep rev vis S -> bounded rev S -> comps_ok S comps ->
  exists vis' comps' S', fold_option (collect_step rev) (vis, comps) (reverse o1) = Some (vis', comps') /\ comps_ok S' comps' /\
    (forall x, x ∈ order -> x ∈ S') /\ bounded rev S'.
Proof.
  revert o2 S vis comps. induction o1 as [|v o1 IH] using rev_ind; intros o2 S vis comps Ho Ho2 Hv Hb Hc.
  { exists vis, comps, S. cbn in Ho. subst. done. }
  rewrite reverse_app. change (reverse [v]) with [v]. cbn [app]. rewrite fold_option_cons. unfold collect_step at 1. cbn [fst snd].
  rewrite <- app_assoc in Ho. cbn in Ho. assert (Hvn : v < length rev).
  { assert (Hin : v ∈ order) by (rewrite Ho; apply elem_of_app; right; apply list_elem_of_here). rewrite Hord in Hin. apply elem_of_seq in Hin. lia. }
  rewrite (proj2 Hv v Hvn). cbn [mbind option_bind]. case_bool_decide as Hin.
  - apply (IH (v :: o2) S vis comps); [done|intros x [->|]%elem_of_cons; auto|done|done|done].
  - destruct (dfs_walk_spec rev rev_ok false (Datatypes.S (length rev)) v S vis [] Hv Hb Hvn Hin ltac:(lia)) as (l & vis1 & -> & Hv1 & Hbl).
    cbn [mbind option_bind app]. pose proof (collect_component S o1 v o2 l Ho Ho2 Hin (proj1 Hc) Hbl) as Hcomp.
    apply (IH (v :: o2) (S ∪ list_to_set l)); [done| |done|by eapply block_bounded|].
    + intros x [->|Hx]%elem_of_cons; rewrite elem_of_union, elem_of_list_to_set; [right; apply Hcomp; reflexivity|left; auto].
    + destruct Hc as (Hcl & Hnd & Hel & Hcs). assert (Hcat : concat (comps ++ [l]) = concat comps ++ l) by (rewrite concat_app; cbn; by rewrite app_nil_r).
      split_and!.
      * intros x y. rewrite !elem_of_union, !elem_of_list_to_set, !Hcomp. intros [Hx|Hx] Hxy; [left; by apply (Hcl x)|right; by transitivity x].
      * rewrite Hcat. apply NoDup_app. split_and!; [done| |apply Hbl]. intros x Hx%Hel Hxl. by destruct (proj1 (proj2 Hbl) x Hxl) as (_ & ? & _).
      * intros x. rewrite Hcat, elem_of_app, elem_of_union, elem_of_list_to_set, Hel. done.
      * intros comp u [Hcin| ->%list_elem_of_singleton]%elem_of_app Hu w; [by apply (Hcs comp u)|]. rewrite Hcomp. apply Hcomp in Hu.
        split; intros Hx; [by transitivity v; [symmetry|]|by transitivity u].
Qed.
End Kosaraju.

Lemma kosaraju_spec adj : graph_ok adj ->
  exists comps, kosaraju_scc adj = Some comps /\ concat comps ≡ₚ seq 0 (length adj) /\
    forall comp u, comp ∈ comps -> u ∈ comp -> forall v, v ∈ comp <-> mutual adj u v.
Proof.
  intros Hok. destruct adj as [|row adj']; [exists []; split_and!; [done|done|by intros comp u ?%not_elem_of_nil]|].
  set (adj := row :: adj') in *. unfold kosaraju_scc. change (match adj with [] => _ | _ => ?e end) with e.
  destruct (finish_order_spec adj Hok) as (order & -> & Hord & Hlat). cbn [mbind option_bind].
  destruct (reverse_graph_spec adj Hok) as (rev & -> & Hlen & Hrev). cbn [mbind option_bind].
  destruct (collect_loop adj rev order Hlen Hrev Hord Hlat order [] ∅ (unvisited (length adj)) []) as (vis & comps & S & -> & (Hcl & Hnd & Hel & Hcs) & Hall & Hb).
  - by rewrite app_nil_r.
  - by intros x ?%not_elem_of_nil.
  - rewrite <- Hlen. apply unvisited_rep.
  - apply bounded_empty.
  - split_and!; [intros x y Hx; set_solver|apply NoDup_nil_2|intros x; cbn; pose proof (not_elem_of_nil x); set_solver|by intros comp u ?%not_elem_of_nil].
  - exists comps. split_and!; [done| |done]. apply NoDup_Permutation; [done|apply NoDup_seq|]. intros x. rewrite Hel, elem_of_seq. split.
    + intros Hx%Hb. lia.
    + intros Hx. apply Hall. rewrite Hord. apply elem_of_seq. lia.
Qed.

(** ** Cycles *)

Lemma elem_of_concat (x : nat) (ls : list (list nat)) : x ∈ concat ls <-> exists l, x ∈ l /\ l ∈ ls.
Proof.
  rewrite list_elem_of_In, in_concat. split; intros (l & H1 & H2); exists l; rewrite ?list_elem_of_In in *; done.
Qed.

Lemma tc_reaches adj u v : tc (edge adj) u v <-> exists w, edge adj u w /\ reaches adj w v.
Proof.
  split.
  - induction 1 as [u v He|u w v He _ (x & Hwx & Hxv)]; [exists v; split; [done|apply rtc_refl]|].
    exists w. split; [done|]. by eapply rtc_l.
  - intros (w & He & Hr). revert u He. induction Hr as [w|w x v Hwx _ IH]; intros u He; [by apply tc_once|]. eapply tc_l; [done|by apply IH].
Qed.

(** A vertex lies on a cycle iff its component has a second member or it has a
    loop. *)
Lemma on_cycle adj comp v : NoDup comp -> v ∈ comp -> (forall w, w ∈ comp <-> mutual adj v w) ->
  tc (edge adj) v v <-> 1 < length comp \/ edge adj v v.
Proof.
  intros Hnd Hv Hc. split.
  - intros (w & He & Hr)%tc_reaches. destruct (decide (w = v)) as [->|Hne]; [by right|]. left.
    assert (Hw : w ∈ comp) by (apply Hc; split; [by apply rtc_once|done]).
    apply list_elem_of_split in Hv as (l1 & l2 & ->). rewrite length_app. cbn.
    destruct l1; [destruct l2; [|cbn; lia]|cbn; lia]. by apply list_elem_of_singleton in Hw.
  - intros [Hl|He]; [|by apply tc_once].
    assert (exists w, w ∈ comp /\ w <> v) as (w & Hw & Hne).
    { destruct comp as [|a [|b comp]]; [cbn in Hl; lia|cbn in Hl; lia|]. apply NoDup_cons in Hnd as [Hab _].
      destruct (decide (a = v)) as [->|]; [|exists a; split; [apply list_elem_of_here|done]].
      exists b. split; [by apply list_elem_of_further, list_elem_of_here|]. intros ->. apply Hab, list_elem_of_here. }
    apply Hc in Hw as [Hvw Hwv]. destruct Hvw as [|v x w Hvx Hxw]; [done|]. apply tc_reaches. exists x. split; [done|].
    by eapply reaches_trans.
Qed.

Lemma looped_edge adj v : match adj !! v with Some es => bool_decide (v ∈ es) | None => false end = true <-> edge adj v v.
Proof.
  unfold edge. destruct (adj !! v) as [es|].
  - rewrite bool_decide_eq_true. split; [by exists es|by intros (? & [= ->] & ?)].
  - split; [done|by intros (? & ? & _)].
Qed.

(** on a graph whose edges are in range [kosaraju_scc] never panics; its
    lists partition the vertices, and two vertices share a list exactly when
    each reaches the other. *)
Theorem kosaraju_correct (adj : list (list nat)) : graph_ok adj ->
  exists comps, kosaraju_scc adj = Some comps /\ concat comps ≡ₚ seq 0 (length adj) /\
    forall comp u, comp ∈ comps -> u ∈ comp -> forall v, v ∈ comp <-> mutual adj u v.
Proof. apply kosaraju_spec. Qed.

Definition two_cycles : list (list nat) := [[1]; [2; 3]; [0]; [4]; [3; 4]; []].
Lemma two_cycles_ok : graph_ok two_cycles.
Proof.
  intros u v (es & Hes & Hv). do 6 (destruct u as [|u];
    [cbn in Hes; injection Hes as <-; cbn; repeat (apply elem_of_cons in Hv as [->|Hv]; [lia|]); by apply not_elem_of_nil in Hv|]).
  by destruct u.
Qed.
Lemma kosaraju_correct_witness :
  kosaraju_scc two_cycles = Some [[5]; [0; 2; 1]; [3; 4]] /\
  exists comps, kosaraju_scc two_cycles = Some comps /\ concat comps ≡ₚ seq 0 (length two_cycles) /\
    forall comp u, comp ∈ comps -> u ∈ comp -> forall v, v ∈ comp <-> mutual two_cycles u v.
Proof. split; [reflexivity|]. exact (kosaraju_correct two_cycles two_cycles_ok). Defined.

(** [topological_sort_with_cycles] on a graph whose edges are in range: no
    panic, an order that respects every edge, and a vertex appears in the cycles
    reported exactly when it lies on a cycle; so no cycle is reported iff every
    vertex is ordered. *)
Theorem cycle_report_correct (adj : list (list nat)) : graph_ok adj ->
  exists order cycles, topological_sort_with_cycles adj = Some (order, cycles) /\
    (forall u v, edge adj u v -> v ∈ order -> before order u v) /\
    (forall v, v ∈ concat cycles <-> tc (edge adj) v v) /\
    (length order = length adj <-> acyclic adj).
Proof.
  intros Hok. destruct adj as [|row adj'] eqn:Eadj.
  { exists [], []. split_and!; [done|by intros u v (es & ? & _)| |].
    - intros v. split; [by intros ?%not_elem_of_nil|]. by intros (w & (es & ? & _) & _)%tc_reaches.
    - split; [|done]. intros _ v (w & (es & ? & _) & _)%tc_reaches. done. }
  rewrite <- Eadj in *. destruct (kahn_spec true true adj (or_introl eq_refl)) as (order & Ho & Hr). pose proof (kahn_complete adj order Hr) as Hcomp.
  assert (Hbef : forall u v, edge adj u v -> v ∈ order -> before order u v) by (intros u v; apply topo_before, Hr).
  destruct (kosaraju_spec adj Hok) as (comps & Hk & Hperm & Hmut).
  assert (Hdef : topological_sort_with_cycles adj = if length order =? length adj then Some (order, [])
      else Some (order, filter (fun scc => (1 <? length scc) || existsb (fun v => match adj !! v with Some es => bool_decide (v ∈ es) | None => false end) scc = true) comps)).
  { subst adj. unfold topological_sort_with_cycles. rewrite Ho. cbn [mbind option_bind]. destruct (_ =? _); [done|]. by rewrite Hk. }
  rewrite Hdef. destruct (length order =? length adj) eqn:E.
  - apply Nat.eqb_eq in E. exists order, []. split_and!; [done|done| |done]. intros v. split; [by intros ?%not_elem_of_nil|].
    intros Hc. apply Hcomp in E. by apply E in Hc.
  - eexists order, _. split_and!; [reflexivity|done| |done]. intros v.
    assert (Hof : forall comp, comp ∈ comps -> v ∈ comp -> tc (edge adj) v v <-> 1 < length comp \/ edge adj v v).
    { intros comp Hcin Hv. apply on_cycle; [|done|by apply Hmut]. assert (Hnd : NoDup (concat comps)) by (rewrite Hperm; apply NoDup_seq).
      apply list_elem_of_split in Hcin as (c1 & c2 & ->). rewrite concat_app in Hnd. cbn in Hnd. apply NoDup_app in Hnd as (_ & _ & Hnd). by apply NoDup_app in Hnd as (Hnd & _). }
    rewrite elem_of_concat. setoid_rewrite list_elem_of_filter. split.
    + intros (comp & Hv & Hkeep & Hcin). apply orb_true_iff in Hkeep as [Hl%Nat.ltb_lt|Hx]; [apply (Hof comp); auto|].
      apply existsb_exists in Hx as (w & Hw%list_elem_of_In & Hloop%looped_edge).
      assert (Hww : tc (edge adj) w w) by by apply tc_once. apply (Hof comp Hcin Hv). destruct (decide (w = v)) as [->|Hne]; [by right|]. left.
      destruct comp as [|a [|b comp]]; [by apply not_elem_of_nil in Hv| |cbn; lia]. apply list_elem_of_singleton in Hv, Hw. congruence.
    + intros Hc. assert (Hvn : v ∈ concat comps).
      { rewrite Hperm. apply elem_of_seq. apply tc_reaches in Hc as (w & (es & Hes & _) & _). apply lookup_lt_Some in Hes. lia. }
      apply elem_of_concat in Hvn as (comp & Hv & Hcin). exists comp. split; [done|]. split; [|done].
      apply orb_true_iff. destruct (proj1 (Hof comp Hcin Hv) Hc) as [Hl|Hl]; [left; by apply Nat.ltb_lt|right].
      apply existsb_exists. exists v. split; [by apply list_elem_of_In|by apply looped_edge].
Qed.
Lemma cycle_report_correct_witness :
  topological_sort_with_cycles two_cycles = Some ([5], [[0; 2; 1]; [3; 4]]) /\
  exists order cycles, topological_sort_with_cycles two_cycles = Some (order, cycles) /\
    (forall u v, edge two_cycles u v -> v ∈ order -> before order u v) /\
    (forall v, v ∈ concat cycles <-> tc (edge two_cycles) v v) /\
    (length order = length two_cycles <-> acyclic two_cycles).
Proof. split; [reflexivity|]. exact (cycle_report_correct two_cycles two_cycles_ok). Defined.

(** An edge out of range is skipped by the sort but makes the component search
    panic, when there is a cycle to report. *)
Lemma cycle_report_panics :
  topological_sort_with_cycles [[7]; []] = Some ([0; 1], []) /\ topological_sort_with_cycles [[7]; [1]] = None.
Proof. split; reflexivity. Qed.

(** [dfs] lists the vertices reachable from the start, each once. *)
Lemma dfs_reachable adj start : graph_ok adj -> start < length adj ->
  exists order, dfs adj start = Some order /\ NoDup order /\ forall v, v ∈ order <-> reaches adj start v.
Proof.
  intros Hok Hs. destruct (dfs_walk_spec adj Hok false (S (length adj)) start ∅ (unvisited (length adj)) []) as (l & vis & Heq & _ & Hbl);
    [apply unvisited_rep|apply bounded_empty|done|apply not_elem_of_empty|lia|].
  unfold dfs. rewrite Heq. cbn. exists l. split_and!; [done|apply Hbl|]. intros v. rewrite <- rav_reaches.
  apply block_exact; [apply not_elem_of_empty|done].
Qed.
