(* ===== verification/Constraints.v ===== *)
(** * Constraint solvers of the algorithms library
    ([algorithms/src/constraints/sat.rs], [ac3.rs], [forward_checking.rs])

    The DPLL fallback of the SAT solver is sound and complete; AC-3 terminates,
    loses no solution and reaches arc consistency when the two directions of a
    constraint agree. *)
From S2P Require Import Prelude AlgoSort AlgoSortProps.

(** ** SAT *)

Record Lit := MkLit { lit_var : nat; negated : bool }.
Record Cnf := MkCnf { num_vars : nat; clauses : list (list Lit) }.
Definition add_clause (cnf : Cnf) (c : list Lit) : Cnf := MkCnf (num_vars cnf) (clauses cnf ++ [c]).

(** The loop over the literals of a clause, with its [break]. *)
Fixpoint clause_open (asg : list (option bool)) (c : list Lit) (has_unassigned : bool) : bool :=
  match c with
  | [] => has_unassigned
  | l :: c =>
      match mjoin (asg !! lit_var l) with
      | Some value => if (if negated l then negb value else value) then true else clause_open asg c has_unassigned
      | None => clause_open asg c true
      end
  end.
Definition is_partial_consistent (cnf : Cnf) (asg : list (option bool)) : bool :=
  forallb (fun c => clause_open asg c false) (clauses cnf).

(** [position(|v| v.is_none())]. *)
Fixpoint first_none (i : nat) (asg : list (option bool)) : option nat :=
  match asg with [] => None | None :: _ => Some i | Some _ :: asg => first_none (S i) asg end.

(** [dpll]: the answer and the assignment afterwards; each call fixes one more
    variable, so the number of variables is enough fuel. *)
Fixpoint dpll (fuel : nat) (cnf : Cnf) (asg : list (option bool)) : option (bool * list (option bool)) :=
  match fuel with
  | O => None
  | S fuel' =>
      if negb (is_partial_consistent cnf asg) then Some (false, asg)
      else
        match first_none 0 asg with
        | None => Some (true, asg)
        | Some var =>
            '(r, asg) ← dpll fuel' cnf (<[ var := Some true ]> asg);
            if (r : bool) then Some (true, asg)
            else
              '(r, asg) ← dpll fuel' cnf (<[ var := Some false ]> asg);
              if (r : bool) then Some (true, asg) else Some (false, <[ var := None ]> asg)
        end
  end.
Definition solve_with_dpll (cnf : Cnf) : option (option (list bool)) :=
  '(r, asg) ← dpll (S (num_vars cnf)) cnf (replicate (num_vars cnf) None);
  Some (if (r : bool) then Some (map (fun v => match v with Some b => b | None => false end) asg) else None).

(** *** What it should compute *)

Definition lit_true (a : list bool) (l : Lit) : Prop := a !! lit_var l = Some (negb (negated l)).
Definition satisfies (a : list bool) (cnf : Cnf) : Prop := forall c, c ∈ clauses cnf -> exists l, l ∈ c /\ lit_true a l.
Definition cnf_wf (cnf : Cnf) : Prop := forall c l, c ∈ clauses cnf -> l ∈ c -> lit_var l < num_vars cnf.

(** [a] agrees with the variables fixed by [asg]. *)
Definition extends (asg : list (option bool)) (a : list bool) : Prop :=
  length a = length asg /\ forall i b, asg !! i = Some (Some b) -> a !! i = Some b.

Lemma clause_open_spec asg c u : clause_open asg c u = true <->
  (exists l, l ∈ c /\ mjoin (asg !! lit_var l) = Some (negb (negated l))) \/ u = true \/ (exists l, l ∈ c /\ mjoin (asg !! lit_var l) = None).
Proof.
  revert u. induction c as [|l c IH]; intros u; cbn [clause_open].
  { split; [by auto|]. by intros [(l & ?%not_elem_of_nil & _)|[->|(l & ?%not_elem_of_nil & _)]]. }
  assert (Hcons : forall P : Lit -> Prop, (exists x, x ∈ l :: c /\ P x) <-> P l \/ exists x, x ∈ c /\ P x).
  { intros P. split; [intros (x & [->|Hx]%elem_of_cons & Hp); eauto|]. intros [Hp|(x & Hx & Hp)]; [exists l; split; [apply list_elem_of_here|done]|].
    exists x. split; [by apply list_elem_of_further|done]. }
  rewrite !Hcons. destruct (mjoin (asg !! lit_var l)) as [v|] eqn:E.
  - destruct (negated l), v; cbn; rewrite ?IH; naive_solver.
  - rewrite IH. naive_solver.
Qed.

Lemma first_none_spec i asg : match first_none i asg with
  | Some v => i <= v /\ v - i < length asg /\ asg !! (v - i) = Some None
  | None => Forall is_Some asg end.
Proof.
  revert i. induction asg as [|[b|] asg IH]; intros i; cbn; [constructor| |rewrite Nat.sub_diag; split_and!; [lia|lia|done]].
  specialize (IH (S i)). destruct (first_none (S i) asg) as [v|]; [|constructor; [by eexists|done]].
  destruct IH as (? & ? & ?). replace (v - i) with (S (v - S i)) by lia. split_and!; [lia|cbn; lia|done].
Qed.

Lemma extends_insert asg a v b : extends asg a -> a !! v = Some b -> extends (<[ v := Some b ]> asg) a.
Proof.
  intros [Hl He] Hb. split; [by rewrite length_insert|]. intros i x Hx. destruct (decide (i = v)) as [->|Hne].
  - apply lookup_lt_Some in Hx as Hi. rewrite length_insert in Hi. rewrite list_lookup_insert_eq in Hx by done. congruence.
  - rewrite list_lookup_insert_ne in Hx by done. auto.
Qed.

(** An assignment that satisfies the formula keeps every clause open. *)
Lemma satisfies_consistent cnf asg a : extends asg a -> satisfies a cnf -> is_partial_consistent cnf asg = true.
Proof.
  intros [Hl He] Hs. apply forallb_forall. intros c Hc%list_elem_of_In. apply clause_open_spec. destruct (Hs c Hc) as (l & Hin & Hlit).
  destruct (mjoin (asg !! lit_var l)) as [b|] eqn:E; [left|right; right; by exists l]. exists l. split; [done|]. rewrite E.
  destruct (asg !! lit_var l) as [[b'|]|] eqn:E'; cbn in E; simplify_eq. apply He in E'. unfold lit_true in Hlit. congruence.
Qed.

Lemma full_satisfies cnf asg : cnf_wf cnf -> length asg = num_vars cnf -> Forall is_Some asg -> is_partial_consistent cnf asg = true ->
  satisfies (map (fun v => match v with Some b => b | None => false end) asg) cnf.
Proof.
  intros Hwf Hl Hf Hc c Hin. unfold is_partial_consistent in Hc. rewrite forallb_forall in Hc. specialize (Hc c). rewrite <- list_elem_of_In in Hc.
  destruct (proj1 (clause_open_spec _ _ _) (Hc Hin)) as [(l & Hlc & Hv)|[?|(l & Hlc & Hv)]]; [|done|].
  - exists l. split; [done|]. unfold lit_true. rewrite list_lookup_fmap. destruct (asg !! lit_var l) as [[b|]|]; cbn in Hv |- *; congruence.
  - exfalso. specialize (Hwf c l Hin Hlc). destruct (lookup_lt_is_Some_2 asg (lit_var l) ltac:(lia)) as [x Hx].
    rewrite Forall_lookup in Hf. destruct (Hf _ _ Hx) as [b ->]. by rewrite Hx in Hv.
Qed.

Definition unfixed (asg : list (option bool)) : nat := length (filter (fun x => x = None) asg).
Lemma unfixed_insert asg v b : asg !! v = Some None -> S (unfixed (<[ v := Some b ]> asg)) = unfixed asg.
Proof.
  intros Hv. unfold unfixed. rewrite insert_take_drop by (by eapply lookup_lt_Some). rewrite <- (take_drop_middle asg v None Hv) at 3.
  rewrite !filter_app, !filter_cons, !length_app. rewrite decide_False, decide_True by done. cbn. lia.
Qed.

Lemma dpll_spec fuel cnf asg : cnf_wf cnf -> length asg = num_vars cnf -> unfixed asg < fuel ->
  exists r asg', dpll fuel cnf asg = Some (r, asg') /\
    (r = true -> length asg' = num_vars cnf /\ satisfies (map (fun v => match v with Some b => b | None => false end) asg') cnf) /\
    (r = false -> asg' = asg /\ forall a, extends asg a -> ~ satisfies a cnf).
Proof.
  intros Hwf. revert asg. induction fuel as [|fuel IH]; intros asg Hl Hf; [lia|]. cbn [dpll].
  destruct (is_partial_consistent cnf asg) eqn:Hc; cbn [negb].
  2: { exists false, asg. split_and!; [done|done|]. intros _. split; [done|]. intros a He Hs. by rewrite (satisfies_consistent cnf asg a He Hs) in Hc. }
  pose proof (first_none_spec 0 asg) as Hfn. destruct (first_none 0 asg) as [v|].
  2: { exists true, asg. split_and!; [done| |done]. intros _. split; [done|by apply full_satisfies]. }
  rewrite Nat.sub_0_r in Hfn. destruct Hfn as (_ & Hvl & Hv).
  pose proof (unfixed_insert asg v true Hv) as Hu1. pose proof (unfixed_insert asg v false Hv) as Hu2.
  destruct (IH (<[ v := Some true ]> asg)) as (r1 & asg1 & -> & Ht1 & Hf1); [by rewrite length_insert|lia|]. cbn [mbind option_bind].
  destruct r1; [exists true, asg1; split_and!; [done|done|done]|]. destruct (Hf1 eq_refl) as [-> Hno1]. rewrite list_insert_insert_eq.
  destruct (IH (<[ v := Some false ]> asg)) as (r2 & asg2 & -> & Ht2 & Hf2); [by rewrite length_insert|lia|]. cbn [mbind option_bind].
  destruct r2; [exists true, asg2; split_and!; [done|done|done]|]. destruct (Hf2 eq_refl) as [-> Hno2]. rewrite list_insert_insert_eq.
  eexists false, _. split_and!; [done|done|]. intros _. split; [by apply list_insert_id|]. intros a He.
  destruct (lookup_lt_is_Some_2 a v) as [b Hb]; [by rewrite (proj1 He)|].
  destruct b; [apply Hno1|apply Hno2]; by apply extends_insert.
Qed.

(** C33: the DPLL fallback always returns, without a panic.  On a formula over
    its declared variables the model it returns gives each variable a value and
    satisfies every clause, and it returns none only when no assignment does. *)
Theorem dpll_sound_complete (cnf : Cnf) : cnf_wf cnf ->
  exists r, solve_with_dpll cnf = Some r /\
    match r with
    | Some a => length a = num_vars cnf /\ satisfies a cnf
    | None => forall a, length a = num_vars cnf -> ~ satisfies a cnf
    end.
Proof.
  intros Hwf. unfold solve_with_dpll.
  destruct (dpll_spec (S (num_vars cnf)) cnf (replicate (num_vars cnf) None) Hwf) as (r & asg & -> & Ht & Hf);
    [apply length_replicate|unfold unfixed; pose proof (length_filter (fun x => x = None) (replicate (num_vars cnf) (@None bool))) as Hle; rewrite length_replicate in Hle; lia|].
  cbn [mbind option_bind]. eexists. split; [reflexivity|]. destruct r.
  - destruct (Ht eq_refl). split; [by rewrite length_map|done].
  - destruct (Hf eq_refl) as [_ Hno]. intros a Ha. apply Hno. split; [by rewrite length_replicate|].
    intros i b Hi. by apply lookup_replicate in Hi as [? _].
Qed.
Definition xor_cnf : Cnf := MkCnf 2 [[MkLit 0 false; MkLit 1 false]; [MkLit 0 true; MkLit 1 true]].
Lemma dpll_sound_complete_witness :
  solve_with_dpll xor_cnf = Some (Some [true; false]) /\ solve_with_dpll (add_clause xor_cnf []) = Some None /\
  cnf_wf xor_cnf /\ exists r, solve_with_dpll xor_cnf = Some r /\
    match r with Some a => length a = num_vars xor_cnf /\ satisfies a xor_cnf | None => forall a, length a = num_vars xor_cnf -> ~ satisfies a xor_cnf end.
Proof.
  assert (Hwf : cnf_wf xor_cnf).
  { intros c l Hc Hl. repeat (apply elem_of_cons in Hc as [->|Hc]; [repeat (apply elem_of_cons in Hl as [->|Hl]; [cbn; lia|]); by apply not_elem_of_nil in Hl|]).
    by apply not_elem_of_nil in Hc. }
  split_and!; [reflexivity|reflexivity|exact Hwf|]. exact (dpll_sound_complete xor_cnf Hwf).
Defined.

(** Outside the declared variables a literal counts as open: the formula [x5]
    over one variable is reported satisfiable by an assignment without [x5]. *)
Lemma dpll_undeclared : solve_with_dpll (MkCnf 1 [[MkLit 5 false]]) = Some (Some [true]).
Proof. reflexivity. Qed.

(** ** Arc consistency *)

Notation Domain := (list Z) (only parsing).
(** [ConstraintGraph]: the arcs in the iteration order of the map, each key once. *)
Definition ConstraintGraph : Type := list (nat * nat * (Z -> Z -> bool)).
Definition arcs (g : ConstraintGraph) : list (nat * nat) := g.*1.
Fixpoint constraint (g : ConstraintGraph) (i j : nat) : option (Z -> Z -> bool) :=
  match g with [] => None | (k, f) :: g => if decide (k = (i, j)) then Some f else constraint g i j end.

(** The inner loop indexes [domains[j]] only when there is a value to check. *)
Definition partner_domain (doms : list Domain) (di : Domain) (j : nat) : option Domain :=
  match di with [] => Some [] | _ => doms !! j end.
(** [revise]; [None] is an index out of range. *)
Definition revise (doms : list Domain) (g : ConstraintGraph) (i j : nat) : option (list Domain * bool) :=
  match constraint g i j with
  | None => Some (doms, false)
  | Some pred =>
      di ← doms !! i;
      dj ← partner_domain doms di j;
      let keep := filter (fun x => existsb (pred x) dj = true) di in
      let revised := negb (length keep =? length di) in
      Some (if revised then <[ i := keep ]> doms else doms, revised)
  end.

Fixpoint ac3_loop (fuel : nat) (doms : list Domain) (g : ConstraintGraph) (queue : list (nat * nat)) : option (list Domain * bool) :=
  match fuel with
  | O => None
  | S fuel' =>
      match queue with
      | [] => Some (doms, true)
      | (i, j) :: queue =>
          '(doms, revised) ← revise doms g i j;
          if (revised : bool) then
            di ← doms !! i;
            match di with
            | [] => Some (doms, false)
            | _ => ac3_loop fuel' doms g (queue ++ filter (fun a => a.2 = i /\ a.1 <> j) (arcs g))
            end
          else ac3_loop fuel' doms g queue
      end
  end.
Definition total_size (doms : list Domain) : nat := sum_list (length <$> doms).
(** Every revision shortens a domain and adds at most all arcs. *)
Definition ac3 (doms : list Domain) (g : ConstraintGraph) : option (list Domain * bool) :=
  ac3_loop (S (length g * S (total_size doms))) doms g (arcs g).

(** ** Forward checking *)

(** The inner loop over [j]. *)
Definition fc_prune (g : ConstraintGraph) (i : nat) (val : Z) (st : list Domain) (j : nat) : option (list Domain) :=
  if i =? j then Some st
  else
    match constraint g i j with
    | None => Some st
    | Some pred =>
        dj ← st !! j;
        match filter (fun v => pred val v = true) dj with
        | [] => None
        | dj => Some (<[ j := dj ]> st)
        end
    end.
(** [forward_check]; [None] is the answer [None] of the source. *)
Definition forward_check (doms : list Domain) (asg : list (option Z)) (g : ConstraintGraph) : option (list Domain) :=
  if length doms =? length asg then
    fold_option (fun st i =>
      match mjoin (asg !! i) with
      | Some val => fold_option (fc_prune g i val) (<[ i := [val] ]> st) (seq 0 (length asg))
      | None => Some st
      end) doms (seq 0 (length asg))
  else None.

(** ** Solutions *)

(** A choice of values from the domains that satisfies every constraint. *)
Definition solution (g : ConstraintGraph) (doms : list Domain) (s : list Z) : Prop :=
  length s = length doms /\ (forall i x d, s !! i = Some x -> doms !! i = Some d -> x ∈ d) /\
  (forall i j f x y, constraint g i j = Some f -> s !! i = Some x -> s !! j = Some y -> f x y = true).
Definition graph_in_range (g : ConstraintGraph) (n : nat) : Prop := forall i j, (i, j) ∈ arcs g -> i < n /\ j < n.
Definition sub_domains (doms doms' : list Domain) : Prop :=
  length doms' = length doms /\ forall i d d', doms !! i = Some d -> doms' !! i = Some d' -> d' ⊆ d.
(** Every value of [xi] has a partner among those of [xj]. *)
Definition arc_consistent (g : ConstraintGraph) (doms : list Domain) (a : nat * nat) : Prop :=
  forall f di dj x, constraint g a.1 a.2 = Some f -> doms !! a.1 = Some di -> doms !! a.2 = Some dj -> x ∈ di ->
    exists y, y ∈ dj /\ f x y = true.
(** The two directions of a constraint, when both are given, say the same. *)
Definition symmetric (g : ConstraintGraph) : Prop :=
  forall i j f f', constraint g i j = Some f -> constraint g j i = Some f' -> forall x y, f x y = f' y x.

#[export] Instance sub_domains_preorder : PreOrder sub_domains.
Proof.
  split; [split; [done|intros i d d' ??; by simplify_eq]|]. intros a b c [Hl1 H1] [Hl2 H2]. split; [congruence|].
  intros i d d'' Hd Hd''. destruct (lookup_lt_is_Some_2 b i) as [d' Hd']; [rewrite Hl1; by eapply lookup_lt_Some|].
  specialize (H1 i d d' Hd Hd'). specialize (H2 i d' d'' Hd' Hd''). set_solver.
Qed.

Lemma constraint_arc g i j f : constraint g i j = Some f -> (i, j) ∈ arcs g.
Proof.
  induction g as [|[k h] g IH]; [done|]. cbn. case_decide as E; [intros _; subst; apply list_elem_of_here|].
  intros Hc. by apply list_elem_of_further, IH.
Qed.
Lemma arc_constraint g i j : (i, j) ∈ arcs g -> exists f, constraint g i j = Some f.
Proof.
  induction g as [|[k h] g IH]; cbn; [by intros ?%not_elem_of_nil|]. intros [<-|Hin]%elem_of_cons; [rewrite decide_True by done; eauto|].
  case_decide; eauto.
Qed.

Lemma filter_shorter {A} (P : A -> Prop) `{forall x, Decision (P x)} l : length (filter P l) = length l -> filter P l = l.
Proof.
  induction l as [|x l IH]; [done|]. rewrite filter_cons. case_decide; cbn [length]; intros Hl; [f_equal; apply IH; lia|].
  pose proof (length_filter P l). lia.
Qed.

Lemma sum_list_insert (l : list nat) i x y : l !! i = Some x -> sum_list (<[ i := y ]> l) + x = sum_list l + y.
Proof.
  revert i. induction l as [|z l IH]; intros [|i] Hi; try done.
  - injection Hi as ->. cbn. lia.
  - specialize (IH i Hi). change (<[ S i := y ]> (z :: l)) with (z :: <[ i := y ]> l). cbn [sum_list sum_list_with] in *.
    unfold sum_list in *. cbn [sum_list_with] in *. lia.
Qed.

(** One revision. *)
Lemma revise_spec doms g i j f : constraint g i j = Some f -> i < length doms -> j < length doms ->
  exists doms' r, revise doms g i j = Some (doms', r) /\ sub_domains doms doms' /\
    (forall s, solution g doms s -> solution g doms' s) /\
    (r = false -> doms' = doms) /\ (r = true -> S (total_size doms') <= total_size doms) /\
    (forall k, k <> i -> doms' !! k = doms !! k) /\
    (exists di dj, doms !! i = Some di /\ doms !! j = Some dj /\ doms' !! i = Some (filter (fun x => existsb (f x) dj = true) di)).
Proof.
  intros Hf Hi Hj. unfold revise. rewrite Hf. destruct (lookup_lt_is_Some_2 doms i Hi) as [di Hdi]. destruct (lookup_lt_is_Some_2 doms j Hj) as [dj Hdj].
  rewrite Hdi. cbn [mbind option_bind].
  assert (Hdj' : exists dj', partner_domain doms di j = Some dj' /\
    filter (fun x => existsb (f x) dj' = true) di = filter (fun x => existsb (f x) dj = true) di).
  { destruct di; [exists []; done|exists dj; done]. }
  destruct Hdj' as (dj' & -> & Hkeep). cbn [mbind option_bind]. rewrite Hkeep. set (keep := filter (fun x => existsb (f x) dj = true) di).
  assert (Hsup : forall s x, solution g doms s -> s !! i = Some x -> x ∈ keep).
  { intros s x (Hls & Hdom & Hcon) Hx. destruct (lookup_lt_is_Some_2 s j ltac:(lia)) as [y Hy]. apply list_elem_of_filter. split; [|by apply (Hdom i)].
    apply existsb_exists. exists y. split; [apply list_elem_of_In; by apply (Hdom j)|by apply (Hcon i j f)]. }
  destruct (length keep =? length di) eqn:E; cbn [negb].
  - apply Nat.eqb_eq, filter_shorter in E. exists doms, false. split_and!; [done|reflexivity|done|done|done|done|]. exists di, dj. split_and!; [done|done|]. rewrite Hdi. f_equal. by symmetry.
  - apply Nat.eqb_neq in E. exists (<[ i := keep ]> doms), true. split_and!; [done| | |done| | |].
    + split; [apply length_insert|]. intros k d d' Hd Hd'. destruct (decide (k = i)) as [->|Hne].
      * rewrite list_lookup_insert_eq in Hd' by done. assert (d' = keep /\ d = di) as [-> ->] by (split; congruence).
        intros x [_ Hx]%list_elem_of_filter. done.
      * rewrite list_lookup_insert_ne in Hd' by done. by simplify_eq.
    + intros s Hs. pose proof Hs as (Hls & Hdom & Hcon). split_and!; [by rewrite length_insert| |done]. intros k x d Hx Hd.
      destruct (decide (k = i)) as [->|Hne]; [rewrite list_lookup_insert_eq in Hd by done; injection Hd as <-; by apply (Hsup s)|].
      rewrite list_lookup_insert_ne in Hd by done. by apply (Hdom k).
    + intros _. unfold total_size. rewrite list_fmap_insert.
      assert (Hlen : (length <$> doms) !! i = Some (length di)) by (by rewrite list_lookup_fmap, Hdi).
      pose proof (sum_list_insert (length <$> doms) i (length di) (length keep) Hlen) as Hsum.
      pose proof (length_filter (fun x => existsb (f x) dj = true) di) as Hle. fold keep in Hle. lia.
    + intros k Hk. by rewrite list_lookup_insert_ne.
    + exists di, dj. split_and!; [done|done|]. by rewrite list_lookup_insert_eq.
Qed.

(** After a revision of [(i, j)] the arcs consistent before still are, and so is
    [(i, j)], except those into [i] that are queued again. *)
Lemma revise_arcs g doms doms' i j f di dj : symmetric g -> constraint g i j = Some f -> sub_domains doms doms' ->
  (forall k, k <> i -> doms' !! k = doms !! k) -> doms !! i = Some di -> doms !! j = Some dj ->
  doms' !! i = Some (filter (fun x => existsb (f x) dj = true) di) ->
  forall a, a = (i, j) \/ arc_consistent g doms a -> arc_consistent g doms' a \/ (a.2 = i /\ a.1 <> j).
Proof.
  intros Hsym Hf [Hlen Hsub] Hoff Hdi Hdj Hnew [k l] Ha. cbn [fst snd].
  assert (Hin : forall x, x ∈ filter (fun x => existsb (f x) dj = true) di <-> x ∈ di /\ exists y, y ∈ dj /\ f x y = true).
  { intros x. rewrite list_elem_of_filter, existsb_exists. setoid_rewrite <- list_elem_of_In. tauto. }
  destruct (decide (l = i /\ k <> j)) as [|Hn]; [by right|]. left. intros h dk dl x Hh Hdk Hdl Hx. cbn [fst snd] in *.
  assert (Hdk0 : exists dk0, doms !! k = Some dk0 /\ dk ⊆ dk0).
  { destruct (lookup_lt_is_Some_2 doms k) as [d0 Hd0]; [rewrite <- Hlen; by eapply lookup_lt_Some|]. exists d0. split; [done|]. by apply (Hsub k). }
  destruct Hdk0 as (dk0 & Hdk0 & Hdksub).
  assert (Hold : exists y dl0, doms !! l = Some dl0 /\ y ∈ dl0 /\ h x y = true).
  { destruct Ha as [[= -> ->]|Ha].
    - rewrite Hf in Hh. injection Hh as <-. rewrite Hnew in Hdk. injection Hdk as <-. apply Hin in Hx as (_ & y & Hy & Hxy). by exists y, dj.
    - destruct (lookup_lt_is_Some_2 doms l) as [dl0 Hdl0]; [rewrite <- Hlen; by eapply lookup_lt_Some|].
      destruct (Ha h dk0 dl0 x Hh Hdk0 Hdl0 (Hdksub x Hx)) as (y & Hy & Hxy). by exists y, dl0. }
  destruct Hold as (y & dl0 & Hdl0 & Hy & Hxy). exists y. split; [|done].
  destruct (decide (l = i)) as [->|Hne]; [|rewrite Hoff in Hdl by done; congruence].
  assert (k = j) as -> by (destruct (decide (k = j)); [done|tauto]).
  rewrite Hnew in Hdl. injection Hdl as <-. apply Hin. split; [congruence|]. exists x. split; [|by rewrite (Hsym i j f h Hf Hh)].
  apply Hdksub in Hx. congruence.
Qed.

Lemma ac3_loop_spec fuel doms g queue : graph_in_range g (length doms) -> Forall (fun a => a ∈ arcs g) queue ->
  length queue + length g * total_size doms < fuel ->
  exists doms' r, ac3_loop fuel doms g queue = Some (doms', r) /\ sub_domains doms doms' /\
    (forall s, solution g doms s -> solution g doms' s) /\ (r = false -> exists i, doms' !! i = Some []) /\
    (r = true -> symmetric g -> (forall a, a ∈ arcs g -> a ∈ queue \/ arc_consistent g doms a) -> forall a, a ∈ arcs g -> arc_consistent g doms' a).
Proof.
  revert doms queue. induction fuel as [|fuel IH]; intros doms queue Hg Hq Hf; [lia|]. cbn [ac3_loop].
  destruct queue as [|[i j] queue].
  { exists doms, true. split_and!; [done|reflexivity|done|done|]. intros _ _ Hall a Ha. by destruct (Hall a Ha) as [?%not_elem_of_nil|]. }
  apply Forall_cons in Hq as [Hij Hq]. destruct (Hg i j Hij) as [Hi Hj]. destruct (arc_constraint g i j Hij) as [f Hc].
  destruct (revise_spec doms g i j f Hc Hi Hj) as (doms1 & r & -> & Hsub & Hsol & Hr0 & Hr1 & Hoff & di & dj & Hdi & Hdj & Hnew).
  cbn [mbind option_bind length] in *. pose proof Hsub as [Hlen _].
  assert (Harcs : symmetric g -> forall a, (a ∈ arcs g -> a ∈ (i, j) :: queue \/ arc_consistent g doms a) -> a ∈ arcs g ->
      a ∈ queue \/ arc_consistent g doms1 a \/ (a.2 = i /\ a.1 <> j)).
  { intros Hsym a Hall Ha. destruct (Hall Ha) as [[->|Hin]%elem_of_cons|Hac]; [right|by left|right];
      (eapply revise_arcs; [exact Hsym|exact Hc|exact Hsub|exact Hoff|exact Hdi|exact Hdj|exact Hnew|auto]). }
  destruct r.
  - rewrite Hnew. cbn [mbind option_bind]. destruct (filter _ di) as [|x keep] eqn:Hkeep.
    { exists doms1, false. split_and!; [done|done|done|intros _; by exists i|done]. }
    assert (Hfl : length (filter (fun a : nat * nat => a.2 = i /\ a.1 <> j) (arcs g)) <= length g).
    { etransitivity; [apply length_filter|]. unfold arcs. by rewrite length_fmap. }
    specialize (Hr1 eq_refl). destruct (IH doms1 (queue ++ filter (fun a => a.2 = i /\ a.1 <> j) (arcs g))) as (doms2 & r & -> & Hsub2 & Hsol2 & Hf2 & Ht2).
    + by rewrite Hlen.
    + apply Forall_app. split; [done|]. apply Forall_forall. by intros a [_ Ha]%list_elem_of_filter.
    + rewrite length_app. nia.
    + exists doms2, r. split_and!; [done|by transitivity doms1|auto|done|]. intros -> Hsym Hall. apply Ht2; [done|done|].
      intros a Ha. destruct (Harcs Hsym a (Hall a) Ha) as [|[|]]; [left; apply elem_of_app; by left|by right|left].
      apply elem_of_app. right. by apply list_elem_of_filter.
  - rewrite (Hr0 eq_refl) in *. destruct (IH doms queue) as (doms2 & r & -> & Hsub2 & Hsol2 & Hf2 & Ht2); [done|done|lia|].
    exists doms2, r. split_and!; [done|done|done|done|]. intros -> Hsym Hall. apply Ht2; [done|done|].
    intros a Ha. destruct (Hall a Ha) as [[->|Hin]%elem_of_cons|]; [right|by left|by right].
    intros h dk dl x Hh Hdk Hdl Hx. cbn [fst snd] in *. rewrite Hc in Hh. injection Hh as <-. rewrite Hdi in Hdk. injection Hdk as <-.
    rewrite Hdj in Hdl. injection Hdl as <-. rewrite Hdi in Hnew. injection Hnew as Hnew. rewrite Hnew in Hx.
    apply list_elem_of_filter in Hx as [Hex _]. apply existsb_exists in Hex as (y & Hy%list_elem_of_In & Hxy). by exists y.
Qed.

(** AC-3 on arcs in range: it ends without a panic; the domains only
    shrink and keep every solution; [false] means some domain is empty, so there
    is no solution; and when the two directions of each constraint agree, [true]
    means every arc is consistent. *)
Theorem ac3_correct (doms : list Domain) (g : ConstraintGraph) : graph_in_range g (length doms) ->
  exists doms' r, ac3 doms g = Some (doms', r) /\ sub_domains doms doms' /\
    (forall s, solution g doms s -> solution g doms' s) /\
    (r = false -> forall s, ~ solution g doms s) /\
    (r = true -> symmetric g -> forall a, a ∈ arcs g -> arc_consistent g doms' a).
Proof.
  intros Hg. unfold ac3.
  destruct (ac3_loop_spec (S (length g * S (total_size doms))) doms g (arcs g)) as (doms' & r & -> & Hsub & Hsol & Hf & Ht).
  - done.
  - by apply Forall_forall.
  - unfold arcs. rewrite length_fmap. lia.
  - exists doms', r. split_and!; [done|done|done| |].
    + intros Hr s Hs. destruct (Hf Hr) as [i Hi]. pose proof (Hsol s Hs) as (Hl & Hdom & _). apply lookup_lt_Some in Hi as Hlt.
      destruct (lookup_lt_is_Some_2 s i ltac:(lia)) as [x Hx]. specialize (Hdom i x [] Hx Hi). by apply not_elem_of_nil in Hdom.
    + intros Hr Hsym. apply Ht; [done|done|by left].
Qed.
Definition less_graph : ConstraintGraph := [((0, 1), Z.ltb); ((1, 0), fun y x => Z.ltb x y)].
Lemma ac3_correct_witness :
  ac3 [[1; 2; 3]; [1; 2; 3]]%Z less_graph = Some ([[1; 2]; [2; 3]]%Z, true) /\ graph_in_range less_graph 2 /\
  exists doms' r, ac3 [[1; 2; 3]; [1; 2; 3]]%Z less_graph = Some (doms', r) /\ sub_domains [[1; 2; 3]; [1; 2; 3]]%Z doms' /\
    (forall s, solution less_graph [[1; 2; 3]; [1; 2; 3]]%Z s -> solution less_graph doms' s) /\
    (r = false -> forall s, ~ solution less_graph [[1; 2; 3]; [1; 2; 3]]%Z s) /\
    (r = true -> symmetric less_graph -> forall a, a ∈ arcs less_graph -> arc_consistent less_graph doms' a).
Proof.
  assert (Hg : graph_in_range less_graph 2).
  { intros i j Ha. repeat (apply elem_of_cons in Ha as [[= -> ->]|Ha]; [lia|]). by apply not_elem_of_nil in Ha. }
  split_and!; [reflexivity|exact Hg|]. exact (ac3_correct [[1; 2; 3]; [1; 2; 3]]%Z less_graph Hg).
Defined.

(** Without that agreement the arc opposite to a revised one is never looked at
    again, and the result need not be arc consistent. *)
Definition one_sided : ConstraintGraph := [((1, 0), fun y x => Z.leb y x); ((0, 1), fun x y => Z.ltb x 2)].
Lemma ac3_not_consistent :
  ac3 [[1; 2]; [2]]%Z one_sided = Some ([[1]; [2]]%Z, true) /\ ~ arc_consistent one_sided [[1]; [2]]%Z (1, 0).
Proof.
  split; [reflexivity|]. intros Hc. destruct (Hc (fun y x => Z.leb y x) [2]%Z [1]%Z 2%Z) as (y & Hy & Hle); [done|done|done|apply list_elem_of_here|].
  apply list_elem_of_singleton in Hy as ->. done.
Qed.

(** Forward checking replaces the domain of an assigned variable, also when an
    earlier one has already ruled the value out: two assigned variables that
    violate the one constraint between them pass. *)
Lemma forward_check_misses :
  forward_check [[1; 2]; [1; 2]]%Z [Some 1; Some 1]%Z [((0, 1), Z.ltb)] = Some [[1]; [1]]%Z /\
  ~ solution [((0, 1), Z.ltb)] [[1; 2]; [1; 2]]%Z [1; 1]%Z.
Proof. split; [reflexivity|]. intros (_ & _ & Hc). by specialize (Hc 0 1 Z.ltb 1%Z 1%Z eq_refl eq_refl eq_refl). Qed.

(** It never rules out a solution that extends the assignment. *)
Definition contains (doms : list Domain) (s : list Z) : Prop :=
  length doms = length s /\ forall i x d, s !! i = Some x -> doms !! i = Some d -> x ∈ d.

Lemma contains_insert doms s i d : contains doms s -> (forall x, s !! i = Some x -> x ∈ d) -> contains (<[ i := d ]> doms) s.
Proof.
  intros [Hl Hc] Hd. split; [by rewrite length_insert|]. intros k x d' Hx Hd'. destruct (decide (k = i)) as [->|Hne].
  - apply lookup_lt_Some in Hd' as Hi. rewrite length_insert in Hi. rewrite list_lookup_insert_eq in Hd' by done. injection Hd' as <-. auto.
  - rewrite list_lookup_insert_ne in Hd' by done. by apply (Hc k).
Qed.

Lemma fold_option_inv {A B} (P : A -> Prop) (f : A -> B -> option A) l a :
  (forall a b, b ∈ l -> P a -> exists a', f a b = Some a' /\ P a') -> P a -> exists a', fold_option f a l = Some a' /\ P a'.
Proof.
  revert a. induction l as [|b l IH]; intros a Hf Ha; [by exists a|]. rewrite fold_option_cons.
  destruct (Hf a b (list_elem_of_here _ _) Ha) as (a' & -> & Ha'). apply IH; [|done]. intros a0 b0 Hb. apply Hf. by apply list_elem_of_further.
Qed.

Lemma forward_check_sound doms asg g s : length doms = length asg -> solution g doms s ->
  (forall i v, asg !! i = Some (Some v) -> s !! i = Some v) ->
  exists pruned, forward_check doms asg g = Some pruned /\ contains pruned s.
Proof.
  intros Hlen (Hl & Hdom & Hcon) Hasg. unfold forward_check. rewrite Hlen, Nat.eqb_refl.
  apply (fold_option_inv (fun st => contains st s)); [|by split].
  intros st i _ Hst. destruct (asg !! i) as [[v|]|] eqn:Hi; cbn [mjoin option_join]; [|by exists st..].
  specialize (Hasg i v Hi). apply (fold_option_inv (fun st => contains st s)).
  - intros st' j Hj Hst'. unfold fc_prune. destruct (i =? j); [by exists st'|]. destruct (constraint g i j) as [pred|] eqn:Hc; [|by exists st'].
    apply elem_of_seq in Hj. destruct (lookup_lt_is_Some_2 st' j) as [dj Hdj]; [rewrite (proj1 Hst'); lia|]. rewrite Hdj. cbn [mbind option_bind].
    destruct (lookup_lt_is_Some_2 s j ltac:(lia)) as [y Hy].
    assert (Hin : y ∈ filter (fun x => pred v x = true) dj) by (apply list_elem_of_filter; split; [by apply (Hcon i j)|by apply (proj2 Hst' j)]).
    destruct (filter _ dj) as [|z keep]; [by apply not_elem_of_nil in Hin|]. eexists. split; [done|].
    apply contains_insert; [done|]. intros x Hx. by simplify_eq.
  - apply contains_insert; [done|]. intros x Hx. simplify_eq. apply list_elem_of_here.
Qed.
