(* ===== verification/Dominators.v ===== *)
(** * Dominators ([algorithms/src/control_flow/dominators.rs])

    The iterative computation ends and yields exactly the dominators: the
    vertices on every path from the entry.  [post_dominators] feeds it the
    predecessors of the forward graph instead of the reversed one. *)
From S2P Require Import Prelude AlgoSort AlgoSortProps Constraints.

(** [preds]: a map, absent keys standing for no predecessors. *)
Notation Preds := (gmap nat (list nat)) (only parsing).
Definition preds_of (preds : Preds) (n : nat) : list nat := default [] (preds !! n).
Definition all_nodes (node_count : nat) : gset nat := set_seq 0 node_count.

(** The sets of the predecessors; [None] is an index out of range. *)
Definition pred_doms (dom : list (gset nat)) (ps : list nat) : option (list (gset nat)) := mapM (fun p => dom !! p) ps.
(** [new_dom] of a vertex. *)
Definition new_dom (node_count : nat) (preds : Preds) (dom : list (gset nat)) (n : nat) : option (gset nat) :=
  sets ← pred_doms dom (preds_of preds n);
  Some (match sets with [] => all_nodes node_count | s :: ss => foldl (∩) s ss end ∪ {[n]}).

(** One vertex of a pass. *)
Definition dom_visit (node_count : nat) (preds : Preds) (entry : nat) (st : list (gset nat) * bool) (n : nat) : option (list (gset nat) * bool) :=
  let '(dom, changed) := st in
  if n =? entry then Some st
  else
    nd ← new_dom node_count preds dom n;
    old ← dom !! n;
    if decide (nd = old) then Some st else Some (<[ n := nd ]> dom, true).

(** The [while changed] loop. *)
Fixpoint dom_loop (fuel node_count : nat) (preds : Preds) (entry : nat) (dom : list (gset nat)) : option (list (gset nat)) :=
  match fuel with
  | O => None
  | S fuel' =>
      '(dom, changed) ← fold_option (dom_visit node_count preds entry) (dom, false) (seq 0 node_count);
      if (changed : bool) then dom_loop fuel' node_count preds entry dom else Some dom
  end.
Definition dominators (node_count : nat) (preds : Preds) (entry : nat) : option (list (gset nat)) :=
  let dom := replicate node_count (all_nodes node_count) in
  let dom := if entry <? node_count then <[ entry := {[entry]} ]> dom else dom in
  dom_loop (S (node_count * node_count)) node_count preds entry dom.

(** [entry(k).or_default().push(v)]. *)
Definition push_pred (preds : Preds) (k v : nat) : Preds := <[ k := preds_of preds k ++ [v] ]> preds.
Definition post_dominators (node_count : nat) (succs : list (list nat)) (exit_nodes : list nat) : option (list (gset nat)) :=
  let total := node_count + 1 in
  let super_exit := node_count in
  let preds := foldl (fun preds v => foldl (fun preds w => push_pred preds w v) preds (default [] (succs !! v))) ∅ (seq 0 node_count) in
  let preds := foldl (fun preds e => push_pred preds e super_exit) preds exit_nodes in
  dominators total preds super_exit.

(** ** Correctness *)

Section Dom.
Context (count : nat) (preds : Preds) (entry : nat).
Context (Hentry : entry < count) (Hpreds : forall n p, p ∈ preds_of preds n -> p < count).

(** The paths from the entry, last vertex first. *)
Inductive dpath : nat -> list nat -> Prop :=
| dpath_entry : dpath entry [entry]
| dpath_step p n l : dpath p l -> p ∈ preds_of preds n -> dpath n (n :: l).
Definition dominates (d n : nat) : Prop := forall l, dpath n l -> d ∈ l.

Lemma foldl_meet (s : gset nat) ss d : d ∈ foldl (∩) s ss <-> d ∈ s /\ forall t, t ∈ ss -> d ∈ t.
Proof.
  revert s. induction ss as [|t ss IH]; intros s; cbn.
  - split; [intros; split; [done|by intros t ?%not_elem_of_nil]|tauto].
  - rewrite IH, elem_of_intersection. split.
    + intros [[Hs Ht] Hss]. split; [done|]. by intros u [->|Hu]%elem_of_cons; auto.
    + intros [Hs Hss]. split_and!; [done|apply Hss, list_elem_of_here|]. intros u Hu. by apply Hss, list_elem_of_further.
Qed.

Lemma new_dom_spec dom n : length dom = count -> n < count ->
  exists nd, new_dom count preds dom n = Some nd /\
    forall d, d ∈ nd <-> d = n \/ ((preds_of preds n = [] -> d < count) /\ forall p s, p ∈ preds_of preds n -> dom !! p = Some s -> d ∈ s).
Proof.
  intros Hl Hn. unfold new_dom, pred_doms.
  destruct (mapM (fun p => dom !! p) (preds_of preds n)) as [sets|] eqn:E.
  2: { exfalso. apply mapM_None_1, Exists_exists in E as (p & Hp & Hnone). apply lookup_ge_None_1 in Hnone. specialize (Hpreds n p Hp). lia. }
  cbn. eexists. split; [reflexivity|]. intros d. rewrite elem_of_union, elem_of_singleton. apply mapM_Some_1 in E.
  assert (Hsets : forall P : gset nat -> Prop, (forall t, t ∈ sets -> P t) <-> forall p s, p ∈ preds_of preds n -> dom !! p = Some s -> P s).
  { intros P. split.
    - intros Ht p s [i Hi]%list_elem_of_lookup Hs. destruct (Forall2_lookup_l _ _ _ i p E Hi) as (t & Hti & Hpt). apply Ht. simplify_eq. by eapply list_elem_of_lookup_2.
    - intros Hs t [i Hi]%list_elem_of_lookup. destruct (Forall2_lookup_r _ _ _ i t E Hi) as (p & Hpi & Hpt). apply (Hs p t); [by eapply list_elem_of_lookup_2|done]. }
  destruct sets as [|s ss].
  - assert (Hnil : preds_of preds n = []) by (apply Forall2_length in E; by destruct (preds_of preds n)). rewrite Hnil. unfold all_nodes. rewrite elem_of_set_seq.
    split; [intros [Hd|]; [right; split; [lia|by intros p s' ?%not_elem_of_nil]|by left]|]. intros [|[Hd _]]; [by right|left]. specialize (Hd eq_refl). lia.
  - assert (Hne : preds_of preds n <> []) by (apply Forall2_length in E; by destruct (preds_of preds n)).
    rewrite foldl_meet, <- (Hsets (fun t => d ∈ t)). split.
    + intros [[Hs Hss]|]; [|by left]. right. split; [done|]. by intros t [->|Ht]%elem_of_cons; auto.
    + intros [|[_ Ht]]; [by right|left]. split; [apply Ht, list_elem_of_here|]. intros t Hts. by apply Ht, list_elem_of_further.
Qed.

(** The invariant of the iteration: the sets shrink towards the dominators. *)
Definition dom_inv (dom : list (gset nat)) : Prop :=
  length dom = count /\ dom !! entry = Some {[entry]} /\
  (forall n s, dom !! n = Some s -> s ⊆ all_nodes count) /\
  (forall n s d, dom !! n = Some s -> d < count -> dominates d n -> d ∈ s) /\
  (forall n s nd, n <> entry -> dom !! n = Some s -> new_dom count preds dom n = Some nd -> nd ⊆ s).

Lemma dom_initial : dom_inv (<[ entry := {[entry]} ]> (replicate count (all_nodes count))).
Proof.
  assert (Hl : length (<[ entry := {[entry]} ]> (replicate count (all_nodes count))) = count) by (by rewrite length_insert, length_replicate).
  assert (Hother : forall n s, <[ entry := {[entry]} ]> (replicate count (all_nodes count)) !! n = Some s -> n <> entry -> s = all_nodes count).
  { intros n s Hs Hne. rewrite list_lookup_insert_ne in Hs by done. by apply lookup_replicate in Hs as [? _]. }
  assert (Hent : <[ entry := {[entry]} ]> (replicate count (all_nodes count)) !! entry = Some {[entry]}) by (apply list_lookup_insert_eq; by rewrite length_replicate).
  split_and!; [done|done| | |].
  - intros n s Hs. destruct (decide (n = entry)) as [->|Hne]; [|by rewrite (Hother n s Hs Hne)]. rewrite Hent in Hs. injection Hs as <-.
    intros x ->%elem_of_singleton. apply elem_of_set_seq. lia.
  - intros n s d Hs Hd Hdom. destruct (decide (n = entry)) as [->|Hne]; [|rewrite (Hother n s Hs Hne); apply elem_of_set_seq; lia].
    rewrite Hent in Hs. injection Hs as <-. specialize (Hdom [entry] dpath_entry). by apply list_elem_of_singleton in Hdom as ->; apply elem_of_singleton.
  - intros n s nd Hne Hs Hnd. rewrite (Hother n s Hs Hne). assert (Hn : n < count) by (apply lookup_lt_Some in Hs; lia).
    destruct (new_dom_spec _ n Hl Hn) as (nd' & Hnd' & Hspec). rewrite Hnd in Hnd'. injection Hnd' as <-. intros d Hd. apply Hspec in Hd as [->|[Hnil Hps]]; [apply elem_of_set_seq; lia|].
    destruct (preds_of preds n) as [|p ps] eqn:Ep; [apply elem_of_set_seq; specialize (Hnil eq_refl); lia|].
    assert (Hp : p < count) by (apply (Hpreds n); rewrite Ep; apply list_elem_of_here).
    destruct (lookup_lt_is_Some_2 _ p (eq_ind_r (fun m => p < m) Hp Hl)) as [sp Hsp]. specialize (Hps p sp (list_elem_of_here _ _) Hsp).
    destruct (decide (p = entry)) as [->|Hpe]; [|by rewrite (Hother p sp Hsp Hpe) in Hps]. rewrite Hent in Hsp. injection Hsp as <-.
    apply elem_of_singleton in Hps as ->. apply elem_of_set_seq. lia.
Qed.

Lemma dom_update dom n nd old : dom_inv dom -> n < count -> n <> entry -> new_dom count preds dom n = Some nd -> dom !! n = Some old ->
  dom_inv (<[ n := nd ]> dom) /\ nd ⊆ old.
Proof.
  intros (Hl & Hent & Hall & Htrue & Hdec) Hn Hne Hnd Hold.
  assert (Hsub : nd ⊆ old) by (by apply (Hdec n old nd)). split; [|done].
  destruct (new_dom_spec dom n Hl Hn) as (nd' & Hnd' & Hspec). rewrite Hnd in Hnd'. injection Hnd' as <-.
  assert (Hl' : length (<[ n := nd ]> dom) = count) by (by rewrite length_insert).
  assert (Hat : <[ n := nd ]> dom !! n = Some nd) by (apply list_lookup_insert_eq; lia).
  assert (Hoff : forall m, m <> n -> <[ n := nd ]> dom !! m = dom !! m) by (intros; by apply list_lookup_insert_ne).
  assert (Hmono : forall m s', <[ n := nd ]> dom !! m = Some s' -> exists s, dom !! m = Some s /\ s' ⊆ s).
  { intros m s' Hs'. destruct (decide (m = n)) as [->|Hm]; [rewrite Hat in Hs'; injection Hs' as <-; by exists old|]. rewrite Hoff in Hs' by done. by exists s'. }
  split_and!; [done|by rewrite Hoff| | |].
  - intros m s' Hs'. destruct (Hmono m s' Hs') as (s & Hs & Hss). etransitivity; [exact Hss|by apply (Hall m)].
  - intros m s' d Hs' Hd Hdom. destruct (decide (m = n)) as [->|Hm]; [|rewrite Hoff in Hs' by done; by apply (Htrue m)].
    rewrite Hat in Hs'. injection Hs' as <-. apply Hspec. destruct (decide (d = n)) as [|Hdn]; [by left|right]. split; [done|].
    intros p s Hp Hs. apply (Htrue p); [done|done|]. intros l Hpl. specialize (Hdom (n :: l) (dpath_step p n l Hpl Hp)).
    by apply elem_of_cons in Hdom as [|].
  - intros m s' nd' Hme Hs' Hnd'. assert (Hm : m < count) by (apply lookup_lt_Some in Hs'; lia).
    destruct (new_dom_spec dom m Hl Hm) as (nd0 & Hnd0 & Hspec0). destruct (new_dom_spec _ m Hl' Hm) as (nd1 & Hnd1 & Hspec1).
    rewrite Hnd' in Hnd1. injection Hnd1 as <-.
    assert (Hle : nd' ⊆ nd0).
    { intros d Hd. apply Hspec1 in Hd. apply Hspec0. destruct Hd as [|[Hnil Hps]]; [by left|right]. split; [done|]. intros p s Hp Hs.
      destruct (lookup_lt_is_Some_2 (<[ n := nd ]> dom) p) as [sp Hsp]; [rewrite Hl'; by apply (Hpreds m)|].
      destruct (Hmono p sp Hsp) as (s0 & Hs0 & Hss). simplify_eq. apply Hss. by apply (Hps p). }
    destruct (decide (m = n)) as [->|Hmn].
    + rewrite Hat in Hs'. injection Hs' as <-. rewrite Hnd in Hnd0. injection Hnd0 as <-. done.
    + rewrite Hoff in Hs' by done. etransitivity; [exact Hle|]. by apply (Hdec m).
Qed.

Definition dom_size (dom : list (gset nat)) : nat := sum_list (size <$> dom).
Lemma dom_size_insert dom n nd old : dom !! n = Some old -> nd ⊂ old -> dom_size (<[ n := nd ]> dom) < dom_size dom.
Proof.
  intros Hn Hsub. apply subset_size in Hsub. unfold dom_size. rewrite list_fmap_insert.
  assert (Hs : (size <$> dom) !! n = Some (size old)) by (by rewrite list_lookup_fmap, Hn).
  pose proof (sum_list_insert (size <$> dom) n (size old) (size nd) Hs). lia.
Qed.

(** A pass: it shrinks the sets, or leaves every equation satisfied. *)
Lemma dom_pass ns dom ch : Forall (fun n => n < count) ns -> dom_inv dom ->
  exists dom' ch', fold_option (dom_visit count preds entry) (dom, ch) ns = Some (dom', ch') /\ dom_inv dom' /\
    ((ch' = ch /\ dom' = dom /\ forall n, n ∈ ns -> n <> entry -> new_dom count preds dom n = dom !! n) \/ (ch' = true /\ dom_size dom' < dom_size dom)).
Proof.
  revert dom ch. induction ns as [|n ns IH]; intros dom ch Hf Hinv.
  { exists dom, ch. split_and!; [done|done|]. left. split_and!; [done|done|by intros n ?%not_elem_of_nil]. }
  apply Forall_cons in Hf as [Hn Hf]. rewrite fold_option_cons. unfold dom_visit at 1. destruct (n =? entry) eqn:E.
  - apply Nat.eqb_eq in E. destruct (IH dom ch Hf Hinv) as (dom' & ch' & -> & Hi & [(-> & -> & Hall)|Hlt]); eexists _, _; split_and!; [done|done|left|done|done|by right].
    split_and!; [done|done|]. intros m [->|Hm]%elem_of_cons Hne; [done|auto].
  - apply Nat.eqb_neq in E. pose proof Hinv as (Hl & _). destruct (new_dom_spec dom n Hl Hn) as (nd & Hnd & _). rewrite Hnd. cbn [mbind option_bind].
    destruct (lookup_lt_is_Some_2 dom n ltac:(lia)) as [old Hold]. rewrite Hold. cbn [mbind option_bind].
    destruct (dom_update dom n nd old Hinv Hn E Hnd Hold) as [Hinv' Hsub]. destruct (decide (nd = old)) as [->|Hne].
    + destruct (IH dom ch Hf Hinv) as (dom' & ch' & -> & Hi & [(-> & -> & Hall)|Hlt]); eexists _, _; split_and!; [done|done|left|done|done|by right].
      split_and!; [done|done|]. intros m [->|Hm]%elem_of_cons Hme; [congruence|auto].
    + pose proof (dom_size_insert dom n nd old Hold ltac:(set_solver)) as Hlt.
      destruct (IH (<[ n := nd ]> dom) true Hf Hinv') as (dom' & ch' & -> & Hi & [(-> & -> & _)|[-> Hlt']]); eexists _, _; (split; [done|]); (split; [done|]); right; (split; [done|]); lia.
Qed.

Lemma dom_loop_spec fuel dom : dom_inv dom -> dom_size dom < fuel ->
  exists dom', dom_loop fuel count preds entry dom = Some dom' /\ dom_inv dom' /\
    forall n, n < count -> n <> entry -> new_dom count preds dom' n = dom' !! n.
Proof.
  revert dom. induction fuel as [|fuel IH]; intros dom Hinv Hf; [lia|]. cbn [dom_loop].
  destruct (dom_pass (seq 0 count) dom false) as (dom' & ch & -> & Hi & Hres); [apply Forall_forall; intros n Hn%elem_of_seq; lia|done|].
  cbn [mbind option_bind]. destruct Hres as [(-> & -> & Hall)|[-> Hlt]].
  - exists dom. split_and!; [done|done|]. intros n Hn. apply Hall, elem_of_seq. lia.
  - apply IH; [done|lia].
Qed.

(** At a fixed point every member dominates. *)
Lemma fixpoint_dominates dom : dom_inv dom -> (forall n, n < count -> n <> entry -> new_dom count preds dom n = dom !! n) ->
  forall n l, dpath n l -> n < count -> forall s d, dom !! n = Some s -> d ∈ s -> d ∈ l.
Proof.
  intros (Hl & Hent & _) Hfix n l Hp. induction Hp as [|p n l Hp IH Hpn]; intros Hn s d Hs Hd.
  - rewrite Hent in Hs. injection Hs as <-. apply elem_of_singleton in Hd as ->. apply list_elem_of_here.
  - destruct (decide (n = entry)) as [->|Hne].
    { rewrite Hent in Hs. injection Hs as <-. apply elem_of_singleton in Hd as ->. apply list_elem_of_here. }
    destruct (new_dom_spec dom n Hl Hn) as (nd & Hnd & Hspec). rewrite (Hfix n Hn Hne), Hs in Hnd. injection Hnd as <-.
    apply Hspec in Hd as [->|[_ Hps]]; [apply list_elem_of_here|]. pose proof (Hpreds n p Hpn) as Hpc.
    destruct (lookup_lt_is_Some_2 dom p ltac:(lia)) as [sp Hsp]. apply list_elem_of_further. apply (IH Hpc sp d Hsp). by apply (Hps p).
Qed.

Lemma initial_size : dom_size (<[ entry := {[entry]} ]> (replicate count (all_nodes count))) < S (count * count).
Proof.
  assert (Hgen : forall l : list (gset nat), (forall s, s ∈ l -> size s <= count) -> dom_size l <= length l * count).
  { unfold dom_size. induction l as [|s l IH]; intros Hs; [done|]. cbn. pose proof (Hs s (list_elem_of_here _ _)).
    assert (dom_size l <= length l * count) by (apply IH; intros; by apply Hs, list_elem_of_further). unfold dom_size in *. cbn in *. lia. }
  pose proof (Hgen (<[ entry := {[entry]} ]> (replicate count (all_nodes count)))) as H. rewrite length_insert, length_replicate in H. apply Nat.lt_succ_r, H.
  intros s [i Hi]%list_elem_of_lookup. destruct dom_initial as (_ & _ & Hall & _). specialize (Hall i s Hi). apply subseteq_size in Hall.
  unfold all_nodes in Hall. by rewrite size_set_seq in Hall.
Qed.
End Dom.

(** the iterative computation ends, without a panic, for every graph whose
    predecessors are in range, and its sets are exactly the dominators: [d] is in
    the set of [n] iff every path from the entry to [n] passes through [d]. *)
Theorem dominators_exact (count : nat) (preds : Preds) (entry : nat) : entry < count -> (forall n p, p ∈ preds_of preds n -> p < count) ->
  exists dom, dominators count preds entry = Some dom /\ length dom = count /\
    forall n s d, dom !! n = Some s -> d < count -> d ∈ s <-> dominates preds entry d n.
Proof.
  intros He Hp. unfold dominators. rewrite (proj2 (Nat.ltb_lt _ _) He).
  destruct (dom_loop_spec count preds entry He Hp (S (count * count)) _ (dom_initial count preds entry He Hp) (initial_size count preds entry He Hp)) as (dom & -> & Hinv & Hfix).
  exists dom. split_and!; [done|apply Hinv|]. intros n s d Hs Hd. split.
  - intros Hin l Hl. apply (fixpoint_dominates count preds entry He Hp dom Hinv Hfix n l Hl) with s; [|done|done].
    apply lookup_lt_Some in Hs. by rewrite (proj1 Hinv) in Hs.
  - intros Hdom. destruct Hinv as (_ & _ & _ & Htrue & _). by apply (Htrue n).
Qed.

(** The diamond: 0 branches to 1 and 2, which join in 3. *)
Definition diamond_preds : Preds := {[ 1 := [0]; 2 := [0]; 3 := [1; 2] ]}.
Lemma diamond_preds_ok n p : p ∈ preds_of diamond_preds n -> p < 4.
Proof.
  intros Hp. destruct (decide (n ∈ [1; 2; 3])) as [Hn|Hn].
  - repeat (apply elem_of_cons in Hn as [->|Hn]; [vm_compute in Hp; repeat (apply elem_of_cons in Hp as [->|Hp]; [lia|]); by apply not_elem_of_nil in Hp|]).
    by apply not_elem_of_nil in Hn.
  - rewrite !not_elem_of_cons in Hn. destruct Hn as (? & ? & ? & _). unfold preds_of, diamond_preds in Hp.
    rewrite !lookup_insert_ne, lookup_singleton_ne in Hp by done. by apply not_elem_of_nil in Hp.
Qed.
Lemma dominators_exact_witness :
  0 < 4 /\ exists dom, dominators 4 diamond_preds 0 = Some dom /\ length dom = 4 /\
    forall n s d, dom !! n = Some s -> d < 4 -> d ∈ s <-> dominates diamond_preds 0 d n.
Proof. split; [lia|]. apply (dominators_exact 4 diamond_preds 0); [lia|exact diamond_preds_ok]. Defined.

(** ** Post-dominators *)

(** The execution paths of a control-flow graph from a block to an exit. *)
Inductive exits (succs : list (list nat)) (exit_nodes : list nat) : nat -> list nat -> Prop :=
| exits_here v : v ∈ exit_nodes -> exits succs exit_nodes v [v]
| exits_step v w es l : succs !! v = Some es -> w ∈ es -> exits succs exit_nodes w l -> exits succs exit_nodes v (v :: l).

(** [post_dominators] does not compute post-dominators.  On the diamond
    0 -> 1, 0 -> 2, 1 -> 3, 2 -> 3 with exit 3 it puts block 1 in the set of block
    0, although the path 0, 2, 3 leaves without passing 1. *)
Theorem post_dominators_wrong :
  (exists dom s, post_dominators 4 [[1; 2]; [3]; [3]; []] [3] = Some dom /\ dom !! 0 = Some s /\ 1 ∈ s) /\
  exits [[1; 2]; [3]; [3]; []] [3] 0 [0; 2; 3].
Proof.
  split.
  - destruct (post_dominators 4 [[1; 2]; [3]; [3]; []] [3]) as [dom|] eqn:E; [|vm_compute in E; discriminate].
    vm_compute in E. injection E as <-. eexists _, _. split_and!; [reflexivity|reflexivity|]. vm_compute. reflexivity.
  - apply (exits_step _ _ 0 2 [1; 2]); [done|by apply list_elem_of_further, list_elem_of_here|].
    apply (exits_step _ _ 2 3 [3]); [done|apply list_elem_of_here|]. apply exits_here, list_elem_of_here.
Qed.
