(* ===== verification/CanonIr.v ===== *)
(** * The canonical intermediate representation ([canon-ir/src/])

    The node arena with its content-addressed types, the string intern tables,
    and the compressed adjacency ([CanonCsr], [CsrGraph]) of the sealed graphs.
    Ids are [u32]; a vector's length is cast to [u32] when an id is made. *)
From Stdlib Require Import Strings.Byte.
From stdpp Require Import finite.
From S2P Require Import Prelude AlgoSort Text PatchParser Merkle.

Notation CanonId := N (only parsing).
Notation NameId := N (only parsing).
Notation PathId := N (only parsing).

(** ** Nodes ([node.rs]) *)

Module flags.
Definition ASYNC : N := N.shiftl 1 0.
Definition UNSAFE : N := N.shiftl 1 1.
Definition MUT : N := N.shiftl 1 2.
Definition PUB : N := N.shiftl 1 3.
Definition GLOB : N := N.shiftl 1 4.
Definition INLINE : N := N.shiftl 1 5.
Definition PUB_CRATE : N := N.shiftl 1 6.
Definition PUB_SUPER : N := N.shiftl 1 7.
Definition PUB_IN : N := N.shiftl 1 8.
Definition EXTERN : N := N.shiftl 1 9.
Definition all : list N := [ASYNC; UNSAFE; MUT; PUB; GLOB; INLINE; PUB_CRATE; PUB_SUPER; PUB_IN; EXTERN].
End flags.

Inductive PrimTy : Set :=
| PBool | PChar | PStr | PU8 | PU16 | PU32 | PU64 | PU128 | PUsize
| PI8 | PI16 | PI32 | PI64 | PI128 | PIsize | PF32 | PF64 | PUnit | PNever.

Inductive TypeKind : Set :=
| Primitive (p : PrimTy)
| Adt (id : CanonId)
| Ref (lifetime : option CanonId) (inner : CanonId) (mutable : bool)
| RawPtr (inner : CanonId) (mutable : bool)
| Array (inner : CanonId) (len : N)
| Slice (inner : CanonId)
| Tuple (ids : list CanonId)
| FnPtr (sig : CanonId)
| ImplTrait (tr : CanonId)
| DynTrait (tr : CanonId)
| Param (name : NameId)
| Applied (base : CanonId) (args : list CanonId)
| Extern (path : PathId)
| Unresolved (path : PathId)
| TypeRef (name_id : NameId).

Inductive CfgOp : Set :=
| OLet (lhs ty : CanonId) (rhs : option CanonId)
| OAssign (lhs rhs : CanonId)
| OReturn (value : option CanonId)
| OCall (func : CanonId) (args : list CanonId) (dest : option CanonId)
| OFieldAccess (base : CanonId) (field : NameId) (dest : option CanonId)
| OMethodCall (receiver : CanonId) (method : NameId) (args : list CanonId) (dest : option CanonId)
| OIndex (base idx : CanonId) (dest : option CanonId)
| OClosure (sig_id body_id : CanonId)
| OInvalidUnitSentinel
| OStructLit (ty : CanonId) (fields : list (NameId * CanonId)) (dest : option CanonId)
| OMatch (dest : option CanonId)
| OBranch (cond : CanonId) (true_bb false_bb : N)
| OSwitch (discr : CanonId) (targets : list (CanonId * N)) (otherwise : option N)
| OGoto (bb : N)
| OUnreachable
| OSizeOf (ty dest : CanonId)
| OAlignOf (ty dest : CanonId)
| OOffsetOf (ty : CanonId) (fields : list NameId) (dest : CanonId)
| OTransmute (operand src_ty dst_ty dest : CanonId)
| OExpr (e : CanonId).

Inductive PatternKind : Set :=
| PWildcard
| PBinding (name_id : NameId) (mutable : bool)
| PTuple (pats : list CanonId)
| PStruct (ty : CanonId) (fields : list (NameId * CanonId))
| PTupleStruct (ty : CanonId) (fields : list CanonId)
| PLiteral (name : NameId)
| POr (pats : list CanonId).

Inductive WherePredKind : Set :=
| TypeBound (ty : CanonId) (bounds : list CanonId)
| LifetimeBound (lifetime : CanonId) (bounds : list CanonId).

Record DependencySpec : Set := { crate_root : PathId; package_name : option NameId }.

Inductive CanonNodeKind : Set :=
| NCrate (name_id : NameId) (cargo_name : option NameId) (edition : N) (dependencies : list PathId)
    (dependency_packages : list (option NameId)) (declared_dependencies : list DependencySpec)
| NModule (path_id : PathId) (flags : N)
| NStruct (name_id : NameId) (generics fields derives attrs : list CanonId) (flags struct_kind : N)
| NEnum (name_id : NameId) (generics variants derives attrs : list CanonId) (flags : N)
| NTrait (name_id : NameId) (generics methods attrs : list CanonId) (flags : N)
| NAssocType (name_id : NameId) (generics : list CanonId) (default_ty : option CanonId) (flags : N)
| NAssocConst (name_id : NameId) (ty : CanonId) (default_value : option NameId) (flags : N)
| NImpl (for_ty : CanonId) (for_trait : option CanonId) (generics attrs : list CanonId) (flags : N)
| NFn (name_id : NameId) (sig_id : CanonId) (body : option CanonId) (attrs : list CanonId) (flags : N)
| NFnSig (generics params : list CanonId) (ret : CanonId) (where_clauses : list CanonId)
| NType (kind : TypeKind)
| NField (name_id : option NameId) (ty : CanonId) (flags : N)
| NParam (name_id : NameId) (ty : CanonId) (flags : N)
| NGenericParam (name_id : NameId) (bounds : list CanonId) (is_lifetime : bool) (default_ty : option CanonId)
| NWherePred (kind : WherePredKind)
| NVariant (name_id : NameId) (fields : list CanonId)
| NAttr (path_id : PathId) (tokens : option NameId)
| NLifetime (name_id : NameId)
| NConst (name_id : NameId) (ty : CanonId) (value_id : NameId) (attrs : list CanonId) (flags : N)
| NStatic (name_id : NameId) (ty : CanonId) (value_id : NameId) (attrs : list CanonId) (flags : N)
| NUse (path_id : PathId) (alias : option NameId) (flags : N) (target : option CanonId)
| NExternCrate (name_id : NameId) (alias : option NameId) (flags : N)
| NTypeAlias (name_id : NameId) (generics : list CanonId) (ty : CanonId) (attrs : list CanonId) (flags : N)
| NTypeRef (name_id : NameId)
| NMacroCall (path_id : PathId) (tokens_id : NameId)
| NPathRef (path_id : PathId)
| NBody (blocks : list CanonId)
| NBasicBlock (ops : list CfgOp) (next : option N)
| NMatchArm (pattern : CanonId) (guard : option CanonId) (body : CanonId)
| NPattern (kind : PatternKind)
| NVisPath (flags : N) (path_id : PathId)
| NLocal (name_id : NameId) (ty : CanonId) (flags : N).

Record CanonNode : Set := MkNode { node_id : CanonId; node_kind : CanonNodeKind }.

(** ** Edges ([edge.rs], [edge_kind_code] of [ir.rs]) *)

Inductive EdgeKind : Set :=
| Renames | Resolves | ImplRef | TypeOf | TypeUnifies | EImplTrait | EDynTrait | Calls | Contains_ | ImplFor
| CfgEdge | CfgBranch (label : bytes) | Outlives | ConstDep | Expands | AssocItem | Instantiates | Reexports.

Definition edge_kind_code (k : EdgeKind) : N :=
  match k with
  | Renames => 0 | Resolves => 1 | ImplRef => 2 | TypeOf => 3 | TypeUnifies => 4 | EImplTrait => 5 | EDynTrait => 6
  | Calls => 7 | Contains_ => 8 | ImplFor => 9 | CfgEdge => 10 | CfgBranch _ => 11 | Outlives => 12 | ConstDep => 13
  | Expands => 14 | AssocItem => 15 | Instantiates => 16 | Reexports => 17
  end.

(** ** Content addressing: [TypeKind] as a map key *)

#[export] Instance PrimTy_eq_dec : EqDecision PrimTy.
Proof. solve_decision. Defined.
#[export] Instance TypeKind_eq_dec : EqDecision TypeKind.
Proof. solve_decision. Defined.
#[export] Instance PrimTy_finite : Finite PrimTy.
Proof.
  refine {| enum := [PBool; PChar; PStr; PU8; PU16; PU32; PU64; PU128; PUsize; PI8; PI16; PI32; PI64; PI128; PIsize; PF32; PF64; PUnit; PNever] |}.
  - apply (bool_decide_unpack _). vm_compute. exact I.
  - intros []; apply (bool_decide_unpack _); vm_compute; exact I.
Defined.

(** A code for each type: its constructor with the fields in order. *)
Definition typekind_code (k : TypeKind) : PrimTy + (N * list N * option N * bool) :=
  match k with
  | Primitive p => inl p
  | Adt id => inr (0, [id], None, false)
  | Ref l i m => inr (1, [i], l, m)
  | RawPtr i m => inr (2, [i], None, m)
  | Array i n => inr (3, [i; n], None, false)
  | Slice i => inr (4, [i], None, false)
  | Tuple ids => inr (5, ids, None, false)
  | FnPtr i => inr (6, [i], None, false)
  | ImplTrait i => inr (7, [i], None, false)
  | DynTrait i => inr (8, [i], None, false)
  | Param i => inr (9, [i], None, false)
  | Applied b args => inr (10, b :: args, None, false)
  | Extern i => inr (11, [i], None, false)
  | Unresolved i => inr (12, [i], None, false)
  | TypeRef i => inr (13, [i], None, false)
  end%N.
#[export] Instance typekind_code_inj : Inj (=) (=) typekind_code.
Proof. intros [] [] H; cbn in H; simplify_eq; done. Qed.
#[export] Instance TypeKind_countable : Countable TypeKind := inj_countable typekind_code
  (fun c => match c with
    | inl p => Some (Primitive p)
    | inr (t, ids, l, m) =>
        match N.to_nat t, ids with
        | 0, [i] => Some (Adt i) | 1, [i] => Some (Ref l i m) | 2, [i] => Some (RawPtr i m) | 3, [i; n] => Some (Array i n)
        | 4, [i] => Some (Slice i) | 5, ids => Some (Tuple ids) | 6, [i] => Some (FnPtr i) | 7, [i] => Some (ImplTrait i)
        | 8, [i] => Some (DynTrait i) | 9, [i] => Some (Param i) | 10, b :: args => Some (Applied b args)
        | 11, [i] => Some (Extern i) | 12, [i] => Some (Unresolved i) | 13, [i] => Some (TypeRef i) | _, _ => None
        end
    end) ltac:(by intros []).

(** ** Intern tables ([intern.rs]) *)

Record Interner := MkInterner { i_vec : list bytes; i_map : gmap bytes N }.
Definition interner_new : Interner := MkInterner [] ∅.
Definition intern (it : Interner) (s : bytes) : Interner * N :=
  match i_map it !! s with
  | Some idx => (it, idx)
  | None =>
      let idx := wrap32 (lenN (i_vec it)) in
      (MkInterner (i_vec it ++ [s]) (<[ s := idx ]> (i_map it)), idx)
  end.
(** [None] is a panic. *)
Definition i_lookup (it : Interner) (idx : N) : option bytes := i_vec it !! N.to_nat idx.
Definition restore_index (it : Interner) : Interner :=
  MkInterner (i_vec it) (foldl (fun m is_ => <[ snd is_ := wrap32 (N.of_nat (fst is_)) ]> m) ∅ (imap pair (i_vec it))).
(** What survives serialization: [map] is skipped. *)
Definition i_reloaded (it : Interner) : Interner := MkInterner (i_vec it) ∅.

(** ** Compressed adjacency *)

Section SortByKey.
Context {A : Type} (key : A -> N).
(** [sort_by_key] is stable: an element goes before the equal ones after it. *)
Fixpoint insert_by (x : A) (l : list A) : list A :=
  match l with
  | [] => [x]
  | y :: l' => if (key x <=? key y)%N then x :: l else y :: insert_by x l'
  end.
Definition sort_by_key (l : list A) : list A := foldr insert_by [] l.
End SortByKey.

(** [CanonCsr] and [CsrGraph]. *)
Record CanonCsr := MkCsr { row_ptr : list N; col_idx : list N; csr_kind : list N }.
Record CsrGraph (ND ED : Type) := MkGraph { g_node_data : list ND; g_row_ptr : list N; g_col_idx : list N; g_edge_data : list ED }.
Arguments MkGraph {ND ED}.
Arguments g_node_data {ND ED}.
Arguments g_row_ptr {ND ED}.
Arguments g_col_idx {ND ED}.
Arguments g_edge_data {ND ED}.
Definition csr_empty {ND ED} : CsrGraph ND ED := MkGraph [] [0%N] [] [].
Definition vertex_count {ND ED} (g : CsrGraph ND ED) : nat := length (g_node_data g).
Definition edge_count {ND ED} (g : CsrGraph ND ED) : nat := length (g_col_idx g).

Definition Edge : Type := N * N * EdgeKind.
Definition row_of (reverse : bool) (e : Edge) : N := let '(src, dst, _) := e in if reverse then dst else src.
Definition col_of (reverse : bool) (e : Edge) : N := let '(src, dst, _) := e in if reverse then src else dst.
Definition code_of (e : Edge) : N := let '(_, _, k) := e in edge_kind_code k.

(** The inner [while] of [build_csr] on the edges not yet placed. *)
Fixpoint take_row (reverse : bool) (node : N) (rest : list Edge) (cols kinds : list N) : list Edge * list N * list N :=
  match rest with
  | [] => ([], cols, kinds)
  | e :: rest' =>
      if (row_of reverse e =? node)%N then take_row reverse node rest' (cols ++ [col_of reverse e]) (kinds ++ [code_of e])
      else (rest, cols, kinds)
  end.
Definition build_step (reverse : bool) (st : list Edge * list N * list N * list N) (node : nat) : list Edge * list N * list N * list N :=
  let '(rest, cols, kinds, ptr) := st in
  let '(rest, cols, kinds) := take_row reverse (N.of_nat node) rest cols kinds in
  (rest, cols, kinds, <[ S node := wrap32 (lenN cols) ]> ptr).
Definition build_csr (node_count : nat) (edges : list Edge) (reverse : bool) : CanonCsr :=
  let sorted := sort_by_key (row_of reverse) edges in
  let '(_, cols, kinds, ptr) := foldl (build_step reverse) (sorted, [], [], replicate (node_count + 1) 0%N) (seq 0 node_count) in
  MkCsr ptr cols kinds.

(** [&v[start..end]]; [None] is a panic. *)
Definition sub_slice {A} (start end_ : nat) (l : list A) : option (list A) :=
  if (start <=? end_) && (end_ <=? length l) then Some (take (end_ - start) (drop start l)) else None.
Definition csr_edge_slices (csr : CanonCsr) (node_count : nat) (node : CanonId) : option (list N * list N) :=
  let idx := N.to_nat node in
  if idx <? node_count then
    s ← row_ptr csr !! idx; e ← row_ptr csr !! (S idx);
    cols ← sub_slice (N.to_nat s) (N.to_nat e) (col_idx csr);
    kinds ← sub_slice (N.to_nat s) (N.to_nat e) (csr_kind csr);
    Some (cols, kinds)
  else None.
(** [out_neighbors_with_kind], [in_neighbors_with_kind]. *)
Definition neighbors_with_kind (csr : CanonCsr) (node_count : nat) (node : CanonId) (code : N) : option (list N) :=
  '(cols, kinds) ← csr_edge_slices csr node_count node;
  Some ((filter (fun ck => ck.2 = code) (zip cols kinds)).*1).

Inductive csr_error : Set := BadRowLength | BadFirst | NotMonotonic | LengthMismatch | BadEdgeCount | ColOutOfRange.
Fixpoint monotonic (l : list N) : bool :=
  match l with a :: (b :: _) as l' => (a <=? b)%N && monotonic l' | _ => true end.
Definition validate_csr (csr : CanonCsr) (node_count : nat) : result csr_error unit :=
  if negb (length (row_ptr csr) =? node_count + 1) then Err BadRowLength
  else if negb (default 1%N (head (row_ptr csr)) =? 0)%N then Err BadFirst
  else if negb (monotonic (row_ptr csr)) then Err NotMonotonic
  else if negb (length (col_idx csr) =? length (csr_kind csr)) then Err LengthMismatch
  else if negb (default 0%N (row_ptr csr !! node_count) =? wrap32 (lenN (col_idx csr)))%N then Err BadEdgeCount
  else if existsb (fun d => (N.of_nat node_count <=? d)%N) (col_idx csr) then Err ColOutOfRange
  else Ok tt.

(** [CsrGraph::from_edges]: counting, then prefix sums; [None] is an index out
    of range or an overflow of [u32]. *)
Definition add_u32 (a b : N) : option N := if (a + b <=? u32_max)%N then Some (a + b)%N else None.
Definition count_row {ED} (ptr : list N) (e : N * N * ED) : option (list N) :=
  let i := S (N.to_nat (e.1.1)) in
  c ← ptr !! i; c ← add_u32 c 1; Some (<[ i := c ]> ptr).
Definition prefix_step (ptr : list N) (i : nat) : option (list N) :=
  a ← ptr !! i; b ← ptr !! (i - 1); c ← add_u32 a b; Some (<[ i := c ]> ptr).
Definition from_edges {ND ED} (node_data : list ND) (edges : list (N * N * ED)) : option (CsrGraph ND ED) :=
  let v := length node_data in
  let edges := sort_by_key (fun e => e.1.1) edges in
  ptr ← fold_option count_row (replicate (v + 1) 0%N) edges;
  ptr ← fold_option prefix_step ptr (seq 1 v);
  Some (MkGraph node_data ptr ((fun e => e.1.2) <$> edges) (snd <$> edges)).
Definition neighbours {ND ED} (g : CsrGraph ND ED) (v : N) : option (list (N * ED)) :=
  let i := N.to_nat v in
  s ← g_row_ptr g !! i; e ← g_row_ptr g !! (S i);
  cols ← sub_slice (N.to_nat s) (N.to_nat e) (g_col_idx g);
  data ← sub_slice (N.to_nat s) (N.to_nat e) (g_edge_data g);
  Some (zip cols data).

(** ** Paths *)

(** [str::split] with a non-empty separator. *)
Fixpoint split_fuel (fuel : nat) (sep cur l : bytes) : list bytes :=
  match fuel with
  | O => [cur]
  | S fuel' =>
      match l with
      | [] => [cur]
      | b :: l' =>
          match strip_prefix sep l with
          | Some rest => cur :: split_fuel fuel' sep [] rest
          | None => split_fuel fuel' sep (cur ++ [b]) l'
          end
      end
  end.
Definition split_on (sep l : bytes) : list bytes := split_fuel (S (length l)) sep [] l.

Definition bad_segment (seg : bytes) : bool := bool_decide (seg = lit "_") || starts_with (lit "__") seg.
(** [None] is the error. *)
Definition canonical_path_form (s : bytes) : option bytes :=
  let trimmed := trim s in
  let normalized := default trimmed (strip_prefix (lit "::") trimmed) in
  if bool_decide (normalized = []) || contains (lit "{") normalized || contains (lit "}") normalized
     || contains (lit "=>") normalized || contains (lit "!") normalized
     || starts_with (lit ":") normalized || ends_with (lit ":") normalized
     || existsb bad_segment (split_on (lit "::") normalized)
  then None else Some normalized.

(** ** The representation *)

Record CanonIR := MkIR {
  version : bytes; nodes : list CanonNode; emit_order : list CanonId;
  name_intern : Interner; path_intern : Interner; body_intern : Interner;
  type_index : gmap TypeKind CanonId;
  name_graph : CsrGraph CanonId EdgeKind; type_graph : CsrGraph CanonId EdgeKind; call_graph : CsrGraph CanonId EdgeKind;
  module_graph : CsrGraph CanonId EdgeKind; cfg_graph : CsrGraph CanonId EdgeKind; region_graph : CsrGraph CanonId EdgeKind;
  value_graph : CsrGraph CanonId EdgeKind; macro_graph : CsrGraph CanonId EdgeKind;
  graph_csr : CanonCsr; graph_csr_rev : CanonCsr;
}.
Definition ir_new : CanonIR :=
  MkIR (lit "canon-1.0") [] [] interner_new interner_new interner_new ∅
    csr_empty csr_empty csr_empty csr_empty csr_empty csr_empty csr_empty csr_empty (MkCsr [] [] []) (MkCsr [] [] []).

Section Update.
Context (ir : CanonIR).
Definition with_nodes (ns : list CanonNode) (ti : gmap TypeKind CanonId) : CanonIR :=
  MkIR (version ir) ns (emit_order ir) (name_intern ir) (path_intern ir) (body_intern ir) ti
    (name_graph ir) (type_graph ir) (call_graph ir) (module_graph ir) (cfg_graph ir) (region_graph ir) (value_graph ir) (macro_graph ir)
    (graph_csr ir) (graph_csr_rev ir).
Definition with_interns (n p b : Interner) : CanonIR :=
  MkIR (version ir) (nodes ir) (emit_order ir) n p b (type_index ir)
    (name_graph ir) (type_graph ir) (call_graph ir) (module_graph ir) (cfg_graph ir) (region_graph ir) (value_graph ir) (macro_graph ir)
    (graph_csr ir) (graph_csr_rev ir).
Definition with_csr (f r : CanonCsr) : CanonIR :=
  MkIR (version ir) (nodes ir) (emit_order ir) (name_intern ir) (path_intern ir) (body_intern ir) (type_index ir)
    (name_graph ir) (type_graph ir) (call_graph ir) (module_graph ir) (cfg_graph ir) (region_graph ir) (value_graph ir) (macro_graph ir) f r.
End Update.

Definition push_node (ir : CanonIR) (kind : CanonNodeKind) : CanonIR * CanonId :=
  let id := wrap32 (lenN (nodes ir)) in
  (with_nodes ir (nodes ir ++ [MkNode id kind]) (type_index ir), id).
Definition node (ir : CanonIR) (id : CanonId) : option CanonNode := nodes ir !! N.to_nat id.

Definition intern_name (ir : CanonIR) (s : bytes) : CanonIR * NameId :=
  let '(it, i) := intern (name_intern ir) s in (with_interns ir it (path_intern ir) (body_intern ir), i).
Definition intern_path (ir : CanonIR) (s : bytes) : CanonIR * option PathId :=
  match canonical_path_form s with
  | None => (ir, None)
  | Some p => let '(it, i) := intern (path_intern ir) p in (with_interns ir (name_intern ir) it (body_intern ir), Some i)
  end.
Definition intern_body (ir : CanonIR) (s : bytes) : CanonIR * NameId :=
  let '(it, i) := intern (body_intern ir) s in (with_interns ir (name_intern ir) (path_intern ir) it, i).

Definition intern_type (ir : CanonIR) (kind : TypeKind) : CanonIR * CanonId :=
  match type_index ir !! kind with
  | Some existing => (ir, existing)
  | None =>
      let '(ir, id) := push_node ir (NType kind) in
      (with_nodes ir (nodes ir) (<[ kind := id ]> (type_index ir)), id)
  end.

(** [entry(key).or_insert(node.id)]. *)
Definition index_node (ti : gmap TypeKind CanonId) (nd : CanonNode) : gmap TypeKind CanonId :=
  match node_kind nd with
  | NType kind => if bool_decide (is_Some (ti !! kind)) then ti else <[ kind := node_id nd ]> ti
  | _ => ti
  end.
Definition restore_type_index (ir : CanonIR) : CanonIR := with_nodes ir (nodes ir) (foldl index_node ∅ (nodes ir)).
Definition restore (ir : CanonIR) : CanonIR :=
  restore_type_index (with_interns ir (restore_index (name_intern ir)) (restore_index (path_intern ir)) (restore_index (body_intern ir))).
(** The value read back from its serialized form, before [restore]. *)
Definition reloaded (ir : CanonIR) : CanonIR :=
  with_interns (with_nodes ir (nodes ir) ∅) (i_reloaded (name_intern ir)) (i_reloaded (path_intern ir)) (i_reloaded (body_intern ir)).

Definition rebuild_global_csr_from_edges (ir : CanonIR) (edges : list Edge) : CanonIR :=
  with_csr ir (build_csr (length (nodes ir)) edges false) (build_csr (length (nodes ir)) edges true).
Definition out_edge_slices (ir : CanonIR) (n : CanonId) := csr_edge_slices (graph_csr ir) (length (nodes ir)) n.
Definition in_edge_slices (ir : CanonIR) (n : CanonId) := csr_edge_slices (graph_csr_rev ir) (length (nodes ir)) n.
Definition validate_global_csr (ir : CanonIR) : result csr_error unit :=
  match validate_csr (graph_csr ir) (length (nodes ir)) with
  | Err e => Err e
  | Ok _ => validate_csr (graph_csr_rev ir) (length (nodes ir))
  end.

(** The leading separator goes after the blanks, so normalization leaves a blank
    behind it and is not idempotent. *)
Example path_form_not_idempotent :
  canonical_path_form (lit ":: a") = Some (lit " a") /\ canonical_path_form (lit " a") = Some (lit "a").
Proof. split; vm_compute; reflexivity. Qed.
