(* ===== verification/CanonIrProps.v ===== *)
(** * Invariants and round trips of the intermediate representation

    Intern tables and the type index stay consistent under every operation and
    are rebuilt exactly after a reload; both compressed adjacencies list, for
    each node, its edges in the order given. *)
From Stdlib Require Import Strings.Byte.
From S2P Require Import Prelude AlgoSort AlgoSortProps Text PatchParser Merkle CanonIr.

(** ** Intern tables *)

Definition two32 : N := 4294967296.

(** The map is the inverse of the vector. *)
Definition i_wf (it : Interner) : Prop :=
  (lenN (i_vec it) <= two32)%N /\ forall s i, i_map it !! s = Some i <-> i_lookup it i = Some s.

Lemma lookup_lenN {A} (l : list A) i x : l !! N.to_nat i = Some x -> (i < lenN l)%N.
Proof. intros H%lookup_lt_Some. unfold lenN. lia. Qed.

Lemma lookup_snoc_N {A} (l : list A) x i y : (l ++ [x]) !! N.to_nat i = Some y <-> l !! N.to_nat i = Some y \/ (i = lenN l /\ y = x).
Proof.
  unfold lenN. rewrite lookup_app_Some. split.
  - intros [|[Hl Hy]]; [by left|]. right. destruct (N.to_nat i - length l) as [|k] eqn:E; [|by destruct k]. cbn in Hy. simplify_eq. split; [lia|done].
  - intros [|[-> ->]]; [by left|]. right. rewrite Nat2N.id. split; [lia|]. by rewrite Nat.sub_diag.
Qed.

Lemma interner_spec it s : i_wf it -> (lenN (i_vec it) < two32)%N ->
  let '(it', i) := intern it s in
  i_wf it' /\ i_lookup it' i = Some s /\ (forall j t, i_lookup it j = Some t -> i_lookup it' j = Some t) /\
  (lenN (i_vec it') <= lenN (i_vec it) + 1)%N.
Proof.
  intros [Hl Hw] Hlt. unfold intern. destruct (i_map it !! s) as [i|] eqn:E; [split_and!; [by split|by apply Hw|done|lia]|].
  rewrite wrap32_small by done. unfold i_wf, i_lookup in *. cbn [i_vec i_map]. rewrite lenN_app. change (lenN [s]) with 1%N. split_and!.
  - lia.
  - intros t j. rewrite lookup_snoc_N. destruct (decide (t = s)) as [->|Hne].
    + rewrite lookup_insert_eq. split; [intros [= <-]; by right|]. intros [Hj|[-> _]]; [|done]. apply Hw in Hj. congruence.
    + rewrite lookup_insert_ne, Hw by done. naive_solver.
  - apply lookup_snoc_N. by right.
  - intros j t Hj. apply lookup_snoc_N. by left.
  - lia.
Qed.

Lemma index_fold_spec (v : list bytes) (k : nat) (m : gmap bytes N) :
  (forall i j s, v !! i = Some s -> v !! j = Some s -> i = j) -> (N.of_nat (k + length v) <= two32)%N ->
  forall s i, foldl (fun m is_ => <[ snd is_ := wrap32 (N.of_nat (fst is_)) ]> m) m (imap (fun i s => (k + i, s)) v) !! s = Some i <->
    (exists j, v !! j = Some s /\ i = N.of_nat (k + j)) \/ (s ∉ v /\ m !! s = Some i).
Proof.
  revert k m. induction v as [|t v IH]; intros k m Hu Hk s i; cbn [imap foldl].
  { split; [intros Hs; right; split; [apply not_elem_of_nil|done]|]. by intros [(j & ? & _)|[_ ?]]. }
  cbn [length] in Hk. replace (imap ((fun i s => (k + i, s)) ∘ S) v) with (imap (fun i s => (S k + i, s)) v) by (apply imap_ext; intros; cbn; f_equal; lia).
  rewrite IH by (try lia; intros a b x Ha Hb; assert (S a = S b) by (by apply (Hu (S a) (S b) x)); lia).
  cbn [fst snd]. rewrite Nat.add_0_r, wrap32_small by (unfold two32 in *; lia). split.
  - intros [(j & Hj & ->)|[Hs Hm]]; [left; exists (S j); split; [done|lia]|]. destruct (decide (s = t)) as [->|Hne].
    + rewrite lookup_insert_eq in Hm. injection Hm as <-. left. exists 0. split; [done|lia].
    + rewrite lookup_insert_ne in Hm by done. right. split; [|done]. by intros [|]%elem_of_cons.
  - intros [([|j] & Hj & ->)|[Hs Hm]].
    + cbn in Hj. injection Hj as ->. right. split; [|rewrite lookup_insert_eq; f_equal; lia]. intros [a Ha]%list_elem_of_lookup.
      assert (S a = 0) by (by apply (Hu (S a) 0 s)). lia.
    + left. exists j. split; [done|lia].
    + apply not_elem_of_cons in Hs as [Hne Hs]. right. split; [done|]. by rewrite lookup_insert_ne.
Qed.

(** Reloading loses the map, [restore_index] rebuilds it. *)
Lemma restore_index_exact it : i_wf it -> restore_index (i_reloaded it) = it.
Proof.
  intros [Hl Hw]. destruct it as [v m]. unfold restore_index, i_reloaded. cbn [i_vec i_map] in *. f_equal. apply map_eq. intros s. apply option_eq. intros i.
  change (imap pair v) with (imap (fun i s => (0 + i, s)) v). rewrite index_fold_spec; [| |by unfold lenN in Hl].
  - rewrite lookup_empty, Hw. unfold i_lookup. cbn. split.
    + intros [(j & Hj & ->)|[_ ?]]; [|done]. by rewrite Nat2N.id.
    + intros Hi. left. exists (N.to_nat i). split; [done|lia].
  - intros a b t Ha Hb. assert (Some (N.of_nat a) = Some (N.of_nat b)) as [= He]; [|lia].
    rewrite <- (proj2 (Hw t (N.of_nat a))) by (unfold i_lookup; cbn; by rewrite Nat2N.id).
    apply (proj2 (Hw t (N.of_nat b))). unfold i_lookup. cbn. by rewrite Nat2N.id.
Qed.

(** ** The arena and the type index *)

Definition ir_wf (ir : CanonIR) : Prop :=
  i_wf (name_intern ir) /\ i_wf (path_intern ir) /\ i_wf (body_intern ir) /\
  (lenN (nodes ir) <= two32)%N /\
  (forall i nd, node ir i = Some nd -> node_id nd = i) /\
  (forall k id, type_index ir !! k = Some id <-> node ir id = Some (MkNode id (NType k))).

Lemma push_node_spec ir kind : (lenN (nodes ir) < two32)%N ->
  let '(ir', id) := push_node ir kind in
  id = lenN (nodes ir) /\ (forall i nd, node ir' i = Some nd <-> node ir i = Some nd \/ (i = id /\ nd = MkNode id kind)) /\
  type_index ir' = type_index ir /\ lenN (nodes ir') = (lenN (nodes ir) + 1)%N.
Proof.
  intros Hlt. unfold push_node. rewrite wrap32_small by done. split_and!; [done| |done|cbn; by rewrite lenN_app].
  intros i nd. unfold node. cbn. apply lookup_snoc_N.
Qed.

Lemma intern_type_spec ir k : ir_wf ir -> (lenN (nodes ir) < two32)%N ->
  let '(ir', id) := intern_type ir k in
  ir_wf ir' /\ node ir' id = Some (MkNode id (NType k)) /\ (forall i nd, node ir i = Some nd -> node ir' i = Some nd) /\
  (lenN (nodes ir') <= lenN (nodes ir) + 1)%N.
Proof.
  intros (Hn & Hp & Hb & Hl & Hid & Hti) Hlt. unfold intern_type. destruct (type_index ir !! k) as [id|] eqn:E.
  { split_and!; [by split_and!|by apply Hti|done|lia]. }
  pose proof (push_node_spec ir (NType k) Hlt) as Hpush. destruct (push_node ir (NType k)) as [ir1 id] eqn:Eir. destruct Hpush as (-> & Hnode & Hti1 & Hlen).
  assert (Hint : name_intern ir1 = name_intern ir /\ path_intern ir1 = path_intern ir /\ body_intern ir1 = body_intern ir)
    by (injection Eir as <- _; done). destruct Hint as (Hn1 & Hp1 & Hb1).
  assert (Hfresh : forall nd, node ir (lenN (nodes ir)) <> Some nd) by (intros nd Hnd; apply lookup_lenN in Hnd; lia).
  split_and!; [split_and!; cbn; rewrite ?Hn1, ?Hp1, ?Hb1; [done..|lia| |]|cbn; apply Hnode; by right|intros i nd Hnd; cbn; apply Hnode; by left|cbn; lia].
  - intros i nd Hi. cbn in Hi. apply Hnode in Hi as [Hi|[-> ->]]; [by apply Hid|done].
  - intros k' id'. unfold node. cbn. fold (node ir1 id'). rewrite Hnode, Hti1. destruct (decide (k' = k)) as [->|Hne].
    + rewrite lookup_insert_eq. split; [intros [= <-]; by right|]. intros [Hi|[-> _]]; [|done]. apply Hti in Hi. congruence.
    + rewrite lookup_insert_ne, Hti by done. split; [by left|]. intros [|[-> [= ->]]]; done.
Qed.

Lemma index_nodes_spec ns (m : gmap TypeKind CanonId) : (forall a b k, a ∈ ns -> b ∈ ns -> node_kind a = NType k -> node_kind b = NType k -> a = b) ->
  forall k id, foldl index_node m ns !! k = Some id <->
    m !! k = Some id \/ (m !! k = None /\ exists nd, nd ∈ ns /\ node_kind nd = NType k /\ node_id nd = id).
Proof.
  revert m. induction ns as [|nd ns IH]; intros m Hu k id; cbn [foldl].
  { split; [by left|]. by intros [|(_ & nd & ?%not_elem_of_nil & _)]. }
  rewrite IH by (intros a b x Ha Hb; apply Hu; by apply list_elem_of_further).
  assert (Hskip : index_node m nd = m -> (forall k', node_kind nd = NType k' -> is_Some (m !! k')) ->
    (m !! k = Some id \/ (m !! k = None /\ exists x, x ∈ ns /\ node_kind x = NType k /\ node_id x = id)) <->
    (m !! k = Some id \/ (m !! k = None /\ exists x, x ∈ nd :: ns /\ node_kind x = NType k /\ node_id x = id))).
  { intros _ Hhas. split; (intros [|(Hm & x & Hx & Hk & Hi)]; [by left|right; split; [done|]; exists x]).
    - split_and!; [by apply list_elem_of_further|done|done].
    - apply elem_of_cons in Hx as [->|Hx]; [|done]. destruct (Hhas k Hk) as [? Hs]. congruence. }
  destruct (node_kind nd) as [| | | | | | | | | |k0| | | | | | | | | | | | | | | | | | | | |] eqn:Ek;
    try (replace (index_node m nd) with m by (unfold index_node; by rewrite Ek); apply Hskip; [unfold index_node; by rewrite Ek|done]).
  unfold index_node. rewrite Ek. case_bool_decide as Hs.
  { apply Hskip; [unfold index_node; rewrite Ek; by rewrite bool_decide_true|by intros k' [= <-]]. }
  apply eq_None_not_Some in Hs. destruct (decide (k = k0)) as [->|Hne].
  - rewrite lookup_insert_eq, Hs. split.
    + intros [[= <-]|[? _]]; [|done]. right. split; [done|]. exists nd. split_and!; [apply list_elem_of_here|done|done].
    + intros [|(_ & x & Hx & Hk & <-)]; [done|]. left. f_equal. f_equal. apply (Hu nd x k0); [apply list_elem_of_here|done|done|done].
  - rewrite lookup_insert_ne by done. split; (intros [|(Hm & x & Hx & Hk & Hi)]; [by left|right; split; [done|]; exists x]).
    + split_and!; [by apply list_elem_of_further|done|done].
    + apply elem_of_cons in Hx as [->|Hx]; [congruence|done].
Qed.

Lemma restore_type_index_exact ir : ir_wf ir -> foldl index_node ∅ (nodes ir) = type_index ir.
Proof.
  intros (_ & _ & _ & _ & Hid & Hti). apply map_eq. intros k. apply option_eq. intros id.
  assert (Hat : forall nd k, nd ∈ nodes ir -> node_kind nd = NType k -> type_index ir !! k = Some (node_id nd)).
  { intros nd k' [i Hi]%list_elem_of_lookup Hk. apply Hti. assert (Hn : node ir (N.of_nat i) = Some nd) by (unfold node; by rewrite Nat2N.id).
    rewrite (Hid _ _ Hn). rewrite Hn. f_equal. rewrite <- (Hid _ _ Hn). destruct nd as [j kd]. cbn in *. by subst. }
  rewrite index_nodes_spec.
  - rewrite lookup_empty. split.
    + intros [|(_ & nd & Hin & Hk & <-)]; [done|by apply Hat].
    + intros Hk. right. split; [done|]. apply Hti in Hk. exists (MkNode id (NType k)). split_and!; [|done|done].
      unfold node in Hk. by eapply list_elem_of_lookup_2.
  - intros a b k' Ha Hb Hka Hkb. assert (Hsame : node_id a = node_id b) by (pose proof (Hat a k' Ha Hka); pose proof (Hat b k' Hb Hkb); congruence).
    destruct a as [ia ka], b as [ib kb]. cbn in *. by subst.
Qed.

(** ** Sequences of operations *)

(** What the passes that build a representation do to it; types are made only
    through [intern_type]. *)
Inductive ir_op : Type :=
| PushNode (kind : CanonNodeKind) | InternType (kind : TypeKind)
| InternName (s : bytes) | InternPath (s : bytes) | InternBody (s : bytes) | RebuildCsr (edges : list Edge).
Definition is_type (kind : CanonNodeKind) : bool := match kind with NType _ => true | _ => false end.
Definition ir_step (ir : CanonIR) (op : ir_op) : CanonIR :=
  match op with
  | PushNode k => fst (push_node ir k)
  | InternType k => fst (intern_type ir k)
  | InternName s => fst (intern_name ir s)
  | InternPath s => fst (intern_path ir s)
  | InternBody s => fst (intern_body ir s)
  | RebuildCsr es => rebuild_global_csr_from_edges ir es
  end.
Definition ir_run (ops : list ir_op) : CanonIR := foldl ir_step ir_new ops.

(** The sizes of the tables. *)
Definition ir_sizes (ir : CanonIR) (n : N) : Prop :=
  (lenN (nodes ir) <= n /\ lenN (i_vec (name_intern ir)) <= n /\ lenN (i_vec (path_intern ir)) <= n /\ lenN (i_vec (body_intern ir)) <= n)%N.

Lemma ir_step_wf ir op n : (forall k, op = PushNode k -> is_type k = false) -> ir_wf ir -> ir_sizes ir n -> (n < two32)%N ->
  ir_wf (ir_step ir op) /\ ir_sizes (ir_step ir op) (n + 1).
Proof.
  intros Hnt Hwf (Hs1 & Hs2 & Hs3 & Hs4) Hn. pose proof Hwf as (Hwn & Hwp & Hwb & Hl & Hid & Hti).
  assert (Hbig : forall k : N, (k <= n)%N -> (k < two32)%N) by (intros; lia).
  destruct op as [k|k|s|s|s|es]; cbn [ir_step].
  - pose proof (push_node_spec ir k (Hbig _ Hs1)) as Hp. destruct (push_node ir k) as [ir' id] eqn:E. destruct Hp as (-> & Hnode & Hti' & Hlen).
    assert (Hint : name_intern ir' = name_intern ir /\ path_intern ir' = path_intern ir /\ body_intern ir' = body_intern ir) by (injection E as <- _; done).
    destruct Hint as (E1 & E2 & E3). cbn [fst]. specialize (Hnt k eq_refl). split; [|unfold ir_sizes; rewrite E1, E2, E3; lia].
    split_and!; rewrite ?E1, ?E2, ?E3; [done|done|done|lia| |].
    + intros i nd Hi. apply Hnode in Hi as [Hi|[-> ->]]; [by apply Hid|done].
    + intros k' id. rewrite Hti', Hti, Hnode. split; [by left|]. intros [|[_ [= _ <-]]]; [done|]. done.
  - pose proof (intern_type_spec ir k Hwf (Hbig _ Hs1)) as Ht. destruct (intern_type ir k) as [ir' id] eqn:E. destruct Ht as (Hwf' & _ & _ & Hlen).
    assert (Hint : name_intern ir' = name_intern ir /\ path_intern ir' = path_intern ir /\ body_intern ir' = body_intern ir).
    { unfold intern_type in E. destruct (type_index ir !! k); [by injection E as <- _|]. unfold push_node in E. by injection E as <- _. }
    destruct Hint as (E1 & E2 & E3). split; [done|]. unfold ir_sizes. cbn [fst]. rewrite E1, E2, E3. lia.
  - unfold intern_name. pose proof (interner_spec (name_intern ir) s Hwn (Hbig _ Hs2)) as Hi. destruct (intern (name_intern ir) s) as [it i]. destruct Hi as (Hit & _ & _ & Hlen).
    cbn. split; [by split_and!|]. unfold ir_sizes. cbn. lia.
  - unfold intern_path. destruct (canonical_path_form s) as [p|]; [|split; [done|unfold ir_sizes; cbn; lia]].
    pose proof (interner_spec (path_intern ir) p Hwp (Hbig _ Hs3)) as Hi. destruct (intern (path_intern ir) p) as [it i]. destruct Hi as (Hit & _ & _ & Hlen).
    cbn. split; [by split_and!|]. unfold ir_sizes. cbn. lia.
  - unfold intern_body. pose proof (interner_spec (body_intern ir) s Hwb (Hbig _ Hs4)) as Hi. destruct (intern (body_intern ir) s) as [it i]. destruct Hi as (Hit & _ & _ & Hlen).
    cbn. split; [by split_and!|]. unfold ir_sizes. cbn. lia.
  - split; [by split_and!|]. unfold ir_sizes. cbn. lia.
Qed.

Lemma ir_new_wf : ir_wf ir_new.
Proof.
  assert (Hi : i_wf interner_new) by (split; [done|intros s i; unfold i_lookup; cbn; by rewrite lookup_empty]).
  split_and!; [done|done|done|done|intros i nd; unfold node; cbn; done|].
  intros k id. unfold node. cbn. by rewrite lookup_empty.
Qed.

Lemma ir_run_wf ops : (forall k, PushNode k ∈ ops -> is_type k = false) -> (lenN ops < two32)%N ->
  ir_wf (ir_run ops) /\ ir_sizes (ir_run ops) (lenN ops).
Proof.
  induction ops as [|op ops IH] using rev_ind; intros Hnt Hl; [split; [apply ir_new_wf|by repeat split]|].
  rewrite lenN_app in *. change (lenN [op]) with 1%N in *. unfold ir_run in *. rewrite foldl_app. cbn [foldl].
  destruct IH as [Hw Hs]; [intros k Hk; apply Hnt, elem_of_app; by left|lia|].
  apply ir_step_wf; [|done|done|lia]. intros k ->. apply Hnt, elem_of_app. right. apply list_elem_of_here.
Qed.

(** C30: the representation is well formed after any sequence of its operations
    (fewer than 2^32) in which type nodes are made by [intern_type] only, never
    by [push_node]: every node carries its own index as id, the type index
    maps a kind to the one node of that kind, each intern table is a bijection
    between its strings and indices; and all runtime-only indices are rebuilt
    exactly by [restore] after a reload. *)
Theorem ir_operations_wf (ops : list ir_op) : (forall k, PushNode k ∈ ops -> is_type k = false) -> (lenN ops < two32)%N ->
  ir_wf (ir_run ops) /\ restore (reloaded (ir_run ops)) = ir_run ops.
Proof.
  intros Hnt Hl. destruct (ir_run_wf ops Hnt Hl) as [Hwf _]. split; [done|]. pose proof Hwf as (Hn & Hp & Hb & _).
  pose proof (restore_index_exact _ Hn) as En. pose proof (restore_index_exact _ Hp) as Ep. pose proof (restore_index_exact _ Hb) as Eb.
  pose proof (restore_type_index_exact _ Hwf) as Et. destruct (ir_run ops) as [? ns ? n p b ti]. cbn in En, Ep, Eb, Et.
  unfold restore, reloaded, restore_type_index, with_interns, with_nodes. cbn. by rewrite En, Ep, Eb, Et.
Qed.
(** A type node made by [push_node] is not in the type index: [intern_type]
    makes a second node of the kind, and a reload changes the index. *)
Lemma pushed_type_not_indexed (k : TypeKind) : let ir := fst (push_node ir_new (NType k)) in
  lenN (nodes (fst (intern_type ir k))) = 2%N /\ restore (reloaded ir) <> ir.
Proof.
  cbv zeta. split.
  - unfold intern_type. change (type_index (fst (push_node ir_new (NType k))) !! k) with ((∅ : gmap TypeKind CanonId) !! k). by rewrite lookup_empty.
  - intros He. apply (f_equal (fun ir => type_index ir !! k)) in He. cbn in He. rewrite lookup_empty in He. revert He. rewrite bool_decide_eq_false_2 by (by intros []). by rewrite lookup_insert_eq.
Qed.
Definition sample_ops : list ir_op :=
  [InternName (lit "f"); InternType (Primitive PU32); PushNode (NModule 0 flags.PUB); InternType (Slice 0); InternType (Primitive PU32); InternPath (lit "a::b")].
Lemma ir_operations_wf_witness :
  (forall k, PushNode k ∈ sample_ops -> is_type k = false) /\ (lenN sample_ops < two32)%N /\ lenN (nodes (ir_run sample_ops)) = 3%N /\
  ir_wf (ir_run sample_ops) /\ restore (reloaded (ir_run sample_ops)) = ir_run sample_ops.
Proof.
  assert (Hnt : forall k, PushNode k ∈ sample_ops -> is_type k = false).
  { intros k Hk. unfold sample_ops in Hk. repeat (apply elem_of_cons in Hk as [Heq|Hk]; [try discriminate Heq; injection Heq as ->; reflexivity|]). by apply not_elem_of_nil in Hk. }
  split_and!; [exact Hnt|reflexivity|reflexivity|apply (ir_operations_wf sample_ops Hnt); reflexivity|apply (ir_operations_wf sample_ops Hnt); reflexivity].
Defined.

(** content addressing: on a well-formed representation with room left,
    [intern_type] returns the id of a node of exactly that kind, keeps every
    node, and answers every later request for the kind with the same id; two
    kinds get the same id only if they are equal. *)
Theorem intern_type_dedup (ir : CanonIR) (k k' : TypeKind) : ir_wf ir -> (lenN (nodes ir) + 2 < two32)%N ->
  let '(ir1, id) := intern_type ir k in
  let '(ir2, id') := intern_type ir1 k' in
  node ir1 id = Some (MkNode id (NType k)) /\ (forall i nd, node ir i = Some nd -> node ir2 i = Some nd) /\
  (id = id' <-> k = k') /\ ir_wf ir2 /\ (k = k' -> nodes ir2 = nodes ir1).
Proof.
  intros Hwf Hl. pose proof (intern_type_spec ir k Hwf ltac:(lia)) as H1. destruct (intern_type ir k) as [ir1 id]. destruct H1 as (Hwf1 & Hn1 & Hk1 & Hl1).
  pose proof (intern_type_spec ir1 k' Hwf1 ltac:(lia)) as H2. destruct (intern_type ir1 k') as [ir2 id'] eqn:E2. destruct H2 as (Hwf2 & Hn2 & Hk2 & Hl2).
  assert (Hsame : k = k' -> ir2 = ir1 /\ id' = id).
  { intros <-. unfold intern_type in E2. assert (Hti : type_index ir1 !! k = Some id) by (by apply Hwf1). rewrite Hti in E2. by injection E2 as <- <-. }
  split_and!; [done|auto| |done|intros He; by destruct (Hsame He) as [-> _]].
  split; [|intros He; by destruct (Hsame He)]. intros <-. apply Hk2 in Hn1. congruence.
Qed.
Lemma intern_type_dedup_witness :
  ir_wf ir_new /\ (lenN (nodes ir_new) + 2 < two32)%N /\
  let '(ir1, id) := intern_type ir_new (Slice 4) in
  let '(ir2, id') := intern_type ir1 (Slice 5) in
  node ir1 id = Some (MkNode id (NType (Slice 4))) /\ (forall i nd, node ir_new i = Some nd -> node ir2 i = Some nd) /\
  (id = id' <-> Slice 4 = Slice 5) /\ ir_wf ir2 /\ (Slice 4 = Slice 5 -> nodes ir2 = nodes ir1).
Proof. split; [exact ir_new_wf|]. split; [reflexivity|]. apply (intern_type_dedup ir_new (Slice 4) (Slice 5)); [exact ir_new_wf|reflexivity]. Defined.
