(* ===== verification/CanonCsr.v ===== *)
(** * The compressed adjacency of the intermediate representation

    Both builders, the one that sweeps the sorted edges and the one that counts
    and takes prefix sums, list for every node its edges in the order given. *)
From S2P Require Import Prelude AlgoSort AlgoSortProps CanonIr CanonIrProps.

(** ** Stable sorting groups by key *)

Section Groups.
Context {A : Type} (key : A -> N).

(** The elements with key [k], in order; the groups of the keys below [n]. *)
Definition group (l : list A) (k : nat) : list A := filter (fun x => key x = N.of_nat k) l.
Definition groups (l : list A) (ks : list nat) : list A := concat (group l <$> ks).

Lemma insert_by_skip x (a b : list A) : Forall (fun y => (key y < key x)%N) a -> insert_by key x (a ++ b) = a ++ insert_by key x b.
Proof.
  induction 1 as [|y a Hy _ IH]; [done|]. cbn. rewrite (proj2 (N.leb_gt _ _)) by done. by rewrite IH.
Qed.
Lemma insert_by_front x (b : list A) : Forall (fun y => (key x <= key y)%N) b -> insert_by key x b = x :: b.
Proof. destruct 1 as [|y b Hy _]; [done|]. cbn. by rewrite (proj2 (N.leb_le _ _)). Qed.

Lemma groups_keys l ks (P : N -> Prop) : (forall k, k ∈ ks -> P (N.of_nat k)) -> Forall (fun y => P (key y)) (groups l ks).
Proof.
  intros HP. unfold groups. induction ks as [|k ks IH]; cbn; [constructor|]. apply Forall_app. split.
  - apply Forall_forall. intros y [Hy _]%list_elem_of_filter. rewrite Hy. apply HP, list_elem_of_here.
  - apply IH. intros k' Hk'. by apply HP, list_elem_of_further.
Qed.
Lemma groups_app l ks ks' : groups l (ks ++ ks') = groups l ks ++ groups l ks'.
Proof. unfold groups. by rewrite fmap_app, concat_app. Qed.
Lemma groups_one l k : groups l [k] = group l k.
Proof. unfold groups. cbn. apply app_nil_r. Qed.
Lemma groups_other x l ks : (forall k, k ∈ ks -> key x <> N.of_nat k) -> groups (x :: l) ks = groups l ks.
Proof.
  intros Hne. unfold groups. f_equal. apply list_fmap_ext. intros i k Hk. unfold group. rewrite filter_cons, decide_False; [done|].
  apply Hne. by eapply list_elem_of_lookup_2.
Qed.

(** Sorting by a bounded key lists the groups one after the other. *)
Lemma sort_by_key_groups n l : Forall (fun x => (key x < N.of_nat n)%N) l -> sort_by_key key l = groups l (seq 0 n).
Proof.
  induction l as [|x l IH]; intros Hf.
  { unfold groups. clear. induction (seq 0 n) as [|k ks IH]; [done|]. cbn. done. }
  apply Forall_cons in Hf as [Hx Hf]. cbn [sort_by_key foldr]. unfold sort_by_key in IH. rewrite IH by done. set (k := N.to_nat (key x)).
  assert (Hseq : seq 0 n = seq 0 k ++ k :: seq (S k) (n - S k)) by (replace n with (k + S (n - S k)) at 1 by (subst k; lia); by rewrite seq_app).
  assert (Hk : key x = N.of_nat k) by (subst k; lia).
  rewrite Hseq, !groups_app. rewrite insert_by_skip.
  2: { apply (groups_keys l (seq 0 k) (fun m => (m < key x)%N)). intros j Hj%elem_of_seq. lia. }
  rewrite insert_by_front.
  2: { apply (groups_keys l (k :: seq (S k) (n - S k)) (fun m => (key x <= m)%N)). intros j [->|Hj%elem_of_seq]%elem_of_cons; lia. }
  f_equal; [symmetry; apply groups_other; intros j Hj%elem_of_seq; lia|].
  change (k :: seq (S k) (n - S k)) with ([k] ++ seq (S k) (n - S k)). rewrite !groups_app, (groups_other x l (seq (S k) _)) by (intros j Hj%elem_of_seq; lia).
  rewrite !groups_one. unfold group at 2. by rewrite filter_cons, decide_True.
Qed.

Lemma groups_length n l : Forall (fun x => (key x < N.of_nat n)%N) l -> length (groups l (seq 0 n)) = length l.
Proof.
  intros Hf. rewrite <- sort_by_key_groups by done. clear Hf. unfold sort_by_key. induction l as [|x l IH]; [done|]. cbn. rewrite <- IH.
  generalize (foldr (insert_by key) [] l). clear. induction l as [|y l IH]; [done|]. cbn. case_match; cbn; [done|]. by rewrite IH.
Qed.

(** The row of node [i] is where the row pointers say. *)
Definition offset (l : list A) (i : nat) : nat := length (groups l (seq 0 i)).
Lemma offset_S l i : offset l (S i) = offset l i + length (group l i).
Proof. unfold offset. by rewrite seq_S, groups_app, length_app, groups_one. Qed.
Lemma offset_mono l i j : i <= j -> offset l i <= offset l j.
Proof. intros Hij. induction Hij as [|j _ IH]; [done|]. rewrite offset_S. lia. Qed.

Lemma row_slice {B} (f : A -> B) l n i : i < n -> Forall (fun x => (key x < N.of_nat n)%N) l ->
  sub_slice (offset l i) (offset l (S i)) (f <$> groups l (seq 0 n)) = Some (f <$> group l i).
Proof.
  intros Hi Hf. unfold sub_slice. rewrite length_fmap. fold (offset l n).
  pose proof (offset_mono l i (S i) ltac:(lia)). pose proof (offset_mono l (S i) n ltac:(lia)).
  rewrite (proj2 (Nat.leb_le _ _)) by done. rewrite (proj2 (Nat.leb_le _ _)) by done. cbn [andb]. f_equal.
  assert (Hseq : seq 0 n = seq 0 i ++ i :: seq (S i) (n - S i)) by (replace n with (i + S (n - S i)) at 1 by lia; by rewrite seq_app).
  rewrite Hseq, groups_app, fmap_app, drop_app_length' by (by rewrite length_fmap).
  rewrite offset_S, Nat.add_comm, Nat.add_sub. unfold groups. cbn. rewrite fmap_app, take_app_length' by (by rewrite length_fmap). done.
Qed.
End Groups.

(** ** The sweep *)

Section Sweep.
Context (reverse : bool).
Let row := row_of reverse.

Lemma take_row_spec node a rest cols kinds : Forall (fun e => row e = node) a -> Forall (fun e => row e <> node) rest ->
  take_row reverse node (a ++ rest) cols kinds = (rest, cols ++ (col_of reverse <$> a), kinds ++ (code_of <$> a)).
Proof.
  intros Ha Hr. revert cols kinds. induction Ha as [|e a He _ IH]; intros cols kinds; cbn [app take_row].
  - rewrite !app_nil_r. destruct Hr as [|e rest He _]; [done|]. cbn. by rewrite (proj2 (N.eqb_neq _ _)).
  - rewrite (proj2 (N.eqb_eq _ _)) by done. rewrite IH. cbn. by rewrite <- !app_assoc.
Qed.

Lemma sweep_spec edges n i k ptr : i + k = n -> length ptr = S n -> (lenN edges < two32)%N -> Forall (fun e => (row e < N.of_nat n)%N) edges ->
  (forall j, j <= i -> ptr !! j = Some (N.of_nat (offset row edges j))) ->
  exists ptr', foldl (build_step reverse) (groups row edges (seq i k), col_of reverse <$> groups row edges (seq 0 i), code_of <$> groups row edges (seq 0 i), ptr) (seq i k)
    = ([], col_of reverse <$> groups row edges (seq 0 n), code_of <$> groups row edges (seq 0 n), ptr') /\
    length ptr' = S n /\ forall j, j <= n -> ptr' !! j = Some (N.of_nat (offset row edges j)).
Proof.
  intros Hn Hl He Hf. revert i ptr Hn Hl. induction k as [|k IH]; intros i ptr Hn Hl Hptr.
  { assert (i = n) as -> by lia. by exists ptr. }
  cbn [seq foldl]. unfold build_step at 2.
  assert (Hgs : groups row edges (i :: seq (S i) k) = group row edges i ++ groups row edges (seq (S i) k)) by done.
  assert (Hcat : forall {B} (f : Edge -> B), (f <$> groups row edges (seq 0 i)) ++ (f <$> group row edges i) = f <$> groups row edges (seq 0 (S i))).
  { intros B f. by rewrite <- fmap_app, seq_S, groups_app, groups_one. }
  rewrite Hgs, take_row_spec.
  - rewrite !Hcat. replace (lenN (col_of reverse <$> groups row edges (seq 0 (S i)))) with (N.of_nat (offset row edges (S i))) by (unfold lenN; by rewrite length_fmap).
    assert (Hsmall : (N.of_nat (offset row edges (S i)) < 4294967296)%N).
    { pose proof (offset_mono row edges (S i) n ltac:(lia)). unfold offset at 2 in H. rewrite groups_length in H by done. unfold lenN, two32 in He. lia. }
    rewrite wrap32_small by done. apply IH; [lia|by rewrite length_insert|]. intros j Hj. destruct (decide (j = S i)) as [->|Hne].
    + apply list_lookup_insert_eq. lia.
    + rewrite list_lookup_insert_ne by done. apply Hptr. lia.
  - apply Forall_forall. by intros e [? _]%list_elem_of_filter.
  - apply (groups_keys row edges (seq (S i) k) (fun m => m <> N.of_nat i)). intros j Hj%elem_of_seq. lia.
Qed.

Lemma build_csr_spec edges n : (lenN edges < two32)%N -> Forall (fun e => (row e < N.of_nat n)%N) edges ->
  col_idx (build_csr n edges reverse) = col_of reverse <$> groups row edges (seq 0 n) /\
  csr_kind (build_csr n edges reverse) = code_of <$> groups row edges (seq 0 n) /\
  length (row_ptr (build_csr n edges reverse)) = S n /\
  forall j, j <= n -> row_ptr (build_csr n edges reverse) !! j = Some (N.of_nat (offset row edges j)).
Proof.
  intros He Hf. unfold build_csr. fold row. rewrite (sort_by_key_groups row n edges Hf).
  destruct (sweep_spec edges n 0 n (replicate (n + 1) 0%N)) as (ptr & Heq & Hl & Hp); [done|rewrite length_replicate; lia|done|done| |].
  - intros j Hj. assert (j = 0) as -> by lia. rewrite lookup_replicate_2 by lia. done.
  - change (col_of reverse <$> groups row edges (seq 0 0)) with (@nil N) in Heq. change (code_of <$> groups row edges (seq 0 0)) with (@nil N) in Heq.
    by rewrite Heq.
Qed.
End Sweep.

(** ** Validation *)

Lemma monotonic_spec l : (forall i a b, l !! i = Some a -> l !! S i = Some b -> (a <= b)%N) -> monotonic l = true.
Proof.
  induction l as [|a [|b l] IH]; intros Hm; [done|done|]. cbn [monotonic]. rewrite (proj2 (N.leb_le a b)) by (by apply (Hm 0)).
  apply IH. intros i x y Hx Hy. by apply (Hm (S i)).
Qed.

Lemma build_csr_valid reverse edges n : (lenN edges < two32)%N ->
  Forall (fun e => (row_of reverse e < N.of_nat n)%N /\ (col_of reverse e < N.of_nat n)%N) edges ->
  validate_csr (build_csr n edges reverse) n = Ok tt.
Proof.
  intros He Hf. assert (Hr : Forall (fun e => (row_of reverse e < N.of_nat n)%N) edges) by (eapply Forall_impl; [exact Hf|by intros e []]).
  destruct (build_csr_spec reverse edges n He Hr) as (Hc & Hk & Hl & Hp). unfold validate_csr. rewrite Hc, Hk, Hl, Nat.add_1_r, Nat.eqb_refl. cbn [negb].
  rewrite head_lookup, (Hp 0), (Hp n) by lia. cbn [default from_option]. unfold lenN. rewrite !length_fmap, Nat.eqb_refl.
  rewrite monotonic_spec.
  2: { intros i a b Ha Hb. apply lookup_lt_Some in Hb as Hi. rewrite (Hp i) in Ha by lia. rewrite (Hp (S i)) in Hb by lia. simplify_eq. pose proof (offset_mono (row_of reverse) edges i (S i)). lia. }
  assert (Hw : wrap32 (N.of_nat (length (groups (row_of reverse) edges (seq 0 n)))) = N.of_nat (offset (row_of reverse) edges n)).
  { unfold offset. rewrite wrap32_small; [done|]. rewrite groups_length by done. by unfold lenN, two32 in He. }
  unfold id. rewrite Hw, !N.eqb_refl. cbn [negb]. destruct (existsb _ _) eqn:E; [|done]. exfalso.
  apply existsb_exists in E as (d & Hd%list_elem_of_In & Hle%N.leb_le). apply list_elem_of_fmap in Hd as (e & -> & Hin).
  assert (Hall : Forall (fun e => (col_of reverse e < N.of_nat n)%N) (groups (row_of reverse) edges (seq 0 n))).
  { unfold groups. clear -Hf. induction (seq 0 n) as [|k ks IH]; cbn; [constructor|]. apply Forall_app. split; [|done]. unfold group.
    apply Forall_forall. intros e [_ He]%list_elem_of_filter. rewrite Forall_forall in Hf. by apply Hf. }
  rewrite Forall_forall in Hall. specialize (Hall e Hin). lia.
Qed.

(** ** Counting and prefix sums *)

Section Counting.
Context {ED : Type}.
Let key (e : N * N * ED) : N := e.1.1.

Lemma count_rows_spec (es done_ : list (N * N * ED)) n ptr : (lenN done_ + lenN es < two32)%N -> Forall (fun e => (key e < N.of_nat n)%N) es ->
  length ptr = S n -> ptr !! 0 = Some 0%N -> (forall i, i < n -> ptr !! S i = Some (lenN (group key done_ i))) ->
  exists ptr', fold_option count_row ptr es = Some ptr' /\ length ptr' = S n /\ ptr' !! 0 = Some 0%N /\
    forall i, i < n -> ptr' !! S i = Some (lenN (group key (done_ ++ es) i)).
Proof.
  revert done_ ptr. induction es as [|e es IH]; intros done_ ptr Hb Hf Hl H0 Hp; [exists ptr; rewrite app_nil_r; done|].
  apply Forall_cons in Hf as [He Hf]. rewrite fold_option_cons. unfold count_row at 1. fold (key e).
  assert (Hi : N.to_nat (key e) < n) by lia. rewrite (Hp _ Hi). cbn [mbind option_bind].
  assert (Hlen : (lenN (group key done_ (N.to_nat (key e))) <= lenN done_)%N) by (pose proof (length_filter (fun x => key x = N.of_nat (N.to_nat (key e))) done_ : length (group key done_ (N.to_nat (key e))) <= length done_); unfold lenN; lia).
  assert (Hcons : lenN (e :: es) = (1 + lenN es)%N) by (unfold lenN; cbn [length]; lia). rewrite Hcons in Hb.
  unfold add_u32. rewrite (proj2 (N.leb_le _ _)) by (unfold u32_max; unfold two32 in Hb; lia). cbn [mbind option_bind].
  destruct (IH (done_ ++ [e]) (<[ S (N.to_nat (key e)) := (lenN (group key done_ (N.to_nat (key e))) + 1)%N ]> ptr)) as (ptr' & -> & Hl' & H0' & Hp').
  - rewrite lenN_app. change (lenN [e]) with 1%N. lia.
  - done.
  - by rewrite length_insert.
  - by rewrite list_lookup_insert_ne.
  - intros i Hin. assert (Hg : group key (done_ ++ [e]) i = group key done_ i ++ group key [e] i) by (unfold group; apply filter_app). rewrite Hg, lenN_app.
    unfold group at 3. rewrite filter_cons, filter_nil. destruct (decide (i = N.to_nat (key e))) as [->|Hne].
    + rewrite list_lookup_insert_eq by lia. by rewrite decide_True by lia.
    + rewrite list_lookup_insert_ne by lia. rewrite decide_False by lia. rewrite (Hp i Hin). f_equal. symmetry. apply N.add_0_r.
  - exists ptr'. rewrite <- app_assoc in Hp'. done.
Qed.

Lemma prefix_sums_spec (es : list (N * N * ED)) n k i ptr : (lenN es < two32)%N -> Forall (fun e => (key e < N.of_nat n)%N) es -> i + k = n -> length ptr = S n ->
  (forall j, j <= i -> ptr !! j = Some (N.of_nat (offset key es j))) -> (forall j, i <= j -> j < n -> ptr !! S j = Some (lenN (group key es j))) ->
  exists ptr', fold_option prefix_step ptr (seq (S i) k) = Some ptr' /\ length ptr' = S n /\ forall j, j <= n -> ptr' !! j = Some (N.of_nat (offset key es j)).
Proof.
  intros He Hf. revert i ptr. induction k as [|k IH]; intros i ptr Hn Hl Hlo Hhi; [assert (i = n) as -> by lia; by exists ptr|].
  cbn [seq]. rewrite fold_option_cons. unfold prefix_step at 1. rewrite (Hhi i) by lia. replace (S i - 1) with i by lia. rewrite (Hlo i) by done. cbn [mbind option_bind].
  assert (Hsum : (lenN (group key es i) + N.of_nat (offset key es i) = N.of_nat (offset key es (S i)))%N) by (rewrite offset_S; unfold lenN; lia).
  assert (Hle : (N.of_nat (offset key es (S i)) <= u32_max)%N).
  { pose proof (offset_mono key es (S i) n ltac:(lia)) as Hm. unfold offset at 2 in Hm. rewrite groups_length in Hm by done. unfold lenN, two32, u32_max in *. lia. }
  unfold add_u32. rewrite Hsum, (proj2 (N.leb_le _ _)) by done. cbn [mbind option_bind]. apply IH; [lia|by rewrite length_insert| |].
  - intros j Hj. destruct (decide (j = S i)) as [->|Hne]; [apply list_lookup_insert_eq; lia|]. rewrite list_lookup_insert_ne by done. apply Hlo. lia.
  - intros j Hj Hjn. rewrite list_lookup_insert_ne by lia. apply Hhi; lia.
Qed.

Lemma group_groups (l : list (N * N * ED)) n i : i < n -> Forall (fun e => (key e < N.of_nat n)%N) l -> group key (groups key l (seq 0 n)) i = group key l i.
Proof.
  intros Hi Hf. assert (Hseq : seq 0 n = seq 0 i ++ [i] ++ seq (S i) (n - S i)) by (replace n with (i + S (n - S i)) at 1 by lia; by rewrite seq_app).
  assert (Hnone : forall ks, i ∉ ks -> group key (groups key l ks) i = []).
  { intros ks Hks. unfold group. induction (groups_keys key l ks (fun m => m <> N.of_nat i)) as [|e g He _ IH]; [done| |].
    - by rewrite filter_cons, decide_False.
    - intros k Hk E. apply Hks. by assert (k = i) as <- by lia. }
  rewrite Hseq, !groups_app, groups_one. unfold group at 1. rewrite !filter_app. fold (group key (groups key l (seq 0 i)) i). fold (group key (groups key l (seq (S i) (n - S i))) i).
  rewrite !Hnone by (rewrite elem_of_seq; lia). rewrite app_nil_r. cbn. unfold group. clear. induction l as [|e l IH]; [done|]. rewrite !filter_cons. case_decide as E; [rewrite filter_cons, decide_True by done; by rewrite IH|done].
Qed.
End Counting.

(** ** The two builders *)

Section Builders.
Context {ND ED : Type}.
Let key (e : N * N * ED) : N := e.1.1.

Lemma from_edges_spec (data : list ND) (es : list (N * N * ED)) : (lenN es < two32)%N -> Forall (fun e => (key e < lenN data)%N) es ->
  exists ptr, from_edges data es = Some (MkGraph data ptr (snd ∘ fst <$> groups key es (seq 0 (length data))) (snd <$> groups key es (seq 0 (length data)))) /\
    forall j, j <= length data -> ptr !! j = Some (N.of_nat (offset key es j)).
Proof.
  intros He Hf. unfold from_edges. fold key. set (n := length data). rewrite (sort_by_key_groups key n es Hf). set (gs := groups key es (seq 0 n)).
  assert (Hg : Forall (fun e => (key e < N.of_nat n)%N) gs) by (apply (groups_keys key es (seq 0 n) (fun m => (m < N.of_nat n)%N)); intros k Hk%elem_of_seq; lia).
  assert (Hlen : lenN gs = lenN es) by (unfold lenN, gs; by rewrite groups_length).
  assert (Hgg : forall i, i < n -> lenN (group key gs i) = lenN (group key es i)) by (intros i Hi; f_equal; by apply group_groups).
  destruct (count_rows_spec gs [] n (replicate (n + 1) 0%N)) as (p1 & -> & Hl1 & H01 & Hp1); [| | | | |].
  - change (lenN (@nil (N * N * ED))) with 0%N. by rewrite Hlen.
  - done.
  - rewrite length_replicate. lia.
  - apply lookup_replicate_2. lia.
  - intros i Hi. apply lookup_replicate_2. lia.
  - cbn [mbind option_bind]. destruct (prefix_sums_spec es n n 0 p1) as (p2 & -> & _ & Hp2); [done|done|done|done| | |].
    + intros j Hj. assert (j = 0) as -> by lia. done.
    + intros j _ Hj. rewrite (Hp1 j Hj). f_equal. by apply Hgg.
    + exists p2. done.
Qed.

Lemma neighbours_spec (data : list ND) (es : list (N * N * ED)) g i : (lenN es < two32)%N -> Forall (fun e => (key e < lenN data)%N) es ->
  from_edges data es = Some g -> i < length data ->
  neighbours g (N.of_nat i) = Some ((fun e => (e.1.2, e.2)) <$> group key es i).
Proof.
  intros He Hf Hg Hi. destruct (from_edges_spec data es He Hf) as (ptr & E & Hp). rewrite E in Hg. injection Hg as <-.
  unfold neighbours. cbn [g_row_ptr g_col_idx g_edge_data]. rewrite Nat2N.id, (Hp i), (Hp (S i)) by lia. cbn [mbind option_bind].
  rewrite !Nat2N.id, !(row_slice key) by done. cbn [mbind option_bind]. f_equal. generalize (group key es i). clear. intros l. induction l as [|e l IH]; [done|]. cbn. by rewrite IH.
Qed.
End Builders.

Lemma edge_slices_spec reverse edges n i : (lenN edges < two32)%N -> Forall (fun e => (row_of reverse e < N.of_nat n)%N) edges -> i < n ->
  csr_edge_slices (build_csr n edges reverse) n (N.of_nat i)
  = Some (col_of reverse <$> group (row_of reverse) edges i, code_of <$> group (row_of reverse) edges i).
Proof.
  intros He Hf Hi. destruct (build_csr_spec reverse edges n He Hf) as (Hc & Hk & Hl & Hp). unfold csr_edge_slices.
  rewrite Nat2N.id, (proj2 (Nat.ltb_lt _ _)), (Hp i), (Hp (S i)), Hc, Hk by lia. cbn [mbind option_bind].
  by rewrite !Nat2N.id, !(row_slice (row_of reverse)).
Qed.

(** ** The theorem *)

(** The specification: the edges whose row is node [i], in the order given. *)
Definition edges_at (reverse : bool) (edges : list Edge) (i : nat) : list Edge := filter (fun e => row_of reverse e = N.of_nat i) edges.

(** C31: the global adjacency of the representation is faithful: after
    [rebuild_global_csr_from_edges] on fewer than 2^32 edges between existing
    nodes, [validate_global_csr] accepts both directions, every node's outgoing
    and incoming slices are exactly its edges, in the order in which they were
    given, with their kind codes, and [CsrGraph::from_edges], which builds by
    counting and prefix sums instead of sweeping, succeeds on the same edges
    and lists the same neighbours. *)
Theorem global_csr_faithful ir edges : (lenN edges < two32)%N ->
  Forall (fun '(src, dst, _) => (src < lenN (nodes ir))%N /\ (dst < lenN (nodes ir))%N) edges ->
  validate_global_csr (rebuild_global_csr_from_edges ir edges) = Ok tt /\
  (exists g, from_edges (nodes ir) edges = Some g /\
    forall i, i < length (nodes ir) ->
      neighbours g (N.of_nat i) = Some ((fun e => (col_of false e, e.2)) <$> edges_at false edges i)) /\
  forall i, i < length (nodes ir) ->
    out_edge_slices (rebuild_global_csr_from_edges ir edges) (N.of_nat i)
      = Some (col_of false <$> edges_at false edges i, code_of <$> edges_at false edges i) /\
    in_edge_slices (rebuild_global_csr_from_edges ir edges) (N.of_nat i)
      = Some (col_of true <$> edges_at true edges i, code_of <$> edges_at true edges i).
Proof.
  intros He Hf.
  assert (Hrc : forall b, Forall (fun e => (row_of b e < N.of_nat (length (nodes ir)))%N /\ (col_of b e < N.of_nat (length (nodes ir)))%N) edges).
  { intros b. eapply Forall_impl; [exact Hf|]. intros [[s d] k] [Hs Hd]. by destruct b. }
  assert (Hr : forall b, Forall (fun e => (row_of b e < N.of_nat (length (nodes ir)))%N) edges) by (intros b; eapply Forall_impl; [apply (Hrc b)|by intros e []]).
  assert (Hk : Forall (fun e : Edge => (e.1.1 < lenN (nodes ir))%N) edges) by (eapply Forall_impl; [exact Hf|by intros [[s d] k] []]).
  split_and!.
  - unfold validate_global_csr, rebuild_global_csr_from_edges. cbn. by rewrite !build_csr_valid.
  - destruct (from_edges_spec (nodes ir) edges He Hk) as (ptr & Hg & _). eexists. split; [exact Hg|]. intros i Hi.
    rewrite (neighbours_spec (nodes ir) edges _ i He Hk Hg Hi). f_equal. unfold edges_at, group.
    rewrite (list_filter_iff (fun e : Edge => row_of false e = N.of_nat i) (fun e : Edge => e.1.1 = N.of_nat i)) by (by intros [[s d] k]).
    apply list_fmap_ext. by intros ? [[s d] k] _.
  - intros i Hi. split; by apply edge_slices_spec.
Qed.

Definition demo_ir : CanonIR := (push_node (push_node (push_node ir_new (NType (Primitive PI32))).1 (NType (Primitive PI32))).1 (NType (Primitive PI32))).1.
Definition demo_edges : list Edge := [(2, 0, Calls); (0, 1, Calls); (2, 1, Contains_)]%N.
Lemma global_csr_faithful_witness :
  validate_global_csr (rebuild_global_csr_from_edges demo_ir demo_edges) = Ok tt /\
  out_edge_slices (rebuild_global_csr_from_edges demo_ir demo_edges) 2%N = Some ([0; 1]%N, [edge_kind_code Calls; edge_kind_code Contains_]).
Proof.
  destruct (global_csr_faithful demo_ir demo_edges) as (Hv & _ & Hs); [vm_compute; reflexivity| |].
  - repeat constructor; vm_compute; reflexivity.
  - split; [exact Hv|]. destruct (Hs 2) as [Ho _]; [vm_compute; lia|]. exact Ho.
Defined.
