(* ===== verification/Gatekeeper.v ===== *)
(** * The gatekeeper ([canon-judgment/src/lib.rs])

    A model proposes a route; the gatekeeper reviews it against the signals of
    the runtime and may replace it.  Its state counts the reviews and the
    repetitions of the last lane.  Scores are [f32]: IEEE single precision as
    [SpecFloat] specifies it, with literals rounded to nearest, so that a
    comparison with NaN is false as in the source. *)
From Stdlib Require Import Floats.SpecFloat.
From S2P Require Import Prelude.

(** ** Single precision *)

Definition f32 : Type := spec_float.
Definition f32_of_Z (z : Z) : f32 := binary_normalize 24 128 z 0 false.
(** The literal [n / d]: the nearest [f32]. *)
Definition f32_lit (n d : Z) : f32 := SFdiv 24 128 (f32_of_Z n) (f32_of_Z d).
Definition f32_lt (x y : f32) : bool := SFltb x y.
Definition f32_le (x y : f32) : bool := SFleb x y.
Notation "x '<?f' y" := (f32_lt x y) (at level 70).
Notation "x '>?f' y" := (f32_lt y x) (at level 70).
Notation "x '<=?f' y" := (f32_le x y) (at level 70).
Notation "x '>=?f' y" := (f32_le y x) (at level 70).

(** ** Routes *)

Inductive RouteKind : Set := Observe | Plan | Act | Verify | Conclude | Decompose.
#[export] Instance RouteKind_eq_dec : EqDecision RouteKind.
Proof. solve_decision. Defined.
Definition route_eqb (a b : RouteKind) : bool := bool_decide (a = b).
Definition route_str (r : RouteKind) : string :=
  match r with
  | Observe => "observe" | Plan => "plan" | Act => "act" | Verify => "verify" | Conclude => "conclude" | Decompose => "decompose"
  end.

(** ** Signals, configuration and state *)

Record LlmSignals := MkLlm {
  goal_alignment_score : f32; confidence : f32; task_completion_likelihood : f32; error_likelihood : f32;
  plan_validity : f32; state_consistency : f32; action_effectiveness : f32; progress_score : f32;
  blocking_severity : f32; ambiguity_level : f32; context_completeness : f32; plan_optimality : f32;
  redundancy_level : f32; recovery_difficulty : f32; tool_reliability : f32; execution_risk : f32;
  verification_coverage : f32; change_impact : f32; stability_score : f32; iteration_efficiency : f32;
  novelty_score : f32; dependency_health : f32; resource_efficiency : f32; termination_readiness : f32;
}.

Record GuardConfig := MkCfg { max_cycles : N; max_repeat_lane : N; minimum_confidence : option f32; fallback_lane : RouteKind }.
Definition default_guard : GuardConfig := MkCfg 64 3 (Some (f32_lit 2 10)) Observe.

Record RuntimeSignals := MkSig {
  context_ready : bool; has_queued_plan : bool; performed_recently : bool; repair_stalled : bool; repair_pressure_score : N;
  finish_ready : bool; last_action_kind : string; llm_signals : option LlmSignals; goodness : option f32; delta_g : option f32;
}.

Record GateState := MkGate { cycle_count : N; previous_lane : option RouteKind; repeat_count : N }.
Definition default_gate : GateState := MkGate 0 None 0.
Record GateResult := MkResult { lane : RouteKind; changed : bool; note : string; should_stop : bool }.
Record Gatekeeper := MkKeeper { cfg : GuardConfig; state : GateState }.
Definition gatekeeper_new (c : GuardConfig) : Gatekeeper := MkKeeper c default_gate.

(** What [review] reads of the [RouteSelection]: the route and its confidence. *)
Record Pick := MkPick { route : RouteKind; pick_confidence : option f32 }.

(** ** The rules *)

(** The local variables of [review] and one [if] of its body: when the
    condition holds of the current lane, the lane is overwritten and a note
    added. *)
Definition gate : Type := RouteKind * bool * list string.
Definition fire (cond : RouteKind -> bool) (to : RouteKind) (note : string) (g : gate) : gate :=
  let '(l, ch, notes) := g in if cond l then (to, true, notes ++ [note]) else g.
Definition fire_all (rules : list (gate -> gate)) (g : gate) : gate := foldl (fun g r => r g) g rules.
Definition always (b : bool) (_ : RouteKind) : bool := b.
Definition when_act (b : bool) (l : RouteKind) : bool := b && route_eqb l Act.

Definition critical_rules (s : LlmSignals) (q : bool) : list (gate -> gate) :=
  [ fire (always (goal_alignment_score s <?f f32_lit 3 10)) Plan "sig:goal_align<0.3[critical] → plan";
    fire (always (state_consistency s <?f f32_lit 4 10)) Observe "sig:state_consistency<0.4[critical] → observe";
    fire (always ((plan_validity s <?f f32_lit 5 10) && negb q)) Plan "sig:plan_validity<0.5[critical] → plan";
    fire (always (blocking_severity s >?f f32_lit 8 10)) Observe "sig:blocking_severity>0.8[critical] → observe";
    fire (always (context_completeness s <?f f32_lit 3 10)) Observe "sig:context_completeness<0.3[critical] → observe";
    fire (always (execution_risk s >?f f32_lit 8 10)) Plan "sig:execution_risk>0.8[critical] → plan";
    fire (always (recovery_difficulty s >?f f32_lit 8 10)) Verify "sig:recovery_difficulty>0.8[critical] → verify" ].

Definition warning_rules (s : LlmSignals) (q : bool) : list (gate -> gate) :=
  [ fire (always ((goal_alignment_score s <?f f32_lit 5 10) && (goal_alignment_score s >=?f f32_lit 3 10) && negb q)) Plan "sig:goal_align 0.3–0.5[warning] → plan";
    fire (when_act (confidence s <?f f32_lit 4 10)) Observe "sig:confidence<0.4[critical] → observe";
    fire (when_act ((confidence s >=?f f32_lit 4 10) && (confidence s <?f f32_lit 6 10))) Verify "sig:confidence 0.4–0.6[warning] → verify";
    fire (when_act ((execution_risk s >=?f f32_lit 6 10) && (execution_risk s <=?f f32_lit 8 10))) Verify "sig:execution_risk 0.6–0.8[warning] → verify";
    fire (when_act (error_likelihood s >?f f32_lit 7 10)) Verify "sig:error_likelihood>0.7[critical] → verify";
    fire (when_act ((error_likelihood s >=?f f32_lit 5 10) && (error_likelihood s <=?f f32_lit 7 10))) Verify "sig:error_likelihood 0.5–0.7[warning] → verify";
    fire (when_act ((blocking_severity s >=?f f32_lit 6 10) && (blocking_severity s <=?f f32_lit 8 10))) Observe "sig:blocking_severity 0.6–0.8[warning] → observe";
    fire (when_act ((context_completeness s >=?f f32_lit 3 10) && (context_completeness s <?f f32_lit 5 10))) Observe "sig:context_completeness 0.3–0.5[warning] → observe";
    fire (always ((novelty_score s <?f f32_lit 1 10) && negb q)) Plan "sig:novelty<0.1[critical] → plan";
    fire (when_act ((novelty_score s >=?f f32_lit 1 10) && (novelty_score s <?f f32_lit 3 10))) Plan "sig:novelty 0.1–0.3[warning] → plan";
    fire (when_act (verification_coverage s <?f f32_lit 3 10)) Verify "sig:verify_coverage<0.3[critical] → verify";
    fire (when_act (change_impact s >?f f32_lit 8 10)) Verify "sig:change_impact>0.8[critical] → verify";
    fire (when_act ((recovery_difficulty s >=?f f32_lit 6 10) && (recovery_difficulty s <=?f f32_lit 8 10))) Verify "sig:recovery_difficulty 0.6–0.8[warning] → verify" ].

Definition closing_rules (s : LlmSignals) (finish : bool) : list (gate -> gate) :=
  [ fire (always ((progress_score s <?f f32_lit 2 10) && (novelty_score s <?f f32_lit 3 10))) Plan "sig:stagnation(progress+novelty)[critical] → plan";
    fire (always ((termination_readiness s >?f f32_lit 95 100) && (verification_coverage s <?f f32_lit 5 10))) Verify "sig:term_ready>0.95+coverage_low → verify";
    fire (always ((termination_readiness s >?f f32_lit 9 10) && (verification_coverage s >=?f f32_lit 7 10) && finish)) Conclude "sig:term_ready>0.9+coverage_ok → conclude" ].

(** The advice: the model's own scores, the trend, readiness, confidence and
    the repeat limit. *)
Definition llm_rules (sig : RuntimeSignals) : list (gate -> gate) :=
  match llm_signals sig with
  | Some s => critical_rules s (has_queued_plan sig) ++ warning_rules s (has_queued_plan sig) ++ closing_rules s (finish_ready sig)
  | None => []
  end.
Definition trend_rules (sig : RuntimeSignals) : list (gate -> gate) :=
  [ fire (always (match delta_g sig with Some d => (d <?f f32_of_Z 0) && negb (has_queued_plan sig) | None => false end)) Plan "delta_g<0 → plan";
    fire (always (finish_ready sig && negb (has_queued_plan sig))) Conclude "finish_ready=true → conclude" ].
Definition limit_rules (c : GuardConfig) (st : GateState) (pk : Pick) (sig : RuntimeSignals) : list (gate -> gate) :=
  let over := (max_repeat_lane c <? repeat_count st)%N && negb (has_queued_plan sig) in
  [ fire (always (match minimum_confidence c, pick_confidence pk with Some m, Some x => x <?f m | _, _ => false end)) (fallback_lane c) "low confidence";
    if performed_recently sig then fire (always over) Verify "repeat limit reached under unverified state; forcing verify"
    else fire (always over) (fallback_lane c) "repeat limit reached" ].
Definition advice_rules (c : GuardConfig) (st : GateState) (pk : Pick) (sig : RuntimeSignals) : list (gate -> gate) :=
  llm_rules sig ++ trend_rules sig ++ limit_rules c st pk sig.

(** The hard gates. *)
Definition hard_rules (sig : RuntimeSignals) : list (gate -> gate) :=
  let q := has_queued_plan sig in
  [ fire (fun l => performed_recently sig && negb q && negb (route_eqb l Verify)) Verify "acted_unverified=true requires verify";
    fire (fun l => repair_stalled sig && negb q && negb (performed_recently sig) && negb (route_eqb l Plan)) Plan "repair loop stalled requires plan for replan";
    fire (fun l => (0 <? repair_pressure_score sig)%N && negb q && (route_eqb l Verify || route_eqb l Conclude)) Plan "repair pressure requires plan";
    fire (fun l => q && negb (route_eqb l Act)) Act "queued plan requires act";
    (fun g => if route_eqb g.1.1 Act && negb q then fire (always true) Plan "act blocked: no queued plan; select plan to produce one" g
              else fire (fun l => route_eqb l Act && negb (context_ready sig || q)) Observe "act requires context_ready or queued plan" g);
    fire (fun l => route_eqb l Verify && negb (performed_recently sig || bool_decide (last_action_kind sig = "done"%string) || finish_ready sig)) Plan
      "verify requires recent execution, done action, or finish_ready";
    fire (fun l => route_eqb l Conclude && negb (finish_ready sig)) Verify "conclude requires finish_ready" ].

Definition judge (c : GuardConfig) (st : GateState) (pk : Pick) (sig : RuntimeSignals) : gate :=
  fire_all (advice_rules c st pk sig ++ hard_rules sig) (route pk, false, []).

(** Repetitions are counted on the lane after the gates. *)
Definition track (st : GateState) (l : RouteKind) : GateState :=
  MkGate (cycle_count st) (Some l)
    (match previous_lane st with
     | Some p => if route_eqb p l then sat_add32 (repeat_count st) 1 else 1
     | None => 1
     end).

Definition join_notes (notes : list string) : string :=
  match notes with
  | [] => "accepted"
  | n :: notes' => foldl (fun acc x => acc +:+ "; " +:+ x) n notes'
  end.

Definition review (k : Gatekeeper) (pk : Pick) (sig : RuntimeSignals) : Gatekeeper * GateResult :=
  let c := cfg k in
  let cycles := sat_add32 (cycle_count (state k)) 1 in
  if (max_cycles c <? cycles)%N && negb (has_queued_plan sig) then
    (MkKeeper c (MkGate cycles (previous_lane (state k)) (repeat_count (state k))),
     MkResult Conclude true "cycle cap reached; forcing conclude" true)
  else
    let cycles := if (max_cycles c <? cycles)%N then 0%N else cycles in
    let st := MkGate cycles (previous_lane (state k)) (repeat_count (state k)) in
    let '(l, ch, notes) := judge c st pk sig in
    (MkKeeper c (track st l), MkResult l ch (join_notes notes) (route_eqb l Conclude)).

(** A run of reviews. *)
Fixpoint reviews (k : Gatekeeper) (run : list (Pick * RuntimeSignals)) : Gatekeeper * list GateResult :=
  match run with
  | [] => (k, [])
  | (pk, sig) :: run' =>
      let '(k, r) := review k pk sig in let '(k, rs) := reviews k run' in (k, r :: rs)
  end.

(** ** The decision table *)

Definition lane_of (g : gate) : RouteKind := g.1.1.
(** The lane the advice leads to, before the hard gates. *)
Definition advised (c : GuardConfig) (st : GateState) (pk : Pick) (sig : RuntimeSignals) : RouteKind :=
  lane_of (fire_all (advice_rules c st pk sig) (route pk, false, [])).

(** What the hard gates make of an advised lane. *)
Definition gated (sig : RuntimeSignals) (l : RouteKind) : RouteKind :=
  if has_queued_plan sig then Act
  else if performed_recently sig then (if (0 <? repair_pressure_score sig)%N then Plan else Verify)
  else if repair_stalled sig then Plan
  else match l with
  | Observe | Plan | Decompose => l
  | Act => Plan
  | Verify =>
      if negb (0 <? repair_pressure_score sig)%N && (bool_decide (last_action_kind sig = "done"%string) || finish_ready sig) then Verify else Plan
  | Conclude =>
      if (0 <? repair_pressure_score sig)%N then Plan else if finish_ready sig then Conclude else Verify
  end.

Lemma fire_all_app rs rs' g : fire_all (rs ++ rs') g = fire_all rs' (fire_all rs g).
Proof. apply foldl_app. Qed.

(** Only the lane matters for which rules fire. *)
Lemma fire_lane cond to n g : lane_of (fire cond to n g) = if cond (lane_of g) then to else lane_of g.
Proof. destruct g as [[l ch] notes]. unfold fire, lane_of. cbn. by destruct (cond l). Qed.

Lemma if_lane (b : bool) g g' : lane_of (if b then g else g') = if b then lane_of g else lane_of g'.
Proof. by destruct b. Qed.

Lemma hard_rules_gated sig g : lane_of (fire_all (hard_rules sig) g) = gated sig (lane_of g).
Proof.
  unfold hard_rules, gated, fire_all. cbn [foldl]. rewrite !fire_lane.
  set (r3 := fire _ Plan "repair pressure requires plan" _). assert (H3 : lane_of r3 = if has_queued_plan sig then lane_of g
    else if performed_recently sig then (if (0 <? repair_pressure_score sig)%N then Plan else Verify) else if repair_stalled sig then Plan
    else match lane_of g with Verify | Conclude => if (0 <? repair_pressure_score sig)%N then Plan else lane_of g | l => l end).
  { subst r3. rewrite !fire_lane. generalize (lane_of g) (0 <? repair_pressure_score sig)%N. intros l pressure.
    destruct (has_queued_plan sig), (performed_recently sig), (repair_stalled sig), pressure, l; reflexivity. }
  clearbody r3. set (r4 := fire _ Act _ r3). assert (H4 : lane_of r4 = if has_queued_plan sig then Act else lane_of r3).
  { subst r4. rewrite fire_lane. by destruct (has_queued_plan sig), (lane_of r3). }
  clearbody r4. fold (lane_of r4). rewrite (if_lane (route_eqb (lane_of r4) Act && negb (has_queued_plan sig))), !fire_lane, H4, H3. clear H3 H4.
  generalize (lane_of g) (bool_decide (last_action_kind sig = "done"%string)) (0 <? repair_pressure_score sig)%N. intros l done_ pressure.
  destruct (has_queued_plan sig); [by destruct (context_ready sig)|]. destruct (performed_recently sig); [by destruct pressure|].
  destruct (repair_stalled sig); [done|]. destruct l, pressure, (finish_ready sig), done_, (context_ready sig); reflexivity.
Qed.

Lemma judge_lane c st pk sig : lane_of (judge c st pk sig) = gated sig (advised c st pk sig).
Proof. unfold judge. by rewrite fire_all_app, hard_rules_gated. Qed.

(** The cap: the review count after this one exceeds the limit. *)
Definition over_cap (k : Gatekeeper) : bool := (max_cycles (cfg k) <? sat_add32 (cycle_count (state k)) 1)%N.
(** The state the rules of a review see. *)
Definition reviewed_state (k : Gatekeeper) : GateState :=
  MkGate (if over_cap k then 0 else sat_add32 (cycle_count (state k)) 1) (previous_lane (state k)) (repeat_count (state k)).

Lemma review_capped k pk sig : over_cap k = true -> has_queued_plan sig = false ->
  review k pk sig = (MkKeeper (cfg k) (MkGate (sat_add32 (cycle_count (state k)) 1) (previous_lane (state k)) (repeat_count (state k))),
                     MkResult Conclude true "cycle cap reached; forcing conclude" true).
Proof. unfold review, over_cap. by intros -> ->. Qed.

Lemma review_judged k pk sig : over_cap k && negb (has_queued_plan sig) = false ->
  exists ch n, review k pk sig =
    (MkKeeper (cfg k) (track (reviewed_state k) (gated sig (advised (cfg k) (reviewed_state k) pk sig))),
     MkResult (gated sig (advised (cfg k) (reviewed_state k) pk sig)) ch n
       (route_eqb (gated sig (advised (cfg k) (reviewed_state k) pk sig)) Conclude)).
Proof.
  unfold review, over_cap. intros E. rewrite E. fold (over_cap k) (reviewed_state k). rewrite <- judge_lane.
  destruct (judge _ _ _ _) as [[l ch] notes]. by eexists _, _.
Qed.

(** C34: the decision table of [review].  Past the cycle cap, with nothing
    queued, it concludes and stops.  Otherwise a queued plan means [act]; work
    not yet verified means [verify], or [plan] under repair pressure; a stalled
    repair means [plan]; and only then the advice counts, with [act] turned into
    [plan], [verify] kept only without pressure and after a done action or when
    ready to finish, and [conclude] kept only when ready to finish and without
    pressure.  The review stops exactly on [conclude]. *)
Theorem review_decision k pk sig :
  (review k pk sig).2.(lane) = (if over_cap k && negb (has_queued_plan sig) then Conclude else gated sig (advised (cfg k) (reviewed_state k) pk sig)) /\
  (review k pk sig).2.(should_stop) = route_eqb (review k pk sig).2.(lane) Conclude /\
  cfg (review k pk sig).1 = cfg k.
Proof.
  destruct (over_cap k && negb (has_queued_plan sig)) eqn:E.
  - apply andb_true_iff in E as [Ec Eq%negb_true_iff]. by rewrite (review_capped k pk sig Ec Eq).
  - destruct (review_judged k pk sig E) as (ch & n & ->). done.
Qed.

(** ** Runs *)

Lemma review_cfg k pk sig : cfg (review k pk sig).1 = cfg k.
Proof.
  destruct (over_cap k && negb (has_queued_plan sig)) eqn:E.
  - apply andb_true_iff in E as [Ec Eq%negb_true_iff]. by rewrite (review_capped k pk sig Ec Eq).
  - by destruct (review_judged k pk sig E) as (ch & n & ->).
Qed.

Lemma reviews_cons k pk sig run :
  reviews k ((pk, sig) :: run) = ((reviews (review k pk sig).1 run).1, (review k pk sig).2 :: (reviews (review k pk sig).1 run).2).
Proof. cbn [reviews]. destruct (review k pk sig) as [k' r]. cbn. by destruct (reviews k' run). Qed.

(** Without a queued plan the count of reviews only grows. *)
Lemma review_cycles k pk sig : has_queued_plan sig = false -> (max_cycles (cfg k) < u32_max)%N ->
  (cycle_count (state k) <= max_cycles (cfg k))%N ->
  cycle_count (state (review k pk sig).1) = (cycle_count (state k) + 1)%N.
Proof.
  intros Hq Hm Hc. assert (Hs : sat_add32 (cycle_count (state k)) 1 = (cycle_count (state k) + 1)%N) by (apply sat_add32_exact; lia).
  destruct (over_cap k) eqn:Ec.
  - rewrite (review_capped k pk sig Ec Hq). done.
  - destruct (review_judged k pk sig) as (ch & n & ->); [by rewrite Ec|]. cbn. unfold reviewed_state. rewrite Ec. done.
Qed.

Lemma capped_reviews_stop k run : Forall (fun x => has_queued_plan x.2 = false) run -> (max_cycles (cfg k) < u32_max)%N ->
  (cycle_count (state k) <= max_cycles (cfg k))%N -> (max_cycles (cfg k) - cycle_count (state k) < N.of_nat (length run))%N ->
  exists r, (reviews k run).2 !! N.to_nat (max_cycles (cfg k) - cycle_count (state k)) = Some r /\ should_stop r = true.
Proof.
  intros Hq. revert k. induction Hq as [|[pk sig] run Hsig _ IH]; intros k Hm Hc Hlen; [cbn in Hlen; lia|]. cbn [snd] in Hsig.
  rewrite reviews_cons. cbn [snd]. pose proof (review_cycles k pk sig Hsig Hm Hc) as Hn. pose proof (review_cfg k pk sig) as Hcfg.
  destruct (decide (cycle_count (state k) = max_cycles (cfg k))) as [E|E].
  - rewrite E, N.sub_diag. eexists. split; [reflexivity|].
    rewrite (review_capped k pk sig); [done| |done]. unfold over_cap. rewrite sat_add32_exact by lia. apply N.ltb_lt. lia.
  - destruct (IH (review k pk sig).1) as (r & Hr & Hs); rewrite ?Hcfg, ?Hn; [done|lia|cbn in Hlen; lia|].
    exists r. rewrite Hcfg, Hn in Hr. split; [|done].
    replace (N.to_nat (max_cycles (cfg k) - cycle_count (state k))) with (S (N.to_nat (max_cycles (cfg k) - (cycle_count (state k) + 1)))) by lia. done.
Qed.

(** the loop ends.  From a fresh gatekeeper whose cap is below the largest
    [u32], a run in which no plan is ever queued is stopped by the review number
    [max_cycles + 1], whatever the model picks and the other signals say. *)
Theorem unqueued_run_stops c run : (max_cycles c < u32_max)%N -> Forall (fun x => has_queued_plan x.2 = false) run ->
  (max_cycles c < N.of_nat (length run))%N ->
  exists r, (reviews (gatekeeper_new c) run).2 !! N.to_nat (max_cycles c) = Some r /\ should_stop r = true.
Proof.
  intros Hm Hq Hlen. destruct (capped_reviews_stop (gatekeeper_new c) run) as (r & Hr & Hs); cbn in *; [done|done|lia|lia|].
  rewrite N.sub_0_r in Hr. by exists r.
Qed.
Definition calm : RuntimeSignals := MkSig true false false false 0 true "" None None None.
Lemma unqueued_run_stops_witness : exists r,
  (reviews (gatekeeper_new default_guard) (replicate 65 (MkPick Observe (Some (f32_lit 9 10)), calm))).2 !! 64 = Some r /\ should_stop r = true.
Proof. apply (unqueued_run_stops default_guard); [vm_compute; reflexivity|by apply Forall_replicate|vm_compute; reflexivity]. Defined.

(** ** The repeat limit *)

(** How often the last lane of a history was repeated at its end. *)
Fixpoint leading (x : RouteKind) (l : list RouteKind) : N :=
  match l with y :: l' => if route_eqb y x then (1 + leading x l')%N else 0 | [] => 0 end.
Definition streak (l : list RouteKind) : N := match reverse l with x :: l' => (1 + leading x l')%N | [] => 0 end.

Lemma streak_snoc l x : streak (l ++ [x]) = if decide (last l = Some x) then (streak l + 1)%N else 1%N.
Proof.
  unfold streak. rewrite reverse_snoc. destruct l as [|y l _] using rev_ind; [done|]. rewrite reverse_snoc, last_snoc. cbn [leading].
  unfold route_eqb. destruct (decide (Some y = Some x)) as [[= ->]|E].
  - rewrite bool_decide_eq_true_2 by done. lia.
  - rewrite bool_decide_eq_false_2 by congruence. done.
Qed.

Lemma reviews_app k run run' :
  reviews k (run ++ run') = ((reviews (reviews k run).1 run').1, (reviews k run).2 ++ (reviews (reviews k run).1 run').2).
Proof.
  revert k. induction run as [|[pk sig] run IH]; intros k; [cbn; by destruct (reviews k run')|].
  rewrite <- app_comm_cons, !reviews_cons, IH. done.
Qed.
Lemma reviews_cfg k run : cfg (reviews k run).1 = cfg k.
Proof. revert k. induction run as [|[pk sig] run IH]; intros k; [done|]. rewrite reviews_cons. cbn. by rewrite IH, review_cfg. Qed.

(** A review that does not stop was judged, and its lane recorded. *)
Lemma unstopped_judged k pk sig : should_stop (review k pk sig).2 = false ->
  state (review k pk sig).1 = track (reviewed_state k) (lane (review k pk sig).2) /\
  lane (review k pk sig).2 = gated sig (advised (cfg k) (reviewed_state k) pk sig).
Proof.
  intros Hs. destruct (over_cap k && negb (has_queued_plan sig)) eqn:E.
  - apply andb_true_iff in E as [Ec Eq%negb_true_iff]. by rewrite (review_capped k pk sig Ec Eq) in Hs.
  - by destruct (review_judged k pk sig E) as (ch & n & ->).
Qed.

Lemma unstopped_counts c run : let '(k, rs) := reviews (gatekeeper_new c) run in
  Forall (fun r => should_stop r = false) rs ->
  previous_lane (state k) = last (lane <$> rs) /\ repeat_count (state k) = N.min u32_max (streak (lane <$> rs)).
Proof.
  induction run as [|[pk sig] run IH] using rev_ind; [done|]. rewrite reviews_app, reviews_cons. cbn [reviews fst snd].
  pose proof (reviews_cfg (gatekeeper_new c) run) as Hc. destruct (reviews (gatekeeper_new c) run) as [k rs]. cbn [fst snd] in *.
  intros [Hrs [Hr _]%Forall_cons]%Forall_app. destruct (IH Hrs) as [Hp Hn]. destruct (unstopped_judged k pk sig Hr) as [Hst _].
  rewrite Hst, fmap_app. cbn [fmap list_fmap]. rewrite last_snoc, streak_snoc. unfold track. cbn [previous_lane repeat_count reviewed_state]. split; [done|].
  rewrite Hp, Hn. destruct (last (lane <$> rs)) as [p|]; [|rewrite decide_False by done; reflexivity].
  unfold route_eqb. destruct (decide (Some p = Some _)) as [[= ->]|E].
  - rewrite bool_decide_eq_true_2 by done. unfold sat_add32, u32_max. lia.
  - rewrite bool_decide_eq_false_2 by congruence. reflexivity.
Qed.

(** Signals that leave the decision to the advice. *)
Definition quiet (sig : RuntimeSignals) : Prop := has_queued_plan sig = false /\ performed_recently sig = false /\ repair_stalled sig = false.

Lemma quiet_over_limit c st pk sig : quiet sig -> (max_repeat_lane c < repeat_count st)%N -> gated sig (advised c st pk sig) = gated sig (fallback_lane c).
Proof.
  intros (Hq & Hp & Hs) Hover. f_equal. unfold advised, advice_rules. rewrite !fire_all_app. unfold limit_rules. rewrite Hp, Hq.
  cbn [fire_all foldl]. rewrite !fire_lane. unfold always. rewrite (proj2 (N.ltb_lt _ _) Hover). done.
Qed.

Lemma streak_last_ge l x : last l = Some x -> (1 <= streak l)%N.
Proof. unfold streak. rewrite <- head_reverse. destruct (reverse l); cbn; [done|lia]. Qed.

(** the repeat limit.  With [observe] as fallback, while the loop is not
    stopped and the signals leave the decision to the advice, no lane other
    than [observe] is taken more than [max_repeat_lane + 1] times in a row; the
    state counts the repetitions exactly (up to the largest [u32]). *)
Theorem repetition_bounded c run : fallback_lane c = Observe -> (max_repeat_lane c < u32_max)%N -> Forall (fun x => quiet x.2) run ->
  let '(k, rs) := reviews (gatekeeper_new c) run in
  Forall (fun r => should_stop r = false) rs ->
  repeat_count (state k) = N.min u32_max (streak (lane <$> rs)) /\
  (last (lane <$> rs) = Some Observe \/ (streak (lane <$> rs) <= max_repeat_lane c + 1)%N).
Proof.
  intros Hf Hm Hq. pose proof (unstopped_counts c run) as Hcnt. destruct (reviews (gatekeeper_new c) run) as [k0 rs0] eqn:E0.
  intros Hall. split; [by apply Hcnt|]. clear Hcnt. destruct run as [|[pk sig] run _] using rev_ind.
  { injection E0 as <- <-. right. cbn. lia. }
  apply Forall_app in Hq as [_ [Hsig _]%Forall_cons]. rewrite reviews_app, reviews_cons in E0. cbn [reviews fst snd] in E0, Hsig.
  pose proof (unstopped_counts c run) as Hcnt. pose proof (reviews_cfg (gatekeeper_new c) run) as Hc.
  destruct (reviews (gatekeeper_new c) run) as [k rs]. cbn [fst snd] in *. injection E0 as <- <-.
  apply Forall_app in Hall as [Hrs [Hr _]%Forall_cons]. destruct (Hcnt Hrs) as [Hp Hn]. destruct (unstopped_judged k pk sig Hr) as [_ Hl].
  rewrite fmap_app. cbn [fmap list_fmap]. rewrite last_snoc, streak_snoc. destruct (decide (last (lane <$> rs) = Some _)) as [E|E]; [|right; lia].
  destruct (decide (max_repeat_lane c < streak (lane <$> rs))%N) as [Hover|Hunder]; [|right; lia]. left. rewrite Hl, Hc. cbn [cfg gatekeeper_new].
  rewrite quiet_over_limit; [|done|cbn; rewrite Hn; lia]. rewrite Hf. unfold gated. destruct Hsig as (-> & -> & ->). done.
Qed.
Lemma repetition_bounded_witness :
  let '(k, rs) := reviews (gatekeeper_new default_guard) (replicate 5 (MkPick Plan None, MkSig true false false false 0 false "" None None None)) in
  lane <$> rs = [Plan; Plan; Plan; Plan; Observe] /\
  (last (lane <$> rs) = Some Observe \/ (streak (lane <$> rs) <= max_repeat_lane default_guard + 1)%N).
Proof.
  split; [vm_compute; reflexivity|].
  pose proof (repetition_bounded default_guard (replicate 5 (MkPick Plan None, MkSig true false false false 0 false "" None None None))) as H.
  destruct (reviews _ _) as [k rs] eqn:E in H.
  destruct H as [_ H]; [reflexivity|vm_compute; reflexivity|by apply Forall_replicate|vm_compute in E; injection E as <- <-; by repeat constructor|].
  vm_compute in E. injection E as <- <-. exact H.
Defined.

(** the fallback is a trap.  Once [observe], the fallback, was repeated
    beyond the limit, every review under signals that leave the decision to the
    advice answers [observe] again, whatever the model picks and even when the
    runtime is ready to finish, until the cycle cap. *)
Theorem observe_trap k run : fallback_lane (cfg k) = Observe -> (max_cycles (cfg k) < u32_max)%N -> (max_repeat_lane (cfg k) < u32_max)%N ->
  previous_lane (state k) = Some Observe -> (max_repeat_lane (cfg k) < repeat_count (state k))%N -> Forall (fun x => quiet x.2) run ->
  (cycle_count (state k) + N.of_nat (length run) <= max_cycles (cfg k))%N ->
  Forall (fun r => lane r = Observe /\ should_stop r = false) (reviews k run).2.
Proof.
  intros Hf Hm Hmr Hp Hover Hq. revert k Hf Hm Hmr Hp Hover. induction Hq as [|[pk sig] run Hsig _ IH]; intros k Hf Hm Hmr Hp Hover Hcy; [constructor|].
  cbn [length] in Hcy. cbn [snd] in Hsig. rewrite reviews_cons. cbn [snd].
  assert (Hnc : over_cap k = false) by (unfold over_cap; apply N.ltb_ge; rewrite sat_add32_exact; lia).
  destruct (review_judged k pk sig) as (ch & n & E); [by rewrite Hnc|].
  rewrite quiet_over_limit, Hf in E by done. destruct Hsig as (Hq & Hpr & Hst).
  assert (Hg : gated sig Observe = Observe) by (unfold gated; by rewrite Hq, Hpr, Hst). rewrite Hg in E. rewrite E. cbn [snd fst]. constructor; [done|].
  apply IH; cbn [cfg state track previous_lane repeat_count reviewed_state cycle_count]; try done.
  - rewrite Hp. unfold route_eqb. rewrite bool_decide_eq_true_2 by done. unfold sat_add32. lia.
  - rewrite Hnc, sat_add32_exact by lia. lia.
Qed.
Lemma observe_trap_witness : Forall (fun r => lane r = Observe /\ should_stop r = false)
  (reviews (MkKeeper default_guard (MkGate 4 (Some Observe) 4)) (replicate 60 (MkPick Conclude (Some (f32_lit 9 10)), calm))).2.
Proof.
  apply observe_trap; [reflexivity|vm_compute; reflexivity|vm_compute; reflexivity|reflexivity|vm_compute; reflexivity|by apply Forall_replicate|vm_compute; discriminate].
Defined.
