(* ===== verification/RouteSelect.v ===== *)
(** * Route selection ([canon-decision/src/lib.rs],
    [canon-runtime-supervisor/src/judgment_loop.rs])

    The reply of a model is searched for JSON, the whole text first and then its
    fenced blocks; the first candidate that is an acceptable selection wins and
    goes to the gatekeeper.  [serde_json]'s parser and the derived decoder of
    [RouteSelection] are parameters. *)
From S2P Require Import Prelude Json Text PatchParser Gatekeeper.

(** ** Fenced blocks *)

Definition FENCE : bytes := lit "```".
(** [line.trim_start().starts_with("```")]. *)
Definition is_fence (line : bytes) : bool := starts_with FENCE (trim_start line).

(** The loop of [extract_fenced_blocks]: the blocks so far, whether inside a
    fence, and the text collected there. *)
Definition fence_step (st : list bytes * bool * bytes) (line : bytes) : list bytes * bool * bytes :=
  let '(blocks, in_fence, current) := st in
  if negb in_fence then (if is_fence line then (blocks, true, []) else st)
  else if is_fence line then (blocks ++ [trim current], false, [])
  else (blocks, true, current ++ line ++ [x0a]).
Definition extract_fenced_blocks (text : bytes) : list bytes :=
  (foldl fence_step ([], false, []) (str_lines text)).1.1.

(** ** Selection *)

Section Selection.
Context {V : Type} `{Json V}.

Record RouteSelection := MkSelection { sel_route : RouteKind; rationale : bytes; sel_confidence : option f32; sel_signals : V }.

Context (from_str : bytes -> option V) (from_value : V -> result string RouteSelection).

Definition parse_json_candidates (raw : bytes) : list V :=
  let trimmed := trim raw in
  option_list (from_str trimmed) ++ omap from_str (extract_fenced_blocks trimmed).

Definition in_unit_range (c : f32) : bool := (f32_of_Z 0 <=?f c) && (c <=?f f32_of_Z 1).

(** Why a decoded selection is refused. *)
Definition refusal (allowed : list RouteKind) (s : RouteSelection) : option string :=
  if bool_decide (trim (rationale s) = []) then Some "route selection rationale is empty"%string
  else if negb (bool_decide (sel_route s ∈ allowed)) then Some ("route '" +:+ route_str (sel_route s) +:+ "' is not in current allowed set")
  else match sel_confidence s with
  | Some c => if in_unit_range c then None else Some "confidence must be in [0.0, 1.0]"%string
  | None => None
  end.
Definition with_signals (s : RouteSelection) : RouteSelection :=
  if json_is_null (sel_signals s) then MkSelection (sel_route s) (rationale s) (sel_confidence s) jempty else s.

(** The loop of [parse_route_selection] with its [last_err]. *)
Fixpoint select (allowed : list RouteKind) (cands : list V) (last_err : option string) : result string RouteSelection :=
  match cands with
  | [] => Err (default "route selection is not valid JSON"%string last_err)
  | v :: cands' =>
      match from_value v with
      | Ok s =>
          match refusal allowed s with
          | Some e => select allowed cands' (Some e)
          | None => Ok (with_signals s)
          end
      | Err e => select allowed cands' (Some e)
      end
  end.
Definition parse_route_selection (raw : bytes) (allowed : list RouteKind) : result string RouteSelection :=
  select allowed (parse_json_candidates raw) None.

(** [RouteController]: the gatekeeper behind the parser. *)
Definition open_routes : list RouteKind := [Observe; Plan; Act; Verify; Conclude].
Definition pick_of (s : RouteSelection) : Pick := MkPick (sel_route s) (sel_confidence s).
Definition evaluate_model_output (gate : Gatekeeper) (model_json : bytes) (sig : RuntimeSignals) : Gatekeeper * result string (RouteSelection * GateResult) :=
  match parse_route_selection model_json open_routes with
  | Err e => (gate, Err e)
  | Ok s => let '(gate, r) := review gate (pick_of s) sig in (gate, Ok (s, r))
  end.

(** ** Which candidate wins *)

(** What a candidate is worth: the selection, or the reason it is passed over. *)
Definition verdict (allowed : list RouteKind) (v : V) : result string RouteSelection :=
  match from_value v with
  | Ok s => match refusal allowed s with Some e => Err e | None => Ok (with_signals s) end
  | Err e => Err e
  end.

Lemma select_spec allowed cands last_err :
  (exists before v after s, cands = before ++ v :: after /\ Forall (fun w => is_err (verdict allowed w) = true) before /\
     verdict allowed v = Ok s /\ select allowed cands last_err = Ok s) \/
  (Forall (fun w => is_err (verdict allowed w) = true) cands /\
   select allowed cands last_err =
     match last cands with
     | Some v => match verdict allowed v with Err e => Err e | Ok _ => Err "" end
     | None => Err (default "route selection is not valid JSON"%string last_err)
     end).
Proof.
  revert last_err. induction cands as [|v cands IH]; intros last_err; [by right|]. cbn [select].
  assert (Hpass : forall e, verdict allowed v = Err e -> select allowed (v :: cands) last_err = select allowed cands (Some e)).
  { intros e He. unfold verdict in He. cbn [select]. destruct (from_value v) as [s|e']; [|by injection He as ->].
    destruct (refusal allowed s) as [e'|]; [by injection He as ->|done]. }
  destruct (verdict allowed v) as [s|e] eqn:Hv.
  { left. exists [], v, cands, s. split_and!; [done|constructor|done|]. unfold verdict in Hv. cbn [select].
    destruct (from_value v) as [s'|]; [|done]. by destruct (refusal allowed s'). }
  cbn [select] in Hpass. rewrite (Hpass e eq_refl). destruct (IH (Some e)) as [(b & w & a & s & -> & Hb & Hw & Hs)|[Hall Hs]].
  - left. exists (v :: b), w, a, s. split_and!; [done|constructor; [cbv beta; by rewrite Hv|done]|done|done].
  - right. split; [constructor; [cbv beta; by rewrite Hv|done]|]. rewrite Hs. destruct cands as [|w cands]; [cbn [last]; by rewrite Hv|]. change (last (v :: w :: cands)) with (last (w :: cands)).
    destruct (last (w :: cands)) eqn:El; [done|]. by apply last_None in El.
Qed.

Lemma verdict_ok allowed v s : verdict allowed v = Ok s ->
  sel_route s ∈ allowed /\ trim (rationale s) <> [] /\ (forall c, sel_confidence s = Some c -> in_unit_range c = true).
Proof.
  unfold verdict. destruct (from_value v) as [s0|]; [|done]. destruct (refusal allowed s0) as [e|] eqn:Hr; [done|]. intros [= <-].
  assert (Hw : sel_route (with_signals s0) = sel_route s0 /\ rationale (with_signals s0) = rationale s0 /\ sel_confidence (with_signals s0) = sel_confidence s0)
    by (unfold with_signals; by destruct (json_is_null _)).
  destruct Hw as (-> & -> & ->). unfold refusal in Hr. destruct (bool_decide (trim (rationale s0) = [])) eqn:E1; [done|]. apply bool_decide_eq_false in E1.
  destruct (bool_decide (sel_route s0 ∈ allowed)) eqn:E2; [|done]. apply bool_decide_eq_true in E2. split_and!; [done|done|].
  intros c Hc. rewrite Hc in Hr. by destruct (in_unit_range c).
Qed.
End Selection.
Arguments RouteSelection V : clear implicits.

(** whatever a model replies, a selection that passes the controller is one
    of the five open routes (never [decompose]), has a rationale that is not
    blank and a confidence between 0 and 1; it is the first candidate of the
    reply, the whole text and then the fenced blocks in order, that is
    acceptable, and the gatekeeper reviews exactly it.  When no candidate is
    acceptable the error is that of the last one and the gatekeeper's state is
    left alone. *)
Theorem evaluate_model_output_spec {V} `{Json V} from_str from_value k raw sig :
  let cands := parse_json_candidates from_str raw in
  match evaluate_model_output from_str from_value k raw sig with
  | (k', Ok (s, r)) =>
      (k', r) = review k (pick_of s) sig /\ sel_route s <> Decompose /\ trim (rationale s) <> [] /\
      (forall c, sel_confidence s = Some c -> in_unit_range c = true) /\
      exists before v after, cands = before ++ v :: after /\ verdict from_value open_routes v = Ok s /\
        Forall (fun w => is_err (verdict from_value open_routes w) = true) before
  | (k', Err e) =>
      k' = k /\ Forall (fun w => is_err (verdict from_value open_routes w) = true) cands /\
      match last cands with
      | Some v => verdict from_value open_routes v = Err e
      | None => e = "route selection is not valid JSON"%string
      end
  end.
Proof.
  cbv zeta. unfold evaluate_model_output, parse_route_selection.
  destruct (select_spec from_value open_routes (parse_json_candidates from_str raw) None) as [(b & v & a & s & Hc & Hb & Hv & ->)|[Hall ->]].
  - destruct (review k (pick_of s) sig) as [k' r] eqn:Hr. destruct (verdict_ok _ _ _ _ Hv) as (Hin & Ht & Hcf). split_and!; [done| |done|done|].
    + intros E. rewrite E in Hin. unfold open_routes in Hin. rewrite !elem_of_cons, elem_of_nil in Hin. naive_solver.
    + by exists b, v, a.
  - destruct (last (parse_json_candidates from_str raw)) as [v|] eqn:Hl; [|done].
    assert (He : is_err (verdict from_value open_routes v) = true).
    { rewrite Forall_forall in Hall. apply Hall. apply last_Some_elem_of in Hl. done. }
    destruct (verdict from_value open_routes v) as [s|e] eqn:Hv; [done|]. split_and!; [done|done|done].
Qed.

(** ** What the fences enclose *)

(** A reply as segments: prose, and blocks between two fence lines. *)
Inductive segment :=
| Prose (ls : list bytes)
| Block (open : bytes) (body : list bytes) (close : bytes).
Definition segment_lines (sg : segment) : list bytes :=
  match sg with Prose ls => ls | Block o body c => o :: body ++ [c] end.
Definition segment_ok (sg : segment) : Prop :=
  match sg with
  | Prose ls => Forall (fun l => is_fence l = false) ls
  | Block o body c => is_fence o = true /\ Forall (fun l => is_fence l = false) body /\ is_fence c = true
  end.
Definition segment_blocks (sg : segment) : list bytes :=
  match sg with Prose _ => [] | Block _ body _ => [trim (concat ((fun l => l ++ [x0a]) <$> body))] end.
(** Lines written with a line feed each. *)
Definition written (ls : list bytes) : bytes := concat ((fun l => l ++ [x0a]) <$> ls).
Definition line_clean (l : bytes) : Prop := x0a ∉ l /\ strip_cr l = l.
#[export] Instance line_clean_dec l : Decision (line_clean l) := and_dec _ _.

Lemma split_written ls : Forall line_clean ls -> split_lines (written ls) = ls ++ [[]].
Proof.
  unfold written. induction 1 as [|l ls [Hl _] _ IH]; [done|]. rewrite fmap_cons. cbn [concat]. rewrite <- app_assoc. cbn [app].
  rewrite split_lines_one by done. by rewrite IH.
Qed.
Lemma str_lines_written ls : Forall line_clean ls -> str_lines (written ls) = ls.
Proof.
  intros Hls. unfold str_lines. rewrite split_written, last_snoc, app_nil_r, length_app, Nat.add_sub, take_app_length by done.
  induction Hls as [|l ls [_ Hc] _ IH]; [done|]. rewrite fmap_cons. by rewrite Hc, IH.
Qed.

Lemma fence_prose ls blocks current : Forall (fun l => is_fence l = false) ls -> foldl fence_step (blocks, false, current) ls = (blocks, false, current).
Proof. induction 1 as [|l ls Hl _ IH]; [done|]. cbn [foldl]. unfold fence_step at 2. cbn [negb]. by rewrite Hl. Qed.
Lemma fence_body ls blocks current : Forall (fun l => is_fence l = false) ls ->
  foldl fence_step (blocks, true, current) ls = (blocks, true, current ++ written ls).
Proof.
  intros Hls. revert current. induction Hls as [|l ls Hl _ IH]; intros current; [by rewrite app_nil_r|].
  cbn [foldl]. unfold fence_step at 2. cbn [negb]. rewrite Hl, IH. unfold written. rewrite fmap_cons. cbn [concat]. by rewrite !app_assoc.
Qed.

Lemma fence_segments sgs blocks current : Forall segment_ok sgs ->
  exists current', foldl fence_step (blocks, false, current) (concat (segment_lines <$> sgs)) = (blocks ++ concat (segment_blocks <$> sgs), false, current').
Proof.
  intros Hs. revert blocks current. induction Hs as [|[ls|o body c] sgs Hok _ IH]; intros blocks current; cbn [fmap list_fmap concat segment_lines segment_blocks].
  - exists current. by rewrite app_nil_r.
  - rewrite foldl_app, fence_prose by done. apply IH.
  - destruct Hok as (Ho & Hb & Hc). rewrite foldl_app. cbn [foldl]. unfold fence_step at 3. cbn [negb]. rewrite Ho, foldl_app, fence_body by done.
    cbn [foldl]. unfold fence_step at 2. cbn [negb]. rewrite Hc. destruct (IH (blocks ++ [trim ([] ++ written body)]) []) as (cur & Hcur).
    exists cur. cbn [app] in *. unfold written in *. rewrite Hcur. by rewrite <- app_assoc.
Qed.

(** the fences.  From a reply of prose and fenced blocks, possibly with a
    last block that is never closed, exactly the contents of the closed blocks
    are extracted, in order and trimmed. *)
Theorem fenced_blocks_exact sgs tail : Forall segment_ok sgs -> Forall line_clean (concat (segment_lines <$> sgs) ++ tail) ->
  (exists o body, tail = o :: body /\ is_fence o = true /\ Forall (fun l => is_fence l = false) body) \/ tail = [] ->
  extract_fenced_blocks (written (concat (segment_lines <$> sgs) ++ tail)) = concat (segment_blocks <$> sgs).
Proof.
  intros Hs Hc Ht. unfold extract_fenced_blocks. rewrite str_lines_written, foldl_app by done.
  destruct (fence_segments sgs [] [] Hs) as (cur & ->). cbn [app]. destruct Ht as [(o & body & -> & Ho & Hb)| ->]; [|done].
  cbn [foldl]. unfold fence_step at 2. cbn [negb]. rewrite Ho. by rewrite fence_body.
Qed.
Lemma fenced_blocks_exact_witness :
  extract_fenced_blocks (written [lit "Here:"; lit "```json"; lit "{}"; lit "```"; lit "  ```"; lit "open"]) = [lit "{}"].
Proof.
  apply (fenced_blocks_exact [Prose [lit "Here:"]; Block (lit "```json") [lit "{}"] (lit "```")] [lit "  ```"; lit "open"]).
  - repeat constructor.
  - apply (bool_decide_unpack _). vm_compute. reflexivity.
  - left. exists (lit "  ```"), [lit "open"]. split_and!; [reflexivity|vm_compute; reflexivity|repeat constructor].
Defined.
