(* ===== verification/TextFormat.v ===== *)
(** * Formatting and parsing of text

    What the sources use of [format!], [str::parse], [str::find] and
    [str::split], on the bytes of the text. *)
From S2P Require Import Prelude Text PatchParser.

(** ** Decimal numbers *)

Definition digit (n : N) : byte := default x30 (Byte.of_N (48 + n)).
Fixpoint dec_fuel (fuel : nat) (n : N) : bytes :=
  match fuel with
  | O => []
  | S fuel' => if (n <? 10)%N then [digit n] else dec_fuel fuel' (n / 10) ++ [digit (n mod 10)]
  end.
(** [format!("{n}")]; a number has at most as many digits as bits. *)
Definition dec (n : N) : bytes := dec_fuel (S (N.to_nat (N.size n))) n.

Definition digit_value (b : byte) : option N :=
  let v := Byte.to_N b in if (48 <=? v)%N && (v <=? 57)%N then Some (v - 48)%N else None.
Definition push_digit (max : N) (acc : option N) (b : byte) : option N :=
  a ← acc; d ← digit_value b; if (a * 10 + d <=? max)%N then Some (a * 10 + d)%N else None.
(** [str::parse] of an unsigned type with the given largest value: an optional
    plus sign and at least one digit, without overflow. *)
Definition parse_uint (max : N) (s : bytes) : option N :=
  let digits := match s with x2b :: (_ :: _) as rest => rest | _ => s end in
  match digits with [] => None | _ => foldl (push_digit max) (Some 0%N) digits end.

Lemma digit_value_digit d : (d < 10)%N -> digit_value (digit d) = Some d.
Proof. intros Hd. assert (Hin : d ∈ [0; 1; 2; 3; 4; 5; 6; 7; 8; 9]%N) by (rewrite !elem_of_cons, elem_of_nil; lia). rewrite !elem_of_cons, elem_of_nil in Hin. naive_solver. Qed.

Lemma dec_fuel_parse max fuel n : (n <= max)%N -> N.to_nat (N.size n) < fuel -> foldl (push_digit max) (Some 0%N) (dec_fuel fuel n) = Some n.
Proof.
  revert n. induction fuel as [|fuel IH]; intros n Hn Hf; [lia|]. cbn [dec_fuel].
  assert (Hstep : forall a d, (d < 10)%N -> (a * 10 + d <= max)%N -> push_digit max (Some a) (digit d) = Some (a * 10 + d)%N).
  { intros a d Hd Hle. unfold push_digit. cbn [mbind option_bind]. rewrite digit_value_digit by done. cbn [mbind option_bind]. by rewrite (proj2 (N.leb_le _ _)). }
  destruct (n <? 10)%N eqn:E; [apply N.ltb_lt in E; cbn [foldl]; rewrite Hstep by lia; f_equal; lia|]. apply N.ltb_ge in E.
  pose proof (N.div_mod n 10 ltac:(lia)) as Hdm. pose proof (N.mod_lt n 10 ltac:(lia)) as Hm.
  rewrite N.mul_comm in Hdm. rewrite foldl_app, IH; [cbn [foldl]; rewrite Hstep, <- Hdm; [done|done|by rewrite <- Hdm]|apply (N.le_trans _ n); [apply N.Div0.div_le_upper_bound; lia|done]|].
  assert (Hlog : (N.size (n / 10) < N.size n)%N).
  { assert (0 < n / 10)%N by (apply N.div_str_pos; lia). rewrite !N.size_log2 by (clear - H E; lia).
    assert (N.log2 (n / 10) < N.log2 n)%N; [|lia]. apply (N.lt_le_trans _ (N.succ (N.log2 (n / 10)))); [lia|].
    rewrite <- N.log2_double by done. apply N.log2_le_mono. clear - Hdm. generalize dependent (n / 10)%N. generalize (n mod 10)%N. lia. }
  clear - Hlog Hf. lia.
Qed.
Lemma dec_no_plus fuel n b : b ∈ dec_fuel fuel n -> digit_value b <> None.
Proof.
  revert n. induction fuel as [|fuel IH]; intros n; cbn [dec_fuel]; [by intros ?%elem_of_nil|]. destruct (n <? 10)%N eqn:E.
  - intros ->%list_elem_of_singleton. by rewrite digit_value_digit by (by apply N.ltb_lt).
  - intros [Hb|Hb]%elem_of_app; [by apply (IH (n / 10)%N)|]. apply list_elem_of_singleton in Hb as ->.
    by rewrite digit_value_digit by (apply N.mod_lt; lia).
Qed.
Lemma dec_nonempty n : dec n <> [].
Proof. unfold dec. cbn [dec_fuel]. destruct (n <? 10)%N; [done|]. by destruct (dec_fuel _ _). Qed.

(** Parsing inverts printing within the range of the type. *)
Lemma parse_dec max n : (n <= max)%N -> parse_uint max (dec n) = Some n.
Proof.
  intros Hn. pose proof (dec_fuel_parse max (S (N.to_nat (N.size n))) n Hn ltac:(lia)) as Hp. fold (dec n) in Hp.
  pose proof (dec_no_plus (S (N.to_nat (N.size n))) n) as Hd. fold (dec n) in Hd. pose proof (dec_nonempty n) as Hne.
  unfold parse_uint. destruct (dec n) as [|b s]; [done|]. destruct (decide (b = x2b)) as [->|Hb].
  - exfalso. by apply (Hd x2b); [apply list_elem_of_here|].
  - by destruct b.
Qed.

Definition fmt_bool (b : bool) : bytes := if b then lit "true" else lit "false".
Lemma fmt_bool_eq b : bool_decide (fmt_bool b = lit "true") = b.
Proof. by destruct b. Qed.

(** ** Prefixes *)

Fixpoint prefixb (p l : bytes) : bool :=
  match p, l with
  | [], _ => true
  | a :: p', b :: l' => Byte.eqb a b && prefixb p' l'
  | _ :: _, [] => false
  end.
Lemma byte_eqb_spec a b : Byte.eqb a b = bool_decide (a = b).
Proof.
  destruct (decide (a = b)) as [->|Hne].
  - rewrite bool_decide_eq_true_2 by done. by apply byte_dec_lb.
  - rewrite bool_decide_eq_false_2 by done. destruct (Byte.eqb a b) eqn:E; [|done]. by apply byte_dec_bl in E.
Qed.
Lemma starts_with_prefixb p l : starts_with p l = prefixb p l.
Proof.
  unfold starts_with. revert l. induction p as [|a p IH]; intros [|b l]; [done..|]. cbn [prefixb length take]. rewrite <- IH, byte_eqb_spec.
  destruct (decide (a = b)) as [->|Hne].
  - rewrite (bool_decide_eq_true_2 (b = b)) by done. cbn [andb]. apply bool_decide_ext. split; [by intros [= ?]|by intros ->].
  - rewrite (bool_decide_eq_false_2 (a = b)) by done. cbn [andb]. apply bool_decide_eq_false_2. congruence.
Qed.
Lemma strip_prefix_b p l : strip_prefix p l = if prefixb p l then Some (drop (length p) l) else None.
Proof. unfold strip_prefix. by rewrite starts_with_prefixb. Qed.
Lemma prefixb_spec p l : prefixb p l = true <-> exists r, l = p ++ r.
Proof.
  revert l. induction p as [|a p IH]; intros [|b l]; cbn [prefixb]; split; try done; try (by eexists).
  - intros [r Hr]. done.
  - intros [->%byte_dec_bl [r ->]%IH]%andb_true_iff. by exists r.
  - intros [r [= -> ->]]. apply andb_true_iff. split; [by apply byte_dec_lb|]. apply IH. by exists r.
Qed.

(** ** Searching *)

(** [str::find]. *)
Fixpoint find_sub (p l : bytes) : option nat :=
  if prefixb p l then Some 0 else match l with [] => None | _ :: l' => S <$> find_sub p l' end.

(** A pattern whose only occurrence of [c] is its last byte is found no later
    than the first [c]. *)
Lemma find_first c p a rest : c ∉ a -> c ∉ p -> find_sub (p ++ [c]) (a ++ p ++ c :: rest) = Some (length a).
Proof.
  intros Ha Hp. induction a as [|b a IH].
  - cbn [app]. assert (E : prefixb (p ++ [c]) (p ++ c :: rest) = true) by (apply prefixb_spec; exists rest; by rewrite <- app_assoc).
    destruct (p ++ c :: rest) eqn:El; cbn [find_sub]; by rewrite E.
  - apply not_elem_of_cons in Ha as [Hb Ha]. cbn [app find_sub]. destruct (prefixb (p ++ [c]) (b :: a ++ p ++ c :: rest)) eqn:E; [|by rewrite (IH Ha)].
    exfalso. apply prefixb_spec in E as [r Hr]. assert (Hn : (b :: a ++ p) ++ c :: rest = p ++ c :: r) by (cbn; rewrite <- app_assoc; cbn in Hr; rewrite Hr, <- app_assoc; done).
    assert (Hl : length (b :: a ++ p) = length p).
    { eapply (f_equal (fun l => list_find (fun x => x = c) l)) in Hn. clear Hr.
      assert (Hf : forall x y, c ∉ x -> list_find (fun z => z = c) (x ++ c :: y) = Some (length x, c)).
      { intros x y Hx. apply list_find_Some. split_and!; [by apply list_lookup_middle|done|]. intros j z Hz Hj ->. apply Hx.
        rewrite lookup_app_l in Hz by done. by eapply list_elem_of_lookup_2. }
      rewrite !Hf in Hn by (try done; rewrite elem_of_cons, elem_of_app; naive_solver). congruence. }
    cbn in Hl. rewrite length_app in Hl. lia.
Qed.
(** Up to the first [c] nothing is found when the pattern does not end there. *)
Lemma find_skip c p x rest : c ∉ x -> c ∉ p -> (forall y, x <> y ++ p) ->
  find_sub (p ++ [c]) (x ++ c :: rest) = (fun k => S (length x) + k) <$> find_sub (p ++ [c]) rest.
Proof.
  intros Hx Hp. induction x as [|b x IH]; intros Hs.
  - assert (E : prefixb (p ++ [c]) (c :: rest) = false).
    { destruct p as [|a p]; [by destruct (Hs [])|]. cbn. rewrite byte_eqb_spec, bool_decide_eq_false_2; [done|]. intros ->. apply Hp, list_elem_of_here. }
    cbn [app find_sub]. rewrite E. by destruct (find_sub (p ++ [c]) rest).
  - apply not_elem_of_cons in Hx as [Hb Hx].
    assert (E : prefixb (p ++ [c]) (b :: x ++ c :: rest) = false).
    { apply not_true_iff_false. intros [r Hr]%prefixb_spec. rewrite <- app_assoc in Hr. cbn [app] in Hr.
      assert (Hf : forall u v v', c ∉ u -> forall w, c ∉ w -> u ++ c :: v = w ++ c :: v' -> u = w).
      { clear. induction u as [|a u IH]; intros v v' Hu [|d w] Hw Heq; [done| | |].
        - injection Heq as <- _. by destruct Hw; apply list_elem_of_here.
        - injection Heq as -> _. by destruct Hu; apply list_elem_of_here.
        - apply not_elem_of_cons in Hu as [_ Hu]. apply not_elem_of_cons in Hw as [_ Hw]. injection Heq as -> Heq. f_equal. by eapply IH. }
      apply (Hs []). apply (Hf (b :: x) rest r); [by apply not_elem_of_cons|done|exact Hr]. }
    cbn [app find_sub]. rewrite E, (IH Hx).
    + by destruct (find_sub (p ++ [c]) rest).
    + intros y ->. by apply (Hs (b :: y)).
Qed.

(** [str::split] at a byte. *)
Fixpoint split_byte (c : byte) (l : bytes) : list bytes :=
  match l with
  | [] => [[]]
  | b :: l' =>
      if Byte.eqb b c then [] :: split_byte c l'
      else match split_byte c l' with s :: ss => (b :: s) :: ss | [] => [[b]] end
  end.
Lemma split_byte_none c l : c ∉ l -> split_byte c l = [l].
Proof. induction l as [|b l IH]; intros Hl; [done|]. apply not_elem_of_cons in Hl as [Hb Hl]. cbn. rewrite byte_eqb_spec, bool_decide_eq_false_2, IH by done. done. Qed.
Lemma split_byte_one c l rest : c ∉ l -> split_byte c (l ++ c :: rest) = l :: split_byte c rest.
Proof.
  induction l as [|b l IH]; intros Hl; cbn [app split_byte].
  - by rewrite byte_eqb_spec, bool_decide_eq_true_2.
  - apply not_elem_of_cons in Hl as [Hb Hl]. rewrite byte_eqb_spec, bool_decide_eq_false_2, IH by done. done.
Qed.
Lemma split_join_byte c l ls : Forall (fun x => c ∉ x) (l :: ls) -> split_byte c (join [c] (l :: ls)) = l :: ls.
Proof.
  revert l. induction ls as [|l' ls IH]; intros l Hl; apply Forall_cons in Hl as [Hl Hls].
  - cbn. rewrite app_nil_r. by apply split_byte_none.
  - change (join [c] (l :: l' :: ls)) with (l ++ c :: join [c] (l' :: ls)). rewrite split_byte_one by done. by rewrite IH.
Qed.
