(* ===== verification/Paths.v ===== *)
(** * Paths ([std::path] on Unix)

    A path is the bytes it was written with; equality, hashing and prefixes go
    by its components, so that [a//b/.] and [a/b] are the same key. *)
From S2P Require Import Prelude Text PatchParser TextFormat.

Definition SLASH : byte := x2f.
Definition is_absolute (p : bytes) : bool := starts_with [SLASH] p.
Definition str (b : bytes) : string := String.string_of_list_byte b.

(** [Path::join]. *)
Definition join_path (base p : bytes) : bytes :=
  if is_absolute p then p else match last base with None => p | Some b => if Byte.eqb b SLASH then base ++ p else base ++ [SLASH] ++ p end.

(** A part that [components] skips unless it comes first. *)
Definition is_skipped (part : bytes) : bool := bool_decide (part = []) || bool_decide (part = lit ".").
(** The first part and the others as written. *)
Definition parts (p : bytes) : bytes * list bytes := match split_byte SLASH p with first :: rest => (first, rest) | [] => ([], []) end.
(** [components]: whether there is a root, and the names. *)
Definition PathKey : Type := bool * list bytes.
Definition components (p : bytes) : PathKey :=
  let '(first, rest) := parts p in
  (is_absolute p, (if bool_decide (first = []) then [] else [first]) ++ filter (fun x => is_skipped x = false) rest).

(** [Path::starts_with]. *)
Fixpoint names_prefix (a b : list bytes) : bool :=
  match a, b with [], _ => true | x :: a', y :: b' => bool_decide (x = y) && names_prefix a' b' | _ :: _, [] => false end.
Definition path_starts_with (p base : bytes) : bool :=
  Bool.eqb (components p).1 (components base).1 && names_prefix (components base).2 (components p).2.

(** The parts without those that [components] skips at the end. *)
Fixpoint drop_skipped (l : list bytes) : list bytes := match l with x :: l' => if is_skipped x then drop_skipped l' else l | [] => [] end.
Definition trim_parts (l : list bytes) : list bytes := reverse (drop_skipped (reverse l)).
(** [Path::parent] and [Path::file_name]. *)
Definition parent (p : bytes) : option bytes :=
  let '(first, rest) := parts p in
  match reverse (trim_parts rest) with
  | [] => if bool_decide (first = []) then None else Some []
  | _ :: front =>
      match trim_parts (reverse front) with
      | [] => Some (if is_absolute p then [SLASH] else first)
      | names => Some (join [SLASH] (first :: names))
      end
  end.
Definition normal_name (x : bytes) : option bytes := if bool_decide (x = []) || bool_decide (x = lit ".") || bool_decide (x = lit "..") then None else Some x.
Definition file_name (p : bytes) : option bytes :=
  let '(first, rest) := parts p in
  match reverse (trim_parts rest) with [] => normal_name first | x :: _ => normal_name x end.

Example path_key_normal : components (lit "/a//b/./c/") = components (lit "/a/b/c").
Proof. reflexivity. Qed.
Example parent_of : (parent (lit "/a/b//"), parent (lit "/a"), parent (lit "a"), parent (lit "/")) = (Some (lit "/a"), Some (lit "/"), Some [], None).
Proof. reflexivity. Qed.

Lemma is_absolute_join base p : is_absolute p = true -> join_path base p = p.
Proof. unfold join_path. by intros ->. Qed.

Lemma names_prefix_app a b : names_prefix a (a ++ b) = true.
Proof. induction a as [|x a IH]; [done|]. cbn. by rewrite bool_decide_eq_true_2, IH by done. Qed.

(** Splitting at the separator that [join] puts between base and name. *)
Lemma split_byte_app c l rest : split_byte c (l ++ c :: rest) = split_byte c l ++ split_byte c rest.
Proof.
  induction l as [|b l IH]; cbn [app split_byte].
  - by rewrite byte_eqb_spec, bool_decide_eq_true_2.
  - rewrite IH. destruct (Byte.eqb b c); [done|]. destruct (split_byte c l) as [|s ss] eqn:E; [|done].
    exfalso. destruct l as [|b' l']; cbn in E; [done|]. destruct (Byte.eqb b' c); [done|]. by destruct (split_byte c l').
Qed.
