(* ===== verification/SemanticState.v ===== *)
(** * The semantic state ([canon-semantic-state/src/lib.rs])

    The summary of a workspace that the loop, the router and the planner share,
    the compiler hints it carries, and its line-oriented form with the parser
    that reads it back. *)
From Stdlib Require Import Floats.SpecFloat Sorting.Sorted.
From S2P Require Import Prelude Json Text PatchParser TextFormat Gatekeeper.

(** ** Kinds and their names *)

Inductive CompilerHintKind : Set :=
| MissingModule | DeadCodeForbidConflict | MissingEntrypoint | UnresolvedImport | MissingSymbol | DuplicateDefinition
| TraitBoundFailure | GenericCompilerFailure.
#[export] Instance CompilerHintKind_eq_dec : EqDecision CompilerHintKind.
Proof. solve_decision. Defined.
Definition hint_kind_str (k : CompilerHintKind) : bytes :=
  match k with
  | MissingModule => lit "missing_module" | DeadCodeForbidConflict => lit "dead_code_forbid_conflict"
  | MissingEntrypoint => lit "missing_entrypoint" | UnresolvedImport => lit "unresolved_import" | MissingSymbol => lit "missing_symbol"
  | DuplicateDefinition => lit "duplicate_definition" | TraitBoundFailure => lit "trait_bound_failure"
  | GenericCompilerFailure => lit "generic_compiler_failure"
  end.
Definition all_hint_kinds : list CompilerHintKind :=
  [MissingModule; DeadCodeForbidConflict; MissingEntrypoint; UnresolvedImport; MissingSymbol; DuplicateDefinition; TraitBoundFailure; GenericCompilerFailure].
(** [CompilerHintKind::from_str]: the kinds are tried in order. *)
Definition hint_kind_of_str (s : bytes) : option CompilerHintKind :=
  snd <$> list_find (fun k => hint_kind_str k = s) all_hint_kinds.

Inductive FailureScopeKind : Set := ScopeNone | Localized | Workspace | Tooling.
Definition scope_str (k : FailureScopeKind) : bytes :=
  match k with ScopeNone => lit "none" | Localized => lit "localized" | Workspace => lit "workspace" | Tooling => lit "tooling" end.
Definition scope_of_str (s : bytes) : option FailureScopeKind :=
  snd <$> list_find (fun k => scope_str k = s) [ScopeNone; Localized; Workspace; Tooling].

(** The constructors of [FailureClassKind] carry a prefix, as the hint kinds share
    their names. *)
Inductive FailureClassKind : Set :=
| FcMissingModule | FcDeadCodeForbidConflict | FcMissingEntrypoint | FcUnresolvedImport | FcMissingSymbol | FcDuplicateDefinition | FcTraitBoundFailure | FcGenericCompilerFailure | FcNoActionableFailure.
Definition failure_class_str (k : FailureClassKind) : bytes :=
  match k with
  | FcMissingModule => lit "missing_module" | FcDeadCodeForbidConflict => lit "dead_code_forbid_conflict" | FcMissingEntrypoint => lit "missing_entrypoint"
  | FcUnresolvedImport => lit "unresolved_import" | FcMissingSymbol => lit "missing_symbol" | FcDuplicateDefinition => lit "duplicate_definition"
  | FcTraitBoundFailure => lit "trait_bound_failure" | FcGenericCompilerFailure => lit "generic_compiler_failure" | FcNoActionableFailure => lit "no_actionable_failure"
  end.

(** ** Compiler hints *)

Record CompilerHintRecord := MkHint {
  ch_kind : bytes; ch_summary : bytes; ch_suggested_repair : bytes; ch_target_files : list bytes; ch_failure_scope : bytes
}.
#[export] Instance CompilerHintRecord_eq_dec : EqDecision CompilerHintRecord.
Proof. solve_decision. Defined.
Definition hint_new (k : CompilerHintKind) (summary repair : bytes) (targets : list bytes) : CompilerHintRecord :=
  MkHint (hint_kind_str k) summary repair targets (scope_str ScopeNone).
Definition with_failure_scope (h : CompilerHintRecord) (scope : FailureScopeKind) : CompilerHintRecord :=
  MkHint (ch_kind h) (ch_summary h) (ch_suggested_repair h) (ch_target_files h) (scope_str scope).
Definition kind_enum (h : CompilerHintRecord) : option CompilerHintKind := hint_kind_of_str (ch_kind h).
Definition failure_scope_enum (h : CompilerHintRecord) : option FailureScopeKind := scope_of_str (ch_failure_scope h).

Definition BAR : bytes := [x7c].
Definition targets_text (files : list bytes) : bytes := match files with [] => lit "none" | _ => join BAR files end.
(** [CompilerHintRecord::render_line]. *)
Definition hint_line (h : CompilerHintRecord) : bytes :=
  lit "kind=" ++ ch_kind h ++ lit " scope=" ++ ch_failure_scope h ++ lit " targets=" ++ targets_text (ch_target_files h)
  ++ lit " summary=" ++ ch_summary h ++ lit " repair=" ++ ch_suggested_repair h.

Definition next_field_delimiter (marker : bytes) : bytes :=
  if bool_decide (marker = lit "kind=") then lit " scope="
  else if bool_decide (marker = lit "scope=") then lit " targets="
  else if bool_decide (marker = lit "targets=") then lit " summary="
  else if bool_decide (marker = lit "summary=") then lit " repair="
  else [].
Definition parse_field (line marker : bytes) : option bytes :=
  start ← find_sub marker line;
  let tail := drop (start + length marker) line in
  let delimiter := next_field_delimiter marker in
  let end_ := match delimiter with [] => length tail | _ => default (length tail) (find_sub delimiter tail) end in
  Some (trim (take end_ tail)).
Definition parse_compiler_hint_record (line : bytes) : option CompilerHintRecord :=
  kind ← parse_field line (lit "kind=");
  let scope := default (lit "none") (parse_field line (lit "scope=")) in
  let targets := default (lit "none") (parse_field line (lit "targets=")) in
  let summary := default [] (parse_field line (lit "summary=")) in
  let repair := default [] (parse_field line (lit "repair=")) in
  let files := if bool_decide (targets = lit "none") || bool_decide (targets = []) then [] else trim <$> split_byte x7c targets in
  Some (MkHint kind summary repair files scope).

(** ** The summary *)

Record SemanticStateSummary := MkSummary {
  ss_version : N;
  ss_complete : bool;
  ss_target_root : option bytes;
  ss_path_exists : bool;
  ss_repo_initialized : bool;
  ss_cargo_project : bool;
  ss_crate_name : option bytes;
  ss_entrypoint_kind : option bytes;
  ss_rust_file_count : option N;
  ss_source_files : list bytes;
  ss_module_gaps : list bytes;
  ss_planning_preconditions : list bytes;
  ss_repair_intents : list bytes;
  ss_compiler_hints : list CompilerHintRecord;
  ss_validation_blocked_by_preconditions : bool;
  ss_compiler_repair_required : bool;
  ss_failure_class : option bytes;
  ss_failure_scope : option bytes;
  ss_graph_artifact_id : option bytes;
  ss_graph_node_count : option N;
  ss_graph_edge_count : option N;
  ss_graph_file_count : option N;
  ss_graph_call_edge_count : option N;
  ss_graph_module_edge_count : option N;
  ss_graph_cfg_edge_count : option N;
}.
(** [SemanticStateSummary::default()]. *)
Definition summary_default : SemanticStateSummary :=
  MkSummary 0 false None false false false None None None [] [] [] [] [] false false None None None None None None None None None.
Definition VERSION : N := 1.

(** Assignments to single fields. *)
Section Set_.
Context (s : SemanticStateSummary).
Definition set_version (v : N) : SemanticStateSummary :=
  MkSummary v (ss_complete s) (ss_target_root s) (ss_path_exists s) (ss_repo_initialized s) (ss_cargo_project s) (ss_crate_name s) (ss_entrypoint_kind s) (ss_rust_file_count s) (ss_source_files s) (ss_module_gaps s) (ss_planning_preconditions s) (ss_repair_intents s) (ss_compiler_hints s) (ss_validation_blocked_by_preconditions s) (ss_compiler_repair_required s) (ss_failure_class s) (ss_failure_scope s) (ss_graph_artifact_id s) (ss_graph_node_count s) (ss_graph_edge_count s) (ss_graph_file_count s) (ss_graph_call_edge_count s) (ss_graph_module_edge_count s) (ss_graph_cfg_edge_count s).
Definition set_complete (v : bool) : SemanticStateSummary :=
  MkSummary (ss_version s) v (ss_target_root s) (ss_path_exists s) (ss_repo_initialized s) (ss_cargo_project s) (ss_crate_name s) (ss_entrypoint_kind s) (ss_rust_file_count s) (ss_source_files s) (ss_module_gaps s) (ss_planning_preconditions s) (ss_repair_intents s) (ss_compiler_hints s) (ss_validation_blocked_by_preconditions s) (ss_compiler_repair_required s) (ss_failure_class s) (ss_failure_scope s) (ss_graph_artifact_id s) (ss_graph_node_count s) (ss_graph_edge_count s) (ss_graph_file_count s) (ss_graph_call_edge_count s) (ss_graph_module_edge_count s) (ss_graph_cfg_edge_count s).
Definition set_target_root (v : option bytes) : SemanticStateSummary :=
  MkSummary (ss_version s) (ss_complete s) v (ss_path_exists s) (ss_repo_initialized s) (ss_cargo_project s) (ss_crate_name s) (ss_entrypoint_kind s) (ss_rust_file_count s) (ss_source_files s) (ss_module_gaps s) (ss_planning_preconditions s) (ss_repair_intents s) (ss_compiler_hints s) (ss_validation_blocked_by_preconditions s) (ss_compiler_repair_required s) (ss_failure_class s) (ss_failure_scope s) (ss_graph_artifact_id s) (ss_graph_node_count s) (ss_graph_edge_count s) (ss_graph_file_count s) (ss_graph_call_edge_count s) (ss_graph_module_edge_count s) (ss_graph_cfg_edge_count s).
Definition set_path_exists (v : bool) : SemanticStateSummary :=
  MkSummary (ss_version s) (ss_complete s) (ss_target_root s) v (ss_repo_initialized s) (ss_cargo_project s) (ss_crate_name s) (ss_entrypoint_kind s) (ss_rust_file_count s) (ss_source_files s) (ss_module_gaps s) (ss_planning_preconditions s) (ss_repair_intents s) (ss_compiler_hints s) (ss_validation_blocked_by_preconditions s) (ss_compiler_repair_required s) (ss_failure_class s) (ss_failure_scope s) (ss_graph_artifact_id s) (ss_graph_node_count s) (ss_graph_edge_count s) (ss_graph_file_count s) (ss_graph_call_edge_count s) (ss_graph_module_edge_count s) (ss_graph_cfg_edge_count s).
Definition set_repo_initialized (v : bool) : SemanticStateSummary :=
  MkSummary (ss_version s) (ss_complete s) (ss_target_root s) (ss_path_exists s) v (ss_cargo_project s) (ss_crate_name s) (ss_entrypoint_kind s) (ss_rust_file_count s) (ss_source_files s) (ss_module_gaps s) (ss_planning_preconditions s) (ss_repair_intents s) (ss_compiler_hints s) (ss_validation_blocked_by_preconditions s) (ss_compiler_repair_required s) (ss_failure_class s) (ss_failure_scope s) (ss_graph_artifact_id s) (ss_graph_node_count s) (ss_graph_edge_count s) (ss_graph_file_count s) (ss_graph_call_edge_count s) (ss_graph_module_edge_count s) (ss_graph_cfg_edge_count s).
Definition set_cargo_project (v : bool) : SemanticStateSummary :=
  MkSummary (ss_version s) (ss_complete s) (ss_target_root s) (ss_path_exists s) (ss_repo_initialized s) v (ss_crate_name s) (ss_entrypoint_kind s) (ss_rust_file_count s) (ss_source_files s) (ss_module_gaps s) (ss_planning_preconditions s) (ss_repair_intents s) (ss_compiler_hints s) (ss_validation_blocked_by_preconditions s) (ss_compiler_repair_required s) (ss_failure_class s) (ss_failure_scope s) (ss_graph_artifact_id s) (ss_graph_node_count s) (ss_graph_edge_count s) (ss_graph_file_count s) (ss_graph_call_edge_count s) (ss_graph_module_edge_count s) (ss_graph_cfg_edge_count s).
Definition set_crate_name (v : option bytes) : SemanticStateSummary :=
  MkSummary (ss_version s) (ss_complete s) (ss_target_root s) (ss_path_exists s) (ss_repo_initialized s) (ss_cargo_project s) v (ss_entrypoint_kind s) (ss_rust_file_count s) (ss_source_files s) (ss_module_gaps s) (ss_planning_preconditions s) (ss_repair_intents s) (ss_compiler_hints s) (ss_validation_blocked_by_preconditions s) (ss_compiler_repair_required s) (ss_failure_class s) (ss_failure_scope s) (ss_graph_artifact_id s) (ss_graph_node_count s) (ss_graph_edge_count s) (ss_graph_file_count s) (ss_graph_call_edge_count s) (ss_graph_module_edge_count s) (ss_graph_cfg_edge_count s).
Definition set_entrypoint_kind (v : option bytes) : SemanticStateSummary :=
  MkSummary (ss_version s) (ss_complete s) (ss_target_root s) (ss_path_exists s) (ss_repo_initialized s) (ss_cargo_project s) (ss_crate_name s) v (ss_rust_file_count s) (ss_source_files s) (ss_module_gaps s) (ss_planning_preconditions s) (ss_repair_intents s) (ss_compiler_hints s) (ss_validation_blocked_by_preconditions s) (ss_compiler_repair_required s) (ss_failure_class s) (ss_failure_scope s) (ss_graph_artifact_id s) (ss_graph_node_count s) (ss_graph_edge_count s) (ss_graph_file_count s) (ss_graph_call_edge_count s) (ss_graph_module_edge_count s) (ss_graph_cfg_edge_count s).
Definition set_rust_file_count (v : option N) : SemanticStateSummary :=
  MkSummary (ss_version s) (ss_complete s) (ss_target_root s) (ss_path_exists s) (ss_repo_initialized s) (ss_cargo_project s) (ss_crate_name s) (ss_entrypoint_kind s) v (ss_source_files s) (ss_module_gaps s) (ss_planning_preconditions s) (ss_repair_intents s) (ss_compiler_hints s) (ss_validation_blocked_by_preconditions s) (ss_compiler_repair_required s) (ss_failure_class s) (ss_failure_scope s) (ss_graph_artifact_id s) (ss_graph_node_count s) (ss_graph_edge_count s) (ss_graph_file_count s) (ss_graph_call_edge_count s) (ss_graph_module_edge_count s) (ss_graph_cfg_edge_count s).
Definition set_source_files (v : list bytes) : SemanticStateSummary :=
  MkSummary (ss_version s) (ss_complete s) (ss_target_root s) (ss_path_exists s) (ss_repo_initialized s) (ss_cargo_project s) (ss_crate_name s) (ss_entrypoint_kind s) (ss_rust_file_count s) v (ss_module_gaps s) (ss_planning_preconditions s) (ss_repair_intents s) (ss_compiler_hints s) (ss_validation_blocked_by_preconditions s) (ss_compiler_repair_required s) (ss_failure_class s) (ss_failure_scope s) (ss_graph_artifact_id s) (ss_graph_node_count s) (ss_graph_edge_count s) (ss_graph_file_count s) (ss_graph_call_edge_count s) (ss_graph_module_edge_count s) (ss_graph_cfg_edge_count s).
Definition set_module_gaps (v : list bytes) : SemanticStateSummary :=
  MkSummary (ss_version s) (ss_complete s) (ss_target_root s) (ss_path_exists s) (ss_repo_initialized s) (ss_cargo_project s) (ss_crate_name s) (ss_entrypoint_kind s) (ss_rust_file_count s) (ss_source_files s) v (ss_planning_preconditions s) (ss_repair_intents s) (ss_compiler_hints s) (ss_validation_blocked_by_preconditions s) (ss_compiler_repair_required s) (ss_failure_class s) (ss_failure_scope s) (ss_graph_artifact_id s) (ss_graph_node_count s) (ss_graph_edge_count s) (ss_graph_file_count s) (ss_graph_call_edge_count s) (ss_graph_module_edge_count s) (ss_graph_cfg_edge_count s).
Definition set_planning_preconditions (v : list bytes) : SemanticStateSummary :=
  MkSummary (ss_version s) (ss_complete s) (ss_target_root s) (ss_path_exists s) (ss_repo_initialized s) (ss_cargo_project s) (ss_crate_name s) (ss_entrypoint_kind s) (ss_rust_file_count s) (ss_source_files s) (ss_module_gaps s) v (ss_repair_intents s) (ss_compiler_hints s) (ss_validation_blocked_by_preconditions s) (ss_compiler_repair_required s) (ss_failure_class s) (ss_failure_scope s) (ss_graph_artifact_id s) (ss_graph_node_count s) (ss_graph_edge_count s) (ss_graph_file_count s) (ss_graph_call_edge_count s) (ss_graph_module_edge_count s) (ss_graph_cfg_edge_count s).
Definition set_repair_intents (v : list bytes) : SemanticStateSummary :=
  MkSummary (ss_version s) (ss_complete s) (ss_target_root s) (ss_path_exists s) (ss_repo_initialized s) (ss_cargo_project s) (ss_crate_name s) (ss_entrypoint_kind s) (ss_rust_file_count s) (ss_source_files s) (ss_module_gaps s) (ss_planning_preconditions s) v (ss_compiler_hints s) (ss_validation_blocked_by_preconditions s) (ss_compiler_repair_required s) (ss_failure_class s) (ss_failure_scope s) (ss_graph_artifact_id s) (ss_graph_node_count s) (ss_graph_edge_count s) (ss_graph_file_count s) (ss_graph_call_edge_count s) (ss_graph_module_edge_count s) (ss_graph_cfg_edge_count s).
Definition set_compiler_hints (v : list CompilerHintRecord) : SemanticStateSummary :=
  MkSummary (ss_version s) (ss_complete s) (ss_target_root s) (ss_path_exists s) (ss_repo_initialized s) (ss_cargo_project s) (ss_crate_name s) (ss_entrypoint_kind s) (ss_rust_file_count s) (ss_source_files s) (ss_module_gaps s) (ss_planning_preconditions s) (ss_repair_intents s) v (ss_validation_blocked_by_preconditions s) (ss_compiler_repair_required s) (ss_failure_class s) (ss_failure_scope s) (ss_graph_artifact_id s) (ss_graph_node_count s) (ss_graph_edge_count s) (ss_graph_file_count s) (ss_graph_call_edge_count s) (ss_graph_module_edge_count s) (ss_graph_cfg_edge_count s).
Definition set_validation_blocked_by_preconditions (v : bool) : SemanticStateSummary :=
  MkSummary (ss_version s) (ss_complete s) (ss_target_root s) (ss_path_exists s) (ss_repo_initialized s) (ss_cargo_project s) (ss_crate_name s) (ss_entrypoint_kind s) (ss_rust_file_count s) (ss_source_files s) (ss_module_gaps s) (ss_planning_preconditions s) (ss_repair_intents s) (ss_compiler_hints s) v (ss_compiler_repair_required s) (ss_failure_class s) (ss_failure_scope s) (ss_graph_artifact_id s) (ss_graph_node_count s) (ss_graph_edge_count s) (ss_graph_file_count s) (ss_graph_call_edge_count s) (ss_graph_module_edge_count s) (ss_graph_cfg_edge_count s).
Definition set_compiler_repair_required (v : bool) : SemanticStateSummary :=
  MkSummary (ss_version s) (ss_complete s) (ss_target_root s) (ss_path_exists s) (ss_repo_initialized s) (ss_cargo_project s) (ss_crate_name s) (ss_entrypoint_kind s) (ss_rust_file_count s) (ss_source_files s) (ss_module_gaps s) (ss_planning_preconditions s) (ss_repair_intents s) (ss_compiler_hints s) (ss_validation_blocked_by_preconditions s) v (ss_failure_class s) (ss_failure_scope s) (ss_graph_artifact_id s) (ss_graph_node_count s) (ss_graph_edge_count s) (ss_graph_file_count s) (ss_graph_call_edge_count s) (ss_graph_module_edge_count s) (ss_graph_cfg_edge_count s).
Definition set_failure_class (v : option bytes) : SemanticStateSummary :=
  MkSummary (ss_version s) (ss_complete s) (ss_target_root s) (ss_path_exists s) (ss_repo_initialized s) (ss_cargo_project s) (ss_crate_name s) (ss_entrypoint_kind s) (ss_rust_file_count s) (ss_source_files s) (ss_module_gaps s) (ss_planning_preconditions s) (ss_repair_intents s) (ss_compiler_hints s) (ss_validation_blocked_by_preconditions s) (ss_compiler_repair_required s) v (ss_failure_scope s) (ss_graph_artifact_id s) (ss_graph_node_count s) (ss_graph_edge_count s) (ss_graph_file_count s) (ss_graph_call_edge_count s) (ss_graph_module_edge_count s) (ss_graph_cfg_edge_count s).
Definition set_failure_scope (v : option bytes) : SemanticStateSummary :=
  MkSummary (ss_version s) (ss_complete s) (ss_target_root s) (ss_path_exists s) (ss_repo_initialized s) (ss_cargo_project s) (ss_crate_name s) (ss_entrypoint_kind s) (ss_rust_file_count s) (ss_source_files s) (ss_module_gaps s) (ss_planning_preconditions s) (ss_repair_intents s) (ss_compiler_hints s) (ss_validation_blocked_by_preconditions s) (ss_compiler_repair_required s) (ss_failure_class s) v (ss_graph_artifact_id s) (ss_graph_node_count s) (ss_graph_edge_count s) (ss_graph_file_count s) (ss_graph_call_edge_count s) (ss_graph_module_edge_count s) (ss_graph_cfg_edge_count s).
Definition set_graph_artifact_id (v : option bytes) : SemanticStateSummary :=
  MkSummary (ss_version s) (ss_complete s) (ss_target_root s) (ss_path_exists s) (ss_repo_initialized s) (ss_cargo_project s) (ss_crate_name s) (ss_entrypoint_kind s) (ss_rust_file_count s) (ss_source_files s) (ss_module_gaps s) (ss_planning_preconditions s) (ss_repair_intents s) (ss_compiler_hints s) (ss_validation_blocked_by_preconditions s) (ss_compiler_repair_required s) (ss_failure_class s) (ss_failure_scope s) v (ss_graph_node_count s) (ss_graph_edge_count s) (ss_graph_file_count s) (ss_graph_call_edge_count s) (ss_graph_module_edge_count s) (ss_graph_cfg_edge_count s).
Definition set_graph_node_count (v : option N) : SemanticStateSummary :=
  MkSummary (ss_version s) (ss_complete s) (ss_target_root s) (ss_path_exists s) (ss_repo_initialized s) (ss_cargo_project s) (ss_crate_name s) (ss_entrypoint_kind s) (ss_rust_file_count s) (ss_source_files s) (ss_module_gaps s) (ss_planning_preconditions s) (ss_repair_intents s) (ss_compiler_hints s) (ss_validation_blocked_by_preconditions s) (ss_compiler_repair_required s) (ss_failure_class s) (ss_failure_scope s) (ss_graph_artifact_id s) v (ss_graph_edge_count s) (ss_graph_file_count s) (ss_graph_call_edge_count s) (ss_graph_module_edge_count s) (ss_graph_cfg_edge_count s).
Definition set_graph_edge_count (v : option N) : SemanticStateSummary :=
  MkSummary (ss_version s) (ss_complete s) (ss_target_root s) (ss_path_exists s) (ss_repo_initialized s) (ss_cargo_project s) (ss_crate_name s) (ss_entrypoint_kind s) (ss_rust_file_count s) (ss_source_files s) (ss_module_gaps s) (ss_planning_preconditions s) (ss_repair_intents s) (ss_compiler_hints s) (ss_validation_blocked_by_preconditions s) (ss_compiler_repair_required s) (ss_failure_class s) (ss_failure_scope s) (ss_graph_artifact_id s) (ss_graph_node_count s) v (ss_graph_file_count s) (ss_graph_call_edge_count s) (ss_graph_module_edge_count s) (ss_graph_cfg_edge_count s).
Definition set_graph_file_count (v : option N) : SemanticStateSummary :=
  MkSummary (ss_version s) (ss_complete s) (ss_target_root s) (ss_path_exists s) (ss_repo_initialized s) (ss_cargo_project s) (ss_crate_name s) (ss_entrypoint_kind s) (ss_rust_file_count s) (ss_source_files s) (ss_module_gaps s) (ss_planning_preconditions s) (ss_repair_intents s) (ss_compiler_hints s) (ss_validation_blocked_by_preconditions s) (ss_compiler_repair_required s) (ss_failure_class s) (ss_failure_scope s) (ss_graph_artifact_id s) (ss_graph_node_count s) (ss_graph_edge_count s) v (ss_graph_call_edge_count s) (ss_graph_module_edge_count s) (ss_graph_cfg_edge_count s).
Definition set_graph_call_edge_count (v : option N) : SemanticStateSummary :=
  MkSummary (ss_version s) (ss_complete s) (ss_target_root s) (ss_path_exists s) (ss_repo_initialized s) (ss_cargo_project s) (ss_crate_name s) (ss_entrypoint_kind s) (ss_rust_file_count s) (ss_source_files s) (ss_module_gaps s) (ss_planning_preconditions s) (ss_repair_intents s) (ss_compiler_hints s) (ss_validation_blocked_by_preconditions s) (ss_compiler_repair_required s) (ss_failure_class s) (ss_failure_scope s) (ss_graph_artifact_id s) (ss_graph_node_count s) (ss_graph_edge_count s) (ss_graph_file_count s) v (ss_graph_module_edge_count s) (ss_graph_cfg_edge_count s).
Definition set_graph_module_edge_count (v : option N) : SemanticStateSummary :=
  MkSummary (ss_version s) (ss_complete s) (ss_target_root s) (ss_path_exists s) (ss_repo_initialized s) (ss_cargo_project s) (ss_crate_name s) (ss_entrypoint_kind s) (ss_rust_file_count s) (ss_source_files s) (ss_module_gaps s) (ss_planning_preconditions s) (ss_repair_intents s) (ss_compiler_hints s) (ss_validation_blocked_by_preconditions s) (ss_compiler_repair_required s) (ss_failure_class s) (ss_failure_scope s) (ss_graph_artifact_id s) (ss_graph_node_count s) (ss_graph_edge_count s) (ss_graph_file_count s) (ss_graph_call_edge_count s) v (ss_graph_cfg_edge_count s).
Definition set_graph_cfg_edge_count (v : option N) : SemanticStateSummary :=
  MkSummary (ss_version s) (ss_complete s) (ss_target_root s) (ss_path_exists s) (ss_repo_initialized s) (ss_cargo_project s) (ss_crate_name s) (ss_entrypoint_kind s) (ss_rust_file_count s) (ss_source_files s) (ss_module_gaps s) (ss_planning_preconditions s) (ss_repair_intents s) (ss_compiler_hints s) (ss_validation_blocked_by_preconditions s) (ss_compiler_repair_required s) (ss_failure_class s) (ss_failure_scope s) (ss_graph_artifact_id s) (ss_graph_node_count s) (ss_graph_edge_count s) (ss_graph_file_count s) (ss_graph_call_edge_count s) (ss_graph_module_edge_count s) v.
End Set_.

(** The line-oriented form. *)
Definition to_workspace_facts (s : SemanticStateSummary) : list bytes :=
  [(lit "semantic.version=" ++ dec (ss_version s))] ++
  [(lit "semantic.complete=" ++ fmt_bool (ss_complete s))] ++
  ((fun v => (lit "semantic.target_root=" ++ v)) <$> option_list (ss_target_root s)) ++
  [(lit "semantic.path_exists=" ++ fmt_bool (ss_path_exists s))] ++
  [(lit "semantic.repo_initialized=" ++ fmt_bool (ss_repo_initialized s))] ++
  [(lit "semantic.cargo_project=" ++ fmt_bool (ss_cargo_project s))] ++
  ((fun v => (lit "semantic.crate_name=" ++ v)) <$> option_list (ss_crate_name s)) ++
  ((fun v => (lit "semantic.entrypoint_kind=" ++ v)) <$> option_list (ss_entrypoint_kind s)) ++
  ((fun v => (lit "semantic.rust_file_count=" ++ dec v)) <$> option_list (ss_rust_file_count s)) ++
  ((fun v => (lit "semantic.source_file=" ++ v)) <$> ss_source_files s) ++
  ((fun v => (lit "semantic.module_gap=" ++ v)) <$> ss_module_gaps s) ++
  ((fun v => (lit "semantic.planning_precondition=" ++ v)) <$> ss_planning_preconditions s) ++
  ((fun v => (lit "semantic.repair_intent=" ++ v)) <$> ss_repair_intents s) ++
  ((fun h => (lit "semantic.compiler_hint=" ++ hint_line h)) <$> ss_compiler_hints s) ++
  [(lit "semantic.validation_blocked_by_preconditions=" ++ fmt_bool (ss_validation_blocked_by_preconditions s))] ++
  [(lit "semantic.compiler_repair_required=" ++ fmt_bool (ss_compiler_repair_required s))] ++
  ((fun v => (lit "semantic.failure_class=" ++ v)) <$> option_list (ss_failure_class s)) ++
  ((fun v => (lit "semantic.failure_scope=" ++ v)) <$> option_list (ss_failure_scope s)) ++
  ((fun v => (lit "semantic.graph_artifact_id=" ++ v)) <$> option_list (ss_graph_artifact_id s)) ++
  ((fun v => (lit "semantic.graph_node_count=" ++ dec v)) <$> option_list (ss_graph_node_count s)) ++
  ((fun v => (lit "semantic.graph_edge_count=" ++ dec v)) <$> option_list (ss_graph_edge_count s)) ++
  ((fun v => (lit "semantic.graph_file_count=" ++ dec v)) <$> option_list (ss_graph_file_count s)) ++
  ((fun v => (lit "semantic.graph_call_edge_count=" ++ dec v)) <$> option_list (ss_graph_call_edge_count s)) ++
  ((fun v => (lit "semantic.graph_module_edge_count=" ++ dec v)) <$> option_list (ss_graph_module_edge_count s)) ++
  ((fun v => (lit "semantic.graph_cfg_edge_count=" ++ dec v)) <$> option_list (ss_graph_cfg_edge_count s)).
Definition apply_fact (s : SemanticStateSummary) (fact : bytes) : SemanticStateSummary :=
  match strip_prefix (lit "semantic.version=") fact with Some v => set_version s (default VERSION (parse_uint u32_max v)) | None =>
  match strip_prefix (lit "semantic.complete=") fact with Some v => set_complete s (bool_decide (v = lit "true")) | None =>
  match strip_prefix (lit "semantic.target_root=") fact with Some v => set_target_root s (Some v) | None =>
  match strip_prefix (lit "semantic.path_exists=") fact with Some v => set_path_exists s (bool_decide (v = lit "true")) | None =>
  match strip_prefix (lit "semantic.repo_initialized=") fact with Some v => set_repo_initialized s (bool_decide (v = lit "true")) | None =>
  match strip_prefix (lit "semantic.cargo_project=") fact with Some v => set_cargo_project s (bool_decide (v = lit "true")) | None =>
  match strip_prefix (lit "semantic.crate_name=") fact with Some v => set_crate_name s (Some v) | None =>
  match strip_prefix (lit "semantic.entrypoint_kind=") fact with Some v => set_entrypoint_kind s (Some v) | None =>
  match strip_prefix (lit "semantic.rust_file_count=") fact with Some v => set_rust_file_count s (parse_uint u64_max v) | None =>
  match strip_prefix (lit "semantic.source_file=") fact with Some v => set_source_files s (ss_source_files s ++ [v]) | None =>
  match strip_prefix (lit "semantic.module_gap=") fact with Some v => set_module_gaps s (ss_module_gaps s ++ [v]) | None =>
  match strip_prefix (lit "semantic.planning_precondition=") fact with Some v => set_planning_preconditions s (ss_planning_preconditions s ++ [v]) | None =>
  match strip_prefix (lit "semantic.repair_intent=") fact with Some v => set_repair_intents s (ss_repair_intents s ++ [v]) | None =>
  match strip_prefix (lit "semantic.compiler_hint=") fact with Some v => match parse_compiler_hint_record v with Some h => set_compiler_hints s (ss_compiler_hints s ++ [h]) | None => s end | None =>
  match strip_prefix (lit "semantic.validation_blocked_by_preconditions=") fact with Some v => set_validation_blocked_by_preconditions s (bool_decide (v = lit "true")) | None =>
  match strip_prefix (lit "semantic.compiler_repair_required=") fact with Some v => set_compiler_repair_required s (bool_decide (v = lit "true")) | None =>
  match strip_prefix (lit "semantic.failure_class=") fact with Some v => set_failure_class s (Some v) | None =>
  match strip_prefix (lit "semantic.failure_scope=") fact with Some v => set_failure_scope s (Some v) | None =>
  match strip_prefix (lit "semantic.graph_artifact_id=") fact with Some v => set_graph_artifact_id s (Some v) | None =>
  match strip_prefix (lit "semantic.graph_node_count=") fact with Some v => set_graph_node_count s (parse_uint u64_max v) | None =>
  match strip_prefix (lit "semantic.graph_edge_count=") fact with Some v => set_graph_edge_count s (parse_uint u64_max v) | None =>
  match strip_prefix (lit "semantic.graph_file_count=") fact with Some v => set_graph_file_count s (parse_uint u64_max v) | None =>
  match strip_prefix (lit "semantic.graph_call_edge_count=") fact with Some v => set_graph_call_edge_count s (parse_uint u64_max v) | None =>
  match strip_prefix (lit "semantic.graph_module_edge_count=") fact with Some v => set_graph_module_edge_count s (parse_uint u64_max v) | None =>
  match strip_prefix (lit "semantic.graph_cfg_edge_count=") fact with Some v => set_graph_cfg_edge_count s (parse_uint u64_max v) | None =>
  s
  end end end end end end end end end end end end end end end end end end end end end end end end end.
Definition from_workspace_facts (facts : list bytes) : SemanticStateSummary :=
  foldl apply_fact (set_version summary_default VERSION) facts.

(** ** Hints round-trip *)

(** A hint whose fields the line format can carry: trimmed fields, no equals
    sign before the repair text, target files without bars that do not spell the
    empty list. *)
Definition hint_ok (h : CompilerHintRecord) : Prop :=
  (x3d ∉ ch_kind h /\ trim (ch_kind h) = ch_kind h) /\ (x3d ∉ ch_failure_scope h /\ trim (ch_failure_scope h) = ch_failure_scope h) /\
  (x3d ∉ targets_text (ch_target_files h) /\ trim (targets_text (ch_target_files h)) = targets_text (ch_target_files h)) /\
  (x3d ∉ ch_summary h /\ trim (ch_summary h) = ch_summary h) /\ trim (ch_suggested_repair h) = ch_suggested_repair h /\
  Forall (fun f => x7c ∉ f /\ trim f = f) (ch_target_files h) /\ ch_target_files h <> [lit "none"] /\ ch_target_files h <> [[]].
#[export] Instance hint_ok_dec h : Decision (hint_ok h).
Proof. unfold hint_ok. apply _. Defined.

Lemma hint_line_eq h : hint_line h =
  lit "kind" ++ x3d :: ch_kind h ++ lit " scope" ++ x3d :: ch_failure_scope h ++ lit " targets" ++ x3d :: targets_text (ch_target_files h)
  ++ lit " summary" ++ x3d :: ch_summary h ++ lit " repair" ++ x3d :: ch_suggested_repair h.
Proof. reflexivity. Qed.

Ltac not_eq_sign := rewrite ?elem_of_app; intros Hin; repeat (match type of Hin with _ \/ _ => destruct Hin as [Hin|Hin] end);
  solve [contradiction | (contradict Hin; apply (bool_decide_unpack _); vm_compute; exact I)].
Ltac not_suffix := let y := fresh "y" in let E := fresh "E" in intros y E; apply (f_equal last) in E; rewrite ?last_app in E; cbn in E; discriminate E.

(** Fields are found behind their markers: skip the equals signs before it. *)
Lemma field_here line marker p a rest : x3d ∉ a -> x3d ∉ p -> marker = p ++ [x3d] -> line = a ++ p ++ x3d :: rest ->
  find_sub marker line = Some (length a) /\ drop (length a + length marker) line = rest.
Proof.
  intros Ha Hp -> ->. split; [by apply find_first|]. rewrite !length_app. replace (a ++ p ++ x3d :: rest) with ((a ++ p ++ [x3d]) ++ rest) by (by rewrite <- !app_assoc).
  replace (length a + (length p + length [x3d])) with (length (a ++ p ++ [x3d])) by (by rewrite !length_app). apply drop_app_length.
Qed.
Lemma field_later line marker p x line' k rest : x3d ∉ x -> x3d ∉ p -> (forall y, x <> y ++ p) -> marker = p ++ [x3d] -> line = x ++ x3d :: line' ->
  find_sub marker line' = Some k /\ drop (k + length marker) line' = rest ->
  find_sub marker line = Some (S (length x) + k) /\ drop (S (length x) + k + length marker) line = rest.
Proof.
  intros Hx Hp Hs -> -> [Hf Hd]. rewrite find_skip, Hf by done. split; [done|].
  replace (x ++ x3d :: line') with ((x ++ [x3d]) ++ line') by (by rewrite <- app_assoc).
  rewrite <- Nat.add_assoc, <- drop_drop. replace (S (length x)) with (length (x ++ [x3d])) by (rewrite length_app; cbn; lia). by rewrite drop_app_length.
Qed.

Lemma parse_field_spec line marker start rest v : find_sub marker line = Some start /\ drop (start + length marker) line = rest ->
  (match next_field_delimiter marker with [] => rest = v | d => exists p after, d = p ++ [x3d] /\ x3d ∉ p /\ x3d ∉ v /\ rest = v ++ p ++ x3d :: after end) ->
  parse_field line marker = Some (trim v).
Proof.
  intros [Hf Hd] Hv. unfold parse_field. rewrite Hf. cbn [mbind option_bind]. rewrite Hd. f_equal. f_equal.
  destruct (next_field_delimiter marker) as [|c d] eqn:E; [subst; apply firstn_all|].
  destruct Hv as (p & after & -> & Hp & Hnv & ->). rewrite find_first by done. cbn [default from_option id]. apply take_app_length.
Qed.

Lemma hint_round_trip h : hint_ok h -> parse_compiler_hint_record (hint_line h) = Some h.
Proof.
  destruct h as [K U R files S]. unfold hint_ok. cbn [ch_kind ch_summary ch_suggested_repair ch_target_files ch_failure_scope].
  intros ([HK HKt] & [HS HSt] & [HT HTt] & [HU HUt] & HRt & Hfiles & Hn1 & Hn2). set (T := targets_text files) in *.
  assert (Hkind : parse_field (hint_line (MkHint K U R files S)) (lit "kind=") = Some (trim K)).
  { eapply parse_field_spec; [apply (field_here _ _ (lit "kind") []); [not_eq_sign|not_eq_sign|done|apply hint_line_eq]|].
    exists (lit " scope"). eexists. split_and!; [done|not_eq_sign|done|done]. }
  assert (Hscope : parse_field (hint_line (MkHint K U R files S)) (lit "scope=") = Some (trim S)).
  { eapply parse_field_spec.
    - eapply (field_later _ _ (lit "scope") (lit "kind")); [not_eq_sign|not_eq_sign|not_suffix|done|apply hint_line_eq|].
      apply (field_here _ _ (lit "scope") (K ++ lit " ")); [not_eq_sign|not_eq_sign|done|by rewrite <- app_assoc].
    - exists (lit " targets"). eexists. split_and!; [done|not_eq_sign|done|done]. }
  assert (Htargets : parse_field (hint_line (MkHint K U R files S)) (lit "targets=") = Some (trim T)).
  { eapply parse_field_spec.
    - eapply (field_later _ _ (lit "targets") (lit "kind")); [not_eq_sign|not_eq_sign|not_suffix|done|apply hint_line_eq|].
      eapply (field_later _ _ (lit "targets") (K ++ lit " scope")); [not_eq_sign|not_eq_sign|not_suffix|done|by rewrite <- app_assoc|].
      apply (field_here _ _ (lit "targets") (S ++ lit " ")); [not_eq_sign|not_eq_sign|done|by rewrite <- app_assoc].
    - exists (lit " summary"). eexists. split_and!; [done|not_eq_sign|done|done]. }
  assert (Hsummary : parse_field (hint_line (MkHint K U R files S)) (lit "summary=") = Some (trim U)).
  { eapply parse_field_spec.
    - eapply (field_later _ _ (lit "summary") (lit "kind")); [not_eq_sign|not_eq_sign|not_suffix|done|apply hint_line_eq|].
      eapply (field_later _ _ (lit "summary") (K ++ lit " scope")); [not_eq_sign|not_eq_sign|not_suffix|done|by rewrite <- app_assoc|].
      eapply (field_later _ _ (lit "summary") (S ++ lit " targets")); [not_eq_sign|not_eq_sign|not_suffix|done|by rewrite <- app_assoc|].
      apply (field_here _ _ (lit "summary") (T ++ lit " ")); [not_eq_sign|not_eq_sign|done|by rewrite <- app_assoc].
    - exists (lit " repair"). eexists. split_and!; [done|not_eq_sign|done|done]. }
  assert (Hrepair : parse_field (hint_line (MkHint K U R files S)) (lit "repair=") = Some (trim R)).
  { eapply parse_field_spec.
    - eapply (field_later _ _ (lit "repair") (lit "kind")); [not_eq_sign|not_eq_sign|not_suffix|done|apply hint_line_eq|].
      eapply (field_later _ _ (lit "repair") (K ++ lit " scope")); [not_eq_sign|not_eq_sign|not_suffix|done|by rewrite <- app_assoc|].
      eapply (field_later _ _ (lit "repair") (S ++ lit " targets")); [not_eq_sign|not_eq_sign|not_suffix|done|by rewrite <- app_assoc|].
      eapply (field_later _ _ (lit "repair") (T ++ lit " summary")); [not_eq_sign|not_eq_sign|not_suffix|done|by rewrite <- app_assoc|].
      apply (field_here _ _ (lit "repair") (U ++ lit " ")); [not_eq_sign|not_eq_sign|done|by rewrite <- app_assoc].
    - done. }
  unfold parse_compiler_hint_record. rewrite Hkind, Hscope, Htargets, Hsummary, Hrepair, HKt, HSt, HTt, HUt, HRt.
  cbn [mbind option_bind default from_option id]. f_equal. f_equal. subst T. destruct files as [|f files]; [done|]. cbn [targets_text].
  assert (Hj : split_byte x7c (join BAR (f :: files)) = f :: files) by (apply split_join_byte; eapply Forall_impl; [exact Hfiles|by intros ? []]).
  assert (Hne : join BAR (f :: files) <> lit "none" /\ join BAR (f :: files) <> []).
  { split; intros E; rewrite E in Hj; [apply Hn1|apply Hn2]; by rewrite <- Hj. }
  rewrite !bool_decide_eq_false_2 by apply Hne. cbn [orb]. rewrite Hj. clear -Hfiles. induction Hfiles as [|g gs [_ Hg] _ IH]; [done|]. rewrite fmap_cons. by rewrite Hg, IH.
Qed.

(** ** Facts round-trip *)

Ltac solve_fact := unfold apply_fact; rewrite ?strip_prefix_b; reflexivity.
Lemma fact_version s v : apply_fact s (lit "semantic.version=" ++ v) = set_version s (default VERSION (parse_uint u32_max v)).
Proof. solve_fact. Qed.
Lemma fact_complete s v : apply_fact s (lit "semantic.complete=" ++ v) = set_complete s (bool_decide (v = lit "true")).
Proof. solve_fact. Qed.
Lemma fact_target_root s v : apply_fact s (lit "semantic.target_root=" ++ v) = set_target_root s (Some v).
Proof. solve_fact. Qed.
Lemma fact_path_exists s v : apply_fact s (lit "semantic.path_exists=" ++ v) = set_path_exists s (bool_decide (v = lit "true")).
Proof. solve_fact. Qed.
Lemma fact_repo_initialized s v : apply_fact s (lit "semantic.repo_initialized=" ++ v) = set_repo_initialized s (bool_decide (v = lit "true")).
Proof. solve_fact. Qed.
Lemma fact_cargo_project s v : apply_fact s (lit "semantic.cargo_project=" ++ v) = set_cargo_project s (bool_decide (v = lit "true")).
Proof. solve_fact. Qed.
Lemma fact_crate_name s v : apply_fact s (lit "semantic.crate_name=" ++ v) = set_crate_name s (Some v).
Proof. solve_fact. Qed.
Lemma fact_entrypoint_kind s v : apply_fact s (lit "semantic.entrypoint_kind=" ++ v) = set_entrypoint_kind s (Some v).
Proof. solve_fact. Qed.
Lemma fact_rust_file_count s v : apply_fact s (lit "semantic.rust_file_count=" ++ v) = set_rust_file_count s (parse_uint u64_max v).
Proof. solve_fact. Qed.
Lemma fact_source_files s v : apply_fact s (lit "semantic.source_file=" ++ v) = set_source_files s (ss_source_files s ++ [v]).
Proof. solve_fact. Qed.
Lemma fact_module_gaps s v : apply_fact s (lit "semantic.module_gap=" ++ v) = set_module_gaps s (ss_module_gaps s ++ [v]).
Proof. solve_fact. Qed.
Lemma fact_planning_preconditions s v : apply_fact s (lit "semantic.planning_precondition=" ++ v) = set_planning_preconditions s (ss_planning_preconditions s ++ [v]).
Proof. solve_fact. Qed.
Lemma fact_repair_intents s v : apply_fact s (lit "semantic.repair_intent=" ++ v) = set_repair_intents s (ss_repair_intents s ++ [v]).
Proof. solve_fact. Qed.
Lemma fact_compiler_hints s v : apply_fact s (lit "semantic.compiler_hint=" ++ v) = match parse_compiler_hint_record v with Some h => set_compiler_hints s (ss_compiler_hints s ++ [h]) | None => s end.
Proof. solve_fact. Qed.
Lemma fact_validation_blocked_by_preconditions s v : apply_fact s (lit "semantic.validation_blocked_by_preconditions=" ++ v) = set_validation_blocked_by_preconditions s (bool_decide (v = lit "true")).
Proof. solve_fact. Qed.
Lemma fact_compiler_repair_required s v : apply_fact s (lit "semantic.compiler_repair_required=" ++ v) = set_compiler_repair_required s (bool_decide (v = lit "true")).
Proof. solve_fact. Qed.
Lemma fact_failure_class s v : apply_fact s (lit "semantic.failure_class=" ++ v) = set_failure_class s (Some v).
Proof. solve_fact. Qed.
Lemma fact_failure_scope s v : apply_fact s (lit "semantic.failure_scope=" ++ v) = set_failure_scope s (Some v).
Proof. solve_fact. Qed.
Lemma fact_graph_artifact_id s v : apply_fact s (lit "semantic.graph_artifact_id=" ++ v) = set_graph_artifact_id s (Some v).
Proof. solve_fact. Qed.
Lemma fact_graph_node_count s v : apply_fact s (lit "semantic.graph_node_count=" ++ v) = set_graph_node_count s (parse_uint u64_max v).
Proof. solve_fact. Qed.
Lemma fact_graph_edge_count s v : apply_fact s (lit "semantic.graph_edge_count=" ++ v) = set_graph_edge_count s (parse_uint u64_max v).
Proof. solve_fact. Qed.
Lemma fact_graph_file_count s v : apply_fact s (lit "semantic.graph_file_count=" ++ v) = set_graph_file_count s (parse_uint u64_max v).
Proof. solve_fact. Qed.
Lemma fact_graph_call_edge_count s v : apply_fact s (lit "semantic.graph_call_edge_count=" ++ v) = set_graph_call_edge_count s (parse_uint u64_max v).
Proof. solve_fact. Qed.
Lemma fact_graph_module_edge_count s v : apply_fact s (lit "semantic.graph_module_edge_count=" ++ v) = set_graph_module_edge_count s (parse_uint u64_max v).
Proof. solve_fact. Qed.
Lemma fact_graph_cfg_edge_count s v : apply_fact s (lit "semantic.graph_cfg_edge_count=" ++ v) = set_graph_cfg_edge_count s (parse_uint u64_max v).
Proof. solve_fact. Qed.

(** A count that fits [usize]. *)
Definition in_usize (o : option N) : Prop := match o with Some n => (n <= u64_max)%N | None => True end.

Lemma facts_target_root s o : ss_target_root s = None -> foldl apply_fact s ((fun v => lit "semantic.target_root=" ++ v) <$> option_list o) = set_target_root s o.
Proof. intros Hs. destruct o as [v|]; [exact (fact_target_root s v)|]. destruct s. cbn in Hs. by subst. Qed.
Lemma facts_crate_name s o : ss_crate_name s = None -> foldl apply_fact s ((fun v => lit "semantic.crate_name=" ++ v) <$> option_list o) = set_crate_name s o.
Proof. intros Hs. destruct o as [v|]; [exact (fact_crate_name s v)|]. destruct s. cbn in Hs. by subst. Qed.
Lemma facts_entrypoint_kind s o : ss_entrypoint_kind s = None -> foldl apply_fact s ((fun v => lit "semantic.entrypoint_kind=" ++ v) <$> option_list o) = set_entrypoint_kind s o.
Proof. intros Hs. destruct o as [v|]; [exact (fact_entrypoint_kind s v)|]. destruct s. cbn in Hs. by subst. Qed.
Lemma facts_rust_file_count s o : ss_rust_file_count s = None -> in_usize o -> foldl apply_fact s ((fun v => lit "semantic.rust_file_count=" ++ dec v) <$> option_list o) = set_rust_file_count s o.
Proof. intros Hs Ho. destruct o as [v|]; [refine (eq_trans (fact_rust_file_count s (dec v)) _); by rewrite parse_dec|]. destruct s. cbn in Hs. by subst. Qed.
Lemma facts_source_files l s : foldl apply_fact s ((fun v => lit "semantic.source_file=" ++ v) <$> l) = set_source_files s (ss_source_files s ++ l).
Proof.
  revert s. induction l as [|v l IH]; intros s; [rewrite app_nil_r; by destruct s|]. rewrite fmap_cons. cbn [foldl]. rewrite fact_source_files, IH. cbn. by rewrite <- app_assoc.
Qed.
Lemma facts_module_gaps l s : foldl apply_fact s ((fun v => lit "semantic.module_gap=" ++ v) <$> l) = set_module_gaps s (ss_module_gaps s ++ l).
Proof.
  revert s. induction l as [|v l IH]; intros s; [rewrite app_nil_r; by destruct s|]. rewrite fmap_cons. cbn [foldl]. rewrite fact_module_gaps, IH. cbn. by rewrite <- app_assoc.
Qed.
Lemma facts_planning_preconditions l s : foldl apply_fact s ((fun v => lit "semantic.planning_precondition=" ++ v) <$> l) = set_planning_preconditions s (ss_planning_preconditions s ++ l).
Proof.
  revert s. induction l as [|v l IH]; intros s; [rewrite app_nil_r; by destruct s|]. rewrite fmap_cons. cbn [foldl]. rewrite fact_planning_preconditions, IH. cbn. by rewrite <- app_assoc.
Qed.
Lemma facts_repair_intents l s : foldl apply_fact s ((fun v => lit "semantic.repair_intent=" ++ v) <$> l) = set_repair_intents s (ss_repair_intents s ++ l).
Proof.
  revert s. induction l as [|v l IH]; intros s; [rewrite app_nil_r; by destruct s|]. rewrite fmap_cons. cbn [foldl]. rewrite fact_repair_intents, IH. cbn. by rewrite <- app_assoc.
Qed.
Lemma facts_compiler_hints l s : Forall hint_ok l -> foldl apply_fact s ((fun h => lit "semantic.compiler_hint=" ++ hint_line h) <$> l) = set_compiler_hints s (ss_compiler_hints s ++ l).
Proof.
  intros Hl. revert s. induction Hl as [|h l Hh _ IH]; intros s; [rewrite app_nil_r; by destruct s|]. rewrite fmap_cons. cbn [foldl]. rewrite fact_compiler_hints, hint_round_trip, IH by done. cbn. by rewrite <- app_assoc.
Qed.
Lemma facts_failure_class s o : ss_failure_class s = None -> foldl apply_fact s ((fun v => lit "semantic.failure_class=" ++ v) <$> option_list o) = set_failure_class s o.
Proof. intros Hs. destruct o as [v|]; [exact (fact_failure_class s v)|]. destruct s. cbn in Hs. by subst. Qed.
Lemma facts_failure_scope s o : ss_failure_scope s = None -> foldl apply_fact s ((fun v => lit "semantic.failure_scope=" ++ v) <$> option_list o) = set_failure_scope s o.
Proof. intros Hs. destruct o as [v|]; [exact (fact_failure_scope s v)|]. destruct s. cbn in Hs. by subst. Qed.
Lemma facts_graph_artifact_id s o : ss_graph_artifact_id s = None -> foldl apply_fact s ((fun v => lit "semantic.graph_artifact_id=" ++ v) <$> option_list o) = set_graph_artifact_id s o.
Proof. intros Hs. destruct o as [v|]; [exact (fact_graph_artifact_id s v)|]. destruct s. cbn in Hs. by subst. Qed.
Lemma facts_graph_node_count s o : ss_graph_node_count s = None -> in_usize o -> foldl apply_fact s ((fun v => lit "semantic.graph_node_count=" ++ dec v) <$> option_list o) = set_graph_node_count s o.
Proof. intros Hs Ho. destruct o as [v|]; [refine (eq_trans (fact_graph_node_count s (dec v)) _); by rewrite parse_dec|]. destruct s. cbn in Hs. by subst. Qed.
Lemma facts_graph_edge_count s o : ss_graph_edge_count s = None -> in_usize o -> foldl apply_fact s ((fun v => lit "semantic.graph_edge_count=" ++ dec v) <$> option_list o) = set_graph_edge_count s o.
Proof. intros Hs Ho. destruct o as [v|]; [refine (eq_trans (fact_graph_edge_count s (dec v)) _); by rewrite parse_dec|]. destruct s. cbn in Hs. by subst. Qed.
Lemma facts_graph_file_count s o : ss_graph_file_count s = None -> in_usize o -> foldl apply_fact s ((fun v => lit "semantic.graph_file_count=" ++ dec v) <$> option_list o) = set_graph_file_count s o.
Proof. intros Hs Ho. destruct o as [v|]; [refine (eq_trans (fact_graph_file_count s (dec v)) _); by rewrite parse_dec|]. destruct s. cbn in Hs. by subst. Qed.
Lemma facts_graph_call_edge_count s o : ss_graph_call_edge_count s = None -> in_usize o -> foldl apply_fact s ((fun v => lit "semantic.graph_call_edge_count=" ++ dec v) <$> option_list o) = set_graph_call_edge_count s o.
Proof. intros Hs Ho. destruct o as [v|]; [refine (eq_trans (fact_graph_call_edge_count s (dec v)) _); by rewrite parse_dec|]. destruct s. cbn in Hs. by subst. Qed.
Lemma facts_graph_module_edge_count s o : ss_graph_module_edge_count s = None -> in_usize o -> foldl apply_fact s ((fun v => lit "semantic.graph_module_edge_count=" ++ dec v) <$> option_list o) = set_graph_module_edge_count s o.
Proof. intros Hs Ho. destruct o as [v|]; [refine (eq_trans (fact_graph_module_edge_count s (dec v)) _); by rewrite parse_dec|]. destruct s. cbn in Hs. by subst. Qed.
Lemma facts_graph_cfg_edge_count s o : ss_graph_cfg_edge_count s = None -> in_usize o -> foldl apply_fact s ((fun v => lit "semantic.graph_cfg_edge_count=" ++ dec v) <$> option_list o) = set_graph_cfg_edge_count s o.
Proof. intros Hs Ho. destruct o as [v|]; [refine (eq_trans (fact_graph_cfg_edge_count s (dec v)) _); by rewrite parse_dec|]. destruct s. cbn in Hs. by subst. Qed.

(** A summary the line format can carry: numbers in the range of their types,
    hints that round-trip. *)
Definition summary_ok (s : SemanticStateSummary) : Prop :=
  (ss_version s <= u32_max)%N /\ Forall hint_ok (ss_compiler_hints s) /\ in_usize (ss_rust_file_count s) /\ in_usize (ss_graph_node_count s) /\ in_usize (ss_graph_edge_count s) /\ in_usize (ss_graph_file_count s) /\ in_usize (ss_graph_call_edge_count s) /\ in_usize (ss_graph_module_edge_count s) /\ in_usize (ss_graph_cfg_edge_count s).

(** C35: the line-oriented form loses nothing: reading back the facts written for
    a summary gives the summary, for all its fields, as long as its numbers are
    in range and its hints have trimmed fields without equals signs before the
    repair text, target files without bars, and no target list that is the one
    name none or one empty name. *)
Theorem facts_round_trip s : summary_ok s -> from_workspace_facts (to_workspace_facts s) = s.
Proof.
  intros (Hv & Hh & Hn1 & Hn2 & Hn3 & Hn4 & Hn5 & Hn6 & Hn7). unfold from_workspace_facts, to_workspace_facts. rewrite !foldl_app.
  cbn [foldl]. rewrite fact_version, parse_dec by done. cbn [default from_option id].
  cbn [foldl]. rewrite fact_complete, fmt_bool_eq.
  rewrite facts_target_root by reflexivity.
  cbn [foldl]. rewrite fact_path_exists, fmt_bool_eq.
  cbn [foldl]. rewrite fact_repo_initialized, fmt_bool_eq.
  cbn [foldl]. rewrite fact_cargo_project, fmt_bool_eq.
  rewrite facts_crate_name by reflexivity.
  rewrite facts_entrypoint_kind by reflexivity.
  rewrite facts_rust_file_count by (reflexivity || done).
  rewrite facts_source_files.
  rewrite facts_module_gaps.
  rewrite facts_planning_preconditions.
  rewrite facts_repair_intents.
  rewrite facts_compiler_hints by done.
  cbn [foldl]. rewrite fact_validation_blocked_by_preconditions, fmt_bool_eq.
  cbn [foldl]. rewrite fact_compiler_repair_required, fmt_bool_eq.
  rewrite facts_failure_class by reflexivity.
  rewrite facts_failure_scope by reflexivity.
  rewrite facts_graph_artifact_id by reflexivity.
  rewrite facts_graph_node_count by (reflexivity || done).
  rewrite facts_graph_edge_count by (reflexivity || done).
  rewrite facts_graph_file_count by (reflexivity || done).
  rewrite facts_graph_call_edge_count by (reflexivity || done).
  rewrite facts_graph_module_edge_count by (reflexivity || done).
  rewrite facts_graph_cfg_edge_count by (reflexivity || done).
  by destruct s.
Qed.
Definition sample_summary : SemanticStateSummary :=
  set_compiler_hints (set_rust_file_count (set_source_files (set_version summary_default 1) [lit "src/lib.rs"]) (Some 12%N))
    [MkHint (lit "missing_module") (lit "no module index") (lit "create it: a=b") [lit "src/lib.rs"; lit "src/a.rs"] (lit "localized")].
Lemma facts_round_trip_witness : from_workspace_facts (to_workspace_facts sample_summary) = sample_summary.
Proof.
  apply facts_round_trip. unfold summary_ok. split_and!; try (vm_compute; (reflexivity || exact I || discriminate)).
  constructor; [apply (bool_decide_unpack _); vm_compute; exact I|constructor].
Defined.

(** The restrictions are needed: a hint whose summary names a later field, or
    whose only target is spelled [none], reads back changed. *)
Example hint_line_ambiguous :
  parse_compiler_hint_record (hint_line (MkHint (lit "k") (lit "uses repair=x") (lit "r") [] (lit "none")))
    = Some (MkHint (lit "k") (lit "uses") (lit "x repair=r") [] (lit "none")) /\
  parse_compiler_hint_record (hint_line (MkHint (lit "k") (lit "s") (lit "r") [lit "none"] (lit "none")))
    = Some (MkHint (lit "k") (lit "s") (lit "r") [] (lit "none")).
Proof. split; vm_compute; reflexivity. Qed.
