(* ===== verification/SemanticText.v ===== *)
(** * The semantic state in use ([canon-semantic-state/src/lib.rs])

    The operations that record a graph artifact or a failed compiler capture in
    the summary, the questions asked of its hints, and the blocks printed for
    the planner and the router. *)
From S2P Require Import Prelude Text PatchParser TextFormat SemanticState.

(** ** Recording *)

Definition apply_graph_artifact_summary (s : SemanticStateSummary) (artifact_id : bytes) (nodes edges files call_edges module_edges cfg_edges : N) : SemanticStateSummary :=
  let s := set_graph_artifact_id s (Some artifact_id) in
  let s := set_graph_node_count s (Some nodes) in
  let s := set_graph_edge_count s (Some edges) in
  let s := set_graph_file_count s (Some files) in
  let s := set_graph_call_edge_count s (Some call_edges) in
  let s := set_graph_module_edge_count s (Some module_edges) in
  set_graph_cfg_edge_count s (Some cfg_edges).

Definition capture_summary (message : bytes) : bytes := lit "rustc capture failed: " ++ message.
Definition capture_hint (message : bytes) : CompilerHintRecord :=
  with_failure_scope
    (hint_new GenericCompilerFailure (capture_summary message) (lit "refresh compiler context or stabilize rustc capture before structural analysis") []) Tooling.
Definition is_capture_hint (message : bytes) (h : CompilerHintRecord) : bool :=
  bool_decide (kind_enum h = Some GenericCompilerFailure) && bool_decide (ch_summary h = capture_summary message).
Definition apply_rustc_capture_failure (s : SemanticStateSummary) (message : bytes) : SemanticStateSummary :=
  let s := set_compiler_repair_required s true in
  let s := set_failure_class s (Some (failure_class_str FcGenericCompilerFailure)) in
  let s := if existsb (is_capture_hint message) (ss_compiler_hints s) then s
           else set_compiler_hints s (ss_compiler_hints s ++ [capture_hint message]) in
  set_failure_scope s (Some (scope_str Tooling)).

(** ** Questions *)

Definition compiler_hint_kinds (s : SemanticStateSummary) : list bytes := ch_kind <$> ss_compiler_hints s.
Definition is_actionable (k : CompilerHintKind) : bool :=
  match k with
  | MissingModule | DeadCodeForbidConflict | MissingEntrypoint | UnresolvedImport | MissingSymbol | DuplicateDefinition | TraitBoundFailure => true
  | GenericCompilerFailure => false
  end.
Definition has_actionable_compiler_hints (s : SemanticStateSummary) : bool :=
  existsb (fun h => from_option is_actionable false (kind_enum h)) (ss_compiler_hints s).
Definition primary_failure_class (s : SemanticStateSummary) : option bytes :=
  match ss_failure_class s with
  | Some v => Some v
  | None => head (omap (fun h => hint_kind_str <$> kind_enum h) (ss_compiler_hints s))
  end.

(** ** Printing *)

Definition planner_lines (s : SemanticStateSummary) : list bytes :=
  [lit "semantic_version=" ++ dec (ss_version s)] ++
  [lit "semantic_complete=" ++ fmt_bool (ss_complete s)] ++
  ((fun v => lit "target_root=" ++ v) <$> option_list (ss_target_root s)) ++
  [lit "path_exists=" ++ fmt_bool (ss_path_exists s)] ++
  [lit "repo_initialized=" ++ fmt_bool (ss_repo_initialized s)] ++
  [lit "cargo_project=" ++ fmt_bool (ss_cargo_project s)] ++
  ((fun v => lit "failure_scope=" ++ v) <$> option_list (ss_failure_scope s)) ++
  ((fun v => lit "failure_class=" ++ v) <$> option_list (ss_failure_class s)) ++
  ((fun v => lit "crate_name=" ++ v) <$> option_list (ss_crate_name s)) ++
  ((fun v => lit "entrypoint_kind=" ++ v) <$> option_list (ss_entrypoint_kind s)) ++
  ((fun v => lit "rust_file_count=" ++ dec v) <$> option_list (ss_rust_file_count s)) ++
  (if bool_decide (ss_source_files s = []) then [] else [lit "file_graph=" ++ join (lit ", ") (ss_source_files s)]) ++
  ((fun v => lit "graph_artifact_id=" ++ v) <$> option_list (ss_graph_artifact_id s)) ++
  ((fun v => lit "graph_node_count=" ++ dec v) <$> option_list (ss_graph_node_count s)) ++
  ((fun v => lit "graph_edge_count=" ++ dec v) <$> option_list (ss_graph_edge_count s)).

Definition compact_parts (s : SemanticStateSummary) : list bytes :=
  [lit "version=" ++ dec (ss_version s)] ++
  [lit "complete=" ++ fmt_bool (ss_complete s)] ++
  [lit "path_exists=" ++ fmt_bool (ss_path_exists s)] ++
  [lit "cargo_project=" ++ fmt_bool (ss_cargo_project s)] ++
  [lit "entrypoint_kind=" ++ default (lit "NA") (ss_entrypoint_kind s)] ++
  [lit "crate_name=" ++ default (lit "NA") (ss_crate_name s)] ++
  [lit "validation_blocked=" ++ fmt_bool (ss_validation_blocked_by_preconditions s)] ++
  [lit "compiler_repair_required=" ++ fmt_bool (ss_compiler_repair_required s)] ++
  ((fun v => lit "failure_scope=" ++ v) <$> option_list (ss_failure_scope s)) ++
  ((fun v => lit "failure_class=" ++ v) <$> option_list (ss_failure_class s)) ++
  (if bool_decide (ss_planning_preconditions s = []) then [] else [lit "preconditions=" ++ join (lit "|") (ss_planning_preconditions s)]) ++
  (if bool_decide (ss_repair_intents s = []) then [] else [lit "repair_intents=" ++ join (lit "|") (ss_repair_intents s)]) ++
  (if bool_decide (compiler_hint_kinds s = []) then [] else [lit "compiler_hint_kinds=" ++ join (lit "|") (compiler_hint_kinds s)]) ++
  ((fun v => lit "graph_artifact_id=" ++ v) <$> option_list (ss_graph_artifact_id s)) ++
  ((fun v => lit "graph_nodes=" ++ dec v) <$> option_list (ss_graph_node_count s)) ++
  ((fun v => lit "graph_edges=" ++ dec v) <$> option_list (ss_graph_edge_count s)).
Definition compact_block (s : SemanticStateSummary) : bytes := join [x0a] (compact_parts s).

Definition render_bullets (lines : list bytes) : bytes :=
  if bool_decide (lines = []) then lit "- none" else join [x0a] ((fun l => lit "- " ++ l) <$> lines).
Definition render_planner_block (s : SemanticStateSummary) : bytes :=
  lit "Environment model:" ++ [x0a] ++ render_bullets (planner_lines s) ++ [x0a; x0a] ++
  lit "Planning preconditions:" ++ [x0a] ++ render_bullets (ss_planning_preconditions s) ++ [x0a; x0a] ++
  lit "Repair intents:" ++ [x0a] ++ render_bullets (ss_repair_intents s) ++ [x0a; x0a] ++
  lit "Compiler hints:" ++ [x0a] ++ render_bullets (hint_line <$> ss_compiler_hints s) ++ [x0a; x0a] ++
  lit "Semantic summary:" ++ [x0a] ++ compact_block s.
Definition render_route_block (s : SemanticStateSummary) : bytes := lit "Semantic summary:" ++ [x0a] ++ compact_block s.

(** ** Recorded failures persist *)

Lemma capture_hint_recognised message : is_capture_hint message (capture_hint message) = true.
Proof. unfold is_capture_hint. rewrite !bool_decide_eq_true_2; done. Qed.
Lemma capture_recorded s message : existsb (is_capture_hint message) (ss_compiler_hints (apply_rustc_capture_failure s message)) = true.
Proof.
  unfold apply_rustc_capture_failure. cbn [set_compiler_repair_required set_failure_class ss_compiler_hints].
  destruct (existsb (is_capture_hint message) (ss_compiler_hints s)) eqn:E; cbn [set_failure_scope set_compiler_hints ss_compiler_hints]; [exact E|].
  rewrite existsb_app, E. cbn [existsb]. by rewrite capture_hint_recognised.
Qed.

(** Recording the same failure twice records it once. *)
Lemma capture_idempotent s message : apply_rustc_capture_failure (apply_rustc_capture_failure s message) message = apply_rustc_capture_failure s message.
Proof.
  pose proof (capture_recorded s message) as Hr. set (s' := apply_rustc_capture_failure s message) in *.
  assert (ss_compiler_repair_required s' = true /\ ss_failure_class s' = Some (failure_class_str FcGenericCompilerFailure) /\ ss_failure_scope s' = Some (scope_str Tooling)) as (H1 & H2 & H3)
    by (subst s'; unfold apply_rustc_capture_failure; cbn [set_compiler_repair_required set_failure_class ss_compiler_hints]; destruct (existsb _ (ss_compiler_hints s)); done).
  clearbody s'. unfold apply_rustc_capture_failure. cbn [set_compiler_repair_required set_failure_class ss_compiler_hints]. rewrite Hr.
  destruct s'. cbn in *. by subst.
Qed.

(** A capture failure makes no hint actionable, and leaves actionable ones so. *)
Lemma capture_not_actionable s message : has_actionable_compiler_hints (apply_rustc_capture_failure s message) = has_actionable_compiler_hints s.
Proof.
  unfold apply_rustc_capture_failure. cbn [set_compiler_repair_required set_failure_class ss_compiler_hints].
  destruct (existsb (is_capture_hint message) _); [reflexivity|]. unfold has_actionable_compiler_hints. cbn [set_failure_scope set_compiler_hints ss_compiler_hints].
  rewrite existsb_app. cbn. by rewrite !orb_false_r.
Qed.
