(* ===== verification/Objectives.v ===== *)
(** * Objectives, trends and intents ([canon-semantic-state/src/lib.rs])

    What the loop derives from its history: counters over execution results, the
    ranking of development objectives, the strategy, and the intents of planned
    actions with the results they leave.  [u32] and [i32] sums are checked:
    [None] is an overflow. *)
From Stdlib Require Import Floats.SpecFloat Sorting.Sorted Sorting.Permutation.
From S2P Require Import Prelude Json Text PatchParser TextFormat Gatekeeper SemanticState.

(** ** Execution results *)

Record SemanticExecutionResultRecord := MkExec {
  er_kind : bytes; er_summary : bytes; er_target_files : list bytes; er_semantic_progress : bool; er_attempted_kind : option bytes
}.
Notation ExecResult := SemanticExecutionResultRecord.
Definition exec_new (kind summary : bytes) (targets : list bytes) (progress : bool) : ExecResult := MkExec kind summary targets progress None.
Definition with_attempted_kind (r : ExecResult) (k : bytes) : ExecResult :=
  MkExec (er_kind r) (er_summary r) (er_target_files r) (er_semantic_progress r) (Some k).
Definition exec_line (r : ExecResult) : bytes :=
  lit "kind=" ++ er_kind r ++ lit " attempted_kind=" ++ default (lit "none") (er_attempted_kind r) ++ lit " progress=" ++ fmt_bool (er_semantic_progress r)
  ++ lit " targets=" ++ targets_text (er_target_files r) ++ lit " summary=" ++ er_summary r.

Definition latest_semantic_progress (rs : list ExecResult) : bool := match last rs with Some r => er_semantic_progress r | None => false end.
Definition latest_no_semantic_progress (rs : list ExecResult) : bool := match last rs with Some r => negb (er_semantic_progress r) | None => false end.
Definition latest_kind_is (k : bytes) (rs : list ExecResult) : bool := match last rs with Some r => bool_decide (er_kind r = k) | None => false end.
Definition latest_graph_proof_verified : list ExecResult -> bool := latest_kind_is (lit "graph_proof_verified").
Definition latest_graph_proof_failed : list ExecResult -> bool := latest_kind_is (lit "graph_proof_failed").
Definition latest_verifier_policy_requires_corrective_retry : list ExecResult -> bool := latest_kind_is (lit "verifier_policy_corrective_retry").
Definition latest_verifier_policy_clears_retry : list ExecResult -> bool := latest_kind_is (lit "verifier_policy_none").
Definition semantic_progress_count (rs : list ExecResult) : N := lenN (filter (fun r => er_semantic_progress r = true) rs).
(** [iter().rev().take_while(..).count()]. *)
Fixpoint leading_stalls (rs : list ExecResult) : N :=
  match rs with r :: rs' => if er_semantic_progress r then 0 else (1 + leading_stalls rs')%N | [] => 0 end.
Definition semantic_no_progress_streak (rs : list ExecResult) : N := leading_stalls (reverse rs).
(** [n as f32] and the rate. *)
Definition f32_of_N (n : N) : f32 := f32_of_Z (Z.of_N n).
Definition f32_div (x y : f32) : f32 := SFdiv 24 128 x y.
Definition semantic_progress_rate (rs : list ExecResult) : f32 :=
  match rs with [] => f32_of_N 0 | _ => f32_div (f32_of_N (semantic_progress_count rs)) (f32_of_N (lenN rs)) end.

(** ** Checked arithmetic *)

Definition add32 (a b : N) : option N := if (a + b <=? u32_max)%N then Some (a + b)%N else None.
Fixpoint sum32 (l : list N) : option N := match l with [] => Some 0%N | n :: l' => s ← sum32 l'; add32 n s end.
Definition b32 (b : bool) : N := if b then 1 else 0.
(** [n as i32] and [i32] subtraction. *)
Definition as_i32 (n : N) : Z := let z := Z.of_N (wrap32 n) in if (z <? 2147483648)%Z then z else (z - 4294967296)%Z.
Definition sub_i32 (a b : Z) : option Z := let d := (a - b)%Z in if (-2147483648 <=? d)%Z && (d <=? 2147483647)%Z then Some d else None.
(** [d.max(0) as u32]. *)
Definition pos_part (d : Z) : N := Z.to_N (Z.max d 0).

(** ** Trends *)

Record ObjectiveTrendState := MkTrend {
  ot_planning_attempts : N; ot_invalid_plan_events : N; ot_total_execution_results : N; ot_semantic_progress_events : N;
  ot_no_semantic_progress_events : N; ot_current_no_progress_streak : N; ot_repeated_stall_count : N;
  ot_route_objective_contradiction_events : N; ot_goal_objective_drift_events : N;
  ot_baseline_error_count : option N; ot_current_error_count : option N;
  ot_baseline_module_gap_count : option N; ot_current_module_gap_count : option N;
  ot_baseline_test_surface_count : option N; ot_current_test_surface_count : option N;
  ot_last_goodness : option f32; ot_last_delta_g : option f32;
}.
Definition trend_default : ObjectiveTrendState := MkTrend 0 0 0 0 0 0 0 0 0 None None None None None None None None.

Definition with_execution (t : ObjectiveTrendState) (total progress no_progress streak stalls : N) : ObjectiveTrendState :=
  MkTrend (ot_planning_attempts t) (ot_invalid_plan_events t) total progress no_progress streak stalls
    (ot_route_objective_contradiction_events t) (ot_goal_objective_drift_events t) (ot_baseline_error_count t) (ot_current_error_count t)
    (ot_baseline_module_gap_count t) (ot_current_module_gap_count t) (ot_baseline_test_surface_count t) (ot_current_test_surface_count t)
    (ot_last_goodness t) (ot_last_delta_g t).
Definition record_execution_result (t : ObjectiveTrendState) (r : ExecResult) : ObjectiveTrendState :=
  let total := sat_add32 (ot_total_execution_results t) 1 in
  if er_semantic_progress r then
    with_execution t total (sat_add32 (ot_semantic_progress_events t) 1) (ot_no_semantic_progress_events t) 0 (ot_repeated_stall_count t)
  else
    let streak := sat_add32 (ot_current_no_progress_streak t) 1 in
    with_execution t total (ot_semantic_progress_events t) (sat_add32 (ot_no_semantic_progress_events t) 1) streak
      (if (streak =? 2)%N then sat_add32 (ot_repeated_stall_count t) 1 else ot_repeated_stall_count t).
Definition record_execution_results (t : ObjectiveTrendState) (rs : list ExecResult) : ObjectiveTrendState := foldl record_execution_result t rs.

Definition with_planning (t : ObjectiveTrendState) (attempts invalid : N) : ObjectiveTrendState :=
  MkTrend attempts invalid (ot_total_execution_results t) (ot_semantic_progress_events t) (ot_no_semantic_progress_events t)
    (ot_current_no_progress_streak t) (ot_repeated_stall_count t) (ot_route_objective_contradiction_events t) (ot_goal_objective_drift_events t)
    (ot_baseline_error_count t) (ot_current_error_count t) (ot_baseline_module_gap_count t) (ot_current_module_gap_count t)
    (ot_baseline_test_surface_count t) (ot_current_test_surface_count t) (ot_last_goodness t) (ot_last_delta_g t).
Definition record_invalid_plan_event (t : ObjectiveTrendState) : ObjectiveTrendState :=
  with_planning t (ot_planning_attempts t) (sat_add32 (ot_invalid_plan_events t) 1).
Definition record_planning_completion (t : ObjectiveTrendState) (status : bytes) : ObjectiveTrendState :=
  with_planning t (sat_add32 (ot_planning_attempts t) 1)
    (if bool_decide (status = lit "invalid_plan") then sat_add32 (ot_invalid_plan_events t) 1 else ot_invalid_plan_events t).

Definition with_drift (t : ObjectiveTrendState) (route goal : N) : ObjectiveTrendState :=
  MkTrend (ot_planning_attempts t) (ot_invalid_plan_events t) (ot_total_execution_results t) (ot_semantic_progress_events t)
    (ot_no_semantic_progress_events t) (ot_current_no_progress_streak t) (ot_repeated_stall_count t) route goal
    (ot_baseline_error_count t) (ot_current_error_count t) (ot_baseline_module_gap_count t) (ot_current_module_gap_count t)
    (ot_baseline_test_surface_count t) (ot_current_test_surface_count t) (ot_last_goodness t) (ot_last_delta_g t).
Definition record_route_objective_contradiction (t : ObjectiveTrendState) : ObjectiveTrendState :=
  with_drift t (sat_add32 (ot_route_objective_contradiction_events t) 1) (ot_goal_objective_drift_events t).
Definition record_goal_objective_drift (t : ObjectiveTrendState) : ObjectiveTrendState :=
  with_drift t (ot_route_objective_contradiction_events t) (sat_add32 (ot_goal_objective_drift_events t) 1).
Definition record_goodness (t : ObjectiveTrendState) (g delta_g : f32) : ObjectiveTrendState :=
  MkTrend (ot_planning_attempts t) (ot_invalid_plan_events t) (ot_total_execution_results t) (ot_semantic_progress_events t)
    (ot_no_semantic_progress_events t) (ot_current_no_progress_streak t) (ot_repeated_stall_count t)
    (ot_route_objective_contradiction_events t) (ot_goal_objective_drift_events t) (ot_baseline_error_count t) (ot_current_error_count t)
    (ot_baseline_module_gap_count t) (ot_current_module_gap_count t) (ot_baseline_test_surface_count t) (ot_current_test_surface_count t)
    (Some g) (Some delta_g).

(** The closure of [record_observation] and of the objectives: test files. *)
Definition is_test_path (path : bytes) : bool :=
  contains (lit "/tests/") path || starts_with (lit "tests/") path || ends_with (lit "_test.rs") path || ends_with (lit "_tests.rs") path.
(** [baseline.get_or_insert(n)]. *)
Definition get_or_insert (o : option N) (n : N) : option N := match o with Some m => Some m | None => Some n end.
Definition record_observation (t : ObjectiveTrendState) (error_count : N) (s : SemanticStateSummary) : ObjectiveTrendState :=
  let errors := wrap32 error_count in
  let gaps := wrap32 (lenN (ss_module_gaps s)) in
  let tests := wrap32 (lenN (filter (fun p => is_test_path p = true) (ss_source_files s))) in
  MkTrend (ot_planning_attempts t) (ot_invalid_plan_events t) (ot_total_execution_results t) (ot_semantic_progress_events t)
    (ot_no_semantic_progress_events t) (ot_current_no_progress_streak t) (ot_repeated_stall_count t)
    (ot_route_objective_contradiction_events t) (ot_goal_objective_drift_events t)
    (get_or_insert (ot_baseline_error_count t) errors) (Some errors) (get_or_insert (ot_baseline_module_gap_count t) gaps) (Some gaps)
    (get_or_insert (ot_baseline_test_surface_count t) tests) (Some tests) (ot_last_goodness t) (ot_last_delta_g t).

Definition repair_resolution_rate (t : ObjectiveTrendState) : f32 :=
  if (ot_total_execution_results t =? 0)%N then f32_of_N 0 else f32_div (f32_of_N (ot_semantic_progress_events t)) (f32_of_N (ot_total_execution_results t)).
Definition invalid_plan_rate (t : ObjectiveTrendState) : f32 :=
  if (ot_planning_attempts t =? 0)%N then f32_of_N 0 else f32_div (f32_of_N (ot_invalid_plan_events t)) (f32_of_N (ot_planning_attempts t)).
(** f32 product and difference. *)
Definition semantic_progress_trend (t : ObjectiveTrendState) : f32 :=
  SFsub 24 128 (repair_resolution_rate t) (SFmul 24 128 (invalid_plan_rate t) (f32_lit 5 10)).
Definition misalignment_pressure_score (t : ObjectiveTrendState) : option N :=
  add32 (ot_route_objective_contradiction_events t) (ot_goal_objective_drift_events t).
Definition count_delta (current baseline : option N) : option Z := sub_i32 (as_i32 (default 0%N current)) (as_i32 (default 0%N baseline)).
Definition compiler_error_delta (t : ObjectiveTrendState) : option Z := count_delta (ot_current_error_count t) (ot_baseline_error_count t).
Definition module_gap_delta (t : ObjectiveTrendState) : option Z := count_delta (ot_current_module_gap_count t) (ot_baseline_module_gap_count t).
Definition test_surface_delta (t : ObjectiveTrendState) : option Z := count_delta (ot_current_test_surface_count t) (ot_baseline_test_surface_count t).

(** ** The objective state *)

Record SelfDevelopmentObjectiveState := MkObjState {
  os_semantic_progress_rate : f32; os_semantic_no_progress_streak : N; os_consecutive_invalid_plan_batches : N;
  os_validation_blocked_by_preconditions : bool; os_compiler_repair_required : bool; os_misalignment_pressure_score : N
}.
Notation ObjState := SelfDevelopmentObjectiveState.
Definition is_stalled (o : ObjState) : bool := (2 <=? os_semantic_no_progress_streak o)%N || (2 <=? os_consecutive_invalid_plan_batches o)%N.
Definition repair_pressure_score (o : ObjState) : option N :=
  score ← add32 (os_consecutive_invalid_plan_batches o) (os_misalignment_pressure_score o);
  score ← add32 score (b32 (os_validation_blocked_by_preconditions o));
  score ← add32 score (b32 (os_compiler_repair_required o));
  add32 score (b32 (0 <? os_semantic_no_progress_streak o)%N).
Definition derive_self_development_objective_state (s : SemanticStateSummary) (invalid_batches : N) (rs : list ExecResult) (t : ObjectiveTrendState) : option ObjState :=
  m ← misalignment_pressure_score t;
  Some (MkObjState (semantic_progress_rate rs) (semantic_no_progress_streak rs) invalid_batches
    (ss_validation_blocked_by_preconditions s) (ss_compiler_repair_required s) m).
Definition derive_objective_trend_state (attempts invalid : N) (goodness delta_g : option f32) (rs : list ExecResult) : ObjectiveTrendState :=
  record_execution_results (MkTrend attempts invalid 0 0 0 0 0 0 0 None None None None None None goodness delta_g) rs.

(** ** Development objectives *)

Inductive DevelopmentObjectiveKind : Set :=
| ReduceCompilerFailures | ReduceContradictionRate | IncreaseTestCoverage | DecreaseInvalidPlanRate | ReduceStalledLoopFrequency | ImproveModuleCohesion.
#[export] Instance DevelopmentObjectiveKind_eq_dec : EqDecision DevelopmentObjectiveKind.
Proof. solve_decision. Defined.
Definition objective_str (k : DevelopmentObjectiveKind) : bytes :=
  match k with
  | ReduceCompilerFailures => lit "reduce_compiler_failures" | ReduceContradictionRate => lit "reduce_contradiction_rate"
  | IncreaseTestCoverage => lit "increase_test_coverage" | DecreaseInvalidPlanRate => lit "decrease_invalid_plan_rate"
  | ReduceStalledLoopFrequency => lit "reduce_stalled_loop_frequency" | ImproveModuleCohesion => lit "improve_module_cohesion"
  end.
Definition objective_focus (k : DevelopmentObjectiveKind) : bytes :=
  match k with
  | ReduceCompilerFailures => lit "reduce compiler failures" | ReduceContradictionRate => lit "reduce contradiction rate"
  | IncreaseTestCoverage => lit "increase test coverage" | DecreaseInvalidPlanRate => lit "decrease invalid-plan rate"
  | ReduceStalledLoopFrequency => lit "reduce stalled-loop frequency" | ImproveModuleCohesion => lit "improve module cohesion"
  end.

(** [DevelopmentObjective] without the text of its progress. *)
Record DevelopmentObjective := MkObjective { do_kind : DevelopmentObjectiveKind; do_priority_score : N; do_rationale : bytes }.

(** The scores, in the order the source lists the objectives. *)
Definition has_test_files (s : SemanticStateSummary) : bool := existsb is_test_path (ss_source_files s).
(** [usize::saturating_mul]. *)
Definition sat_mul64 (a b : N) : N := N.min (a * b) u64_max.
Definition module_sprawl (factor : N) (s : SemanticStateSummary) : option (N * N) :=
  m ← ss_graph_module_edge_count s; c ← ss_graph_call_edge_count s; Some (m, sat_mul64 c factor).
Definition compiler_priority (s : SemanticStateSummary) (o : ObjState) (t : ObjectiveTrendState) : option N :=
  d ← compiler_error_delta t;
  sum32 [b32 (os_compiler_repair_required o); b32 (os_validation_blocked_by_preconditions o); b32 (negb (bool_decide (ss_compiler_hints s = []))); pos_part d].
Definition coverage_priority (s : SemanticStateSummary) (t : ObjectiveTrendState) : option N :=
  d ← test_surface_delta t;
  sum32 [b32 (ss_cargo_project s && negb (has_test_files s)); b32 (ss_path_exists s && ss_cargo_project s); b32 (d <=? 0)%Z].
Definition invalid_priority (t : ObjectiveTrendState) : option N :=
  if f32_of_N 0 <?f invalid_plan_rate t then add32 1 (ot_invalid_plan_events t) else Some 0%N.
Definition stalled_priority (o : ObjState) (t : ObjectiveTrendState) : option N :=
  add32 (ot_repeated_stall_count t) (wrap32 (os_semantic_no_progress_streak o)).
Definition cohesion_priority (s : SemanticStateSummary) (t : ObjectiveTrendState) : option N :=
  d ← module_gap_delta t;
  sum32 [wrap32 (lenN (ss_module_gaps s)); b32 (8 <=? default 0 (ss_rust_file_count s))%N;
         b32 (match module_sprawl 8 s with Some (m, c) => (c <? m)%N | None => false end); pos_part d].

(** [a.priority.cmp] reversed, then the names: the order of the sort. *)
Fixpoint bytes_leb (a b : bytes) : bool :=
  match a, b with
  | [], _ => true
  | _ :: _, [] => false
  | x :: a', y :: b' =>
      if (Byte.to_N x <? Byte.to_N y)%N then true else if (Byte.to_N y <? Byte.to_N x)%N then false else bytes_leb a' b'
  end.
Definition objective_before (a b : DevelopmentObjective) : bool :=
  if (do_priority_score b <? do_priority_score a)%N then true
  else if (do_priority_score a <? do_priority_score b)%N then false
  else bytes_leb (objective_str (do_kind a)) (objective_str (do_kind b)).
(** [sort_by], stable. *)
Fixpoint insert_objective (x : DevelopmentObjective) (l : list DevelopmentObjective) : list DevelopmentObjective :=
  match l with [] => [x] | y :: l' => if objective_before x y then x :: l else y :: insert_objective x l' end.
Definition sort_objectives (l : list DevelopmentObjective) : list DevelopmentObjective := foldr insert_objective [] l.

Definition listed_objectives (s : SemanticStateSummary) (o : ObjState) (t : ObjectiveTrendState) : option (list DevelopmentObjective) :=
  p1 ← compiler_priority s o t; p3 ← coverage_priority s t; p4 ← invalid_priority t; p5 ← stalled_priority o t; p6 ← cohesion_priority s t;
  Some [ MkObjective ReduceCompilerFailures p1 (lit "compiler repair pressure is still present");
         MkObjective ReduceContradictionRate (os_misalignment_pressure_score o) (lit "goal/route/planner drift has been observed");
         MkObjective IncreaseTestCoverage p3 (lit "the workspace has little or no visible test surface");
         MkObjective DecreaseInvalidPlanRate p4 (lit "invalid plans are reducing execution throughput");
         MkObjective ReduceStalledLoopFrequency p5 (lit "the loop is repeating without semantic progress");
         MkObjective ImproveModuleCohesion p6 (lit "module gaps or graph sprawl indicate structural cohesion issues") ].
Definition derive_development_objectives (s : SemanticStateSummary) (o : ObjState) (t : ObjectiveTrendState) : option (list DevelopmentObjective) :=
  sort_objectives <$> listed_objectives s o t.
Definition primary_development_objective_kind (o : ObjState) (t : ObjectiveTrendState) (s : SemanticStateSummary) : option DevelopmentObjectiveKind :=
  l ← derive_development_objectives s o t; Some (default ReduceCompilerFailures (do_kind <$> head l)).

(** ** Strategies *)

Inductive DevelopmentStrategyKind : Set :=
| FixConfigLintPolicy | ApplyTargetedCompilerRepair | PlanSymbolAwareRename | DiscoverTestSurface | AddRegressionTest | SimplifyPlanBatch
| RealignObjectiveFlow | RefreshContextBeforeRetry | CreateMissingModules | RestructureModulesStrategy.
#[export] Instance DevelopmentStrategyKind_eq_dec : EqDecision DevelopmentStrategyKind.
Proof. solve_decision. Defined.

Definition strategy_str (k : DevelopmentStrategyKind) : bytes :=
  match k with
  | FixConfigLintPolicy => lit "fix_config_lint_policy"
  | ApplyTargetedCompilerRepair => lit "apply_targeted_compiler_repair"
  | PlanSymbolAwareRename => lit "plan_symbol_aware_rename"
  | DiscoverTestSurface => lit "discover_test_surface"
  | AddRegressionTest => lit "add_regression_test"
  | SimplifyPlanBatch => lit "simplify_plan_batch"
  | RealignObjectiveFlow => lit "realign_objective_flow"
  | RefreshContextBeforeRetry => lit "refresh_context_before_retry"
  | CreateMissingModules => lit "create_missing_modules"
  | RestructureModulesStrategy => lit "restructure_modules"
  end.
Definition strategy_focus (k : DevelopmentStrategyKind) : bytes :=
  match k with
  | FixConfigLintPolicy => lit "edit workspace/toolchain config before changing source"
  | ApplyTargetedCompilerRepair => lit "make the smallest source repair that directly addresses the compiler blocker"
  | PlanSymbolAwareRename => lit "use graph-backed symbol relationships to plan a safe rename before editing"
  | DiscoverTestSurface => lit "inspect the current test surface before adding tests"
  | AddRegressionTest => lit "add a targeted regression test for the active behavior gap"
  | SimplifyPlanBatch => lit "reduce batch complexity and constrain the next plan"
  | RealignObjectiveFlow => lit "realign goal, route, and planner around the same objective"
  | RefreshContextBeforeRetry => lit "refresh semantic context before repeating a stalled repair"
  | CreateMissingModules => lit "create or wire missing module files before validation"
  | RestructureModulesStrategy => lit "improve module boundaries and cohesion before more feature work"
  end.

Definition has_hint (s : SemanticStateSummary) (k : CompilerHintKind) : bool := existsb (fun h => bool_decide (kind_enum h = Some k)) (ss_compiler_hints s).
Definition primary_development_strategy_kind (o : ObjState) (t : ObjectiveTrendState) (s : SemanticStateSummary) : option DevelopmentStrategyKind :=
  primary ← primary_development_objective_kind o t s;
  Some (
    if (0 <? os_misalignment_pressure_score o)%N then RealignObjectiveFlow
    else if has_hint s DeadCodeForbidConflict then FixConfigLintPolicy
    else if (0 <? ot_repeated_stall_count t)%N && (2 <=? os_semantic_no_progress_streak o)%N then RefreshContextBeforeRetry
    else if bool_decide (is_Some (ss_graph_artifact_id s)) && has_hint s DuplicateDefinition then PlanSymbolAwareRename
    else match primary with
    | ReduceCompilerFailures => if negb (bool_decide (ss_module_gaps s = [])) then CreateMissingModules else ApplyTargetedCompilerRepair
    | ReduceContradictionRate => RealignObjectiveFlow
    | IncreaseTestCoverage => if has_test_files s then AddRegressionTest else DiscoverTestSurface
    | DecreaseInvalidPlanRate => SimplifyPlanBatch
    | ReduceStalledLoopFrequency => RefreshContextBeforeRetry
    | ImproveModuleCohesion =>
        let has_dense_module_graph := match module_sprawl 4 s with Some (m, c) => (c <? m)%N && (32 <? m)%N | None => false end in
        if negb (bool_decide (ss_module_gaps s = [])) then CreateMissingModules
        else if has_dense_module_graph && bool_decide (is_Some (ss_graph_artifact_id s)) then RestructureModulesStrategy
        else RestructureModulesStrategy
    end).

(** ** Intents of planned actions *)

Inductive SemanticActionIntent : Set :=
| BootstrapWorkspace | InitCargoProject | ValidateCargoCheck
| CreateEntrypoint (path : bytes) | CreateModuleFile (path : bytes) | RestructureModules (path : bytes) | FixDeadCodeConflict (path : bytes)
| FixUnresolvedImport (path : bytes) | DefineMissingSymbol (path : bytes) | ResolveDuplicateDefinition (path : bytes) | FixTraitBoundFailure (path : bytes).

(** [Path::join] on Unix for a relative path. *)
Definition path_join (root path : bytes) : bytes :=
  match last root with None => path | Some x2f => root ++ path | Some _ => root ++ [x2f] ++ path end.
Definition normalize_path (path : bytes) (target_root : option bytes) : bytes :=
  if starts_with [x2f] path then path else match target_root with Some root => path_join root path | None => path end.
Definition is_trait_bound_edit (patch : bytes) : bool :=
  existsb (fun line =>
    if negb (starts_with (lit "+") line || starts_with (lit "-") line) then false
    else let content := trim_start (drop 1 line) in
      contains (lit "impl ") content || contains (lit "where ") content || contains (lit "derive(") content || contains (lit ": ") content)
    (str_lines patch).

Definition hunk_intents (patch : bytes) (target_root : option bytes) (h : Hunk) : list SemanticActionIntent :=
  match h with
  | AddFile path _ =>
      let path := normalize_path path target_root in
      if ends_with (lit "src/main.rs") path || ends_with (lit "src/lib.rs") path then [CreateEntrypoint path] else []
  | UpdateFile path _ _ | DeleteFile path =>
      let path := normalize_path path target_root in
      (if contains (lit "allow(dead_code)") patch then [FixDeadCodeConflict path] else []) ++
      (if is_trait_bound_edit patch then [FixTraitBoundFailure path] else [])
  end.

Section Intents.
Context {V : Type} `{Json V}.
Definition payload_text (key : string) (payload : V) : option bytes := lit <$> json_get_str key payload.
Definition path_intent (mk : bytes -> SemanticActionIntent) (payload : V) (target_root : option bytes) : list SemanticActionIntent :=
  match payload_text "path" payload with Some p => [mk (normalize_path p target_root)] | None => [] end.
(** [None] when the patch parser panics. *)
Definition classify_planned_action_intents (action_kind : string) (payload : V) (target_root : option bytes) : option (list SemanticActionIntent) :=
  if String.eqb action_kind "run_command" then
    let cmd := default [] (payload_text "cmd" payload) in
    Some ((if contains (lit "cargo new ") cmd then [BootstrapWorkspace] else []) ++
          (if contains (lit "cargo init") cmd then [InitCargoProject] else []) ++
          (if contains (lit "cargo check") cmd then [ValidateCargoCheck] else []))
  else if String.eqb action_kind "edit.rename_symbol" then Some (path_intent ResolveDuplicateDefinition payload target_root)
  else if String.eqb action_kind "edit.move_symbol" then Some (path_intent RestructureModules payload target_root)
  else if String.eqb action_kind "edit.add_import" then Some (path_intent FixUnresolvedImport payload target_root)
  else if String.eqb action_kind "edit.define_symbol_stub" then Some (path_intent DefineMissingSymbol payload target_root)
  else if String.eqb action_kind "edit.create_module_file" then Some (path_intent CreateModuleFile payload target_root)
  else if String.eqb action_kind "apply_patch" then
    let patch := default [] (payload_text "patch" payload) in
    match parse_patch patch with
    | None => None
    | Some (Err _) => Some []
    | Some (Ok (hunks, _)) => Some (concat (hunk_intents patch target_root <$> hunks))
    end
  else Some [].
End Intents.

Definition intent_kind_and_targets (i : SemanticActionIntent) : bytes * list bytes :=
  match i with
  | BootstrapWorkspace => (lit "bootstrap_workspace", []) | InitCargoProject => (lit "init_cargo_project", [])
  | ValidateCargoCheck => (lit "validate_cargo_check", []) | CreateEntrypoint p => (lit "create_entrypoint", [p])
  | CreateModuleFile p => (lit "create_module_file", [p]) | RestructureModules p => (lit "restructure_modules", [p])
  | FixDeadCodeConflict p => (lit "fix_dead_code_conflict", [p]) | FixUnresolvedImport p => (lit "fix_unresolved_import", [p])
  | DefineMissingSymbol p => (lit "define_missing_symbol", [p]) | ResolveDuplicateDefinition p => (lit "resolve_duplicate_definition", [p])
  | FixTraitBoundFailure p => (lit "fix_trait_bound_failure", [p])
  end.
Definition intent_result (i : SemanticActionIntent) : ExecResult :=
  match i with
  | BootstrapWorkspace => with_attempted_kind (exec_new (lit "workspace_bootstrapped") (lit "workspace bootstrap command succeeded") [] true) (lit "bootstrap_workspace")
  | InitCargoProject => with_attempted_kind (exec_new (lit "cargo_project_initialized") (lit "cargo project initialization succeeded") [] true) (lit "init_cargo_project")
  | ValidateCargoCheck => with_attempted_kind (exec_new (lit "validation_attempted") (lit "cargo check executed") [] false) (lit "validate_cargo_check")
  | CreateEntrypoint p => with_attempted_kind (exec_new (lit "entrypoint_created") (lit "entrypoint file created") [p] true) (lit "create_entrypoint")
  | CreateModuleFile p => with_attempted_kind (exec_new (lit "module_created") (lit "module file created") [p] true) (lit "create_module_file")
  | RestructureModules p => with_attempted_kind (exec_new (lit "module_restructured") (lit "module restructure edit applied") [p] true) (lit "restructure_modules")
  | FixDeadCodeConflict p => with_attempted_kind (exec_new (lit "dead_code_conflict_addressed") (lit "dead_code conflict edit applied") [p] true) (lit "fix_dead_code_conflict")
  | FixUnresolvedImport p => with_attempted_kind (exec_new (lit "import_resolved") (lit "import repair edit applied") [p] true) (lit "fix_unresolved_import")
  | DefineMissingSymbol p => with_attempted_kind (exec_new (lit "symbol_defined") (lit "missing symbol definition edit applied") [p] true) (lit "define_missing_symbol")
  | ResolveDuplicateDefinition p => with_attempted_kind (exec_new (lit "duplicate_resolved") (lit "duplicate definition repair applied") [p] true) (lit "resolve_duplicate_definition")
  | FixTraitBoundFailure p => with_attempted_kind (exec_new (lit "trait_bound_fixed") (lit "trait bound repair edit applied") [p] true) (lit "fix_trait_bound_failure")
  end.
Definition intent_failure (stderr : bytes) (i : SemanticActionIntent) : ExecResult :=
  let '(kind, targets) := intent_kind_and_targets i in
  with_attempted_kind (exec_new (lit "no_semantic_progress") (kind ++ lit " failed: " ++ trim stderr) targets false) kind.
Definition execution_results_for_action (intents : list SemanticActionIntent) (success : bool) (stderr : bytes) : list ExecResult :=
  if negb success then
    match intents with
    | [] => [exec_new (lit "no_semantic_progress") (lit "action failed: " ++ trim stderr) [] false]
    | _ => intent_failure stderr <$> intents
    end
  else match intents with
  | [] => [exec_new (lit "no_semantic_progress") (lit "action succeeded without semantic state change classification") [] false]
  | _ => intent_result <$> intents
  end.

(** ** The ranking *)

Lemma bytes_leb_total a b : bytes_leb a b = true \/ bytes_leb b a = true.
Proof.
  revert b. induction a as [|x a IH]; intros [|y b]; cbn; [by left..|by right|]. destruct (N.ltb_spec (Byte.to_N x) (Byte.to_N y)); [by left|].
  destruct (N.ltb_spec (Byte.to_N y) (Byte.to_N x)); [by right|]. apply IH.
Qed.
Lemma bytes_leb_trans a b c : bytes_leb a b = true -> bytes_leb b c = true -> bytes_leb a c = true.
Proof.
  revert b c. induction a as [|x a IH]; intros [|y b] [|z c]; cbn; try done.
  destruct (N.ltb_spec (Byte.to_N x) (Byte.to_N y)), (N.ltb_spec (Byte.to_N y) (Byte.to_N x)), (N.ltb_spec (Byte.to_N y) (Byte.to_N z)),
    (N.ltb_spec (Byte.to_N z) (Byte.to_N y)), (N.ltb_spec (Byte.to_N x) (Byte.to_N z)), (N.ltb_spec (Byte.to_N z) (Byte.to_N x)); try done; try lia. apply IH.
Qed.
Lemma before_total a b : objective_before a b = true \/ objective_before b a = true.
Proof.
  unfold objective_before. destruct (N.ltb_spec (do_priority_score b) (do_priority_score a)), (N.ltb_spec (do_priority_score a) (do_priority_score b)); try (by left); try (by right); try lia.
  apply bytes_leb_total.
Qed.
Lemma before_trans a b c : objective_before a b = true -> objective_before b c = true -> objective_before a c = true.
Proof.
  unfold objective_before. destruct (N.ltb_spec (do_priority_score b) (do_priority_score a)), (N.ltb_spec (do_priority_score a) (do_priority_score b)),
    (N.ltb_spec (do_priority_score c) (do_priority_score b)), (N.ltb_spec (do_priority_score b) (do_priority_score c)),
    (N.ltb_spec (do_priority_score c) (do_priority_score a)), (N.ltb_spec (do_priority_score a) (do_priority_score c)); try done; try lia. apply bytes_leb_trans.
Qed.
Notation ranked := (StronglySorted (fun a b => objective_before a b = true)).

Lemma insert_objective_perm x l : insert_objective x l ≡ₚ x :: l.
Proof. induction l as [|y l IH]; [done|]. cbn. destruct (objective_before x y); [done|]. rewrite IH. apply perm_swap. Qed.
Lemma insert_objective_ranked x l : ranked l -> ranked (insert_objective x l).
Proof.
  induction 1 as [|y l Hl IH Hy]; [repeat constructor|]. cbn. destruct (objective_before x y) eqn:E.
  - constructor; [by constructor|]. constructor; [done|]. eapply Forall_impl; [exact Hy|]. intros z Hz. by eapply before_trans.
  - constructor; [done|]. rewrite insert_objective_perm. constructor; [|done]. by destruct (before_total x y) as [E'|E']; [rewrite E in E'|].
Qed.
Lemma sort_objectives_spec l : sort_objectives l ≡ₚ l /\ ranked (sort_objectives l).
Proof.
  induction l as [|x l [Hp Hr]]; [split; [done|constructor]|]. cbn. fold (sort_objectives l). split; [by rewrite insert_objective_perm, Hp|by apply insert_objective_ranked].
Qed.

Lemma before_scores a b : objective_before a b = true -> (do_priority_score b <= do_priority_score a)%N.
Proof. unfold objective_before. destruct (N.ltb_spec (do_priority_score b) (do_priority_score a)), (N.ltb_spec (do_priority_score a) (do_priority_score b)); (done || lia). Qed.
Lemma before_refl a : objective_before a a = true.
Proof. by destruct (before_total a a). Qed.

Lemma listed_kinds s o t raw : listed_objectives s o t = Some raw ->
  (do_kind <$> raw) = [ReduceCompilerFailures; ReduceContradictionRate; IncreaseTestCoverage; DecreaseInvalidPlanRate; ReduceStalledLoopFrequency; ImproveModuleCohesion] /\
  forall x, x ∈ raw -> do_kind x = ReduceContradictionRate -> do_priority_score x = os_misalignment_pressure_score o.
Proof.
  unfold listed_objectives. destruct (compiler_priority s o t) as [p1|]; [|done]. destruct (coverage_priority s t) as [p3|]; [|done].
  destruct (invalid_priority t) as [p4|]; [|done]. destruct (stalled_priority o t) as [p5|]; [|done]. destruct (cohesion_priority s t) as [p6|]; [|done].
  cbn [mbind option_bind]. intros [= <-]. split; [done|]. intros x Hx. rewrite !elem_of_cons, elem_of_nil in Hx. naive_solver.
Qed.

(** The objective at the front of the ranking. *)
Lemma primary_is_first s o t raw : listed_objectives s o t = Some raw ->
  exists x, x ∈ raw /\ primary_development_objective_kind o t s = Some (do_kind x) /\ forall y, y ∈ raw -> objective_before x y = true.
Proof.
  intros Hl. unfold primary_development_objective_kind, derive_development_objectives. rewrite Hl. cbn [fmap option_fmap option_map mbind option_bind].
  destruct (sort_objectives_spec raw) as [Hp Hr]. destruct (sort_objectives raw) as [|x l] eqn:E.
  - exfalso. apply Permutation_nil in Hp as ->. by destruct (listed_kinds s o t [] Hl).
  - exists x. split_and!; [rewrite <- Hp; apply list_elem_of_here|done|]. intros y Hy. rewrite <- Hp in Hy. apply elem_of_cons in Hy as [->|Hy]; [apply before_refl|].
    apply StronglySorted_inv in Hr as [_ Hx]. rewrite Forall_forall in Hx. by apply Hx.
Qed.

(** the ranking of the development objectives.  When no score overflows,
    all six objectives are listed exactly once, by falling priority and within
    a priority by name, and the primary objective is the first: no objective has
    a higher priority, and those of equal priority come after it by name.  The
    strategy realigns the objective flow exactly under misalignment pressure. *)
Theorem objectives_ranked s o t raw : listed_objectives s o t = Some raw ->
  exists l x, derive_development_objectives s o t = Some l /\ ranked l /\
    (do_kind <$> l) ≡ₚ [ReduceCompilerFailures; ReduceContradictionRate; IncreaseTestCoverage; DecreaseInvalidPlanRate; ReduceStalledLoopFrequency; ImproveModuleCohesion] /\
    l ≡ₚ raw /\ x ∈ raw /\ primary_development_objective_kind o t s = Some (do_kind x) /\
    (forall y, y ∈ raw -> (do_priority_score y <= do_priority_score x)%N) /\
    (primary_development_strategy_kind o t s = Some RealignObjectiveFlow <-> (0 < os_misalignment_pressure_score o)%N).
Proof.
  intros Hl. destruct (sort_objectives_spec raw) as [Hp Hr]. destruct (listed_kinds s o t raw Hl) as [Hk Hmis]. destruct (primary_is_first s o t raw Hl) as (x & Hx & Hprim & Hfirst).
  exists (sort_objectives raw), x. split_and!; [unfold derive_development_objectives; by rewrite Hl|done|by rewrite Hp, Hk|done|done|done| |].
  - intros y Hy. by apply before_scores, Hfirst.
  - unfold primary_development_strategy_kind. rewrite Hprim. cbn [mbind option_bind]. destruct (N.ltb_spec 0 (os_misalignment_pressure_score o)) as [Hm|Hm]; [done|].
    split; [|lia]. intros E. exfalso.
    assert (Hnot : do_kind x <> ReduceContradictionRate).
    { intros Hxk. assert (Hd : DecreaseInvalidPlanRate ∈ do_kind <$> raw) by (rewrite Hk, !elem_of_cons; naive_solver).
      apply list_elem_of_fmap in Hd as (y & Hyk & Hy). pose proof (Hfirst y Hy) as Hb. pose proof (before_scores _ _ Hb) as Hle. pose proof (Hmis x Hx Hxk) as Hs.
      unfold objective_before in Hb. rewrite Hxk, <- Hyk in Hb. rewrite !(proj2 (N.ltb_ge _ _)) in Hb by lia. vm_compute in Hb. discriminate Hb. }
    destruct (has_hint s DeadCodeForbidConflict); [done|]. destruct (_ && _); [done|]. destruct (_ && _); [done|].
    destruct (do_kind x); try done; by repeat (case_match; try done).
Qed.
Definition calm_state : ObjState := MkObjState (f32_of_N 0) 0 0 false false 2.
Lemma objectives_ranked_witness : primary_development_strategy_kind calm_state trend_default summary_default = Some RealignObjectiveFlow.
Proof.
  edestruct (objectives_ranked summary_default calm_state trend_default) as (l & x & _ & _ & _ & _ & _ & _ & _ & Hs); [vm_compute; reflexivity|].
  apply Hs. vm_compute. reflexivity.
Defined.

(** ** Trends are exact *)

(** How often a run of results without progress reached its second one. *)
Definition stalls_in (rs : list ExecResult) : N := lenN (filter (fun i => semantic_no_progress_streak (take (S i) rs) = 2%N) (seq 0 (length rs))).

Lemma list_filter_ext_seq (P Q : nat -> Prop) `{!forall i, Decision (P i), !forall i, Decision (Q i)} n :
  (forall i, i < n -> P i <-> Q i) -> filter P (seq 0 n) = filter Q (seq 0 n).
Proof.
  induction n as [|n IH]; intros HPQ; [done|]. rewrite seq_S, !filter_app, IH by (intros; apply HPQ; lia). f_equal. rewrite !filter_cons, !filter_nil. cbn [Nat.add].
  destruct (decide (P n)) as [Hp|Hp]; [rewrite decide_True; [done|]|rewrite decide_False; [done|]]; rewrite <- (HPQ n) by lia; done.
Qed.
Lemma streak_snoc_result rs r : semantic_no_progress_streak (rs ++ [r]) = if er_semantic_progress r then 0%N else (semantic_no_progress_streak rs + 1)%N.
Proof. unfold semantic_no_progress_streak. rewrite reverse_snoc. cbn [leading_stalls]. destruct (er_semantic_progress r); lia. Qed.
Lemma streak_le rs : (semantic_no_progress_streak rs <= lenN rs)%N.
Proof. induction rs as [|r rs IH] using rev_ind; [done|]. rewrite streak_snoc_result, lenN_app. change (lenN [r]) with 1%N. destruct (er_semantic_progress r); lia. Qed.
Lemma progress_snoc rs r : semantic_progress_count (rs ++ [r]) = (semantic_progress_count rs + b32 (er_semantic_progress r))%N.
Proof.
  unfold semantic_progress_count. rewrite filter_app, lenN_app, filter_cons, filter_nil. f_equal. destruct (er_semantic_progress r); [by rewrite decide_True|by rewrite decide_False].
Qed.
Lemma progress_le rs : (semantic_progress_count rs <= lenN rs)%N.
Proof. induction rs as [|r rs IH] using rev_ind; [done|]. rewrite progress_snoc, lenN_app. change (lenN [r]) with 1%N. destruct (er_semantic_progress r); cbn [b32]; lia. Qed.
Lemma stalls_snoc rs r : stalls_in (rs ++ [r]) = (stalls_in rs + b32 (semantic_no_progress_streak (rs ++ [r]) =? 2)%N)%N.
Proof.
  unfold stalls_in. rewrite length_app, Nat.add_1_r, seq_S, filter_app, lenN_app, filter_cons, filter_nil. cbn [Nat.add]. f_equal.
  - f_equal. apply list_filter_ext_seq. intros i Hi. by rewrite take_app_le by lia.
  - rewrite take_ge by (rewrite length_app; cbn; lia). destruct (N.eqb_spec (semantic_no_progress_streak (rs ++ [r])) 2); [by rewrite decide_True|by rewrite decide_False].
Qed.
Lemma stalls_le rs : (stalls_in rs <= lenN rs)%N.
Proof. induction rs as [|r rs IH] using rev_ind; [done|]. rewrite stalls_snoc, lenN_app. change (lenN [r]) with 1%N. destruct (_ =? 2)%N; cbn [b32]; lia. Qed.

(** The counters [record_execution_results] arrives at. *)
Lemma trend_counts rs : (lenN rs <= u32_max)%N ->
  record_execution_results trend_default rs =
    with_execution trend_default (lenN rs) (semantic_progress_count rs) (lenN rs - semantic_progress_count rs) (semantic_no_progress_streak rs) (stalls_in rs).
Proof.
  intros Hlen. induction rs as [|r rs IH] using rev_ind; [done|]. rewrite lenN_app in Hlen. change (lenN [r]) with 1%N in Hlen. unfold record_execution_results in *.
  rewrite foldl_app, IH by lia. cbn [foldl]. unfold record_execution_result. rewrite progress_snoc, stalls_snoc, streak_snoc_result, lenN_app. change (lenN [r]) with 1%N.
  pose proof (progress_le rs). pose proof (streak_le rs). pose proof (stalls_le rs). cbn.
  destruct (er_semantic_progress r); unfold with_execution; cbn; rewrite ?sat_add32_exact by lia; [f_equal; lia|].
  destruct (_ =? 2)%N; cbn [b32]; rewrite ?sat_add32_exact by lia; f_equal; lia.
Qed.

(** the trend counters.  Recording any history of results shorter than
    2^32 leaves exactly: the number of results, of those with and those without
    semantic progress (which add up), the current streak without progress as
    the planner's own function computes it, and the number of times a streak
    reached two; no counter saturates, and the objective state derived from the
    same results is stalled exactly when the streak is two or more or two plan
    batches in a row were invalid. *)
Theorem trend_exact rs : (lenN rs <= u32_max)%N ->
  let t := record_execution_results trend_default rs in
  t = with_execution trend_default (lenN rs) (semantic_progress_count rs) (lenN rs - semantic_progress_count rs) (semantic_no_progress_streak rs) (stalls_in rs) /\
  forall s invalid o, derive_self_development_objective_state s invalid rs t = Some o ->
    (is_stalled o = true <-> (2 <= ot_current_no_progress_streak t)%N \/ (2 <= invalid)%N).
Proof.
  intros Hlen. cbv zeta. pose proof (trend_counts rs Hlen) as Ht.
  split; [exact Ht|]. intros s invalid o. rewrite Ht. unfold derive_self_development_objective_state, is_stalled.
  destruct (misalignment_pressure_score _); [|done]. cbn [mbind option_bind]. intros [= <-]. cbn. rewrite orb_true_iff, !N.leb_le. done.
Qed.
Lemma trend_exact_witness : ot_repeated_stall_count (record_execution_results trend_default
  (execution_results_for_action [] false (lit "boom") ++ execution_results_for_action [ValidateCargoCheck] true [])) = 1%N.
Proof.
  edestruct (trend_exact (execution_results_for_action [] false (lit "boom") ++ execution_results_for_action [ValidateCargoCheck] true [])) as [H _]; [vm_compute; discriminate|].
  rewrite H. vm_compute. reflexivity.
Defined.

(** A failed action adds results without progress, one at least; a successful
    one makes progress exactly for the intents other than validation. *)
Lemma failed_action_extends_streak rs intents stderr :
  let new := execution_results_for_action intents false stderr in
  semantic_no_progress_streak (rs ++ new) = (semantic_no_progress_streak rs + lenN new)%N /\ new <> [].
Proof.
  cbv zeta. assert (Hall : forall l, Forall (fun r => er_semantic_progress r = false) l -> semantic_no_progress_streak (rs ++ l) = (semantic_no_progress_streak rs + lenN l)%N).
  { intros l Hl. induction l as [|r l IH] using rev_ind; [rewrite app_nil_r; symmetry; apply N.add_0_r|]. apply Forall_app in Hl as [Hl [Hr _]%Forall_cons].
    rewrite app_assoc, streak_snoc_result, Hr, IH, lenN_app by done. change (lenN [r]) with 1%N. lia. }
  unfold execution_results_for_action. cbn [negb]. destruct intents as [|i intents]; [split; [by apply Hall; repeat constructor|done]|].
  split; [|done]. apply Hall. apply Forall_fmap, Forall_true. intros j. unfold compose, intent_failure. by destruct (intent_kind_and_targets j).
Qed.
Lemma successful_action_progress intents stderr : intents <> [] ->
  execution_results_for_action intents true stderr = intent_result <$> intents /\ forall i, er_semantic_progress (intent_result i) = false <-> i = ValidateCargoCheck.
Proof. intros Hne. split; [by destruct intents|]. intros i. by destruct i. Qed.
