(* ===== verification/LoopPolicy.v ===== *)
(** * The loop policy ([canon-loop/src/policy.rs])

    Classification of actions and their outcomes, recovery rules, the choice of
    retry policy and the hints given to the planner.  Texts are UTF-8 bytes;
    action kinds and statuses are compared as strings. *)
From Stdlib Require Import Floats.SpecFloat.
From S2P Require Import Prelude Text PatchParser TextFormat Gatekeeper SemanticState Objectives.

(** ** Classes *)

Inductive CommandClass : Set := CDiscovery | CEdit | CValidation | CBootstrap | CCompletion | COther.
Inductive ActionOutcomeClass : Set :=
| BootstrapSuccess | BootstrapSelectionMismatch | ValidationFailureCompiler | ValidationSuccess | SemanticFailure
| PatchMissingTargetFile | PatchApplyFailure | EditSuccess | OtherOutcome.
Inductive LoopRecoveryRule : Set := ClearPlannerSuppressionOnInvalidPlan | TriggerObserveOnActStall | RecoverLoopRewarded.
Inductive ObserveExecutionMode : Set := ObserveNone | Forced | Triggered | SuppressedByInvariant | SuppressedByPendingSuccessor.
Inductive LoopRuntimeRule : Set :=
| ExecuteForcedObserve | ExecuteTriggeredObserve | SuppressObserveOnInvariant | SuppressObserveOnPendingSuccessor | BlockStageWhenHalted | WarnRouteSelectedWhileHalted.
Inductive RecoveryEventRule : Set := RecoveryNone | ForceObserve | ExecuteRewardRecovery | SkipRewardAlreadySatisfied | MissingRewardContext.
Inductive RecoveryOperation : Set := RewardRecovery | ObserveForced | ObserveTriggered.
Inductive StageExecutionOutcomeClass : Set := OEmit | OEmitMany | ODeferred | ONoop | OError.
Inductive ErrorObserveRule : Set := ErrorNone | ExplicitRecovery | GenericErrorObserve.
Inductive InvalidPlanReasonClass : Set := MixedBatch | PatchFormat | PathOrCwd | MissingContext | UnknownReason.
Inductive RetryPolicy : Set := RetryNone | DiscoveryOnly | SinglePatchOnly | CorrectiveRetry.
#[export] Instance LoopRecoveryRule_eq_dec : EqDecision LoopRecoveryRule.
Proof. solve_decision. Defined.
#[export] Instance ActionOutcomeClass_eq_dec : EqDecision ActionOutcomeClass.
Proof. solve_decision. Defined.
#[export] Instance RetryPolicy_eq_dec : EqDecision RetryPolicy.
Proof. solve_decision. Defined.
Definition retry_str (r : RetryPolicy) : string :=
  match r with RetryNone => "none" | DiscoveryOnly => "discovery_only" | SinglePatchOnly => "single_patch_only" | CorrectiveRetry => "corrective_retry" end.

Definition one_of (s : string) (l : list string) : bool := existsb (String.eqb s) l.
Definition has (text : bytes) (s : string) : bool := contains (lit s) text.

(** ** Classification *)

Definition is_bootstrap_command_output (stdout stderr : bytes) : bool :=
  let text := if negb (bool_decide (stdout = [])) then stdout else stderr in
  has text "Creating binary (application) package" || has text "Creating library package" || has text "Creating binary (application) `" || has text "Creating library `".
Definition looks_like_compiler_failure (text : bytes) : bool :=
  has text "error[E" || has text "could not compile" || has text "For more information about this error".
Definition looks_like_bootstrap_selection_mismatch (text : bytes) : bool :=
  has text "`cargo init` cannot be run on existing Cargo packages" || has text "use `cargo new` to create a package in a new subdirectory"
  || (has text "destination `" && has text "already exists" && has text "Use `cargo init` to initialize the directory").
Definition looks_semantically_failed (text : bytes) : bool := has text "test result: FAILED" || has text "failed" || has text "panic".

Definition edit_kinds : list string :=
  ["apply_patch"; "edit.rename_symbol"; "edit.move_symbol"; "edit.add_import"; "edit.define_symbol_stub"; "edit.create_module_file"]%string.
Definition classify_action (action_kind : string) (stdout stderr : bytes) : CommandClass :=
  if one_of action_kind ["list_dir"; "read_file"; "search_files"] then CDiscovery
  else if one_of action_kind (edit_kinds ++ ["write_file"; "patch_file"]) then CEdit
  else if String.eqb action_kind "done" then CCompletion
  else if String.eqb action_kind "run_command" then (if is_bootstrap_command_output stdout stderr then CBootstrap else CValidation)
  else COther.

Definition classify_action_outcome (action_kind : string) (success : bool) (stdout stderr : bytes) : ActionOutcomeClass :=
  let text := if negb (bool_decide (stderr = [])) then stderr else stdout in
  let run := String.eqb action_kind "run_command" in
  let patch := String.eqb action_kind "apply_patch" in
  if run && (success && is_bootstrap_command_output stdout stderr) then BootstrapSuccess
  else if run && looks_like_bootstrap_selection_mismatch text then BootstrapSelectionMismatch
  else if run && (success && looks_semantically_failed text) then SemanticFailure
  else if run && success then ValidationSuccess
  else if run && looks_like_compiler_failure text then ValidationFailureCompiler
  else if run && looks_semantically_failed text then SemanticFailure
  else if one_of action_kind edit_kinds && success then EditSuccess
  else if patch && (has text "No such file or directory" || has text "Failed to read file to update") then PatchMissingTargetFile
  else if patch && (has text "invalid hunk" || has text "unexpected line in update chunk" || has text "Failed to find expected lines" || has text "apply_patch failed") then PatchApplyFailure
  else OtherOutcome.

Definition is_read_only_action (action_kind : string) : bool := one_of action_kind ["list_dir"; "read_file"; "search_files"; "done"].

(** ** Recovery *)

Definition recovery_rules_for_error_kind (k : string) : list LoopRecoveryRule := if String.eqb k "act_stall" then [TriggerObserveOnActStall] else [].
Definition recovery_rules_for_planning_status (st : string) : list LoopRecoveryRule := if String.eqb st "invalid_plan" then [ClearPlannerSuppressionOnInvalidPlan] else [].
Definition recovery_rules_for_expected_successor (e : string) : list LoopRecoveryRule := if String.eqb e "loop_rewarded" then [RecoverLoopRewarded] else [].

Record LoopTransitionEvaluation := MkTransition {
  recovery_rules : list LoopRecoveryRule; trigger_observe : bool; force_reward_recovery : bool; observe_blocked_by_successor : bool
}.
Definition evaluate_loop_transition (pending planning_status error_kind expected_successor : option string) : LoopTransitionEvaluation :=
  let rules := from_option recovery_rules_for_planning_status [] planning_status ++ from_option recovery_rules_for_error_kind [] error_kind
    ++ from_option recovery_rules_for_expected_successor [] expected_successor in
  MkTransition rules (bool_decide (TriggerObserveOnActStall ∈ rules)) (bool_decide (RecoverLoopRewarded ∈ rules))
    (match expected_successor with Some e => negb (String.eqb e "loop_observed") | None => false end).

Record LoopRuntimeEvaluation := MkRuntimeEval {
  observe_mode : ObserveExecutionMode; halt_blocks_stage : bool; warn_route_selected_while_halted : bool; runtime_rules : list LoopRuntimeRule
}.
Definition evaluate_loop_runtime (halted force_observe trigger suppress : bool) (pending : option string) (is_route_selected : bool) : LoopRuntimeEvaluation :=
  let '(mode, rules) :=
    if force_observe && negb halted then (Forced, [ExecuteForcedObserve])
    else if trigger && negb halted && suppress then (SuppressedByInvariant, [SuppressObserveOnInvariant])
    else if trigger && negb halted then (Triggered, [ExecuteTriggeredObserve])
    else (ObserveNone, []) in
  MkRuntimeEval mode halted (halted && is_route_selected)
    (rules ++ (if halted then [BlockStageWhenHalted] else []) ++ (if halted && is_route_selected then [WarnRouteSelectedWhileHalted] else [])).

Record RecoveryEventEvaluation := MkRecoveryEvent { recovery_rule : RecoveryEventRule; force_observe_recovery : bool; execute_reward_recovery : bool }.
Definition evaluate_recovery_event (expected_successor pending : option string) (has_last_verified : bool) : RecoveryEventEvaluation :=
  match expected_successor with
  | Some e =>
      if String.eqb e "loop_observed" then MkRecoveryEvent ForceObserve true false
      else if String.eqb e "loop_rewarded" then (if negb has_last_verified then MkRecoveryEvent MissingRewardContext false false else MkRecoveryEvent ExecuteRewardRecovery false true)
      else MkRecoveryEvent RecoveryNone false false
  | None => MkRecoveryEvent RecoveryNone false false
  end.

Record RecoveryExecutionEvaluation := MkRecoveryExec { debug_kind : option string; debug_reason : option string; rec_error_kind : option string }.
Definition evaluate_recovery_execution (op : RecoveryOperation) (outcome : StageExecutionOutcomeClass) : RecoveryExecutionEvaluation :=
  match op, outcome with
  | _, (OEmit | OEmitMany) => MkRecoveryExec None None None
  | RewardRecovery, (ODeferred | ONoop) => MkRecoveryExec (Some "reward_recovery_noop"%string) (Some "reward recovery produced no events"%string) None
  | RewardRecovery, OError => MkRecoveryExec None None (Some "reward_recovery_execution"%string)
  | (ObserveForced | ObserveTriggered), ODeferred => MkRecoveryExec (Some "observe_deferred"%string) (Some "observe returned deferred"%string) None
  | (ObserveForced | ObserveTriggered), ONoop => MkRecoveryExec (Some "observe_noop"%string) (Some "observe returned noop"%string) None
  | ObserveForced, OError => MkRecoveryExec None None (Some "observe_recovery_execution"%string)
  | ObserveTriggered, OError => MkRecoveryExec None None (Some "observe_stage_execution"%string)
  end.

Definition evaluate_error_observe (error_kind : string) (explicit fatal : bool) : ErrorObserveRule :=
  if explicit then ExplicitRecovery
  else if negb (String.eqb error_kind "invariant_violation") && negb (String.eqb error_kind "invalid_plan_batch") && negb fatal then GenericErrorObserve
  else ErrorNone.

Inductive BootstrapRule : Set := BootstrapNone | InvalidateQueuedPlanWork.
Record BootstrapEvaluation := MkBootstrap {
  bootstrap_rule : BootstrapRule; clear_scheduler : bool; clear_dep_tracker : bool; clear_pending_act : bool; clear_active_batch : bool;
  clear_act_batch_tracker : bool; emit_refresh_required : bool
}.
Definition evaluate_bootstrap_effects (o : ActionOutcomeClass) : BootstrapEvaluation :=
  if bool_decide (o = BootstrapSuccess) then MkBootstrap InvalidateQueuedPlanWork true true true true true true else MkBootstrap BootstrapNone false false false false false false.

(** ** Retries *)

Definition classify_invalid_plan_reason (reason : option bytes) : InvalidPlanReasonClass :=
  match reason with
  | None => UnknownReason
  | Some r =>
      if has r "mixed discovery actions with execution/edit actions" then MixedBatch
      else if has r "apply_patch payload is invalid" || has r "unexpected line in update chunk" || has r "invalid hunk" || has r "single-patch retry required" then PatchFormat
      else if has r "absolute cwd" || has r "path is invalid" || has r "absolute paths are not allowed" || has r "parent traversal" then PathOrCwd
      else if has r "missing_last_observed" || has r "missing_observed_context" then MissingContext
      else UnknownReason
  end.
Definition retry_policy_for_invalid_plan (reason : option bytes) (invalid_batches : N) : RetryPolicy :=
  if (invalid_batches =? 0)%N then RetryNone
  else match classify_invalid_plan_reason reason with
  | MixedBatch => DiscoveryOnly
  | PatchFormat => SinglePatchOnly
  | PathOrCwd | MissingContext | UnknownReason => CorrectiveRetry
  end.
(** [None]: the misalignment score overflows. *)
Definition retry_policy_for_planning_context (reason : option bytes) (invalid_batches : N) (rs : list ExecResult) (t : ObjectiveTrendState) : option RetryPolicy :=
  let base := retry_policy_for_invalid_plan reason invalid_batches in
  if negb (bool_decide (base = RetryNone)) then Some base
  else if latest_verifier_policy_requires_corrective_retry rs then Some CorrectiveRetry
  else if latest_verifier_policy_clears_retry rs then Some RetryNone
  else
    m ← misalignment_pressure_score t;
    Some (if (0 <? m)%N then CorrectiveRetry
      else if (0 <? ot_repeated_stall_count t)%N && (0 <? ot_current_no_progress_streak t)%N then CorrectiveRetry
      else if latest_graph_proof_failed rs then CorrectiveRetry
      else if (2 <=? semantic_no_progress_streak rs)%N then CorrectiveRetry
      else RetryNone).

(** ** Planner hints *)

(** [str::replace] of a single byte. *)
Definition replace_byte (c : byte) (by_ : bytes) (l : bytes) : bytes := concat ((fun b => if Byte.eqb b c then by_ else [b]) <$> l).
(** [&text[..n]]: a panic when the cut is inside a character. *)
Definition slice_to (n : nat) (text : bytes) : option bytes :=
  match text !! n with
  | Some b => if is_cont b then None else Some (take n text)
  | None => if n =? length text then Some text else None
  end.
Definition failure_hint (kind text : bytes) : option (list bytes) :=
  let text := replace_byte x0a (lit " ") (trim text) in
  text ← (if 240 <? length text then cut ← slice_to 240 text; Some (cut ++ lit "...") else Some text);
  Some (if bool_decide (text = []) then [] else [lit "Recent failure hint: last failed action was " ++ kind ++ lit " with output: " ++ text]).
Definition retry_hint (r : RetryPolicy) : list bytes :=
  match r with
  | RetryNone => []
  | DiscoveryOnly => [lit "Programmatic tip: next batch must be discovery-only; emit only list_dir/read_file."]
  | SinglePatchOnly => [lit "Programmatic tip: next batch must contain exactly one apply_patch and no run_command."]
  | CorrectiveRetry => [lit "Programmatic tip: fix the previous invalid payload directly; do not default to discovery unless file contents are missing."]
  end.
Definition planner_hint_lines (reason : option bytes) (invalid_batches : N) (rs : list ExecResult) (t : ObjectiveTrendState)
    (failed_kind failed_text : option bytes) : option (list bytes) :=
  retry ← retry_policy_for_planning_context reason invalid_batches rs t;
  m ← misalignment_pressure_score t;
  failure ← match failed_kind, failed_text with Some k, Some x => failure_hint k x | _, _ => Some [] end;
  Some (
    from_option (fun r => [lit "Previous invalid-plan reason: " ++ r]) [] reason ++
    retry_hint retry ++
    (if latest_graph_proof_failed rs then [lit "Programmatic tip: the last semantic edit failed graph proof; refresh compiler context and do not repeat the same symbolic edit unchanged."] else []) ++
    (if (2 <=? semantic_no_progress_streak rs)%N then [lit "Programmatic tip: repeated no-progress batches indicate a stalled repair loop; change approach or refresh context before retrying."] else []) ++
    (if (invalid_plan_rate t >?f f32_lit 5 10) && (3 <=? ot_planning_attempts t)%N then [lit "Programmatic tip: invalid-plan rate is high; simplify the next batch and avoid mixing multiple repair strategies."] else []) ++
    (if (0 <? m)%N then [lit "Programmatic tip: contradiction events indicate goal/route drift; explicitly realign the next batch with the active repair objective."] else []) ++
    from_option (fun r => [lit "Recent execution semantics: " ++ exec_line r]) [] (last rs) ++
    failure).

Definition semantic_planner_hint_lines (failure_class failure_scope : option string) : list bytes :=
  (match failure_class with
   | Some c => if String.eqb c "no_actionable_failure" then [lit "Programmatic tip: typed failure_class=no_actionable_failure; do not emit repair actions. Refresh observation instead."] else []
   | None => []
   end) ++
  (match failure_scope with
   | Some s =>
       if String.eqb s "localized" then [lit "Programmatic tip: typed failure_scope=localized; prefer semantic/file repair on the targeted source paths. Avoid workspace-wide bootstrap or config changes unless fresh observation proves drift."]
       else if one_of s ["workspace"; "tooling"] then [lit "Programmatic tip: typed failure_scope=workspace/tooling; prefer observe, bootstrap, config, or tool-level repair. Avoid localized semantic/file edits as the first batch."]
       else []
   | None => []
   end).

(** ** What they decide *)

(** The text of a successful [cargo test] run says how many tests failed, so
    it is classified as a failure. *)
Example passing_tests_are_a_failure :
  classify_action_outcome "run_command" true (lit "test result: ok. 5 passed; 0 failed") [] = SemanticFailure.
Proof. reflexivity. Qed.

(** The hint for a failed action panics when byte 240 of its output is inside
    a character, and for no other output. *)
Lemma failure_hint_panics_iff kind text :
  failure_hint kind text = None <-> exists b, replace_byte x0a (lit " ") (trim text) !! 240 = Some b /\ is_cont b = true.
Proof.
  unfold failure_hint, slice_to. set (t := replace_byte _ _ _). destruct (Nat.ltb_spec 240 (length t)) as [Hl|Hl].
  - destruct (lookup_lt_is_Some_2 t 240) as [b Hb]; [lia|]. rewrite Hb. destruct (is_cont b) eqn:E; cbn [mbind option_bind]; (split; [|intros (c & [= <-] & ?)]); [by exists b|done|done|congruence].
  - cbn [mbind option_bind]. split; [done|]. intros (b & Hb & _). apply lookup_lt_Some in Hb. lia.
Qed.
Example failure_hint_panics : failure_hint (lit "run_command") (replicate 239 x61 ++ [xc3; xa9]) = None.
Proof. reflexivity. Qed.

(** when the planner must retry.  For a history of results and the trend
    recorded from it, without misalignment, a retry is demanded exactly when a
    plan batch was invalid, or the verifier's last word asked for one, or, unless
    that word cleared it, when the last two results made no progress, or the
    last one made none after an earlier stall, or its graph proof failed.  The
    kind of retry is a corrective one except for invalid batches that mixed
    discovery with edits or carried a broken patch. *)
Theorem retry_demanded_iff reason invalid rs : (lenN rs <= u32_max)%N ->
  let t := record_execution_results trend_default rs in
  exists r, retry_policy_for_planning_context reason invalid rs t = Some r /\
    (r <> RetryNone <->
      (0 < invalid)%N \/ latest_verifier_policy_requires_corrective_retry rs = true \/
      latest_verifier_policy_clears_retry rs = false /\
        ((2 <= semantic_no_progress_streak rs)%N \/ ((0 < stalls_in rs)%N /\ latest_no_semantic_progress rs = true) \/ latest_graph_proof_failed rs = true)) /\
    (r = DiscoveryOnly -> classify_invalid_plan_reason reason = MixedBatch) /\ (r = SinglePatchOnly -> classify_invalid_plan_reason reason = PatchFormat).
Proof.
  intros Hlen. cbv zeta. rewrite (trend_counts rs Hlen).
  assert (Hstreak : (0 < semantic_no_progress_streak rs)%N <-> latest_no_semantic_progress rs = true).
  { unfold latest_no_semantic_progress. destruct rs as [|x rs _] using rev_ind; [done|]. rewrite streak_snoc_result, last_snoc. destruct (er_semantic_progress x); cbn [negb]; [done|]. split; [done|lia]. }
  unfold retry_policy_for_planning_context, retry_policy_for_invalid_plan. destruct (N.eqb_spec invalid 0) as [->|Hinv].
  - rewrite bool_decide_eq_true_2 by done. cbn [negb]. destruct (latest_verifier_policy_requires_corrective_retry rs); [exists CorrectiveRetry; naive_solver|].
    destruct (latest_verifier_policy_clears_retry rs); [exists RetryNone; split_and!; [done| |done..]; split; [done|]; intros [?|[?|[? _]]]; [lia|done|done]|].
    cbn [mbind option_bind misalignment_pressure_score]. eexists. split; [reflexivity|]. cbn. destruct (N.ltb_spec 0 (stalls_in rs)), (N.ltb_spec 0 (semantic_no_progress_streak rs)); cbn [andb];
      destruct (latest_graph_proof_failed rs), (N.leb_spec 2 (semantic_no_progress_streak rs)); split_and!; try done; try (split; [naive_solver|done]); try (split; [done|]; naive_solver lia).
  - rewrite bool_decide_eq_false_2 by (by destruct (classify_invalid_plan_reason reason)). cbn [negb]. eexists. split; [reflexivity|].
    assert (0 < invalid)%N by lia. split_and!; [split; [by left|by destruct (classify_invalid_plan_reason reason)]| |]; by destruct (classify_invalid_plan_reason reason).
Qed.
Lemma retry_demanded_iff_witness :
  let rs := execution_results_for_action [] false (lit "boom") ++ execution_results_for_action [ValidateCargoCheck] true [] in
  exists r, retry_policy_for_planning_context None 0 rs (record_execution_results trend_default rs) = Some r /\ r <> RetryNone.
Proof.
  cbv zeta. edestruct (retry_demanded_iff None 0 (execution_results_for_action [] false (lit "boom") ++ execution_results_for_action [ValidateCargoCheck] true [])) as (r & Hr & Hiff & _);
    [vm_compute; discriminate|].
  exists r. split; [exact Hr|]. apply Hiff. right. right. split; [reflexivity|]. left. vm_compute. discriminate.
Defined.
