(* ===== verification/EventShape.v ===== *)
(** * The shape of event payloads ([canon-proc-macros/src/lib.rs])

    [canon_event_struct!] declares an event: a class, the kinds that may follow,
    and fields tagged as input, output or delta.  It refuses declarations
    without output, delta or (unless waived) input, and generates the three
    payload objects and the serialized struct.  [canon_event_enum!] derives the
    names of the variants. *)
From Stdlib Require Import Floats.SpecFloat Ascii.
From S2P Require Import Prelude Json Wire EventInvariants.
Import EventKind.

(** ** Serialization of field values *)

Class ToJson (V A : Type) : Type := to_value : A -> V.
Section Values.
Context {V : Type} `{Json V} `{JsonSer V}.
#[export] Instance to_value_json : ToJson V V := fun v => v.
#[export] Instance to_value_string : ToJson V string := jstr.
#[export] Instance to_value_bool : ToJson V bool := jbool.
#[export] Instance to_value_N : ToJson V N := jnum.
#[export] Instance to_value_Z : ToJson V Z := jint.
#[export] Instance to_value_float : ToJson V spec_float := jfloat.
#[export] Instance to_value_bytes : ToJson V bytes := fun b => jstr (String.string_of_list_byte b).
#[export] Instance to_value_option {A} `{ToJson V A} : ToJson V (option A) := fun o => match o with Some a => to_value a | None => jnull end.
#[export] Instance to_value_list {A} `{ToJson V A} : ToJson V (list A) | 10 := fun l => jarr (to_value <$> l).
End Values.

(** ** Fields and their slots *)

Inductive Slot : Set := Input | Output | Delta.
#[export] Instance Slot_eq_dec : EqDecision Slot.
Proof. solve_decision. Defined.

(** A field with its slots and serialized value; [fs_skip] is the field's
    [skip_serializing_if] on its value. *)
Record FieldSpec {V : Type} := MkField { fs_ident : string; fs_slots : list Slot; fs_skip : bool; fs_value : V }.
Arguments FieldSpec V : clear implicits.
Arguments MkField {V} _ _ _ _.

(** The attributes of the struct, which do not depend on a value of it. *)
Record EventStruct := MkStruct { es_name : string; es_no_input : bool; es_class : Class_; es_next : list string; es_slots : list (string * list Slot) }.

Section Shape.
Context {V : Type} `{Json V}.

(** [build_json_object] over the fields of one slot. *)
Definition has_slot (s : Slot) (f : FieldSpec V) : bool := bool_decide (s ∈ fs_slots f).
Definition build_json_object (fs : list (FieldSpec V)) : V := jobj (foldl (fun m f => <[ fs_ident f := fs_value f ]> m) ∅ fs).
Definition payload_slot (s : Slot) (fs : list (FieldSpec V)) : V := build_json_object (List.filter (has_slot s) fs).
(** The derived [Serialize]: every field that is not skipped. *)
Definition payload_data (fs : list (FieldSpec V)) : V := build_json_object (List.filter (fun f => negb (fs_skip f)) fs).
End Shape.

(** ** What the macro accepts *)

Definition slot_declared (s : Slot) (e : EventStruct) : bool := existsb (fun f => bool_decide (s ∈ f.2)) (es_slots e).
Definition parse_event_struct (e : EventStruct) : result string unit :=
  if bool_decide (es_class e = Control) && bool_decide (es_next e = []) then Err "canon_event_struct!: Control events must declare #[event(next = [..])]"
  else if bool_decide (es_class e = Effect) && negb (bool_decide (es_next e = [])) then Err "canon_event_struct!: Effect events must not declare #[event(next = [..])]"
  else Ok tt.
Definition canon_event_struct (e : EventStruct) : result string unit :=
  match parse_event_struct e with
  | Err m => Err m
  | Ok _ =>
      if negb (slot_declared Output e) then Err ("canon_event_struct!: `" +:+ es_name e +:+ "` has no #[output] fields.")
      else if negb (es_no_input e) && negb (slot_declared Input e) then Err ("canon_event_struct!: `" +:+ es_name e +:+ "` has no #[input] fields.")
      else if negb (slot_declared Delta e) then Err ("canon_event_struct!: `" +:+ es_name e +:+ "` has no #[delta] fields.")
      else Ok tt
  end.
Definition accepted (e : EventStruct) : bool := match canon_event_struct e with Ok _ => true | Err _ => false end.

(** ** Variant names *)

Definition is_upper (c : ascii) : bool := (65 <=? nat_of_ascii c) && (nat_of_ascii c <=? 90).
Definition is_lower (c : ascii) : bool := (97 <=? nat_of_ascii c) && (nat_of_ascii c <=? 122).
Definition is_digit (c : ascii) : bool := (48 <=? nat_of_ascii c) && (nat_of_ascii c <=? 57).
Definition to_lower (c : ascii) : ascii := if is_upper c then ascii_of_nat (nat_of_ascii c + 32) else c.
(** The loop of [pascal_to_snake], with the character before. *)
Fixpoint snake_from (prev : option ascii) (s : string) : string :=
  match s with
  | EmptyString => EmptyString
  | String c rest =>
      let next_lower := match rest with String d _ => is_lower d | EmptyString => false end in
      let tail := String (to_lower c) (snake_from (Some c) rest) in
      match prev with
      | Some p => if is_upper c && (is_lower p || is_digit p || next_lower) then String "_"%char tail else tail
      | None => tail
      end
  end.
Definition pascal_to_snake (s : string) : string := snake_from None s.

(** ** Declared payloads pass the writer's checks *)

(** The fields of a value carry the idents and slots of the declaration. *)
Definition follows {V} (e : EventStruct) (fs : list (FieldSpec V)) : Prop := (fun f => (fs_ident f, fs_slots f)) <$> fs = es_slots e.

Section Laws.
Context {V : Type} `{Json V} `{!JsonLaws V}.

Lemma build_nonempty (fs : list (FieldSpec V)) : fs <> [] -> exists m, build_json_object fs = jobj m /\ m <> ∅.
Proof.
  intros Hne. unfold build_json_object. eexists. split; [reflexivity|].
  destruct fs as [|f fs _] using rev_ind; [done|]. rewrite foldl_app. cbn [foldl]. apply insert_non_empty.
Qed.

Lemma slot_nonempty s e (fs : list (FieldSpec V)) : follows e fs -> slot_declared s e = true -> List.filter (has_slot s) fs <> [].
Proof.
  unfold follows, slot_declared. intros <- Hs. apply existsb_exists in Hs as ([n sl] & Hin & Hs). apply list_elem_of_In, list_elem_of_fmap in Hin as (f & [= -> ->] & Hf).
  intros E. apply list_elem_of_In in Hf. assert (Hin : In f (List.filter (has_slot s) fs)) by (by apply filter_In). by rewrite E in Hin.
Qed.

(** The payload of an accepted declaration has non-null input, output and
    delta, and its delta is not empty. *)
Lemma accepted_slots e (fs : list (FieldSpec V)) : accepted e = true -> follows e fs ->
  (forall s, json_is_null (payload_slot s fs) = false) /\ is_zero_delta (payload_slot Delta fs) = false.
Proof.
  unfold accepted, canon_event_struct. intros Ha Hf. split; [intros s; apply json_is_null_jobj|].
  destruct (parse_event_struct e); [|done]. destruct (slot_declared Output e), (es_no_input e), (slot_declared Input e), (slot_declared Delta e) eqn:Hd; try done;
    (destruct (build_nonempty _ (slot_nonempty Delta e fs Hf Hd)) as (m & Hm & Hne); unfold payload_slot, is_zero_delta; rewrite Hm, view_jobj; by apply bool_decide_eq_false_2).
Qed.
End Laws.
