(* ===== verification/KernelTypes.v ===== *)
(** * Compiler events and compiler state ([canon-types/src/kernel_types.rs])

    The events the compiler driver reports, with all their fields, the numbered
    delta that carries one, and the state the runtime keeps of the code. *)
From Stdlib Require Import Floats.SpecFloat.
From S2P Require Import Prelude Json Wire EventShape.
Import EventKind.

Module PanicSymbol.
Record t := mk {
  symbol : string;
  file : option string;
  line : option N
}.
Definition spec : EventStruct := MkStruct "PanicSymbol" false Effect []
  [("symbol", [Input]); ("file", [Delta; Output]); ("line", [])].
Definition fields {V} `{Json V} `{JsonSer V} (x : t) : list (FieldSpec V) :=
  [ MkField "symbol" [Input] false (to_value (symbol x));
    MkField "file" [Delta; Output] false (to_value (file x));
    MkField "line" [] false (to_value (line x)) ].
#[global] Instance to_json {V} `{Json V} `{JsonSer V} : ToJson V t := fun x => payload_data (fields x).
End PanicSymbol.

Module PanicFrame.
Record t := mk {
  frame_index : N;
  symbols : list PanicSymbol.t
}.
Definition spec : EventStruct := MkStruct "PanicFrame" false Effect []
  [("frame_index", [Input]); ("symbols", [Delta; Output])].
Definition fields {V} `{Json V} `{JsonSer V} (x : t) : list (FieldSpec V) :=
  [ MkField "frame_index" [Input] false (to_value (frame_index x));
    MkField "symbols" [Delta; Output] false (to_value (symbols x)) ].
#[global] Instance to_json {V} `{Json V} `{JsonSer V} : ToJson V t := fun x => payload_data (fields x).
End PanicFrame.

Module SessionStart.
Record t := mk {
  project : string;
  schema : N;
  byte_offset : N
}.
Definition spec : EventStruct := MkStruct "SessionStart" false Effect []
  [("project", [Input]); ("schema", [Delta; Output]); ("byte_offset", [])].
Definition fields {V} `{Json V} `{JsonSer V} (x : t) : list (FieldSpec V) :=
  [ MkField "project" [Input] false (to_value (project x));
    MkField "schema" [Delta; Output] false (to_value (schema x));
    MkField "byte_offset" [] false (to_value (byte_offset x)) ].
#[global] Instance to_json {V} `{Json V} `{JsonSer V} : ToJson V t := fun x => payload_data (fields x).
End SessionStart.

Module NodeDefined.
Record t := mk {
  symbol : string;
  kind : string;
  file : string;
  line : N;
  col : N;
  lo : N;
  hi : N
}.
Definition spec : EventStruct := MkStruct "NodeDefined" false Effect []
  [("symbol", [Input]); ("kind", [Input]); ("file", []); ("line", []); ("col", []); ("lo", []); ("hi", [Delta; Output])].
Definition fields {V} `{Json V} `{JsonSer V} (x : t) : list (FieldSpec V) :=
  [ MkField "symbol" [Input] false (to_value (symbol x));
    MkField "kind" [Input] false (to_value (kind x));
    MkField "file" [] false (to_value (file x));
    MkField "line" [] false (to_value (line x));
    MkField "col" [] false (to_value (col x));
    MkField "lo" [] false (to_value (lo x));
    MkField "hi" [Delta; Output] false (to_value (hi x)) ].
#[global] Instance to_json {V} `{Json V} `{JsonSer V} : ToJson V t := fun x => payload_data (fields x).
End NodeDefined.

Module NodeUpdated.
Record t := mk {
  symbol : string;
  kind : string;
  file : string;
  line : N;
  col : N;
  lo : N;
  hi : N
}.
Definition spec : EventStruct := MkStruct "NodeUpdated" false Effect []
  [("symbol", [Input]); ("kind", [Input]); ("file", []); ("line", []); ("col", []); ("lo", []); ("hi", [Delta; Output])].
Definition fields {V} `{Json V} `{JsonSer V} (x : t) : list (FieldSpec V) :=
  [ MkField "symbol" [Input] false (to_value (symbol x));
    MkField "kind" [Input] false (to_value (kind x));
    MkField "file" [] false (to_value (file x));
    MkField "line" [] false (to_value (line x));
    MkField "col" [] false (to_value (col x));
    MkField "lo" [] false (to_value (lo x));
    MkField "hi" [Delta; Output] false (to_value (hi x)) ].
#[global] Instance to_json {V} `{Json V} `{JsonSer V} : ToJson V t := fun x => payload_data (fields x).
End NodeUpdated.

Module NodeRemoved.
Record t := mk {
  symbol : string;
  removed : bool
}.
Definition spec : EventStruct := MkStruct "NodeRemoved" false Effect []
  [("symbol", [Input]); ("removed", [Delta; Output])].
Definition fields {V} `{Json V} `{JsonSer V} (x : t) : list (FieldSpec V) :=
  [ MkField "symbol" [Input] false (to_value (symbol x));
    MkField "removed" [Delta; Output] false (to_value (removed x)) ].
#[global] Instance to_json {V} `{Json V} `{JsonSer V} : ToJson V t := fun x => payload_data (fields x).
End NodeRemoved.

Module EdgeDefined.
Record t := mk {
  src : string;
  dst : string;
  kind : string;
  defined : bool
}.
Definition spec : EventStruct := MkStruct "EdgeDefined" false Effect []
  [("src", [Input]); ("dst", [Input]); ("kind", [Input]); ("defined", [Delta; Output])].
Definition fields {V} `{Json V} `{JsonSer V} (x : t) : list (FieldSpec V) :=
  [ MkField "src" [Input] false (to_value (src x));
    MkField "dst" [Input] false (to_value (dst x));
    MkField "kind" [Input] false (to_value (kind x));
    MkField "defined" [Delta; Output] false (to_value (defined x)) ].
#[global] Instance to_json {V} `{Json V} `{JsonSer V} : ToJson V t := fun x => payload_data (fields x).
End EdgeDefined.

Module EdgeRemoved.
Record t := mk {
  src : string;
  dst : string;
  kind : string;
  removed : bool
}.
Definition spec : EventStruct := MkStruct "EdgeRemoved" false Effect []
  [("src", [Input]); ("dst", [Input]); ("kind", [Input]); ("removed", [Delta; Output])].
Definition fields {V} `{Json V} `{JsonSer V} (x : t) : list (FieldSpec V) :=
  [ MkField "src" [Input] false (to_value (src x));
    MkField "dst" [Input] false (to_value (dst x));
    MkField "kind" [Input] false (to_value (kind x));
    MkField "removed" [Delta; Output] false (to_value (removed x)) ].
#[global] Instance to_json {V} `{Json V} `{JsonSer V} : ToJson V t := fun x => payload_data (fields x).
End EdgeRemoved.

Module FileSeen.
Record t := mk {
  path : string;
  seen : bool
}.
Definition spec : EventStruct := MkStruct "FileSeen" false Effect []
  [("path", [Input]); ("seen", [Delta; Output])].
Definition fields {V} `{Json V} `{JsonSer V} (x : t) : list (FieldSpec V) :=
  [ MkField "path" [Input] false (to_value (path x));
    MkField "seen" [Delta; Output] false (to_value (seen x)) ].
#[global] Instance to_json {V} `{Json V} `{JsonSer V} : ToJson V t := fun x => payload_data (fields x).
End FileSeen.

Module CallsiteObserved.
Record t := mk {
  kind : string;
  resolved : bool
}.
Definition spec : EventStruct := MkStruct "CallsiteObserved" false Effect []
  [("kind", [Input]); ("resolved", [Delta; Output])].
Definition fields {V} `{Json V} `{JsonSer V} (x : t) : list (FieldSpec V) :=
  [ MkField "kind" [Input] false (to_value (kind x));
    MkField "resolved" [Delta; Output] false (to_value (resolved x)) ].
#[global] Instance to_json {V} `{Json V} `{JsonSer V} : ToJson V t := fun x => payload_data (fields x).
End CallsiteObserved.

Module SymbolDefined.
Record t := mk {
  symbol : string;
  kind : string;
  defined : bool
}.
Definition spec : EventStruct := MkStruct "SymbolDefined" false Effect []
  [("symbol", [Input]); ("kind", [Input]); ("defined", [Delta; Output])].
Definition fields {V} `{Json V} `{JsonSer V} (x : t) : list (FieldSpec V) :=
  [ MkField "symbol" [Input] false (to_value (symbol x));
    MkField "kind" [Input] false (to_value (kind x));
    MkField "defined" [Delta; Output] false (to_value (defined x)) ].
#[global] Instance to_json {V} `{Json V} `{JsonSer V} : ToJson V t := fun x => payload_data (fields x).
End SymbolDefined.

Module SpanDefined.
Record t := mk {
  symbol : string;
  file : string;
  line : N;
  col : N;
  lo : N;
  hi : N
}.
Definition spec : EventStruct := MkStruct "SpanDefined" false Effect []
  [("symbol", [Input]); ("file", []); ("line", []); ("col", []); ("lo", []); ("hi", [Delta; Output])].
Definition fields {V} `{Json V} `{JsonSer V} (x : t) : list (FieldSpec V) :=
  [ MkField "symbol" [Input] false (to_value (symbol x));
    MkField "file" [] false (to_value (file x));
    MkField "line" [] false (to_value (line x));
    MkField "col" [] false (to_value (col x));
    MkField "lo" [] false (to_value (lo x));
    MkField "hi" [Delta; Output] false (to_value (hi x)) ].
#[global] Instance to_json {V} `{Json V} `{JsonSer V} : ToJson V t := fun x => payload_data (fields x).
End SpanDefined.

Module PanicCaptured.
Record t := mk {
  def_id : string;
  message : string;
  mir_variant : option string;
  lowering_stage : option string;
  file : option string;
  span : option string;
  frames : list PanicFrame.t
}.
Definition spec : EventStruct := MkStruct "PanicCaptured" false Effect []
  [("def_id", [Input]); ("message", [Input]); ("mir_variant", []); ("lowering_stage", []); ("file", []); ("span", []); ("frames", [Delta; Output])].
Definition fields {V} `{Json V} `{JsonSer V} (x : t) : list (FieldSpec V) :=
  [ MkField "def_id" [Input] false (to_value (def_id x));
    MkField "message" [Input] false (to_value (message x));
    MkField "mir_variant" [] false (to_value (mir_variant x));
    MkField "lowering_stage" [] false (to_value (lowering_stage x));
    MkField "file" [] false (to_value (file x));
    MkField "span" [] false (to_value (span x));
    MkField "frames" [Delta; Output] false (to_value (frames x)) ].
#[global] Instance to_json {V} `{Json V} `{JsonSer V} : ToJson V t := fun x => payload_data (fields x).
End PanicCaptured.

Module WarningCaptured.
Record t := mk {
  message : string;
  captured : bool
}.
Definition spec : EventStruct := MkStruct "WarningCaptured" false Effect []
  [("message", [Input]); ("captured", [Delta; Output])].
Definition fields {V} `{Json V} `{JsonSer V} (x : t) : list (FieldSpec V) :=
  [ MkField "message" [Input] false (to_value (message x));
    MkField "captured" [Delta; Output] false (to_value (captured x)) ].
#[global] Instance to_json {V} `{Json V} `{JsonSer V} : ToJson V t := fun x => payload_data (fields x).
End WarningCaptured.

Module CompilationUnitFinished.
Record t := mk {
  crate_name : string;
  finished : bool
}.
Definition spec : EventStruct := MkStruct "CompilationUnitFinished" false Effect []
  [("crate_name", [Input]); ("finished", [Delta; Output])].
Definition fields {V} `{Json V} `{JsonSer V} (x : t) : list (FieldSpec V) :=
  [ MkField "crate_name" [Input] false (to_value (crate_name x));
    MkField "finished" [Delta; Output] false (to_value (finished x)) ].
#[global] Instance to_json {V} `{Json V} `{JsonSer V} : ToJson V t := fun x => payload_data (fields x).
End CompilationUnitFinished.

Module InvariantViolation.
Record t := mk {
  message : string;
  recorded : bool
}.
Definition spec : EventStruct := MkStruct "InvariantViolation" false Effect []
  [("message", [Input]); ("recorded", [Delta; Output])].
Definition fields {V} `{Json V} `{JsonSer V} (x : t) : list (FieldSpec V) :=
  [ MkField "message" [Input] false (to_value (message x));
    MkField "recorded" [Delta; Output] false (to_value (recorded x)) ].
#[global] Instance to_json {V} `{Json V} `{JsonSer V} : ToJson V t := fun x => payload_data (fields x).
End InvariantViolation.

Module RustcEvent.
Inductive t : Type :=
| SessionStart (p : SessionStart.t)
| NodeDefined (p : NodeDefined.t)
| NodeUpdated (p : NodeUpdated.t)
| NodeRemoved (p : NodeRemoved.t)
| EdgeDefined (p : EdgeDefined.t)
| EdgeRemoved (p : EdgeRemoved.t)
| FileSeen (p : FileSeen.t)
| CallsiteObserved (p : CallsiteObserved.t)
| SymbolDefined (p : SymbolDefined.t)
| SpanDefined (p : SpanDefined.t)
| PanicCaptured (p : PanicCaptured.t)
| WarningCaptured (p : WarningCaptured.t)
| CompilationUnitFinished (p : CompilationUnitFinished.t)
| InvariantViolation (p : InvariantViolation.t).
(** The derived [Serialize]: the variant's name over its fields. *)
#[global] Instance to_json {V} `{Json V} `{JsonSer V} : ToJson V t := fun e =>
  match e with
  | SessionStart p => jsingle "SessionStart" (to_value p)
  | NodeDefined p => jsingle "NodeDefined" (to_value p)
  | NodeUpdated p => jsingle "NodeUpdated" (to_value p)
  | NodeRemoved p => jsingle "NodeRemoved" (to_value p)
  | EdgeDefined p => jsingle "EdgeDefined" (to_value p)
  | EdgeRemoved p => jsingle "EdgeRemoved" (to_value p)
  | FileSeen p => jsingle "FileSeen" (to_value p)
  | CallsiteObserved p => jsingle "CallsiteObserved" (to_value p)
  | SymbolDefined p => jsingle "SymbolDefined" (to_value p)
  | SpanDefined p => jsingle "SpanDefined" (to_value p)
  | PanicCaptured p => jsingle "PanicCaptured" (to_value p)
  | WarningCaptured p => jsingle "WarningCaptured" (to_value p)
  | CompilationUnitFinished p => jsingle "CompilationUnitFinished" (to_value p)
  | InvariantViolation p => jsingle "InvariantViolation" (to_value p)
  end.
End RustcEvent.

Module EventDelta.
Record t := mk { id : N; tick : N; event : RustcEvent.t }.
#[global] Instance to_json {V} `{Json V} `{JsonSer V} : ToJson V t := fun d =>
  jobj {[ "id" := jnum (id d); "tick" := jnum (tick d); "event" := to_value (event d) ]}.
Definition default : t := mk 0 0 (RustcEvent.SessionStart (SessionStart.mk "" 0 0)).
End EventDelta.

(** Sets are serialized in an unspecified order, here that of their elements. *)
Module RustcState.
Record t := mk {
  tick : N; phase : string; last_event_id : N; invariant_hash : string; graph_version : N;
  known_symbols : gmap string string; known_edges : list (string * string * string); known_files : gset string;
  removed_symbols : gset string; removed_edges : list (string * string * string)
}.
Definition edge_json {V} `{Json V} (e : string * string * string) : V := jarr [jstr e.1.1; jstr e.1.2; jstr e.2].
#[global] Instance to_json {V} `{Json V} `{JsonSer V} : ToJson V t := fun s =>
  jobj {[ "tick" := jnum (tick s); "phase" := jstr (phase s); "last_event_id" := jnum (last_event_id s); "invariant_hash" := jstr (invariant_hash s);
          "graph_version" := jnum (graph_version s); "known_symbols" := jobj (jstr <$> known_symbols s); "known_edges" := jarr (edge_json <$> known_edges s);
          "known_files" := jarr (jstr <$> elements (known_files s)); "removed_symbols" := jarr (jstr <$> elements (removed_symbols s));
          "removed_edges" := jarr (edge_json <$> removed_edges s) ]}.
Definition default : t := mk 0 "" 0 "" 0 ∅ [] ∅ ∅ [].
End RustcState.
