(* ===== verification/Events.v ===== *)
(** * Runtime events ([canon-runtime-events/src/events.rs])

    Every event the runtime exchanges: one record per payload with its declared
    class, successors and slots, the families of edit, cargo, file and analysis
    events, and the sum [RuntimeEvent].  Paths and static strings are strings;
    floats are IEEE values. *)
From Stdlib Require Import Floats.SpecFloat.
From S2P Require Import Prelude Json Wire EventInvariants EventShape KernelTypes SemanticState.
Import EventKind.

(** ** Values that occur in payloads *)

#[global] Instance hint_to_json {V} `{Json V} `{JsonSer V} : ToJson V CompilerHintRecord := fun h =>
  jobj {[ "kind" := to_value (ch_kind h); "summary" := to_value (ch_summary h); "suggested_repair" := to_value (ch_suggested_repair h);
          "target_files" := to_value (ch_target_files h); "failure_scope" := to_value (ch_failure_scope h) ]}.
#[global] Instance summary_to_json {V} `{Json V} `{JsonSer V} : ToJson V SemanticStateSummary := fun s =>
  jobj (list_to_map [
    ("version"%string, to_value (ss_version s));
    ("complete"%string, to_value (ss_complete s));
    ("target_root"%string, to_value (ss_target_root s));
    ("path_exists"%string, to_value (ss_path_exists s));
    ("repo_initialized"%string, to_value (ss_repo_initialized s));
    ("cargo_project"%string, to_value (ss_cargo_project s));
    ("crate_name"%string, to_value (ss_crate_name s));
    ("entrypoint_kind"%string, to_value (ss_entrypoint_kind s));
    ("rust_file_count"%string, to_value (ss_rust_file_count s));
    ("source_files"%string, to_value (ss_source_files s));
    ("module_gaps"%string, to_value (ss_module_gaps s));
    ("planning_preconditions"%string, to_value (ss_planning_preconditions s));
    ("repair_intents"%string, to_value (ss_repair_intents s));
    ("compiler_hints"%string, to_value (ss_compiler_hints s));
    ("validation_blocked_by_preconditions"%string, to_value (ss_validation_blocked_by_preconditions s));
    ("compiler_repair_required"%string, to_value (ss_compiler_repair_required s));
    ("failure_class"%string, to_value (ss_failure_class s));
    ("failure_scope"%string, to_value (ss_failure_scope s));
    ("graph_artifact_id"%string, to_value (ss_graph_artifact_id s));
    ("graph_node_count"%string, to_value (ss_graph_node_count s));
    ("graph_edge_count"%string, to_value (ss_graph_edge_count s));
    ("graph_file_count"%string, to_value (ss_graph_file_count s));
    ("graph_call_edge_count"%string, to_value (ss_graph_call_edge_count s));
    ("graph_module_edge_count"%string, to_value (ss_graph_module_edge_count s));
    ("graph_cfg_edge_count"%string, to_value (ss_graph_cfg_edge_count s)) ]).

Record ProcessResult := MkProcess { status : Z; pr_success : bool; stdout : string; stderr : string }.
Record LlmResult {V : Type} := MkLlmResult { lr_success : bool; lr_duration_ms : N; response : V }.
Arguments LlmResult V : clear implicits.
Inductive CapabilityResult {V : Type} := Process (r : ProcessResult) | LlmOut (r : LlmResult V) | Empty.
Arguments CapabilityResult V : clear implicits.
Definition result_kind_str {V} (r : CapabilityResult V) : string :=
  match r with Process _ => "process" | LlmOut _ => "llm.call" | Empty => "empty" end.
Definition result_duration_ms {V} (r : CapabilityResult V) : option N :=
  match r with Process _ => None | LlmOut l => Some (lr_duration_ms l) | Empty => None end.
#[global] Instance result_to_json {V} `{Json V} `{JsonSer V} : ToJson V (CapabilityResult V) := fun r =>
  match r with
  | Process p => jsingle "Process" (jobj {[ "status" := jint (status p); "success" := jbool (pr_success p); "stdout" := jstr (stdout p); "stderr" := jstr (stderr p) ]})
  | LlmOut l => jsingle "Llm" (jobj {[ "success" := jbool (lr_success l); "duration_ms" := jnum (lr_duration_ms l); "response" := response l ]})
  | Empty => jstr "Empty"
  end.

(** ** Payloads *)

Module CapabilityRequested.
Record t {V : Type} := mk {
  request_id : string;
  name : string;
  args : V;
  requested : bool
}.
Arguments t V : clear implicits.
Arguments mk {V} _ _ _ _.
Definition spec : EventStruct := MkStruct "CapabilityRequested" false Effect []
  [("request_id", [Input]); ("name", [Input]); ("args", [Input]); ("requested", [Delta; Output])].
Definition fields {V} `{Json V} `{JsonSer V} (x : t V) : list (FieldSpec V) :=
  [ MkField "request_id" [Input] false (to_value (request_id x));
    MkField "name" [Input] false (to_value (name x));
    MkField "args" [Input] false (to_value (args x));
    MkField "requested" [Delta; Output] false (to_value (requested x)) ].
#[global] Instance to_json {V} `{Json V} `{JsonSer V} : ToJson V (t V) := fun x => payload_data (fields x).
End CapabilityRequested.

Module RenameSymbol.
Record t := mk {
  project : string;
  old : string;
  new : string
}.
Definition spec : EventStruct := MkStruct "RenameSymbol" false Effect []
  [("project", []); ("old", [Input]); ("new", [Delta; Output])].
Definition fields {V} `{Json V} `{JsonSer V} (x : t) : list (FieldSpec V) :=
  [ MkField "project" [] false (to_value (project x));
    MkField "old" [Input] false (to_value (old x));
    MkField "new" [Delta; Output] false (to_value (new x)) ].
#[global] Instance to_json {V} `{Json V} `{JsonSer V} : ToJson V t := fun x => payload_data (fields x).
End RenameSymbol.

Module MoveSymbol.
Record t := mk {
  project : string;
  symbol : string;
  module_ : string
}.
Definition spec : EventStruct := MkStruct "MoveSymbol" false Effect []
  [("project", []); ("symbol", [Input]); ("module", [Delta; Output])].
Definition fields {V} `{Json V} `{JsonSer V} (x : t) : list (FieldSpec V) :=
  [ MkField "project" [] false (to_value (project x));
    MkField "symbol" [Input] false (to_value (symbol x));
    MkField "module" [Delta; Output] false (to_value (module_ x)) ].
#[global] Instance to_json {V} `{Json V} `{JsonSer V} : ToJson V t := fun x => payload_data (fields x).
End MoveSymbol.

Module DeleteSymbol.
Record t := mk {
  project : string;
  symbol : string;
  success : bool
}.
Definition spec : EventStruct := MkStruct "DeleteSymbol" false Effect []
  [("project", []); ("symbol", [Input]); ("success", [Delta; Output])].
Definition fields {V} `{Json V} `{JsonSer V} (x : t) : list (FieldSpec V) :=
  [ MkField "project" [] false (to_value (project x));
    MkField "symbol" [Input] false (to_value (symbol x));
    MkField "success" [Delta; Output] false (to_value (success x)) ].
#[global] Instance to_json {V} `{Json V} `{JsonSer V} : ToJson V t := fun x => payload_data (fields x).
End DeleteSymbol.

Module RenameModule.
Record t := mk {
  project : string;
  old : string;
  new : string
}.
Definition spec : EventStruct := MkStruct "RenameModule" false Effect []
  [("project", []); ("old", [Input]); ("new", [Delta; Output])].
Definition fields {V} `{Json V} `{JsonSer V} (x : t) : list (FieldSpec V) :=
  [ MkField "project" [] false (to_value (project x));
    MkField "old" [Input] false (to_value (old x));
    MkField "new" [Delta; Output] false (to_value (new x)) ].
#[global] Instance to_json {V} `{Json V} `{JsonSer V} : ToJson V t := fun x => payload_data (fields x).
End RenameModule.

Module RenameDir.
Record t := mk {
  project : string;
  old : string;
  new : string
}.
Definition spec : EventStruct := MkStruct "RenameDir" false Effect []
  [("project", []); ("old", [Input]); ("new", [Delta; Output])].
Definition fields {V} `{Json V} `{JsonSer V} (x : t) : list (FieldSpec V) :=
  [ MkField "project" [] false (to_value (project x));
    MkField "old" [Input] false (to_value (old x));
    MkField "new" [Delta; Output] false (to_value (new x)) ].
#[global] Instance to_json {V} `{Json V} `{JsonSer V} : ToJson V t := fun x => payload_data (fields x).
End RenameDir.

Module InlineModule.
Record t := mk {
  project : string;
  module_ : string;
  success : bool
}.
Definition spec : EventStruct := MkStruct "InlineModule" false Effect []
  [("project", []); ("module", [Input]); ("success", [Delta; Output])].
Definition fields {V} `{Json V} `{JsonSer V} (x : t) : list (FieldSpec V) :=
  [ MkField "project" [] false (to_value (project x));
    MkField "module" [Input] false (to_value (module_ x));
    MkField "success" [Delta; Output] false (to_value (success x)) ].
#[global] Instance to_json {V} `{Json V} `{JsonSer V} : ToJson V t := fun x => payload_data (fields x).
End InlineModule.

Module ExtractModule.
Record t := mk {
  project : string;
  symbol : string;
  module_ : string
}.
Definition spec : EventStruct := MkStruct "ExtractModule" false Effect []
  [("project", []); ("symbol", [Input]); ("module", [Delta; Output])].
Definition fields {V} `{Json V} `{JsonSer V} (x : t) : list (FieldSpec V) :=
  [ MkField "project" [] false (to_value (project x));
    MkField "symbol" [Input] false (to_value (symbol x));
    MkField "module" [Delta; Output] false (to_value (module_ x)) ].
#[global] Instance to_json {V} `{Json V} `{JsonSer V} : ToJson V t := fun x => payload_data (fields x).
End ExtractModule.

Module DebugEvent.
Record t {V : Type} := mk {
  source : string;
  kind : string;
  payload : V
}.
Arguments t V : clear implicits.
Arguments mk {V} _ _ _.
Definition spec : EventStruct := MkStruct "DebugEvent" false Effect []
  [("source", [Input]); ("kind", [Input]); ("payload", [Delta; Output])].
Definition fields {V} `{Json V} `{JsonSer V} (x : t V) : list (FieldSpec V) :=
  [ MkField "source" [Input] false (to_value (source x));
    MkField "kind" [Input] false (to_value (kind x));
    MkField "payload" [Delta; Output] false (to_value (payload x)) ].
#[global] Instance to_json {V} `{Json V} `{JsonSer V} : ToJson V (t V) := fun x => payload_data (fields x).
End DebugEvent.

Module ErrorOccurred.
Record t {V : Type} := mk {
  kind : string;
  source : string;
  message : string;
  severity : string;
  context : V;
  trace_id : option string;
  error_id : option string;
  captured : bool
}.
Arguments t V : clear implicits.
Arguments mk {V} _ _ _ _ _ _ _ _.
Definition spec : EventStruct := MkStruct "ErrorOccurred" false Effect []
  [("kind", [Input]); ("source", [Input]); ("message", [Input]); ("severity", []); ("context", []); ("trace_id", []); ("error_id", []); ("captured", [Delta; Output])].
Definition fields {V} `{Json V} `{JsonSer V} (x : t V) : list (FieldSpec V) :=
  [ MkField "kind" [Input] false (to_value (kind x));
    MkField "source" [Input] false (to_value (source x));
    MkField "message" [Input] false (to_value (message x));
    MkField "severity" [] false (to_value (severity x));
    MkField "context" [] false (to_value (context x));
    MkField "trace_id" [] false (to_value (trace_id x));
    MkField "error_id" [] false (to_value (error_id x));
    MkField "captured" [Delta; Output] false (to_value (captured x)) ].
#[global] Instance to_json {V} `{Json V} `{JsonSer V} : ToJson V (t V) := fun x => payload_data (fields x).
End ErrorOccurred.

Module Tick.
Record t := mk {
  tick : N;
  emitted : bool
}.
Definition spec : EventStruct := MkStruct "Tick" false Effect []
  [("tick", [Input]); ("emitted", [Delta; Output])].
Definition fields {V} `{Json V} `{JsonSer V} (x : t) : list (FieldSpec V) :=
  [ MkField "tick" [Input] false (to_value (tick x));
    MkField "emitted" [Delta; Output] false (to_value (emitted x)) ].
#[global] Instance to_json {V} `{Json V} `{JsonSer V} : ToJson V t := fun x => payload_data (fields x).
End Tick.

Module LoopObserved.
Record t {V : Type} := mk {
  tick : N;
  error_count : N;
  warning_count : N;
  compiler_errors : list V;
  goal_text : option string;
  semantic_summary : SemanticStateSummary;
  observe_diagnostics : list string
}.
Arguments t V : clear implicits.
Arguments mk {V} _ _ _ _ _ _ _.
Definition spec : EventStruct := MkStruct "LoopObserved" false Control ["RouteSelected"]
  [("tick", [Input]); ("error_count", [Output]); ("warning_count", [Output]); ("compiler_errors", [Delta]); ("goal_text", [Input]); ("semantic_summary", []); ("observe_diagnostics", [])].
Definition fields {V} `{Json V} `{JsonSer V} (x : t V) : list (FieldSpec V) :=
  [ MkField "tick" [Input] false (to_value (tick x));
    MkField "error_count" [Output] false (to_value (error_count x));
    MkField "warning_count" [Output] false (to_value (warning_count x));
    MkField "compiler_errors" [Delta] false (to_value (compiler_errors x));
    MkField "goal_text" [Input] false (to_value (goal_text x));
    MkField "semantic_summary" [] false (to_value (semantic_summary x));
    MkField "observe_diagnostics" [] false (to_value (observe_diagnostics x)) ].
#[global] Instance to_json {V} `{Json V} `{JsonSer V} : ToJson V (t V) := fun x => payload_data (fields x).
End LoopObserved.

Module LoopPlanned.
Record t {V : Type} := mk {
  tick : N;
  action_kind : string;
  action_payload : V;
  reason : string;
  llm_request_id : option string;
  signals : option V;
  trace_id : option string;
  execution_id : option string;
  span_id : option string;
  parent_span_id : option string;
  plan_id : option string;
  plan_step_id : option string;
  action_id : option string;
  depends_on : list string
}.
Arguments t V : clear implicits.
Arguments mk {V} _ _ _ _ _ _ _ _ _ _ _ _ _ _.
Definition spec : EventStruct := MkStruct "LoopPlanned" false Effect []
  [("tick", [Input]); ("action_kind", [Input]); ("action_payload", [Input]); ("reason", [Output]); ("llm_request_id", []); ("signals", [Delta]); ("trace_id", []); ("execution_id", []); ("span_id", []); ("parent_span_id", []); ("plan_id", []); ("plan_step_id", []); ("action_id", []); ("depends_on", [])].
Definition fields {V} `{Json V} `{JsonSer V} (x : t V) : list (FieldSpec V) :=
  [ MkField "tick" [Input] false (to_value (tick x));
    MkField "action_kind" [Input] false (to_value (action_kind x));
    MkField "action_payload" [Input] false (to_value (action_payload x));
    MkField "reason" [Output] false (to_value (reason x));
    MkField "llm_request_id" [] false (to_value (llm_request_id x));
    MkField "signals" [Delta] false (to_value (signals x));
    MkField "trace_id" [] false (to_value (trace_id x));
    MkField "execution_id" [] false (to_value (execution_id x));
    MkField "span_id" [] false (to_value (span_id x));
    MkField "parent_span_id" [] false (to_value (parent_span_id x));
    MkField "plan_id" [] false (to_value (plan_id x));
    MkField "plan_step_id" [] false (to_value (plan_step_id x));
    MkField "action_id" [] false (to_value (action_id x));
    MkField "depends_on" [] false (to_value (depends_on x)) ].
#[global] Instance to_json {V} `{Json V} `{JsonSer V} : ToJson V (t V) := fun x => payload_data (fields x).
End LoopPlanned.

Module PlanningCompleted.
Record t := mk {
  tick : N;
  llm_request_id : option string;
  planned_count : N;
  status : string
}.
Definition spec : EventStruct := MkStruct "PlanningCompleted" false Control ["RouteSelected"]
  [("tick", [Input]); ("llm_request_id", [Input]); ("planned_count", [Delta; Output]); ("status", [Output])].
Definition fields {V} `{Json V} `{JsonSer V} (x : t) : list (FieldSpec V) :=
  [ MkField "tick" [Input] false (to_value (tick x));
    MkField "llm_request_id" [Input] false (to_value (llm_request_id x));
    MkField "planned_count" [Delta; Output] false (to_value (planned_count x));
    MkField "status" [Output] false (to_value (status x)) ].
#[global] Instance to_json {V} `{Json V} `{JsonSer V} : ToJson V t := fun x => payload_data (fields x).
End PlanningCompleted.

Module LoopActed.
Record t := mk {
  tick : N;
  action_kind : string;
  capability_request_id : string;
  tool_call_id : option string;
  tool_result_id : option string;
  stdout : string;
  stderr : string;
  exit_code : option Z;
  duration_ms : N;
  success : bool;
  trace_id : option string;
  execution_id : option string;
  span_id : option string;
  parent_span_id : option string;
  plan_id : option string;
  plan_step_id : option string;
  action_id : option string
}.
Definition spec : EventStruct := MkStruct "LoopActed" false Control ["RouteSelected"; "LoopVerified"]
  [("tick", [Input]); ("action_kind", [Input]); ("capability_request_id", [Input]); ("tool_call_id", []); ("tool_result_id", []); ("stdout", [Output]); ("stderr", [Delta]); ("exit_code", [Output]); ("duration_ms", []); ("success", [Output]); ("trace_id", []); ("execution_id", []); ("span_id", []); ("parent_span_id", []); ("plan_id", []); ("plan_step_id", []); ("action_id", [])].
Definition fields {V} `{Json V} `{JsonSer V} (x : t) : list (FieldSpec V) :=
  [ MkField "tick" [Input] false (to_value (tick x));
    MkField "action_kind" [Input] false (to_value (action_kind x));
    MkField "capability_request_id" [Input] false (to_value (capability_request_id x));
    MkField "tool_call_id" [] false (to_value (tool_call_id x));
    MkField "tool_result_id" [] false (to_value (tool_result_id x));
    MkField "stdout" [Output] false (to_value (stdout x));
    MkField "stderr" [Delta] false (to_value (stderr x));
    MkField "exit_code" [Output] false (to_value (exit_code x));
    MkField "duration_ms" [] false (to_value (duration_ms x));
    MkField "success" [Output] false (to_value (success x));
    MkField "trace_id" [] false (to_value (trace_id x));
    MkField "execution_id" [] false (to_value (execution_id x));
    MkField "span_id" [] false (to_value (span_id x));
    MkField "parent_span_id" [] false (to_value (parent_span_id x));
    MkField "plan_id" [] false (to_value (plan_id x));
    MkField "plan_step_id" [] false (to_value (plan_step_id x));
    MkField "action_id" [] false (to_value (action_id x)) ].
#[global] Instance to_json {V} `{Json V} `{JsonSer V} : ToJson V t := fun x => payload_data (fields x).
End LoopActed.

Module LoopVerified.
Record t := mk {
  tick : N;
  passed : bool;
  compiler_clean : bool;
  tlog_clean : bool;
  error_count : N;
  diagnostics : list string;
  trace_id : option string;
  execution_id : option string;
  span_id : option string;
  parent_span_id : option string
}.
Definition spec : EventStruct := MkStruct "LoopVerified" false Control ["VerifierPolicyUpdated"]
  [("tick", [Input]); ("passed", [Output]); ("compiler_clean", [Output]); ("tlog_clean", []); ("error_count", [Delta]); ("diagnostics", [Delta]); ("trace_id", []); ("execution_id", []); ("span_id", []); ("parent_span_id", [])].
Definition fields {V} `{Json V} `{JsonSer V} (x : t) : list (FieldSpec V) :=
  [ MkField "tick" [Input] false (to_value (tick x));
    MkField "passed" [Output] false (to_value (passed x));
    MkField "compiler_clean" [Output] false (to_value (compiler_clean x));
    MkField "tlog_clean" [] false (to_value (tlog_clean x));
    MkField "error_count" [Delta] false (to_value (error_count x));
    MkField "diagnostics" [Delta] false (to_value (diagnostics x));
    MkField "trace_id" [] false (to_value (trace_id x));
    MkField "execution_id" [] false (to_value (execution_id x));
    MkField "span_id" [] false (to_value (span_id x));
    MkField "parent_span_id" [] false (to_value (parent_span_id x)) ].
#[global] Instance to_json {V} `{Json V} `{JsonSer V} : ToJson V t := fun x => payload_data (fields x).
End LoopVerified.

Module VerifierPolicyUpdated.
Record t := mk {
  tick : N;
  verifier_outcome : string;
  retry_policy : string;
  reward_bias : string;
  actionable_failure : bool;
  trace_id : option string;
  execution_id : option string;
  span_id : option string;
  parent_span_id : option string
}.
Definition spec : EventStruct := MkStruct "VerifierPolicyUpdated" false Control ["LoopRewarded"]
  [("tick", [Input]); ("verifier_outcome", [Output]); ("retry_policy", [Output]); ("reward_bias", [Output]); ("actionable_failure", [Delta]); ("trace_id", []); ("execution_id", []); ("span_id", []); ("parent_span_id", [])].
Definition fields {V} `{Json V} `{JsonSer V} (x : t) : list (FieldSpec V) :=
  [ MkField "tick" [Input] false (to_value (tick x));
    MkField "verifier_outcome" [Output] false (to_value (verifier_outcome x));
    MkField "retry_policy" [Output] false (to_value (retry_policy x));
    MkField "reward_bias" [Output] false (to_value (reward_bias x));
    MkField "actionable_failure" [Delta] false (to_value (actionable_failure x));
    MkField "trace_id" [] false (to_value (trace_id x));
    MkField "execution_id" [] false (to_value (execution_id x));
    MkField "span_id" [] false (to_value (span_id x));
    MkField "parent_span_id" [] false (to_value (parent_span_id x)) ].
#[global] Instance to_json {V} `{Json V} `{JsonSer V} : ToJson V t := fun x => payload_data (fields x).
End VerifierPolicyUpdated.

Module LoopRewarded.
Record t := mk {
  tick : N;
  errors_before : N;
  errors_after : N;
  stagnant_ticks : N;
  halt : bool;
  goodness : spec_float;
  reward : spec_float;
  delta_g : spec_float;
  trace_id : option string;
  execution_id : option string;
  span_id : option string;
  parent_span_id : option string
}.
Definition spec : EventStruct := MkStruct "LoopRewarded" false Control ["RouteSelected"; "LoopObserved"]
  [("tick", [Input]); ("errors_before", [Input]); ("errors_after", [Delta]); ("stagnant_ticks", []); ("halt", [Output]); ("goodness", []); ("reward", [Output]); ("delta_g", [Delta]); ("trace_id", []); ("execution_id", []); ("span_id", []); ("parent_span_id", [])].
Definition fields {V} `{Json V} `{JsonSer V} (x : t) : list (FieldSpec V) :=
  [ MkField "tick" [Input] false (to_value (tick x));
    MkField "errors_before" [Input] false (to_value (errors_before x));
    MkField "errors_after" [Delta] false (to_value (errors_after x));
    MkField "stagnant_ticks" [] false (to_value (stagnant_ticks x));
    MkField "halt" [Output] false (to_value (halt x));
    MkField "goodness" [] false (to_value (goodness x));
    MkField "reward" [Output] false (to_value (reward x));
    MkField "delta_g" [Delta] false (to_value (delta_g x));
    MkField "trace_id" [] false (to_value (trace_id x));
    MkField "execution_id" [] false (to_value (execution_id x));
    MkField "span_id" [] false (to_value (span_id x));
    MkField "parent_span_id" [] false (to_value (parent_span_id x)) ].
#[global] Instance to_json {V} `{Json V} `{JsonSer V} : ToJson V t := fun x => payload_data (fields x).
End LoopRewarded.

Module GoodnessSnapshot.
Record t {V : Type} := mk {
  tick : N;
  g : spec_float;
  delta_g : spec_float;
  metrics : V
}.
Arguments t V : clear implicits.
Arguments mk {V} _ _ _ _.
Definition spec : EventStruct := MkStruct "GoodnessSnapshot" false Effect []
  [("tick", [Input]); ("g", [Output]); ("delta_g", [Delta]); ("metrics", [])].
Definition fields {V} `{Json V} `{JsonSer V} (x : t V) : list (FieldSpec V) :=
  [ MkField "tick" [Input] false (to_value (tick x));
    MkField "g" [Output] false (to_value (g x));
    MkField "delta_g" [Delta] false (to_value (delta_g x));
    MkField "metrics" [] false (to_value (metrics x)) ].
#[global] Instance to_json {V} `{Json V} `{JsonSer V} : ToJson V (t V) := fun x => payload_data (fields x).
End GoodnessSnapshot.

Module InvariantDiscovered.
Record t := mk {
  feature : string;
  confidence : spec_float;
  support : N
}.
Definition spec : EventStruct := MkStruct "InvariantDiscovered" false Effect []
  [("feature", [Input]); ("confidence", [Delta; Output]); ("support", [Output])].
Definition fields {V} `{Json V} `{JsonSer V} (x : t) : list (FieldSpec V) :=
  [ MkField "feature" [Input] false (to_value (feature x));
    MkField "confidence" [Delta; Output] false (to_value (confidence x));
    MkField "support" [Output] false (to_value (support x)) ].
#[global] Instance to_json {V} `{Json V} `{JsonSer V} : ToJson V t := fun x => payload_data (fields x).
End InvariantDiscovered.

Module RouteTick.
Record t := mk {
  tick : N;
  emitted : bool
}.
Definition spec : EventStruct := MkStruct "RouteTick" false Effect []
  [("tick", [Input]); ("emitted", [Delta; Output])].
Definition fields {V} `{Json V} `{JsonSer V} (x : t) : list (FieldSpec V) :=
  [ MkField "tick" [Input] false (to_value (tick x));
    MkField "emitted" [Delta; Output] false (to_value (emitted x)) ].
#[global] Instance to_json {V} `{Json V} `{JsonSer V} : ToJson V t := fun x => payload_data (fields x).
End RouteTick.

Module RouteSelected.
Record t := mk {
  tick : N;
  suggested_route : string;
  prompt : string;
  approved_route : string;
  rationale : string;
  confidence : option spec_float;
  gate_note : string;
  gate_rules_fired : list string;
  gate_changed : bool;
  gate_should_stop : bool;
  model_json : string
}.
Definition spec : EventStruct := MkStruct "RouteSelected" false Control ["LoopObserved"; "PlanningCompleted"; "LoopActed"; "LoopVerified"; "LoopRewarded"]
  [("tick", [Input]); ("suggested_route", [Input]); ("prompt", [Input]); ("approved_route", [Output]); ("rationale", [Output]); ("confidence", []); ("gate_note", []); ("gate_rules_fired", []); ("gate_changed", [Delta]); ("gate_should_stop", []); ("model_json", [])].
Definition fields {V} `{Json V} `{JsonSer V} (x : t) : list (FieldSpec V) :=
  [ MkField "tick" [Input] false (to_value (tick x));
    MkField "suggested_route" [Input] false (to_value (suggested_route x));
    MkField "prompt" [Input] false (to_value (prompt x));
    MkField "approved_route" [Output] false (to_value (approved_route x));
    MkField "rationale" [Output] false (to_value (rationale x));
    MkField "confidence" [] false (to_value (confidence x));
    MkField "gate_note" [] false (to_value (gate_note x));
    MkField "gate_rules_fired" [] false (to_value (gate_rules_fired x));
    MkField "gate_changed" [Delta] false (to_value (gate_changed x));
    MkField "gate_should_stop" [] false (to_value (gate_should_stop x));
    MkField "model_json" [] false (to_value (model_json x)) ].
#[global] Instance to_json {V} `{Json V} `{JsonSer V} : ToJson V t := fun x => payload_data (fields x).
End RouteSelected.

Module RuntimeStateUpdated.
Record t {V : Type} := mk {
  payload : V
}.
Arguments t V : clear implicits.
Arguments mk {V} _.
Definition spec : EventStruct := MkStruct "RuntimeStateUpdated" true Effect []
  [("payload", [Delta; Output])].
Definition fields {V} `{Json V} `{JsonSer V} (x : t V) : list (FieldSpec V) :=
  [ MkField "payload" [Delta; Output] false (to_value (payload x)) ].
#[global] Instance to_json {V} `{Json V} `{JsonSer V} : ToJson V (t V) := fun x => payload_data (fields x).
End RuntimeStateUpdated.

Module PolicyBaselineUpdated.
Record t {V : Type} := mk {
  payload : V
}.
Arguments t V : clear implicits.
Arguments mk {V} _.
Definition spec : EventStruct := MkStruct "PolicyBaselineUpdated" true Effect []
  [("payload", [Delta; Output])].
Definition fields {V} `{Json V} `{JsonSer V} (x : t V) : list (FieldSpec V) :=
  [ MkField "payload" [Delta; Output] false (to_value (payload x)) ].
#[global] Instance to_json {V} `{Json V} `{JsonSer V} : ToJson V (t V) := fun x => payload_data (fields x).
End PolicyBaselineUpdated.

Module GoalSelected.
Record t {V : Type} := mk {
  payload : V
}.
Arguments t V : clear implicits.
Arguments mk {V} _.
Definition spec : EventStruct := MkStruct "GoalSelected" true Effect []
  [("payload", [Delta; Output])].
Definition fields {V} `{Json V} `{JsonSer V} (x : t V) : list (FieldSpec V) :=
  [ MkField "payload" [Delta; Output] false (to_value (payload x)) ].
#[global] Instance to_json {V} `{Json V} `{JsonSer V} : ToJson V (t V) := fun x => payload_data (fields x).
End GoalSelected.

Module SystemConfigLoaded.
Record t {V : Type} := mk {
  payload : V
}.
Arguments t V : clear implicits.
Arguments mk {V} _.
Definition spec : EventStruct := MkStruct "SystemConfigLoaded" true Effect []
  [("payload", [Delta; Output])].
Definition fields {V} `{Json V} `{JsonSer V} (x : t V) : list (FieldSpec V) :=
  [ MkField "payload" [Delta; Output] false (to_value (payload x)) ].
#[global] Instance to_json {V} `{Json V} `{JsonSer V} : ToJson V (t V) := fun x => payload_data (fields x).
End SystemConfigLoaded.

Module AgentRegistered.
Record t {V : Type} := mk {
  payload : V
}.
Arguments t V : clear implicits.
Arguments mk {V} _.
Definition spec : EventStruct := MkStruct "AgentRegistered" true Effect []
  [("payload", [Delta; Output])].
Definition fields {V} `{Json V} `{JsonSer V} (x : t V) : list (FieldSpec V) :=
  [ MkField "payload" [Delta; Output] false (to_value (payload x)) ].
#[global] Instance to_json {V} `{Json V} `{JsonSer V} : ToJson V (t V) := fun x => payload_data (fields x).
End AgentRegistered.

Module PromptLoaded.
Record t {V : Type} := mk {
  payload : V
}.
Arguments t V : clear implicits.
Arguments mk {V} _.
Definition spec : EventStruct := MkStruct "PromptLoaded" true Effect []
  [("payload", [Delta; Output])].
Definition fields {V} `{Json V} `{JsonSer V} (x : t V) : list (FieldSpec V) :=
  [ MkField "payload" [Delta; Output] false (to_value (payload x)) ].
#[global] Instance to_json {V} `{Json V} `{JsonSer V} : ToJson V (t V) := fun x => payload_data (fields x).
End PromptLoaded.

Module RustcCaptureStarted.
Record t := mk {
  crate_name : string;
  capture_mode : string;
  started : bool
}.
Definition spec : EventStruct := MkStruct "RustcCaptureStarted" false Effect []
  [("crate_name", [Input]); ("capture_mode", [Input]); ("started", [Delta; Output])].
Definition fields {V} `{Json V} `{JsonSer V} (x : t) : list (FieldSpec V) :=
  [ MkField "crate_name" [Input] false (to_value (crate_name x));
    MkField "capture_mode" [Input] false (to_value (capture_mode x));
    MkField "started" [Delta; Output] false (to_value (started x)) ].
#[global] Instance to_json {V} `{Json V} `{JsonSer V} : ToJson V t := fun x => payload_data (fields x).
End RustcCaptureStarted.

Module RustcGraphArtifactWritten.
Record t := mk {
  crate_name : string;
  artifact_id : string;
  artifact_path : string;
  artifact_written : bool;
  artifact_id_out : string;
  file_count : N;
  node_count : N;
  edge_count : N;
  call_edge_count : N;
  module_edge_count : N;
  cfg_edge_count : N
}.
Definition spec : EventStruct := MkStruct "RustcGraphArtifactWritten" false Effect []
  [("crate_name", [Input]); ("artifact_id", [Input]); ("artifact_path", [Input]); ("artifact_written", [Delta; Output]); ("artifact_id_out", [Output]); ("file_count", [Output]); ("node_count", [Output]); ("edge_count", [Output]); ("call_edge_count", [Output]); ("module_edge_count", [Output]); ("cfg_edge_count", [Output])].
Definition fields {V} `{Json V} `{JsonSer V} (x : t) : list (FieldSpec V) :=
  [ MkField "crate_name" [Input] false (to_value (crate_name x));
    MkField "artifact_id" [Input] false (to_value (artifact_id x));
    MkField "artifact_path" [Input] false (to_value (artifact_path x));
    MkField "artifact_written" [Delta; Output] false (to_value (artifact_written x));
    MkField "artifact_id_out" [Output] false (to_value (artifact_id_out x));
    MkField "file_count" [Output] false (to_value (file_count x));
    MkField "node_count" [Output] false (to_value (node_count x));
    MkField "edge_count" [Output] false (to_value (edge_count x));
    MkField "call_edge_count" [Output] false (to_value (call_edge_count x));
    MkField "module_edge_count" [Output] false (to_value (module_edge_count x));
    MkField "cfg_edge_count" [Output] false (to_value (cfg_edge_count x)) ].
#[global] Instance to_json {V} `{Json V} `{JsonSer V} : ToJson V t := fun x => payload_data (fields x).
End RustcGraphArtifactWritten.

Module RustcCaptureCompleted.
Record t := mk {
  crate_name : string;
  artifact_id : string;
  completed : bool
}.
Definition spec : EventStruct := MkStruct "RustcCaptureCompleted" false Effect []
  [("crate_name", [Input]); ("artifact_id", [Input]); ("completed", [Delta; Output])].
Definition fields {V} `{Json V} `{JsonSer V} (x : t) : list (FieldSpec V) :=
  [ MkField "crate_name" [Input] false (to_value (crate_name x));
    MkField "artifact_id" [Input] false (to_value (artifact_id x));
    MkField "completed" [Delta; Output] false (to_value (completed x)) ].
#[global] Instance to_json {V} `{Json V} `{JsonSer V} : ToJson V t := fun x => payload_data (fields x).
End RustcCaptureCompleted.

Module RustcCaptureFailed.
Record t := mk {
  crate_name : string;
  failed : bool;
  message : string
}.
Definition spec : EventStruct := MkStruct "RustcCaptureFailed" false Effect []
  [("crate_name", [Input]); ("failed", [Delta; Output]); ("message", [Output])].
Definition fields {V} `{Json V} `{JsonSer V} (x : t) : list (FieldSpec V) :=
  [ MkField "crate_name" [Input] false (to_value (crate_name x));
    MkField "failed" [Delta; Output] false (to_value (failed x));
    MkField "message" [Output] false (to_value (message x)) ].
#[global] Instance to_json {V} `{Json V} `{JsonSer V} : ToJson V t := fun x => payload_data (fields x).
End RustcCaptureFailed.

Module ToolCall.
Record t {V : Type} := mk {
  node_id : string;
  tool_call_id : string;
  request_id : string;
  kind : string;
  payload : V;
  accepted : bool
}.
Arguments t V : clear implicits.
Arguments mk {V} _ _ _ _ _ _.
Definition spec : EventStruct := MkStruct "ToolCall" false Effect []
  [("node_id", []); ("tool_call_id", [Input]); ("request_id", []); ("kind", [Input]); ("payload", [Input]); ("accepted", [Delta; Output])].
Definition fields {V} `{Json V} `{JsonSer V} (x : t V) : list (FieldSpec V) :=
  [ MkField "node_id" [] false (to_value (node_id x));
    MkField "tool_call_id" [Input] false (to_value (tool_call_id x));
    MkField "request_id" [] false (to_value (request_id x));
    MkField "kind" [Input] false (to_value (kind x));
    MkField "payload" [Input] false (to_value (payload x));
    MkField "accepted" [Delta; Output] false (to_value (accepted x)) ].
#[global] Instance to_json {V} `{Json V} `{JsonSer V} : ToJson V (t V) := fun x => payload_data (fields x).
End ToolCall.

Module ToolResult.
Record t {V : Type} := mk {
  node_id : string;
  tool_call_id : string;
  tool_result_id : string;
  request_id : string;
  kind : string;
  output : V;
  success : bool
}.
Arguments t V : clear implicits.
Arguments mk {V} _ _ _ _ _ _ _.
Definition spec : EventStruct := MkStruct "ToolResult" false Effect []
  [("node_id", []); ("tool_call_id", [Input]); ("tool_result_id", []); ("request_id", []); ("kind", [Input]); ("output", [Delta; Output]); ("success", [Output])].
Definition fields {V} `{Json V} `{JsonSer V} (x : t V) : list (FieldSpec V) :=
  [ MkField "node_id" [] false (to_value (node_id x));
    MkField "tool_call_id" [Input] false (to_value (tool_call_id x));
    MkField "tool_result_id" [] false (to_value (tool_result_id x));
    MkField "request_id" [] false (to_value (request_id x));
    MkField "kind" [Input] false (to_value (kind x));
    MkField "output" [Delta; Output] false (to_value (output x));
    MkField "success" [Output] false (to_value (success x)) ].
#[global] Instance to_json {V} `{Json V} `{JsonSer V} : ToJson V (t V) := fun x => payload_data (fields x).
End ToolResult.

Module ToolBatchSettled.
Record t := mk {
  tick : N;
  result_count : N;
  any_failed : bool
}.
Definition spec : EventStruct := MkStruct "ToolBatchSettled" false Effect []
  [("tick", [Input]); ("result_count", [Input]); ("any_failed", [Delta; Output])].
Definition fields {V} `{Json V} `{JsonSer V} (x : t) : list (FieldSpec V) :=
  [ MkField "tick" [Input] false (to_value (tick x));
    MkField "result_count" [Input] false (to_value (result_count x));
    MkField "any_failed" [Delta; Output] false (to_value (any_failed x)) ].
#[global] Instance to_json {V} `{Json V} `{JsonSer V} : ToJson V t := fun x => payload_data (fields x).
End ToolBatchSettled.

Module GoalNodeCreated.
Record t := mk {
  node_id : string;
  description : string;
  deps : list string;
  caps : list string;
  node_type : string;
  priority : N;
  budget : option N;
  created : bool
}.
Definition spec : EventStruct := MkStruct "GoalNodeCreated" false Effect []
  [("node_id", [Input]); ("description", [Input]); ("deps", [Input]); ("caps", [Delta]); ("node_type", []); ("priority", []); ("budget", []); ("created", [Output])].
Definition fields {V} `{Json V} `{JsonSer V} (x : t) : list (FieldSpec V) :=
  [ MkField "node_id" [Input] false (to_value (node_id x));
    MkField "description" [Input] false (to_value (description x));
    MkField "deps" [Input] false (to_value (deps x));
    MkField "caps" [Delta] false (to_value (caps x));
    MkField "node_type" [] false (to_value (node_type x));
    MkField "priority" [] false (to_value (priority x));
    MkField "budget" [] false (to_value (budget x));
    MkField "created" [Output] false (to_value (created x)) ].
#[global] Instance to_json {V} `{Json V} `{JsonSer V} : ToJson V t := fun x => payload_data (fields x).
End GoalNodeCreated.

Module GoalNodeRetracted.
Record t := mk {
  node_id : string;
  retracted : bool
}.
Definition spec : EventStruct := MkStruct "GoalNodeRetracted" false Effect []
  [("node_id", [Input]); ("retracted", [Delta; Output])].
Definition fields {V} `{Json V} `{JsonSer V} (x : t) : list (FieldSpec V) :=
  [ MkField "node_id" [Input] false (to_value (node_id x));
    MkField "retracted" [Delta; Output] false (to_value (retracted x)) ].
#[global] Instance to_json {V} `{Json V} `{JsonSer V} : ToJson V t := fun x => payload_data (fields x).
End GoalNodeRetracted.

Module GoalNodeRewritten.
Record t := mk {
  node_id : string;
  new_description : string;
  new_caps : list string
}.
Definition spec : EventStruct := MkStruct "GoalNodeRewritten" false Effect []
  [("node_id", [Input]); ("new_description", [Output]); ("new_caps", [Delta])].
Definition fields {V} `{Json V} `{JsonSer V} (x : t) : list (FieldSpec V) :=
  [ MkField "node_id" [Input] false (to_value (node_id x));
    MkField "new_description" [Output] false (to_value (new_description x));
    MkField "new_caps" [Delta] false (to_value (new_caps x)) ].
#[global] Instance to_json {V} `{Json V} `{JsonSer V} : ToJson V t := fun x => payload_data (fields x).
End GoalNodeRewritten.

Module GoalEdgeDefined.
Record t := mk {
  from_node_id : string;
  to_node_id : string;
  created : bool
}.
Definition spec : EventStruct := MkStruct "GoalEdgeDefined" false Effect []
  [("from_node_id", [Input]); ("to_node_id", [Input]); ("created", [Delta; Output])].
Definition fields {V} `{Json V} `{JsonSer V} (x : t) : list (FieldSpec V) :=
  [ MkField "from_node_id" [Input] false (to_value (from_node_id x));
    MkField "to_node_id" [Input] false (to_value (to_node_id x));
    MkField "created" [Delta; Output] false (to_value (created x)) ].
#[global] Instance to_json {V} `{Json V} `{JsonSer V} : ToJson V t := fun x => payload_data (fields x).
End GoalEdgeDefined.

Module GoalGraphCheckpointed.
Record t := mk {
  tlog_seq : N;
  checkpointed : bool
}.
Definition spec : EventStruct := MkStruct "GoalGraphCheckpointed" false Effect []
  [("tlog_seq", [Input]); ("checkpointed", [Delta; Output])].
Definition fields {V} `{Json V} `{JsonSer V} (x : t) : list (FieldSpec V) :=
  [ MkField "tlog_seq" [Input] false (to_value (tlog_seq x));
    MkField "checkpointed" [Delta; Output] false (to_value (checkpointed x)) ].
#[global] Instance to_json {V} `{Json V} `{JsonSer V} : ToJson V t := fun x => payload_data (fields x).
End GoalGraphCheckpointed.

Module CapabilityInvoked.
Record t := mk {
  capability_id : string;
  capability : string;
  node_id : string;
  invoked : bool
}.
Definition spec : EventStruct := MkStruct "CapabilityInvoked" false Effect []
  [("capability_id", [Input]); ("capability", [Input]); ("node_id", [Input]); ("invoked", [Delta; Output])].
Definition fields {V} `{Json V} `{JsonSer V} (x : t) : list (FieldSpec V) :=
  [ MkField "capability_id" [Input] false (to_value (capability_id x));
    MkField "capability" [Input] false (to_value (capability x));
    MkField "node_id" [Input] false (to_value (node_id x));
    MkField "invoked" [Delta; Output] false (to_value (invoked x)) ].
#[global] Instance to_json {V} `{Json V} `{JsonSer V} : ToJson V t := fun x => payload_data (fields x).
End CapabilityInvoked.

Module CapabilityResolved.
Record t := mk {
  capability_id : string;
  success : bool;
  duration_ms : N
}.
Definition spec : EventStruct := MkStruct "CapabilityResolved" false Effect []
  [("capability_id", [Input]); ("success", [Delta; Output]); ("duration_ms", [])].
Definition fields {V} `{Json V} `{JsonSer V} (x : t) : list (FieldSpec V) :=
  [ MkField "capability_id" [Input] false (to_value (capability_id x));
    MkField "success" [Delta; Output] false (to_value (success x));
    MkField "duration_ms" [] false (to_value (duration_ms x)) ].
#[global] Instance to_json {V} `{Json V} `{JsonSer V} : ToJson V t := fun x => payload_data (fields x).
End CapabilityResolved.

Module CargoBuild.
Record t := mk {
  request_id : string;
  crate_name : string;
  queued : bool
}.
Definition spec : EventStruct := MkStruct "CargoBuild" false Effect []
  [("request_id", [Input]); ("crate_name", [Input]); ("queued", [Delta; Output])].
Definition fields {V} `{Json V} `{JsonSer V} (x : t) : list (FieldSpec V) :=
  [ MkField "request_id" [Input] false (to_value (request_id x));
    MkField "crate_name" [Input] false (to_value (crate_name x));
    MkField "queued" [Delta; Output] false (to_value (queued x)) ].
#[global] Instance to_json {V} `{Json V} `{JsonSer V} : ToJson V t := fun x => payload_data (fields x).
End CargoBuild.

Module CargoRun.
Record t := mk {
  request_id : string;
  crate_name : string;
  bin : option string;
  args : list string;
  queued : bool
}.
Definition spec : EventStruct := MkStruct "CargoRun" false Effect []
  [("request_id", [Input]); ("crate_name", [Input]); ("bin", []); ("args", []); ("queued", [Delta; Output])].
Definition fields {V} `{Json V} `{JsonSer V} (x : t) : list (FieldSpec V) :=
  [ MkField "request_id" [Input] false (to_value (request_id x));
    MkField "crate_name" [Input] false (to_value (crate_name x));
    MkField "bin" [] false (to_value (bin x));
    MkField "args" [] false (to_value (args x));
    MkField "queued" [Delta; Output] false (to_value (queued x)) ].
#[global] Instance to_json {V} `{Json V} `{JsonSer V} : ToJson V t := fun x => payload_data (fields x).
End CargoRun.

Module CargoCheck.
Record t := mk {
  request_id : string;
  crate_name : string;
  queued : bool
}.
Definition spec : EventStruct := MkStruct "CargoCheck" false Effect []
  [("request_id", [Input]); ("crate_name", [Input]); ("queued", [Delta; Output])].
Definition fields {V} `{Json V} `{JsonSer V} (x : t) : list (FieldSpec V) :=
  [ MkField "request_id" [Input] false (to_value (request_id x));
    MkField "crate_name" [Input] false (to_value (crate_name x));
    MkField "queued" [Delta; Output] false (to_value (queued x)) ].
#[global] Instance to_json {V} `{Json V} `{JsonSer V} : ToJson V t := fun x => payload_data (fields x).
End CargoCheck.

Module FileRead.
Record t := mk {
  request_id : string;
  path : string;
  queued : bool
}.
Definition spec : EventStruct := MkStruct "FileRead" false Effect []
  [("request_id", [Input]); ("path", [Input]); ("queued", [Delta; Output])].
Definition fields {V} `{Json V} `{JsonSer V} (x : t) : list (FieldSpec V) :=
  [ MkField "request_id" [Input] false (to_value (request_id x));
    MkField "path" [Input] false (to_value (path x));
    MkField "queued" [Delta; Output] false (to_value (queued x)) ].
#[global] Instance to_json {V} `{Json V} `{JsonSer V} : ToJson V t := fun x => payload_data (fields x).
End FileRead.

Module FileWrite.
Record t := mk {
  request_id : string;
  path : string;
  content : string;
  queued : bool
}.
Definition spec : EventStruct := MkStruct "FileWrite" false Effect []
  [("request_id", [Input]); ("path", [Input]); ("content", [Input]); ("queued", [Delta; Output])].
Definition fields {V} `{Json V} `{JsonSer V} (x : t) : list (FieldSpec V) :=
  [ MkField "request_id" [Input] false (to_value (request_id x));
    MkField "path" [Input] false (to_value (path x));
    MkField "content" [Input] false (to_value (content x));
    MkField "queued" [Delta; Output] false (to_value (queued x)) ].
#[global] Instance to_json {V} `{Json V} `{JsonSer V} : ToJson V t := fun x => payload_data (fields x).
End FileWrite.

Module FilePatch.
Record t := mk {
  request_id : string;
  path : string;
  old : string;
  new : string;
  queued : bool
}.
Definition spec : EventStruct := MkStruct "FilePatch" false Effect []
  [("request_id", [Input]); ("path", [Input]); ("old", [Input]); ("new", [Delta; Output]); ("queued", [Output])].
Definition fields {V} `{Json V} `{JsonSer V} (x : t) : list (FieldSpec V) :=
  [ MkField "request_id" [Input] false (to_value (request_id x));
    MkField "path" [Input] false (to_value (path x));
    MkField "old" [Input] false (to_value (old x));
    MkField "new" [Delta; Output] false (to_value (new x));
    MkField "queued" [Output] false (to_value (queued x)) ].
#[global] Instance to_json {V} `{Json V} `{JsonSer V} : ToJson V t := fun x => payload_data (fields x).
End FilePatch.

Module BashInvoke.
Record t := mk {
  request_id : string;
  cmd : string;
  cwd : option string;
  queued : bool
}.
Definition spec : EventStruct := MkStruct "BashInvoke" false Effect []
  [("request_id", [Input]); ("cmd", [Input]); ("cwd", []); ("queued", [Delta; Output])].
Definition fields {V} `{Json V} `{JsonSer V} (x : t) : list (FieldSpec V) :=
  [ MkField "request_id" [Input] false (to_value (request_id x));
    MkField "cmd" [Input] false (to_value (cmd x));
    MkField "cwd" [] false (to_value (cwd x));
    MkField "queued" [Delta; Output] false (to_value (queued x)) ].
#[global] Instance to_json {V} `{Json V} `{JsonSer V} : ToJson V t := fun x => payload_data (fields x).
End BashInvoke.

Module LlmCall.
Record t := mk {
  request_id : string;
  prompt : string;
  role : option string;
  agent_id : option string;
  dispatched : bool;
  system : option string;
  system_prompt_id : option string;
  context_base : option string;
  context_base_id : option string;
  prompt_base_id : option string;
  prev_prompt_id : option string
}.
Definition spec : EventStruct := MkStruct "LlmCall" false Effect []
  [("request_id", [Input]); ("prompt", [Input]); ("role", []); ("agent_id", []); ("dispatched", [Delta; Output]); ("system", []); ("system_prompt_id", []); ("context_base", []); ("context_base_id", []); ("prompt_base_id", []); ("prev_prompt_id", [])].
Definition fields {V} `{Json V} `{JsonSer V} (x : t) : list (FieldSpec V) :=
  [ MkField "request_id" [Input] false (to_value (request_id x));
    MkField "prompt" [Input] false (to_value (prompt x));
    MkField "role" [] false (to_value (role x));
    MkField "agent_id" [] false (to_value (agent_id x));
    MkField "dispatched" [Delta; Output] false (to_value (dispatched x));
    MkField "system" [] (negb (bool_decide (is_Some (system x)))) (to_value (system x));
    MkField "system_prompt_id" [] (negb (bool_decide (is_Some (system_prompt_id x)))) (to_value (system_prompt_id x));
    MkField "context_base" [] (negb (bool_decide (is_Some (context_base x)))) (to_value (context_base x));
    MkField "context_base_id" [] (negb (bool_decide (is_Some (context_base_id x)))) (to_value (context_base_id x));
    MkField "prompt_base_id" [] (negb (bool_decide (is_Some (prompt_base_id x)))) (to_value (prompt_base_id x));
    MkField "prev_prompt_id" [] (negb (bool_decide (is_Some (prev_prompt_id x)))) (to_value (prev_prompt_id x)) ].
#[global] Instance to_json {V} `{Json V} `{JsonSer V} : ToJson V t := fun x => payload_data (fields x).
End LlmCall.

Module SubTaskResult.
Record t {V : Type} := mk {
  dispatch_id : string;
  agent_id : string;
  parent_request_id : string;
  success : bool;
  output : V;
  actions_taken : list string;
  error : option string
}.
Arguments t V : clear implicits.
Arguments mk {V} _ _ _ _ _ _ _.
Definition spec : EventStruct := MkStruct "SubTaskResult" false Effect []
  [("dispatch_id", [Input]); ("agent_id", [Input]); ("parent_request_id", []); ("success", [Output]); ("output", [Output]); ("actions_taken", [Delta]); ("error", [])].
Definition fields {V} `{Json V} `{JsonSer V} (x : t V) : list (FieldSpec V) :=
  [ MkField "dispatch_id" [Input] false (to_value (dispatch_id x));
    MkField "agent_id" [Input] false (to_value (agent_id x));
    MkField "parent_request_id" [] false (to_value (parent_request_id x));
    MkField "success" [Output] false (to_value (success x));
    MkField "output" [Output] false (to_value (output x));
    MkField "actions_taken" [Delta] false (to_value (actions_taken x));
    MkField "error" [] false (to_value (error x)) ].
#[global] Instance to_json {V} `{Json V} `{JsonSer V} : ToJson V (t V) := fun x => payload_data (fields x).
End SubTaskResult.

Module AnalysisRun.
Record t := mk {
  request_id : string;
  crate_name : string;
  batch_id : option string;
  queued : bool
}.
Definition spec : EventStruct := MkStruct "AnalysisRun" false Effect []
  [("request_id", [Input]); ("crate_name", [Input]); ("batch_id", []); ("queued", [Delta; Output])].
Definition fields {V} `{Json V} `{JsonSer V} (x : t) : list (FieldSpec V) :=
  [ MkField "request_id" [Input] false (to_value (request_id x));
    MkField "crate_name" [Input] false (to_value (crate_name x));
    MkField "batch_id" [] false (to_value (batch_id x));
    MkField "queued" [Delta; Output] false (to_value (queued x)) ].
#[global] Instance to_json {V} `{Json V} `{JsonSer V} : ToJson V t := fun x => payload_data (fields x).
End AnalysisRun.

Module AnalysisWorkspace.
Record t := mk {
  request_id : string;
  queued : bool
}.
Definition spec : EventStruct := MkStruct "AnalysisWorkspace" false Effect []
  [("request_id", [Input]); ("queued", [Delta; Output])].
Definition fields {V} `{Json V} `{JsonSer V} (x : t) : list (FieldSpec V) :=
  [ MkField "request_id" [Input] false (to_value (request_id x));
    MkField "queued" [Delta; Output] false (to_value (queued x)) ].
#[global] Instance to_json {V} `{Json V} `{JsonSer V} : ToJson V t := fun x => payload_data (fields x).
End AnalysisWorkspace.

Module CapabilityCompleted.
Record t {V : Type} := mk {
  request_id : string;
  capability : string;
  result : CapabilityResult V
}.
Arguments t V : clear implicits.
Arguments mk {V} _ _ _.
Definition spec : EventStruct := MkStruct "CapabilityCompleted" false Effect []
  [("request_id", [Input]); ("capability", [Input]); ("result", [Delta; Output])].
Definition fields {V} `{Json V} `{JsonSer V} (x : t V) : list (FieldSpec V) :=
  [ MkField "request_id" [Input] false (to_value (request_id x));
    MkField "capability" [Input] false (to_value (capability x));
    MkField "result" [Delta; Output] false (to_value (result x)) ].
#[global] Instance to_json {V} `{Json V} `{JsonSer V} : ToJson V (t V) := fun x => payload_data (fields x).
End CapabilityCompleted.

Module CapabilityFailed.
Record t := mk {
  request_id : string;
  capability : string;
  error : string
}.
Definition spec : EventStruct := MkStruct "CapabilityFailed" false Effect []
  [("request_id", [Input]); ("capability", [Input]); ("error", [Delta; Output])].
Definition fields {V} `{Json V} `{JsonSer V} (x : t) : list (FieldSpec V) :=
  [ MkField "request_id" [Input] false (to_value (request_id x));
    MkField "capability" [Input] false (to_value (capability x));
    MkField "error" [Delta; Output] false (to_value (error x)) ].
#[global] Instance to_json {V} `{Json V} `{JsonSer V} : ToJson V t := fun x => payload_data (fields x).
End CapabilityFailed.

Module NodeReady.
Record t := mk {
  node_id : string;
  capability : string;
  request_id : string;
  ready : bool
}.
Definition spec : EventStruct := MkStruct "NodeReady" false Effect []
  [("node_id", [Input]); ("capability", [Input]); ("request_id", []); ("ready", [Delta; Output])].
Definition fields {V} `{Json V} `{JsonSer V} (x : t) : list (FieldSpec V) :=
  [ MkField "node_id" [Input] false (to_value (node_id x));
    MkField "capability" [Input] false (to_value (capability x));
    MkField "request_id" [] false (to_value (request_id x));
    MkField "ready" [Delta; Output] false (to_value (ready x)) ].
#[global] Instance to_json {V} `{Json V} `{JsonSer V} : ToJson V t := fun x => payload_data (fields x).
End NodeReady.

Module NodeStarted.
Record t := mk {
  node_id : string;
  capability : string;
  request_id : string;
  started : bool
}.
Definition spec : EventStruct := MkStruct "NodeStarted" false Effect []
  [("node_id", [Input]); ("capability", [Input]); ("request_id", []); ("started", [Delta; Output])].
Definition fields {V} `{Json V} `{JsonSer V} (x : t) : list (FieldSpec V) :=
  [ MkField "node_id" [Input] false (to_value (node_id x));
    MkField "capability" [Input] false (to_value (capability x));
    MkField "request_id" [] false (to_value (request_id x));
    MkField "started" [Delta; Output] false (to_value (started x)) ].
#[global] Instance to_json {V} `{Json V} `{JsonSer V} : ToJson V t := fun x => payload_data (fields x).
End NodeStarted.

Module NodeCompleted.
Record t := mk {
  node_id : string;
  capability : string;
  request_id : string;
  completed : bool
}.
Definition spec : EventStruct := MkStruct "NodeCompleted" false Effect []
  [("node_id", [Input]); ("capability", [Input]); ("request_id", []); ("completed", [Delta; Output])].
Definition fields {V} `{Json V} `{JsonSer V} (x : t) : list (FieldSpec V) :=
  [ MkField "node_id" [Input] false (to_value (node_id x));
    MkField "capability" [Input] false (to_value (capability x));
    MkField "request_id" [] false (to_value (request_id x));
    MkField "completed" [Delta; Output] false (to_value (completed x)) ].
#[global] Instance to_json {V} `{Json V} `{JsonSer V} : ToJson V t := fun x => payload_data (fields x).
End NodeCompleted.

Module NodeFailed.
Record t := mk {
  node_id : string;
  capability : string;
  error : option string;
  request_id : string
}.
Definition spec : EventStruct := MkStruct "NodeFailed" false Effect []
  [("node_id", [Input]); ("capability", [Input]); ("error", [Delta; Output]); ("request_id", [])].
Definition fields {V} `{Json V} `{JsonSer V} (x : t) : list (FieldSpec V) :=
  [ MkField "node_id" [Input] false (to_value (node_id x));
    MkField "capability" [Input] false (to_value (capability x));
    MkField "error" [Delta; Output] false (to_value (error x));
    MkField "request_id" [] false (to_value (request_id x)) ].
#[global] Instance to_json {V} `{Json V} `{JsonSer V} : ToJson V t := fun x => payload_data (fields x).
End NodeFailed.

Module EditEvent.
Inductive t : Type :=
| RenameSymbol (p : RenameSymbol.t)
| MoveSymbol (p : MoveSymbol.t)
| DeleteSymbol (p : DeleteSymbol.t)
| RenameModule (p : RenameModule.t)
| RenameDir (p : RenameDir.t)
| InlineModule (p : InlineModule.t)
| ExtractModule (p : ExtractModule.t).
Definition default : t := RenameSymbol (RenameSymbol.mk "" "" "").
End EditEvent.

Module CargoEvent.
Inductive t : Type :=
| Build (p : CargoBuild.t)
| Run (p : CargoRun.t)
| Check (p : CargoCheck.t).
Definition default : t := Build (CargoBuild.mk "" "" false).
End CargoEvent.

Module FileEvent.
Inductive t : Type :=
| Read (p : FileRead.t)
| Write (p : FileWrite.t)
| Patch (p : FilePatch.t).
Definition default : t := Read (FileRead.mk "" "" false).
End FileEvent.

Module AnalysisEvent.
Inductive t : Type :=
| Run (p : AnalysisRun.t)
| Workspace (p : AnalysisWorkspace.t).
Definition default : t := Run (AnalysisRun.mk "" "" None false).
End AnalysisEvent.

(** [Code] has its payload written by hand. *)
Module Code.
Record t := mk { delta : EventDelta.t; state : RustcState.t }.
Section Shape.
Context {V : Type} `{Json V} `{JsonSer V}.
Definition payload_input (x : t) : V := jobj {[ "tick" := jnum (EventDelta.tick (delta x)); "id" := jnum (EventDelta.id (delta x)) ]}.
Definition payload_output (x : t) : V := to_value (EventDelta.event (delta x)).
Definition payload_delta (x : t) : V := jsingle "graph_version" (jnum (RustcState.graph_version (state x))).
Definition payload_data (x : t) : V := jobj {[ "delta" := to_value (delta x); "state" := to_value (state x) ]}.
End Shape.
Definition default : t := mk EventDelta.default RustcState.default.
End Code.

(** ** The sum *)

Module RuntimeEvent.
Inductive t {V : Type} : Type :=
| Code (p : Code.t)
| Debug (p : DebugEvent.t V)
| ErrorOccurred (p : ErrorOccurred.t V)
| Edit (p : EditEvent.t)
| Tick (p : Tick.t)
| LoopObserved (p : LoopObserved.t V)
| LoopPlanned (p : LoopPlanned.t V)
| PlanningCompleted (p : PlanningCompleted.t)
| LoopActed (p : LoopActed.t)
| LoopVerified (p : LoopVerified.t)
| VerifierPolicyUpdated (p : VerifierPolicyUpdated.t)
| LoopRewarded (p : LoopRewarded.t)
| GoodnessSnapshot (p : GoodnessSnapshot.t V)
| InvariantDiscovered (p : InvariantDiscovered.t)
| RouteTick (p : RouteTick.t)
| RouteSelected (p : RouteSelected.t)
| Cargo (p : CargoEvent.t)
| File (p : FileEvent.t)
| Bash (p : BashInvoke.t)
| Llm (p : LlmCall.t)
| SubTaskResult (p : SubTaskResult.t V)
| Analysis (p : AnalysisEvent.t)
| RuntimeStateUpdated (p : RuntimeStateUpdated.t V)
| NodeReady (p : NodeReady.t)
| NodeStarted (p : NodeStarted.t)
| NodeCompleted (p : NodeCompleted.t)
| NodeFailed (p : NodeFailed.t)
| CapabilityCompleted (p : CapabilityCompleted.t V)
| CapabilityFailed (p : CapabilityFailed.t)
| PolicyBaselineUpdated (p : PolicyBaselineUpdated.t V)
| GoalSelected (p : GoalSelected.t V)
| SystemConfigLoaded (p : SystemConfigLoaded.t V)
| AgentRegistered (p : AgentRegistered.t V)
| PromptLoaded (p : PromptLoaded.t V)
| RustcCaptureStarted (p : RustcCaptureStarted.t)
| RustcGraphArtifactWritten (p : RustcGraphArtifactWritten.t)
| RustcCaptureCompleted (p : RustcCaptureCompleted.t)
| RustcCaptureFailed (p : RustcCaptureFailed.t)
| ToolCall (p : ToolCall.t V)
| ToolResult (p : ToolResult.t V)
| ToolBatchSettled (p : ToolBatchSettled.t)
| GoalNodeCreated (p : GoalNodeCreated.t)
| GoalNodeRetracted (p : GoalNodeRetracted.t)
| GoalNodeRewritten (p : GoalNodeRewritten.t)
| GoalEdgeDefined (p : GoalEdgeDefined.t)
| GoalGraphCheckpointed (p : GoalGraphCheckpointed.t)
| CapabilityInvoked (p : CapabilityInvoked.t)
| CapabilityResolved (p : CapabilityResolved.t)
| CapabilityRequested (p : CapabilityRequested.t V).
Arguments t V : clear implicits.

Section Kinds.
Context {V : Type}.
(** The name of the variant, from which [canon_event_enum!] derives [kind_str],
    and the variant of [EventKind] of that name. *)
Definition variant (e : t V) : string :=
  match e with
  | Code _ => "Code"
  | Debug _ => "Debug"
  | ErrorOccurred _ => "ErrorOccurred"
  | Edit _ => "Edit"
  | Tick _ => "Tick"
  | LoopObserved _ => "LoopObserved"
  | LoopPlanned _ => "LoopPlanned"
  | PlanningCompleted _ => "PlanningCompleted"
  | LoopActed _ => "LoopActed"
  | LoopVerified _ => "LoopVerified"
  | VerifierPolicyUpdated _ => "VerifierPolicyUpdated"
  | LoopRewarded _ => "LoopRewarded"
  | GoodnessSnapshot _ => "GoodnessSnapshot"
  | InvariantDiscovered _ => "InvariantDiscovered"
  | RouteTick _ => "RouteTick"
  | RouteSelected _ => "RouteSelected"
  | Cargo _ => "Cargo"
  | File _ => "File"
  | Bash _ => "Bash"
  | Llm _ => "Llm"
  | SubTaskResult _ => "SubTaskResult"
  | Analysis _ => "Analysis"
  | RuntimeStateUpdated _ => "RuntimeStateUpdated"
  | NodeReady _ => "NodeReady"
  | NodeStarted _ => "NodeStarted"
  | NodeCompleted _ => "NodeCompleted"
  | NodeFailed _ => "NodeFailed"
  | CapabilityCompleted _ => "CapabilityCompleted"
  | CapabilityFailed _ => "CapabilityFailed"
  | PolicyBaselineUpdated _ => "PolicyBaselineUpdated"
  | GoalSelected _ => "GoalSelected"
  | SystemConfigLoaded _ => "SystemConfigLoaded"
  | AgentRegistered _ => "AgentRegistered"
  | PromptLoaded _ => "PromptLoaded"
  | RustcCaptureStarted _ => "RustcCaptureStarted"
  | RustcGraphArtifactWritten _ => "RustcGraphArtifactWritten"
  | RustcCaptureCompleted _ => "RustcCaptureCompleted"
  | RustcCaptureFailed _ => "RustcCaptureFailed"
  | ToolCall _ => "ToolCall"
  | ToolResult _ => "ToolResult"
  | ToolBatchSettled _ => "ToolBatchSettled"
  | GoalNodeCreated _ => "GoalNodeCreated"
  | GoalNodeRetracted _ => "GoalNodeRetracted"
  | GoalNodeRewritten _ => "GoalNodeRewritten"
  | GoalEdgeDefined _ => "GoalEdgeDefined"
  | GoalGraphCheckpointed _ => "GoalGraphCheckpointed"
  | CapabilityInvoked _ => "CapabilityInvoked"
  | CapabilityResolved _ => "CapabilityResolved"
  | CapabilityRequested _ => "CapabilityRequested"
  end.
Definition kind_str (e : t V) : string := pascal_to_snake (variant e).
Definition kind (e : t V) : EventKind :=
  match e with
  | Code _ => EventKind.Code
  | Debug _ => EventKind.Debug
  | ErrorOccurred _ => EventKind.ErrorOccurred
  | Edit _ => EventKind.Edit
  | Tick _ => EventKind.Tick
  | LoopObserved _ => EventKind.LoopObserved
  | LoopPlanned _ => EventKind.LoopPlanned
  | PlanningCompleted _ => EventKind.PlanningCompleted
  | LoopActed _ => EventKind.LoopActed
  | LoopVerified _ => EventKind.LoopVerified
  | VerifierPolicyUpdated _ => EventKind.VerifierPolicyUpdated
  | LoopRewarded _ => EventKind.LoopRewarded
  | GoodnessSnapshot _ => EventKind.GoodnessSnapshot
  | InvariantDiscovered _ => EventKind.InvariantDiscovered
  | RouteTick _ => EventKind.RouteTick
  | RouteSelected _ => EventKind.RouteSelected
  | Cargo _ => EventKind.Cargo
  | File _ => EventKind.File
  | Bash _ => EventKind.Bash
  | Llm _ => EventKind.Llm
  | SubTaskResult _ => EventKind.SubTaskResult
  | Analysis _ => EventKind.Analysis
  | RuntimeStateUpdated _ => EventKind.RuntimeStateUpdated
  | NodeReady _ => EventKind.NodeReady
  | NodeStarted _ => EventKind.NodeStarted
  | NodeCompleted _ => EventKind.NodeCompleted
  | NodeFailed _ => EventKind.NodeFailed
  | CapabilityCompleted _ => EventKind.CapabilityCompleted
  | CapabilityFailed _ => EventKind.CapabilityFailed
  | PolicyBaselineUpdated _ => EventKind.PolicyBaselineUpdated
  | GoalSelected _ => EventKind.GoalSelected
  | SystemConfigLoaded _ => EventKind.SystemConfigLoaded
  | AgentRegistered _ => EventKind.AgentRegistered
  | PromptLoaded _ => EventKind.PromptLoaded
  | RustcCaptureStarted _ => EventKind.RustcCaptureStarted
  | RustcGraphArtifactWritten _ => EventKind.RustcGraphArtifactWritten
  | RustcCaptureCompleted _ => EventKind.RustcCaptureCompleted
  | RustcCaptureFailed _ => EventKind.RustcCaptureFailed
  | ToolCall _ => EventKind.ToolCall
  | ToolResult _ => EventKind.ToolResult
  | ToolBatchSettled _ => EventKind.ToolBatchSettled
  | GoalNodeCreated _ => EventKind.GoalNodeCreated
  | GoalNodeRetracted _ => EventKind.GoalNodeRetracted
  | GoalNodeRewritten _ => EventKind.GoalNodeRewritten
  | GoalEdgeDefined _ => EventKind.GoalEdgeDefined
  | GoalGraphCheckpointed _ => EventKind.GoalGraphCheckpointed
  | CapabilityInvoked _ => EventKind.CapabilityInvoked
  | CapabilityResolved _ => EventKind.CapabilityResolved
  | CapabilityRequested _ => EventKind.CapabilityRequested
  end.

(** The hand-written table. *)
Definition event_kind_str (e : t V) : string :=
  match e with
  | LoopObserved _ => "loop_observed"
  | LoopPlanned _ => "loop_planned"
  | PlanningCompleted _ => "planning_completed"
  | LoopActed _ => "loop_acted"
  | LoopVerified _ => "loop_verified"
  | VerifierPolicyUpdated _ => "verifier_policy_updated"
  | LoopRewarded _ => "loop_rewarded"
  | GoodnessSnapshot _ => "goodness_snapshot"
  | InvariantDiscovered _ => "invariant_discovered"
  | RouteTick _ => "route_tick"
  | RouteSelected _ => "route_selected"
  | CapabilityInvoked _ => "capability_invoked"
  | CapabilityResolved _ => "capability_resolved"
  | CapabilityCompleted _ => "capability_completed"
  | CapabilityFailed _ => "capability_failed"
  | ErrorOccurred _ => "error_occurred"
  | Debug _ => "debug"
  | PromptLoaded _ => "prompt_loaded"
  | RustcCaptureStarted _ => "rustc_capture_started"
  | RustcGraphArtifactWritten _ => "rustc_graph_artifact_written"
  | RustcCaptureCompleted _ => "rustc_capture_completed"
  | RustcCaptureFailed _ => "rustc_capture_failed"
  | RuntimeStateUpdated _ => "runtime_state_updated"
  | ToolCall _ => "tool_call"
  | ToolResult _ => "tool_result"
  | ToolBatchSettled _ => "tool_batch_settled"
  | GoalNodeCreated _ => "goal_node_created"
  | GoalNodeRetracted _ => "goal_node_retracted"
  | GoalNodeRewritten _ => "goal_node_rewritten"
  | GoalEdgeDefined _ => "goal_edge_defined"
  | GoalGraphCheckpointed _ => "goal_graph_checkpointed"
  | GoalSelected _ => "goal_selected"
  | AgentRegistered _ => "agent_registered"
  | SubTaskResult _ => "sub_task_result"
  | Tick _ => "tick"
  | Code _ => "code"
  | Edit _ => "edit"
  | Llm _ => "llm"
  | Cargo _ => "cargo"
  | File _ => "file"
  | Bash _ => "bash"
  | Analysis _ => "analysis"
  | PolicyBaselineUpdated _ => "policy_baseline_updated"
  | SystemConfigLoaded _ => "system_config_loaded"
  | NodeReady _ => "node_ready"
  | NodeStarted _ => "node_started"
  | NodeCompleted _ => "node_completed"
  | NodeFailed _ => "node_failed"
  | CapabilityRequested _ => "capability_requested"
  end.
End Kinds.
End RuntimeEvent.

(** [new_error_occurred]; the identifier is a fresh one. *)
Definition new_error_occurred {V} (kind source message severity : string) (context : V) (trace_id : option string) (fresh : string) : ErrorOccurred.t V :=
  ErrorOccurred.mk kind source message severity context trace_id (Some fresh) true.

(** [canon_invariant::decision_trace_payload]. *)
Definition decision_trace_payload {V} `{Json V} (reason : string) (context : V) : V := jobj {[ "reason" := jstr reason; "context" := context ]}.

(** ** The declared contract *)

(** The declarations, by the kind of their events. *)
Definition declared : list (EventKind * EventStruct) :=
  [ (EventKind.Debug, DebugEvent.spec);
    (EventKind.ErrorOccurred, ErrorOccurred.spec);
    (EventKind.Tick, Tick.spec);
    (EventKind.LoopObserved, LoopObserved.spec);
    (EventKind.LoopPlanned, LoopPlanned.spec);
    (EventKind.PlanningCompleted, PlanningCompleted.spec);
    (EventKind.LoopActed, LoopActed.spec);
    (EventKind.LoopVerified, LoopVerified.spec);
    (EventKind.VerifierPolicyUpdated, VerifierPolicyUpdated.spec);
    (EventKind.LoopRewarded, LoopRewarded.spec);
    (EventKind.GoodnessSnapshot, GoodnessSnapshot.spec);
    (EventKind.InvariantDiscovered, InvariantDiscovered.spec);
    (EventKind.RouteTick, RouteTick.spec);
    (EventKind.RouteSelected, RouteSelected.spec);
    (EventKind.Bash, BashInvoke.spec);
    (EventKind.Llm, LlmCall.spec);
    (EventKind.SubTaskResult, SubTaskResult.spec);
    (EventKind.RuntimeStateUpdated, RuntimeStateUpdated.spec);
    (EventKind.NodeReady, NodeReady.spec);
    (EventKind.NodeStarted, NodeStarted.spec);
    (EventKind.NodeCompleted, NodeCompleted.spec);
    (EventKind.NodeFailed, NodeFailed.spec);
    (EventKind.CapabilityCompleted, CapabilityCompleted.spec);
    (EventKind.CapabilityFailed, CapabilityFailed.spec);
    (EventKind.PolicyBaselineUpdated, PolicyBaselineUpdated.spec);
    (EventKind.GoalSelected, GoalSelected.spec);
    (EventKind.SystemConfigLoaded, SystemConfigLoaded.spec);
    (EventKind.AgentRegistered, AgentRegistered.spec);
    (EventKind.PromptLoaded, PromptLoaded.spec);
    (EventKind.RustcCaptureStarted, RustcCaptureStarted.spec);
    (EventKind.RustcGraphArtifactWritten, RustcGraphArtifactWritten.spec);
    (EventKind.RustcCaptureCompleted, RustcCaptureCompleted.spec);
    (EventKind.RustcCaptureFailed, RustcCaptureFailed.spec);
    (EventKind.ToolCall, ToolCall.spec);
    (EventKind.ToolResult, ToolResult.spec);
    (EventKind.ToolBatchSettled, ToolBatchSettled.spec);
    (EventKind.GoalNodeCreated, GoalNodeCreated.spec);
    (EventKind.GoalNodeRetracted, GoalNodeRetracted.spec);
    (EventKind.GoalNodeRewritten, GoalNodeRewritten.spec);
    (EventKind.GoalEdgeDefined, GoalEdgeDefined.spec);
    (EventKind.GoalGraphCheckpointed, GoalGraphCheckpointed.spec);
    (EventKind.CapabilityInvoked, CapabilityInvoked.spec);
    (EventKind.CapabilityResolved, CapabilityResolved.spec);
    (EventKind.CapabilityRequested, CapabilityRequested.spec) ].
Definition declared_for (k : EventKind) : option EventStruct := (fun p => p.2.2) <$> list_find (fun p => p.1 = k) declared.

(** The declaration and the fields of an event whose payload is a struct. *)
Definition shape {V} `{Json V} `{JsonSer V} (e : RuntimeEvent.t V) : option (EventStruct * list (FieldSpec V)) :=
  match e with
  | RuntimeEvent.Debug p => Some (DebugEvent.spec, DebugEvent.fields p)
  | RuntimeEvent.ErrorOccurred p => Some (ErrorOccurred.spec, ErrorOccurred.fields p)
  | RuntimeEvent.Tick p => Some (Tick.spec, Tick.fields p)
  | RuntimeEvent.LoopObserved p => Some (LoopObserved.spec, LoopObserved.fields p)
  | RuntimeEvent.LoopPlanned p => Some (LoopPlanned.spec, LoopPlanned.fields p)
  | RuntimeEvent.PlanningCompleted p => Some (PlanningCompleted.spec, PlanningCompleted.fields p)
  | RuntimeEvent.LoopActed p => Some (LoopActed.spec, LoopActed.fields p)
  | RuntimeEvent.LoopVerified p => Some (LoopVerified.spec, LoopVerified.fields p)
  | RuntimeEvent.VerifierPolicyUpdated p => Some (VerifierPolicyUpdated.spec, VerifierPolicyUpdated.fields p)
  | RuntimeEvent.LoopRewarded p => Some (LoopRewarded.spec, LoopRewarded.fields p)
  | RuntimeEvent.GoodnessSnapshot p => Some (GoodnessSnapshot.spec, GoodnessSnapshot.fields p)
  | RuntimeEvent.InvariantDiscovered p => Some (InvariantDiscovered.spec, InvariantDiscovered.fields p)
  | RuntimeEvent.RouteTick p => Some (RouteTick.spec, RouteTick.fields p)
  | RuntimeEvent.RouteSelected p => Some (RouteSelected.spec, RouteSelected.fields p)
  | RuntimeEvent.Bash p => Some (BashInvoke.spec, BashInvoke.fields p)
  | RuntimeEvent.Llm p => Some (LlmCall.spec, LlmCall.fields p)
  | RuntimeEvent.SubTaskResult p => Some (SubTaskResult.spec, SubTaskResult.fields p)
  | RuntimeEvent.RuntimeStateUpdated p => Some (RuntimeStateUpdated.spec, RuntimeStateUpdated.fields p)
  | RuntimeEvent.NodeReady p => Some (NodeReady.spec, NodeReady.fields p)
  | RuntimeEvent.NodeStarted p => Some (NodeStarted.spec, NodeStarted.fields p)
  | RuntimeEvent.NodeCompleted p => Some (NodeCompleted.spec, NodeCompleted.fields p)
  | RuntimeEvent.NodeFailed p => Some (NodeFailed.spec, NodeFailed.fields p)
  | RuntimeEvent.CapabilityCompleted p => Some (CapabilityCompleted.spec, CapabilityCompleted.fields p)
  | RuntimeEvent.CapabilityFailed p => Some (CapabilityFailed.spec, CapabilityFailed.fields p)
  | RuntimeEvent.PolicyBaselineUpdated p => Some (PolicyBaselineUpdated.spec, PolicyBaselineUpdated.fields p)
  | RuntimeEvent.GoalSelected p => Some (GoalSelected.spec, GoalSelected.fields p)
  | RuntimeEvent.SystemConfigLoaded p => Some (SystemConfigLoaded.spec, SystemConfigLoaded.fields p)
  | RuntimeEvent.AgentRegistered p => Some (AgentRegistered.spec, AgentRegistered.fields p)
  | RuntimeEvent.PromptLoaded p => Some (PromptLoaded.spec, PromptLoaded.fields p)
  | RuntimeEvent.RustcCaptureStarted p => Some (RustcCaptureStarted.spec, RustcCaptureStarted.fields p)
  | RuntimeEvent.RustcGraphArtifactWritten p => Some (RustcGraphArtifactWritten.spec, RustcGraphArtifactWritten.fields p)
  | RuntimeEvent.RustcCaptureCompleted p => Some (RustcCaptureCompleted.spec, RustcCaptureCompleted.fields p)
  | RuntimeEvent.RustcCaptureFailed p => Some (RustcCaptureFailed.spec, RustcCaptureFailed.fields p)
  | RuntimeEvent.ToolCall p => Some (ToolCall.spec, ToolCall.fields p)
  | RuntimeEvent.ToolResult p => Some (ToolResult.spec, ToolResult.fields p)
  | RuntimeEvent.ToolBatchSettled p => Some (ToolBatchSettled.spec, ToolBatchSettled.fields p)
  | RuntimeEvent.GoalNodeCreated p => Some (GoalNodeCreated.spec, GoalNodeCreated.fields p)
  | RuntimeEvent.GoalNodeRetracted p => Some (GoalNodeRetracted.spec, GoalNodeRetracted.fields p)
  | RuntimeEvent.GoalNodeRewritten p => Some (GoalNodeRewritten.spec, GoalNodeRewritten.fields p)
  | RuntimeEvent.GoalEdgeDefined p => Some (GoalEdgeDefined.spec, GoalEdgeDefined.fields p)
  | RuntimeEvent.GoalGraphCheckpointed p => Some (GoalGraphCheckpointed.spec, GoalGraphCheckpointed.fields p)
  | RuntimeEvent.CapabilityInvoked p => Some (CapabilityInvoked.spec, CapabilityInvoked.fields p)
  | RuntimeEvent.CapabilityResolved p => Some (CapabilityResolved.spec, CapabilityResolved.fields p)
  | RuntimeEvent.CapabilityRequested p => Some (CapabilityRequested.spec, CapabilityRequested.fields p)
  | RuntimeEvent.Code _ | RuntimeEvent.Edit _ | RuntimeEvent.Cargo _ | RuntimeEvent.File _ | RuntimeEvent.Analysis _ => None
  end.

(** ** Masks of compiler events *)

Module EventMask.
Definition t : Type := N.
Definition NONE : t := 0%N.
Definition NODE_DEFINED : t := N.shiftl 1%N 0%N.
Definition EDGE_DEFINED : t := N.shiftl 1%N 1%N.
Definition FILE_SEEN : t := N.shiftl 1%N 2%N.
Definition NODE_UPDATED : t := N.shiftl 1%N 3%N.
Definition NODE_REMOVED : t := N.shiftl 1%N 4%N.
Definition EDGE_REMOVED : t := N.shiftl 1%N 5%N.
Definition PANIC_CAPTURED : t := N.shiftl 1%N 6%N.
Definition WARNING_CAPTURED : t := N.shiftl 1%N 7%N.
Definition SESSION_START : t := N.shiftl 1%N 8%N.
Definition COMPILATION_UNIT_FINISHED : t := N.shiftl 1%N 9%N.
Definition INVARIANT_VIOLATION : t := N.shiftl 1%N 10%N.
Definition CALLSITE_OBSERVED : t := N.shiftl 1%N 11%N.
Definition SYMBOL_DEFINED : t := N.shiftl 1%N 12%N.
Definition SPAN_DEFINED : t := N.shiftl 1%N 13%N.
Definition ALL : t :=
  foldr N.lor 0%N [NODE_DEFINED; EDGE_DEFINED; FILE_SEEN; NODE_UPDATED; NODE_REMOVED; EDGE_REMOVED; PANIC_CAPTURED; WARNING_CAPTURED; SESSION_START; COMPILATION_UNIT_FINISHED; INVARIANT_VIOLATION; CALLSITE_OBSERVED; SYMBOL_DEFINED; SPAN_DEFINED].
Definition contains (self other : t) : bool := (N.land self other =? other)%N.
Definition bitor (self rhs : t) : t := N.lor self rhs.
Definition for_event (e : RustcEvent.t) : t :=
  match e with
  | RustcEvent.NodeDefined _ => NODE_DEFINED
  | RustcEvent.NodeUpdated _ => NODE_UPDATED
  | RustcEvent.NodeRemoved _ => NODE_REMOVED
  | RustcEvent.EdgeDefined _ => EDGE_DEFINED
  | RustcEvent.EdgeRemoved _ => EDGE_REMOVED
  | RustcEvent.FileSeen _ => FILE_SEEN
  | RustcEvent.CallsiteObserved _ => CALLSITE_OBSERVED
  | RustcEvent.SymbolDefined _ => SYMBOL_DEFINED
  | RustcEvent.SpanDefined _ => SPAN_DEFINED
  | RustcEvent.PanicCaptured _ => PANIC_CAPTURED
  | RustcEvent.WarningCaptured _ => WARNING_CAPTURED
  | RustcEvent.SessionStart _ => SESSION_START
  | RustcEvent.CompilationUnitFinished _ => COMPILATION_UNIT_FINISHED
  | RustcEvent.InvariantViolation _ => INVARIANT_VIOLATION
  end.

(** A mask built with [bitor] contains an event's mask exactly when one of its
    parts does; [ALL] contains every event and [NONE] contains none. *)
Lemma mask_contains_bitor a b e : contains (bitor a b) (for_event e) = contains a (for_event e) || contains b (for_event e).
Proof.
  assert (Hbit : forall m, contains m (for_event e) = N.testbit m (N.log2 (for_event e))).
  { intros m. assert (Hp : for_event e = (2 ^ N.log2 (for_event e))%N) by (by destruct e). unfold contains. rewrite Hp at 1 2. generalize (N.log2 (for_event e)). intros n.
    destruct (N.testbit m n) eqn:Hm.
    - apply N.eqb_eq. apply N.bits_inj. intros k. rewrite N.land_spec, N.pow2_bits_eqb. destruct (N.eqb_spec n k); [subst; by rewrite Hm|apply andb_false_r].
    - apply N.eqb_neq. intros E. apply (f_equal (fun x => N.testbit x n)) in E. by rewrite N.land_spec, N.pow2_bits_true, Hm in E. }
  rewrite !Hbit. apply N.lor_spec.
Qed.
Lemma mask_all_none e : contains ALL (for_event e) = true /\ contains NONE (for_event e) = false.
Proof. by destruct e. Qed.
End EventMask.

(** ** Properties *)

Lemma shape_ok {V} `{Json V} `{JsonSer V} (e : RuntimeEvent.t V) s fs : shape e = Some (s, fs) -> accepted s = true /\ follows s fs.
Proof. destruct e; intros [= <- <-] || discriminate; split; reflexivity. Qed.

(** The three tables of names agree on every event. *)
Lemma kind_tables_agree {V} (e : RuntimeEvent.t V) :
  RuntimeEvent.event_kind_str e = EventKind.as_str (RuntimeEvent.kind e) /\ RuntimeEvent.kind_str e = EventKind.as_str (RuntimeEvent.kind e).
Proof. destruct e; split; reflexivity. Qed.

(** The declared classes and successors agree with the transition table except
    for the two ticks, declared as effects, and for the successors of
    [RouteSelected], where the declaration lacks [VerifierPolicyUpdated]. *)
Theorem declared_contract_vs_table k s : declared_for k = Some s ->
  (es_class s = class k <-> k <> Tick /\ k <> RouteTick) /\
  (pascal_to_snake <$> es_next s = as_str <$> allowed_next k <-> k <> Tick /\ k <> RouteTick /\ k <> RouteSelected).
Proof. destruct k; intros [= <-] || discriminate; vm_compute; split; (split; [try done; by intros|naive_solver]). Qed.
Lemma declared_contract_vs_table_witness : es_class RouteTick.spec <> class RouteTick.
Proof. destruct (declared_contract_vs_table RouteTick RouteTick.spec) as [H _]; [reflexivity|]. intros E. apply H in E. destruct E as [_ E]. by apply E. Defined.
