(* ===== verification/EventBus.v ===== *)
(** * The event bus and its hooks ([canon-runtime/src/bus.rs], [hooks.rs])

    Consumers and hooks are objects behind traits: a state and a method.  An
    emission puts an event, with the place it came from and its parents, on the
    runtime's queue.  A poisoned lock is a flag of the consumer; a panic is an
    error that keeps the state reached. *)
From Stdlib Require Import Floats.SpecFloat.
From stdpp Require Import pretty.
From S2P Require Import Prelude Json Wire EventShape KernelTypes SemanticState Events.

(** ** Emissions *)

Record LocatedEvent {V : Type} := MkLocated { le_event : RuntimeEvent.t V; le_file : string; le_line : N; le_parent_ids : list EventId }.
Arguments LocatedEvent V : clear implicits.
Arguments MkLocated {V} _ _ _ _.
Inductive EventFilter : Type := FilterAll | ErrorOnly | FilterCode (m : EventMask.t) | EditOnly | CapabilityOnly.
Inductive EventOutcome {V : Type} := NoOp (reason : string) | OutcomeError (ev : RuntimeEvent.t V) (file : string) (line : N).
Arguments EventOutcome V : clear implicits.

(** The channel and the flag that [RuntimeEmitterImpl] shares with the runtime:
    during replay only these kinds pass. *)
Record Emitter {V : Type} := MkEmitter { em_queue : list (LocatedEvent V); em_replay_blocked : bool }.
Arguments Emitter V : clear implicits.
Arguments MkEmitter {V} _ _.
Definition passes_replay {V} (e : RuntimeEvent.t V) : bool :=
  match e with
  | RuntimeEvent.Tick _ | RuntimeEvent.RouteTick _ | RuntimeEvent.RouteSelected _ | RuntimeEvent.LoopObserved _ | RuntimeEvent.Debug _ => true
  | _ => false
  end.
Definition emit_with_parents {V} (le : LocatedEvent V) (em : Emitter V) : Emitter V :=
  if em_replay_blocked em && negb (passes_replay (le_event le)) then em else MkEmitter (em_queue em ++ [le]) (em_replay_blocked em).

(** ** Hooks *)

Inductive HookDecision {V : Type} := Allow | Deny (reason : string) | Mutate (replacement : RuntimeEvent.t V).
Arguments HookDecision V : clear implicits.
Record PreHookReport {V : Type} := MkReport { hook_name : option string; decision : HookDecision V }.
Arguments PreHookReport V : clear implicits.
Arguments MkReport {V} _ _.
(** [on_pre] may read the monotonic clock, in nanoseconds. *)
Record PreHook {V : Type} := MkPre { pre_state : Type; pre_name : string; pre_value : pre_state; on_pre : N -> RuntimeEvent.t V -> pre_state -> pre_state * HookDecision V }.
Arguments PreHook V : clear implicits.
Arguments MkPre {V} _ _ _ _.
Record PostHook {V : Type} := MkPost { post_state : Type; post_name : string; post_value : post_state; on_post : RuntimeEvent.t V -> EventOutcome V -> post_state -> post_state }.
Arguments PostHook V : clear implicits.
Arguments MkPost {V} _ _ _ _.
Record HookChain {V : Type} := MkChain { chain_pre : list (PreHook V); chain_post : list (PostHook V) }.
Arguments HookChain V : clear implicits.
Arguments MkChain {V} _ _.

Section Hooks.
Context {V : Type}.
Definition chain_new : HookChain V := MkChain [] [].
Definition add_pre (h : PreHook V) (c : HookChain V) : HookChain V := MkChain (chain_pre c ++ [h]) (chain_post c).
Definition add_post (h : PostHook V) (c : HookChain V) : HookChain V := MkChain (chain_pre c) (chain_post c ++ [h]).
Fixpoint run_pre (now : N) (e : RuntimeEvent.t V) (hooks : list (PreHook V)) : list (PreHook V) * PreHookReport V :=
  match hooks with
  | [] => ([], MkReport None Allow)
  | MkPre T name st f :: rest =>
      let '(st, d) := f now e st in
      match d with
      | Allow => let '(rest, r) := run_pre now e rest in (MkPre T name st f :: rest, r)
      | _ => (MkPre T name st f :: rest, MkReport (Some name) d)
      end
  end.
Definition run_post (e : RuntimeEvent.t V) (o : EventOutcome V) (hooks : list (PostHook V)) : list (PostHook V) :=
  (fun h => match h with MkPost T name st f => MkPost T name (f e o st) f end) <$> hooks.
End Hooks.

(** *** The rate limit *)

Definition f64 : Type := spec_float.
Definition f64_of_N (n : N) : f64 := binary_normalize 53 1024 (Z.of_N n) 0 false.
Definition f64_add : f64 -> f64 -> f64 := SFadd 53 1024.
Definition f64_sub : f64 -> f64 -> f64 := SFsub 53 1024.
Definition f64_mul : f64 -> f64 -> f64 := SFmul 53 1024.
Definition f64_div : f64 -> f64 -> f64 := SFdiv 53 1024.
(** [f64::min], which ignores a NaN operand. *)
Definition f64_min (x y : f64) : f64 := match x, y with S754_nan, _ => y | _, S754_nan => x | _, _ => if SFltb y x then y else x end.
(** [Duration::as_secs_f64]. *)
Definition as_secs_f64 (nanos : N) : f64 := f64_add (f64_of_N (nanos / 1000000000)) (f64_div (f64_of_N (nanos mod 1000000000)) (f64_of_N 1000000000)).

Record TokenBucket := MkBucket { tokens : f64; last_refill : N; rate_per_sec : f64; burst : f64 }.
Definition bucket_new (now : N) (rate : N) : TokenBucket := let r := f64_of_N (N.max rate 1) in MkBucket r now r r.
Definition bucket_allow (now : N) (b : TokenBucket) : TokenBucket * bool :=
  let elapsed := as_secs_f64 (now - last_refill b) in
  let t := f64_min (f64_add (tokens b) (f64_mul elapsed (rate_per_sec b))) (burst b) in
  if SFleb (f64_of_N 1) t then (MkBucket (f64_sub t (f64_of_N 1)) now (rate_per_sec b) (burst b), true)
  else (MkBucket t now (rate_per_sec b) (burst b), false).

Section ConcreteHooks.
Context {V : Type}.
Definition rate_limit_on_pre (max_per_sec : N) (now : N) (e : RuntimeEvent.t V) (buckets : gmap string TokenBucket) : gmap string TokenBucket * HookDecision V :=
  match e with
  | RuntimeEvent.CapabilityInvoked cap =>
      let key := CapabilityInvoked.capability cap in
      let '(b, ok) := bucket_allow now (default (bucket_new now max_per_sec) (buckets !! key)) in
      (<[ key := b ]> buckets, if ok then Allow else Deny ("rate_limit:" +:+ key))
  | _ => (buckets, Allow)
  end.
Definition capability_rate_limit : PreHook V := MkPre (gmap string TokenBucket) "capability_rate_limit" ∅ (rate_limit_on_pre 100).

(** *** The cost cap and the watchdog *)
Definition cost_cap_on_pre (max_turns : N) (now : N) (e : RuntimeEvent.t V) (used : N) : N * HookDecision V :=
  match e with
  | RuntimeEvent.Llm _ => let next := wrap64 (used + 1) in (next, if (max_turns <? next)%N then Deny "llm_cost_cap_reached" else Allow)
  | _ => (used, Allow)
  end.
Definition cost_cap : PreHook V := MkPre N "cost_cap" 0%N (cost_cap_on_pre 500).

Definition WD_THRESHOLDS : list (string * N) := [("observed", 10%N); ("planned", 15%N); ("acted", 15%N); ("verified", 20%N); ("rewarded", 25%N)]%string.
Record WatchdogState := MkWatchdog { last_stage : gmap string N; current_tick : N }.
Definition watchdog_new : WatchdogState := MkWatchdog (list_to_map ((fun s => (s.1, 0%N)) <$> WD_THRESHOLDS)) 0.
Definition mark_stage (stage : string) (s : WatchdogState) : WatchdogState := MkWatchdog (<[ stage := current_tick s ]> (last_stage s)) (current_tick s).
Definition watchdog_on_pre (now : N) (e : RuntimeEvent.t V) (s : WatchdogState) : WatchdogState * HookDecision V :=
  (match e with
   | RuntimeEvent.Tick t => MkWatchdog (last_stage s) (Tick.tick t)
   | RuntimeEvent.LoopObserved _ => mark_stage "observed" s
   | RuntimeEvent.LoopPlanned _ => mark_stage "planned" s
   | RuntimeEvent.LoopActed _ => mark_stage "acted" s
   | RuntimeEvent.LoopVerified _ => mark_stage "verified" s
   | RuntimeEvent.LoopRewarded _ => mark_stage "rewarded" s
   | _ => s
   end, Allow).
Definition watchdog_pre : PreHook V := MkPre WatchdogState "watchdog_pre" watchdog_new watchdog_on_pre.

(** The audit hook sends the debug text of the event and the outcome's kind. *)
Definition audit_log (debug_text : RuntimeEvent.t V -> string) : PostHook V :=
  MkPost (list (string * string)) "audit_log" [] (fun e o sent => sent ++ [(debug_text e, match o with NoOp _ => "noop" | OutcomeError _ _ _ => "error" end)]%string).

Definition is_protected_control_event (e : RuntimeEvent.t V) : bool :=
  match e with
  | RuntimeEvent.Tick _ | RuntimeEvent.RouteTick _ | RuntimeEvent.RouteSelected _ | RuntimeEvent.LoopObserved _ | RuntimeEvent.LoopPlanned _ | RuntimeEvent.PlanningCompleted _
  | RuntimeEvent.LoopActed _ | RuntimeEvent.LoopVerified _ | RuntimeEvent.VerifierPolicyUpdated _ | RuntimeEvent.LoopRewarded _ => true
  | _ => false
  end.
End ConcreteHooks.

(** ** The bus *)

(** [on_event] returns the new state, the outcome and what was emitted through
    the consumer's emitter meanwhile. *)
Record Consumer {V : Type} := MkConsumer {
  c_state : Type; c_name : string; c_filter : EventFilter; c_poisoned : bool; c_value : c_state;
  on_event : RuntimeEvent.t V -> EventId -> c_state -> c_state * EventOutcome V * list (LocatedEvent V)
}.
Arguments Consumer V : clear implicits.
Arguments MkConsumer {V} _ _ _ _ _ _.
(** [b_fresh] counts the identifiers and clock readings taken so far. *)
Record EventBus {V : Type} := MkBus { b_consumers : list (Consumer V); b_hooks : HookChain V; b_emitter : Emitter V; b_fresh : nat }.
Arguments EventBus V : clear implicits.
Arguments MkBus {V} _ _ _ _.

Section Bus.
Context {V : Type} `{Json V} `{JsonSer V}.
(** Fresh identifiers, the monotonic clock, and [file!()], [line!()] of the
    emissions in the source. *)
Context (uuid : nat -> string) (instant : nat -> N) (site : string -> string * N).
Implicit Types (b : EventBus V) (e : RuntimeEvent.t V) (id : EventId).

Definition with_emitter (em : Emitter V) b : EventBus V := MkBus (b_consumers b) (b_hooks b) em (b_fresh b).
Definition with_hooks (h : HookChain V) b : EventBus V := MkBus (b_consumers b) h (b_emitter b) (b_fresh b).
Definition with_consumers (cs : list (Consumer V)) b : EventBus V := MkBus cs (b_hooks b) (b_emitter b) (b_fresh b).
Definition advance b : EventBus V := MkBus (b_consumers b) (b_hooks b) (b_emitter b) (S (b_fresh b)).
Definition bus_emit (le : LocatedEvent V) b : EventBus V := with_emitter (emit_with_parents le (b_emitter b)) b.

Definition bus_new (hooks : HookChain V) : EventBus V := MkBus [] hooks (MkEmitter [] false) 0.
Definition register (c : Consumer V) b : EventBus V := with_consumers (b_consumers b ++ [c]) b.
Definition sync_consumers_len b : nat := length (b_consumers b).

(** The two reports go through the first consumer's emitter. *)
Definition emit_bus_debug (parent : EventId) (kind : string) (payload : V) b : EventBus V :=
  match b_consumers b with
  | [] => b
  | _ => let '(file, line) := site "emit_bus_debug" in bus_emit (MkLocated (RuntimeEvent.Debug (DebugEvent.mk "event_bus" kind payload)) file line [parent]) b
  end.
Definition emit_bus_error (parent : EventId) (kind message : string) (payload : V) b : EventBus V :=
  match b_consumers b with
  | [] => b
  | _ =>
      let '(file, line) := site "emit_bus_error" in
      bus_emit (MkLocated (RuntimeEvent.ErrorOccurred (new_error_occurred kind "event_bus" message "error" payload None (uuid (b_fresh b)))) file line [parent]) (advance b)
  end.

Definition outcome_kind (o : EventOutcome V) : string := match o with NoOp r => "noop:" +:+ r | OutcomeError _ _ _ => "error" end.
Definition delivered_receipt id (c : Consumer V) (o : EventOutcome V) : V :=
  jobj {[ "event_id" := jstr id; "consumer" := jstr (c_name c); "status" := jstr "delivered"; "outcome" := jstr (outcome_kind o) ]}.

(** The loop over the consumers: the bus, how many were reached and the
    receipts; a poisoned lock stops it with a panic. *)
Definition consumer_step e id (c : Consumer V) : Consumer V * EventOutcome V * list (LocatedEvent V) :=
  match c with MkConsumer T name filter poisoned st f => let '(st, o, emitted) := f e id st in (MkConsumer T name filter poisoned st f, o, emitted) end.
Definition after_event e id (o : EventOutcome V) (emitted : list (LocatedEvent V)) b : EventBus V :=
  let b := foldl (fun b le => bus_emit le b) b emitted in
  let b := with_hooks (MkChain (chain_pre (b_hooks b)) (run_post e o (chain_post (b_hooks b)))) b in
  match o with NoOp _ => b | OutcomeError ev file line => bus_emit (MkLocated ev file line [id]) b end.
Fixpoint deliver e id (attempted delivered : nat) (receipts : list V) (cs : list (Consumer V)) b : list (Consumer V) * EventBus V * result string (nat * list V) :=
  match cs with
  | [] => ([], b, Ok (delivered, receipts))
  | c :: rest =>
      if c_poisoned c then
        let kind := RuntimeEvent.event_kind_str e in
        let b := emit_bus_error id "dispatch_consumer_lock_failed" ("failed to lock consumer " +:+ c_name c +:+ " for event " +:+ kind)
          (jobj {[ "event_id" := jstr id; "event_kind" := jstr kind; "consumer" := jstr (c_name c);
                   "attempted_consumers" := jnum (N.of_nat attempted); "delivered_consumers" := jnum (N.of_nat delivered) ]}) b in
        (cs, b, Err ("dispatch_consumer_lock_failed: consumer=" +:+ c_name c +:+ " event=" +:+ kind +:+ " delivered=" +:+ pretty delivered +:+ "/" +:+ pretty attempted))
      else
        let '(c', o, emitted) := consumer_step e id c in
        let b := after_event e id o emitted b in
        let '(rest', b, r) := deliver e id attempted (S delivered) (receipts ++ [delivered_receipt id c o]) rest b in
        (c' :: rest', b, r)
  end.

Definition deliver_all e id : stateR (EventBus V) string nat := fun b =>
  let attempted := sync_consumers_len b in
  let '(cs, b, r) := deliver e id attempted 0 [] (b_consumers b) b in
  let b := with_consumers cs b in
  match r with
  | Err m => (b, Err m)
  | Ok (delivered, receipts) =>
      if delivered =? attempted then (b, Ok delivered)
      else (emit_bus_debug id "dispatch_delivery_gap"
        (jobj {[ "event_id" := jstr id; "event_kind" := jstr (RuntimeEvent.event_kind_str e); "attempted_consumers" := jnum (N.of_nat attempted);
                 "delivered_consumers" := jnum (N.of_nat delivered); "receipts" := jarr receipts ]}) b, Ok delivered)
  end.

(** What a decision other than [Allow] reports, and whether it panics. *)
Definition name_or_unknown (r : PreHookReport V) : string := default "unknown"%string (hook_name r).
Definition audit_fields id e (r : PreHookReport V) (label : string) : list (string * V) :=
  [("event_id", jstr id); ("event_kind", jstr (RuntimeEvent.event_kind_str e)); ("hook_name", to_value (hook_name r)); (label, jstr match decision r with Allow => "allow" | Deny _ => "deny" | Mutate _ => "mutate" end)]%string.
Definition decision_fields (r : PreHookReport V) : list (string * V) :=
  match decision r with
  | Allow => []
  | Deny reason => [("reason", jstr reason)]%string
  | Mutate rep => [("replacement_kind", jstr (RuntimeEvent.event_kind_str rep))]%string
  end.
Definition violates e (d : HookDecision V) : bool :=
  match d with
  | Allow => false
  | Deny _ => is_protected_control_event e
  | Mutate rep => is_protected_control_event e || is_protected_control_event rep
  end.
Definition verb (d : HookDecision V) : string * string := match d with Deny _ => ("deny", "denied") | _ => ("mutation", "mutated") end%string.

Definition dispatch e id : stateR (EventBus V) string nat := fun b =>
  let '(pre, report) := run_pre (instant (b_fresh b)) e (chain_pre (b_hooks b)) in
  let b := advance (with_hooks (MkChain pre (chain_post (b_hooks b))) b) in
  let kind := RuntimeEvent.event_kind_str e in
  match decision report with
  | Allow => deliver_all e id b
  | d =>
      let b := emit_bus_debug id "hook_pre_decision"
        (jobj (list_to_map (audit_fields id e report "decision" ++ decision_fields report ++ [("protected_control", jbool (violates e d))]%string))) b in
      if violates e d then
        let b := emit_bus_error id "hook_control_violation" ("hook " +:+ name_or_unknown report +:+ " requested " +:+ (verb d).1 +:+ " for protected control event " +:+ kind)
          (jobj (list_to_map (audit_fields id e report "requested_decision" ++ decision_fields report))) b in
        (b, Err ("protected control hook violation: hook " +:+ name_or_unknown report +:+ " " +:+ (verb d).2 +:+ " event " +:+ kind))
      else deliver_all e id b
  end.

(** ** What the bus guarantees *)

(** An emission only appends to the queue. *)
Lemma bus_emit_queue le b : exists l, em_queue (b_emitter (bus_emit le b)) = em_queue (b_emitter b) ++ l.
Proof. unfold bus_emit, emit_with_parents. destruct (_ && _); [exists []; by rewrite app_nil_r|by exists [le]]. Qed.

Definition stepped e id (c : Consumer V) : Consumer V := (consumer_step e id c).1.1.

Lemma bus_debug_consumers parent kind payload b : b_consumers (emit_bus_debug parent kind payload b) = b_consumers b.
Proof. unfold emit_bus_debug. destruct (b_consumers b) eqn:Hc; [done|]. by destruct (site _). Qed.
Lemma bus_error_consumers parent kind message payload b : b_consumers (emit_bus_error parent kind message payload b) = b_consumers b.
Proof. unfold emit_bus_error. destruct (b_consumers b) eqn:Hc; [done|]. by destruct (site _). Qed.
Lemma after_event_consumers e id o emitted b : b_consumers (after_event e id o emitted b) = b_consumers b.
Proof.
  unfold after_event. assert (Hf : forall l b, b_consumers (foldl (fun b le => bus_emit le b) b l) = b_consumers b) by (induction l; intros; cbn; [done|by rewrite IHl]).
  destruct o; cbn; apply Hf.
Qed.

Lemma deliver_healthy e id attempted cs : forall delivered receipts b, forallb (fun c => negb (c_poisoned c)) cs = true ->
  exists b', deliver e id attempted delivered receipts cs b = (stepped e id <$> cs, b', Ok (delivered + length cs, receipts ++ ((fun c => delivered_receipt id c (consumer_step e id c).1.2) <$> cs))).
Proof.
  induction cs as [|c cs IH]; intros delivered receipts b Hh; cbn [deliver forallb fmap list_fmap length] in *; [exists b; by rewrite Nat.add_0_r, app_nil_r|].
  apply andb_true_iff in Hh as [Hc Hh]. apply negb_true_iff in Hc. rewrite Hc. destruct (consumer_step e id c) as [[c' o] emitted] eqn:E.
  destruct (IH (S delivered) (receipts ++ [delivered_receipt id c o]) (after_event e id o emitted b) Hh) as (b' & ->). exists b'.
  unfold stepped at 2. rewrite E. cbn [fst snd]. by rewrite <- app_assoc, Nat.add_succ_r.
Qed.

(** every consumer receives the event itself, once and in the order of
    registration, whatever the hooks decide and whatever its filter says: a
    decision other than allow matters only for a protected control event. *)
Theorem dispatch_delivers_all e id b : forallb (fun c => negb (c_poisoned c)) (b_consumers b) = true ->
  violates e (decision (run_pre (instant (b_fresh b)) e (chain_pre (b_hooks b))).2) = false ->
  exists b', dispatch e id b = (b', Ok (length (b_consumers b))) /\ b_consumers b' = stepped e id <$> b_consumers b.
Proof.
  intros Hh Hv. assert (Hd : forall b1, b_consumers b1 = b_consumers b -> exists b', deliver_all e id b1 = (b', Ok (length (b_consumers b))) /\ b_consumers b' = stepped e id <$> b_consumers b).
  { intros b1 Hc. unfold deliver_all, sync_consumers_len. rewrite Hc. edestruct (deliver_healthy e id (length (b_consumers b)) (b_consumers b) 0 [] b1 Hh) as (b' & ->).
    cbn [Nat.add]. rewrite Nat.eqb_refl. eexists. split; reflexivity. }
  unfold dispatch. destruct (run_pre _ _ _) as [pre [name d]]. cbn [snd decision] in *. destruct d; [by apply Hd|rewrite Hv; apply Hd..]; by rewrite bus_debug_consumers.
Qed.

(** A protected control event that a hook refuses reaches nobody: the bus
    panics after reporting it. *)
Lemma protected_violation_halts e id b : violates e (decision (run_pre (instant (b_fresh b)) e (chain_pre (b_hooks b))).2) = true ->
  exists b' m, dispatch e id b = (b', Err m) /\ b_consumers b' = b_consumers b.
Proof.
  intros Hv. unfold dispatch. destruct (run_pre _ _ _) as [pre [name d]]. cbn [snd decision] in *. destruct d; [done|rewrite Hv..];
    (do 2 eexists; split; [reflexivity|]; by rewrite bus_error_consumers, bus_debug_consumers).
Qed.
End Bus.

(** The cost cap counts the model calls: the decision on the next one is a
    refusal exactly when [max_turns] were made. *)
Definition calls_made {V} (max_turns : N) (calls : list (N * LlmCall.t)) : N :=
  foldl (fun used c => (cost_cap_on_pre (V := V) max_turns c.1 (RuntimeEvent.Llm c.2) used).1) 0%N calls.
Lemma calls_made_count {V} max_turns calls : (lenN calls < u64_max)%N -> calls_made (V := V) max_turns calls = lenN calls.
Proof.
  induction calls as [|c calls IH] using rev_ind; intros Hl; [done|]. rewrite lenN_app in *. change (lenN [c]) with 1%N in *.
  unfold calls_made in *. rewrite foldl_app, IH by lia. cbn [foldl cost_cap_on_pre fst]. apply wrap64_small. unfold u64_max in Hl. lia.
Qed.
Lemma cost_cap_counts {V} max_turns calls call now : (lenN calls < u64_max)%N ->
  (cost_cap_on_pre (V := V) max_turns now (RuntimeEvent.Llm call) (calls_made (V := V) max_turns calls)).2 =
    if (max_turns <=? lenN calls)%N then Deny "llm_cost_cap_reached" else Allow.
Proof.
  intros Hl. rewrite calls_made_count by done. cbn [cost_cap_on_pre snd]. rewrite wrap64_small by (unfold u64_max in Hl; lia).
  destruct (N.ltb_spec max_turns (lenN calls + 1)), (N.leb_spec max_turns (lenN calls)); (reflexivity || lia).
Qed.

(** ** The caps do not hold *)

(** A bus whose cost cap is used up, with one consumer that counts. *)
Definition spent_cap : PreHook jval := MkPre N "cost_cap" 500%N (cost_cap_on_pre 500).
Definition counting : Consumer jval := MkConsumer nat "counter" EditOnly false 0 (fun _ _ n => (S n, NoOp "counted", [])).
Definition capped_bus : EventBus jval := register counting (bus_new (MkChain [spent_cap] [])).
Definition model_call : LlmCall.t := LlmCall.mk "r" "p" None None true None None None None None None.

(** The cap refuses the call and the call is delivered, to a consumer whose
    filter asks for edits only. *)
Lemma dispatch_delivers_all_witness :
  exists b', dispatch pretty (fun _ => 0%N) (fun l => (l, 0%N)) (RuntimeEvent.Llm model_call) "e" capped_bus = (b', Ok 1) /\
    b_consumers b' = [MkConsumer nat "counter" EditOnly false 1 (fun _ _ n => (S n, NoOp "counted", []))] /\
    (run_pre 0 (RuntimeEvent.Llm model_call) (chain_pre (b_hooks capped_bus))).2 = MkReport (Some "cost_cap") (Deny "llm_cost_cap_reached").
Proof.
  destruct (dispatch_delivers_all pretty (fun _ => 0%N) (fun l => (l, 0%N)) (RuntimeEvent.Llm model_call) "e" capped_bus) as (b' & Hd & Hc); [reflexivity..|].
  exists b'. split; [exact Hd|]. split; [exact Hc|reflexivity].
Defined.
