(* ===== verification/RuntimeEngine.v ===== *)
(** * Learned invariants of the runtime ([canon-runtime/src/invariants.rs])

    The engine compares consecutive events feature by feature and learns which
    features stay equal; a learned one can be enforced.  Confidence is an IEEE
    double.  The two hashes and the printed size of a value are parameters. *)
From Stdlib Require Import Floats.SpecFloat.
From S2P Require Import Prelude Json Wire EventShape KernelTypes SemanticState Events EventBus.

Record Stat := MkStat { zero_count : N; total : N }.
Definition stat_update (delta_is_zero : bool) (s : Stat) : Stat :=
  MkStat (if delta_is_zero then sat_add64 (zero_count s) 1 else zero_count s) (sat_add64 (total s) 1).
Definition stat_confidence (s : Stat) : f64 := if (total s =? 0)%N then f64_of_N 0 else f64_div (f64_of_N (zero_count s)) (f64_of_N (total s)).

(** [Config] after the environment variables were read. *)
Record EngineConfig := MkEngineConfig { theta : f64; min_support : N; enforce : bool; max_history : nat }.
Definition default_engine_config : EngineConfig := MkEngineConfig (f64_div (f64_of_N 98) (f64_of_N 100)) 50 false 2048.

Record InvariantEngine {V : Type} := MkEngine { eng_prev : list (CanonEvent V); eng_stats : gmap string Stat; eng_invariants : gset string; eng_cfg : EngineConfig }.
Arguments InvariantEngine V : clear implicits.
Arguments MkEngine {V} _ _ _ _.

Section Engine.
Context {V : Type} `{Json V} `{JsonSer V}.
Context (kind_hash : EventKind -> Z) (actor_hash : string -> Z) (text_len : V -> Z) (uuid : nat -> string) (site : string -> string * N).
Implicit Types (g : InvariantEngine V) (b : EventBus V) (ev : CanonEvent V).

Definition features : list (string * (CanonEvent V -> Z)) :=
  [("parent_count", fun ev => Z.of_nat (length (ev_parent_ids ev))); ("delta_size", fun ev => text_len (p_delta (ev_payload ev)));
   ("kind_hash", fun ev => kind_hash (ev_kind ev)); ("actor_hash", fun ev => actor_hash (ev_actor ev))]%string.
Definition engine_new (c : EngineConfig) : InvariantEngine V := MkEngine [] ∅ ∅ c.

(** [record]: the emissions go to the runtime's queue. *)
Definition record (feature : string) (delta_zero : bool) (parent : EventId) g b : InvariantEngine V * EventBus V * bool :=
  let entry := stat_update delta_zero (default (MkStat 0 0) (eng_stats g !! feature)) in
  let stats := <[ feature := entry ]> (eng_stats g) in
  let after := stat_confidence entry in
  let '(file, line) := site "invariant_engine" in
  if SFleb (theta (eng_cfg g)) after && (min_support (eng_cfg g) <=? total entry)%N && negb (bool_decide (feature ∈ eng_invariants g)) then
    (MkEngine (eng_prev g) stats ({[ feature ]} ∪ eng_invariants g) (eng_cfg g),
     bus_emit (MkLocated (RuntimeEvent.InvariantDiscovered (InvariantDiscovered.mk feature after (total entry))) file line [parent]) b, true)
  else
    let g := MkEngine (eng_prev g) stats (eng_invariants g) (eng_cfg g) in
    if enforce (eng_cfg g) && bool_decide (feature ∈ eng_invariants g) && negb delta_zero then
      (g, bus_emit (MkLocated (RuntimeEvent.ErrorOccurred (new_error_occurred "invariant_violation" "invariant-engine" ("invariant " +:+ feature +:+ " violated") "error"
            (jobj {[ "feature" := jstr feature; "delta_zero" := jbool delta_zero; "support" := jnum (total entry) ]}) None (uuid (b_fresh b)))) file line [parent]) (advance b), false)
    else (g, b, true).

(** [observe]: a violated feature stops the comparison of the later ones. *)
Definition compare ev (prev : CanonEvent V) (s : InvariantEngine V * EventBus V * bool) (f : string * (CanonEvent V -> Z)) : InvariantEngine V * EventBus V * bool :=
  let '(g, b, ok) := s in
  if ok then record f.1 (f.2 ev =? f.2 prev)%Z (ev_id ev) g b else s.
Definition observe ev g b : InvariantEngine V * EventBus V * bool :=
  let '(g, b, ok) := match last (eng_prev g) with Some prev => foldl (compare ev prev) (g, b, true) features | None => (g, b, true) end in
  let prev := eng_prev g ++ [ev] in
  (MkEngine (if max_history (eng_cfg g) <? length prev then tail prev else prev) (eng_stats g) (eng_invariants g) (eng_cfg g), b, ok).

(** [validate_before_append]. *)
Definition lawful_root_seed (e : RuntimeEvent.t V) : bool :=
  match e with RuntimeEvent.Tick _ | RuntimeEvent.RouteTick _ | RuntimeEvent.RouteSelected _ => true | _ => false end.
Definition validate_before_append (e : RuntimeEvent.t V) (parent_ids : list EventId) : result string unit :=
  let kind := RuntimeEvent.event_kind_str e in
  if bool_decide (kind = ""%string) then Err "invalid_event_kind"
  else if negb (bool_decide (kind = "root"%string)) && negb (lawful_root_seed e) && bool_decide (parent_ids = []) then Err "missing_parent_ids"
  else if bool_decide (kind = "effect"%string) && bool_decide (parent_ids = []) then Err "orphan_effect_event"
  else Ok tt.

(** ** What the engine decides *)

(** The structural check comes down to the parents: no event is of kind [root]
    or [effect]. *)
Lemma validate_before_append_iff e parents : validate_before_append e parents = Ok tt <-> parents <> [] \/ lawful_root_seed e = true.
Proof.
  unfold validate_before_append. assert (Hk : RuntimeEvent.event_kind_str e <> ""%string /\ RuntimeEvent.event_kind_str e <> "root"%string /\ RuntimeEvent.event_kind_str e <> "effect"%string) by (destruct e; split_and!; discriminate).
  destruct Hk as (H1 & H2 & H3). rewrite (bool_decide_eq_false_2 _ H1), (bool_decide_eq_false_2 _ H2), (bool_decide_eq_false_2 _ H3). cbn [negb andb].
  destruct (lawful_root_seed e); cbn [negb andb]; [split; [by right|done]|]. case_bool_decide; split; try done; [intros [?|?]; done|by left].
Qed.

(** Without enforcement the engine never refuses, and it leaves the consumers
    and the hooks alone. *)
Lemma record_bus feature z parent g b : let '(g', b', ok) := record feature z parent g b in
  b_consumers b' = b_consumers b /\ b_hooks b' = b_hooks b /\ eng_cfg g' = eng_cfg g /\ (enforce (eng_cfg g) = false -> ok = true) /\ (exists l, em_queue (b_emitter b') = em_queue (b_emitter b) ++ l).
Proof.
  unfold record. destruct (site _) as [file line]. destruct (_ && _ && negb _).
  - split_and!; try done. apply bus_emit_queue.
  - cbn [eng_cfg eng_invariants]. assert (Hnil : exists l, em_queue (b_emitter b) = em_queue (b_emitter b) ++ l) by (exists []; by rewrite app_nil_r).
    destruct (enforce (eng_cfg g)) eqn:He; cbn [andb]; [|done]. destruct (_ && negb z); split_and!; try done. apply (bus_emit_queue _ (advance b)).
Qed.
End Engine.
