(* ===== verification/EventRuntime.v ===== *)
(** * The event runtime ([canon-runtime/src/lib.rs])

    The live path: an event is checked, converted to its wire form, appended to
    the log through the segment writer, dispatched to the consumers, and what
    they emit is drained in turn; and the replay path, which only dispatches.
    Errors keep the state reached.  [drain_emitted_events] and the handler call
    each other for as long as consumers emit: the fuel bounds the nesting.

    [process_events] ends by handing the events it saw to a stage executor of
    its own that has no emitter; the executor and trace output are not part of
    the model. *)
From Stdlib Require Import Floats.SpecFloat.
From stdpp Require Import pretty.
From S2P Require Import Prelude Json Text PatchParser Wire EventInvariants Codec TlogWriter EventShape KernelTypes SemanticState Events EventBus RuntimeEngine.

#[export] Instance EventKind_countable : Countable EventKind.
Proof. exact (inj_countable EventKind.as_str EventKind.serde_from_str EventKind.serde_round_trip). Defined.

Inductive RuntimeMode : Type := Running | FatalInvariantHalt (reason : string).
(** A panic, a returned error, a call that never returns, and the end of the
    fuel. *)
Inductive rfault : Type := Panicked (msg : string) | Returned (msg : string) | Stuck | OutOfFuel.

Record EventRuntime {V : Type} := MkRuntime {
  rt_state : RustcState.t;
  rt_bus : EventBus V;
  rt_writer : option (Writer V);
  rt_next_id : N;
  rt_tick : N;
  rt_runtime_tick : N;
  rt_runtime_state : V;
  rt_last_route_tick_emitted : N;
  rt_execute_capabilities : bool;
  rt_observed_events : list (RuntimeEvent.t V);
  rt_dispatched_ids : gset EventId;
  rt_last_kind_hash : gmap EventKind N;
  rt_last_event_id_per_kind : gmap EventKind EventId;
  rt_last_written_event_id : option EventId;
  rt_last_loop_observed_tick : option N;
  rt_pending_loop_observed : option (LoopObserved.t V);
  rt_route_tick_append_seen : bool;
  rt_engine : InvariantEngine V;
  rt_mode : RuntimeMode
}.
Arguments EventRuntime V : clear implicits.
Arguments MkRuntime {V} _ _ _ _ _ _ _ _ _ _ _ _ _ _ _ _ _ _ _.

Section Set_.
Context {V : Type} (r : EventRuntime V).
Definition set_rt_state (x : RustcState.t) : EventRuntime V :=
  MkRuntime x (rt_bus r) (rt_writer r) (rt_next_id r) (rt_tick r) (rt_runtime_tick r) (rt_runtime_state r) (rt_last_route_tick_emitted r) (rt_execute_capabilities r) (rt_observed_events r) (rt_dispatched_ids r) (rt_last_kind_hash r) (rt_last_event_id_per_kind r) (rt_last_written_event_id r) (rt_last_loop_observed_tick r) (rt_pending_loop_observed r) (rt_route_tick_append_seen r) (rt_engine r) (rt_mode r).
Definition set_bus (x : EventBus V) : EventRuntime V :=
  MkRuntime (rt_state r) x (rt_writer r) (rt_next_id r) (rt_tick r) (rt_runtime_tick r) (rt_runtime_state r) (rt_last_route_tick_emitted r) (rt_execute_capabilities r) (rt_observed_events r) (rt_dispatched_ids r) (rt_last_kind_hash r) (rt_last_event_id_per_kind r) (rt_last_written_event_id r) (rt_last_loop_observed_tick r) (rt_pending_loop_observed r) (rt_route_tick_append_seen r) (rt_engine r) (rt_mode r).
Definition set_rt_writer (x : option (Writer V)) : EventRuntime V :=
  MkRuntime (rt_state r) (rt_bus r) x (rt_next_id r) (rt_tick r) (rt_runtime_tick r) (rt_runtime_state r) (rt_last_route_tick_emitted r) (rt_execute_capabilities r) (rt_observed_events r) (rt_dispatched_ids r) (rt_last_kind_hash r) (rt_last_event_id_per_kind r) (rt_last_written_event_id r) (rt_last_loop_observed_tick r) (rt_pending_loop_observed r) (rt_route_tick_append_seen r) (rt_engine r) (rt_mode r).
Definition set_next_id (x : N) : EventRuntime V :=
  MkRuntime (rt_state r) (rt_bus r) (rt_writer r) x (rt_tick r) (rt_runtime_tick r) (rt_runtime_state r) (rt_last_route_tick_emitted r) (rt_execute_capabilities r) (rt_observed_events r) (rt_dispatched_ids r) (rt_last_kind_hash r) (rt_last_event_id_per_kind r) (rt_last_written_event_id r) (rt_last_loop_observed_tick r) (rt_pending_loop_observed r) (rt_route_tick_append_seen r) (rt_engine r) (rt_mode r).
Definition set_tick (x : N) : EventRuntime V :=
  MkRuntime (rt_state r) (rt_bus r) (rt_writer r) (rt_next_id r) x (rt_runtime_tick r) (rt_runtime_state r) (rt_last_route_tick_emitted r) (rt_execute_capabilities r) (rt_observed_events r) (rt_dispatched_ids r) (rt_last_kind_hash r) (rt_last_event_id_per_kind r) (rt_last_written_event_id r) (rt_last_loop_observed_tick r) (rt_pending_loop_observed r) (rt_route_tick_append_seen r) (rt_engine r) (rt_mode r).
Definition set_runtime_tick (x : N) : EventRuntime V :=
  MkRuntime (rt_state r) (rt_bus r) (rt_writer r) (rt_next_id r) (rt_tick r) x (rt_runtime_state r) (rt_last_route_tick_emitted r) (rt_execute_capabilities r) (rt_observed_events r) (rt_dispatched_ids r) (rt_last_kind_hash r) (rt_last_event_id_per_kind r) (rt_last_written_event_id r) (rt_last_loop_observed_tick r) (rt_pending_loop_observed r) (rt_route_tick_append_seen r) (rt_engine r) (rt_mode r).
Definition set_runtime_state (x : V) : EventRuntime V :=
  MkRuntime (rt_state r) (rt_bus r) (rt_writer r) (rt_next_id r) (rt_tick r) (rt_runtime_tick r) x (rt_last_route_tick_emitted r) (rt_execute_capabilities r) (rt_observed_events r) (rt_dispatched_ids r) (rt_last_kind_hash r) (rt_last_event_id_per_kind r) (rt_last_written_event_id r) (rt_last_loop_observed_tick r) (rt_pending_loop_observed r) (rt_route_tick_append_seen r) (rt_engine r) (rt_mode r).
Definition set_last_route_tick_emitted (x : N) : EventRuntime V :=
  MkRuntime (rt_state r) (rt_bus r) (rt_writer r) (rt_next_id r) (rt_tick r) (rt_runtime_tick r) (rt_runtime_state r) x (rt_execute_capabilities r) (rt_observed_events r) (rt_dispatched_ids r) (rt_last_kind_hash r) (rt_last_event_id_per_kind r) (rt_last_written_event_id r) (rt_last_loop_observed_tick r) (rt_pending_loop_observed r) (rt_route_tick_append_seen r) (rt_engine r) (rt_mode r).
Definition set_execute_capabilities (x : bool) : EventRuntime V :=
  MkRuntime (rt_state r) (rt_bus r) (rt_writer r) (rt_next_id r) (rt_tick r) (rt_runtime_tick r) (rt_runtime_state r) (rt_last_route_tick_emitted r) x (rt_observed_events r) (rt_dispatched_ids r) (rt_last_kind_hash r) (rt_last_event_id_per_kind r) (rt_last_written_event_id r) (rt_last_loop_observed_tick r) (rt_pending_loop_observed r) (rt_route_tick_append_seen r) (rt_engine r) (rt_mode r).
Definition set_observed_events (x : list (RuntimeEvent.t V)) : EventRuntime V :=
  MkRuntime (rt_state r) (rt_bus r) (rt_writer r) (rt_next_id r) (rt_tick r) (rt_runtime_tick r) (rt_runtime_state r) (rt_last_route_tick_emitted r) (rt_execute_capabilities r) x (rt_dispatched_ids r) (rt_last_kind_hash r) (rt_last_event_id_per_kind r) (rt_last_written_event_id r) (rt_last_loop_observed_tick r) (rt_pending_loop_observed r) (rt_route_tick_append_seen r) (rt_engine r) (rt_mode r).
Definition set_dispatched_ids (x : gset EventId) : EventRuntime V :=
  MkRuntime (rt_state r) (rt_bus r) (rt_writer r) (rt_next_id r) (rt_tick r) (rt_runtime_tick r) (rt_runtime_state r) (rt_last_route_tick_emitted r) (rt_execute_capabilities r) (rt_observed_events r) x (rt_last_kind_hash r) (rt_last_event_id_per_kind r) (rt_last_written_event_id r) (rt_last_loop_observed_tick r) (rt_pending_loop_observed r) (rt_route_tick_append_seen r) (rt_engine r) (rt_mode r).
Definition set_last_kind_hash (x : gmap EventKind N) : EventRuntime V :=
  MkRuntime (rt_state r) (rt_bus r) (rt_writer r) (rt_next_id r) (rt_tick r) (rt_runtime_tick r) (rt_runtime_state r) (rt_last_route_tick_emitted r) (rt_execute_capabilities r) (rt_observed_events r) (rt_dispatched_ids r) x (rt_last_event_id_per_kind r) (rt_last_written_event_id r) (rt_last_loop_observed_tick r) (rt_pending_loop_observed r) (rt_route_tick_append_seen r) (rt_engine r) (rt_mode r).
Definition set_last_event_id_per_kind (x : gmap EventKind EventId) : EventRuntime V :=
  MkRuntime (rt_state r) (rt_bus r) (rt_writer r) (rt_next_id r) (rt_tick r) (rt_runtime_tick r) (rt_runtime_state r) (rt_last_route_tick_emitted r) (rt_execute_capabilities r) (rt_observed_events r) (rt_dispatched_ids r) (rt_last_kind_hash r) x (rt_last_written_event_id r) (rt_last_loop_observed_tick r) (rt_pending_loop_observed r) (rt_route_tick_append_seen r) (rt_engine r) (rt_mode r).
Definition set_last_written_event_id (x : option EventId) : EventRuntime V :=
  MkRuntime (rt_state r) (rt_bus r) (rt_writer r) (rt_next_id r) (rt_tick r) (rt_runtime_tick r) (rt_runtime_state r) (rt_last_route_tick_emitted r) (rt_execute_capabilities r) (rt_observed_events r) (rt_dispatched_ids r) (rt_last_kind_hash r) (rt_last_event_id_per_kind r) x (rt_last_loop_observed_tick r) (rt_pending_loop_observed r) (rt_route_tick_append_seen r) (rt_engine r) (rt_mode r).
Definition set_last_loop_observed_tick (x : option N) : EventRuntime V :=
  MkRuntime (rt_state r) (rt_bus r) (rt_writer r) (rt_next_id r) (rt_tick r) (rt_runtime_tick r) (rt_runtime_state r) (rt_last_route_tick_emitted r) (rt_execute_capabilities r) (rt_observed_events r) (rt_dispatched_ids r) (rt_last_kind_hash r) (rt_last_event_id_per_kind r) (rt_last_written_event_id r) x (rt_pending_loop_observed r) (rt_route_tick_append_seen r) (rt_engine r) (rt_mode r).
Definition set_pending_loop_observed (x : option (LoopObserved.t V)) : EventRuntime V :=
  MkRuntime (rt_state r) (rt_bus r) (rt_writer r) (rt_next_id r) (rt_tick r) (rt_runtime_tick r) (rt_runtime_state r) (rt_last_route_tick_emitted r) (rt_execute_capabilities r) (rt_observed_events r) (rt_dispatched_ids r) (rt_last_kind_hash r) (rt_last_event_id_per_kind r) (rt_last_written_event_id r) (rt_last_loop_observed_tick r) x (rt_route_tick_append_seen r) (rt_engine r) (rt_mode r).
Definition set_route_tick_append_seen (x : bool) : EventRuntime V :=
  MkRuntime (rt_state r) (rt_bus r) (rt_writer r) (rt_next_id r) (rt_tick r) (rt_runtime_tick r) (rt_runtime_state r) (rt_last_route_tick_emitted r) (rt_execute_capabilities r) (rt_observed_events r) (rt_dispatched_ids r) (rt_last_kind_hash r) (rt_last_event_id_per_kind r) (rt_last_written_event_id r) (rt_last_loop_observed_tick r) (rt_pending_loop_observed r) x (rt_engine r) (rt_mode r).
Definition set_engine (x : InvariantEngine V) : EventRuntime V :=
  MkRuntime (rt_state r) (rt_bus r) (rt_writer r) (rt_next_id r) (rt_tick r) (rt_runtime_tick r) (rt_runtime_state r) (rt_last_route_tick_emitted r) (rt_execute_capabilities r) (rt_observed_events r) (rt_dispatched_ids r) (rt_last_kind_hash r) (rt_last_event_id_per_kind r) (rt_last_written_event_id r) (rt_last_loop_observed_tick r) (rt_pending_loop_observed r) (rt_route_tick_append_seen r) x (rt_mode r).
Definition set_mode (x : RuntimeMode) : EventRuntime V :=
  MkRuntime (rt_state r) (rt_bus r) (rt_writer r) (rt_next_id r) (rt_tick r) (rt_runtime_tick r) (rt_runtime_state r) (rt_last_route_tick_emitted r) (rt_execute_capabilities r) (rt_observed_events r) (rt_dispatched_ids r) (rt_last_kind_hash r) (rt_last_event_id_per_kind r) (rt_last_written_event_id r) (rt_last_loop_observed_tick r) (rt_pending_loop_observed r) (rt_route_tick_append_seen r) (rt_engine r) x.
End Set_.

(** ** Compiler state *)

Definition empty_state : RustcState.t := RustcState.mk 0 "init" 0 "" 2 ∅ [] ∅ ∅ [].

Section Delta.
Context (compute_invariant_hash : N -> N -> N -> string).

Definition edge : Type := string * string * string.
Definition drop_edge (e : edge) (l : list edge) : list edge := filter (fun x => x <> e) l.
Definition with_code (s : RustcState.t) (phase : string) (last_event_id : N) (symbols : gmap string string) (edges : list edge) (files removed : gset string) (removed_edges : list edge) : RustcState.t :=
  RustcState.mk (RustcState.tick s) phase last_event_id
    (compute_invariant_hash (N.of_nat (base.size symbols)) (lenN edges) 2) (RustcState.graph_version s) symbols edges files removed removed_edges.

Definition is_session_start (e : RustcEvent.t) : bool := match e with RustcEvent.SessionStart _ => true | _ => false end.
Definition apply_code_event (e : RustcEvent.t) (s : RustcState.t) : RustcState.t :=
  let '(RustcState.mk _ ph last _ _ syms edges files rem redges) := s in
  match e with
  | RustcEvent.NodeDefined n => with_code s ph last (<[ NodeDefined.symbol n := NodeDefined.kind n ]> syms) edges files (rem ∖ {[ NodeDefined.symbol n ]}) redges
  | RustcEvent.NodeUpdated n => with_code s ph last (<[ NodeUpdated.symbol n := NodeUpdated.kind n ]> syms) edges files (rem ∖ {[ NodeUpdated.symbol n ]}) redges
  | RustcEvent.NodeRemoved n => with_code s ph last (delete (NodeRemoved.symbol n) syms) edges files ({[ NodeRemoved.symbol n ]} ∪ rem) redges
  | RustcEvent.EdgeDefined x =>
      let ed := (EdgeDefined.src x, EdgeDefined.dst x, EdgeDefined.kind x) in with_code s ph last syms (edges ++ [ed]) files rem (drop_edge ed redges)
  | RustcEvent.EdgeRemoved x =>
      let ed := (EdgeRemoved.src x, EdgeRemoved.dst x, EdgeRemoved.kind x) in with_code s ph last syms (drop_edge ed edges) files rem (redges ++ [ed])
  | RustcEvent.FileSeen f => with_code s ph last syms edges ({[ FileSeen.path f ]} ∪ files) rem redges
  | RustcEvent.SessionStart _ => with_code s ph 0 ∅ [] ∅ ∅ []
  | RustcEvent.CompilationUnitFinished _ => with_code s "finished" last syms edges files rem redges
  | RustcEvent.CallsiteObserved _ | RustcEvent.SymbolDefined _ | RustcEvent.SpanDefined _ | RustcEvent.PanicCaptured _ | RustcEvent.WarningCaptured _
  | RustcEvent.InvariantViolation _ => with_code s ph last syms edges files rem redges
  end.
Definition apply_delta (s : RustcState.t) (d : EventDelta.t) : result string RustcState.t :=
  if (EventDelta.id d <=? RustcState.last_event_id s)%N && negb (is_session_start (EventDelta.event d)) then
    Err ("event id must be monotonic id=" +:+ pretty (EventDelta.id d) +:+ " last_event_id=" +:+ pretty (RustcState.last_event_id s))
  else
    let '(RustcState.mk _ ph _ h gv syms edges files rem redges) := s in
    Ok (apply_code_event (EventDelta.event d) (RustcState.mk (EventDelta.tick d) ph (EventDelta.id d) h gv syms edges files rem redges)).
End Delta.

(** ** Classification of events *)

Section Classify.
Context {V : Type}.
Implicit Types (e : RuntimeEvent.t V).

Definition is_driver e : bool :=
  match e with RuntimeEvent.Tick _ | RuntimeEvent.RouteTick _ | RuntimeEvent.RouteSelected _ | RuntimeEvent.LoopObserved _ => true | _ => false end.
Definition is_route_tick e : bool := match e with RuntimeEvent.RouteTick _ => true | _ => false end.
Definition is_allowed_during_fatal_halt e : bool :=
  match e with
  | RuntimeEvent.Code _ | RuntimeEvent.ErrorOccurred _ | RuntimeEvent.Debug _ | RuntimeEvent.RuntimeStateUpdated _ | RuntimeEvent.Tick _ | RuntimeEvent.RouteTick _ | RuntimeEvent.RouteSelected _ => true
  | _ => false
  end.
Definition is_recovery_kind (k : string) : bool := bool_decide (k ∈ ["recovery_event"; "reset_event"; "override_event"]%string).
Definition recovery_signal_reason e : option string :=
  match e with
  | RuntimeEvent.ErrorOccurred x => if is_recovery_kind (ErrorOccurred.kind x) then Some (ErrorOccurred.kind x) else None
  | RuntimeEvent.Debug x => if is_recovery_kind (DebugEvent.kind x) then Some (DebugEvent.kind x) else None
  | _ => None
  end.
Definition fatal_markers : list string :=
  ["duplicate event within dedup window"; "illegal transition"; "missing required successor"; "invalid_retry"; "id is empty";
   "payload input/output/delta must be non-null"; "delta is zero / empty"]%string.
Definition fatal_invariant_reason e : option string :=
  match e with
  | RuntimeEvent.Code c =>
      match EventDelta.event (Code.delta c) with
      | RustcEvent.InvariantViolation p =>
          let msg := InvariantViolation.message p in
          if existsb (fun m => PatchParser.contains (lit m) (lit msg)) fatal_markers then Some msg else None
      | _ => None
      end
  | _ => None
  end.

(** The kinds the runtime writes; the others are dropped. *)
Definition wire_kind e : option EventKind :=
  match e with
  | RuntimeEvent.Debug d => Some (if bool_decide (DebugEvent.kind d = "runtime_started"%string) then EventKind.RuntimeStarted else EventKind.Debug)
  | RuntimeEvent.Code _ | RuntimeEvent.LoopObserved _ | RuntimeEvent.LoopPlanned _ | RuntimeEvent.PlanningCompleted _ | RuntimeEvent.LoopActed _ | RuntimeEvent.LoopVerified _
  | RuntimeEvent.VerifierPolicyUpdated _ | RuntimeEvent.LoopRewarded _ | RuntimeEvent.RouteTick _ | RuntimeEvent.RouteSelected _ | RuntimeEvent.Tick _ | RuntimeEvent.CapabilityCompleted _
  | RuntimeEvent.CapabilityFailed _ | RuntimeEvent.CapabilityInvoked _ | RuntimeEvent.CapabilityResolved _ | RuntimeEvent.ErrorOccurred _ | RuntimeEvent.PromptLoaded _
  | RuntimeEvent.RuntimeStateUpdated _ | RuntimeEvent.ToolCall _ | RuntimeEvent.ToolResult _ | RuntimeEvent.GoalNodeCreated _ | RuntimeEvent.GoalNodeRetracted _
  | RuntimeEvent.GoalNodeRewritten _ | RuntimeEvent.GoalEdgeDefined _ | RuntimeEvent.GoalGraphCheckpointed _ | RuntimeEvent.GoodnessSnapshot _ | RuntimeEvent.InvariantDiscovered _
  | RuntimeEvent.Llm _ => Some (RuntimeEvent.kind e)
  | _ => None
  end.
Definition actor e : string :=
  match e with
  | RuntimeEvent.Code _ => "rustc"
  | RuntimeEvent.LoopObserved _ => "observe"
  | RuntimeEvent.LoopPlanned _ | RuntimeEvent.PlanningCompleted _ => "plan"
  | RuntimeEvent.LoopActed _ => "act"
  | RuntimeEvent.LoopVerified _ | RuntimeEvent.VerifierPolicyUpdated _ => "verify"
  | RuntimeEvent.LoopRewarded _ => "reward"
  | RuntimeEvent.RouteTick _ | RuntimeEvent.RouteSelected _ | RuntimeEvent.Tick _ => "supervisor"
  | RuntimeEvent.CapabilityInvoked _ | RuntimeEvent.CapabilityResolved _ => "capability_graph"
  | RuntimeEvent.Debug d => DebugEvent.source d
  | RuntimeEvent.ToolCall _ | RuntimeEvent.ToolResult _ => "agent-consumer"
  | RuntimeEvent.GoalNodeCreated _ | RuntimeEvent.GoalNodeRetracted _ | RuntimeEvent.GoalNodeRewritten _ | RuntimeEvent.GoalEdgeDefined _ | RuntimeEvent.GoalGraphCheckpointed _ => "goal_graph"
  | RuntimeEvent.InvariantDiscovered _ => "invariant-engine"
  | _ => "event-runtime"
  end.
Definition ROOT_KINDS : list EventKind := [EventKind.Tick; EventKind.PromptLoaded; EventKind.AgentRegistered; EventKind.SystemConfigLoaded; EventKind.RuntimeStarted].
Definition SILENT_KINDS : list string := ["debug"; "runtime_state_updated"; "code"; "edit"; "analysis"; "cargo"; "file"; "bash"; "llm"]%string.
End Classify.

(** ** The live path *)

Section Runtime.
Context {V : Type} `{Json V} `{JsonSer V} `{Codec V}.
(** The environment: fresh identifiers, the two clocks, source positions, the
    hashes, and the writer's own position. *)
Context (uuid : nat -> string) (instant now_ms : nat -> N) (site : string -> string * N) (writer_meta : CanonPayloadMeta).
Context (kind_hash : EventKind -> Z) (actor_hash : string -> Z) (text_len : V -> Z) (data_hash : EventKind -> V -> N) (compute_invariant_hash : N -> N -> N -> string).
Implicit Types (e : RuntimeEvent.t V) (r : EventRuntime V).

Abbreviation RT := (stateR (EventRuntime V) rfault).

(** *** Wire form *)

Definition payload_from_shape e (file : string) (line : N) : option (CanonPayload V) :=
  let meta := {| meta_file := file; meta_line := line |} in
  match e with
  | RuntimeEvent.Code c => Some {| p_input := Code.payload_input c; p_output := Code.payload_output c; p_delta := Code.payload_delta c; p_meta := meta; p_data := Code.payload_data c |}
  | _ => '(_, fs) ← shape e; Some {| p_input := payload_slot Input fs; p_output := payload_slot Output fs; p_delta := payload_slot Delta fs; p_meta := meta; p_data := payload_data fs |}
  end.
Definition runtime_event_to_wire e (parent_ids : list EventId) (id : EventId) (file : string) (line : N) (now : N) : result string (option (CanonEvent V)) :=
  match wire_kind e, payload_from_shape e file line with
  | Some k, Some payload =>
      let root := bool_decide (k ∈ ROOT_KINDS) in
      if bool_decide (parent_ids = []) && negb root then
        Err ("missing_parent_ids for non-root event kind=" +:+ EventKind.as_str k +:+ " id=" +:+ id +:+ " (emitted from " +:+ file +:+ ":" +:+ pretty line +:+ ")")
      else Ok (event_new id parent_ids (actor e) k now payload root)
  | _, _ => Ok None
  end.

(** *** Fresh values *)

Definition fresh : RT nat := fun r => (set_bus r (advance (rt_bus r)), Ok (b_fresh (rt_bus r))).
Definition new_event_id : RT EventId := let! n := fresh in mret (uuid n).

(** *** Appending *)

Definition set_prev_event_id (p : option EventId) (w : CanonEvent V) : CanonEvent V :=
  {| ev_id := ev_id w; ev_parent_ids := ev_parent_ids w; ev_actor := ev_actor w; ev_kind := ev_kind w; ev_ts := ev_ts w; ev_payload := ev_payload w; ev_prev_event_id := p |}.

(** The call of the writer; the values its own records need are fresh. *)
Definition write_wire (w : CanonEvent V) : RT unit := fun r =>
  match rt_writer r with
  | None => (r, Err (Panicked "writer must exist"))
  | Some wr =>
      let n := b_fresh (rt_bus r) in
      let o := {| o_parent_id := uuid n; o_event_id := uuid (S n); o_now := now_ms n |} in
      let r := set_bus r (advance (advance (rt_bus r))) in
      let '(wr, res) := write_canon_event writer_meta o w wr in
      let r := set_rt_writer r (Some wr) in
      match res with
      | Ok _ => (r, Ok tt)
      | Err (Failed err) => (r, Err (Panicked ("[FATAL] append failure (no retry allowed) kind=" +:+ EventKind.as_str (ev_kind w) +:+ " id=" +:+ ev_id w +:+ " err=" +:+ err)))
      | Err Hang => (r, Err Stuck)
      end
  end.

(** The exactly-once guard and the duplicate gate; [false] drops the event. *)
Definition observed_guard e : RT bool := fun r =>
  match e with
  | RuntimeEvent.LoopObserved lo =>
      if bool_decide (rt_last_loop_observed_tick r = Some (LoopObserved.tick lo)) then (r, Ok false)
      else (set_last_loop_observed_tick r (Some (LoopObserved.tick lo)), Ok true)
  | _ => (r, Ok true)
  end.
Definition dedup_gate e (w : CanonEvent V) : RT bool := fun r =>
  if bool_decide (ev_kind w = EventKind.RouteTick) || EventKind.is_control (ev_kind w) || is_driver e then (r, Ok true)
  else
    let h := data_hash (ev_kind w) (p_data (ev_payload w)) in
    if bool_decide (rt_last_kind_hash r !! ev_kind w = Some h) then (r, Ok false)
    else (set_last_kind_hash r (<[ ev_kind w := h ]> (rt_last_kind_hash r)), Ok true).
(** The branch of a segment directory, lines 1015 to 1035; the branch of a
    single file, with [write_canon_event_auto], is not reached, because
    [set_tlog_path] panics on any other path. *)
Definition chain_and_write e (w : CanonEvent V) : RT unit := fun r =>
  let w := set_prev_event_id (rt_last_event_id_per_kind r !! ev_kind w) w in
  let r := set_last_event_id_per_kind r (<[ ev_kind w := ev_id w ]> (rt_last_event_id_per_kind r)) in
  let r := set_last_written_event_id r (Some (ev_id w)) in
  (write_wire w ;;! if is_route_tick e then modify (fun r => set_route_tick_append_seen r true) else mret tt) r.
Definition engine_observe (w : CanonEvent V) : RT bool := fun r =>
  let '(g, b, ok) := observe kind_hash actor_hash text_len uuid site w (rt_engine r) (rt_bus r) in
  (set_engine (set_bus r b) g, Ok ok).

Definition append_runtime_event e (file : string) (line : N) (parent_ids : list EventId) (id : EventId) : RT unit := fun r =>
  if bool_decide (rt_writer r = None) then (r, Err (Panicked ("FATAL: tlog_path is None during append_runtime_event for kind=" +:+ RuntimeEvent.event_kind_str e)))
  else if is_route_tick e && bool_decide (parent_ids = []) then (r, Err (Panicked "[FATAL] RouteTick missing parent_ids (must reference Tick)"))
  else
    match runtime_event_to_wire e parent_ids id file line (now_ms (b_fresh (rt_bus r))) with
    | Ok None => if is_driver e then (r, Err (Panicked "[FATAL] runtime_event_to_wire returned None for control event")) else (r, Ok tt)
    | Err err => if is_driver e then (r, Err (Panicked ("[FATAL] runtime_event_to_wire error for control event: " +:+ err))) else (r, Ok tt)
    | Ok (Some w) =>
        (let! ok := engine_observe w in
         if negb ok && negb (is_driver e) then mret tt
         else
           let! once := observed_guard e in
           if negb once then mret tt
           else
             let! new := dedup_gate e w in
             if negb new then mret tt else chain_and_write e w) (set_bus r (advance (rt_bus r)))
    end.

(** *** Dispatching *)

Definition bus_dispatch e (id : EventId) : RT nat := fun r =>
  let '(b, res) := dispatch uuid instant site e id (rt_bus r) in
  (set_bus r b, match res with Ok n => Ok n | Err m => Err (Panicked m) end).

Definition is_fatal_halt_active r : bool := match rt_mode r with FatalInvariantHalt _ => true | Running => false end.
Definition runtime_mode_update_payload r : V :=
  match rt_mode r with
  | Running => jobj {[ "runtime_mode" := jstr "running"; "fatal_invariant" := jbool false ]}
  | FatalInvariantHalt reason => jobj {[ "runtime_mode" := jstr "fatal_invariant_halt"; "fatal_invariant" := jbool true; "fatal_invariant_reason" := jstr reason ]}
  end.

(** The error event derived from a failure, given a fresh identifier. *)
Definition derived_error e (id : string) : option (RuntimeEvent.t V) :=
  let error kind source message context := Some (RuntimeEvent.ErrorOccurred (new_error_occurred kind source message "error" context None id)) in
  match e with
  | RuntimeEvent.CapabilityFailed p =>
      error "capability_failed" "event-runtime" (CapabilityFailed.error p)
        (jobj {[ "request_id" := jstr (CapabilityFailed.request_id p); "capability" := jstr (CapabilityFailed.capability p) ]})
  | RuntimeEvent.NodeFailed p =>
      error "node_failed" "agent-consumer" (default "node_failed"%string (NodeFailed.error p))
        (jobj {[ "node_id" := jstr (NodeFailed.node_id p); "capability" := jstr (NodeFailed.capability p); "request_id" := jstr (NodeFailed.request_id p) ]})
  | RuntimeEvent.Code c =>
      match EventDelta.event (Code.delta c) with
      | RustcEvent.PanicCaptured p =>
          error "panic_captured" "rustc" (PanicCaptured.message p)
            (jobj {[ "def_id" := jstr (PanicCaptured.def_id p); "mir_variant" := to_value (PanicCaptured.mir_variant p); "lowering_stage" := to_value (PanicCaptured.lowering_stage p);
                     "file" := to_value (PanicCaptured.file p); "span" := to_value (PanicCaptured.span p) ]})
      | RustcEvent.InvariantViolation p => error "invariant_violation" "rustc" (InvariantViolation.message p) jempty
      | _ => None
      end
  | _ => None
  end%string.
Definition absorb e r : EventRuntime V := match e with RuntimeEvent.RuntimeStateUpdated p => set_runtime_state r (RuntimeStateUpdated.payload p) | _ => r end.

(** What follows a successful append when there are consumers. *)
Definition after_append (drain : RT unit) e (id : EventId) (mode_update : bool) : RT unit :=
  let! count := bus_dispatch e id in
  if (count =? 0) && negb (bool_decide (RuntimeEvent.event_kind_str e ∈ SILENT_KINDS)) then fail_with (Returned "dispatch failure: no consumers received event")
  else
    (if mode_update then
       let! payload := gets runtime_mode_update_payload in
       let! uid := new_event_id in
       let! _ := bus_dispatch (RuntimeEvent.RuntimeStateUpdated (RuntimeStateUpdated.mk payload)) uid in mret tt
     else mret tt) ;;!
    modify (absorb e) ;;!
    let! err_uuid := new_event_id in
    match derived_error e err_uuid with
    | Some err => let! err_id := new_event_id in let! _ := bus_dispatch err err_id in mret tt
    | None => mret tt
    end ;;!
    drain.

(** [handle_runtime_event_located_with_parents]; [drain] is its last call. *)
Definition note_mode e : RT bool := fun r =>
  let '(r, u) := match recovery_signal_reason e with Some _ => (set_mode r Running, true) | None => (r, false) end in
  match fatal_invariant_reason e with Some reason => (set_mode r (FatalInvariantHalt reason), Ok true) | None => (r, Ok u) end.
Definition handle (drain : RT unit) e (file : string) (line : N) (parent_ids : list EventId) : RT unit := fun r =>
  let parent_ids := if bool_decide (parent_ids = []) then option_list (rt_last_written_event_id r) else parent_ids in
  if is_route_tick e && bool_decide (parent_ids = []) then (r, Err (Panicked "[FATAL] RouteTick emitted without parent_ids"))
  else if is_fatal_halt_active r && negb (is_allowed_during_fatal_halt e) && negb (is_driver e) then (fresh ;;! mret tt) r
  else
    (let! mode_update := note_mode e in
     modify (fun r => set_observed_events r (rt_observed_events r ++ [e])) ;;!
     let! id := new_event_id in
     modify (fun r => set_dispatched_ids r ({[ id ]} ∪ rt_dispatched_ids r)) ;;!
     match (if is_driver e then Ok tt else validate_before_append e parent_ids) with
     | Err reason => modify (fun r => set_mode r (FatalInvariantHalt reason))
     | Ok _ =>
         append_runtime_event e file line parent_ids id ;;!
         let! consumers := gets (fun r => sync_consumers_len (rt_bus r)) in
         if consumers =? 0 then mret tt else after_append drain e id mode_update
     end) r.

(** [drain_emitted_events]: during replay only the kinds that pass are handled. *)
Definition set_queue (q : list (LocatedEvent V)) r : EventRuntime V := set_bus r (with_emitter (MkEmitter q (em_replay_blocked (b_emitter (rt_bus r)))) (rt_bus r)).
Fixpoint drain (fuel : nat) : RT unit := fun r =>
  match fuel with
  | 0 => (r, Err OutOfFuel)
  | S fuel' =>
      let em := b_emitter (rt_bus r) in
      match em_queue em with
      | [] => (r, Ok tt)
      | le :: rest =>
          let r := set_queue rest r in
          if em_replay_blocked em && negb (passes_replay (le_event le)) then drain fuel' r
          else (handle (drain fuel') (le_event le) (le_file le) (le_line le) (le_parent_ids le) ;;! drain fuel') r
      end
  end.

(** *** Entry points *)

Definition runtime_new (consumers : list (Consumer V)) (cfg : EngineConfig) : EventRuntime V :=
  MkRuntime empty_state (foldl (fun b c => register c b) (bus_new chain_new) consumers) None 0 0 0 jempty 0 false [] ∅ ∅ ∅ None None None false (engine_new cfg) Running.
Definition set_hooks (h : HookChain V) r : EventRuntime V := set_bus r (with_hooks h (rt_bus r)).
Definition set_tlog (w : Writer V) r : EventRuntime V := set_rt_writer r (Some w).
Definition set_replay_blocked (x : bool) r : EventRuntime V := set_bus r (with_emitter (MkEmitter (em_queue (b_emitter (rt_bus r))) x) (rt_bus r)).
Definition reset r : EventRuntime V :=
  let r := set_rt_state r empty_state in
  let r := set_tick r 0 in
  let r := set_runtime_tick r 0 in
  let r := set_runtime_state r jempty in
  let r := set_last_route_tick_emitted r 0 in
  let r := set_replay_blocked false r in
  let r := set_observed_events r [] in
  let r := set_dispatched_ids r ∅ in
  let r := set_last_kind_hash r ∅ in
  let r := set_last_event_id_per_kind r ∅ in
  let r := set_last_written_event_id r None in
  set_mode r Running.
Definition take_observed_events r : EventRuntime V * list (RuntimeEvent.t V) := (set_observed_events r [], rt_observed_events r).

Definition emit_event_located (fuel : nat) e (file : string) (line : N) : RT unit := handle (drain fuel) e file line [] ;;! drain fuel.
Definition emit_event_with_parents (fuel : nat) e (parents : list EventId) (file : string) (line : N) : RT unit := handle (drain fuel) e file line parents ;;! drain fuel.
Definition mark_observed e r : EventRuntime V :=
  match e with
  | RuntimeEvent.LoopObserved lo => set_last_loop_observed_tick (set_last_route_tick_emitted r (LoopObserved.tick lo)) (Some (LoopObserved.tick lo))
  | _ => r
  end.
Definition emit_event (fuel : nat) e : RT unit := modify (mark_observed e) ;;! handle (drain fuel) e "" 0 [] ;;! drain fuel.
Definition emit_debug_event (fuel : nat) (source kind : string) (payload : V) : RT unit := emit_event_located fuel (RuntimeEvent.Debug (DebugEvent.mk source kind payload)) "" 0.

Definition expect {A} (msg : string) (o : option A) : RT A := match o with Some a => mret a | None => fail_with (Panicked msg) end.
Definition emit_tick (fuel : nat) : RT unit :=
  drain fuel ;;!
  modify (fun r => set_route_tick_append_seen (set_runtime_tick r (sat_add64 (rt_runtime_tick r) 1)) false) ;;!
  let! tick := gets rt_runtime_tick in
  emit_event fuel (RuntimeEvent.Tick (Tick.mk tick true)) ;;!
  let! last := gets rt_last_written_event_id in
  let! tick_id := expect "[FATAL] Tick must produce event_id" last in
  emit_event fuel (RuntimeEvent.RouteTick (RouteTick.mk tick true)) ;;!
  let! last := gets rt_last_written_event_id in
  let! route_id := expect "[FATAL] RouteTick must produce event_id" last in
  (if bool_decide (route_id = tick_id) then
     let '(file, line) := site "emit_tick" in
     modify (fun r => set_last_written_event_id r None) ;;! emit_event_with_parents fuel (RuntimeEvent.RouteTick (RouteTick.mk tick true)) [tick_id] file line
   else mret tt) ;;!
  modify (fun r => set_last_route_tick_emitted r tick) ;;!
  let! state := gets rt_runtime_state in
  emit_event fuel (RuntimeEvent.RuntimeStateUpdated (RuntimeStateUpdated.mk (jobj {[ "runtime_tick" := jnum tick; "state" := state ]}))) ;;!
  let! seen := gets rt_observed_events in
  (if bool_decide (seen = []) then fail_with (Panicked "[FATAL] No RuntimeEvent emitted for tick") else mret tt) ;;!
  drain fuel ;;!
  let! durable := gets rt_route_tick_append_seen in
  if (durable : bool) then mret tt else fail_with (Panicked "[FATAL] RouteTick was not durably appended for tick").

Definition handle_kernel_event (fuel : nat) (ev : RustcEvent.t) : RT unit := fun r =>
  let '(r, d) := if is_session_start ev then (set_tick r 0, EventDelta.mk 0 0 ev)
                 else let r := set_tick r (sat_add64 (rt_tick r) 1) in (set_next_id r (sat_add64 (rt_next_id r) 1), EventDelta.mk (rt_next_id r) (rt_tick r) ev) in
  match apply_delta compute_invariant_hash (rt_state r) d with
  | Err m => (r, Err (Returned m))
  | Ok s =>
      (handle (drain fuel) (RuntimeEvent.Code (Code.mk d s)) "" 0 [] ;;!
       match ev with
       | RustcEvent.CompilationUnitFinished cu =>
           let! tick := gets rt_tick in
           let crate := CompilationUnitFinished.crate_name cu in
           handle (drain fuel) (RuntimeEvent.Analysis (AnalysisEvent.Run (AnalysisRun.mk ("analysis-" +:+ crate +:+ "-" +:+ pretty tick) crate None true))) "" 0 [] ;;!
           handle (drain fuel) (RuntimeEvent.Analysis (AnalysisEvent.Workspace (AnalysisWorkspace.mk ("analysis-workspace-" +:+ pretty tick) true))) "" 0 []
       | _ => mret tt
       end) (set_rt_state r s)
  end.

(** ** The replay path *)

Definition handle_replayed_event e : RT unit :=
  modify (fun r => set_observed_events r (rt_observed_events r ++ [e])) ;;!
  let! id := new_event_id in
  let kind := RuntimeEvent.event_kind_str e in
  let! consumers := gets (fun r => sync_consumers_len (rt_bus r)) in
  if consumers =? 0 then fail_with (Returned ("replay dispatch failure: no consumers registered for kind=" +:+ kind))
  else
    modify (set_replay_blocked true) ;;!
    let! count := bus_dispatch e id in
    modify (set_replay_blocked false) ;;!
    if (count =? 0) && negb (bool_decide (kind ∈ SILENT_KINDS)) then fail_with (Returned ("replay dispatch failure: event kind=" +:+ kind +:+ " id=" +:+ id +:+ " delivered to 0 consumers"))
    else
      modify (absorb e) ;;!
      match e with
      | RuntimeEvent.CapabilityFailed _ =>
          let suppressed := RuntimeEvent.Debug (DebugEvent.mk "event-runtime" "replay_suppressed_derived_event" (jobj {[ "replayed_kind" := jstr kind; "suppressed_kind" := jstr "error_occurred" ]})) in
          modify (fun r => set_observed_events r (rt_observed_events r ++ [suppressed]))
      | _ => mret tt
      end.

(** The decoders: of the compiler and edit events, and of a payload of a kind. *)
Context (parse_rustc_event_value : V -> option RustcEvent.t) (parse_edit_event_value : V -> option EditEvent.t) (from_value : EventKind -> V -> option (RuntimeEvent.t V)).

Definition extract_rustc_event (w : CanonEvent V) : option RustcEvent.t := if bool_decide (ev_kind w = EventKind.Code) then parse_rustc_event_value (p_data (ev_payload w)) else None.
Definition extract_edit_event (w : CanonEvent V) : option EditEvent.t := if bool_decide (ev_kind w = EventKind.Edit) then parse_edit_event_value (p_data (ev_payload w)) else None.
Definition REPLAYED_KINDS : list string :=
  ["capability_completed"; "capability_failed"; "error_occurred"; "loop_observed"; "loop_planned"; "planning_completed"; "route_selected"; "loop_acted"; "loop_verified";
   "verifier_policy_updated"; "loop_rewarded"; "agent_registered"; "sub_task_result"; "route_tick"; "invariant_discovered"]%string.
Definition replayed_event (w : CanonEvent V) : option (RuntimeEvent.t V) :=
  let data := p_data (ev_payload w) in
  let kind := EventKind.as_str (ev_kind w) in
  if bool_decide (kind = "runtime_state.updated"%string) then Some (RuntimeEvent.RuntimeStateUpdated (RuntimeStateUpdated.mk data))
  else if bool_decide (kind = "prompt_loaded"%string) && negb (bool_decide (ev_actor w = "event-runtime"%string)) then
    Some (RuntimeEvent.PromptLoaded (PromptLoaded.mk (default data (json_get "data" data))))
  else if bool_decide (kind ∈ REPLAYED_KINDS) then from_value (ev_kind w) data
  else None.
(** The buffered observation, delivered after the route of its tick. *)
Definition deliver_pending (fuel : nat) (tick : N) : RT unit := fun r =>
  match rt_pending_loop_observed r with
  | Some lo =>
      if (LoopObserved.tick lo =? tick)%N then (handle_replayed_event (RuntimeEvent.LoopObserved lo) ;;! drain fuel) (set_pending_loop_observed r None)
      else (set_pending_loop_observed r (Some lo), Ok tt)
  | None => (r, Ok tt)
  end.
Definition process_event (fuel : nat) (w : CanonEvent V) : RT unit := fun r =>
  if bool_decide (ev_id w ∈ rt_dispatched_ids r) then (set_dispatched_ids r (rt_dispatched_ids r ∖ {[ ev_id w ]}), Ok tt)
  else
    let r := set_rt_writer r (notify_replayed_event w <$> rt_writer r) in
    match extract_rustc_event w, extract_edit_event w with
    | Some k, _ => (handle_kernel_event fuel k ;;! drain fuel) r
    | None, Some ed => (handle_replayed_event (RuntimeEvent.Edit ed) ;;! drain fuel) r
    | None, None =>
        match replayed_event w with
        | None => (r, Ok tt)
        | Some e =>
            (handle_replayed_event e ;;! drain fuel ;;!
             match e with RuntimeEvent.RouteSelected p => deliver_pending fuel (RouteSelected.tick p) | _ => mret tt end) r
        end
    end.
Definition process_events (fuel : nat) (events : list (CanonEvent V)) : RT nat :=
  drain fuel ;;! foldr (fun w k => process_event fuel w ;;! k) (mret tt) events ;;!
  let! seen := gets rt_observed_events in
  modify (fun r => set_observed_events r []) ;;!
  let! blocked := gets (fun r => em_replay_blocked (b_emitter (rt_bus r))) in
  (if bool_decide (seen = []) || (blocked : bool) then mret tt else drain fuel) ;;!
  mret (length events).

(** [discard_emitted_events]: empties the queue and counts. *)
Definition discard_emitted_events r : EventRuntime V * nat := (set_queue [] r, length (em_queue (b_emitter (rt_bus r)))).

(** ** The kernel processor thread

    It keeps a compiler state of its own and asks for an analysis when a
    compilation unit is finished. *)
Inductive KernelMsg : Type := KEvent (w : CanonEvent V) | KReset.
Record Processor := MkProcessor { kp_state : RustcState.t; kp_tick : N }.
Definition processor_new : Processor := MkProcessor empty_state 0.
Definition analysis_requests (crate : string) (tick : N) : list (RuntimeEvent.t V) :=
  [RuntimeEvent.Analysis (AnalysisEvent.Run (AnalysisRun.mk ("analysis-k-" +:+ crate +:+ "-" +:+ pretty tick) crate None true));
   RuntimeEvent.Analysis (AnalysisEvent.Workspace (AnalysisWorkspace.mk ("analysis-workspace-k-" +:+ pretty tick) true))].
Definition kernel_step (m : KernelMsg) (k : Processor) : Processor * list (RuntimeEvent.t V) :=
  match m with
  | KReset => (processor_new, [])
  | KEvent w =>
      match extract_rustc_event w with
      | None => (k, [])
      | Some ev =>
          let k := if is_session_start ev then processor_new else MkProcessor (kp_state k) (sat_add64 (kp_tick k) 1) in
          let s := match apply_delta compute_invariant_hash (kp_state k) (EventDelta.mk (kp_tick k) (kp_tick k) ev) with Ok s => s | Err _ => kp_state k end in
          (MkProcessor s (kp_tick k), match ev with RustcEvent.CompilationUnitFinished cu => analysis_requests (CompilationUnitFinished.crate_name cu) (kp_tick k) | _ => [] end)
      end
  end.
Definition kernel_run (ms : list KernelMsg) : Processor * list (RuntimeEvent.t V) :=
  foldl (fun '(k, out) m => let '(k, l) := kernel_step m k in (k, out ++ l)) (processor_new, []) ms.
End Runtime.
Arguments KernelMsg V : clear implicits.
Arguments KEvent {V} _.
Arguments KReset {V}.
