(* ===== verification/RuntimeProps.v ===== *)
(** * Properties of the event runtime

    What the runtime writes passes the writer's checks; which events reach the
    log and the consumers, and which are lost. *)
From Stdlib Require Import Floats.SpecFloat.
From stdpp Require Import pretty.
From S2P Require Import Prelude Json Text PatchParser Wire EventInvariants Codec TlogWriter EventShape KernelTypes SemanticState Events EventBus RuntimeEngine EventRuntime TlogGate.

(** ** Wire events *)

Section Wire.
Context {V : Type} `{Json V} `{!JsonLaws V} `{JsonSer V}.
Implicit Types (e : RuntimeEvent.t V).

(** A payload with an object in every slot and a delta that is not empty. *)
Definition payload_good (p : CanonPayload V) : Prop :=
  json_is_null (p_input p) = false /\ json_is_null (p_output p) = false /\ json_is_null (p_delta p) = false /\ is_zero_delta (p_delta p) = false.

Lemma code_payload_good c file line p : payload_from_shape (RuntimeEvent.Code c) file line = Some p -> payload_good p.
Proof.
  intros [= <-]. unfold payload_good. cbn [p_input p_output p_delta].
  assert (Ho : exists m, Code.payload_output (V := V) c = jobj m) by (unfold Code.payload_output, to_value, RustcEvent.to_json; destruct (EventDelta.event _); by eexists).
  destruct Ho as [m ->]. unfold Code.payload_input, Code.payload_delta, jsingle. rewrite !json_is_null_jobj. split_and!; try done.
  unfold is_zero_delta. rewrite view_jobj. apply bool_decide_eq_false_2. apply insert_non_empty.
Qed.
Lemma shaped_payload_good e file line p : payload_from_shape e file line = Some p -> payload_good p.
Proof.
  assert (He : (exists c, e = RuntimeEvent.Code c) \/ payload_from_shape e file line = '(_, fs) ← shape e;
    Some {| p_input := payload_slot Input fs; p_output := payload_slot Output fs; p_delta := payload_slot Delta fs; p_meta := {| meta_file := file; meta_line := line |}; p_data := payload_data fs |})
    by (destruct e; (right; reflexivity) || (left; by eexists)).
  destruct He as [[c ->]| ->]; [apply code_payload_good|].
  destruct (shape e) as [[s fs]|] eqn:Hs; [|done]. intros [= <-]. apply shape_ok in Hs as [Ha Hf]. destruct (accepted_slots s fs Ha Hf) as [Hnull Hz].
  split_and!; [apply Hnull..|exact Hz].
Qed.

(** The kind under which an event is logged: that of its variant, except for
    the debug event that reports the start of the runtime. *)
Definition logged_kind (e : RuntimeEvent.t V) : EventKind :=
  match e with
  | RuntimeEvent.Debug d => if bool_decide (DebugEvent.kind d = "runtime_started"%string) then EventKind.RuntimeStarted else EventKind.Debug
  | _ => RuntimeEvent.kind e
  end.

(** C36: every event the runtime converts for the log passes the writer's event
    check, keeps its identifier and parents, and carries the kind of its
    variant, except that a debug event of kind runtime_started, and only that,
    is logged as [RuntimeStarted]; it has a parent unless its kind is one of
    the root kinds. *)
Theorem wire_events_valid e parents id file line now w : id <> ""%string -> runtime_event_to_wire e parents id file line now = Ok (Some w) ->
  validate_event w = Ok tt /\ ev_id w = id /\ ev_parent_ids w = parents /\ ev_kind w = logged_kind e /\
  (parents = [] -> ev_kind w ∈ ROOT_KINDS).
Proof.
  intros Hid. unfold runtime_event_to_wire. destruct (wire_kind e) as [k|] eqn:Hk; [|done]. destruct (payload_from_shape e file line) as [p|] eqn:Hp; [|done].
  apply shaped_payload_good in Hp as (Hi & Ho & Hd & Hz). destruct (bool_decide (parents = []) && _) eqn:Hpar; [done|].
  unfold event_new. assert (negb (bool_decide (k ∈ ROOT_KINDS)) && bool_decide (parents = []) = false) as -> by (by rewrite andb_comm). intros [= <-]. cbn [ev_id ev_parent_ids ev_kind].
  split_and!; try done.
  - unfold validate_event. cbn [ev_id ev_payload ev_kind]. apply String.eqb_neq in Hid. by rewrite Hid, Hi, Ho, Hd, Hz.
  - destruct e; cbn [wire_kind] in Hk; try discriminate Hk; by injection Hk as <-.
  - intros ->. rewrite bool_decide_eq_true_2 in Hpar by done. cbn [andb] in Hpar. apply negb_false_iff in Hpar. by apply bool_decide_eq_true_1 in Hpar.
Qed.
End Wire.
Definition started : RuntimeEvent.t jval := RuntimeEvent.Debug (DebugEvent.mk "runtime" "runtime_started" jempty).
Lemma wire_events_valid_witness : exists w, runtime_event_to_wire (V := jval) started [] "t" "f" 1 5 = Ok (Some w) /\ validate_event w = Ok tt /\ ev_kind w = EventKind.RuntimeStarted.
Proof.
  eexists. split; [reflexivity|]. destruct (wire_events_valid (V := jval) started [] "t" "f" 1 5 _ ltac:(discriminate) eq_refl) as (Hv & _ & _ & Hk & _). split; [exact Hv|exact Hk].
Defined.

(** ** The halted runtime *)

Section Live.
Context {V : Type} `{Json V} `{JsonSer V} `{Codec V}.
Context (uuid : nat -> string) (instant now_ms : nat -> N) (site : string -> string * N) (writer_meta : CanonPayloadMeta).
Context (kind_hash : EventKind -> Z) (actor_hash : string -> Z) (text_len : V -> Z) (data_hash : EventKind -> V -> N).
Implicit Types (e : RuntimeEvent.t V) (r : EventRuntime V) (w : CanonEvent V).

Abbreviation handle_ := (handle uuid instant now_ms site writer_meta kind_hash actor_hash text_len data_hash).
Abbreviation append_ := (append_runtime_event uuid now_ms site writer_meta kind_hash actor_hash text_len data_hash).

(** What reaches the outside: the writer and the consumers. *)
Definition outside r : option (Writer V) * list (Consumer V) := (rt_writer r, b_consumers (rt_bus r)).
Definition blocked e : bool := negb (is_allowed_during_fatal_halt e) && negb (is_driver e).

Lemma halted_blocks drain e file line parents r : is_fatal_halt_active r = true -> blocked e = true ->
  exists r', handle_ drain e file line parents r = (r', Ok tt) /\ outside r' = outside r /\ rt_mode r' = rt_mode r.
Proof.
  unfold blocked. intros Hh Hb. unfold handle. assert (is_route_tick e = false) as -> by (destruct e; done). cbn [andb]. rewrite Hh. cbn [andb]. rewrite Hb.
  eexists. split; [reflexivity|]. split; reflexivity.
Qed.

Lemma parentless_halts drain e file line r : rt_last_written_event_id r = None -> is_driver e = false -> is_fatal_halt_active r = false ->
  exists r', handle_ drain e file line [] r = (r', Ok tt) /\ outside r' = outside r /\ rt_mode r' = FatalInvariantHalt "missing_parent_ids".
Proof.
  intros Hl Hd Hh. unfold handle. cbv zeta. rewrite Hl, Hh. set (ps := if bool_decide _ then _ else _). change ps with (@nil EventId). clear ps.
  assert (is_route_tick e = false) as -> by (destruct e; done). cbn [andb].
  assert (Hv : validate_before_append e [] = Err "missing_parent_ids") by (by destruct e).
  unfold note_mode. rewrite Hd, Hv. destruct (recovery_signal_reason e), (fatal_invariant_reason e); (eexists; split; [reflexivity|]; split; reflexivity).
Qed.

(** Handling one event after another. *)
Fixpoint handle_each (calls : list (stateR (EventRuntime V) rfault unit * RuntimeEvent.t V * string * N)) : stateR (EventRuntime V) rfault unit :=
  match calls with [] => mret tt | (drain, e, file, line) :: rest => handle_ drain e file line [] ;;! handle_each rest end.

(** a runtime whose first event has no parent and is not a tick, a route or
    an observation halts on it without a trace in the log; whatever other
    events of the loop follow, they are accepted and reach neither the log nor
    the consumers. *)
Theorem startup_event_halts drain e file line calls r : rt_last_written_event_id r = None -> is_driver e = false -> is_fatal_halt_active r = false ->
  Forall (fun c => blocked c.1.1.2 = true) calls ->
  exists r', handle_each ((drain, e, file, line) :: calls) r = (r', Ok tt) /\ outside r' = outside r /\ rt_mode r' = FatalInvariantHalt "missing_parent_ids".
Proof.
  intros Hl Hd Hh Hc. destruct (parentless_halts drain e file line r Hl Hd Hh) as (r1 & Ha & Ho1 & Hm1). cbn [handle_each]. unfold mbind, stateR_bind. rewrite Ha.
  clear Hl Hd Hh Ha. rewrite <- Ho1. clear Ho1. induction calls as [|[[[d x] f] l] calls IH] in r1, Hc, Hm1 |- *; [eexists; split; [reflexivity|done]|].
  apply Forall_cons in Hc as [Hx Hc]. destruct (halted_blocks d x f l [] r1) as (r2 & Hb & Ho2 & Hm2); [unfold is_fatal_halt_active; by rewrite Hm1|exact Hx|].
  cbn [handle_each]. unfold mbind, stateR_bind. rewrite Hb, <- Ho2. apply IH; [exact Hc|by rewrite Hm2].
Qed.

(** ** Observations emitted directly *)

Lemma engine_observe_writer w r : rt_writer (engine_observe uuid site kind_hash actor_hash text_len w r).1 = rt_writer r.
Proof. unfold engine_observe. by destruct (observe _ _ _ _ _ _ _ _) as [[g b] ok]. Qed.

(** The guard that keeps one observation per tick drops an event whose tick was
    marked before. *)
Lemma marked_observation_not_appended lo file line parents id r : let e := RuntimeEvent.LoopObserved lo in
  rt_writer (append_ e file line parents id (mark_observed e r)).1 = rt_writer r.
Proof.
  cbv zeta. unfold append_runtime_event. destruct (bool_decide (rt_writer _ = None)); [done|]. cbn [is_route_tick andb].
  destruct (runtime_event_to_wire _ _ _ _ _ _) as [[w|]|err]; [|done..]. unfold mbind, stateR_bind.
  set (r1 := set_bus _ _). pose proof (engine_observe_writer w r1) as Hw. assert (Ht : rt_last_loop_observed_tick (engine_observe uuid site kind_hash actor_hash text_len w r1).1 = Some (LoopObserved.tick lo)).
  { unfold engine_observe. by destruct (observe _ _ _ _ _ _ _ _) as [[g b] ok]. }
  destruct (engine_observe _ _ _ _ _ _ r1) as [r2 [ok|]]; [|exact Hw]. cbn [fst] in *. cbn [is_driver negb]. rewrite andb_false_r.
  unfold observed_guard. rewrite Ht, bool_decide_eq_true_2 by done. exact Hw.
Qed.

(** Steps that leave the writer alone. *)
Definition keeps_writer {A} (m : stateR (EventRuntime V) rfault A) : Prop := forall r, rt_writer (m r).1 = rt_writer r.
Lemma keeps_bind {A B} (m : stateR (EventRuntime V) rfault A) (k : A -> stateR (EventRuntime V) rfault B) :
  keeps_writer m -> (forall a, keeps_writer (k a)) -> keeps_writer (m ≫= k).
Proof. intros Hm Hk r. unfold mbind, stateR_bind. specialize (Hm r). destruct (m r) as [r1 [a|x]]; cbn [fst] in *; [by rewrite Hk|done]. Qed.
Lemma keeps_modify (f : EventRuntime V -> EventRuntime V) : (forall r, rt_writer (f r) = rt_writer r) -> keeps_writer (modify f).
Proof. intros Hf r. apply Hf. Qed.
Lemma keeps_dispatch e id : keeps_writer (bus_dispatch uuid instant site e id).
Proof. intros r. unfold bus_dispatch. by destruct (dispatch _ _ _ _ _ _) as [b res]. Qed.
Lemma keeps_after_append drain e id u : keeps_writer drain -> keeps_writer (after_append uuid instant site drain e id u).
Proof.
  intros Hd. unfold after_append, new_event_id, fresh. apply keeps_bind; [apply keeps_dispatch|]. intros n. destruct (_ && _); [by intros r|].
  repeat (apply keeps_bind; intros); try done; try apply keeps_dispatch.
  - destruct u; [|by intros r]. repeat (apply keeps_bind; intros); try done. apply keeps_dispatch.
  - apply keeps_modify. intros r. by destruct e.
  - destruct (derived_error e _); [|by intros r]. repeat (apply keeps_bind; intros); try done. apply keeps_dispatch.
Qed.

(** [emit_event fuel] is [emit_then (drain fuel)]. *)
Definition emit_then (drain : stateR (EventRuntime V) rfault unit) e : stateR (EventRuntime V) rfault unit :=
  modify (mark_observed e) ;;! handle_ drain e "" 0 [] ;;! drain.

(** an observation handed to [emit_event] is never logged: its tick is marked
    as observed first, and the guard of the append then drops it.  The log is
    left as it is unless other events are waiting to be drained. *)
Theorem direct_observation_not_logged drain lo r : keeps_writer drain -> rt_writer (emit_then drain (RuntimeEvent.LoopObserved lo) r).1 = rt_writer r.
Proof.
  intros Hd. unfold emit_then. set (e := RuntimeEvent.LoopObserved lo). unfold modify, mbind, stateR_bind at 1.
  assert (Hh : rt_writer (handle_ drain e "" 0 [] (mark_observed e r)).1 = rt_writer r).
  { unfold handle. cbv zeta. subst e. cbn [is_route_tick is_allowed_during_fatal_halt is_driver negb andb]. rewrite andb_false_r.
    unfold note_mode. cbn [recovery_signal_reason fatal_invariant_reason]. unfold modify, new_event_id, fresh, mret, stateR_ret, mbind, stateR_bind. cbn [fst snd].
    set (ps := if bool_decide _ then _ else _). set (r1 := set_dispatched_ids _ _).
    assert (Hr1 : exists r0, r1 = mark_observed (RuntimeEvent.LoopObserved lo) r0 /\ rt_writer r0 = rt_writer r).
    { exists (set_dispatched_ids (set_bus (set_observed_events r (rt_observed_events r ++ [RuntimeEvent.LoopObserved lo])) (advance (rt_bus r))) ({[ uuid (b_fresh (rt_bus r)) ]} ∪ rt_dispatched_ids r)). split; reflexivity. }
    destruct Hr1 as (r0 & -> & Hw). pose proof (marked_observation_not_appended lo "" 0 ps (uuid (b_fresh (rt_bus r))) r0) as Ha. cbv zeta in Ha.
    cbn [b_fresh rt_bus set_observed_events mark_observed set_last_loop_observed_tick set_last_route_tick_emitted] in *.
    destruct (append_ _ _ _ _ _ _) as [r2 [[]|x]]; cbn [fst] in Ha |- *; [|by rewrite Ha]. unfold gets. destruct (_ =? 0); cbn [fst]; [by rewrite Ha|]. rewrite keeps_after_append by done. by rewrite Ha. }
  change (rt_writer ((handle_ drain e "" 0 [] ;;! drain) (mark_observed e r)).1 = rt_writer r). unfold mbind, stateR_bind.
  destruct (handle_ _ _ _ _ _ _) as [r2 [[]|x]]; cbn [fst] in *; [|exact Hh]. by rewrite Hd.
Qed.

(** ** Ticks and the writer *)

(** Obligations the writer can hold: those of some control event. *)
Definition pending_ok (wr : Writer V) : Prop := forall req, w_pending wr = Some req -> exists ev : CanonEvent V, required_successor ev = Some req.
Lemma obligation_not_tick (ev : CanonEvent V) req : required_successor ev = Some req -> pt_expected req <> EventKind.Tick.
Proof.
  unfold required_successor. destruct (EventKind.class (ev_kind ev)); [|done]. destruct (ev_kind ev); try done; try (by intros [= <-]).
  destruct (route_selected_target ev) as [a|]; [|done]. cbn [mbind option_bind required_successor_kind EventKind.class]. unfold route_successor. split_ifs; cbn; try done; by intros [= <-].
Qed.

Lemma tick_follows_nothing k : EventKind.Tick ∉ EventKind.allowed_next k.
Proof. destruct k; apply (bool_decide_unpack _); vm_compute; exact I. Qed.
Lemma pending_refuses_tick meta o w wr wr' b : ev_kind w = EventKind.Tick -> pending_ok wr -> gate_pending meta o w wr = (wr', Ok b) -> w_pending wr = None.
Proof.
  intros Hk Hp. unfold gate_pending. destruct (w_pending wr) as [req|] eqn:Hreq; [|done]. rewrite Hk. cbn [EventKind.is_control EventKind.class negb].
  destruct (Hp req Hreq) as [ev Hev]. apply obligation_not_tick in Hev. rewrite bool_decide_eq_false_2 by congruence. rewrite !(bool_decide_eq_false_2 (EventKind.Tick = _)) by done. rewrite !andb_false_r.
  unfold mbind, stateR_bind. by destruct (record_rejected_edge _ _ _ _ _ _ _) as [? []].
Qed.
Lemma retry_unchanged meta o w wr wr0 : check_invalid_retry meta o w wr = (wr0, Ok None) -> wr0 = wr.
Proof.
  unfold check_invalid_retry. destruct (_ || _); [by intros [= <-]|]. destruct (head _); [|by intros [= <-]]. destruct (DedupCache.contains _ _); [|by intros [= <-]].
  unfold mbind, stateR_bind. by destruct (record_rejected_edge _ _ _ _ _ _ _) as [? []].
Qed.

Lemma writer_accepts_tick meta o w wr wr' : ev_kind w = EventKind.Tick -> pending_ok wr -> write_canon_event meta o w wr = (wr', Ok tt) ->
  w_pending wr = None /\ (forall prev, w_last_event wr = Some prev -> EventKind.is_control (ev_kind prev) = false).
Proof.
  intros Hk Hp. unfold write_canon_event, mbind, stateR_bind.
  destruct (check_invalid_retry meta o w wr) as [wr0 [[err|]|x]] eqn:Hretry; [done| |done]. apply retry_unchanged in Hretry as ->.
  unfold gate_event. destruct (validate_event w) as [[]|err]; [|unfold mbind, stateR_bind; by destruct (record_rejected_edge _ _ _ _ _ _ _) as [? []]].
  unfold gate_transition. assert (Hpend : forall wr1 b, gate_pending meta o w wr = (wr1, Ok b) -> w_pending wr = None) by (intros wr1 b; by apply pending_refuses_tick).
  destruct (w_last_event wr) as [prev|]; [|destruct (gate_pending _ _ _ _) as [wr1 [b|]]; [by rewrite (Hpend wr1 b)|done]].
  destruct (validate_transition prev w) as [[]|err] eqn:Htr; [|unfold mbind, stateR_bind; by destruct (record_rejected_edge _ _ _ _ _ _ _) as [? []]].
  destruct (gate_pending _ _ _ _) as [wr1 [b|]]; [|done]. intros _. split; [by apply (Hpend wr1 b)|]. intros prev' [= <-]. revert Htr. unfold validate_transition. rewrite Hk.
  destruct (EventKind.is_control (ev_kind prev)); [|done]. cbn [negb EventKind.is_control EventKind.class orb]. by rewrite bool_decide_eq_false_2 by apply tick_follows_nothing.
Qed.

(** C37: a tick is handled without a panic only between cycles: no obligation is
    pending in the writer and the last event of its log is no control event.
    In every other state [emit_event] of a tick panics or blocks forever. *)
Theorem tick_only_between_cycles drain t file line r r' : (forall wr, rt_writer r = Some wr -> pending_ok wr) ->
  handle_ drain (RuntimeEvent.Tick t) file line [] r = (r', Ok tt) ->
  exists wr, rt_writer r = Some wr /\ w_pending wr = None /\ (forall prev, w_last_event wr = Some prev -> EventKind.is_control (ev_kind prev) = false).
Proof.
  intros Hp. unfold handle. cbv zeta. cbn [is_route_tick is_allowed_during_fatal_halt is_driver negb andb]. rewrite andb_false_r. set (ps := if bool_decide _ then _ else _).
  unfold note_mode. cbn [recovery_signal_reason fatal_invariant_reason]. unfold modify, new_event_id, fresh, mret, stateR_ret, mbind, stateR_bind. cbn [fst snd].
  set (r1 := set_dispatched_ids _ _). assert (Hw1 : rt_writer r1 = rt_writer r) by done. clearbody r1 ps.
  destruct (append_ (RuntimeEvent.Tick t) file line ps _ r1) as [r2 [[]|x]] eqn:Ha; [|done]. intros _. revert Ha. unfold append_runtime_event.
  destruct (rt_writer r1) as [wr|] eqn:Hwr; [|by rewrite bool_decide_eq_true_2]. rewrite bool_decide_eq_false_2 by done. cbn [is_route_tick andb is_driver negb].
  unfold runtime_event_to_wire. cbn [wire_kind payload_from_shape shape mbind option_bind]. rewrite andb_comm. cbn [RuntimeEvent.kind]. rewrite (bool_decide_eq_true_2 (EventKind.Tick ∈ ROOT_KINDS)) by (left; done).
  cbn [negb andb event_new]. set (w := {| ev_id := _ |}). unfold mbind, stateR_bind. set (r3 := set_bus r1 _). pose proof (engine_observe_writer w r3) as Hw3.
  destruct (engine_observe _ _ _ _ _ _ r3) as [r4 [ok|]]; [|done]. cbn [fst] in Hw3. rewrite andb_false_r. unfold observed_guard, dedup_gate. cbn [is_driver negb]. rewrite orb_true_r. cbn [negb].
  unfold chain_and_write, mbind, stateR_bind. cbn [is_route_tick]. unfold write_wire. cbn [rt_writer set_last_written_event_id set_last_event_id_per_kind]. rewrite Hw3.
  change (rt_writer r3) with (rt_writer r1). rewrite Hwr. destruct (write_canon_event _ _ _ _) as [wr' [[]|[err|]]] eqn:Hwrite; [|done..]. intros _.
  exists wr. split; [by rewrite <- Hw1|]. apply (writer_accepts_tick _ _ _ _ _) in Hwrite; [exact Hwrite|done|]. apply Hp. by rewrite <- Hw1.
Qed.

(** ** Fuel *)

(** [d'] agrees with [d] wherever [d] does not run out of fuel. *)
Definition extends_to (d d' : stateR (EventRuntime V) rfault unit) : Prop := forall r r' res, d r = (r', res) -> res <> Err OutOfFuel -> d' r = (r', res).
Lemma extends_refl d : extends_to d d.
Proof. by intros r r' res. Qed.
Lemma extends_bind {A} (m : stateR (EventRuntime V) rfault A) k k' : (forall a, extends_to (k a) (k' a)) -> extends_to (m ≫= k) (m ≫= k').
Proof. intros Hk r r' res. unfold mbind, stateR_bind. destruct (m r) as [r1 [a|x]]; [apply Hk|done]. Qed.
Lemma extends_seq d d' k k' : extends_to d d' -> extends_to k k' -> extends_to (d ;;! k) (d' ;;! k').
Proof.
  intros Hd Hk r r' res. unfold mbind, stateR_bind. destruct (d r) as [r1 [[]|x]] eqn:He.
  - rewrite (Hd _ _ _ He) by done. apply Hk.
  - intros [= <- <-] Hx. by rewrite (Hd _ _ _ He).
Qed.
Lemma extends_handle d d' e file line parents : extends_to d d' -> extends_to (handle_ d e file line parents) (handle_ d' e file line parents).
Proof.
  intros Hd r r' res. unfold handle. cbv zeta. destruct (is_route_tick e && _); [done|]. destruct (is_fatal_halt_active r && _ && _); [done|].
  match goal with |- (?m : stateR _ _ _) r = _ -> _ -> (?m' : stateR _ _ _) r = _ => enough (Hx : extends_to m m') by apply Hx end.
  apply extends_bind; intros u. apply extends_bind; intros []. apply extends_bind; intros id. apply extends_bind; intros []. destruct (if is_driver e then _ else _) as [[]|reason]; [|apply extends_refl].
  apply extends_bind; intros []. apply extends_bind; intros n. destruct (n =? 0); [apply extends_refl|]. unfold after_append. apply extends_bind; intros c. destruct (_ && _); [apply extends_refl|].
  apply extends_bind; intros []. apply extends_bind; intros []. apply extends_bind; intros eid. by apply extends_bind; intros [].
Qed.
(** More fuel changes no run that ends: of any two amounts, the results agree
    unless the smaller one is exhausted. *)
Lemma drain_more_fuel n m : n <= m -> extends_to (drain uuid instant now_ms site writer_meta kind_hash actor_hash text_len data_hash n) (drain uuid instant now_ms site writer_meta kind_hash actor_hash text_len data_hash m).
Proof.
  induction n as [|n IH] in m |- *; intros Hnm r r' res; [by intros [= <- <-]|]. destruct m as [|m]; [lia|]. cbn [drain]. destruct (em_queue _) as [|le rest]; [done|].
  destruct (_ && _); [apply IH; lia|]. apply extends_seq; [apply extends_handle|]; apply IH; lia.
Qed.

(** ** Duplicates and the parent of the next event *)

(** An effect whose content is still in the writer's window leaves the files as
    they are, and the write reports success. *)
Lemma duplicate_effect_dropped meta o w wr wr' : EventKind.is_control (ev_kind w) = false -> DedupCache.contains (event_content_hash w) (w_dedup wr) = true ->
  write_canon_event meta o w wr = (wr', Ok tt) -> w_dir wr' = w_dir wr /\ w_last_event wr' = w_last_event wr.
Proof.
  intros Hc Hdup. unfold write_canon_event, mbind, stateR_bind. destruct (check_invalid_retry meta o w wr) as [wr0 [[err|]|x]] eqn:Hr; [done| |done]. apply retry_unchanged in Hr as ->.
  unfold gate_event. destruct (validate_event w) as [[]|err]; [|unfold mbind, stateR_bind; by destruct (record_rejected_edge _ _ _ _ _ _ _) as [? []]].
  unfold gate_transition. assert (Ht : forall prev, validate_transition prev w = Ok tt) by (intros prev; unfold validate_transition; by rewrite Hc, orb_true_r).
  destruct (w_last_event wr) as [prev|] eqn:Hlast; [rewrite (Ht prev)|]; (unfold gate_pending, gate_dedup; rewrite Hc; destruct (w_pending wr) as [req|]; cbn [negb orb];
    unfold DedupCache.insert_if_new; rewrite Hdup; cbn [negb]; intros [= <-]; done).
Qed.

(** an event that the writer drops as a duplicate still becomes the parent of
    the next one: its identifier is recorded as the last one written although
    no file of the log changes. *)
Theorem dropped_event_becomes_parent e w r r' wr : rt_writer r = Some wr -> EventKind.is_control (ev_kind w) = false ->
  DedupCache.contains (event_content_hash w) (w_dedup wr) = true -> chain_and_write uuid now_ms writer_meta e w r = (r', Ok tt) ->
  rt_last_written_event_id r' = Some (ev_id w) /\ (w_dir <$> rt_writer r') = Some (w_dir wr).
Proof.
  intros Hw Hc Hdup. unfold chain_and_write, write_wire, mbind, stateR_bind. cbn [rt_writer set_last_written_event_id set_last_event_id_per_kind]. rewrite Hw.
  destruct (write_canon_event _ _ _ _) as [wr' [[]|[err|]]] eqn:Hwrite; [|done..].
  apply duplicate_effect_dropped in Hwrite as [Hdir _]; [|done..]. destruct (is_route_tick e); intros [= <-]; (split; [reflexivity|]); cbn; by rewrite Hdir.
Qed.
End Live.

(** ** The compiler state *)

Section Code.
Context (hash : N -> N -> N -> string).
Implicit Types (s : RustcState.t) (d : EventDelta.t).

Record code_wf s : Prop := {
  symbols_disjoint : dom (RustcState.known_symbols s) ## RustcState.removed_symbols s;
  edges_disjoint : forall x, x ∈ RustcState.known_edges s -> x ∉ RustcState.removed_edges s
}.
Lemma empty_code_wf : code_wf empty_state.
Proof. split; cbn; [rewrite dom_empty_L; set_solver|by intros x ?%elem_of_nil]. Qed.
Lemma elem_of_drop_edge x y (l : list edge) : x ∈ drop_edge y l <-> x <> y /\ x ∈ l.
Proof. unfold drop_edge. by rewrite list_elem_of_filter. Qed.
Lemma code_event_wf ev s : code_wf s -> code_wf (apply_code_event hash ev s).
Proof.
  destruct s as [t ph last h gv syms edges files rem redges]. intros [Hs He]. cbn in Hs, He. destruct ev; split; cbn; try done; try (rewrite ?dom_insert_L, ?dom_delete_L, ?dom_empty_L; set_solver);
    intros x; rewrite ?elem_of_app, ?elem_of_drop_edge, ?list_elem_of_singleton; first [naive_solver|by intros ?%elem_of_nil].
Qed.

Lemma Ok_inj {E A} (x y : A) : @Ok E A x = Ok y -> x = y.
Proof. by intros [= ]. Qed.

(** Deltas one after another; the first refusal ends the run. *)
Fixpoint apply_deltas s (ds : list EventDelta.t) : result string RustcState.t :=
  match ds with [] => Ok s | d :: ds => match apply_delta hash s d with Ok s => apply_deltas s ds | Err m => Err m end end.
Lemma apply_delta_wf s d s' : code_wf s -> apply_delta hash s d = Ok s' -> code_wf s'.
Proof.
  intros Hs. unfold apply_delta. destruct (_ && _); [done|]. destruct s as [t ph last h gv syms edges files rem redges]. intros Ha. apply Ok_inj in Ha as <-. apply code_event_wf. destruct Hs. by split.
Qed.
Lemma apply_delta_id s d s' : apply_delta hash s d = Ok s' -> is_session_start (EventDelta.event d) = false ->
  (RustcState.last_event_id s < EventDelta.id d)%N /\ RustcState.last_event_id s' = EventDelta.id d.
Proof.
  unfold apply_delta. destruct (EventDelta.id d <=? _)%N eqn:Hle; intros Ha Hss; rewrite Hss in Ha; [done|]. apply N.leb_gt in Hle. split; [done|].
  destruct s as [t ph last h gv syms edges files rem redges]. apply Ok_inj in Ha as <-. revert Hss. by destruct (EventDelta.event d).
Qed.

(** C38: whatever deltas a fresh runtime accepts, no symbol and no edge of the
    compiler state is both known and removed; between session starts their
    identifiers increase, and the state records the last one. *)
Theorem code_state_invariant ds s : apply_deltas empty_state ds = Ok s ->
  code_wf s /\ (forall i d1 d2, ds !! i = Some d1 -> ds !! S i = Some d2 -> is_session_start (EventDelta.event d1) = false -> is_session_start (EventDelta.event d2) = false ->
    (EventDelta.id d1 < EventDelta.id d2)%N).
Proof.
  pose proof empty_code_wf as H0.
  revert H0. generalize empty_state. induction ds as [|d ds IH]; intros s0 H0; cbn [apply_deltas]; [intros [= <-]; by split|].
  destruct (apply_delta hash s0 d) as [s1|m] eqn:Hd; [|done]. intros Hr. destruct (IH s1 (apply_delta_wf _ _ _ H0 Hd) Hr) as [Hwf Hinc]. split; [exact Hwf|].
  intros [|i] d1 d2 Hi Hj; [|by apply (Hinc i)]. intros Hs1 Hs2. cbn in Hi. injection Hi as ->. apply apply_delta_id in Hd as [_ Hl]; [|done].
  destruct ds as [|d' ds]; [done|]. cbn in Hj. injection Hj as ->. cbn [apply_deltas] in Hr. destruct (apply_delta hash s1 d2) as [s2|m] eqn:Hd2; [|done]. apply apply_delta_id in Hd2 as [Hlt _]; [|done]. by rewrite <- Hl.
Qed.
End Code.

(** ** Compiler events and replay *)

Section Kernel.
Context {V : Type} `{Json V} `{JsonSer V} `{Codec V}.
Context (uuid : nat -> string) (instant now_ms : nat -> N) (site : string -> string * N) (writer_meta : CanonPayloadMeta).
Context (kind_hash : EventKind -> Z) (actor_hash : string -> Z) (text_len : V -> Z) (data_hash : EventKind -> V -> N) (hash : N -> N -> N -> string).
Context (parse_rustc_event_value : V -> option RustcEvent.t) (parse_edit_event_value : V -> option EditEvent.t) (from_value : EventKind -> V -> option (RuntimeEvent.t V)).
Implicit Types (r : EventRuntime V) (w : CanonEvent V).

(** a runtime that numbers its compiler events from zero refuses the first
    one, in a fresh state and after every session start: the identifier 0 is
    not above the last one.  Only the counters advance, so the second is accepted. *)
Theorem first_code_event_refused fuel ev r : rt_next_id r = 0%N -> RustcState.last_event_id (rt_state r) = 0%N -> is_session_start ev = false ->
  exists r', handle_kernel_event uuid instant now_ms site writer_meta kind_hash actor_hash text_len data_hash hash fuel ev r =
    (r', Err (Returned "event id must be monotonic id=0 last_event_id=0")) /\
    outside r' = outside r /\ rt_state r' = rt_state r /\ rt_next_id r' = 1%N /\
    (forall tick, exists s, apply_delta hash (rt_state r') (EventDelta.mk (rt_next_id r') tick ev) = Ok s).
Proof.
  intros Hn Hl Hs. unfold handle_kernel_event. rewrite Hs. cbn [rt_next_id set_tick]. rewrite Hn. unfold apply_delta at 1. cbn [EventDelta.id EventDelta.event rt_state set_next_id set_tick].
  rewrite Hl, Hs. cbn [N.leb N.compare andb negb]. eexists. split; [reflexivity|]. split_and!; [reflexivity..|].
  intros tick. unfold apply_delta. cbn [EventDelta.id EventDelta.event rt_state rt_next_id set_next_id set_tick]. rewrite Hl. cbn. destruct (rt_state r). by eexists.
Qed.

(** The arm for state updates names a kind that no event has, so a logged state
    update is passed over on replay. *)
Lemma state_update_not_replayed fuel w r : ev_kind w = EventKind.RuntimeStateUpdated ->
  rt_runtime_state (process_event uuid instant now_ms site writer_meta kind_hash actor_hash text_len data_hash hash parse_rustc_event_value parse_edit_event_value from_value fuel w r).1 = rt_runtime_state r.
Proof.
  intros Hk. unfold process_event. destruct (bool_decide (ev_id w ∈ _)); [done|]. unfold replayed_event, extract_rustc_event, extract_edit_event. rewrite Hk. reflexivity.
Qed.

(** *** The processor thread *)

Abbreviation kernel_step_ := (kernel_step hash parse_rustc_event_value).
Abbreviation kernel_run_ := (kernel_run hash parse_rustc_event_value).
(** Its numbers are the ticks, so the state never lags behind them. *)
Definition processor_wf (k : Processor) : Prop := code_wf (kp_state k) /\ (RustcState.last_event_id (kp_state k) <= kp_tick k <= u64_max)%N.
Lemma processor_new_wf : processor_wf processor_new.
Proof. split; [apply empty_code_wf|done]. Qed.
Lemma apply_code_id ev s : RustcState.last_event_id (apply_code_event hash ev s) = if is_session_start ev then 0%N else RustcState.last_event_id s.
Proof. by destruct s, ev. Qed.
Lemma sat_succ_le n : (n <= u64_max)%N -> (n <= sat_add64 n 1 <= u64_max)%N.
Proof. unfold sat_add64. lia. Qed.
Lemma kernel_step_wf m k : processor_wf k -> processor_wf (kernel_step_ m k).1 /\ (kp_tick (kernel_step_ m k).1 <= kp_tick k + 1)%N.
Proof.
  intros Hk. destruct m as [w|]; [|split; [apply processor_new_wf|cbn; lia]]. unfold kernel_step. destruct (extract_rustc_event _ w) as [ev|]; [|split; [done|cbn; lia]].
  set (k1 := if is_session_start ev then _ else _). assert (Hk1 : processor_wf k1 /\ (kp_tick k1 <= kp_tick k + 1)%N).
  { subst k1. destruct (is_session_start ev); [split; [apply processor_new_wf|cbn; lia]|]. destruct Hk as [Hw [Hl Hu]]. pose proof (sat_succ_le _ Hu). split; [split; [done|]|]; cbn; [lia|]. unfold sat_add64. lia. }
  clearbody k1. cbn [fst kp_tick]. destruct Hk1 as [[Hw [Hl Hu]] Ht]. split; [|done]. destruct (apply_delta _ _ _) as [s|m] eqn:Ha; [|done]. split; cbn; [by eapply apply_delta_wf|]. split; [|done].
  revert Ha. unfold apply_delta. destruct (_ && _); [done|]. destruct (kp_state k1). intros Ha. apply Ok_inj in Ha as <-. rewrite apply_code_id. cbn. destruct (is_session_start ev); lia.
Qed.
Lemma kernel_run_wf ms : processor_wf (kernel_run_ ms).1 /\ (kp_tick (kernel_run_ ms).1 <= lenN ms)%N.
Proof.
  unfold kernel_run. induction ms as [|m ms [Hw Hl]] using rev_ind; [split; [apply processor_new_wf|done]|]. rewrite foldl_app, lenN_app. cbn [foldl].
  destruct (foldl _ _ _) as [k out]. cbn [fst] in *. destruct (kernel_step_wf m k Hw) as [Hs Ht]. destruct (kernel_step_ m k) as [k2 l]. cbn [fst] in *. split; [done|].
  change (lenN [m]) with 1%N. lia.
Qed.

(** until its counter reaches the end of 64 bits the processor thread
    refuses no compiler event, unlike the runtime, and no symbol or edge of its
    state is both known and removed. *)
Theorem kernel_processor_accepts ms w ev : (lenN ms < u64_max)%N -> extract_rustc_event parse_rustc_event_value w = Some ev -> is_session_start ev = false ->
  let k := (kernel_run_ ms).1 in
  code_wf (kp_state k) /\ apply_delta hash (kp_state k) (EventDelta.mk (kp_tick k + 1) (kp_tick k + 1) ev) = Ok (kp_state (kernel_step_ (KEvent w) k).1).
Proof.
  intros Hlen Hev Hss. cbv zeta. destruct (kernel_run_wf ms) as [[Hw [Hl _]] Ht]. set (k := (kernel_run_ ms).1) in *. clearbody k. split; [done|].
  unfold kernel_step. rewrite Hev, Hss. assert (sat_add64 (kp_tick k) 1 = (kp_tick k + 1)%N) as Hsat by (unfold sat_add64; lia). cbn [kp_state kp_tick fst]. rewrite Hsat.
  assert (exists s, apply_delta hash (kp_state k) (EventDelta.mk (kp_tick k + 1) (kp_tick k + 1) ev) = Ok s) as [s Hs].
  { unfold apply_delta. cbn [EventDelta.id]. assert ((kp_tick k + 1 <=? RustcState.last_event_id (kp_state k))%N = false) as -> by (apply N.leb_gt; lia). cbn [andb]. destruct (kp_state k). by eexists. }
  by rewrite Hs.
Qed.
End Kernel.

(** ** A runtime on an empty log *)

(** Lines are the identifiers; nothing is read back. *)
#[local] Instance id_codec : Codec jval := {| to_vec e := Some (String.list_byte_of_string (ev_id e)); from_slice _ := None; from_slice_legacy _ := None; content_hash := toy_hash |}.
Definition runtime0 : EventRuntime jval := set_tlog (empty_writer default_config) (runtime_new [] default_engine_config).
Definition event_name (n : nat) : string := "e" +:+ pretty n.
Definition clock (n : nat) : N := (N.of_nat n + 1)%N.
Definition site0 (l : string) : string * N := (l, 0%N).
Definition meta_zero : CanonPayloadMeta := {| meta_file := "writer"; meta_line := 0 |}.
Definition emit_tick0 : stateR (EventRuntime jval) rfault unit :=
  emit_tick event_name clock clock site0 meta_zero (fun _ => 0%Z) (fun _ => 0%Z) (fun _ => 0%Z) (fun _ _ => 0%N) 20.

(** The first tick of a fresh log is written with its route tick; a second tick
    before an observation is refused by the writer and the runtime panics. *)
Lemma first_tick_ok : (emit_tick0 runtime0).2 = Ok tt.
Proof. vm_compute. reflexivity. Qed.
Lemma second_tick_panics : ((emit_tick0 ;;! emit_tick0) runtime0).2 =
  Err (Panicked ("[FATAL] append failure (no retry allowed) kind=tick id=e12 err=invariant violation: missing required successor after route_tick id=e4; expected=loop_observed; got=tick; "
    +:+ "note=route tick must open exactly one observe cycle before route selection")).
Proof. vm_compute. reflexivity. Qed.

Definition debug_event (k : string) : RuntimeEvent.t jval := RuntimeEvent.Debug (DebugEvent.mk "event_runtime" k jempty).
Definition tool_call : RuntimeEvent.t jval := RuntimeEvent.ToolCall (ToolCall.mk "n" "c" "r" "bash" jempty true).
Lemma startup_event_halts_witness :
  exists r', handle_each event_name clock clock site0 meta_zero (fun _ => 0%Z) (fun _ => 0%Z) (fun _ => 0%Z) (fun _ _ => 0%N)
    [(mret tt, debug_event "startup", "", 0%N); (mret tt, tool_call, "", 0%N)] runtime0 = (r', Ok tt) /\
  outside r' = outside runtime0 /\ rt_mode r' = FatalInvariantHalt "missing_parent_ids".
Proof. apply (startup_event_halts _ _ _ _ _ _ _ _ _ (mret tt) (debug_event "startup") "" 0 [(mret tt, tool_call, "", 0%N)]); [reflexivity..|]. repeat constructor. Defined.

Definition first_observation : LoopObserved.t jval := LoopObserved.mk 1 0 0 [] None summary_default [].
Lemma direct_observation_not_logged_witness :
  rt_writer (emit_then event_name clock clock site0 meta_zero (fun _ => 0%Z) (fun _ => 0%Z) (fun _ => 0%Z) (fun _ _ => 0%N) (mret tt) (RuntimeEvent.LoopObserved first_observation) (emit_tick0 runtime0).1).1
  = rt_writer (emit_tick0 runtime0).1.
Proof. apply (direct_observation_not_logged _ _ _ _ _ _ _ _ _ (mret tt) first_observation). intros r. reflexivity. Defined.

Lemma tick_only_between_cycles_witness :
  exists wr, rt_writer runtime0 = Some wr /\ w_pending wr = None /\ (forall prev, w_last_event wr = Some prev -> EventKind.is_control (ev_kind prev) = false).
Proof.
  apply (tick_only_between_cycles event_name clock clock site0 meta_zero (fun _ => 0%Z) (fun _ => 0%Z) (fun _ => 0%Z) (fun _ _ => 0%N) (mret tt) (Tick.mk 1 true) "" 0 runtime0
    (handle event_name clock clock site0 meta_zero (fun _ => 0%Z) (fun _ => 0%Z) (fun _ => 0%Z) (fun _ _ => 0%N) (mret tt) (RuntimeEvent.Tick (Tick.mk 1 true)) "" 0 [] runtime0).1).
  - intros wr Hw req Hreq. injection Hw as <-. discriminate Hreq.
  - vm_compute. reflexivity.
Defined.

(** The same content twice, with another effect between: the writer drops the
    third event. *)
Definition debug_wire (id : string) : CanonEvent jval := sample_event id EventKind.Debug 9.
Definition with_debug : EventRuntime jval := (chain_and_write event_name clock meta_zero (debug_event "x") (debug_wire "d1") runtime0).1.
Lemma dropped_event_becomes_parent_witness :
  rt_last_written_event_id (chain_and_write event_name clock meta_zero (debug_event "x") (debug_wire "d2") with_debug).1 = Some "d2"%string.
Proof.
  assert (Hw : exists wr, rt_writer with_debug = Some wr /\ DedupCache.contains (event_content_hash (debug_wire "d2")) (w_dedup wr) = true) by (eexists; split; [reflexivity|vm_compute; reflexivity]).
  destruct Hw as (wr & Hw & Hd). destruct (chain_and_write event_name clock meta_zero (debug_event "x") (debug_wire "d2") with_debug) as [r' res] eqn:Hc.
  assert (res = Ok tt) as -> by (change res with (r', res).2; rewrite <- Hc; vm_compute; reflexivity).
  exact (proj1 (dropped_event_becomes_parent event_name clock meta_zero (debug_event "x") (debug_wire "d2") with_debug r' wr Hw eq_refl Hd Hc)).
Defined.

Definition seen_file : RustcEvent.t := RustcEvent.FileSeen (FileSeen.mk "a.rs" true).
Lemma code_state_invariant_witness : exists s, apply_deltas (fun _ _ _ => ""%string) empty_state [EventDelta.mk 1 1 seen_file; EventDelta.mk 2 2 seen_file] = Ok s /\ code_wf s.
Proof. eexists. split; [reflexivity|]. apply (code_state_invariant (fun _ _ _ => ""%string) [EventDelta.mk 1 1 seen_file; EventDelta.mk 2 2 seen_file]). reflexivity. Defined.

Lemma first_code_event_refused_witness :
  exists r', handle_kernel_event event_name clock clock site0 meta_zero (fun _ => 0%Z) (fun _ => 0%Z) (fun _ => 0%Z) (fun _ _ => 0%N) (fun _ _ _ => ""%string) 5 seen_file runtime0
    = (r', Err (Returned "event id must be monotonic id=0 last_event_id=0")).
Proof.
  destruct (first_code_event_refused event_name clock clock site0 meta_zero (fun _ => 0%Z) (fun _ => 0%Z) (fun _ => 0%Z) (fun _ _ => 0%N) (fun _ _ _ => ""%string) 5 seen_file runtime0) as (r' & Hr & _);
    [reflexivity..|]. by exists r'.
Defined.

Definition code_event0 : CanonEvent jval := sample_event "k" EventKind.Code 1.
Lemma kernel_processor_accepts_witness :
  let step := kernel_step (fun _ _ _ => ""%string) (fun _ : jval => Some seen_file) in
  apply_delta (fun _ _ _ => ""%string) empty_state (EventDelta.mk 1 1 seen_file) = Ok (kp_state (step (KEvent code_event0) processor_new).1).
Proof.
  exact (proj2 (kernel_processor_accepts (V := jval) (fun _ _ _ => ""%string) (fun _ => Some seen_file) [] code_event0 seen_file eq_refl eq_refl eq_refl)).
Defined.
