(* ===== verification/Goal.v ===== *)
(** * Goals ([canon-goal/src/lib.rs], [canon-route/src/helpers.rs])

    A goal is read from a markdown file: the paragraph under the title is its
    description, list items are its requirements.  The route context decides
    from the requirements whether the goal is met. *)
From S2P Require Import Prelude Json Text PatchParser TextFormat.

Record GoalSpec {V : Type} := MkGoal {
  gs_schema_version : N; gs_id : bytes; gs_goal_type : bytes; gs_target_path : option bytes; gs_description : bytes;
  gs_constraints : list bytes; gs_requirements : list bytes; gs_metadata : V
}.
Arguments GoalSpec V : clear implicits.
Arguments MkGoal {V} _ _ _ _ _ _ _ _.

(** [str::trim_start_matches] with a string, and [str::trim_matches] with a
    character. *)
Fixpoint strip_all (p : bytes) (fuel : nat) (l : bytes) : bytes :=
  match fuel, strip_prefix p l with S fuel', Some rest => strip_all p fuel' rest | _, _ => l end.
Definition trim_start_str (p l : bytes) : bytes := strip_all p (length l) l.
Definition trim_matches (c : byte) (l : bytes) : bytes := reverse (trim_start_matches c (reverse (trim_start_matches c l))).
Definition BACKTICK : byte := x60.

Section Goal.
Context {V : Type} `{Json V}.

(** [GoalSpec::default()]. *)
Definition goal_default : GoalSpec V := MkGoal 1 (lit "agent_goal") (lit "workspace_task") None [] [] [] jempty.

(** One line: whether it is still in the description, the description so far,
    the path and the requirements. *)
Record GoalLines := MkGoalLines { gl_in_description : bool; gl_description : list bytes; gl_path : option bytes; gl_requirements : list bytes }.
Definition goal_line (st : GoalLines) (line : bytes) : GoalLines :=
  let '(MkGoalLines in_d desc path reqs) := st in
  let trimmed := trim line in
  if starts_with (lit "# ") trimmed then MkGoalLines true desc path reqs
  else
    let in_d := if starts_with (lit "## ") trimmed then false else in_d in
    let desc := if in_d && negb (bool_decide (trimmed = [])) then desc ++ [trimmed] else desc in
    match strip_prefix (lit "- Project path:") trimmed with
    | Some p =>
        let candidate := trim_matches BACKTICK (trim p) in
        MkGoalLines in_d desc (if bool_decide (candidate = []) then path else Some candidate) reqs
    | None =>
        if starts_with (lit "- ") trimmed then MkGoalLines in_d desc path (reqs ++ [trim (trim_start_str (lit "- ") trimmed)])
        else MkGoalLines in_d desc path reqs
    end.
Definition parse_agent_goal_markdown (text : bytes) : GoalSpec V :=
  let st := foldl goal_line (MkGoalLines false [] None []) (str_lines text) in
  MkGoal (gs_schema_version goal_default) (gs_id goal_default) (gs_goal_type goal_default) (gl_path st) (join (lit " ") (gl_description st)) [] (gl_requirements st) (gs_metadata goal_default).

Definition NL : bytes := [x0a].
Definition summarize_goal (g : GoalSpec V) : bytes :=
  let desc := if bool_decide (gs_description g = []) then lit "(no description)" else gs_description g in
  let target := default (lit "(unspecified)") (gs_target_path g) in
  let reqs := if bool_decide (gs_requirements g = []) then lit "(none)" else join NL ((fun r => lit "- " ++ r) <$> take 6 (gs_requirements g)) in
  desc ++ NL ++ lit "target: " ++ target ++ NL ++ lit "requirements:" ++ NL ++ reqs.

(** [extract_loc_requirement]: the digits of the first requirement that
    mentions lines of code and parses. *)
Definition lower_byte (b : byte) : byte := if (65 <=? Byte.to_N b)%N && (Byte.to_N b <=? 90)%N then default b (Byte.of_N (Byte.to_N b + 32)) else b.
Definition lowercase (l : bytes) : bytes := lower_byte <$> l.
Definition is_digit_byte (b : byte) : bool := (48 <=? Byte.to_N b)%N && (Byte.to_N b <=? 57)%N.
Definition loc_of_requirement (req : bytes) : option N :=
  if PatchParser.contains (lit "loc") (lowercase req) then parse_uint u64_max (List.filter is_digit_byte req) else None.
Fixpoint find_map {A B} (f : A -> option B) (l : list A) : option B :=
  match l with [] => None | x :: l' => match f x with Some y => Some y | None => find_map f l' end end.
Definition extract_loc_requirement (g : GoalSpec V) : N := default 0%N (find_map loc_of_requirement (gs_requirements g)).
(** The lines of Rust code of the workspace are counted by the caller. *)
Definition evaluate_goal_satisfied (spec : option (GoalSpec V)) (loc : N) : bool :=
  match spec with
  | None => false
  | Some g => let required := extract_loc_requirement g in if (required =? 0)%N then false else (required <=? loc)%N
  end.
End Goal.
