(* ===== verification/RouteContext.v ===== *)
(** * The context of the router ([canon-route/src/context.rs], [causal.rs])

    What the route executor knows: it is updated by every event the executor
    sees.  [None] is a panic: a counter that overflows, or a text cut inside a
    character. *)
From Stdlib Require Import Floats.SpecFloat Ascii.
From stdpp Require Import pretty.
From S2P Require Import Prelude Json Text PatchParser TextFormat Wire EventShape KernelTypes Gatekeeper SemanticState Objectives LoopPolicy Goal Events.

(** ** The causal graph *)

(** [str::split_once] with a character. *)
Fixpoint split_once (c : Ascii.ascii) (s : string) : option (string * string) :=
  match s with
  | EmptyString => None
  | String a rest => if Ascii.eqb a c then Some (EmptyString, rest) else (fun p => (String a p.1, p.2)) <$> split_once c rest
  end.

Inductive CausalNodeKind : Type :=
| CLlmCall (request_id : string) (role agent_id : option string)
| CLoopPlanned (action_id action_kind : string)
| CToolCall (tool_call_id kind : string)
| CToolResult (tool_result_id : string) (success : bool)
| CLoopActed (action_id : option string) (success : bool)
| CLoopVerified (passed : bool)
| CSubTaskResult (dispatch_id agent_id : string) (success : bool).
Record CausalEdge := MkEdge { ce_from : string; ce_to : string; ce_kind : string }.
Record CausalGraph := MkCausal { cg_nodes : gmap string CausalNodeKind; cg_edges : list CausalEdge }.
#[export] Instance CausalGraph_eta : Eta CausalGraph := fun g => MkCausal (cg_nodes g) (cg_edges g).
Definition causal_default : CausalGraph := MkCausal ∅ [].

(** The first description of a node stays. *)
Definition upsert_node (key : string) (k : CausalNodeKind) (g : CausalGraph) : CausalGraph :=
  g <| cg_nodes ::= fun m => match m !! key with Some _ => m | None => <[ key := k ]> m end |>.
Definition push_edge (from to kind : string) (g : CausalGraph) : CausalGraph := g <| cg_edges ::= fun l => l ++ [MkEdge from to kind] |>.

Section Causal.
Context {V : Type}.
Definition record_llm_call (request_id : string) (role agent_id : option string) : CausalGraph -> CausalGraph := upsert_node request_id (CLlmCall request_id role agent_id).
Definition record_planned (p : LoopPlanned.t V) (g : CausalGraph) : CausalGraph :=
  match LoopPlanned.action_id p with
  | None => g
  | Some aid =>
      let g := upsert_node aid (CLoopPlanned aid (LoopPlanned.action_kind p)) g in
      let g := match LoopPlanned.llm_request_id p with Some r => push_edge r aid "caused" g | None => g end in
      foldl (fun g dep => push_edge dep aid "depends_on" g) g (LoopPlanned.depends_on p)
  end.
Definition record_tool_call (tc : ToolCall.t V) (g : CausalGraph) : CausalGraph :=
  let id := ToolCall.tool_call_id tc in
  let g := upsert_node id (CToolCall id (ToolCall.kind tc)) g in
  match split_once ":"%char (ToolCall.node_id tc) with Some (aid, _) => push_edge aid id "triggered" g | None => g end.
Definition record_tool_result (tr : ToolResult.t V) (g : CausalGraph) : CausalGraph :=
  let id := ToolResult.tool_result_id tr in push_edge (ToolResult.tool_call_id tr) id "resolved" (upsert_node id (CToolResult id (ToolResult.success tr)) g).
Definition record_acted (a : LoopActed.t) (g : CausalGraph) : CausalGraph :=
  let key := default (LoopActed.capability_request_id a) (LoopActed.tool_result_id a) in
  let g := upsert_node key (CLoopActed (LoopActed.action_id a) (LoopActed.success a)) g in
  let g := match LoopActed.action_id a with Some aid => push_edge aid key "executed" g | None => g end in
  match LoopActed.tool_result_id a with Some tr => push_edge tr key "resulted_in" g | None => g end.
Definition record_sub_result (dispatch_id agent_id : string) (success : bool) (g : CausalGraph) : CausalGraph :=
  let key := "subresult:" +:+ dispatch_id in push_edge dispatch_id key "completed" (upsert_node key (CSubTaskResult dispatch_id agent_id success) g).
Definition update_causal_graph (e : RuntimeEvent.t V) (g : CausalGraph) : CausalGraph :=
  match e with
  | RuntimeEvent.LoopPlanned p => record_planned p g
  | RuntimeEvent.LoopActed a => record_acted a g
  | RuntimeEvent.ToolCall tc => record_tool_call tc g
  | RuntimeEvent.ToolResult tr => record_tool_result tr g
  | RuntimeEvent.SubTaskResult r => record_sub_result (SubTaskResult.dispatch_id r) (SubTaskResult.agent_id r) (SubTaskResult.success r) g
  | _ => g
  end.
End Causal.

(** ** Uncommitted work *)

Definition WorkspaceDirtyTracker : Type := gmap string (list string).
Definition mark_dirty (agent : string) (action_id : option string) (t : WorkspaceDirtyTracker) : WorkspaceDirtyTracker :=
  <[ agent := default [] (t !! agent) ++ option_list action_id ]> t.
Definition mark_verified (agent : string) (t : WorkspaceDirtyTracker) : WorkspaceDirtyTracker := delete agent t.
Definition any_dirty (t : WorkspaceDirtyTracker) : bool := negb (bool_decide (t = ∅)).
Definition all_clean (t : WorkspaceDirtyTracker) : bool := bool_decide (t = ∅).

(** ** The context *)

Record JournalLine {V : Type} := MkJournal { jl_lane : string; jl_summary : string; jl_data : V }.
Arguments JournalLine V : clear implicits.
Arguments MkJournal {V} _ _ _.
Record RouteContext {V : Type} := MkRouteContext {
  rc_scheduler_tick : N;
  rc_mission_raw : bytes;
  rc_mission_summary : bytes;
  rc_mission_goal_spec : option (GoalSpec V);
  rc_context_ready : bool;
  rc_workspace_dirty_tracker : WorkspaceDirtyTracker;
  rc_acted_unverified : bool;
  rc_pending_tool_result_ids : gset string;
  rc_recent_tool_results : list V;
  rc_finish_ready : bool;
  rc_last_action_kind : string;
  rc_verify_seen : bool;
  rc_last_verify_diagnostics : list string;
  rc_last_verifier_outcome : option string;
  rc_last_verifier_retry_policy : option string;
  rc_last_verifier_reward_bias : option string;
  rc_last_verifier_actionable_failure : option bool;
  rc_journal : list (JournalLine V);
  rc_last_llm_signals : option V;
  rc_halted : bool;
  rc_goodness : option f32;
  rc_delta_g : option f32;
  rc_objective_trend_state : ObjectiveTrendState;
  rc_batch_settled : option (N * bool);
  rc_batch_result_count : N;
  rc_batch_any_failed : bool;
  rc_consecutive_llm_plan_failures : N;
  rc_batch_is_plan_only : bool;
  rc_last_invalid_plan_reason : option string;
  rc_last_invalid_plan_planned_count : option N;
  rc_consecutive_invalid_plan_batches : N;
  rc_bootstrap_refresh_required : bool;
  rc_semantic_summary : SemanticStateSummary;
  rc_recent_execution_results : list ExecResult;
  rc_last_halt_reason : option string;
  rc_action_meta : gmap string (string * option string);
  rc_action_semantic_intents : gmap string (list SemanticActionIntent);
  rc_causal_graph : CausalGraph
}.
Arguments RouteContext V : clear implicits.
Arguments MkRouteContext {V} _ _ _ _ _ _ _ _ _ _ _ _ _ _ _ _ _ _ _ _ _ _ _ _ _ _ _ _ _ _ _ _ _ _ _ _ _ _.
#[export] Instance RouteContext_eta {V} : Eta (RouteContext V) := fun r =>
  MkRouteContext (rc_scheduler_tick r) (rc_mission_raw r) (rc_mission_summary r) (rc_mission_goal_spec r) (rc_context_ready r) (rc_workspace_dirty_tracker r) (rc_acted_unverified r) (rc_pending_tool_result_ids r) (rc_recent_tool_results r) (rc_finish_ready r) (rc_last_action_kind r) (rc_verify_seen r) (rc_last_verify_diagnostics r) (rc_last_verifier_outcome r) (rc_last_verifier_retry_policy r) (rc_last_verifier_reward_bias r) (rc_last_verifier_actionable_failure r) (rc_journal r) (rc_last_llm_signals r) (rc_halted r) (rc_goodness r) (rc_delta_g r) (rc_objective_trend_state r) (rc_batch_settled r) (rc_batch_result_count r) (rc_batch_any_failed r) (rc_consecutive_llm_plan_failures r) (rc_batch_is_plan_only r) (rc_last_invalid_plan_reason r) (rc_last_invalid_plan_planned_count r) (rc_consecutive_invalid_plan_batches r) (rc_bootstrap_refresh_required r) (rc_semantic_summary r) (rc_recent_execution_results r) (rc_last_halt_reason r) (rc_action_meta r) (rc_action_semantic_intents r) (rc_causal_graph r).
Definition route_context_new {V} : RouteContext V :=
  MkRouteContext 0 [] [] None false ∅ false ∅ [] false "" false [] None None None None [] None false None None trend_default None 0 false 0 false None None 0 false summary_default [] None ∅ ∅ causal_default.

Definition READ_ONLY_ACTIONS : list string := ["list_dir"; "read_file"; "search_files"; "done"]%string.
Definition read_only (action_kind : string) : bool := bool_decide (action_kind ∈ READ_ONLY_ACTIONS).
Definition is_successful_bootstrap (action_kind : string) (success : bool) (stderr : string) : bool :=
  success && String.eqb action_kind "run_command" &&
  existsb (fun p => str_contains p stderr)
    ["Creating binary (application) package"; "Creating library package"; "Creating binary (application) `"; "Creating library `"]%string.
Definition goal_is_placeholder (goal : string) : bool :=
  let t := trim (lit goal) in bool_decide (t = []) || PatchParser.contains (lit "goal-pending") t.
Definition semantic_has_target_state (s : SemanticStateSummary) : bool := ss_complete s || bool_decide (is_Some (ss_target_root s)).

(** [drain(0..n)] down to the last [n] entries. *)
Definition keep_last {A} (n : nat) (l : list A) : list A := drop (length l - n) l.
Definition fmt_bool_s (b : bool) : string := if b then "true" else "false".
Definition opt_field (label : string) (o : option string) : string := match o with Some s => label +:+ s | None => "" end.
Definition join_s (sep : string) (l : list string) : string := match l with [] => "" | x :: r => foldl (fun acc y => acc +:+ sep +:+ y) x r end.

Section Context.
Context {V : Type} `{Json V} `{JsonSer V}.
(** The printed forms of JSON values and of single-precision floats. *)
Context (json_text : V -> string) (show_f32 : f32 -> string).
Implicit Types (c : RouteContext V) (e : RuntimeEvent.t V).

Definition record_planning_completion_ctx (status : string) c : option (RouteContext V) :=
  if one_of status ["llm_failed"; "llm_timeout"] then n ← add32 (rc_consecutive_llm_plan_failures c) 1; Some (c <| rc_consecutive_llm_plan_failures := n |>)
  else if String.eqb status "ok" then Some (c <| rc_consecutive_llm_plan_failures := 0%N |>)
  else Some c.
Definition target_workspace_missing_state c : bool := semantic_has_target_state (rc_semantic_summary c) && negb (ss_path_exists (rc_semantic_summary c)).
Definition objective_state c : option ObjState :=
  derive_self_development_objective_state (rc_semantic_summary c) (rc_consecutive_invalid_plan_batches c) (rc_recent_execution_results c) (rc_objective_trend_state c).
Definition refresh_objective_trend_state c : RouteContext V :=
  let t := rc_objective_trend_state c in
  c <| rc_objective_trend_state := derive_objective_trend_state (ot_planning_attempts t) (ot_invalid_plan_events t) (rc_goodness c) (rc_delta_g c) (rc_recent_execution_results c) |>.
Definition push_journal (lane summary : string) c : RouteContext V :=
  c <| rc_journal ::= fun j => keep_last 32 (j ++ [MkJournal lane summary jnull]) |>.

(** *** One handler per kind of event *)

Definition on_observed (o : LoopObserved.t V) c : RouteContext V :=
  let goal := LoopObserved.goal_text o in
  let errors := LoopObserved.error_count o in
  let goal_present := match goal with Some g => negb (goal_is_placeholder g) | None => false end in
  let c := c <| rc_context_ready := goal_present || (0 <? errors)%N |> <| rc_bootstrap_refresh_required := false |> <| rc_semantic_summary := LoopObserved.semantic_summary o |> in
  let c := c <| rc_objective_trend_state ::= fun t => record_observation t errors (rc_semantic_summary c) |> in
  let c := match goal with
           | Some g =>
               if goal_is_placeholder g then c
               else let spec := parse_agent_goal_markdown (lit g) in
                    c <| rc_mission_raw := lit g |> <| rc_mission_summary := summarize_goal spec |> <| rc_mission_goal_spec := Some spec |>
           | None => c
           end in
  push_journal "observe" ("tick=" +:+ pretty (rc_scheduler_tick c) +:+ " goal_present=" +:+ fmt_bool_s goal_present +:+ " errors=" +:+ pretty errors) c.

Definition on_planned (p : LoopPlanned.t V) c : option (RouteContext V) :=
  let c := c <| rc_causal_graph ::= update_causal_graph (RuntimeEvent.LoopPlanned p) |> in
  let c := match LoopPlanned.signals p with Some s => c <| rc_last_llm_signals := Some s |> | None => c end in
  c ← match LoopPlanned.action_id p with
      | None => Some c
      | Some aid =>
          let c := c <| rc_action_meta ::= <[ aid := (LoopPlanned.action_kind p, LoopPlanned.llm_request_id p) ]> |> in
          intents ← classify_planned_action_intents (LoopPlanned.action_kind p) (LoopPlanned.action_payload p) (ss_target_root (rc_semantic_summary c));
          Some (c <| rc_action_semantic_intents ::= <[ aid := intents ]> |>)
      end;
  Some (push_journal "plan" ("planned action=" +:+ LoopPlanned.action_kind p +:+ opt_field " plan_id=" (LoopPlanned.plan_id p) +:+
    opt_field " action_id=" (LoopPlanned.action_id p) +:+ opt_field " llm_request_id=" (LoopPlanned.llm_request_id p)) c).

Definition forget_invalid_plans c : RouteContext V :=
  c <| rc_consecutive_invalid_plan_batches := 0%N |> <| rc_last_invalid_plan_reason := None |> <| rc_last_invalid_plan_planned_count := None |>.
(** What a successful bootstrap clears from the summary. *)
Definition bootstrapped (s : SemanticStateSummary) : SemanticStateSummary :=
  set_compiler_hints (set_repair_intents (set_compiler_repair_required (set_validation_blocked_by_preconditions (set_planning_preconditions (set_path_exists s true) []) false) false) []) [].
Definition on_acted (a : LoopActed.t) c : RouteContext V :=
  let kind := LoopActed.action_kind a in
  let c := if read_only kind then c else forget_invalid_plans c in
  let c := c <| rc_causal_graph ::= update_causal_graph (V := V) (RuntimeEvent.LoopActed a) |> in
  let c := if read_only kind then c else c <| rc_acted_unverified := true |> <| rc_workspace_dirty_tracker ::= mark_dirty "orchestrator" (LoopActed.action_id a) |> in
  let c := match LoopActed.tool_call_id a, LoopActed.tool_result_id a with
           | Some call, Some _ => c <| rc_pending_tool_result_ids ::= fun s => s ∖ {[ call ]} |>
           | _, _ => c
           end in
  let c := match LoopActed.action_id a with
           | Some aid =>
               match rc_action_semantic_intents c !! aid with
               | Some intents =>
                   let results := execution_results_for_action intents (LoopActed.success a) (lit (LoopActed.stderr a)) in
                   c <| rc_action_semantic_intents ::= delete aid |>
                     <| rc_objective_trend_state ::= fun t => record_execution_results t results |>
                     <| rc_recent_execution_results ::= fun l => keep_last 16 (l ++ results) |>
               | None => c
               end
           | None => c
           end in
  let c := if is_successful_bootstrap kind (LoopActed.success a) (LoopActed.stderr a)
           then c <| rc_bootstrap_refresh_required := true |> <| rc_semantic_summary ::= bootstrapped |> else c in
  let c := c <| rc_last_action_kind := kind |> in
  push_journal "act" ("executed action=" +:+ kind +:+ " success=" +:+ fmt_bool_s (LoopActed.success a) +:+ " capability_request_id=" +:+ LoopActed.capability_request_id a +:+
    opt_field " tool_call_id=" (LoopActed.tool_call_id a) +:+ opt_field " tool_result_id=" (LoopActed.tool_result_id a)) c.

(** [loc] are the lines of Rust code found in the workspace. *)
Definition on_verified (loc : N) (v : LoopVerified.t) c : RouteContext V :=
  let diags := LoopVerified.diagnostics v in
  let c := c <| rc_acted_unverified := false |> <| rc_verify_seen := true |> <| rc_last_verify_diagnostics := diags |> in
  let repair := existsb (fun d => str_contains "allow(dead_code) incompatible with previous forbid" d || str_contains "file not found for module `" d) diags in
  let c := c <| rc_semantic_summary ::= fun s => set_compiler_repair_required s repair |> <| rc_workspace_dirty_tracker ::= mark_verified "orchestrator" |> in
  let done_action := String.eqb (rc_last_action_kind c) "done" in
  let satisfied := done_action && LoopVerified.passed v || evaluate_goal_satisfied (rc_mission_goal_spec c) loc in
  let c := c <| rc_finish_ready := LoopVerified.compiler_clean v && satisfied |> in
  push_journal "verify" ("passed=" +:+ fmt_bool_s (LoopVerified.compiler_clean v) +:+ " done_action=" +:+ fmt_bool_s done_action +:+ " system_satisfied=" +:+ fmt_bool_s satisfied +:+
    " diagnostics=" +:+ join_s "|" diags) c.
Definition on_policy_updated (u : VerifierPolicyUpdated.t) c : RouteContext V :=
  let c := c <| rc_last_verifier_outcome := Some (VerifierPolicyUpdated.verifier_outcome u) |> <| rc_last_verifier_retry_policy := Some (VerifierPolicyUpdated.retry_policy u) |>
             <| rc_last_verifier_reward_bias := Some (VerifierPolicyUpdated.reward_bias u) |> <| rc_last_verifier_actionable_failure := Some (VerifierPolicyUpdated.actionable_failure u) |> in
  push_journal "policy_update" ("verifier_outcome=" +:+ VerifierPolicyUpdated.verifier_outcome u +:+ " retry_policy=" +:+ VerifierPolicyUpdated.retry_policy u +:+
    " reward_bias=" +:+ VerifierPolicyUpdated.reward_bias u +:+ " actionable_failure=" +:+ fmt_bool_s (VerifierPolicyUpdated.actionable_failure u)) c.
Definition on_rewarded (w : LoopRewarded.t) c : RouteContext V :=
  let halt := LoopRewarded.halt w in
  let c := if halt then c <| rc_halted := true |> <| rc_last_halt_reason := Some "loop_rewarded requested halt"%string |> else c in
  push_journal "reward" ("halt=" +:+ fmt_bool_s halt) c.
Definition on_sub_task (r : SubTaskResult.t V) c : RouteContext V :=
  let c := c <| rc_workspace_dirty_tracker ::= mark_dirty (SubTaskResult.agent_id r) None |> in
  let c := if SubTaskResult.success r then c <| rc_acted_unverified := true |> else c in
  c <| rc_causal_graph ::= update_causal_graph (RuntimeEvent.SubTaskResult r) |>.

Definition on_invalid_plan (err : ErrorOccurred.t V) c : RouteContext V :=
  let count := json_get "planned_count" (ErrorOccurred.context err) ≫= json_as_u64 in
  let c := c <| rc_consecutive_invalid_plan_batches ::= fun n => sat_add32 n 1 |> <| rc_objective_trend_state ::= record_invalid_plan_event |>
             <| rc_last_invalid_plan_reason := Some (ErrorOccurred.message err) |> <| rc_last_invalid_plan_planned_count := count |> in
  push_journal "plan" ("invalid_plan_batch count=" +:+ pretty (rc_consecutive_invalid_plan_batches c) +:+ " planned_count=" +:+ match count with Some n => pretty n | None => "NA" end +:+
    " reason=" +:+ ErrorOccurred.message err) c.
Definition on_planning_completed (pc : PlanningCompleted.t) c : RouteContext V :=
  let c := c <| rc_objective_trend_state ::= fun t => record_planning_completion t (lit (PlanningCompleted.status pc)) |> in
  if String.eqb (PlanningCompleted.status pc) "invalid_plan" then c else forget_invalid_plans c.
Definition on_debug (kind : string) c : RouteContext V :=
  if String.eqb kind "bootstrap_refresh_required" then
    push_journal "observe" "bootstrap_refresh_required" (c <| rc_bootstrap_refresh_required := true |> <| rc_semantic_summary ::= fun s => set_path_exists s true |>)
  else if String.eqb kind "route_objective_contradiction" then
    push_journal "route" "route_objective_contradiction" (c <| rc_objective_trend_state ::= record_route_objective_contradiction |>)
  else if String.eqb kind "goal_objective_drift" then
    push_journal "goal" "goal_objective_drift" (c <| rc_objective_trend_state ::= record_goal_objective_drift |>)
  else c.

Definition on_tool_call (tc : ToolCall.t V) c : RouteContext V :=
  let c := c <| rc_batch_result_count := 0%N |> <| rc_batch_any_failed := false |> <| rc_batch_settled := None |> <| rc_batch_is_plan_only := String.eqb (ToolCall.kind tc) "llm.plan" |> in
  c <| rc_pending_tool_result_ids ::= fun s => {[ ToolCall.tool_call_id tc ]} ∪ s |> <| rc_causal_graph ::= update_causal_graph (RuntimeEvent.ToolCall tc) |>.
(** [String::truncate] panics inside a character. *)
Definition truncated (limit : nat) (text : string) : option string :=
  if limit <? String.length text then p ← slice_to limit (lit text); Some (String.string_of_list_byte p +:+ "...<truncated>") else Some text.
Definition tool_result_record (tr : ToolResult.t V) (m : string * option string) : V :=
  jobj {[ "node_id" := jstr (ToolResult.node_id tr); "kind" := jstr (ToolResult.kind tr); "action" := jstr m.1; "llm_request_id" := to_value m.2; "success" := jbool (ToolResult.success tr);
          "request_id" := jstr (ToolResult.request_id tr); "tool_call_id" := jstr (ToolResult.tool_call_id tr); "tool_result_id" := jstr (ToolResult.tool_result_id tr); "output" := ToolResult.output tr ]}.
Definition on_tool_result (tr : ToolResult.t V) c : option (RouteContext V) :=
  n ← add32 (rc_batch_result_count c) 1;
  let c := c <| rc_pending_tool_result_ids ::= fun s => s ∖ {[ ToolResult.tool_call_id tr ]} |> <| rc_batch_result_count := n |> in
  let c := if ToolResult.success tr then c else c <| rc_batch_any_failed := true |> in
  let c := c <| rc_causal_graph ::= update_causal_graph (RuntimeEvent.ToolResult tr) |> in
  text ← truncated 512 (json_text (ToolResult.output tr));
  let m := default (""%string, None) (rc_action_meta c !! ToolResult.node_id tr) in
  let c := c <| rc_recent_tool_results ::= fun l => drop (if 8 <=? length l then 1 else 0) (l ++ [tool_result_record tr m]) |> in
  let c := if rc_batch_is_plan_only c then c else c <| rc_batch_settled := Some (rc_batch_result_count c, rc_batch_any_failed c) |> in
  Some (push_journal "tool" ("tool_result kind=" +:+ ToolResult.kind tr +:+ " success=" +:+ fmt_bool_s (ToolResult.success tr) +:+ " tool_call_id=" +:+ ToolResult.tool_call_id tr +:+
    " tool_result_id=" +:+ ToolResult.tool_result_id tr +:+ " output=" +:+ text) c).

Definition flag (k : string) (v : V) : bool := default false (json_get k v ≫= json_as_bool).
Definition on_state_updated (payload : V) c : RouteContext V :=
  let c :=
    if flag "fatal_invariant" payload then
      let reason := json_get_str "fatal_invariant_reason" payload in
      let c := c <| rc_halted := true |> <| rc_last_halt_reason := reason |> in
      match reason with Some r => push_journal "runtime" ("fatal_invariant_halt reason=" +:+ r) c | None => c end
    else if bool_decide (json_get_str "runtime_mode" payload = Some "running"%string) then
      push_journal "runtime" "mode=running" (c <| rc_halted := false |> <| rc_last_halt_reason := None |>)
    else c in
  if flag "workspace_dirty" payload then
    push_journal "observe" ("workspace_dirty=true crate=" +:+ default "unknown"%string (json_get_str "crate" payload)) (c <| rc_workspace_dirty_tracker ::= mark_dirty "orchestrator" None |>)
  else c.
Definition on_goodness (g : GoodnessSnapshot.t V) c : RouteContext V :=
  let c := c <| rc_goodness := Some (GoodnessSnapshot.g g) |> <| rc_delta_g := Some (GoodnessSnapshot.delta_g g) |>
             <| rc_objective_trend_state ::= fun t => record_goodness t (GoodnessSnapshot.g g) (GoodnessSnapshot.delta_g g) |> in
  push_journal "goodness" ("g=" +:+ show_f32 (GoodnessSnapshot.g g) +:+ " delta=" +:+ show_f32 (GoodnessSnapshot.delta_g g)) c.

Definition update_from_event e (loc : N) c : option (RouteContext V) :=
  match e with
  | RuntimeEvent.RustcGraphArtifactWritten w =>
      Some (push_journal "observe" ("rustc_graph_artifact_written crate=" +:+ RustcGraphArtifactWritten.crate_name w +:+ " artifact_id=" +:+ RustcGraphArtifactWritten.artifact_id w +:+
        " files=" +:+ pretty (RustcGraphArtifactWritten.file_count w) +:+ " nodes=" +:+ pretty (RustcGraphArtifactWritten.node_count w) +:+ " edges=" +:+ pretty (RustcGraphArtifactWritten.edge_count w)) c)
  | RuntimeEvent.RustcCaptureCompleted w =>
      Some (push_journal "observe" ("rustc_capture_completed crate=" +:+ RustcCaptureCompleted.crate_name w +:+ " artifact_id=" +:+ RustcCaptureCompleted.artifact_id w) c)
  | RuntimeEvent.RustcCaptureFailed w =>
      Some (push_journal "observe" ("rustc_capture_failed crate=" +:+ RustcCaptureFailed.crate_name w +:+ " message=" +:+ RustcCaptureFailed.message w) (c <| rc_context_ready := true |>))
  | RuntimeEvent.LoopObserved o => Some (on_observed o c)
  | RuntimeEvent.LoopPlanned p => on_planned p c
  | RuntimeEvent.LoopActed a => Some (on_acted a c)
  | RuntimeEvent.LoopVerified v => Some (on_verified loc v c)
  | RuntimeEvent.VerifierPolicyUpdated u => Some (on_policy_updated u c)
  | RuntimeEvent.LoopRewarded w => Some (on_rewarded w c)
  | RuntimeEvent.SubTaskResult r => Some (on_sub_task r c)
  | RuntimeEvent.ErrorOccurred err => Some (if String.eqb (ErrorOccurred.kind err) "invalid_plan_batch" then on_invalid_plan err c else c)
  | RuntimeEvent.PlanningCompleted pc => Some (on_planning_completed pc c)
  | RuntimeEvent.Debug d => Some (on_debug (DebugEvent.kind d) c)
  | RuntimeEvent.ToolCall tc => Some (on_tool_call tc c)
  | RuntimeEvent.ToolResult tr => on_tool_result tr c
  | RuntimeEvent.RuntimeStateUpdated u => Some (on_state_updated (RuntimeStateUpdated.payload u) c)
  | RuntimeEvent.GoodnessSnapshot g => Some (on_goodness g c)
  | _ => Some c
  end.
End Context.
