(* ===== verification/RouteExecutor.v ===== *)
(** * The route executor ([canon-route/src/executor.rs], [decision.rs], [policy.rs])

    The consumer that answers an observation with the route of the tick.  Its
    methods are functions on the record of its fields that also return what was
    emitted; [None] is a panic.  [re_emitter] says that an emitter was set, and
    [re_trace_counter] is the static counter of decision traces. *)
From Stdlib Require Import Floats.SpecFloat.
From stdpp Require Import pretty.
From S2P Require Import Prelude Json Text PatchParser Wire EventShape KernelTypes ConstraintEngine Gatekeeper SemanticState Objectives Goal Events EventBus RouteContext.

(** ** The decision *)

Record RouteDecision := MkDecision {
  rd_lane : RouteKind; rd_suggested_route : RouteKind; rd_rationale : string; rd_confidence : option f32; rd_changed : bool; rd_note : string;
  rd_gate_rules_fired : list string; rd_should_stop : bool; rd_prompt : string
}.
(** The derived [Debug] name of a route. *)
Definition route_debug (r : RouteKind) : string :=
  match r with Observe => "Observe" | Plan => "Plan" | Act => "Act" | Verify => "Verify" | Conclude => "Conclude" | Decompose => "Decompose" end.
Definition semantic_route (s : SemanticStateSummary) : RouteKind :=
  if ss_complete s then Observe
  else if ss_cargo_project s || (0 <? default 0%N (ss_rust_file_count s))%N then Act
  else if ss_path_exists s then Act
  else if negb (ss_path_exists s) then Plan
  else if ss_repo_initialized s then Act
  else if ss_validation_blocked_by_preconditions s && negb (bool_decide (ss_planning_preconditions s = [])) && negb (ss_repo_initialized s) && negb (ss_path_exists s) then Plan
  else if (1 <? ss_version s)%N then (if ss_repo_initialized s || ss_cargo_project s then Act else Observe)
  else if negb (ss_path_exists s) && bool_decide (ss_target_root s = None) then Plan
  else if ss_compiler_repair_required s then Act
  else if ss_cargo_project s then Act
  else if ss_path_exists s && ss_repo_initialized s && negb (ss_complete s) then Act
  else if ss_path_exists s && negb (ss_repo_initialized s) then Plan
  else if negb (ss_path_exists s) then Plan
  else if bool_decide (ss_target_root s = None) then Plan
  else Plan.
(** The model's text and the controller are not consulted. *)
Definition decide_from_json (s : SemanticStateSummary) (model_json prompt : string) (controller : Gatekeeper) : result string RouteDecision :=
  if (ss_version s =? 0)%N then
    Ok (MkDecision Plan Plan "semantic_state_uninitialized::Plan" (Some (f32_lit 5 10)) true "semantic_state_uninitialized" ["semantic_state_required"%string] false prompt)
  else
    let route := semantic_route s in
    Ok (MkDecision route route ("semantic_state_routing::" +:+ route_debug route) (Some (f32_lit 9 10)) false "semantic_state_routing" [] false prompt).

(** ** The policy, which only observes *)

Inductive RouteEmitRule : Set := EmitAllowed | DuplicateEmitBeforeSuccessor | IllegalControlReentry | IllegalControlEmit.
Record RouteEmitState := MkEmitState { last_control_kind : option string; pending_required_successor : option string }.
Record RouteEmitEvaluation := MkEmitEval { emit_allowed : bool; emit_rule : RouteEmitRule }.
Definition evaluate_route_emit (st : RouteEmitState) : RouteEmitEvaluation := MkEmitEval true EmitAllowed.

(** ** The executor *)

Record RouteExecutor {V : Type} := MkExecutor {
  re_ctx : RouteContext V; re_controller : Gatekeeper; re_emitter : bool; re_pending_request_id : option string; re_pending_prompt : option string;
  re_dispatch_in_progress : bool; re_reroute_requested : bool; re_current_trigger : option EventId; re_last_decision_trace_id : option N;
  re_last_routed_tick : option N; re_trace_counter : N
}.
Arguments RouteExecutor V : clear implicits.
Arguments MkExecutor {V} _ _ _ _ _ _ _ _ _ _ _.
#[export] Instance RouteExecutor_eta {V} : Eta (RouteExecutor V) := fun r =>
  MkExecutor (re_ctx r) (re_controller r) (re_emitter r) (re_pending_request_id r) (re_pending_prompt r) (re_dispatch_in_progress r) (re_reroute_requested r)
    (re_current_trigger r) (re_last_decision_trace_id r) (re_last_routed_tick r) (re_trace_counter r).
Definition executor_new {V} : RouteExecutor V := MkExecutor route_context_new (gatekeeper_new default_guard) false None None false false None None None 1.
Definition executor_set_emitter {V} (r : RouteExecutor V) : RouteExecutor V := r <| re_emitter := true |>.

Section Executor.
Context {V : Type} `{Json V} `{JsonSer V}.
Context (json_text : V -> string) (show_f32 : f32 -> string) (decision_text : RouteDecision -> string) (site : string -> string * N).
Implicit Types (r : RouteExecutor V) (e : RuntimeEvent.t V) (id : EventId).

Definition located e (place : string) (parents : list EventId) : LocatedEvent V := let '(file, line) := site place in MkLocated e file line parents.

(** *** Emissions *)

Definition emit_invariant_violation (trigger : EventId) (feature reason : string) (context : V) (fresh : string) r : list (LocatedEvent V) :=
  if re_emitter r then
    [located (RuntimeEvent.InvariantDiscovered (InvariantDiscovered.mk feature (f32_lit 1 1) 1)) "emit_invariant_violation" [trigger];
     located (RuntimeEvent.ErrorOccurred (new_error_occurred "verifier_sequence_invariant_violation" "route_executor" ("verifier sequence invariant violated: " +:+ reason) "warning"
       (jobj {[ "feature" := jstr feature; "reason" := jstr reason; "context" := context ]}) None fresh)) "emit_invariant_violation_error" [trigger]]
  else [].
Definition route_selected_event (d : RouteDecision) (model_json : string) (tick : N) : RuntimeEvent.t V :=
  RuntimeEvent.RouteSelected (RouteSelected.mk tick (route_debug (rd_lane d)) (rd_prompt d) (route_debug (rd_lane d)) (rd_rationale d) (rd_confidence d) (rd_note d)
    (rd_gate_rules_fired d) (rd_changed d) (rd_should_stop d) model_json).
Definition emit_route_selected_from_decision (d : RouteDecision) (model_json : string) r : option (RouteExecutor V * list (LocatedEvent V)) :=
  let tick := rc_scheduler_tick (re_ctx r) in
  if negb (re_emitter r) then Some (r, [])
  else if bool_decide (re_last_routed_tick r = Some tick) then Some (r, [])
  else if bool_decide (re_last_decision_trace_id r = None) then None
  else
    let ev := route_selected_event d model_json tick in
    let r := r <| re_last_decision_trace_id := None |> <| re_last_routed_tick := Some tick |> in
    match re_current_trigger r with
    | None => Some (r, [])
    | Some tid =>
        if negb (emit_allowed (evaluate_route_emit (MkEmitState None None))) then Some (r, [])
        else Some (r <| re_dispatch_in_progress := false |>, [located ev "emit_route_selected" [tid]])
    end.

(** *** Dispatch *)

Definition decision_trace (d : RouteDecision) r : list (LocatedEvent V) :=
  match re_emitter r, re_current_trigger r with
  | true, Some tid =>
      [located (RuntimeEvent.Debug (DebugEvent.mk "route_executor" "decision_trace" (decision_trace_payload "route_decision"
        (jobj {[ "semantic_summary" := to_value (rc_semantic_summary (re_ctx r)); "decision" := jstr (decision_text d) ]})))) "decision_trace" [tid]]
  | _, _ => []
  end.
Definition try_dispatch_route r : option (RouteExecutor V * list (LocatedEvent V)) :=
  let r := r <| re_last_decision_trace_id := Some (re_trace_counter r) |> <| re_trace_counter ::= fun n => wrap64 (n + 1) |> in
  let tick := rc_scheduler_tick (re_ctx r) in
  if bool_decide (re_last_routed_tick r = Some tick) then Some (r, [])
  else
    match decide_from_json (rc_semantic_summary (re_ctx r)) "" "" (re_controller r) with
    | Err _ => Some (r, [])
    | Ok d =>
        let trace := decision_trace d r in
        '(r, route) ← emit_route_selected_from_decision d "" r;
        Some (r <| re_last_routed_tick := Some tick |>, trace ++ route)
    end.

Definition sequence_step e : option MetaInvariantVerifierSequenceStep :=
  match e with
  | RuntimeEvent.LoopVerified _ => Some StepLoopVerified
  | RuntimeEvent.VerifierPolicyUpdated _ => Some StepVerifierPolicyUpdated
  | RuntimeEvent.LoopRewarded _ => Some StepLoopRewarded
  | _ => None
  end.
Definition step_str (s : MetaInvariantVerifierSequenceStep) : string :=
  match s with StepLoopVerified => "loop_verified" | StepVerifierPolicyUpdated => "verifier_policy_updated" | StepLoopRewarded => "loop_rewarded" end.
Definition should_reject_verifier_sequence e r : option (string * string * V) :=
  step ← sequence_step e;
  reason ← meta_invariant_verifier_sequence_contract step None None (rc_verify_seen (re_ctx r));
  Some ("meta_invariant_verifier_sequence_contract"%string, reason,
    jobj {[ "event_kind" := jstr (RuntimeEvent.event_kind_str e); "sequence_step" := jstr (step_str step); "last_control_kind" := jstr "removed";
            "pending_required_successor" := jstr "removed"; "verify_seen" := jbool (rc_verify_seen (re_ctx r)) ]}).

(** *** [on_event] *)

Definition clear_pending r : RouteExecutor V := r <| re_pending_request_id := None |> <| re_pending_prompt := None |>.
(** The last [match]: the outcome by kind. *)
Definition settle e r : option (RouteExecutor V * EventOutcome V) :=
  match e with
  | RuntimeEvent.CapabilityRequested _ => Some (r, NoOp "route_executor_capability_requested")
  | RuntimeEvent.CapabilityCompleted d =>
      if bool_decide (Some (CapabilityCompleted.request_id d) <> re_pending_request_id r) || negb (String.eqb (CapabilityCompleted.capability d) "llm.call")
      then Some (r, NoOp "route_executor_unrelated_completion") else Some (clear_pending r, NoOp "route_executor_completion")
  | RuntimeEvent.CapabilityFailed d =>
      if bool_decide (Some (CapabilityFailed.request_id d) <> re_pending_request_id r) || negb (String.eqb (CapabilityFailed.capability d) "llm.call")
      then Some (r, NoOp "route_executor_unrelated_failure") else Some (clear_pending r, NoOp "route_executor_failure_reroute")
  | RuntimeEvent.RouteTick _ => Some (r, NoOp "route_executor_route_tick_already_dispatched")
  | RuntimeEvent.Code _ | RuntimeEvent.Debug _ | RuntimeEvent.Edit _ | RuntimeEvent.ErrorOccurred _ | RuntimeEvent.Tick _ | RuntimeEvent.GoodnessSnapshot _ | RuntimeEvent.Cargo _
  | RuntimeEvent.File _ | RuntimeEvent.Bash _ | RuntimeEvent.Llm _ => Some (r, NoOp "ignored_event_kind")
  | RuntimeEvent.PlanningCompleted pc =>
      c ← record_planning_completion_ctx (PlanningCompleted.status pc) (re_ctx r); Some (r <| re_ctx := c |>, NoOp "route_executor_noop")
  | _ => Some (r, NoOp "route_executor_noop")
  end.
(** From the check of a running dispatch on. *)
Definition finish e id r : option (RouteExecutor V * EventOutcome V * list (LocatedEvent V)) :=
  match re_dispatch_in_progress r, e with
  | true, RuntimeEvent.RouteTick _ | false, _ =>
      let '(r, batch) :=
        match rc_batch_settled (re_ctx r) with
        | Some (count, failed) =>
            (r <| re_ctx ::= fun c => c <| rc_batch_settled := None |> |>,
             if re_emitter r then [located (RuntimeEvent.ToolBatchSettled (ToolBatchSettled.mk (rc_scheduler_tick (re_ctx r)) count failed)) "tool_batch_settled" [id]] else [])
        | None => (r, [])
        end in
      let r := match e with RuntimeEvent.Tick t => r <| re_ctx ::= fun c => c <| rc_scheduler_tick := Tick.tick t |> |> | _ => r end in
      '(r, o) ← settle e r; Some (r, o, batch)
  | true, _ => Some (r <| re_reroute_requested := true |>, NoOp "route_executor_deferred_during_emit", [])
  end.
(** [fresh] is the identifier an error event would get, [loc] the lines of code
    in the workspace. *)
Definition route_on_event (fresh : string) (loc : N) e id r : option (RouteExecutor V * EventOutcome V * list (LocatedEvent V)) :=
  let r := r <| re_current_trigger := Some id |> in
  match should_reject_verifier_sequence e r with
  | Some (feature, reason, context) => Some (r, NoOp "verifier_sequence_invariant_violation", emit_invariant_violation id feature reason context fresh r)
  | None =>
      c ← update_from_event json_text show_f32 e loc (re_ctx r);
      c ← match e with RuntimeEvent.PlanningCompleted pc => record_planning_completion_ctx (PlanningCompleted.status pc) c | _ => Some c end;
      let r := r <| re_ctx := c |> in
      match e with
      | RuntimeEvent.RouteTick _ => Some (r, NoOp "route_tick_opens_observe_cycle", [])
      | RuntimeEvent.LoopObserved _ =>
          if (ss_version (rc_semantic_summary (re_ctx r)) =? 0)%N then Some (r, NoOp "route_executor_waiting_for_semantic_observation", [])
          else
            '(r, routed) ← try_dispatch_route r;
            '(r, o, batch) ← finish e id r; Some (r, o, routed ++ batch)
      | _ => finish e id r
      end
  end.

(** A run over a sequence of events. *)
Record Delivery := MkDelivery { dv_event : RuntimeEvent.t V; dv_id : EventId; dv_fresh : string; dv_loc : N }.
Fixpoint route_run (ds : list Delivery) r : option (RouteExecutor V * list (LocatedEvent V)) :=
  match ds with
  | [] => Some (r, [])
  | d :: ds => '(r, _, out) ← route_on_event (dv_fresh d) (dv_loc d) (dv_event d) (dv_id d) r; '(r, rest) ← route_run ds r; Some (r, out ++ rest)
  end.
End Executor.
Arguments Delivery V : clear implicits.
Arguments MkDelivery {V} _ _ _ _.
