(* ===== verification/RouteProps.v ===== *)
(** * Properties of the router *)
From Stdlib Require Import Floats.SpecFloat Sorting.Sorted.
From stdpp Require Import pretty.
From S2P Require Import Prelude Json Text PatchParser Wire EventInvariants EventShape KernelTypes ConstraintEngine Gatekeeper SemanticState Objectives Goal Events EventBus RuntimeEngine EventRuntime RouteContext RouteExecutor.

(** ** The decision *)

Lemma semantic_route_table s : semantic_route s =
  if ss_complete s then Observe else if ss_cargo_project s || (0 <? default 0%N (ss_rust_file_count s))%N || ss_path_exists s then Act else Plan.
Proof. unfold semantic_route. destruct (ss_complete s); [done|]. destruct (ss_cargo_project s || _); [done|]. by destruct (ss_path_exists s). Qed.

(** the route depends on four facts of the summary only: Plan before the
    first observation, Observe when complete, Act when there is a project, a
    Rust file or an existing path, and Plan otherwise.  Verify, Conclude and
    Decompose are never chosen, and neither the compiler repair flag, the model
    nor the gatekeeper has a say. *)
Theorem decision_table s json prompt gate : exists d, decide_from_json s json prompt gate = Ok d /\ rd_should_stop d = false /\ rd_suggested_route d = rd_lane d /\
  rd_lane d = if (ss_version s =? 0)%N then Plan else if ss_complete s then Observe
              else if ss_cargo_project s || (0 <? default 0%N (ss_rust_file_count s))%N || ss_path_exists s then Act else Plan.
Proof. unfold decide_from_json. destruct (ss_version s =? 0)%N; eexists; (split; [reflexivity|]); cbn [rd_lane rd_suggested_route rd_should_stop]; by rewrite ?semantic_route_table. Qed.

(** ** What an event can change *)

(** Split on the scrutinee of a match in the goal. *)
Ltac split_matches := repeat match goal with |- context [match ?x with _ => _ end] => destruct x end.

Section Context.
Context {V : Type} `{Json V} `{JsonSer V}.
Context (json_text : V -> string) (show_f32 : f32 -> string).
Implicit Types (c : RouteContext V) (e : RuntimeEvent.t V).

(** What only a verification writes, and the tick. *)
Definition verified_facts c : bool * bool * option string * N := (rc_verify_seen c, rc_finish_ready c, rc_last_verifier_outcome c, rc_scheduler_tick c).
(** The lists that would grow without end. *)
Definition bounded c : Prop := length (rc_journal c) <= 32 /\ length (rc_recent_tool_results c) <= 8 /\ length (rc_recent_execution_results c) <= 16.
Definition tamed c c' : Prop := verified_facts c' = verified_facts c /\ (bounded c -> bounded c').
#[global] Instance tamed_preorder : PreOrder tamed.
Proof. split; [by intros c|]. intros c1 c2 c3 [Hv Hb] [Hv' Hb']. split; [congruence|auto]. Qed.

Lemma length_keep_last {A} n (l : list A) : length (keep_last n l) <= n.
Proof. unfold keep_last. rewrite length_drop. lia. Qed.
Lemma journal_tamed lane text c c' : tamed c c' -> tamed c (push_journal lane text c').
Proof. intros Hc. etrans; [exact Hc|]. split; [reflexivity|]. intros (Hj & Ht & He). split_and!; [apply length_keep_last|exact Ht|exact He]. Qed.
Lemma results_tamed f c c' : tamed c c' -> tamed c (c' <| rc_recent_execution_results ::= fun l => keep_last 16 (f l) |>).
Proof. intros Hc. etrans; [exact Hc|]. split; [reflexivity|]. intros (Hj & Ht & He). split_and!; [exact Hj|exact Ht|apply length_keep_last]. Qed.
Lemma tool_results_tamed x c c' : tamed c c' -> tamed c (c' <| rc_recent_tool_results ::= fun l => drop (if 8 <=? length l then 1 else 0) (l ++ [x]) |>).
Proof.
  intros Hc. etrans; [exact Hc|]. split; [reflexivity|]. intros (Hj & Ht & He). split_and!; [exact Hj| |exact He]. unfold update. cbn [rc_recent_tool_results]. rewrite length_drop, length_app. cbn [length].
  destruct (8 <=? length (rc_recent_tool_results c')) eqn:Hl; [apply Nat.leb_le in Hl|apply Nat.leb_gt in Hl]; lia.
Qed.
(** The other updates touch none of these fields. *)
Ltac tame := cbv zeta; repeat apply journal_tamed; split_matches; repeat apply journal_tamed; first [split; [reflexivity|done]|idtac].

Lemma on_observed_tamed o c : tamed c (on_observed o c).
Proof. unfold on_observed. tame. Qed.
Lemma on_planned_tamed p c c' : on_planned p c = Some c' -> tamed c c'.
Proof.
  unfold on_planned. destruct (LoopPlanned.action_id p) as [aid|]; cbn [mbind option_bind]; [|intros [= <-]; tame].
  destruct (classify_planned_action_intents _ _ _) as [intents|]; [|done]. intros [= <-]. tame.
Qed.
Lemma on_acted_tamed a c : tamed c (on_acted a c).
Proof.
  unfold on_acted. cbv zeta. apply journal_tamed. etrans; [|split; [reflexivity|intros Hb; exact Hb]].
  set (c1 := match LoopActed.action_id a with Some aid => _ | None => _ end). assert (Hc1 : tamed c c1); [|clearbody c1; destruct (is_successful_bootstrap _ _ _); (etrans; [exact Hc1|]); split; done].
  subst c1. destruct (LoopActed.action_id a) as [aid|]; [|tame]. destruct (_ !! aid) as [intents|]; [apply results_tamed|]; tame.
Qed.
Lemma on_sub_task_tamed r c : tamed c (on_sub_task r c).
Proof. unfold on_sub_task. tame. Qed.
Lemma on_invalid_plan_tamed err c : tamed c (on_invalid_plan err c).
Proof. unfold on_invalid_plan. cbv zeta. apply journal_tamed. by split. Qed.
Lemma on_planning_completed_tamed pc c : tamed c (on_planning_completed pc c).
Proof. unfold on_planning_completed. tame. Qed.
Lemma on_debug_tamed k c : tamed c (on_debug k c).
Proof. unfold on_debug. tame. Qed.
Lemma on_tool_result_tamed tr c c' : on_tool_result json_text tr c = Some c' -> tamed c c'.
Proof.
  unfold on_tool_result. destruct (add32 _ _) as [n|]; [|done]. cbn [mbind option_bind]. destruct (truncated _ _) as [t|]; [|done]. intros [= <-]. apply journal_tamed.
  set (c1 := update rc_recent_tool_results _ _). assert (Hc1 : tamed c c1); [subst c1; apply tool_results_tamed; tame|]. clearbody c1. match goal with |- tamed _ (if ?b then _ else _) => destruct b end; [exact Hc1|]. etrans; [exact Hc1|]. by split.
Qed.
Lemma on_state_updated_tamed v c : tamed c (on_state_updated v c).
Proof.
  unfold on_state_updated. cbv zeta. set (c1 := if flag "fatal_invariant" v then _ else _). assert (Hc1 : tamed c c1) by (subst c1; tame).
  clearbody c1. destruct (flag "workspace_dirty" v); [|done]. apply journal_tamed. etrans; [exact Hc1|]. by split.
Qed.
Lemma on_goodness_tamed g c : tamed c (on_goodness show_f32 g c).
Proof. unfold on_goodness. tame. Qed.
Create HintDb tamed discriminated.
#[local] Hint Resolve on_observed_tamed on_planned_tamed on_acted_tamed on_sub_task_tamed on_invalid_plan_tamed on_planning_completed_tamed on_debug_tamed on_tool_result_tamed on_state_updated_tamed on_goodness_tamed journal_tamed : tamed.

(** Every event that is no verification leaves what verification writes. *)
Lemma update_tamed e loc c c' : sequence_step e = None -> update_from_event json_text show_f32 e loc c = Some c' -> tamed c c'.
Proof.
  intros Hs Hu. destruct e; cbn [sequence_step] in Hs; try discriminate Hs; cbn [update_from_event] in Hu; try (injection Hu as <-); eauto with tamed; try reflexivity.
  - destruct (String.eqb _ _); [auto with tamed|reflexivity].
  - apply journal_tamed. reflexivity.
  - apply journal_tamed. reflexivity.
  - apply journal_tamed. by split.
  - by split.
Qed.
End Context.

(** ** The executor *)

Section Executor.
Context {V : Type} `{Json V} `{JsonSer V}.
Context (json_text : V -> string) (show_f32 : f32 -> string) (decision_text : RouteDecision -> string) (site : string -> string * N).
Implicit Types (r : RouteExecutor V) (e : RuntimeEvent.t V) (id : EventId).

(** The ticks of the routes among emitted events. *)
Definition route_of (le : LocatedEvent V) : option N := match le_event le with RuntimeEvent.RouteSelected p => Some (RouteSelected.tick p) | _ => None end.
Definition routes (out : list (LocatedEvent V)) : list N := omap route_of out.
Lemma routes_app l k : routes (l ++ k) = routes l ++ routes k.
Proof. apply omap_app. Qed.
Definition now r : N := rc_scheduler_tick (re_ctx r).
(** An observation that is answered with a route. *)
Definition answered e : bool := match e with RuntimeEvent.LoopObserved o => negb (ss_version (LoopObserved.semantic_summary o) =? 0)%N | _ => false end.
Definition tick_of e : option N := match e with RuntimeEvent.Tick t => Some (Tick.tick t) | _ => None end.

(** An executor that was given its emitter and is not inside an emission. *)
Definition idle r : Prop := re_dispatch_in_progress r = false /\ re_emitter r = true.
(** Steps that leave the route bookkeeping alone. *)
Definition settled r r' : Prop :=
  tamed (re_ctx r) (re_ctx r') /\ re_last_routed_tick r' = re_last_routed_tick r /\ re_dispatch_in_progress r' = re_dispatch_in_progress r /\ re_emitter r' = re_emitter r /\
  re_current_trigger r' = re_current_trigger r.

Lemma settle_settled e r r' o : settle e r = Some (r', o) -> settled r r'.
Proof.
  assert (Hrefl : settled r r) by (split_and!; [reflexivity|done..]).
  destruct e; cbn [settle]; try (intros [= <- <-]; exact Hrefl).
  - unfold record_planning_completion_ctx. destruct (LoopPolicy.one_of _ _); [|destruct (String.eqb _ _)]; cbn [mbind option_bind].
    + destruct (add32 _ _) as [n|]; [|done]. intros [= <- <-]. split_and!; [by split|done..].
    + intros [= <- <-]. split_and!; [by split|done..].
    + intros [= <- <-]. split_and!; [by split|done..].
  - destruct (_ || _); intros [= <- <-]; [exact Hrefl|]. split_and!; [reflexivity|done..].
  - destruct (_ || _); intros [= <- <-]; [exact Hrefl|]. split_and!; [reflexivity|done..].
Qed.
Lemma batch_settled_step r : settled r (r <| re_ctx ::= fun c => c <| rc_batch_settled := None |> |>).
Proof. split_and!; [by split|done..]. Qed.

Lemma finish_spec e id r r' o out : idle r -> finish site e id r = Some (r', o, out) ->
  idle r' /\ routes out = [] /\ now r' = default (now r) (tick_of e) /\ re_last_routed_tick r' = re_last_routed_tick r /\
  (verified_facts (re_ctx r')).1 = (verified_facts (re_ctx r)).1 /\ (bounded (re_ctx r) -> bounded (re_ctx r')).
Proof.
  intros [Hd He]. unfold finish. rewrite Hd.
  set (rb := match rc_batch_settled (re_ctx r) with Some (count, failed) => _ | None => _ end).
  assert (Hb : settled r rb.1 /\ routes rb.2 = []).
  { subst rb. destruct (rc_batch_settled (re_ctx r)) as [[count failed]|]; cbn [fst snd]; [|split; [split_and!; [reflexivity|done..]|done]].
    split; [apply batch_settled_step|]. destruct (re_emitter r); [|done]. unfold located. by destruct (site _). }
  destruct rb as [r1 batch]. cbn [fst snd] in Hb. destruct Hb as [([Hv Hbd] & Hl & Hdp & Hem & _) Hrt].
  set (r2 := match e with RuntimeEvent.Tick t => _ | _ => r1 end). intros Hs.
  destruct (settle e r2) as [[r3 o3]|] eqn:Hse; [|done]. cbn [mbind option_bind] in Hs. injection Hs as <- <- <-. apply settle_settled in Hse as ([Hv3 Hb3] & Hl3 & Hd3 & He3 & _).
  assert (Hr2 : re_last_routed_tick r2 = re_last_routed_tick r /\ re_dispatch_in_progress r2 = false /\ re_emitter r2 = true /\ (verified_facts (re_ctx r2)).1 = (verified_facts (re_ctx r)).1 /\
    (bounded (re_ctx r) -> bounded (re_ctx r2)) /\ now r2 = default (now r) (tick_of e)).
  { unfold verified_facts in Hv. injection Hv as Hv1 Hv2 Hv3' Hv4. subst r2. destruct e; split_and!; cbn; try congruence; try exact Hbd; unfold verified_facts, now; cbn; congruence. }
  clearbody r2. destruct Hr2 as (Ha & Hb & Hc & Hf & Hg & Hh). split_and!; try congruence; [split; congruence| |auto].
  unfold now in *. unfold verified_facts in Hv3. injection Hv3 as _ _ _ ->. exact Hh.
Qed.

Lemma dispatch_spec r r' out : idle r -> is_Some (re_current_trigger r) -> try_dispatch_route decision_text site r = Some (r', out) ->
  idle r' /\ re_ctx r' = re_ctx r /\ routes out = (if bool_decide (re_last_routed_tick r = Some (now r)) then [] else [now r]) /\ re_last_routed_tick r' = Some (now r).
Proof.
  intros [Hd He] [tid Ht]. unfold try_dispatch_route. cbv zeta. unfold update. cbn [re_last_routed_tick re_ctx re_controller].
  change (rc_scheduler_tick (re_ctx r)) with (now r). destruct (bool_decide (re_last_routed_tick r = Some (now r))) eqn:Hb.
  - intros [= <- <-]. apply bool_decide_eq_true_1 in Hb. split_and!; [by split|done..].
  - destruct (decision_table (rc_semantic_summary (re_ctx r)) "" "" (re_controller r)) as (d & -> & _).
    unfold emit_route_selected_from_decision, decision_trace, update. cbn [re_last_routed_tick re_ctx re_emitter re_current_trigger re_last_decision_trace_id]. rewrite He, Ht. cbn [negb].
    change (rc_scheduler_tick (re_ctx r)) with (now r). rewrite Hb. rewrite bool_decide_eq_false_2 by done. cbn [emit_allowed evaluate_route_emit negb mbind option_bind].
    intros [= <- <-]. split_and!; try done. unfold located. by destruct (site "decision_trace"), (site "emit_route_selected").
Qed.

Lemma rejected_steps e r : is_Some (should_reject_verifier_sequence e r) <-> is_Some (sequence_step e).
Proof. unfold should_reject_verifier_sequence. destruct e; cbn; split; intros [x Hx]; try discriminate Hx; by eexists. Qed.

(** One event: the tick and the route bookkeeping, and what does not change. *)
Definition stepped r e r' out : Prop :=
  idle r' /\ now r' = default (now r) (tick_of e) /\ (verified_facts (re_ctx r')).1 = (verified_facts (re_ctx r)).1 /\ (bounded (re_ctx r) -> bounded (re_ctx r')) /\
  routes out = (if answered e && negb (bool_decide (re_last_routed_tick r = Some (now r))) then [now r] else []) /\
  re_last_routed_tick r' = (if answered e then Some (now r) else re_last_routed_tick r).
Lemma step_spec fresh loc e id r r' o out : idle r -> route_on_event json_text show_f32 decision_text site fresh loc e id r = Some (r', o, out) -> stepped r e r' out.
Proof.
  intros Hidle. unfold route_on_event. cbv zeta. set (r0 := update re_current_trigger _ r).
  assert (Hidle0 : idle r0) by exact Hidle. assert (Hctx0 : re_ctx r0 = re_ctx r) by done. assert (Hl0 : re_last_routed_tick r0 = re_last_routed_tick r) by done.
  assert (Ht0 : re_current_trigger r0 = Some id) by done. clearbody r0.
  destruct (should_reject_verifier_sequence e r0) as [[[feature reason] context]|] eqn:Hrej.
  { destruct (proj1 (rejected_steps e r0)) as [st Hst]; [by rewrite Hrej|]. intros [= <- <- <-]. unfold stepped. rewrite Hctx0, Hl0.
    assert (Hout : routes (emit_invariant_violation site id feature reason context fresh r0) = []).
    { unfold emit_invariant_violation. destruct (re_emitter r0); [|done]. unfold located. by destruct (site "emit_invariant_violation"), (site "emit_invariant_violation_error"). }
    unfold now. rewrite Hctx0, Hout. destruct e; try discriminate Hst; by split_and!. }
  assert (Hseq : sequence_step e = None).
  { destruct (sequence_step e) eqn:Hs; [|done]. destruct (proj2 (rejected_steps e r0)) as [x Hx]; [by rewrite Hs|]. congruence. }
  destruct (update_from_event _ _ e loc (re_ctx r0)) as [c1|] eqn:Hup; [|done]. cbn [mbind option_bind].
  pose proof (update_tamed json_text show_f32 e loc _ c1 Hseq Hup) as Htame1.
  destruct (match e with RuntimeEvent.PlanningCompleted pc => _ | _ => _ end) as [c2|] eqn:Hpc; [|done]. cbn [mbind option_bind].
  assert (Htame : tamed (re_ctx r) c2).
  { rewrite <- Hctx0. etrans; [exact Htame1|]. destruct e; try (injection Hpc as <-; reflexivity). revert Hpc. unfold record_planning_completion_ctx.
    destruct (LoopPolicy.one_of _ _); [|destruct (String.eqb _ _)]; cbn [mbind option_bind]; [destruct (add32 _ _) as [n|]; [|done]|..]; intros [= <-]; by split. }
  assert (Hsum : forall lo, e = RuntimeEvent.LoopObserved lo -> rc_semantic_summary c2 = LoopObserved.semantic_summary lo).
  { intros lo ->. injection Hpc as <-. injection Hup as <-. unfold on_observed. cbn. destruct (LoopObserved.goal_text lo) as [g|]; [destruct (goal_is_placeholder g)|]; reflexivity. }
  set (r1 := update re_ctx _ r0). assert (Hidle1 : idle r1) by exact Hidle0. assert (Hctx1 : re_ctx r1 = c2) by done. assert (Hl1 : re_last_routed_tick r1 = re_last_routed_tick r) by done.
  assert (Ht1 : is_Some (re_current_trigger r1)) by (exists id; exact Ht0). clearbody r1. clear Hpc Hup Htame1.
  destruct Htame as [Hv Hbd]. assert (Hnow1 : now r1 = now r) by (unfold now; rewrite Hctx1; unfold verified_facts in Hv; congruence).
  assert (Hvf : (verified_facts c2).1 = (verified_facts (re_ctx r)).1) by (by rewrite Hv).
  assert (Hplain : answered e = false -> finish site e id r1 = Some (r', o, out) -> stepped r e r' out).
  { intros Hans Hf. apply finish_spec in Hf as (Ha & Hb & Hc & Hd & Hg & Hh); [|exact Hidle1]. unfold stepped. rewrite Hans. cbn [andb]. rewrite Hctx1 in Hg, Hh. split_and!; try congruence; auto. }
  assert (Hstop : answered e = false -> tick_of e = None -> forall msg, Some (r1, NoOp msg, []) = Some (r', o, out) -> stepped r e r' out).
  { intros Hans Htk msg [= <- <- <-]. unfold stepped. rewrite Hans, Htk, Hctx1. by split_and!. }
  destruct e; try (apply Hplain; reflexivity); [|eapply Hstop; reflexivity].
  rewrite Hctx1, (Hsum _ eq_refl). destruct (ss_version (LoopObserved.semantic_summary p) =? 0)%N eqn:Hver; [eapply Hstop; cbn [answered]; rewrite ?Hver; reflexivity|].
  destruct (try_dispatch_route decision_text site r1) as [[r2 routed]|] eqn:Hdis; [|done]. cbn [mbind option_bind].
  apply dispatch_spec in Hdis as (Hi2 & Hc2 & Hr2 & Hl2); [|done..]. destruct (finish site _ id r2) as [[[r3 o3] batch]|] eqn:Hfin; [|done]. cbn [mbind option_bind]. intros [= <- <- <-]. unfold stepped. cbn [answered]. rewrite Hver. cbn [negb andb].
  apply finish_spec in Hfin as (Ha & Hb & Hc & Hd & Hg & Hh); [|exact Hi2]. rewrite Hc2, Hctx1 in Hg, Hh. rewrite routes_app, Hr2, Hb, app_nil_r, Hd, Hl2, Hl1, Hnow1. split_and!; try done; auto.
  - rewrite Hc. unfold now. rewrite Hc2. exact Hnow1.
  - congruence.
  - by destruct (bool_decide (re_last_routed_tick r = Some (now r))).
Qed.

(** ** Runs *)

Abbreviation run := (route_run json_text show_f32 decision_text site).
Lemma run_cons d ds r res : run (d :: ds) r = Some res -> exists r1 o out rest,
  route_on_event json_text show_f32 decision_text site (dv_fresh d) (dv_loc d) (dv_event d) (dv_id d) r = Some (r1, o, out) /\ run ds r1 = Some (res.1, rest) /\ res.2 = out ++ rest.
Proof.
  cbn [route_run]. destruct (route_on_event _ _ _ _ _ _ _ _ r) as [[[r1 o] out]|]; [|done]. cbn [mbind option_bind]. destruct (route_run _ _ _ _ ds r1) as [[r2 rest]|] eqn:Hr; [|done]. cbn [mbind option_bind].
  intros [= <-]. by exists r1, o, out, rest.
Qed.

(** C39: between two ticks the executor emits exactly one route, of the current
    tick, when an observation with a summary arrives and the tick was not
    routed before, and none otherwise, however many observations there are. *)
Theorem route_exactly_once ds r r' out : idle r -> run ds r = Some (r', out) -> Forall (fun d => tick_of (dv_event d) = None) ds ->
  now r' = now r /\ routes out = if existsb (fun d => answered (dv_event d)) ds && negb (bool_decide (re_last_routed_tick r = Some (now r))) then [now r] else [].
Proof.
  induction ds as [|d ds IH] in r, r', out |- *; [by intros _ [= <- <-]|]. intros Hidle Hrun Hticks. apply Forall_cons in Hticks as [Hd Hds].
  apply run_cons in Hrun as (r1 & o & out1 & rest & Hstep & Hrun & Hout). cbn [fst snd] in *. subst out. apply step_spec in Hstep as (Hi & Hn & _ & _ & Hr & Hl); [|exact Hidle].
  rewrite Hd in Hn. cbn [default] in Hn. apply IH in Hrun as [Hn' Hr']; [|done..]. rewrite routes_app, Hr, Hr', Hl, Hn', Hn. split; [done|]. cbn [existsb]. destruct (answered (dv_event d)) eqn:Ha; cbn [orb andb].
  - rewrite (bool_decide_eq_true_2 (Some (now r) = Some (now r))) by done. cbn [negb]. by rewrite andb_false_r, app_nil_r.
  - done.
Qed.

(** with increasing ticks the routes a fresh executor emits are of increasing
    ticks: no tick is routed twice. *)
Theorem routes_increase ds r' out : run ds (executor_set_emitter executor_new) = Some (r', out) -> StronglySorted N.lt (0%N :: omap (fun d => tick_of (dv_event d)) ds) -> StronglySorted N.lt (routes out).
Proof.
  assert (Hgen : forall ds r r' out, idle r -> run ds r = Some (r', out) -> (forall k, re_last_routed_tick r = Some k -> (k <= now r)%N) ->
    StronglySorted N.lt (now r :: omap (fun d => tick_of (dv_event d)) ds) ->
    StronglySorted N.lt (routes out) /\ Forall (fun k => (now r <= k)%N /\ re_last_routed_tick r <> Some k) (routes out)).
  { clear ds r' out. induction ds as [|d ds IH]; intros r r' out Hidle Hrun Hlast Hsort; [injection Hrun as <- <-; split; constructor|].
    apply run_cons in Hrun as (r1 & o & out1 & rest & Hstep & Hrun & Hout). cbn [fst snd] in *. subst out. apply step_spec in Hstep as (Hi & Hn & _ & _ & Hr & Hl); [|exact Hidle].
    assert (Hmono : (now r <= now r1)%N /\ (answered (dv_event d) = true -> now r1 = now r) /\ StronglySorted N.lt (now r1 :: omap (fun d => tick_of (dv_event d)) ds)).
    { rewrite Hn. cbn [omap list_omap] in Hsort. destruct (tick_of (dv_event d)) as [t|] eqn:Ht; cbn [default]; unfold id; [|by split_and!].
      inversion Hsort as [|? ? Hs Hf]; subst. apply Forall_cons in Hf as [Hlt _]. split_and!; [lia| |exact Hs]. destruct (dv_event d); done. }
    destruct Hmono as (Hge & Heq & Hsort'). destruct (IH r1 r' rest Hi Hrun) as [Hs Hf]; [|exact Hsort'|].
    { intros k. rewrite Hl. destruct (answered (dv_event d)); [intros [= <-]; lia|]. intros Hk. apply Hlast in Hk. lia. }
    rewrite routes_app, Hr. destruct (answered (dv_event d)) eqn:Ha; cbn [andb].
    - rewrite Heq in Hf by done. rewrite Hl in Hf. assert (Hf' : Forall (fun k => (now r < k)%N) (routes rest)).
      { eapply Forall_impl; [exact Hf|]. intros k [Hle Hne]. assert (k <> now r) by congruence. lia. }
      destruct (bool_decide _) eqn:Hb; cbn [negb app].
      + split; [done|]. apply bool_decide_eq_true_1 in Hb. rewrite Hb. eapply Forall_impl; [exact Hf'|]. intros k Hk. cbv beta in Hk. split; [lia|]. intros [= <-]. lia.
      + apply bool_decide_eq_false_1 in Hb. split; [by constructor|]. constructor; [done|]. eapply Forall_impl; [exact Hf'|]. intros k Hk. cbv beta in Hk. split; [lia|]. intros Hk'. apply Hlast in Hk'. lia.
    - cbn [app]. split; [done|]. eapply Forall_impl; [exact Hf|]. intros k [Hle Hne]. rewrite Hl in Hne. split; [lia|done]. }
  intros Hrun Hsort. eapply Hgen; [|exact Hrun|done|exact Hsort]. by split.
Qed.

(** *** Verifications, verifier policies and rewards *)

Definition is_verification e : bool :=
  match e with RuntimeEvent.LoopVerified _ | RuntimeEvent.VerifierPolicyUpdated _ | RuntimeEvent.LoopRewarded _ => true | _ => false end.
(** The deliveries without them. *)
Definition unverified (ds : list (Delivery V)) : list (Delivery V) := filter (fun d => is_verification (dv_event d) = false) ds.

(** The trigger an event finds is overwritten before anything reads it. *)
Lemma trigger_forgotten fresh loc e id r t :
  route_on_event json_text show_f32 decision_text site fresh loc e id (r <| re_current_trigger := t |>) = route_on_event json_text show_f32 decision_text site fresh loc e id r.
Proof. reflexivity. Qed.
(** A verification, policy or reward changes nothing else, and brings no route. *)
Lemma verification_step fresh loc e id r r' o out : is_verification e = true -> route_on_event json_text show_f32 decision_text site fresh loc e id r = Some (r', o, out) ->
  r' = r <| re_current_trigger := Some id |> /\ routes out = [].
Proof.
  intros He. assert (Hs : is_Some (sequence_step e)) by (destruct e; try discriminate He; by eexists). unfold route_on_event. cbv zeta. set (r0 := update re_current_trigger _ r).
  destruct (proj2 (rejected_steps e r0) Hs) as [[[feature reason] context] ->]. intros [= <- _ <-]. split; [done|].
  unfold emit_invariant_violation. destruct (re_emitter r0); [|done]. unfold located. by destruct (site "emit_invariant_violation"), (site "emit_invariant_violation_error").
Qed.
Lemma run_unverified ds r r' out t : run ds r = Some (r', out) -> exists t' rest, run (unverified ds) (r <| re_current_trigger := t |>) = Some (r' <| re_current_trigger := t' |>, rest) /\
  rest `sublist_of` out /\ routes rest = routes out.
Proof.
  induction ds as [|d ds IH] in r, r', out, t |- *; [intros [= <- <-]; by exists t, []|]. intros Hrun. apply run_cons in Hrun as (r1 & o & out1 & rest & Hstep & Hrun & Hout). cbn [fst snd] in *. subst out.
  unfold unverified. destruct (is_verification (dv_event d)) eqn:Hd.
  - rewrite filter_cons_False by (by rewrite Hd). apply verification_step in Hstep as [-> Hr]; [|done]. apply (IH _ _ _ t) in Hrun as (t' & rest' & Hrun & Hsub & Hrt).
    exists t', rest'. split; [exact Hrun|]. rewrite routes_app, Hr. split; [by apply sublist_inserts_l|done].
  - rewrite filter_cons_True by done. apply (IH _ _ _ (re_current_trigger r1)) in Hrun as (t' & rest' & Hrun & Hsub & Hrt). exists t', (out1 ++ rest').
    cbn [route_run]. rewrite trigger_forgotten, Hstep. cbn [mbind option_bind]. assert (r1 <| re_current_trigger := re_current_trigger r1 |> = r1) as Hr1 by (by destruct r1). rewrite Hr1 in Hrun.
    unfold unverified in Hrun. rewrite Hrun. cbn [mbind option_bind]. split; [done|]. rewrite !routes_app, Hrt. split; [by apply sublist_app|done].
Qed.

(** C40: no verification, verifier policy or reward reaches the router.  The
    run of a fresh executor on any events ends, up to the identifier of the
    event seen last, in the executor that never got the verifications, policy
    updates and rewards among them; it emits the same routes, and the same
    events up to the reports of the violated sequence.  So it has seen no
    verification, never counts the goal as finished and knows no verifier
    outcome, and its journal and result lists stay bounded. *)
Theorem verification_never_recorded ds r' out : run ds (executor_set_emitter executor_new) = Some (r', out) ->
  (exists t rest, run (unverified ds) (executor_set_emitter executor_new) = Some (r' <| re_current_trigger := t |>, rest) /\ rest `sublist_of` out /\ routes rest = routes out) /\
  rc_verify_seen (re_ctx r') = false /\ rc_finish_ready (re_ctx r') = false /\ rc_last_verifier_outcome (re_ctx r') = None /\ bounded (re_ctx r').
Proof.
  assert (Hgen : forall ds r r' out, idle r -> run ds r = Some (r', out) -> bounded (re_ctx r) -> (verified_facts (re_ctx r')).1 = (verified_facts (re_ctx r)).1 /\ bounded (re_ctx r')).
  { clear ds r' out. induction ds as [|d ds IH]; intros r r' out Hidle Hrun Hb; [injection Hrun as <- <-; by split|].
    apply run_cons in Hrun as (r1 & o & out1 & rest & Hstep & Hrun & Hout). cbn [fst snd] in *. apply step_spec in Hstep as (Hi & _ & Hv & Hbd & _ & _); [|exact Hidle].
    destruct (IH _ _ _ Hi Hrun (Hbd Hb)) as [Hv' Hb']. split; [congruence|done]. }
  intros Hrun. split; [exact (run_unverified _ _ _ _ None Hrun)|].
  apply Hgen in Hrun as [Hv Hb]; [|by split|by split_and!; cbn; lia]. unfold verified_facts in Hv. cbn [fst] in Hv. injection Hv as H1 H2 H3. by split_and!.
Qed.

(** ** The routes as the writer reads them *)

Definition chosen : list RouteKind := [Observe; Plan; Act].
Definition spells_route (le : LocatedEvent V) : Prop := match le_event le with RuntimeEvent.RouteSelected p => exists l, l ∈ chosen /\ RouteSelected.approved_route p = route_debug l | _ => True end.
Lemma decision_chosen s json prompt gate d : decide_from_json s json prompt gate = Ok d -> rd_lane d ∈ chosen.
Proof.
  destruct (decision_table s json prompt gate) as (d' & Hd & _ & _ & Hl). rewrite Hd. intros [= <-]. rewrite Hl. unfold chosen.
  destruct (ss_version s =? 0)%N; [set_solver|]. destruct (ss_complete s); [set_solver|]. destruct (_ || _); set_solver.
Qed.
Lemma located_spells e place parents : (forall p, e <> RuntimeEvent.RouteSelected p) -> spells_route (located site e place parents).
Proof. intros He. unfold located, spells_route. destruct (site place). cbn [le_event]. destruct e; try done. by destruct (He p). Qed.
Lemma dispatch_spells r r' out : try_dispatch_route decision_text site r = Some (r', out) -> Forall spells_route out.
Proof.
  unfold try_dispatch_route. cbv zeta. destruct (bool_decide _); [intros [= _ <-]; constructor|]. destruct (decide_from_json _ _ _ _) as [d|] eqn:Hd; [|intros [= _ <-]; constructor].
  apply decision_chosen in Hd. set (r1 := update re_trace_counter _ _). assert (Ht : Forall spells_route (decision_trace decision_text site d r1)).
  { unfold decision_trace. destruct (re_emitter r1); [|constructor]. destruct (re_current_trigger r1); [|constructor]. constructor; [by apply located_spells|constructor]. }
  destruct (emit_route_selected_from_decision site d "" r1) as [[r2 route]|] eqn:He; [|done]. intros [= _ <-]. apply Forall_app. split; [exact Ht|]. revert He.
  unfold emit_route_selected_from_decision. repeat (match goal with |- context [if ?b then _ else _] => destruct b end; try (intros [= _ <-]; constructor); try done).
  - match goal with |- context [match ?x with Some _ => _ | None => _ end] => destruct x end; intros [= _ <-]; constructor; [|constructor].
    unfold located, spells_route. destruct (site _). cbn. by exists (rd_lane d).
Qed.
Lemma finish_spells e id r r' o out : finish site e id r = Some (r', o, out) -> Forall spells_route out.
Proof.
  unfold finish. set (rb := match rc_batch_settled (re_ctx r) with Some (count, failed) => _ | None => _ end). assert (Hb : Forall spells_route rb.2).
  { subst rb. destruct (rc_batch_settled (re_ctx r)) as [[count failed]|]; cbn [snd]; [|constructor]. destruct (re_emitter r); [|constructor]. constructor; [by apply located_spells|constructor]. }
  destruct rb as [r1 batch]. cbn [snd] in Hb. destruct (re_dispatch_in_progress r), e; try (intros [= _ _ <-]; constructor); (destruct (settle _ _) as [[r3 o3]|]; [|done]; intros [= _ _ <-]; exact Hb).
Qed.
Lemma step_spells fresh loc e id r r' o out : route_on_event json_text show_f32 decision_text site fresh loc e id r = Some (r', o, out) -> Forall spells_route out.
Proof.
  unfold route_on_event. cbv zeta. destruct (should_reject_verifier_sequence _ _) as [[[feature reason] context]|].
  { intros [= _ _ <-]. unfold emit_invariant_violation. destruct (re_emitter _); [|constructor]. repeat (constructor; [by apply located_spells|]). constructor. }
  destruct (update_from_event _ _ e loc _) as [c1|]; [|done]. cbn [mbind option_bind]. destruct (match e with RuntimeEvent.PlanningCompleted pc => _ | _ => _ end) as [c2|]; [|done]. cbn [mbind option_bind].
  destruct e; try apply finish_spells; [|intros [= _ _ <-]; constructor]. destruct (_ =? 0)%N; [intros [= _ _ <-]; constructor|].
  destruct (try_dispatch_route _ _ _) as [[r2 routed]|] eqn:Hd; [|done]. cbn [mbind option_bind]. destruct (finish _ _ _ _) as [[[r3 o3] batch]|] eqn:Hf; [|done]. cbn [mbind option_bind]. intros [= _ _ <-].
  apply Forall_app. split; [by eapply dispatch_spells|by eapply finish_spells].
Qed.
Lemma run_spells ds r r' out : run ds r = Some (r', out) -> Forall spells_route out.
Proof.
  induction ds as [|d ds IH] in r, r', out |- *; [intros [= _ <-]; constructor|]. intros Hrun. apply run_cons in Hrun as (r1 & o & out1 & rest & Hstep & Hrun & Hout). cbn [fst snd] in *. subst out.
  apply Forall_app. split; [by eapply step_spells|by eapply IH].
Qed.
End Executor.

Lemma route_data {V} `{Json V} `{!JsonLaws V} `{JsonSer V} (p : RouteSelected.t) : json_get_str "approved_route" (payload_data (V := V) (RouteSelected.fields p)) = Some (RouteSelected.approved_route p).
Proof. unfold json_get_str, payload_data, build_json_object. rewrite json_get_jobj. set (m := foldl _ _ _ !! _). assert (Hm : m = Some (jstr (RouteSelected.approved_route p))) by reflexivity. rewrite Hm. cbn. unfold json_as_str. by rewrite view_jstr. Qed.

(** the routes the executor emits are spelled with a capital letter, so the
    writer finds no successor for them and a selected route obliges nothing,
    although the same route in lower case would. *)
Theorem routes_oblige_nothing {V} `{Json V} `{!JsonLaws V} `{JsonSer V} json_text show_f32 decision_text site ds (r r' : RouteExecutor V) out le p parents id file line ts w :
  route_run json_text show_f32 decision_text site ds r = Some (r', out) -> le ∈ out -> le_event le = RuntimeEvent.RouteSelected p ->
  runtime_event_to_wire (le_event le) parents id file line ts = Ok (Some w) ->
  required_successor w = None /\ is_Some (required_successor_kind EventKind.RouteSelected (Some (to_ascii_lowercase (RouteSelected.approved_route p)))).
Proof.
  intros Hrun Hle Hp. apply run_spells in Hrun. rewrite Forall_forall in Hrun. apply Hrun in Hle. unfold spells_route in Hle. rewrite Hp in *. destruct Hle as (l & Hl & Ha).
  unfold runtime_event_to_wire. cbn [wire_kind payload_from_shape shape mbind option_bind]. destruct (_ && _); [done|]. unfold event_new. destruct (_ && _); [done|]. intros [= <-]. split.
  - unfold required_successor, route_selected_target. cbn [ev_kind ev_payload p_data RuntimeEvent.kind EventKind.class]. rewrite route_data, Ha. unfold chosen in Hl. repeat (apply elem_of_cons in Hl as [-> |Hl]; [reflexivity|]). by apply elem_of_nil in Hl.
  - rewrite Ha. unfold chosen in Hl. repeat (apply elem_of_cons in Hl as [-> |Hl]; [by eexists|]). by apply elem_of_nil in Hl.
Qed.

(** Every result of a batch that is not plan-only settles it, also while other
    calls are pending; a new call forgets the results counted so far. *)
Lemma batch_settles_early {V} `{Json V} `{JsonSer V} json_text (tr : ToolResult.t V) c c' : on_tool_result json_text tr c = Some c' -> rc_batch_is_plan_only c = false ->
  rc_batch_settled c' = Some ((rc_batch_result_count c + 1)%N, negb (ToolResult.success tr) || rc_batch_any_failed c) /\ rc_pending_tool_result_ids c' = rc_pending_tool_result_ids c ∖ {[ ToolResult.tool_call_id tr ]}.
Proof.
  unfold on_tool_result, add32. destruct (_ <=? _)%N; [|done]. cbn [mbind option_bind]. destruct (truncated _ _); [|done]. intros Hc Hp. apply Some_inj in Hc as <-.
  match goal with |- context [if rc_batch_is_plan_only ?x then _ else _] => assert (Hx : rc_batch_is_plan_only x = false) by (rewrite <- Hp; destruct (ToolResult.success tr); reflexivity); rewrite Hx end.
  destruct (ToolResult.success tr); split; reflexivity.
Qed.

(** ** A short run *)

Definition seen_summary : SemanticStateSummary := set_path_exists (set_version summary_default 1) true.
Definition observation (n : N) : RuntimeEvent.t jval := RuntimeEvent.LoopObserved (LoopObserved.mk n 0 0 [] None seen_summary []).
Definition deliveries : list (Delivery jval) :=
  [MkDelivery (RuntimeEvent.Tick (Tick.mk 1 true)) "t" "f" 0; MkDelivery (observation 1) "o" "f" 0; MkDelivery (observation 1) "o2" "f" 0;
   MkDelivery (RuntimeEvent.LoopVerified (LoopVerified.mk 1 true true true 0 [] None None None None)) "v" "f" 0].
Abbreviation short_run ds := (route_run (V := jval) (fun _ => ""%string) (fun _ => ""%string) (fun _ => ""%string) (fun l => (l, 0%N)) ds (executor_set_emitter executor_new)).
Definition observed_twice : list (Delivery jval) := [MkDelivery (observation 1) "o" "f" 0; MkDelivery (observation 1) "o2" "f" 0].
Lemma observed_twice_runs : bool_decide (is_Some (short_run observed_twice)) = true.
Proof. vm_compute. reflexivity. Qed.
Lemma deliveries_run : bool_decide (is_Some (short_run deliveries)) = true.
Proof. vm_compute. reflexivity. Qed.
Lemma route_exactly_once_witness : match short_run observed_twice with Some (_, out) => routes out = [0%N] | None => False end.
Proof.
  match goal with |- context [match ?x with _ => _ end] => destruct x as [[r' out]|] eqn:Hrun end; [|by pose proof observed_twice_runs as Hs; rewrite Hrun in Hs].
  apply (route_exactly_once (V := jval)) in Hrun as [_ Hrun]; [exact Hrun|by split|by repeat constructor].
Defined.
Lemma routes_increase_witness : match short_run deliveries with Some (_, out) => StronglySorted N.lt (routes out) | None => False end.
Proof.
  match goal with |- context [match ?x with _ => _ end] => destruct x as [[r' out]|] eqn:Hrun end; [|by pose proof deliveries_run as Hs; rewrite Hrun in Hs].
  apply (routes_increase (V := jval) _ _ _ _ _ _ _ Hrun). repeat constructor.
Defined.
(** The same run with a reward that asks for a halt. *)
Definition rewarded_run : list (Delivery jval) := deliveries ++ [MkDelivery (RuntimeEvent.LoopRewarded (LoopRewarded.mk 1 0 0 0 true (f32_lit 0 1) (f32_lit 0 1) (f32_lit 0 1) None None None None)) "w" "f" 0].
Lemma rewarded_runs : bool_decide (is_Some (short_run rewarded_run)) = true.
Proof. vm_compute. reflexivity. Qed.
Lemma verification_never_recorded_witness : match short_run rewarded_run with
  | Some (r', out) => (exists t rest, short_run (take 3 deliveries) = Some (r' <| re_current_trigger := t |>, rest) /\ rest `sublist_of` out /\ routes rest = routes out) /\ rc_verify_seen (re_ctx r') = false
  | None => False end.
Proof.
  match goal with |- context [match ?x with _ => _ end] => destruct x as [[r' out]|] eqn:Hrun end; [|by pose proof rewarded_runs as Hs; rewrite Hrun in Hs].
  apply (verification_never_recorded (V := jval)) in Hrun as (Hsame & Hv & _). split; [exact Hsame|exact Hv].
Defined.
Definition selected : RouteSelected.t := RouteSelected.mk 1 "Act" "" "Act" "semantic_state_routing::Act" (Some (f32_lit 9 10)) "semantic_state_routing" [] false false "".
Definition selected_located : LocatedEvent jval := MkLocated (RuntimeEvent.RouteSelected selected) "emit_route_selected" 0 ["o"%string].
Lemma deliveries_route : (short_run deliveries ≫= fun r => r.2 !! 1) = Some selected_located.
Proof. vm_compute. reflexivity. Qed.
Lemma routes_oblige_nothing_witness : exists w, runtime_event_to_wire (V := jval) (RuntimeEvent.RouteSelected selected) ["p"%string] "i" "" 0 1 = Ok (Some w) /\ required_successor w = None.
Proof.
  eexists. split; [reflexivity|]. pose proof deliveries_route as Hroute. match type of Hroute with mbind _ ?x = _ => destruct x as [[r' out]|] eqn:Hrun end; [|discriminate Hroute]. cbn [mbind option_bind snd] in Hroute.
  apply (routes_oblige_nothing (V := jval) _ _ _ _ _ _ _ _ selected_located selected ["p"%string] "i" "" 0 1 _ Hrun); [by eapply list_elem_of_lookup_2|reflexivity|reflexivity].
Defined.
