(* ===== verification/Merge.v ===== *)
(** * Merging of sub-agent results and file claims ([canon-loop/src/merge.rs]) *)
From S2P Require Import Prelude Json Text PatchParser TextFormat Paths LoopPolicy EventShape KernelTypes Events.

(** ** Claims on files *)

(** Path to the agent and action that is writing it. *)
Definition FileWriteTracker : Type := gmap PathKey (string * string).
Definition claim (path : bytes) (agent_id action_id : string) (t : FileWriteTracker) : FileWriteTracker * option (string * string) :=
  match t !! components path with
  | Some (other_agent, other_action) =>
      if negb (String.eqb other_agent agent_id) || negb (String.eqb other_action action_id) then (t, Some (other_agent, other_action))
      else (<[ components path := (agent_id, action_id) ]> t, None)
  | None => (<[ components path := (agent_id, action_id) ]> t, None)
  end.
Definition release (path : bytes) (t : FileWriteTracker) : FileWriteTracker := delete (components path) t.
Definition release_agent (agent_id : string) (t : FileWriteTracker) : FileWriteTracker := filter (fun kv => kv.2.1 <> agent_id) t.

(** ** Results of sub-agents *)

Record MergedActionEntry := MkMerged { me_agent_id : string; me_action_kind : string; me_success : bool; me_stdout_summary : string; me_ts : N }.
Definition ContextMerger : Type := list MergedActionEntry.

Section Merge.
Context {V : Type} `{Json V}.
Context (to_text : V -> string).

(** [None] when the cut at 256 bytes is inside a character. *)
Definition absorb (r : SubTaskResult.t V) (agent_id : string) (m : ContextMerger) : option ContextMerger :=
  let summary := to_text (SubTaskResult.output r) in
  text ← (if 256 <? String.length summary then p ← slice_to 256 (lit summary); Some (str p +:+ "...<truncated>") else Some summary);
  let text := match SubTaskResult.error r with Some err => text +:+ (" error=" +:+ err) | None => text end in
  let m := m ++ [MkMerged agent_id "sub_task" (SubTaskResult.success r) text 0] in
  Some (drop (length m - 32) m).

(** ** The paths an action writes *)

Definition patch_path (line : bytes) : option bytes :=
  let trimmed := trim line in
  match strip_prefix (lit "*** Add File:") trimmed with
  | Some rest => Some (trim rest)
  | None => trim <$> strip_prefix (lit "*** Update File:") trimmed
  end.
Definition extract_paths_from_patch (patch : bytes) : list bytes := omap patch_path (str_lines patch).
Definition extract_written_paths (action_kind : string) (payload : V) : list bytes :=
  if String.eqb action_kind "write_file" then match json_get_str "path" payload with Some p => [lit p] | None => [] end
  else if String.eqb action_kind "apply_patch" then extract_paths_from_patch (lit (default ""%string (json_get_str "patch" payload)))
  else [].
End Merge.

Definition merged_line (m : MergedActionEntry) : string :=
  "- agent=" +:+ me_agent_id m +:+ " success=" +:+ (if me_success m then "true" else "false") +:+ " kind=" +:+ me_action_kind m +:+ " note=" +:+ me_stdout_summary m.
Definition prompt_section (m : ContextMerger) : string :=
  if bool_decide (m = []) then "" else "Recent sub-agent actions:" +:+ str [x0a] +:+ str (join [x0a] (lit ∘ merged_line <$> take 8 (reverse m))) +:+ str [x0a].

(** ** Exclusive writers *)

(** A claim succeeds exactly when no other action holds the path, and then
    this action holds it; a refused claim changes nothing and names the holder. *)
Lemma claim_spec path agent action t : match claim path agent action t with
  | (t', None) => t' = <[ components path := (agent, action) ]> t /\ (t !! components path = None \/ t !! components path = Some (agent, action))
  | (t', Some holder) => t' = t /\ t !! components path = Some holder /\ holder <> (agent, action)
  end.
Proof.
  unfold claim. destruct (t !! components path) as [[a b]|]; [|auto].
  destruct (String.eqb_spec a agent) as [->|Ha], (String.eqb_spec b action) as [->|Hb]; cbn [negb orb]; auto; split_and!; try done; congruence.
Qed.
