(* ===== verification/ExecConstraints.v ===== *)
(** * Constraints on executed actions ([canon-loop/src/exec_constraints.rs])

    Before a command runs it is classified and given to the constraint engine,
    which may let it pass, forbid it, or have it rewritten between [cargo new]
    and [cargo init].  The file system is a predicate on paths. *)
From S2P Require Import Prelude Json Text PatchParser TextFormat Paths SemanticState SemanticText ConstraintEngine.

(** [str::split_whitespace]: the words between characters of [white_space]. *)
Fixpoint words (fuel : nat) (acc text : bytes) : list bytes :=
  let flush := if bool_decide (acc = []) then [] else [acc] in
  match fuel with
  | O => flush
  | S fuel' =>
      match text with
      | [] => flush
      | b :: rest => match strip_any white_space text with Some after => flush ++ words fuel' [] after | None => words fuel' (acc ++ [b]) rest end
      end
  end.
Definition split_whitespace (text : bytes) : list bytes := words (length text) [] text.

Record ExecState := MkExecState {
  es_target_root : bytes; es_semantic_path_exists : bool; es_semantic_cargo_project : bool; es_real_path_exists : bool; es_real_cargo_project : bool;
  es_actionable_failure : bool; es_validation_blocked : bool; es_entrypoint_missing : bool; es_module_gaps_present : bool;
  es_failure_class_no_actionable : bool; es_failure_scope_localized : bool; es_failure_scope_workspace : bool; es_failure_scope_tooling : bool
}.

Definition repairable_kind (k : CompilerHintKind) : bool :=
  match k with MissingModule | DeadCodeForbidConflict | MissingEntrypoint | UnresolvedImport | MissingSymbol | DuplicateDefinition | TraitBoundFailure => true | _ => false end.
Definition localizes (h : CompilerHintRecord) : bool :=
  match kind_enum h with Some k => repairable_kind k | None => false end &&
  existsb (fun path => negb (bool_decide (trim path = [])) && negb (bool_decide (path = lit "none"))) (ch_target_files h).

Section FileSystem.
Context (path_exists : bytes -> bool).
Definition exec_state_of_summary (target_root : bytes) (s : SemanticStateSummary) : ExecState :=
  let in_root name := path_exists (join_path target_root (lit name)) in
  let real_cargo_project := in_root "Cargo.toml" in
  let real_entrypoint_missing := negb (in_root "src/main.rs") && negb (in_root "src/lib.rs") in
  MkExecState target_root (ss_path_exists s) (ss_cargo_project s) (path_exists target_root) real_cargo_project
    (ss_validation_blocked_by_preconditions s || ss_compiler_repair_required s || negb (bool_decide (ss_planning_preconditions s = [])) ||
     negb (bool_decide (ss_module_gaps s = [])) || has_actionable_compiler_hints s ||
     match primary_failure_class s with Some c => negb (bool_decide (c = lit "no_actionable_failure")) | None => false end)
    (ss_validation_blocked_by_preconditions s)
    (match ss_entrypoint_kind s with Some k => bool_decide (k = lit "none") | None => true end && ss_cargo_project s && real_cargo_project && real_entrypoint_missing)
    (negb (bool_decide (ss_module_gaps s = [])))
    (bool_decide (primary_failure_class s = Some (lit "no_actionable_failure")))
    (bool_decide (ss_failure_scope s = Some (lit "localized")) || negb (bool_decide (ss_module_gaps s = [])) || existsb localizes (ss_compiler_hints s))
    (bool_decide (ss_failure_scope s = Some (lit "workspace"))) (bool_decide (ss_failure_scope s = Some (lit "tooling"))).
End FileSystem.

Definition constraint_state (s : ExecState) : ConstraintState :=
  Build_ConstraintState (es_semantic_path_exists s) (es_semantic_cargo_project s) (es_real_path_exists s) (es_real_cargo_project s) (es_actionable_failure s) (es_validation_blocked s)
    (es_entrypoint_missing s) (es_module_gaps_present s) false (es_failure_class_no_actionable s) (es_failure_scope_localized s) (es_failure_scope_workspace s) (es_failure_scope_tooling s) false false.

Inductive ExecAction : Type := RunCommand (cmd cwd : bytes) | OtherAction (action_kind : string).
Inductive ExecDecision : Type := ExecAllow | ExecForbid (reason : string) | ExecRewrite (a : ExecAction) (reason : string).

Section Planned.
Context {V : Type} `{Json V}.
Definition from_planned (action_kind : string) (payload : V) : ExecAction :=
  if String.eqb action_kind "run_command" then RunCommand (lit (default ""%string (json_get_str "cmd" payload))) (match json_get_str "cwd" payload with Some c => lit c | None => lit "." end)
  else OtherAction action_kind.
End Planned.

(** ** Rewriting of bootstrap commands *)

Fixpoint flag_value (flag : bytes) (tokens : list bytes) : option bytes :=
  match tokens with [] => None | t :: rest => if bool_decide (t = flag) then head rest else flag_value flag rest end.
Definition extract_flag_value (cmd : bytes) (flag : string) : option bytes := flag_value (lit flag) (split_whitespace cmd).
(** [str::trim_end_matches] with a character. *)
Definition trim_end_matches (c : byte) (l : bytes) : bytes := reverse (trim_start_matches c (reverse l)).
Definition new_target (token : bytes) : bool := negb (starts_with (lit "-") token) && negb (bool_decide (token = lit "new")) && negb (bool_decide (token = lit "cargo")).
Definition extract_cargo_new_target (cmd : bytes) : option bytes :=
  trim_end_matches SLASH <$> head (filter (fun t => new_target t = true) (reverse (split_whitespace cmd))).
Definition kind_flags (cmd : bytes) : list bytes := if contains (lit "--lib") cmd then [lit "--lib"] else if contains (lit "--bin") cmd then [lit "--bin"] else [].
Definition name_flags (name : option bytes) : list bytes := match name with Some n => [lit "--name"; n] | None => [] end.
Definition SPACE : byte := x20.
Definition rewrite_cargo_init_to_new (cmd target_root : bytes) : bytes :=
  join [SPACE] ([lit "cargo"; lit "new"] ++ name_flags (extract_flag_value cmd "--name") ++ kind_flags cmd ++ [default (lit "workspace") (file_name target_root)]).
Definition rewrite_cargo_new_to_init (cmd : bytes) : bytes :=
  let name := match extract_flag_value cmd "--name" with Some n => Some n | None => extract_cargo_new_target cmd end in
  join [SPACE] ([lit "cargo"; lit "init"] ++ name_flags name ++ kind_flags cmd ++ [lit "."]).

(** ** Validation *)

Definition action_class (a : ExecAction) : ConstraintAction :=
  match a with
  | RunCommand cmd _ =>
      match meta_invariant_classify_bootstrap_tool (str cmd) with
      | Some ToolCargoInit => CargoInit
      | Some ToolCargoNew => CargoNew
      | None => if contains (lit "cargo check") cmd || contains (lit "cargo build") cmd || contains (lit "cargo test") cmd then Validation else RepairWorkspace
      end
  | OtherAction _ => Other
  end.
Definition validate_exec_action (s : ExecState) (a : ExecAction) : ExecDecision :=
  match evaluate_constraint_context {| ctx_state := constraint_state s; ctx_route := None; ctx_action := Some (action_class a); deterministic_route := None |} with
  | Allow => ExecAllow
  | Forbid reason => ExecForbid reason
  | RewriteAction CargoNew reason =>
      match a with
      | RunCommand cmd _ => ExecRewrite (RunCommand (rewrite_cargo_init_to_new cmd (es_target_root s)) (default (es_target_root s) (parent (es_target_root s)))) reason
      | OtherAction _ => ExecForbid reason
      end
  | RewriteAction CargoInit reason =>
      match a with
      | RunCommand cmd _ => ExecRewrite (RunCommand (rewrite_cargo_new_to_init cmd) (es_target_root s)) reason
      | OtherAction _ => ExecForbid reason
      end
  | RewriteAction _ reason => ExecForbid reason
  | RewriteRoute _ _ => ExecAllow
  end.

(** ** A rewritten command needs no further rewriting *)

Lemma lit_str b : lit (str b) = b.
Proof. apply String.list_byte_of_string_of_list_byte. Qed.
Lemma lit_app s1 s2 : lit (s1 +:+ s2) = lit s1 ++ lit s2.
Proof. induction s1 as [|a s1 IH]; [done|]. change (Ascii.byte_of_ascii a :: lit (s1 +:+ s2) = Ascii.byte_of_ascii a :: (lit s1 ++ lit s2)). by rewrite IH. Qed.
Lemma prefix_app_string p s : String.prefix p s = true -> exists r, s = p +:+ r.
Proof.
  revert s. induction p as [|a p IH]; intros s Hp; [by exists s|]. destruct s as [|b s]; [done|]. cbn in Hp. destruct (Ascii.ascii_dec a b) as [->|]; [|done].
  destruct (IH s Hp) as [r ->]. by exists r.
Qed.
Lemma str_contains_split needle hay : str_contains needle hay = true -> exists a b, lit hay = a ++ lit needle ++ b.
Proof.
  induction hay as [|c hay IH]; cbn [str_contains]; intros Hc.
  - apply orb_true_iff in Hc as [Hp|Hp]; [|done]. apply prefix_app_string in Hp as [r Hr]. exists [], (lit r). by rewrite Hr, lit_app.
  - apply orb_true_iff in Hc as [Hp|Hp].
    + apply prefix_app_string in Hp as [r Hr]. exists [], (lit r). by rewrite Hr, lit_app.
    + apply IH in Hp as (a & b & Hab). exists (Ascii.byte_of_ascii c :: a), b. change (Ascii.byte_of_ascii c :: lit hay = Ascii.byte_of_ascii c :: (a ++ lit needle ++ b)). by rewrite Hab.
Qed.

(** A needle of two words lies across two neighbouring words of the hay. *)
Lemma split_two_words a u v b : SPACE ∉ u -> SPACE ∉ v ->
  exists front x y back, split_byte SPACE (a ++ (u ++ SPACE :: v) ++ b) = front ++ [x ++ u] ++ [v ++ y] ++ back.
Proof.
  intros Hu Hv. assert (Hend : exists front x, split_byte SPACE (a ++ u) = front ++ [x ++ u]).
  { clear b Hv. induction a as [|c a IH]; [exists [], []; by apply split_byte_none|]. destruct IH as (front & x & IH). cbn [app split_byte]. rewrite IH. destruct (Byte.eqb c SPACE); [by exists ([] :: front), x|].
    destruct front as [|f front]; [by exists [], (c :: x)|by exists ((c :: f) :: front), x]. }
  assert (Hstart : exists y back, split_byte SPACE (v ++ b) = (v ++ y) :: back).
  { clear a u Hu Hend. induction v as [|c v IH]; cbn [app].
    - destruct (split_byte SPACE b) as [|y back] eqn:E; [|by exists y, back]. destruct b as [|c b]; [done|]. cbn in E. destruct (Byte.eqb c SPACE); [done|]. by destruct (split_byte SPACE b).
    - apply not_elem_of_cons in Hv as [Hc Hv]. destruct (IH Hv) as (y & back & E). cbn [split_byte]. rewrite byte_eqb_spec, bool_decide_eq_false_2, E by done. by exists y, back. }
  destruct Hend as (front & x & Hend), Hstart as (y & back & Hstart). exists front, x, y, back.
  rewrite <- !app_assoc. cbn [app]. rewrite (app_assoc a u), split_byte_app, Hend. cbn [app]. rewrite Hstart, <- app_assoc. done.
Qed.

Lemma strip_any_some pats p bs : p ∈ pats -> take (length p) bs = p -> is_Some (strip_any pats bs).
Proof.
  unfold strip_any. induction pats as [|q pats IH]; [by intros ?%elem_of_nil|]. intros [->|Hin]%elem_of_cons Hp; cbn [foldr].
  - by rewrite bool_decide_eq_true_2.
  - destruct (bool_decide _); [done|]. by apply IH.
Qed.
Lemma words_no_space fuel acc text : SPACE ∉ acc -> Forall (fun w => SPACE ∉ w) (words fuel acc text).
Proof.
  revert acc text. induction fuel as [|fuel IH]; intros acc text Hacc; cbn [words].
  { destruct (bool_decide _); by repeat constructor. }
  destruct text as [|b rest]; [destruct (bool_decide _); by repeat constructor|].
  destruct (strip_any white_space (b :: rest)) as [after|] eqn:Hs.
  - apply Forall_app. split; [destruct (bool_decide _); by repeat constructor|]. apply IH. by intros ?%elem_of_nil.
  - apply IH. intros [Hin|[<-|Hin%elem_of_nil]%elem_of_cons]%elem_of_app; [done| |done].
    destruct (strip_any_some white_space [x20] (x20 :: rest)) as [? ?]; [by apply list_elem_of_In; vm_compute; tauto|by cbn; rewrite take_0|]. unfold SPACE in Hs. congruence.
Qed.
Lemma flag_value_no_space flag tokens v : Forall (fun w => SPACE ∉ w) tokens -> flag_value flag tokens = Some v -> SPACE ∉ v.
Proof.
  induction 1 as [|t tokens Ht Hts IH]; [done|]. cbn [flag_value]. case_bool_decide; [|exact IH]. destruct Hts; [done|]. by intros [= <-].
Qed.
Lemma trim_start_matches_sub c l x : x ∈ trim_start_matches c l -> x ∈ l.
Proof. induction l as [|b l IH]; [done|]. cbn [trim_start_matches]. destruct (Byte.eqb b c); [|done]. intros Hx. apply elem_of_cons. right. by apply IH. Qed.
Lemma new_target_no_space cmd v : extract_cargo_new_target cmd = Some v -> SPACE ∉ v.
Proof.
  unfold extract_cargo_new_target. destruct (head _) as [t|] eqn:Ht; [|done]. cbn. intros [= <-]. unfold trim_end_matches. rewrite elem_of_reverse. intros Hx%trim_start_matches_sub. rewrite elem_of_reverse in Hx.
  assert (Hin : t ∈ split_whitespace cmd).
  { apply head_Some_elem_of, list_elem_of_filter in Ht as [_ Ht]. by rewrite elem_of_reverse in Ht. }
  pose proof (words_no_space (length cmd) [] cmd ltac:(by intros ?%elem_of_nil)) as Hall. rewrite Forall_forall in Hall. by apply (Hall t).
Qed.

(** A literal without a space. *)
Ltac no_space := let Hx := fresh in intros Hx; apply list_elem_of_In in Hx; vm_compute in Hx; intuition discriminate.
Definition name_ok (name : option bytes) : Prop := match name with Some n => SPACE ∉ n | None => True end.
Lemma flag_name_ok cmd flag : name_ok (extract_flag_value cmd flag).
Proof.
  unfold extract_flag_value. destruct (flag_value _ _) as [v|] eqn:Hv; [|done]. eapply flag_value_no_space; [|exact Hv]. apply words_no_space. by intros ?%elem_of_nil.
Qed.
Lemma not_new_words name kind : name_ok name -> kind ∈ [[lit "--lib"]; [lit "--bin"]; []] ->
  str_contains "cargo new" (str (join [SPACE] ([lit "cargo"; lit "init"] ++ name_flags name ++ kind ++ [lit "."]))) = false.
Proof.
  intros Hname Hkind. apply not_true_is_false. intros (a & b & Hab)%str_contains_split. rewrite lit_str in Hab.
  set (tokens := name_flags name ++ kind ++ [lit "."]) in Hab.
  assert (Hsplit : split_byte SPACE (join [SPACE] (lit "cargo" :: lit "init" :: tokens)) = lit "cargo" :: lit "init" :: tokens).
  { apply split_join_byte. apply Forall_cons. split; [no_space|]. apply Forall_cons. split; [no_space|]. apply Forall_app. split.
    - destruct name; cbn [name_flags]; [|constructor]. apply Forall_cons. split; [no_space|]. by apply Forall_singleton.
    - apply elem_of_cons in Hkind as [->|[->|[->|?%elem_of_nil]%elem_of_cons]%elem_of_cons]; [..|done]; repeat (apply Forall_cons; split; [no_space|]); constructor. }
  cbn [app] in Hab. rewrite Hab in Hsplit. change (lit "cargo new") with (lit "cargo" ++ SPACE :: lit "new") in Hsplit.
  destruct (split_two_words a (lit "cargo") (lit "new") b) as (front & x & y & back & Hw); [no_space..|].
  rewrite Hw in Hsplit. clear Hw Hab a b.
  assert (Hlast : last (x ++ lit "cargo") = Some x6f) by (rewrite last_app; reflexivity). assert (Hhead : head (lit "new" ++ y) = Some x6e) by reflexivity.
  assert (H1 : (lit "cargo" :: lit "init" :: tokens) !! length front = Some (x ++ lit "cargo")) by (rewrite <- Hsplit; by apply list_lookup_middle).
  assert (H2 : (lit "cargo" :: lit "init" :: tokens) !! S (length front) = Some (lit "new" ++ y)).
  { rewrite <- Hsplit. rewrite lookup_app_r by lia. by replace (S (length front) - length front) with 1 by lia. }
  revert H1 H2 Hlast Hhead. clear Hsplit. generalize (x ++ lit "cargo") (lit "new" ++ y) (length front). subst tokens. intros p q i H1 H2 Hl Hh.
  apply elem_of_cons in Hkind as [->|[->|[->|?%elem_of_nil]%elem_of_cons]%elem_of_cons]; [..|done];
    destruct name; destruct i as [|[|[|[|[|[|i]]]]]]; cbn in H1, H2; try discriminate H2; injection H1 as <-; injection H2 as <-; try discriminate Hh; try discriminate Hl.
Qed.

Lemma kind_flags_in cmd : kind_flags cmd ∈ [[lit "--lib"]; [lit "--bin"]; []].
Proof. unfold kind_flags. repeat case_match; set_solver. Qed.
Lemma prefix_refl_app p r : String.prefix p (p +:+ r) = true.
Proof. induction p as [|a p IH]; [by destruct r|]. change (String a p +:+ r) with (String a (p +:+ r)). cbn [String.prefix]. destruct (Ascii.ascii_dec a a); [exact IH|done]. Qed.
Lemma str_contains_prefix p r : str_contains p (p +:+ r) = true.
Proof. destruct (p +:+ r) eqn:E; cbn [str_contains]; rewrite <- E; by rewrite prefix_refl_app. Qed.
Lemma class_of_new cmd root cwd : action_class (RunCommand (rewrite_cargo_init_to_new cmd root) cwd) = CargoNew.
Proof.
  unfold action_class, meta_invariant_classify_bootstrap_tool, rewrite_cargo_init_to_new. match goal with |- context [str_contains "cargo new" (str (join _ (_ ++ ?rest)))] => generalize rest end. intros rest.
  change (str (join [SPACE] ([lit "cargo"; lit "new"] ++ rest))) with ("cargo new" +:+ str (concat ((fun x => [SPACE] ++ x) <$> rest))). by rewrite str_contains_prefix.
Qed.
Lemma class_of_init cmd cwd : action_class (RunCommand (rewrite_cargo_new_to_init cmd) cwd) = CargoInit.
Proof.
  unfold action_class, meta_invariant_classify_bootstrap_tool, rewrite_cargo_new_to_init. rewrite not_new_words; [| |apply kind_flags_in].
  { match goal with |- context [str_contains "cargo init" (str (join _ (_ ++ ?rest)))] => generalize rest end. intros rest.
    change (str (join [SPACE] ([lit "cargo"; lit "init"] ++ rest))) with ("cargo init" +:+ str (concat ((fun x => [SPACE] ++ x) <$> rest))). by rewrite str_contains_prefix. }
  pose proof (flag_name_ok cmd "--name") as Hf. destruct (extract_flag_value cmd "--name"); [exact Hf|]. destruct (extract_cargo_new_target cmd) eqn:Ht; [|done]. by eapply new_target_no_space.
Qed.

(** a command is rewritten at most once: in every workspace (whose
    manifest lies in an existing directory) a rewritten command is accepted as
    it is, and a command is only rewritten when its tool does not fit. *)
Theorem rewrite_settles s cmd cwd a reason : (es_real_cargo_project s = true -> es_real_path_exists s = true) ->
  validate_exec_action s (RunCommand cmd cwd) = ExecRewrite a reason ->
  validate_exec_action s a = ExecAllow /\
  ((es_real_path_exists s = false /\ action_class (RunCommand cmd cwd) = CargoInit /\ action_class a = CargoNew) \/
   (es_real_path_exists s = true /\ es_real_cargo_project s = false /\ action_class (RunCommand cmd cwd) = CargoNew /\ action_class a = CargoInit)).
Proof.
  intros Hroot. unfold validate_exec_action, evaluate_constraint_context. cbn [deterministic_route ctx_route ctx_action ctx_state].
  destruct (action_class (RunCommand cmd cwd)) eqn:Hc; cbn [evaluate_action constraint_state real_path_exists real_cargo_project failure_class_no_actionable actionable_failure failure_scope_localized validation_blocked entrypoint_missing module_gaps_present];
    [| |split_ifs; discriminate..].
  - destruct (es_real_path_exists s) eqn:Hp; cbn [negb]; [destruct (es_real_cargo_project s); discriminate|]. intros [= <- <-]. rewrite class_of_new. cbn [evaluate_action constraint_state real_path_exists real_cargo_project].
    rewrite Hp. destruct (es_real_cargo_project s); [by specialize (Hroot eq_refl)|]. cbn [andb]. split; [done|]. by left.
  - destruct (es_real_path_exists s) eqn:Hp, (es_real_cargo_project s) eqn:Hr; cbn [negb andb]; try discriminate. intros [= <- <-]. rewrite class_of_init. cbn [evaluate_action constraint_state real_path_exists real_cargo_project].
    rewrite Hp, Hr. split; [done|]. by right.
Qed.
Definition bare_dir : ExecState := MkExecState (lit "/w/p") true false true false false false false false true false false false.
Lemma rewrite_settles_witness : validate_exec_action bare_dir (RunCommand (lit "cargo init --name demo .") (lit "/w/p")) = ExecAllow.
Proof. eapply (rewrite_settles bare_dir (lit "cargo new demo/") (lit "/w")); [done|vm_compute; reflexivity]. Defined.
