(* ===== verification/CompilerHints.v ===== *)
(** * Compiler hints ([canon-loop/src/compiler_hints.rs])

    Compiler messages are searched for known phrases and become hints with a
    kind, the files they point to and the scope of the failure. *)
From S2P Require Import Prelude Json Text PatchParser TextFormat SemanticState Objectives LoopPolicy.

(** [sort] and [dedup] of strings. *)
Fixpoint insert_bytes (x : bytes) (l : list bytes) : list bytes :=
  match l with [] => [x] | y :: l' => if bytes_leb x y then x :: l else y :: insert_bytes x l' end.
Definition sort_bytes (l : list bytes) : list bytes := foldr insert_bytes [] l.
Fixpoint dedup (l : list bytes) : list bytes :=
  match l with x :: ((y :: _) as l') => if bool_decide (x = y) then dedup l' else x :: dedup l' | _ => l end.

Definition GRAVE : byte := x60.
(** The text between a marker and the next back-tick, unless it is blank; the
    same steps serve [extract_missing_module_name] and
    [extract_trait_bound_summary]. *)
Definition extract_backticked_after (text : bytes) (marker : string) : option bytes :=
  i ← find_sub (lit marker) text;
  let tail := drop (i + length (lit marker)) text in
  j ← find_sub [GRAVE] tail;
  let value := trim (take j tail) in
  if bool_decide (value = []) then None else Some value.
Definition extract_missing_module_name (text : bytes) : option bytes := extract_backticked_after text "file not found for module `".
Definition or_else {A} (a b : option A) : option A := match a with Some _ => a | None => b end.
Definition extract_unresolved_import_symbol (text : bytes) : option bytes := or_else (extract_backticked_after text "unresolved import `") (extract_backticked_after text "no `").
Definition extract_missing_symbol (text : bytes) : option bytes :=
  or_else (extract_backticked_after text "cannot find function `") (or_else (extract_backticked_after text "cannot find type `")
    (or_else (extract_backticked_after text "cannot find value `") (extract_backticked_after text "cannot find struct, variant or union type `"))).
Definition extract_duplicate_definition_symbol (text : bytes) : option bytes := or_else (extract_backticked_after text "the name `") (extract_backticked_after text "duplicate definitions with name `").
Definition extract_trait_bound_summary (text : bytes) : option bytes := extract_backticked_after text "the trait bound `".

Definition target_file (line : bytes) : option bytes :=
  rest ← strip_prefix (lit "--> ") (trim line);
  let path := trim (default [] (head (split_byte x3a rest))) in
  if bool_decide (path = []) then None else Some path.
Definition extract_target_files (text : bytes) : list bytes := dedup (sort_bytes (omap target_file (str_lines text))).

Definition classify_failure_scope (text : bytes) (target_files : list bytes) : FailureScopeKind :=
  if has text "rustc capture failed" then Tooling
  else if existsb (fun t => negb (bool_decide (trim t = [])) && negb (bool_decide (t = lit "none"))) target_files then Localized
  else if has text ".cargo/config.toml" || has text "Cargo.toml" || has text "workspace" || has text "forbid" || has text "target path does not exist" || has text "failed to load manifest" ||
          has text "manifest path" || has text "cannot be run on existing Cargo packages" || has text "use `cargo new`" || has text "No such file or directory" then Workspace
  else Tooling.
Definition classify_failure_class (text : bytes) : FailureClassKind :=
  if bool_decide (is_Some (extract_missing_module_name text)) then FcMissingModule
  else if has text "allow(dead_code) incompatible with previous forbid" then FcDeadCodeForbidConflict
  else if has text "main function not found" || has text "`main` function not found" then FcMissingEntrypoint
  else if bool_decide (is_Some (extract_unresolved_import_symbol text)) then FcUnresolvedImport
  else if bool_decide (is_Some (extract_missing_symbol text)) then FcMissingSymbol
  else if bool_decide (is_Some (extract_duplicate_definition_symbol text)) then FcDuplicateDefinition
  else if bool_decide (is_Some (extract_trait_bound_summary text)) then FcTraitBoundFailure
  else FcGenericCompilerFailure.
Definition classify_failure_metadata (text : bytes) : FailureClassKind * FailureScopeKind := (classify_failure_class text, classify_failure_scope text (extract_target_files text)).

(** [truncate]: [None] when the cut is inside a character. *)
Definition truncate (text : bytes) (max_len : nat) : option bytes := if max_len <? length text then p ← slice_to max_len text; Some (p ++ lit "...") else Some text.

(** The hints of one message. *)
Definition text_hint (text : bytes) : option (option CompilerHintRecord) :=
  let targets := extract_target_files text in
  let scope := classify_failure_scope text targets in
  let hint k summary repair scope := Some (Some (with_failure_scope (hint_new k summary (lit repair) targets) scope)) in
  match extract_missing_module_name text with
  | Some m => Some (Some (with_failure_scope (hint_new MissingModule (lit "compiler reports missing module `" ++ m ++ [GRAVE])
      (lit "use semantic module creation to add `" ++ m ++ lit "` before cargo check") targets) scope))
  | None =>
  if has text "allow(dead_code) incompatible with previous forbid" then
    hint DeadCodeForbidConflict (lit "compiler forbids dead_code while source adds allow(dead_code)") "remove allow(dead_code) or make the code used; do not suppress this lint" Workspace
  else if has text "main function not found" || has text "`main` function not found" then
    hint MissingEntrypoint (lit "compiler reports missing main entrypoint") "create src/main.rs with a valid main function or convert the crate to a library" scope
  else match extract_unresolved_import_symbol text with
  | Some s => hint UnresolvedImport (lit "compiler reports unresolved import `" ++ s ++ [GRAVE]) "use semantic import repair to add or correct the import before cargo check" scope
  | None =>
  match extract_missing_symbol text with
  | Some s => hint MissingSymbol (lit "compiler cannot find `" ++ s ++ lit "` in scope") "use semantic symbol definition or import repair before cargo check" scope
  | None =>
  match extract_duplicate_definition_symbol text with
  | Some s => hint DuplicateDefinition (lit "compiler reports duplicate definition for `" ++ s ++ [GRAVE]) "use semantic rename to resolve the duplicate definition before cargo check" scope
  | None =>
  match extract_trait_bound_summary text with
  | Some b => hint TraitBoundFailure (lit "compiler reports unsatisfied trait bound `" ++ b ++ [GRAVE]) "edit the local type, impl, or call site to satisfy the required trait bound" scope
  | None =>
  if has text "target path does not exist" || has text "could not find `Cargo.toml`" || has text "failed to load manifest" || has text "manifest path" then
    summary ← truncate text 140; hint GenericCompilerFailure summary "repair or refresh the workspace/bootstrap state before cargo check" Workspace
  else if has text "error[E" || has text "could not compile" then
    summary ← truncate text 140; hint GenericCompilerFailure summary "address the cited compiler error directly before adding more edits" scope
  else Some None
  end end end end end.

Definition same_hint (a b : CompilerHintRecord) : bool :=
  bool_decide (ch_kind a = ch_kind b) && bool_decide (ch_summary a = ch_summary b) && bool_decide (ch_target_files a = ch_target_files b).
Definition dedup_hints (hints : list CompilerHintRecord) : list CompilerHintRecord :=
  foldl (fun out h => if existsb (fun existing => same_hint existing h) out then out else out ++ [h]) [] hints.

Section Errors.
Context {V : Type} `{Json V}.
Definition non_blank (s : string) : list bytes := let t := trim (lit s) in if bool_decide (t = []) then [] else [t].
(** The texts of an entry of the list of compiler messages. *)
Definition error_texts (value : V) : list bytes :=
  match json_as_str value with
  | Some text => non_blank text
  | None =>
      match (m ← json_get "message" value; json_get_str "message" m) with Some s => non_blank s | None => [] end ++
      match json_get_str "message" value with Some s => non_blank s | None => [] end
  end.
Definition extract_error_texts (errors : list V) : list bytes := errors ≫= error_texts.
Definition extract_compiler_hints (errors : list V) : option (list CompilerHintRecord) :=
  hints ← mapM text_hint (extract_error_texts errors); Some (dedup_hints (omap id hints)).
Definition planner_lines (errors : list V) : option (list CompilerHintRecord) := extract_compiler_hints errors.
End Errors.

(** ** Hints and failure classes agree *)

(** The two readers of a compiler message, one for hints and one for the class
    of the failure, never disagree on the kind. *)
Lemma hint_matches_class text h : text_hint text = Some (Some h) -> ch_kind h = failure_class_str (classify_failure_class text).
Proof.
  unfold text_hint, classify_failure_class. cbv zeta.
  destruct (extract_missing_module_name text); [by intros [= <-]|]. rewrite bool_decide_eq_false_2 by (by intros []).
  destruct (has text "allow(dead_code) incompatible with previous forbid"); [by intros [= <-]|]. destruct (has text "main function not found" || _); [by intros [= <-]|].
  destruct (extract_unresolved_import_symbol text); [by intros [= <-]|]. rewrite bool_decide_eq_false_2 by (by intros []).
  destruct (extract_missing_symbol text); [by intros [= <-]|]. rewrite bool_decide_eq_false_2 by (by intros []).
  destruct (extract_duplicate_definition_symbol text); [by intros [= <-]|]. rewrite bool_decide_eq_false_2 by (by intros []).
  destruct (extract_trait_bound_summary text); [by intros [= <-]|]. rewrite bool_decide_eq_false_2 by (by intros []).
  destruct (_ || _); [destruct (truncate text 140); [by intros [= <-]|done]|]. destruct (_ || _); [destruct (truncate text 140); [by intros [= <-]|done]|done].
Qed.
(** Hints are kept once. *)
Definition hint_key (h : CompilerHintRecord) : bytes * bytes * list bytes := (ch_kind h, ch_summary h, ch_target_files h).
Lemma same_hint_spec a b : same_hint a b = true <-> hint_key a = hint_key b.
Proof. unfold same_hint, hint_key. rewrite !andb_true_iff, !bool_decide_eq_true. split; [intros [[H1 H2] H3]; congruence|intros [= H1 H2 H3]; by split_and!]. Qed.
Lemma dedup_hints_spec hints : NoDup (hint_key <$> dedup_hints hints) /\ forall k, k ∈ hint_key <$> dedup_hints hints <-> k ∈ hint_key <$> hints.
Proof.
  unfold dedup_hints. assert (Hgen : forall hs out, NoDup (hint_key <$> out) ->
    let r := foldl (fun out h => if existsb (fun existing => same_hint existing h) out then out else out ++ [h]) out hs in
    NoDup (hint_key <$> r) /\ forall k, k ∈ hint_key <$> r <-> k ∈ hint_key <$> out \/ k ∈ hint_key <$> hs); [|destruct (Hgen hints [] ltac:(constructor)) as [Hn Hk]; split; [done|]; intros k; rewrite Hk; set_solver].
  induction hs as [|h hs IH]; intros out Hn; cbn [foldl]; [split; [done|]; set_solver|].
  destruct (existsb _ out) eqn:He.
  - destruct (IH out Hn) as [H1 H2]. split; [done|]. intros k. rewrite H2. apply existsb_exists in He as (x & Hx & Hs). apply same_hint_spec in Hs. apply list_elem_of_In in Hx.
    assert (Hin : k = hint_key h -> k ∈ hint_key <$> out) by (intros ->; rewrite <- Hs; by apply list_elem_of_fmap_2). rewrite fmap_cons, elem_of_cons. tauto.
  - destruct (IH (out ++ [h])) as [H1 H2].
    + rewrite fmap_app. apply NoDup_app. split_and!; [done| |apply NoDup_singleton]. intros k Hk Hk'. apply list_elem_of_singleton in Hk' as ->. apply list_elem_of_fmap in Hk as (x & Hx & Hin).
      assert (existsb (fun existing => same_hint existing h) out = true); [|congruence]. apply existsb_exists. exists x. split; [by apply list_elem_of_In|by apply same_hint_spec].
    + split; [done|]. intros k. rewrite H2, fmap_app, elem_of_app, (fmap_cons _ h hs), elem_of_cons. cbn [fmap list_fmap]. rewrite list_elem_of_singleton. tauto.
Qed.
