(* ===== verification/Workspace.v ===== *)
(** * The workspace model ([canon-loop/src/env_model.rs])

    What the loop knows of the target directory.  The file system is a function
    from paths to the tree found there; a file whose text is not UTF-8 has no
    text. *)
From S2P Require Import Prelude Json Text PatchParser TextFormat Paths Goal Objectives.

Inductive FileTree : Type := TFile (text : option bytes) | TDir (entries : list (bytes * FileTree)).

Inductive EntrypointKind : Set := EntryNone | EntryBin | EntryLib | EntryMixed.
#[export] Instance EntrypointKind_eq_dec : EqDecision EntrypointKind.
Proof. solve_decision. Defined.
Definition entrypoint_str (k : EntrypointKind) : bytes := match k with EntryNone => lit "none" | EntryBin => lit "bin" | EntryLib => lit "lib" | EntryMixed => lit "mixed" end.
Record ModuleGap := MkGap { mg_declared_in : bytes; mg_module_name : bytes; mg_expected_paths : list bytes }.
Record WorkspaceModel := MkWorkspace {
  wm_target_root : bytes; wm_path_exists : bool; wm_repo_initialized : bool; wm_cargo_toml_exists : bool; wm_cargo_lock_exists : bool; wm_crate_name : option bytes;
  wm_src_dir_exists : bool; wm_entrypoint_kind : EntrypointKind; wm_rust_file_count : N; wm_source_files : list bytes; wm_module_gaps : list ModuleGap
}.
Inductive BootstrapCommandChoice : Set := ChooseCargoNew | ChooseCargoInit | NoBootstrapNeeded.
#[export] Instance BootstrapCommandChoice_eq_dec : EqDecision BootstrapCommandChoice.
Proof. solve_decision. Defined.
Definition choice_str (c : BootstrapCommandChoice) : string := match c with ChooseCargoNew => "cargo_new" | ChooseCargoInit => "cargo_init" | NoBootstrapNeeded => "no_bootstrap_needed" end.

(** ** Names and text *)

Definition DOT : byte := x2e.
(** [Path::extension]: what follows the last dot of the name, unless the name
    starts with it. *)
Fixpoint split_last_dot (l : bytes) : option (bytes * bytes) :=
  match l with
  | [] => None
  | b :: l' => match split_last_dot l' with Some (a, e) => Some (b :: a, e) | None => if Byte.eqb b DOT then Some ([], l') else None end
  end.
Definition name_extension (name : bytes) : option bytes := match split_last_dot name with Some (_ :: _, e) => Some e | _ => None end.
Definition extension (p : bytes) : option bytes := file_name p ≫= name_extension.
Definition is_rust (name : bytes) : bool := bool_decide (name_extension name = Some (lit "rs")).

(** The order of paths: component by component. *)
Fixpoint names_leb (a b : list bytes) : bool :=
  match a, b with
  | [], _ => true
  | _ :: _, [] => false
  | x :: a', y :: b' => if bool_decide (x = y) then names_leb a' b' else bytes_leb x y
  end.
Fixpoint insert_names (x : list bytes) (l : list (list bytes)) : list (list bytes) := match l with [] => [x] | y :: l' => if names_leb x y then x :: l else y :: insert_names x l' end.
Definition sort_names (l : list (list bytes)) : list (list bytes) := foldr insert_names [] l.

Definition alnum (b : byte) : bool := let n := Byte.to_N b in ((48 <=? n) && (n <=? 57) || (65 <=? n) && (n <=? 90) || (97 <=? n) && (n <=? 122))%N.
Definition trim_end_byte (c : byte) (l : bytes) : bytes := reverse (trim_start_matches c (reverse l)).
Definition module_declaration (raw : bytes) : option bytes :=
  let line := trim raw in
  if starts_with (lit "//") line || contains (lit "{") line then None
  else
    candidate ← match strip_prefix (lit "pub mod ") line with Some c => Some c | None => strip_prefix (lit "mod ") line end;
    let name := trim (trim_end_byte x3b (trim candidate)) in
    if negb (bool_decide (name = [])) && forallb (fun b => alnum b || Byte.eqb b x5f) name then Some name else None.
Definition parse_module_declarations (contents : bytes) : list bytes := omap module_declaration (str_lines contents).

Definition crate_name_line (raw : bytes) : option bytes :=
  rest ← strip_prefix (lit "name") (trim raw);
  rest ← strip_prefix (lit "=") (trim_start rest);
  let value := trim (trim_matches x27 (trim_matches x22 (trim rest))) in
  if bool_decide (value = []) then None else Some value.

(** The text between the first two back-ticks of a line. *)
Definition backticked (line : bytes) : option bytes :=
  start ← find_sub [BACKTICK] line;
  let tail := drop (start + 1) line in
  stop ← find_sub [BACKTICK] tail;
  let path := trim (take stop tail) in
  if bool_decide (path = []) then None else Some path.
Definition extract_path_from_goal_text (goal : bytes) : option bytes := find_map backticked (str_lines goal).

(** ** Walking a tree *)

Definition TARGET : bytes := lit "target".
Fixpoint count_rust_files (t : FileTree) : N :=
  match t with
  | TFile _ => 0%N
  | TDir entries =>
      (fix go (l : list (bytes * FileTree)) : N := match l with
       | [] => 0%N
       | (name, sub) :: l' =>
           ((if bool_decide (name = TARGET) then 0 else match sub with TDir _ => count_rust_files sub | TFile _ => if is_rust name then 1 else 0 end) + go l')%N
       end) entries
  end.
(** The Rust files with their names from the root. *)
Fixpoint rust_files (t : FileTree) : list (list bytes) :=
  match t with
  | TFile _ => []
  | TDir entries =>
      (fix go l := match l with
       | [] => []
       | (name, sub) :: l' =>
           (if bool_decide (name = TARGET) then [] else match sub with TDir _ => cons name <$> rust_files sub | TFile _ => if is_rust name then [[name]] else [] end) ++ go l'
       end) entries
  end.

Section Inspect.
Context {V : Type} `{Json V}.
Context (fs : bytes -> option FileTree).
Definition path_exists (p : bytes) : bool := bool_decide (is_Some (fs p)).
Definition is_dir (p : bytes) : bool := match fs p with Some (TDir _) => true | _ => false end.
Definition read_to_string (p : bytes) : option bytes := match fs p with Some (TFile t) => t | _ => None end.
Definition parse_crate_name (cargo_toml : bytes) : option bytes := contents ← read_to_string cargo_toml; find_map crate_name_line (str_lines contents).

Definition gap_of (root entry name : bytes) : option ModuleGap :=
  let dir := default root (parent entry) in
  let expected_rs := join_path dir (name ++ lit ".rs") in
  let expected_mod := join_path (join_path dir name) (lit "mod.rs") in
  if negb (path_exists expected_rs) && negb (path_exists expected_mod) then Some (MkGap entry name [expected_rs; expected_mod]) else None.
Definition entry_gaps (root entry : bytes) : list ModuleGap :=
  if negb (path_exists entry) then [] else match read_to_string entry with Some contents => omap (gap_of root entry) (parse_module_declarations contents) | None => [] end.
Definition collect_module_gaps (root : bytes) : list ModuleGap := entry_gaps root (join_path root (lit "src/lib.rs")) ++ entry_gaps root (join_path root (lit "src/main.rs")).

Definition missing_workspace (root : bytes) : WorkspaceModel := MkWorkspace root false false false false None false EntryNone 0 [] [].
Definition entrypoint_kind (main lib : bool) : EntrypointKind := match main, lib with true, true => EntryMixed | true, false => EntryBin | false, true => EntryLib | false, false => EntryNone end.
(** Where the goal points to: the text between its first back-ticks, else the
    path line of the goal, else the workspace as a directory that is not there. *)
Definition target_of_goal (goal workspace : bytes) : bytes * bool :=
  let parsed := match gs_target_path (parse_agent_goal_markdown (V := V) goal) with Some p => Some p | None => extract_path_from_goal_text goal end in
  match split_byte BACKTICK goal !! 1 with
  | Some raw => (raw, path_exists raw)
  | None => match parsed with Some p => (p, path_exists p) | None => (workspace, false) end
  end.
Definition inspect (goal workspace : bytes) : option WorkspaceModel :=
  let '(root, exists_) := target_of_goal goal workspace in
  if negb exists_ then Some (missing_workspace root)
  else
    let src := join_path root (lit "src") in
    let tree := default (TFile None) (fs root) in
    Some (MkWorkspace root true (path_exists (join_path root (lit ".git"))) (path_exists (join_path root (lit "Cargo.toml"))) (path_exists (join_path root (lit "Cargo.lock")))
      (parse_crate_name (join_path root (lit "Cargo.toml"))) (is_dir src) (entrypoint_kind (path_exists (join_path src (lit "main.rs"))) (path_exists (join_path src (lit "lib.rs"))))
      (count_rust_files tree) (join [SLASH] <$> sort_names (rust_files tree)) (collect_module_gaps root)).
Definition select_bootstrap_command (root : bytes) : BootstrapCommandChoice :=
  if negb (path_exists root) then ChooseCargoNew else if negb (path_exists (join_path root (lit "Cargo.toml"))) then ChooseCargoInit else NoBootstrapNeeded.
End Inspect.

Definition semantic_state_matches_workspace_model (path_exists cargo_project : bool) (m : WorkspaceModel) : bool :=
  Bool.eqb path_exists (wm_path_exists m) && Bool.eqb cargo_project (wm_cargo_toml_exists m).
Definition gap_line (g : ModuleGap) : bytes := mg_module_name g ++ lit " -> " ++ join (lit " or ") (mg_expected_paths g).
Definition model_lines (m : WorkspaceModel) : list bytes :=
  [lit "target_root=" ++ wm_target_root m; lit "path_exists=" ++ fmt_bool (wm_path_exists m)] ++
  if negb (wm_path_exists m) then [lit "precondition: target workspace missing; first action must create/init it"]
  else
    [lit "repo_initialized=" ++ fmt_bool (wm_repo_initialized m); lit "cargo_project=" ++ fmt_bool (wm_cargo_toml_exists m)] ++
    match wm_crate_name m with Some n => [lit "crate_name=" ++ n] | None => [] end ++
    [lit "src_dir_exists=" ++ fmt_bool (wm_src_dir_exists m); lit "entrypoint_kind=" ++ entrypoint_str (wm_entrypoint_kind m); lit "rust_file_count=" ++ dec (wm_rust_file_count m)] ++
    (if bool_decide (wm_source_files m = []) then [] else [lit "file_graph=" ++ join (lit ", ") (take 8 (wm_source_files m))]) ++
    (if negb (wm_cargo_toml_exists m) then [lit "precondition: directory exists but is not a Cargo project; prefer cargo init"] else []) ++
    (if wm_cargo_toml_exists m && bool_decide (wm_entrypoint_kind m = EntryNone) then [lit "precondition: Cargo project has no src/main.rs or src/lib.rs; create an entrypoint before cargo check"] else []) ++
    match wm_module_gaps m with [] => [] | gaps => [lit "precondition: missing module files detected; create them before cargo check: " ++ join (lit "; ") (gap_line <$> take 4 gaps)] end.

(** ** Properties *)

Section TreeInd.
Context (P : FileTree -> Prop) (HF : forall t, P (TFile t)) (HD : forall l, Forall (fun e => P e.2) l -> P (TDir l)).
Fixpoint tree_ind (t : FileTree) : P t :=
  match t with
  | TFile text => HF text
  | TDir l => HD l ((fix go (l : list (bytes * FileTree)) : Forall (fun e => P e.2) l := match l with [] => Forall_nil_2 _ | (n, s) :: l' => Forall_cons_2 _ (n, s) l' (tree_ind s) (go l') end) l)
  end.
End TreeInd.

(** The count is the number of files listed. *)
Lemma count_rust_files_exact t : count_rust_files t = lenN (rust_files t).
Proof.
  induction t as [text|l IH] using tree_ind; [done|]. cbn [count_rust_files rust_files]. induction IH as [|[n s] l Hs Hl IHl]; [done|]. cbn [snd] in Hs. rewrite lenN_app, <- IHl. f_equal.
  destruct (bool_decide (n = TARGET)); [done|]. destruct s as [text|sub]; [by destruct (is_rust n)|]. unfold lenN. by rewrite length_fmap.
Qed.
