(* ===== verification/Preconditions.v ===== *)
(** * Planning preconditions ([canon-loop/src/planning_preconditions.rs])

    What the state of the workspace demands of the next plan, and the checks a
    planned batch has to pass before it is accepted. *)
From S2P Require Import Prelude Json Text PatchParser TextFormat Paths SemanticState SemanticText Gatekeeper Objectives LoopPolicy ConstraintEngine CompilerHints Workspace ExecConstraints EventShape KernelTypes Events.

Inductive PlanningPrecondition : Set :=
| MustBootstrapWorkspace | MustInitCargoProject | MustCreateEntrypoint | MustCreateMissingModules | MustFixDeadCodeForbidConflict | MustFixUnresolvedImport
| MustDefineMissingSymbol | MustResolveDuplicateDefinition | MustFixTraitBoundFailure.
#[export] Instance PlanningPrecondition_eq_dec : EqDecision PlanningPrecondition.
Proof. solve_decision. Defined.
(** The variants of [RepairIntent] carry a prefix. *)
Inductive RepairIntent : Set :=
| RiBootstrapWorkspace | RiInitCargoProject | RiCreateEntrypoint | RiCreateMissingModules | RiFixDeadCodeForbidConflict | RiFixUnresolvedImport
| RiDefineMissingSymbol | RiResolveDuplicateDefinition | RiFixTraitBoundFailure.
#[export] Instance RepairIntent_eq_dec : EqDecision RepairIntent.
Proof. solve_decision. Defined.

Definition push_new {A} `{EqDecision A} (x : A) (l : list A) : list A := if bool_decide (x ∈ l) then l else l ++ [x].

(** ** Deriving them *)

Definition hint_precondition (k : CompilerHintKind) : option PlanningPrecondition :=
  match k with
  | DeadCodeForbidConflict => Some MustFixDeadCodeForbidConflict | UnresolvedImport => Some MustFixUnresolvedImport | MissingSymbol => Some MustDefineMissingSymbol
  | DuplicateDefinition => Some MustResolveDuplicateDefinition | TraitBoundFailure => Some MustFixTraitBoundFailure | _ => None
  end.
Definition model_preconditions (m : WorkspaceModel) : list PlanningPrecondition :=
  (if negb (wm_cargo_toml_exists m) then [MustInitCargoProject] else []) ++
  (if wm_cargo_toml_exists m && bool_decide (wm_entrypoint_kind m = EntryNone) then [MustCreateEntrypoint] else []) ++
  (if negb (bool_decide (length (wm_module_gaps m) = 0)) then [MustCreateMissingModules] else []).
Definition add_hint_precondition (out : list PlanningPrecondition) (h : CompilerHintRecord) : list PlanningPrecondition :=
  match kind_enum h ≫= hint_precondition with Some p => push_new p out | None => out end.
Section Derive.
Context {V : Type} `{Json V}.
(** [None] when the hints panic. *)
Definition derive_preconditions (model : option WorkspaceModel) (errors : list V) : option (list PlanningPrecondition) :=
  match model with
  | Some m => if negb (wm_path_exists m) then Some [MustBootstrapWorkspace] else hints ← extract_compiler_hints errors; Some (foldl add_hint_precondition (model_preconditions m) hints)
  | None => hints ← extract_compiler_hints errors; Some (foldl add_hint_precondition [] hints)
  end.
End Derive.

Definition precondition_key (p : PlanningPrecondition) : string :=
  match p with
  | MustBootstrapWorkspace => "must_bootstrap_workspace=true" | MustInitCargoProject => "must_init_cargo_project=true" | MustCreateEntrypoint => "must_create_entrypoint=true"
  | MustCreateMissingModules => "must_create_missing_modules=true" | MustFixDeadCodeForbidConflict => "must_fix_dead_code_forbid_conflict=true"
  | MustFixUnresolvedImport => "must_fix_unresolved_import=true" | MustDefineMissingSymbol => "must_define_missing_symbol=true"
  | MustResolveDuplicateDefinition => "must_resolve_duplicate_definition=true" | MustFixTraitBoundFailure => "must_fix_trait_bound_failure=true"
  end.
Definition precondition_line (p : PlanningPrecondition) : bytes :=
  match p with
  | MustBootstrapWorkspace => lit "must_bootstrap_workspace=true repair=cargo_init_or_create_workspace"
  | MustInitCargoProject => lit "must_init_cargo_project=true repair=prefer_cargo_init"
  | MustCreateEntrypoint => lit "must_create_entrypoint=true repair=create_src_main_or_lib_before_cargo_check"
  | MustCreateMissingModules => lit "must_create_missing_modules=true repair=create_declared_module_files_before_cargo_check"
  | MustFixDeadCodeForbidConflict => lit "must_fix_dead_code_forbid_conflict=true repair=remove_allow_dead_code_or_make_code_used"
  | MustFixUnresolvedImport => lit "must_fix_unresolved_import=true repair=edit_import_or_define_missing_import_target"
  | MustDefineMissingSymbol => lit "must_define_missing_symbol=true repair=define_or_import_missing_symbol"
  | MustResolveDuplicateDefinition => lit "must_resolve_duplicate_definition=true repair=semantic_rename_or_remove_duplicate_definition"
  | MustFixTraitBoundFailure => lit "must_fix_trait_bound_failure=true repair=edit_local_type_impl_or_callsite_for_trait_bound"
  end.
Definition precondition_lines (ps : list PlanningPrecondition) : list bytes := precondition_line <$> ps.
Definition all_preconditions : list PlanningPrecondition :=
  [MustBootstrapWorkspace; MustInitCargoProject; MustCreateEntrypoint; MustCreateMissingModules; MustFixDeadCodeForbidConflict; MustFixUnresolvedImport; MustDefineMissingSymbol;
   MustResolveDuplicateDefinition; MustFixTraitBoundFailure].
(** The keys are tried in this order. *)
Definition precondition_of_line (line : bytes) : option PlanningPrecondition := snd <$> list_find (fun p => contains (lit (precondition_key p)) line = true) all_preconditions.
Definition derive_preconditions_from_lines (lines : list bytes) : list PlanningPrecondition :=
  foldl (fun out line => match precondition_of_line line with Some p => push_new p out | None => out end) [] lines.

(** ** Repair intents *)

Definition repair_intent (p : PlanningPrecondition) : RepairIntent :=
  match p with
  | MustBootstrapWorkspace => RiBootstrapWorkspace | MustInitCargoProject => RiInitCargoProject | MustCreateEntrypoint => RiCreateEntrypoint
  | MustCreateMissingModules => RiCreateMissingModules | MustFixDeadCodeForbidConflict => RiFixDeadCodeForbidConflict | MustFixUnresolvedImport => RiFixUnresolvedImport
  | MustDefineMissingSymbol => RiDefineMissingSymbol | MustResolveDuplicateDefinition => RiResolveDuplicateDefinition | MustFixTraitBoundFailure => RiFixTraitBoundFailure
  end.
Definition bootstraps (i : RepairIntent) : bool := match i with RiBootstrapWorkspace | RiInitCargoProject => true | _ => false end.
Definition wide_scope (scope : option bytes) : bool := bool_decide (scope = Some (lit "workspace")) || bool_decide (scope = Some (lit "tooling")).
Definition repair_intent_allowed_for_scope (i : RepairIntent) (scope : option bytes) : bool := if wide_scope scope then bootstraps i else true.
Definition intent_score (scope : option bytes) (i : RepairIntent) : nat :=
  if bool_decide (scope = Some (lit "localized")) then (if bootstraps i then 1 else 0)
  else if wide_scope scope then (if bootstraps i then 0 else 1)
  else match i with
       | RiBootstrapWorkspace => 0 | RiInitCargoProject => 1 | RiCreateEntrypoint => 2 | RiCreateMissingModules => 3 | RiFixDeadCodeForbidConflict => 4 | RiFixUnresolvedImport => 5
       | RiDefineMissingSymbol => 6 | RiResolveDuplicateDefinition => 7 | RiFixTraitBoundFailure => 8
       end.
(** [sort_by_key], stable. *)
Fixpoint insert_by (key : RepairIntent -> nat) (x : RepairIntent) (l : list RepairIntent) : list RepairIntent :=
  match l with [] => [x] | y :: l' => if key x <=? key y then x :: l else y :: insert_by key x l' end.
Definition reorder_repair_intents_by_scope (intents : list RepairIntent) (scope : option bytes) : list RepairIntent := foldr (insert_by (intent_score scope)) [] intents.
Definition derive_repair_intents (ps : list PlanningPrecondition) (scope : option bytes) : list RepairIntent :=
  reorder_repair_intents_by_scope (foldl (fun out p => let i := repair_intent p in if negb (repair_intent_allowed_for_scope i scope) then out else push_new i out) [] ps) scope.
Definition repair_intent_line (i : RepairIntent) : bytes :=
  match i with
  | RiBootstrapWorkspace => lit "repair_intent=bootstrap_workspace priority=1 first_batch=create_or_init_workspace"
  | RiInitCargoProject => lit "repair_intent=init_cargo_project priority=2 first_batch=run_cargo_init"
  | RiCreateEntrypoint => lit "repair_intent=create_entrypoint priority=3 first_batch=create_src_main_or_lib"
  | RiCreateMissingModules => lit "repair_intent=create_missing_modules priority=4 first_batch=create_declared_module_files"
  | RiFixDeadCodeForbidConflict => lit "repair_intent=fix_dead_code_forbid_conflict priority=5 first_batch=edit_conflicting_allow_dead_code"
  | RiFixUnresolvedImport => lit "repair_intent=fix_unresolved_import priority=6 first_batch=edit_import_or_define_target"
  | RiDefineMissingSymbol => lit "repair_intent=define_missing_symbol priority=7 first_batch=define_or_import_symbol"
  | RiResolveDuplicateDefinition => lit "repair_intent=resolve_duplicate_definition priority=8 first_batch=semantic_rename_duplicate"
  | RiFixTraitBoundFailure => lit "repair_intent=fix_trait_bound_failure priority=9 first_batch=edit_type_impl_or_callsite"
  end.
Definition repair_intent_lines (l : list RepairIntent) : list bytes := repair_intent_line <$> l.

(** ** What a planned action does *)

(** [str::split] with a pattern; each round consumes the pattern. *)
Fixpoint split_sub_fuel (fuel : nat) (p l : bytes) : list bytes :=
  match fuel, find_sub p l with
  | S fuel', Some i => take i l :: split_sub_fuel fuel' p (drop (i + length p) l)
  | _, _ => [l]
  end.
Definition split_sub (p l : bytes) : list bytes := split_sub_fuel (S (length l)) p l.

Section Actions.
Context {V : Type} `{Json V}.
Implicit Types (a : LoopPlanned.t V) (actions : list (LoopPlanned.t V)) (root : bytes) (s : SemanticStateSummary).
Definition kind_is (k : string) a : bool := String.eqb (LoopPlanned.action_kind a) k.
Definition payload_str (k : string) a : option bytes := lit <$> json_get_str k (LoopPlanned.action_payload a).

(** The parser never panics on a patch ([PatchRoundTrip.parse_patch_total]). *)
Definition patch_hunks (patch : bytes) : list Hunk := match parse_patch patch with Some (Ok (hunks, _)) => hunks | _ => [] end.
Definition hunk_path (h : Hunk) : bytes := match h with AddFile p _ | DeleteFile p | UpdateFile p _ _ => p end.
Definition added_path (h : Hunk) : option bytes := match h with AddFile p _ => Some p | _ => None end.
Definition touched_paths a : list bytes :=
  if kind_is "write_file" a || kind_is "read_file" a || kind_is "list_dir" a || kind_is "patch_file" a then option_list (payload_str "path" a)
  else if kind_is "apply_patch" a then match payload_str "patch" a with Some patch => hunk_path <$> patch_hunks patch | None => [] end
  else [].
Definition created_paths a : list bytes :=
  if kind_is "write_file" a then option_list (payload_str "path" a)
  else if kind_is "apply_patch" a then match payload_str "patch" a with Some patch => omap added_path (patch_hunks patch) | None => [] end
  else [].
Definition normalized_touched_paths a root : list bytes := join_path root <$> touched_paths a.
Definition normalized_created_paths a root : list bytes := join_path root <$> created_paths a.
(** [==] of paths. *)
Definition same_path (p q : bytes) : bool := bool_decide (components p = components q).
Definition touches_any_path a root (expected : list bytes) : bool := existsb (fun p => existsb (fun c => same_path c p) (normalized_touched_paths a root)) expected.

Definition has_trait_bound_edit (patch : bytes) : bool :=
  existsb (fun line => (starts_with (lit "+") line || starts_with (lit "-") line) && (has line "impl " || has line "where " || has line "derive(" || has line ": ")) (str_lines patch).
Definition is_entrypoint_text (p : bytes) : bool := ends_with (lit "src/main.rs") p || ends_with (lit "src/lib.rs") p.
Definition path_action_intent (mk : bytes -> SemanticActionIntent) a root : list SemanticActionIntent := match payload_str "path" a with Some p => [mk (join_path root p)] | None => [] end.
(** [classify_action_intents]; the intents have the variants of
    [SemanticActionIntent]. *)
Definition action_intents a root : list SemanticActionIntent :=
  (if kind_is "run_command" a then
     match payload_str "cmd" a with
     | Some cmd => (if has cmd "cargo new" then [BootstrapWorkspace] else []) ++ (if has cmd "cargo init" then [InitCargoProject] else []) ++ (if has cmd "cargo check" then [ValidateCargoCheck] else [])
     | None => []
     end
   else []) ++
  if kind_is "edit.rename_symbol" a then path_action_intent ResolveDuplicateDefinition a root
  else if kind_is "edit.move_symbol" a then path_action_intent RestructureModules a root
  else if kind_is "edit.add_import" a then path_action_intent FixUnresolvedImport a root
  else if kind_is "edit.define_symbol_stub" a then path_action_intent DefineMissingSymbol a root
  else if kind_is "edit.create_module_file" a then path_action_intent CreateModuleFile a root
  else
    let patch := default [] (payload_str "patch" a) in
    (CreateEntrypoint <$> filter (fun p => is_entrypoint_text p = true) (normalized_created_paths a root)) ++
    (normalized_touched_paths a root ≫= fun p =>
      (if has patch "allow(dead_code)" && is_entrypoint_text p then [FixDeadCodeConflict p] else []) ++ (if has_trait_bound_edit patch then [FixTraitBoundFailure p] else [])).
Definition collect_action_intents actions root : list SemanticActionIntent := actions ≫= fun a => action_intents a root.

Definition contains_expected_bootstrap_action actions (expected : BootstrapCommandChoice) : bool :=
  existsb (fun a => meta_invariant_tool_selection_correctness (choice_str expected) (LoopPlanned.action_kind a) (LoopPlanned.action_payload a)) actions.
Definition contains_cargo_check actions : bool := existsb (fun a => kind_is "run_command" a && match payload_str "cmd" a with Some cmd => has cmd "cargo check" | None => false end) actions.
Definition contains_entrypoint_creation actions root : bool := existsb (fun a => touches_any_path a root [join_path root (lit "src/main.rs"); join_path root (lit "src/lib.rs")]) actions.
Definition contains_module_creation actions root : bool :=
  existsb (fun a => kind_is "edit.create_module_file" a &&
    match payload_str "path" a with Some p => let p := join_path root p in path_starts_with p (join_path root (lit "src")) && bool_decide (extension p = Some (lit "rs")) | None => false end) actions.
Definition contains_dead_code_conflict_fix actions root : bool :=
  existsb (fun a => touches_any_path a root [join_path root (lit "src/lib.rs"); join_path root (lit "src/main.rs")] &&
    (if kind_is "apply_patch" a then match payload_str "patch" a with Some patch => has patch "allow(dead_code)" | None => false end else true)) actions.
Definition is_test_text (p : bytes) : bool := contains (lit "/tests/") p || starts_with (lit "tests/") p || ends_with (lit "_test.rs") p || ends_with (lit "_tests.rs") p.
Definition touches_test_surface a root : bool := touches_any_path a root [join_path root (lit "tests"); join_path root (lit "src")] && existsb is_test_text (touched_paths a).

(** ** What the summary expects *)

Definition expected_entrypoint_paths s root : list bytes :=
  let main := join_path root (lit "src/main.rs") in let lib := join_path root (lit "src/lib.rs") in
  let kind := default (lit "none") (ss_entrypoint_kind s) in
  if bool_decide (kind = lit "lib") then [lib] else if bool_decide (kind = lit "bin") then [main] else [main; lib].
Definition gap_paths root (gap : bytes) : list bytes :=
  match find_sub (lit "->") gap with
  | Some i => (fun p => join_path root p) <$> filter (fun p => p <> []) (trim <$> split_sub (lit " or ") (drop (i + 2) gap))
  | None => []
  end.
Definition expected_module_paths s root : list bytes := ss_module_gaps s ≫= gap_paths root.
Definition expected_dead_code_paths s root : list bytes :=
  match join_path root <$> filter (fun f => is_entrypoint_text f = true) (ss_source_files s) with
  | [] => [join_path root (lit "src/lib.rs"); join_path root (lit "src/main.rs")]
  | l => l
  end.
(** [sort] and [dedup] of paths. *)
Definition path_leb (p q : bytes) : bool := match components p, components q with (true, _), (false, _) => true | (false, _), (true, _) => false | (_, a), (_, b) => names_leb a b end.
Fixpoint insert_path (x : bytes) (l : list bytes) : list bytes := match l with [] => [x] | y :: l' => if path_leb x y then x :: l else y :: insert_path x l' end.
Fixpoint dedup_paths (l : list bytes) : list bytes := match l with x :: ((y :: _) as l') => if same_path x y then dedup_paths l' else x :: dedup_paths l' | _ => l end.
Definition expected_hint_paths s (kind : string) root : list bytes :=
  dedup_paths (foldr insert_path [] (ss_compiler_hints s ≫= fun h => if bool_decide (ch_kind h = lit kind) then join_path root <$> filter (fun t => t <> lit "none") (ch_target_files h) else [])).
Definition expected_at (expected : list bytes) (p : bytes) : bool := bool_decide (expected = []) || existsb (fun c => same_path c p) expected.
Definition contains_expected_entrypoint_target (intents : list SemanticActionIntent) s root : bool :=
  existsb (fun i => match i with CreateEntrypoint p => expected_at (expected_entrypoint_paths s root) p | _ => false end) intents.
Definition contains_expected_module_target (intents : list SemanticActionIntent) s root : bool :=
  existsb (fun i => match i with CreateModuleFile p => expected_at (expected_module_paths s root) p | _ => false end) intents.
Definition contains_expected_dead_code_target (intents : list SemanticActionIntent) s root : bool :=
  existsb (fun i => match i with FixDeadCodeConflict p => expected_at (expected_dead_code_paths s root) p | _ => false end) intents.
Definition match_action_intent (kind : string) (expected : list bytes) (i : SemanticActionIntent) : bool :=
  match i with
  | FixUnresolvedImport p => String.eqb kind "unresolved_import" && expected_at expected p
  | DefineMissingSymbol p => String.eqb kind "missing_symbol" && expected_at expected p
  | ResolveDuplicateDefinition p => String.eqb kind "duplicate_definition" && expected_at expected p
  | FixTraitBoundFailure p => String.eqb kind "trait_bound_failure" && expected_at expected p
  | _ => false
  end.
Definition contains_expected_hint_target (intents : list SemanticActionIntent) s (kind : string) root : bool := existsb (match_action_intent kind (expected_hint_paths s kind root)) intents.

(** ** The checks *)

Definition check (b : bool) (message : string) : result string unit := if b then Ok tt else Err message.
Definition entrypoint_is_missing s : bool := match ss_entrypoint_kind s with Some k => bool_decide (k = lit "none") | None => true end && ss_cargo_project s.
Definition no_actionable_class s : bool := bool_decide (primary_failure_class s = Some (lit "no_actionable_failure")).
Definition effective_actionable_failure s : bool :=
  ss_validation_blocked_by_preconditions s || ss_compiler_repair_required s || negb (bool_decide (ss_planning_preconditions s = [])) || negb (bool_decide (ss_module_gaps s = [])) ||
  entrypoint_is_missing s || has_actionable_compiler_hints s || match primary_failure_class s with Some c => negb (bool_decide (c = lit "no_actionable_failure")) | None => false end.
(** [has_targeted_localized_hint] tests the same hints as [ExecConstraints.localizes]. *)
Definition has_targeted_localized_hint s : bool := existsb localizes (ss_compiler_hints s).
Definition effective_failure_scope_flags s : bool * bool * bool :=
  (bool_decide (ss_failure_scope s = Some (lit "localized")) || negb (bool_decide (ss_module_gaps s = [])) || entrypoint_is_missing s || has_targeted_localized_hint s,
   bool_decide (ss_failure_scope s = Some (lit "workspace")), bool_decide (ss_failure_scope s = Some (lit "tooling"))).
(** The state given to the constraint engine; the flags that vary are arguments. *)
Definition summary_constraint_state s (real_path real_cargo actionable : bool) : ConstraintState :=
  let '(localized, workspace, tooling) := effective_failure_scope_flags s in
  Build_ConstraintState (ss_path_exists s) (ss_cargo_project s) real_path real_cargo actionable (ss_validation_blocked_by_preconditions s) (entrypoint_is_missing s)
    (negb (bool_decide (ss_module_gaps s = []))) false (no_actionable_class s) localized workspace tooling false false.
Definition decide_action s (real_path real_cargo actionable : bool) (route : option ConstraintRoute) (action : option ConstraintAction) : ConstraintDecision :=
  evaluate_constraint_context {| ctx_state := summary_constraint_state s real_path real_cargo actionable; ctx_route := route; ctx_action := action; deterministic_route := None |}.

Section FileSystem.
Context (fs : bytes -> option FileTree).
Definition planner_workspace_presence root s : bool * bool :=
  if path_exists fs root then (true, path_exists fs (join_path root (lit "Cargo.toml"))) else (ss_path_exists s, ss_cargo_project s).
Definition validate_validation_action_constraints actions root s : result string unit :=
  if negb (contains_cargo_check actions) then Ok tt
  else
    let '(real_path, real_cargo) := planner_workspace_presence root s in
    match decide_action s real_path real_cargo (effective_actionable_failure s) None (Some Validation) with
    | Forbid reason =>
        if str_contains "target workspace is missing" reason then Err "cargo check planned before bootstrapping the target workspace"%string
        else if str_contains "required files are still missing" reason && bool_decide (ss_entrypoint_kind s = Some (lit "none")) then Err "cargo check planned before creating src/main.rs or src/lib.rs"%string
        else if str_contains "required files are still missing" reason && negb (bool_decide (ss_module_gaps s = [])) then Err "cargo check planned before creating missing declared module files"%string
        else Ok tt
    | _ => Ok tt
    end.
Definition intent_satisfied actions root (i : RepairIntent) s : bool :=
  let intents := collect_action_intents actions root in
  match i with
  | RiBootstrapWorkspace => existsb (fun i => match i with BootstrapWorkspace | InitCargoProject => true | _ => false end) intents
  | RiInitCargoProject => existsb (fun i => match i with InitCargoProject => true | _ => false end) intents
  | RiCreateEntrypoint => contains_expected_entrypoint_target intents s root
  | RiCreateMissingModules => contains_expected_module_target intents s root
  | RiFixDeadCodeForbidConflict => contains_expected_dead_code_target intents s root
  | RiFixUnresolvedImport => contains_expected_hint_target intents s "unresolved_import" root
  | RiDefineMissingSymbol => contains_expected_hint_target intents s "missing_symbol" root
  | RiResolveDuplicateDefinition => contains_expected_hint_target intents s "duplicate_definition" root
  | RiFixTraitBoundFailure => contains_expected_hint_target intents s "trait_bound_failure" root
  end.
Definition intent_demand (i : RepairIntent) : string :=
  match i with
  | RiBootstrapWorkspace => "first planned batch must bootstrap the workspace" | RiInitCargoProject => "first planned batch must initialize Cargo in the target directory"
  | RiCreateEntrypoint => "first planned batch must create an entrypoint before validation" | RiCreateMissingModules => "first planned batch must create missing declared module files"
  | RiFixDeadCodeForbidConflict => "first planned batch must address the allow(dead_code) vs forbid(dead_code) conflict" | RiFixUnresolvedImport => "first planned batch must target the unresolved import location"
  | RiDefineMissingSymbol => "first planned batch must target the missing symbol location" | RiResolveDuplicateDefinition => "first planned batch must target the duplicate definition location"
  | RiFixTraitBoundFailure => "first planned batch must target the trait-bound failure location"
  end.
Definition validate_highest_priority_intent actions root (i : RepairIntent) s : result string unit := check (intent_satisfied actions root i s) (intent_demand i).
Definition is_repair (i : SemanticActionIntent) : bool :=
  match i with FixDeadCodeConflict _ | FixUnresolvedImport _ | DefineMissingSymbol _ | ResolveDuplicateDefinition _ | FixTraitBoundFailure _ => true | _ => false end.
Definition validate_no_actionable_failure (intents : list SemanticActionIntent) s : result string unit :=
  if existsb is_repair intents then
    match decide_action s (ss_path_exists s) (ss_cargo_project s) (effective_actionable_failure s) None (Some RepairLocalized) with
    | Allow => Ok tt
    | Forbid reason | RewriteAction _ reason | RewriteRoute _ reason => if str_contains "no actionable failure" reason then Err reason else Ok tt
    end
  else Ok tt.
Definition validate_failure_scope (intents : list SemanticActionIntent) s : result string unit :=
  check (negb (existsb is_repair intents && negb (failure_scope_is_sufficient (ss_compiler_repair_required s) (length (ss_compiler_hints s)) (str <$> ss_failure_scope s))))
    "compiler failure lacks scoped target information; refresh context or classify failure scope before targeted repair".
Definition classify_constraint_action_for_plan a : option ConstraintAction :=
  if kind_is "run_command" a then
    cmd ← payload_str "cmd" a;
    Some (if has cmd "cargo init" then CargoInit else if has cmd "cargo new" then CargoNew else if has cmd "cargo check" || has cmd "cargo build" || has cmd "cargo test" then Validation else RepairWorkspace)
  else if kind_is "apply_patch" a || kind_is "patch_file" a || kind_is "write_file" a then
    let path := default [] (payload_str "path" a) in
    Some (if ends_with (lit "Cargo.toml") path || ends_with (lit ".cargo/config.toml") path || ends_with (lit "rust-toolchain.toml") path || ends_with (lit "rust-toolchain") path then RepairWorkspace else RepairLocalized)
  else if ConstraintEngine.one_of edit_actions (LoopPlanned.action_kind a) then Some RepairLocalized
  else None.
Definition validate_repair_action_legality actions root s : result string unit :=
  let '(real_path, real_cargo) := planner_workspace_presence root s in
  foldl (fun acc a => let! _ := acc in
    match classify_constraint_action_for_plan a with
    | None => Ok tt
    | Some c => match decide_action s real_path real_cargo (effective_actionable_failure s) None (Some c) with Allow => Ok tt | Forbid r | RewriteAction _ r | RewriteRoute _ r => Err r end
    end) (Ok tt) actions.

Definition validate_bootstrap actions root : result string unit :=
  match select_bootstrap_command fs root with
  | ChooseCargoNew => check (contains_expected_bootstrap_action actions ChooseCargoNew) "target workspace is missing; first plan must create the workspace with cargo new"
  | ChooseCargoInit => check (contains_expected_bootstrap_action actions ChooseCargoInit) "target directory exists but is not a Cargo project; first plan must initialize it with cargo init"
  | NoBootstrapNeeded => Err "semantic state says bootstrap is required, but the target already contains Cargo.toml; refresh observation before planning bootstrap"%string
  end.
Definition validate_preconditions actions root (ps : list PlanningPrecondition) s : result string unit :=
  let wants p := bool_decide (p ∈ ps) in
  let intents := collect_action_intents actions root in
  let before p ok message := check (negb (wants p && contains_cargo_check actions && negb ok)) message in
  (if wants MustBootstrapWorkspace then validate_bootstrap actions root else Ok tt) ;;!
  check (negb (wants MustInitCargoProject && negb (contains_expected_bootstrap_action actions ChooseCargoInit))) "target directory exists but is not a Cargo project; first plan must initialize Cargo" ;;!
  validate_validation_action_constraints actions root s ;;!
  before MustCreateEntrypoint (contains_entrypoint_creation actions root) "cargo check planned before creating src/main.rs or src/lib.rs"%string ;;!
  before MustCreateMissingModules (contains_module_creation actions root) "cargo check planned before creating missing declared module files"%string ;;!
  before MustFixDeadCodeForbidConflict (contains_dead_code_conflict_fix actions root) "cargo check planned before fixing allow(dead_code) vs forbid(dead_code) conflict"%string ;;!
  before MustFixUnresolvedImport (contains_expected_hint_target intents s "unresolved_import" root) "cargo check planned before fixing unresolved import"%string ;;!
  before MustDefineMissingSymbol (contains_expected_hint_target intents s "missing_symbol" root) "cargo check planned before defining or importing missing symbol"%string ;;!
  before MustResolveDuplicateDefinition (contains_expected_hint_target intents s "duplicate_definition" root) "cargo check planned before resolving duplicate definition"%string ;;!
  before MustFixTraitBoundFailure (contains_expected_hint_target intents s "trait_bound_failure" root) "cargo check planned before fixing actionable trait bound failure"%string ;;!
  match head (derive_repair_intents ps None) with Some i => validate_highest_priority_intent actions root i s | None => Ok tt end ;;!
  validate_no_actionable_failure intents s ;;!
  validate_failure_scope intents s ;;!
  validate_repair_action_legality actions root s.
End FileSystem.

(** ** Alignment with objectives, strategies and trends *)

Definition repair_objective (objective : bytes) : bool :=
  has objective "remove validation blockers" || has objective "reduce compiler repair pressure" || has objective "break the stalled repair loop" || has objective "lower invalid-plan rate" ||
  has objective "increase repair resolution rate".
Definition is_validation (i : SemanticActionIntent) : bool := match i with ValidateCargoCheck => true | _ => false end.
Definition is_change (i : SemanticActionIntent) : bool := match i with ValidateCargoCheck | BootstrapWorkspace | InitCargoProject => false | _ => true end.
Definition route_of_choice (choice : string) : option ConstraintRoute := snd <$> list_find (fun r => route_str r = choice) [Observe; Plan; Act; Verify; Conclude].
Definition validate_objective_route_plan_alignment actions root (route_choice : string) (primary_objective : bytes) s : result string unit :=
  let intents := collect_action_intents actions root in
  let has_validation := existsb is_validation intents in
  let has_repair := existsb is_change intents in
  let requires_repair := effective_actionable_failure s || repair_objective primary_objective in
  if String.eqb route_choice "plan" && requires_repair && has_validation && negb has_repair then
    Err "first planned batch contradicts the active repair objective; it validates without addressing the repair target"%string
  else match decide_action s (ss_path_exists s) (ss_cargo_project s) requires_repair (route_of_choice route_choice)
               (if has_validation then Some Validation else if has_repair then Some RepairLocalized else None) with
       | RewriteRoute Plan reason => if String.eqb route_choice "verify" then Err "route choice contradicts the active repair objective; verification is premature"%string else Err reason
       | Forbid reason | RewriteAction _ reason | RewriteRoute _ reason => Err reason
       | Allow => Ok tt
       end.

Definition is_discovery a : bool := kind_is "list_dir" a || kind_is "read_file" a || kind_is "search_files" a.
Definition strategy_satisfied actions root s (k : DevelopmentStrategyKind) : bool * string :=
  let intents := collect_action_intents actions root in
  match k with
  | FixConfigLintPolicy => (existsb (fun a => touches_any_path a root [join_path root (lit ".cargo/config.toml"); join_path root (lit "Cargo.toml")]) actions,
      "active development strategy requires a config-level lint/toolchain fix before more source edits"%string)
  | DiscoverTestSurface => (forallb is_discovery actions, "active development strategy requires discovery-only work to map the existing test surface"%string)
  | AddRegressionTest => (existsb (fun a => touches_test_surface a root) actions, "active development strategy requires the first batch to touch the test surface"%string)
  | SimplifyPlanBatch => (length actions <=? 1, "active development strategy requires a simpler first batch; emit one action only"%string)
  | CreateMissingModules => (contains_expected_module_target intents s root, "active development strategy requires creating or wiring the missing module files first"%string)
  | RefreshContextBeforeRetry => (existsb is_discovery actions, "active development strategy requires refreshing context before retrying another repair"%string)
  | PlanSymbolAwareRename => (existsb (kind_is "edit.rename_symbol") actions, "active development strategy requires a semantic rename action driven by graph-backed symbol context"%string)
  | RestructureModulesStrategy => (existsb (kind_is "edit.move_symbol") actions, "active development strategy requires a semantic module-restructure action driven by graph hotspots"%string)
  | ApplyTargetedCompilerRepair | RealignObjectiveFlow => (true, ""%string)
  end.
(** [None] when the ranking of the objectives overflows. *)
Definition validate_development_strategy_alignment actions root s (o : ObjState) (t : ObjectiveTrendState) (forced : option DevelopmentStrategyKind) : option (result string unit) :=
  k ← match forced with Some k => Some k | None => primary_development_strategy_kind o t s end;
  let '(ok, message) := strategy_satisfied actions root s k in Some (check ok message).

Definition action_intent_key (i : SemanticActionIntent) : bytes :=
  match i with
  | BootstrapWorkspace => lit "bootstrap_workspace" | InitCargoProject => lit "init_cargo_project" | ValidateCargoCheck => lit "validate_cargo_check" | CreateEntrypoint _ => lit "create_entrypoint"
  | CreateModuleFile _ => lit "create_module_file" | RestructureModules _ => lit "restructure_modules" | FixDeadCodeConflict _ => lit "fix_dead_code_conflict"
  | FixUnresolvedImport _ => lit "fix_unresolved_import" | DefineMissingSymbol _ => lit "define_missing_symbol" | ResolveDuplicateDefinition _ => lit "resolve_duplicate_definition"
  | FixTraitBoundFailure _ => lit "fix_trait_bound_failure"
  end.
Definition classify_attempted_kind_class (kind : bytes) : PlannedActionClass :=
  let among l := existsb (fun k => bool_decide (kind = lit k)) l in
  if among ["validate_cargo_check"%string] then Verification
  else if among ["bootstrap_workspace"; "init_cargo_project"; "create_entrypoint"; "create_module_file"; "restructure_modules"; "fix_dead_code_conflict"; "fix_unresolved_import"; "define_missing_symbol";
                 "resolve_duplicate_definition"; "fix_trait_bound_failure"]%string then Mutation
  else if among ["read_file"; "list_dir"; "search_files"; "observe_workspace"]%string then PassiveDiscovery
  else UnknownAction.
Definition last_attempted (rs : list ExecResult) : option bytes := head (omap er_attempted_kind (reverse rs)).
Definition first_action_class actions : option PlannedActionClass := (fun a => classify_planned_action_class (LoopPlanned.action_kind a) (LoopPlanned.action_payload a)) <$> head actions.
Definition passive (c : PlannedActionClass) : bool := match c with PassiveDiscovery | Verification => true | _ => false end.
Definition meta_invariant_high_invalid_plan_requires_simple_batch (rate : f32) (attempts : N) : bool := f32_lt (f32_lit 1 2) rate && (3 <=? attempts)%N.
Definition validate_trend_intent_alignment actions root (rs : list ExecResult) (t : ObjectiveTrendState) : result string unit :=
  let streak := ot_current_no_progress_streak t in
  if meta_invariant_high_invalid_plan_requires_simple_batch (invalid_plan_rate t) (ot_planning_attempts t) && (1 <? length actions) then
    Err "high invalid-plan pressure requires a single-action first batch; simplify the next plan"%string
  else if (2 <=? streak)%N && match first_action_class actions with Some c => stalled_loop_forbids_action_class streak c | None => false end then
    Err "stalled loop requires a state-changing first batch; passive discovery or validation cannot lead"%string
  else if (0 <? streak)%N && match classify_attempted_kind_class <$> last_attempted rs, first_action_class actions with Some p, Some n => bool_decide (p = n) && passive n | _, _ => false end then
    Err "first planned batch repeats the same zero-progress passive action class; choose a state-changing action"%string
  else if (streak =? 0)%N || (ot_repeated_stall_count t =? 0)%N then Ok tt
  else match last_attempted rs with
       | None => Ok tt
       | Some kind => check (negb (existsb (fun i => bool_decide (action_intent_key i = kind)) (collect_action_intents actions root)))
           "first planned batch repeats the same stalled repair intent; choose a different repair strategy"
       end.
Definition route_choice_contradicts_primary_objective (route_choice : string) (primary_objective : bytes) s : bool :=
  (ss_validation_blocked_by_preconditions s || ss_compiler_repair_required s || negb (bool_decide (ss_planning_preconditions s = [])) || repair_objective primary_objective) &&
  (String.eqb route_choice "verify" || String.eqb route_choice "conclude").
Definition goal_route_objective_drift (goal_objective route_objective : bytes) : bool := negb (Bool.eqb (repair_objective goal_objective) (repair_objective route_objective)).
End Actions.

(** ** Properties *)

Lemma line_precondition p : precondition_of_line (precondition_line p) = Some p.
Proof. destruct p; reflexivity. Qed.
Lemma push_new_elem {A} `{EqDecision A} (x : A) l y : y ∈ push_new x l <-> y ∈ l \/ y = x.
Proof. unfold push_new. case_bool_decide; [|rewrite elem_of_app, list_elem_of_singleton; tauto]. split; [tauto|]. by intros [?| ->]. Qed.
Lemma push_new_NoDup {A} `{EqDecision A} (x : A) l : NoDup l -> NoDup (push_new x l).
Proof. intros Hl. unfold push_new. case_bool_decide as Hx; [done|]. apply NoDup_app. split_and!; [done| |apply NoDup_singleton]. intros y Hy Hy'. apply list_elem_of_singleton in Hy' as ->. done. Qed.

(** the preconditions survive their printed form: whatever preconditions
    are printed into the semantic summary, reading the lines back gives the same
    set, in the same order when there are no repetitions. *)
Theorem preconditions_round_trip ps : let read := derive_preconditions_from_lines (precondition_lines ps) in
  NoDup read /\ (forall p, p ∈ read <-> p ∈ ps) /\ (NoDup ps -> read = ps).
Proof.
  unfold derive_preconditions_from_lines, precondition_lines. cbv zeta.
  assert (Hgen : forall ps out, NoDup out ->
    let read := foldl (fun out line => match precondition_of_line line with Some p => push_new p out | None => out end) out (precondition_line <$> ps) in
    NoDup read /\ (forall p, p ∈ read <-> p ∈ out \/ p ∈ ps) /\ (NoDup (out ++ ps) -> read = out ++ ps)).
  { clear ps. induction ps as [|q ps IH]; intros out Hout; cbn [fmap list_fmap foldl].
    { split_and!; [done| |by rewrite app_nil_r]. intros p. rewrite elem_of_nil. tauto. }
    rewrite line_precondition. destruct (IH (push_new q out)) as (H1 & H2 & H3); [by apply push_new_NoDup|]. split_and!; [done| |].
    - intros p. rewrite H2, push_new_elem, elem_of_cons. tauto.
    - intros Hn. assert (Hq : q ∉ out). { intros Hq. apply NoDup_app in Hn as (_ & Hd & _). apply (Hd q Hq). apply list_elem_of_here. }
      unfold push_new in *. rewrite bool_decide_eq_false_2 in * by done. rewrite (cons_middle q out ps), app_assoc in Hn. rewrite H3 by done. by rewrite <- app_assoc. }
  destruct (Hgen ps [] ltac:(constructor)) as (H1 & H2 & H3). split_and!; [done| |exact H3]. intros p. rewrite H2, elem_of_nil. tauto.
Qed.
Lemma preconditions_round_trip_witness : derive_preconditions_from_lines (precondition_lines [MustCreateEntrypoint; MustFixUnresolvedImport]) = [MustCreateEntrypoint; MustFixUnresolvedImport].
Proof. apply (preconditions_round_trip [MustCreateEntrypoint; MustFixUnresolvedImport]). repeat (apply NoDup_cons; split; [set_solver|]). constructor. Defined.

(** the regression-test strategy rejects regression tests: a batch passes
    it only if one of its actions names the directory of the tests or of the
    sources itself, so a patch that adds or changes a file in it does not. *)
Theorem regression_test_rejected {V} `{Json V} (actions : list (LoopPlanned.t V)) root s o t : validate_development_strategy_alignment actions root s o t (Some AddRegressionTest) = Some (Ok tt) ->
  exists a p, a ∈ actions /\ p ∈ touched_paths a /\ is_test_text p = true /\
    exists q, q ∈ touched_paths a /\ (components (join_path root q) = components (join_path root (lit "tests")) \/ components (join_path root q) = components (join_path root (lit "src"))).
Proof.
  unfold validate_development_strategy_alignment. cbn [mbind option_bind strategy_satisfied]. unfold check. destruct (existsb _ actions) eqn:He; [|done]. intros _.
  apply existsb_exists in He as (a & Ha & Ht). apply list_elem_of_In in Ha. unfold touches_test_surface in Ht. apply andb_true_iff in Ht as [Ht Htext].
  apply existsb_exists in Htext as (p & Hp & Htext). apply list_elem_of_In in Hp. exists a, p. split_and!; try done.
  unfold touches_any_path in Ht. apply existsb_exists in Ht as (e & Hee & Ht). apply existsb_exists in Ht as (c & Hc & Hs). apply list_elem_of_In in Hc. unfold normalized_touched_paths in Hc. apply list_elem_of_fmap in Hc as (q & -> & Hq).
  unfold same_path in Hs. apply bool_decide_eq_true_1 in Hs. exists q. split; [done|]. destruct Hee as [<-|[<-|[]]]; auto.
Qed.

(** A planned action with the given kind and payload. *)
Definition sample_action (kind : string) (payload : jval) : LoopPlanned.t jval := LoopPlanned.mk 1 kind payload "" None None None None None None None None None [].
Lemma regression_test_rejected_witness : exists a p, a ∈ [sample_action "list_dir" (JObj {[ "path" := JStr "tests/" ]})] /\ p ∈ touched_paths a /\ is_test_text p = true.
Proof.
  destruct (regression_test_rejected [sample_action "list_dir" (JObj {[ "path" := JStr "tests/" ]})] (lit "/w") summary_default calm_state trend_default) as (a & p & Ha & Hp & Ht & _); [vm_compute; reflexivity|].
  by exists a, p.
Defined.
(** A patch that adds a test is not accepted, nor is writing one. *)
Example test_file_rejected :
  validate_development_strategy_alignment [sample_action "write_file" (JObj {[ "path" := JStr "tests/parser_test.rs"; "content" := JStr "" ]})] (lit "/w") summary_default calm_state trend_default (Some AddRegressionTest)
  = Some (Err "active development strategy requires the first batch to touch the test surface"%string).
Proof. vm_compute. reflexivity. Qed.

Lemma seq_ok (m k : result string unit) : (m ;;! k) = Ok tt -> m = Ok tt /\ k = Ok tt.
Proof. by destruct m as [[]|]. Qed.
Lemma check_ok b message : check b message = Ok tt -> b = true.
Proof. by destruct b. Qed.
Lemma legality_all {V} `{Json V} fs (actions : list (LoopPlanned.t V)) root s : validate_repair_action_legality fs actions root s = Ok tt ->
  let '(real_path, real_cargo) := planner_workspace_presence fs root s in
  Forall (fun a => match classify_constraint_action_for_plan a with Some c => decide_action s real_path real_cargo (effective_actionable_failure s) None (Some c) = Allow | None => True end) actions.
Proof.
  unfold validate_repair_action_legality. destruct (planner_workspace_presence fs root s) as [rp rc]. set (f := fun acc a => _).
  assert (Herr : forall l e, foldl f (Err e) l = Err e) by (induction l; done).
  induction actions as [|a actions IH]; [constructor|]. cbn [foldl]. intros Hf. constructor.
  - destruct (f (Ok tt) a) as [[]|e] eqn:Hfa; [|rewrite Herr in Hf; done]. subst f. cbn [mbind result_bind] in Hfa. destruct (classify_constraint_action_for_plan a) as [c|]; [|done]. destruct (decide_action _ _ _ _ _ _); done.
  - apply IH. destruct (f (Ok tt) a) as [[]|e] eqn:Hfa; [exact Hf|rewrite Herr in Hf; done].
Qed.

(** C14: an accepted batch is sound: a demanded bootstrap is in it with the tool
    that fits the directory, the repair with the highest priority is addressed,
    every action is legal for the constraint engine, and a batch with a plain
    [cargo check] is only accepted when nothing blocks validation. *)
Theorem accepted_batch_sound {V} `{Json V} fs (actions : list (LoopPlanned.t V)) root ps s : validate_preconditions fs actions root ps s = Ok tt ->
  let '(real_path, real_cargo) := planner_workspace_presence fs root s in
  (MustBootstrapWorkspace ∈ ps -> contains_expected_bootstrap_action actions (select_bootstrap_command fs root) = true /\ select_bootstrap_command fs root <> NoBootstrapNeeded) /\
  (forall i, head (derive_repair_intents ps None) = Some i -> intent_satisfied actions root i s = true) /\
  (forall a c, a ∈ actions -> classify_constraint_action_for_plan a = Some c -> decide_action s real_path real_cargo (effective_actionable_failure s) None (Some c) = Allow) /\
  (forall a, a ∈ actions -> classify_constraint_action_for_plan a = Some Validation ->
     real_path = true /\ ss_validation_blocked_by_preconditions s = false /\ entrypoint_is_missing s = false /\ ss_module_gaps s = []).
Proof.
  intros Hv. unfold validate_preconditions in Hv. cbv zeta in Hv.
  apply seq_ok in Hv as [Hboot Hv]. do 9 (apply seq_ok in Hv as [_ Hv]). apply seq_ok in Hv as [Hhigh Hv]. do 2 (apply seq_ok in Hv as [_ Hv]).
  pose proof (legality_all fs actions root s Hv) as Hlegal. destruct (planner_workspace_presence fs root s) as [rp rc]. rewrite Forall_forall in Hlegal. split_and!.
  - intros Hin. rewrite bool_decide_eq_true_2 in Hboot by done. unfold validate_bootstrap in Hboot. destruct (select_bootstrap_command fs root); [apply check_ok in Hboot; by split..|done].
  - intros i Hi. rewrite Hi in Hhigh. by apply check_ok in Hhigh.
  - intros a c Ha Hc. specialize (Hlegal a Ha). by rewrite Hc in Hlegal.
  - intros a Ha Hc. specialize (Hlegal a Ha). rewrite Hc in Hlegal. unfold decide_action, evaluate_constraint_context, summary_constraint_state in Hlegal. destruct (effective_failure_scope_flags s) as [[? ?] ?].
    cbn [ctx_route ctx_action ctx_state deterministic_route evaluate_action validation_blocked real_path_exists entrypoint_missing module_gaps_present] in Hlegal.
    destruct (ss_validation_blocked_by_preconditions s), rp, (entrypoint_is_missing s); cbn in Hlegal; try discriminate Hlegal. destruct (bool_decide (ss_module_gaps s = [])) eqn:Hg; [|discriminate Hlegal].
    apply bool_decide_eq_true_1 in Hg. by split_and!.
Qed.
(** A new workspace: the plan that creates it is accepted. *)
Definition bootstrap_batch : list (LoopPlanned.t jval) := [sample_action "run_command" (JObj {[ "cmd" := JStr "cargo new demo" ]})].
Lemma accepted_batch_sound_witness : contains_expected_bootstrap_action bootstrap_batch ChooseCargoNew = true.
Proof. apply (accepted_batch_sound (fun _ => None) bootstrap_batch (lit "/w/demo") [MustBootstrapWorkspace] summary_default); [vm_compute; reflexivity|set_solver]. Defined.
