(* ===== verification/LoopContext.v ===== *)
(** * The context of the loop ([canon-loop/src/context.rs])

    The state the stages share, the batches of planned actions in flight, and
    the numbered artifacts written for them.

    A stage runs in a monad over [Stage]: the context, the events emitted so
    far, the artifact directory, two counters and the process-wide store of
    discovered invariants.  What a stage reads of the
    outside is a [World]: the identifiers and clock readings still to come, the
    file system, hashes and tools; within one event the files change at most
    once, when its tool runs ([w_fs_after]).  The
    artifact directory lists its files in order, each with its JSON, or nothing
    when its text is not JSON; writing to it succeeds. *)
From Stdlib Require Import Floats.SpecFloat.
From S2P Require Import Prelude Json Text PatchParser TextFormat Paths Wire SemanticState SemanticText Gatekeeper Objectives Goal LoopPolicy ConstraintEngine Discovery CompilerHints Workspace Scheduler EventShape KernelTypes Events EventBus RouteContext Merge.

Inductive DestructiveCmdPolicy : Set := PolicyAllow | PolicyWarn | PolicyBlock.
Definition policy_of_env (value : option string) : DestructiveCmdPolicy :=
  let v := to_ascii_lowercase (default "block"%string value) in if String.eqb v "allow" then PolicyAllow else if String.eqb v "warn" then PolicyWarn else PolicyBlock.
Definition policy_str (p : DestructiveCmdPolicy) : string := match p with PolicyAllow => "allow" | PolicyWarn => "warn" | PolicyBlock => "block" end.

#[export] Instance loop_planned {V} : Planned (LoopPlanned.t V) :=
  {| action_kind := LoopPlanned.action_kind; llm_request_id := LoopPlanned.llm_request_id; action_id := LoopPlanned.action_id; depends_on := LoopPlanned.depends_on |}.

Record PendingPlan := MkPendingPlan {
  pp_tick : N;
  pp_request_id : string;
  pp_dispatched_at_tick : N;
  pp_goal_text : option string;
  pp_trace_id : string;
  pp_execution_id : string;
  pp_span_id : string;
  pp_plan_id : string;
  pp_plan_tool_call_id : string
}.
#[export] Instance PendingPlan_eta : Eta (PendingPlan) := fun r => MkPendingPlan (pp_tick r) (pp_request_id r) (pp_dispatched_at_tick r) (pp_goal_text r) (pp_trace_id r) (pp_execution_id r) (pp_span_id r) (pp_plan_id r) (pp_plan_tool_call_id r).
Record PendingAct := MkPendingAct {
  pa_tick : N;
  pa_action_kind : string;
  pa_tool_kind : string;
  pa_request_id : string;
  pa_tool_call_id : string;
  pa_node_id : string;
  pa_started_at : N;
  pa_trace_id : option string;
  pa_execution_id : option string;
  pa_parent_span_id : option string;
  pa_plan_id : option string;
  pa_plan_step_id : option string;
  pa_action_id : option string;
  pa_artifact_n : N;
  pa_llm_request_id : option string
}.
#[export] Instance PendingAct_eta : Eta (PendingAct) := fun r => MkPendingAct (pa_tick r) (pa_action_kind r) (pa_tool_kind r) (pa_request_id r) (pa_tool_call_id r) (pa_node_id r) (pa_started_at r) (pa_trace_id r) (pa_execution_id r) (pa_parent_span_id r) (pa_plan_id r) (pa_plan_step_id r) (pa_action_id r) (pa_artifact_n r) (pa_llm_request_id r).
Record BatchStatus := MkBatch {
  bs_artifact_n : N;
  bs_planned : N;
  bs_dispatched : N;
  bs_completed_ok : N;
  bs_completed_fail : N
}.
#[export] Instance BatchStatus_eta : Eta (BatchStatus) := fun r => MkBatch (bs_artifact_n r) (bs_planned r) (bs_dispatched r) (bs_completed_ok r) (bs_completed_fail r).
Record LoopContext {V : Type} := MkLoopContext {
  lc_workspace : bytes;
  lc_tlog_path : bytes;
  lc_goal_text : option string;
  lc_recent_compiler_errors : list V;
  lc_error_count : N;
  lc_warning_count : N;
  lc_pending_plan : option PendingPlan;
  lc_last_llm_signals : option V;
  lc_last_observed : option (LoopObserved.t V);
  lc_last_observed_tick : option N;
  lc_last_handled_observed_hash : option N;
  lc_last_planned_observed_tick : option N;
  lc_last_emitted_plan_hash : option N;
  lc_last_done_goal : option string;
  lc_batch_acted : list LoopActed.t;
  lc_batch_tool_results : list (ToolResult.t V);
  lc_recent_execution_results : list ExecResult;
  lc_objective_trend_state : ObjectiveTrendState;
  lc_last_prompted_goal : option string;
  lc_last_system_prompt_id : option N;
  lc_last_context_base_id : option N;
  lc_last_delta_hash : option N;
  lc_last_route_rationale : option string;
  lc_last_route_confidence : option f64;
  lc_last_route_rationale_non_empty : option string;
  lc_last_route_confidence_non_empty : option f64;
  lc_last_route_selected_tick : option N;
  lc_last_invalid_plan_reason : option string;
  lc_last_invalid_plan_planned_count : option N;
  lc_consecutive_invalid_plan_batches : N;
  lc_scheduler : Scheduler (P := LoopPlanned.t V);
  lc_dep_tracker : DependencyTracker (P := LoopPlanned.t V);
  lc_pending_act : option PendingAct;
  lc_artifact_dir : bytes;
  lc_artifact_counter : N;
  lc_active_batch_llm_request_id : option string;
  lc_queued_artifact_index : gmap string N;
  lc_act_batch_tracker : gmap string BatchStatus;
  lc_action_semantic_intents : gmap string (list SemanticActionIntent);
  lc_last_act_reconcile : option N;
  lc_destructive_cmd_policy : DestructiveCmdPolicy;
  lc_file_write_tracker : FileWriteTracker;
  lc_write_paths_by_action : gmap string (list bytes);
  lc_dirty_tracker : WorkspaceDirtyTracker;
  lc_context_merger : ContextMerger;
  lc_pending_decompose_request_id : option string;
  lc_agent_id : option string;
  lc_last_act_span_id : option string;
  lc_last_acted : option LoopActed.t;
  lc_last_verified : option LoopVerified.t;
  lc_last_verifier_outcome : option string;
  lc_last_verifier_retry_policy : option string;
  lc_last_verifier_reward_bias : option string;
  lc_last_verifier_actionable_failure : option bool;
  lc_errors_before : N;
  lc_stagnant_ticks : N;
  lc_last_action_kind : string;
  lc_halted : bool;
  lc_last_halt_reason : option string;
  lc_last_control_kind : option string;
  lc_last_control_event_id : option string;
  lc_pending_required_successor : option string;
  lc_last_reward_trace_id : option string;
  lc_last_reward_execution_id : option string;
  lc_last_reward_verify_span_id : option string;
  lc_goodness : option f32;
  lc_delta_g : option f32;
  lc_last_observed_error_count : N;
  lc_last_observed_goal_hash : N;
  lc_last_observed_facts_hash : N;
  lc_current_tick : N;
  lc_forced_primary_objective : option DevelopmentObjectiveKind;
  lc_forced_primary_strategy : option DevelopmentStrategyKind
}.
Arguments LoopContext V : clear implicits.
Arguments MkLoopContext {V} _ _ _ _ _ _ _ _ _ _ _ _ _ _ _ _ _ _ _ _ _ _ _ _ _ _ _ _ _ _ _ _ _ _ _ _ _ _ _ _ _ _ _ _ _ _ _ _ _ _ _ _ _ _ _ _ _ _ _ _ _ _ _ _ _ _ _ _ _ _ _ _ _.
#[export] Instance LoopContext_eta {V} : Eta (LoopContext V) := fun r => MkLoopContext (lc_workspace r) (lc_tlog_path r) (lc_goal_text r) (lc_recent_compiler_errors r) (lc_error_count r) (lc_warning_count r) (lc_pending_plan r) (lc_last_llm_signals r) (lc_last_observed r) (lc_last_observed_tick r) (lc_last_handled_observed_hash r) (lc_last_planned_observed_tick r) (lc_last_emitted_plan_hash r) (lc_last_done_goal r) (lc_batch_acted r) (lc_batch_tool_results r) (lc_recent_execution_results r) (lc_objective_trend_state r) (lc_last_prompted_goal r) (lc_last_system_prompt_id r) (lc_last_context_base_id r) (lc_last_delta_hash r) (lc_last_route_rationale r) (lc_last_route_confidence r) (lc_last_route_rationale_non_empty r) (lc_last_route_confidence_non_empty r) (lc_last_route_selected_tick r) (lc_last_invalid_plan_reason r) (lc_last_invalid_plan_planned_count r) (lc_consecutive_invalid_plan_batches r) (lc_scheduler r) (lc_dep_tracker r) (lc_pending_act r) (lc_artifact_dir r) (lc_artifact_counter r) (lc_active_batch_llm_request_id r) (lc_queued_artifact_index r) (lc_act_batch_tracker r) (lc_action_semantic_intents r) (lc_last_act_reconcile r) (lc_destructive_cmd_policy r) (lc_file_write_tracker r) (lc_write_paths_by_action r) (lc_dirty_tracker r) (lc_context_merger r) (lc_pending_decompose_request_id r) (lc_agent_id r) (lc_last_act_span_id r) (lc_last_acted r) (lc_last_verified r) (lc_last_verifier_outcome r) (lc_last_verifier_retry_policy r) (lc_last_verifier_reward_bias r) (lc_last_verifier_actionable_failure r) (lc_errors_before r) (lc_stagnant_ticks r) (lc_last_action_kind r) (lc_halted r) (lc_last_halt_reason r) (lc_last_control_kind r) (lc_last_control_event_id r) (lc_pending_required_successor r) (lc_last_reward_trace_id r) (lc_last_reward_execution_id r) (lc_last_reward_verify_span_id r) (lc_goodness r) (lc_delta_g r) (lc_last_observed_error_count r) (lc_last_observed_goal_hash r) (lc_last_observed_facts_hash r) (lc_current_tick r) (lc_forced_primary_objective r) (lc_forced_primary_strategy r).

(** ** Artifact names *)

Definition UNDERSCORE : byte := x5f.
(** [format!("{:09}")]. *)
Definition pad9 (n : N) : bytes := let d := dec n in replicate (9 - length d) x30 ++ d.
Definition artifact_name (n : N) (suffix : string) : string := str (pad9 n ++ [UNDERSCORE] ++ lit suffix ++ lit ".json").
(** [splitn(3, '_')]. *)
Definition splitn3 (l : bytes) : option (bytes * bytes * bytes) :=
  match split_byte UNDERSCORE l with a :: b :: c :: rest => Some (a, b, join [UNDERSCORE] (c :: rest)) | _ => None end.
Definition parse_artifact_name (name : bytes) : option (N * bytes * option N) :=
  '(first, second, third) ← splitn3 name;
  match parse_uint u32_max first with
  | Some n => Some (n, second ++ [UNDERSCORE] ++ third, None)
  | None => ts ← parse_uint u64_max first; n ← parse_uint u32_max second; Some (n, third, Some ts)
  end.
Definition next_tool_artifact_counter (names : list bytes) : N :=
  match omap (fun name => (fun x => x.1.1) <$> parse_artifact_name name) names with [] => 0 | n :: rest => sat_add32 (foldl N.max n rest) 1 end.

Definition loop_context_new {V} (workspace tlog_path artifact_dir : bytes) (names : list bytes) (policy : DestructiveCmdPolicy) : LoopContext V :=
  MkLoopContext workspace tlog_path None [] 0 0 None None None None None None None None [] [] [] trend_default None None None None None None None None None None None 0 new_scheduler new_tracker None artifact_dir (next_tool_artifact_counter names) None ∅ ∅ ∅ None policy ∅ ∅ ∅ [] None None None None None None None None None 0 0 "" false None None None None None None None None None 0 0 0 0 None None.

(** ** The world and the monad of the stages *)

Definition Dir (V : Type) : Type := list (string * option V).
Fixpoint dir_lookup {V} (name : string) (d : Dir V) : option (option V) := match d with [] => None | (n, c) :: d' => if String.eqb n name then Some c else dir_lookup name d' end.
Fixpoint dir_write {V} (name : string) (v : V) (d : Dir V) : Dir V := match d with [] => [(name, Some v)] | (n, c) :: d' => if String.eqb n name then (n, Some v) :: d' else (n, c) :: dir_write name v d' end.

Record EditReport := MkReport { ed_def_paths : list string; ed_error : option string }.
Record ProofReport := MkProof { pr_verified : bool; pr_summary : string; pr_artifact_id : option string; pr_failures : list string }.
Inductive GraphProofExpectation : Type :=
| ExpectRename (old_symbol new_symbol path : string) | ExpectMove (old_symbol new_symbol new_module_path path : string)
| ExpectImport (import_path path : string) | ExpectCreateModule (module_path path : string).

(** [serde_json] text, printed events and numbers, hashes, identifiers, clocks, files, the Unicode table of
    letters and digits (asked outside of ASCII) and the tools the stages call;
    [w_debug_assertions] is the build profile and [w_pending_timeout] the
    variable [CANON_TOOL_PENDING_TIMEOUT_MS]. *)
Record World {V : Type} := MkWorld {
  w_uuid : N -> string; w_clock : N -> N; w_site : string -> string * N;
  w_fs : bytes -> option FileTree; w_fs_after : bytes -> option FileTree;
  w_debug_assertions : bool; w_pending_timeout : option bytes;
  w_show_event : RuntimeEvent.t V -> string; w_show_f32 : f32 -> string;
  w_to_text : V -> string; w_parse : bytes -> option V;
  w_debug_str : string -> string; w_store_path : string;
  w_hash_text : string -> N; w_hash_observed : N -> option string -> SemanticStateSummary -> N; w_hash_batch : list (string * string) -> N;
  w_hash_value : V -> N; w_hash_goal : option string -> N; w_hash_facts : SemanticStateSummary -> list string -> N;
  w_goal_events : option (list (option (list (option (CanonEvent V)))));
  w_alphanumeric : bytes -> bool;
  w_cargo_check : bytes -> result string (bool * string);
  w_search : bytes -> bytes -> nat -> option (list (bytes * V)); w_search_after : bytes -> bytes -> nat -> option (list (bytes * V));
  w_apply_patch : bytes -> bytes -> result string (nat * nat * nat);
  w_rename_symbol : bytes -> string -> string -> EditReport;
  w_move_symbol : bytes -> string -> string -> EditReport;
  w_add_import : bytes -> string -> string -> EditReport;
  w_define_stub : bytes -> string -> string -> string -> EditReport;
  w_create_module : bytes -> string -> option string -> EditReport;
  w_graph_proof : bytes -> list GraphProofExpectation -> result string ProofReport
}.
Arguments World V : clear implicits.
#[export] Instance World_eta {V} : Eta (World V) := fun r => MkWorld V (w_uuid r) (w_clock r) (w_site r) (w_fs r) (w_fs_after r) (w_debug_assertions r) (w_pending_timeout r) (w_show_event r) (w_show_f32 r) (w_to_text r) (w_parse r) (w_debug_str r) (w_store_path r) (w_hash_text r) (w_hash_observed r) (w_hash_batch r) (w_hash_value r) (w_hash_goal r) (w_hash_facts r) (w_goal_events r) (w_alphanumeric r) (w_cargo_check r) (w_search r) (w_search_after r) (w_apply_patch r) (w_rename_symbol r) (w_move_symbol r) (w_add_import r) (w_define_stub r) (w_create_module r) (w_graph_proof r).
(** What an event sees once its tool has run. *)
Definition after_tools {V} (w : World V) : World V := w <| w_fs := w_fs_after w |> <| w_search := w_search_after w |>.

Record Stage {V : Type} := MkStage { sg_ctx : LoopContext V; sg_out : list (LocatedEvent V); sg_dir : Dir V; sg_uuids : N; sg_reads : N; sg_store : world }.
Arguments Stage V : clear implicits.
Arguments MkStage {V} _ _ _ _ _ _.
#[export] Instance Stage_eta {V} : Eta (Stage V) := fun r => MkStage (sg_ctx r) (sg_out r) (sg_dir r) (sg_uuids r) (sg_reads r) (sg_store r).
(** [panic!], and an [anyhow] error. *)
Inductive StageFault : Type := StagePanic (msg : string) | StageError (msg : string).
Definition M (V A : Type) : Type := stateR (Stage V) StageFault A.

Section Effects.
Context {V : Type} `{Json V} `{JsonSer V} (w : World V).
Definition ctx : M V (LoopContext V) := gets sg_ctx.
Definition upd (f : LoopContext V -> LoopContext V) : M V unit := modify (fun s => s <| sg_ctx ::= f |>).
Definition panic {A} (msg : string) : M V A := fail_with (StagePanic msg).
Definition uuid : M V string := fun s => (s <| sg_uuids ::= N.succ |>, Ok (w_uuid w (sg_uuids s))).
(** [Instant::now] and the wall clock, in milliseconds. *)
Definition now : M V N := fun s => (s <| sg_reads ::= N.succ |>, Ok (w_clock w (sg_reads s))).
Definition elapsed (since : N) : M V N := let! t := now in mret (t - since)%N.
Definition emit (place : string) (e : RuntimeEvent.t V) (parents : list EventId) : M V unit :=
  let '(file, line) := w_site w place in modify (fun s => s <| sg_out ::= fun l => l ++ [MkLocated e file line parents] |>).
Definition write_json (name : string) (v : V) : M V unit := modify (fun s => s <| sg_dir ::= dir_write name v |>).
(** A panicking step outside of the monad. *)
Definition or_panic {A} (o : option A) (msg : string) : M V A := match o with Some a => mret a | None => panic msg end.
(** [catch_unwind]: the changes made before the panic stay. *)
Definition catch_unwind {A} (m : M V A) (instead : A) : M V A := fun s => match m s with (s', Err (StagePanic _)) => (s', Ok instead) | r => r end.

(** ** Batches *)

Definition write_batch_status_artifact (llm_request_id status : string) (b : BatchStatus) : M V unit :=
  let! t := now in
  write_json (artifact_name (bs_artifact_n b) "batch_status")
    (jobj {[ "n" := to_value (bs_artifact_n b); "llm_request_id" := jstr llm_request_id; "status" := jstr status; "planned" := to_value (bs_planned b); "dispatched" := to_value (bs_dispatched b);
             "completed_ok" := to_value (bs_completed_ok b); "completed_fail" := to_value (bs_completed_fail b); "updated_ms" := to_value t ]}).

Definition plan_cache_key (p : LoopPlanned.t V) : option string :=
  match LoopPlanned.action_id p with Some id => Some ("action:" +:+ id) | None => (fun id => "step:" +:+ id) <$> LoopPlanned.plan_step_id p end.
(** The first artifact whose name and content are those of the request; a file
    that is not JSON ends the search. *)
Fixpoint find_request_index (request_id : string) (d : Dir V) : option N :=
  match d with
  | [] => None
  | (name, content) :: d' =>
      match parse_artifact_name (lit name) with
      | Some (n, suffix, _) =>
          if bool_decide (suffix = lit "request.json") then
            v ← content; if bool_decide (json_get_str "request_id" v = Some request_id) then Some n else find_request_index request_id d'
          else find_request_index request_id d'
      | None => find_request_index request_id d'
      end
  end.
Definition next_tool_artifact_n : M V N := let! c := ctx in upd (fun c => c <| lc_artifact_counter ::= fun n => sat_add32 n 1 |>) ;;! mret (lc_artifact_counter c).
Definition cache_index (p : LoopPlanned.t V) (n : N) : M V unit :=
  match plan_cache_key p with Some key => upd (fun c => c <| lc_queued_artifact_index ::= <[ key := n ]> |>) | None => mret tt end.
Definition artifact_index_for_plan (p : LoopPlanned.t V) : M V N :=
  let! d := gets sg_dir in let! c := ctx in
  match LoopPlanned.llm_request_id p ≫= fun id => find_request_index id d with
  | Some n => cache_index p n ;;! mret n
  | None =>
      match plan_cache_key p with
      | Some key => match lc_queued_artifact_index c !! key with Some n => mret n | None => let! n := next_tool_artifact_n in cache_index p n ;;! mret n end
      | None => next_tool_artifact_n
      end
  end.
Definition clear_cached_artifact_index_for_plan (p : LoopPlanned.t V) : M V unit :=
  match plan_cache_key p with Some key => upd (fun c => c <| lc_queued_artifact_index ::= delete key |>) | None => mret tt end.

Definition set_batch (id : string) (b : option BatchStatus) : M V unit :=
  upd (fun c => c <| lc_act_batch_tracker ::= match b with Some b => <[ id := b ]> | None => delete id end |>).
Definition mark_batch_planned (p : LoopPlanned.t V) (artifact_n : N) : M V unit :=
  match LoopPlanned.llm_request_id p with
  | None => mret tt
  | Some id =>
      let! c := ctx in
      let b := default (MkBatch artifact_n 0 0 0 0) (lc_act_batch_tracker c !! id) in
      let b := if (bs_artifact_n b =? 0)%N then b <| bs_artifact_n := artifact_n |> else b in
      let b := b <| bs_planned ::= fun n => sat_add64 n 1 |> in
      set_batch id (Some b) ;;! write_batch_status_artifact id "in_progress" b
  end.
Definition mark_batch_dispatched (p : LoopPlanned.t V) : M V unit :=
  let! c := ctx in
  match LoopPlanned.llm_request_id p ≫= fun id => (id,.) <$> lc_act_batch_tracker c !! id with
  | None => mret tt
  | Some (id, b) => let b := b <| bs_dispatched ::= fun n => sat_add64 n 1 |> in set_batch id (Some b) ;;! write_batch_status_artifact id "in_progress" b
  end.
Definition batch_done (success : bool) (b : BatchStatus) : BatchStatus :=
  if success then b <| bs_completed_ok ::= fun n => sat_add64 n 1 |> else b <| bs_completed_fail ::= fun n => sat_add64 n 1 |>.
Definition batch_finished (b : BatchStatus) : bool := (bs_planned b <=? sat_add64 (bs_completed_ok b) (bs_completed_fail b))%N.
Definition mark_batch_completion (llm_request_id : option string) (success : bool) : M V unit :=
  let! c := ctx in
  match llm_request_id ≫= fun id => (id,.) <$> lc_act_batch_tracker c !! id with
  | None => mret tt
  | Some (id, b) =>
      let b := batch_done success b in
      let finished := batch_finished b in
      let label := if finished then (if (bs_completed_fail b =? 0)%N then "completed" else "failed_partial")%string else "in_progress"%string in
      set_batch id (Some b) ;;! write_batch_status_artifact id label b ;;! if finished then set_batch id None else mret tt
  end.
Definition mark_batch_inline_completion (p : LoopPlanned.t V) (success : bool) : M V unit := mark_batch_completion (LoopPlanned.llm_request_id p) success.
End Effects.

(** ** The state for the constraint engine *)

Section Constraint.
Context {V : Type}.
Definition semantic_of (c : LoopContext V) : option SemanticStateSummary := LoopObserved.semantic_summary <$> lc_last_observed c.
Definition to_constraint_state (fs : bytes -> option FileTree) (c : LoopContext V) : ConstraintState :=
  let sem := semantic_of c in
  let on {A} (d : A) (f : SemanticStateSummary -> A) : A := match sem with Some s => f s | None => d end in
  let failure_class := sem ≫= ss_failure_class in
  let failure_scope := sem ≫= ss_failure_scope in
  let verify_failed := match lc_last_verifier_outcome c with Some o => negb (String.eqb o "passed") | None => false end in
  let goal := bool_decide (is_Some (lc_goal_text c)) || bool_decide (is_Some (lc_last_prompted_goal c)) in
  let some_work s := negb (bool_decide (ss_repair_intents s = [])) || negb (bool_decide (ss_module_gaps s = [])) || has_actionable_compiler_hints s in
  let has_plan := on goal (fun s => negb (ss_validation_blocked_by_preconditions s) && bool_decide (ss_planning_preconditions s = []) && (goal || some_work s)) in
  Build_ConstraintState (on false ss_path_exists) (on false ss_cargo_project) (path_exists fs (lc_workspace c)) (path_exists fs (join_path (lc_workspace c) (lit "Cargo.toml")))
    (on false (fun s => ss_validation_blocked_by_preconditions s || ss_compiler_repair_required s || negb (bool_decide (ss_planning_preconditions s = [])) || some_work s) || verify_failed)
    (on false (fun s => ss_validation_blocked_by_preconditions s || negb (bool_decide (ss_planning_preconditions s = []))))
    (on false (fun s => bool_decide (ss_entrypoint_kind s = None) && ss_cargo_project s)) (on false (fun s => negb (bool_decide (ss_module_gaps s = []))))
    (0 <? ot_current_no_progress_streak (lc_objective_trend_state c))%N (bool_decide (failure_class = Some (lit "no_actionable_failure"))) (bool_decide (failure_scope = Some (lit "localized")))
    (bool_decide (failure_scope = Some (lit "workspace"))) (bool_decide (failure_scope = Some (lit "tooling"))) false has_plan.

(** [prime_harness_repair_target]. *)
Definition harness_goal (crate_name failing_test : option string) : string :=
  match crate_name, failing_test with
  | Some k, Some t => "repair harness failure in crate `" +:+ k +:+ "` for test `" +:+ t +:+ "`"
  | Some k, None => "repair harness failure in crate `" +:+ k +:+ "`"
  | None, Some t => "repair harness failure for test `" +:+ t +:+ "`"
  | None, None => "repair harness failure"
  end.
Definition primed (output : bytes) (o : LoopObserved.t V) : LoopObserved.t V :=
  let '(class, scope) := classify_failure_metadata output in
  let s := set_failure_scope (set_failure_class (set_complete (LoopObserved.semantic_summary o) true) (Some (failure_class_str class))) (Some (scope_str scope)) in
  LoopObserved.mk (LoopObserved.tick o) (LoopObserved.error_count o) (LoopObserved.warning_count o) (LoopObserved.compiler_errors o) (LoopObserved.goal_text o) s (LoopObserved.observe_diagnostics o).
Definition prime_harness_repair_target (w : World V) (crate_name failing_test : option string) (output : bytes) : M V unit :=
  upd (fun c => c <| lc_goal_text := Some (harness_goal crate_name failing_test) |>) ;;!
  let! c := ctx in
  let observed := primed output (default (LoopObserved.mk (lc_current_tick c) 0 0 [] (lc_goal_text c) summary_default []) (lc_last_observed c)) in
  upd (fun c => c <| lc_last_observed := Some observed |>) ;;!
  match lc_last_control_event_id c with
  | None => panic "FATAL: missing parent_ids for LoopObserved emission; last_control_event_id is None"
  | Some parent => emit w "prime_harness_repair_target" (RuntimeEvent.LoopObserved observed) [parent]
  end ;;!
  upd (fun c => c <| lc_forced_primary_objective := Some ReduceCompilerFailures |> <| lc_forced_primary_strategy := Some SimplifyPlanBatch |>).
End Constraint.
