(* ===== verification/LoopStages.v ===== *)
(** * Observe, verify, reward, decompose
    ([canon-loop/src/stage/{observe,verify,reward,decompose,mod}.rs])

    The stages that do not run actions, and how a completed capability is
    offered to the stages in turn.  Planning and acting are behind the
    interface [WorkStages]. *)
From Stdlib Require Import Floats.SpecFloat.
From S2P Require Import Prelude Json Text PatchParser TextFormat Paths Wire SemanticState SemanticText Gatekeeper Objectives Goal LoopPolicy ConstraintEngine CompilerHints Workspace Preconditions Scheduler EventShape KernelTypes Events EventBus RouteContext Merge LoopContext.

Inductive LoopStageResult {V : Type} : Type := Emit (e : RuntimeEvent.t V) | EmitMany (es : list (RuntimeEvent.t V)) | Noop | Deferred.
Arguments LoopStageResult V : clear implicits.
Definition is_noop {V} (r : LoopStageResult V) : bool := match r with Noop => true | _ => false end.

(** ** Reward *)

Record RewardSemantics := MkRewardSemantics { rw_reward : f32; rw_resets_stagnation : bool }.
Definition f32_add (x y : f32) : f32 := SFadd 24 128 x y.
Definition f32_sub (x y : f32) : f32 := SFsub 24 128 x y.
Definition f32_zero : f32 := f32_of_Z 0.

Section Reward.
Context {V : Type} `{Json V} `{JsonSer V}.
Definition execute_conclude : M V (LoopStageResult V) :=
  let! c := ctx in
  mret (Emit (RuntimeEvent.LoopRewarded (LoopRewarded.mk (lc_current_tick c) (lc_errors_before c) (lc_error_count c) (lc_stagnant_ticks c) true
    (default f32_zero (lc_goodness c)) (f32_of_Z 1) (default f32_zero (lc_delta_g c)) None None None None))).
(** [None] is the panic without a verifier policy. *)
Definition evaluate_reward_semantics (c : LoopContext V) : option RewardSemantics :=
  bias ← lc_last_verifier_reward_bias c;
  let positive := String.eqb bias "positive" in
  let rs := lc_recent_execution_results c in
  let t := lc_objective_trend_state c in
  let r := if positive then f32_of_Z 1 else f32_of_Z (-1) in
  let r := if String.eqb (lc_last_action_kind c) "done" then f32_add r (f32_lit 5 10) else r in
  let r := if latest_semantic_progress rs then f32_add r (f32_lit 4 10) else if latest_no_semantic_progress rs then f32_sub r (f32_lit 4 10) else r in
  let r := if latest_graph_proof_verified rs then f32_add r (f32_lit 2 10) else if latest_graph_proof_failed rs then f32_sub r (f32_lit 4 10) else r in
  let r := if repair_resolution_rate t >?f f32_lit 5 10 then f32_add r (f32_lit 2 10) else r in
  let r := if (0 <? ot_repeated_stall_count t)%N && (0 <? ot_current_no_progress_streak t)%N then f32_sub r (f32_lit 3 10) else r in
  Some (MkRewardSemantics r (positive || (latest_semantic_progress rs && negb (latest_graph_proof_failed rs)))).
(** The common end of the two evaluations: the reward, and the stagnation. *)
Definition rewarded (v : LoopVerified.t) : M V (LoopStageResult V) :=
  let! c := ctx in
  let! s := or_panic (evaluate_reward_semantics c) "VerifierPolicyUpdated must be observed before reward evaluation" in
  let event := LoopRewarded.mk (LoopVerified.tick v) (lc_errors_before c) (lc_error_count c) (lc_stagnant_ticks c) false (default f32_zero (lc_goodness c)) (rw_reward s)
    (default f32_zero (lc_delta_g c)) (lc_last_reward_trace_id c) (lc_last_reward_execution_id c) (LoopVerified.span_id v) (LoopVerified.parent_span_id v) in
  upd (fun c => if rw_resets_stagnation s then c <| lc_stagnant_ticks := 0%N |> else c <| lc_stagnant_ticks ::= fun n => sat_add32 n 1 |> <| lc_last_done_goal := None |>) ;;!
  mret (Emit (RuntimeEvent.LoopRewarded event)).
Definition reward_execute (v : LoopVerified.t) : M V (LoopStageResult V) :=
  upd (fun c => c <| lc_last_reward_trace_id := LoopVerified.trace_id v |> <| lc_last_reward_execution_id := LoopVerified.execution_id v |>) ;;! rewarded v.
Definition or_opt {A} (a b : option A) : option A := match a with Some _ => a | None => b end.
Definition execute_from_policy (p : VerifierPolicyUpdated.t) : M V (LoopStageResult V) :=
  let! c := ctx in
  let! v := or_panic (lc_last_verified c) "LoopVerified must be observed before VerifierPolicyUpdated reward evaluation" in
  upd (fun c => c <| lc_last_reward_trace_id := or_opt (VerifierPolicyUpdated.trace_id p) (LoopVerified.trace_id v) |>
                  <| lc_last_reward_execution_id := or_opt (VerifierPolicyUpdated.execution_id p) (LoopVerified.execution_id v) |>) ;;!
  rewarded v.
End Reward.

(** ** Verify *)

Definition verifier_outcome_str (o : MetaInvariantVerifierOutcome) : string :=
  match o with Passed => "passed" | CompilerFailure => "compiler_failure" | FailedNoCompilerSignal => "failed_no_compiler_signal" end.
Section Verify.
Context {V : Type} `{Json V} `{JsonSer V} (w : World V).
(** A spawn that fails is an error. *)
Definition run_cargo_check (workspace : bytes) : M V (bool * string) :=
  if negb (path_exists (w_fs w) workspace) then mret (false, "target path does not exist: " +:+ str workspace)
  else match w_cargo_check w workspace with Ok r => mret r | Err e => fail_with (StageError e) end.
(** The hints' own class and scope, else what the text says. *)
Definition named_class (hints : list CompilerHintRecord) : option bytes := find_map (fun h => hint_kind_str <$> kind_enum h) hints.
Definition named_scope (hints : list CompilerHintRecord) : option bytes :=
  find_map (fun h => match failure_scope_enum h with Some ScopeNone | None => None | Some s => Some (scope_str s) end) hints.
(** [None] when a hint cannot be cut at byte 140. *)
Definition check_diagnostics (text : string) : option (list string) :=
  hints ← CompilerHints.planner_lines [jstr text : V];
  let '(class, scope) := classify_failure_metadata (lit text) in
  Some ["cargo_check_failed"%string; "failure_class=" +:+ str (default (failure_class_str class) (named_class hints)); "failure_scope=" +:+ str (default (scope_str scope) (named_scope hints)); text].
Definition verify_execute (rs : RouteSelected.t) : M V (LoopStageResult V) :=
  let! trace_id := uuid w in
  let! execution_id := uuid w in
  let! c := ctx in
  let target := default (lc_workspace c) (lc_goal_text c ≫= fun text => gs_target_path (parse_agent_goal_markdown (V := V) (lit text))) in
  let! checked := run_cargo_check target in
  let '(ok, text) := checked in
  let! diagnostics := or_panic (if ok then Some [] else check_diagnostics text) "byte index is not a char boundary" in
  let acted := bool_decide (is_Some (lc_last_acted c)) in
  let diagnostics := diagnostics ++ if acted then [] else ["no_actions_executed"%string] in
  let passed := ok && acted in
  let update := meta_invariant_all_results_update_policy passed passed diagnostics in
  mret (Emit (RuntimeEvent.VerifierPolicyUpdated (VerifierPolicyUpdated.mk (RouteSelected.tick rs) (verifier_outcome_str (ConstraintEngine.verifier_outcome update)) (ConstraintEngine.retry_policy update)
    (ConstraintEngine.reward_bias update) (pu_actionable_failure update) (Some trace_id) (Some execution_id) (lc_last_act_span_id c) None))).
End Verify.

(** ** Decompose *)

(** A string literal with its quotes written as tildes. *)
Definition quoted (s : string) : string := str ((fun b => if bool_decide (b = x7e) then x22 else b) <$> lit s).
Definition build_decompose_prompt (goal : string) : string :=
"You are a task decomposition agent. Split the following goal into parallel sub-tasks that can be executed by specialist agents.

## Goal
" +:+ goal +:+ quoted "

## Available agent roles
- ~exec~       — writes code, applies patches, runs commands
- ~doc_writer~ — writes documentation, comments, README files
- ~verifier~   — runs tests and verifies correctness

## Instructions
Respond with ONLY a JSON array. Each element must have:
  - ~agent_id~: one of the roles above
  - ~task_kind~: a short label (~implement~, ~document~, ~verify~, etc.)
  - ~task_prompt~: the full instruction for that agent
  - ~deps~: (optional) array of 0-based indices of tasks this task depends on

Example:
[
  {~agent_id~:~exec~,~task_kind~:~implement~,~task_prompt~:~Write the Foo struct with bar() method in src/foo.rs~,~deps~:[]},
  {~agent_id~:~doc_writer~,~task_kind~:~document~,~task_prompt~:~Add doc-comments to src/foo.rs~,~deps~:[0]}
]

Respond with the JSON array only. No prose.".
Record ParsedTask := MkTaskParsed { pt_dispatch_id : string; pt_agent_id : string; pt_task_kind : string; pt_task_prompt : string; pt_deps : list string }.
Definition OPEN_BRACKET : byte := x5b.
Definition CLOSE_BRACKET : byte := x5d.
(** [str::find] and [str::rfind] of one byte. *)
Definition find_byte (b : byte) (l : bytes) : option nat := fst <$> list_find (fun x => x = b) l.
Definition rfind_byte (b : byte) (l : bytes) : option nat := (fun i => length l - 1 - i) <$> find_byte b (reverse l).
(** From the first opening bracket to the last closing one; [None] when they
    are in the wrong order. *)
Definition json_slice (response : bytes) : option bytes :=
  let trimmed := trim response in
  slice (default 0 (find_byte OPEN_BRACKET trimmed)) (default (length trimmed) (S <$> rfind_byte CLOSE_BRACKET trimmed)) trimmed.

Section Decompose.
Context {V : Type} `{Json V} `{JsonSer V} (w : World V).
Definition decompose_execute (trigger_id : EventId) : M V (LoopStageResult V) :=
  let! c := ctx in
  match lc_pending_decompose_request_id c, or_opt (lc_goal_text c) (lc_last_observed c ≫= LoopObserved.goal_text) with
  | Some _, _ | _, None => mret Noop
  | None, Some goal =>
      let! request_id := uuid w in
      upd (fun c => c <| lc_pending_decompose_request_id := Some request_id |>) ;;!
      emit w "decompose::execute" (RuntimeEvent.Llm (LlmCall.mk request_id (build_decompose_prompt goal) (Some "decompose"%string) (lc_agent_id c) true None None None None None None)) [trigger_id] ;;!
      mret Deferred
  end.
(** The identifiers the other tasks are known by. *)
Definition task_deps (ids : list string) (i : nat) (item : V) : list string :=
  match json_get "deps" item ≫= json_as_array with
  | None => []
  | Some ds => omap (fun d => n ← json_as_u64 d; if (N.to_nat n <? length ids) && negb (N.to_nat n =? i) then ids !! N.to_nat n else None) ds
  end.
Definition parse_task (ids : list string) (i : nat) (item : V) : option ParsedTask :=
  agent ← json_get_str "agent_id" item;
  prompt ← json_get_str "task_prompt" item;
  id ← ids !! i;
  Some (MkTaskParsed id agent (default "task"%string (json_get_str "task_kind" item)) prompt (task_deps ids i item)).
Fixpoint uuids (n : nat) : M V (list string) := match n with 0 => mret [] | S n' => let! u := uuid w in let! us := uuids n' in mret (u :: us) end.
Definition parse_decompose_tasks (response : bytes) : M V (list ParsedTask) :=
  let! text := or_panic (json_slice response) "slice index starts after its end" in
  match w_parse w text ≫= json_as_array with
  | None => mret []
  | Some arr => let! ids := uuids (length arr) in mret (omap (fun x => parse_task ids x.1 x.2) (imap pair arr))
  end.
Definition task_events (t : ParsedTask) : list (RuntimeEvent.t V) :=
  RuntimeEvent.GoalNodeCreated (GoalNodeCreated.mk (pt_dispatch_id t) (pt_task_prompt t) (pt_deps t) [pt_task_kind t] "sub_task" 128 None true)
  :: ((fun d => RuntimeEvent.GoalEdgeDefined (GoalEdgeDefined.mk d (pt_dispatch_id t) true)) <$> pt_deps t).
Definition decompose_complete (c : CapabilityCompleted.t V) : M V (LoopStageResult V) :=
  let! x := ctx in
  match lc_pending_decompose_request_id x with
  | None => mret Noop
  | Some pending =>
      if negb (String.eqb pending (CapabilityCompleted.request_id c)) then mret Noop
      else
        upd (fun x => x <| lc_pending_decompose_request_id := None |>) ;;!
        let text := match CapabilityCompleted.result c with LlmOut r => w_to_text w (response r) | _ => ""%string end in
        let! tasks := parse_decompose_tasks (lit text) in
        mret (if bool_decide (length tasks = 0) then Noop else EmitMany (tasks ≫= task_events))
  end.
End Decompose.

(** ** Observe *)

(** The characters of a text. *)
Fixpoint chars_fuel (fuel : nat) (l : bytes) : list bytes :=
  match fuel, l with S f, _ :: _ => let n := max 1 (default 1 (utf8_head l)) in take n l :: chars_fuel f (drop n l) | _, _ => [] end.
Definition chars (l : bytes) : list bytes := chars_fuel (length l) l.
(** [str::split] with a predicate on characters. *)
Fixpoint split_chars (sep : bytes -> bool) (acc : bytes) (cs : list bytes) : list bytes :=
  match cs with [] => [acc] | c :: cs' => if sep c then acc :: split_chars sep [] cs' else split_chars sep (acc ++ c) cs' end.
Definition AGENT_GOAL : string := "AGENT_GOAL".

Section Observe.
Context {V : Type} `{Json V} `{JsonSer V} (w : World V).
Definition is_placeholder_goal (goal : string) : bool := let t := trim (lit goal) in bool_decide (t = []) || contains (lit "goal-pending") t.
(** The content of the last goal prompt of the log. *)
Definition goal_of_event (e : CanonEvent V) : option string :=
  let val := p_data (ev_payload e) in
  let is_goal := bool_decide (json_get_str "prompt_id" val = Some AGENT_GOAL) || match json_get_str "path" val with Some p => str_contains AGENT_GOAL p | None => false end in
  if bool_decide (ev_kind e = EventKind.PromptLoaded) && is_goal then json_get_str "content" val else None.
Definition scan_tlog_for_goal : option string := logs ← w_goal_events w; last (omap (fun e => e ≫= goal_of_event) (concat (omap id logs))).

Definition graph_count (k : string) (v : V) : option N := json_get k v ≫= json_as_u64.
Definition read_graph_summary (root : bytes) : option SemanticStateSummary :=
  raw ← read_to_string (w_fs w) (foldl join_path root [lit "state"; lit "graph"; lit "index"; lit "latest_workspace.json"]);
  wrapper ← w_parse w raw;
  let v := default wrapper (json_get "latest_workspace" wrapper) in
  artifact ← json_get_str "artifact_id" v;
  Some (MkSummary 0 false None false false false None None None [] [] [] [] [] false false None None (Some (lit artifact)) (graph_count "node_count" v) (graph_count "edge_count" v)
    (graph_count "file_count" v) (graph_count "call_edge_count" v) (graph_count "module_edge_count" v) (graph_count "cfg_edge_count" v)).
Definition preferred_entrypoint (root : bytes) : option bytes :=
  find_map (fun name => let p := join_path root (lit name) in if path_exists (w_fs w) p then Some p else None) ["src/main.rs"; "src/lib.rs"]%string.
Definition list_dir_entries (dir : bytes) (limit : nat) : list bytes :=
  match w_fs w dir with
  | Some (TDir entries) => take limit (sort_bytes ((fun e => e.1 ++ match e.2 with TDir _ => [SLASH] | TFile _ => [] end) <$> entries))
  | _ => []
  end.
(** [None] when the cut is inside a character. *)
Definition read_file_preview (p : bytes) (max_len : nat) : option bytes :=
  match read_to_string (w_fs w) p with
  | None => Some []
  | Some contents => if max_len <? length contents then cut ← slice_to max_len contents; Some (cut ++ lit "...<truncated>") else Some contents
  end.
Definition keyword_char (c : bytes) : bool :=
  match c with [b] => (alnum b || bool_decide (b ∈ lit "._/")) | _ => w_alphanumeric w c end.
Definition keyword_token (t : bytes) : bool := (4 <=? length t) || bool_decide (DOT ∈ t) || bool_decide (SLASH ∈ t).
Definition extract_goal_keywords (g : GoalSpec V) : list bytes :=
  dedup (sort_bytes (gs_requirements g ≫= fun req => filter (fun t => keyword_token t = true) (split_chars (fun c => negb (keyword_char c)) [] (chars req)))).
Definition search_hits (root : bytes) (keywords : list bytes) : nat :=
  list_sum ((fun kw => match w_search w kw root 3 with Some rs => length rs | None => 0 end) <$> take 3 keywords).
Definition build_observe_diagnostics (m : WorkspaceModel) (listing : list bytes) (hits : nat) : list string :=
  str <$> ((if bool_decide (listing = []) then [] else [lit "dir_entries=" ++ join (lit ",") listing]) ++
    [lit "cargo_toml_exists=" ++ fmt_bool (wm_cargo_toml_exists m); lit "repo_initialized=" ++ fmt_bool (wm_repo_initialized m); lit "entrypoint_kind=" ++ entrypoint_str (wm_entrypoint_kind m);
     lit "module_gap_count=" ++ dec (lenN (wm_module_gaps m))] ++
    if hits =? 0 then [] else [lit "search_hit_count=" ++ dec (N.of_nat hits)]).

(** The summary of the workspace; [None] when a hint cannot be cut. *)
Definition observed_summary (m : WorkspaceModel) (errors : list V) : option SemanticStateSummary :=
  ps ← derive_preconditions (Some m) errors;
  hints ← CompilerHints.planner_lines errors;
  let unblocked := bool_decide (ps = []) in
  let class := or_opt (named_class hints) (if unblocked then Some (failure_class_str FcNoActionableFailure) else None) in
  let scope := or_opt (named_scope hints) (if unblocked then Some (scope_str ScopeNone) else None) in
  let graph := default summary_default (read_graph_summary (wm_target_root m)) in
  Some (MkSummary VERSION (wm_path_exists m && wm_cargo_toml_exists m && bool_decide (length (wm_module_gaps m) = 0) && unblocked) (Some (wm_target_root m)) (wm_path_exists m) (wm_repo_initialized m)
    (wm_path_exists m && wm_cargo_toml_exists m) (wm_crate_name m) (Some (entrypoint_str (wm_entrypoint_kind m))) (Some (wm_rust_file_count m)) (wm_source_files m) (gap_line <$> wm_module_gaps m)
    (precondition_lines ps) (repair_intent_lines (derive_repair_intents ps scope)) hints (negb unblocked) (bool_decide (MustFixDeadCodeForbidConflict ∈ ps)) class scope
    (ss_graph_artifact_id graph) (ss_graph_node_count graph) (ss_graph_edge_count graph) (ss_graph_file_count graph) (ss_graph_call_edge_count graph) (ss_graph_module_edge_count graph) (ss_graph_cfg_edge_count graph)).
(** The previews are read, and thrown away. *)
Definition previews (root : bytes) : option (list bytes) :=
  let cargo := join_path root (lit "Cargo.toml") in
  mapM (fun p => read_file_preview p 4000) ((if path_exists (w_fs w) cargo then [cargo] else []) ++ option_list (preferred_entrypoint root)).
Definition build_observation_payload (goal : option string) (workspace : bytes) (errors : list V) : option (SemanticStateSummary * list string) :=
  let text := lit (default ""%string goal) in
  match inspect (V := V) (w_fs w) text workspace with
  | None => Some (summary_default, [])
  | Some m =>
      summary ← observed_summary m errors;
      let root := wm_target_root m in
      let diagnostics := build_observe_diagnostics m (list_dir_entries root 32) (search_hits root (extract_goal_keywords (parse_agent_goal_markdown text))) in
      if negb (wm_path_exists m) then Some (summary, diagnostics) else _ ← previews root; Some (summary, diagnostics)
  end.
Definition observe_execute : M V (LoopStageResult V) :=
  let! c := ctx in
  if bool_decide (lc_last_observed_tick c = Some (lc_current_tick c)) then mret (EmitMany [])
  else
    (if match lc_goal_text c with None => true | Some g => is_placeholder_goal g end then upd (fun c => c <| lc_goal_text := scan_tlog_for_goal |>) else mret tt) ;;!
    let! c := ctx in
    let goal_hash := w_hash_goal w (lc_goal_text c) in
    let! payload := or_panic (build_observation_payload (lc_goal_text c) (lc_workspace c) (lc_recent_compiler_errors c)) "byte index is not a char boundary" in
    let '(summary, diagnostics) := payload in
    upd (fun c => c <| lc_last_observed_tick := Some (lc_current_tick c) |> <| lc_last_observed_error_count := lc_error_count c |> <| lc_last_observed_goal_hash := goal_hash |>
                    <| lc_last_observed_facts_hash := w_hash_facts w summary diagnostics |>) ;;!
    mret (EmitMany [RuntimeEvent.LoopObserved (LoopObserved.mk (lc_current_tick c) (lc_error_count c) (lc_warning_count c) (lc_recent_compiler_errors c) (lc_goal_text c) summary diagnostics)]).
End Observe.

(** ** The stages behind an interface, and their dispatch *)

(** Planning and acting, as the dispatch calls them. *)
Class WorkStages (V : Type) : Type := {
  plan_trigger : World V -> RouteSelected.t -> EventId -> M V (LoopStageResult V);
  plan_complete : World V -> CapabilityCompleted.t V -> EventId -> M V (LoopStageResult V);
  plan_failed : World V -> CapabilityFailed.t -> EventId -> M V (LoopStageResult V);
  act_dispatch : World V -> RouteSelected.t -> EventId -> M V (LoopStageResult V);
  act_complete : World V -> CapabilityCompleted.t V -> EventId -> M V (LoopStageResult V);
  act_failed : World V -> CapabilityFailed.t -> EventId -> M V (LoopStageResult V)
}.

Inductive LoopStageEvent {V : Type} : Type :=
| Scan (rs : RouteSelected.t) | PlanTrigger (rs : RouteSelected.t) | ActDispatch (rs : RouteSelected.t) | VerifyTrigger (rs : RouteSelected.t) | DecomposeRoute (rs : RouteSelected.t)
| ConcludeRoute (rs : RouteSelected.t) | CapabilityDone (c : CapabilityCompleted.t V) | CapabilityFail (f : CapabilityFailed.t) | RewardPolicy (p : VerifierPolicyUpdated.t).
Arguments LoopStageEvent V : clear implicits.

(** [to_lowercase] is the lower case of ASCII as far as the names of the routes
    can tell: no other character has one of their letters for its lower case. *)
Definition stage_of_route {V} (rs : RouteSelected.t) : option (LoopStageEvent V) :=
  let route := to_ascii_lowercase (str (trim (lit (RouteSelected.approved_route rs)))) in
  if String.eqb route "scan" || String.eqb route "observe" then Some (Scan rs)
  else if String.eqb route "plan" then Some (PlanTrigger rs)
  else if String.eqb route "act" then Some (ActDispatch rs)
  else if String.eqb route "verify" then Some (VerifyTrigger rs)
  else if String.eqb route "decompose" then Some (DecomposeRoute rs)
  else if String.eqb route "conclude" || String.eqb route "reward" then Some (ConcludeRoute rs)
  else None.
Definition stage_event {V} (e : RuntimeEvent.t V) : option (LoopStageEvent V) :=
  match e with
  | RuntimeEvent.RouteSelected rs => stage_of_route rs
  | RuntimeEvent.CapabilityCompleted c => Some (CapabilityDone c)
  | RuntimeEvent.CapabilityFailed f => Some (CapabilityFail f)
  | RuntimeEvent.VerifierPolicyUpdated p => Some (RewardPolicy p)
  | _ => None
  end.

Section Dispatch.
Context {V : Type} `{Json V} `{JsonSer V} `{WorkStages V} (w : World V).
(** The next stage is asked when this one has nothing to say. *)
Definition or_stage (m k : M V (LoopStageResult V)) : M V (LoopStageResult V) := let! r := m in if is_noop r then k else mret r.
Definition dispatch_capability_done (c : CapabilityCompleted.t V) (trigger_id : EventId) : M V (LoopStageResult V) :=
  let! x := ctx in
  emit w "dispatch_capability_done" (RuntimeEvent.Debug (DebugEvent.mk "loop_stage_dispatch" "dispatch_capability_done_entry"
    (jobj {[ "scheduler_empty" := jbool (is_empty (lc_scheduler x)); "pending_act" := jbool (bool_decide (is_Some (lc_pending_act x))) ]}))) [trigger_id] ;;!
  or_stage (decompose_complete w c) (or_stage (catch_unwind (plan_complete w c trigger_id) Noop) (catch_unwind (act_complete w c trigger_id) Noop)).
Definition dispatch_capability_fail (f : CapabilityFailed.t) (trigger_id : EventId) : M V (LoopStageResult V) :=
  or_stage (catch_unwind (plan_failed w f trigger_id) Noop) (catch_unwind (act_failed w f trigger_id) Noop).
Definition stage_execute (e : LoopStageEvent V) (trigger_id : EventId) : M V (LoopStageResult V) :=
  match e with
  | Scan _ => observe_execute w
  | PlanTrigger rs => plan_trigger w rs trigger_id
  | ActDispatch rs => act_dispatch w rs trigger_id
  | VerifyTrigger rs => verify_execute w rs
  | DecomposeRoute _ => decompose_execute w trigger_id
  | ConcludeRoute _ => execute_conclude
  | CapabilityDone c => dispatch_capability_done c trigger_id
  | CapabilityFail f => dispatch_capability_fail f trigger_id
  | RewardPolicy p => execute_from_policy p
  end.
End Dispatch.
