(* ===== verification/ActStage.v ===== *)
(** * Acting ([canon-loop/src/stage/act.rs])

    The stage that runs the planned actions: a command, a write or a patch of a
    file becomes a request with its artifacts and waits in [lc_pending_act]
    for its capability; the other kinds run at once.  Failures, timeouts and
    artifacts left pending end a batch. *)
From Stdlib Require Import Floats.SpecFloat.
From stdpp Require Import pretty.
From S2P Require Import Prelude Json Text PatchParser TextFormat Paths Wire SemanticState SemanticText Gatekeeper Objectives Goal LoopPolicy ConstraintEngine ExecConstraints CompilerHints Workspace Preconditions Scheduler EventShape KernelTypes Events EventBus RouteContext Merge LoopContext LoopStages.

(** ** Names *)

(** What follows the last occurrence of [p]. *)
Fixpoint after_last (p l : bytes) : option bytes :=
  match l with [] => None | _ :: l' => match after_last p l' with Some r => Some r | None => strip_prefix p l end end.
Definition strip_suffix (p l : bytes) : option bytes := if ends_with p l && (length p <=? length l) then Some (take (length l - length p) l) else None.
Definition COLONS : bytes := lit "::".
(** The components of a path as they are written. *)
Definition component_names (p : bytes) : list bytes := let '(rooted, names) := components p in (if rooted then [[SLASH]] else []) ++ names.
Definition module_path_from_relative_file (path : string) (module_hint : option string) : string :=
  match module_hint with
  | Some m => if String.prefix "crate::" m then m else "crate::" +:+ m
  | None =>
      let names := component_names (lit path) in
      let segments := match names with first :: rest => if bool_decide (first = lit "src") then rest else names | [] => [] end in
      let filename := default (lit "lib.rs") (last segments) in
      let dirs := filter (fun s => s <> []) (take (length segments - 1) segments) in
      let stem := match strip_suffix (lit ".rs") filename with Some s => if bool_decide (s ∈ [lit "lib"; lit "main"; lit "mod"]) then [] else [s] | None => [] end in
      str (join COLONS ([lit "crate"] ++ dirs ++ stem))
  end.
Definition module_relative_file (module_path : string) : string :=
  let segments := filter (fun s => s <> [] /\ s <> lit "crate") (split_sub COLONS (lit module_path)) in
  match reverse segments with
  | [] => "src/lib.rs"
  | [leaf] => str (lit "src/" ++ leaf ++ lit ".rs")
  | leaf :: front => str (lit "src/" ++ join [SLASH] (reverse front) ++ [SLASH] ++ leaf ++ lit ".rs")
  end.

(** Whether a command may destroy something; [rm] may, unless its last operand
    is written under the workspace. *)
Definition removes (trimmed : bytes) : bool := contains (lit "rm -rf") trimmed || contains (lit "rm -fr") trimmed || contains (lit "rm -r ") trimmed || contains (lit "rm -f ") trimmed.
Definition last_operand (trimmed : bytes) : bytes := default [] (snd <$> list_find (fun part => starts_with (lit "-") part = false) (reverse (split_whitespace trimmed))).
Definition is_potentially_destructive (cmd workspace : bytes) : bool :=
  let trimmed := trim cmd in
  if removes trimmed then
    let target := last_operand trimmed in
    let resolved := if is_absolute target then target else join_path workspace target in
    negb (path_starts_with resolved workspace)
  else contains (lit "git reset --hard") trimmed || contains (lit "git clean -f") trimmed || starts_with (lit "dd ") trimmed || starts_with (lit "mkfs") trimmed || starts_with (lit "shred ") trimmed.

Section Act.
Context {V : Type} `{Json V} `{JsonSer V} (w : World V).
Implicit Types (p : LoopPlanned.t V) (trigger : EventId).

Definition arg (k : string) p : option string := json_get_str k (LoopPlanned.action_payload p).
Definition tool_node_id p : string :=
  match LoopPlanned.action_id p, LoopPlanned.plan_step_id p with
  | Some id, _ => id | None, Some id => id
  | None, None => "tick:" +:+ pretty (LoopPlanned.tick p) +:+ ":" +:+ LoopPlanned.action_kind p
  end.
Definition goal_target (c : LoopContext V) : bytes := default (lc_workspace c) (lc_goal_text c ≫= fun t => gs_target_path (parse_agent_goal_markdown (V := V) (lit t))).
Definition resolve_action_path (path : bytes) (c : LoopContext V) : bytes := if is_absolute path then path else join_path (goal_target c) path.
Definition pending_of p (tool_kind request_id tool_call_id node_id : string) (started_at artifact_n : N) : PendingAct :=
  MkPendingAct (LoopPlanned.tick p) (LoopPlanned.action_kind p) tool_kind request_id tool_call_id node_id started_at (LoopPlanned.trace_id p) (LoopPlanned.execution_id p) (LoopPlanned.span_id p)
    (LoopPlanned.plan_id p) (LoopPlanned.plan_step_id p) (LoopPlanned.action_id p) artifact_n (LoopPlanned.llm_request_id p).

(** ** Events *)

Definition act_debug (kind : string) (payload : V) : RuntimeEvent.t V := RuntimeEvent.Debug (DebugEvent.mk "act_stage" kind payload).
Definition emit_missing_args (reason : string) : RuntimeEvent.t V := act_debug "loop_acted_blocked_missing_args" (jsingle "reason" (jstr reason)).
Definition violation (kind : string) : RuntimeEvent.t V := act_debug kind (jsingle "semantic_violation" (jbool true)).
(** A [debug_assert!(false)]. *)
Definition debug_assert_fails (msg : string) : M V unit := if w_debug_assertions w then panic msg else mret tt.
Definition emit_conflict (agent action path : string) : M V (RuntimeEvent.t V) :=
  debug_assert_fails "[ACT][INVARIANT] suppressed loop_acted from conflict path" ;;!
  mret (act_debug "conflict_suppressed" (jobj {[ "agent" := jstr agent; "action" := jstr action; "path" := jstr path; "reason" := jstr "non-actionable conflict" ]})).
Definition emit_acted (a : PendingAct) (stdout stderr : string) (exit_code : option Z) (duration_ms : N) (success : bool) (tool_result_id : option string) : M V (RuntimeEvent.t V) :=
  match tool_result_id with
  | None => mret (act_debug "loop_acted_blocked_no_tool_result" (jsingle "reason" (jstr "no_tool_result_id")))
  | Some _ =>
      let! span := uuid w in
      mret (RuntimeEvent.LoopActed (LoopActed.mk (pa_tick a) (pa_action_kind a) (pa_request_id a) (Some (pa_tool_call_id a)) tool_result_id stdout stderr exit_code duration_ms success
        (pa_trace_id a) (pa_execution_id a) (Some span) (pa_parent_span_id a) (pa_plan_id a) (pa_plan_step_id a) (pa_action_id a)))
  end.
Definition inline_tool_result (kind node_id : string) (output : V) (success : bool) : M V (RuntimeEvent.t V * string) :=
  let! tool_result_id := uuid w in
  let! tool_call_id := uuid w in
  let! request_id := uuid w in
  mret (RuntimeEvent.ToolResult (ToolResult.mk node_id tool_call_id tool_result_id request_id kind output success), tool_result_id).

(** ** Artifacts *)

Definition jfields (l : list (string * V)) : V := jobj (list_to_map l).
Definition rows_of (content : option (option V)) : list V :=
  match content with
  | Some (Some v) => match json_view v with VArray l => l | VNull => [] | _ => [v] end
  | _ => []
  end.
Definition read_artifact_rows (name : string) : M V (list V) := gets (fun s => rows_of (dir_lookup name (sg_dir s))).
Definition append_tool_artifact (n : N) (suffix : string) (value : V) : M V unit :=
  let name := artifact_name n suffix in let! rows := read_artifact_rows name in write_json name (jarr (rows ++ [value])).
Fixpoint replace_row (key : string) (value : V) (rows : list V) : option (list V) :=
  match rows with
  | [] => None
  | r :: rs => if bool_decide (json_get_str "tool_call_id" r = Some key) then Some (value :: rs) else cons r <$> replace_row key value rs
  end.
Definition upsert_tool_result_artifact (n : N) (value : V) : M V unit :=
  let name := artifact_name n "tool_results" in
  let! rows := read_artifact_rows name in
  write_json name (jarr (default (rows ++ [value]) (json_get_str "tool_call_id" value ≫= fun key => replace_row key value rows))).
Definition state_updated : RuntimeEvent.t V := RuntimeEvent.RuntimeStateUpdated (RuntimeStateUpdated.mk (jsingle "workspace_dirty" (jbool false))).
Definition write_tool_call_artifact (n : N) (kind node_id tool_call_id request_id : string) (payload : V) : M V (RuntimeEvent.t V) :=
  let! t := now w in
  append_tool_artifact n "tool_call" (jfields [("n", to_value n); ("status", jstr "dispatched"); ("dispatched_ms", to_value t); ("action_id", jstr node_id); ("kind", jstr kind); ("node_id", jstr node_id);
    ("tool_call_id", jstr tool_call_id); ("request_id", jstr request_id); ("payload", payload)]) ;;!
  mret state_updated.
Definition write_tool_result_pending_artifact (n : N) p (kind node_id tool_call_id request_id : string) : M V (RuntimeEvent.t V) :=
  let! t := now w in
  upsert_tool_result_artifact n (jfields [("n", to_value n); ("status", jstr "pending"); ("dispatched_ms", to_value t); ("tick", to_value (LoopPlanned.tick p)); ("action_kind", jstr (LoopPlanned.action_kind p));
    ("trace_id", to_value (LoopPlanned.trace_id p)); ("execution_id", to_value (LoopPlanned.execution_id p)); ("parent_span_id", to_value (LoopPlanned.span_id p)); ("plan_id", to_value (LoopPlanned.plan_id p));
    ("plan_step_id", to_value (LoopPlanned.plan_step_id p)); ("action_id", to_value (LoopPlanned.action_id p)); ("llm_request_id", to_value (LoopPlanned.llm_request_id p)); ("kind", jstr kind);
    ("node_id", jstr node_id); ("tool_call_id", jstr tool_call_id); ("request_id", jstr request_id); ("success", jbool false); ("output", jsingle "status" (jstr "pending"))]) ;;!
  mret state_updated.
Definition write_tool_result_artifact (a : PendingAct) (tool_result_id : string) (output : V) (success : bool) : M V unit :=
  let! t := now w in
  let! t' := now w in
  upsert_tool_result_artifact (pa_artifact_n a) (jfields [("n", to_value (pa_artifact_n a)); ("status", jstr (if success then "completed" else "failed")); ("dispatched_ms", to_value t); ("finalized_ms", to_value t');
    ("tick", to_value (pa_tick a)); ("action_kind", jstr (pa_action_kind a)); ("trace_id", to_value (pa_trace_id a)); ("execution_id", to_value (pa_execution_id a)); ("parent_span_id", to_value (pa_parent_span_id a));
    ("plan_id", to_value (pa_plan_id a)); ("plan_step_id", to_value (pa_plan_step_id a)); ("action_id", to_value (pa_action_id a)); ("kind", jstr (pa_tool_kind a)); ("node_id", jstr (pa_node_id a));
    ("tool_call_id", jstr (pa_tool_call_id a)); ("tool_result_id", jstr tool_result_id); ("request_id", jstr (pa_request_id a)); ("success", jbool success); ("output", output)]).
Definition emit_tool_result (a : PendingAct) (tool_result_id : string) (output : CapabilityResult V) (success : bool) : M V (RuntimeEvent.t V) :=
  let out := to_value output in
  write_tool_result_artifact a tool_result_id out success ;;!
  mret (RuntimeEvent.ToolResult (ToolResult.mk (pa_node_id a) (pa_tool_call_id a) tool_result_id (pa_request_id a) (pa_tool_kind a) out success)).

(** ** Actions that wait for a capability *)

(** The request of an action: its artifacts, the call, the [command] event and
    the wait. *)
Definition request_tool p (tool_kind : string) (payload : V) (before : list (RuntimeEvent.t V)) (command : string -> RuntimeEvent.t V) : M V (LoopStageResult V) :=
  let! request_id := uuid w in
  let! tool_call_id := uuid w in
  let node_id := tool_node_id p in
  let! n := artifact_index_for_plan p in
  clear_cached_artifact_index_for_plan p ;;!
  mark_batch_dispatched w p ;;!
  let! e1 := write_tool_call_artifact n tool_kind node_id tool_call_id request_id payload in
  let! e2 := write_tool_result_pending_artifact n p tool_kind node_id tool_call_id request_id in
  let! started := now w in
  upd (fun c => c <| lc_pending_act := Some (pending_of p tool_kind request_id tool_call_id node_id started n) |>) ;;!
  mret (EmitMany (before ++ [e1; e2; RuntimeEvent.ToolCall (ToolCall.mk node_id tool_call_id request_id tool_kind payload true); command request_id])).
Definition refuse p (reason : string) : M V (LoopStageResult V) := mark_batch_inline_completion w p false ;;! mret (Emit (emit_missing_args reason)).
Definition FORBIDDEN : string := "act stage must not emit RuntimeEvent directly; routing/emission must be driven by SemanticStateSummary via canonical pipeline".
Definition render_exec_action (a : ExecAction) : V :=
  match a with
  | RunCommand cmd cwd => jobj {[ "action_kind" := jstr "run_command"; "cmd" := jstr (str cmd); "cwd" := jstr (str cwd) ]}
  | OtherAction kind => jsingle "action_kind" (jstr kind)
  end.
(** A command as the constraints leave it, with the event of a rewrite. *)
Definition constrain p (cmd cwd : bytes) : M V (bytes * bytes * list (RuntimeEvent.t V)) :=
  let! c := ctx in
  let summary := default summary_default (semantic_of c) in
  let state := exec_state_of_summary (path_exists (w_fs w)) (default cwd (ss_target_root summary)) summary in
  let reject := mark_batch_inline_completion w p false ;;! panic FORBIDDEN in
  match validate_exec_action state (RunCommand cmd cwd) with
  | ExecAllow => mret (cmd, cwd, [])
  | ExecForbid _ => reject
  | ExecRewrite rewritten reason =>
      match rewritten with
      | RunCommand cmd' cwd' =>
          mret (cmd', cwd', [act_debug "exec_constraint_rewrite" (decision_trace_payload reason
            (jobj {[ "original_action_kind" := jstr (LoopPlanned.action_kind p); "original_payload" := LoopPlanned.action_payload p; "rewritten_action" := render_exec_action rewritten; "target_root" := jstr (str cwd) ]}))])
      | OtherAction _ => reject
      end
  end.
Definition run_command p trigger : M V (LoopStageResult V) :=
  match arg "cmd" p with
  | None =>
      mark_batch_inline_completion w p false ;;!
      let! id := uuid w in
      mret (Emit (RuntimeEvent.ErrorOccurred (new_error_occurred "missing_args" "act_stage" "missing_cmd" "warning" (jsingle "action_kind" (jstr (LoopPlanned.action_kind p))) None id)))
  | Some cmd =>
      let! checked := constrain p (lit cmd) (lit (default "."%string (arg "cwd" p))) in
      let '(cmd, cwd, before) := checked in
      let! c := ctx in
      (if is_potentially_destructive cmd (lc_workspace c) then
         match lc_destructive_cmd_policy c with
         | PolicyBlock => mark_batch_inline_completion w p false ;;! panic FORBIDDEN
         | PolicyWarn =>
             emit w "act::dispatch_plan" (RuntimeEvent.Debug (DebugEvent.mk "act_consumer" "destructive_command_warning"
               (jobj {[ "cmd" := jstr (str cmd); "policy" := jstr (policy_str PolicyWarn); "action_id" := to_value (LoopPlanned.action_id p) ]}))) [trigger]
         | PolicyAllow => mret tt
         end
       else mret tt) ;;!
      request_tool p "bash" (jobj {[ "cmd" := jstr (str cmd); "cwd" := jstr (str cwd) ]}) before (fun id => RuntimeEvent.Bash (BashInvoke.mk id (str cmd) (Some (str cwd)) true))
  end.
Definition write_action_key p : string := default (tool_node_id p) (LoopPlanned.action_id p).
(** The paths are claimed one by one; the first conflict ends the action, with
    the earlier claims kept. *)
Fixpoint claim_all p (paths : list bytes) : M V (option (string * string * bytes)) :=
  match paths with
  | [] => mret None
  | path :: rest =>
      let! c := ctx in
      match claim path "orchestrator" (write_action_key p) (lc_file_write_tracker c) with
      | (t, None) => upd (fun c => c <| lc_file_write_tracker := t |>) ;;! claim_all p rest
      | (_, Some (agent, action)) => mret (Some (agent, action, path))
      end
  end.
Definition conflict_result p (x : string * string * bytes) : M V (LoopStageResult V) :=
  let '(agent, action, path) := x in mark_batch_inline_completion w p false ;;! let! e := emit_conflict agent action (str path) in mret (Emit e).
Definition record_paths p (paths : list bytes) : M V unit := upd (fun c => c <| lc_write_paths_by_action ::= <[ write_action_key p := paths ]> |>).
Definition write_file p : M V (LoopStageResult V) :=
  match arg "path" p, arg "content" p with
  | Some path, Some content =>
      let! c := ctx in
      let resolved := resolve_action_path (lit path) c in
      let! conflict := claim_all p [resolved] in
      match conflict with
      | Some x => conflict_result p x
      | None =>
          record_paths p [resolved] ;;!
          request_tool p "file.write" (jobj {[ "path" := jstr path; "content" := jstr content ]}) [] (fun id => RuntimeEvent.File (FileEvent.Write (FileWrite.mk id path content true)))
      end
  | _, _ => refuse p "missing_path_or_content"
  end.
Definition patch_file p : M V (LoopStageResult V) :=
  match arg "path" p, arg "old" p, arg "new" p with
  | Some path, Some old, Some new =>
      request_tool p "file.patch" (jobj {[ "path" := jstr path; "old" := jstr old; "new" := jstr new ]}) [] (fun id => RuntimeEvent.File (FileEvent.Patch (FilePatch.mk id path old new true)))
  | _, _, _ => refuse p "missing_patch_args"
  end.

(** ** Actions that run at once *)

Definition ACTION_NEWLINE : string := str [x0a].
(** The end of an action that ran: its batch, its result and what was acted. *)
Definition ran p (started duration_ms : N) (stdout stderr : string) (success : bool) (output : V) : M V (list (RuntimeEvent.t V)) :=
  let kind := LoopPlanned.action_kind p in
  let node_id := tool_node_id p in
  mark_batch_inline_completion w p success ;;!
  let! result := inline_tool_result kind node_id output success in
  let! acted := emit_acted (pending_of p kind "" "" node_id started 0) stdout stderr None duration_ms success (Some result.2) in
  mret [result.1; acted].
Definition done_action p : M V (LoopStageResult V) :=
  mark_batch_inline_completion w p true ;;!
  let! started := now w in
  let! e := emit_acted (pending_of p "" "" "" "" started 0) "" "" None 0 true None in
  mret (Emit e).
Definition apply_patch_action p : M V (LoopStageResult V) :=
  match arg "patch" p with
  | None => refuse p "missing_patch_body"
  | Some patch =>
      let! c := ctx in
      let cwd := goal_target c in
      let touched := (fun q => if is_absolute q then q else join_path cwd q) <$> extract_written_paths "apply_patch" (LoopPlanned.action_payload p) in
      let! conflict := claim_all p touched in
      match conflict with
      | Some x => conflict_result p x
      | None =>
          (if bool_decide (touched = []) then mret tt else record_paths p touched) ;;!
          let! started := now w in
          let result := w_apply_patch w (lit patch) cwd in
          let! duration := elapsed w started in
          let success := match result with Ok _ => true | Err _ => false end in
          let stdout := match result with
            | Ok (added, modified, deleted) => "apply_patch ok: added " +:+ pretty (N.of_nat added) +:+ " modified " +:+ pretty (N.of_nat modified) +:+ " deleted " +:+ pretty (N.of_nat deleted)
            | Err e => "apply_patch failed: " +:+ e
            end in
          let! es := ran p started duration stdout "" success (jobj {[ "stdout" := jstr stdout; "stderr" := jstr ""; "duration_ms" := to_value duration;
            "touched_paths" := jarr (jstr <$> (str <$> touched)); "success" := jbool success ]}) in
          mret (EmitMany es)
      end
  end.

(** *** Edits of the source, with their proof on the graph *)

Record GraphProofOutcome := MkOutcome { gp_verified : bool; gp_summary : string; gp_artifact_id : option string; gp_failures : list string }.
Definition semantic_graph_expectations p : list GraphProofExpectation :=
  let kind := LoopPlanned.action_kind p in
  if String.eqb kind "edit.rename_symbol" then match arg "old" p, arg "new" p, arg "path" p with Some old, Some new, Some path => [ExpectRename old new path] | _, _, _ => [] end
  else if String.eqb kind "edit.move_symbol" then
    match arg "symbol_id" p, arg "new_module_path" p with
    | Some old, Some m => [ExpectMove old (m +:+ "::" +:+ str (default (lit old) (after_last COLONS (lit old)))) m (module_relative_file m)]
    | _, _ => []
    end
  else if String.eqb kind "edit.add_import" then match arg "import" p, arg "path" p with Some i, Some path => [ExpectImport i path] | _, _ => [] end
  else if String.eqb kind "edit.create_module_file" then match arg "path" p with Some path => [ExpectCreateModule (module_path_from_relative_file path (arg "module" p)) path] | None => [] end
  else [].
Definition run_semantic_graph_proof (project : bytes) p : GraphProofOutcome :=
  match w_cargo_check w project with
  | Err err => MkOutcome false ("graph refresh failed: " +:+ err) None ["cargo check invocation failed: " +:+ err]
  | Ok (false, stderr) => MkOutcome false "graph refresh failed after semantic action" None [str (trim (lit stderr))]
  | Ok (true, _) =>
      match w_graph_proof w project (semantic_graph_expectations p) with
      | Ok r => MkOutcome (pr_verified r) (pr_summary r) (pr_artifact_id r) (pr_failures r)
      | Err err => MkOutcome false ("graph proof failed to execute: " +:+ err) None [err]
      end
  end.
Definition join_lines (l : list string) : string := str (join [x0a] (lit <$> l)).
Definition proof_debug_event p (project : bytes) (o : GraphProofOutcome) : RuntimeEvent.t V :=
  act_debug (if gp_verified o then "semantic_graph_proof_verified" else "semantic_graph_proof_failed")
    (decision_trace_payload (gp_summary o) (jobj {[ "action_kind" := jstr (LoopPlanned.action_kind p); "project" := jstr (str project); "artifact_id" := to_value (gp_artifact_id o); "failures" := to_value (gp_failures o) ]})).
Definition proof_events p (project : bytes) (proof : option GraphProofOutcome) : M V (list (RuntimeEvent.t V)) :=
  match proof with
  | None => mret []
  | Some o =>
      if gp_verified o then mret [proof_debug_event p project o]
      else
        let! id := uuid w in
        mret [proof_debug_event p project o; RuntimeEvent.ErrorOccurred (new_error_occurred "semantic_graph_proof_failed" "act_stage" (join_lines (gp_failures o)) "error"
          (jobj {[ "action_kind" := jstr (LoopPlanned.action_kind p); "artifact_id" := to_value (gp_artifact_id o) ]}) None id)]
  end.
(** An edit that reports [report] (after [proves], its proof on the graph) and
    prints [message]. *)
Definition edit_action p (tool : bytes -> EditReport) (proves : bool) (message : EditReport -> string) (fields : list (string * V)) : M V (LoopStageResult V) :=
  let! c := ctx in
  let project := default (lc_workspace c) (lit <$> arg "project" p) in
  let! started := now w in
  let report := tool project in
  let! duration := elapsed w started in
  let applied := bool_decide (ed_error report = None) in
  let proof := if applied && proves then Some (run_semantic_graph_proof project p) else None in
  let success := applied && match proof with Some o => gp_verified o | None => true end in
  let stdout := if success then message report +:+ match proof with Some o => ACTION_NEWLINE +:+ gp_summary o | None => ""%string end else ""%string in
  let stderr := match ed_error report, proof with Some e, _ => e | None, Some o => if gp_verified o then ""%string else join_lines (gp_failures o) | None, None => ""%string end in
  let! es := ran p started duration stdout stderr success (jfields ([("stdout"%string, jstr stdout); ("stderr"%string, jstr stderr); ("duration_ms"%string, to_value duration); ("success"%string, jbool success)] ++ fields)) in
  let! ps := proof_events p project proof in
  mret (EmitMany (es ++ ps)).
Definition with_defs (r : EditReport) : string := if bool_decide (ed_def_paths r = []) then ""%string else ACTION_NEWLINE +:+ join_lines (ed_def_paths r).
Definition rename_symbol p : M V (LoopStageResult V) :=
  match arg "old" p, arg "new" p with
  | Some old, Some new => edit_action p (fun project => w_rename_symbol w project old new) true (fun r => "rename_symbol ok: " +:+ old +:+ " -> " +:+ new +:+ with_defs r) [("old"%string, jstr old); ("new"%string, jstr new)]
  | _, _ => refuse p "missing_rename_args"
  end.
Definition move_symbol p : M V (LoopStageResult V) :=
  match arg "symbol_id" p, arg "new_module_path" p with
  | Some id, Some m =>
      edit_action p (fun project => w_move_symbol w project id m) true (fun r => "move_symbol ok: " +:+ id +:+ " -> " +:+ m +:+ with_defs r) [("symbol_id"%string, jstr id); ("new_module_path"%string, jstr m)]
  | _, _ => refuse p "missing_move_symbol_args"
  end.
Definition add_import p : M V (LoopStageResult V) :=
  match arg "import" p, arg "path" p with
  | Some i, Some path => edit_action p (fun project => w_add_import w project path i) true (fun _ => "add_import ok: " +:+ i +:+ " -> " +:+ path) [("import"%string, jstr i); ("path"%string, jstr path)]
  | _, _ => refuse p "missing_add_import_args"
  end.
Definition define_symbol_stub p : M V (LoopStageResult V) :=
  let kind := default "fn"%string (arg "kind" p) in
  match arg "symbol" p, arg "path" p with
  | Some symbol, Some path =>
      edit_action p (fun project => w_define_stub w project path symbol kind) false (fun _ => "define_symbol_stub ok: " +:+ symbol +:+ " (" +:+ kind +:+ ") -> " +:+ path)
        [("symbol"%string, jstr symbol); ("kind"%string, jstr kind); ("path"%string, jstr path)]
  | _, _ => refuse p "missing_define_symbol_stub_args"
  end.
Definition create_module_file p : M V (LoopStageResult V) :=
  match arg "path" p with
  | Some path =>
      edit_action p (fun project => w_create_module w project path (arg "module" p)) true (fun _ => "create_module_file ok: " +:+ path) [("path"%string, jstr path); ("module"%string, to_value (arg "module" p))]
  | None => refuse p "missing_create_module_file_args"
  end.

(** *** Reading *)

Definition display_header (path : bytes) : bytes := lit "=== " ++ path ++ lit " ===".
Definition read_outcome p (path : bytes) (started : N) (out : option bytes) (failure : string) : M V (LoopStageResult V) :=
  let success := bool_decide (is_Some out) in
  let stdout := str (default [] out) in
  let stderr := if success then ""%string else failure +:+ str path in
  let! duration := elapsed w started in
  let! es := ran p started duration stdout stderr success (jobj {[ "path" := jstr (str path); "stdout" := jstr stdout; "stderr" := jstr stderr; "duration_ms" := to_value duration; "success" := jbool success ]}) in
  mret (EmitMany es).
(** [None] when byte 8000 is inside a character. *)
Definition clip (content : bytes) : option bytes :=
  if 8000 <? length content then cut ← slice_to 8000 content; Some (cut ++ [x0a] ++ lit "... <truncated, " ++ dec (lenN content) ++ lit " bytes total>") else Some content.
Definition read_file p : M V (LoopStageResult V) :=
  match arg "path" p with
  | None => refuse p "missing_path"
  | Some path =>
      let! c := ctx in
      let path := resolve_action_path (lit path) c in
      let! started := now w in
      let! out := match read_to_string (w_fs w) path with
        | Some content => let! clipped := or_panic (clip content) "byte index is not a char boundary" in mret (Some (display_header path ++ [x0a] ++ clipped))
        | None => mret None
        end in
      read_outcome p path started out "read_file failed: "
  end.
Definition list_dir p : M V (LoopStageResult V) :=
  let! c := ctx in
  let path := resolve_action_path (lit (default "."%string (arg "path" p))) c in
  let! started := now w in
  let out := match w_fs w path with
    | Some (TDir entries) => Some (join [x0a] (display_header path :: sort_bytes ((fun e => e.1 ++ match e.2 with TDir _ => [SLASH] | TFile _ => [] end) <$> entries)))
    | _ => None
    end in
  read_outcome p path started out "list_dir failed: ".

Definition dispatch_plan p trigger : M V (LoopStageResult V) :=
  let kind := LoopPlanned.action_kind p in
  if String.eqb kind "no_op" || String.eqb kind "done" then done_action p
  else if String.eqb kind "run_command" then run_command p trigger
  else if String.eqb kind "write_file" then write_file p
  else if String.eqb kind "patch_file" then patch_file p
  else if String.eqb kind "apply_patch" then apply_patch_action p
  else if String.eqb kind "edit.rename_symbol" then rename_symbol p
  else if String.eqb kind "edit.move_symbol" then move_symbol p
  else if String.eqb kind "edit.add_import" then add_import p
  else if String.eqb kind "edit.define_symbol_stub" then define_symbol_stub p
  else if String.eqb kind "edit.create_module_file" then create_module_file p
  else if String.eqb kind "read_file" then read_file p
  else if String.eqb kind "list_dir" then list_dir p
  else refuse p "unknown_action_kind".

(** ** The stage *)

Definition emit_act_stall trigger (reason : string) : M V unit :=
  let! c := ctx in
  emit w "emit_act_stall" (act_debug "act_suppressed" (decision_trace_payload "act dispatch returned noop"
    (jobj {[ "reason" := jstr reason; "pending_act_present" := jbool (bool_decide (is_Some (lc_pending_act c))); "active_batch_llm_request_id" := to_value (lc_active_batch_llm_request_id c);
             "last_action_kind" := jstr (lc_last_action_kind c) ]}))) [trigger].
Definition next_task : M V (option (Task (P := LoopPlanned.t V))) :=
  let! c := ctx in
  let '(s, t) := match lc_active_batch_llm_request_id c with Some id => pop_for_llm (Some id) (lc_scheduler c) | None => pop_any (lc_scheduler c) end in
  upd (fun c => c <| lc_scheduler := s |>) ;;! mret t.
Definition execute_dispatch trigger : M V (LoopStageResult V) :=
  let! c := ctx in
  (if bool_decide (is_Some (lc_pending_act c)) then emit_act_stall trigger "pending_act already present; telemetry only" else mret tt) ;;!
  let! task := next_task in
  match task with
  | None =>
      upd (fun c => c <| lc_active_batch_llm_request_id := None |>) ;;!
      mret (Emit (act_debug "act_bootstrap" (jsingle "reason" (jstr "no_task_available"))))
  | Some t =>
      upd (fun c => c <| lc_active_batch_llm_request_id := LoopPlanned.llm_request_id (plan t) |>) ;;!
      let! r := dispatch_plan (plan t) trigger in
      let! _ := observe_execute (after_tools w) in
      mret r
  end.

Definition pending_state_payload (c : LoopContext V) : V := jobj {[ "scheduler_empty" := jbool (is_empty (lc_scheduler c)); "pending_act" := jbool (bool_decide (is_Some (lc_pending_act c))) ]}.
Definition extract_result_fields (r : CapabilityResult V) (started_at : N) : M V (string * string * option Z * N * bool) :=
  match r with
  | Process q => let! d := elapsed w started_at in mret (Events.stdout q, Events.stderr q, Some (status q), d, Events.pr_success q)
  | LlmOut l => mret (w_to_text w (response l), ""%string, None, lr_duration_ms l, lr_success l)
  | Empty => let! d := elapsed w started_at in mret (""%string, ""%string, None, d, true)
  end.
Definition execute_complete (k : CapabilityCompleted.t V) trigger : M V (LoopStageResult V) :=
  let! c := ctx in
  emit w "act::execute_complete" (act_debug "act_preconditions" (pending_state_payload c)) [trigger] ;;!
  match lc_pending_act c with
  | None =>
      emit w "act::execute_complete" (act_debug "execute_complete_skipped_invalid_state" (jsingle "reason" (jstr "no_pending_act"))) [trigger] ;;!
      mret (Emit (violation "execute_complete_no_pending_act"))
  | Some a =>
      if negb (String.eqb (pa_request_id a) (CapabilityCompleted.request_id k)) then mret (Emit (violation "pending_act_mismatch_telemetry"))
      else
        upd (fun c => c <| lc_pending_act := None |>) ;;!
        let! fields := extract_result_fields (CapabilityCompleted.result k) (pa_started_at a) in
        let '(out, err, code, duration, success) := fields in
        let! id := uuid w in
        let! tool_event := emit_tool_result a id (CapabilityCompleted.result k) success in
        mark_batch_completion w (pa_llm_request_id a) success ;;!
        let! acted := emit_acted a out err code duration success (Some id) in
        mret (Emit (if success || negb (String.eqb out "") || negb (String.eqb err "") then acted else tool_event))
  end.

(** The tasks of the active batch are skipped; every step takes one task. *)
Fixpoint abort_tasks (fuel : nat) : M V (list (RuntimeEvent.t V)) :=
  match fuel with
  | 0 => mret []
  | S f =>
      let! c := ctx in
      match lc_active_batch_llm_request_id c with
      | None => mret []
      | Some id =>
          let '(s, t) := pop_for_llm (Some id) (lc_scheduler c) in
          upd (fun c => c <| lc_scheduler := s |>) ;;!
          match t with
          | None => mret []
          | Some t => mark_batch_inline_completion w (plan t) false ;;! let! rest := abort_tasks f in mret (emit_missing_args "skipped:batch_aborted" :: rest)
          end
      end
  end.
Definition abort_active_batch : M V (list (RuntimeEvent.t V)) :=
  let! c := ctx in
  let! es := abort_tasks (S (queue_len (lc_scheduler c))) in
  upd (fun c => c <| lc_active_batch_llm_request_id := None |>) ;;! mret es.
Definition process_failure (stderr : string) : CapabilityResult V := Process (MkProcess (-1) false "" stderr).
Definition execute_failed (f : CapabilityFailed.t) : M V (LoopStageResult V) :=
  let! c := ctx in
  match lc_pending_act c with
  | None => mret (Emit (violation "pending_act_missing_telemetry"))
  | Some a =>
      if negb (String.eqb (pa_request_id a) (CapabilityFailed.request_id f)) then mret (Emit (violation "pending_act_failed_mismatch_telemetry"))
      else
        upd (fun c => c <| lc_pending_act := None |>) ;;!
        let! duration := elapsed w (pa_started_at a) in
        let! id := uuid w in
        let error := CapabilityFailed.error f in
        let! tool_event := emit_tool_result a id (process_failure error) false in
        mark_batch_completion w (pa_llm_request_id a) false ;;!
        let! acted := if String.eqb error "" then debug_assert_fails "[ACT] suppressed loop_acted due to non-actionable failure path" ;;! mret []
          else let! e := emit_acted a "" error None duration false (Some id) in mret [e] in
        let! skipped := if String.eqb (pa_action_kind a) "run_command" then abort_active_batch else upd (fun c => c <| lc_active_batch_llm_request_id := None |>) ;;! mret [] in
        mret (EmitMany (tool_event :: acted ++ skipped))
  end.

(** ** Timeouts *)

Definition check_act_timeout : M V (list (RuntimeEvent.t V)) :=
  let! c := ctx in
  match lc_pending_act c with
  | None => mret []
  | Some a =>
      let! age := elapsed w (pa_started_at a) in
      if (age <=? 30000)%N then mret []
      else
        upd (fun c => c <| lc_pending_act := None |>) ;;!
        let! id := uuid w in
        let! tool_event := emit_tool_result a id (process_failure "timeout") false in
        mark_batch_completion w (pa_llm_request_id a) false ;;!
        let! acted := emit_acted a "" "timeout" None 30000 false (Some id) in
        let! skipped := if String.eqb (pa_action_kind a) "run_command" then abort_active_batch else mret [] in
        mret (tool_event :: acted :: skipped)
  end.

Definition pending_timeout_ms : N := default 5000%N (w_pending_timeout w ≫= parse_uint u64_max).
Definition row_str (k : string) (row : V) : string := default ""%string (json_get_str k row).
Definition set_fields (row : V) (l : list (string * V)) : V := match json_view row with VObject m => jobj (foldl (fun m kv => <[ kv.1 := kv.2 ]> m) m l) | _ => row end.
(** A row that has been pending for too long: the failed row and its event. *)
Definition stale (now_ms : N) (row : V) : bool :=
  bool_decide (json_get_str "status" row = Some "pending"%string)
  && (pending_timeout_ms <=? now_ms - default now_ms (json_get "dispatched_ms" row ≫= json_as_u64))%N
  && forallb (fun k => negb (String.eqb (row_str k row) "")) ["tool_call_id"; "request_id"; "kind"; "node_id"]%string.
Definition fail_row (now_ms : N) (row : V) : M V (V * list (RuntimeEvent.t V)) :=
  if stale now_ms row then
    let! id := uuid w in
    let error := jsingle "error" (jstr "aborted_or_timeout") in
    mark_batch_completion w (json_get_str "llm_request_id" row) false ;;!
    mret (set_fields row [("status"%string, jstr "failed"); ("finalized_ms"%string, to_value now_ms); ("tool_result_id"%string, jstr id); ("success"%string, jbool false); ("output"%string, error)],
          [RuntimeEvent.ToolResult (ToolResult.mk (row_str "node_id" row) (row_str "tool_call_id" row) id (row_str "request_id" row) (row_str "kind" row) error false)])
  else mret (row, []).
Fixpoint fail_rows (now_ms : N) (rows : list V) : M V (list V * list (RuntimeEvent.t V)) :=
  match rows with
  | [] => mret ([], [])
  | r :: rs => let! x := fail_row now_ms r in let! y := fail_rows now_ms rs in mret (x.1 :: y.1, x.2 ++ y.2)
  end.
Fixpoint reconcile_files (now_ms : N) (names : list string) : M V (list (RuntimeEvent.t V)) :=
  match names with
  | [] => mret []
  | name :: rest =>
      let! es := if ends_with (lit "_tool_results.json") (lit name) then
          let! rows := read_artifact_rows name in
          let! x := fail_rows now_ms rows in
          (if bool_decide (length x.2 = 0) then mret tt else write_json name (jarr x.1)) ;;! mret x.2
        else mret [] in
      let! es' := reconcile_files now_ms rest in
      mret (es ++ es')
  end.
Definition reconcile_stale_pending_artifacts : M V (list (RuntimeEvent.t V)) :=
  let! c := ctx in
  let! recent := (match lc_last_act_reconcile c with Some t => let! age := elapsed w t in mret (age <? 10000)%N | None => mret false end : M V bool) in
  if (recent : bool) then mret []
  else
    let! t := now w in
    upd (fun c => c <| lc_last_act_reconcile := Some t |>) ;;!
    let! now_ms := now w in
    let! d := gets sg_dir in
    let! es := reconcile_files now_ms d.*1 in
    (if bool_decide (length es = 0) then mret tt else upd (fun c => c <| lc_active_batch_llm_request_id := peek_llm_request_id (lc_scheduler c) |>)) ;;!
    mret es.
End Act.
