(* ===== verification/LoopExecutor.v ===== *)
(** * The loop executor ([canon-loop/src/executor.rs])

    The consumer that turns events into stages: every handler, the rules that
    decide whether to observe, and the execution of the stage of an event. *)
From Stdlib Require Import Floats.SpecFloat.
From stdpp Require Import pretty.
From S2P Require Import Prelude Json Text PatchParser TextFormat Paths Wire SemanticState SemanticText Gatekeeper Objectives Goal LoopPolicy ConstraintEngine ExecConstraints CompilerHints Workspace Preconditions Scheduler EventShape KernelTypes Events EventBus RouteContext Merge LoopContext LoopStages ActStage.

(** The [Debug] text of a decision. *)
Definition route_text (r : ConstraintRoute) : string := match r with Observe => "Observe" | Plan => "Plan" | Act => "Act" | Verify => "Verify" | Conclude => "Conclude" end.
Definition action_text (a : ConstraintAction) : string :=
  match a with CargoInit => "CargoInit" | CargoNew => "CargoNew" | RepairLocalized => "RepairLocalized" | RepairWorkspace => "RepairWorkspace" | Validation => "Validation" | Other => "Other" end.
Definition decision_debug (d : ConstraintDecision) : string :=
  match d with
  | ConstraintEngine.Allow => "Allow"
  | Forbid r => quoted "Forbid(~" +:+ r +:+ quoted "~)"
  | RewriteAction a r => "RewriteAction(" +:+ action_text a +:+ quoted ", ~" +:+ r +:+ quoted "~)"
  | RewriteRoute x r => "RewriteRoute(" +:+ route_text x +:+ quoted ", ~" +:+ r +:+ quoted "~)"
  end.
(** [f32 as f64]. *)
Definition f64_of_f32 (x : f32) : f64 := match x with S754_finite s m e => binary_normalize 53 1024 (if s then Zneg m else Zpos m) e s | _ => x end.
Definition text_of_bool (b : bool) : string := if b then "true" else "false".

Section Executor.
Context {V : Type} `{Json V} `{JsonSer V} `{WorkStages V} (w : World V).
Implicit Types (trigger : EventId) (e : RuntimeEvent.t V).

(** ** Emissions *)

Definition emit_debug trigger (kind reason : string) (payload : V) : M V unit :=
  let! c := ctx in
  let value := decision_trace_payload reason payload in
  let hash := w_hash_value w value in
  if bool_decide (lc_last_delta_hash c = Some hash) then mret tt
  else upd (fun c => c <| lc_last_delta_hash := Some hash |>) ;;! emit w "emit_debug" (RuntimeEvent.Debug (DebugEvent.mk "loop_stage_executor" kind value)) [trigger].
Definition emit_error trigger (kind message severity : string) (context : V) : M V unit :=
  let! id := uuid w in
  emit w "emit_error" (RuntimeEvent.ErrorOccurred (new_error_occurred kind "loop_stage_executor" message severity context None id)) [trigger].
Fixpoint emit_all trigger (es : list (RuntimeEvent.t V)) : M V unit :=
  match es with [] => mret tt | e :: rest => emit w "emit_stage_result" e [trigger] ;;! emit_all trigger rest end.
Definition emit_stage_result trigger (r : LoopStageResult V) : M V unit :=
  match r with Emit e => emit_all trigger [e] | EmitMany es => emit_all trigger es | Deferred | Noop => mret tt end.
(** A stage whose [anyhow] error becomes a value. *)
Definition attempt {A} (m : M V A) : M V (result string A) :=
  fun s => match m s with (s', Ok a) => (s', Ok (Ok a)) | (s', Err (StageError err)) => (s', Ok (Err err)) | (s', Err (StagePanic msg)) => (s', Err (StagePanic msg)) end.
Definition event_context e : V := jsingle "event" (jstr (RuntimeEvent.event_kind_str e)).

(** ** Recording *)

Definition push_results (rs : list ExecResult) : M V unit :=
  upd (fun c => c <| lc_objective_trend_state ::= fun t => record_execution_results t rs |> <| lc_recent_execution_results ::= fun l => keep_last 16 (l ++ rs) |>).
Definition exec_record_result (r : ExecResult) : M V unit := push_results [r].
Definition record_graph_proof_result (d : DebugEvent.t V) (passed : bool) : M V unit :=
  let artifact := lit (default "unknown"%string (json_get "payload" (DebugEvent.payload d) ≫= json_get_str "artifact_id")) in
  exec_record_result (exec_new (if passed then lit "graph_proof_verified" else lit "graph_proof_failed")
    ((if passed then lit "semantic graph proof verified against artifact " else lit "semantic graph proof failed against artifact ") ++ artifact) [] passed).
Definition apply_verifier_policy_update (p : VerifierPolicyUpdated.t) : M V unit :=
  upd (fun c => c <| lc_last_verifier_outcome := Some (VerifierPolicyUpdated.verifier_outcome p) |> <| lc_last_verifier_retry_policy := Some (VerifierPolicyUpdated.retry_policy p) |>
                  <| lc_last_verifier_reward_bias := Some (VerifierPolicyUpdated.reward_bias p) |> <| lc_last_verifier_actionable_failure := Some (VerifierPolicyUpdated.actionable_failure p) |>) ;;!
  exec_record_result (with_attempted_kind
    (exec_new (if String.eqb (VerifierPolicyUpdated.retry_policy p) "corrective_retry" then lit "verifier_policy_corrective_retry" else lit "verifier_policy_none")
      (lit ("meta_invariant_all_results_update_policy verifier_outcome=" +:+ VerifierPolicyUpdated.verifier_outcome p +:+ " retry_policy=" +:+ VerifierPolicyUpdated.retry_policy p +:+
            " reward_bias=" +:+ VerifierPolicyUpdated.reward_bias p +:+ " actionable_failure=" +:+ text_of_bool (VerifierPolicyUpdated.actionable_failure p)))
      [] (negb (VerifierPolicyUpdated.actionable_failure p))) (lit "verify_result")).
Definition record_compiler_error (reason level message : string) : M V unit :=
  upd (fun c => c <| lc_recent_compiler_errors ::= fun l => keep_last 16 (l ++ [jobj {[ "reason" := jstr reason; "message" := jobj {[ "level" := jstr level; "message" := jstr message ]} ]}]) |>).
Definition reset_plan_window_state : M V unit := upd (fun c => c <| lc_last_handled_observed_hash := None |> <| lc_last_emitted_plan_hash := None |> <| lc_last_delta_hash := None |>).
Definition clear_invalid_plan_tracking : M V unit :=
  upd (fun c => c <| lc_consecutive_invalid_plan_batches := 0%N |> <| lc_last_invalid_plan_reason := None |> <| lc_last_invalid_plan_planned_count := None |>).
Definition upd_trend (f : ObjectiveTrendState -> ObjectiveTrendState) : M V unit := upd (fun c => c <| lc_objective_trend_state ::= f |>).

(** ** Observing *)

Definition execute_observe_mode trigger e (mode : ObserveExecutionMode) : M V unit :=
  let! c := ctx in
  if bool_decide (lc_last_planned_observed_tick c = Some (lc_current_tick c)) then mret tt
  else
    let kind := RuntimeEvent.event_kind_str e in
    let! allowed := (match mode with
      | Forced => mret (String.eqb kind "route_tick")
      | Triggered => mret (String.eqb kind "route_tick" || String.eqb kind "route_selected")
      | ObserveNone | SuppressedByInvariant | SuppressedByPendingSuccessor => panic "observe execution mode bypass detected; violates exact-once LoopObserved invariant"
      end : M V bool) in
    if negb allowed then mret tt
    else
      let operation := match mode with Forced => ObserveForced | _ => ObserveTriggered end in
      let! r := attempt (observe_execute w) in
      match r with
      | Ok Deferred => panic "observe execution produced Deferred; violates observe→LoopObserved invariant"
      | Ok Noop => panic "observe execution produced Noop; violates observe→LoopObserved invariant"
      | Ok result => emit_stage_result trigger result ;;! upd (fun c => c <| lc_last_planned_observed_tick := Some (lc_current_tick c) |>)
      | Err err => emit_error trigger (default "observe_stage_execution"%string (rec_error_kind (evaluate_recovery_execution operation OError))) err "error" (event_context e)
      end.
Definition execute_reward_recovery trigger e : M V (EventOutcome V) :=
  let! c := ctx in
  match lc_last_verified c with
  | None => mret (NoOp "reward_recovery_missing_context")
  | Some v =>
      let noop outcome := let eval := evaluate_recovery_execution RewardRecovery outcome in
        match debug_kind eval, debug_reason eval with Some kind, Some reason => emit_debug trigger kind reason jempty | _, _ => mret tt end in
      let! r := attempt (reward_execute v) in
      match r with
      | Ok Deferred => noop ODeferred
      | Ok Noop => noop ONoop
      | Ok result => emit_stage_result trigger result
      | Err err => emit_error trigger (default "reward_recovery_execution"%string (rec_error_kind (evaluate_recovery_execution RewardRecovery OError))) err "error" (event_context e)
      end ;;!
      mret (NoOp "reward_recovery_executed")
  end.

(** ** Handlers *)

Definition handle_route_selected trigger (rs : RouteSelected.t) : M V unit :=
  let! c := ctx in
  if negb (RouteSelected.tick rs =? lc_current_tick c)%N then panic ("RouteSelected tick " +:+ pretty (RouteSelected.tick rs) +:+ " did not match active tick " +:+ pretty (lc_current_tick c))
  else if bool_decide (lc_last_route_selected_tick c = Some (RouteSelected.tick rs)) then mret tt
  else
    let rationale := RouteSelected.rationale rs in
    let confidence := f64_of_f32 <$> RouteSelected.confidence rs in
    upd (fun c => c <| lc_last_route_selected_tick := Some (RouteSelected.tick rs) |> <| lc_last_route_rationale := Some rationale |> <| lc_last_route_confidence := confidence |>) ;;!
    (if String.eqb rationale "" then mret tt else upd (fun c => c <| lc_last_route_rationale_non_empty := Some rationale |> <| lc_last_route_confidence_non_empty := confidence |>)) ;;!
    if String.eqb (RouteSelected.approved_route rs) "observe" then execute_observe_mode trigger (RuntimeEvent.RouteSelected rs) Triggered else mret tt.
Definition handle_loop_verified (v : LoopVerified.t) : M V unit :=
  upd (fun c => c <| lc_last_verified := Some v |>) ;;!
  (if LoopVerified.passed v then upd (fun c => c <| lc_error_count := 0%N |> <| lc_warning_count := 0%N |> <| lc_dirty_tracker ::= mark_verified "orchestrator" |>) else mret tt) ;;!
  reset_plan_window_state.
Definition apply_planning_transition_effects (planning_status error_kind : option string) : M V bool :=
  let rules := recovery_rules (evaluate_loop_transition None planning_status error_kind None) in
  (if bool_decide (ClearPlannerSuppressionOnInvalidPlan ∈ rules) then reset_plan_window_state
   else if bool_decide (is_Some planning_status) then clear_invalid_plan_tracking else mret tt) ;;!
  mret (bool_decide (TriggerObserveOnActStall ∈ rules)).
Definition handle_planning_completed (p : PlanningCompleted.t) : M V unit :=
  upd_trend (fun t => record_planning_completion t (lit (PlanningCompleted.status p))) ;;!
  let! _ := apply_planning_transition_effects (Some (PlanningCompleted.status p)) None in
  if String.eqb (PlanningCompleted.status p) "missing_semantic_context" then upd (fun c => c <| lc_pending_required_successor := None |>) else mret tt.
Definition handle_runtime_state_updated (u : RuntimeStateUpdated.t V) : M V unit :=
  let payload := RuntimeStateUpdated.payload u in
  if default false (json_get "fatal_invariant" payload ≫= json_as_bool) then upd (fun c => c <| lc_halted := true |> <| lc_last_halt_reason := json_get_str "fatal_invariant_reason" payload |>)
  else if bool_decide (json_get_str "runtime_mode" payload = Some "running"%string) then upd (fun c => c <| lc_halted := false |> <| lc_last_halt_reason := None |>)
  else mret tt.
Definition handle_prompt_loaded (p : PromptLoaded.t V) : M V bool :=
  let data := default (PromptLoaded.payload p) (json_get "data" (PromptLoaded.payload p)) in
  match json_get_str "content" data with
  | None => mret false
  | Some content => upd (fun c => c <| lc_goal_text := Some content |> <| lc_last_prompted_goal := Some content |>) ;;! mret true
  end.
Fixpoint emit_edges trigger (child : string) (deps : list string) : M V unit :=
  match deps with [] => mret tt | d :: rest => emit w "handle_loop_planned" (RuntimeEvent.GoalEdgeDefined (GoalEdgeDefined.mk d child true)) [trigger] ;;! emit_edges trigger child rest end.
Definition handle_loop_planned trigger (p : LoopPlanned.t V) : M V unit :=
  let! c := ctx in
  match LoopPlanned.action_id p with
  | None => mret tt
  | Some id =>
      let! intents := or_panic (classify_planned_action_intents (LoopPlanned.action_kind p) (LoopPlanned.action_payload p) (semantic_of c ≫= ss_target_root)) "slice index out of range" in
      upd (fun c => c <| lc_action_semantic_intents ::= <[ id := intents ]> |>)
  end ;;!
  let! t := now w in
  let task := {| priority := infer_priority p (lc_goodness c) (lc_delta_g c); enqueued_at := t; task_seq := 0; agent_id := None; plan := p |} in
  if bool_decide (LoopPlanned.depends_on p = []) then upd (fun c => c <| lc_scheduler ::= push task |>)
  else
    match LoopPlanned.action_id p with Some child => emit_edges trigger child (LoopPlanned.depends_on p) | None => mret tt end ;;!
    upd (fun c => c <| lc_dep_tracker ::= dep_add task |>).
(** The stored observation, with the trend that follows its change. *)
Definition upd_observed (f : SemanticStateSummary -> SemanticStateSummary) : M V unit :=
  let! c := ctx in
  match lc_last_observed c with
  | None => mret tt
  | Some o =>
      let o := LoopObserved.mk (LoopObserved.tick o) (LoopObserved.error_count o) (LoopObserved.warning_count o) (LoopObserved.compiler_errors o) (LoopObserved.goal_text o) (f (LoopObserved.semantic_summary o)) (LoopObserved.observe_diagnostics o) in
      upd (fun c => c <| lc_last_observed := Some o |> <| lc_objective_trend_state ::= fun t => record_observation t (LoopObserved.error_count o) (LoopObserved.semantic_summary o) |>)
  end.
Definition handle_rustc_capture_failed (f : RustcCaptureFailed.t) : M V unit :=
  upd_observed (fun s => apply_rustc_capture_failure s (lit (RustcCaptureFailed.message f))) ;;!
  upd (fun c => c <| lc_error_count ::= fun n => sat_add64 n 1 |>) ;;!
  record_compiler_error "rustc_capture_failed" "error" (RustcCaptureFailed.message f).
Definition handle_loop_observed (o : LoopObserved.t V) : M V unit :=
  let! c := ctx in
  if bool_decide (lc_last_observed_tick c = Some (LoopObserved.tick o)) then mret tt
  else upd (fun c => c <| lc_last_observed := Some o |> <| lc_last_observed_tick := Some (LoopObserved.tick o) |> <| lc_errors_before := LoopObserved.error_count o |>
      <| lc_objective_trend_state ::= fun t => record_observation t (LoopObserved.error_count o) (LoopObserved.semantic_summary o) |> <| lc_pending_required_successor := None |>).
Definition set_capacity {P} (id : string) (cap : N) (s : Scheduler (P := P)) : Scheduler (P := P) :=
  {| heap := heap s; next_seq := next_seq s; agent_capacity := <[ id := cap ]> (agent_capacity s); agent_active := agent_active s |}.
Definition handle_agent_registered (payload : V) : M V unit :=
  match json_get_str "agent_id" payload with
  | None => mret tt
  | Some id => upd (fun c => c <| lc_scheduler ::= set_capacity id (default 1%N (json_get "capacity" payload ≫= json_as_u64)) |>)
  end.
Definition handle_rustc_graph_artifact_written (g : RustcGraphArtifactWritten.t) : M V unit :=
  upd_observed (fun s => apply_graph_artifact_summary s (lit (RustcGraphArtifactWritten.artifact_id g)) (RustcGraphArtifactWritten.node_count g) (RustcGraphArtifactWritten.edge_count g)
    (RustcGraphArtifactWritten.file_count g) (RustcGraphArtifactWritten.call_edge_count g) (RustcGraphArtifactWritten.module_edge_count g) (RustcGraphArtifactWritten.cfg_edge_count g)).
Definition handle_goodness_snapshot (g : GoodnessSnapshot.t V) : M V unit :=
  upd (fun c => c <| lc_goodness := Some (GoodnessSnapshot.g g) |> <| lc_delta_g := Some (GoodnessSnapshot.delta_g g) |>
    <| lc_objective_trend_state ::= fun t => record_goodness t (GoodnessSnapshot.g g) (GoodnessSnapshot.delta_g g) |>).
Definition handle_subtask_result (r : SubTaskResult.t V) : M V unit :=
  let! c := ctx in
  let! m := or_panic (Merge.absorb (w_to_text w) r (SubTaskResult.agent_id r) (lc_context_merger c)) "byte index is not a char boundary" in
  upd (fun c => c <| lc_context_merger := m |>).
Definition handle_tool_result (r : ToolResult.t V) : M V unit :=
  if String.eqb (ToolResult.kind r) "llm.plan" then mret tt else upd (fun c => c <| lc_batch_tool_results ::= fun l => l ++ [r] |>).
Definition handle_objective_trend_debug (kind : string) : M V bool :=
  if String.eqb kind "route_objective_contradiction" then upd_trend record_route_objective_contradiction ;;! mret true
  else if String.eqb kind "goal_objective_drift" then upd_trend record_goal_objective_drift ;;! mret true
  else mret false.
Definition handle_loop_rewarded trigger (r : LoopRewarded.t) : M V unit :=
  if negb (LoopRewarded.halt r) then mret tt
  else
    let! c := ctx in
    let reason := if String.eqb (lc_last_action_kind c) "conclude" then "explicit conclude route"%string
      else "loop_rewarded requested halt; reward=" +:+ w_show_f32 w (LoopRewarded.reward r) +:+ " stagnant_ticks=" +:+ pretty (LoopRewarded.stagnant_ticks r) +:+
           " errors_before=" +:+ pretty (LoopRewarded.errors_before r) +:+ " errors_after=" +:+ pretty (LoopRewarded.errors_after r) in
    upd (fun c => c <| lc_halted := true |> <| lc_last_halt_reason := Some reason |>) ;;!
    emit_debug trigger "loop_halt_reason" "loop entered halted state"
      (jobj {[ "reason" := jstr reason; "tick" := to_value (LoopRewarded.tick r); "reward" := to_value (LoopRewarded.reward r); "stagnant_ticks" := to_value (LoopRewarded.stagnant_ticks r);
               "errors_before" := to_value (LoopRewarded.errors_before r); "errors_after" := to_value (LoopRewarded.errors_after r) ]}).

(** *** What was acted *)

Definition push_tasks (ts : list (Task (P := LoopPlanned.t V))) : M V unit := upd (fun c => c <| lc_scheduler ::= fun s => foldl (fun s t => push t s) s ts |>).
Definition complete_dependency (id : string) : M V unit :=
  let! c := ctx in
  let '(d, ts) := dep_complete id (lc_dep_tracker c) in
  upd (fun c => c <| lc_dep_tracker := d |>) ;;! push_tasks ts.
Definition apply_post_act_cleanup (action_kind : string) : M V unit := reset_plan_window_state ;;! if is_read_only_action action_kind then mret tt else clear_invalid_plan_tracking.
Definition settle_action (a : LoopActed.t) (id : string) : M V unit :=
  let! c := ctx in
  match lc_action_semantic_intents c !! id with
  | None => mret tt
  | Some intents =>
      upd (fun c => c <| lc_action_semantic_intents ::= delete id |>) ;;!
      push_results (execution_results_for_action intents (LoopActed.success a) (lit (LoopActed.stderr a)))
  end ;;!
  match lc_write_paths_by_action c !! id with
  | None => mret tt
  | Some paths => upd (fun c => c <| lc_write_paths_by_action ::= delete id |> <| lc_file_write_tracker ::= fun t => foldl (fun t p => release p t) t paths |>)
  end ;;!
  (if is_read_only_action (LoopActed.action_kind a) then mret tt else upd (fun c => c <| lc_dirty_tracker ::= mark_dirty "orchestrator" (Some id) |>)) ;;!
  complete_dependency id.
Definition invalidate_queued_work (b : BootstrapEvaluation) : M V unit :=
  upd (fun c => c <| lc_scheduler ::= if clear_scheduler b then clear else id |> <| lc_dep_tracker ::= if clear_dep_tracker b then dep_clear else id |>
    <| lc_pending_act ::= if clear_pending_act b then fun _ => None else id |> <| lc_active_batch_llm_request_id ::= if clear_active_batch b then fun _ => None else id |>
    <| lc_act_batch_tracker ::= if clear_act_batch_tracker b then fun _ => ∅ else id |>).
Definition handle_loop_acted trigger (a : LoopActed.t) : M V unit :=
  let kind := LoopActed.action_kind a in
  let b := evaluate_bootstrap_effects (classify_action_outcome kind (LoopActed.success a) (lit (LoopActed.stdout a)) (lit (LoopActed.stderr a))) in
  upd (fun c => c <| lc_last_acted := Some a |> <| lc_last_action_kind := kind |> <| lc_batch_acted ::= fun l => l ++ [a] |>) ;;!
  apply_post_act_cleanup kind ;;!
  match LoopActed.action_id a with Some id => settle_action a id | None => mret tt end ;;!
  complete_dependency kind ;;!
  invalidate_queued_work b ;;!
  if emit_refresh_required b then
    let! c := ctx in
    emit_debug trigger "bootstrap_refresh_required" "successful bootstrap invalidated queued plan work; forcing a fresh observe is required"
      (jobj {[ "action_kind" := jstr kind; "success" := jbool (LoopActed.success a);
               "target_workspace" := to_value (str <$> (lc_goal_text c ≫= fun t => gs_target_path (parse_agent_goal_markdown (V := V) (lit t)))) ]})
  else mret tt.

(** *** Errors and recoveries *)

Definition handle_error_occurred (err : ErrorOccurred.t V) : M V bool :=
  let kind := ErrorOccurred.kind err in
  upd (fun c => if String.eqb (ErrorOccurred.severity err) "warning" then c <| lc_warning_count ::= fun n => sat_add64 n 1 |> else c <| lc_error_count ::= fun n => sat_add64 n 1 |>) ;;!
  record_compiler_error "error_occurred" (ErrorOccurred.severity err) (ErrorOccurred.message err) ;;!
  (if String.eqb kind "invalid_plan_batch" then
     upd (fun c => c <| lc_consecutive_invalid_plan_batches ::= fun n => sat_add32 n 1 |> <| lc_objective_trend_state ::= record_invalid_plan_event |>
       <| lc_last_invalid_plan_reason := Some (ErrorOccurred.message err) |> <| lc_last_invalid_plan_planned_count := json_get "planned_count" (ErrorOccurred.context err) ≫= json_as_u64 |>)
   else mret tt) ;;!
  let fatal := String.eqb kind "diagnostics_triggered" && default false (json_get "fatal_invariant" (ErrorOccurred.context err) ≫= json_as_bool) in
  let! stall := apply_planning_transition_effects None (Some kind) in
  mret (stall || match evaluate_error_observe kind false fatal with GenericErrorObserve => true | _ => false end).

Definition recovery_debug e : option (DebugEvent.t V) := match e with RuntimeEvent.Debug d => if String.eqb (DebugEvent.kind d) "recovery_event" then Some d else None | _ => None end.
Definition build_recovery_eval e (has_last_verified : bool) : option (option string * RecoveryEventEvaluation) :=
  d ← recovery_debug e;
  let expected := json_get "context" (DebugEvent.payload d) ≫= json_get_str "expected_successor" in
  Some (expected, evaluate_recovery_event expected None has_last_verified).
Definition handle_recovery_event trigger e (eval : option (option string * RecoveryEventEvaluation)) : M V (option (EventOutcome V)) :=
  match recovery_debug e, eval with
  | Some _, Some (expected, ev) =>
      emit_debug trigger "recovery_received" "recovery event received by loop stage executor"
        (jobj {[ "expected_successor" := jstr (default "unknown"%string expected); "trigger_kind" := jstr (RuntimeEvent.event_kind_str e) ]}) ;;!
      let! c := ctx in
      match recovery_rule ev with
      | SkipRewardAlreadySatisfied =>
          emit_debug trigger "reward_recovery_skipped_already_satisfied" "reward recovery skipped because loop_rewarded is no longer the pending successor"
            (jobj {[ "pending_required_successor" := to_value (lc_pending_required_successor c); "last_control_kind" := to_value (lc_last_control_kind c); "last_control_event_id" := to_value (lc_last_control_event_id c) ]}) ;;!
          mret (Some (NoOp "reward_recovery_already_satisfied"))
      | MissingRewardContext =>
          emit_debug trigger "reward_recovery_missing_context" "reward recovery requested but no last verified event is available" (jsingle "trigger_kind" (jstr (RuntimeEvent.event_kind_str e))) ;;!
          emit_error trigger "reward_stall" "reward recovery requested without last_verified context" "warning" (jsingle "recoverable" (jbool true)) ;;!
          mret (Some (NoOp "reward_recovery_missing_context"))
      | _ => if LoopPolicy.execute_reward_recovery ev then let! o := execute_reward_recovery trigger e in mret (Some o) else mret None
      end
  | _, _ => mret None
  end.

(** ** The stage of an event *)

Definition handle_runtime_observe_mode trigger e (mode : ObserveExecutionMode) : M V unit :=
  let! c := ctx in
  if match lc_last_observed_tick c with Some t => (lc_current_tick c <=? t)%N | None => false end then mret tt
  else
    let routed := bool_decide (lc_last_route_selected_tick c = Some (lc_current_tick c)) in
    match mode with
    | Forced | Triggered => if routed then execute_observe_mode trigger e mode else mret tt
    | SuppressedByPendingSuccessor =>
        emit_debug trigger "observe_emitted_unconditionally" "observe suppressed because another control successor is required"
          (jobj {[ "pending_required_successor" := to_value (lc_pending_required_successor c); "last_control_kind" := to_value (lc_last_control_kind c);
                   "last_control_event_id" := to_value (lc_last_control_event_id c); "trigger_kind" := jstr (RuntimeEvent.event_kind_str e) ]})
    | ObserveNone | SuppressedByInvariant => mret tt
    end.
Definition suppresses_observe_on_invariant e : bool :=
  match e with
  | RuntimeEvent.ErrorOccurred err => String.eqb (ErrorOccurred.kind err) "invariant_violation"
  | RuntimeEvent.Code code => match EventDelta.event (Code.delta code) with RustcEvent.InvariantViolation _ => true | _ => false end
  | _ => false
  end.
Definition apply_runtime_evaluation trigger e (force_observe_recovery trigger_observe : bool) : M V (option (EventOutcome V)) :=
  let suppress := suppresses_observe_on_invariant e in
  if trigger_observe && negb suppress then mret None
  else
    let! c := ctx in
    let eval := evaluate_loop_runtime (lc_halted c) force_observe_recovery trigger_observe suppress None false in
    handle_runtime_observe_mode trigger e (observe_mode eval) ;;!
    if negb (halt_blocks_stage eval) then mret None
    else
      (if warn_route_selected_while_halted eval then
         let! c := ctx in
         emit_debug trigger "loop_stage_blocked" "loop stage execution blocked because context is halted"
           (jobj {[ "event_kind" := jstr (RuntimeEvent.event_kind_str e); "last_halt_reason" := to_value (lc_last_halt_reason c) ]}) ;;!
         emit_error trigger "loop_stage_halted" "route_selected received while loop context is halted" "warning"
           (jobj {[ "event_kind" := jstr (RuntimeEvent.event_kind_str e); "last_halt_reason" := to_value (lc_last_halt_reason c); "recoverable" := jbool true ]})
       else mret tt) ;;!
      mret (Some (NoOp "loop_stage_halted")).
Definition advance_control_state trigger e : M V unit :=
  match e with
  | RuntimeEvent.RouteSelected _ | RuntimeEvent.LoopVerified _ | RuntimeEvent.VerifierPolicyUpdated _ =>
      upd (fun c => c <| lc_last_control_event_id := Some trigger |> <| lc_last_control_kind := Some (RuntimeEvent.event_kind_str e) |> <| lc_pending_required_successor := None |>)
  | _ => mret tt
  end.
Definition run_stage trigger e (stage : LoopStageEvent V) : M V (EventOutcome V) :=
  let! r := attempt (stage_execute w stage trigger) in
  match r with
  | Ok (EmitMany es) => emit_all trigger es ;;! mret (NoOp "emission handled via canonical emitter")
  | Ok result => emit_stage_result trigger result ;;! mret (NoOp "stage_executed")
  | Err err => emit_error trigger "loop_stage_execution" err "error" (jsingle "event" (jstr (w_show_event w e))) ;;! mret (NoOp "stage_executed")
  end.
Definition execute_stage_event trigger e : M V (EventOutcome V) :=
  match e with
  | RuntimeEvent.LoopObserved o =>
      let! c := ctx in
      let state := exec_state_of_summary (path_exists (w_fs w)) (lc_workspace c) (LoopObserved.semantic_summary o) in
      let decision := evaluate_constraint_context {| ctx_state := ExecConstraints.constraint_state state; ctx_route := None; ctx_action := None; deterministic_route := None |} in
      emit w "execute_stage_event" (RuntimeEvent.Debug (DebugEvent.mk "decision" "constraint_trace" (decision_trace_payload "constraint_decision" (jsingle "decision" (jstr (decision_debug decision)))))) [trigger] ;;!
      mret (NoOp "loop_observed_traced")
  | _ => match stage_event e with None => mret (NoOp "loop_stage_not_stage_event") | Some stage => run_stage trigger e stage end
  end.

(** ** An event *)

(** The match of [on_event]: whether to observe, or the early outcome. *)
Inductive Handled : Type := Continue (observe : bool) | Return (reason : string).
Definition normalized (rs : RouteSelected.t) : RouteSelected.t :=
  RouteSelected.mk (RouteSelected.tick rs) (RouteSelected.suggested_route rs) (RouteSelected.prompt rs) (to_ascii_lowercase (str (trim (lit (RouteSelected.approved_route rs))))) (RouteSelected.rationale rs)
    (RouteSelected.confidence rs) (RouteSelected.gate_note rs) (RouteSelected.gate_rules_fired rs) (RouteSelected.gate_changed rs) (RouteSelected.gate_should_stop rs) (RouteSelected.model_json rs).
Definition quiet (m : M V unit) : M V Handled := m ;;! mret (Continue false).
Definition observing (m : M V bool) : M V Handled := let! b := m in mret (Continue b).
Definition handle_debug (d : DebugEvent.t V) : M V Handled :=
  let kind := DebugEvent.kind d in
  if String.eqb kind "recovery_event" then mret (Continue false)
  else
    let! trend := handle_objective_trend_debug kind in
    if (trend : bool) then mret (Continue false)
    else if String.eqb kind "semantic_graph_proof_verified" then quiet (record_graph_proof_result d true)
    else if String.eqb kind "semantic_graph_proof_failed" then quiet (record_graph_proof_result d false)
    else mret (Return "ignored_event_kind").
Definition handle_event trigger e : M V Handled :=
  match e with
  | RuntimeEvent.Debug d => handle_debug d
  | RuntimeEvent.RouteSelected rs =>
      let! c := ctx in
      if bool_decide (lc_last_route_selected_tick c = Some (RouteSelected.tick rs)) then mret (Return "duplicate_route_selected_same_tick")
      else quiet (handle_route_selected trigger (normalized rs))
  | RuntimeEvent.Tick t => quiet (upd (fun c => c <| lc_current_tick := Tick.tick t |> <| lc_last_route_selected_tick := None |>))
  | RuntimeEvent.AgentRegistered a => quiet (handle_agent_registered (AgentRegistered.payload a))
  | RuntimeEvent.RustcGraphArtifactWritten g => quiet (handle_rustc_graph_artifact_written g)
  | RuntimeEvent.RustcCaptureFailed f => handle_rustc_capture_failed f ;;! mret (Continue true)
  | RuntimeEvent.LoopObserved o => quiet (handle_loop_observed o)
  | RuntimeEvent.LoopActed a => quiet (handle_loop_acted trigger a)
  | RuntimeEvent.VerifierPolicyUpdated p => quiet (apply_verifier_policy_update p)
  | RuntimeEvent.LoopVerified v => quiet (handle_loop_verified v)
  | RuntimeEvent.SubTaskResult r => quiet (handle_subtask_result r)
  | RuntimeEvent.LoopPlanned p => quiet (handle_loop_planned trigger p)
  | RuntimeEvent.LoopRewarded r => quiet (handle_loop_rewarded trigger r)
  | RuntimeEvent.PlanningCompleted p => handle_planning_completed p ;;! mret (Continue (String.eqb (PlanningCompleted.status p) "missing_semantic_context"))
  | RuntimeEvent.GoodnessSnapshot g => quiet (handle_goodness_snapshot g)
  | RuntimeEvent.RuntimeStateUpdated u => quiet (handle_runtime_state_updated u)
  | RuntimeEvent.PromptLoaded p => observing (handle_prompt_loaded p)
  | RuntimeEvent.ErrorOccurred err => observing (handle_error_occurred err)
  | RuntimeEvent.ToolResult r => quiet (handle_tool_result r)
  | RuntimeEvent.RouteTick t => upd (fun c => c <| lc_current_tick := RouteTick.tick t |>) ;;! mret (Continue true)
  | RuntimeEvent.Code _ | RuntimeEvent.Edit _ | RuntimeEvent.Cargo _ | RuntimeEvent.File _ | RuntimeEvent.Bash _ | RuntimeEvent.Llm _ => mret (Return "ignored_event_kind")
  | RuntimeEvent.RustcCaptureCompleted _ | RuntimeEvent.Analysis _ | RuntimeEvent.NodeReady _ | RuntimeEvent.NodeStarted _ | RuntimeEvent.NodeCompleted _ | RuntimeEvent.NodeFailed _
  | RuntimeEvent.CapabilityCompleted _ | RuntimeEvent.CapabilityFailed _ | RuntimeEvent.PolicyBaselineUpdated _ | RuntimeEvent.GoalSelected _ | RuntimeEvent.SystemConfigLoaded _
  | RuntimeEvent.ToolCall _ | RuntimeEvent.ToolBatchSettled _ | RuntimeEvent.GoalNodeCreated _ | RuntimeEvent.GoalNodeRetracted _ | RuntimeEvent.GoalNodeRewritten _ | RuntimeEvent.GoalEdgeDefined _
  | RuntimeEvent.GoalGraphCheckpointed _ | RuntimeEvent.CapabilityInvoked _ | RuntimeEvent.CapabilityResolved _ | RuntimeEvent.InvariantDiscovered _ | RuntimeEvent.RustcCaptureStarted _
  | RuntimeEvent.CapabilityRequested _ => mret (Continue false)
  end.
Definition is_planning_completed e : bool := match e with RuntimeEvent.PlanningCompleted _ => true | _ => false end.
Definition after_handlers trigger e (force_observe trigger_observe : bool) : M V (EventOutcome V) :=
  let! c := ctx in
  let already := bool_decide (lc_last_observed_tick c = Some (lc_current_tick c)) in
  (if (trigger_observe || force_observe) && negb (already && is_planning_completed e) then execute_observe_mode trigger e Forced else mret tt) ;;!
  advance_control_state trigger e ;;!
  let! early := apply_runtime_evaluation trigger e force_observe trigger_observe in
  match early with Some o => mret o | None => execute_stage_event trigger e end.
Definition loop_on_event trigger e : M V (EventOutcome V) :=
  let! c := ctx in
  let eval := build_recovery_eval e (bool_decide (is_Some (lc_last_verified c))) in
  let! early := handle_recovery_event trigger e eval in
  match early with
  | Some o => mret o
  | None =>
      let force_observe := match eval with Some (_, ev) => force_observe_recovery ev | None => false end in
      let! h := handle_event trigger e in
      match h with Return reason => mret (NoOp reason) | Continue observe => after_handlers trigger e force_observe observe end
  end.
(** [force_observe], [with_agent_id]. *)
Definition force_observe_hook : M V unit := fun s => match observe_execute w s with (s', Ok _) | (s', Err (StageError _)) => (s', Ok tt) | (s', Err (StagePanic m)) => (s', Err (StagePanic m)) end.
End Executor.
Definition with_agent_id {V} (id : string) (c : LoopContext V) : LoopContext V := c <| lc_agent_id := Some id |>.
