(* ===== verification/PlanStage.v ===== *)
(** * Planning ([canon-loop/src/stage/plan.rs])

    A route to plan asks the model for one action; its answer is parsed,
    completed with the failure it addresses and its verifier, validated, and
    becomes planned actions.  A workspace that must be bootstrapped is planned
    without the model.  The texts of the prompts are behind the interface
    [PromptText]: the stage only compares their hashes. *)
From Stdlib Require Import Floats.SpecFloat.
From stdpp Require Import pretty.
From S2P Require Import Prelude Json Text PatchParser TextFormat Paths Wire SemanticState SemanticText Gatekeeper Objectives Goal LoopPolicy ConstraintEngine Discovery ExecConstraints CompilerHints Workspace Preconditions Scheduler EventShape KernelTypes Events EventBus RouteContext Merge LoopContext LoopStages ActStage LoopExecutor.

Definition LLM_TIMEOUT_TICKS : N := 60.
(** The context of the loop and the observation, with the summary, rationale
    and confidence chosen for the prompt; [None] when a text is cut inside a
    character. *)
Class PromptText (V : Type) : Type := {
  system_instructions : string;
  context_base : World V -> LoopContext V -> LoopObserved.t V -> SemanticStateSummary -> option string -> option f64 -> option string;
  context_delta : World V -> LoopContext V -> LoopObserved.t V -> SemanticStateSummary -> option string -> option f64 -> option string
}.

(** ** The answer of the model *)

Inductive LlmAction : Type :=
| LaPatch (path old new : string) | LaWrite (path content : string) | LaCommand (cmd : string) (cwd : option string) | LaDone (reason : string) | LaApplyPatch (patch : string)
| LaReadFile (path : string) | LaListDir (path : string) | LaAddImport (path import : string) | LaDefineSymbolStub (path symbol kind : string)
| LaCreateModuleFile (path : string) (module : option string) | LaMoveSymbol (path symbol_id new_module_path : string) | LaRenameSymbol (path old new : string).
Record ActionPlan := MkActionPlan { ap_action : LlmAction; ap_depends_on : list string }.
Definition is_done (a : ActionPlan) : bool := match ap_action a with LaDone _ => true | _ => false end.

Definition FENCE : bytes := lit "```".
Fixpoint fenced_blocks (in_fence : bool) (current : bytes) (lines : list bytes) : list bytes :=
  match lines with
  | [] => []
  | line :: rest =>
      let fence := starts_with FENCE (trim_start line) in
      if negb in_fence then fenced_blocks fence (if fence then [] else current) rest
      else if fence then trim current :: fenced_blocks false [] rest
      else fenced_blocks true (current ++ line ++ [x0a]) rest
  end.
Definition extract_fenced_blocks (text : bytes) : list bytes := fenced_blocks false [] (str_lines text).

Section Parse.
Context {V : Type} `{Json V} (parse : bytes -> option V).
Definition get_s (k : string) (v : V) : option string := json_get_str k v.
Definition is_object (v : V) : bool := match json_view v with VObject _ => true | _ => false end.
Definition depends_of (v : V) : list string := match json_get "depends_on" v ≫= json_as_array with Some l => omap json_as_str l | None => [] end.
Definition action_of_name (name : string) (v : V) : option LlmAction :=
  let named l := existsb (String.eqb name) l in
  if named ["done"]%string then Some (LaDone (default "done"%string (get_s "reason" v)))
  else if named ["apply_patch"]%string then LaApplyPatch <$> get_s "patch" v
  else if named ["write"; "write_file"]%string then path ← get_s "path" v; content ← get_s "content" v; Some (LaWrite path content)
  else if named ["run_command"; "command"]%string then cmd ← get_s "cmd" v; Some (LaCommand cmd (get_s "cwd" v))
  else if named ["patch_file"; "patch"]%string then path ← get_s "path" v; old ← get_s "old" v; new ← get_s "new" v; Some (LaPatch path old new)
  else if named ["read_file"]%string then LaReadFile <$> get_s "path" v
  else if named ["list_dir"]%string then Some (LaListDir (default "."%string (get_s "path" v)))
  else if named ["edit.rename_symbol"]%string then path ← get_s "path" v; old ← get_s "old" v; new ← get_s "new" v; Some (LaRenameSymbol path old new)
  else if named ["edit.move_symbol"]%string then path ← get_s "path" v; id ← get_s "symbol_id" v; m ← get_s "new_module_path" v; Some (LaMoveSymbol path id m)
  else if named ["edit.add_import"]%string then path ← get_s "path" v; i ← get_s "import" v; Some (LaAddImport path i)
  else if named ["edit.define_symbol_stub"]%string then path ← get_s "path" v; symbol ← get_s "symbol" v; Some (LaDefineSymbolStub path symbol (default "fn"%string (get_s "kind" v)))
  else if named ["edit.create_module_file"]%string then path ← get_s "path" v; Some (LaCreateModuleFile path (get_s "module" v))
  else None.
(** The schema without an ["action"] field. *)
Definition action_of_keys (v : V) : option LlmAction :=
  if bool_decide ((json_get "done" v ≫= json_as_bool) = Some true) then Some (LaDone (default "done"%string (get_s "reason" v)))
  else match get_s "cmd" v with Some cmd => Some (LaCommand cmd (get_s "cwd" v)) | None =>
  match get_s "patch" v with Some patch => Some (LaApplyPatch patch) | None =>
  match get_s "write" v, get_s "content" v with
  | Some path, Some content => Some (LaWrite path content)
  | _, _ => path ← get_s "path" v; old ← get_s "old" v; new ← get_s "new" v; Some (LaPatch path old new)
  end end end.
Definition parse_value_to_action (v : V) : option ActionPlan :=
  match get_s "action" v with
  | Some name => a ← action_of_name name v; Some (MkActionPlan a (depends_of v))
  | None => a ← action_of_keys v; Some (MkActionPlan a [])
  end.
Definition parse_values (l : option (list V)) : list ActionPlan := omap parse_value_to_action (default [] l).
(** One fenced block: its actions, and its signals when it has the wrapper. *)
Definition parse_block (acc : list ActionPlan * option V) (block : bytes) : list ActionPlan * option V :=
  let '(actions, signals) := acc in
  match parse block with
  | None => acc
  | Some v =>
      if is_object v && bool_decide (is_Some (json_get "actions" v)) then (actions ++ parse_values (json_get "actions" v ≫= json_as_array), json_get "signals" v)
      else match json_as_array v with Some l => (actions ++ parse_values (Some l), signals) | None => (actions ++ option_list (parse_value_to_action v), signals) end
  end.
Definition parse_llm_actions (v : V) : list ActionPlan * option V :=
  let from_text := match get_s "text" v with Some text => foldl parse_block ([], None) (extract_fenced_blocks (lit text)) | None => ([], None) end in
  if is_object v && bool_decide (is_Some (json_get "actions" v)) then (parse_values (json_get "actions" v ≫= json_as_array), json_get "signals" v)
  else match json_as_array v with
       | Some l => (parse_values (Some l), None)
       | None =>
           if is_object v && bool_decide (is_Some (json_get "action" v)) then match parse_value_to_action v with Some a => ([a], None) | None => from_text end
           else from_text
       end.
End Parse.

(** ** Lines of code *)

Definition extract_required_loc (goal : bytes) : N := default 0%N (find_map loc_of_requirement (str_lines goal)).
Definition SKIPPED_DIRS : list bytes := [lit "target"; lit ".git"; lit "node_modules"; lit ".cargo"].
Fixpoint count_loc (t : FileTree) : nat :=
  match t with
  | TFile _ => 0
  | TDir entries =>
      (fix go (l : list (bytes * FileTree)) : nat :=
         match l with
         | [] => 0
         | (name, sub) :: l' =>
             match sub with
             | TDir _ => if bool_decide (name ∈ SKIPPED_DIRS) then 0 else count_loc sub
             | TFile text => if is_rust name then match text with Some t => length (str_lines t) | None => 0 end else 0
             end + go l'
         end) entries
  end.
Definition count_loc_in_workspace (fs : bytes -> option FileTree) (dir : bytes) : N := match fs dir with Some t => N.of_nat (count_loc t) | None => 0%N end.

(** ** Validation *)

Definition parse_error_text (e : ParseError) : string :=
  match e with InvalidPatchError m => "invalid patch: " +:+ m | InvalidHunkError m n => "invalid hunk at line " +:+ pretty (N.of_nat n) +:+ ", " +:+ m end.
Definition validate_workspace_relative_path (path : string) : result string unit :=
  if is_absolute (lit path) then Err "absolute paths are not allowed for plan discovery/edit actions"%string
  else if bool_decide (lit ".." ∈ (components (lit path)).2) then Err ("path escapes target workspace via parent traversal: " +:+ path)
  else Ok tt.
(** A check that may also panic ([None]). *)
Definition Checked : Type := option (result string unit).
Definition and_then (m k : Checked) : Checked := match m with Some (Ok _) => k | _ => m end.
#[local] Infix ">?>" := and_then (at level 60, right associativity).
Definition expect (b : bool) (message : string) : Checked := Some (check b message).
Definition blank (s : string) : bool := bool_decide (trim (lit s) = []).

Section Validate.
Context {V : Type} `{Json V} `{JsonSer V} (w : World V).
Implicit Types (a : LoopPlanned.t V) (s : SemanticStateSummary).
Definition need a (k : string) (then_ : string -> Checked) : Checked :=
  match arg k a with Some v => then_ v | None => Some (Err (LoopPlanned.action_kind a +:+ " missing " +:+ k +:+ " payload")) end.
Definition relative a (path : string) : Checked :=
  Some (match validate_workspace_relative_path path with Ok _ => Ok tt | Err e => Err (LoopPlanned.action_kind a +:+ " path is invalid: " +:+ e) end).
Definition validate_shape a : Checked :=
  let kind := LoopPlanned.action_kind a in
  if String.eqb kind "apply_patch" then
    match arg "patch" a with
    | None => Some (Err "apply_patch missing string patch payload"%string)
    | Some patch => r ← parse_patch (lit patch); Some (match r with Ok _ => Ok tt | Err e => Err ("apply_patch payload is invalid: " +:+ parse_error_text e) end)
    end
  else if String.eqb kind "run_command" then
    let cwd := default ""%string (arg "cwd" a) in
    expect (negb (String.eqb cwd "") && is_absolute (lit cwd)) ("run_command requires an absolute cwd; got " +:+ w_debug_str w (if String.eqb cwd "" then "<empty>"%string else cwd))
  else if String.eqb kind "edit.rename_symbol" then
    need a "old" (fun old => need a "new" (fun new => need a "path" (fun path =>
      expect (negb (blank old || blank new)) "edit.rename_symbol requires non-empty old and new symbol paths" >?> relative a path)))
  else if String.eqb kind "edit.move_symbol" then
    need a "symbol_id" (fun id => need a "new_module_path" (fun m => need a "path" (fun path =>
      expect (negb (blank id || blank m)) "edit.move_symbol requires non-empty symbol_id and new_module_path" >?> relative a path)))
  else if String.eqb kind "edit.add_import" then
    need a "import" (fun i => need a "path" (fun path => expect (negb (blank i)) "edit.add_import requires non-empty import path" >?> relative a path))
  else if String.eqb kind "edit.define_symbol_stub" then
    need a "symbol" (fun x => need a "path" (fun path => expect (negb (blank x)) "edit.define_symbol_stub requires non-empty symbol" >?> relative a path))
  else if existsb (String.eqb kind) ["edit.create_module_file"; "read_file"; "list_dir"; "write_file"; "patch_file"]%string then need a "path" (relative a)
  else expect (String.eqb kind "done") ("unknown plan action_kind " +:+ kind).
Definition validate_failure s a : Checked :=
  let kind := LoopPlanned.action_kind a in
  let payload := LoopPlanned.action_payload a in
  match primary_failure_class s with
  | Some class =>
      expect (String.eqb kind "done" || meta_invariant_any_action_cites_failure payload (Some (str class)))
        ("meta_invariant_plan_must_cite_failure violated: " +:+ kind +:+ " cites failure_class=" +:+ default "<missing>"%string (arg "failure_class" a) +:+ " but active failure_class=" +:+ str class)
  | None => Some (Ok tt)
  end >?>
  expect (negb (meta_invariant_is_mutating_action kind payload) || meta_invariant_action_must_declare_verifier kind payload)
    ("meta_invariant_action_must_declare_verifier violated: " +:+ kind +:+ " must declare verifier=" +:+ default "unknown"%string (meta_invariant_expected_verifier kind payload)).
Fixpoint validate_each s (l : list (LoopPlanned.t V)) : Checked := match l with [] => Some (Ok tt) | a :: rest => validate_failure s a >?> validate_shape a >?> validate_each s rest end.
Definition EXECUTION_KINDS : list string :=
  ["patch_file"; "apply_patch"; "write_file"; "run_command"; "done"; "edit.rename_symbol"; "edit.move_symbol"; "edit.add_import"; "edit.define_symbol_stub"; "edit.create_module_file"].
Definition validate_retry (actions : list (LoopPlanned.t V)) (retry : RetryPolicy) : Checked :=
  let kinds := LoopPlanned.action_kind <$> actions in
  let has_discovery := existsb (fun k => String.eqb k "list_dir" || String.eqb k "read_file") kinds in
  let has_execution := existsb (fun k => existsb (String.eqb k) EXECUTION_KINDS) kinds in
  expect (negb (bool_decide (retry = DiscoveryOnly) && has_execution)) "discovery-only retry required after invalid plan batch; execution/edit actions are not allowed yet" >?>
  expect (negb (bool_decide (retry = SinglePatchOnly)) || (bool_decide (length (filter (fun k => k = "apply_patch"%string) kinds) = 1) && forallb (String.eqb "apply_patch") kinds))
    "single-patch retry required after apply_patch failure; emit exactly one apply_patch action and nothing else" >?>
  expect (negb (has_discovery && has_execution)) "mixed discovery actions with execution/edit actions in one plan batch".
Definition validate_action_batch (actions : list (LoopPlanned.t V)) (retry : RetryPolicy) s (t : ObjectiveTrendState) (rs : list ExecResult)
    (forced_objective : option DevelopmentObjectiveKind) (forced_strategy : option DevelopmentStrategyKind) : Checked :=
  expect (length actions =? 1) ("planner must emit exactly one action per turn; got " +:+ pretty (lenN actions) +:+ " actions") >?>
  expect (ss_complete s) "semantic summary is incomplete" >?>
  match ss_target_root s with
  | None => Some (Err "semantic summary is missing target_root"%string)
  | Some root =>
      validate_retry actions retry >?>
      expect (bool_decide (primary_failure_class s = None) || meta_invariant_all_failures_typed (str <$> ss_failure_class s) (str <$> ss_failure_scope s))
        "meta_invariant_all_failures_typed violated: active semantic failure must include both failure_class and failure_scope" >?>
      validate_each s actions >?>
      Some (validate_preconditions (w_fs w) actions root (derive_preconditions_from_lines (ss_planning_preconditions s)) s) >?>
      (o ← derive_self_development_objective_state s 0 rs t;
       objective ← match forced_objective with Some k => Some k | None => primary_development_objective_kind o t s end;
       strategy ← match forced_strategy with Some k => Some k | None => primary_development_strategy_kind o t s end;
       Some (validate_objective_route_plan_alignment actions root "plan" (objective_focus objective) s) >?>
       Some (validate_trend_intent_alignment actions root rs t) >?>
       validate_development_strategy_alignment actions root s o t (Some strategy))
  end.
Definition planning_constraint_state s : ConstraintState :=
  let real p := match ss_target_root s with Some root => path_exists (w_fs w) (p root) | None => false end in
  let scope x := bool_decide (ss_failure_scope s = Some (lit x)) in
  Build_ConstraintState (ss_path_exists s) (ss_cargo_project s) (real id) (real (fun r => join_path r (lit "Cargo.toml")))
    (meta_invariant_has_actionable_failure (ss_validation_blocked_by_preconditions s) (ss_compiler_repair_required s) (length (ss_planning_preconditions s)) (length (ss_compiler_hints s)) (length (ss_module_gaps s)))
    (ss_validation_blocked_by_preconditions s) (entrypoint_is_missing s) (negb (bool_decide (ss_module_gaps s = []))) false (no_actionable_class s) (scope "localized") (scope "workspace") (scope "tooling") false false.
Definition planning_semantic_summary (o : option (LoopObserved.t V)) : result string SemanticStateSummary :=
  match o with
  | None => Err "last_observed is missing"%string
  | Some o =>
      let s := LoopObserved.semantic_summary o in
      if negb (ss_complete s) then Err "semantic summary is incomplete"%string
      else if bool_decide (ss_target_root s = None) then Err "semantic summary is missing target_root"%string
      else Ok s
  end.
End Validate.

(** ** Planned actions *)

Section Stage.
Context {V : Type} `{Json V} `{JsonSer V} `{PromptText V} (w : World V).
Implicit Types (trigger : EventId) (p : PendingPlan).

(** The kind, payload and reason of an action of the model. *)
Definition planned_of (default_cwd : string) (a : LlmAction) : string * V * string :=
  match a with
  | LaPatch path old new => ("patch_file"%string, jobj {[ "path" := jstr path; "old" := jstr old; "new" := jstr new ]}, "llm_patch"%string)
  | LaApplyPatch patch => ("apply_patch"%string, jsingle "patch" (jstr patch), "llm_apply_patch"%string)
  | LaCommand cmd cwd => ("run_command"%string, jobj {[ "cmd" := jstr cmd; "cwd" := jstr (default default_cwd cwd) ]}, "llm_command"%string)
  | LaWrite path content => ("write_file"%string, jobj {[ "path" := jstr path; "content" := jstr content ]}, "llm_write"%string)
  | LaReadFile path => ("read_file"%string, jsingle "path" (jstr path), "llm_read_file"%string)
  | LaListDir path => ("list_dir"%string, jsingle "path" (jstr path), "llm_list_dir"%string)
  | LaAddImport path i => ("edit.add_import"%string, jobj {[ "path" := jstr path; "import" := jstr i ]}, "llm_add_import"%string)
  | LaDefineSymbolStub path symbol kind => ("edit.define_symbol_stub"%string, jobj {[ "path" := jstr path; "symbol" := jstr symbol; "kind" := jstr kind ]}, "llm_define_symbol_stub"%string)
  | LaCreateModuleFile path m => ("edit.create_module_file"%string, jobj {[ "path" := jstr path; "module" := to_value m ]}, "llm_create_module_file"%string)
  | LaMoveSymbol path id m => ("edit.move_symbol"%string, jobj {[ "path" := jstr path; "symbol_id" := jstr id; "new_module_path" := jstr m ]}, "llm_move_symbol"%string)
  | LaRenameSymbol path old new => ("edit.rename_symbol"%string, jobj {[ "path" := jstr path; "old" := jstr old; "new" := jstr new ]}, "llm_rename_symbol"%string)
  | LaDone reason => ("done"%string, jempty, reason)
  end.
Definition default_cwd (c : LoopContext V) p : string := str (default (lc_workspace c) (pp_goal_text p ≫= fun t => gs_target_path (parse_agent_goal_markdown (V := V) (lit t)))).
Definition loc_satisfied (c : LoopContext V) (goal : string) : bool :=
  let required := extract_required_loc (lit goal) in (required =? 0)%N || (required <=? count_loc_in_workspace (w_fs w) (lc_workspace c))%N.
Definition mark_done p : M V unit :=
  upd (fun c => match pp_goal_text p with Some goal => if loc_satisfied c goal then c <| lc_last_done_goal := Some goal |> else c | None => c <| lc_last_done_goal := None |> end).
Fixpoint plan_actions p (signals : option V) (l : list ActionPlan) : M V (list (LoopPlanned.t V)) :=
  match l with
  | [] => mret []
  | a :: rest =>
      let! step := uuid w in
      let! span := uuid w in
      let! c := ctx in
      (if is_done a then mark_done p else mret tt) ;;!
      let '(kind, payload, reason) := planned_of (default_cwd c p) (ap_action a) in
      let! out := plan_actions p signals rest in
      mret (LoopPlanned.mk (pp_tick p) kind payload reason (Some (pp_request_id p)) signals (Some (pp_trace_id p)) (Some (pp_execution_id p)) (Some span) (Some (pp_span_id p)) (Some (pp_plan_id p))
        (Some step) (Some step) (ap_depends_on a) :: out)
  end.
Definition set_missing (k : string) (v : option V) (payload : V) : V :=
  match json_get k payload, v with None, Some v => set_fields payload [(k, v)] | _, _ => payload end.
(** The failure an action addresses and the verifier it declares. *)
Definition annotate (s : SemanticStateSummary) (a : LoopPlanned.t V) : LoopPlanned.t V :=
  if String.eqb (LoopPlanned.action_kind a) "done" then a
  else
    let payload := LoopPlanned.action_payload a in
    let payload := match primary_failure_class s with
      | Some class => set_missing "failure_scope" (Some (jstr (str (default (lit "none") (ss_failure_scope s))))) (set_missing "failure_class" (Some (jstr (str class))) payload)
      | None => payload
      end in
    let payload := set_missing "verifier" (jstr <$> meta_invariant_expected_verifier (LoopPlanned.action_kind a) payload) payload in
    LoopPlanned.mk (LoopPlanned.tick a) (LoopPlanned.action_kind a) payload (LoopPlanned.reason a) (LoopPlanned.llm_request_id a) (LoopPlanned.signals a) (LoopPlanned.trace_id a) (LoopPlanned.execution_id a)
      (LoopPlanned.span_id a) (LoopPlanned.parent_span_id a) (LoopPlanned.plan_id a) (LoopPlanned.plan_step_id a) (LoopPlanned.action_id a) (LoopPlanned.depends_on a).

(** ** Rejection *)

Definition feature_name (i : DiscoveredInvariant) : string :=
  match i with
  | ForcePlanWhenMissingTarget => "discovered:force_plan_missing_target" | ForcePlanWhenValidationBlocked => "discovered:force_plan_validation_blocked"
  | ForcePlanWhenObjectiveContradiction => "discovered:force_plan_objective_contradiction" | ForceObserveWhenNoActionableFailure => "discovered:force_observe_refresh_on_repeated_noop"
  end.
Definition discovered_event (feature : string) (support : N) : RuntimeEvent.t V := RuntimeEvent.InvariantDiscovered (InvariantDiscovered.mk feature (f32_of_Z 1) support).
Definition observe_fingerprint (f : FailureFingerprint) : M V (option InvariantPromotion) :=
  fun s => let '(store, promotion) := observe_failure_fingerprint f (sg_store s) in (s <| sg_store := store |>, Ok promotion).
Definition drain_store : M V (list StoreEvent) := fun s => (s <| sg_store ::= fun x => {| st := st x; disk := disk x; store_events := [] |} |>, Ok (store_events (sg_store s))).
Definition store_event (e : StoreEvent) : RuntimeEvent.t V :=
  RuntimeEvent.Debug (DebugEvent.mk "invariant_store" (if se_loaded e then "persisted_invariants_loaded" else "persisted_invariants_updated")
    (jobj {[ "path" := jstr (w_store_path w); "support_entries" := to_value (N.of_nat (support_entries e)); "promoted_entries" := to_value (N.of_nat (promoted_entries e)); "reason" := jstr (se_reason e) ]})).
Definition completed (tick : N) (request : option string) (count : N) (status : string) : RuntimeEvent.t V := RuntimeEvent.PlanningCompleted (PlanningCompleted.mk tick request count status).
Definition forget_planned_tick : M V unit := upd (fun c => c <| lc_last_planned_observed_tick := None |>).
Definition reject_plan p (out : list (LoopPlanned.t V)) (retry : RetryPolicy) (s : SemanticStateSummary) (message : string) : M V (LoopStageResult V) :=
  let! promotion := observe_fingerprint {| fp_kind := InvalidPlanBatch; fp_route := Some Plan; fp_state := planning_constraint_state w s |} in
  forget_planned_tick ;;!
  let! stored := drain_store in
  let! id := uuid w in
  let count := to_value (lenN out) in
  mret (EmitMany (
    [discovered_event "invalid_plan_batch" 1] ++
    match promotion with Some q => [discovered_event (feature_name (ip_invariant q)) (ip_support q)] | None => [] end ++
    (store_event <$> stored) ++
    [RuntimeEvent.Debug (DebugEvent.mk "plan_stage" "invalid_plan_batch" (decision_trace_payload "plan rejected before execution"
       (jobj {[ "reason" := jstr message; "planned_count" := count; "retry_policy" := jstr (retry_str retry) ]})));
     RuntimeEvent.ErrorOccurred (new_error_occurred "invalid_plan_batch" "plan_stage" ("invalid plan batch before execution: " +:+ message) "warning"
       (jobj {[ "planned_count" := count; "recoverable" := jbool true; "retry_policy" := jstr (retry_str retry) ]}) None id);
     completed (pp_tick p) (Some (pp_request_id p)) 0 "invalid_plan"])).

(** ** The answer arrives *)

Definition plan_tool_result (tool_call_id request_id : string) (success : bool) trigger : M V unit :=
  let! id := uuid w in
  emit w "plan::emit_tool_result" (RuntimeEvent.ToolResult (ToolResult.mk "plan_consumer" tool_call_id id request_id "llm.plan" jempty success)) [trigger].
Definition accept_plan p (out : list (LoopPlanned.t V)) : M V (LoopStageResult V) :=
  let! c := ctx in
  let hash := w_hash_batch w ((fun a => (LoopPlanned.action_kind a, w_to_text w (LoopPlanned.action_payload a))) <$> out) in
  if bool_decide (lc_last_emitted_plan_hash c = Some hash) then forget_planned_tick ;;! mret Noop
  else
    upd (fun c => c <| lc_last_emitted_plan_hash := Some hash |>) ;;!
    mret (EmitMany ((RuntimeEvent.LoopPlanned <$> out) ++ [completed (pp_tick p) (Some (pp_request_id p)) (lenN out) "planned"])).
Definition planned_batch p (signals : option V) (actions : list ActionPlan) : M V (LoopStageResult V) :=
  let! out := plan_actions p signals actions in
  let! c := ctx in
  let! retry := or_panic (retry_policy_for_planning_context (lit <$> lc_last_invalid_plan_reason c) (lc_consecutive_invalid_plan_batches c) (lc_recent_execution_results c) (lc_objective_trend_state c)) "attempt to add with overflow" in
  let s := match planning_semantic_summary (lc_last_observed c) with Ok s => s | Err _ => summary_default end in
  let out := annotate s <$> out in
  let! verdict := or_panic (validate_action_batch w out retry s (lc_objective_trend_state c) (lc_recent_execution_results c) (lc_forced_primary_objective c) (lc_forced_primary_strategy c)) "panic during validation" in
  match verdict with Err message => reject_plan p out retry s message | Ok _ => accept_plan p out end.
Definition plan_execute_complete (k : CapabilityCompleted.t V) trigger : M V (LoopStageResult V) :=
  let! c := ctx in
  match lc_pending_plan c with
  | None => mret (Emit (RuntimeEvent.Debug (DebugEvent.mk "plan_stage" "pending_plan_missing_telemetry" (jsingle "semantic_violation" (jbool true)))))
  | Some p =>
      if negb (String.eqb (pp_request_id p) (CapabilityCompleted.request_id k)) then mret Noop
      else
        upd (fun c => c <| lc_pending_plan := None |>) ;;!
        plan_tool_result (pp_plan_tool_call_id p) (pp_request_id p) true trigger ;;!
        let '(actions, signals) := match CapabilityCompleted.result k with LlmOut l => parse_llm_actions (w_parse w) (response l) | _ => ([], None) end in
        if match pp_goal_text p with Some g => is_placeholder_goal g | None => true end then
          forget_planned_tick ;;!
          mret (EmitMany [RuntimeEvent.Debug (DebugEvent.mk "decision" "decision_trace" (decision_trace_payload "goal_placeholder" (jsingle "route" (jstr "observe"))));
                          completed (pp_tick p) (Some (pp_request_id p)) 0 "goal_placeholder"])
        else
          upd (fun c => c <| lc_last_llm_signals := signals |>) ;;!
          let actions := if (1 <? length actions) && existsb is_done actions then List.filter (fun a => negb (is_done a)) actions else actions in
          if bool_decide (length actions = 0) then forget_planned_tick ;;! mret Noop
          else planned_batch p signals actions
  end.
Definition plan_execute_failed (f : CapabilityFailed.t) trigger : M V (LoopStageResult V) :=
  let! c := ctx in
  match lc_pending_plan c with
  | None => mret Noop
  | Some p =>
      if negb (String.eqb (pp_request_id p) (CapabilityFailed.request_id f)) then mret Noop
      else
        upd (fun c => c <| lc_pending_plan := None |>) ;;!
        plan_tool_result (pp_plan_tool_call_id p) (pp_request_id p) false trigger ;;!
        mret (Emit (completed (pp_tick p) (Some (pp_request_id p)) 0 "llm_failed"))
  end.

(** ** The question is asked *)

Definition requirements_satisfied (c : LoopContext V) (o : LoopObserved.t V) : bool := match LoopObserved.goal_text o with Some goal => loc_satisfied c goal | None => false end.
Definition HEURISTIC_RATIONALE : string := "heuristic proposal from runtime state".
Definition prompt_rationale (c : LoopContext V) (rationale : option string) (confidence : option f32) : option string * option f64 :=
  match rationale with
  | Some r => if negb (String.eqb r "") && negb (String.eqb r HEURISTIC_RATIONALE) then (Some r, f64_of_f32 <$> confidence) else (lc_last_route_rationale_non_empty c, lc_last_route_confidence_non_empty c)
  | None => (lc_last_route_rationale_non_empty c, lc_last_route_confidence_non_empty c)
  end.
Definition ask_model (o : LoopObserved.t V) trigger (base delta : string) : M V (LoopStageResult V) :=
  let! c := ctx in
  let system_id := w_hash_text w system_instructions in
  let base_id := w_hash_text w base in
  let delta_id := w_hash_text w delta in
  let send_system := negb (bool_decide (lc_last_system_prompt_id c = Some system_id)) in
  let send_base := negb (bool_decide (lc_last_context_base_id c = Some base_id)) in
  if negb send_system && negb send_base && bool_decide (lc_last_delta_hash c = Some delta_id) then mret Noop
  else
    upd (fun c => c <| lc_last_system_prompt_id := Some system_id |> <| lc_last_context_base_id ::= fun old => if send_base then Some base_id else old |> <| lc_last_delta_hash := Some delta_id |>) ;;!
    let! request_id := uuid w in
    let! trace_id := uuid w in
    let! execution_id := uuid w in
    let! span_id := uuid w in
    let! plan_id := uuid w in
    let! call_id := uuid w in
    upd (fun c => c <| lc_batch_acted := [] |> <| lc_batch_tool_results := [] |>
      <| lc_pending_plan := Some (MkPendingPlan (LoopObserved.tick o) request_id (LoopObserved.tick o) (LoopObserved.goal_text o) trace_id execution_id span_id plan_id call_id) |>
      <| lc_last_prompted_goal := LoopObserved.goal_text o |> <| lc_last_planned_observed_tick := Some (LoopObserved.tick o) |>) ;;!
    emit w "plan::handle_observed" (RuntimeEvent.ToolCall (ToolCall.mk "plan_consumer" call_id request_id "llm.plan" (jsingle "role" (jstr "planner")) true)) [trigger] ;;!
    emit w "plan::handle_observed" (RuntimeEvent.Llm (LlmCall.mk request_id delta (Some "planner"%string) (lc_agent_id c) true (if send_system then Some system_instructions else None) (Some (pretty system_id))
      (if send_base then Some base else None) (Some (pretty base_id)) (Some (pretty system_id)) (pretty <$> lc_last_system_prompt_id c))) [trigger] ;;!
    mret Deferred.
Definition handle_observed (o : LoopObserved.t V) trigger (rationale : option string) (confidence : option f32) : M V (LoopStageResult V) :=
  let! c := ctx in
  if bool_decide (lc_last_planned_observed_tick c = Some (LoopObserved.tick o)) then mret Noop
  else
    match planning_semantic_summary (Some o) with
    | Err message =>
        mret (Emit (RuntimeEvent.Debug (DebugEvent.mk "plan_stage" "plan_suppressed" (decision_trace_payload "planning rejected because semantic observation is unavailable"
          (jobj {[ "reason" := jstr message; "recoverable" := jbool true; "tick" := to_value (LoopObserved.tick o) ]})))))
    | Ok s =>
        let hash := w_hash_observed w (LoopObserved.error_count o) (LoopObserved.goal_text o) s in
        let clean := (LoopObserved.error_count o =? 0)%N in
        let done_before := clean && bool_decide (is_Some (lc_last_done_goal c)) && bool_decide (lc_last_done_goal c = LoopObserved.goal_text o) in
        if bool_decide (lc_last_handled_observed_hash c = Some hash) then mret Noop
        else if match LoopObserved.goal_text o with Some g => is_placeholder_goal g | None => true end && clean then mret Noop
        else if done_before && requirements_satisfied c o then mret (Emit (completed (LoopObserved.tick o) None 0 "goal_complete"))
        else
          (if done_before then upd (fun c => c <| lc_last_done_goal := None |>) else mret tt) ;;!
          upd (fun c => c <| lc_last_handled_observed_hash := Some hash |>) ;;!
          let! c := ctx in
          let '(r, k) := prompt_rationale c rationale confidence in
          let! base := or_panic (context_base w c o s r k) "byte index is not a char boundary" in
          let! delta := or_panic (context_delta w c o s r k) "byte index is not a char boundary" in
          ask_model o trigger base delta
    end.

(** *** A workspace to bootstrap *)

Definition bootstrap_command (choice : BootstrapCommandChoice) (root : bytes) : option (bytes * bytes * string) :=
  match choice with
  | ChooseCargoNew => Some (lit "cargo new --bin " ++ default (lit "app") (file_name root), default [SLASH] (parent root), "deterministic_bootstrap_workspace"%string)
  | ChooseCargoInit => Some (lit "cargo init --bin .", root, "deterministic_init_cargo_project"%string)
  | NoBootstrapNeeded => None
  end.
Definition target_of_text (text : option string) : option bytes := text ≫= fun t => gs_target_path (parse_agent_goal_markdown (V := V) (lit t)).
Definition deterministic_bootstrap_plan (rs : RouteSelected.t) (o : LoopObserved.t V) : M V (option (LoopStageResult V)) :=
  let s := LoopObserved.semantic_summary o in
  let ps := derive_preconditions_from_lines (ss_planning_preconditions s) in
  let needs_bootstrap := bool_decide (MustBootstrapWorkspace ∈ ps) in
  let! c := ctx in
  if negb needs_bootstrap && negb (bool_decide (MustInitCargoProject ∈ ps)) then mret None
  else
    match or_opt (ss_target_root s) (or_opt (target_of_text (LoopObserved.goal_text o)) (target_of_text (lc_goal_text c))) with
    | None => mret None
    | Some root =>
        match bootstrap_command (if needs_bootstrap then select_bootstrap_command (w_fs w) root else ChooseCargoInit) root with
        | None => mret None
        | Some (cmd, cwd, reason) =>
            upd (fun c => c <| lc_last_planned_observed_tick := Some (LoopObserved.tick o) |>) ;;!
            let! span := uuid w in
            let! step := uuid w in
            let payload := jobj {[ "cmd" := jstr (str cmd); "cwd" := jstr (str cwd); "verifier" := jstr "cargo_check"; "failure_class" := jstr (str (default (lit "missing_target") (primary_failure_class s)));
                                   "failure_scope" := jstr (str (default (lit "workspace") (ss_failure_scope s))) ]} in
            mret (Some (EmitMany [RuntimeEvent.LoopPlanned (LoopPlanned.mk (RouteSelected.tick rs) "run_command" payload reason None None None None (Some span) None None (Some step) (Some step) [])]))
        end
    end.

Definition check_llm_timeout (current_tick : N) : M V (option (RuntimeEvent.t V)) :=
  let! c := ctx in
  match lc_pending_plan c with
  | None => mret None
  | Some p =>
      if (current_tick - pp_dispatched_at_tick p <? LLM_TIMEOUT_TICKS)%N then mret None
      else upd (fun c => c <| lc_pending_plan := None |>) ;;! mret (Some (completed (pp_tick p) None 0 "llm_timeout"))
  end.
Definition plan_execute_trigger (rs : RouteSelected.t) trigger : M V (LoopStageResult V) :=
  let! timeout := check_llm_timeout (RouteSelected.tick rs) in
  match timeout with
  | Some e => mret (Emit e)
  | None =>
      let! c := ctx in
      match lc_last_observed c with
      | None => mret Noop
      | Some o =>
          let! bootstrap := deterministic_bootstrap_plan rs o in
          match bootstrap with Some r => mret r | None => handle_observed o trigger (Some (RouteSelected.rationale rs)) (RouteSelected.confidence rs) end
      end
  end.
End Stage.

(** The stages of the executor. *)
#[export] Instance work_stages {V} `{Json V} `{JsonSer V} `{PromptText V} : WorkStages V := {|
  plan_trigger w rs id := plan_execute_trigger w rs id;
  plan_complete w k id := plan_execute_complete w k id;
  plan_failed w f id := plan_execute_failed w f id;
  act_dispatch w _ id := execute_dispatch w id;
  act_complete w k id := execute_complete w k id;
  act_failed w f _ := execute_failed w f
|}.
