(* ===== verification/StageProps.v ===== *)
(** * Properties of the stages of the loop

    The names of the artifacts, the guard on destructive commands, the plans
    that pass validation, what the answer of the model means, and the bounds of
    the reward. *)
From Stdlib Require Import Floats.SpecFloat.
From stdpp Require Import pretty.
From S2P Require Import Prelude Json Text PatchParser TextFormat Paths Wire SemanticState SemanticText Gatekeeper Objectives Goal LoopPolicy ConstraintEngine Discovery ExecConstraints CompilerHints Workspace Preconditions Scheduler EventShape KernelTypes Events EventBus RouteContext Merge LoopContext LoopStages ActStage LoopExecutor PlanStage.

(** ** Artifact names *)

Lemma split_byte_nonempty c l : split_byte c l <> [].
Proof. destruct l as [|b l]; [done|]. cbn. destruct (Byte.eqb b c); [done|]. by destruct (split_byte c l). Qed.
Lemma join_split_byte c l : join [c] (split_byte c l) = l.
Proof.
  induction l as [|b l IH]; [done|]. cbn [split_byte]. rewrite byte_eqb_spec. pose proof (split_byte_nonempty c l) as Hs. destruct (split_byte c l) as [|s ss]; [done|]. rewrite <- IH. case_bool_decide as Hb; [by subst b|by destruct ss].
Qed.
Lemma split_byte_two c l : c ∈ l -> exists a b rest, split_byte c l = a :: b :: rest.
Proof.
  intros Hl. destruct (list_elem_of_split _ _ Hl) as (l1 & l2 & ->). rewrite split_byte_app. pose proof (split_byte_nonempty c l1). pose proof (split_byte_nonempty c l2).
  destruct (split_byte c l1) as [|a [|b rest]], (split_byte c l2); try done; by do 3 eexists.
Qed.
Lemma parse_zeros max k n rest : foldl (push_digit max) (Some 0%N) rest = Some n -> foldl (push_digit max) (Some 0%N) (replicate k x30 ++ rest) = Some n.
Proof. induction k as [|k IH]; [done|]. intros Hr. cbn [replicate app foldl]. replace (push_digit max (Some 0%N) x30) with (Some 0%N) by by destruct max. exact (IH Hr). Qed.
Lemma pad9_digits n b : b ∈ pad9 n -> digit_value b <> None.
Proof. unfold pad9. cbv zeta. intros [[-> _]%elem_of_replicate|Hb]%elem_of_app; [done|]. by eapply dec_no_plus. Qed.
Lemma parse_pad9 n : (n <= u32_max)%N -> parse_uint u32_max (pad9 n) = Some n.
Proof.
  intros Hn. assert (Hf : foldl (push_digit u32_max) (Some 0%N) (pad9 n) = Some n) by (apply parse_zeros, dec_fuel_parse; [exact Hn|lia]).
  pose proof (pad9_digits n) as Hd. assert (Hne : pad9 n <> []) by (unfold pad9; intros [_ Hnil]%app_nil; by apply (dec_nonempty n)). unfold parse_uint. destruct (pad9 n) as [|b s]; [done|].
  destruct (decide (b = x2b)) as [->|Hb]; [exfalso; by apply (Hd x2b); [apply list_elem_of_here|]|by destruct b].
Qed.
Lemma pad9_no_underscore n : UNDERSCORE ∉ pad9 n.
Proof. intros Hu. by apply (pad9_digits n UNDERSCORE Hu). Qed.

Lemma artifact_name_parses n suffix : (n <= u32_max)%N ->
  parse_artifact_name (lit (artifact_name n suffix)) = if bool_decide (UNDERSCORE ∈ lit suffix) then Some (n, lit suffix ++ lit ".json", None) else None.
Proof.
  intros Hn. unfold parse_artifact_name, splitn3, artifact_name. rewrite lit_str. cbn [app]. rewrite split_byte_one by apply pad9_no_underscore. case_bool_decide as Hu.
  - destruct (split_byte_two UNDERSCORE (lit suffix ++ lit ".json")) as (a & b & rest & Hs); [by apply elem_of_app; left|]. rewrite Hs. cbn [mbind option_bind]. rewrite parse_pad9 by exact Hn.
    pose proof (join_split_byte UNDERSCORE (lit suffix ++ lit ".json")) as Hj. rewrite Hs in Hj. by rewrite <- Hj.
  - rewrite split_byte_none; [done|]. intros [?|Hj]%elem_of_app; [done|]. revert Hj. rewrite list_elem_of_In. vm_compute. intuition discriminate.
Qed.
Lemma foldl_max_ge l n m : (n <= m)%N \/ n ∈ l -> (n <= foldl N.max m l)%N.
Proof.
  revert m. induction l as [|k l IH]; intros m Hn; cbn [foldl]; [destruct Hn as [Hn|Hn]; [exact Hn|by apply elem_of_nil in Hn]|]. apply IH. destruct Hn as [Hn|[->|Hn]%elem_of_cons]; [left; lia|left; lia|by right].
Qed.
Lemma counter_exceeds names name n x : name ∈ names -> parse_artifact_name name = Some (n, x.1, x.2) -> (n < next_tool_artifact_counter names)%N \/ next_tool_artifact_counter names = u32_max.
Proof.
  intros Hin Hp. assert (Hn : n ∈ omap (fun name => (fun x => x.1.1) <$> parse_artifact_name name) names) by (apply list_elem_of_omap; exists name; split; [exact Hin|by rewrite Hp]).
  unfold next_tool_artifact_counter. destruct (omap _ names) as [|m rest]; [by apply elem_of_nil in Hn|]. unfold sat_add32.
  assert (Hle : (n <= foldl N.max m rest)%N).
  { apply foldl_max_ge. apply elem_of_cons in Hn as [->|Hn]; [by left|by right]. }
  lia.
Qed.
(** the name of an artifact gives back its number and its suffix, provided
    the suffix has an underscore of its own (a name with a one-word suffix is
    not recognised at all); and the counter a loop starts with is fresh: an
    artifact written under it never replaces one that is there. *)
Theorem artifact_names : (forall n suffix, (n <= u32_max)%N ->
    parse_artifact_name (lit (artifact_name n suffix)) = if bool_decide (UNDERSCORE ∈ lit suffix) then Some (n, lit suffix ++ lit ".json", None) else None) /\
  (forall names suffix, UNDERSCORE ∈ lit suffix -> (next_tool_artifact_counter names < u32_max)%N -> lit (artifact_name (next_tool_artifact_counter names) suffix) ∉ names).
Proof.
  split; [exact artifact_name_parses|]. intros names suffix Hu Hc Hin. pose proof (artifact_name_parses (next_tool_artifact_counter names) suffix ltac:(lia)) as Hp. rewrite bool_decide_eq_true_2 in Hp by exact Hu.
  destruct (counter_exceeds names _ _ (_, _) Hin Hp); lia.
Qed.

(** ** Destructive commands *)

Lemma parts_app base rest : let '(first, names) := parts base in parts (base ++ SLASH :: rest) = (first, names ++ split_byte SLASH rest).
Proof. unfold parts. rewrite split_byte_app. pose proof (split_byte_nonempty SLASH base). by destruct (split_byte SLASH base) as [|first names]. Qed.
Lemma components_app base rest : base <> [] -> components (base ++ SLASH :: rest) = ((components base).1, (components base).2 ++ filter (fun x => is_skipped x = false) (split_byte SLASH rest)).
Proof.
  intros Hb. unfold components. pose proof (parts_app base rest) as Hp. destruct (parts base) as [first names]. rewrite Hp. f_equal; [by destruct base|]. by rewrite filter_app, app_assoc.
Qed.
Lemma join_under base p : is_absolute p = false -> path_starts_with (join_path base p) base = true.
Proof.
  intros Hp. unfold join_path. rewrite Hp. destruct base as [|b base'] eqn:Hbase; [unfold path_starts_with, components; cbn; destruct (parts p); by rewrite Hp|]. rewrite <- Hbase. assert (Hne : base <> []) by by rewrite Hbase.
  clear Hbase. destruct (last base) as [l|] eqn:Hl; [|by apply last_None in Hl]. unfold path_starts_with. rewrite byte_eqb_spec. case_bool_decide as Hs.
  - subst l. apply last_Some in Hl as [front ->]. rewrite <- app_assoc. cbn [app]. destruct front as [|f front']; [reflexivity|]. rewrite !components_app by done. cbn [fst snd split_byte]. rewrite filter_cons_False, filter_nil, app_nil_r by done. by rewrite eqb_reflx, names_prefix_app.
  - change ([SLASH] ++ p) with (SLASH :: p). rewrite components_app by exact Hne. cbn [fst snd app]. by rewrite eqb_reflx, names_prefix_app.
Qed.


(** ** A workspace *)

#[export] Instance sample_prompts : PromptText jval := {| system_instructions := "one action per turn"; context_base _ _ _ _ _ _ := Some ""%string; context_delta _ _ _ _ _ _ := Some ""%string |}.
(** A workspace with a manifest and an entry point. *)
Definition sample_main : FileTree := TFile (Some (lit "fn main() {}")).
Definition sample_src : FileTree := TDir [(lit "main.rs", sample_main)].
Definition sample_manifest : FileTree := TFile (Some (lit "[package]")).
Definition sample_files (p : bytes) : option FileTree :=
  if bool_decide (p = lit "/w") then Some (TDir [(lit "Cargo.toml", sample_manifest); (lit "src", sample_src)])
  else if bool_decide (p = lit "/w/Cargo.toml") then Some sample_manifest
  else if bool_decide (p = lit "/w/src") then Some sample_src
  else if bool_decide (p = lit "/w/src/main.rs") then Some sample_main
  else None.
Definition no_edit : EditReport := MkReport [] None.
Definition sample_world : World jval :=
  MkWorld jval (fun n => pretty n) (fun n => n) (fun place => (place, 1%N)) sample_files sample_files false None (fun _ => ""%string) (fun _ => ""%string) (fun _ => ""%string) (fun _ => None)
    (fun x => x) "store" (fun _ => 0%N) (fun _ _ _ => 0%N) (fun _ => 0%N) (fun _ => 0%N) (fun _ => 0%N) (fun _ _ => 0%N) None (fun _ => false)
    (fun _ => Ok (true, ""%string)) (fun _ _ _ => None) (fun _ _ _ => None) (fun _ _ => Ok (0, 0, 0)) (fun _ _ _ => no_edit) (fun _ _ _ => no_edit) (fun _ _ _ => no_edit) (fun _ _ _ _ => no_edit) (fun _ _ _ => no_edit)
    (fun _ _ => Ok (MkProof true ""%string None [])).

(** ** Accepted plans *)

(** Membership in a list of names, by evaluation. *)
Ltac name_in := apply (bool_decide_eq_true_1 _); vm_compute; reflexivity.
Ltac name_not_in := apply (bool_decide_eq_false_1 _); vm_compute; reflexivity.

Lemma and_then_ok m k x : and_then m k = Some (Ok x) -> m = Some (Ok tt) /\ k = Some (Ok x).
Proof. destruct m as [[[]|]|]; done. Qed.
Lemma expect_ok b message x : expect b message = Some (Ok x) -> b = true.
Proof. unfold expect, check. by destruct b. Qed.
Definition PATH_KINDS : list string := ["edit.rename_symbol"; "edit.move_symbol"; "edit.add_import"; "edit.define_symbol_stub"; "edit.create_module_file"; "read_file"; "list_dir"; "write_file"; "patch_file"].
Section Accepted.
Context {V : Type} `{Json V} `{JsonSer V} (w : World V).
Implicit Types (a : LoopPlanned.t V) (s : SemanticStateSummary).
Lemma need_ok a k f x : need a k f = Some (Ok x) -> exists v, arg k a = Some v /\ f v = Some (Ok x).
Proof. unfold need. destruct (arg k a) as [v|]; [by eauto|done]. Qed.
Lemma relative_ok a path x : relative a path = Some (Ok x) -> is_absolute (lit path) = false /\ lit ".." ∉ (components (lit path)).2.
Proof. unfold relative, validate_workspace_relative_path. destruct (is_absolute (lit path)); [done|]. case_bool_decide; done. Qed.
(** Where an action works. *)
Definition contained a : Prop :=
  let kind := LoopPlanned.action_kind a in
  (kind ∈ PATH_KINDS -> exists path, arg "path" a = Some path /\ is_absolute (lit path) = false /\ lit ".." ∉ (components (lit path)).2) /\
  (kind = "run_command"%string -> exists cwd, arg "cwd" a = Some cwd /\ is_absolute (lit cwd) = true) /\
  (kind = "apply_patch"%string -> exists patch p, arg "patch" a = Some patch /\ parse_patch (lit patch) = Some (Ok p)) /\
  kind ∈ ["done"; "run_command"; "apply_patch"]%string ++ PATH_KINDS.
Lemma contained_path a path : LoopPlanned.action_kind a ∈ PATH_KINDS -> arg "path" a = Some path -> (exists x, relative a path = Some (Ok x)) -> contained a.
Proof.
  intros Hk Hp [x Hr]. apply relative_ok in Hr as [Ha Hn]. unfold contained. split_and!; [by eauto|intros Hk'; rewrite Hk' in Hk; exfalso; revert Hk; name_not_in..|].
  by apply elem_of_app; right.
Qed.
Lemma contained_other a k : LoopPlanned.action_kind a = k -> k ∈ ["done"; "run_command"; "apply_patch"]%string ->
  (k = "run_command"%string -> exists cwd, arg "cwd" a = Some cwd /\ is_absolute (lit cwd) = true) -> (k = "apply_patch"%string -> exists patch p, arg "patch" a = Some patch /\ parse_patch (lit patch) = Some (Ok p)) -> contained a.
Proof.
  intros <- Hk Hr Hp. unfold contained. split_and!; [|exact Hr|exact Hp|by apply elem_of_app; left]. intros Hk'. exfalso. revert Hk'.
  rewrite !elem_of_cons, elem_of_nil in Hk. destruct Hk as [->|[->|[->|[]]]]; name_not_in.
Qed.
Ltac kind_in := match goal with Hk : LoopPlanned.action_kind _ = _ |- _ => rewrite Hk; name_in end.
Lemma validate_shape_ok a x : validate_shape w a = Some (Ok x) -> contained a.
Proof.
  unfold validate_shape. destruct (String.eqb_spec (LoopPlanned.action_kind a) "apply_patch") as [Hk|_].
  { intros Hv. eapply contained_other; [exact Hk|name_in|done|]. intros _. destruct (arg "patch" a) as [patch|]; [|done]. destruct (parse_patch (lit patch)) as [[p|e]|] eqn:Hpp; [|done..]. by eauto. }
  destruct (String.eqb_spec (LoopPlanned.action_kind a) "run_command") as [Hk|_].
  { intros Hv%expect_ok. eapply contained_other; [exact Hk|name_in| |done]. intros _. apply andb_prop in Hv as [He Ha]. destruct (arg "cwd" a) as [cwd|]; [by eauto|done]. }
  assert (Hpath : forall path y m b, LoopPlanned.action_kind a ∈ PATH_KINDS -> arg "path" a = Some path -> and_then (expect b m) (relative a path) = Some (Ok y) -> contained a).
  { intros path y m b Hk Hp [_ Hr]%and_then_ok. by apply (contained_path a path); eauto. }
  destruct (String.eqb_spec (LoopPlanned.action_kind a) "edit.rename_symbol") as [Hk|_]; [intros (old & _ & (new & _ & (path & Hp & Hv)%need_ok)%need_ok)%need_ok; eapply Hpath; [kind_in|exact Hp|exact Hv]|].
  destruct (String.eqb_spec (LoopPlanned.action_kind a) "edit.move_symbol") as [Hk|_]; [intros (old & _ & (new & _ & (path & Hp & Hv)%need_ok)%need_ok)%need_ok; eapply Hpath; [kind_in|exact Hp|exact Hv]|].
  destruct (String.eqb_spec (LoopPlanned.action_kind a) "edit.add_import") as [Hk|_]; [intros (i & _ & (path & Hp & Hv)%need_ok)%need_ok; eapply Hpath; [kind_in|exact Hp|exact Hv]|].
  destruct (String.eqb_spec (LoopPlanned.action_kind a) "edit.define_symbol_stub") as [Hk|_]; [intros (i & _ & (path & Hp & Hv)%need_ok)%need_ok; eapply Hpath; [kind_in|exact Hp|exact Hv]|].
  destruct (existsb _ _) eqn:Hex.
  - apply existsb_exists in Hex as (k & Hin & Hk%String.eqb_eq). intros (path & Hp & Hv)%need_ok. apply (contained_path a path); [|exact Hp|by eauto]. rewrite Hk. cbn [In] in Hin. destruct Hin as [<-|[<-|[<-|[<-|[<-|[]]]]]]; name_in.
  - intros Hv%expect_ok%String.eqb_eq. eapply contained_other; [exact Hv|name_in|done|done].
Qed.
(** What the retry policy asks of an action. *)
Definition follows_retry (retry : RetryPolicy) (kind : string) : Prop :=
  (retry = DiscoveryOnly -> kind ∉ EXECUTION_KINDS) /\ (retry = SinglePatchOnly -> kind = "apply_patch"%string).
Lemma validate_retry_one a retry x : validate_retry [a] retry = Some (Ok x) -> follows_retry retry (LoopPlanned.action_kind a).
Proof.
  unfold validate_retry. cbn [fmap list_fmap existsb forallb]. rewrite !orb_false_r, andb_true_r. intros (Hd%expect_ok & (Hs%expect_ok & _)%and_then_ok)%and_then_ok. split; intros ->.
  - rewrite bool_decide_eq_true_2 in Hd by done. cbn [andb] in Hd. apply negb_true_iff in Hd. intros Hin. apply not_true_iff_false in Hd. apply Hd, existsb_exists. exists (LoopPlanned.action_kind a).
    split; [by apply list_elem_of_In|apply String.eqb_refl].
  - rewrite (bool_decide_eq_true_2 (SinglePatchOnly = SinglePatchOnly)) in Hs by done. cbn [negb orb] in Hs. apply andb_prop in Hs as [_ Hs]. symmetry. by apply String.eqb_eq.
Qed.
Lemma validate_failure_ok s a x : validate_failure s a = Some (Ok x) ->
  (forall class, primary_failure_class s = Some class -> LoopPlanned.action_kind a <> "done"%string -> meta_invariant_any_action_cites_failure (LoopPlanned.action_payload a) (Some (str class)) = true) /\
  (meta_invariant_is_mutating_action (LoopPlanned.action_kind a) (LoopPlanned.action_payload a) = true -> meta_invariant_action_must_declare_verifier (LoopPlanned.action_kind a) (LoopPlanned.action_payload a) = true).
Proof.
  unfold validate_failure. intros [Hc Hv%expect_ok]%and_then_ok. split.
  - intros class Hcl Hd. rewrite Hcl in Hc. apply expect_ok, orb_prop in Hc as [Hc|Hc]; [by apply String.eqb_eq in Hc|exact Hc].
  - intros Hm. by rewrite Hm in Hv.
Qed.

(** C10: a batch that passes validation is one action of a known kind, planned
    from a complete summary: its path is relative and does not climb, so that
    it is under the target, its command runs in an absolute directory, its
    patch parses; it cites the active failure, declares the verifier of a
    mutation, follows the retry policy, and satisfies the preconditions. *)
Theorem accepted_plan_sound actions retry s t rs objective strategy x : validate_action_batch w actions retry s t rs objective strategy = Some (Ok x) ->
  exists a root, actions = [a] /\ ss_complete s = true /\ ss_target_root s = Some root /\ contained a /\
    (LoopPlanned.action_kind a ∈ PATH_KINDS -> forall c, exists path, arg "path" a = Some path /\ path_starts_with (resolve_action_path (lit path) c) (goal_target c) = true) /\
    (forall class, primary_failure_class s = Some class -> LoopPlanned.action_kind a <> "done"%string -> meta_invariant_any_action_cites_failure (LoopPlanned.action_payload a) (Some (str class)) = true) /\
    (meta_invariant_is_mutating_action (LoopPlanned.action_kind a) (LoopPlanned.action_payload a) = true -> meta_invariant_action_must_declare_verifier (LoopPlanned.action_kind a) (LoopPlanned.action_payload a) = true) /\
    follows_retry retry (LoopPlanned.action_kind a) /\
    validate_preconditions (w_fs w) actions root (derive_preconditions_from_lines (ss_planning_preconditions s)) s = Ok tt.
Proof.
  unfold validate_action_batch. intros (Hl%expect_ok%Nat.eqb_eq & (Hc%expect_ok & Hr)%and_then_ok)%and_then_ok. destruct actions as [|a [|]]; try done. destruct (ss_target_root s) as [root|]; [|done].
  apply and_then_ok in Hr as [Hretry Hr]. apply and_then_ok in Hr as [_ Hr]. apply and_then_ok in Hr as [Heach Hr]. apply and_then_ok in Hr as [Hpre _]. injection Hpre as Hpre.
  cbn [validate_each] in Heach. apply and_then_ok in Heach as [Hf Heach]. apply and_then_ok in Heach as [Hshape _]. apply validate_shape_ok in Hshape. apply validate_failure_ok in Hf as [Hcite Hver].
  exists a, root. split_and!; [done|exact Hc|done|exact Hshape| |exact Hcite|exact Hver|by eapply validate_retry_one|exact Hpre].
  intros Hk c. destruct Hshape as [Hp _]. destruct (Hp Hk) as (path & Ha & Habs & _). exists path. split; [exact Ha|]. unfold resolve_action_path. rewrite Habs. by apply join_under.
Qed.
End Accepted.

Definition sample_summary : SemanticStateSummary := set_target_root (set_complete summary_default true) (Some (lit "/w")).
Definition sample_plan : LoopPlanned.t jval := LoopPlanned.mk 1 "read_file" (jsingle "path" (jstr "src/main.rs")) "" None None None None None None None None None [].
Definition sample_context : LoopContext jval := loop_context_new (lit "/w") (lit "/w/log") (lit "/w/art") [] PolicyBlock.
Lemma accepted_plan_sound_witness : path_starts_with (resolve_action_path (lit "src/main.rs") sample_context) (goal_target sample_context) = true.
Proof.
  destruct (accepted_plan_sound (V := jval) sample_world [sample_plan] RetryNone sample_summary trend_default [] None None tt) as (a & root & Ha & _ & _ & _ & Hp & _); [vm_compute; reflexivity|].
  injection Ha as <-. destruct (Hp ltac:(name_in) sample_context) as (path & Hpath & Hs). assert (path = "src/main.rs"%string) as -> by (vm_compute in Hpath; congruence). exact Hs.
Defined.

(** ** The answer of the model *)

Section Answers.
Context {V : Type} `{Json V} `{JsonSer V} `{!JsonLaws V} `{!JsonSerLaws V}.
(** What planning makes of an action: a command without a directory gets the
    default one, and the reason of a [done] is lost, since it is not part of the
    payload. *)
Definition settled (default_cwd : string) (a : LlmAction) : LlmAction :=
  match a with LaCommand cmd cwd => LaCommand cmd (Some (default default_cwd cwd)) | LaDone _ => LaDone "done" | _ => a end.
Lemma json_get_str_jobj k m : json_get_str k (jobj m : V) = m !! k ≫= json_as_str.
Proof. unfold json_get_str. by rewrite json_get_jobj. Qed.
Lemma json_as_str_jstr x : json_as_str (jstr x : V) = Some x.
Proof. unfold json_as_str. by rewrite view_jstr. Qed.
Lemma json_as_str_option (x : option string) : json_as_str (to_value x : V) = x.
Proof. destruct x as [x|]; [apply json_as_str_jstr|]. cbn. unfold json_as_str. by rewrite view_jnull. Qed.
(** C12: the payload of a planned action, under the name of its kind, is read
    back as the action the model asked for, with two changes: a command
    without a directory has the default directory, and the reason of a [done]
    is the text done.  Every other action is read back unchanged. *)
Theorem planned_action_round_trip cwd a : let '(kind, payload, _) := planned_of (V := V) cwd a in
  parse_value_to_action (set_fields payload [("action"%string, jstr kind)]) = Some (MkActionPlan (settled cwd a) []).
Proof.
  destruct a; cbn [planned_of settled]; unfold set_fields, jempty, jsingle, parse_value_to_action, depends_of, get_s; rewrite view_jobj; cbn [foldl fst snd]; rewrite !json_get_str_jobj, json_get_jobj; simplify_map_eq; cbn [mbind option_bind];
    rewrite json_as_str_jstr; unfold action_of_name, get_s; cbn [existsb String.eqb Ascii.eqb Bool.eqb orb andb]; rewrite !json_get_str_jobj; simplify_map_eq; cbn [mbind option_bind fmap option_fmap option_map]; rewrite ?json_as_str_jstr, ?json_as_str_option; cbn [mbind option_bind fmap option_fmap option_map]; rewrite ?json_as_str_jstr; reflexivity.
Qed.
End Answers.
Lemma planned_action_round_trip_witness : parse_value_to_action (V := jval) (set_fields (planned_of "/w" (LaCommand "cargo check" None)).1.2 [("action"%string, jstr "run_command")]) = Some (MkActionPlan (LaCommand "cargo check" (Some "/w"%string)) []).
Proof. exact (planned_action_round_trip (V := jval) "/w" (LaCommand "cargo check" None)). Defined.

(** ** Rewards *)

Lemma artifact_names_witness : lit (artifact_name (next_tool_artifact_counter [lit "000000007_tool_call.json"]) "tool_call") ∉ [lit "000000007_tool_call.json"].
Proof. apply (proj2 artifact_names); [name_in|vm_compute; reflexivity]. Defined.
Definition f32_le (x y : f32) : bool := match SFcompare x y with Some Gt | None => false | _ => true end.
(** The rewards of the worst and the best of cases. *)
Definition worst (start : f32) : f32 := f32_sub (f32_sub (f32_sub start (f32_lit 4 10)) (f32_lit 4 10)) (f32_lit 3 10).
Definition best (start : f32) : f32 := f32_add (f32_add (f32_add (f32_add start (f32_lit 5 10)) (f32_lit 4 10)) (f32_lit 2 10)) (f32_lit 2 10).
Section Rewards.
Context {V : Type}.

(** a reward is defined once a verifier policy is known, starts at one or
    minus one with its bias, and stays between the worst and the best of cases
    from there; it resets the stagnation exactly when the bias is positive, or
    when the last result made progress and no graph proof failed. *)
Theorem reward_bounds (c : LoopContext V) : match evaluate_reward_semantics c, lc_last_verifier_reward_bias c with
  | Some r, Some bias =>
      let start := f32_of_Z (if String.eqb bias "positive" then 1 else -1) in
      f32_le (worst start) (rw_reward r) = true /\ f32_le (rw_reward r) (best start) = true /\
      rw_resets_stagnation r = String.eqb bias "positive" || (latest_semantic_progress (lc_recent_execution_results c) && negb (latest_graph_proof_failed (lc_recent_execution_results c)))
  | None, None => True
  | _, _ => False
  end.
Proof.
  unfold evaluate_reward_semantics. destruct (lc_last_verifier_reward_bias c) as [bias|]; [|done]. cbn [mbind option_bind]. cbv zeta. cbn [rw_reward rw_resets_stagnation]. cut (forall P Q R : Prop, (P /\ Q) /\ R -> P /\ Q /\ R); [intros Ha; apply Ha; split; [|done]|tauto].
  generalize (String.eqb bias "positive") (String.eqb (lc_last_action_kind c) "done") (latest_semantic_progress (lc_recent_execution_results c)) (latest_no_semantic_progress (lc_recent_execution_results c))
    (latest_graph_proof_verified (lc_recent_execution_results c)) (latest_graph_proof_failed (lc_recent_execution_results c)) (repair_resolution_rate (lc_objective_trend_state c) >?f f32_lit 5 10)
    ((0 <? ot_repeated_stall_count (lc_objective_trend_state c))%N && (0 <? ot_current_no_progress_streak (lc_objective_trend_state c))%N).
  intros b1 b2 b3 b4 b5 b6 b7 b8. destruct b1, b2, b3, b4, b5, b6, b7, b8; vm_compute; split; reflexivity.
Qed.
(** A passed verification can be rewarded below zero. *)
Lemma worst_positive : f32_le (worst (f32_of_Z 1)) f32_zero = true.
Proof. reflexivity. Qed.
End Rewards.
