(* ===== verification/LoopFrame.v ===== *)
(** * What a stage leaves alone

    A small program logic for the stages: [keeps I m Q] says that [m] preserves
    the invariant [I] of the stage, also when it panics, and that its result
    satisfies [Q].  Every invariant that depends on the [core] of the stage
    only (the ticks, the observation, the pending plan and the observations and
    plans emitted) is preserved by acting, rewarding, verifying, decomposing and
    by most handlers. *)
From stdpp Require Import pretty.
From S2P Require Import Prelude Json Text PatchParser TextFormat Paths Wire SemanticState SemanticText Gatekeeper Objectives Goal LoopPolicy ConstraintEngine Discovery ExecConstraints CompilerHints Workspace Preconditions Scheduler EventShape KernelTypes Events EventBus RouteContext Merge LoopContext LoopStages ActStage LoopExecutor PlanStage.

Create HintDb keeps discriminated.

Section Logic.
Context {V : Type} (I : Stage V -> Prop).
Definition keeps {A} (m : M V A) (Q : A -> Prop) : Prop := forall s, I s -> I (m s).1 /\ forall a, (m s).2 = Ok a -> Q a.
Definition any {A} (_ : A) : Prop := True.

Lemma keeps_ret {A} (a : A) (Q : A -> Prop) : Q a -> keeps (mret a) Q.
Proof. intros Ha s Hs. split; [exact Hs|]. intros b [= <-]. exact Ha. Qed.
Lemma keeps_seq {A B} (m : M V A) (k : A -> M V B) Q R : keeps m Q -> (forall a, Q a -> keeps (k a) R) -> keeps (mbind k m) R.
Proof.
  intros Hm Hk s Hs. destruct (Hm s Hs) as [HI HQ]. unfold mbind, stateR_bind. destruct (m s) as [s1 [a|err]]; [|by split]. exact (Hk a (HQ a eq_refl) s1 HI).
Qed.
Lemma keeps_weaken {A} (m : M V A) (Q R : A -> Prop) : keeps m Q -> (forall a, Q a -> R a) -> keeps m R.
Proof. intros Hm HQ s Hs. destruct (Hm s Hs) as [HI Ha]. split; [exact HI|]. eauto. Qed.
Lemma keeps_fail {A} err (Q : A -> Prop) : keeps (fail_with err) Q.
Proof. intros s Hs. by split. Qed.
Lemma keeps_gets {A} (f : Stage V -> A) : keeps (gets f) any.
Proof. intros s Hs. by split. Qed.
Lemma keeps_changed f : (forall s, I s -> I (f s)) -> keeps (modify f) any.
Proof. intros Hf s Hs. split; [by apply Hf|done]. Qed.
Lemma keeps_upd f : (forall s, I s -> I (s <| sg_ctx ::= f |>)) -> keeps (upd f) any.
Proof. apply keeps_changed. Qed.
Lemma keeps_or_panic {A} (o : option A) msg (Q : A -> Prop) : (forall a, o = Some a -> Q a) -> keeps (or_panic o msg) Q.
Proof. destruct o as [a|]; intros Ho; [apply keeps_ret; auto|apply keeps_fail]. Qed.
Lemma keeps_or_panic_any {A} (o : option A) msg : keeps (or_panic o msg) any.
Proof. by apply keeps_or_panic. Qed.
Lemma keeps_catch_unwind {A} (m : M V A) instead Q : keeps m Q -> Q instead -> keeps (catch_unwind m instead) Q.
Proof. intros Hm Hi s Hs. destruct (Hm s Hs) as [HI HQ]. unfold catch_unwind. destruct (m s) as [s1 [a|[msg|msg]]]; split; try done. intros b Hb. by simplify_eq/=. Qed.
Lemma keeps_attempt {A} (m : M V A) (Q : A -> Prop) : keeps m Q -> keeps (attempt m) (fun r => match r with Ok a => Q a | Err _ => True end).
Proof. intros Hm s Hs. destruct (Hm s Hs) as [HI HQ]. unfold attempt. destruct (m s) as [s1 [a|[msg|msg]]]; split; try done; intros b Hb; simplify_eq/=; auto. Qed.
End Logic.

(** ** The core of a stage *)

Section Core.
Context {V : Type}.
Implicit Types (e : RuntimeEvent.t V) (s : Stage V).
Definition relevant e : bool := match e with RuntimeEvent.LoopObserved _ | RuntimeEvent.LoopPlanned _ => true | _ => false end.
Definition emitted s : list (RuntimeEvent.t V) := filter (fun e => relevant e = true) (le_event <$> sg_out s).
Definition ctx_core (c : LoopContext V) : N * option N * option (LoopObserved.t V) * option PendingPlan := (lc_current_tick c, lc_last_observed_tick c, lc_last_observed c, lc_pending_plan c).
Definition core s : N * option N * option (LoopObserved.t V) * option PendingPlan * list (RuntimeEvent.t V) := (ctx_core (sg_ctx s), emitted s).
(** An invariant of the core. *)
Class CoreInvariant (I : Stage V -> Prop) : Prop := { core_invariant s s' : core s' = core s -> I s -> I s' }.
Definition idle e : Prop := relevant e = false.
Definition quiet_result (r : LoopStageResult V) : Prop := match r with Emit e => idle e | EmitMany es => Forall idle es | Noop | Deferred => True end.

Context (I : Stage V -> Prop) `{!CoreInvariant I}.
Lemma keeps_of_core {A} (m : M V A) : (forall s, core (m s).1 = core s) -> keeps I m any.
Proof. intros Hm s Hs. split; [exact (core_invariant s _ (Hm s) Hs)|done]. Qed.
Lemma keeps_uuid w : keeps I (uuid w) any.
Proof. by apply keeps_of_core. Qed.
Lemma keeps_now w : keeps I (now w) any.
Proof. by apply keeps_of_core. Qed.
Lemma keeps_write_json name v : keeps I (write_json name v) any.
Proof. by apply keeps_of_core. Qed.
Lemma keeps_upd_core f : (forall c, ctx_core (f c) = ctx_core c) -> keeps I (upd f) any.
Proof. intros Hf. apply keeps_of_core. intros s. exact (f_equal (fun x => (x, emitted s)) (Hf (sg_ctx s))). Qed.
Lemma emitted_emit w place e parents s : emitted (emit w place e parents s).1 = emitted s ++ if relevant e then [e] else [].
Proof. unfold emit. destruct (w_site w place) as [file line]. cbn [modify fst]. unfold emitted, update. cbn [sg_out]. rewrite fmap_app, filter_app. f_equal. cbn [fmap list_fmap le_event]. by destruct (relevant e) eqn:He; rewrite ?filter_cons_True, ?filter_cons_False by congruence. Qed.
Lemma keeps_emit w place e parents : idle e -> keeps I (emit w place e parents) any.
Proof.
  intros He. apply keeps_of_core. intros s. unfold core. rewrite emitted_emit, He, app_nil_r. unfold emit. by destruct (w_site w place).
Qed.
Lemma keeps_elapsed w t : keeps I (elapsed w t) any.
Proof. unfold elapsed. eapply keeps_seq; [apply keeps_now|]. intros a _. by apply keeps_ret. Qed.
End Core.

(** The steps of a proof of [keeps]. *)
Ltac keep_update := apply keeps_upd_core; [exact _|]; let c := fresh "c" in intros c; cbv beta zeta; repeat case_match; reflexivity.
Ltac keep_done := cbv beta; first [exact I | done | by constructor | solve [repeat constructor; auto with keeps] | solve [auto with keeps]].
(** What is tracked of an intermediate result depends on its type. *)
Ltac keep_bind m :=
  lazymatch type of m with
  | M _ (list (RuntimeEvent.t _)) => refine (keeps_seq _ _ _ (Forall idle) _ _ _)
  | M _ (LoopStageResult _) => refine (keeps_seq _ _ _ quiet_result _ _ _)
  | _ => refine (keeps_seq _ _ _ any _ _ _)
  end.
Ltac keep_step :=
  lazymatch goal with
  | |- keeps _ (mret _) _ => apply keeps_ret
  | |- keeps _ (mbind _ (attempt (observe_execute _))) _ => fail
  | |- keeps _ (mbind _ ?m) _ => first [eapply keeps_seq; [solve [eauto 3 with keeps]|]|keep_bind m]
  | |- keeps _ (match ?x with _ => _ end) _ => destruct x eqn:?
  | |- keeps _ (panic _) _ => apply keeps_fail
  | |- forall _, _ => intros ?
  | |- keeps _ _ _ => first [solve [eauto 3 with keeps]|eapply keeps_weaken; [solve [eauto 3 with keeps]|]]
  end.
Ltac keep := cbv beta zeta; repeat (keep_step; cbv beta zeta); try keep_done.
#[export] Hint Resolve keeps_gets keeps_fail keeps_uuid keeps_now keeps_write_json keeps_elapsed keeps_attempt keeps_or_panic_any : keeps.
#[export] Hint Extern 1 (keeps _ ctx _) => apply keeps_gets : keeps.
#[export] Hint Extern 1 (keeps _ (upd _) _) => keep_update : keeps.
#[export] Hint Extern 1 (keeps _ (emit _ _ _ _) _) => apply keeps_emit; [exact _|done] : keeps.
#[export] Hint Extern 1 (any _) => exact I : keeps.
#[export] Hint Extern 0 (CoreInvariant _) => exact _ : keeps.

(** ** The stages *)

Section Stages.
Context {V : Type} `{Json V} `{JsonSer V} (w : World V) (I : Stage V -> Prop) `{!CoreInvariant I}.
Implicit Types (p : LoopPlanned.t V) (trigger : EventId).
Lemma keeps_write_batch_status_artifact id status b : keeps I (write_batch_status_artifact w id status b) any.
Proof. unfold write_batch_status_artifact. keep. Qed.
Lemma keeps_next_tool_artifact_n : keeps I next_tool_artifact_n any.
Proof. unfold next_tool_artifact_n. keep. Qed.
Lemma keeps_cache_index p n : keeps I (cache_index p n) any.
Proof. unfold cache_index. keep. Qed.
#[local] Hint Resolve keeps_write_batch_status_artifact keeps_next_tool_artifact_n keeps_cache_index : keeps.
Lemma keeps_artifact_index_for_plan p : keeps I (artifact_index_for_plan p) any.
Proof. unfold artifact_index_for_plan. keep. Qed.
Lemma keeps_mark_batch_dispatched p : keeps I (mark_batch_dispatched w p) any.
Proof. unfold mark_batch_dispatched, set_batch. keep. Qed.
Lemma keeps_mark_batch_completion id b : keeps I (mark_batch_completion w id b) any.
Proof. unfold mark_batch_completion, set_batch. keep. Qed.
Lemma keeps_clear_cached p : keeps I (clear_cached_artifact_index_for_plan p) any.
Proof. unfold clear_cached_artifact_index_for_plan. keep. Qed.
Lemma keeps_mark_batch_inline_completion p b : keeps I (mark_batch_inline_completion w p b) any.
Proof. apply keeps_mark_batch_completion. Qed.
#[local] Hint Resolve keeps_artifact_index_for_plan keeps_mark_batch_dispatched keeps_mark_batch_completion keeps_mark_batch_inline_completion keeps_clear_cached : keeps.

(** *** Acting *)

Lemma keeps_debug_assert_fails msg : keeps I (debug_assert_fails w msg) any.
Proof. unfold debug_assert_fails. keep. Qed.
#[local] Hint Resolve keeps_debug_assert_fails : keeps.
Lemma keeps_emit_conflict agent action path : keeps I (emit_conflict w agent action path) idle.
Proof. unfold emit_conflict. keep. Qed.
Lemma keeps_emit_acted a out err code d b id : keeps I (emit_acted w a out err code d b id) idle.
Proof. unfold emit_acted. keep. Qed.
Lemma keeps_inline_tool_result kind node output b : keeps I (inline_tool_result w kind node output b) (fun x => idle x.1).
Proof. unfold inline_tool_result. keep. Qed.
Lemma keeps_append_tool_artifact n suffix v : keeps I (append_tool_artifact n suffix v) any.
Proof. unfold append_tool_artifact, read_artifact_rows. keep. Qed.
Lemma keeps_upsert_tool_result_artifact n v : keeps I (upsert_tool_result_artifact n v) any.
Proof. unfold upsert_tool_result_artifact, read_artifact_rows. keep. Qed.
#[local] Hint Resolve keeps_emit_conflict keeps_emit_acted keeps_inline_tool_result keeps_append_tool_artifact keeps_upsert_tool_result_artifact : keeps.
Lemma keeps_write_tool_call_artifact n kind node call request payload : keeps I (write_tool_call_artifact w n kind node call request payload) idle.
Proof. unfold write_tool_call_artifact. keep. Qed.
Lemma keeps_write_tool_result_pending_artifact n p kind node call request : keeps I (write_tool_result_pending_artifact w n p kind node call request) idle.
Proof. unfold write_tool_result_pending_artifact. keep. Qed.
Lemma keeps_write_tool_result_artifact a id output b : keeps I (write_tool_result_artifact w a id output b) any.
Proof. unfold write_tool_result_artifact. keep. Qed.
#[local] Hint Resolve keeps_write_tool_call_artifact keeps_write_tool_result_pending_artifact keeps_write_tool_result_artifact : keeps.
Lemma keeps_emit_tool_result a id output b : keeps I (emit_tool_result w a id output b) idle.
Proof. unfold emit_tool_result. keep. Qed.
#[local] Hint Resolve keeps_emit_tool_result : keeps.
Lemma keeps_request_tool p kind payload before command : Forall idle before -> (forall id, idle (command id)) -> keeps I (request_tool w p kind payload before command) quiet_result.
Proof. intros Hb Hc. unfold request_tool. keep. apply Forall_app_2; [exact Hb|]. repeat (apply Forall_cons_2; auto). done. Qed.
Lemma keeps_refuse p reason : keeps I (refuse w p reason) quiet_result.
Proof. unfold refuse. keep. Qed.
Lemma keeps_constrain p cmd cwd : keeps I (constrain w p cmd cwd) (fun x => Forall idle x.2).
Proof. unfold constrain. keep. Qed.
#[local] Hint Resolve keeps_refuse keeps_constrain : keeps.
Lemma keeps_run_command p trigger : keeps I (run_command w p trigger) quiet_result.
Proof. unfold run_command. keep. by apply keeps_request_tool. Qed.
Lemma keeps_claim_all p paths : keeps I (claim_all p paths) any.
Proof. induction paths as [|path rest IH]; cbn [claim_all]; keep. Qed.
#[local] Hint Resolve keeps_run_command keeps_claim_all : keeps.
Lemma keeps_conflict_result p x : keeps I (conflict_result w p x) quiet_result.
Proof. unfold conflict_result. keep. Qed.
Lemma keeps_record_paths p paths : keeps I (record_paths p paths) any.
Proof. unfold record_paths. keep. Qed.
#[local] Hint Resolve keeps_conflict_result keeps_record_paths : keeps.
Lemma keeps_write_file p : keeps I (write_file w p) quiet_result.
Proof. unfold write_file. keep. by apply keeps_request_tool. Qed.
Lemma keeps_patch_file p : keeps I (patch_file w p) quiet_result.
Proof. unfold patch_file. keep. by apply keeps_request_tool. Qed.
Lemma keeps_ran p t d out err b output : keeps I (ran w p t d out err b output) (Forall idle).
Proof. unfold ran. keep. Qed.
Lemma keeps_done_action p : keeps I (done_action w p) quiet_result.
Proof. unfold done_action. keep. Qed.
#[local] Hint Resolve keeps_write_file keeps_patch_file keeps_ran keeps_done_action : keeps.
Lemma keeps_apply_patch_action p : keeps I (apply_patch_action w p) quiet_result.
Proof. unfold apply_patch_action. keep. Qed.
Lemma idle_proof_debug_event p project o : idle (proof_debug_event p project o).
Proof. unfold proof_debug_event. by destruct (gp_verified o). Qed.
#[local] Hint Resolve idle_proof_debug_event : keeps.
Lemma keeps_proof_events p project proof : keeps I (proof_events w p project proof) (Forall idle).
Proof. unfold proof_events. keep. Qed.
#[local] Hint Resolve keeps_apply_patch_action keeps_proof_events : keeps.
Lemma keeps_edit_action p tool proves message fields : keeps I (edit_action w p tool proves message fields) quiet_result.
Proof. unfold edit_action. keep. by apply Forall_app_2. Qed.
#[local] Hint Resolve keeps_edit_action : keeps.
Lemma keeps_read_outcome p path t out failure : keeps I (read_outcome w p path t out failure) quiet_result.
Proof. unfold read_outcome. keep. Qed.
#[local] Hint Resolve keeps_read_outcome : keeps.
Lemma keeps_dispatch_plan p trigger : keeps I (dispatch_plan w p trigger) quiet_result.
Proof.
  unfold dispatch_plan, rename_symbol, move_symbol, add_import, define_symbol_stub, create_module_file, read_file, list_dir. keep.
Qed.
#[local] Hint Resolve keeps_dispatch_plan : keeps.
Lemma keeps_emit_act_stall trigger reason : keeps I (emit_act_stall w trigger reason) any.
Proof. unfold emit_act_stall. keep. Qed.
Lemma keeps_next_task : keeps I next_task any.
Proof. unfold next_task. keep. Qed.
#[local] Hint Resolve keeps_emit_act_stall keeps_next_task : keeps.
(** The observation after an action is the only step that may touch the core. *)
Lemma keeps_execute_dispatch trigger : keeps I (observe_execute (after_tools w)) any -> keeps I (execute_dispatch w trigger) quiet_result.
Proof. intros Ho. unfold execute_dispatch. keep. Qed.
Lemma keeps_extract_result_fields r t : keeps I (extract_result_fields w r t) any.
Proof. unfold extract_result_fields. keep. Qed.
#[local] Hint Resolve keeps_extract_result_fields : keeps.
Lemma keeps_execute_complete k trigger : keeps I (execute_complete w k trigger) quiet_result.
Proof. unfold execute_complete. keep. by case_match. Qed.
Lemma keeps_abort_tasks fuel : keeps I (abort_tasks w fuel) (Forall idle).
Proof. induction fuel as [|f IH]; cbn [abort_tasks]; keep. Qed.
#[local] Hint Resolve keeps_abort_tasks : keeps.
Lemma keeps_abort_active_batch : keeps I (abort_active_batch w) (Forall idle).
Proof. unfold abort_active_batch. keep. Qed.
#[local] Hint Resolve keeps_abort_active_batch : keeps.
Lemma keeps_execute_failed f : keeps I (execute_failed w f) quiet_result.
Proof.
  unfold execute_failed. keep; (apply Forall_cons_2; [done|by apply Forall_app_2]).
Qed.
#[local] Hint Resolve keeps_execute_complete keeps_execute_failed : keeps.

(** *** Rewarding, verifying, decomposing *)

Lemma keeps_rewarded v : keeps I (rewarded v) quiet_result.
Proof. unfold rewarded. keep. Qed.
#[local] Hint Resolve keeps_rewarded : keeps.
Lemma keeps_reward_execute v : keeps I (reward_execute v) quiet_result.
Proof. unfold reward_execute. keep. Qed.
Lemma keeps_execute_from_policy u : keeps I (execute_from_policy u) quiet_result.
Proof. unfold execute_from_policy. keep. Qed.
Lemma keeps_execute_conclude : keeps I execute_conclude quiet_result.
Proof. unfold execute_conclude. keep. Qed.
Lemma keeps_run_cargo_check dir : keeps I (run_cargo_check w dir) any.
Proof. unfold run_cargo_check. keep. Qed.
#[local] Hint Resolve keeps_run_cargo_check : keeps.
Lemma keeps_verify_execute rs : keeps I (verify_execute w rs) quiet_result.
Proof. unfold verify_execute. keep. Qed.
Lemma keeps_decompose_execute trigger : keeps I (decompose_execute w trigger) quiet_result.
Proof. unfold decompose_execute. keep. Qed.
Lemma keeps_uuids n : keeps I (uuids w n) any.
Proof. induction n as [|n IH]; cbn [uuids]; keep. Qed.
#[local] Hint Resolve keeps_uuids : keeps.
Lemma keeps_parse_decompose_tasks text : keeps I (parse_decompose_tasks w text) any.
Proof. unfold parse_decompose_tasks. keep. Qed.
#[local] Hint Resolve keeps_parse_decompose_tasks : keeps.
Lemma idle_task_events (ts : list ParsedTask) : Forall idle (ts ≫= task_events (V := V)).
Proof. apply Forall_bind, Forall_forall. intros t _. apply Forall_cons_2; [done|]. apply Forall_fmap, Forall_forall. done. Qed.
Lemma keeps_decompose_complete k : keeps I (decompose_complete w k) quiet_result.
Proof. unfold decompose_complete. keep. case_match; [done|apply idle_task_events]. Qed.
End Stages.
#[export] Hint Resolve keeps_execute_dispatch keeps_execute_complete keeps_execute_failed keeps_reward_execute keeps_execute_from_policy keeps_execute_conclude keeps_verify_execute keeps_decompose_execute keeps_decompose_complete : keeps.

(** ** The executor *)

Section Executor.
Context {V : Type} `{Json V} `{JsonSer V} `{WorkStages V} (w : World V) (I : Stage V -> Prop).
Implicit Types (trigger : EventId) (e : RuntimeEvent.t V) (s : Stage V).

(** Emitting the result keeps the invariant. *)
Definition emits_safely (r : LoopStageResult V) : Prop := forall trigger, keeps I (emit_stage_result w trigger r) any.
(** What an invariant asks of the stages: observing must keep it, and emitting
    what was observed from the state it leaves; planning and acting must keep
    it and return results that are safe to emit. *)
Class StageContract : Prop := {
  contract_core :: CoreInvariant I;
  contract_observe s : I s -> I (observe_execute w s).1 /\ forall r, (observe_execute w s).2 = Ok r -> exists es, r = EmitMany es /\ forall trigger, I (emit_all w trigger es (observe_execute w s).1).1;
  contract_plan_trigger rs trigger : keeps I (plan_trigger w rs trigger) emits_safely;
  contract_plan_complete k trigger : keeps I (plan_complete w k trigger) emits_safely;
  contract_plan_failed f trigger : keeps I (plan_failed w f trigger) emits_safely;
  contract_act_dispatch rs trigger : keeps I (act_dispatch w rs trigger) emits_safely;
  contract_act_complete k trigger : keeps I (act_complete w k trigger) emits_safely;
  contract_act_failed f trigger : keeps I (act_failed w f trigger) emits_safely
}.
End Executor.
#[export] Hint Extern 1 (keeps _ (plan_trigger _ _ _) _) => apply contract_plan_trigger : keeps.
#[export] Hint Extern 1 (keeps _ (plan_complete _ _ _) _) => apply contract_plan_complete : keeps.
#[export] Hint Extern 1 (keeps _ (plan_failed _ _ _) _) => apply contract_plan_failed : keeps.
#[export] Hint Extern 1 (keeps _ (act_dispatch _ _ _) _) => apply contract_act_dispatch : keeps.
#[export] Hint Extern 1 (keeps _ (act_complete _ _ _) _) => apply contract_act_complete : keeps.
#[export] Hint Extern 1 (keeps _ (act_failed _ _ _) _) => apply contract_act_failed : keeps.

Section Quiet.
Context {V : Type} `{Json V} `{JsonSer V} (w : World V) (I : Stage V -> Prop) `{!CoreInvariant I}.
Implicit Types (trigger : EventId) (e : RuntimeEvent.t V).
Lemma keeps_emit_all trigger es : Forall idle es -> keeps I (emit_all w trigger es) any.
Proof. induction 1 as [|e es He Hes IH]; cbn [emit_all]; keep. Qed.
Lemma quiet_emits_safely r : quiet_result r -> emits_safely w I r.
Proof. intros Hr trigger. destruct r as [e|es| |]; cbn [emit_stage_result]; try (by apply keeps_ret); apply keeps_emit_all; [by constructor|exact Hr]. Qed.
Lemma keeps_quiet (m : M V (LoopStageResult V)) : keeps I m quiet_result -> keeps I m (emits_safely w I).
Proof. intros Hm. eapply keeps_weaken; [exact Hm|]. apply quiet_emits_safely. Qed.
Lemma noop_emits_safely : emits_safely w I Noop.
Proof. by apply quiet_emits_safely. Qed.

Lemma keeps_emit_debug trigger kind reason payload : keeps I (emit_debug w trigger kind reason payload) any.
Proof. unfold emit_debug. keep. Qed.
Lemma keeps_emit_error trigger kind message severity context : keeps I (emit_error w trigger kind message severity context) any.
Proof. unfold emit_error. keep. Qed.
Lemma keeps_push_results rs : keeps I (push_results (V := V) rs) any.
Proof. unfold push_results. keep. Qed.
#[local] Hint Resolve keeps_emit_debug keeps_emit_error keeps_push_results : keeps.
Lemma keeps_record_graph_proof_result d b : keeps I (record_graph_proof_result d b) any.
Proof. unfold record_graph_proof_result, exec_record_result. keep. Qed.
Lemma keeps_apply_verifier_policy_update u : keeps I (apply_verifier_policy_update u) any.
Proof. unfold apply_verifier_policy_update, exec_record_result. keep. Qed.
Lemma keeps_record_compiler_error reason level message : keeps I (record_compiler_error reason level message) any.
Proof. unfold record_compiler_error. keep. Qed.
Lemma keeps_reset_plan_window_state : keeps I (reset_plan_window_state (V := V)) any.
Proof. unfold reset_plan_window_state. keep. Qed.
Lemma keeps_clear_invalid_plan_tracking : keeps I (clear_invalid_plan_tracking (V := V)) any.
Proof. unfold clear_invalid_plan_tracking. keep. Qed.
Lemma keeps_upd_trend f : keeps I (upd_trend (V := V) f) any.
Proof. unfold upd_trend. keep. Qed.
#[local] Hint Resolve keeps_record_graph_proof_result keeps_apply_verifier_policy_update keeps_record_compiler_error keeps_reset_plan_window_state keeps_clear_invalid_plan_tracking keeps_upd_trend : keeps.
Lemma keeps_handle_loop_verified v : keeps I (handle_loop_verified (V := V) v) any.
Proof. unfold handle_loop_verified. keep. Qed.
Lemma keeps_apply_planning_transition_effects status kind : keeps I (apply_planning_transition_effects (V := V) status kind) any.
Proof. unfold apply_planning_transition_effects. keep. Qed.
#[local] Hint Resolve keeps_handle_loop_verified keeps_apply_planning_transition_effects : keeps.
Lemma keeps_handle_planning_completed k : keeps I (handle_planning_completed (V := V) k) any.
Proof. unfold handle_planning_completed. keep. Qed.
Lemma keeps_handle_runtime_state_updated u : keeps I (handle_runtime_state_updated u) any.
Proof. unfold handle_runtime_state_updated. keep. Qed.
Lemma keeps_handle_prompt_loaded l : keeps I (handle_prompt_loaded l) any.
Proof. unfold handle_prompt_loaded. keep. Qed.
Lemma keeps_emit_edges trigger child deps : keeps I (emit_edges w trigger child deps) any.
Proof. induction deps as [|d rest IH]; cbn [emit_edges]; keep. Qed.
#[local] Hint Resolve keeps_emit_edges : keeps.
Lemma keeps_handle_loop_planned trigger p : keeps I (handle_loop_planned w trigger p) any.
Proof. unfold handle_loop_planned. keep. Qed.
Lemma keeps_handle_agent_registered payload : keeps I (handle_agent_registered payload) any.
Proof. unfold handle_agent_registered. keep. Qed.
Lemma keeps_handle_goodness_snapshot g : keeps I (handle_goodness_snapshot (V := V) g) any.
Proof. unfold handle_goodness_snapshot. keep. Qed.
Lemma keeps_handle_subtask_result r : keeps I (handle_subtask_result w r) any.
Proof. unfold handle_subtask_result. keep. Qed.
Lemma keeps_handle_tool_result r : keeps I (handle_tool_result (V := V) r) any.
Proof. unfold handle_tool_result. keep. Qed.
Lemma keeps_handle_objective_trend_debug kind : keeps I (handle_objective_trend_debug (V := V) kind) any.
Proof. unfold handle_objective_trend_debug. keep. Qed.
Lemma keeps_handle_loop_rewarded trigger r : keeps I (handle_loop_rewarded w trigger r) any.
Proof. unfold handle_loop_rewarded. keep. Qed.
Lemma keeps_complete_dependency id : keeps I (complete_dependency (V := V) id) any.
Proof. unfold complete_dependency, push_tasks. keep. Qed.
#[local] Hint Resolve keeps_complete_dependency : keeps.
Lemma keeps_settle_action a id : keeps I (settle_action (V := V) a id) any.
Proof. unfold settle_action. keep. Qed.
Lemma keeps_apply_post_act_cleanup kind : keeps I (apply_post_act_cleanup (V := V) kind) any.
Proof. unfold apply_post_act_cleanup. keep. Qed.
Lemma keeps_invalidate_queued_work b : keeps I (invalidate_queued_work (V := V) b) any.
Proof. unfold invalidate_queued_work. keep. Qed.
#[local] Hint Resolve keeps_settle_action keeps_apply_post_act_cleanup keeps_invalidate_queued_work : keeps.
Lemma keeps_handle_loop_acted trigger a : keeps I (handle_loop_acted w trigger a) any.
Proof. unfold handle_loop_acted. keep. Qed.
Lemma keeps_handle_error_occurred err : keeps I (handle_error_occurred err) any.
Proof. unfold handle_error_occurred. keep. Qed.
Lemma keeps_advance_control_state trigger e : keeps I (advance_control_state trigger e) any.
Proof. unfold advance_control_state. keep. Qed.
End Quiet.
#[export] Hint Resolve keeps_emit_debug keeps_emit_error keeps_push_results keeps_record_graph_proof_result keeps_apply_verifier_policy_update keeps_record_compiler_error keeps_handle_loop_verified keeps_handle_planning_completed
  keeps_handle_runtime_state_updated keeps_handle_prompt_loaded keeps_handle_loop_planned keeps_handle_agent_registered keeps_handle_goodness_snapshot keeps_handle_subtask_result keeps_handle_tool_result
  keeps_handle_objective_trend_debug keeps_handle_loop_rewarded keeps_handle_loop_acted keeps_handle_error_occurred keeps_advance_control_state noop_emits_safely : keeps.
#[export] Hint Extern 1 (keeps _ (emit_stage_result _ _ _) _) => first [apply quiet_emits_safely; [exact _|assumption]|match goal with X : _ |- _ => exact (X _) end] : keeps.

Section Event.
Context {V : Type} `{Json V} `{JsonSer V} `{WorkStages V} (w : World V) (I : Stage V -> Prop) `{!StageContract w I}.
Implicit Types (trigger : EventId) (e : RuntimeEvent.t V).

(** An observation followed by its emission. *)
Lemma keeps_observe_then {B} trigger (k : result string (LoopStageResult V) -> M V B) (next : M V B) R :
  (forall es, k (Ok (EmitMany es)) = (emit_all w trigger es ;;! next)) -> (forall err, keeps I (k (Err err)) R) -> keeps I next R -> keeps I (let! r := attempt (observe_execute w) in k r) R.
Proof.
  intros Hk He Hn s Hs. destruct (contract_observe w I s Hs) as [HI Hr]. unfold mbind at 1 2, stateR_bind, attempt. destruct (observe_execute w s) as [s1 [r|[msg|msg]]]; [|done|exact (He msg s1 HI)].
  destruct (Hr r eq_refl) as (es & -> & Hes). rewrite Hk. cbn [fst] in Hes. specialize (Hes trigger). unfold mbind, stateR_bind. destruct (emit_all w trigger es s1) as [s2 [[]|err]]; [exact (Hn s2 Hes)|by split].
Qed.
Lemma keeps_execute_observe_mode trigger e mode : keeps I (execute_observe_mode w trigger e mode) any.
Proof. unfold execute_observe_mode. keep; (eapply (keeps_observe_then trigger); [intros es; reflexivity|intros err; keep|keep]). Qed.
Lemma keeps_execute_reward_recovery trigger e : keeps I (LoopExecutor.execute_reward_recovery w trigger e) any.
Proof. unfold LoopExecutor.execute_reward_recovery. keep. Qed.
#[local] Hint Resolve keeps_execute_observe_mode keeps_execute_reward_recovery : keeps.
Lemma keeps_handle_route_selected trigger rs : keeps I (handle_route_selected w trigger rs) any.
Proof. unfold handle_route_selected. keep. Qed.
Lemma keeps_handle_recovery_event trigger e eval : keeps I (handle_recovery_event w trigger e eval) any.
Proof. unfold handle_recovery_event. keep. Qed.
Lemma keeps_handle_runtime_observe_mode trigger e mode : keeps I (handle_runtime_observe_mode w trigger e mode) any.
Proof. unfold handle_runtime_observe_mode. keep. Qed.
#[local] Hint Resolve keeps_handle_route_selected keeps_handle_recovery_event keeps_handle_runtime_observe_mode : keeps.
Lemma keeps_apply_runtime_evaluation trigger e force observe : keeps I (apply_runtime_evaluation w trigger e force observe) any.
Proof. unfold apply_runtime_evaluation. keep. Qed.
#[local] Hint Resolve keeps_apply_runtime_evaluation : keeps.

Lemma keeps_or_stage (m k : M V (LoopStageResult V)) : keeps I m (emits_safely w I) -> keeps I k (emits_safely w I) -> keeps I (or_stage m k) (emits_safely w I).
Proof. intros Hm Hk. unfold or_stage. eapply keeps_seq; [exact Hm|]. intros r Hr. destruct (is_noop r); [exact Hk|by apply keeps_ret]. Qed.
Lemma keeps_dispatch_capability_done k trigger : keeps I (dispatch_capability_done w k trigger) (emits_safely w I).
Proof.
  unfold dispatch_capability_done. keep. apply keeps_or_stage; [apply keeps_quiet; eauto with keeps|]. apply keeps_or_stage; apply keeps_catch_unwind; eauto with keeps.
Qed.
Lemma keeps_dispatch_capability_fail f trigger : keeps I (dispatch_capability_fail w f trigger) (emits_safely w I).
Proof. unfold dispatch_capability_fail. repeat first [apply keeps_or_stage|apply keeps_catch_unwind]; eauto with keeps. Qed.
Definition scans (stage : LoopStageEvent V) : bool := match stage with Scan _ => true | _ => false end.
Lemma keeps_stage_execute stage trigger : scans stage = false -> keeps I (stage_execute w stage trigger) (emits_safely w I).
Proof.
  destruct stage; try done; intros _; cbn [stage_execute]; try (by eauto with keeps); first [apply keeps_dispatch_capability_done|apply keeps_dispatch_capability_fail|apply keeps_quiet; eauto with keeps].
Qed.
Lemma keeps_run_stage trigger e stage : keeps I (run_stage w trigger e stage) any.
Proof.
  unfold run_stage. destruct (scans stage) eqn:Hscan; [destruct stage; try done; cbn [stage_execute]; eapply (keeps_observe_then trigger); [intros es; reflexivity|intros err; keep|keep]|].
  eapply keeps_seq; [apply keeps_attempt, keeps_stage_execute, Hscan|]. intros [r|err] Hr; [|keep]. destruct r as [e'|es| |]; (eapply keeps_seq; [exact (Hr trigger)|]); keep.
Qed.
#[local] Hint Resolve keeps_run_stage : keeps.
Lemma keeps_execute_stage_event trigger e : keeps I (execute_stage_event w trigger e) any.
Proof. unfold execute_stage_event. destruct e; keep. Qed.
#[local] Hint Resolve keeps_execute_stage_event : keeps.

(** The events whose handler writes to the core. *)
Definition moves_core e : bool :=
  match e with
  | RuntimeEvent.Tick _ | RuntimeEvent.RouteTick _ | RuntimeEvent.LoopObserved _ | RuntimeEvent.RustcGraphArtifactWritten _ | RuntimeEvent.RustcCaptureFailed _ => true
  | _ => false
  end.
Lemma keeps_handle_event trigger e : moves_core e = false -> keeps I (handle_event w trigger e) any.
Proof. destruct e; try done; intros _; cbn [handle_event]; unfold handle_debug, quiet, observing; keep. Qed.
Lemma keeps_after_handlers trigger e force observe : keeps I (after_handlers w trigger e force observe) any.
Proof. unfold after_handlers. keep. Qed.
#[local] Hint Resolve keeps_handle_event keeps_after_handlers : keeps.
(** An event establishes what its handler does, and the handlers that leave the
    core alone keep the invariant. *)
Lemma loop_on_event_moved trigger e s : moves_core e = true -> I (handle_event w trigger e s).1 -> I (loop_on_event w trigger e s).1.
Proof.
  intros Hm Hh. assert (Hr : recovery_debug e = None) by by destruct e. unfold loop_on_event, handle_recovery_event. rewrite Hr. unfold ctx, gets, mbind, stateR_bind. cbn [mret stateR_ret].
  cbv beta iota. destruct (handle_event w trigger e s) as [s1 [[observe|reason]|err]]; [|exact Hh..]. by apply keeps_after_handlers.
Qed.
Lemma loop_on_event_keeps trigger e s : (moves_core e = true -> I (handle_event w trigger e s).1) -> I s -> I (loop_on_event w trigger e s).1.
Proof. intros Hh Hs. destruct (moves_core e) eqn:Hm; [by apply loop_on_event_moved; auto|]. apply (fun P : keeps I _ any => proj1 (P s Hs)). unfold loop_on_event. keep. Qed.
End Event.

(** ** Planning *)

Section Plan.
Context {V : Type} `{Json V} `{JsonSer V} `{PromptText V}.
Implicit Types (s : Stage V) (e : RuntimeEvent.t V).
Definition is_observed e : bool := match e with RuntimeEvent.LoopObserved _ => true | _ => false end.
(** What planning leaves alone: the ticks and the observations. *)
Definition ctx_ticks (c : LoopContext V) : N * option N := (lc_current_tick c, lc_last_observed_tick c).
Definition observations s : list (RuntimeEvent.t V) := filter (fun e => is_observed e = true) (emitted s).
Definition ticks s : N * option N * list (RuntimeEvent.t V) := (ctx_ticks (sg_ctx s), observations s).
Class TickInvariant (I : Stage V -> Prop) : Prop := { tick_invariant s s' : ticks s' = ticks s -> I s -> I s' }.
#[global] Instance tick_core I : TickInvariant I -> CoreInvariant I.
Proof. intros HI. split. intros s s' Hc. apply tick_invariant. exact (f_equal (fun x => (x.1.1.1, filter (fun e => is_observed e = true) x.2)) Hc). Qed.

Definition unobserved (r : LoopStageResult V) : Prop :=
  match r with Emit e => is_observed e = false | EmitMany es => Forall (fun e => is_observed e = false) es | Noop | Deferred => True end.
Context (w : World V) (I : Stage V -> Prop) `{!TickInvariant I}.
Implicit Types (trigger : EventId) (p : PendingPlan).
Lemma keeps_of_ticks {A} (m : M V A) : (forall s, ticks (m s).1 = ticks s) -> keeps I m any.
Proof. intros Hm s Hs. split; [exact (tick_invariant s _ (Hm s) Hs)|done]. Qed.
Lemma keeps_upd_ticks f : (forall c, ctx_ticks (f c) = ctx_ticks c) -> keeps I (upd f) any.
Proof. intros Hf. apply keeps_of_ticks. intros s. exact (f_equal (fun x => (x, observations s)) (Hf (sg_ctx s))). Qed.
Lemma keeps_emit_unobserved place e parents : is_observed e = false -> keeps I (emit w place e parents) any.
Proof.
  intros He. apply keeps_of_ticks. intros s. unfold ticks, observations. rewrite emitted_emit, filter_app. replace (filter _ (if relevant e then [e] else [])) with (@nil (RuntimeEvent.t V)) by (by destruct e).
  rewrite app_nil_r. unfold emit. by destruct (w_site w place).
Qed.
Lemma unobserved_emits_safely r : unobserved r -> emits_safely w I r.
Proof.
  assert (Hall : forall trigger es, Forall (fun e => is_observed e = false) es -> keeps I (emit_all w trigger es) any).
  { intros trigger es. induction 1 as [|e es He Hes IH]; cbn [emit_all]; [by apply keeps_ret|]. eapply keeps_seq; [by apply keeps_emit_unobserved|auto]. }
  intros Hr trigger. destruct r as [e|es| |]; cbn [emit_stage_result]; try (by apply keeps_ret); apply Hall; [by constructor|exact Hr].
Qed.
#[local] Hint Extern 2 (keeps _ (upd _) _) => apply keeps_upd_ticks; let c := fresh "c" in intros c; cbv beta zeta; repeat case_match; reflexivity : keeps.
Lemma keeps_forget_planned_tick : keeps I (forget_planned_tick (V := V)) any.
Proof. unfold forget_planned_tick. keep. Qed.
Lemma keeps_mark_done p : keeps I (mark_done w p) any.
Proof. unfold mark_done. keep. Qed.
#[local] Hint Resolve keeps_forget_planned_tick keeps_mark_done : keeps.
Lemma keeps_plan_actions p signals l : keeps I (plan_actions w p signals l) any.
Proof. induction l as [|a l IH]; cbn [plan_actions]; keep. Qed.
Lemma keeps_observe_fingerprint f : keeps I (observe_fingerprint (V := V) f) any.
Proof. apply keeps_of_ticks. intros s. unfold observe_fingerprint. by destruct (observe_failure_fingerprint f (sg_store s)). Qed.
Lemma keeps_drain_store : keeps I (drain_store (V := V)) any.
Proof. by apply keeps_of_ticks. Qed.
#[local] Hint Resolve keeps_plan_actions keeps_observe_fingerprint keeps_drain_store : keeps.
Lemma keeps_reject_plan p out retry sm message : keeps I (reject_plan w p out retry sm message) unobserved.
Proof.
  unfold reject_plan. keep. apply Forall_cons_2; [done|]. apply Forall_app_2; [by case_match; repeat constructor|]. apply Forall_app_2; [by apply Forall_fmap, Forall_forall|by repeat constructor].
Qed.
Lemma keeps_plan_tool_result call request b trigger : keeps I (plan_tool_result w call request b trigger) any.
Proof. unfold plan_tool_result. keep. Qed.
Lemma keeps_accept_plan p out : keeps I (accept_plan w p out) unobserved.
Proof. unfold accept_plan. keep. apply Forall_app_2; [by apply Forall_fmap, Forall_forall|by repeat constructor]. Qed.
#[local] Hint Resolve keeps_reject_plan keeps_plan_tool_result keeps_accept_plan : keeps.
Lemma keeps_planned_batch p signals actions : keeps I (planned_batch w p signals actions) unobserved.
Proof. unfold planned_batch. keep. Qed.
#[local] Hint Resolve keeps_planned_batch : keeps.
Lemma keeps_plan_execute_complete k trigger : keeps I (plan_execute_complete w k trigger) unobserved.
Proof. unfold plan_execute_complete. keep. Qed.
Lemma keeps_plan_execute_failed f trigger : keeps I (plan_execute_failed w f trigger) unobserved.
Proof. unfold plan_execute_failed. keep. Qed.
Lemma keeps_ask_model o trigger base delta : keeps I (ask_model w o trigger base delta) unobserved.
Proof. unfold ask_model. keep. Qed.
#[local] Hint Resolve keeps_ask_model : keeps.
Lemma keeps_handle_observed o trigger rationale confidence : keeps I (handle_observed w o trigger rationale confidence) unobserved.
Proof. unfold handle_observed. keep. Qed.
Lemma keeps_deterministic_bootstrap_plan rs o : keeps I (deterministic_bootstrap_plan w rs o) (fun r => match r with Some r => unobserved r | None => True end).
Proof. unfold deterministic_bootstrap_plan. keep. Qed.
Lemma keeps_check_llm_timeout t : keeps I (check_llm_timeout t) (fun r => match r with Some e => is_observed e = false | None => True end).
Proof. unfold check_llm_timeout. keep. Qed.
#[local] Hint Resolve keeps_handle_observed keeps_deterministic_bootstrap_plan keeps_check_llm_timeout : keeps.
Lemma keeps_plan_execute_trigger rs trigger : keeps I (plan_execute_trigger w rs trigger) unobserved.
Proof. unfold plan_execute_trigger. keep. Qed.
Lemma keeps_unobserved (m : M V (LoopStageResult V)) : keeps I m unobserved -> keeps I m (emits_safely w I).
Proof. intros Hm. eapply keeps_weaken; [exact Hm|]. apply unobserved_emits_safely. Qed.

(** The contract of an invariant of the ticks: only observing is left to check. *)
Lemma tick_contract : (forall w' s, I s -> I (observe_execute w' s).1 /\ forall r, (observe_execute w' s).2 = Ok r -> exists es, r = EmitMany es /\ forall trigger, I (emit_all w trigger es (observe_execute w' s).1).1) ->
  StageContract w I.
Proof.
  intros Ho. split; [exact _|exact (Ho w)|..]; intros x trigger; cbn [plan_trigger plan_complete plan_failed act_dispatch act_complete act_failed work_stages].
  1, 2, 3: apply keeps_unobserved; first [apply keeps_plan_execute_trigger|apply keeps_plan_execute_complete|apply keeps_plan_execute_failed].
  all: apply keeps_quiet; [exact _|]; eauto with keeps. apply keeps_execute_dispatch; [exact _|]. intros s Hs. split; [apply (Ho (after_tools w)), Hs|done].
Qed.
End Plan.
