(* ===== verification/LoopProps.v ===== *)
(** * Properties of the loop

    What a run of the executor does, whatever the events: when it observes,
    why it never plans on its own, how completed tools are lost, and when it
    halts.  The invariants are preserved by [LoopFrame]. *)
From Stdlib Require Import Floats.SpecFloat Sorting.Sorted.
From stdpp Require Import pretty sorting.
From S2P Require Import Prelude Json Text PatchParser TextFormat Paths Wire SemanticState SemanticText Gatekeeper Objectives Goal LoopPolicy ConstraintEngine Discovery ExecConstraints CompilerHints Workspace Preconditions Scheduler EventShape KernelTypes Events EventBus RouteContext Merge LoopContext LoopStages ActStage LoopExecutor PlanStage StageProps LoopFrame.

Section Runs.
Context {V : Type} `{Json V} `{JsonSer V} `{PromptText V}.
Implicit Types (s : Stage V) (e : RuntimeEvent.t V).
(** An event as the executor gets it, in its world. *)
Record Delivered := MkDelivered { dl_world : World V; dl_id : EventId; dl_event : RuntimeEvent.t V }.
Definition take_event s (d : Delivered) : Stage V := (loop_on_event (dl_world d) (dl_id d) (dl_event d) s).1.
Definition loop_run s (ds : list Delivered) : Stage V := foldl take_event s ds.
Definition fresh_stage (workspace tlog_path artifact_dir : bytes) (dir : Dir V) (policy : DestructiveCmdPolicy) (store : world) : Stage V :=
  MkStage (loop_context_new workspace tlog_path artifact_dir (lit <$> dir.*1) policy) [] dir 0 0 store.

(** ** The loop never plans on its own *)

(** The observations that come back are those the loop has just made. *)
Definition echoes s (d : Delivered) : bool := match dl_event d with RuntimeEvent.LoopObserved o => bool_decide (lc_last_observed_tick (sg_ctx s) = Some (LoopObserved.tick o)) | _ => true end.
Fixpoint echoed s (ds : list Delivered) : bool := match ds with [] => true | d :: rest => echoes s d && echoed (take_event s d) rest end.
Definition is_planned e : bool := match e with RuntimeEvent.LoopPlanned _ => true | _ => false end.
Definition unplanned s : Prop := lc_last_observed (sg_ctx s) = None /\ lc_pending_plan (sg_ctx s) = None /\ Forall (fun e => is_planned e = false) (emitted s).

#[global] Instance unplanned_core : CoreInvariant unplanned.
Proof. split. intros s s' Hc. unfold unplanned. unfold core, ctx_core in Hc. simplify_eq. intros (Ho & Hp & He). split_and!; congruence. Qed.
Lemma unplanned_emit w place e parents : is_planned e = false -> keeps unplanned (emit w place e parents) any.
Proof.
  intros He s (Ho & Hp & Hs). split; [|done]. split_and!; [by unfold emit; destruct (w_site w place)..|]. rewrite emitted_emit. apply Forall_app_2; [exact Hs|]. destruct (relevant e); by constructor.
Qed.
Lemma unplanned_emit_all w trigger es : Forall (fun e => is_planned e = false) es -> keeps unplanned (emit_all w trigger es) any.
Proof. induction 1 as [|e es He Hes IH]; cbn [emit_all]; [by apply keeps_ret|]. eapply keeps_seq; [by apply unplanned_emit|auto]. Qed.
(** Observing sets the tick, and says what it saw; or it does nothing of note. *)
Lemma observe_cases w s : let r := observe_execute w s in
  (core r.1 = core s /\ (r.2 = Ok (EmitMany []) \/ exists err, r.2 = Err err)) \/
  (exists o, r.2 = Ok (EmitMany [RuntimeEvent.LoopObserved o]) /\ LoopObserved.tick o = lc_current_tick (sg_ctx s) /\ lc_last_observed_tick (sg_ctx s) <> Some (lc_current_tick (sg_ctx s)) /\
     core r.1 = (lc_current_tick (sg_ctx s), Some (lc_current_tick (sg_ctx s)), lc_last_observed (sg_ctx s), lc_pending_plan (sg_ctx s), emitted s)).
Proof.
  unfold observe_execute, ctx, gets, upd, modify, mbind, stateR_bind, mret, stateR_ret. case_bool_decide as Ht; [left; split; [done|by left]|].
  set (b := match lc_goal_text _ with None => true | Some g => is_placeholder_goal g end). destruct b; cbv beta zeta iota;
    (match goal with |- context [or_panic ?o _] => destruct o as [[summary diagnostics]|]; [right|left; split; [reflexivity|right; by eexists]] end);
    eexists; (split; [reflexivity|]); (split; [reflexivity|]); (split; [exact Ht|reflexivity]).
Qed.
Lemma unplanned_observe w s : unplanned s -> unplanned (observe_execute w s).1 /\ forall r, (observe_execute w s).2 = Ok r -> exists es, r = EmitMany es /\ forall trigger, unplanned (emit_all w trigger es (observe_execute w s).1).1.
Proof.
  intros Hs. destruct (observe_cases w s) as [[Hc Hr]|(o & Hr & _ & _ & Hc)].
  - assert (Hu : unplanned (observe_execute w s).1) by exact (core_invariant s _ Hc Hs). split; [exact Hu|]. intros r Hr'. destruct Hr as [Hr|[err Hr]]; [|congruence].
    rewrite Hr in Hr'. injection Hr' as <-. by exists [].
  - assert (Hu : unplanned (observe_execute w s).1) by (unfold core, ctx_core in Hc; destruct Hs as (Ho & Hp & He); simplify_eq; split_and!; congruence).
    split; [exact Hu|]. intros r Hr'. rewrite Hr in Hr'. injection Hr' as <-. eexists. split; [done|]. intros trigger. apply (unplanned_emit_all w trigger); [by repeat constructor|exact Hu].
Qed.
(** A stage that leaves the state alone. *)
Lemma keeps_still {A} (I : Stage V -> Prop) (m : M V A) Q : (forall s, I s -> exists a, m s = (s, Ok a) /\ Q a) -> keeps I m Q.
Proof. intros Hm s Hs. destruct (Hm s Hs) as (a & -> & Ha). split; [exact Hs|]. intros b [= <-]. exact Ha. Qed.
#[global] Instance unplanned_contract w : StageContract w unplanned.
Proof.
  split; [exact _|exact (unplanned_observe w)|..]; intros x trigger; cbn [plan_trigger plan_complete plan_failed act_dispatch act_complete act_failed work_stages].
  4, 5, 6: apply keeps_quiet; eauto with keeps. 4: apply keeps_execute_dispatch; [exact _|]. 4: intros s Hs; split; [apply (unplanned_observe (after_tools w)), Hs|done].
  all: (apply keeps_quiet; [exact _|]); apply keeps_still; intros s (Ho & Hp & _); unfold plan_execute_trigger, check_llm_timeout, plan_execute_complete, plan_execute_failed, ctx, gets, mbind, stateR_bind; rewrite Hp; cbn [mret stateR_ret]; cbv beta iota.
  - rewrite Ho. by eexists.
  - by eexists.
  - by eexists.
Qed.
Lemma unplanned_upd_observed f : keeps unplanned (upd_observed f) any.
Proof. apply keeps_still. intros s (Ho & _ & _). unfold upd_observed, ctx, gets, mbind, stateR_bind. rewrite Ho. by eexists. Qed.
#[local] Hint Resolve unplanned_upd_observed : keeps.
#[local] Hint Extern 2 (keeps unplanned (upd _) _) => apply keeps_upd; intros ? ?; assumption : keeps.
Lemma unplanned_handle_event w id e s : echoes s (MkDelivered w id e) = true -> unplanned s -> moves_core e = true -> unplanned (handle_event w id e s).1.
Proof.
  intros He Hs Hm. destruct e; try done; cbn [handle_event].
  2, 3: apply (fun P : keeps unplanned _ any => proj1 (P s Hs)); unfold quiet, handle_rustc_graph_artifact_written, handle_rustc_capture_failed; keep.
  unfold quiet, handle_loop_observed, ctx, gets, mbind, stateR_bind. unfold echoes in He. cbn [dl_event] in He. rewrite He. exact Hs.
Qed.
Lemma unplanned_take s d : echoes s d = true -> unplanned s -> unplanned (take_event s d).
Proof. destruct d as [w id e]. intros He Hs. apply (loop_on_event_keeps w unplanned); [|exact Hs]. by apply unplanned_handle_event. Qed.

(** C8: a loop that gets its observations back before the next one never plans:
    observing has already set the tick of the observation, so its event is
    ignored, the loop keeps no observation to plan from, no plan is ever pending
    and no planned action is emitted, whatever the other events.  (The model may
    still be asked to decompose the goal.) *)
Theorem loop_never_plans workspace tlog_path artifact_dir dir policy store ds : let s := fresh_stage workspace tlog_path artifact_dir dir policy store in
  echoed s ds = true -> let s' := loop_run s ds in
  lc_last_observed (sg_ctx s') = None /\ lc_pending_plan (sg_ctx s') = None /\ Forall (fun x => is_planned (le_event x) = false) (sg_out s').
Proof.
  cbv zeta. intros He. assert (Hs : unplanned (loop_run (fresh_stage workspace tlog_path artifact_dir dir policy store) ds)).
  { assert (Hi : unplanned (fresh_stage workspace tlog_path artifact_dir dir policy store)) by (split_and!; by try constructor). revert Hi He. generalize (fresh_stage workspace tlog_path artifact_dir dir policy store).
    induction ds as [|d ds IH]; intros s Hs He; [exact Hs|]. cbn [echoed] in He. apply andb_prop in He as [Hd He]. exact (IH _ (unplanned_take s d Hd Hs) He). }
  destruct Hs as (Ho & Hp & Hf). split_and!; [exact Ho|exact Hp|]. apply Forall_forall. intros x Hx. destruct (is_planned (le_event x)) eqn:Hpl; [|done]. rewrite <- Hpl. apply (proj1 (Forall_forall _ _) Hf).
  apply list_elem_of_filter. split; [by destruct (le_event x)|]. by apply list_elem_of_fmap_2.
Qed.

(** ** Once per tick *)

Definition tick_of e : option N := match e with RuntimeEvent.LoopObserved o => Some (LoopObserved.tick o) | _ => None end.
Definition observed_ticks s : list N := omap (fun x => tick_of (le_event x)) (sg_out s).
(** The clock of the run: ticks never go back, and an observation that is
    delivered is of the current tick. *)
Definition tick_after (t : N) e : N := match e with RuntimeEvent.Tick x => Tick.tick x | RuntimeEvent.RouteTick x => RouteTick.tick x | _ => t end.
Definition on_clock (cur : N) e : bool :=
  match e with
  | RuntimeEvent.Tick t => (cur <=? Tick.tick t)%N
  | RuntimeEvent.RouteTick t => (cur <=? RouteTick.tick t)%N
  | RuntimeEvent.LoopObserved o => (LoopObserved.tick o =? cur)%N
  | _ => true
  end.
Fixpoint clocked (cur : N) (ds : list Delivered) : bool := match ds with [] => true | d :: rest => on_clock cur (dl_event d) && clocked (tick_after cur (dl_event d)) rest end.
Definition once s : Prop :=
  StronglySorted N.lt (omap tick_of (observations s)) /\ Forall (fun t => exists l, lc_last_observed_tick (sg_ctx s) = Some l /\ (t <= l)%N) (omap tick_of (observations s)) /\
  (forall l, lc_last_observed_tick (sg_ctx s) = Some l -> (l <= lc_current_tick (sg_ctx s))%N).
#[global] Instance once_ticks : TickInvariant once.
Proof. split. intros s s' Ht. unfold once. unfold ticks, ctx_ticks in Ht. injection Ht as Hc Hl Ho. by rewrite Hc, Hl, Ho. Qed.
Lemma omap_observations s : omap tick_of (observations s) = observed_ticks s.
Proof.
  unfold observations, emitted, observed_ticks. induction (sg_out s) as [|x out IH]; [done|]. cbn [fmap list_fmap omap list_omap]. rewrite <- IH.
  destruct (le_event x); cbn; reflexivity.
Qed.
Lemma emit_ctx w place e parents s : sg_ctx (emit w place e parents s).1 = sg_ctx s.
Proof. unfold emit. by destruct (w_site w place). Qed.
Lemma once_emit w place o parents s : once s -> lc_last_observed_tick (sg_ctx s) = Some (LoopObserved.tick o) -> Forall (fun t => (t < LoopObserved.tick o)%N) (omap tick_of (observations s)) ->
  once (emit w place (RuntimeEvent.LoopObserved o) parents s).1.
Proof.
  intros (Hs & Hf & Hl) Ht Hlt. unfold once, observations. rewrite emitted_emit, emit_ctx, filter_app, omap_app. cbn [relevant]. rewrite filter_cons_True, filter_nil by done. cbn [omap list_omap tick_of].
  split_and!; [|apply Forall_app_2; [exact Hf|by repeat econstructor; [exact Ht|]]|exact Hl]. apply StronglySorted_app_2; [|exact Hs|by repeat constructor]. intros x y Hx Hy. apply list_elem_of_singleton in Hy as ->.
  exact (proj1 (Forall_forall _ _) Hlt x Hx).
Qed.
Lemma once_observe w w' s : once s -> once (observe_execute w' s).1 /\ forall r, (observe_execute w' s).2 = Ok r -> exists es, r = EmitMany es /\ forall trigger, once (emit_all w trigger es (observe_execute w' s).1).1.
Proof.
  intros Hs. destruct (observe_cases w' s) as [[Hc Hr]|(o & Hr & Ho & Hne & Hc)].
  { assert (Hu : once (observe_execute w' s).1) by exact (core_invariant s _ Hc Hs). split; [exact Hu|]. intros r Hr'. destruct Hr as [Hr|[err Hr]]; [|congruence]. rewrite Hr in Hr'. injection Hr' as <-. by exists []. }
  destruct (observe_execute w' s) as [s1 r1]. cbn [fst snd] in *. unfold core, ctx_core in Hc. injection Hc as Hcur Hlast _ _ Hem. destruct Hs as (Hs & Hf & Hl).
  assert (Hobs : observations s1 = observations s) by (unfold observations; by rewrite Hem).
  assert (Hlt : Forall (fun t => (t < lc_current_tick (sg_ctx s))%N) (omap tick_of (observations s))).
  { eapply Forall_impl; [exact Hf|]. intros t (l & Hlt & Hle). specialize (Hl l Hlt). assert (l <> lc_current_tick (sg_ctx s)) by congruence. lia. }
  assert (Hu : once s1).
  { unfold once. rewrite Hobs, Hcur, Hlast. split_and!; [exact Hs| |by intros l [= <-]]. eapply Forall_impl; [exact Hlt|]. intros t Hle. eexists. split; [done|]. cbv beta in *. lia. }
  split; [exact Hu|]. intros r ->. injection Hr as ->. eexists. split; [done|]. intros trigger. cbn [emit_all].
  assert (He : once (emit w "emit_stage_result" (RuntimeEvent.LoopObserved o) [trigger] s1).1) by (apply once_emit; [exact Hu|congruence|by rewrite Hobs, Ho]).
  unfold mbind, stateR_bind. unfold emit in *. by destruct (w_site w _).
Qed.
#[global] Instance once_contract w : StageContract w once.
Proof. apply tick_contract; [exact _|]. intros w' s. apply once_observe. Qed.
(** The tick is moved by the ticks only. *)
Definition at_tick (t : N) s : Prop := lc_current_tick (sg_ctx s) = t.
#[global] Instance at_tick_ticks t : TickInvariant (at_tick t).
Proof. split. intros s s' Ht. unfold at_tick. injection Ht as Hc _ _. by rewrite Hc. Qed.
Lemma emit_all_ctx w trigger es s : sg_ctx (emit_all w trigger es s).1 = sg_ctx s.
Proof.
  revert s. induction es as [|e es IH]; intros s; cbn [emit_all]; [done|]. unfold mbind, stateR_bind. pose proof (emit_ctx w "emit_stage_result" e [trigger] s) as He.
  unfold emit in *. destruct (w_site w _). cbn [modify fst] in *. by rewrite IH.
Qed.
#[global] Instance at_tick_contract w t : StageContract w (at_tick t).
Proof.
  apply tick_contract; [exact _|]. intros w' s Hs. assert (Hu : at_tick t (observe_execute w' s).1).
  { unfold at_tick in *. destruct (observe_cases w' s) as [[Hc _]|(o & _ & _ & _ & Hc)]; injection Hc as Hc; congruence. }
  split; [exact Hu|]. intros r Hr. destruct (observe_cases w' s) as [[_ [Hr'|[err Hr']]]|(o & Hr' & _)]; rewrite Hr in Hr'; [injection Hr' as ->|done|injection Hr' as ->]; eexists; (split; [done|]); intros trigger; unfold at_tick; by rewrite emit_all_ctx.
Qed.
Lemma keeps_upd_observed_ticks (I : Stage V -> Prop) `{!TickInvariant I} f : keeps I (upd_observed f) any.
Proof. apply keeps_of_ticks; [exact _|]. intros s. unfold upd_observed, ctx, gets, mbind, stateR_bind. by destruct (lc_last_observed (sg_ctx s)). Qed.
#[local] Hint Resolve keeps_upd_observed_ticks : keeps.
#[local] Hint Extern 0 (TickInvariant _) => exact _ : keeps.
(** The handlers that move the core without moving the ticks. *)
Lemma keeps_artifact_events (I : Stage V -> Prop) `{!TickInvariant I} w id e s :
  moves_core e = true -> match e with RuntimeEvent.Tick _ | RuntimeEvent.RouteTick _ | RuntimeEvent.LoopObserved _ => False | _ => True end -> I s -> I (handle_event w id e s).1.
Proof.
  intros Hm He Hs. destruct e; try done; cbn [handle_event]; apply (fun P : keeps I _ any => proj1 (P s Hs)); unfold quiet, handle_rustc_graph_artifact_written, handle_rustc_capture_failed; keep.
Qed.
Lemma once_handle_event cur w id e s : on_clock cur e = true -> moves_core e = true -> once s /\ at_tick cur s -> once (handle_event w id e s).1 /\ at_tick (tick_after cur e) (handle_event w id e s).1.
Proof.
  intros Hd Hm [Hs Ht]. destruct e; try done; cbn [on_clock tick_after] in *.
  all: try (split; [by apply (keeps_artifact_events once)|by apply (keeps_artifact_events (at_tick cur))]). all: cbn [handle_event]; destruct Hs as (Hs & Hf & Hl); unfold at_tick in Ht.
  all: try (apply N.leb_le in Hd; split; [split_and!; [exact Hs|exact Hf|]|reflexivity]; intros l Hl'; (etrans; [exact (Hl l Hl')|]); rewrite Ht; exact Hd).
  apply N.eqb_eq in Hd. unfold quiet, handle_loop_observed, ctx, gets, mbind, stateR_bind. cbv beta iota. case_bool_decide as Hb; [by repeat split|]. split; [|exact Ht]. split_and!; [exact Hs| |].
  - change (Forall (fun t => exists l, Some (LoopObserved.tick p) = Some l /\ (t <= l)%N) (omap tick_of (observations s))). eapply Forall_impl; [exact Hf|]. intros t (l & Hl' & Hle). specialize (Hl l Hl'). eexists. split; [done|]. lia.
  - change (forall l, Some (LoopObserved.tick p) = Some l -> (l <= lc_current_tick (sg_ctx s))%N). intros l [= <-]. lia.
Qed.
Lemma once_take cur s d : on_clock cur (dl_event d) = true -> once s /\ at_tick cur s -> once (take_event s d) /\ at_tick (tick_after cur (dl_event d)) (take_event s d).
Proof.
  destruct d as [w id e]. cbn [dl_event]. intros Hd [Hs Ht]. unfold take_event. cbn [dl_world dl_id dl_event]. destruct (moves_core e) eqn:Hm.
  - destruct (once_handle_event cur w id e s Hd Hm (conj Hs Ht)) as [Ho Ha]. split; [by apply (loop_on_event_moved w once)|by apply (loop_on_event_moved w (at_tick _))].
  - split; [apply (loop_on_event_keeps w once); [congruence|exact Hs]|]. replace (tick_after cur e) with cur by by destruct e. apply (loop_on_event_keeps w (at_tick cur)); [congruence|exact Ht].
Qed.
Lemma clocked_once cur s ds : clocked cur ds = true -> once s /\ at_tick cur s -> once (loop_run s ds).
Proof.
  revert cur s. induction ds as [|d ds IH]; intros cur s Hc Hs; [apply Hs|]. cbn [clocked] in Hc. apply andb_prop in Hc as [Hd Hc]. exact (IH _ _ Hc (once_take cur s d Hd Hs)).
Qed.

(** C7: the loop observes at most once per tick: as long as the ticks do not go
    back and the observations delivered are of the current tick, the ticks of
    the observations a fresh loop emits strictly increase, and the last tick
    recorded as observed bounds them all. *)
Theorem observed_once_per_tick workspace tlog_path artifact_dir dir policy store ds : let s := fresh_stage workspace tlog_path artifact_dir dir policy store in
  clocked 0 ds = true -> let s' := loop_run s ds in
  StronglySorted N.lt (observed_ticks s') /\ Forall (fun t => exists l, lc_last_observed_tick (sg_ctx s') = Some l /\ (t <= l)%N) (observed_ticks s').
Proof.
  cbv zeta. intros Hc. destruct (clocked_once 0 (fresh_stage workspace tlog_path artifact_dir dir policy store) ds Hc) as (Hs & Hf & _); [by split; [split_and!; [constructor..|]|]|].
  rewrite <- omap_observations. by split.
Qed.

(** The goal an observation is made for. *)
Definition observed_goal w (c : LoopContext V) : option string := if match lc_goal_text c with None => true | Some g => is_placeholder_goal g end then scan_tlog_for_goal w else lc_goal_text c.
Lemma observe_succeeds w s payload : lc_last_observed_tick (sg_ctx s) <> Some (lc_current_tick (sg_ctx s)) ->
  build_observation_payload w (observed_goal w (sg_ctx s)) (lc_workspace (sg_ctx s)) (lc_recent_compiler_errors (sg_ctx s)) = Some payload ->
  exists o, (observe_execute w s).2 = Ok (EmitMany [RuntimeEvent.LoopObserved o]) /\ LoopObserved.tick o = lc_current_tick (sg_ctx s) /\ sg_out (observe_execute w s).1 = sg_out s /\
    LoopObserved.semantic_summary o = payload.1 /\ LoopObserved.goal_text o = observed_goal w (sg_ctx s).
Proof.
  intros Ht. unfold observe_execute, observed_goal, ctx, gets, upd, modify, mbind, stateR_bind, mret, stateR_ret. rewrite bool_decide_eq_false_2 by exact Ht.
  set (b := match lc_goal_text _ with None => true | Some g => is_placeholder_goal g end). destruct b; cbv beta zeta iota;
    intros Hp; destruct payload as [summary diagnostics]; (match goal with |- context [or_panic ?o _] => replace o with (Some (summary, diagnostics)) by exact (eq_sym Hp) end); eexists; split_and!; reflexivity.
Qed.

Lemma observe_mode_emits w trigger rt s payload : lc_last_planned_observed_tick (sg_ctx s) <> Some (lc_current_tick (sg_ctx s)) -> lc_last_observed_tick (sg_ctx s) <> Some (lc_current_tick (sg_ctx s)) ->
  build_observation_payload w (observed_goal w (sg_ctx s)) (lc_workspace (sg_ctx s)) (lc_recent_compiler_errors (sg_ctx s)) = Some payload ->
  exists s' x o, execute_observe_mode w trigger (RuntimeEvent.RouteTick rt) Forced s = (s', Ok tt) /\ sg_out s' = sg_out s ++ [x] /\ le_event x = RuntimeEvent.LoopObserved o /\ le_parent_ids x = [trigger] /\
    LoopObserved.tick o = lc_current_tick (sg_ctx s) /\ LoopObserved.semantic_summary o = payload.1 /\ LoopObserved.goal_text o = observed_goal w (sg_ctx s).
Proof.
  intros Hp Hl Hb. destruct (observe_succeeds w s payload Hl Hb) as (o & Hr & Ht & Hout & Hsm & Hg). unfold execute_observe_mode, ctx, gets, mbind, stateR_bind. cbv beta iota. rewrite bool_decide_eq_false_2 by exact Hp.
  cbn [RuntimeEvent.event_kind_str mret stateR_ret negb]. cbv beta iota. unfold attempt. change (String.eqb "route_tick" "route_tick") with true. cbn [negb]. destruct (observe_execute w s) as [s1 r1]. cbn [fst snd] in *. subst r1. cbv beta iota. cbn [emit_stage_result emit_all]. unfold mbind, stateR_bind, emit. destruct (w_site w _) as [file line].
  cbn [modify mret stateR_ret]. cbv beta iota. eexists _, (MkLocated (RuntimeEvent.LoopObserved o) file line [trigger]), o. split; [reflexivity|]. split; [|split; [reflexivity|by split_and!]]. change (sg_out s1 ++ [MkLocated (RuntimeEvent.LoopObserved o) file line [trigger]] = sg_out s ++ [MkLocated (RuntimeEvent.LoopObserved o) file line [trigger]]). by rewrite Hout.
Qed.

(** Without a summary the observation panics, before anything is emitted. *)
Lemma observe_panics w s : lc_last_observed_tick (sg_ctx s) <> Some (lc_current_tick (sg_ctx s)) ->
  build_observation_payload w (observed_goal w (sg_ctx s)) (lc_workspace (sg_ctx s)) (lc_recent_compiler_errors (sg_ctx s)) = None ->
  sg_out (observe_execute w s).1 = sg_out s /\ exists msg, (observe_execute w s).2 = Err (StagePanic msg).
Proof.
  intros Ht. unfold observe_execute, observed_goal, ctx, gets, upd, modify, mbind, stateR_bind, mret, stateR_ret. rewrite bool_decide_eq_false_2 by exact Ht.
  set (b := match lc_goal_text _ with None => true | Some g => is_placeholder_goal g end). destruct b; cbv beta zeta iota;
    intros Hp; (match goal with |- context [or_panic ?o _] => replace o with (@None (SemanticStateSummary * list string)) by exact (eq_sym Hp) end); split; [reflexivity|by eexists|reflexivity|by eexists].
Qed.
Lemma observe_mode_panics w trigger rt s : lc_last_planned_observed_tick (sg_ctx s) <> Some (lc_current_tick (sg_ctx s)) -> lc_last_observed_tick (sg_ctx s) <> Some (lc_current_tick (sg_ctx s)) ->
  build_observation_payload w (observed_goal w (sg_ctx s)) (lc_workspace (sg_ctx s)) (lc_recent_compiler_errors (sg_ctx s)) = None ->
  exists s' msg, execute_observe_mode w trigger (RuntimeEvent.RouteTick rt) Forced s = (s', Err (StagePanic msg)) /\ sg_out s' = sg_out s.
Proof.
  intros Hp Hl Hb. destruct (observe_panics w s Hl Hb) as (Hout & msg & Hr). unfold execute_observe_mode, ctx, gets, mbind, stateR_bind. cbv beta iota. rewrite bool_decide_eq_false_2 by exact Hp.
  cbn [RuntimeEvent.event_kind_str mret stateR_ret negb]. cbv beta iota. unfold attempt. change (String.eqb "route_tick" "route_tick") with true. cbn [negb].
  destruct (observe_execute w s) as [s1 r1]. cbn [fst snd] in *. subst r1. cbv beta iota. by exists s1, msg.
Qed.
(** A manifest or entry point with a character across byte 4000 is enough. *)
Lemma preview_panics (w : World V) root p contents : p ∈ (if path_exists (w_fs w) (join_path root (lit "Cargo.toml")) then [join_path root (lit "Cargo.toml")] else []) ++ option_list (preferred_entrypoint w root) ->
  read_to_string (w_fs w) p = Some contents -> 4000 < length contents -> slice_to 4000 contents = None -> previews w root = None.
Proof.
  intros Hp Hr Hlen Hs. unfold previews. destruct (mapM _ _) as [l|] eqn:Hm; [|done]. apply mapM_Some_1 in Hm. apply list_elem_of_lookup_1 in Hp as [i Hi].
  destruct (Forall2_lookup_l _ _ _ _ _ Hm Hi) as (y & _ & Hy). unfold read_file_preview in Hy. rewrite Hr, (proj2 (Nat.ltb_lt _ _) Hlen), Hs in Hy. discriminate Hy.
Qed.
(** A route tick forces the observation, with the tick made current. *)
Lemma route_tick_forces w id rt s : let s1 := s <| sg_ctx ::= fun c => c <| lc_current_tick := RouteTick.tick rt |> |> in
  sg_out (take_event s (MkDelivered w id (RuntimeEvent.RouteTick rt))) = sg_out (execute_observe_mode w id (RuntimeEvent.RouteTick rt) Forced s1).1 /\
  forall err, (execute_observe_mode w id (RuntimeEvent.RouteTick rt) Forced s1).2 = Err err -> (loop_on_event w id (RuntimeEvent.RouteTick rt) s).2 = Err err.
Proof.
  cbv zeta. set (s1 := s <| sg_ctx ::= fun c => c <| lc_current_tick := RouteTick.tick rt |> |>).
  unfold take_event, loop_on_event, after_handlers. cbn [dl_world dl_id dl_event build_recovery_eval recovery_debug handle_recovery_event handle_event mbind option_bind].
  unfold ctx, gets, mbind, stateR_bind, mret, stateR_ret, upd, modify. cbv beta zeta iota. fold s1. cbn [is_planning_completed]. rewrite andb_false_r. cbn [negb orb andb].
  destruct (execute_observe_mode w id (RuntimeEvent.RouteTick rt) Forced s1) as [s2 [[]|err]]; cbv beta iota; split; try reflexivity; [done|]. by intros err' [= ->].
Qed.

(** C11: a tick that was neither observed nor planned for is observed when its
    route tick comes: if the workspace can be summarised exactly one
    observation is emitted, of this tick and of the goal and state of the
    workspace; if it cannot, because a text would be cut inside a character
    (a preview of [Cargo.toml] at byte 4000, say), the loop panics and nothing is emitted. *)
Theorem route_tick_observes w id (rt : RouteTick.t) s : let t := RouteTick.tick rt in
  lc_last_observed_tick (sg_ctx s) <> Some t -> lc_last_planned_observed_tick (sg_ctx s) <> Some t ->
  let out := sg_out (take_event s (MkDelivered w id (RuntimeEvent.RouteTick rt))) in
  match build_observation_payload w (observed_goal w (sg_ctx s)) (lc_workspace (sg_ctx s)) (lc_recent_compiler_errors (sg_ctx s)) with
  | Some payload => exists x o, out = sg_out s ++ [x] /\ le_event x = RuntimeEvent.LoopObserved o /\ le_parent_ids x = [id] /\
      LoopObserved.tick o = t /\ LoopObserved.semantic_summary o = payload.1 /\ LoopObserved.goal_text o = observed_goal w (sg_ctx s)
  | None => out = sg_out s /\ exists msg, (loop_on_event w id (RuntimeEvent.RouteTick rt) s).2 = Err (StagePanic msg)
  end.
Proof.
  cbv zeta. intros Hl Hp. destruct (route_tick_forces w id rt s) as [-> Herr]. cbv zeta in Herr. revert Herr. set (s1 := s <| sg_ctx ::= fun c => c <| lc_current_tick := RouteTick.tick rt |> |>). intros Herr.
  destruct (build_observation_payload w (observed_goal w (sg_ctx s)) (lc_workspace (sg_ctx s)) (lc_recent_compiler_errors (sg_ctx s))) as [payload|] eqn:Hb.
  - destruct (observe_mode_emits w id rt s1 payload Hp Hl Hb) as (s2 & x & o & Hrun & Hx). exists x, o. rewrite Hrun. exact Hx.
  - destruct (observe_mode_panics w id rt s1 Hp Hl Hb) as (s2 & msg & Hrun & Hx). rewrite Hrun in *. split; [exact Hx|]. exists msg. by apply Herr.
Qed.

(** ** Completed tools *)

Definition is_debug e : bool := match e with RuntimeEvent.Debug _ => true | _ => false end.
(** An event that is none of the observing kinds goes straight to its stage,
    unless the loop is halted. *)
Lemma capability_event w id e s : (exists k, e = RuntimeEvent.CapabilityCompleted k) \/ (exists f, e = RuntimeEvent.CapabilityFailed f) ->
  loop_on_event w id e s = if lc_halted (sg_ctx s) then (s, Ok (NoOp "loop_stage_halted")) else execute_stage_event w id e s.
Proof.
  intros He. unfold loop_on_event, after_handlers, apply_runtime_evaluation, handle_runtime_observe_mode, ctx, gets, mbind, stateR_bind.
  destruct He as [[k ->]|[f ->]]; cbn [build_recovery_eval recovery_debug handle_recovery_event handle_event mbind option_bind mret stateR_ret advance_control_state suppresses_observe_on_invariant andb orb negb]; cbv beta zeta iota;
    set (b := match lc_last_observed_tick _ with Some _ => _ | None => false end); destruct (lc_halted (sg_ctx s)), b; reflexivity.
Qed.

Lemma emit_eq w place e parents s : emit w place e parents s = (s <| sg_out ::= fun l => l ++ [MkLocated e (w_site w place).1 (w_site w place).2 parents] |>, Ok tt).
Proof. unfold emit. by destruct (w_site w place). Qed.
Lemma decompose_not_pending w k s : lc_pending_decompose_request_id (sg_ctx s) <> Some (CapabilityCompleted.request_id k) -> decompose_complete w k s = (s, Ok Noop).
Proof.
  intros Hd. unfold decompose_complete, ctx, gets, mbind, stateR_bind. destruct (lc_pending_decompose_request_id (sg_ctx s)) as [pending|]; [|done]. destruct (String.eqb_spec pending (CapabilityCompleted.request_id k)) as [->|]; done.
Qed.
Definition plan_missing : RuntimeEvent.t V := RuntimeEvent.Debug (DebugEvent.mk "plan_stage" "pending_plan_missing_telemetry" (jsingle "semantic_violation" (jbool true))).
Lemma plan_complete_not_pending w k id s : lc_pending_plan (sg_ctx s) = None -> plan_execute_complete w k id s = (s, Ok (Emit plan_missing)).
Proof. intros Hp. unfold plan_execute_complete, ctx, gets, mbind, stateR_bind. by rewrite Hp. Qed.
Lemma dispatch_done_lost w k id s : lc_pending_plan (sg_ctx s) = None -> lc_pending_decompose_request_id (sg_ctx s) <> Some (CapabilityCompleted.request_id k) ->
  exists x, is_debug (le_event x) = true /\ dispatch_capability_done w k id s = (s <| sg_out ::= fun l => l ++ [x] |>, Ok (Emit plan_missing)).
Proof.
  intros Hp Hd. eexists (MkLocated _ _ _ _). split; [|unfold dispatch_capability_done, or_stage, ctx, gets, mbind, stateR_bind; rewrite emit_eq; cbv beta iota; rewrite decompose_not_pending by exact Hd; cbn [is_noop]; cbv beta iota;
    unfold catch_unwind; cbn [plan_complete work_stages]; rewrite plan_complete_not_pending by exact Hp; reflexivity]. done.
Qed.

(** C9: a completed tool is lost: when no plan is pending and the completion is
    not that of a decomposition, the planner answers it with telemetry, so the
    action stage is never asked.  The action stays pending and its result is
    not emitted. *)
Theorem completed_tool_lost w id (k : CapabilityCompleted.t V) s : lc_pending_plan (sg_ctx s) = None -> lc_pending_decompose_request_id (sg_ctx s) <> Some (CapabilityCompleted.request_id k) ->
  let s' := take_event s (MkDelivered w id (RuntimeEvent.CapabilityCompleted k)) in
  sg_ctx s' = sg_ctx s /\ sg_dir s' = sg_dir s /\ exists xs, sg_out s' = sg_out s ++ xs /\ Forall (fun x => is_debug (le_event x) = true) xs.
Proof.
  intros Hp Hd. unfold take_event. cbn [dl_world dl_id dl_event]. rewrite capability_event by eauto. destruct (lc_halted (sg_ctx s)); [split_and!; [done..|]; exists []; by rewrite app_nil_r|].
  cbn [execute_stage_event stage_event]. unfold run_stage, attempt, mbind, stateR_bind. cbn [stage_execute]. destruct (dispatch_done_lost w k id s Hp Hd) as (x & Hx & ->). cbv beta iota. cbn [emit_stage_result emit_all].
  unfold mbind, stateR_bind. rewrite emit_eq. split_and!; [done..|]. exists [x; MkLocated plan_missing (w_site w "emit_stage_result").1 (w_site w "emit_stage_result").2 [id]]. split; [|by repeat constructor]. exact (eq_sym (app_assoc (sg_out s) [x] _)).
Qed.
End Runs.

(** ** A run *)

Definition sample_stage : Stage jval := fresh_stage (lit "/w") (lit "/w/log") (lit "/w/art") [] PolicyBlock (fresh 0).
Abbreviation got e := (MkDelivered sample_world "id" e).
Definition sample_observation (t : N) : RuntimeEvent.t jval := RuntimeEvent.LoopObserved (LoopObserved.mk t 0 0 [] None summary_default []).
Definition route (t : N) (r : string) : RuntimeEvent.t jval := RuntimeEvent.RouteSelected (RouteSelected.mk t r "" r "go" None "" [] false false "").
Definition two_ticks : list (Delivered (V := jval)) :=
  [got (RuntimeEvent.Tick (Tick.mk 1 true)); got (RuntimeEvent.RouteTick (RouteTick.mk 1 true)); got (sample_observation 1); got (route 1 "Plan");
   got (RuntimeEvent.Tick (Tick.mk 2 true)); got (RuntimeEvent.RouteTick (RouteTick.mk 2 true)); got (sample_observation 2); got (route 2 "Act")].
Lemma two_ticks_observe : observed_ticks (loop_run sample_stage two_ticks) = [1; 2]%N.
Proof. vm_compute. reflexivity. Qed.
Lemma observed_once_per_tick_witness : observed_ticks (loop_run sample_stage two_ticks) = [1; 2]%N /\ StronglySorted N.lt (observed_ticks (loop_run sample_stage two_ticks)).
Proof. split; [exact two_ticks_observe|]. apply (observed_once_per_tick (V := jval)). vm_compute. reflexivity. Defined.
Lemma loop_never_plans_witness : lc_last_observed (sg_ctx (loop_run sample_stage two_ticks)) = None.
Proof. apply (loop_never_plans (V := jval)). vm_compute. reflexivity. Defined.
Lemma route_tick_observes_witness : exists x, sg_out (take_event sample_stage (got (RuntimeEvent.RouteTick (RouteTick.mk 1 true)))) = [x].
Proof.
  pose proof (route_tick_observes (V := jval) sample_world "id" (RouteTick.mk 1 true) sample_stage ltac:(discriminate) ltac:(discriminate)) as Ho. cbv zeta in Ho.
  match type of Ho with match ?p with _ => _ end => destruct p as [payload|] eqn:Hb end; [|exfalso; revert Hb; vm_compute; discriminate].
  destruct Ho as (x & _ & Hx & _). exists x. exact Hx.
Defined.
Definition bash_done : CapabilityCompleted.t jval := CapabilityCompleted.mk "r" "bash" (Process (MkProcess 0 true "out" "")).
Definition waiting : PendingAct := MkPendingAct 1 "run_command" "bash" "r" "c" "n" 0 None None None None None None 0 None.
Lemma completed_tool_lost_witness : lc_pending_act (sg_ctx (take_event (sample_stage <| sg_ctx ::= fun c => c <| lc_pending_act := Some waiting |> |>) (got (RuntimeEvent.CapabilityCompleted bash_done)))) = Some waiting.
Proof. destruct (completed_tool_lost (V := jval) sample_world "id" bash_done (sample_stage <| sg_ctx ::= fun c => c <| lc_pending_act := Some waiting |> |>)) as [-> _]; [reflexivity|discriminate|reflexivity]. Defined.
