(* ===== verification/RoutePolicy.v ===== *)
(** * The route policy ([canon-route/src/policy.rs])

    The rules a route can be corrected by, the states they are judged in and the
    evaluators.  The policy layer only observes: every evaluator answers with a
    constant.  The evaluation of an emission is in [RouteExecutor], its only
    user in the runtime. *)
From S2P Require Import Prelude Json Text PatchParser TextFormat Wire SemanticState SemanticText Gatekeeper Objectives Goal LoopPolicy EventShape KernelTypes Events EventBus RouteContext RouteExecutor.

(** ** Rules and classes *)

Module RoutePolicyRule.
Inductive t : Set :=
  | ForcePlanOnObjectiveContradiction | ForcePlanOnRepeatedObserve | ForcePlanOnMissingTarget | CycleCapToObserve.
#[global] Instance eq_dec : EqDecision t.
Proof. solve_decision. Defined.
End RoutePolicyRule.

Module RouteEmitEffectRule.
Inductive t : Set :=
  | None | ClearDeterministicObserveSentinel | HaltOnConclude.
#[global] Instance eq_dec : EqDecision t.
Proof. solve_decision. Defined.
End RouteEmitEffectRule.

Module RouteRecoveryRule.
Inductive t : Set :=
  | None | EmitExpectedSuccessorRecovery.
#[global] Instance eq_dec : EqDecision t.
Proof. solve_decision. Defined.
End RouteRecoveryRule.

Module RouteFailureRule.
Inductive t : Set :=
  | HeuristicFailureReroute.
#[global] Instance eq_dec : EqDecision t.
Proof. solve_decision. Defined.
End RouteFailureRule.

Module RouteCacheRule.
Inductive t : Set :=
  | ReplayCachedRoute | InvalidateCachedObserveRoute | SuppressDuplicatePrompt.
#[global] Instance eq_dec : EqDecision t.
Proof. solve_decision. Defined.
End RouteCacheRule.

Module RouteDispatchRule.
Inductive t : Set :=
  | SuppressHalted | SuppressContextNotReady | SuppressPendingRequest | SuppressDuplicateRouteForCurrentControl.
#[global] Instance eq_dec : EqDecision t.
Proof. solve_decision. Defined.
End RouteDispatchRule.

Module DeterministicRouteRule.
Inductive t : Set :=
  | BootstrapRefreshObserve | DoneVerify | SemanticProgressVerify | NoSemanticProgressPlan | ContinueAct | PlannedToAct | MissingObservedContextObserve
  | MissingTargetPlan | InvalidPlanReplan.
#[global] Instance eq_dec : EqDecision t.
Proof. solve_decision. Defined.
End DeterministicRouteRule.

Module ApplyPatchOutcomeClass.
Inductive t : Set :=
  | Success | MissingTargetFile | PatchApplyFailure | OtherFailure.
#[global] Instance eq_dec : EqDecision t.
Proof. solve_decision. Defined.
End ApplyPatchOutcomeClass.

Module RunCommandOutcomeClass.
Inductive t : Set :=
  | BootstrapSuccess | ValidationFailureCompiler | BootstrapSelectionMismatch | ValidationSuccess | SemanticFailure | Other.
#[global] Instance eq_dec : EqDecision t.
Proof. solve_decision. Defined.
End RunCommandOutcomeClass.

Module VerifyOutcomeClass.
Inductive t : Set :=
  | CompilerFailure | Passed | FailedNoCompilerSignal.
#[global] Instance eq_dec : EqDecision t.
Proof. solve_decision. Defined.
End VerifyOutcomeClass.

Module RouteCacheState.
Record t := mk {
  force_fresh_route_once : bool; last_prompt_hash : option N; prompt_hash : N; pending_required_successor : option string; last_route_prompt_hash : option N;
  route_emitted_for_current_control : bool; has_cached_route : bool; cached_route_is_observe : bool; can_emit_route_selected : bool
}.
End RouteCacheState.

Module RouteDispatchState.
Record t := mk {
  pending_request_id : option string; route_emitted_for_current_control : bool
}.
End RouteDispatchState.
#[export] Instance RouteEmitRule_eq_dec : EqDecision RouteEmitRule.
Proof. solve_decision. Defined.

(** ** Evaluations *)

(** [RoutePolicyState] has no fields. *)
Inductive RoutePolicyState : Set := MkPolicyState.
Record RouteCacheEvaluation := MkCacheEval { cache_rule : RouteCacheRule.t }.
Record RouteDispatchSuppression := MkSuppression { suppression_rule : RouteDispatchRule.t }.
Record DeterministicEvaluation := MkDeterministic { deterministic_rule : DeterministicRouteRule.t }.
Record RouteDispatchEvaluation := MkDispatchEval { dispatch_suppression : option RouteDispatchSuppression; dispatch_deterministic : option DeterministicEvaluation }.
Record RouteFailureEvaluation := MkFailureEval { failure_rule : RouteFailureRule.t }.
Record RouteTransitionEvaluation := MkTransitionEval { transition_deterministic : option DeterministicEvaluation; transition_rules : list RoutePolicyRule.t }.
Record RouteEmitEffectsEvaluation := MkEmitEffects {
  effects_clear_pending_request : bool; effects_clear_pending_prompt : bool; effects_set_halted : bool; effects_rules : list RouteEmitEffectRule.t
}.
Record RouteRecoveryEvaluation := MkRouteRecovery { recovery_expected_successor : option string; route_recovery_rule : RouteRecoveryRule.t }.

(** ** Evaluators *)

Section Policy.
Context {V : Type}.
Implicit Types (c : RouteContext V).
Definition evaluate_route_cache (st : RouteCacheState.t) : RouteCacheEvaluation := MkCacheEval RouteCacheRule.ReplayCachedRoute.
Definition evaluate_route_dispatch c (st : RoutePolicyState) (d : RouteDispatchState.t) : RouteDispatchEvaluation := MkDispatchEval None None.
Definition evaluate_route_failure c : RouteFailureEvaluation := MkFailureEval RouteFailureRule.HeuristicFailureReroute.
Definition evaluate_route_transition c (st : RoutePolicyState) (event : option (RuntimeEvent.t V)) (decision : option RouteDecision) : RouteTransitionEvaluation :=
  MkTransitionEval None [].
Definition latest_apply_patch_outcome c : option ApplyPatchOutcomeClass.t := None.
Definition latest_run_command_outcome c : option RunCommandOutcomeClass.t := None.
Definition latest_verify_outcome c : option VerifyOutcomeClass.t := None.
Definition has_actionable_failure c : bool := false.
(** The decision is passed by reference and left as it is. *)
Definition apply_route_policy c (st : RoutePolicyState) (decision : RouteDecision) : RouteDecision * list RoutePolicyRule.t := (decision, []).
Definition evaluate_route_emit_effects (decision : RouteDecision) : RouteEmitEffectsEvaluation := MkEmitEffects false false false [RouteEmitEffectRule.None].
Definition evaluate_route_recovery (pending_required_successor : option string) : RouteRecoveryEvaluation := MkRouteRecovery None RouteRecoveryRule.None.
End Policy.
