(* ===== verification/PolicyMatrix.v ===== *)
(** * The policy matrix: rows and tables ([canon-policy-matrix/src/lib.rs])

    The families of scenarios, the structures of rows, the states from which
    rows are generated, and the tables themselves.  Enumerations and structures
    are modules, since their members share names. *)
From Stdlib Require Import Floats.SpecFloat.
From stdpp Require Import pretty.
From S2P Require Import Prelude Json Text PatchParser TextFormat Paths Wire SemanticState SemanticText Gatekeeper Objectives Goal LoopPolicy ConstraintEngine CompilerHints Workspace Preconditions Scheduler EventShape KernelTypes Events EventBus RouteContext RouteExecutor RoutePolicy Merge LoopContext LoopStages.
Open Scope string_scope.

(** ** Families, with their printed names *)

Module RouteScenarioFamily.
Inductive t : Set :=
  | BootstrapRefreshObserve | DoneVerify | SemanticProgressVerify | NoSemanticProgressPlan | ContinueAct | PlannedToAct | MissingObservedContextObserve
  | ForcePlanOnRepeatedObserve | ForcePlanOnMissingTarget | CycleCapToPlan | CycleCapToObserve | NoRewriteAccepted | DispatchSuppressHalted
  | DispatchSuppressContextNotReady | DispatchSuppressPendingRequest | DispatchSuppressDuplicateCurrentControl | DispatchMissingTargetPlan | DispatchInvalidPlanReplan
  | EmitDuplicateBeforeSuccessor | EmitIllegalControlReentry | EmitWrongExpectedSuccessor | CacheReplay | CacheInvalidateObserve | CacheSuppressDuplicatePrompt
  | FailureHeuristicReroute | EmitEffectObserveClearsDeterministicSentinel | EmitEffectConcludeHalts | RecoveryEmitExpectedSuccessor | SuccessorConsumesAwaiting.
#[global] Instance eq_dec : EqDecision t.
Proof. solve_decision. Defined.
Definition ALL : list t :=
  [BootstrapRefreshObserve; DoneVerify; SemanticProgressVerify; NoSemanticProgressPlan; ContinueAct; PlannedToAct; MissingObservedContextObserve;
  ForcePlanOnRepeatedObserve; ForcePlanOnMissingTarget; CycleCapToPlan; CycleCapToObserve; NoRewriteAccepted; DispatchSuppressHalted; DispatchSuppressContextNotReady;
  DispatchSuppressPendingRequest; DispatchSuppressDuplicateCurrentControl; DispatchMissingTargetPlan; DispatchInvalidPlanReplan; EmitDuplicateBeforeSuccessor;
  EmitIllegalControlReentry; EmitWrongExpectedSuccessor; CacheReplay; CacheInvalidateObserve; CacheSuppressDuplicatePrompt; FailureHeuristicReroute;
  EmitEffectObserveClearsDeterministicSentinel; EmitEffectConcludeHalts; RecoveryEmitExpectedSuccessor].
Definition debug (x : t) : string :=
  match x with BootstrapRefreshObserve => "BootstrapRefreshObserve" | DoneVerify => "DoneVerify" | SemanticProgressVerify => "SemanticProgressVerify" | NoSemanticProgressPlan => "NoSemanticProgressPlan" | ContinueAct => "ContinueAct" | PlannedToAct => "PlannedToAct" | MissingObservedContextObserve => "MissingObservedContextObserve" | ForcePlanOnRepeatedObserve => "ForcePlanOnRepeatedObserve" | ForcePlanOnMissingTarget => "ForcePlanOnMissingTarget" | CycleCapToPlan => "CycleCapToPlan" | CycleCapToObserve => "CycleCapToObserve" | NoRewriteAccepted => "NoRewriteAccepted" | DispatchSuppressHalted => "DispatchSuppressHalted" | DispatchSuppressContextNotReady => "DispatchSuppressContextNotReady" | DispatchSuppressPendingRequest => "DispatchSuppressPendingRequest" | DispatchSuppressDuplicateCurrentControl => "DispatchSuppressDuplicateCurrentControl" | DispatchMissingTargetPlan => "DispatchMissingTargetPlan" | DispatchInvalidPlanReplan => "DispatchInvalidPlanReplan" | EmitDuplicateBeforeSuccessor => "EmitDuplicateBeforeSuccessor" | EmitIllegalControlReentry => "EmitIllegalControlReentry" | EmitWrongExpectedSuccessor => "EmitWrongExpectedSuccessor" | CacheReplay => "CacheReplay" | CacheInvalidateObserve => "CacheInvalidateObserve" | CacheSuppressDuplicatePrompt => "CacheSuppressDuplicatePrompt" | FailureHeuristicReroute => "FailureHeuristicReroute" | EmitEffectObserveClearsDeterministicSentinel => "EmitEffectObserveClearsDeterministicSentinel" | EmitEffectConcludeHalts => "EmitEffectConcludeHalts" | RecoveryEmitExpectedSuccessor => "RecoveryEmitExpectedSuccessor" | SuccessorConsumesAwaiting => "SuccessorConsumesAwaiting" end.
End RouteScenarioFamily.

Module LoopScenarioFamily.
Inductive t : Set :=
  | InvalidPlanClearsSuppression | InvalidPlanNoRecoveryForOtherStatus | ActStallTriggersObserve | NonActStallDoesNotTriggerObserve | RewardRecoveryForExpectedSuccessor
  | NonRewardSuccessorDoesNotRecover | ObserveBlockedByPendingSuccessor | ObserveNotBlockedWithoutSuccessor | RuntimeTriggeredObserve | RuntimeForcedObserve
  | RuntimeSuppressObserveOnInvariant | RuntimeSuppressObserveOnPendingSuccessor | RuntimeBlockWhenHalted | RecoveryEventForceObserve | RecoveryEventRewardExecute
  | RecoveryEventRewardSkipSatisfied | RecoveryEventRewardMissingContext | RewardRecoveryNoop | RewardRecoveryExecutionError | ObserveForcedDeferred | ObserveForcedNoop
  | ObserveTriggeredDeferred | ObserveTriggeredNoop | BootstrapInvalidatesQueuedWork | RewardSemanticProgress | RewardNoSemanticProgress.
#[global] Instance eq_dec : EqDecision t.
Proof. solve_decision. Defined.
Definition ALL : list t :=
  [InvalidPlanClearsSuppression; InvalidPlanNoRecoveryForOtherStatus; ActStallTriggersObserve; NonActStallDoesNotTriggerObserve; RewardRecoveryForExpectedSuccessor;
  NonRewardSuccessorDoesNotRecover; ObserveBlockedByPendingSuccessor; ObserveNotBlockedWithoutSuccessor; RuntimeTriggeredObserve; RuntimeForcedObserve;
  RuntimeSuppressObserveOnInvariant; RuntimeSuppressObserveOnPendingSuccessor; RuntimeBlockWhenHalted; RecoveryEventForceObserve; RecoveryEventRewardExecute;
  RecoveryEventRewardSkipSatisfied; RecoveryEventRewardMissingContext; RewardRecoveryNoop; RewardRecoveryExecutionError; ObserveForcedDeferred; ObserveForcedNoop;
  ObserveTriggeredDeferred; ObserveTriggeredNoop; BootstrapInvalidatesQueuedWork; RewardSemanticProgress; RewardNoSemanticProgress].
Definition debug (x : t) : string :=
  match x with InvalidPlanClearsSuppression => "InvalidPlanClearsSuppression" | InvalidPlanNoRecoveryForOtherStatus => "InvalidPlanNoRecoveryForOtherStatus" | ActStallTriggersObserve => "ActStallTriggersObserve" | NonActStallDoesNotTriggerObserve => "NonActStallDoesNotTriggerObserve" | RewardRecoveryForExpectedSuccessor => "RewardRecoveryForExpectedSuccessor" | NonRewardSuccessorDoesNotRecover => "NonRewardSuccessorDoesNotRecover" | ObserveBlockedByPendingSuccessor => "ObserveBlockedByPendingSuccessor" | ObserveNotBlockedWithoutSuccessor => "ObserveNotBlockedWithoutSuccessor" | RuntimeTriggeredObserve => "RuntimeTriggeredObserve" | RuntimeForcedObserve => "RuntimeForcedObserve" | RuntimeSuppressObserveOnInvariant => "RuntimeSuppressObserveOnInvariant" | RuntimeSuppressObserveOnPendingSuccessor => "RuntimeSuppressObserveOnPendingSuccessor" | RuntimeBlockWhenHalted => "RuntimeBlockWhenHalted" | RecoveryEventForceObserve => "RecoveryEventForceObserve" | RecoveryEventRewardExecute => "RecoveryEventRewardExecute" | RecoveryEventRewardSkipSatisfied => "RecoveryEventRewardSkipSatisfied" | RecoveryEventRewardMissingContext => "RecoveryEventRewardMissingContext" | RewardRecoveryNoop => "RewardRecoveryNoop" | RewardRecoveryExecutionError => "RewardRecoveryExecutionError" | ObserveForcedDeferred => "ObserveForcedDeferred" | ObserveForcedNoop => "ObserveForcedNoop" | ObserveTriggeredDeferred => "ObserveTriggeredDeferred" | ObserveTriggeredNoop => "ObserveTriggeredNoop" | BootstrapInvalidatesQueuedWork => "BootstrapInvalidatesQueuedWork" | RewardSemanticProgress => "RewardSemanticProgress" | RewardNoSemanticProgress => "RewardNoSemanticProgress" end.
End LoopScenarioFamily.

Module RunCommandOutcomeFamily.
Inductive t : Set :=
  | BootstrapSuccess | BootstrapSelectionMismatch | ValidationFailureCompiler | ValidationSuccess | SemanticFailure | Other.
#[global] Instance eq_dec : EqDecision t.
Proof. solve_decision. Defined.
Definition ALL : list t :=
  [BootstrapSuccess; BootstrapSelectionMismatch; ValidationFailureCompiler; ValidationSuccess; SemanticFailure; Other].
Definition debug (x : t) : string :=
  match x with BootstrapSuccess => "BootstrapSuccess" | BootstrapSelectionMismatch => "BootstrapSelectionMismatch" | ValidationFailureCompiler => "ValidationFailureCompiler" | ValidationSuccess => "ValidationSuccess" | SemanticFailure => "SemanticFailure" | Other => "Other" end.
End RunCommandOutcomeFamily.

Module ApplyPatchOutcomeFamily.
Inductive t : Set :=
  | Success | MissingTargetFile | PatchApplyFailure | OtherFailure.
#[global] Instance eq_dec : EqDecision t.
Proof. solve_decision. Defined.
Definition ALL : list t :=
  [Success; MissingTargetFile; PatchApplyFailure; OtherFailure].
Definition debug (x : t) : string :=
  match x with Success => "Success" | MissingTargetFile => "MissingTargetFile" | PatchApplyFailure => "PatchApplyFailure" | OtherFailure => "OtherFailure" end.
End ApplyPatchOutcomeFamily.

Module VerifyOutcomeFamily.
Inductive t : Set :=
  | CompilerFailure | Passed | FailedNoCompilerSignal.
#[global] Instance eq_dec : EqDecision t.
Proof. solve_decision. Defined.
Definition ALL : list t :=
  [CompilerFailure; Passed; FailedNoCompilerSignal].
Definition debug (x : t) : string :=
  match x with CompilerFailure => "CompilerFailure" | Passed => "Passed" | FailedNoCompilerSignal => "FailedNoCompilerSignal" end.
End VerifyOutcomeFamily.

Module InvalidPlanRetryFamily.
Inductive t : Set :=
  | MixedBatchDiscoveryOnly | PatchFormatSinglePatchOnly | PathOrCwdCorrectiveRetry | MissingContextCorrectiveRetry | UnknownCorrectiveRetry.
#[global] Instance eq_dec : EqDecision t.
Proof. solve_decision. Defined.
Definition ALL : list t :=
  [MixedBatchDiscoveryOnly; PatchFormatSinglePatchOnly; PathOrCwdCorrectiveRetry; MissingContextCorrectiveRetry; UnknownCorrectiveRetry].
Definition debug (x : t) : string :=
  match x with MixedBatchDiscoveryOnly => "MixedBatchDiscoveryOnly" | PatchFormatSinglePatchOnly => "PatchFormatSinglePatchOnly" | PathOrCwdCorrectiveRetry => "PathOrCwdCorrectiveRetry" | MissingContextCorrectiveRetry => "MissingContextCorrectiveRetry" | UnknownCorrectiveRetry => "UnknownCorrectiveRetry" end.
End InvalidPlanRetryFamily.

Module JudgmentScenarioFamily.
Inductive t : Set :=
  | PlannerBootstrapWorkspace | PlannerInitCargoProject | PlannerCreateEntrypoint | PlannerCreateMissingModules | PlannerFixDeadCodeConflict | PlannerFixUnresolvedImport
  | PlannerDefineMissingSymbol | PlannerResolveDuplicateDefinition | PlannerFixTraitBoundFailure | PlannerObjectiveAligned | PlannerObjectiveContradiction
  | PlannerTrendIntentMismatch | PlannerRetryNoSemanticProgress | PlannerRetryTrendStalled | PlannerRetryMisalignmentPressure | RouteSemanticPreconditionActionable
  | RouteSemanticRepairIntentActionable | RouteSemanticValidationBlockedActionable | RouteSemanticUnresolvedImportActionable | RouteSemanticDuplicateDefinitionActionable
  | RouteSemanticTraitBoundActionable | RouteTrendStallActionable | RouteMisalignmentActionable | RouteObjectiveContradiction | GoalRouteObjectiveDrift
  | RouteObjectiveContradictionEvent | GoalObjectiveDriftEvent.
#[global] Instance eq_dec : EqDecision t.
Proof. solve_decision. Defined.
Definition ALL : list t :=
  [PlannerBootstrapWorkspace; PlannerInitCargoProject; PlannerCreateEntrypoint; PlannerCreateMissingModules; PlannerFixDeadCodeConflict; PlannerFixUnresolvedImport;
  PlannerDefineMissingSymbol; PlannerResolveDuplicateDefinition; PlannerFixTraitBoundFailure; PlannerObjectiveAligned; PlannerObjectiveContradiction;
  PlannerTrendIntentMismatch; PlannerRetryNoSemanticProgress; PlannerRetryTrendStalled; PlannerRetryMisalignmentPressure; RouteSemanticPreconditionActionable;
  RouteSemanticRepairIntentActionable; RouteSemanticValidationBlockedActionable; RouteSemanticUnresolvedImportActionable; RouteSemanticDuplicateDefinitionActionable;
  RouteSemanticTraitBoundActionable; RouteTrendStallActionable; RouteMisalignmentActionable; RouteObjectiveContradiction; GoalRouteObjectiveDrift;
  RouteObjectiveContradictionEvent; GoalObjectiveDriftEvent].
Definition debug (x : t) : string :=
  match x with PlannerBootstrapWorkspace => "PlannerBootstrapWorkspace" | PlannerInitCargoProject => "PlannerInitCargoProject" | PlannerCreateEntrypoint => "PlannerCreateEntrypoint" | PlannerCreateMissingModules => "PlannerCreateMissingModules" | PlannerFixDeadCodeConflict => "PlannerFixDeadCodeConflict" | PlannerFixUnresolvedImport => "PlannerFixUnresolvedImport" | PlannerDefineMissingSymbol => "PlannerDefineMissingSymbol" | PlannerResolveDuplicateDefinition => "PlannerResolveDuplicateDefinition" | PlannerFixTraitBoundFailure => "PlannerFixTraitBoundFailure" | PlannerObjectiveAligned => "PlannerObjectiveAligned" | PlannerObjectiveContradiction => "PlannerObjectiveContradiction" | PlannerTrendIntentMismatch => "PlannerTrendIntentMismatch" | PlannerRetryNoSemanticProgress => "PlannerRetryNoSemanticProgress" | PlannerRetryTrendStalled => "PlannerRetryTrendStalled" | PlannerRetryMisalignmentPressure => "PlannerRetryMisalignmentPressure" | RouteSemanticPreconditionActionable => "RouteSemanticPreconditionActionable" | RouteSemanticRepairIntentActionable => "RouteSemanticRepairIntentActionable" | RouteSemanticValidationBlockedActionable => "RouteSemanticValidationBlockedActionable" | RouteSemanticUnresolvedImportActionable => "RouteSemanticUnresolvedImportActionable" | RouteSemanticDuplicateDefinitionActionable => "RouteSemanticDuplicateDefinitionActionable" | RouteSemanticTraitBoundActionable => "RouteSemanticTraitBoundActionable" | RouteTrendStallActionable => "RouteTrendStallActionable" | RouteMisalignmentActionable => "RouteMisalignmentActionable" | RouteObjectiveContradiction => "RouteObjectiveContradiction" | GoalRouteObjectiveDrift => "GoalRouteObjectiveDrift" | RouteObjectiveContradictionEvent => "RouteObjectiveContradictionEvent" | GoalObjectiveDriftEvent => "GoalObjectiveDriftEvent" end.
End JudgmentScenarioFamily.

(** ** States of the planner and of the router *)

Module PlannerPathState.
Inductive t : Set :=
  | Missing | Present.
#[global] Instance eq_dec : EqDecision t.
Proof. solve_decision. Defined.
Definition ALL : list t :=
  [Missing; Present].
Definition debug (x : t) : string :=
  match x with Missing => "Missing" | Present => "Present" end.
End PlannerPathState.

Module PlannerCargoState.
Inductive t : Set :=
  | Missing | Present.
#[global] Instance eq_dec : EqDecision t.
Proof. solve_decision. Defined.
Definition ALL : list t :=
  [Missing; Present].
Definition debug (x : t) : string :=
  match x with Missing => "Missing" | Present => "Present" end.
End PlannerCargoState.

Module PlannerEntrypointState.
Inductive t : Set :=
  | Missing | Main.
#[global] Instance eq_dec : EqDecision t.
Proof. solve_decision. Defined.
Definition ALL : list t :=
  [Missing; Main].
Definition debug (x : t) : string :=
  match x with Missing => "Missing" | Main => "Main" end.
End PlannerEntrypointState.

Module PlannerModuleGapState.
Inductive t : Set :=
  | None | Present.
#[global] Instance eq_dec : EqDecision t.
Proof. solve_decision. Defined.
Definition ALL : list t :=
  [None; Present].
Definition debug (x : t) : string :=
  match x with None => "None" | Present => "Present" end.
End PlannerModuleGapState.

Module PlannerHintState.
Inductive t : Set :=
  | None | DeadCode | UnresolvedImport | MissingSymbol | DuplicateDefinition | TraitBound.
#[global] Instance eq_dec : EqDecision t.
Proof. solve_decision. Defined.
Definition ALL : list t :=
  [None; DeadCode; UnresolvedImport; MissingSymbol; DuplicateDefinition; TraitBound].
Definition debug (x : t) : string :=
  match x with None => "None" | DeadCode => "DeadCode" | UnresolvedImport => "UnresolvedImport" | MissingSymbol => "MissingSymbol" | DuplicateDefinition => "DuplicateDefinition" | TraitBound => "TraitBound" end.
End PlannerHintState.

Module PlannerActionCase.
Inductive t : Set :=
  | BootstrapWorkspace | InitCargoProject | CreateEntrypoint | CreateModuleFile | FixDeadCodeConflict | FixUnresolvedImport | DefineMissingSymbol
  | ResolveDuplicateDefinition | FixTraitBoundFailure | WrongEdit | ValidateCargoCheck.
#[global] Instance eq_dec : EqDecision t.
Proof. solve_decision. Defined.
Definition ALL : list t :=
  [BootstrapWorkspace; InitCargoProject; CreateEntrypoint; CreateModuleFile; FixDeadCodeConflict; FixUnresolvedImport; DefineMissingSymbol; ResolveDuplicateDefinition;
  FixTraitBoundFailure; WrongEdit; ValidateCargoCheck].
Definition debug (x : t) : string :=
  match x with BootstrapWorkspace => "BootstrapWorkspace" | InitCargoProject => "InitCargoProject" | CreateEntrypoint => "CreateEntrypoint" | CreateModuleFile => "CreateModuleFile" | FixDeadCodeConflict => "FixDeadCodeConflict" | FixUnresolvedImport => "FixUnresolvedImport" | DefineMissingSymbol => "DefineMissingSymbol" | ResolveDuplicateDefinition => "ResolveDuplicateDefinition" | FixTraitBoundFailure => "FixTraitBoundFailure" | WrongEdit => "WrongEdit" | ValidateCargoCheck => "ValidateCargoCheck" end.
End PlannerActionCase.

Module RouteSummaryCompleteness.
Inductive t : Set :=
  | Incomplete | Complete.
#[global] Instance eq_dec : EqDecision t.
Proof. solve_decision. Defined.
Definition ALL : list t :=
  [Incomplete; Complete].
Definition debug (x : t) : string :=
  match x with Incomplete => "Incomplete" | Complete => "Complete" end.
End RouteSummaryCompleteness.

Module RoutePreconditionState.
Inductive t : Set :=
  | None | Present.
#[global] Instance eq_dec : EqDecision t.
Proof. solve_decision. Defined.
Definition ALL : list t :=
  [None; Present].
Definition debug (x : t) : string :=
  match x with None => "None" | Present => "Present" end.
End RoutePreconditionState.

Module RouteRepairIntentState.
Inductive t : Set :=
  | None | Present.
#[global] Instance eq_dec : EqDecision t.
Proof. solve_decision. Defined.
Definition ALL : list t :=
  [None; Present].
Definition debug (x : t) : string :=
  match x with None => "None" | Present => "Present" end.
End RouteRepairIntentState.

Module RouteHintState.
Inductive t : Set :=
  | None | UnresolvedImport | DuplicateDefinition | TraitBound.
#[global] Instance eq_dec : EqDecision t.
Proof. solve_decision. Defined.
Definition ALL : list t :=
  [None; UnresolvedImport; DuplicateDefinition; TraitBound].
Definition debug (x : t) : string :=
  match x with None => "None" | UnresolvedImport => "UnresolvedImport" | DuplicateDefinition => "DuplicateDefinition" | TraitBound => "TraitBound" end.
End RouteHintState.

Module RouteValidationBlockedState.
Inductive t : Set :=
  | No | Yes.
#[global] Instance eq_dec : EqDecision t.
Proof. solve_decision. Defined.
Definition ALL : list t :=
  [No; Yes].
Definition debug (x : t) : string :=
  match x with No => "No" | Yes => "Yes" end.
End RouteValidationBlockedState.

Module PlannerJudgmentState.
Record t := mk {
  path : PlannerPathState.t; cargo : PlannerCargoState.t; entrypoint : PlannerEntrypointState.t; module_gap : PlannerModuleGapState.t; hint : PlannerHintState.t;
  action : PlannerActionCase.t
}.
#[global] Instance eq_dec : EqDecision t.
Proof. solve_decision. Defined.
End PlannerJudgmentState.

Module RouteSemanticState.
Record t := mk {
  completeness : RouteSummaryCompleteness.t; preconditions : RoutePreconditionState.t; repair_intents : RouteRepairIntentState.t; hint : RouteHintState.t;
  validation_blocked : RouteValidationBlockedState.t
}.
#[global] Instance eq_dec : EqDecision t.
Proof. solve_decision. Defined.
End RouteSemanticState.

(** ** Rows *)

Module RouteRowEvent.
Inductive t : Set := LoopActed (action_kind : string) | PlanningCompleted (status : string) (planned_count : N).
End RouteRowEvent.
Module RouteRowContext.
Record t := mk {
  halted : bool; context_ready : bool; consecutive_invalid_plan_batches : N; pending_tool_results_empty : bool; bootstrap_refresh_required : bool;
  target_workspace_missing : bool; finish_ready : bool; verify_outcome : option VerifyOutcomeClass.t; run_command_outcome : option RunCommandOutcomeClass.t;
  apply_patch_outcome : option ApplyPatchOutcomeClass.t; semantic_progress : bool; no_semantic_progress : bool; compiler_repair_required : bool
}.
#[global] Instance eta_t : Eta t := fun r => mk (halted r) (context_ready r) (consecutive_invalid_plan_batches r) (pending_tool_results_empty r) (bootstrap_refresh_required r) (target_workspace_missing r) (finish_ready r) (verify_outcome r) (run_command_outcome r) (apply_patch_outcome r) (semantic_progress r) (no_semantic_progress r) (compiler_repair_required r).
Definition default_t : t := mk false false 0 false false false false None None None false false false.
End RouteRowContext.

Module RouteRowState.
Record t := mk {
  last_control_kind : option string
}.
#[global] Instance eta_t : Eta t := fun r => mk (last_control_kind r).
Definition default_t : t := mk None.
End RouteRowState.

Module RouteDispatchRowState.
Record t := mk {
  pending_request_id : option string; route_emitted_for_current_control : bool
}.
#[global] Instance eta_t : Eta t := fun r => mk (pending_request_id r) (route_emitted_for_current_control r).
Definition default_t : t := mk None false.
End RouteDispatchRowState.

Module RouteRowDecision.
Record t := mk {
  lane : RouteKind; suggested_route : RouteKind; note : string
}.
End RouteRowDecision.

Module RouteCacheRowState.
Record t := mk {
  force_fresh_route_once : bool; last_prompt_hash : option N; prompt_hash : N; pending_required_successor : option string; last_route_prompt_hash : option N;
  route_emitted_for_current_control : bool; has_cached_route : bool; cached_route_is_observe : bool; can_emit_route_selected : bool
}.
End RouteCacheRowState.

Module PlannerJudgmentRow.
Record t {V : Type} := mk {
  name : string; family : JudgmentScenarioFamily.t; actions : list (LoopPlanned.t V); preconditions : list PlanningPrecondition; summary : SemanticStateSummary;
  expected_ok : bool
}.
Arguments t V : clear implicits.
Arguments mk {V} _ _ _ _ _ _.
End PlannerJudgmentRow.

Module PlannerObjectiveAlignmentRow.
Record t {V : Type} := mk {
  name : string; family : JudgmentScenarioFamily.t; actions : list (LoopPlanned.t V); summary : SemanticStateSummary; primary_objective : string; route_choice : string;
  recent_execution_results : list ExecResult; objective_trend_state : ObjectiveTrendState; expected_ok : bool
}.
Arguments t V : clear implicits.
Arguments mk {V} _ _ _ _ _ _ _ _ _.
End PlannerObjectiveAlignmentRow.

Module GoalRouteObjectiveDriftRow.
Record t := mk {
  name : string; family : JudgmentScenarioFamily.t; goal_objective : string; route_objective : string; expected_drift : bool
}.
End GoalRouteObjectiveDriftRow.

Module ContradictionEventTrendRow.
Record t := mk {
  name : string; family : JudgmentScenarioFamily.t; debug_kind : string; expected_route_contradictions : N; expected_goal_drifts : N
}.
End ContradictionEventTrendRow.

Module RouteObjectiveAlignmentRow.
Record t := mk {
  name : string; family : JudgmentScenarioFamily.t; summary : SemanticStateSummary; primary_objective : string; route_choice : string; expected_ok : bool
}.
End RouteObjectiveAlignmentRow.

Module RouteSemanticActionabilityRow.
Record t := mk {
  name : string; family : JudgmentScenarioFamily.t; summary : SemanticStateSummary; objective_trend_state : ObjectiveTrendState; expected_actionable : bool
}.
End RouteSemanticActionabilityRow.

Module RouteTransitionRow.
Record t := mk {
  name : string; family : RouteScenarioFamily.t; context : RouteRowContext.t; state : RouteRowState.t; event : option RouteRowEvent.t;
  decision : option RouteRowDecision.t; expected_deterministic : option DeterministicRouteRule.t; expected_rules : list RoutePolicyRule.t
}.
End RouteTransitionRow.

Module LoopTransitionRow.
Record t := mk {
  name : string; family : LoopScenarioFamily.t; planning_status : option string; error_kind : option string; expected_successor : option string;
  expected_rules : list LoopRecoveryRule; expected_trigger_observe : bool; expected_force_reward_recovery : bool
}.
End LoopTransitionRow.

Module RouteDispatchRow.
Record t := mk {
  name : string; family : RouteScenarioFamily.t; context : RouteRowContext.t; state : RouteRowState.t; dispatch : RouteDispatchRowState.t;
  expected_rule : option RouteDispatchRule.t; expected_deterministic : option DeterministicRouteRule.t
}.
End RouteDispatchRow.

Module RouteEmitRow.
Record t := mk {
  name : string; family : RouteScenarioFamily.t; last_control_kind : option string; expected_rule : RouteEmitRule
}.
End RouteEmitRow.

Module RouteCacheRow.
Record t := mk {
  name : string; family : RouteScenarioFamily.t; state : RouteCacheRowState.t; expected_rule : RouteCacheRule.t
}.
End RouteCacheRow.

Module LoopRuntimeRow.
Record t := mk {
  name : string; family : LoopScenarioFamily.t; halted : bool; force_observe_recovery : bool; trigger_observe : bool; suppress_observe_on_invariant : bool;
  pending_required_successor : option string; is_route_selected_event : bool; expected_mode : ObserveExecutionMode; expected_halt_blocks_stage : bool;
  expected_warn_route_selected_while_halted : bool; expected_rules : list LoopRuntimeRule
}.
End LoopRuntimeRow.

Module RecoveryEventRow.
Record t := mk {
  name : string; family : LoopScenarioFamily.t; expected_successor : option string; pending_required_successor : option string; has_last_verified : bool;
  expected_rule : RecoveryEventRule; expected_force_observe_recovery : bool; expected_execute_reward_recovery : bool
}.
End RecoveryEventRow.

Module RecoveryExecutionRow.
Record t := mk {
  name : string; family : LoopScenarioFamily.t; operation : RecoveryOperation; outcome : StageExecutionOutcomeClass; expected_debug_kind : option string;
  expected_error_kind : option string
}.
End RecoveryExecutionRow.

Module BootstrapEffectRow.
Record t := mk {
  name : string; family : LoopScenarioFamily.t; action_outcome : ActionOutcomeClass; expected_rule : BootstrapRule; expected_emit_refresh_required : bool
}.
End BootstrapEffectRow.

Module PlannerRecoveryRow.
Record t := mk {
  name : string; family : JudgmentScenarioFamily.t; reason : option string; consecutive_invalid_plan_batches : N; recent_execution_results : list ExecResult;
  objective_trend_state : ObjectiveTrendState; expected_retry : RetryPolicy
}.
End PlannerRecoveryRow.

Module RewardSemanticsRow.
Record t := mk {
  name : string; family : LoopScenarioFamily.t; compiler_clean : bool; last_action_kind : string; recent_execution_results : list ExecResult; expected : RewardSemantics
}.
End RewardSemanticsRow.

Module RouteFailureRow.
Record t := mk {
  name : string; family : RouteScenarioFamily.t; expected_rule : RouteFailureRule.t
}.
End RouteFailureRow.

Module RouteEmitEffectRow.
Record t := mk {
  name : string; family : RouteScenarioFamily.t; decision : RouteRowDecision.t; expected_rules : list RouteEmitEffectRule.t; expected_clear_pending_request : bool;
  expected_clear_pending_prompt : bool; expected_set_halted : bool
}.
End RouteEmitEffectRow.

Module RouteRecoveryRow.
Record t := mk {
  name : string; family : RouteScenarioFamily.t; pending_required_successor : option string; expected_rule : RouteRecoveryRule.t
}.
End RouteRecoveryRow.

Module RunCommandOutcomeRow.
Record t := mk {
  name : string; family : RunCommandOutcomeFamily.t; input : RunCommandOutcomeClass.t; expected : RunCommandOutcomeClass.t
}.
End RunCommandOutcomeRow.

Module ApplyPatchOutcomeRow.
Record t := mk {
  name : string; family : ApplyPatchOutcomeFamily.t; input : ApplyPatchOutcomeClass.t; expected : ApplyPatchOutcomeClass.t
}.
End ApplyPatchOutcomeRow.

Module VerifyOutcomeRow.
Record t := mk {
  name : string; family : VerifyOutcomeFamily.t; input : VerifyOutcomeClass.t; expected : VerifyOutcomeClass.t
}.
End VerifyOutcomeRow.

Module InvalidPlanRetryRow.
Record t := mk {
  name : string; family : InvalidPlanRetryFamily.t; reason : option string; count : N; expected_reason_class : InvalidPlanReasonClass; expected_retry : RetryPolicy
}.
End InvalidPlanRetryRow.

(** Structure updates of the summary and of the trend. *)
#[export] Instance SemanticStateSummary_eta : Eta SemanticStateSummary := fun r => MkSummary
  (ss_version r) (ss_complete r) (ss_target_root r) (ss_path_exists r) (ss_repo_initialized r) (ss_cargo_project r) (ss_crate_name r) (ss_entrypoint_kind r)
  (ss_rust_file_count r) (ss_source_files r) (ss_module_gaps r) (ss_planning_preconditions r) (ss_repair_intents r) (ss_compiler_hints r)
  (ss_validation_blocked_by_preconditions r) (ss_compiler_repair_required r) (ss_failure_class r) (ss_failure_scope r) (ss_graph_artifact_id r) (ss_graph_node_count r)
  (ss_graph_edge_count r) (ss_graph_file_count r) (ss_graph_call_edge_count r) (ss_graph_module_edge_count r) (ss_graph_cfg_edge_count r).
#[export] Instance ObjectiveTrendState_eta : Eta ObjectiveTrendState := fun r => MkTrend
  (ot_planning_attempts r) (ot_invalid_plan_events r) (ot_total_execution_results r) (ot_semantic_progress_events r) (ot_no_semantic_progress_events r)
  (ot_current_no_progress_streak r) (ot_repeated_stall_count r) (ot_route_objective_contradiction_events r) (ot_goal_objective_drift_events r) (ot_baseline_error_count r)
  (ot_current_error_count r) (ot_baseline_module_gap_count r) (ot_current_module_gap_count r) (ot_baseline_test_surface_count r) (ot_current_test_surface_count r)
  (ot_last_goodness r) (ot_last_delta_g r).

(** ** Planned actions *)

Section Matrix.
Context {V : Type} `{Json V} `{JsonSer V}.

(** The fields every planned action of the matrix leaves empty. *)
Definition planned (action_kind : string) (payload : gmap string V) : LoopPlanned.t V :=
  LoopPlanned.mk 0 action_kind (jobj payload) "" None None None None None None None None None [].
Definition NL : string := String.string_of_list_byte [x0a].
Definition planned_add_file (path body : string) : LoopPlanned.t V :=
  planned "apply_patch" {[ "patch" := jstr ("*** Begin Patch" +:+ NL +:+ "*** Add File: " +:+ path +:+ NL +:+ body +:+ "*** End Patch" +:+ NL) ]}.
Definition planned_run_command (cmd cwd : string) : LoopPlanned.t V := planned "run_command" {[ "cmd" := jstr cmd; "cwd" := jstr cwd ]}.
Definition planned_update_file (path added_line : string) : LoopPlanned.t V :=
  planned "apply_patch" {[ "patch" := jstr ("*** Begin Patch" +:+ NL +:+ "*** Update File: " +:+ path +:+ NL +:+ "@@" +:+ NL +:+ added_line +:+ "*** End Patch" +:+ NL) ]}.
Definition planned_add_import (path import : string) : LoopPlanned.t V := planned "edit.add_import" {[ "path" := jstr path; "import" := jstr import ]}.
Definition planned_define_symbol_stub (path symbol kind : string) : LoopPlanned.t V :=
  planned "edit.define_symbol_stub" {[ "path" := jstr path; "symbol" := jstr symbol; "kind" := jstr kind ]}.
Definition planned_rename_symbol (path old new : string) : LoopPlanned.t V :=
  planned "edit.rename_symbol" {[ "path" := jstr path; "old" := jstr old; "new" := jstr new ]}.
Definition planned_create_module_file (path module : string) : LoopPlanned.t V :=
  planned "edit.create_module_file" {[ "path" := jstr path; "module" := jstr module ]}.

(** ** Tables *)

Definition route_transition_rows : list RouteTransitionRow.t :=
  [ RouteTransitionRow.mk "bootstrap_refresh_observe" RouteScenarioFamily.BootstrapRefreshObserve
      (RouteRowContext.default_t <| RouteRowContext.bootstrap_refresh_required := true |> <| RouteRowContext.pending_tool_results_empty := true |>) RouteRowState.default_t
      (Some (RouteRowEvent.LoopActed "run_command")) None (Some DeterministicRouteRule.BootstrapRefreshObserve) [];
    RouteTransitionRow.mk "done_verify" RouteScenarioFamily.DoneVerify (RouteRowContext.default_t <| RouteRowContext.pending_tool_results_empty := true |>) RouteRowState.default_t
      (Some (RouteRowEvent.LoopActed "done")) None (Some DeterministicRouteRule.DoneVerify) [];
    RouteTransitionRow.mk "semantic_progress_verify" RouteScenarioFamily.SemanticProgressVerify
      (RouteRowContext.default_t <| RouteRowContext.pending_tool_results_empty := true |> <| RouteRowContext.semantic_progress := true |>) RouteRowState.default_t
      (Some (RouteRowEvent.LoopActed "apply_patch")) None (Some DeterministicRouteRule.SemanticProgressVerify) [];
    RouteTransitionRow.mk "no_semantic_progress_plan" RouteScenarioFamily.NoSemanticProgressPlan
      (RouteRowContext.default_t <| RouteRowContext.pending_tool_results_empty := true |> <| RouteRowContext.no_semantic_progress := true |> <| RouteRowContext.compiler_repair_required := true |>)
      RouteRowState.default_t (Some (RouteRowEvent.LoopActed "apply_patch")) None (Some DeterministicRouteRule.NoSemanticProgressPlan) [];
    RouteTransitionRow.mk "continue_act" RouteScenarioFamily.ContinueAct (RouteRowContext.default_t <| RouteRowContext.pending_tool_results_empty := true |>) RouteRowState.default_t
      (Some (RouteRowEvent.LoopActed "apply_patch")) None (Some DeterministicRouteRule.ContinueAct) [];
    RouteTransitionRow.mk "planned_to_act" RouteScenarioFamily.PlannedToAct (RouteRowContext.default_t <| RouteRowContext.pending_tool_results_empty := true |>) RouteRowState.default_t
      (Some (RouteRowEvent.PlanningCompleted "planned" 3%N)) None (Some DeterministicRouteRule.PlannedToAct) [];
    RouteTransitionRow.mk "missing_observed_context_observe" RouteScenarioFamily.MissingObservedContextObserve
      (RouteRowContext.default_t <| RouteRowContext.pending_tool_results_empty := true |>) RouteRowState.default_t (Some (RouteRowEvent.PlanningCompleted "missing_observed_context" 0%N))
      None (Some DeterministicRouteRule.MissingObservedContextObserve) [];
    RouteTransitionRow.mk "repeat_observe_forces_plan" RouteScenarioFamily.ForcePlanOnRepeatedObserve RouteRowContext.default_t (RouteRowState.mk (Some "loop_observed")) None
      (Some (RouteRowDecision.mk Gatekeeper.Observe Gatekeeper.Observe "accepted")) None [RoutePolicyRule.ForcePlanOnRepeatedObserve];
    RouteTransitionRow.mk "missing_target_forces_plan" RouteScenarioFamily.ForcePlanOnMissingTarget (RouteRowContext.default_t <| RouteRowContext.target_workspace_missing := true |>)
      RouteRowState.default_t None (Some (RouteRowDecision.mk Gatekeeper.Verify Gatekeeper.Verify "accepted")) None [RoutePolicyRule.ForcePlanOnMissingTarget];
    RouteTransitionRow.mk "cycle_cap_with_verify_failure_to_plan" RouteScenarioFamily.CycleCapToPlan
      (RouteRowContext.default_t <| RouteRowContext.verify_outcome := Some VerifyOutcomeClass.CompilerFailure |>) RouteRowState.default_t None
      (Some (RouteRowDecision.mk Gatekeeper.Conclude Gatekeeper.Plan "cycle cap reached; forcing conclude")) None [RoutePolicyRule.CycleCapToObserve];
    RouteTransitionRow.mk "cycle_cap_without_failure_to_observe" RouteScenarioFamily.CycleCapToObserve RouteRowContext.default_t RouteRowState.default_t None
      (Some (RouteRowDecision.mk Gatekeeper.Conclude Gatekeeper.Conclude "cycle cap reached; forcing conclude")) None [RoutePolicyRule.CycleCapToObserve];
    RouteTransitionRow.mk "accepted_plan_without_rewrite" RouteScenarioFamily.NoRewriteAccepted (RouteRowContext.default_t <| RouteRowContext.finish_ready := true |>)
      RouteRowState.default_t None (Some (RouteRowDecision.mk Gatekeeper.Conclude Gatekeeper.Conclude "accepted")) None [] ].

Definition route_dispatch_rows : list RouteDispatchRow.t :=
  [ RouteDispatchRow.mk "dispatch_suppress_halted" RouteScenarioFamily.DispatchSuppressHalted
      (RouteRowContext.default_t <| RouteRowContext.halted := true |> <| RouteRowContext.context_ready := true |>) RouteRowState.default_t RouteDispatchRowState.default_t
      (Some RouteDispatchRule.SuppressHalted) None;
    RouteDispatchRow.mk "dispatch_suppress_context_not_ready" RouteScenarioFamily.DispatchSuppressContextNotReady
      (RouteRowContext.default_t <| RouteRowContext.halted := false |> <| RouteRowContext.context_ready := false |>) RouteRowState.default_t RouteDispatchRowState.default_t
      (Some RouteDispatchRule.SuppressContextNotReady) None;
    RouteDispatchRow.mk "dispatch_suppress_pending_request" RouteScenarioFamily.DispatchSuppressPendingRequest
      (RouteRowContext.default_t <| RouteRowContext.context_ready := true |> <| RouteRowContext.pending_tool_results_empty := true |>) RouteRowState.default_t
      (RouteDispatchRowState.default_t <| RouteDispatchRowState.pending_request_id := Some "req-1" |>) (Some RouteDispatchRule.SuppressPendingRequest) None;
    RouteDispatchRow.mk "dispatch_suppress_awaiting_successor" RouteScenarioFamily.DispatchSuppressDuplicateCurrentControl
      (RouteRowContext.default_t <| RouteRowContext.context_ready := true |>) RouteRowState.default_t RouteDispatchRowState.default_t None None;
    RouteDispatchRow.mk "dispatch_suppress_duplicate_current_control" RouteScenarioFamily.DispatchSuppressDuplicateCurrentControl
      (RouteRowContext.default_t <| RouteRowContext.context_ready := true |>) (RouteRowState.mk (Some "loop_acted"))
      (RouteDispatchRowState.default_t <| RouteDispatchRowState.route_emitted_for_current_control := true |>) (Some RouteDispatchRule.SuppressDuplicateRouteForCurrentControl) None;
    RouteDispatchRow.mk "dispatch_missing_target_plan" RouteScenarioFamily.DispatchMissingTargetPlan
      (RouteRowContext.default_t <| RouteRowContext.context_ready := true |> <| RouteRowContext.target_workspace_missing := true |> <| RouteRowContext.pending_tool_results_empty := true |>)
      RouteRowState.default_t RouteDispatchRowState.default_t None (Some DeterministicRouteRule.MissingTargetPlan);
    RouteDispatchRow.mk "dispatch_invalid_plan_replan" RouteScenarioFamily.DispatchInvalidPlanReplan
      (RouteRowContext.default_t <| RouteRowContext.context_ready := true |> <| RouteRowContext.consecutive_invalid_plan_batches := 2%N |> <| RouteRowContext.pending_tool_results_empty := true |>)
      RouteRowState.default_t RouteDispatchRowState.default_t None (Some DeterministicRouteRule.InvalidPlanReplan) ].

Definition route_emit_rows : list RouteEmitRow.t :=
  [ RouteEmitRow.mk "emit_duplicate_before_successor" RouteScenarioFamily.EmitDuplicateBeforeSuccessor None DuplicateEmitBeforeSuccessor;
    RouteEmitRow.mk "emit_illegal_control_reentry" RouteScenarioFamily.EmitIllegalControlReentry (Some "route_selected") IllegalControlReentry;
    RouteEmitRow.mk "emit_wrong_expected_successor" RouteScenarioFamily.EmitWrongExpectedSuccessor (Some "loop_verified") IllegalControlEmit ].

Definition route_cache_rows : list RouteCacheRow.t :=
  [ RouteCacheRow.mk "cache_replay" RouteScenarioFamily.CacheReplay (RouteCacheRowState.mk false (Some 7%N) 7%N None (Some 7%N) false true false true) RouteCacheRule.ReplayCachedRoute;
    RouteCacheRow.mk "cache_invalidate_observe" RouteScenarioFamily.CacheInvalidateObserve (RouteCacheRowState.mk false (Some 7%N) 7%N None (Some 7%N) false true true true)
      RouteCacheRule.InvalidateCachedObserveRoute;
    RouteCacheRow.mk "cache_suppress_duplicate_prompt" RouteScenarioFamily.CacheSuppressDuplicatePrompt (RouteCacheRowState.mk false (Some 7%N) 7%N None None false false false false)
      RouteCacheRule.SuppressDuplicatePrompt ].

Definition route_failure_rows : list RouteFailureRow.t :=
  [ RouteFailureRow.mk "failure_heuristic_reroute" RouteScenarioFamily.FailureHeuristicReroute RouteFailureRule.HeuristicFailureReroute ].

Definition route_emit_effect_rows : list RouteEmitEffectRow.t :=
  [ RouteEmitEffectRow.mk "emit_effect_observe_clears_deterministic_sentinel" RouteScenarioFamily.EmitEffectObserveClearsDeterministicSentinel
      (RouteRowDecision.mk Gatekeeper.Observe Gatekeeper.Observe "accepted") [RouteEmitEffectRule.ClearDeterministicObserveSentinel] true true false;
    RouteEmitEffectRow.mk "emit_effect_conclude_halts" RouteScenarioFamily.EmitEffectConcludeHalts (RouteRowDecision.mk Gatekeeper.Conclude Gatekeeper.Conclude "accepted") [RouteEmitEffectRule.HaltOnConclude]
      false false true ].

Definition route_recovery_rows : list RouteRecoveryRow.t :=
  [ RouteRecoveryRow.mk "route_recovery_emit_expected_successor" RouteScenarioFamily.RecoveryEmitExpectedSuccessor (Some "loop_rewarded") RouteRecoveryRule.EmitExpectedSuccessorRecovery ].

Definition loop_transition_rows : list LoopTransitionRow.t :=
  [ LoopTransitionRow.mk "invalid_plan_clears_suppression" LoopScenarioFamily.InvalidPlanClearsSuppression (Some "invalid_plan") None None [ClearPlannerSuppressionOnInvalidPlan] false false;
    LoopTransitionRow.mk "planned_status_has_no_invalid_plan_recovery" LoopScenarioFamily.InvalidPlanNoRecoveryForOtherStatus (Some "planned") None None [] false false;
    LoopTransitionRow.mk "act_stall_triggers_observe" LoopScenarioFamily.ActStallTriggersObserve None (Some "act_stall") None [TriggerObserveOnActStall] true false;
    LoopTransitionRow.mk "non_act_stall_does_not_trigger_observe" LoopScenarioFamily.NonActStallDoesNotTriggerObserve None (Some "invariant_violation") None [] false false;
    LoopTransitionRow.mk "reward_recovery_for_expected_successor" LoopScenarioFamily.RewardRecoveryForExpectedSuccessor None None (Some "loop_rewarded") [RecoverLoopRewarded] false true;
    LoopTransitionRow.mk "non_reward_successor_does_not_recover" LoopScenarioFamily.NonRewardSuccessorDoesNotRecover None None (Some "route_selected") [] false false;
    LoopTransitionRow.mk "observe_blocked_by_pending_successor" LoopScenarioFamily.ObserveBlockedByPendingSuccessor None None None [] false false;
    LoopTransitionRow.mk "observe_not_blocked_without_successor" LoopScenarioFamily.ObserveNotBlockedWithoutSuccessor None None None [] false false ].

Definition loop_runtime_rows : list LoopRuntimeRow.t :=
  [ LoopRuntimeRow.mk "runtime_triggered_observe" LoopScenarioFamily.RuntimeTriggeredObserve false false true false None false Triggered false false [ExecuteTriggeredObserve];
    LoopRuntimeRow.mk "runtime_forced_observe" LoopScenarioFamily.RuntimeForcedObserve false true false false None false Forced false false [ExecuteForcedObserve];
    LoopRuntimeRow.mk "runtime_suppress_observe_on_invariant" LoopScenarioFamily.RuntimeSuppressObserveOnInvariant false false true true None false SuppressedByInvariant false false
      [SuppressObserveOnInvariant];
    LoopRuntimeRow.mk "runtime_suppress_observe_on_pending_successor" LoopScenarioFamily.RuntimeSuppressObserveOnPendingSuccessor false false true false (Some "loop_acted") false
      SuppressedByPendingSuccessor false false [SuppressObserveOnPendingSuccessor];
    LoopRuntimeRow.mk "runtime_block_when_halted" LoopScenarioFamily.RuntimeBlockWhenHalted true false false false None true ObserveNone true true
      [BlockStageWhenHalted; WarnRouteSelectedWhileHalted] ].

Definition recovery_event_rows : list RecoveryEventRow.t :=
  [ RecoveryEventRow.mk "recovery_event_force_observe" LoopScenarioFamily.RecoveryEventForceObserve (Some "loop_observed") (Some "route_selected") false ForceObserve true false;
    RecoveryEventRow.mk "recovery_event_reward_execute" LoopScenarioFamily.RecoveryEventRewardExecute (Some "loop_rewarded") (Some "loop_rewarded") true ExecuteRewardRecovery false true;
    RecoveryEventRow.mk "recovery_event_reward_skip_satisfied" LoopScenarioFamily.RecoveryEventRewardSkipSatisfied (Some "loop_rewarded") (Some "route_selected") true
      SkipRewardAlreadySatisfied false false;
    RecoveryEventRow.mk "recovery_event_reward_missing_context" LoopScenarioFamily.RecoveryEventRewardMissingContext (Some "loop_rewarded") (Some "loop_rewarded") false MissingRewardContext
      false false ].

Definition recovery_execution_rows : list RecoveryExecutionRow.t :=
  [ RecoveryExecutionRow.mk "reward_recovery_noop" LoopScenarioFamily.RewardRecoveryNoop RewardRecovery ONoop (Some "reward_recovery_noop") None;
    RecoveryExecutionRow.mk "reward_recovery_execution_error" LoopScenarioFamily.RewardRecoveryExecutionError RewardRecovery OError None (Some "reward_recovery_execution");
    RecoveryExecutionRow.mk "observe_forced_deferred" LoopScenarioFamily.ObserveForcedDeferred ObserveForced ODeferred (Some "observe_deferred") None;
    RecoveryExecutionRow.mk "observe_forced_noop" LoopScenarioFamily.ObserveForcedNoop ObserveForced ONoop (Some "observe_noop") None;
    RecoveryExecutionRow.mk "observe_triggered_deferred" LoopScenarioFamily.ObserveTriggeredDeferred ObserveTriggered ODeferred (Some "observe_deferred") None;
    RecoveryExecutionRow.mk "observe_triggered_noop" LoopScenarioFamily.ObserveTriggeredNoop ObserveTriggered ONoop (Some "observe_noop") None ].

Definition bootstrap_effect_rows : list BootstrapEffectRow.t :=
  [ BootstrapEffectRow.mk "bootstrap_invalidates_queued_work" LoopScenarioFamily.BootstrapInvalidatesQueuedWork LoopPolicy.BootstrapSuccess InvalidateQueuedPlanWork true ].

Definition planner_recovery_rows : list PlannerRecoveryRow.t :=
  [ PlannerRecoveryRow.mk "planner_retry_no_semantic_progress" JudgmentScenarioFamily.PlannerRetryNoSemanticProgress None 0%N
      [exec_new (lit "no_semantic_progress") (lit "action failed") [] false] trend_default RetryNone;
    PlannerRecoveryRow.mk "planner_retry_trend_stalled" JudgmentScenarioFamily.PlannerRetryTrendStalled None 0%N []
      (trend_default <| ot_repeated_stall_count := 1%N |> <| ot_current_no_progress_streak := 1%N |>) CorrectiveRetry;
    PlannerRecoveryRow.mk "planner_retry_misalignment_pressure" JudgmentScenarioFamily.PlannerRetryMisalignmentPressure None 0%N []
      (trend_default <| ot_route_objective_contradiction_events := 1%N |> <| ot_goal_objective_drift_events := 1%N |>) CorrectiveRetry ].

Definition reward_semantics_rows : list RewardSemanticsRow.t :=
  [ RewardSemanticsRow.mk "reward_semantic_progress" LoopScenarioFamily.RewardSemanticProgress false "apply_patch"
      [exec_new (lit "module_created") (lit "module file created") [lit "/tmp/example/src/index.rs"] true] (MkRewardSemantics (f32_lit (-6) 10) true);
    RewardSemanticsRow.mk "reward_no_semantic_progress" LoopScenarioFamily.RewardNoSemanticProgress false "apply_patch"
      [exec_new (lit "no_semantic_progress") (lit "action failed") [] false] (MkRewardSemantics (f32_lit (-14) 10) false) ].

Definition run_command_outcome_rows : list RunCommandOutcomeRow.t :=
  [ RunCommandOutcomeRow.mk "run_command_bootstrap_success" RunCommandOutcomeFamily.BootstrapSuccess RunCommandOutcomeClass.BootstrapSuccess RunCommandOutcomeClass.BootstrapSuccess;
    RunCommandOutcomeRow.mk "run_command_validation_failure_compiler" RunCommandOutcomeFamily.ValidationFailureCompiler RunCommandOutcomeClass.ValidationFailureCompiler
      RunCommandOutcomeClass.ValidationFailureCompiler;
    RunCommandOutcomeRow.mk "run_command_bootstrap_selection_mismatch" RunCommandOutcomeFamily.BootstrapSelectionMismatch RunCommandOutcomeClass.BootstrapSelectionMismatch
      RunCommandOutcomeClass.BootstrapSelectionMismatch;
    RunCommandOutcomeRow.mk "run_command_validation_success" RunCommandOutcomeFamily.ValidationSuccess RunCommandOutcomeClass.ValidationSuccess RunCommandOutcomeClass.ValidationSuccess;
    RunCommandOutcomeRow.mk "run_command_semantic_failure" RunCommandOutcomeFamily.SemanticFailure RunCommandOutcomeClass.SemanticFailure RunCommandOutcomeClass.SemanticFailure;
    RunCommandOutcomeRow.mk "run_command_other" RunCommandOutcomeFamily.Other RunCommandOutcomeClass.Other RunCommandOutcomeClass.Other ].

Definition apply_patch_outcome_rows : list ApplyPatchOutcomeRow.t :=
  [ ApplyPatchOutcomeRow.mk "apply_patch_success" ApplyPatchOutcomeFamily.Success ApplyPatchOutcomeClass.Success ApplyPatchOutcomeClass.Success;
    ApplyPatchOutcomeRow.mk "apply_patch_missing_target_file" ApplyPatchOutcomeFamily.MissingTargetFile ApplyPatchOutcomeClass.MissingTargetFile ApplyPatchOutcomeClass.MissingTargetFile;
    ApplyPatchOutcomeRow.mk "apply_patch_patch_apply_failure" ApplyPatchOutcomeFamily.PatchApplyFailure ApplyPatchOutcomeClass.PatchApplyFailure ApplyPatchOutcomeClass.PatchApplyFailure;
    ApplyPatchOutcomeRow.mk "apply_patch_other_failure" ApplyPatchOutcomeFamily.OtherFailure ApplyPatchOutcomeClass.OtherFailure ApplyPatchOutcomeClass.OtherFailure ].

Definition verify_outcome_rows : list VerifyOutcomeRow.t :=
  [ VerifyOutcomeRow.mk "verify_compiler_failure" VerifyOutcomeFamily.CompilerFailure VerifyOutcomeClass.CompilerFailure VerifyOutcomeClass.CompilerFailure;
    VerifyOutcomeRow.mk "verify_passed" VerifyOutcomeFamily.Passed VerifyOutcomeClass.Passed VerifyOutcomeClass.Passed;
    VerifyOutcomeRow.mk "verifier_policy_updated_failed_no_compiler_signal" VerifyOutcomeFamily.FailedNoCompilerSignal VerifyOutcomeClass.FailedNoCompilerSignal
      VerifyOutcomeClass.FailedNoCompilerSignal ].

Definition invalid_plan_retry_rows : list InvalidPlanRetryRow.t :=
  [ InvalidPlanRetryRow.mk "invalid_plan_mixed_batch_discovery_only" InvalidPlanRetryFamily.MixedBatchDiscoveryOnly
      (Some "invalid plan batch before execution: mixed discovery actions with execution/edit actions in one plan batch") 1%N MixedBatch DiscoveryOnly;
    InvalidPlanRetryRow.mk "invalid_plan_patch_format_single_patch_only" InvalidPlanRetryFamily.PatchFormatSinglePatchOnly
      (Some "invalid plan batch before execution: apply_patch payload is invalid: invalid hunk at line 12") 1%N PatchFormat SinglePatchOnly;
    InvalidPlanRetryRow.mk "invalid_plan_path_or_cwd_corrective_retry" InvalidPlanRetryFamily.PathOrCwdCorrectiveRetry
      (Some "invalid plan batch before execution: run_command requires an absolute cwd; got '.'") 1%N PathOrCwd CorrectiveRetry;
    InvalidPlanRetryRow.mk "invalid_plan_missing_context_corrective_retry" InvalidPlanRetryFamily.MissingContextCorrectiveRetry (Some "missing_observed_context") 1%N MissingContext
      CorrectiveRetry;
    InvalidPlanRetryRow.mk "invalid_plan_unknown_corrective_retry" InvalidPlanRetryFamily.UnknownCorrectiveRetry (Some "some other planner issue") 1%N UnknownReason CorrectiveRetry ].

Definition planner_objective_alignment_rows : list (PlannerObjectiveAlignmentRow.t V) :=
  [ PlannerObjectiveAlignmentRow.mk "planner_objective_aligned_repair_edit" JudgmentScenarioFamily.PlannerObjectiveAligned [planned_add_import "src/lib.rs" "crate::foo"]
      (summary_default <| ss_complete := true |> <| ss_path_exists := true |> <| ss_cargo_project := true |> <| ss_target_root := Some (lit "/tmp/example") |> <| ss_planning_preconditions := [lit "must_fix_unresolved_import=true"] |> <| ss_compiler_repair_required := true |>)
      "reduce compiler repair pressure" "plan" [] trend_default true;
    PlannerObjectiveAlignmentRow.mk "planner_objective_contradiction_validate_only" JudgmentScenarioFamily.PlannerObjectiveContradiction [planned_run_command "cargo check" "/tmp/example"]
      (summary_default <| ss_complete := true |> <| ss_path_exists := true |> <| ss_cargo_project := true |> <| ss_target_root := Some (lit "/tmp/example") |> <| ss_planning_preconditions := [lit "must_fix_unresolved_import=true"] |> <| ss_compiler_repair_required := true |>)
      "reduce compiler repair pressure" "plan" [] trend_default false;
    PlannerObjectiveAlignmentRow.mk "planner_trend_intent_mismatch_repeats_stalled_import_fix" JudgmentScenarioFamily.PlannerTrendIntentMismatch
      [planned_add_import "src/lib.rs" "crate::foo"]
      (summary_default <| ss_complete := true |> <| ss_path_exists := true |> <| ss_cargo_project := true |> <| ss_target_root := Some (lit "/tmp/example") |> <| ss_compiler_repair_required := true |>)
      "break the stalled repair loop with a different strategy" "plan"
      [with_attempted_kind (exec_new (lit "no_semantic_progress") (lit "fix_unresolved_import failed: unresolved import persists") [lit "src/lib.rs"] false) (lit "fix_unresolved_import")]
      (trend_default <| ot_repeated_stall_count := 1%N |> <| ot_current_no_progress_streak := 1%N |>) false ].

Definition route_objective_alignment_rows : list RouteObjectiveAlignmentRow.t :=
  [ RouteObjectiveAlignmentRow.mk "route_objective_contradiction_verify_under_repair_pressure" JudgmentScenarioFamily.RouteObjectiveContradiction
      (summary_default <| ss_complete := true |> <| ss_path_exists := true |> <| ss_cargo_project := true |> <| ss_compiler_repair_required := true |> <| ss_planning_preconditions := [lit "must_fix_unresolved_import=true"] |>)
      "reduce compiler repair pressure" "verify" false ].

Definition goal_route_objective_drift_rows : list GoalRouteObjectiveDriftRow.t :=
  [ GoalRouteObjectiveDriftRow.mk "goal_route_objective_drift_repair_vs_sustain" JudgmentScenarioFamily.GoalRouteObjectiveDrift "reduce compiler repair pressure"
      "sustain semantic progress while reducing repair pressure" true ].

Definition contradiction_event_trend_rows : list ContradictionEventTrendRow.t :=
  [ ContradictionEventTrendRow.mk "route_objective_contradiction_event_updates_trend" JudgmentScenarioFamily.RouteObjectiveContradictionEvent "route_objective_contradiction" 1%N 0%N;
    ContradictionEventTrendRow.mk "goal_objective_drift_event_updates_trend" JudgmentScenarioFamily.GoalObjectiveDriftEvent "goal_objective_drift" 0%N 1%N ].

Definition route_trend_actionability_rows : list RouteSemanticActionabilityRow.t :=
  [ RouteSemanticActionabilityRow.mk "route_trend_stall_actionability" JudgmentScenarioFamily.RouteTrendStallActionable
      (summary_default <| ss_complete := true |> <| ss_path_exists := true |> <| ss_cargo_project := true |>)
      (trend_default <| ot_repeated_stall_count := 1%N |> <| ot_current_no_progress_streak := 1%N |>) false;
    RouteSemanticActionabilityRow.mk "route_misalignment_actionability" JudgmentScenarioFamily.RouteMisalignmentActionable
      (summary_default <| ss_complete := true |> <| ss_path_exists := true |> <| ss_cargo_project := true |>)
      (trend_default <| ot_route_objective_contradiction_events := 1%N |> <| ot_goal_objective_drift_events := 1%N |>) false ].

(** ** Generated planner rows *)

Import PlannerJudgmentState.
Definition same {A} `{EqDecision A} (x y : A) : bool := bool_decide (x = y).
Definition valid_planner_judgment_state (s : PlannerJudgmentState.t) : bool :=
  if same (path s) PlannerPathState.Missing then
    same (cargo s) PlannerCargoState.Missing && same (entrypoint s) PlannerEntrypointState.Missing && same (module_gap s) PlannerModuleGapState.None && same (hint s) PlannerHintState.None
  else if same (cargo s) PlannerCargoState.Missing then
    same (entrypoint s) PlannerEntrypointState.Missing && same (module_gap s) PlannerModuleGapState.None && same (hint s) PlannerHintState.None
  else if same (entrypoint s) PlannerEntrypointState.Missing then same (module_gap s) PlannerModuleGapState.None && same (hint s) PlannerHintState.None
  else true.
Definition planner_preconditions_for_state (s : PlannerJudgmentState.t) : list PlanningPrecondition :=
  if same (path s) PlannerPathState.Missing then [MustBootstrapWorkspace]
  else if same (cargo s) PlannerCargoState.Missing then [MustInitCargoProject]
  else if same (entrypoint s) PlannerEntrypointState.Missing then [MustCreateEntrypoint]
  else (if same (module_gap s) PlannerModuleGapState.Present then [MustCreateMissingModules] else []) ++
    match hint s with
    | PlannerHintState.None => []
    | PlannerHintState.DeadCode => [MustFixDeadCodeForbidConflict]
    | PlannerHintState.UnresolvedImport => [MustFixUnresolvedImport]
    | PlannerHintState.MissingSymbol => [MustDefineMissingSymbol]
    | PlannerHintState.DuplicateDefinition => [MustResolveDuplicateDefinition]
    | PlannerHintState.TraitBound => [MustFixTraitBoundFailure]
    end.
Definition planner_hints_for_state (s : PlannerJudgmentState.t) : list CompilerHintRecord :=
  match hint s with
  | PlannerHintState.None => []
  | PlannerHintState.DeadCode => [hint_new DeadCodeForbidConflict (lit "dead_code conflict") (lit "remove allow(dead_code)") [lit "src/lib.rs"]]
  | PlannerHintState.UnresolvedImport => [hint_new UnresolvedImport (lit "unresolved import") (lit "use semantic import repair") [lit "src/lib.rs"]]
  | PlannerHintState.MissingSymbol => [hint_new MissingSymbol (lit "missing symbol") (lit "use semantic symbol definition or import repair") [lit "src/main.rs"]]
  | PlannerHintState.DuplicateDefinition => [hint_new DuplicateDefinition (lit "duplicate definition") (lit "use semantic rename to resolve duplicate") [lit "src/lib.rs"]]
  | PlannerHintState.TraitBound => [hint_new TraitBoundFailure (lit "trait bound failure") (lit "fix trait bound") [lit "src/lib.rs"]]
  end.
Definition planner_summary_for_state (s : PlannerJudgmentState.t) : SemanticStateSummary :=
  summary_default <| ss_complete := true |> <| ss_target_root := Some (lit "/tmp/example") |> <| ss_path_exists := same (path s) PlannerPathState.Present |>
    <| ss_cargo_project := same (cargo s) PlannerCargoState.Present |>
    <| ss_entrypoint_kind := Some (match entrypoint s with PlannerEntrypointState.Missing => lit "none" | PlannerEntrypointState.Main => lit "bin" end) |>
    <| ss_source_files := [lit "src/main.rs"; lit "src/lib.rs"] |>
    <| ss_module_gaps := if same (module_gap s) PlannerModuleGapState.Present then [lit "index -> src/index.rs"] else [] |>
    <| ss_compiler_hints := planner_hints_for_state s |>.
Definition planner_actions_for_state (s : PlannerJudgmentState.t) : list (LoopPlanned.t V) :=
  match action s with
  | PlannerActionCase.BootstrapWorkspace => [planned_run_command "cargo new example" "/tmp"]
  | PlannerActionCase.InitCargoProject => [planned_run_command "cargo init" "/tmp/example"]
  | PlannerActionCase.CreateEntrypoint => [planned_add_file "src/main.rs" ("+fn main() {}" +:+ NL)]
  | PlannerActionCase.CreateModuleFile => [planned_create_module_file "src/index.rs" "index"]
  | PlannerActionCase.FixDeadCodeConflict => [planned_update_file "src/lib.rs" ("-#![allow(dead_code)]" +:+ NL +:+ "+#![allow(dead_code)]" +:+ NL)]
  | PlannerActionCase.FixUnresolvedImport => [planned_add_import "src/lib.rs" "crate::foo"]
  | PlannerActionCase.DefineMissingSymbol => [planned_define_symbol_stub "src/main.rs" "run" "fn"]
  | PlannerActionCase.ResolveDuplicateDefinition => [planned_rename_symbol "src/lib.rs" "crate::alpha::Engine" "crate::alpha::EngineV2"]
  | PlannerActionCase.FixTraitBoundFailure => [planned_update_file "src/lib.rs" ("+impl Clone for Foo { fn clone(&self) -> Self { Self } }" +:+ NL)]
  | PlannerActionCase.WrongEdit => [planned_add_file "src/other.rs" ("+pub struct Other;" +:+ NL)]
  | PlannerActionCase.ValidateCargoCheck => [planned_run_command "cargo check" "/tmp/example"]
  end.
Definition planner_family_for_precondition (p : PlanningPrecondition) : JudgmentScenarioFamily.t :=
  match p with
  | MustBootstrapWorkspace => JudgmentScenarioFamily.PlannerBootstrapWorkspace
  | MustInitCargoProject => JudgmentScenarioFamily.PlannerInitCargoProject
  | MustCreateEntrypoint => JudgmentScenarioFamily.PlannerCreateEntrypoint
  | MustCreateMissingModules => JudgmentScenarioFamily.PlannerCreateMissingModules
  | MustFixDeadCodeForbidConflict => JudgmentScenarioFamily.PlannerFixDeadCodeConflict
  | MustFixUnresolvedImport => JudgmentScenarioFamily.PlannerFixUnresolvedImport
  | MustDefineMissingSymbol => JudgmentScenarioFamily.PlannerDefineMissingSymbol
  | MustResolveDuplicateDefinition => JudgmentScenarioFamily.PlannerResolveDuplicateDefinition
  | MustFixTraitBoundFailure => JudgmentScenarioFamily.PlannerFixTraitBoundFailure
  end.
Definition planner_action_matches_primary_intent (s : PlannerJudgmentState.t) : bool :=
  match head (planner_preconditions_for_state s) with
  | Some MustBootstrapWorkspace => same (action s) PlannerActionCase.BootstrapWorkspace
  | Some MustInitCargoProject => same (action s) PlannerActionCase.InitCargoProject
  | Some MustCreateEntrypoint => same (action s) PlannerActionCase.CreateEntrypoint
  | Some MustCreateMissingModules => same (action s) PlannerActionCase.CreateModuleFile
  | Some MustFixDeadCodeForbidConflict => same (action s) PlannerActionCase.FixDeadCodeConflict
  | Some MustFixUnresolvedImport => same (action s) PlannerActionCase.FixUnresolvedImport
  | Some MustDefineMissingSymbol => same (action s) PlannerActionCase.DefineMissingSymbol
  | Some MustResolveDuplicateDefinition => same (action s) PlannerActionCase.ResolveDuplicateDefinition
  | Some MustFixTraitBoundFailure => same (action s) PlannerActionCase.FixTraitBoundFailure
  | None => true
  end.

(** The nested loops over the fields, in their order. *)
Definition planner_states : list PlannerJudgmentState.t :=
  PlannerPathState.ALL ≫= fun p => PlannerCargoState.ALL ≫= fun c => PlannerEntrypointState.ALL ≫= fun e =>
  PlannerModuleGapState.ALL ≫= fun g => PlannerHintState.ALL ≫= fun h => PlannerActionCase.ALL ≫= fun a => [PlannerJudgmentState.mk p c e g h a].
Definition count_states {A} (valid : A -> bool) (states : list A) (valid_only : bool) : N :=
  lenN (filter (fun s => negb (valid_only && negb (valid s)) = true) states).
Definition planner_judgment_state_count : bool -> N := count_states valid_planner_judgment_state planner_states.

(** The derived [Debug] of the states. *)
Definition planner_debug (s : PlannerJudgmentState.t) : string :=
  "PlannerJudgmentState { path: " +:+ PlannerPathState.debug (path s) +:+ ", cargo: " +:+ PlannerCargoState.debug (cargo s) +:+ ", entrypoint: " +:+ PlannerEntrypointState.debug (entrypoint s) +:+
  ", module_gap: " +:+ PlannerModuleGapState.debug (module_gap s) +:+ ", hint: " +:+ PlannerHintState.debug (hint s) +:+ ", action: " +:+ PlannerActionCase.debug (action s) +:+ " }".
Definition is_ok {E A} (r : result E A) : bool := match r with Ok _ => true | Err _ => false end.
Definition ROOT : bytes := lit "/tmp/example".
Section Files.
Context (fs : bytes -> option FileTree).
Definition judged_ok (s : PlannerJudgmentState.t) : bool :=
  is_ok (validate_preconditions fs (planner_actions_for_state s) ROOT (planner_preconditions_for_state s) (planner_summary_for_state s)).
Definition planner_judgment_row (s : PlannerJudgmentState.t) : PlannerJudgmentRow.t V :=
  let preconditions := planner_preconditions_for_state s in
  PlannerJudgmentRow.mk ("planner_judgment_" +:+ planner_debug s) (planner_family_for_precondition (default MustBootstrapWorkspace (head preconditions)))
    (planner_actions_for_state s) preconditions (planner_summary_for_state s) (judged_ok s).
Definition planner_judgment_rows : list (PlannerJudgmentRow.t V) :=
  planner_judgment_row <$> filter (fun s => valid_planner_judgment_state s = true) planner_states.
End Files.

(** ** Generated rows of the router *)

Import RouteSemanticState.
Definition valid_route_semantic_state (s : RouteSemanticState.t) : bool :=
  if same (completeness s) RouteSummaryCompleteness.Incomplete then
    same (preconditions s) RoutePreconditionState.None && same (repair_intents s) RouteRepairIntentState.None && same (hint s) RouteHintState.None
    && same (validation_blocked s) RouteValidationBlockedState.No
  else true.
Definition route_summary_for_state (s : RouteSemanticState.t) : SemanticStateSummary :=
  summary_default <| ss_complete := same (completeness s) RouteSummaryCompleteness.Complete |>
    <| ss_validation_blocked_by_preconditions := same (validation_blocked s) RouteValidationBlockedState.Yes |>
    <| ss_planning_preconditions := if same (preconditions s) RoutePreconditionState.Present then [lit "must_create_missing_modules=true repair=create_declared_module_files_before_cargo_check"] else [] |>
    <| ss_repair_intents := if same (repair_intents s) RouteRepairIntentState.Present then [lit "repair_intent=create_missing_modules priority=4 first_batch=create_declared_module_files"] else [] |>
    <| ss_compiler_hints :=
         match hint s with
         | RouteHintState.None => []
         | RouteHintState.UnresolvedImport => [hint_new UnresolvedImport (lit "compiler reports unresolved import `crate::foo`") (lit "fix import") [lit "src/lib.rs"]]
         | RouteHintState.DuplicateDefinition => [hint_new DuplicateDefinition (lit "compiler reports duplicate definition for `Engine`") (lit "remove duplicate") [lit "src/lib.rs"]]
         | RouteHintState.TraitBound => [hint_new TraitBoundFailure (lit "compiler reports unsatisfied trait bound `Foo: Clone`") (lit "fix trait bound") [lit "src/lib.rs"]]
         end |>.
Definition route_state_is_actionable (s : RouteSemanticState.t) : bool :=
  same (completeness s) RouteSummaryCompleteness.Complete &&
  (same (validation_blocked s) RouteValidationBlockedState.Yes || same (preconditions s) RoutePreconditionState.Present || same (repair_intents s) RouteRepairIntentState.Present
   || negb (same (hint s) RouteHintState.None)).
Definition route_family_for_state (s : RouteSemanticState.t) : option JudgmentScenarioFamily.t :=
  if negb (same (completeness s) RouteSummaryCompleteness.Complete) then None
  else if same (validation_blocked s) RouteValidationBlockedState.Yes then Some JudgmentScenarioFamily.RouteSemanticValidationBlockedActionable
  else if same (repair_intents s) RouteRepairIntentState.Present then Some JudgmentScenarioFamily.RouteSemanticRepairIntentActionable
  else if same (preconditions s) RoutePreconditionState.Present then Some JudgmentScenarioFamily.RouteSemanticPreconditionActionable
  else match hint s with
       | RouteHintState.UnresolvedImport => Some JudgmentScenarioFamily.RouteSemanticUnresolvedImportActionable
       | RouteHintState.DuplicateDefinition => Some JudgmentScenarioFamily.RouteSemanticDuplicateDefinitionActionable
       | RouteHintState.TraitBound => Some JudgmentScenarioFamily.RouteSemanticTraitBoundActionable
       | RouteHintState.None => None
       end.
Definition route_states : list RouteSemanticState.t :=
  RouteSummaryCompleteness.ALL ≫= fun c => RoutePreconditionState.ALL ≫= fun p => RouteRepairIntentState.ALL ≫= fun r =>
  RouteHintState.ALL ≫= fun h => RouteValidationBlockedState.ALL ≫= fun v => [RouteSemanticState.mk c p r h v].
Definition route_semantic_state_count : bool -> N := count_states valid_route_semantic_state route_states.
Definition route_debug_state (s : RouteSemanticState.t) : string :=
  "RouteSemanticState { completeness: " +:+ RouteSummaryCompleteness.debug (completeness s) +:+ ", preconditions: " +:+ RoutePreconditionState.debug (preconditions s) +:+
  ", repair_intents: " +:+ RouteRepairIntentState.debug (repair_intents s) +:+ ", hint: " +:+ RouteHintState.debug (hint s) +:+
  ", validation_blocked: " +:+ RouteValidationBlockedState.debug (validation_blocked s) +:+ " }".
Definition route_semantic_row (s : RouteSemanticState.t) : option RouteSemanticActionabilityRow.t :=
  if negb (valid_route_semantic_state s) then None
  else
    family ← route_family_for_state s;
    Some (RouteSemanticActionabilityRow.mk ("route_semantic_actionability_" +:+ route_debug_state s) family (route_summary_for_state s) trend_default (route_state_is_actionable s)).
Definition route_semantic_actionability_rows : list RouteSemanticActionabilityRow.t := omap route_semantic_row route_states.
End Matrix.
