(* ===== verification/MatrixCheck.v ===== *)
(** * The policy matrix: assertions and coverage ([canon-policy-matrix/src/lib.rs])

    The checks of the rows against the evaluators of the route policy, of the
    loop policy, of the planning preconditions and of the route context, the
    coverage report, and what the baseline table amounts to.  An assertion is an
    [option unit], where [None] is the panic. *)
From Stdlib Require Import Floats.SpecFloat.
From stdpp Require Import pretty.
From S2P Require Import Prelude Json Text PatchParser TextFormat Paths Wire SemanticState SemanticText Gatekeeper Objectives Goal LoopPolicy ConstraintEngine CompilerHints Workspace Preconditions Scheduler EventShape KernelTypes Events EventBus RouteContext RouteExecutor RoutePolicy Merge LoopContext LoopStages PolicyMatrix.
Open Scope string_scope.

Inductive TransitionRow {V : Type} : Type :=
| RowRoute (r : RouteTransitionRow.t) | RowLoop (r : LoopTransitionRow.t) | RowRunCommandOutcome (r : RunCommandOutcomeRow.t) | RowApplyPatchOutcome (r : ApplyPatchOutcomeRow.t)
| RowVerifyOutcome (r : VerifyOutcomeRow.t) | RowInvalidPlanRetry (r : InvalidPlanRetryRow.t) | RowRouteDispatch (r : RouteDispatchRow.t) | RowRouteEmit (r : RouteEmitRow.t)
| RowRouteCache (r : RouteCacheRow.t) | RowLoopRuntime (r : LoopRuntimeRow.t) | RowRecoveryEvent (r : RecoveryEventRow.t) | RowRecoveryExecution (r : RecoveryExecutionRow.t)
| RowBootstrapEffect (r : BootstrapEffectRow.t) | RowPlannerRecovery (r : PlannerRecoveryRow.t) | RowRewardSemantics (r : RewardSemanticsRow.t) | RowRouteFailure (r : RouteFailureRow.t)
| RowRouteEmitEffect (r : RouteEmitEffectRow.t) | RowRouteRecovery (r : RouteRecoveryRow.t) | RowPlannerJudgment (r : PlannerJudgmentRow.t V)
| RowPlannerObjectiveAlignment (r : PlannerObjectiveAlignmentRow.t V) | RowRouteObjectiveAlignment (r : RouteObjectiveAlignmentRow.t)
| RowGoalRouteObjectiveDrift (r : GoalRouteObjectiveDriftRow.t) | RowContradictionEventTrend (r : ContradictionEventTrendRow.t)
| RowRouteSemanticActionability (r : RouteSemanticActionabilityRow.t).
Arguments TransitionRow V : clear implicits.

#[export] Instance LoopRuntimeRule_eq_dec : EqDecision LoopRuntimeRule.
Proof. solve_decision. Defined.
#[export] Instance ObserveExecutionMode_eq_dec : EqDecision ObserveExecutionMode.
Proof. solve_decision. Defined.
#[export] Instance RecoveryEventRule_eq_dec : EqDecision RecoveryEventRule.
Proof. solve_decision. Defined.
#[export] Instance BootstrapRule_eq_dec : EqDecision BootstrapRule.
Proof. solve_decision. Defined.
#[export] Instance InvalidPlanReasonClass_eq_dec : EqDecision InvalidPlanReasonClass.
Proof. solve_decision. Defined.

Definition assert_that (b : bool) : option unit := if b then Some tt else None.
Definition assert_eq {A} `{EqDecision A} (x y : A) : option unit := assert_that (bool_decide (x = y)).

Section Check.
Context {V : Type} `{Json V} `{JsonSer V}.
(** The files the planner looks at, and what the contexts read from their
    surroundings: printed values, the artifact directory with its names, the
    policy on destructive commands. *)
Context (fs : bytes -> option FileTree) (json_text : V -> string) (show_f32 : f32 -> string) (artifact_dir : bytes) (names : list bytes) (policy : DestructiveCmdPolicy).
Implicit Types (c : RouteContext V).

(** ** Contexts *)

Definition run_command_result_value (outcome : RunCommandOutcomeClass.t) : V :=
  let '(success, stderr) :=
    match outcome with
    | RunCommandOutcomeClass.BootstrapSuccess => (true, "Creating binary (application) package")
    | RunCommandOutcomeClass.BootstrapSelectionMismatch =>
        (false, "error: `cargo init` cannot be run on existing Cargo packages" +:+ NL +:+ "help: use `cargo new` to create a package in a new subdirectory")
    | RunCommandOutcomeClass.ValidationFailureCompiler => (false, "error[E0453]: compiler failure")
    | RunCommandOutcomeClass.ValidationSuccess => (true, "Finished `dev` profile")
    | RunCommandOutcomeClass.SemanticFailure => (false, "test result: FAILED")
    | RunCommandOutcomeClass.Other => (false, "other failure")
    end in
  jobj {[ "action" := jstr "run_command"; "success" := jbool success; "output" := jobj {[ "Process" := jobj {[ "stderr" := jstr stderr; "stdout" := jstr "" ]} ]} ]}.
Definition apply_patch_result_value (outcome : ApplyPatchOutcomeClass.t) : V :=
  let '(success, stdout) :=
    match outcome with
    | ApplyPatchOutcomeClass.Success => (true, "apply_patch ok: added 1 modified 0 deleted 0")
    | ApplyPatchOutcomeClass.MissingTargetFile => (false, "apply_patch failed: Failed to read file to update src/lib.rs: No such file or directory (os error 2)")
    | ApplyPatchOutcomeClass.PatchApplyFailure => (false, "apply_patch failed: invalid hunk at line 12, unexpected line in update chunk")
    | ApplyPatchOutcomeClass.OtherFailure => (false, "patch tool exited with unknown failure")
    end in
  jobj {[ "action" := jstr "apply_patch"; "success" := jbool success; "output" := jobj {[ "stdout" := jstr stdout; "stderr" := jstr "" ]} ]}.
Definition verified_as (outcome retry bias : string) (failure : bool) c : RouteContext V :=
  c <| rc_last_verifier_outcome := Some outcome |> <| rc_last_verifier_retry_policy := Some retry |> <| rc_last_verifier_reward_bias := Some bias |>
    <| rc_last_verifier_actionable_failure := Some failure |>.
Definition apply_verify_outcome (outcome : VerifyOutcomeClass.t) c : RouteContext V :=
  let c := c <| rc_verify_seen := true |> in
  match outcome with
  | VerifyOutcomeClass.Passed => verified_as "passed" "none" "positive" false c
  | VerifyOutcomeClass.CompilerFailure => verified_as "compiler_failure" "corrective_retry" "negative" true c
  | VerifyOutcomeClass.FailedNoCompilerSignal => verified_as "failed_no_compiler_signal" "corrective_retry" "negative" true c
  end.
Definition push_result (r : V) c : RouteContext V := c <| rc_recent_tool_results ::= fun l => (l ++ [r])%list |>.
Definition push_execution (r : ExecResult) c : RouteContext V := c <| rc_recent_execution_results ::= fun l => (l ++ [r])%list |>.
Definition when (b : bool) (f : RouteContext V -> RouteContext V) c : RouteContext V := if b then f c else c.
Definition with_some {A} (o : option A) (f : A -> RouteContext V -> RouteContext V) c : RouteContext V := match o with Some x => f x c | None => c end.
Definition apply_route_outcome_context (row : RouteRowContext.t) c : RouteContext V :=
  let c := when (RouteRowContext.compiler_repair_required row)
    (fun c => c <| rc_semantic_summary ::= fun s => s <| ss_complete := true |> <| ss_compiler_repair_required := true |> |>) c in
  let c := with_some (RouteRowContext.verify_outcome row) apply_verify_outcome c in
  let c := with_some (RouteRowContext.run_command_outcome row) (fun o => push_result (run_command_result_value o)) c in
  let c := with_some (RouteRowContext.apply_patch_outcome row) (fun o => push_result (apply_patch_result_value o)) c in
  let c := when (RouteRowContext.semantic_progress row)
    (push_execution (exec_new (lit "module_created") (lit "module file created") [lit "/tmp/example/src/index.rs"] true)) c in
  when (RouteRowContext.no_semantic_progress row) (push_execution (exec_new (lit "no_semantic_progress") (lit "action failed") [] false)) c.
Definition matrix_target (s : SemanticStateSummary) : SemanticStateSummary :=
  s <| ss_complete := true |> <| ss_path_exists := false |> <| ss_target_root := Some (lit "/tmp/matrix-target") |>.
Definition route_row_context (row : RouteRowContext.t) : RouteContext V :=
  let c := route_context_new <| rc_halted := RouteRowContext.halted row |> <| rc_context_ready := RouteRowContext.context_ready row |>
    <| rc_consecutive_invalid_plan_batches := RouteRowContext.consecutive_invalid_plan_batches row |> <| rc_bootstrap_refresh_required := RouteRowContext.bootstrap_refresh_required row |> in
  let c := when (RouteRowContext.target_workspace_missing row) (fun c => c <| rc_semantic_summary ::= matrix_target |>) c in
  let c := c <| rc_finish_ready := RouteRowContext.finish_ready row |>
    <| rc_pending_tool_result_ids ::= fun ids => if RouteRowContext.pending_tool_results_empty row then ∅ else {[ "pending" ]} ∪ ids |> in
  apply_route_outcome_context row c.
Definition dispatch_row_context (row : RouteRowContext.t) : RouteContext V :=
  let c := route_context_new <| rc_halted := RouteRowContext.halted row |> <| rc_context_ready := RouteRowContext.context_ready row |>
    <| rc_consecutive_invalid_plan_batches := RouteRowContext.consecutive_invalid_plan_batches row |> in
  apply_route_outcome_context row (when (RouteRowContext.target_workspace_missing row) (fun c => c <| rc_semantic_summary ::= matrix_target |>) c).

Definition to_runtime_event (e : RouteRowEvent.t) : RuntimeEvent.t V :=
  match e with
  | RouteRowEvent.LoopActed action_kind => RuntimeEvent.LoopActed (LoopActed.mk 0 action_kind "" None None "" "" None 0 true None None None None None None None)
  | RouteRowEvent.PlanningCompleted status planned_count =>
      let normalized_status := if LoopPolicy.one_of status ["llm_failed"; "llm_timeout"] && (planned_count =? 0)%N then "llm_failed_zero" else status in
      RuntimeEvent.PlanningCompleted (PlanningCompleted.mk 0 (Some "") planned_count normalized_status)
  end.
(** Decisions are no longer built from rows: the function panics. *)
Definition to_route_decision (d : RouteRowDecision.t) : option RouteDecision := None.

(** ** Assertions *)

Definition assert_route_row (row : RouteTransitionRow.t) : option unit :=
  let c := route_row_context (RouteTransitionRow.context row) in
  let event := to_runtime_event <$> RouteTransitionRow.event row in
  decision ← match RouteTransitionRow.decision row with Some d => Some <$> to_route_decision d | None => Some None end;
  let eval := evaluate_route_transition c MkPolicyState event decision in
  assert_eq (deterministic_rule <$> transition_deterministic eval) (RouteTransitionRow.expected_deterministic row) ;;
  assert_eq (transition_rules eval) (RouteTransitionRow.expected_rules row).
Definition assert_route_dispatch_row (row : RouteDispatchRow.t) : option unit :=
  let d := RouteDispatchRow.dispatch row in
  let eval := evaluate_route_dispatch (dispatch_row_context (RouteDispatchRow.context row)) MkPolicyState
    (RouteDispatchState.mk (RouteDispatchRowState.pending_request_id d) (RouteDispatchRowState.route_emitted_for_current_control d)) in
  assert_eq (suppression_rule <$> dispatch_suppression eval) (RouteDispatchRow.expected_rule row) ;;
  assert_eq (deterministic_rule <$> dispatch_deterministic eval) (RouteDispatchRow.expected_deterministic row).
Definition assert_route_emit_row (row : RouteEmitRow.t) : option unit :=
  assert_eq (emit_rule (evaluate_route_emit (MkEmitState (RouteEmitRow.last_control_kind row) None))) (RouteEmitRow.expected_rule row).
Definition assert_route_cache_row (row : RouteCacheRow.t) : option unit :=
  let s := RouteCacheRow.state row in
  assert_eq (cache_rule (evaluate_route_cache (RouteCacheState.mk (RouteCacheRowState.force_fresh_route_once s) (RouteCacheRowState.last_prompt_hash s) (RouteCacheRowState.prompt_hash s)
    (RouteCacheRowState.pending_required_successor s) (RouteCacheRowState.last_route_prompt_hash s) (RouteCacheRowState.route_emitted_for_current_control s)
    (RouteCacheRowState.has_cached_route s) (RouteCacheRowState.cached_route_is_observe s) (RouteCacheRowState.can_emit_route_selected s)))) (RouteCacheRow.expected_rule row).
Definition assert_route_failure_row (row : RouteFailureRow.t) : option unit :=
  assert_eq (failure_rule (evaluate_route_failure (V := V) route_context_new)) (RouteFailureRow.expected_rule row).
Definition assert_route_emit_effect_row (row : RouteEmitEffectRow.t) : option unit :=
  decision ← to_route_decision (RouteEmitEffectRow.decision row);
  let eval := evaluate_route_emit_effects decision in
  assert_eq (effects_rules eval) (RouteEmitEffectRow.expected_rules row) ;;
  assert_eq (effects_clear_pending_request eval) (RouteEmitEffectRow.expected_clear_pending_request row) ;;
  assert_eq (effects_clear_pending_prompt eval) (RouteEmitEffectRow.expected_clear_pending_prompt row) ;;
  assert_eq (effects_set_halted eval) (RouteEmitEffectRow.expected_set_halted row).
Definition assert_route_recovery_row (row : RouteRecoveryRow.t) : option unit :=
  assert_eq (route_recovery_rule (evaluate_route_recovery (RouteRecoveryRow.pending_required_successor row))) (RouteRecoveryRow.expected_rule row).
Definition assert_planner_judgment_row (row : PlannerJudgmentRow.t V) : option unit :=
  assert_eq (is_ok (validate_preconditions fs (PlannerJudgmentRow.actions row) ROOT (PlannerJudgmentRow.preconditions row) (PlannerJudgmentRow.summary row))) (PlannerJudgmentRow.expected_ok row).
Definition assert_planner_objective_alignment_row (row : PlannerObjectiveAlignmentRow.t V) : option unit :=
  let actions := PlannerObjectiveAlignmentRow.actions row in
  let route_result := validate_objective_route_plan_alignment actions ROOT (PlannerObjectiveAlignmentRow.route_choice row) (lit (PlannerObjectiveAlignmentRow.primary_objective row))
    (PlannerObjectiveAlignmentRow.summary row) in
  let trend_result := validate_trend_intent_alignment actions ROOT (PlannerObjectiveAlignmentRow.recent_execution_results row) (PlannerObjectiveAlignmentRow.objective_trend_state row) in
  assert_eq (is_ok route_result && is_ok trend_result) (PlannerObjectiveAlignmentRow.expected_ok row).
Definition assert_route_objective_alignment_row (row : RouteObjectiveAlignmentRow.t) : option unit :=
  assert_eq (negb (route_choice_contradicts_primary_objective (RouteObjectiveAlignmentRow.route_choice row) (lit (RouteObjectiveAlignmentRow.primary_objective row)) (RouteObjectiveAlignmentRow.summary row)))
    (RouteObjectiveAlignmentRow.expected_ok row).
Definition assert_goal_route_objective_drift_row (row : GoalRouteObjectiveDriftRow.t) : option unit :=
  assert_eq (goal_route_objective_drift (lit (GoalRouteObjectiveDriftRow.goal_objective row)) (lit (GoalRouteObjectiveDriftRow.route_objective row))) (GoalRouteObjectiveDriftRow.expected_drift row).
Definition assert_contradiction_event_trend_row (row : ContradictionEventTrendRow.t) : option unit :=
  let event := RuntimeEvent.Debug (DebugEvent.mk "matrix" (ContradictionEventTrendRow.debug_kind row) (jobj ∅)) in
  c ← update_from_event json_text show_f32 event 0 route_context_new;
  assert_eq (ot_route_objective_contradiction_events (rc_objective_trend_state c)) (ContradictionEventTrendRow.expected_route_contradictions row) ;;
  assert_eq (ot_goal_objective_drift_events (rc_objective_trend_state c)) (ContradictionEventTrendRow.expected_goal_drifts row).
Definition assert_route_semantic_actionability_row (row : RouteSemanticActionabilityRow.t) : option unit :=
  let c := route_context_new (V := V) <| rc_semantic_summary := RouteSemanticActionabilityRow.summary row |> <| rc_objective_trend_state := RouteSemanticActionabilityRow.objective_trend_state row |> in
  assert_eq (has_actionable_failure c) (RouteSemanticActionabilityRow.expected_actionable row).
Definition assert_run_command_outcome_row (row : RunCommandOutcomeRow.t) : option unit :=
  assert_eq (latest_run_command_outcome (push_result (run_command_result_value (RunCommandOutcomeRow.input row)) route_context_new)) (Some (RunCommandOutcomeRow.expected row)).
Definition assert_apply_patch_outcome_row (row : ApplyPatchOutcomeRow.t) : option unit :=
  assert_eq (latest_apply_patch_outcome (push_result (apply_patch_result_value (ApplyPatchOutcomeRow.input row)) route_context_new)) (Some (ApplyPatchOutcomeRow.expected row)).
Definition assert_verify_outcome_row (row : VerifyOutcomeRow.t) : option unit :=
  assert_eq (latest_verify_outcome (apply_verify_outcome (VerifyOutcomeRow.input row) route_context_new)) (Some (VerifyOutcomeRow.expected row)).
Definition assert_invalid_plan_retry_row (row : InvalidPlanRetryRow.t) : option unit :=
  assert_eq (classify_invalid_plan_reason (lit <$> InvalidPlanRetryRow.reason row)) (InvalidPlanRetryRow.expected_reason_class row) ;;
  assert_eq (retry_policy_for_invalid_plan (lit <$> InvalidPlanRetryRow.reason row) (InvalidPlanRetryRow.count row)) (InvalidPlanRetryRow.expected_retry row).
Definition assert_loop_row (row : LoopTransitionRow.t) : option unit :=
  let eval := evaluate_loop_transition None (LoopTransitionRow.planning_status row) (LoopTransitionRow.error_kind row) (LoopTransitionRow.expected_successor row) in
  assert_eq (recovery_rules eval) (LoopTransitionRow.expected_rules row) ;;
  assert_eq (trigger_observe eval) (LoopTransitionRow.expected_trigger_observe row) ;;
  assert_eq (force_reward_recovery eval) (LoopTransitionRow.expected_force_reward_recovery row).
(** The successor of the row is not passed on. *)
Definition assert_loop_runtime_row (row : LoopRuntimeRow.t) : option unit :=
  let eval := evaluate_loop_runtime (LoopRuntimeRow.halted row) (LoopRuntimeRow.force_observe_recovery row) (LoopRuntimeRow.trigger_observe row)
    (LoopRuntimeRow.suppress_observe_on_invariant row) None (LoopRuntimeRow.is_route_selected_event row) in
  assert_eq (observe_mode eval) (LoopRuntimeRow.expected_mode row) ;;
  assert_eq (halt_blocks_stage eval) (LoopRuntimeRow.expected_halt_blocks_stage row) ;;
  assert_eq (warn_route_selected_while_halted eval) (LoopRuntimeRow.expected_warn_route_selected_while_halted row) ;;
  assert_eq (runtime_rules eval) (LoopRuntimeRow.expected_rules row).
Definition assert_recovery_event_row (row : RecoveryEventRow.t) : option unit :=
  let eval := evaluate_recovery_event (RecoveryEventRow.expected_successor row) None (RecoveryEventRow.has_last_verified row) in
  assert_eq (recovery_rule eval) (RecoveryEventRow.expected_rule row) ;;
  assert_eq (force_observe_recovery eval) (RecoveryEventRow.expected_force_observe_recovery row) ;;
  assert_eq (execute_reward_recovery eval) (RecoveryEventRow.expected_execute_reward_recovery row).
Definition assert_recovery_execution_row (row : RecoveryExecutionRow.t) : option unit :=
  let eval := evaluate_recovery_execution (RecoveryExecutionRow.operation row) (RecoveryExecutionRow.outcome row) in
  assert_eq (debug_kind eval) (RecoveryExecutionRow.expected_debug_kind row) ;;
  assert_eq (rec_error_kind eval) (RecoveryExecutionRow.expected_error_kind row).
Definition assert_bootstrap_effect_row (row : BootstrapEffectRow.t) : option unit :=
  let eval := evaluate_bootstrap_effects (BootstrapEffectRow.action_outcome row) in
  assert_eq (bootstrap_rule eval) (BootstrapEffectRow.expected_rule row) ;;
  assert_eq (emit_refresh_required eval) (BootstrapEffectRow.expected_emit_refresh_required row).
Definition assert_planner_recovery_row (row : PlannerRecoveryRow.t) : option unit :=
  retry ← retry_policy_for_planning_context (lit <$> PlannerRecoveryRow.reason row) (PlannerRecoveryRow.consecutive_invalid_plan_batches row)
    (PlannerRecoveryRow.recent_execution_results row) (PlannerRecoveryRow.objective_trend_state row);
  assert_eq retry (PlannerRecoveryRow.expected_retry row).
(** The rewards are compared as floats.  The verification the test builds is
    not looked at by the evaluation. *)
Definition assert_reward_semantics_row (row : RewardSemanticsRow.t) : option unit :=
  let c := loop_context_new (V := V) ROOT (lit "/tmp/tlog") artifact_dir names policy in
  let c := c <| lc_last_action_kind := RewardSemanticsRow.last_action_kind row |> <| lc_recent_execution_results := RewardSemanticsRow.recent_execution_results row |>
    <| lc_last_verifier_reward_bias := Some (if RewardSemanticsRow.compiler_clean row then "positive" else "negative") |> in
  actual ← evaluate_reward_semantics c;
  let expected := RewardSemanticsRow.expected row in
  assert_that (SFeqb (rw_reward actual) (rw_reward expected) && Bool.eqb (rw_resets_stagnation actual) (rw_resets_stagnation expected)).

Definition assert_transition_row (row : TransitionRow V) : option unit :=
  match row with
  | RowRoute r => assert_route_row r | RowLoop r => assert_loop_row r | RowRunCommandOutcome r => assert_run_command_outcome_row r
  | RowApplyPatchOutcome r => assert_apply_patch_outcome_row r | RowVerifyOutcome r => assert_verify_outcome_row r | RowInvalidPlanRetry r => assert_invalid_plan_retry_row r
  | RowRouteDispatch r => assert_route_dispatch_row r | RowRouteEmit r => assert_route_emit_row r | RowRouteCache r => assert_route_cache_row r
  | RowLoopRuntime r => assert_loop_runtime_row r | RowRecoveryEvent r => assert_recovery_event_row r | RowRecoveryExecution r => assert_recovery_execution_row r
  | RowBootstrapEffect r => assert_bootstrap_effect_row r | RowPlannerRecovery r => assert_planner_recovery_row r | RowRewardSemantics r => assert_reward_semantics_row r
  | RowRouteFailure r => assert_route_failure_row r | RowRouteEmitEffect r => assert_route_emit_effect_row r | RowRouteRecovery r => assert_route_recovery_row r
  | RowPlannerJudgment r => assert_planner_judgment_row r | RowPlannerObjectiveAlignment r => assert_planner_objective_alignment_row r
  | RowRouteObjectiveAlignment r => assert_route_objective_alignment_row r | RowGoalRouteObjectiveDrift r => assert_goal_route_objective_drift_row r
  | RowContradictionEventTrend r => assert_contradiction_event_trend_row r | RowRouteSemanticActionability r => assert_route_semantic_actionability_row r
  end.
Fixpoint assert_transition_rows (rows : list (TransitionRow V)) : option unit :=
  match rows with [] => Some tt | row :: rest => assert_transition_row row ;; assert_transition_rows rest end.

(** ** The baseline *)

(** The rows before and after the generated rows of the planner. *)
Definition policy_rows : list (TransitionRow V) :=
  ((RowRoute <$> route_transition_rows) ++ (RowRouteDispatch <$> route_dispatch_rows) ++ (RowRouteEmit <$> route_emit_rows) ++ (RowRouteCache <$> route_cache_rows) ++
  (RowRouteFailure <$> route_failure_rows) ++ (RowRouteEmitEffect <$> route_emit_effect_rows) ++ (RowLoop <$> loop_transition_rows) ++ (RowLoopRuntime <$> loop_runtime_rows) ++
  (RowRecoveryEvent <$> recovery_event_rows) ++ (RowRecoveryExecution <$> recovery_execution_rows) ++ (RowBootstrapEffect <$> bootstrap_effect_rows) ++
  (RowPlannerRecovery <$> planner_recovery_rows) ++ (RowRewardSemantics <$> reward_semantics_rows) ++ (RowRunCommandOutcome <$> run_command_outcome_rows) ++
  (RowApplyPatchOutcome <$> apply_patch_outcome_rows) ++ (RowVerifyOutcome <$> verify_outcome_rows) ++ (RowInvalidPlanRetry <$> invalid_plan_retry_rows) ++
  (RowRouteRecovery <$> route_recovery_rows))%list.
Definition objective_rows : list (TransitionRow V) :=
  ((RowPlannerObjectiveAlignment <$> planner_objective_alignment_rows) ++
  (RowRouteObjectiveAlignment <$> route_objective_alignment_rows) ++ (RowGoalRouteObjectiveDrift <$> goal_route_objective_drift_rows) ++
  (RowContradictionEventTrend <$> contradiction_event_trend_rows) ++ (RowRouteSemanticActionability <$> route_semantic_actionability_rows) ++
  (RowRouteSemanticActionability <$> route_trend_actionability_rows))%list.
Definition baseline_transition_rows : list (TransitionRow V) := (policy_rows ++ (RowPlannerJudgment <$> planner_judgment_rows fs) ++ objective_rows)%list.
(** The name of a row, as the tests read it. *)
Definition row_name (row : TransitionRow V) : string :=
  match row with
  | RowRoute r => RouteTransitionRow.name r | RowLoop r => LoopTransitionRow.name r | RowRunCommandOutcome r => RunCommandOutcomeRow.name r | RowApplyPatchOutcome r => ApplyPatchOutcomeRow.name r
  | RowVerifyOutcome r => VerifyOutcomeRow.name r | RowInvalidPlanRetry r => InvalidPlanRetryRow.name r | RowRouteDispatch r => RouteDispatchRow.name r | RowRouteEmit r => RouteEmitRow.name r
  | RowRouteCache r => RouteCacheRow.name r | RowLoopRuntime r => LoopRuntimeRow.name r | RowRecoveryEvent r => RecoveryEventRow.name r | RowRecoveryExecution r => RecoveryExecutionRow.name r
  | RowBootstrapEffect r => BootstrapEffectRow.name r | RowPlannerRecovery r => PlannerRecoveryRow.name r | RowRewardSemantics r => RewardSemanticsRow.name r | RowRouteFailure r => RouteFailureRow.name r
  | RowRouteEmitEffect r => RouteEmitEffectRow.name r | RowRouteRecovery r => RouteRecoveryRow.name r | RowPlannerJudgment r => PlannerJudgmentRow.name r
  | RowPlannerObjectiveAlignment r => PlannerObjectiveAlignmentRow.name r | RowRouteObjectiveAlignment r => RouteObjectiveAlignmentRow.name r
  | RowGoalRouteObjectiveDrift r => GoalRouteObjectiveDriftRow.name r | RowContradictionEventTrend r => ContradictionEventTrendRow.name r
  | RowRouteSemanticActionability r => RouteSemanticActionabilityRow.name r
  end.
End Check.

(** ** Coverage *)

Record CoverageReport := MkCoverage {
  cr_route_covered : list RouteScenarioFamily.t; cr_route_missing : list RouteScenarioFamily.t; cr_loop_covered : list LoopScenarioFamily.t; cr_loop_missing : list LoopScenarioFamily.t;
  cr_run_command_covered : list RunCommandOutcomeFamily.t; cr_run_command_missing : list RunCommandOutcomeFamily.t;
  cr_apply_patch_covered : list ApplyPatchOutcomeFamily.t; cr_apply_patch_missing : list ApplyPatchOutcomeFamily.t;
  cr_verify_covered : list VerifyOutcomeFamily.t; cr_verify_missing : list VerifyOutcomeFamily.t;
  cr_invalid_plan_retry_covered : list InvalidPlanRetryFamily.t; cr_invalid_plan_retry_missing : list InvalidPlanRetryFamily.t;
  cr_judgment_covered : list JudgmentScenarioFamily.t; cr_judgment_missing : list JudgmentScenarioFamily.t;
  cr_planner_generated_total : N; cr_planner_generated_valid : N; cr_route_generated_total : N; cr_route_generated_valid : N
}.
#[export] Instance CoverageReport_eta : Eta CoverageReport := fun r => MkCoverage
  (cr_route_covered r) (cr_route_missing r) (cr_loop_covered r) (cr_loop_missing r) (cr_run_command_covered r) (cr_run_command_missing r) (cr_apply_patch_covered r) (cr_apply_patch_missing r)
  (cr_verify_covered r) (cr_verify_missing r) (cr_invalid_plan_retry_covered r) (cr_invalid_plan_retry_missing r) (cr_judgment_covered r) (cr_judgment_missing r)
  (cr_planner_generated_total r) (cr_planner_generated_valid r) (cr_route_generated_total r) (cr_route_generated_valid r).
Definition coverage_default : CoverageReport := MkCoverage [] [] [] [] [] [] [] [] [] [] [] [] [] [] 0 0 0 0.

Definition push_unique {A} `{EqDecision A} (item : A) (l : list A) : list A := if bool_decide (item ∈ l) then l else (l ++ [item])%list.
Definition missing_families {A} `{EqDecision A} (all covered : list A) : list A := filter (fun family => family ∉ covered) all.

Definition cover {V} (r : CoverageReport) (row : TransitionRow V) : CoverageReport :=
  let route f := r <| cr_route_covered ::= push_unique f |> in
  let loop f := r <| cr_loop_covered ::= push_unique f |> in
  let judgment f := r <| cr_judgment_covered ::= push_unique f |> in
  match row with
  | RowRoute x => route (RouteTransitionRow.family x) | RowRouteDispatch x => route (RouteDispatchRow.family x) | RowRouteEmit x => route (RouteEmitRow.family x)
  | RowRouteCache x => route (RouteCacheRow.family x) | RowRouteFailure x => route (RouteFailureRow.family x) | RowRouteEmitEffect x => route (RouteEmitEffectRow.family x)
  | RowLoop x => loop (LoopTransitionRow.family x) | RowLoopRuntime x => loop (LoopRuntimeRow.family x) | RowRecoveryEvent x => loop (RecoveryEventRow.family x)
  | RowRecoveryExecution x => loop (RecoveryExecutionRow.family x) | RowBootstrapEffect x => loop (BootstrapEffectRow.family x) | RowPlannerRecovery x => judgment (PlannerRecoveryRow.family x)
  | RowRewardSemantics x => loop (RewardSemanticsRow.family x) | RowRunCommandOutcome x => r <| cr_run_command_covered ::= push_unique (RunCommandOutcomeRow.family x) |>
  | RowApplyPatchOutcome x => r <| cr_apply_patch_covered ::= push_unique (ApplyPatchOutcomeRow.family x) |>
  | RowVerifyOutcome x => r <| cr_verify_covered ::= push_unique (VerifyOutcomeRow.family x) |>
  | RowInvalidPlanRetry x => r <| cr_invalid_plan_retry_covered ::= push_unique (InvalidPlanRetryRow.family x) |>
  | RowRouteRecovery x => route (RouteRecoveryRow.family x) | RowPlannerJudgment x => judgment (PlannerJudgmentRow.family x)
  | RowPlannerObjectiveAlignment x => judgment (PlannerObjectiveAlignmentRow.family x) | RowRouteObjectiveAlignment x => judgment (RouteObjectiveAlignmentRow.family x)
  | RowGoalRouteObjectiveDrift x => judgment (GoalRouteObjectiveDriftRow.family x) | RowContradictionEventTrend x => judgment (ContradictionEventTrendRow.family x)
  | RowRouteSemanticActionability x => judgment (RouteSemanticActionabilityRow.family x)
  end.
Definition coverage_report {V} (rows : list (TransitionRow V)) : CoverageReport :=
  let r := foldl cover coverage_default rows in
  r <| cr_route_missing := missing_families RouteScenarioFamily.ALL (cr_route_covered r) |> <| cr_loop_missing := missing_families LoopScenarioFamily.ALL (cr_loop_covered r) |>
    <| cr_run_command_missing := missing_families RunCommandOutcomeFamily.ALL (cr_run_command_covered r) |>
    <| cr_apply_patch_missing := missing_families ApplyPatchOutcomeFamily.ALL (cr_apply_patch_covered r) |>
    <| cr_verify_missing := missing_families VerifyOutcomeFamily.ALL (cr_verify_covered r) |>
    <| cr_invalid_plan_retry_missing := missing_families InvalidPlanRetryFamily.ALL (cr_invalid_plan_retry_covered r) |>
    <| cr_judgment_missing := missing_families JudgmentScenarioFamily.ALL (cr_judgment_covered r) |>
    <| cr_planner_generated_total := planner_judgment_state_count false |> <| cr_planner_generated_valid := planner_judgment_state_count true |>
    <| cr_route_generated_total := route_semantic_state_count false |> <| cr_route_generated_valid := route_semantic_state_count true |>.

Definition concat_s (l : list string) : string := foldr String.append "" l.
Definition coverage_section {A} (title : string) (covered missing : list A) (fmt : A -> string) : string :=
  let items l := concat_s ((fun x => "  - " +:+ fmt x +:+ NL) <$> l) in
  "## " +:+ title +:+ NL +:+ "- covered: " +:+ pretty (lenN covered) +:+ NL +:+ "- missing: " +:+ pretty (lenN missing) +:+ NL +:+
  match covered with [] => "" | _ => "- covered families:" +:+ NL +:+ items covered end +:+
  match missing with [] => "" | _ => "- missing families:" +:+ NL +:+ items missing end +:+ NL.
Definition coverage_report_markdown {V} (rows : list (TransitionRow V)) : string :=
  let r := coverage_report rows in
  "# Policy Matrix Coverage" +:+ NL +:+ NL +:+ "## Judgment generation" +:+ NL +:+
  "- planner states: valid=" +:+ pretty (cr_planner_generated_valid r) +:+ " total=" +:+ pretty (cr_planner_generated_total r) +:+ NL +:+
  "- route states: valid=" +:+ pretty (cr_route_generated_valid r) +:+ " total=" +:+ pretty (cr_route_generated_total r) +:+ NL +:+ NL +:+
  coverage_section "Route transitions" (cr_route_covered r) (cr_route_missing r) RouteScenarioFamily.debug +:+
  coverage_section "Loop transitions" (cr_loop_covered r) (cr_loop_missing r) LoopScenarioFamily.debug +:+
  coverage_section "Run command outcomes" (cr_run_command_covered r) (cr_run_command_missing r) RunCommandOutcomeFamily.debug +:+
  coverage_section "Apply patch outcomes" (cr_apply_patch_covered r) (cr_apply_patch_missing r) ApplyPatchOutcomeFamily.debug +:+
  coverage_section "Verify outcomes" (cr_verify_covered r) (cr_verify_missing r) VerifyOutcomeFamily.debug +:+
  coverage_section "Invalid-plan retry mappings" (cr_invalid_plan_retry_covered r) (cr_invalid_plan_retry_missing r) InvalidPlanRetryFamily.debug +:+
  coverage_section "Judgment coverage" (cr_judgment_covered r) (cr_judgment_missing r) JudgmentScenarioFamily.debug.

(** ** The generated states *)

Ltac in_each x := apply list_elem_of_bind; exists x; split; [|destruct x; repeat (apply list_elem_of_here || apply list_elem_of_further)].
Lemma filter_none {A} (P : A -> Prop) `{forall x, Decision (P x)} l : (forall x, x ∈ l -> ~ P x) -> filter P l = [].
Proof. induction l as [|x l IH]; [done|]. intros Hl. rewrite filter_cons_False by apply Hl, list_elem_of_here. apply IH. intros y Hy. by apply Hl, list_elem_of_further. Qed.
Lemma planner_states_complete s : s ∈ planner_states.
Proof. destruct s as [p c e g h a]. unfold planner_states. in_each p. in_each c. in_each e. in_each g. in_each h. in_each a. apply list_elem_of_here. Qed.
Lemma route_states_complete s : s ∈ route_states.
Proof. destruct s as [c p r h v]. unfold route_states. in_each c. in_each p. in_each r. in_each h. in_each v. apply list_elem_of_here. Qed.

(** Without the target directory the planner sees the workspace as the summary
    describes it, whatever else there is on disk. *)
Lemma validate_without_target {V} `{Json V} fs fs' (actions : list (LoopPlanned.t V)) root ps s : path_exists fs root = false -> path_exists fs' root = false ->
  validate_preconditions fs actions root ps s = validate_preconditions fs' actions root ps s.
Proof.
  intros Hr Hr'. unfold validate_preconditions, validate_validation_action_constraints, validate_repair_action_legality, validate_bootstrap, planner_workspace_presence, select_bootstrap_command.
  by rewrite Hr, Hr'.
Qed.
Definition no_files (p : bytes) : option FileTree := None.
(** The action that fits a state: the repair of its first precondition, or the
    validation when there is none. *)
Definition fitting_action (s : PlannerJudgmentState.t) : bool :=
  match planner_preconditions_for_state s with [] => same (PlannerJudgmentState.action s) PlannerActionCase.ValidateCargoCheck | _ => planner_action_matches_primary_intent s end.

(** C21: in every valid state of the workspace exactly one of the eleven
    candidate batches passes the preconditions: the one that repairs the first
    precondition, or the validation when nothing is to be repaired; provided the
    target directory is not on disk, so that the summary is believed. *)
Theorem one_action_per_state fs : path_exists fs ROOT = false -> forall s, valid_planner_judgment_state s = true -> judged_ok (V := jval) fs s = fitting_action s.
Proof.
  intros Hr s Hs. unfold judged_ok. rewrite (validate_without_target fs no_files) by done. revert Hs.
  assert (Hall : forallb (fun s => negb (valid_planner_judgment_state s) || Bool.eqb (judged_ok (V := jval) no_files s) (fitting_action s)) planner_states = true) by reflexivity.
  rewrite forallb_forall in Hall. specialize (Hall s (proj1 (list_elem_of_In _ _) (planner_states_complete s))). intros Hs. rewrite Hs in Hall. by apply eqb_prop in Hall.
Qed.
Lemma one_action_per_state_witness : judged_ok (V := jval) no_files
  (PlannerJudgmentState.mk PlannerPathState.Present PlannerCargoState.Present PlannerEntrypointState.Main PlannerModuleGapState.Present PlannerHintState.TraitBound PlannerActionCase.FixTraitBoundFailure) = false.
Proof. rewrite (one_action_per_state no_files); [reflexivity|reflexivity|reflexivity]. Defined.

(** ** The verdicts *)

Section Verdicts.
Context (fs : bytes -> option FileTree) (json_text : jval -> string) (show_f32 : f32 -> string) (artifact_dir : bytes) (names : list bytes) (policy : DestructiveCmdPolicy).
Definition refuted (rows : list (TransitionRow jval)) : list string :=
  row_name <$> filter (fun row => assert_transition_row fs json_text show_f32 artifact_dir names policy row = None) rows.
Lemma refuted_app l k : refuted (l ++ k)%list = (refuted l ++ refuted k)%list.
Proof. unfold refuted. by rewrite filter_app, fmap_app. Qed.
(** The expected verdict of a generated planner row is what the evaluator says. *)
Lemma planner_rows_pass : refuted (RowPlannerJudgment <$> planner_judgment_rows fs) = [].
Proof.
  unfold refuted. rewrite filter_none; [done|]. intros row (r & -> & (s & -> & _)%list_elem_of_fmap)%list_elem_of_fmap. cbn [assert_transition_row]. unfold assert_planner_judgment_row, assert_eq.
  by rewrite bool_decide_eq_true_2.
Qed.
(** The rows whose expectations no evaluator meets any more. *)
Definition refuted_names : list string :=
  ["bootstrap_refresh_observe"; "done_verify"; "semantic_progress_verify"; "no_semantic_progress_plan"; "continue_act"; "planned_to_act"; "missing_observed_context_observe";
   "repeat_observe_forces_plan"; "missing_target_forces_plan"; "cycle_cap_with_verify_failure_to_plan"; "cycle_cap_without_failure_to_observe"; "accepted_plan_without_rewrite";
   "dispatch_suppress_halted"; "dispatch_suppress_context_not_ready"; "dispatch_suppress_pending_request"; "dispatch_suppress_duplicate_current_control"; "dispatch_missing_target_plan"; "dispatch_invalid_plan_replan";
   "emit_duplicate_before_successor"; "emit_illegal_control_reentry"; "emit_wrong_expected_successor"; "cache_invalidate_observe"; "cache_suppress_duplicate_prompt";
   "emit_effect_observe_clears_deterministic_sentinel"; "emit_effect_conclude_halts"; "runtime_suppress_observe_on_pending_successor"; "recovery_event_reward_skip_satisfied";
   "run_command_bootstrap_success"; "run_command_validation_failure_compiler"; "run_command_bootstrap_selection_mismatch"; "run_command_validation_success"; "run_command_semantic_failure"; "run_command_other";
   "apply_patch_success"; "apply_patch_missing_target_file"; "apply_patch_patch_apply_failure"; "apply_patch_other_failure";
   "verify_compiler_failure"; "verify_passed"; "verifier_policy_updated_failed_no_compiler_signal"; "route_recovery_emit_expected_successor"].

(** The verdicts on the repository's own table of scenarios, whatever is on
    disk: asserting it panics, and the rows that fail are those listed and the
    rows on the actionability of a semantic state.  All but two of them are
    rows of the router, whose policy answers with constants and whose decisions
    can no longer be built; the two are the rows of the loop that need the
    successor the checks drop.  The rows of the planner and of the objectives
    hold, and so do the other rows of the loop and of the router. *)
Lemma matrix_verdicts : let rows := baseline_transition_rows fs in
  refuted rows = (refuted_names ++ (RouteSemanticActionabilityRow.name <$> route_semantic_actionability_rows))%list /\
  (length rows = 281 /\ length (refuted rows) = 72) /\
  assert_transition_rows fs json_text show_f32 artifact_dir names policy rows = None.
Proof.
  cbv zeta. assert (Hr : refuted (baseline_transition_rows fs) = (refuted_names ++ (RouteSemanticActionabilityRow.name <$> route_semantic_actionability_rows))%list).
  { unfold baseline_transition_rows. rewrite !refuted_app, planner_rows_pass. reflexivity. }
  split_and!; [exact Hr| |by rewrite Hr|reflexivity]. unfold baseline_transition_rows. rewrite !length_app, !length_fmap. unfold planner_judgment_rows. rewrite length_fmap. reflexivity.
Qed.
End Verdicts.

(** ** Coverage of the baseline *)

(** Rows that differ only in the verdict. *)
Definition same_scenario {V} (x y : TransitionRow V) : Prop := row_name x = row_name y /\ forall r, cover r x = cover r y.
Lemma Forall2_same {V} (l : list (TransitionRow V)) : Forall2 same_scenario l l.
Proof. induction l; by constructor. Qed.
Lemma baseline_same fs fs' : Forall2 same_scenario (baseline_transition_rows (V := jval) fs) (baseline_transition_rows fs').
Proof.
  unfold baseline_transition_rows. apply Forall2_app; [apply Forall2_same|]. apply Forall2_app; [|apply Forall2_same]. unfold planner_judgment_rows. induction (filter _ planner_states); by constructor.
Qed.
Lemma names_same {V} (l k : list (TransitionRow V)) : Forall2 same_scenario l k -> row_name <$> l = row_name <$> k.
Proof. induction 1 as [|x y l k [Hn _] _ IH]; [done|]. by rewrite !fmap_cons, Hn, IH. Qed.
Lemma coverage_same {V} (l k : list (TransitionRow V)) : Forall2 same_scenario l k -> coverage_report l = coverage_report k.
Proof.
  intros Hl. unfold coverage_report. replace (foldl cover coverage_default l) with (foldl cover coverage_default k); [done|]. generalize coverage_default.
  induction Hl as [|x y l k [_ Hc] _ IH]; intros r; [done|]. cbn [foldl]. by rewrite Hc, IH.
Qed.

Lemma route_families_covered f : f ∈ cr_route_covered (coverage_report (baseline_transition_rows (V := jval) no_files)) <-> f <> RouteScenarioFamily.SuccessorConsumesAwaiting.
Proof.
  assert (Hc : forall f, bool_decide (f ∈ cr_route_covered (coverage_report (baseline_transition_rows (V := jval) no_files))) = bool_decide (f <> RouteScenarioFamily.SuccessorConsumesAwaiting)).
  { set (l := cr_route_covered _). vm_compute in l. intros []; reflexivity. }
  rewrite <- (bool_decide_eq_true (f ∈ _)), <- (bool_decide_eq_true (f <> _)). by rewrite Hc.
Qed.
(** Each state occurs once in the enumeration, and its printed form says which
    it is, so the generated names are distinct; no other name starts like them. *)
Ltac field_of Hy := repeat (apply list_elem_of_bind in Hy as (? & Hy & _)); apply list_elem_of_singleton in Hy; subst.
Ltac each_once := apply NoDup_bind; [intros ? ? ? _ _ Hy Hy'; field_of Hy; field_of Hy'; by simplify_eq|intros ? _|apply (bool_decide_eq_true_1 (NoDup _)); reflexivity].
Lemma planner_states_NoDup : NoDup planner_states.
Proof. unfold planner_states. do 6 each_once. apply NoDup_singleton. Qed.
Lemma append_same (t x y : string) : t +:+ x = t +:+ y -> x = y.
Proof. induction t as [|b t IH]; intros Hxy; [exact Hxy|]. injection Hxy as Hxy. by apply IH. Qed.
(** Names that are read back from the front of a text. *)
Definition prefix_free {A} (name : A -> string) : Prop := forall x y r r', name x +:+ r = name y +:+ r' -> x = y /\ r = r'.
Ltac names_differ := intros x y r r'; destruct x, y; intros Hs; first [discriminate Hs|split; [reflexivity|exact (append_same _ _ _ Hs)]].
Lemma path_names : prefix_free PlannerPathState.debug.
Proof. names_differ. Qed.
Lemma cargo_names : prefix_free PlannerCargoState.debug.
Proof. names_differ. Qed.
Lemma entrypoint_names : prefix_free PlannerEntrypointState.debug.
Proof. names_differ. Qed.
Lemma gap_names : prefix_free PlannerModuleGapState.debug.
Proof. names_differ. Qed.
Lemma hint_names : prefix_free PlannerHintState.debug.
Proof. names_differ. Qed.
Lemma action_names : prefix_free PlannerActionCase.debug.
Proof. names_differ. Qed.
Lemma planner_debug_inj s s' : planner_debug s = planner_debug s' -> s = s'.
Proof.
  destruct s as [p c e g h a], s' as [p' c' e' g' h' a']. unfold planner_debug. intros Hs%append_same.
  destruct (path_names _ _ _ _ Hs) as [E1 Hs1%append_same]. destruct (cargo_names _ _ _ _ Hs1) as [E2 Hs2%append_same]. destruct (entrypoint_names _ _ _ _ Hs2) as [E3 Hs3%append_same].
  destruct (gap_names _ _ _ _ Hs3) as [E4 Hs4%append_same]. destruct (hint_names _ _ _ _ Hs4) as [E5 Hs5%append_same]. destruct (action_names _ _ _ _ Hs5) as [E6 _]. cbn in *. by subst.
Qed.
Definition planner_prefix : string := "planner_judgment_".
Lemma names_distinct : NoDup (row_name <$> baseline_transition_rows (V := jval) no_files).
Proof.
  unfold baseline_transition_rows. rewrite !fmap_app, Permutation_app_swap_app, <- fmap_app. apply NoDup_app. split_and!.
  - unfold planner_judgment_rows. rewrite <- !list_fmap_compose. apply NoDup_fmap_2; [|apply NoDup_filter, planner_states_NoDup].
    intros s s' Hs. apply planner_debug_inj, (append_same planner_prefix). exact Hs.
  - intros n Hp Hn. assert (Ho : forallb (fun n => negb (String.prefix planner_prefix n)) (row_name <$> (policy_rows ++ objective_rows)%list) = true) by reflexivity.
    rewrite forallb_forall in Ho. specialize (Ho n (proj1 (list_elem_of_In _ _) Hn)). apply list_elem_of_fmap in Hp as (row & -> & (r & -> & (s & -> & _)%list_elem_of_fmap)%list_elem_of_fmap). done.
  - apply (bool_decide_eq_true_1 (NoDup _)). reflexivity.
Qed.

(** the table is complete for its own families: every listed family of
    every kind has a row, the names of the rows are distinct, the generated rows
    are those of the valid states, one each, with the counts the tests of the
    crate expect; only [SuccessorConsumesAwaiting], which is declared but not
    listed, has no row. *)
Theorem matrix_coverage fs : let rows := baseline_transition_rows (V := jval) fs in let r := coverage_report rows in
  (cr_route_missing r = [] /\ cr_loop_missing r = [] /\ cr_run_command_missing r = [] /\ cr_apply_patch_missing r = [] /\ cr_verify_missing r = [] /\
   cr_invalid_plan_retry_missing r = [] /\ cr_judgment_missing r = []) /\
  (cr_planner_generated_total r = 1056 /\ cr_planner_generated_valid r = 165 /\ cr_route_generated_total r = 64 /\ cr_route_generated_valid r = 33)%N /\
  NoDup (row_name <$> rows) /\
  (forall f, f ∈ cr_route_covered r <-> f <> RouteScenarioFamily.SuccessorConsumesAwaiting) /\
  (forall row, row ∈ planner_judgment_rows (V := jval) fs <-> exists s, valid_planner_judgment_state s = true /\ row = planner_judgment_row fs s) /\
  (length (planner_judgment_rows (V := jval) fs) = 165 /\ length route_semantic_actionability_rows = 31).
Proof.
  cbv zeta. rewrite (coverage_same _ _ (baseline_same fs no_files)), (names_same _ _ (baseline_same fs no_files)).
  split; [by split_and!|]. split; [by split_and!|]. split; [apply names_distinct|]. split; [apply route_families_covered|]. split.
  - intros row. split; [intros (s & -> & [Hs _]%list_elem_of_filter)%list_elem_of_fmap; by exists s|]. intros (s & Hs & ->). apply list_elem_of_fmap. exists s. split; [done|].
    apply list_elem_of_filter. split; [done|apply planner_states_complete].
  - split; [|reflexivity]. unfold planner_judgment_rows. by rewrite length_fmap.
Qed.
