(* ===== verification/RepairControl.v ===== *)
(** * The repair controller
    ([canon-runtime/src/consumers/repair_control_consumer.rs])

    A consumer that reads every event, extracts a semantic signal, and moves
    between phases of a repair; pairs of phase and signal that were entered too
    often are regions it escapes from by declaring itself stuck.  A panic is
    [None]: the asserts and the overflow of counters in a build with debug
    assertions ([debug]); without them the counters wrap.

    The theorems: how often its phases can be worked through, what happens to a
    healthy run, how a stuck controller is freed, what its history records. *)
From Stdlib Require Import Floats.SpecFloat.
From S2P Require Import Prelude Json Text PatchParser TextFormat Wire SemanticState SemanticText Gatekeeper Objectives ConstraintEngine EventShape KernelTypes Events EventBus.
Open Scope string_scope.

(** ** Signals, phases, regions *)

Inductive SemanticSignal : Set :=
| MissingTarget | PlannedToAct | NoopSpam | InvariantViolation | InvalidToolSelection | ReplanRequired | CompilerClean | StagnantLoop | EscapeDetected | ActStall | ControlDesync.
#[export] Instance SemanticSignal_eq_dec : EqDecision SemanticSignal.
Proof. solve_decision. Defined.
Definition signal_str (s : SemanticSignal) : string :=
  match s with
  | MissingTarget => "missing_target" | PlannedToAct => "planned_to_act" | NoopSpam => "noop_spam" | InvariantViolation => "invariant_violation"
  | InvalidToolSelection => "invalid_tool_selection" | ReplanRequired => "replan_required" | CompilerClean => "compiler_clean" | StagnantLoop => "stagnant_loop"
  | EscapeDetected => "escape_detected" | ActStall => "act_stall" | ControlDesync => "control_desync"
  end.
Inductive RepairPhase : Set := Observing | Classifying | Transitioning | Verifying | Stuck.
#[export] Instance RepairPhase_eq_dec : EqDecision RepairPhase.
Proof. solve_decision. Defined.
Definition phase_str (p : RepairPhase) : string :=
  match p with Observing => "observing" | Classifying => "classifying" | Transitioning => "transitioning" | Verifying => "verifying" | Stuck => "stuck" end.

Record IllegalRegion := MkRegion { ir_phase : RepairPhase; ir_signal : SemanticSignal; ir_tick_first : N; ir_entry_count : N }.
Record TransitionRecord := MkRecord { tr_tick : N; tr_from_phase : RepairPhase; tr_signal : SemanticSignal; tr_to_phase : RepairPhase }.
Definition NOOP_SPAM_WINDOW : nat := 4.
Definition STAGNANT_TICKS_THRESHOLD : N := 4.
Definition ILLEGAL_REGION_THRESHOLD : N := 3.
Definition TOOL_REJECT_THRESHOLD : N := 2.

Record RepairControl := MkRepair {
  rp_emitter : bool; rp_phase : RepairPhase; rp_tick : N; rp_recent_acted_kinds : list string; rp_pending_plan_action_kind : option string;
  rp_consecutive_tool_rejections : N; rp_illegal_regions : list IllegalRegion; rp_transition_history : list TransitionRecord
}.
#[export] Instance RepairControl_eta : Eta RepairControl := fun r =>
  MkRepair (rp_emitter r) (rp_phase r) (rp_tick r) (rp_recent_acted_kinds r) (rp_pending_plan_action_kind r) (rp_consecutive_tool_rejections r) (rp_illegal_regions r) (rp_transition_history r).
Definition repair_new : RepairControl := MkRepair false Observing 0 [] None 0 [] [].
Definition set_emitter (c : RepairControl) : RepairControl := c <| rp_emitter := true |>.

(** ** Signals of events *)

Section Controller.
Context {V : Type} `{Json V}.
Context (debug : bool).
Implicit Types (c : RepairControl) (e : RuntimeEvent.t V).

(** [n += 1] on [u32]. *)
Definition incr32 (n : N) : option N := if (n <? u32_max)%N then Some (n + 1)%N else if debug then None else Some 0%N.

Definition acted_signal (a : LoopActed.t) c : RepairControl * option SemanticSignal :=
  let kind := LoopActed.action_kind a in
  let kinds := (rp_recent_acted_kinds c ++ [kind])%list in
  let kinds := if (NOOP_SPAM_WINDOW <? length kinds)%nat then drop 1 kinds else kinds in
  let matched := bool_decide (rp_pending_plan_action_kind c = Some kind) in
  let c := c <| rp_tick := LoopActed.tick a |> <| rp_recent_acted_kinds := kinds |> <| rp_pending_plan_action_kind := None |> in
  if (NOOP_SPAM_WINDOW <=? length kinds)%nat && forallb (String.eqb kind) kinds then (c, Some NoopSpam)
  else (c, if matched then Some PlannedToAct else None).
(** Both for refused calls and for failed results. *)
Definition on_tool (ok : bool) c : option (RepairControl * option SemanticSignal) :=
  if ok then Some (c <| rp_consecutive_tool_rejections := 0%N |>, None)
  else
    n ← incr32 (rp_consecutive_tool_rejections c);
    Some (c <| rp_consecutive_tool_rejections := n |>, if (TOOL_REJECT_THRESHOLD <=? n)%N then Some InvalidToolSelection else None).
Definition error_signal (err : ErrorOccurred.t V) : option SemanticSignal :=
  let src := ErrorOccurred.source err in
  let kind := ErrorOccurred.kind err in
  let msg := to_ascii_lowercase (ErrorOccurred.message err) in
  if String.eqb kind "act_stall" || str_contains "scheduler is empty" msg then Some ActStall
  else if String.eqb kind "control_desync" || str_contains "missing required successor" msg || str_contains "expected=loop_acted; got=planning_completed" msg then Some ControlDesync
  else if str_contains "invariant" src || str_contains "constraint" src then Some InvariantViolation
  else if str_contains "missing_target" src || str_contains "no_target" src then Some MissingTarget
  else if str_contains "replan" src || str_contains "route_rewrite" src then Some ReplanRequired
  else None.
Definition extract_signal e c : option (RepairControl * option SemanticSignal) :=
  match e with
  | RuntimeEvent.LoopObserved o =>
      let s := LoopObserved.semantic_summary o in
      Some (c <| rp_tick := LoopObserved.tick o |>,
        if negb (ss_path_exists s) || bool_decide (ss_entrypoint_kind s = None) || negb (bool_decide (ss_module_gaps s = [])) then Some MissingTarget else None)
  | RuntimeEvent.LoopPlanned p => Some (c <| rp_tick := LoopPlanned.tick p |> <| rp_pending_plan_action_kind := Some (LoopPlanned.action_kind p) |>, None)
  | RuntimeEvent.LoopActed a => Some (acted_signal a c)
  | RuntimeEvent.LoopVerified v =>
      Some (c <| rp_tick := LoopVerified.tick v |>,
        if LoopVerified.compiler_clean v && LoopVerified.passed v then Some CompilerClean else if negb (LoopVerified.passed v) then Some ReplanRequired else None)
  | RuntimeEvent.LoopRewarded w =>
      Some (c <| rp_tick := LoopRewarded.tick w |>,
        if LoopRewarded.halt w then Some ReplanRequired
        else if (STAGNANT_TICKS_THRESHOLD <=? LoopRewarded.stagnant_ticks w)%N && f32_le (LoopRewarded.delta_g w) (f32_of_Z 0) then Some StagnantLoop else None)
  | RuntimeEvent.RouteSelected r => Some (c, if RouteSelected.gate_changed r || RouteSelected.gate_should_stop r then Some ReplanRequired else None)
  | RuntimeEvent.ToolCall t => on_tool (ToolCall.accepted t) c
  | RuntimeEvent.ToolResult t => on_tool (ToolResult.success t) c
  | RuntimeEvent.ErrorOccurred err => Some (c, error_signal err)
  | _ => Some (c, None)
  end.

(** ** Regions and transitions *)

Definition in_region (p : RepairPhase) (s : SemanticSignal) (r : IllegalRegion) : bool := bool_decide (ir_phase r = p) && bool_decide (ir_signal r = s).
Definition is_illegal_region (p : RepairPhase) (s : SemanticSignal) c : bool :=
  existsb (fun r => in_region p s r && (ILLEGAL_REGION_THRESHOLD <=? ir_entry_count r)%N) (rp_illegal_regions c).
(** The first region found is counted up, or a new one is appended. *)
Fixpoint enter_region (tick : N) (p : RepairPhase) (s : SemanticSignal) (l : list IllegalRegion) : option (list IllegalRegion) :=
  match l with
  | [] => Some [MkRegion p s tick 1]
  | r :: l' =>
      if in_region p s r then n ← incr32 (ir_entry_count r); Some (MkRegion (ir_phase r) (ir_signal r) (ir_tick_first r) n :: l')
      else l'' ← enter_region tick p s l'; Some (r :: l'')
  end.
Definition record_entry_into_region (p : RepairPhase) (s : SemanticSignal) c : option RepairControl :=
  l ← enter_region (rp_tick c) p s (rp_illegal_regions c); Some (c <| rp_illegal_regions := l |>).
Definition record_transition (s : SemanticSignal) (to : RepairPhase) c : option RepairControl :=
  if String.eqb (phase_str (rp_phase c)) "act" && bool_decide (to = Classifying) then
    if debug then None
    else Some (c <| rp_transition_history ::= fun l => (l ++ [MkRecord (rp_tick c) (rp_phase c) s Stuck])%list |>)
  else
    let l := (rp_transition_history c ++ [MkRecord (rp_tick c) (rp_phase c) s to])%list in
    Some (c <| rp_transition_history := if (256 <? length l)%nat then drop 1 l else l |>).
(** The table, with the note of each row. *)
Definition transition (p : RepairPhase) (s : SemanticSignal) : option (RepairPhase * string) :=
  match p, s with
  | Observing, MissingTarget => Some (Classifying, "missing_target_enter_classifying")
  | Observing, InvariantViolation => Some (Classifying, "invariant_violation_enter_classifying")
  | Observing, ActStall => Some (Classifying, "act_stall_enter_classifying")
  | Observing, ControlDesync => Some (Classifying, "control_desync_enter_classifying")
  | Observing, StagnantLoop => Some (Classifying, "stagnant_loop_enter_classifying")
  | Observing, CompilerClean => Some (Observing, "compiler_clean_stay_observing")
  | Observing, _ => None
  | Classifying, PlannedToAct => Some (Transitioning, "plan_accepted_begin_transition")
  | Classifying, NoopSpam => Some (Stuck, "noop_spam_enter_stuck")
  | Classifying, InvalidToolSelection => Some (Classifying, "invalid_tool_replan")
  | Classifying, ReplanRequired => Some (Classifying, "replan_stay_classifying")
  | Classifying, ActStall => Some (Classifying, "act_stall_force_replan")
  | Classifying, ControlDesync => Some (Classifying, "control_desync_force_replan")
  | Classifying, CompilerClean => Some (Observing, "compiler_clean_recovered")
  | Classifying, InvariantViolation => Some (Classifying, "invariant_violation_classifying")
  | Classifying, _ => None
  | Transitioning, InvariantViolation => Some (Classifying, "invariant_violation_rejects_transition")
  | Transitioning, PlannedToAct => Some (Verifying, "transition_acted_now_verifying")
  | Transitioning, EscapeDetected => Some (Stuck, "escape_detected_in_transition")
  | Transitioning, ActStall => Some (Classifying, "act_stall_recover_to_classifying")
  | Transitioning, ControlDesync => Some (Classifying, "control_desync_recover_to_classifying")
  | Transitioning, CompilerClean => Some (Observing, "compiler_clean_in_transition")
  | Transitioning, ReplanRequired => Some (Classifying, "replan_during_transition")
  | Transitioning, NoopSpam => Some (Stuck, "noop_spam_in_transition")
  | Transitioning, _ => None
  | Verifying, CompilerClean => Some (Observing, "verify_passed_success")
  | Verifying, ReplanRequired => Some (Classifying, "verify_failed_retry")
  | Verifying, InvariantViolation => Some (Classifying, "invariant_violation_in_verifying")
  | Verifying, ActStall => Some (Classifying, "act_stall_from_verifying")
  | Verifying, ControlDesync => Some (Classifying, "control_desync_from_verifying")
  | Verifying, _ => None
  | Stuck, EscapeDetected => Some (Stuck, "escape_blocked_still_stuck")
  | Stuck, ReplanRequired => Some (Classifying, "stuck_fresh_replan")
  | Stuck, CompilerClean => Some (Observing, "stuck_then_clean_recovered")
  | Stuck, ActStall => Some (Stuck, "act_stall_stuck")
  | Stuck, ControlDesync => Some (Stuck, "control_desync_stuck")
  | Stuck, _ => None
  end.
Definition acting (p : RepairPhase) : bool := match p with Transitioning | Verifying => true | _ => false end.
Definition follow_table (s : SemanticSignal) c : option (RepairControl * option (string * string)) :=
  if acting (rp_phase c) && bool_decide (s = ActStall) then
    if debug then None else Some (c, Some ("act_stall_blocked_in_act_phase", phase_str (rp_phase c)))
  else
    match transition (rp_phase c) s with
    | None => Some (c, None)
    | Some (next, note) =>
        if bool_decide (next = rp_phase c) then Some (c, Some (note, phase_str next))
        else c ← record_transition s next c; Some (c <| rp_phase := next |>, Some (note, phase_str next))
    end.
Definition advance (s : SemanticSignal) c : option (RepairControl * option (string * string)) :=
  c ← record_entry_into_region (rp_phase c) s c;
  if is_illegal_region (rp_phase c) s c && negb (bool_decide (rp_phase c = Stuck)) then
    c ← record_transition s Stuck c;
    Some (c <| rp_phase := Stuck |>, Some ("illegal_region_escalation", phase_str Stuck))
  else follow_table s c.
Definition check_escape e c : bool :=
  bool_decide (rp_phase c = Stuck) && match e with RuntimeEvent.LoopPlanned _ | RuntimeEvent.LoopActed _ => true | _ => false end.

(** ** The consumer *)

(** The place of a call and a fresh identifier. *)
Context (site : string -> string * N) (fresh : string).
Definition emit_transition_debug (trigger : EventId) (s : SemanticSignal) (note to_phase : string) c : EventOutcome V * list (LocatedEvent V) :=
  if negb (rp_emitter c) then (NoOp "repair_control_no_emitter", [])
  else
    let payload := jobj {[ "signal" := jstr (signal_str s); "to_phase" := jstr to_phase; "note" := jstr note; "tick" := jnum (rp_tick c);
                           "illegal_regions" := jnum (lenN (rp_illegal_regions c)) ]} in
    let '(file, line) := site "emit_transition_debug" in
    (NoOp "repair_control_debug_emitted", [MkLocated (RuntimeEvent.Debug (DebugEvent.mk "repair_control_consumer" "repair_transition" payload)) file line [trigger]]).
Definition emit_violation (s : SemanticSignal) (note : string) c : EventOutcome V :=
  let context := jobj {[ "signal" := jstr (signal_str s); "phase" := jstr (phase_str (rp_phase c)); "tick" := jnum (rp_tick c);
                         "illegal_regions" := jnum (lenN (rp_illegal_regions c)); "transition_count" := jnum (lenN (rp_transition_history c)) ]} in
  let '(file, line) := site "emit_violation" in
  OutcomeError (RuntimeEvent.ErrorOccurred (new_error_occurred "repair_control_consumer" "repair_control_consumer" note "warning" context None fresh)) file line.
Definition repair_on_event (trigger : EventId) e c : option (RepairControl * EventOutcome V * list (LocatedEvent V)) :=
  if check_escape e c then
    '(c, _) ← advance EscapeDetected c;
    Some (c, emit_violation EscapeDetected "repair_escape_detected_while_stuck" c, [])
  else
    '(c, signal) ← extract_signal e c;
    match signal with
    | None => Some (c, NoOp "repair_control_no_signal", [])
    | Some s =>
        '(c, moved) ← advance s c;
        match moved with
        | None => Some (c, NoOp "repair_control_no_transition", [])
        | Some (note, to_phase) =>
            if bool_decide (s = NoopSpam) && bool_decide (rp_phase c = Stuck) then Some (c, emit_violation s "repair_noop_spam_stuck" c, [])
            else if bool_decide (s = InvariantViolation) && bool_decide (rp_phase c = Stuck) then Some (c, emit_violation s "repair_invariant_violation_stuck" c, [])
            else let '(outcome, emitted) := emit_transition_debug trigger s note to_phase c in Some (c, outcome, emitted)
        end
    end.
End Controller.

(** ** Regions *)

Definition region_key (r : IllegalRegion) : RepairPhase * SemanticSignal := (ir_phase r, ir_signal r).
Lemma in_region_key p s r : in_region p s r = bool_decide (region_key r = (p, s)).
Proof. unfold in_region, region_key. repeat case_bool_decide; naive_solver. Qed.
(** The entries counted for a region. *)
Fixpoint count (k : RepairPhase * SemanticSignal) (l : list IllegalRegion) : N :=
  match l with [] => 0 | r :: l' => if bool_decide (region_key r = k) then ir_entry_count r else count k l' end.
Definition entries (k : RepairPhase * SemanticSignal) (c : RepairControl) : N := count k (rp_illegal_regions c).
(** Regions are listed once, and none was entered more than [n] times. *)
Definition regions_ok (n : N) (c : RepairControl) : Prop := NoDup (region_key <$> rp_illegal_regions c) /\ forall k, (entries k c <= n)%N.

Lemma count_absent k l : k ∉ (region_key <$> l) -> count k l = 0%N.
Proof. induction l as [|r l IH]; [done|]. rewrite fmap_cons, not_elem_of_cons. intros [Hk Hl]. cbn [count]. rewrite bool_decide_eq_false_2 by done. by apply IH. Qed.
Lemma existsb_count p s l t : NoDup (region_key <$> l) -> (0 < t)%N -> existsb (fun r => in_region p s r && (t <=? ir_entry_count r)%N) l = (t <=? count (p, s) l)%N.
Proof.
  intros Hl Ht. induction l as [|r l IH]; [symmetry; apply N.leb_gt; exact Ht|]. rewrite fmap_cons in Hl. apply NoDup_cons in Hl as [Hr Hl]. cbn [existsb count]. rewrite in_region_key.
  rewrite IH by done. case_bool_decide as Hk; [|done]. cbn [andb]. rewrite (count_absent (p, s) l) by by rewrite <- Hk. replace (t <=? 0)%N with false by (symmetry; apply N.leb_gt; exact Ht). by rewrite orb_false_r.
Qed.
Lemma illegal_iff p s c : NoDup (region_key <$> rp_illegal_regions c) -> is_illegal_region p s c = (ILLEGAL_REGION_THRESHOLD <=? entries (p, s) c)%N.
Proof. intros Hc. by apply existsb_count. Qed.
Lemma enter_region_count debug tick p s l : NoDup (region_key <$> l) -> (count (p, s) l < u32_max)%N -> exists l', enter_region debug tick p s l = Some l' /\
  NoDup (region_key <$> l') /\ (forall k, k ∈ (region_key <$> l') -> k = (p, s) \/ k ∈ (region_key <$> l)) /\
  forall k, count k l' = if bool_decide (k = (p, s)) then (count k l + 1)%N else count k l.
Proof.
  induction l as [|r l IH]; intros Hl Hc.
  { exists [MkRegion p s tick 1]. split_and!; [done|apply NoDup_singleton|intros k Hk%list_elem_of_singleton; by left|]. intros k. cbn. unfold region_key. cbn. repeat case_bool_decide; naive_solver. }
  rewrite fmap_cons in Hl. apply NoDup_cons in Hl as [Hr Hl]. cbn [enter_region count] in *. rewrite in_region_key. case_bool_decide as Hk.
  - unfold incr32. rewrite (proj2 (N.ltb_lt _ _) Hc). cbn [mbind option_bind]. eexists. split; [done|]. rewrite !fmap_cons. cbn [count].
    change (region_key (MkRegion (ir_phase r) (ir_signal r) (ir_tick_first r) (ir_entry_count r + 1))) with (region_key r). cbn [ir_entry_count].
    split_and!; [by apply NoDup_cons|by right|]. intros k. rewrite Hk. repeat case_bool_decide; naive_solver.
  - destruct (IH Hl Hc) as (l' & -> & Hl' & Hs & Hn). cbn [mbind option_bind]. eexists. split; [done|]. rewrite !fmap_cons. split_and!.
    + apply NoDup_cons. split; [|done]. intros Hin%Hs. destruct Hin as [Hin|Hin]; done.
    + intros k [->|[->|Hin]%Hs]%elem_of_cons; [right; apply list_elem_of_here|by left|right; by apply list_elem_of_further].
    + intros k. cbn [count]. rewrite Hn. repeat case_bool_decide; naive_solver.
Qed.

(** ** One step *)

(** A region is entered once more, the others are as before. *)
Definition entered (k : RepairPhase * SemanticSignal) (c c' : RepairControl) : Prop :=
  forall k', entries k' c' = if bool_decide (k' = k) then (entries k' c + 1)%N else entries k' c.
Lemma record_transition_spec debug s to c : exists c', record_transition debug s to c = Some c' /\
  c' = c <| rp_transition_history := let l := (rp_transition_history c ++ [MkRecord (rp_tick c) (rp_phase c) s to])%list in if (256 <? length l)%nat then drop 1 l else l |>.
Proof. unfold record_transition. destruct (rp_phase c); cbn [phase_str String.eqb andb]; eauto. Qed.
Lemma record_entry_spec debug p s c n : regions_ok n c -> (n < u32_max)%N -> exists l, record_entry_into_region debug p s c = Some (c <| rp_illegal_regions := l |>) /\
  regions_ok (n + 1) (c <| rp_illegal_regions := l |>) /\ entered (p, s) c (c <| rp_illegal_regions := l |>).
Proof.
  intros [Hd Hn] Hmax. pose proof (Hn (p, s)) as Hp. unfold entries in Hp. destruct (enter_region_count debug (rp_tick c) p s (rp_illegal_regions c)) as (l & Hl & Hd' & _ & Hc); [done|lia|].
  exists l. unfold record_entry_into_region. rewrite Hl. split; [done|]. assert (He : entered (p, s) c (c <| rp_illegal_regions := l |>)) by exact Hc. split; [|done]. split; [done|].
  intros k. rewrite He. specialize (Hn k). case_bool_decide; lia.
Qed.
(** The phase the table leads to; a stall while acting is blocked. *)
Definition next_phase (p : RepairPhase) (s : SemanticSignal) : RepairPhase := if acting p && bool_decide (s = ActStall) then p else from_option fst p (transition p s).
Definition phase_after (s : SemanticSignal) (c : RepairControl) : RepairPhase :=
  if negb (bool_decide (rp_phase c = Stuck)) && (2 <=? entries (rp_phase c, s) c)%N then Stuck else next_phase (rp_phase c) s.
Lemma follow_table_spec debug s c :
  match follow_table debug s c with
  | None => debug = true /\ acting (rp_phase c) = true /\ s = ActStall
  | Some (c', _) => rp_illegal_regions c' = rp_illegal_regions c /\ rp_phase c' = next_phase (rp_phase c) s
  end.
Proof.
  unfold follow_table, next_phase. destruct (acting (rp_phase c) && bool_decide (s = ActStall)) eqn:Ha.
  { apply andb_true_iff in Ha as [Ha Hs%bool_decide_eq_true_1]. by destruct debug. }
  destruct (transition (rp_phase c) s) as [[next note]|]; [|done]. cbn [from_option fst]. clear Ha. case_bool_decide as Hn; [cbv beta iota; split; [done|congruence]|]. destruct (record_transition_spec debug s next c) as (c' & -> & ->). cbn. done.
Qed.
(** What one signal does: its region is counted; outside [Stuck] the third entry
    leads there; only the blocked stall panics. *)
Lemma advance_spec debug s c n : regions_ok n c -> (n < u32_max)%N ->
  match advance debug s c with
  | None => debug = true /\ acting (rp_phase c) = true /\ s = ActStall
  | Some (c', _) => regions_ok (n + 1) c' /\ entered (rp_phase c, s) c c' /\ rp_phase c' = phase_after s c
  end.
Proof.
  intros Hok Hmax. unfold advance, phase_after. destruct (record_entry_spec debug (rp_phase c) s c n Hok Hmax) as (l & -> & Hok' & He). cbn [mbind option_bind]. set (c1 := c <| rp_illegal_regions := l |>) in *.
  change (rp_phase c1) with (rp_phase c). rewrite illegal_iff by apply Hok'. rewrite (He (rp_phase c, s)), bool_decide_eq_true_2 by done.
  replace (ILLEGAL_REGION_THRESHOLD <=? entries (rp_phase c, s) c + 1)%N with (2 <=? entries (rp_phase c, s) c)%N by (unfold ILLEGAL_REGION_THRESHOLD; destruct (N.leb_spec 2 (entries (rp_phase c, s) c)), (N.leb_spec 3 (entries (rp_phase c, s) c + 1)); (done || lia)).
  rewrite andb_comm. destruct (_ && _).
  - destruct (record_transition_spec debug s Stuck c1) as (c' & -> & ->). cbn [mbind option_bind]. split; [exact Hok'|]. split; [exact He|done].
  - pose proof (follow_table_spec debug s c1) as Hf. change (rp_phase c1) with (rp_phase c) in Hf. destruct (follow_table debug s c1) as [[c' m]|]; [|exact Hf]. destruct Hf as [Hr Hp].
    assert (Hk : forall k, entries k c' = entries k c1) by (intros k; unfold entries; by rewrite Hr). split; [split; [rewrite Hr; apply Hok'|intros k; rewrite Hk; apply Hok']|].
    split; [intros k; rewrite Hk; apply He|exact Hp].
Qed.

(** The history with one more record, of at most 256. *)
Definition pushed (r : TransitionRecord) (l : list TransitionRecord) : list TransitionRecord := let l := (l ++ [r])%list in if (256 <? length l)%nat then drop 1 l else l.
(** What a signal changes besides the regions: the phase, together with a record
    of the step. *)
Definition moved (s : SemanticSignal) (c c' : RepairControl) : Prop :=
  rp_tick c' = rp_tick c /\ rp_pending_plan_action_kind c' = rp_pending_plan_action_kind c /\
  (rp_phase c' = rp_phase c /\ rp_transition_history c' = rp_transition_history c \/
   rp_phase c' <> rp_phase c /\ rp_transition_history c' = pushed (MkRecord (rp_tick c) (rp_phase c) s (rp_phase c')) (rp_transition_history c) /\
   (rp_phase c' = Stuck \/ exists note, transition (rp_phase c) s = Some (rp_phase c', note))).
Lemma follow_table_moved debug s c c' m : follow_table debug s c = Some (c', m) -> moved s c c'.
Proof.
  unfold follow_table. destruct (_ && _); [destruct debug; intros [= <- <-]; by repeat split; left|]. destruct (transition (rp_phase c) s) as [[next note]|] eqn:Ht; [|intros [= <- <-]; by repeat split; left].
  case_bool_decide as Hn; [intros [= <- <-]; by repeat split; left|]. destruct (record_transition_spec debug s next c) as (c1 & -> & ->). cbn [mbind option_bind]. intros [= <- <-].
  split_and!; [done|done|]. right. split_and!; [done|done|]. right. by exists note.
Qed.
Lemma advance_moved debug s c c' m : advance debug s c = Some (c', m) -> moved s c c'.
Proof.
  unfold advance, record_entry_into_region. destruct (enter_region _ _ _ _ _) as [l|]; cbn [mbind option_bind]; [|done]. set (c1 := c <| rp_illegal_regions := l |>). destruct (_ && _) eqn:Hi.
  - apply andb_true_iff in Hi as [_ Hp]. apply negb_true_iff, bool_decide_eq_false in Hp. destruct (record_transition_spec debug s Stuck c1) as (c2 & -> & ->). cbn [mbind option_bind]. intros [= <- <-].
    split_and!; [done|done|]. right. split_and!; [intros Hs; by apply Hp|done|by left].
  - intros Hf. by apply follow_table_moved in Hf.
Qed.

(** ** Events *)

Section Runs.
Context {V : Type} `{Json V}.
Context (debug : bool) (site : string -> string * N) (fresh : string).
Implicit Types (c : RepairControl) (e : RuntimeEvent.t V).

(** What reading an event leaves alone. *)
Definition same_control c c' : Prop := rp_phase c' = rp_phase c /\ rp_illegal_regions c' = rp_illegal_regions c /\ rp_transition_history c' = rp_transition_history c.
Lemma on_tool_spec ok c : match on_tool debug ok c with None => debug = true | Some (c', s) => same_control c c' /\ s <> Some EscapeDetected end.
Proof. unfold on_tool, incr32. destruct ok; [done|]. destruct (_ <? _)%N; [|destruct debug; [done|]]; cbn; split; try done; by destruct (_ <=? _)%N. Qed.
Lemma error_signal_spec (err : ErrorOccurred.t V) : error_signal err <> Some EscapeDetected.
Proof. unfold error_signal. cbv zeta. by repeat destruct (_ || _). Qed.
Lemma extract_spec e c : match extract_signal debug e c with None => debug = true | Some (c', s) => same_control c c' /\ s <> Some EscapeDetected end.
Proof.
  destruct e; cbn [extract_signal]; try (split; [done|discriminate]); try apply on_tool_spec; try (split; [done|apply error_signal_spec]).
  all: try (split; [done|]; by repeat match goal with |- context [if ?b then _ else _] => destruct b end).
  unfold acted_signal. cbv zeta. destruct (_ && _); [done|]. split; [done|]. by case_bool_decide.
Qed.
(** The signal an event is handled as. *)
Definition carried e c : option SemanticSignal := if check_escape e c then Some EscapeDetected else extract_signal debug e c ≫= snd.
Lemma entries_same c c' : same_control c c' -> forall k, entries k c' = entries k c.
Proof. intros (_ & Hr & _) k. unfold entries. by rewrite Hr. Qed.
(** Every event: nothing but the region of its signal is counted, and a region
    entered for the third time outside [Stuck] leads there. *)
Lemma on_event_spec trigger e c n : regions_ok n c -> (n < u32_max)%N ->
  match repair_on_event debug site fresh trigger e c with
  | None => debug = true /\ (carried e c = None \/ carried e c = Some ActStall)
  | Some (c', _, _) => regions_ok (n + 1) c' /\
      match carried e c with
      | None => rp_phase c' = rp_phase c /\ forall k, entries k c' = entries k c
      | Some s => (rp_phase c <> Stuck -> s <> EscapeDetected) /\ entered (rp_phase c, s) c c' /\ rp_phase c' = phase_after s c
      end
  end.
Proof.
  intros Hok Hmax. unfold repair_on_event, carried. destruct (check_escape e c) eqn:Hesc.
  - pose proof (advance_spec debug EscapeDetected c n Hok Hmax) as Ha. destruct (advance debug EscapeDetected c) as [[c' m]|]; cbn [mbind option_bind]; [|by destruct Ha as (_ & _ & [=])].
    split; [tauto|]. split; [|tauto]. intros Hs. unfold check_escape in Hesc. by rewrite bool_decide_eq_false_2 in Hesc.
  - pose proof (extract_spec e c) as He. destruct (extract_signal debug e c) as [[c1 [s|]]|]; cbn [mbind option_bind snd]; [|destruct He as [He _]|by auto].
    + destruct He as [He Hs]. pose proof (entries_same c c1 He) as Hk. assert (Hok1 : regions_ok n c1) by (split; [rewrite (proj1 (proj2 He)); apply Hok|intros k; rewrite Hk; apply Hok]).
      pose proof (advance_spec debug s c1 n Hok1 Hmax) as Ha. assert (Hpa : phase_after s c1 = phase_after s c) by (unfold phase_after; by rewrite (proj1 He), Hk). rewrite Hpa, (proj1 He) in Ha. assert (Hent : forall c', entered (rp_phase c, s) c1 c' -> entered (rp_phase c, s) c c') by (intros c' Hc' k; by rewrite Hc', Hk).
      destruct (advance debug s c1) as [[c2 m]|]; cbn [mbind option_bind]; [|destruct Ha as (Hd & _ & ->); by auto]. assert (Hsd : rp_phase c <> Stuck -> s <> EscapeDetected) by congruence.
      destruct Ha as (Ha1 & Ha2 & Ha3). apply Hent in Ha2. destruct m as [[note to]|]; [|by split_and!]. do 2 (destruct (_ && _); [by split_and!|]). destruct (emit_transition_debug _ _ _ _ _ _) as [o em]. by split_and!.
    + split; [|split; [apply He|by apply entries_same]]. split; [rewrite (proj1 (proj2 He)); apply Hok|]. intros k. rewrite (entries_same c c1 He). pose proof (proj2 Hok k). lia.
Qed.

(** ** The budget *)

Definition work_phases : list RepairPhase := [Observing; Classifying; Transitioning; Verifying].
Definition work_signals : list SemanticSignal :=
  [MissingTarget; PlannedToAct; NoopSpam; InvariantViolation; InvalidToolSelection; ReplanRequired; CompilerClean; StagnantLoop; ActStall; ControlDesync].
Definition work_regions : list (RepairPhase * SemanticSignal) := work_phases ≫= fun p => (fun s => (p, s)) <$> work_signals.
Lemma work_regions_complete p s : p <> Stuck -> s <> EscapeDetected -> (p, s) ∈ work_regions.
Proof. intros Hp Hs. apply list_elem_of_bind. exists p. split; [apply list_elem_of_fmap; exists s; split; [done|]|]; [destruct s|destruct p]; first [done|repeat (apply list_elem_of_here || apply list_elem_of_further)]. Qed.
(** The entries the regions outside [Stuck] have left. *)
Definition budget c : nat := sum_list_with (fun k => 2 - N.to_nat (entries k c)) work_regions.
Lemma sum_le {A} (f g : A -> nat) l : (forall x, f x <= g x) -> sum_list_with f l <= sum_list_with g l.
Proof. intros Hfg. induction l as [|x l IH]; cbn [sum_list_with]; [lia|]. specialize (Hfg x). lia. Qed.
Lemma sum_lt {A} (f g : A -> nat) l x : (forall x, f x <= g x) -> x ∈ l -> f x < g x -> sum_list_with f l < sum_list_with g l.
Proof.
  intros Hfg. induction l as [|y l IH]; intros Hx Hlt; [by apply elem_of_nil in Hx|]. cbn [sum_list_with]. pose proof (Hfg y). apply elem_of_cons in Hx as [->|Hx]; [pose proof (sum_le f g l Hfg); lia|]. specialize (IH Hx Hlt). lia.
Qed.
Lemma budget_entered k c c' : entered k c c' -> budget c' <= budget c /\ (k ∈ work_regions -> (entries k c < 2)%N -> budget c' < budget c).
Proof.
  intros He. assert (Hle : forall k', 2 - N.to_nat (entries k' c') <= 2 - N.to_nat (entries k' c)) by (intros k'; rewrite He; case_bool_decide; lia).
  split; [by apply sum_le|]. intros Hk Hlt. apply (sum_lt _ _ _ k Hle Hk). rewrite He, bool_decide_eq_true_2 by done. lia.
Qed.

(** Events that carry a signal, find the controller at work and leave it so. *)
Fixpoint productive (es : list (EventId * RuntimeEvent.t V)) c : nat :=
  match es with
  | [] => 0
  | (trigger, e) :: es' =>
      match repair_on_event debug site fresh trigger e c with
      | None => 0
      | Some (c', _, _) => (if bool_decide (is_Some (carried e c)) && negb (bool_decide (rp_phase c = Stuck)) && negb (bool_decide (rp_phase c' = Stuck)) then 1 else 0) + productive es' c'
      end
  end%nat.
Lemma productive_budget es : forall c n, regions_ok n c -> (n + lenN es <= u32_max)%N -> productive es c <= budget c.
Proof.
  induction es as [|[trigger e] es IH]; intros c n Hok Hlen; [apply Nat.le_0_l|]. cbn [productive]. unfold lenN in *. cbn [length] in Hlen. pose proof (on_event_spec trigger e c n Hok ltac:(lia)) as Hs.
  destruct (repair_on_event debug site fresh trigger e c) as [[[c' o] em]|]; [|lia]. destruct Hs as [Hok' Hs]. specialize (IH c' (n + 1)%N Hok' ltac:(lia)). destruct (carried e c) as [s|].
  - destruct Hs as (Hesc & Hent & Hph). destruct (budget_entered _ _ _ Hent) as [Hle Hlt]. destruct (_ && _) eqn:Hb; [|lia]. apply andb_true_iff in Hb as [[_ Hp]%andb_true_iff Hp'].
    apply negb_true_iff, bool_decide_eq_false in Hp, Hp'. assert (Hent2 : (entries (rp_phase c, s) c < 2)%N) by (destruct (N.lt_ge_cases (entries (rp_phase c, s) c) 2) as [|Hge]; [done|]; exfalso; apply Hp'; rewrite Hph; unfold phase_after; rewrite bool_decide_eq_false_2 by done; by rewrite (proj2 (N.leb_le _ _) Hge)).
    specialize (Hlt (work_regions_complete _ _ Hp (Hesc Hp)) Hent2). lia.
  - destruct Hs as [_ Hk]. rewrite (bool_decide_eq_false_2 (is_Some None)) by (by intros [? [=]]). cbn [andb]. assert (Hb : budget c' <= budget c) by (apply sum_le; intros k; by rewrite Hk). lia.
Qed.
(** ** Runs *)

Fixpoint repair_run (es : list (EventId * RuntimeEvent.t V)) c : option RepairControl :=
  match es with [] => Some c | (trigger, e) :: es' => '(c, _, _) ← repair_on_event debug site fresh trigger e c; repair_run es' c end.
Lemma repair_run_app es es' c : repair_run (es ++ es')%list c = repair_run es c ≫= repair_run es'.
Proof. revert c. induction es as [|[trigger e] es IH]; intros c; [done|]. cbn [repair_run app]. destruct (repair_on_event _ _ _ _ _ _) as [[[c' o] em]|]; [apply IH|done]. Qed.
Lemma new_ok : regions_ok 0 repair_new.
Proof. split; [constructor|]. intros k. cbn. lia. Qed.
Lemma run_ok es : forall c n, regions_ok n c -> (n + lenN es <= u32_max)%N -> match repair_run es c with None => debug = true | Some c' => regions_ok (n + lenN es) c' end.
Proof.
  induction es as [|[trigger e] es IH]; intros c n Hok Hlen; [cbn; by rewrite N.add_0_r|]. cbn [repair_run]. unfold lenN in *. cbn [length] in *. pose proof (on_event_spec trigger e c n Hok ltac:(lia)) as Hs.
  destruct (repair_on_event debug site fresh trigger e c) as [[[c' o] em]|]; cbn [mbind option_bind]; [|tauto]. destruct Hs as [Hok' _]. specialize (IH c' (n + 1)%N Hok' ltac:(lia)).
  destruct (repair_run es c'); [|done]. by replace (n + N.of_nat (S (length es)))%N with (n + 1 + N.of_nat (length es))%N by lia.
Qed.

(** C18: the controller wears out.  Whatever events it reads, at most eighty of
    those that carry a signal find it at work and leave it at work: entries into
    a pair of phase and signal are counted for the life of the controller,
    successful ones included, and the third one outside [Stuck] leads there.
    Without debug assertions no event makes it panic. *)
Theorem repair_budget es : (lenN es <= u32_max)%N -> productive es repair_new <= 80 /\ (debug = false -> is_Some (repair_run es repair_new)).
Proof.
  intros Hlen. split; [exact (productive_budget es repair_new 0 new_ok Hlen)|]. intros Hd. pose proof (run_ok es repair_new 0 new_ok Hlen) as Hr. destruct (repair_run es repair_new); [done|congruence].
Qed.

(** *** A healthy run *)

Definition clean_verification (x : EventId * RuntimeEvent.t V) : Prop :=
  exists v, x.2 = RuntimeEvent.LoopVerified v /\ LoopVerified.compiler_clean v = true /\ LoopVerified.passed v = true.
Definition clean_phase (n : nat) : RepairPhase := if (n <? 3)%nat then Observing else if Nat.odd n then Stuck else Observing.
(** After [n] clean verifications. *)
Definition after_clean (n : nat) c : Prop :=
  regions_ok (N.of_nat n) c /\ rp_phase c = clean_phase n /\ N.to_nat (entries (Observing, CompilerClean) c) `min` 3 = n `min` 3.
Lemma clean_carried x c : clean_verification x -> carried x.2 c = Some CompilerClean.
Proof. intros (v & -> & Hc & Hp). unfold carried, check_escape. rewrite andb_false_r. cbn. by rewrite Hc, Hp. Qed.
Lemma clean_step n c c' s : after_clean n c -> regions_ok (N.of_nat (S n)) c' -> s = CompilerClean -> entered (rp_phase c, s) c c' -> rp_phase c' = phase_after s c -> after_clean (S n) c'.
Proof.
  intros (_ & Hp & He) Hok' -> Hent Hp'. split; [done|]. unfold phase_after in Hp'. rewrite Hp in Hp', Hent. rewrite Hp', (Hent (Observing, CompilerClean)). unfold clean_phase.
  destruct (Nat.ltb_spec n 3).
  - rewrite (bool_decide_eq_true_2 ((Observing, CompilerClean) = _)) by done. cbn [negb bool_decide]. rewrite (bool_decide_eq_false_2 (Observing = Stuck)) by done. cbn [negb andb].
    destruct (N.leb_spec 2 (entries (Observing, CompilerClean) c)), (Nat.ltb_spec (S n) 3); try lia; (split; [|lia]); [|done]. by replace n with 2 by lia.
  - rewrite (proj2 (Nat.ltb_ge (S n) 3)) by lia. rewrite Nat.odd_succ, <- Nat.negb_odd. destruct (Nat.odd n); cbn [negb].
    + rewrite (bool_decide_eq_false_2 ((Observing, CompilerClean) = _)), (bool_decide_eq_true_2 (Stuck = Stuck)) by done. split; [done|lia].
    + rewrite (bool_decide_eq_true_2 ((Observing, CompilerClean) = _)), (bool_decide_eq_false_2 (Observing = Stuck)) by done. cbn [negb andb].
      rewrite (proj2 (N.leb_le 2 (entries (Observing, CompilerClean) c))) by lia. split; [done|lia].
Qed.
Lemma clean_run es : Forall clean_verification es -> forall n c, after_clean n c -> (N.of_nat n + lenN es <= u32_max)%N -> exists c', repair_run es c = Some c' /\ after_clean (n + length es) c'.
Proof.
  induction 1 as [|[trigger e] es Hx _ IH]; intros n c Hc Hlen; [exists c; by rewrite Nat.add_0_r|]. unfold lenN in *. cbn [length repair_run] in *.
  pose proof (on_event_spec trigger e c (N.of_nat n) (proj1 Hc) ltac:(lia)) as Hs. pose proof (clean_carried _ c Hx) as Hk. cbn [snd] in Hk. rewrite Hk in Hs.
  destruct (repair_on_event debug site fresh trigger e c) as [[[c' o] em]|]; [|by destruct Hs as [_ [Hs|Hs]]]. cbn [mbind option_bind]. destruct Hs as (Hok' & _ & Hent & Hp').
  destruct (IH (S n) c') as (c2 & -> & Hc2); [|lia|].
  - apply (clean_step n c c' CompilerClean); try done. by replace (N.of_nat (S n)) with (N.of_nat n + 1)%N by lia.
  - exists c2. split; [done|]. by replace (n + S (length es))%nat with (S n + length es)%nat by lia.
Qed.

(** C19: success is counted as failure.  A controller that reads nothing but
    clean verifications is stuck from the third on, after every second of them:
    three successes in a row declare it stuck, the next frees it, and so on. *)
Theorem clean_verifications_stick es : Forall clean_verification es -> (lenN es <= u32_max)%N -> exists c, repair_run es repair_new = Some c /\ rp_phase c = clean_phase (length es).
Proof.
  intros He Hlen. destruct (clean_run es He 0 repair_new) as (c & Hc & (_ & Hp & _)); [|exact Hlen|by exists c]. split; [apply new_ok|]. by split.
Qed.

(** *** Stuck *)

(** C20: a stuck controller is freed by a demand to plan again or by a clean
    verification, and by nothing else; plans and actions that reach it are
    reported as escapes and leave its phase, its tick and the plan it waits for
    as they were. *)
Theorem stuck_guard es trigger e c c' o em : (lenN es < u32_max)%N -> repair_run es repair_new = Some c -> rp_phase c = Stuck ->
  repair_on_event debug site fresh trigger e c = Some (c', o, em) ->
  (match e with RuntimeEvent.LoopPlanned _ | RuntimeEvent.LoopActed _ => true | _ => false end = true ->
   rp_phase c' = Stuck /\ rp_tick c' = rp_tick c /\ rp_pending_plan_action_kind c' = rp_pending_plan_action_kind c /\ exists ev file line, o = OutcomeError ev file line) /\
  (rp_phase c' <> Stuck -> carried e c = Some ReplanRequired /\ rp_phase c' = Classifying \/ carried e c = Some CompilerClean /\ rp_phase c' = Observing).
Proof.
  intros Hlen Hrun Hp Hev. pose proof (run_ok es repair_new 0 new_ok ltac:(lia)) as Hok. rewrite Hrun in Hok. pose proof (on_event_spec trigger e c _ Hok ltac:(lia)) as Hs. rewrite Hev in Hs. destruct Hs as [_ Hs]. split.
  - intros He. unfold carried, repair_on_event, check_escape in *. rewrite Hp, He, bool_decide_eq_true_2 in * by done. cbn [andb] in *. destruct (advance debug EscapeDetected c) as [[c1 m]|] eqn:Ha; cbn [mbind option_bind] in Hev; [|done].
    injection Hev as <- <- <-. apply advance_moved in Ha as (Ht & Hpl & _). destruct Hs as (_ & _ & Hph). unfold phase_after in Hph. rewrite Hp in Hph. split_and!; [exact Hph|done|done|].
    unfold emit_violation. destruct (site _). by do 3 eexists.
  - intros Hn. destruct (carried e c) as [s|]; [|by rewrite (proj1 Hs) in Hn]. destruct Hs as (_ & _ & Hph). unfold phase_after in Hph. rewrite Hp in Hph. cbn [negb andb] in Hph.
    rewrite (bool_decide_eq_true_2 (Stuck = Stuck)) in Hph by done. rewrite Hph in *. destruct s; try done; auto.
Qed.

(** *** The history *)

(** Records that lead from one phase to another, each by a row of the table or
    an escalation, and none staying where it is. *)
Fixpoint path (p : RepairPhase) (l : list TransitionRecord) (q : RepairPhase) : Prop :=
  match l with
  | [] => p = q
  | r :: l' => tr_from_phase r = p /\ tr_to_phase r <> p /\ (tr_to_phase r = Stuck \/ exists note, transition p (tr_signal r) = Some (tr_to_phase r, note)) /\ path (tr_to_phase r) l' q
  end.
Lemma path_snoc p l q r : path p l q -> tr_from_phase r = q -> tr_to_phase r <> q -> (tr_to_phase r = Stuck \/ exists note, transition q (tr_signal r) = Some (tr_to_phase r, note)) -> path p (l ++ [r])%list (tr_to_phase r).
Proof. revert p. induction l as [|x l IH]; intros p; cbn [path app]; [intros -> ? ? ?; by split_and!|]. intros (? & ? & ? & Hl) ? ? ?. split_and!; try done. by apply IH. Qed.
Definition history_ok c : Prop := length (rp_transition_history c) <= 256 /\ exists p, path p (rp_transition_history c) (rp_phase c).
Lemma moved_history s c c' : moved s c c' -> history_ok c -> history_ok c'.
Proof.
  intros (_ & _ & [[Hp Hh]|(Hn & Hh & Hl)]) [Hlen [p Hpath]]; [split; [by rewrite Hh|exists p; by rewrite Hh, Hp]|]. unfold history_ok. rewrite Hh. unfold pushed. cbv zeta.
  pose proof (path_snoc p _ _ (MkRecord (rp_tick c) (rp_phase c) s (rp_phase c')) Hpath eq_refl Hn Hl) as Hs. cbn [tr_to_phase] in Hs. destruct (Nat.ltb_spec 256 (length (rp_transition_history c ++ [MkRecord (rp_tick c) (rp_phase c) s (rp_phase c')]))) as [Hlt|Hge].
  - split; [rewrite length_drop, length_app in *; cbn in *; lia|]. destruct (rp_transition_history c) as [|r l]; [by cbn in Hlt; lia|]. cbn [app drop path] in *. exists (tr_to_phase r). tauto.
  - split; [lia|by exists p].
Qed.
(** the history is a path through the table that ends in the present phase,
    of at most 256 steps, however many events were read. *)
Theorem history_is_path es c : repair_run es repair_new = Some c -> length (rp_transition_history c) <= 256 /\ exists p, path p (rp_transition_history c) (rp_phase c).
Proof.
  assert (Hgen : forall es c0 c, history_ok c0 -> repair_run es c0 = Some c -> history_ok c); [|apply (Hgen es repair_new c); split; [cbn; lia|by exists Observing]].
  clear. induction es as [|[trigger e] es IH]; intros c0 c Hc0; cbn [repair_run]; [by intros [= <-]|]. destruct (repair_on_event debug site fresh trigger e c0) as [[[c1 o] em]|] eqn:Hev; [|done]. cbn [mbind option_bind]. apply IH.
  unfold repair_on_event in Hev. destruct (check_escape e c0).
  - destruct (advance debug EscapeDetected c0) as [[c2 m]|] eqn:Ha; [|done]. cbn [mbind option_bind] in Hev. injection Hev as <- _ _. by apply advance_moved, moved_history in Ha.
  - pose proof (extract_spec e c0) as He. destruct (extract_signal debug e c0) as [[c2 [s|]]|]; [|injection Hev as <- _ _|done]; destruct He as [(Hp & _ & Hh) _].
    + assert (Hc2 : history_ok c2) by (unfold history_ok; by rewrite Hp, Hh). cbn [mbind option_bind] in Hev. destruct (advance debug s c2) as [[c3 m]|] eqn:Ha; [|done]. apply advance_moved, moved_history in Ha; [|done].
      cbn [mbind option_bind] in Hev. destruct m as [[note to]|]; [|by injection Hev as <- _ _]. do 2 (destruct (_ && _); [by injection Hev as <- _ _|]). destruct (emit_transition_debug _ _ _ _ _ _). by injection Hev as <- _ _.
    + unfold history_ok. by rewrite Hp, Hh.
Qed.
End Runs.

(** ** Witnesses *)

Definition no_site (f : string) : string * N := (f, 0%N).
Definition clean_event : EventId * RuntimeEvent.t jval := ("t", RuntimeEvent.LoopVerified (LoopVerified.mk 1 true true true 0 [] None None None None)).
Definition acted_event : RuntimeEvent.t jval := RuntimeEvent.LoopActed (LoopActed.mk 2 "apply_patch" "" None None "" "" None 0 true None None None None None None None).
Definition three_clean : list (EventId * RuntimeEvent.t jval) := [clean_event; clean_event; clean_event].
Definition stuck_controller : RepairControl := default repair_new (repair_run false no_site "" three_clean repair_new).
Lemma three_clean_run : repair_run false no_site "" three_clean repair_new = Some stuck_controller.
Proof. reflexivity. Qed.
Lemma three_clean_verified : Forall clean_verification three_clean.
Proof. repeat constructor; eexists; by split_and!. Qed.
Lemma repair_budget_witness : productive false no_site "" three_clean repair_new = 2%nat /\ is_Some (repair_run false no_site "" three_clean repair_new).
Proof. split; [reflexivity|]. apply (repair_budget false no_site "" three_clean); [cbv; discriminate|done]. Defined.
Lemma clean_verifications_stick_witness : exists c, repair_run false no_site "" three_clean repair_new = Some c /\ rp_phase c = Stuck.
Proof. exact (clean_verifications_stick false no_site "" three_clean three_clean_verified ltac:(cbv; discriminate)). Defined.
Lemma stuck_guard_witness : exists c' o em, repair_on_event false no_site "" "t" acted_event stuck_controller = Some (c', o, em) /\ rp_phase c' = Stuck.
Proof.
  destruct (repair_on_event false no_site "" "t" acted_event stuck_controller) as [[[c' o] em]|] eqn:Hev; [|discriminate Hev]. exists c', o, em. split; [done|].
  refine (proj1 (proj1 (stuck_guard false no_site "" three_clean "t" acted_event stuck_controller c' o em _ three_clean_run _ Hev) _)); [cbv; reflexivity|reflexivity|reflexivity].
Defined.
Lemma history_is_path_witness : length (rp_transition_history stuck_controller) = 1%nat /\ exists p, path p (rp_transition_history stuck_controller) Stuck.
Proof. split; [reflexivity|]. exact (proj2 (history_is_path false no_site "" three_clean stuck_controller three_clean_run)). Defined.
