(* ===== verification/Consumers.v ===== *)
(** * The other consumers of the runtime ([canon-runtime/src/consumers/])

    One section per consumer: the watchdog, the goal graph, the analyst, the
    dispatcher with its forwarding consumer, the registry of agents, the
    diagnostics trigger, the failure store and the error logger.  A handler
    takes the event and the consumer's state to the new state, the outcome and
    what was emitted; [None] is a panic, which also follows from a call of
    [EventOutcome::emit] or [emit_many].

    The theorems: the watchdog brings the runtime down exactly when a stage was
    silent for its threshold; a surviving goal graph is empty and a surviving
    analyst never asked; the pruned window of the error logger is the full
    history; diagnostics are spaced by the cooldown; endpoints are handed out in
    turn. *)
From Stdlib Require Import Floats.SpecFloat.
From stdpp Require Import pretty sorting.
From S2P Require Import Prelude Json Text PatchParser TextFormat Paths Wire SemanticState SemanticText Gatekeeper Objectives Goal LoopPolicy EventShape KernelTypes Events EventBus.
Open Scope string_scope.

(** ** Forbidden emissions *)

Section Outcome.
Context {V : Type}.
Definition outcome_emit (_event : RuntimeEvent.t V) (_file : string) (_line : N) : option (EventOutcome V) := None.
Definition outcome_emit_many (_events : list (RuntimeEvent.t V)) (_file : string) (_line : N) : option (EventOutcome V) := None.
End Outcome.

(** A run of a handler over events. *)
Section Run.
Context {S E : Type} (step : E -> S -> option S).
Fixpoint run_all (evs : list E) (s : S) : option S :=
  match evs with [] => Some s | e :: rest => s ← step e s; run_all rest s end.
Lemma run_all_app l1 l2 s : run_all (l1 ++ l2)%list s = (s ← run_all l1 s; run_all l2 s).
Proof. revert s. induction l1 as [|e l1 IH]; intros s; cbn; [done|]. destruct (step e s); cbn; [apply IH|done]. Qed.
(** An invariant of the steps holds after a run. *)
Lemma run_all_inv (P : S -> Prop) : (forall e s s', P s -> step e s = Some s' -> P s') ->
  forall evs s s', P s -> run_all evs s = Some s' -> P s'.
Proof.
  intros Hstep evs. induction evs as [|e evs IH]; intros s s' HP; cbn; [by intros [= <-]|].
  destruct (step e s) as [s1|] eqn:Es; cbn; [|done]. eauto.
Qed.
End Run.

(** ** The watchdog ([watchdog_consumer.rs]) *)

Definition STAGE_THRESHOLDS : list (string * N) := [("observed", 10); ("planned", 15); ("acted", 15); ("verified", 20); ("rewarded", 25)]%N.
Record Watchdog := MkWatchdog { wd_current_tick : N; wd_last_stage_tick : gmap string N }.
#[export] Instance Watchdog_eta : Eta Watchdog := fun w => MkWatchdog (wd_current_tick w) (wd_last_stage_tick w).
Definition stage_watchdog_new : Watchdog := MkWatchdog 0 (foldl (fun m s => <[ s.1 := 0%N ]> m) ∅ STAGE_THRESHOLDS).

Section Watch.
Context {V : Type} `{Json V}.
(** The place of a call and fresh identifiers. *)
Context (site : string -> string * N) (fresh : string -> string).
Implicit Types (w : Watchdog) (e : RuntimeEvent.t V).

Definition idle_ticks w (stage : string) : N := wd_current_tick w - default 0%N (wd_last_stage_tick w !! stage).
Definition stall_event (stage : string) (idle : N) : RuntimeEvent.t V :=
  RuntimeEvent.ErrorOccurred (new_error_occurred "watchdog_stall" "watchdog" ("Stage '" +:+ stage +:+ "' has not fired in " +:+ pretty idle +:+ " ticks") "warning"
    (jobj {[ "stage" := jstr stage; "idle_ticks" := jnum idle ]}) None (fresh stage)).
Definition stall_of w (entry : string * N) : option (RuntimeEvent.t V) :=
  let idle := idle_ticks w entry.1 in
  if ((0 <? idle) && (idle mod entry.2 =? 0))%N then Some (stall_event entry.1 idle) else None.
Definition stalled w : list (RuntimeEvent.t V) := omap (stall_of w) STAGE_THRESHOLDS.
Definition stage_reset (stage : string) w : Watchdog * EventOutcome V :=
  (w <| wd_last_stage_tick := <[ stage := wd_current_tick w ]> (wd_last_stage_tick w) |>, NoOp "watchdog_stage_reset").
Definition watchdog_on_event e w : option (Watchdog * EventOutcome V) :=
  match e with
  | RuntimeEvent.CapabilityRequested _ => Some (w, NoOp "watchdog_capability_requested")
  | RuntimeEvent.Tick t =>
      let w := w <| wd_current_tick := Tick.tick t |> in
      match stalled w with
      | [] => Some (w, NoOp "watchdog_all_stages_healthy")
      | evs => let '(file, line) := site "watchdog_consumer" in o ← outcome_emit_many evs file line; Some (w, o)
      end
  | RuntimeEvent.LoopObserved _ => Some (stage_reset "observed" w)
  | RuntimeEvent.PlanningCompleted _ => Some (stage_reset "planned" w)
  | RuntimeEvent.LoopActed _ => Some (stage_reset "acted" w)
  | RuntimeEvent.LoopVerified _ => Some (stage_reset "verified" w)
  | RuntimeEvent.LoopRewarded _ => Some (stage_reset "rewarded" w)
  | RuntimeEvent.Code _ | RuntimeEvent.Debug _ | RuntimeEvent.Edit _ | RuntimeEvent.ErrorOccurred _ | RuntimeEvent.GoodnessSnapshot _ | RuntimeEvent.RouteTick _
  | RuntimeEvent.RouteSelected _ | RuntimeEvent.Cargo _ | RuntimeEvent.File _ | RuntimeEvent.Bash _ | RuntimeEvent.Llm _ => Some (w, NoOp "non_actionable_event")
  | _ => Some (w, NoOp "watchdog_not_a_stage_event")
  end.
Definition watchdog_run (evs : list (RuntimeEvent.t V)) w : option Watchdog := run_all (fun e w => fst <$> watchdog_on_event e w) evs w.
End Watch.

(** ** The goal graph ([goal_graph_consumer.rs]) *)

Record GoalGraphNode := MkGoalNode { gn_node_id : string; gn_description : string; gn_deps : list string; gn_caps : list string; gn_node_type : string; gn_priority : N; gn_retracted : bool }.
#[export] Instance GoalGraphNode_eta : Eta GoalGraphNode := fun n =>
  MkGoalNode (gn_node_id n) (gn_description n) (gn_deps n) (gn_caps n) (gn_node_type n) (gn_priority n) (gn_retracted n).
Record GoalGraph := MkGoalGraph { gg_nodes : gmap string GoalGraphNode; gg_edges : list (string * string) }.
Record GoalGraphConsumer := MkGoalGraphConsumer { gc_graph : GoalGraph; gc_last_checkpoint_seq : N }.
Definition goal_graph_new : GoalGraphConsumer := MkGoalGraphConsumer (MkGoalGraph ∅ []) 0.

Section GoalGraphs.
Context {V : Type} (site : string -> string * N).
Implicit Types (e : RuntimeEvent.t V) (g : GoalGraph) (c : GoalGraphConsumer).
Definition goal_graph_apply e g : GoalGraph :=
  match e with
  | RuntimeEvent.GoalNodeCreated p =>
      MkGoalGraph (<[ GoalNodeCreated.node_id p := MkGoalNode (GoalNodeCreated.node_id p) (GoalNodeCreated.description p) (GoalNodeCreated.deps p)
        (GoalNodeCreated.caps p) (GoalNodeCreated.node_type p) (GoalNodeCreated.priority p) false ]> (gg_nodes g)) (gg_edges g)
  | RuntimeEvent.GoalNodeRetracted p => MkGoalGraph (alter (fun n => n <| gn_retracted := true |>) (GoalNodeRetracted.node_id p) (gg_nodes g)) (gg_edges g)
  | RuntimeEvent.GoalNodeRewritten p =>
      MkGoalGraph (alter (fun n => n <| gn_description := GoalNodeRewritten.new_description p |> <| gn_caps := GoalNodeRewritten.new_caps p |>)
        (GoalNodeRewritten.node_id p) (gg_nodes g)) (gg_edges g)
  | RuntimeEvent.GoalEdgeDefined p => MkGoalGraph (gg_nodes g) (gg_edges g ++ [(GoalEdgeDefined.from_node_id p, GoalEdgeDefined.to_node_id p)])%list
  | _ => g
  end.
(** The values of a hash map come in no particular order. *)
Definition active_nodes g : gmap string GoalGraphNode := filter (fun kn => gn_retracted kn.2 = false) (gg_nodes g).
Definition goal_graph_on_event e c : option (GoalGraphConsumer * EventOutcome V) :=
  let c := MkGoalGraphConsumer (goal_graph_apply e (gc_graph c)) (gc_last_checkpoint_seq c) in
  match e with
  | RuntimeEvent.CapabilityRequested _ => Some (c, NoOp "goal_graph_capability_requested")
  | RuntimeEvent.GoalNodeCreated _ | RuntimeEvent.GoalNodeRetracted _ | RuntimeEvent.GoalNodeRewritten _ | RuntimeEvent.GoalEdgeDefined _ =>
      let c := MkGoalGraphConsumer (gc_graph c) (wrap64 (gc_last_checkpoint_seq c + 1)) in
      let '(file, line) := site "goal_graph_consumer" in
      o ← outcome_emit (RuntimeEvent.GoalGraphCheckpointed (GoalGraphCheckpointed.mk (gc_last_checkpoint_seq c) true)) file line;
      Some (c, o)
  | RuntimeEvent.Code _ | RuntimeEvent.Debug _ | RuntimeEvent.Edit _ | RuntimeEvent.ErrorOccurred _ | RuntimeEvent.Tick _ | RuntimeEvent.LoopObserved _
  | RuntimeEvent.LoopPlanned _ | RuntimeEvent.PlanningCompleted _ | RuntimeEvent.LoopActed _ | RuntimeEvent.LoopVerified _ | RuntimeEvent.LoopRewarded _
  | RuntimeEvent.GoodnessSnapshot _ | RuntimeEvent.RouteTick _ | RuntimeEvent.RouteSelected _ | RuntimeEvent.Cargo _ | RuntimeEvent.File _
  | RuntimeEvent.Bash _ | RuntimeEvent.Llm _ => Some (c, NoOp "non_actionable_event")
  | _ => Some (c, NoOp "goal_graph_noop")
  end.
Definition goal_graph_run (evs : list (RuntimeEvent.t V)) c : option GoalGraphConsumer := run_all (fun e c => fst <$> goal_graph_on_event e c) evs c.
End GoalGraphs.

(** ** The analyst ([analyst_consumer.rs]) *)

Definition STAGNANT_THRESHOLD : N := 20.
Definition COOLDOWN_TICKS : N := 50.
Definition MAX_TURNS : N := 16.
Definition ANALYST_ROLE : string := "analyst".
Definition ANALYST_AGENT_ID : string := "analyst_chatgpt".
Inductive AnalystState := Idle (ticks_since_reward cooldown_ticks : N) | PendingLlm (request_id : string) (turn : N).
Definition analyst_new : AnalystState := Idle 0 0.
Record PythonResult := MkPython { py_stdout : bytes; py_stderr : bytes; py_exit_code : Z }.

(** [str::find]. *)
Fixpoint find_pos (needle hay : bytes) : option nat :=
  if starts_with needle hay then Some 0 else match hay with [] => None | _ :: rest => S <$> find_pos needle rest end.
Definition extract_python_block (text : bytes) : option bytes :=
  start ← find_pos (lit "```python") text;
  let after := drop (start + 9) text in
  fin ← find_pos (lit "```") after;
  let code := trim (take fin after) in
  if bool_decide (code = []) then None else Some code.
(** [&s[..max]] panics inside a character. *)
Definition truncate_to (s : bytes) (max : nat) : option bytes := if (length s <=? max)%nat then Some s else slice_to max s.
Definition to_context_block (r : PythonResult) : option bytes :=
  let status := if (py_exit_code r =? 0)%Z then "ok" else "error" in
  let head := lit ("exit=" +:+ pretty (py_exit_code r) +:+ " (" +:+ status +:+ ")" +:+ str NL) in
  out ← (if bool_decide (py_stdout r = []) then Some [] else out ← truncate_to (py_stdout r) 4000; Some (lit "stdout:" ++ NL ++ out ++ NL)%list);
  err ← (if bool_decide (py_stderr r = []) then Some [] else err ← truncate_to (py_stderr r) 1000; Some (lit "stderr:" ++ NL ++ err ++ NL)%list);
  Some (head ++ out ++ err)%list.

Section Analyst.
Context {V : Type} `{Json V}.
(** The place of a call, a fresh identifier, the prompt of the skill
    [analyst/full_analysis], and the interpreter run on a program. *)
Context (site : string -> string * N) (fresh : string) (skill : result string string) (python_run : bytes -> result string PythonResult).
Implicit Types (e : RuntimeEvent.t V) (s : AnalystState).

(** The values of an object come in the order of its keys. *)
Definition key_le (a b : string * V) : Prop := String.leb a.1 b.1 = true.
#[local] Instance key_le_dec : RelDecision key_le := fun a b => bool_eq_dec _ _.
Definition object_values (m : gmap string V) : list V := snd <$> merge_sort key_le (map_to_list m).
Definition first_text (vs : list V) : option string :=
  head (omap (fun v => t ← json_as_str v; if String.eqb t "" then None else Some t) vs).
Definition extract_response_text (v : V) : string :=
  match json_get_str "text" v with
  | Some t => t
  | None =>
      match json_view v with
      | VString t => t
      | VObject m => default "" (first_text (object_values m))
      | _ => ""
      end
  end.
Definition llm_call (prompt : string) : RuntimeEvent.t V :=
  RuntimeEvent.Llm (LlmCall.mk fresh prompt (Some ANALYST_ROLE) (Some ANALYST_AGENT_ID) true None None None None None None).
Definition start_session (question : string) s : option (AnalystState * EventOutcome V) :=
  match skill with
  | Err _ => Some (s, NoOp "analyst_skill_load_failed")
  | Ok p =>
      let s := PendingLlm fresh 1 in
      let '(file, line) := site "start_session" in o ← outcome_emit (llm_call (p +:+ str NL +:+ str NL +:+ question)) file line; Some (s, o)
  end.
Definition continue_session (code : bytes) (turn : N) : option (AnalystState * EventOutcome V) :=
  result_block ← match python_run code with Ok r => to_context_block r | Err m => Some (lit ("error running python: " +:+ m)) end;
  let prompt := (lit "## Python result" ++ NL ++ lit "```" ++ NL ++ result_block ++ NL ++ lit "```")%list in
  let s := PendingLlm fresh (turn + 1) in
  let '(file, line) := site "continue_session" in o ← outcome_emit (llm_call (str prompt)) file line; Some (s, o).
Definition nudge : string := "You skipped mandatory phases. You must not write the final report until you have marked Phase 7 complete. Resume from the next unfinished phase and emit a Python block.".
Definition continue_session_no_python (turn : N) : option (AnalystState * EventOutcome V) :=
  let s := PendingLlm fresh (turn + 1) in
  let '(file, line) := site "continue_session_no_python" in o ← outcome_emit (llm_call nudge) file line; Some (s, o).
(** The report is written when it is not blank. *)
Definition finish_session (report : string) : AnalystState * EventOutcome V * list string :=
  (Idle 0 COOLDOWN_TICKS, NoOp "analyst_finished", if is_blank report then [] else [report]).
Definition no_report (r : AnalystState * EventOutcome V) : AnalystState * EventOutcome V * list string := (r, []).

Definition on_completed (done : CapabilityCompleted.t V) s : option (AnalystState * EventOutcome V * list string) :=
  if negb (String.eqb (CapabilityCompleted.capability done) "llm.call") then Some (s, NoOp "analyst_non_llm_capability", [])
  else match s with
  | Idle _ _ => Some (s, NoOp "analyst_not_pending", [])
  | PendingLlm expected turn =>
      if negb (String.eqb (CapabilityCompleted.request_id done) expected) then Some (s, NoOp "analyst_request_mismatch", [])
      else match CapabilityCompleted.result done with
      | LlmOut res =>
          let text := extract_response_text (response res) in
          if (MAX_TURNS <=? turn)%N then Some (finish_session text)
          else match extract_python_block (lit text) with
          | Some code => no_report <$> continue_session code turn
          | None => if (turn <? 5)%N && negb (str_contains "Completed: Phase 7" text) then no_report <$> continue_session_no_python turn else Some (finish_session text)
          end
      | _ => Some (s, NoOp "analyst_wrong_result_type", [])
      end
  end.
Definition on_tick s : option (AnalystState * EventOutcome V) :=
  match s with
  | PendingLlm _ _ => Some (s, NoOp "analyst_not_idle")
  | Idle tsr cooldown =>
      if (0 <? cooldown)%N then Some (Idle tsr (cooldown - 1), NoOp "analyst_cooldown")
      else
        let tsr := (tsr + 1)%N in
        if (STAGNANT_THRESHOLD <=? tsr)%N then start_session "The system appears stagnant. Diagnose why progress has halted. DO NOT PROVIDE SOLUTIONS" (Idle 0 cooldown)
        else Some (Idle tsr cooldown, NoOp "analyst_not_stagnant")
  end.
Definition analyst_on_event e s : option (AnalystState * EventOutcome V * list string) :=
  match e with
  | RuntimeEvent.CapabilityRequested _ => Some (s, NoOp "analyst_capability_requested", [])
  | RuntimeEvent.LoopRewarded _ => Some (match s with Idle _ cooldown => Idle 0 (cooldown - 1) | _ => s end, NoOp "analyst_reward_seen", [])
  | RuntimeEvent.Tick _ => no_report <$> on_tick s
  | RuntimeEvent.CapabilityCompleted done => on_completed done s
  | RuntimeEvent.CapabilityFailed fail =>
      match s with
      | PendingLlm request_id _ =>
          if String.eqb (CapabilityFailed.request_id fail) request_id then Some (Idle 0 COOLDOWN_TICKS, NoOp "analyst_capability_failed", [])
          else Some (s, NoOp "analyst_other_capability_failed", [])
      | Idle _ _ => Some (s, NoOp "analyst_other_capability_failed", [])
      end
  | RuntimeEvent.Code _ | RuntimeEvent.Debug _ | RuntimeEvent.Edit _ | RuntimeEvent.ErrorOccurred _ | RuntimeEvent.GoodnessSnapshot _ | RuntimeEvent.RouteTick _
  | RuntimeEvent.RouteSelected _ | RuntimeEvent.Cargo _ | RuntimeEvent.File _ | RuntimeEvent.Bash _ | RuntimeEvent.Llm _ => Some (s, NoOp "non_actionable_event", [])
  | _ => Some (s, NoOp "analyst_ignored_event", [])
  end.
Definition analyst_run (evs : list (RuntimeEvent.t V)) s : option AnalystState := run_all (fun e s => fst ∘ fst <$> analyst_on_event e s) evs s.
End Analyst.

(** ** Dispatch ([dispatch_consumer.rs]) *)

(** Both consumers of a sub-agent share the flag [halted]; the list of actions
    is behind a lock that only this consumer takes. *)
Record Forward := MkForward { fw_actions_taken : list string; fw_halted : bool }.
Record Dispatcher := MkDispatcher { dp_exec_endpoints : list string; dp_next_exec_idx : N }.
Definition dispatcher_new (exec_endpoints : list string) : Dispatcher := MkDispatcher exec_endpoints 0.

Section Dispatch.
Context {V : Type} (site : string -> string * N).
Implicit Types (e : RuntimeEvent.t V).

Definition halt_detector_on_event e (halted : bool) : bool * EventOutcome V :=
  match e with
  | RuntimeEvent.CapabilityRequested _ => (halted, NoOp "dispatch_capability_requested")
  | RuntimeEvent.LoopRewarded r => (halted || LoopRewarded.halt r, NoOp "halt_detector_checked")
  | _ => (halted, NoOp "halt_detector_checked")
  end.

Definition take_action (id : option string) (f : Forward) : Forward :=
  match id with Some i => MkForward (fw_actions_taken f ++ [i])%list (fw_halted f) | None => f end.
Definition forward_on_event e (trigger : EventId) (f : Forward) : Forward * EventOutcome V * list (LocatedEvent V) :=
  let sent := let '(file, line) := site "forward" in [MkLocated e file line [trigger]] in
  let forwarded := NoOp "forward_consumer_forwarded" in
  match e with
  | RuntimeEvent.ErrorOccurred _ => (f, NoOp "error_passthrough", [])
  | RuntimeEvent.CapabilityRequested _ => (f, NoOp "dispatch_capability_requested", [])
  | RuntimeEvent.RouteSelected _ => (f, forwarded, sent)
  | RuntimeEvent.LoopObserved _ => (f, NoOp "loop_observed_consumed_once", [])
  | RuntimeEvent.LoopPlanned p => (take_action (LoopPlanned.action_id p) f, NoOp "loop_planned_forwarded", sent)
  | RuntimeEvent.LoopActed a => (take_action (LoopActed.action_id a) f, NoOp "loop_acted_forwarded_once", sent)
  | RuntimeEvent.PlanningCompleted _ => (f, NoOp "planning_completed_passthrough", [])
  | RuntimeEvent.LoopVerified _ | RuntimeEvent.ToolCall _ | RuntimeEvent.ToolResult _ | RuntimeEvent.ToolBatchSettled _ => (f, forwarded, sent)
  | RuntimeEvent.CapabilityCompleted _ => (f, NoOp "capability_completed_passthrough", [])
  | RuntimeEvent.LoopRewarded r => (MkForward (fw_actions_taken f) (fw_halted f || LoopRewarded.halt r), forwarded, sent)
  | RuntimeEvent.Debug d =>
      if String.eqb (DebugEvent.kind d) "observe_suppressed_due_to_pending_successor" then (f, NoOp "dropped_legacy_observe_suppression", []) else (f, forwarded, sent)
  | RuntimeEvent.Code _ | RuntimeEvent.Edit _ | RuntimeEvent.Tick _ | RuntimeEvent.GoodnessSnapshot _ | RuntimeEvent.RouteTick _ | RuntimeEvent.Cargo _
  | RuntimeEvent.File _ | RuntimeEvent.Llm _ => (f, forwarded, sent)
  | _ => (f, forwarded, [])
  end.

(** The index is a [usize]; [debug] is whether the build checks overflow. *)
Definition assign_endpoint (debug : bool) (agent_id : string) (d : Dispatcher) : option (Dispatcher * string) :=
  let pool := dp_exec_endpoints d in
  if bool_decide (agent_id ∈ pool) then Some (d, agent_id)
  else if bool_decide (pool = []) then Some (d, agent_id)
  else
    let idx := N.to_nat (dp_next_exec_idx d mod lenN pool) in
    next ← (if (dp_next_exec_idx d <? u64_max)%N then Some (dp_next_exec_idx d + 1)%N else if debug then None else Some 0%N);
    endpoint ← pool !! idx;
    Some (MkDispatcher pool next, endpoint).
Definition dispatcher_on_event e (d : Dispatcher) : Dispatcher * EventOutcome V :=
  match e with
  | RuntimeEvent.RouteSelected _ => (d, NoOp "route_selected_no_dispatch_side_effects")
  | _ => (d, NoOp "dispatch_consumer_non_dispatch")
  end.
End Dispatch.

(** ** The registry of agents ([agent_registry.rs]) *)

Inductive AgentStatus := AgentIdle | AgentBusy (dispatch_id : string) | AgentFailed (reason : string).
Record AgentCard := MkCard { ac_agent_id : string; ac_agent_url : option string; ac_role : option string; ac_tool_capabilities : list string; ac_status : AgentStatus }.
#[export] Instance AgentCard_eta : Eta AgentCard := fun c => MkCard (ac_agent_id c) (ac_agent_url c) (ac_role c) (ac_tool_capabilities c) (ac_status c).
#[export] Instance AgentStatus_eq_dec : EqDecision AgentStatus.
Proof. solve_decision. Defined.
Record AgentRegistry := MkRegistry { agents : gmap string AgentCard }.

Section Registry.
Context {V : Type} `{Json V}.
Implicit Types (e : RuntimeEvent.t V) (r : AgentRegistry).
Definition upsert_card (payload : V) r : AgentRegistry :=
  match json_view payload with
  | VObject _ =>
      match json_get_str "agent_id" payload with
      | None => r
      | Some agent_id =>
          let tools := default [] ((fun arr : list V => omap json_as_str arr) <$> (json_get "tool_capabilities" payload ≫= json_as_array)) in
          MkRegistry (<[ agent_id := MkCard agent_id (json_get_str "agent_url" payload) (json_get_str "role" payload) tools AgentIdle ]> (agents r))
      end
  | _ => r
  end.
Definition mark_status (st : AgentStatus) (agent_id : string) r : AgentRegistry := MkRegistry (alter (fun c => c <| ac_status := st |>) agent_id (agents r)).
Definition mark_busy (agent_id dispatch_id : string) r : AgentRegistry := mark_status (AgentBusy dispatch_id) agent_id r.
Definition mark_idle (agent_id : string) r : AgentRegistry := mark_status AgentIdle agent_id r.
Definition mark_failed (agent_id reason : string) r : AgentRegistry := mark_status (AgentFailed reason) agent_id r.
(** The cards come in no particular order. *)
Definition available_agents (role : string) r : gmap string AgentCard := filter (fun kc => ac_role kc.2 = Some role /\ ac_status kc.2 = AgentIdle) (agents r).
(** [poisoned]: whether a thread panicked while it held the lock. *)
Definition registry_on_event (poisoned : bool) e r : AgentRegistry * EventOutcome V :=
  if poisoned then (r, NoOp "agent_registry_poisoned")
  else match e with
  | RuntimeEvent.CapabilityRequested _ => (r, NoOp "agent_registry_capability_requested")
  | RuntimeEvent.AgentRegistered p => (upsert_card (AgentRegistered.payload p) r, NoOp "agent_registered")
  | RuntimeEvent.SubTaskResult p =>
      (if SubTaskResult.success p then mark_idle (SubTaskResult.agent_id p) r
       else mark_failed (SubTaskResult.agent_id p) (default "unknown sub-task failure" (SubTaskResult.error p)) r, NoOp "agent_mark_result")
  | _ => (r, NoOp "agent_registry_ignored")
  end.
End Registry.

(** ** Diagnostics ([diagnostics_consumer.rs]) *)

Definition SEC : N := 1000000000.
Record Diagnostics := MkDiagnostics {
  dg_emitter : bool; dg_last_trigger : option N; dg_last_parent : option string; dg_cooldown_ticks : N; dg_min_stagnant_ticks : N; dg_min_failure_burst : N; dg_failure_burst : N
}.
#[export] Instance Diagnostics_eta : Eta Diagnostics := fun d =>
  MkDiagnostics (dg_emitter d) (dg_last_trigger d) (dg_last_parent d) (dg_cooldown_ticks d) (dg_min_stagnant_ticks d) (dg_min_failure_burst d) (dg_failure_burst d).
(** The settings are those of the environment that parse. *)
Definition diagnostics_new (cooldown stagnant burst : option N) : Diagnostics := MkDiagnostics false None None (default 50%N cooldown) (default 5%N stagnant) (default 3%N burst) 0.
(** The signals of an event, in the letters of the source, and the reason. *)
Record DiagSignals := MkDiag { ds_w : bool; ds_v : bool; ds_z : bool; ds_p : bool; ds_reason : option string }.
Definition no_diag : DiagSignals := MkDiag false false false false None.

Section Diagnose.
Context {V : Type} `{Json V}.
(** Times are readings of the monotonic clock in nanoseconds: [now] when the
    cooldown is checked, [later] when a trigger is recorded. *)
Context (site : string -> string * N) (fresh : string).
Implicit Types (e : RuntimeEvent.t V) (d : Diagnostics).
Definition cooldown_active (now : N) d : bool :=
  match dg_last_trigger d with Some last => (now - last <? dg_cooldown_ticks d * SEC)%N | None => false end.
Definition bump d : Diagnostics := d <| dg_failure_burst := N.min (dg_failure_burst d + 1) u64_max |>.
Definition error_diag (err : ErrorOccurred.t V) d : Diagnostics * DiagSignals :=
  let w := String.eqb (ErrorOccurred.source err) "watchdog" in
  let v := String.eqb (ErrorOccurred.source err) "invariant-engine" || str_contains "invariant" (ErrorOccurred.kind err) in
  let reason := if v then Some "invariant_violation" else if w then Some "watchdog_stall" else None in
  let failed := String.eqb (ErrorOccurred.kind err) "capability_failed" || String.eqb (ErrorOccurred.severity err) "error" in
  (if failed then bump d else d <| dg_failure_burst := 0%N |>, MkDiag w v false false reason).
Definition diag_signals e d : Diagnostics * DiagSignals :=
  match e with
  | RuntimeEvent.ErrorOccurred err => error_diag err d
  | RuntimeEvent.InvariantDiscovered _ => (d, MkDiag false true false false (Some "invariant_discovered"))
  | RuntimeEvent.LoopRewarded r =>
      let stagnant := (dg_min_stagnant_ticks d <=? LoopRewarded.stagnant_ticks r)%N in
      (d, MkDiag false false (stagnant || LoopRewarded.halt r) false (if LoopRewarded.halt r then Some "halted" else if stagnant then Some "stagnant_ticks" else None))
  | RuntimeEvent.VerifierPolicyUpdated vr =>
      (d, if VerifierPolicyUpdated.actionable_failure vr then MkDiag false false false true (Some "verifier_policy_updated_failure") else no_diag)
  | RuntimeEvent.CapabilityFailed _ => (bump d, no_diag)
  | RuntimeEvent.CapabilityCompleted _ => (d <| dg_failure_burst := 0%N |>, no_diag)
  | _ => (d, no_diag)
  end.
Definition is_fatal_invariant e : bool := match e with RuntimeEvent.ErrorOccurred err => String.eqb (ErrorOccurred.kind err) "invariant_violation" | _ => false end.
Definition diag_event (trigger : EventId) e d (s : DiagSignals) (u : bool) : RuntimeEvent.t V :=
  RuntimeEvent.ErrorOccurred (new_error_occurred "diagnostics_triggered" "diagnostics_consumer" ("diagnostics triggered: " +:+ default "diagnostic_trigger" (ds_reason s)) "warning"
    (jobj {[ "w" := jbool (ds_w s); "v" := jbool (ds_v s); "z" := jbool (ds_z s); "u" := jbool u; "p" := jbool (ds_p s); "fatal_invariant" := jbool (is_fatal_invariant e);
             "failure_burst" := jnum (dg_failure_burst d); "stagnant_threshold" := jnum (dg_min_stagnant_ticks d) ]}) (Some trigger) fresh).
Definition burst_reached d : bool := (dg_min_failure_burst d <=? dg_failure_burst d)%N.
Definition diag_decide (now later : N) (trigger : EventId) e d (s : DiagSignals) : Diagnostics * EventOutcome V * list (LocatedEvent V) :=
  let u := burst_reached d in
  let should_run := (ds_w s || ds_v s || ds_z s || u || ds_p s) && negb (cooldown_active now d) in
  let dedupe := bool_decide (dg_last_parent d = Some trigger) in
  if should_run && negb dedupe && dg_emitter d then
    let '(file, line) := site "diagnostics_consumer" in
    (d <| dg_last_trigger := Some later |> <| dg_last_parent := Some trigger |> <| dg_failure_burst := 0%N |>, NoOp "diagnostics_triggered",
     [MkLocated (diag_event trigger e d s u) file line [trigger]])
  else (d, NoOp "diagnostics_noop", []).
Definition diagnostics_on_event (now later : N) e (trigger : EventId) d : Diagnostics * EventOutcome V * list (LocatedEvent V) :=
  match e with
  | RuntimeEvent.PlanningCompleted _ => (d, NoOp "planning_completed_no_synthetic_dispatch", [])
  | RuntimeEvent.RouteSelected _ => (d, NoOp "route_selected_no_synthetic_dispatch", [])
  | _ => let '(d, s) := diag_signals e d in diag_decide now later trigger e d s
  end.
End Diagnose.

(** ** The failure store ([failure_store.rs]) *)

(** [str::to_lowercase], as far as a search for ASCII text can tell: the only
    characters outside ASCII whose lower case has ASCII letters are U+212A and
    U+0130; the other characters beyond ASCII are kept. *)
Fixpoint to_lowercase (l : bytes) : bytes :=
  match l with
  | xe2 :: x84 :: xaa :: rest => x6b :: to_lowercase rest
  | xc4 :: xb0 :: rest => x69 :: xcc :: x87 :: to_lowercase rest
  | b :: rest => lower_byte b :: to_lowercase rest
  | [] => []
  end.
(** The counts are of type [usize], which no run exhausts. *)
Record FailureStats := MkStats { fs_total : N; fs_cycle : N; fs_deadlock : N; fs_failure_pattern_rate : f64; fs_cycle_frequency : f64; fs_deadlock_rate : f64 }.
Definition failure_store_new : FailureStats := MkStats 0 0 0 (f64_of_N 0) (f64_of_N 0) (f64_of_N 0).

Section Failures.
Context {V : Type}.
Implicit Types (e : RuntimeEvent.t V) (s : FailureStats).
Definition mentions (word kind : string) (message : string) : bool := str_contains word kind || PatchParser.contains (lit word) (to_lowercase (lit message)).
Definition record_message (kind message : string) s : FailureStats :=
  let total := (fs_total s + 1)%N in
  let cycle := (if mentions "cycle" kind message then fs_cycle s + 1 else fs_cycle s)%N in
  let deadlock := (if mentions "deadlock" kind message then fs_deadlock s + 1 else fs_deadlock s)%N in
  let t := f64_of_N (N.max total 1) in
  MkStats total cycle deadlock (f64_div (f64_add (f64_of_N cycle) (f64_of_N deadlock)) t) (f64_div (f64_of_N cycle) t) (f64_div (f64_of_N deadlock) t).
Definition policy_message (p : VerifierPolicyUpdated.t) : string :=
  "verifier_outcome=" +:+ VerifierPolicyUpdated.verifier_outcome p +:+ " retry_policy=" +:+ VerifierPolicyUpdated.retry_policy p +:+ " reward_bias=" +:+ VerifierPolicyUpdated.reward_bias p.
(** The kind and the message under which an event is recorded. *)
Definition failure_of e : option (string * string) :=
  match e with
  | RuntimeEvent.ErrorOccurred p => Some (ErrorOccurred.kind p, ErrorOccurred.message p)
  | RuntimeEvent.CapabilityFailed p => Some ("capability_failed", CapabilityFailed.error p)
  | RuntimeEvent.NodeFailed p => Some ("node_failed", default "node_failed" (NodeFailed.error p))
  | RuntimeEvent.LoopActed p => if LoopActed.success p then None else Some ("loop_acted_failed", LoopActed.stderr p)
  | RuntimeEvent.VerifierPolicyUpdated p => if VerifierPolicyUpdated.actionable_failure p then Some ("verifier_policy_updated_failure", policy_message p) else None
  | RuntimeEvent.LoopRewarded p => if LoopRewarded.halt p then Some ("loop_rewarded_halt", "stagnant:halt") else None
  | RuntimeEvent.Code c =>
      match EventDelta.event (Code.delta c) with
      | RustcEvent.PanicCaptured p => Some ("panic_captured", PanicCaptured.message p)
      | RustcEvent.InvariantViolation p => Some ("invariant_violation", InvariantViolation.message p)
      | _ => None
      end
  | _ => None
  end.
Definition record_event e s : FailureStats := match failure_of e with Some (kind, message) => record_message kind message s | None => s end.
(** The new statistics, the outcome, and what [persist] leaves in the file. *)
Definition failure_store_on_event e s : FailureStats * EventOutcome V * FailureStats :=
  let s := record_event e s in (s, NoOp "failure_store_recorded", s).
End Failures.

(** ** The error logger ([error_logger.rs]) *)

Section ErrorLog.
Context {V : Type} `{Json V} `{JsonSer V}.
(** The hash of the source and the message, and a fresh identifier. *)
Context (dedup_key : string -> string -> N) (fresh : string).
Implicit Types (e : RuntimeEvent.t V) (now : N) (seen : gmap N N).
Definition DEDUP_WINDOW : N := 30 * SEC.
Definition should_emit now (source message : string) seen : bool * gmap N N :=
  let key := dedup_key source message in
  if match seen !! key with Some t => (now - t <? DEDUP_WINDOW)%N | None => false end then (false, seen)
  else (true, filter (fun kt => (now - kt.2 < DEDUP_WINDOW)%N) (<[ key := now ]> seen)).
Definition event_to_payload e : option (string * V) :=
  let err kind source message context trace := Some (source, to_value (new_error_occurred kind source message "error" context trace fresh)) in
  match e with
  | RuntimeEvent.CapabilityFailed p =>
      err "capability_failed" "event-runtime" (CapabilityFailed.error p)
        (jobj {[ "request_id" := jstr (CapabilityFailed.request_id p); "capability" := jstr (CapabilityFailed.capability p) ]}) (Some (CapabilityFailed.request_id p))
  | RuntimeEvent.NodeFailed p =>
      err "node_failed" "agent-consumer" (default "node_failed" (NodeFailed.error p))
        (jobj {[ "node_id" := jstr (NodeFailed.node_id p); "capability" := jstr (NodeFailed.capability p); "request_id" := jstr (NodeFailed.request_id p) ]})
        (if String.eqb (NodeFailed.request_id p) "" then None else Some (NodeFailed.request_id p))
  | RuntimeEvent.LoopActed p =>
      if negb (LoopActed.success p) && negb (String.eqb (LoopActed.stderr p) "skipped:batch_aborted") then
        err "loop_acted_failed" "act" (LoopActed.stderr p)
          (jobj {[ "tick" := jnum (LoopActed.tick p); "action_kind" := jstr (LoopActed.action_kind p);
                   "capability_request_id" := jstr (LoopActed.capability_request_id p); "exit_code" := to_value (LoopActed.exit_code p) ]}) (LoopActed.trace_id p)
      else None
  | RuntimeEvent.VerifierPolicyUpdated p =>
      if VerifierPolicyUpdated.actionable_failure p then
        err "verifier_policy_updated_failure" "verify" (policy_message p)
          (jobj {[ "tick" := jnum (VerifierPolicyUpdated.tick p); "actionable_failure" := jbool true; "verifier_outcome" := jstr (VerifierPolicyUpdated.verifier_outcome p);
                   "retry_policy" := jstr (VerifierPolicyUpdated.retry_policy p); "reward_bias" := jstr (VerifierPolicyUpdated.reward_bias p) ]}) (VerifierPolicyUpdated.trace_id p)
      else None
  | RuntimeEvent.LoopRewarded p =>
      if LoopRewarded.halt p then
        err "loop_rewarded_halt" "reward" "stagnant:halt"
          (jobj {[ "tick" := jnum (LoopRewarded.tick p); "reward" := jfloat (LoopRewarded.reward p); "errors_before" := jnum (LoopRewarded.errors_before p);
                   "errors_after" := jnum (LoopRewarded.errors_after p); "stagnant_ticks" := jnum (LoopRewarded.stagnant_ticks p) ]}) (LoopRewarded.trace_id p)
      else None
  | RuntimeEvent.Code c =>
      let rustc kind message context := Some ("rustc", jobj {[ "kind" := jstr kind; "source" := jstr "rustc"; "message" := jstr message; "severity" := jstr "error";
        "context" := context; "trace_id" := jnull; "error_id" := jstr fresh ]}) in
      match EventDelta.event (Code.delta c) with
      | RustcEvent.PanicCaptured p =>
          rustc "panic_captured" (PanicCaptured.message p)
            (jobj {[ "def_id" := to_value (PanicCaptured.def_id p); "mir_variant" := to_value (PanicCaptured.mir_variant p);
                     "lowering_stage" := to_value (PanicCaptured.lowering_stage p); "file" := to_value (PanicCaptured.file p); "span" := to_value (PanicCaptured.span p) ]})
      | RustcEvent.InvariantViolation p => rustc "invariant_violation" (InvariantViolation.message p) jempty
      | _ => None
      end
  | _ => None
  end.
(** The new state, the outcome and the records appended to [errors.jsonl]. *)
Definition error_logger_on_event now e seen : gmap N N * EventOutcome V * list V :=
  match e with
  | RuntimeEvent.ErrorOccurred p => (seen, NoOp "error_logger_recorded", [to_value p])
  | _ =>
      match event_to_payload e with
      | None => (seen, NoOp "error_logger_not_error", [])
      | Some (source, payload) =>
          let message := default "" (json_get_str "message" payload) in
          let '(emit, seen) := should_emit now source message seen in
          if emit then (seen, NoOp "error_logger_recorded", [payload]) else (seen, NoOp "error_logger_deduped", [])
      end
  end.
End ErrorLog.

(** ** The executor of tools ([capability_executor.rs], [canon-exec/src/policy.rs]
    and [canon-exec/src/exec/mod.rs]) *)

Inductive ExecutableEvent : Type :=
| ExEdit (e : EditEvent.t) | ExCargo (e : CargoEvent.t) | ExFile (e : FileEvent.t) | ExBash (e : BashInvoke.t) | ExLlm (e : LlmCall.t) | ExAnalysis (e : AnalysisEvent.t).
Inductive ExecutionRisk : Set := RiskLow | RiskMedium | RiskHigh.
Inductive ExecutionPolicyDecision : Set := ExecAllow | ExecReview | ExecForbid.
Record ExecutionPolicyOutcome := MkPolicy { po_decision : ExecutionPolicyDecision; po_risk : ExecutionRisk; po_reason : string }.
Definition risk_debug (r : ExecutionRisk) : string := match r with RiskLow => "Low" | RiskMedium => "Medium" | RiskHigh => "High" end.
Definition DESTRUCTIVE : list string := ["rm "; "git reset"; "git clean"; "chmod "; "chown "; "sudo "].
Definition READ_ONLY : list string := ["cargo check"; "rg "; "ls "; "cat "; "echo "].
Definition bash_policy (cmd : bytes) : ExecutionPolicyOutcome :=
  let cmd := trim cmd in
  if existsb (fun p => PatchParser.contains (lit p) cmd) DESTRUCTIVE then MkPolicy ExecForbid RiskHigh "destructive shell command requires explicit higher-level approval"
  else if existsb (fun p => starts_with (lit p) cmd) READ_ONLY then MkPolicy ExecAllow RiskLow "shell command is read-only or validation-oriented"
  else MkPolicy ExecReview RiskHigh "generic shell command requires policy review".
Definition evaluate_execution_policy (e : ExecutableEvent) : ExecutionPolicyOutcome :=
  match e with
  | ExAnalysis _ | ExLlm _ => MkPolicy ExecAllow RiskLow "non-mutating semantic/external reasoning step"
  | ExFile (FileEvent.Read _) => MkPolicy ExecAllow RiskLow "read-only file access"
  | ExFile (FileEvent.Write _) | ExFile (FileEvent.Patch _) | ExEdit _ => MkPolicy ExecReview RiskMedium "workspace mutation requires policy review"
  | ExCargo (CargoEvent.Check _) => MkPolicy ExecAllow RiskLow "cargo check is validation-only"
  | ExCargo _ => MkPolicy ExecReview RiskMedium "cargo build/run may write artifacts or execute code"
  | ExBash b => bash_policy (lit (BashInvoke.cmd b))
  end.

Section Executor.
Context {V : Type} `{Json V}.
Inductive ExecutionResult : Type := ExEmit (e : RuntimeEvent.t V) | ExEmitMany (es : list (RuntimeEvent.t V)) | Deferred.
(** The place of a call, a fresh identifier, the debug text of the event, and
    what running it gives. *)
Context (site : string -> string * N) (fresh : string) (debug_text : RuntimeEvent.t V -> string) (execute : ExecutableEvent -> result string ExecutionResult).
Definition try_from (e : RuntimeEvent.t V) : option ExecutableEvent :=
  match e with
  | RuntimeEvent.Edit e => Some (ExEdit e) | RuntimeEvent.Cargo e => Some (ExCargo e) | RuntimeEvent.File e => Some (ExFile e)
  | RuntimeEvent.Bash e => Some (ExBash e) | RuntimeEvent.Llm e => Some (ExLlm e) | RuntimeEvent.Analysis e => Some (ExAnalysis e)
  | _ => None
  end.
(** What the thread emits, in its order. *)
Definition exec_thread (trigger : EventId) (e : RuntimeEvent.t V) (ex : ExecutableEvent) (policy : ExecutionPolicyOutcome) : list (LocatedEvent V) :=
  let '(file, line) := site "capability_executor" in
  let located ev := MkLocated ev file line [trigger] in
  let reviewed := match po_decision policy with
    | ExecReview => [located (RuntimeEvent.Debug (DebugEvent.mk "capability_executor" "execution_policy_review"
        (jobj {[ "reason" := jstr (po_reason policy); "risk" := jstr (risk_debug (po_risk policy)); "event" := jstr (debug_text e) ]})))]
    | _ => []
    end in
  let results := match execute ex with
    | Ok (ExEmit ev) => [located ev]
    | Ok (ExEmitMany evs) => located <$> evs
    | Ok Deferred => []
    | Err m => [located (RuntimeEvent.ErrorOccurred (new_error_occurred "capability_execution" "capability_executor" m "error" (jobj {[ "event" := jstr (debug_text e) ]}) None fresh))]
    end in
  (reviewed ++ results)%list.
Record CapabilityExecutor := MkExecutor { ce_emitter : bool; ce_current_trigger : option EventId }.
(** The state, the outcome, and what the thread that was started emits. *)
Definition executor_on_event (e : RuntimeEvent.t V) (trigger : EventId) (c : CapabilityExecutor) : CapabilityExecutor * EventOutcome V * list (LocatedEvent V) :=
  match e with
  | RuntimeEvent.Bash _ | RuntimeEvent.Llm _ =>
      let c := MkExecutor (ce_emitter c) (Some trigger) in
      match try_from e with
      | None => (c, NoOp "capability_executor_not_executable", [])
      | Some ex =>
          if negb (ce_emitter c) then (c, NoOp "capability_executor_no_emitter", [])
          else
            let policy := evaluate_execution_policy ex in
            match po_decision policy with
            | ExecForbid =>
                let '(file, line) := site "capability_executor" in
                (c, OutcomeError (RuntimeEvent.ErrorOccurred (new_error_occurred "execution_policy_forbidden" "capability_executor" (po_reason policy) "error"
                       (jobj {[ "risk" := jstr (risk_debug (po_risk policy)); "event" := jstr (debug_text e) ]}) None fresh)) file line, [])
            | _ => (c, NoOp "capability_executor_async", exec_thread trigger e ex policy)
            end
      end
  | _ => (c, NoOp "capability_executor_non_exec", [])
  end.
End Executor.

(** ** Silence of a stage *)

Section Silence.
Context {V : Type}.
Implicit Types (e : RuntimeEvent.t V) (evs : list (RuntimeEvent.t V)).

Definition tick_number e : option N := match e with RuntimeEvent.Tick t => Some (Tick.tick t) | _ => None end.
Definition stage_of e : option string :=
  match e with
  | RuntimeEvent.LoopObserved _ => Some "observed" | RuntimeEvent.PlanningCompleted _ => Some "planned" | RuntimeEvent.LoopActed _ => Some "acted"
  | RuntimeEvent.LoopVerified _ => Some "verified" | RuntimeEvent.LoopRewarded _ => Some "rewarded" | _ => None
  end.
(** The ticks since the last event of the stage. *)
Definition silence_step (stage : string) (n : N) e : N :=
  match tick_number e with Some _ => n + 1 | None => if bool_decide (stage_of e = Some stage) then 0 else n end%N.
Definition silence (stage : string) evs : N := foldl (silence_step stage) 0%N evs.
(** The ticks are numbered from one. *)
Definition ticks evs : list N := omap tick_number evs.
Definition counted evs : Prop := ticks evs = N.of_nat <$> seq 1 (length (ticks evs)).
(** At some moment a stage had been silent for [threshold] ticks. *)
Definition silent_for (stage : string) (threshold : N) evs : Prop := exists pre suf, evs = (pre ++ suf)%list /\ silence stage pre = threshold.
Definition stalls evs : Prop := exists stage threshold, (stage, threshold) ∈ STAGE_THRESHOLDS /\ silent_for stage threshold evs.

Lemma silence_snoc stage evs e : silence stage (evs ++ [e]) = silence_step stage (silence stage evs) e.
Proof. unfold silence. by rewrite foldl_app. Qed.
Lemma ticks_snoc evs e : ticks (evs ++ [e]) = (ticks evs ++ option_list (tick_number e))%list.
Proof. unfold ticks. rewrite omap_app. cbn. by destruct (tick_number e). Qed.
Lemma silent_for_snoc stage th evs e : silent_for stage th (evs ++ [e]) <-> silent_for stage th evs \/ silence stage (evs ++ [e]) = th.
Proof.
  split.
  - intros (pre & suf & Heq & Hs). destruct suf as [|x suf _] using rev_ind.
    + right. rewrite app_nil_r in Heq. by rewrite Heq.
    + left. rewrite app_assoc in Heq. apply app_inj_tail in Heq as [-> _]. by exists pre, suf.
  - intros [(pre & suf & -> & Hs)|Hs]; [exists pre, (suf ++ [e])%list; by rewrite app_assoc|exists (evs ++ [e])%list, []; by rewrite app_nil_r].
Qed.
Lemma counted_snoc evs e : counted (evs ++ [e]) -> counted evs /\ forall t, tick_number e = Some t -> t = (lenN (ticks evs) + 1)%N.
Proof.
  unfold counted. rewrite ticks_snoc. destruct (tick_number e) as [t|]; cbn [option_list]; [|rewrite app_nil_r; by intros ?].
  rewrite length_app. cbn [length]. rewrite seq_app, fmap_app. cbn. intros Hc. apply app_inj_tail in Hc as [Hc ->].
  split; [done|]. intros t' [= <-]. unfold lenN. lia.
Qed.
End Silence.

(** ** The watchdog *)

Section WatchdogProps.
Context {V : Type} `{Json V} (site : string -> string * N) (fresh : string -> string).
Implicit Types (e : RuntimeEvent.t V) (evs : list (RuntimeEvent.t V)) (w : Watchdog).

Lemma watchdog_stage e s w : stage_of e = Some s -> watchdog_on_event site fresh e w = Some (stage_reset s w).
Proof. destruct e; cbn; intros [= <-]; done. Qed.
Lemma watchdog_other e w : stage_of e = None -> tick_number e = None -> fst <$> watchdog_on_event site fresh e w = Some w.
Proof. by destruct e. Qed.
Definition stalled_in w : Prop := exists stage th, (stage, th) ∈ STAGE_THRESHOLDS /\ (0 < idle_ticks w stage)%N /\ (idle_ticks w stage mod th = 0)%N.
Lemma stalled_spec w : stalled (V := V) fresh w <> [] <-> stalled_in w.
Proof.
  unfold stalled, stalled_in. split.
  - intros Hne. destruct (omap _ _) as [|x l] eqn:E; [done|]. assert (Hx : x ∈ omap (stall_of fresh w) STAGE_THRESHOLDS) by (rewrite E; apply list_elem_of_here).
    apply list_elem_of_omap in Hx as ([stage th] & Hin & Hx). exists stage, th. unfold stall_of in Hx. cbn [fst snd] in Hx. case_match eqn:Eb; [|done].
    apply andb_true_iff in Eb as [Hp%N.ltb_lt Hm%N.eqb_eq]. done.
  - intros (stage & th & Hin & Hp & Hm) E. assert (Hx : stall_event (V := V) fresh stage (idle_ticks w stage) ∈ omap (stall_of fresh w) STAGE_THRESHOLDS).
    { apply list_elem_of_omap. exists (stage, th). split; [done|]. unfold stall_of. cbn [fst snd]. apply N.ltb_lt in Hp. apply N.eqb_eq in Hm. by rewrite Hp, Hm. }
    rewrite E in Hx. by apply not_elem_of_nil in Hx.
Qed.
Lemma watchdog_tick t w : let w' := w <| wd_current_tick := Tick.tick t |> in
  (fst <$> watchdog_on_event site fresh (RuntimeEvent.Tick t : RuntimeEvent.t V) w = Some w' /\ ~ stalled_in w') \/
  (fst <$> watchdog_on_event site fresh (RuntimeEvent.Tick t : RuntimeEvent.t V) w = None /\ stalled_in w').
Proof.
  intros w'. pose proof (stalled_spec w') as Hs. cbn [watchdog_on_event]. fold w'. destruct (stalled fresh w') as [|x l]; [left|right].
  - split; [done|]. intros Hi. by apply Hs in Hi.
  - split; [by destruct (site _)|by apply Hs].
Qed.

(** After a run the watchdog knows how long each stage has been silent. *)
Definition tracks evs w : Prop :=
  wd_current_tick w = lenN (ticks evs) /\
  forall stage th, (stage, th) ∈ STAGE_THRESHOLDS ->
    exists last, wd_last_stage_tick w !! stage = Some last /\ wd_current_tick w = (last + silence stage evs)%N /\ (silence stage evs < th)%N.
Lemma tracks_new : tracks [] stage_watchdog_new.
Proof.
  split; [done|]. intros stage th Hin. exists 0%N. change (silence stage []) with 0%N.
  unfold STAGE_THRESHOLDS in Hin. repeat (apply elem_of_cons in Hin as [[= -> ->]|Hin]; [split_and!; vm_compute; reflexivity|]). by apply not_elem_of_nil in Hin.
Qed.
Lemma threshold_pos stage th : (stage, th) ∈ STAGE_THRESHOLDS -> (0 < th)%N.
Proof. intros Hin. unfold STAGE_THRESHOLDS in Hin. repeat (apply elem_of_cons in Hin as [[= -> ->]|Hin]; [done|]). by apply not_elem_of_nil in Hin. Qed.
Lemma tracks_tick evs t w : tracks evs w -> Tick.tick t = (lenN (ticks evs) + 1)%N ->
  let w' := w <| wd_current_tick := Tick.tick t |> in let evs' := (evs ++ [RuntimeEvent.Tick t])%list in
  (stalled_in w' -> exists stage th, (stage, th) ∈ STAGE_THRESHOLDS /\ silence stage evs' = th) /\ (~ stalled_in w' -> tracks evs' w').
Proof.
  intros [Hcur Hst] Ht w' evs'.
  assert (Hidle : forall stage th, (stage, th) ∈ STAGE_THRESHOLDS -> exists last, wd_last_stage_tick w !! stage = Some last /\
    idle_ticks w' stage = silence stage evs' /\ Tick.tick t = (last + silence stage evs')%N /\ (0 < silence stage evs' <= th)%N).
  { intros stage th Hin. destruct (Hst stage th Hin) as (last & Hl & Hc & Hlt). exists last. unfold evs'. rewrite silence_snoc. unfold silence_step. cbn [tick_number].
    unfold idle_ticks, w'. cbn. rewrite Hl. cbn. split_and!; [done|lia..]. }
  split.
  - intros (stage & th & Hin & Hp & Hm). exists stage, th. split; [done|]. destruct (Hidle stage th Hin) as (last & _ & Hi & _ & Hb). rewrite Hi in *.
    apply N.Div0.mod_divides in Hm as [k Hk]. assert (k = 1)%N as -> by nia. lia.
  - intros Hns. split; [unfold w', evs'; cbn; rewrite ticks_snoc; cbn; unfold lenN in *; rewrite length_app; cbn; lia|]. intros stage th Hin.
    destruct (Hidle stage th Hin) as (last & Hl & Hi & Hc & Hb). exists last. split_and!; [done|done|]. destruct (decide (silence stage evs' = th)) as [Heq|]; [|lia].
    destruct Hns. exists stage, th. rewrite Hi, Heq. split_and!; [done|lia|]. apply N.Div0.mod_same.
Qed.
Lemma tracks_stage evs e s w : tracks evs w -> stage_of e = Some s -> tracks (evs ++ [e]) (stage_reset (V := V) s w).1.
Proof.
  intros [Hcur Hst] Hs. assert (Hnt : tick_number e = None) by (by destruct e). split; [by rewrite ticks_snoc, Hnt, app_nil_r|].
  intros stage th Hin. rewrite silence_snoc. unfold silence_step. rewrite Hnt, Hs. destruct (Hst stage th Hin) as (last & Hl & Hc & Hlt). cbn.
  destruct (decide (s = stage)) as [->|Hne].
  - rewrite bool_decide_eq_true_2 by done. exists (wd_current_tick w). rewrite lookup_insert_eq. split_and!; [done|lia|lia].
  - rewrite bool_decide_eq_false_2 by congruence. exists last. by rewrite lookup_insert_ne.
Qed.
Lemma tracks_other evs e w : tracks evs w -> stage_of e = None -> tick_number e = None -> tracks (evs ++ [e]) w.
Proof.
  intros [Hcur Hst] Hs Hnt. split; [by rewrite ticks_snoc, Hnt, app_nil_r|]. intros stage th Hin. rewrite silence_snoc. unfold silence_step. rewrite Hnt, Hs. cbn. by apply Hst.
Qed.

Lemma stage_stalls_snoc evs e : stalls evs -> stalls (evs ++ [e]).
Proof. intros (stage & th & Hin & Hs). exists stage, th. split; [done|]. apply silent_for_snoc. by left. Qed.
(** A run either tracks the stages, none of which stalled, or stops. *)
Lemma watchdog_run_tracks evs : counted evs ->
  match watchdog_run site fresh evs stage_watchdog_new with Some w => tracks evs w /\ ~ stalls evs | None => stalls evs end.
Proof.
  induction evs as [|e evs IH] using rev_ind; intros Hc.
  - split; [apply tracks_new|]. intros (stage & th & Hin & pre & suf & Heq & Hs). symmetry in Heq. apply app_nil in Heq as [-> ->]. pose proof (threshold_pos _ _ Hin). cbn in Hs. lia.
  - apply counted_snoc in Hc as [Hc Ht]. specialize (IH Hc). unfold watchdog_run in *. rewrite run_all_app. destruct (run_all _ evs _) as [w|]; cbn; [|by apply stage_stalls_snoc].
    destruct IH as [Htr Hns].
    assert (Hkeep : forall w', tracks (evs ++ [e]) w' -> ~ stalls (evs ++ [e])).
    { intros w' [_ Hst] (stage & th & Hin & Hs). apply silent_for_snoc in Hs as [Hs|Hs]; [destruct Hns; by exists stage, th|].
      destruct (Hst stage th Hin) as (_ & _ & _ & Hlt). lia. }
    destruct (tick_number e) as [n|] eqn:En.
    + destruct e; try done. injection En as <-. specialize (Ht _ eq_refl). destruct (tracks_tick evs p w Htr Ht) as [Hstall Hok].
      destruct (watchdog_tick p w) as [[-> Hns']|[-> Hs]]; cbn; [split; [auto|by eapply Hkeep; auto]|].
      destruct (Hstall Hs) as (stage & th & Hin & Heq). exists stage, th. split; [done|]. apply silent_for_snoc. by right.
    + destruct (stage_of e) as [s|] eqn:Es.
      * rewrite (watchdog_stage e s w Es). cbn. assert (Ht' := tracks_stage evs e s w Htr Es). split; [exact Ht'|by eapply Hkeep].
      * rewrite (watchdog_other e w Es En). cbn. assert (Ht' := tracks_other evs e w Htr Es En). split; [exact Ht'|by eapply Hkeep].
Qed.

(** C15: when ticks are counted from one, the watchdog panics, and with it the
    runtime, exactly when a stage of the loop stays silent for its threshold of
    ticks: the report it would make is a forbidden emission. *)
Theorem stall_is_fatal evs : counted evs -> watchdog_run site fresh evs stage_watchdog_new = None <-> stalls evs.
Proof.
  intros Hc. pose proof (watchdog_run_tracks evs Hc) as Hr. destruct (watchdog_run _ _ _ _) as [w|]; split; try done. by destruct Hr.
Qed.
End WatchdogProps.

Definition ten_ticks : list (RuntimeEvent.t jval) := (fun n => RuntimeEvent.Tick (Tick.mk n true)) <$> [1; 2; 3; 4; 5; 6; 7; 8; 9; 10]%N.
Lemma stall_is_fatal_witness : watchdog_run (fun _ => ("f", 0%N)) id ten_ticks stage_watchdog_new = None /\ stalls ten_ticks.
Proof. split; [reflexivity|]. apply (stall_is_fatal (fun _ => ("f", 0%N)) id ten_ticks); reflexivity. Defined.

(** ** The goal graph and the analyst *)

Section Silent.
Context {V : Type} `{Json V} (site : string -> string * N).
Implicit Types (e : RuntimeEvent.t V) (evs : list (RuntimeEvent.t V)).

Definition changes_goals e : bool :=
  match e with RuntimeEvent.GoalNodeCreated _ | RuntimeEvent.GoalNodeRetracted _ | RuntimeEvent.GoalNodeRewritten _ | RuntimeEvent.GoalEdgeDefined _ => true | _ => false end.
Lemma goal_graph_step e c : fst <$> goal_graph_on_event site e c = if changes_goals e then None else Some c.
Proof. destruct c, e; try done; cbn; by destruct (site _). Qed.
Lemma goal_graph_run_blank evs c : goal_graph_run site evs c = if existsb changes_goals evs then None else Some c.
Proof.
  revert c. induction evs as [|e evs IH]; intros c; [done|]. unfold goal_graph_run in *. cbn [run_all existsb]. rewrite goal_graph_step.
  by destruct (changes_goals e); cbn.
Qed.

Context (fresh : string) (python_run : bytes -> result string PythonResult).
Lemma analyst_other skill e n : tick_number e = None -> stage_of e <> Some "rewarded" -> fst ∘ fst <$> analyst_on_event site fresh skill python_run e (Idle n 0) = Some (Idle n 0).
Proof. destruct e; try done. intros _ _. cbn. unfold on_completed. by destruct (negb _). Qed.
Lemma analyst_tick skill n : fst <$> on_tick (V := V) site fresh skill (Idle n 0) =
  if (STAGNANT_THRESHOLD <=? n + 1)%N then match skill with Ok _ => None | Err _ => Some (Idle 0 0) end else Some (Idle (n + 1) 0).
Proof. unfold on_tick, start_session. cbn [N.ltb N.compare]. destruct (_ <=? n + 1)%N; [|done]. destruct skill; [|done]. by destruct (site _). Qed.
(** An analyst that is not cooling down counts the silence of the rewards. *)
Lemma analyst_step skill e n : (n < STAGNANT_THRESHOLD)%N ->
  fst ∘ fst <$> analyst_on_event site fresh skill python_run e (Idle n 0) =
    let n' := silence_step "rewarded" n e in
    if (STAGNANT_THRESHOLD <=? n')%N then match skill with Ok _ => None | Err _ => Some (Idle 0 0) end else Some (Idle n' 0).
Proof.
  intros Hn%N.leb_gt. unfold silence_step. destruct (tick_number e) as [t|] eqn:Et.
  - destruct e; try done. cbn [analyst_on_event]. cbn zeta. rewrite <- analyst_tick. by destruct (on_tick _ _ _ _) as [[]|].
  - destruct (decide (stage_of e = Some "rewarded")) as [Es|Es].
    + rewrite bool_decide_eq_true_2 by done. by destruct e.
    + rewrite bool_decide_eq_false_2, analyst_other by done. cbn zeta. by rewrite Hn.
Qed.
(** With the skill, a run counts the silence until it panics. *)
Lemma analyst_run_silence p evs :
  match analyst_run site fresh (Ok p) python_run evs analyst_new with
  | Some s => s = Idle (silence "rewarded" evs) 0 /\ (silence "rewarded" evs < STAGNANT_THRESHOLD)%N /\ ~ silent_for "rewarded" STAGNANT_THRESHOLD evs
  | None => silent_for "rewarded" STAGNANT_THRESHOLD evs
  end.
Proof.
  induction evs as [|e evs IH] using rev_ind.
  - split_and!; [done|done|]. intros (pre & suf & Heq & Hs). symmetry in Heq. by apply app_nil in Heq as [-> ->].
  - unfold analyst_run in *. rewrite run_all_app. destruct (run_all _ evs _) as [s|]; cbn [mbind option_bind]; [|apply silent_for_snoc; by left].
    destruct IH as (-> & Hlt & Hns). cbn [run_all]. rewrite analyst_step, <- silence_snoc by done. cbn zeta.
    assert (Hle : (silence "rewarded" (evs ++ [e]) <= silence "rewarded" evs + 1)%N) by (rewrite silence_snoc; unfold silence_step; repeat case_match; lia).
    destruct (N.leb_spec STAGNANT_THRESHOLD (silence "rewarded" (evs ++ [e]))) as [Hge|Hlt']; cbn [mbind option_bind].
    + apply silent_for_snoc. right. lia.
    + split_and!; [done|done|]. intros [Hs|Hs]%silent_for_snoc; [done|lia].
Qed.
Lemma analyst_run_no_skill m evs : exists n, analyst_run site fresh (Err m) python_run evs analyst_new = Some (Idle n 0) /\ (n < STAGNANT_THRESHOLD)%N.
Proof.
  induction evs as [|e evs (n & IH & Hn)] using rev_ind; [by exists 0%N|]. unfold analyst_run in *. rewrite run_all_app, IH. cbn [mbind option_bind run_all].
  rewrite analyst_step by done. cbn zeta. destruct (N.leb_spec STAGNANT_THRESHOLD (silence_step "rewarded" n e)); cbn [mbind option_bind]; [by exists 0%N|eauto].
Qed.

(** C16: the goal graph and the analyst never act.  The goal graph panics on
    every event that would change it and is empty after any other run.  With
    its skill at hand the analyst panics exactly when the rewards stay silent
    for twenty ticks, and otherwise only counts; without it, it idles for ever.
    It never waits for a language model. *)
Theorem silent_consumers p m evs :
  goal_graph_run site evs goal_graph_new = (if existsb changes_goals evs then None else Some goal_graph_new) /\
  (analyst_run site fresh (Ok p) python_run evs analyst_new = None <-> silent_for "rewarded" STAGNANT_THRESHOLD evs) /\
  (analyst_run site fresh (Ok p) python_run evs analyst_new = None \/ analyst_run site fresh (Ok p) python_run evs analyst_new = Some (Idle (silence "rewarded" evs) 0)) /\
  (exists n, analyst_run site fresh (Err m) python_run evs analyst_new = Some (Idle n 0)).
Proof.
  split; [apply goal_graph_run_blank|]. destruct (analyst_run_no_skill m evs) as (n & Hn & _). pose proof (analyst_run_silence p evs) as Hs.
  destruct (analyst_run site fresh (Ok p) _ _ _) as [s|]; [destruct Hs as (-> & _ & Hs)|]; split_and!; [split; done|by right|by exists n|done|by left|by exists n].
Qed.
End Silent.

(** ** The error logger *)

Section Logger.
Context {V : Type} `{Json V} `{JsonSer V} (dedup_key : string -> string -> N).
(** An event with the time and the identifier drawn when it is handled. *)
Notation timed := (N * string * RuntimeEvent.t V)%type.
Implicit Types (seen : gmap N N) (history : list (N * N)) (now key : N).

Fixpoint logger_run (evs : list timed) seen : list (list V) :=
  match evs with
  | [] => []
  | (now, fresh, e) :: rest => let '(seen, _, out) := error_logger_on_event dedup_key fresh now e seen in out :: logger_run rest seen
  end.
(** A logger that remembers every record with its time and never forgets. *)
Definition recent now key (tk : N * N) : bool := (tk.2 =? key)%N && (now - tk.1 <? DEDUP_WINDOW)%N.
Definition reference_step now fresh (e : RuntimeEvent.t V) history : list (N * N) * list V :=
  match e with
  | RuntimeEvent.ErrorOccurred p => (history, [to_value p])
  | _ =>
      match event_to_payload fresh e with
      | None => (history, [])
      | Some (source, payload) =>
          let key := dedup_key source (default "" (json_get_str "message" payload)) in
          if existsb (recent now key) history then (history, []) else ((now, key) :: history, [payload])
      end
  end.
Fixpoint reference_run (evs : list timed) history : list (list V) :=
  match evs with
  | [] => []
  | (now, fresh, e) :: rest => let '(history, out) := reference_step now fresh e history in out :: reference_run rest history
  end.

Definition in_window now key seen : bool := match seen !! key with Some t => (now - t <? DEDUP_WINDOW)%N | None => false end.
(** From [last] on, the pruned map and the history agree. *)
Definition agrees (last : N) seen history : Prop :=
  (forall tk, tk ∈ history -> (tk.1 <= last)%N) /\ forall now key, (last <= now)%N -> existsb (recent now key) history = in_window now key seen.
Lemma agrees_later last now seen history : (last <= now)%N -> agrees last seen history -> agrees now seen history.
Proof. intros Hle [Hh Ha]. split; [intros tk Htk; specialize (Hh tk Htk); lia|]. intros now' key Hn. apply Ha. lia. Qed.
Lemma recent_old now now' key history : (now <= now')%N -> (forall tk, tk ∈ history -> (tk.1 <= now)%N) -> existsb (recent now' key) history = true -> (now' - now <? DEDUP_WINDOW)%N = true.
Proof.
  intros Hle Hh Hr. apply existsb_exists in Hr as (tk & Hin & Hr). apply list_elem_of_In in Hin. specialize (Hh tk Hin). unfold recent in Hr.
  apply andb_true_iff in Hr as [_ Hr%N.ltb_lt]. apply N.ltb_lt. lia.
Qed.
Lemma pruned_window now now' key key' seen : (now <= now')%N ->
  in_window now' key' (filter (fun kt => (now - kt.2 < DEDUP_WINDOW)%N) (<[ key := now ]> seen)) =
    if (key =? key')%N then (now' - now <? DEDUP_WINDOW)%N else in_window now' key' seen.
Proof.
  intros Hle. unfold in_window. rewrite map_lookup_filter. destruct (N.eqb_spec key key') as [->|Hne].
  - rewrite lookup_insert_eq. cbn [mbind option_bind]. rewrite option_guard_True; [done|]. cbn. rewrite N.sub_diag. by compute.
  - rewrite lookup_insert_ne by done. destruct (seen !! key') as [t|]; [|done]. cbn [mbind option_bind].
    destruct (decide (now - t < DEDUP_WINDOW)%N) as [Hg|Hg]; [by rewrite option_guard_True|]. rewrite option_guard_False by done. symmetry. apply N.ltb_ge. lia.
Qed.
Lemma agrees_record now key seen history : agrees now seen history -> agrees now (filter (fun kt => (now - kt.2 < DEDUP_WINDOW)%N) (<[ key := now ]> seen)) ((now, key) :: history).
Proof.
  intros [Hh Ha]. split; [intros tk [->|Htk]%elem_of_cons; [cbn; lia|by apply Hh]|]. intros now' key' Hle. cbn [existsb]. rewrite pruned_window, Ha by done. unfold recent at 1. cbn [fst snd].
  destruct (N.eqb_spec key key') as [->|]; [|done]. cbn [andb]. destruct (in_window now' key' seen) eqn:Ew; [|by rewrite orb_false_r].
  rewrite <- Ha in Ew by done. by rewrite (recent_old now now' key' history Hle Hh Ew).
Qed.
Lemma logger_step now fresh e last seen history : (last <= now)%N -> agrees last seen history ->
  let r := error_logger_on_event dedup_key fresh now e seen in let s := reference_step now fresh e history in r.2 = s.2 /\ agrees now r.1.1 s.1.
Proof.
  intros Hle Ha%(agrees_later last now); [|done]. unfold reference_step, error_logger_on_event.
  assert (Hp : forall source payload, let key := dedup_key source (default "" (json_get_str "message" payload)) in
    let r := (let '(emit, seen) := should_emit dedup_key now source (default "" (json_get_str "message" payload)) seen in
              if emit then (seen, NoOp (V := V) "error_logger_recorded", [payload]) else (seen, NoOp "error_logger_deduped", [])) in
    let s := (if existsb (recent now key) history then (history, []) else ((now, key) :: history, [payload : V])) in r.2 = s.2 /\ agrees now r.1.1 s.1).
  { intros source payload. cbn zeta. unfold should_emit. fold (in_window now (dedup_key source (default "" (json_get_str "message" payload))) seen).
    pose proof Ha as [_ Hw]. rewrite Hw by done. destruct (in_window _ _ _); [done|]. split; [done|]. by apply agrees_record. }
  destruct e; try done; (destruct (event_to_payload fresh _) as [[source payload]|]; [apply Hp|done]).
Qed.

(** C17: as long as the clock does not go back, the error logger, which forgets
    what left its window of thirty seconds, writes exactly what a logger would
    write that keeps every record: an event is dropped only when a record of
    the same source and message is less than thirty seconds old. *)
Theorem logger_window_exact (evs : list timed) : StronglySorted N.le ((fun t => t.1.1) <$> evs) -> logger_run evs ∅ = reference_run evs [].
Proof.
  enough (Hg : forall last seen history, Forall (fun t => (last <= t.1.1)%N) evs -> StronglySorted N.le ((fun t => t.1.1) <$> evs) -> agrees last seen history -> logger_run evs seen = reference_run evs history).
  { intros Hs. apply (Hg 0%N); [apply Forall_forall; lia|done|]. split; [by intros tk ?%not_elem_of_nil|done]. }
  induction evs as [|[[now fresh] e] evs IH]; intros last seen history Hf Hs Ha; [done|]. cbn [logger_run reference_run]. apply Forall_cons in Hf as [Hle _].
  destruct (logger_step now fresh e last seen history Hle Ha) as [Hout Ha']. destruct (error_logger_on_event _ _ _ _ _) as [[seen' o] out], (reference_step _ _ _ _) as [history' out'].
  cbn in Hout, Ha'. subst out'. f_equal. apply StronglySorted_inv in Hs as [Hs Hall]. apply (IH now); [exact (proj1 (Forall_fmap (fun t : timed => t.1.1) (N.le now) evs) Hall)|exact Hs|exact Ha'].
Qed.
End Logger.

Definition failed_at (secs : N) (error : string) : N * string * RuntimeEvent.t jval := ((secs * SEC)%N, "id", RuntimeEvent.CapabilityFailed (CapabilityFailed.mk "r" "llm.call" error)).
Definition failures : list (N * string * RuntimeEvent.t jval) := [failed_at 0 "timeout"; failed_at 10 "timeout"; failed_at 10 "refused"; failed_at 40 "timeout"].
Definition name_hash (source message : string) : N := if String.eqb message "timeout" then 1 else 2.
Lemma logger_window_exact_witness : (length <$> logger_run name_hash failures ∅) = [1; 0; 1; 1]%nat /\ logger_run name_hash failures ∅ = reference_run name_hash failures [].
Proof.
  split; [reflexivity|]. apply (logger_window_exact name_hash failures). cbn. repeat (constructor; [|repeat (constructor; [by compute|]); constructor]). constructor.
Defined.

(** ** Diagnostics *)

Section DiagnosticsProps.
Context {V : Type} `{Json V} (site : string -> string * N) (fresh : string).
(** An event with its identifier and the two readings of the clock. *)
Notation timed := (N * N * EventId * RuntimeEvent.t V)%type.
Implicit Types (d : Diagnostics) (evs : list timed).

(** The readings at which a run triggers. *)
Fixpoint triggers evs d : list (N * N) :=
  match evs with
  | [] => []
  | (now, later, id, e) :: rest =>
      let '(d, _, out) := diagnostics_on_event site fresh now later e id d in
      (match out with [] => [] | _ => [(now, later)] end ++ triggers rest d)%list
  end.
(** The clock does not go back. *)
Fixpoint clocked (from : N) evs : Prop :=
  match evs with [] => True | (now, later, _, _) :: rest => (from <= now <= later)%N /\ clocked later rest end.
Definition apart (cooldown : N) (a b : N * N) : Prop := (a.2 + cooldown * SEC <= b.1)%N.

Lemma diag_settings (e : RuntimeEvent.t V) d : dg_last_trigger (diag_signals e d).1 = dg_last_trigger d /\ dg_cooldown_ticks (diag_signals e d).1 = dg_cooldown_ticks d.
Proof. destruct e; try done. cbn. unfold error_diag. cbn. by destruct (_ || _). Qed.
Lemma diagnostics_step now later (e : RuntimeEvent.t V) id d :
  let r := diagnostics_on_event site fresh now later e id d in
  dg_cooldown_ticks r.1.1 = dg_cooldown_ticks d /\
  match r.2 with
  | [] => dg_last_trigger r.1.1 = dg_last_trigger d
  | _ => dg_last_trigger r.1.1 = Some later /\ cooldown_active now d = false
  end.
Proof.
  assert (Hg : let r := (let '(d, s) := diag_signals e d in diag_decide site fresh now later id e d s) in
    dg_cooldown_ticks r.1.1 = dg_cooldown_ticks d /\ match r.2 with [] => dg_last_trigger r.1.1 = dg_last_trigger d | _ => dg_last_trigger r.1.1 = Some later /\ cooldown_active now d = false end).
  { destruct (diag_settings e d) as [Hl Hc]. destruct (diag_signals e d) as [d' s]. cbn [fst] in Hl, Hc. unfold diag_decide.
    assert (Hca : cooldown_active now d' = cooldown_active now d) by (unfold cooldown_active; by rewrite Hl, Hc). rewrite Hca. destruct (_ && _ && _) eqn:Eb; [|done].
    destruct (site _). cbn. split_and!; [done|done|]. apply andb_true_iff in Eb as [[[_ Hn]%andb_true_iff _]%andb_true_iff _]. by apply negb_true_iff. }
  destruct e; first [exact Hg | done].
Qed.
Lemma triggers_apart evs : forall from d, clocked from evs -> (forall last, dg_last_trigger d = Some last -> last <= from)%N ->
  StronglySorted (apart (dg_cooldown_ticks d)) (triggers evs d) /\
  Forall (fun t => forall last, dg_last_trigger d = Some last -> (last + dg_cooldown_ticks d * SEC <= t.1)%N) (triggers evs d).
Proof.
  induction evs as [|[[[now later] id] e] evs IH]; intros from d Hc Hlast; cbn [triggers]; [split; constructor|]. destruct Hc as [[Hn Hl] Hc].
  destruct (diagnostics_step now later e id d) as [Hcd Hout]. destruct (diagnostics_on_event _ _ _ _ _ _ _) as [[d' o] out]. cbn [fst snd] in *. rewrite <- Hcd.
  destruct out as [|x out]; cbn [app].
  - rewrite <- Hout. apply (IH later); [done|]. intros last Hd. rewrite Hout in Hd. specialize (Hlast last Hd). lia.
  - destruct Hout as [Hd' Hcool]. destruct (IH later d' Hc) as [Hs Hf]; [intros last [= <-]%(eq_trans (eq_sym Hd')); lia|]. split.
    + constructor; [done|]. eapply Forall_impl; [exact Hf|]. intros t Ht. by apply Ht.
    + assert (Hnow : forall last, dg_last_trigger d = Some last -> (last + dg_cooldown_ticks d' * SEC <= now)%N).
      { intros last Hd. unfold cooldown_active in Hcool. rewrite Hd in Hcool. apply N.ltb_ge in Hcool. specialize (Hlast last Hd). rewrite Hcd. lia. }
      constructor; [exact Hnow|]. eapply Forall_impl; [exact Hf|]. intros t Ht last Hd. specialize (Hnow last Hd). specialize (Ht later Hd'). lia.
Qed.
(** Two triggers of fresh diagnostics are at least the cooldown apart. *)
Theorem diagnostics_spaced evs cooldown stagnant burst : clocked 0 evs ->
  StronglySorted (apart (default 50%N cooldown)) (triggers evs ((diagnostics_new cooldown stagnant burst) <| dg_emitter := true |>)).
Proof. intros Hc. refine (proj1 (triggers_apart evs 0%N ((diagnostics_new cooldown stagnant burst) <| dg_emitter := true |>) Hc _)). cbn. congruence. Qed.
End DiagnosticsProps.

(** ** Endpoints, cards and counts *)

(** [assign_endpoint] for a list of roles. *)
Fixpoint assign_all (debug : bool) (roles : list string) (d : Dispatcher) : option (list string) :=
  match roles with [] => Some [] | r :: rest => '(d, endpoint) ← assign_endpoint debug r d; (endpoint ::.) <$> assign_all debug rest d end.
(** Generic roles get the endpoints of the pool in turn. *)
Theorem assign_round_robin debug roles pool k : pool <> [] -> Forall (fun r => r ∉ pool) roles -> (k + lenN roles <= u64_max)%N ->
  assign_all debug roles (MkDispatcher pool k) = Some ((fun i => default "" (pool !! N.to_nat ((k + N.of_nat i) mod lenN pool))) <$> seq 0 (length roles)).
Proof.
  intros Hp. revert k. induction roles as [|r roles IH]; intros k Hf Hk; [done|]. apply Forall_cons in Hf as [Hr Hf]. cbn [assign_all length seq]. unfold assign_endpoint. cbn [dp_exec_endpoints dp_next_exec_idx].
  rewrite bool_decide_eq_false_2, bool_decide_eq_false_2 by done. unfold lenN in Hk. cbn [length] in Hk. rewrite (proj2 (N.ltb_lt k u64_max)) by lia. cbn [mbind option_bind].
  assert (Hlen : (0 < lenN pool)%N) by (unfold lenN; destruct pool; [done|cbn; lia]).
  destruct (lookup_lt_is_Some_2 pool (N.to_nat (k mod lenN pool))) as [x Hx]; [pose proof (N.mod_lt k (lenN pool)); unfold lenN in *; lia|].
  rewrite Hx. cbn [mbind option_bind]. rewrite IH by (unfold lenN; lia || done). rewrite fmap_cons, N.add_0_r, Hx. cbn [fmap option_fmap option_map default]. do 2 f_equal.
  rewrite <- fmap_S_seq, <- list_fmap_compose. apply list_fmap_ext. intros _ i _. cbn [compose]. unfold compose. by replace (k + 1 + N.of_nat i)%N with (k + N.of_nat (S i))%N by lia.
Qed.

Section Bookkeeping.
Context {V : Type} `{Json V}.
Implicit Types (e : RuntimeEvent.t V).

(** Every card is filed under its own identifier. *)
Definition filed (r : AgentRegistry) : Prop := map_Forall (fun id c => ac_agent_id c = id) (agents r).
Lemma mark_status_filed st id r : filed r -> filed (mark_status st id r).
Proof.
  intros Hr j c. cbn. rewrite lookup_alter_Some. intros [(-> & c0 & Hc & ->)|[_ Hc]]; [exact (Hr _ _ Hc)|by apply Hr].
Qed.
Lemma registry_filed poisoned e r : filed r -> filed (registry_on_event poisoned e r).1.
Proof.
  intros Hr. unfold registry_on_event. destruct poisoned; [done|]. destruct e; try done; cbn [fst].
  - destruct (SubTaskResult.success p); by apply mark_status_filed.
  - unfold upsert_card. destruct (json_view _); try done. destruct (json_get_str "agent_id" _); [|done]. by apply map_Forall_insert_2.
Qed.

(** The counts of the failure store stay within the total, and the total
    counts the failures. *)
Definition counts_within (s : FailureStats) : Prop := (fs_cycle s <= fs_total s /\ fs_deadlock s <= fs_total s)%N.
Lemma record_event_within e s : counts_within s -> counts_within (record_event e s) /\ fs_total (record_event e s) = (fs_total s + if failure_of e then 1 else 0)%N.
Proof.
  intros [Hc Hd]. unfold record_event. destruct (failure_of e) as [[kind message]|]; [|by split; [split|lia]].
  unfold record_message, counts_within. cbn. repeat case_match; lia.
Qed.
End Bookkeeping.

(** ** Commands that are not run *)

(** A command is refused exactly when it contains one of the patterns, which
    need not be a command of its own nor, with a tab, all there is: what is
    refused depends on nothing that running it would give. *)
Lemma forbidden_iff cmd : po_decision (bash_policy cmd) = ExecForbid <-> exists p, p ∈ DESTRUCTIVE /\ PatchParser.contains (lit p) (trim cmd) = true.
Proof.
  unfold bash_policy. destruct (existsb _ DESTRUCTIVE) eqn:E.
  - split; [|done]. intros _. apply existsb_exists in E as (p & Hin & Hp). exists p. by rewrite list_elem_of_In.
  - split; [by destruct (existsb _ READ_ONLY)|]. intros (p & Hin & Hp). rewrite list_elem_of_In in Hin. assert (true = false) as Hc; [|done]. rewrite <- E. symmetry. apply existsb_exists. eauto.
Qed.
Lemma forbidden_not_run {V} `{Json V} site fresh debug_text execute (b : BashInvoke.t) trigger c :
  po_decision (bash_policy (lit (BashInvoke.cmd b))) = ExecForbid -> (executor_on_event (V := V) site fresh debug_text execute (RuntimeEvent.Bash b) trigger c).2 = [].
Proof. intros Hf. cbn [executor_on_event try_from evaluate_execution_policy]. destruct (negb _); [done|]. rewrite Hf. by destruct (site _). Qed.
Definition words_refused : list string := ["echo farm fresh"; "git log -- git cleanup.md"].
Lemma patterns_are_not_words : (po_decision ∘ bash_policy ∘ lit <$> words_refused) = [ExecForbid; ExecForbid] /\ po_decision (bash_policy (lit ("echo x; rm" +:+ str [x09] +:+ "-rf /"))) = ExecAllow.
Proof. done. Qed.
