(* ===== verification/JsonPath.v ===== *)
(** * The query language of the analysis tools
    ([canon-tools-analysis/src/query/jsonpath.rs] and the front of [mod.rs])

    A compiler from JSONPath text to the byte code of the GPU kernels.  A path
    is scanned byte by byte; ranges compile the rest of the path once for each
    index.  The state is the scanner, the builder of the byte code and two
    fields of the parser; a method is a computation that may stop with an error
    of the source, or with a fault: a panic, or the end of the fuel that stands
    for the stack of nested ranges.  Overflow of the [i32] counters wraps. *)
From stdpp Require Import pretty.
From S2P Require Import Prelude Text PatchParser TextFormat Paths Json Wire SemanticState SemanticText Gatekeeper Objectives Goal.

(** ** The byte code *)

Inductive Opcode : Set := End | StoreResult | MoveUp | MoveDown | MoveToKey | MoveToIndex | ExpressionStringEquals.
Definition opcode_byte (o : Opcode) : byte :=
  match o with End => x00 | StoreResult => x01 | MoveUp => x02 | MoveDown => x03 | MoveToKey => x04 | MoveToIndex => x05 | ExpressionStringEquals => x06 end.
Inductive JSONPathError : Set := Message (msg : bytes) | Unsupported (msg : bytes).
Definition display_error (e : JSONPathError) : bytes := match e with Message msg => msg | Unsupported msg => msg end.
Inductive Fault : Set := JErr (e : JSONPathError) | JPanic | OutOfFuel.

(** [n as i32]. *)
Definition wrap_i32 (z : Z) : Z := ((z + 2147483648) mod 4294967296 - 2147483648)%Z.
(** Seven bits a byte, the lowest first; a [u32] takes five bytes at most. *)
Fixpoint varint (rounds : nat) (value : N) : bytes :=
  match rounds with
  | S rounds' => if (N.land value 0xFFFFFF80 =? 0)%N then [byte_of (N.land value 0x7F)] else byte_of (N.lor (N.land value 0x7F) 0x80) :: varint rounds' (N.shiftr value 7)
  | O => [byte_of (N.land value 0x7F)]
  end.
Definition write_varint (value : N) : bytes := varint 5 value.
(** The length of a string is cut to 32 bits. *)
Definition write_string (s : bytes) : bytes := write_varint (wrap32 (lenN s)) ++ s.

Record IRBuilder := MkBuilder { ir_buffer : bytes; ir_current_level : Z; ir_num_result_stores : Z; ir_ended : bool }.
#[export] Instance IRBuilder_eta : Eta IRBuilder := fun b => MkBuilder (ir_buffer b) (ir_current_level b) (ir_num_result_stores b) (ir_ended b).
Definition builder_new : IRBuilder := MkBuilder [] 0 0 false.
Definition write (l : bytes) (b : IRBuilder) : IRBuilder := b <| ir_buffer := ir_buffer b ++ l |>.
Definition write_opcode (o : Opcode) (b : IRBuilder) : IRBuilder := write [opcode_byte o] b.
Definition property (name : bytes) (b : IRBuilder) : IRBuilder := write (write_string name) (write_opcode MoveToKey b).
(** [index as u32]. *)
Definition index (i : Z) (b : IRBuilder) : IRBuilder := write (write_varint (Z.to_N (i mod 4294967296))) (write_opcode MoveToIndex b).
Definition down (b : IRBuilder) : IRBuilder := let b := write_opcode MoveDown b in b <| ir_current_level := wrap_i32 (ir_current_level b + 1) |>.
Definition up (b : IRBuilder) : IRBuilder := let b := write_opcode MoveUp b in b <| ir_current_level := wrap_i32 (ir_current_level b - 1) |>.
Definition store_result (b : IRBuilder) : IRBuilder := let b := write_opcode StoreResult b in b <| ir_num_result_stores := wrap_i32 (ir_num_result_stores b + 1) |>.
Definition expression_string_equals (s : bytes) (b : IRBuilder) : IRBuilder := write (write_string (x22 :: s ++ [x22])) (write_opcode ExpressionStringEquals b).
Definition builder_end (b : IRBuilder) : result Fault IRBuilder :=
  if ir_ended b then Err (JErr (Message (lit "IR has already been ended"))) else Ok (write_opcode End (b <| ir_ended := true |>)).
Record JSONPathResult := MkResult { jr_ir : bytes; jr_max_depth : N; jr_num_results : N }.
(** [i32 as usize]. *)
Definition as_usize (z : Z) : N := Z.to_N (z mod 18446744073709551616).
Definition into_result (b : IRBuilder) : result Fault JSONPathResult :=
  if negb (ir_ended b) then Err (JErr (Message (lit "Cannot convert to byte array until end() has been called")))
  else Ok (MkResult (ir_buffer b) 0 (as_usize (ir_num_result_stores b))).

(** ** The scanner *)

(** [sc_next] is [position + 1] of the source, which starts at minus one. *)
Record Scanner := MkScanner { sc_bytes : bytes; sc_next : nat; sc_marks : list nat }.
#[export] Instance Scanner_eta : Eta Scanner := fun s => MkScanner (sc_bytes s) (sc_next s) (sc_marks s).
Record JSONPathParser := MkParser { jp_scanner : Scanner; jp_ir : IRBuilder; jp_max_level : N; jp_skip_terminal_store : bool }.
#[export] Instance JSONPathParser_eta : Eta JSONPathParser := fun p => MkParser (jp_scanner p) (jp_ir p) (jp_max_level p) (jp_skip_terminal_store p).
Definition parser_new (s : bytes) : JSONPathParser := MkParser (MkScanner s 0 []) builder_new 0 false.
#[local] Notation M := (stateR JSONPathParser Fault).
Definition on_scanner (f : Scanner -> Scanner) : M unit := modify (fun p => p <| jp_scanner := f (jp_scanner p) |>).
Definition on_ir (f : IRBuilder -> IRBuilder) : M unit := modify (fun p => p <| jp_ir := f (jp_ir p) |>).
Definition with_parser {A} (f : JSONPathParser -> M A) : M A := fun p => f p p.
Definition raise {A} (e : JSONPathError) : M A := fail_with (JErr e).

Definition pos (p : JSONPathParser) : Z := (Z.of_nat (sc_next (jp_scanner p)) - 1)%Z.
(** [b as char], printed. *)
Definition char_bytes (b : byte) : bytes :=
  if (Byte.to_N b <? 128)%N then [b] else [byte_of (192 + N.shiftr (Byte.to_N b) 6); byte_of (128 + N.land (Byte.to_N b) 63)].
Definition show_pos (z : Z) : bytes := lit (pretty z).
Definition has_next (p : JSONPathParser) : bool := sc_next (jp_scanner p) <? length (sc_bytes (jp_scanner p)).
Definition eof {A} : M A := with_parser (fun p => raise (Message (lit "Expected character, got EOF at " ++ show_pos (pos p)))).
(** A byte of the text, or a panic. *)
Definition byte_at (i : nat) : M byte := fun p => match sc_bytes (jp_scanner p) !! i with Some b => (p, Ok b) | None => (p, Err JPanic) end.
Definition next : M byte := with_parser (fun p =>
  if negb (has_next p) then eof else on_scanner (fun s => s <| sc_next := S (sc_next s) |>) ;;! byte_at (sc_next (jp_scanner p))).
Definition peek : M byte := with_parser (fun p => if negb (has_next p) then eof else byte_at (sc_next (jp_scanner p))).
(** The pieces are cut at ASCII characters, so that they are valid text. *)
Definition substring (start fin : nat) : M bytes := fun p =>
  match slice start fin (sc_bytes (jp_scanner p)) with Some l => (p, Ok l) | None => (p, Err JPanic) end.
Definition expect_char (c : byte) : M unit :=
  let! n := next in
  if Byte.eqb n c then mret tt
  else with_parser (fun p => raise (Message (lit "Expected character '" ++ char_bytes c ++ lit "', got character '" ++ char_bytes n ++ lit "' at " ++ show_pos (pos p)))).
Definition skip_if_char (c : byte) : M bool := with_parser (fun p =>
  if negb (has_next p) then mret false
  else let! n := peek in if Byte.eqb n c then on_scanner (fun s => s <| sc_next := S (sc_next s) |>) ;;! mret true else mret false).
(** [error] looks at the byte read last, the other two at the next one. *)
Definition located (msg : bytes) (z : Z) (c : byte) : bytes := msg ++ lit " at " ++ show_pos z ++ lit " ('" ++ char_bytes c ++ lit "')".
Definition error {A} (msg : string) : M A := with_parser (fun p =>
  match sc_next (jp_scanner p) with
  | O => fail_with JPanic
  | S i => let! c := byte_at i in raise (Message (located (lit msg) (pos p) c))
  end).
Definition error_next {A} (msg : string) : M A := with_parser (fun p => let! c := byte_at (sc_next (jp_scanner p)) in raise (Message (located (lit msg) (pos p + 1) c))).
Definition unsupported_next {A} (msg : string) : M A := with_parser (fun p => let! c := byte_at (sc_next (jp_scanner p)) in raise (Unsupported (located (lit msg) (pos p + 1) c))).
Definition mark : M unit := on_scanner (fun s => s <| sc_marks := sc_next s :: sc_marks s |>).
Definition reset : M unit := on_scanner (fun s => match sc_marks s with m :: ms => s <| sc_next := m |> <| sc_marks := ms |> | [] => s end).

(** ** Tokens *)

(** The loops read on as long as there are bytes: their number is fuel enough. *)
Definition fuel_of (p : JSONPathParser) : nat := S (length (sc_bytes (jp_scanner p))).
Fixpoint property_loop (fuel : nat) : M unit :=
  match fuel with
  | O => fail_with OutOfFuel
  | S fuel' => with_parser (fun p =>
      if has_next p then
        let! c := peek in
         if Byte.eqb c x20 then error_next "Unexpected space"
         else if Byte.eqb c x2e || Byte.eqb c x5b then mret tt
         else next ;;! property_loop fuel'
      else mret tt)
  end.
Definition read_property : M bytes := with_parser (fun p =>
  let start := sc_next (jp_scanner p) in
  property_loop (fuel_of p) ;;! with_parser (fun p => substring start (sc_next (jp_scanner p)))).
Fixpoint quoted_loop (fuel : nat) (quote : byte) (escaped : bool) : M unit :=
  match fuel with
  | O => fail_with OutOfFuel
  | S fuel' => with_parser (fun p =>
      if has_next p then
        let! c := peek in
         if escaped then next ;;! quoted_loop fuel' quote false
         else if Byte.eqb c x5c then next ;;! quoted_loop fuel' quote true
         else if Byte.eqb c quote then mret tt
         else next ;;! quoted_loop fuel' quote false
      else mret tt)
  end.
Definition read_quoted_string : M bytes :=
  let! quote := next in
  if negb (Byte.eqb quote x27) && negb (Byte.eqb quote x22) then error "Invalid quoted string"
  else with_parser (fun p =>
    let start := sc_next (jp_scanner p) in
    quoted_loop (fuel_of p) quote false ;;!
    with_parser (fun p => let fin := sc_next (jp_scanner p) in expect_char quote ;;! substring start fin)).
Fixpoint integer_loop (fuel : nat) (is_end : byte -> bool) : M unit :=
  match fuel with
  | O => fail_with OutOfFuel
  | S fuel' => with_parser (fun p =>
      if has_next p then
        let! c := peek in
         if is_digit_byte c then next ;;! integer_loop fuel' is_end
         else if is_end c then mret tt
         else error "Invalid integer"
      else mret tt)
  end.
Definition i32_max : N := 2147483647.
Definition read_integer (is_end : byte -> bool) : M Z := with_parser (fun p =>
  let start := sc_next (jp_scanner p) in
  integer_loop (fuel_of p) is_end ;;!
  let! s := with_parser (fun p => substring start (sc_next (jp_scanner p))) in
  match parse_uint i32_max s with Some n => mret (Z.of_N n) | None => error "Invalid integer" end).
Fixpoint skip_spaces (fuel : nat) : M unit :=
  match fuel with
  | O => fail_with OutOfFuel
  | S fuel' => let! b := skip_if_char x20 in if (b : bool) then skip_spaces fuel' else mret tt
  end.

(** ** The compiler *)

Definition create_property_ir (name : bytes) : M unit := on_ir (down ∘ property name) ;;! modify (fun p => p <| jp_max_level := (jp_max_level p + 1)%N |>).
Definition create_index_ir (i : Z) : M unit := on_ir (down ∘ index i) ;;! modify (fun p => p <| jp_max_level := (jp_max_level p + 1)%N |>).
Definition named_property (name : bytes) : M unit := if bool_decide (name = []) then error "Unexpected empty property" else create_property_ir name.

Definition compile_dot_expression : M unit :=
  expect_char x2e ;;!
  let! c := peek in
  if Byte.eqb c x2e then unsupported_next "Unsupported recursive descent"
  else let! name := read_property in named_property name.
Definition compile_filter_expression : M unit :=
  expect_char x3f ;;! expect_char x28 ;;! expect_char x40 ;;!
  with_parser (fun p => skip_spaces (fuel_of p)) ;;!
  let! c := peek in
  (if Byte.eqb c x3d then
     expect_char x3d ;;! expect_char x3d ;;! with_parser (fun p => skip_spaces (fuel_of p)) ;;!
     let! s := read_quoted_string in on_ir (expression_string_equals s)
   else unsupported_next "Unsupported character for expression") ;;!
  expect_char x29.

Section Ranges.
(** [compile_expressions] on the rest of the path. *)
Context (rest : M unit).
(** One index of a range; the deepest level seen goes with the loop. *)
Definition range_step (end_index : Z) (deepest : N) (i : Z) : M N := with_parser (fun p =>
  let start_level := ir_current_level (jp_ir p) in
  on_ir (down ∘ index i) ;;! mark ;;!
   let! current_max_level := gets jp_max_level in
   with_parser (fun p => if has_next p then rest else mret tt) ;;!
   let! reached := gets jp_max_level in
   modify (fun p => p <| jp_max_level := current_max_level |>) ;;!
   on_ir store_result ;;! reset ;;!
   on_ir (fun b => Nat.iter (Z.to_nat (wrap_i32 (ir_current_level b - start_level))) up b) ;;!
   (if (i =? end_index - 1)%Z then modify (fun p => p <| jp_skip_terminal_store := true |>) else mret tt) ;;!
   mret (N.max deepest reached)).
Fixpoint range_loop (end_index : Z) (todo : list Z) (deepest : N) : M N :=
  match todo with [] => mret deepest | i :: todo' => let! deepest := range_step end_index deepest i in range_loop end_index todo' deepest end.
Definition compile_index_range_expression (start_index : Z) : M unit :=
  expect_char x3a ;;!
  let! end_index := read_integer (fun c => Byte.eqb c x5d) in
  expect_char x5d ;;!
  let! deepest := gets jp_max_level in
  let! deepest := range_loop end_index (seqZ start_index (end_index - start_index)) deepest in
  modify (fun p => p <| jp_max_level := (deepest + 1)%N |>).
Definition compile_index_expression : M unit :=
  expect_char x5b ;;!
  let! n := peek in
  if Byte.eqb n x27 || Byte.eqb n x22 then (let! name := read_quoted_string in named_property name) ;;! expect_char x5d
  else if is_digit_byte n then
    let! i := read_integer (fun c => Byte.eqb c x5d || Byte.eqb c x3a || Byte.eqb c x2c) in
    let! c := peek in
    if Byte.eqb c x3a then compile_index_range_expression i
    else if Byte.eqb c x2c then unsupported_next "Unsupported multiple index expression"
    else if Byte.eqb c x5d then create_index_ir i ;;! expect_char x5d
    else error_next "Unexpected character in index"
  else if Byte.eqb n x2a then unsupported_next "Unsupported wildcard expression"
  else if Byte.eqb n x3f then compile_filter_expression ;;! expect_char x5d
  else error_next ("Unexpected character in index, expected ', " +:+ str [x22] +:+ "', or an integer").
Definition compile_next_expression : M unit :=
  let! c := peek in
  if Byte.eqb c x2e then compile_dot_expression
  else if Byte.eqb c x5b then compile_index_expression
  else unsupported_next "Unsupported expression type".
End Ranges.
Fixpoint compile_expressions (fuel : nat) : M unit :=
  match fuel with
  | O => fail_with OutOfFuel
  | S fuel' => with_parser (fun p => if has_next p then compile_next_expression (compile_expressions fuel') ;;! compile_expressions fuel' else mret tt)
  end.
Definition compile_root (fuel : nat) : M unit :=
  expect_char x24 ;;! compile_expressions fuel ;;! with_parser (fun p => if jp_skip_terminal_store p then mret tt else on_ir store_result).
Definition compile (s : bytes) : result Fault JSONPathResult :=
  match compile_root (S (length s)) (parser_new s) with
  | (_, Err e) => Err e
  | (p, Ok _) => b ← builder_end (jp_ir p); into_result b
  end.

(** ** The queries of a file *)

(** The front of [query_file], before anything is sent to the device: the
    compiled queries with the largest program and the most results. *)
Inductive QueryError : Set := QJsonPath (e : JSONPathError) | InvalidQueryInput (msg : bytes) | QUnsupported (msg : bytes) | QFault.
Definition MAX_NUM_LEVELS : N := 16.
Record Compiled := MkCompiled { cq_programs : list JSONPathResult; cq_max_depth : N; cq_max_query_size : N; cq_max_results : N }.
Definition compile_query (acc : result QueryError Compiled) (query : bytes) : result QueryError Compiled :=
  c ← acc;
  match compile query with
  | Ok r => Ok (MkCompiled (cq_programs c ++ [r]) (N.max (cq_max_depth c) (jr_max_depth r)) (N.max (cq_max_query_size c) (lenN (jr_ir r))) (N.max (cq_max_results c) (jr_num_results r)))
  | Err (JErr e) => Err (QJsonPath e)
  | Err _ => Err QFault
  end.
Definition prepare (file : bytes) (queries : list bytes) : result QueryError Compiled :=
  if bool_decide (queries = []) then Err (InvalidQueryInput (lit "expected at least one query"))
  else if bool_decide (file = []) then Err (InvalidQueryInput (lit "input file is empty"))
  else
    c ← foldl compile_query (Ok (MkCompiled [] 0 0 0)) queries;
    if (cq_max_depth c =? 0)%N then Err (InvalidQueryInput (lit "query produced zero depth"))
    else if (MAX_NUM_LEVELS <? cq_max_depth c)%N then
      Err (QUnsupported (lit "max depth " ++ dec (cq_max_depth c) ++ lit " exceeds MAX_NUM_LEVELS " ++ dec MAX_NUM_LEVELS))
    else Ok c.

(** ** The compiler neither panics nor runs out of fuel *)

Definition room (p : JSONPathParser) : nat := length (sc_bytes (jp_scanner p)) - sc_next (jp_scanner p).
(** After the first character the scanner is inside the text. *)
Definition inside (p : JSONPathParser) : Prop := 1 <= sc_next (jp_scanner p) <= length (sc_bytes (jp_scanner p)).
(** [p'] is [p] after at least [k] more characters. *)
Definition later (k : nat) (p p' : JSONPathParser) : Prop :=
  sc_bytes (jp_scanner p') = sc_bytes (jp_scanner p) /\ sc_marks (jp_scanner p') = sc_marks (jp_scanner p) /\
  sc_next (jp_scanner p) + k <= sc_next (jp_scanner p') <= length (sc_bytes (jp_scanner p)).
Lemma later_inside k p p' : inside p -> later k p p' -> inside p'.
Proof. unfold inside, later. intros Hi (-> & _ & Hn). lia. Qed.
Lemma later_room k p p' : later k p p' -> room p' + k <= room p.
Proof. unfold later, room. intros (-> & _ & Hn). lia. Qed.
Lemma later_trans k1 k2 k p p1 p2 : later k1 p p1 -> later k2 p1 p2 -> k <= k1 + k2 -> later k p p2.
Proof. unfold later. intros (E1 & E2 & H1) (E3 & E4 & H2) Hk. rewrite E1 in H2. split_and!; [congruence|congruence|lia|lia]. Qed.
Lemma later_scanner p p' : inside p -> jp_scanner p' = jp_scanner p -> later 0 p p'.
Proof. unfold inside, later. intros Hi ->. split_and!; [done|done|lia|lia]. Qed.

(** [m] ends in [Q] or with an error of the source. *)
Definition wp {A} (m : M A) (Q : A -> JSONPathParser -> Prop) (p : JSONPathParser) : Prop :=
  match m p with (p', Ok a) => Q a p' | (_, Err (JErr _)) => True | (_, Err _) => False end.
Implicit Types (p : JSONPathParser).
Lemma wp_mono {A} (m : M A) (Q Q' : A -> JSONPathParser -> Prop) p : wp m Q p -> (forall a p', Q a p' -> Q' a p') -> wp m Q' p.
Proof. unfold wp. intros Hw HQ. destruct (m p) as [p' [a|[]]]; auto. Qed.
Lemma wp_bind {A B} (m : M A) (f : A -> M B) (Q : B -> JSONPathParser -> Prop) p : wp m (fun a p' => wp (f a) Q p') p -> wp (mbind f m) Q p.
Proof. unfold wp, mbind, stateR_bind. destruct (m p) as [p' [a|[]]]; auto. Qed.
Lemma wp_with {A} (f : JSONPathParser -> M A) Q p : wp (f p) Q p -> wp (with_parser f) Q p.
Proof. done. Qed.
Lemma wp_ret {A} (a : A) (Q : A -> JSONPathParser -> Prop) p : Q a p -> wp (mret a) Q p.
Proof. done. Qed.
Lemma wp_raise {A} e (Q : A -> JSONPathParser -> Prop) p : wp (raise e) Q p.
Proof. done. Qed.
Lemma wp_byte_at i (Q : byte -> JSONPathParser -> Prop) p : i < length (sc_bytes (jp_scanner p)) -> (forall c, sc_bytes (jp_scanner p) !! i = Some c -> Q c p) -> wp (byte_at i) Q p.
Proof. intros Hi HQ. unfold wp, byte_at. destruct (lookup_lt_is_Some_2 _ _ Hi) as [c Hc]. rewrite Hc. by apply HQ. Qed.
Lemma wp_error {A} msg (Q : A -> JSONPathParser -> Prop) p : inside p -> wp (error msg) Q p.
Proof. intros [H1 H2]. unfold error. apply wp_with. destruct (sc_next _) as [|i] eqn:E; [lia|]. apply wp_bind, wp_byte_at; [lia|]. done. Qed.
Lemma wp_error_next {A} msg (Q : A -> JSONPathParser -> Prop) p : has_next p = true -> wp (error_next msg) Q p.
Proof. intros Hn%Nat.ltb_lt. unfold error_next. apply wp_with, wp_bind, wp_byte_at; [done|]. done. Qed.
Lemma wp_unsupported_next {A} msg (Q : A -> JSONPathParser -> Prop) p : has_next p = true -> wp (unsupported_next msg) Q p.
Proof. intros Hn%Nat.ltb_lt. unfold unsupported_next. apply wp_with, wp_bind, wp_byte_at; [done|]. done. Qed.
Lemma wp_on_ir f (Q : unit -> JSONPathParser -> Prop) p : Q tt (p <| jp_ir := f (jp_ir p) |>) -> wp (on_ir f) Q p.
Proof. done. Qed.
Lemma wp_modify f (Q : unit -> JSONPathParser -> Prop) p : Q tt (f p) -> wp (modify f) Q p.
Proof. done. Qed.
Lemma wp_gets {A} (f : JSONPathParser -> A) Q p : Q (f p) p -> wp (gets f) Q p.
Proof. done. Qed.
Lemma wp_peek (Q : byte -> JSONPathParser -> Prop) p : (forall c, has_next p = true -> Q c p) -> wp peek Q p.
Proof. intros HQ. unfold peek. apply wp_with. destruct (has_next p) eqn:En; [|done]. apply wp_byte_at; [by apply Nat.ltb_lt|]. auto. Qed.
Lemma wp_next (Q : byte -> JSONPathParser -> Prop) p : (forall c p', later 1 p p' -> Q c p') -> wp next Q p.
Proof.
  intros HQ. unfold next. apply wp_with. destruct (has_next p) eqn:En; [|done]. apply Nat.ltb_lt in En. apply wp_bind, wp_modify, wp_byte_at; [done|].
  intros c _. apply HQ. unfold later. cbn. split_and!; [done|done|lia|lia].
Qed.
Lemma wp_expect_char c (Q : unit -> JSONPathParser -> Prop) p : (forall p', later 1 p p' -> Q tt p') -> wp (expect_char c) Q p.
Proof. intros HQ. apply wp_bind, wp_next. intros n p' Hl. destruct (Byte.eqb n c); [by apply HQ|done]. Qed.
Lemma wp_substring start fin (Q : bytes -> JSONPathParser -> Prop) p : start <= fin <= length (sc_bytes (jp_scanner p)) -> (forall l, Q l p) -> wp (substring start fin) Q p.
Proof. intros Hr HQ. unfold wp, substring, slice. rewrite (proj2 (Nat.leb_le _ _)), (proj2 (Nat.leb_le _ _)) by lia. apply HQ. Qed.

(** A step of a loop: read a character and go on. *)
Lemma wp_next_loop {A} (m : M A) fuel p : inside p -> room p < S fuel ->
  (forall p', inside p' -> room p' < fuel -> wp m (fun _ p2 => later 0 p' p2) p') -> wp (next ;;! m) (fun _ p2 => later 0 p p2) p.
Proof.
  intros Hi Hr Hm. apply wp_bind, wp_next. intros _ p' Hl. pose proof (later_room _ _ _ Hl). eapply wp_mono; [apply Hm; [by eapply later_inside|lia]|].
  cbn. intros _ p2 Hl2. by eapply later_trans; [done..|lia].
Qed.
Lemma property_loop_wp fuel p : inside p -> room p < fuel -> wp (property_loop fuel) (fun _ p' => later 0 p p') p.
Proof.
  revert p. induction fuel as [|fuel IH]; intros p Hi Hr; [lia|]. cbn [property_loop]. apply wp_with. destruct (has_next p) eqn:En; [|by apply wp_ret, later_scanner].
  apply wp_bind, wp_peek. intros c Hn. destruct (Byte.eqb c x20); [by apply wp_error_next|]. destruct (_ || _); [by apply wp_ret, later_scanner|]. by apply (wp_next_loop _ fuel).
Qed.
Lemma quoted_loop_wp fuel quote : forall escaped p, inside p -> room p < fuel -> wp (quoted_loop fuel quote escaped) (fun _ p' => later 0 p p') p.
Proof.
  induction fuel as [|fuel IH]; intros escaped p Hi Hr; [lia|]. cbn [quoted_loop]. apply wp_with. destruct (has_next p) eqn:En; [|by apply wp_ret, later_scanner].
  apply wp_bind, wp_peek. intros c Hn. destruct escaped; [by apply (wp_next_loop _ fuel); auto|]. destruct (Byte.eqb c x5c); [by apply (wp_next_loop _ fuel); auto|].
  destruct (Byte.eqb c quote); [by apply wp_ret, later_scanner|]. by apply (wp_next_loop _ fuel); auto.
Qed.
Lemma integer_loop_wp fuel is_end p : inside p -> room p < fuel -> wp (integer_loop fuel is_end) (fun _ p' => later 0 p p') p.
Proof.
  revert p. induction fuel as [|fuel IH]; intros p Hi Hr; [lia|]. cbn [integer_loop]. apply wp_with. destruct (has_next p) eqn:En; [|by apply wp_ret, later_scanner].
  apply wp_bind, wp_peek. intros c Hn. destruct (is_digit_byte c); [by apply (wp_next_loop _ fuel)|]. destruct (is_end c); [by apply wp_ret, later_scanner|by apply wp_error].
Qed.
Lemma skip_spaces_wp fuel p : inside p -> room p < fuel -> wp (skip_spaces fuel) (fun _ p' => later 0 p p') p.
Proof.
  revert p. induction fuel as [|fuel IH]; intros p Hi Hr; [lia|]. cbn [skip_spaces]. apply wp_bind, wp_with. destruct (has_next p) eqn:En; [|by apply wp_ret, wp_ret, later_scanner].
  apply wp_bind, wp_peek. intros c _. destruct (Byte.eqb c x20); [|by apply wp_ret, wp_ret, later_scanner]. apply wp_bind, wp_modify, wp_ret. apply Nat.ltb_lt in En.
  set (p1 := p <| jp_scanner := _ |>). assert (Hl : later 1 p p1) by (unfold later; cbn; split_and!; [done|done|lia|lia]). pose proof (later_room _ _ _ Hl).
  eapply wp_mono; [apply IH; [by eapply later_inside|lia]|]. cbn. intros _ p2 Hl2. by eapply later_trans; [done..|lia].
Qed.
Lemma fuel_of_room p : room p < fuel_of p.
Proof. unfold room, fuel_of. lia. Qed.

Lemma read_property_wp p : inside p -> wp read_property (fun _ p' => later 0 p p') p.
Proof.
  intros Hi. apply wp_with, wp_bind. eapply wp_mono; [apply property_loop_wp; [done|apply fuel_of_room]|]. cbn. intros _ p' Hl. apply wp_with, wp_substring; [|done].
  destruct Hl as (-> & _ & Hn). lia.
Qed.
Lemma read_quoted_string_wp p : inside p -> wp read_quoted_string (fun _ p' => later 1 p p') p.
Proof.
  intros Hi. apply wp_bind, wp_next. intros quote p1 Hl1. assert (Hi1 : inside p1) by (by eapply later_inside). destruct (_ && _); [by apply wp_error|].
  apply wp_with, wp_bind. eapply wp_mono; [apply quoted_loop_wp; [done|apply fuel_of_room]|]. cbn. intros _ p2 Hl2. apply wp_with, wp_bind, wp_expect_char. intros p3 Hl3.
  apply wp_substring; [|intros _; eapply later_trans; [exact Hl1|eapply later_trans; [exact Hl2|exact Hl3|reflexivity]|lia]].
  destruct Hl3 as (-> & _ & Hn3), Hl2 as (E2 & _ & Hn2). rewrite E2 in *. lia.
Qed.
Lemma read_integer_wp is_end p : inside p -> wp (read_integer is_end) (fun _ p' => later 0 p p') p.
Proof.
  intros Hi. apply wp_with, wp_bind. eapply wp_mono; [apply integer_loop_wp; [done|apply fuel_of_room]|]. cbn. intros _ p' Hl. apply wp_bind, wp_with, wp_substring; [destruct Hl as (-> & _ & Hn); lia|].
  intros l. destruct (parse_uint _ _); [by apply wp_ret|]. apply wp_error. by eapply later_inside.
Qed.
Lemma named_property_wp name p : inside p -> wp (named_property name) (fun _ p' => later 0 p p') p.
Proof. intros Hi. unfold named_property. case_bool_decide; [by apply wp_error|]. apply wp_bind, wp_on_ir, wp_modify. by apply later_scanner. Qed.
Lemma wp_then {A B} k1 k2 k (m : M A) (f : A -> M B) p : inside p -> wp m (fun _ p' => later k1 p p') p ->
  (forall a p', inside p' -> later k1 p p' -> wp (f a) (fun _ p2 => later k2 p' p2) p') -> k <= k1 + k2 -> wp (mbind f m) (fun _ p2 => later k p p2) p.
Proof.
  intros Hi Hm Hf Hk. apply wp_bind. eapply wp_mono; [exact Hm|]. cbn. intros a p' Hl. eapply wp_mono; [apply Hf; [by eapply later_inside|done]|].
  cbn. intros _ p2 Hl2. by eapply later_trans.
Qed.
Lemma expect_char_wp c p : wp (expect_char c) (fun _ p' => later 1 p p') p.
Proof. by apply wp_expect_char. Qed.
Lemma compile_dot_wp p : inside p -> wp compile_dot_expression (fun _ p' => later 1 p p') p.
Proof.
  intros Hi. apply (wp_then 1 0); [done|apply expect_char_wp| |lia]. intros _ p1 Hi1 _. apply wp_bind, wp_peek. intros c Hn. destruct (Byte.eqb c x2e); [by apply wp_unsupported_next|].
  apply (wp_then 0 0); [done|by apply read_property_wp| |lia]. intros name p2 Hi2 _. by apply named_property_wp.
Qed.
Lemma compile_filter_wp p : inside p -> wp compile_filter_expression (fun _ p' => later 1 p p') p.
Proof.
  intros Hi. apply (wp_then 1 0); [done|apply expect_char_wp| |lia]. intros _ p1 Hi1 _. apply (wp_then 1 0); [done|apply expect_char_wp| |lia]. intros _ p2 Hi2 _.
  apply (wp_then 1 0); [done|apply expect_char_wp| |lia]. intros _ p3 Hi3 _. apply (wp_then 0 0); [done|apply wp_with, skip_spaces_wp; [done|apply fuel_of_room]| |lia]. intros _ p4 Hi4 _.
  apply wp_bind, wp_peek. intros c Hn. apply (wp_then 0 1); [done| |intros; apply expect_char_wp|lia]. destruct (Byte.eqb c x3d); [|by apply wp_unsupported_next].
  apply (wp_then 1 0); [done|apply expect_char_wp| |lia]. intros _ p5 Hi5 _. apply (wp_then 1 0); [done|apply expect_char_wp| |lia]. intros _ p6 Hi6 _.
  apply (wp_then 0 0); [done|apply wp_with, skip_spaces_wp; [done|apply fuel_of_room]| |lia]. intros _ p7 Hi7 _.
  apply (wp_then 1 0); [done|by apply read_quoted_string_wp| |lia]. intros s p8 Hi8 _. apply wp_on_ir. by apply later_scanner.
Qed.

(** The rest of the path is compiled with enough fuel for what is left. *)
Section RangesWp.
Context (rest : M unit) (n : nat).
Hypothesis rest_wp : forall p, inside p -> room p < n -> wp rest (fun _ p' => later 0 p p') p.
Lemma range_step_wp end_index deepest i p : inside p -> room p < n -> wp (range_step rest end_index deepest i) (fun _ p' => later 0 p p') p.
Proof.
  intros Hi Hr. apply wp_with, wp_bind, wp_on_ir, wp_bind, wp_modify, wp_bind, wp_gets, wp_bind. set (p1 := _ <| jp_scanner := _ |>).
  assert (Hi1 : inside p1) by done. assert (Hr1 : room p1 < n) by done.
  assert (Hrest : wp (with_parser (fun p => if has_next p then rest else mret tt)) (fun _ p' => later 0 p1 p') p1).
  { apply wp_with. destruct (has_next p1); [by apply rest_wp|by apply wp_ret, later_scanner]. }
  eapply wp_mono; [exact Hrest|]. cbn beta. intros _ p2 (Eb & Em & _). apply wp_bind, wp_gets, wp_bind, wp_modify, wp_bind, wp_on_ir, wp_bind, wp_modify, wp_bind, wp_on_ir, wp_bind.
  destruct (_ =? _)%Z; [apply wp_modify, wp_ret|apply wp_ret, wp_ret]; unfold later; cbn; rewrite Em; cbn; (split_and!; [exact Eb|done|lia|unfold inside in Hi; lia]).
Qed.
Lemma range_loop_wp end_index todo : forall deepest p, inside p -> room p < n -> wp (range_loop rest end_index todo deepest) (fun _ p' => later 0 p p') p.
Proof.
  induction todo as [|i todo IH]; intros deepest p Hi Hr; cbn [range_loop]; [by apply wp_ret, later_scanner|].
  apply (wp_then 0 0); [done|by apply range_step_wp| |lia]. intros d p' Hi' Hl. apply IH; [done|]. pose proof (later_room _ _ _ Hl). lia.
Qed.
Lemma compile_range_wp start_index p : inside p -> room p <= n -> wp (compile_index_range_expression rest start_index) (fun _ p' => later 1 p p') p.
Proof.
  intros Hi Hr. apply (wp_then 1 0); [done|apply expect_char_wp| |lia]. intros _ p1 Hi1 Hl1. pose proof (later_room _ _ _ Hl1).
  apply (wp_then 0 0); [done|by apply read_integer_wp| |lia]. intros end_index p2 Hi2 Hl2. pose proof (later_room _ _ _ Hl2).
  apply (wp_then 1 0); [done|apply expect_char_wp| |lia]. intros _ p3 Hi3 Hl3. pose proof (later_room _ _ _ Hl3). apply wp_bind, wp_gets.
  apply (wp_then 0 0); [done|apply range_loop_wp; [done|lia]| |lia]. intros d p4 Hi4 _. apply wp_modify. by apply later_scanner.
Qed.
Lemma compile_index_wp p : inside p -> room p <= S n -> wp (compile_index_expression rest) (fun _ p' => later 1 p p') p.
Proof.
  intros Hi Hr. apply (wp_then 1 0); [done|apply expect_char_wp| |lia]. intros _ p1 Hi1 Hl1. pose proof (later_room _ _ _ Hl1). apply wp_bind, wp_peek. intros c Hn.
  destruct (_ || _).
  { apply (wp_then 0 1); [done| |intros; apply expect_char_wp|lia]. apply (wp_then 1 0); [done|by apply read_quoted_string_wp| |lia]. intros name p2 Hi2 _. by apply named_property_wp. }
  destruct (is_digit_byte c).
  { apply (wp_then 0 0); [done|by apply read_integer_wp| |lia]. intros i p2 Hi2 Hl2. pose proof (later_room _ _ _ Hl2). apply wp_bind, wp_peek. intros c2 Hn2.
    destruct (Byte.eqb c2 x3a); [eapply wp_mono; [apply compile_range_wp; [done|lia]|]; cbn; intros _ p3 (E1 & E2 & Hb); split_and!; [done|done|lia|lia]|].
    destruct (Byte.eqb c2 x2c); [by apply wp_unsupported_next|]. destruct (Byte.eqb c2 x5d); [|by apply wp_error_next].
    apply (wp_then 0 1); [done|apply wp_bind, wp_on_ir, wp_modify; by apply later_scanner|intros; apply expect_char_wp|lia]. }
  destruct (Byte.eqb c x2a); [by apply wp_unsupported_next|]. destruct (Byte.eqb c x3f); [|by apply wp_error_next].
  apply (wp_then 1 1); [done|by apply compile_filter_wp|intros; apply expect_char_wp|lia].
Qed.
Lemma compile_next_wp p : inside p -> room p <= S n -> wp (compile_next_expression rest) (fun _ p' => later 1 p p') p.
Proof.
  intros Hi Hr. apply wp_bind, wp_peek. intros c Hn. destruct (Byte.eqb c x2e); [by apply compile_dot_wp|]. destruct (Byte.eqb c x5b); [by apply compile_index_wp|by apply wp_unsupported_next].
Qed.
End RangesWp.
Lemma compile_expressions_wp fuel : forall p, inside p -> room p < fuel -> wp (compile_expressions fuel) (fun _ p' => later 0 p p') p.
Proof.
  induction fuel as [|fuel IH]; intros p Hi Hr; [lia|]. cbn [compile_expressions]. apply wp_with. destruct (has_next p); [|by apply wp_ret, later_scanner].
  apply (wp_then 1 0); [done|apply (compile_next_wp _ fuel IH); [done|lia]| |lia]. intros _ p' Hi' Hl. apply IH; [done|]. pose proof (later_room _ _ _ Hl). lia.
Qed.

(** The compiler ends on every text without a panic and within the fuel it is
    given, with a program or with an error of its own. *)
Theorem compile_total s : (exists r, compile s = Ok r /\ jr_max_depth r = 0%N) \/ (exists e, compile s = Err (JErr e)).
Proof.
  assert (Hw : wp (compile_root (S (length s))) (fun _ _ => True) (parser_new s)).
  { apply wp_bind, wp_expect_char. intros p (Eb & _ & Hn). cbn in Eb, Hn. apply wp_bind. eapply wp_mono; [apply compile_expressions_wp|].
    - unfold inside. rewrite Eb. lia.
    - unfold room. rewrite Eb. lia.
    - cbn. intros _ p' _. apply wp_with. by destruct (jp_skip_terminal_store p'). }
  unfold wp in Hw. unfold compile. destruct (compile_root _ _) as [p [[]|[e| |]]]; [|by eauto|done..].
  unfold builder_end. destruct (ir_ended _); [by eauto|]. left. eexists. done.
Qed.
Lemma compile_depth s r : compile s = Ok r -> jr_max_depth r = 0%N.
Proof. intros Hr. destruct (compile_total s) as [(r' & Hr' & Hd)|(e & He)]; congruence. Qed.

Definition zero_depth : QueryError := InvalidQueryInput (lit "query produced zero depth").
Lemma compile_queries_depth queries : forall c, cq_max_depth c = 0%N ->
  match foldl compile_query (Ok c) queries with Ok c' => cq_max_depth c' = 0%N | Err e => e <> QFault /\ ~ Forall (fun q => is_ok (compile q) = true) queries end.
Proof.
  induction queries as [|q queries IH]; intros c Hc; [done|]. cbn [foldl compile_query mbind result_bind]. destruct (compile_total q) as [(r & Hr & Hd)|(e & He)].
  - rewrite Hr. specialize (IH (MkCompiled (cq_programs c ++ [r]) (N.max (cq_max_depth c) (jr_max_depth r)) (N.max (cq_max_query_size c) (lenN (jr_ir r))) (N.max (cq_max_results c) (jr_num_results r)))).
    rewrite Hc, Hd in *. specialize (IH eq_refl). destruct (foldl _ _ _); [done|]. split; [apply IH|]. intros Hf. apply Forall_cons in Hf as [_ Hf]. by apply IH.
  - rewrite He. replace (foldl compile_query (Err (QJsonPath e)) queries) with (Err (A := Compiled) (QJsonPath e)) by (clear; induction queries; cbn; done).
    split; [done|]. intros Hf. apply Forall_cons in Hf as [Hf _]. by rewrite He in Hf.
Qed.
(** C26: no query is ever run: whatever the file and the queries, they are
    refused, and queries that compile are refused for their depth, which the
    builder reports as zero for every path. *)
Theorem queries_never_run file queries : exists e, prepare file queries = Err e /\ e <> QFault /\
  (queries <> [] -> file <> [] -> Forall (fun q => is_ok (compile q) = true) queries -> e = zero_depth).
Proof.
  unfold prepare. case_bool_decide as Hq; [eexists; split_and!; [done|done|by intros ?]|]. case_bool_decide as Hf; [eexists; split_and!; [done|done|by intros ??]|].
  pose proof (compile_queries_depth queries (MkCompiled [] 0 0 0) eq_refl) as Hd. destruct (foldl _ _ _) as [c|e]; cbn [mbind result_bind].
  - rewrite Hd. cbn. eexists. by split_and!.
  - exists e. split_and!; [done|by apply Hd|]. intros _ _ Hall. by apply Hd in Hall.
Qed.

(** ** Plain paths *)

(** The steps a path is written with, without ranges and filters. *)
Inductive PathStep : Set := Dot (name : bytes) | Quoted (name : bytes) | Idx (i : N).
Definition print_step (st : PathStep) : bytes :=
  match st with Dot name => x2e :: name | Quoted name => [x5b; x27] ++ name ++ [x27; x5d] | Idx i => x5b :: dec i ++ [x5d] end.
Definition plain (b : byte) : bool := negb (Byte.eqb b x20) && negb (Byte.eqb b x2e) && negb (Byte.eqb b x5b).
Definition unquoted (b : byte) : bool := negb (Byte.eqb b x5c) && negb (Byte.eqb b x27).
Definition step_ok (st : PathStep) : bool :=
  match st with
  | Dot name => negb (bool_decide (name = [])) && forallb plain name
  | Quoted name => negb (bool_decide (name = [])) && forallb unquoted name
  | Idx i => (i <=? i32_max)%N
  end.
(** What a step is compiled to: go to the key or the index, and down. *)
Definition step_ir (st : PathStep) : IRBuilder -> IRBuilder := match st with Dot name | Quoted name => down ∘ property name | Idx i => down ∘ index (Z.of_N i) end.
Definition step_code (st : PathStep) : bytes :=
  match st with Dot name | Quoted name => [x04] ++ write_string name ++ [x03] | Idx i => [x05] ++ write_varint i ++ [x03] end.

(** Decide comparisons of given bytes. *)
Ltac eqb_bytes :=
  repeat match goal with |- context [Byte.eqb ?a ?b] =>
    let v := eval vm_compute in (Byte.eqb a b) in
    match v with true => idtac | false => idtac end; change (Byte.eqb a b) with v end; cbn [negb andb orb]; cbv iota.
(** The scanner between [pre] and [l]. *)
Definition cursor (pre l : bytes) (ms : list nat) (ir : IRBuilder) (level : N) (skip : bool) : JSONPathParser := MkParser (MkScanner (pre ++ l) (length pre) ms) ir level skip.
Section Cursor.
Context (ms : list nat) (skip : bool).
Implicit Types (pre l name rest : bytes) (ir : IRBuilder) (level : N).
Lemma bind_ok {A B} (m : M A) (f : A -> M B) p p' a : m p = (p', Ok a) -> mbind f m p = f a p'.
Proof. intros Hm. unfold mbind, stateR_bind. by rewrite Hm. Qed.
Lemma cursor_step pre c l : pre ++ c :: l = (pre ++ [c]) ++ l.
Proof. by rewrite <- app_assoc. Qed.
Lemma has_next_cons pre c l ir level : has_next (cursor pre (c :: l) ms ir level skip) = true.
Proof. apply Nat.ltb_lt. cbn. rewrite length_app. cbn. lia. Qed.
Lemma has_next_nil pre ir level : has_next (cursor pre [] ms ir level skip) = false.
Proof. unfold has_next. cbn. rewrite app_nil_r. apply Nat.ltb_irrefl. Qed.
Lemma byte_at_cursor pre c l ir level : byte_at (length pre) (cursor pre (c :: l) ms ir level skip) = (cursor pre (c :: l) ms ir level skip, Ok c).
Proof. unfold byte_at. cbn. by rewrite list_lookup_middle. Qed.
Lemma peek_cursor pre c l ir level : peek (cursor pre (c :: l) ms ir level skip) = (cursor pre (c :: l) ms ir level skip, Ok c).
Proof. unfold peek, with_parser. rewrite has_next_cons. apply byte_at_cursor. Qed.
Lemma next_cursor pre c l ir level : next (cursor pre (c :: l) ms ir level skip) = (cursor (pre ++ [c]) l ms ir level skip, Ok c).
Proof.
  unfold next, with_parser. rewrite has_next_cons. cbn [negb]. unfold byte_at, cursor, mbind, stateR_bind. cbn. rewrite list_lookup_middle by done.
  rewrite <- app_assoc, length_app. cbn. by rewrite Nat.add_1_r.
Qed.
Lemma expect_cursor pre c l ir level : expect_char c (cursor pre (c :: l) ms ir level skip) = (cursor (pre ++ [c]) l ms ir level skip, Ok tt).
Proof. unfold expect_char. rewrite (bind_ok _ _ _ _ _ (next_cursor _ _ _ _ _)). assert (Byte.eqb c c = true) as -> by by destruct c. done. Qed.
Lemma substring_cursor pre name rest ir level : substring (length pre) (length (pre ++ name)) (cursor (pre ++ name) rest ms ir level skip) = (cursor (pre ++ name) rest ms ir level skip, Ok name).
Proof.
  unfold substring, slice. cbn. rewrite !length_app, (proj2 (Nat.leb_le _ _)), (proj2 (Nat.leb_le _ _)) by lia. cbn.
  rewrite <- app_assoc, drop_app_length, Nat.add_comm, Nat.add_sub. by rewrite take_app_length.
Qed.

Definition stops rest : Prop := match rest with [] => True | c :: _ => c = x2e \/ c = x5b end.
Lemma property_loop_cursor name : forall fuel pre rest ir level, forallb plain name = true -> stops rest -> length name < fuel ->
  property_loop fuel (cursor pre (name ++ rest) ms ir level skip) = (cursor (pre ++ name) rest ms ir level skip, Ok tt).
Proof.
  induction name as [|c name IH]; intros fuel pre rest ir level Hp Hs Hf; (destruct fuel as [|fuel]; [cbn in Hf; lia|]); cbn [property_loop app]; unfold with_parser.
  - rewrite app_nil_r. destruct rest as [|c rest]; [by rewrite has_next_nil|]. rewrite has_next_cons, (bind_ok _ _ _ _ _ (peek_cursor _ _ _ _ _)). by destruct Hs as [->| ->].
  - rewrite has_next_cons, (bind_ok _ _ _ _ _ (peek_cursor _ _ _ _ _)). cbn [forallb] in Hp. apply andb_true_iff in Hp as [Hc Hp]. unfold plain in Hc.
    apply andb_true_iff in Hc as [[H1 H2]%andb_true_iff H3]. apply negb_true_iff in H1, H2, H3. rewrite H1, H2, H3. cbn [orb].
    rewrite (bind_ok _ _ _ _ _ (next_cursor _ _ _ _ _)), IH by (done || (cbn in Hf; lia)). by rewrite <- cursor_step.
Qed.
Lemma quoted_loop_cursor name : forall fuel pre rest ir level, forallb unquoted name = true -> length name < fuel ->
  quoted_loop fuel x27 false (cursor pre (name ++ x27 :: rest) ms ir level skip) = (cursor (pre ++ name) (x27 :: rest) ms ir level skip, Ok tt).
Proof.
  induction name as [|c name IH]; intros fuel pre rest ir level Hp Hf; (destruct fuel as [|fuel]; [cbn in Hf; lia|]); cbn [quoted_loop app]; unfold with_parser; rewrite has_next_cons.
  - rewrite app_nil_r. by rewrite (bind_ok _ _ _ _ _ (peek_cursor _ _ _ _ _)).
  - rewrite (bind_ok _ _ _ _ _ (peek_cursor _ _ _ _ _)). cbn [forallb] in Hp. apply andb_true_iff in Hp as [[H1 H2]%andb_true_iff Hp]. apply negb_true_iff in H1, H2. rewrite H1, H2.
    rewrite (bind_ok _ _ _ _ _ (next_cursor _ _ _ _ _)), IH by (done || (cbn in Hf; lia)). by rewrite <- cursor_step.
Qed.
Lemma integer_loop_cursor digits is_end c : forall fuel pre rest ir level, forallb is_digit_byte digits = true -> is_digit_byte c = false -> is_end c = true -> length digits < fuel ->
  integer_loop fuel is_end (cursor pre (digits ++ c :: rest) ms ir level skip) = (cursor (pre ++ digits) (c :: rest) ms ir level skip, Ok tt).
Proof.
  induction digits as [|d digits IH]; intros fuel pre rest ir level Hp Hc He Hf; (destruct fuel as [|fuel]; [cbn in Hf; lia|]); cbn [integer_loop app]; unfold with_parser; rewrite has_next_cons.
  - rewrite app_nil_r, (bind_ok _ _ _ _ _ (peek_cursor _ _ _ _ _)), Hc, He. done.
  - rewrite (bind_ok _ _ _ _ _ (peek_cursor _ _ _ _ _)). cbn [forallb] in Hp. apply andb_true_iff in Hp as [Hd Hp]. rewrite Hd.
    rewrite (bind_ok _ _ _ _ _ (next_cursor _ _ _ _ _)), IH by (done || (cbn in Hf; lia)). by rewrite <- cursor_step.
Qed.

Lemma read_property_cursor name pre rest ir level : forallb plain name = true -> stops rest ->
  read_property (cursor pre (name ++ rest) ms ir level skip) = (cursor (pre ++ name) rest ms ir level skip, Ok name).
Proof.
  intros Hp Hs. unfold read_property, with_parser at 1. cbv zeta. rewrite (bind_ok _ _ _ _ _ (property_loop_cursor name (fuel_of (cursor pre (name ++ rest) ms ir level skip)) pre rest ir level Hp Hs ltac:(unfold fuel_of; cbn; rewrite !length_app; lia))).
  apply substring_cursor.
Qed.
Lemma read_quoted_cursor name pre rest ir level : forallb unquoted name = true ->
  read_quoted_string (cursor pre (x27 :: name ++ x27 :: rest) ms ir level skip) = (cursor (pre ++ x27 :: name ++ [x27]) rest ms ir level skip, Ok name).
Proof.
  intros Hp. unfold read_quoted_string. rewrite (bind_ok _ _ _ _ _ (next_cursor _ _ _ _ _)). eqb_bytes. unfold with_parser at 1. cbv zeta.
  rewrite (bind_ok _ _ _ _ _ (quoted_loop_cursor name (fuel_of (cursor (pre ++ [x27]) (name ++ x27 :: rest) ms ir level skip)) (pre ++ [x27]) rest ir level Hp ltac:(unfold fuel_of; cbn; rewrite !length_app; cbn; lia))).
  unfold with_parser. rewrite (bind_ok _ _ _ _ _ (expect_cursor _ _ _ _ _)). cbn [jp_scanner sc_next cursor].
  pose proof (substring_cursor (pre ++ [x27]) name (x27 :: rest) ir level) as Hsub. unfold substring in *. cbn [jp_scanner sc_bytes cursor] in *.
  rewrite <- cursor_step, <- !app_assoc in *. cbn [app] in *. destruct (slice _ _ _) as [l|]; [|done]. injection Hsub as ->. done.
Qed.
Lemma read_integer_cursor i is_end c pre rest ir level : (i <= i32_max)%N -> forallb is_digit_byte (dec i) = true -> is_digit_byte c = false -> is_end c = true ->
  read_integer is_end (cursor pre (dec i ++ c :: rest) ms ir level skip) = (cursor (pre ++ dec i) (c :: rest) ms ir level skip, Ok (Z.of_N i)).
Proof.
  intros Hi Hd Hc He. unfold read_integer, with_parser at 1. cbv zeta. rewrite (bind_ok _ _ _ _ _ (integer_loop_cursor (dec i) is_end c (fuel_of (cursor pre (dec i ++ c :: rest) ms ir level skip)) pre rest ir level Hd Hc He ltac:(unfold fuel_of; cbn; rewrite !length_app; lia))).
  etransitivity; [apply bind_ok; exact (substring_cursor pre (dec i) (c :: rest) ir level)|]. by rewrite parse_dec.
Qed.
Lemma named_property_cursor name pre l ir level : name <> [] -> named_property name (cursor pre l ms ir level skip) = (cursor pre l ms (down (property name ir)) (level + 1) skip, Ok tt).
Proof. intros Hn. unfold named_property. by rewrite bool_decide_eq_false_2. Qed.
End Cursor.

Lemma dec_digits i : forallb is_digit_byte (dec i) = true.
Proof.
  assert (Hd : forall d, (d < 10)%N -> is_digit_byte (digit d) = true).
  { intros d Hd. assert (Hin : d ∈ [0; 1; 2; 3; 4; 5; 6; 7; 8; 9]%N) by (rewrite !elem_of_cons, elem_of_nil; lia). rewrite !elem_of_cons, elem_of_nil in Hin. naive_solver. }
  unfold dec. generalize (S (N.to_nat (N.size i))). intros fuel. revert i. induction fuel as [|fuel IH]; intros i; [done|]. cbn [dec_fuel]. destruct (N.ltb_spec i 10); [cbn; by rewrite Hd|].
  rewrite forallb_app, IH. cbn. rewrite Hd; [done|]. by apply N.mod_lt.
Qed.
(** One step of a plain path. *)
Lemma compile_step rest_m st pre l ms ir level skip : step_ok st = true -> stops l ->
  compile_next_expression rest_m (cursor pre (print_step st ++ l) ms ir level skip) = (cursor (pre ++ print_step st) l ms (step_ir st ir) (level + 1) skip, Ok tt).
Proof.
  intros Hok Hs. unfold compile_next_expression. destruct st as [name|name|i]; cbn [print_step app step_ok step_ir] in *.
  - apply andb_true_iff in Hok as [Hn Hp]. apply negb_true_iff, bool_decide_eq_false in Hn. rewrite (bind_ok _ _ _ _ _ (peek_cursor _ _ _ _ _ _ _)). eqb_bytes. unfold compile_dot_expression.
    rewrite (bind_ok _ _ _ _ _ (expect_cursor _ _ _ _ _ _ _)). destruct name as [|c name]; [done|]. cbn [app]. rewrite (bind_ok _ _ _ _ _ (peek_cursor _ _ _ _ _ _ _)).
    assert (Byte.eqb c x2e = false) as -> by (cbn in Hp; unfold plain in Hp; destruct (Byte.eqb c x2e); [by rewrite andb_false_r in Hp|done]).
    change (c :: name ++ l) with ((c :: name) ++ l). rewrite (bind_ok _ _ _ _ _ (read_property_cursor _ _ _ _ _ _ _ Hp Hs)), named_property_cursor by done. by rewrite <- app_assoc.
  - apply andb_true_iff in Hok as [Hn Hp]. apply negb_true_iff, bool_decide_eq_false in Hn. rewrite <- app_assoc. cbn [app]. rewrite (bind_ok _ _ _ _ _ (peek_cursor _ _ _ _ _ _ _)). eqb_bytes. unfold compile_index_expression.
    rewrite (bind_ok _ _ _ _ _ (expect_cursor _ _ _ _ _ _ _)), (bind_ok _ _ _ _ _ (peek_cursor _ _ _ _ _ _ _)). eqb_bytes.
    rewrite (bind_ok (let! name := read_quoted_string in named_property name) _ _ (cursor ((pre ++ [x5b]) ++ x27 :: name ++ [x27]) (x5d :: l) ms (down (property name ir)) (level + 1) skip) tt).
    + rewrite expect_cursor, <- !app_assoc. cbn [app]. by rewrite <- app_assoc.
    + rewrite (bind_ok _ _ _ _ _ (read_quoted_cursor _ _ _ _ _ _ _ Hp)). by apply named_property_cursor.
  - apply N.leb_le in Hok. rewrite (bind_ok _ _ _ _ _ (peek_cursor _ _ _ _ _ _ _)). eqb_bytes. unfold compile_index_expression. rewrite (bind_ok _ _ _ _ _ (expect_cursor _ _ _ _ _ _ _)).
    rewrite <- app_assoc. cbn [app]. pose proof (dec_digits i) as Hd. destruct (dec i) as [|d ds] eqn:Ed; [by apply dec_nonempty in Ed|]. cbn [app]. rewrite (bind_ok _ _ _ _ _ (peek_cursor _ _ _ _ _ _ _)).
    assert (Hdd : is_digit_byte d = true) by (cbn in Hd; by apply andb_true_iff in Hd as [Hd _]).
    assert (Byte.eqb d x27 || Byte.eqb d x22 = false) as -> by (destruct d; done). rewrite Hdd. change (d :: ds ++ x5d :: l) with ((d :: ds) ++ x5d :: l). rewrite <- Ed.
    rewrite (bind_ok _ _ _ _ _ (read_integer_cursor ms skip i _ x5d _ l ir level Hok (dec_digits i) eq_refl eq_refl)), (bind_ok _ _ _ _ _ (peek_cursor _ _ _ _ _ _ _)). eqb_bytes.
    rewrite (bind_ok (create_index_ir (Z.of_N i)) _ _ (cursor ((pre ++ [x5b]) ++ dec i) (x5d :: l) ms (down (index (Z.of_N i) ir)) (level + 1) skip) tt) by done.
    rewrite expect_cursor, <- !app_assoc. cbn [app]. by rewrite Ed.
Qed.

Definition print_path (path : list PathStep) : bytes := concat (print_step <$> path).
Lemma print_path_stops path : stops (print_path path).
Proof. destruct path as [|[] path]; cbn; auto. Qed.
Lemma compile_path_cursor path : forall fuel pre ms ir level skip, forallb step_ok path = true -> length path < fuel ->
  compile_expressions fuel (cursor pre (print_path path) ms ir level skip) =
    (cursor (pre ++ print_path path) [] ms (foldl (fun ir st => step_ir st ir) ir path) (level + lenN path) skip, Ok tt).
Proof.
  induction path as [|st path IH]; intros fuel pre ms ir level skip Hok Hf; (destruct fuel as [|fuel]; [cbn in Hf; lia|]); cbn [compile_expressions]; unfold with_parser.
  - unfold print_path. cbn [fmap list_fmap concat]. rewrite has_next_nil, app_nil_r. by rewrite N.add_0_r.
  - unfold print_path in *. rewrite fmap_cons. cbn [concat foldl forallb] in *. apply andb_true_iff in Hok as [Hst Hok].
    assert (Hnx : has_next (cursor pre (print_step st ++ concat (print_step <$> path)) ms ir level skip) = true) by (destruct st; apply has_next_cons). rewrite Hnx.
    rewrite (bind_ok _ _ _ _ _ (compile_step _ st pre _ ms ir level skip Hst (print_path_stops path))), IH by (done || (cbn in Hf; lia)).
    rewrite <- app_assoc. by replace (level + 1 + lenN path)%N with (level + lenN (st :: path))%N by (unfold lenN; cbn [length]; lia).
Qed.
Lemma step_ir_code st ir : step_ok st = true ->
  ir_buffer (step_ir st ir) = ir_buffer ir ++ step_code st /\ ir_num_result_stores (step_ir st ir) = ir_num_result_stores ir /\ ir_ended (step_ir st ir) = ir_ended ir.
Proof.
  intros Hok. destruct st as [name|name|i]; cbn -[write_string write_varint]; rewrite <- ?app_assoc; [done..|]. apply N.leb_le in Hok. unfold i32_max in Hok.
  rewrite Z.mod_small, N2Z.id by lia. by rewrite <- ?app_assoc.
Qed.
Lemma path_ir_code path : forall ir, forallb step_ok path = true -> let ir' := foldl (fun ir st => step_ir st ir) ir path in
  ir_buffer ir' = ir_buffer ir ++ concat (step_code <$> path) /\ ir_num_result_stores ir' = ir_num_result_stores ir /\ ir_ended ir' = ir_ended ir.
Proof.
  induction path as [|st path IH]; intros ir Hok; [cbn; by rewrite app_nil_r|]. cbn [forallb] in Hok. apply andb_true_iff in Hok as [Hst Hok]. cbn [foldl]. cbv zeta.
  destruct (IH (step_ir st ir) Hok) as (-> & -> & ->), (step_ir_code st ir Hst) as (-> & -> & ->). rewrite fmap_cons. cbn [concat]. by rewrite app_assoc.
Qed.
(** C27: a plain path, written with dots, quoted names and indices, is compiled
    to the moves it names in their order, one store and the end; with names
    that do not need escapes and indices in range it is never refused. *)
Theorem compile_plain_path path : forallb step_ok path = true ->
  compile (x24 :: print_path path) = Ok (MkResult (concat (step_code <$> path) ++ [x01; x00]) 0 1).
Proof.
  intros Hok. unfold compile, compile_root. change (parser_new (x24 :: print_path path)) with (cursor [] (x24 :: print_path path) [] builder_new 0 false).
  rewrite (bind_ok _ _ _ _ _ (expect_cursor _ _ _ _ _ _ _)). assert (Hlen : length path <= length (print_path path)).
  { unfold print_path. clear Hok. induction path as [|st path IH]; [done|]. rewrite fmap_cons. cbn [concat length]. rewrite length_app. destruct st; cbn [print_step length app]; lia. }
  rewrite (bind_ok _ _ _ _ _ (compile_path_cursor path (S (length (x24 :: print_path path))) ([] ++ [x24]) [] builder_new 0 false Hok ltac:(cbn [length]; lia))).
  destruct (path_ir_code path builder_new Hok) as (Hb & Hn & He). unfold with_parser.
  destruct (foldl _ builder_new path) as [buffer current stores ended]. cbn [ir_buffer ir_num_result_stores ir_ended builder_new app] in Hb, Hn, He. subst. cbn. by rewrite <- app_assoc.
Qed.
Definition sample_path : list PathStep := [Dot (lit "results"); Idx 300; Quoted (lit "a.b")].
Lemma compile_plain_path_witness : x24 :: print_path sample_path = lit "$.results[300]['a.b']" /\
  compile (x24 :: print_path sample_path) = Ok (MkResult (concat (step_code <$> sample_path) ++ [x01; x00]) 0 1).
Proof. split; [reflexivity|]. apply (compile_plain_path sample_path). reflexivity. Defined.

(** Ranges: the rest of the path is compiled again after the range, so that a
    range within a range stores twice as many results as it names, and an empty
    range stores the whole value. *)
Lemma nested_ranges_store_too_much : (jr_num_results <$> match compile (lit "$[0:2][0:2]") with Ok r => Some r | Err _ => None end) = Some 8%N.
Proof. reflexivity. Qed.
Lemma empty_range_stores_root : compile (lit "$[2:2]") = Ok (MkResult [x01; x00] 0 1).
Proof. reflexivity. Qed.
